(* ===== verification/_CoqProject ===== *)
-Q . S2P
Prelude.v
Adpcm.v
GsmAdd.v
GsmTable.v
GsmRpe.v
GsmLtp.v
GsmStp.v
GsmPreprocess.v
GsmLpc.v
GsmCodec.v
GsmFrame.v
Bytes.v
Stdio.v
ToastTables.v
Toast.v
Sha.v
BlowfishPi.v
Blowfish.v
AesTables.v
Aes.v
Aesxam.v
DijkstraData.v
Dijkstra.v
Crc32.v
Isqrt.v
StringSearch.v
Bitcount.v
Bitops.v
Patricia.v
PatriciaTrie.v
PatriciaInsert.v
PatriciaDict.v
PatriciaRemove.v
Idea.v
IdeaCfb.v
Md5.v
RandPool.v
Mpi.v
MpiDiv.v
MpiSmith.v
MpiExp.v
NumTheory.v
MpiEuclid.v
MpiIo.v
MpiSieve.v
MpiPrime.v
Rsa.v
RsaKeygen.v
Keygen.v
TrueRand.v
CryptRand.v
Crc24.v
Radix64.v
ArmorIo.v
Charset.v
Canonical.v
ArmorEncode.v
ArmorDecode.v
ArmorTrip.v
ArmorClear.v
