(* ===== verification/Prelude.v ===== *)
(** * A verification library for the embedded C programs of the repository

    The repository runs the MiBench programs (src/mibench) on a simulated RISC-V machine
    (src/gem5). The development models the C programs that are MiBench's own, function by
    function, and proves what each of them is for.

    ** Conventions

    A C integer of [w] bits is a [Z] in the range of its type; every conversion is written out with
    [wrapU] and [wrapS] (below), so an unsigned overflow wraps as in C, and a signed overflow wraps
    as the compiler of the build makes it. [long] has 32 or 64 bits: the functions that use it
    take a [data_model], and their theorems hold for both or say for which. [char] is unsigned, as on
    RISC-V. An array is a list; [aget] and [aset] are checked accesses, [aread], [awrite] and [mfold] the loops over
    them, and an access outside, a shift that C leaves undefined, a division by zero and a failed assertion are values
    of the error monad [res]. Only where every index is a constant of the source, or masked to the length of a table, inside
    the block functions of Sha.v, Md5.v, Aes.v, Blowfish.v and RandPool.v, is the total lookup used, on arrays whose length
    their invariants fix. The total functions that the GSM files compare the code with ([weighted],
    [analysis_filter], [accumulated], [unpacked] and the like) are specifications. A
    loop is a structural recursion where it counts, and a recursion on fuel otherwise; running out of
    fuel is the error [OutOfFuel], which the theorems exclude, or tie to an input that makes the
    program wait for ever. Files and
    streams are values with their position and their flags (Stdio.v). Allocation succeeds.

    ** Parts

    Each line names the files of the development and the sources under src/mibench.

    - Prelude.v, Bytes.v, Stdio.v: integers, arrays, loops, the error monad with its
      postconditions ([okp]), bytes and words, streams.
    - telecomm/adpcm (Adpcm.v): [adpcm_coder], [adpcm_decoder]. The decoder follows the predictor of
      the coder at every step; the step index and the predicted value stay in range.
    - telecomm/gsm, with every access checked. GsmAdd.v (add.c, private.h): the fixed-point operators, exact where the standard
      asks for it. GsmTable.v (table.c). GsmPreprocess.v (preprocess.c): the filters equal the exact
      integer filters. GsmLpc.v (lpc.c): autocorrelation, Schur recursion and quantisation never
      fail an assertion, the error of a coded log-area ratio. GsmStp.v (short_term.c): the synthesis
      filter undoes the analysis filter. GsmLtp.v (long_term.c): the lag and the gain
      are the best ones. GsmRpe.v (rpe.c): the grid is the best one, the decoded pulses are those
      the coder used. GsmCodec.v (code.c, decode.c, gsm_create.c, gsm_option.c): one frame; the
      coder and the decoder stay synchronised. GsmFrame.v (gsm_encode.c, gsm_decode.c, gsm_implode.c,
      gsm_explode.c): the 33 bytes of a frame, streams of frames; decoding is total. ToastTables.v and
      Toast.v (toast.c, toast_alaw.c, toast_ulaw.c, toast_lin.c, toast_audio.c): the audio formats and
      the two stream conversions of the program, with partial frames and with errors. GsmCodec
      calls the sections in the order of the C code, and Toast calls GsmFrame.
    - security/sha (Sha.v): SHA with its update interface, against the digest of the whole message.
    - security/blowfish (BlowfishPi.v, Blowfish.v): the Feistel network, the key schedule, four modes
      of operation.
    - security/rijndael (AesTables.v, Aes.v, Aesxam.v): the table-driven cipher against FIPS 197,
      the file encryption with its error codes and the parsing of the key.
    - security/pgp. Idea.v (idea.c): the cipher, its key schedule and the inverted key, modulo the prime
      65537. IdeaCfb.v (idea.c): the feedback mode on streams, with resynchronisation. Md5.v (md5.c): the
      digest of RFC 1321, and its failure where [long] has 64 bits. RandPool.v (randpool.c, idea.c):
      the pool of random bytes, stirred with MD5, and the generator of session keys, which
      takes time stamps from the pool and runs the cipher.
      The multiprecision library (mpilib.c, mpilib.h, in its portable configuration): Mpi.v, registers of
      16-bit units as numbers; MpiDiv.v, division and multiplication one bit at a time; MpiSmith.v,
      the modular multiplication with trial digits from a reciprocal, and where 32 bits are
      too few for it; MpiExp.v, exponentiation, for RSA also modulo the two factors; MpiEuclid.v
      (genprime.c), greatest common divisors and inverses; MpiIo.v (mpiio.c), bytes, words and the external form.
      Prime numbers (genprime.c): MpiSieve.v, the table of small primes and the sieve against trial division;
      MpiPrime.v, the search for the next prime and random primes. NumTheory.v has the number theory that
      they and RSA need, with certificates of primality.
      RSA: Rsa.v (rsaglue1.c), encryption and signatures with their padding, inverted by decryption and
      verification for every valid key ([rsa_key]); RsaKeygen.v (rsagen.c), the components of a key
      from its primes; Keygen.v (rsagen.c), the drawing of the primes and the self-test. Keygen calls MpiPrime,
      RsaKeygen and Rsa as the program does.
      Random numbers (random.c, noise.c): TrueRand.v, the estimate of the entropy in the pool, with the measurement of the
      clock tick, as a transition system of the calls; CryptRand.v, the seed file of the generator of session keys.
      ASCII armour (armor.c): Crc24.v, the checksum against the division by its polynomial; Radix64.v, the
      groups of four characters, decoded exactly when they are an encoding; ArmorIo.v, lines and headers;
      Charset.v (charset.c), the tables of the character sets; Canonical.v (fileio.c, crypto.c), the canonical form of a text,
      with the disk buffer that it can overrun, and the header of a packet; ArmorEncode.v, the files that are written; ArmorDecode.v, the decoder with its search for the next part, and
      what it does with lines it should refuse; ArmorTrip.v, decoding what was written in any number of
      parts, and the detection of a wrong byte; ArmorClear.v, clear signed texts with their quoting: what the reader gets
      is the canonical text that was signed, in a literal packet.
    - network/dijkstra (DijkstraData.v, Dijkstra.v): label correction with a queue
      computes the length of a shortest path, and the program ends.
    - network/patricia. Patricia.v (patricia.c, patricia.h, patricia_test.c): the operations on a heap
      of nodes. PatriciaTrie.v: the abstract trie, its invariant [trie_ok] and searching.
      PatriciaInsert.v, PatriciaDict.v, PatriciaRemove.v: insertion and removal implement those of a
      finite map, the test program finds the addresses that it has read before.
    - telecomm/CRC32 (Crc32.v): the table method against the polynomial division bit by bit.
    - automotive/basicmath/isqrt.c (Isqrt.v): the integer square root with its fraction bits.
    - automotive/bitcount (Bitcount.v, Bitops.v): the bit counters against the number of set bits; bit
      arrays, binary strings and bit files.
    - office/stringsearch (StringSearch.v): the four searches return the first occurrence.

    ** Bounds and fuel

    Loops with a bound in the source use that bound. Dijkstra: the queue loop decreases a measure of
    labels and queue entries ([dijkstra_main_total]). Patricia: a way down passes increasing bit
    positions up to 31, so the fuel 257 is never used up; the loop that merges masks runs at most
    one step more than there are masks, or overruns its buffer. String search: every step moves the position forward
    and the fuel exceeds the length of the text. Bit counters: the recursion
    depth is at most the width of [long] for non-negative numbers, and unbounded for negative ones, which is
    stated. Toast: the fuel of the stream loops is the number of bytes of the input and one more. IDEA: two
    steps of Euclid's algorithm halve the smaller number, so 17 turns are enough for 16 bits. The search for the highest bit of a unit takes at most 16 steps. MD5, the
    feedback mode and the pool: every turn takes at least one byte, except that a full pool is stirred first, so the
    length, or two more, is enough. Euclid on registers of n units: two turns halve a number, so 32*n+2 turns are enough.
    The search for a prime has the range of the code. Three loops wait for their input and take fuel from the
    caller: the padding waits for nonzero bytes ([padding_progress]), the drawing of primes for two that are
    far apart ([keygen_draws]), the accumulation for key strokes ([accumulation_live]; the measurement of the tick takes at most 15*10002 readings); the search for the
    exponent of a key ends after a number of turns that depends on the primes ([derive_rsakeys_key]). Lines of an
    armoured file: every turn takes a character, so the length and one more is enough, except that the decoder may
    open further files; its fuel comes from the caller, and the theorems give an amount that is enough. The canonical form: a
    block of a file takes a byte, and the loop over held spaces fills the buffer before its fuel ends.

    ** Not modelled

    Drivers that only open files, print, or measure time (the front ends of adpcm, sha, bf, the
    diagnostics of gsm; the option handling, the questions and the signal handling of toast); programs on floating
    point (FFT, cubic.c, rad2deg.c, susan's tables) and the sorting driver, whose sort is in the C library; the third-party
    packages that MiBench includes (jpeg, lame, mad, tiff, typeset, ghostscript,
    ispell, rsynth, sphinx, and the parts of pgp not named above, which are its command line, packets, key rings,
    compression and terminal, and of the armour the labels before keys); gem5, which is
    C++ and Python. *)
From stdpp Require Import base list numbers option tactics.
From Stdlib Require Import ZArith Lia.
#[global] Open Scope Z_scope.

(** * C integers

    A C integer of [w] bits is a [Z]; [wrapU] and [wrapS] are the conversions to the
    unsigned and to the signed two's-complement type of that width. *)

Definition wrapU (w x : Z) : Z := x mod 2 ^ w.
Definition wrapS (w x : Z) : Z := (x + 2 ^ (w - 1)) mod 2 ^ w - 2 ^ (w - 1).

Definition inU (w x : Z) : Prop := 0 <= x < 2 ^ w.
Definition inS (w x : Z) : Prop := - 2 ^ (w - 1) <= x < 2 ^ (w - 1).

#[global] Instance inU_dec w x : Decision (inU w x).
Proof. unfold inU. apply _. Defined.
#[global] Instance inS_dec w x : Decision (inS w x).
Proof. unfold inS. apply _. Defined.

Declare Scope cint_scope.
Delimit Scope cint_scope with cint.
Abbreviation u8 := (wrapU 8).
Abbreviation u16 := (wrapU 16).
Abbreviation u32 := (wrapU 32).
Abbreviation s8 := (wrapS 8).
Abbreviation s16 := (wrapS 16).
Abbreviation s32 := (wrapS 32).

(** The two data models a RISC-V tool chain offers for this code: [long] has 32 bits on
    rv32 ([ILP32]) and 64 bits on rv64 ([LP64]); [int] has 32 and [short] 16 on both. *)
Inductive data_model := ILP32 | LP64.
Definition long_bits (dm : data_model) : Z := match dm with ILP32 => 32 | LP64 => 64 end.
Abbreviation sL dm := (wrapS (long_bits dm)).
Abbreviation uL dm := (wrapU (long_bits dm)).

#[global] Instance data_model_eq_dec : EqDecision data_model.
Proof. solve_decision. Defined.

Create HintDb cint.

Section CInt.
Implicit Types w x y : Z.

Lemma wrapU_range w x : 0 <= w -> inU w (wrapU w x).
Proof. intros. apply Z.mod_pos_bound. lia. Qed.

Lemma wrapS_range w x : 0 < w -> inS w (wrapS w x).
Proof.
  intros. unfold inS, wrapS.
  pose proof (Z.mod_pos_bound (x + 2 ^ (w - 1)) (2 ^ w) ltac:(lia)).
  assert (2 ^ w = 2 * 2 ^ (w - 1)) by (rewrite <- Z.pow_succ_r by lia; f_equal; lia).
  lia.
Qed.

Lemma wrapU_id w x : inU w x -> wrapU w x = x.
Proof. intros. apply Z.mod_small. assumption. Qed.

Lemma wrapS_id w x : 0 < w -> inS w x -> wrapS w x = x.
Proof.
  intros ? [? ?]. unfold wrapS.
  assert (2 ^ w = 2 * 2 ^ (w - 1)) by (rewrite <- Z.pow_succ_r by lia; f_equal; lia).
  rewrite Z.mod_small; lia.
Qed.

Lemma wrapU_wrapS w x : 0 < w -> wrapU w (wrapS w x) = wrapU w x.
Proof.
  intros. unfold wrapU, wrapS. rewrite Zminus_mod_idemp_l. f_equal. lia.
Qed.

Lemma wrapS_add_l w x y : wrapS w (wrapS w x + y) = wrapS w (x + y).
Proof.
  unfold wrapS. f_equal. rewrite <- (Zplus_mod_idemp_l (x + y)).
  replace ((x + 2 ^ (w - 1)) mod 2 ^ w - 2 ^ (w - 1) + y + 2 ^ (w - 1)) with ((x + 2 ^ (w - 1)) mod 2 ^ w + y) by lia.
  rewrite Zplus_mod_idemp_l, Zplus_mod_idemp_l. f_equal. lia.
Qed.

(** A value of a narrow signed type is a value of every wider one. *)
Lemma inS_mono w w' x : 0 < w <= w' -> inS w x -> inS w' x.
Proof.
  unfold inS. intros.
  pose proof (Z.pow_le_mono_r 2 (w - 1) (w' - 1)). lia.
Qed.

Lemma inU_inS w w' x : 0 <= w < w' -> inU w x -> inS w' x.
Proof.
  unfold inS, inU. intros.
  pose proof (Z.pow_le_mono_r 2 w (w' - 1)). lia.
Qed.

Lemma long_bits_cases dm : long_bits dm = 32 \/ long_bits dm = 64.
Proof. destruct dm; auto. Qed.

Lemma sL_id dm x : inS 32 x -> sL dm x = x.
Proof.
  intros. apply wrapS_id; [destruct dm; simpl; lia|].
  apply (inS_mono 32); [destruct dm; simpl; lia|assumption].
Qed.

Lemma uL_id dm x : inU 32 x -> uL dm x = x.
Proof.
  intros H. apply wrapU_id. unfold inU in *. destruct dm; simpl in *; lia.
Qed.
End CInt.

(** Concrete bounds: turn [inS 16 x] and friends into numerals that [lia] reads. *)
Ltac cint_unfold :=
  unfold inS, inU in *;
  repeat match goal with
  | |- context [2 ^ (Zpos ?a - Zpos ?b)] => let c := eval vm_compute in (2 ^ (Zpos a - Zpos b)) in
      change (2 ^ (Zpos a - Zpos b)) with c
  | H : context [2 ^ (Zpos ?a - Zpos ?b)] |- _ => let c := eval vm_compute in (2 ^ (Zpos a - Zpos b)) in
      change (2 ^ (Zpos a - Zpos b)) with c in H
  | |- context [2 ^ Zpos ?a] => let c := eval vm_compute in (2 ^ Zpos a) in
      change (2 ^ Zpos a) with c
  | H : context [2 ^ Zpos ?a] |- _ => let c := eval vm_compute in (2 ^ Zpos a) in
      change (2 ^ Zpos a) with c in H
  end.
Ltac clia := cint_unfold; lia.
(** [lia] with division and remainder by numerals. *)
Ltac dlia := Z.to_euclidean_division_equations; lia.

(** Split on the boolean integer tests that C conditions translate to. *)
Ltac zcase :=
  repeat match goal with
  | |- context [if ?a <? ?b then _ else _] => destruct (Z.ltb_spec a b)
  | |- context [if ?a <=? ?b then _ else _] => destruct (Z.leb_spec a b)
  | |- context [if ?a =? ?b then _ else _] => destruct (Z.eqb_spec a b)
  | |- context [if (?a <? ?b) && _ then _ else _] => destruct (Z.ltb_spec a b)
  | |- context [if (?a <=? ?b) && _ then _ else _] => destruct (Z.leb_spec a b)
  | |- context [if (?a =? ?b) && _ then _ else _] => destruct (Z.eqb_spec a b)
  end; simpl andb; cbv iota.

(** * Errors, arrays and loops

    C code that can go wrong is translated into [res]: an access outside an array, a failed
    [assert] and a division by zero are errors, not values; [OutOfFuel] ends a [while] loop whose bound on the
    number of iterations was too small. *)

Inductive c_error := OutOfBounds | AssertFailed | DivByZero | OutOfFuel.
Inductive res (A : Type) := Ok (a : A) | Err (e : c_error).
Arguments Ok {A} a.
Arguments Err {A} e.

#[global] Instance res_ret : MRet res := fun A => Ok.
#[global] Instance res_bind : MBind res :=
  fun A B f m => match m with Ok a => f a | Err e => Err e end.

Definition c_assert (b : bool) : res unit := if b then Ok tt else Err AssertFailed.

(** [a[i]] and [a[i] = v]. *)
Definition aget (a : list Z) (i : Z) : res Z :=
  if 0 <=? i then match a !! Z.to_nat i with Some v => Ok v | None => Err OutOfBounds end
  else Err OutOfBounds.
Definition aset (a : list Z) (i v : Z) : res (list Z) :=
  if (0 <=? i) && (i <? Z.of_nat (length a)) then Ok (<[Z.to_nat i := v]> a)
  else Err OutOfBounds.

(** [for (k = i; n more times; k++) s = body(k, s)]. *)
Fixpoint cfor {S : Type} (n : nat) (i : Z) (body : Z -> S -> res S) (s : S) : res S :=
  match n with
  | O => Ok s
  | Datatypes.S n' => s' ← body i s; cfor n' (i + 1) body s'
  end.

(** Total correctness: the computation returns a value, and the value satisfies [P]. *)
Definition okp {A} (m : res A) (P : A -> Prop) : Prop :=
  match m with Ok a => P a | Err _ => False end.

(** An array of [n] signed 16-bit words. *)
Definition warr (n : Z) (a : list Z) : Prop := Z.of_nat (length a) = n /\ Forall (inS 16) a.

#[global] Instance warr_dec n a : Decision (warr n a).
Proof. unfold warr. apply _. Defined.

Section Res.
Context {A B : Type}.
Implicit Types (m : res A) (f : A -> res B).

Lemma okp_ok m P : okp m P <-> exists a, m = Ok a /\ P a.
Proof. destruct m; (split; [|intros (? & ? & ?)]); naive_solver. Qed.

Lemma okp_bind m f (Q : A -> Prop) (P : B -> Prop) :
  okp m Q -> (forall a, Q a -> okp (f a) P) -> okp (m ≫= f) P.
Proof. destruct m; simpl; [auto|contradiction]. Qed.

Lemma okp_bind_eq m f a (P : B -> Prop) : m = Ok a -> okp (f a) P -> okp (m ≫= f) P.
Proof. now intros ->. Qed.

Lemma bind_eq m f a (r : res B) : m = Ok a -> f a = r -> m ≫= f = r.
Proof. now intros ->. Qed.

Lemma okp_mono m (P Q : A -> Prop) : okp m P -> (forall a, P a -> Q a) -> okp m Q.
Proof. destruct m; simpl; auto. Qed.

Lemma okp_and m (P Q : A -> Prop) :
  okp m P -> (forall a, m = Ok a -> Q a) -> okp m (fun a => P a /\ Q a).
Proof. destruct m; simpl; auto. Qed.

Lemma bind_ok m f b : m ≫= f = Ok b <-> exists a, m = Ok a /\ f a = Ok b.
Proof. destruct m; (split; [|intros (? & ? & ?)]); naive_solver. Qed.

End Res.

Section Loops.
Context {A : Type}.

(** The invariant rule for counting loops, with the number of iterations as variant. *)
Lemma okp_cfor (I : Z -> A -> Prop) (body : Z -> A -> res A) n i s :
  I i s ->
  (forall k s', i <= k < i + Z.of_nat n -> I k s' -> okp (body k s') (I (k + 1))) ->
  okp (cfor n i body s) (I (i + Z.of_nat n)).
Proof.
  revert i s. induction n as [|n IH]; intros i s H0 Hb; simpl cfor.
  { rewrite Z.add_0_r. exact H0. }
  eapply okp_bind; [apply Hb; [lia|exact H0]|].
  intros s' Hs'. replace (i + Z.of_nat (S n)) with (i + 1 + Z.of_nat n) by lia.
  apply IH; [exact Hs'|]. intros. apply Hb; [lia|assumption].
Qed.

Lemma cfor_app (body : Z -> A -> res A) n m i s :
  cfor (n + m) i body s = cfor n i body s ≫= cfor m (i + Z.of_nat n) body.
Proof.
  revert i s. induction n as [|n IH]; intros i s; simpl.
  { now rewrite Z.add_0_r. }
  destruct (body i s); simpl; [|reflexivity].
  rewrite IH. do 2 f_equal. lia.
Qed.
End Loops.

Section Arrays.
Implicit Types (a : list Z) (i v n : Z).

Lemma aget_ok a i v : aget a i = Ok v <-> 0 <= i /\ a !! Z.to_nat i = Some v.
Proof.
  unfold aget. destruct (Z.leb_spec 0 i); [|naive_solver lia].
  destruct (a !! Z.to_nat i) eqn:E; naive_solver.
Qed.

Lemma aset_ok a i v a' :
  aset a i v = Ok a' <-> 0 <= i < Z.of_nat (length a) /\ a' = <[Z.to_nat i := v]> a.
Proof.
  unfold aset. destruct (Z.leb_spec 0 i), (Z.ltb_spec i (Z.of_nat (length a))); simpl;
    naive_solver lia.
Qed.

Lemma okp_aget_len a i (P : Z -> Prop) :
  0 <= i < Z.of_nat (length a) ->
  (forall v, a !! Z.to_nat i = Some v -> P v) -> okp (aget a i) P.
Proof.
  intros Hi HP. destruct (lookup_lt_is_Some_2 a (Z.to_nat i)) as [v Hv]; [lia|].
  rewrite (proj2 (aget_ok a i v)) by (split; [lia|exact Hv]). apply HP, Hv.
Qed.

Lemma aget_total a i :
  0 <= i < Z.of_nat (length a) -> aget a i = Ok (a !!! Z.to_nat i).
Proof.
  intros Hi. apply aget_ok. split; [lia|]. apply list_lookup_lookup_total_lt. lia.
Qed.

Lemma okp_aget n a i (P : Z -> Prop) :
  warr n a -> 0 <= i < n -> (forall v, inS 16 v -> P v) -> okp (aget a i) P.
Proof.
  intros [Hl Ha] Hi HP. apply okp_aget_len; [lia|].
  intros v Hv. apply HP. eapply Forall_lookup_1; eauto.
Qed.

Lemma okp_aset n a i v (P : list Z -> Prop) :
  warr n a -> 0 <= i < n -> inS 16 v ->
  (forall a', warr n a' -> a' = <[Z.to_nat i := v]> a -> P a') -> okp (aset a i v) P.
Proof.
  intros [Hl Ha] Hi Hv HP.
  rewrite (proj2 (aset_ok a i v _)) by (split; [lia|reflexivity]).
  apply HP; [|reflexivity]. split; [now rewrite length_insert|].
  apply Forall_insert; assumption.
Qed.

Lemma warr_lookup n a (i : nat) v : warr n a -> a !! i = Some v -> inS 16 v.
Proof. intros [_ Ha] H. eapply Forall_lookup_1; eauto. Qed.

Lemma warr_total n a (i : nat) : warr n a -> inS 16 (a !!! i).
Proof.
  intros Ha. rewrite list_lookup_total_alt. destruct (a !! i) eqn:E; simpl.
  - eapply warr_lookup; eauto.
  - clia.
Qed.

Lemma warr_app n m a b : warr n a -> warr m b -> warr (n + m) (a ++ b).
Proof.
  intros [? ?] [? ?]. split; [rewrite length_app; lia|].
  now apply Forall_app_2.
Qed.

Lemma warr_replicate (n : nat) v : inS 16 v -> warr (Z.of_nat n) (replicate n v).
Proof. intros. split; [now rewrite length_replicate|]. now apply Forall_replicate. Qed.
End Arrays.

#[export] Hint Resolve wrapU_range wrapS_range inS_mono inU_inS : cint.

(** One step of a total-correctness proof over [res]. *)
Ltac okp_step :=
  lazymatch goal with
  | |- okp (Ok _) _ => simpl
  | |- okp (mret _) _ => simpl
  | |- okp (c_assert _ ≫= _) _ =>
      apply okp_bind with (Q := fun _ => True); [unfold c_assert|intros _ _]
  | |- okp (aget _ _ ≫= _) _ => eapply okp_bind
  | |- okp (aset _ _ _ ≫= _) _ => eapply okp_bind
  | |- okp (if _ then _ else _) _ => zcase
  end.

(** Take apart a hypothesis that a computation returned normally. *)
Ltac inv_ok :=
  repeat match goal with
  | H : (_ ≫= _) = Ok _ |- _ => apply bind_ok in H; destruct H as (? & ? & H)
  | H : Ok _ = Ok _ |- _ => injection H; clear H; intros; subst
  | H : Err _ = Ok _ |- _ => discriminate H
  | H : mret _ = Ok _ |- _ => unfold mret, res_ret in H
  | H : c_assert ?b = Ok _ |- _ =>
      unfold c_assert in H; destruct b eqn:?; [clear H|discriminate H]
  | H : aget _ _ = Ok _ |- _ => apply aget_ok in H; destruct H
  | H : aset _ _ _ = Ok _ |- _ => apply aset_ok in H; destruct H
  end.

(** Evaluate bit operations and comparisons between numerals. *)
Ltac zlit x := lazymatch x with Z0 => idtac | Zpos _ => idtac | Zneg _ => idtac end.
Ltac zconst :=
  repeat match goal with
  | |- context [Z.lor ?a ?b] => zlit a; zlit b;
      let c := eval vm_compute in (Z.lor a b) in change (Z.lor a b) with c
  | |- context [Z.land ?a ?b] => zlit a; zlit b;
      let c := eval vm_compute in (Z.land a b) in change (Z.land a b) with c
  | |- context [Z.eqb ?a ?b] => zlit a; zlit b;
      let c := eval vm_compute in (Z.eqb a b) in change (Z.eqb a b) with c
  | |- context [Z.ltb ?a ?b] => zlit a; zlit b;
      let c := eval vm_compute in (Z.ltb a b) in change (Z.ltb a b) with c
  end; cbv iota.

(** A boolean property checked on every integer of a range holds on the range. *)
Lemma forallb_seqZ (f : Z -> bool) lo n :
  forallb f (seqZ lo n) = true -> forall x, lo <= x < lo + n -> f x = true.
Proof.
  intros H x Hx. rewrite forallb_forall in H. apply H.
  apply list_elem_of_In, elem_of_seqZ. lia.
Qed.

(** Induction on lists two elements at a time. *)
Lemma list_ind2 {A} (P : list A -> Prop) :
  P [] -> (forall x, P [x]) -> (forall x y l, P l -> P (x :: y :: l)) -> forall l, P l.
Proof.
  intros H0 H1 H2. fix IH 1. intros [|x [|y l]]; [apply H0|apply H1|apply H2, IH].
Qed.

(** Folds, with the step function abstract: conversion never looks inside it. *)
Lemma fold_left_cons {A B} (f : A -> B -> A) x l a : fold_left f (x :: l) a = fold_left f l (f a x).
Proof. reflexivity. Qed.

Lemma fold_left_inv {A B} (P : A -> Prop) (f : A -> B -> A) l a :
  (forall a x, P a -> P (f a x)) -> P a -> P (fold_left f l a).
Proof. intros Hf. revert a. induction l as [|x l IH]; intros a Ha; [exact Ha|]. apply IH, Hf, Ha. Qed.

(** A decidable goal about concrete values, by evaluation. *)
Ltac by_eval := apply (bool_decide_unpack _); vm_compute; exact I.

(** Drop the integer conversions whose argument is in range. *)
Ltac drop_wrap :=
  repeat match goal with
  | |- context [wrapS (long_bits ?dm) ?x] => rewrite (sL_id dm x) by clia
  | |- context [wrapU (long_bits ?dm) ?x] => rewrite (uL_id dm x) by clia
  | |- context [wrapS (Zpos ?w) ?x] => rewrite (wrapS_id (Zpos w) x) by clia
  | |- context [wrapU (Zpos ?w) ?x] => rewrite (wrapU_id (Zpos w) x) by clia
  | H : context [wrapS (long_bits ?dm) ?x] |- _ => rewrite (sL_id dm x) in H by clia
  | H : context [wrapU (long_bits ?dm) ?x] |- _ => rewrite (uL_id dm x) in H by clia
  end.

(** Masking with a field of [m] ones above bit [k]. *)
Lemma land_field a m k : 0 <= m -> 0 <= k ->
  Z.land a (Z.ones m ≪ k) = ((a / 2 ^ k) mod 2 ^ m) * 2 ^ k.
Proof.
  intros Hm Hk. rewrite <- Z.shiftl_mul_pow2, <- Z.land_ones, <- Z.shiftr_div_pow2 by assumption.
  apply Z.bits_inj'. intros i Hi.
  rewrite Z.land_spec, !Z.shiftl_spec by lia.
  destruct (Z.ltb_spec i k).
  - rewrite !(Z.testbit_neg_r _ (i - k)) by lia. apply andb_false_r.
  - rewrite Z.land_spec, Z.shiftr_spec by lia. do 2 f_equal. lia.
Qed.

Lemma land_255 x : Z.land 255 x = x mod 256.
Proof. rewrite Z.land_comm. apply (Z.land_ones x 8). lia. Qed.

Lemma okp_mapM {A B} (f : A -> res B) (P : A -> Prop) (Q : B -> Prop) l :
  Forall P l -> (forall a, P a -> okp (f a) Q) ->
  okp (mapM f l) (fun l' => length l' = length l /\ Forall Q l').
Proof.
  intros Hl Hf. induction Hl as [|a l Ha _ IH]; [split; [reflexivity|constructor]|].
  cbn [mapM]. eapply okp_bind; [apply Hf, Ha|]. intros b Hb.
  eapply okp_bind; [exact IH|]. intros l' [Hlen Hl'].
  split; [simpl; congruence|constructor; assumption].
Qed.

(** ** Checked sweeps over arrays

    [aread a o n] is the list of [a[o], ..., a[o+n-1]], what a loop that reads these elements in
    order sees, and [awrite a o l] stores the elements of [l] from [a[o]] on; every single access
    is checked. [mfold] is a loop over a list of indices whose body can fail. *)
Definition aread (a : list Z) (o n : Z) : res (list Z) := mapM (fun k => aget a (o + k)) (seqZ 0 n).

Fixpoint awrite (a : list Z) (o : Z) (l : list Z) : res (list Z) :=
  match l with
  | [] => mret a
  | v :: l => a ← aset a o v; awrite a (o + 1) l
  end.

Fixpoint mfold {A B} (f : A -> B -> res A) (l : list B) (a : A) : res A :=
  match l with
  | [] => mret a
  | x :: l => a ← f a x; mfold f l a
  end.

(** The value of a computation that is known to succeed. *)
Definition okd {A} (d : A) (m : res A) : A := match m with Ok a => a | Err _ => d end.

(** Where every step succeeds the checked sweep is the total one. *)
Lemma mapM_total {A B} (f : A -> res B) (g : A -> B) l :
  Forall (fun x => f x = Ok (g x)) l -> mapM f l = Ok (g <$> l).
Proof.
  induction 1 as [|x l E _ IH]; [reflexivity|]. cbn [mapM]. rewrite E. cbn [mbind res_bind].
  rewrite IH. reflexivity.
Qed.

Lemma mfold_total {A B} (I : A -> Prop) (f : A -> B -> res A) (g : A -> B -> A) l : forall a,
  I a -> Forall (fun x => forall a, I a -> f a x = Ok (g a x) /\ I (g a x)) l ->
  mfold f l a = Ok (fold_left g l a) /\ I (fold_left g l a).
Proof.
  intros a Ha Hl. revert a Ha. induction Hl as [|x l Hx _ IH]; intros a Ha; [split; [reflexivity|exact Ha]|].
  cbn [mfold fold_left]. destruct (Hx a Ha) as [-> Ha']. cbn [mbind res_bind]. apply IH, Ha'.
Qed.

Lemma mfold_ok {A B} (f : A -> B -> res A) (g : A -> B -> A) l a :
  Forall (fun x => forall a, f a x = Ok (g a x)) l -> mfold f l a = Ok (fold_left g l a).
Proof.
  intros H. apply (mfold_total (fun _ => True)); [exact I|]. revert H. apply Forall_impl. auto.
Qed.

Lemma aread_ok a o n : 0 <= o -> 0 <= n -> o + n <= Z.of_nat (length a) ->
  aread a o n = Ok (take (Z.to_nat n) (drop (Z.to_nat o) a)).
Proof.
  intros Ho Hn Hl. unfold aread.
  rewrite (mapM_total _ (fun k => a !!! Z.to_nat (o + k))).
  2: { apply Forall_forall. intros k Hk. apply list_elem_of_In, elem_of_seqZ in Hk. apply aget_total. lia. }
  f_equal. apply list_eq. intros i. rewrite list_lookup_fmap. destruct (decide (i < Z.to_nat n)%nat).
  - rewrite lookup_seqZ_lt by lia. rewrite lookup_take_lt, lookup_drop by lia. cbn.
    rewrite list_lookup_lookup_total_lt by lia. do 2 f_equal. lia.
  - rewrite lookup_seqZ_ge by lia. rewrite lookup_take_ge by lia. reflexivity.
Qed.

Lemma map_fmap {A B} (f : A -> B) (l : list A) : map f l = f <$> l.
Proof. reflexivity. Qed.

(** Reading a whole array. *)
Lemma aread_all a n : Z.of_nat (length a) = n -> aread a 0 n = Ok a.
Proof. intros Hl. rewrite aread_ok by lia. rewrite drop_0, take_ge by lia. reflexivity. Qed.

Lemma awrite_ok l : forall a o, 0 <= o -> o + Z.of_nat (length l) <= Z.of_nat (length a) ->
  awrite a o l = Ok (take (Z.to_nat o) a ++ l ++ drop (Z.to_nat o + length l) a).
Proof.
  induction l as [|v l IH]; intros a o Ho Hl; cbn [awrite length] in *.
  { unfold mret, res_ret. f_equal. rewrite Nat.add_0_r. symmetry. apply take_drop. }
  rewrite (proj2 (aset_ok a o v (<[Z.to_nat o := v]> a))) by (split; [lia|reflexivity]).
  cbn [mbind res_bind]. rewrite IH by (rewrite ?length_insert; lia). f_equal.
  replace (Z.to_nat (o + 1)) with (S (Z.to_nat o)) by lia.
  rewrite (take_S_r _ _ v) by (apply list_lookup_insert_eq; lia).
  rewrite take_insert_ge, <- app_assoc, drop_insert_lt by lia. cbn [app]. do 4 f_equal. lia.
Qed.

(** A loop whose iteration [k] stores one element is a [map] over the indices. *)
Lemma map_lookup_total (f : Z -> Z) n i :
  (i < n)%nat -> (f <$> seqZ 0 (Z.of_nat n)) !!! i = f (Z.of_nat i).
Proof.
  intros H. apply list_lookup_total_correct. rewrite list_lookup_fmap.
  rewrite (lookup_seqZ_lt 0) by lia. reflexivity.
Qed.

Lemma warr_map (f : Z -> Z) n :
  (forall k, 0 <= k < n -> inS 16 (f k)) -> 0 <= n -> warr n (f <$> seqZ 0 n).
Proof.
  intros Hf Hn. split; [rewrite length_fmap, length_seqZ; lia|].
  apply Forall_fmap, Forall_forall. intros k Hk.
  apply list_elem_of_In, elem_of_seqZ in Hk. apply Hf. lia.
Qed.

(** ** Loops that run through known states *)

(** A loop whose state after [k] iterations is [st k]. *)
Lemma cfor_states {A} (st : nat -> A) (body : Z -> A -> res A) n i :
  (forall k, (k < n)%nat -> body (i + Z.of_nat k) (st k) = Ok (st (S k))) ->
  cfor n i body (st 0%nat) = Ok (st n).
Proof.
  revert st i. induction n as [|n IH]; intros st i H; [reflexivity|].
  cbn [cfor]. pose proof (H 0%nat ltac:(lia)) as H0. rewrite Z.add_0_r in H0. rewrite H0.
  cbn [mbind res_bind].
  apply (IH (fun k => st (S k))). intros k Hk.
  replace (i + 1 + Z.of_nat k) with (i + Z.of_nat (S k)) by lia. apply H. lia.
Qed.

(** The array [a] after its elements [o .. o+k-1] were overwritten with [g 0 .. g (k-1)]. *)
Definition store (a : list Z) (o : nat) (g : nat -> Z) (k : nat) : list Z :=
  take o a ++ (g <$> seq 0 k) ++ drop (o + k) a.

Section Store.
Implicit Types (a : list Z) (o k i : nat) (g : nat -> Z).

Lemma store_0 a o g : store a o g 0 = a.
Proof. unfold store. simpl. rewrite Nat.add_0_r. apply take_drop. Qed.

Lemma length_store a o g k : (o + k <= length a)%nat -> length (store a o g k) = length a.
Proof.
  intros. unfold store.
  rewrite !length_app, length_take, length_fmap, length_seq, length_drop. lia.
Qed.

Lemma lookup_store a o g k i : (o + k <= length a)%nat ->
  store a o g k !! i =
    if decide (o <= i < o + k)%nat then Some (g (i - o)%nat) else a !! i.
Proof.
  intros H. unfold store.
  assert (length (take o a) = o) as Ho by (rewrite length_take; lia).
  case_decide as Hi.
  - rewrite lookup_app_r by lia. rewrite lookup_app_l by (rewrite length_fmap, length_seq; lia).
    rewrite list_lookup_fmap, Ho, lookup_seq_lt by lia. reflexivity.
  - destruct (decide (i < o)%nat).
    + rewrite lookup_app_l by lia. apply lookup_take_lt. lia.
    + rewrite lookup_app_r, Ho by lia.
      rewrite lookup_app_r by (rewrite length_fmap, length_seq; lia).
      rewrite length_fmap, length_seq, lookup_drop. f_equal. lia.
Qed.

Lemma store_S a o g k : (o + k < length a)%nat ->
  <[(o + k)%nat := g k]> (store a o g k) = store a o g (S k).
Proof.
  intros H. apply list_eq. intros i.
  rewrite lookup_store by lia.
  destruct (decide (i = o + k)%nat) as [->|Hne].
  - rewrite list_lookup_insert_eq by (rewrite length_store; lia).
    rewrite decide_True by lia. do 2 f_equal. lia.
  - rewrite list_lookup_insert_ne, lookup_store by lia.
    repeat case_decide; try reflexivity; lia.
Qed.

(** One iteration of a loop that stores [g k] at [o + k]. *)
Lemma aset_store a o g k v : (o + k < length a)%nat -> v = g k ->
  aset (store a o g k) (Z.of_nat o + Z.of_nat k) v = Ok (store a o g (S k)).
Proof.
  intros H ->. apply aset_ok. rewrite length_store by lia. split; [lia|].
  rewrite <- Nat2Z.inj_add, Nat2Z.id. symmetry. apply store_S, H.
Qed.

Lemma aget_store a o g k (i v : Z) :
  (o + k <= length a)%nat -> 0 <= i -> (Z.to_nat i < o \/ o + k <= Z.to_nat i)%nat ->
  a !! Z.to_nat i = Some v -> aget (store a o g k) i = Ok v.
Proof.
  intros H Hi Hd Hv. apply aget_ok. split; [exact Hi|].
  rewrite lookup_store, decide_False by lia. exact Hv.
Qed.

Lemma warr_store (n : Z) a o g k :
  warr n a -> (o + k <= length a)%nat -> (forall j, (j < k)%nat -> inS 16 (g j)) ->
  warr n (store a o g k).
Proof.
  intros [Hl Hw] Hk Hg. split; [now rewrite length_store|].
  unfold store. apply Forall_app_2; [now apply Forall_take|].
  apply Forall_app_2; [|now apply Forall_drop].
  apply Forall_fmap, Forall_forall. intros j Hj. apply Hg. apply in_seq in Hj. lia.
Qed.
End Store.

(** ** Finite sums *)

Fixpoint zsum (f : nat -> Z) (n : nat) : Z :=
  match n with O => 0 | S n => zsum f n + f n end.

Lemma zsum_bound f n B :
  (forall k, (k < n)%nat -> - B <= f k <= B) -> - (Z.of_nat n * B) <= zsum f n <= Z.of_nat n * B.
Proof.
  induction n as [|n IH]; intros H; cbn [zsum]; [lia|].
  pose proof (H n ltac:(lia)). specialize (IH ltac:(intros; apply H; lia)). lia.
Qed.

Lemma zsum_nonneg f n : (forall k, (k < n)%nat -> 0 <= f k) -> 0 <= zsum f n.
Proof.
  induction n as [|n IH]; intros H; cbn [zsum]; [lia|].
  pose proof (H n ltac:(lia)). specialize (IH ltac:(intros; apply H; lia)). lia.
Qed.

(** Two loops whose bodies agree on the states that an invariant allows. *)
Lemma cfor_agree {A} (I : A -> Prop) (b1 b2 : Z -> A -> res A) n i s :
  I s -> (forall k s, i <= k < i + Z.of_nat n -> I s -> b1 k s = b2 k s /\ okp (b2 k s) I) ->
  cfor n i b1 s = cfor n i b2 s /\ okp (cfor n i b2 s) I.
Proof.
  revert i s. induction n as [|n IH]; intros i s Hs H; cbn [cfor]; [split; [reflexivity|exact Hs]|].
  destruct (H i s ltac:(lia) Hs) as [-> Ho]. destruct (b2 i s) as [s'|e]; [|destruct Ho].
  cbn [mbind res_bind]. apply IH; [exact Ho|]. intros. apply H; [lia|assumption].
Qed.
