(* ===== verification/Adpcm.v ===== *)
(** Intel/DVI ADPCM (src/mibench/telecomm/adpcm/src/adpcm.c).

    [adpcm_coder] and [adpcm_decoder] translate the two C functions statement by statement;
    [ima_next] and [ima_quantize] are the reference description of one sample. The results:
    coder and decoder stay synchronised, neither leaves its tables, and one step of the coder
    tracks the input within an eighth of the step size. *)
From stdpp Require Import base list numbers option tactics.
From Stdlib Require Import ZArith Lia.
From S2P Require Import Prelude.

Definition indexTable : list Z :=
  [-1; -1; -1; -1; 2; 4; 6; 8;
   -1; -1; -1; -1; 2; 4; 6; 8].

Definition stepsizeTable : list Z :=
  [7; 8; 9; 10; 11; 12; 13; 14; 16; 17;
   19; 21; 23; 25; 28; 31; 34; 37; 41; 45;
   50; 55; 60; 66; 73; 80; 88; 97; 107; 118;
   130; 143; 157; 173; 190; 209; 230; 253; 279; 307;
   337; 371; 408; 449; 494; 544; 598; 658; 724; 796;
   876; 963; 1060; 1166; 1282; 1411; 1552; 1707; 1878; 2066;
   2272; 2499; 2749; 3024; 3327; 3660; 4026; 4428; 4871; 5358;
   5894; 6484; 7132; 7845; 8630; 9493; 10442; 11487; 12635; 13899;
   15289; 16818; 18500; 20350; 22385; 24623; 27086; 29794; 32767].

(** [struct adpcm_state]: [short valprev; char index]; plain [char] is unsigned on RISC-V. *)
Record adpcm_state := mk_adpcm_state { valprev : Z; index : Z }.

(** * The coder *)

(** Step 2 of the coder, on the magnitude of the difference: the code bits and the change of
    the predicted value. *)
Definition coder_divide (diff step : Z) : Z * Z :=
  let delta := 0 in
  let vpdiff := step ≫ 3 in
  let '(delta, diff, vpdiff) :=
    if step <=? diff then (4, diff - step, vpdiff + step) else (delta, diff, vpdiff) in
  let step := step ≫ 1 in
  let '(delta, diff, vpdiff) :=
    if step <=? diff then (Z.lor delta 2, diff - step, vpdiff + step)
    else (delta, diff, vpdiff) in
  let step := step ≫ 1 in
  if step <=? diff then (Z.lor delta 1, vpdiff + step) else (delta, vpdiff).

Definition clamp_val (valpred : Z) : Z :=
  if 32767 <? valpred then 32767 else if valpred <? -32768 then -32768 else valpred.

Definition clamp_index (index : Z) : Z :=
  let index := if index <? 0 then 0 else index in
  if 88 <? index then 88 else index.

(** The local variables of [adpcm_coder] that live across iterations; [c_out] is what has
    been stored through [outp]. *)
Record coder_vars := mk_coder_vars {
  c_valpred : Z; c_index : Z; c_step : Z; c_outputbuffer : Z; c_bufferstep : bool;
  c_out : list Z }.

Definition coder_body (indata : list Z) (inp : Z) (s : coder_vars) : res coder_vars :=
  val ← aget indata inp;
  let diff := val - c_valpred s in
  let sign := if diff <? 0 then 8 else 0 in
  let diff := if sign =? 0 then diff else - diff in
  let '(delta, vpdiff) := coder_divide diff (c_step s) in
  let valpred := if sign =? 0 then c_valpred s + vpdiff else c_valpred s - vpdiff in
  let valpred := clamp_val valpred in
  let delta := Z.lor delta sign in
  dindex ← aget indexTable delta;
  let index := clamp_index (c_index s + dindex) in
  step ← aget stepsizeTable index;
  let outputbuffer :=
    if c_bufferstep s then Z.land (delta ≪ 4) 0xf0 else c_outputbuffer s in
  let out :=
    if c_bufferstep s then c_out s
    else c_out s ++ [s8 (Z.lor (Z.land delta 0x0f) (c_outputbuffer s))] in
  mret (mk_coder_vars valpred index step outputbuffer (negb (c_bufferstep s)) out).

Definition adpcm_coder (indata : list Z) (len : Z) (state : adpcm_state) :
    res (list Z * adpcm_state) :=
  step ← aget stepsizeTable (index state);
  s ← cfor (Z.to_nat len) 0 (coder_body indata)
        (mk_coder_vars (valprev state) (index state) step 0 true []);
  let out := if c_bufferstep s then c_out s else c_out s ++ [s8 (c_outputbuffer s)] in
  mret (out, mk_adpcm_state (s16 (c_valpred s)) (u8 (c_index s))).

(** * The decoder *)

Record decoder_vars := mk_decoder_vars {
  d_valpred : Z; d_index : Z; d_step : Z; d_inputbuffer : Z; d_bufferstep : bool;
  d_inp : Z; d_out : list Z }.

(** Step 4 of the decoder. *)
Definition decoder_vpdiff (delta step : Z) : Z :=
  let vpdiff := step ≫ 3 in
  let vpdiff := if Z.land delta 4 =? 0 then vpdiff else vpdiff + step in
  let vpdiff := if Z.land delta 2 =? 0 then vpdiff else vpdiff + step ≫ 1 in
  if Z.land delta 1 =? 0 then vpdiff else vpdiff + step ≫ 2.

Definition decoder_body (indata : list Z) (_ : Z) (s : decoder_vars) : res decoder_vars :=
  '(delta, inputbuffer, inp) ←
    (if d_bufferstep s then mret (Z.land (d_inputbuffer s) 0xf, d_inputbuffer s, d_inp s)
     else inputbuffer ← aget indata (d_inp s);
          mret (Z.land (inputbuffer ≫ 4) 0xf, inputbuffer, d_inp s + 1));
  dindex ← aget indexTable delta;
  let index := clamp_index (d_index s + dindex) in
  let sign := Z.land delta 8 in
  let delta := Z.land delta 7 in
  let vpdiff := decoder_vpdiff delta (d_step s) in
  let valpred := if sign =? 0 then d_valpred s + vpdiff else d_valpred s - vpdiff in
  let valpred := clamp_val valpred in
  step ← aget stepsizeTable index;
  mret (mk_decoder_vars valpred index step inputbuffer (negb (d_bufferstep s)) inp
          (d_out s ++ [s16 valpred])).

Definition adpcm_decoder (indata : list Z) (len : Z) (state : adpcm_state) :
    res (list Z * adpcm_state) :=
  step ← aget stepsizeTable (index state);
  s ← cfor (Z.to_nat len) 0 (decoder_body indata)
        (mk_decoder_vars (valprev state) (index state) step 0 false 0 []);
  mret (d_out s, mk_adpcm_state (s16 (d_valpred s)) (u8 (d_index s))).

(** * Reference description: one sample of the IMA algorithm *)

(** A predictor state the algorithm can be in: a 16-bit prediction, an index of the table. *)
Definition adpcm_wf (st : adpcm_state) : Prop := inS 16 (valprev st) /\ 0 <= index st <= 88.

#[global] Instance adpcm_wf_dec st : Decision (adpcm_wf st).
Proof. unfold adpcm_wf. apply _. Defined.

Definition step_of (st : adpcm_state) : Z := stepsizeTable !!! Z.to_nat (index st).

(** The state after the 4-bit code [d]. *)
Definition ima_next (st : adpcm_state) (d : Z) : adpcm_state :=
  let vpdiff := decoder_vpdiff (Z.land d 7) (step_of st) in
  mk_adpcm_state
    (clamp_val (if Z.land d 8 =? 0 then valprev st + vpdiff else valprev st - vpdiff))
    (clamp_index (index st + indexTable !!! Z.to_nat d)).

(** The code the coder chooses for the sample [v]. *)
Definition ima_quantize (st : adpcm_state) (v : Z) : Z :=
  let diff := v - valprev st in
  Z.lor (coder_divide (Z.abs diff) (step_of st)).1 (if diff <? 0 then 8 else 0).

Fixpoint ima_codes (st : adpcm_state) (vs : list Z) : list Z :=
  match vs with
  | [] => []
  | v :: vs => let d := ima_quantize st v in d :: ima_codes (ima_next st d) vs
  end.

Fixpoint ima_samples (st : adpcm_state) (ds : list Z) : list Z :=
  match ds with
  | [] => []
  | d :: ds => valprev (ima_next st d) :: ima_samples (ima_next st d) ds
  end.

(** Two codes to a byte, the first in the high half; an odd one is padded. *)
Fixpoint pack_nibbles (ds : list Z) : list Z :=
  match ds with
  | [] => []
  | [d] => [s8 (Z.land (d ≪ 4) 0xf0)]
  | d1 :: d2 :: ds => s8 (Z.lor (Z.land d2 0x0f) (Z.land (d1 ≪ 4) 0xf0)) :: pack_nibbles ds
  end.

(** * One step *)

Section Step.
Implicit Types (st : adpcm_state) (v d diff step : Z).

Lemma table_step i : 0 <= i <= 88 ->
  aget stepsizeTable i = Ok (stepsizeTable !!! Z.to_nat i) /\
  7 <= stepsizeTable !!! Z.to_nat i <= 32767.
Proof.
  intros Hi.
  assert (Forall (fun x => 7 <= x <= 32767) stepsizeTable) as Ht
    by (apply (bool_decide_unpack _); vm_compute; exact I).
  assert (stepsizeTable !! Z.to_nat i = Some (stepsizeTable !!! Z.to_nat i)) as Hl.
  { apply list_lookup_lookup_total_lt. change (length stepsizeTable) with 89%nat. lia. }
  split; [apply aget_ok; split; [lia|exact Hl]|].
  exact (Forall_lookup_1 _ _ _ _ Ht Hl).
Qed.

Lemma table_index d : 0 <= d < 16 ->
  aget indexTable d = Ok (indexTable !!! Z.to_nat d).
Proof.
  intros Hd. apply aget_ok. split; [lia|].
  apply list_lookup_lookup_total_lt. change (length indexTable) with 16%nat. lia.
Qed.

Lemma clamp_val_range v : inS 16 (clamp_val v).
Proof. unfold clamp_val. zcase; clia. Qed.

Lemma clamp_index_range i : 0 <= clamp_index i <= 88.
Proof. unfold clamp_index. zcase; lia. Qed.

Lemma ima_next_wf st d : adpcm_wf (ima_next st d).
Proof. split; [apply clamp_val_range|apply clamp_index_range]. Qed.

(** The coder's shift-and-subtract division yields a 3-bit code, and adds up exactly the
    change the decoder computes from that code. *)
Lemma coder_divide_spec diff step :
  0 <= (coder_divide diff step).1 < 8 /\
  (coder_divide diff step).2 = decoder_vpdiff (coder_divide diff step).1 step.
Proof.
  unfold coder_divide. rewrite (Z.shiftr_shiftr step 1 1) by lia.
  change (1 + 1) with 2.
  repeat (zcase; cbv beta iota zeta); cbn [fst snd]; zconst;
    (split; [lia|]); unfold decoder_vpdiff; zconst; lia.
Qed.

Lemma lor_sign m : 0 <= m < 8 ->
  0 <= Z.lor m 8 < 16 /\ Z.land (Z.lor m 8) 7 = m /\ Z.land (Z.lor m 8) 8 = 8 /\
  Z.land m 7 = m /\ Z.land m 8 = 0.
Proof.
  intros Hm. assert (m = 0 \/ m = 1 \/ m = 2 \/ m = 3 \/ m = 4 \/ m = 5 \/ m = 6 \/ m = 7)
    as Hc by lia.
  destruct_or! Hc; subst m; vm_compute; auto 10 with lia; repeat split; discriminate.
Qed.

Lemma ima_quantize_range st v : 0 <= ima_quantize st v < 16.
Proof.
  unfold ima_quantize.
  destruct (coder_divide_spec (Z.abs (v - valprev st)) (step_of st)) as [Hr _].
  pose proof (lor_sign _ Hr). zcase; [tauto|]. rewrite Z.lor_0_r. lia.
Qed.

Lemma coder_body_spec indata k s st v :
  adpcm_wf st -> c_valpred s = valprev st -> c_index s = index st -> c_step s = step_of st ->
  indata !! Z.to_nat k = Some v -> 0 <= k ->
  let d := ima_quantize st v in
  let ob := if c_bufferstep s then Z.land (d ≪ 4) 0xf0 else c_outputbuffer s in
  let out := if c_bufferstep s then c_out s
             else c_out s ++ [s8 (Z.lor (Z.land d 0x0f) (c_outputbuffer s))] in
  coder_body indata k s =
    Ok (mk_coder_vars (valprev (ima_next st d)) (index (ima_next st d))
          (step_of (ima_next st d)) ob (negb (c_bufferstep s)) out).
Proof.
  intros Hwf Hv Hi Hs Hl Hk d ob out. unfold coder_body.
  rewrite (proj2 (aget_ok indata k v)) by auto. cbn [mbind res_bind].
  rewrite Hv, Hi, Hs. unfold ob, out, d, ima_quantize, ima_next. cbn [valprev index].
  destruct (coder_divide_spec (Z.abs (v - valprev st)) (step_of st)) as [Hr Hvp].
  destruct (lor_sign _ Hr) as (H16 & H7 & H8 & H7' & H8').
  set (cd := coder_divide (Z.abs (v - valprev st)) (step_of st)) in *.
  destruct (Z.ltb_spec (v - valprev st) 0); cbn [Z.eqb].
  - replace (- (v - valprev st)) with (Z.abs (v - valprev st)) by lia. fold cd.
    destruct cd as [m vp] eqn:Ecd; cbn [fst snd] in *. rewrite H7, H8, <- Hvp. cbn [Z.eqb].
    rewrite table_index by lia. cbn [mbind res_bind].
    rewrite (proj1 (table_step _ (clamp_index_range _))). reflexivity.
  - replace (v - valprev st) with (Z.abs (v - valprev st)) at 1 by lia. fold cd.
    destruct cd as [m vp] eqn:Ecd; cbn [fst snd] in *.
    rewrite Z.lor_0_r, H7', H8', <- Hvp. cbn [Z.eqb].
    rewrite table_index by lia. cbn [mbind res_bind].
    rewrite (proj1 (table_step _ (clamp_index_range _))). reflexivity.
Qed.

Lemma decoder_body_spec indata k s st d ib inp :
  d_valpred s = valprev st -> d_index s = index st -> d_step s = step_of st ->
  0 <= d < 16 ->
  (if d_bufferstep s then d = Z.land (d_inputbuffer s) 0xf /\ ib = d_inputbuffer s /\ inp = d_inp s
   else aget indata (d_inp s) = Ok ib /\ d = Z.land (ib ≫ 4) 0xf /\ inp = d_inp s + 1) ->
  decoder_body indata k s =
    Ok (mk_decoder_vars (valprev (ima_next st d)) (index (ima_next st d))
          (step_of (ima_next st d)) ib (negb (d_bufferstep s)) inp
          (d_out s ++ [valprev (ima_next st d)])).
Proof.
  intros Hv Hi Hs Hd Hb. unfold decoder_body.
  assert ((if d_bufferstep s
           then mret (Z.land (d_inputbuffer s) 0xf, d_inputbuffer s, d_inp s)
           else inputbuffer ← aget indata (d_inp s);
                mret (Z.land (inputbuffer ≫ 4) 0xf, inputbuffer, d_inp s + 1))
          = Ok (d, ib, inp)) as ->.
  { destruct (d_bufferstep s); [naive_solver|].
    destruct Hb as (-> & -> & ->). reflexivity. }
  cbn [mbind res_bind]. rewrite table_index by lia. cbn [mbind res_bind].
  rewrite (proj1 (table_step _ (clamp_index_range _))). cbn [mbind res_bind].
  rewrite Hv, Hi, Hs. rewrite (wrapS_id 16); [reflexivity|lia|apply clamp_val_range].
Qed.
End Step.

(** * The loops *)

Section Loops.
Implicit Types (st : adpcm_state) (vs ds indata : list Z).

Definition ima_run st ds : adpcm_state := fold_left ima_next ds st.

Lemma ima_run_wf st ds : adpcm_wf st -> adpcm_wf (ima_run st ds).
Proof.
  revert st. induction ds as [|d ds IH]; intros st H; simpl; [exact H|].
  apply IH, ima_next_wf.
Qed.

Lemma ima_codes_range st vs : Forall (fun d => 0 <= d < 16) (ima_codes st vs).
Proof.
  revert st. induction vs; intros st; simpl; constructor; auto using ima_quantize_range.
Qed.

Lemma length_ima_codes st vs : length (ima_codes st vs) = length vs.
Proof. revert st. induction vs; intros; simpl; auto. Qed.

Lemma length_ima_samples st ds : length (ima_samples st ds) = length ds.
Proof. revert st. induction ds; intros; simpl; auto. Qed.

Definition coder_at (s : coder_vars) st : Prop :=
  c_valpred s = valprev st /\ c_index s = index st /\ c_step s = step_of st.

Definition coder_result (s : coder_vars) : list Z :=
  if c_bufferstep s then c_out s else c_out s ++ [s8 (c_outputbuffer s)].

Lemma coder_loop indata vs : forall st k s,
  adpcm_wf st -> coder_at s st -> c_bufferstep s = true -> 0 <= k ->
  (forall j v, vs !! j = Some v -> indata !! (Z.to_nat k + j)%nat = Some v) ->
  exists s', cfor (length vs) k (coder_body indata) s = Ok s' /\
    coder_at s' (ima_run st (ima_codes st vs)) /\
    coder_result s' = c_out s ++ pack_nibbles (ima_codes st vs).
Proof.
  induction vs as [|v|v1 v2 vs IH] using list_ind2; intros st k s Hwf (Hv & Hi & Hs) Hb Hk Hin.
  - exists s. unfold coder_result. rewrite Hb. cbn. rewrite app_nil_r.
    repeat split; assumption.
  - pose proof (Hin 0%nat v eq_refl) as H0. rewrite Nat.add_0_r in H0.
    cbn [length cfor]. rewrite (coder_body_spec _ _ _ st v) by assumption.
    rewrite Hb. eexists. split; [reflexivity|]. repeat split.
  - pose proof (Hin 0%nat v1 eq_refl) as H0. rewrite Nat.add_0_r in H0.
    pose proof (Hin 1%nat v2 eq_refl) as H1.
    replace (Z.to_nat k + 1)%nat with (Z.to_nat (k + 1)) in H1 by lia.
    cbn [length cfor]. rewrite (coder_body_spec _ _ _ st v1) by assumption.
    cbn [mbind res_bind]. rewrite Hb.
    rewrite (coder_body_spec _ _ _ (ima_next st (ima_quantize st v1)) v2);
      [|apply ima_next_wf|reflexivity..|exact H1|lia].
    cbn [mbind res_bind c_bufferstep negb c_out c_outputbuffer].
    set (st2 := ima_next (ima_next st _) _).
    destruct (IH st2 (k + 1 + 1) (mk_coder_vars (valprev st2) (index st2) (step_of st2)
        (Z.land (ima_quantize st v1 ≪ 4) 0xf0) true
        (c_out s ++ [s8 (Z.lor (Z.land (ima_quantize (ima_next st (ima_quantize st v1)) v2) 0x0f)
                        (Z.land (ima_quantize st v1 ≪ 4) 0xf0))]))) as (s' & E & Hat & Hres).
    { apply ima_next_wf. } { repeat split. } { reflexivity. } { lia. }
    { intros j v Hj. specialize (Hin (S (S j)) v Hj).
      now replace (Z.to_nat (k + 1 + 1) + j)%nat with (Z.to_nat k + S (S j))%nat by lia. }
    exists s'. split; [exact E|]. split; [exact Hat|].
    rewrite Hres. cbn [c_out]. rewrite <- app_assoc. reflexivity.
Qed.

Lemma nibble_high d1 d2 : 0 <= d1 < 16 -> 0 <= d2 < 16 ->
  let b := s8 (Z.lor (Z.land d2 0x0f) (Z.land (d1 ≪ 4) 0xf0)) in
  Z.land (b ≫ 4) 0xf = d1 /\ Z.land b 0xf = d2.
Proof.
  intros H1 H2.
  assert (forallb (fun d1 => forallb (fun d2 =>
    let b := s8 (Z.lor (Z.land d2 0x0f) (Z.land (d1 ≪ 4) 0xf0)) in
    (Z.land (b ≫ 4) 0xf =? d1) && (Z.land b 0xf =? d2)) (seqZ 0 16)) (seqZ 0 16) = true)
    as H by (vm_compute; reflexivity).
  pose proof (forallb_seqZ _ _ _ (forallb_seqZ _ _ _ H d1 H1) d2 H2) as E.
  apply andb_prop in E. destruct E as [E1 E2].
  split; [now apply Z.eqb_eq in E1|now apply Z.eqb_eq in E2].
Qed.

Definition decoder_at (s : decoder_vars) st : Prop :=
  d_valpred s = valprev st /\ d_index s = index st /\ d_step s = step_of st.

Lemma decoder_loop indata ds : forall st k s,
  Forall (fun d => 0 <= d < 16) ds ->
  decoder_at s st -> d_bufferstep s = false -> 0 <= d_inp s ->
  (forall j b, pack_nibbles ds !! j = Some b -> indata !! (Z.to_nat (d_inp s) + j)%nat = Some b) ->
  exists s', cfor (length ds) k (decoder_body indata) s = Ok s' /\
    decoder_at s' (ima_run st ds) /\ d_out s' = d_out s ++ ima_samples st ds.
Proof.
  induction ds as [|d|d1 d2 ds IH] using list_ind2; intros st k s Hds (Hv & Hi & Hs) Hb Hk Hin.
  - exists s. cbn. rewrite app_nil_r. repeat split; assumption.
  - pose proof (Forall_inv Hds) as Hd. cbn beta in Hd.
    pose proof (Hin 0%nat _ eq_refl) as H0. rewrite Nat.add_0_r in H0.
    cbn [length cfor].
    rewrite (decoder_body_spec _ _ _ st d (s8 (Z.land (d ≪ 4) 0xf0)) (d_inp s + 1));
      try assumption; [eexists; repeat split|].
    rewrite Hb. split; [apply aget_ok; auto|]. split; [|reflexivity].
    pose proof (nibble_high d 0 Hd ltac:(lia)) as [H _]. symmetry. exact H.
  - pose proof (Forall_inv Hds) as Hd1. pose proof (Forall_inv (Forall_inv_tail Hds)) as Hd2.
    cbn beta in Hd1, Hd2. pose proof (nibble_high d1 d2 Hd1 Hd2) as [Nh Nl].
    pose proof (Hin 0%nat _ eq_refl) as H0. rewrite Nat.add_0_r in H0.
    set (b := s8 _) in *. cbn [length cfor].
    rewrite (decoder_body_spec _ _ _ st d1 b (d_inp s + 1)); try assumption;
      [|rewrite Hb; split; [apply aget_ok; auto|split; [now symmetry|reflexivity]]].
    cbn [mbind res_bind]. rewrite Hb. cbn [negb].
    rewrite (decoder_body_spec _ _ _ (ima_next st d1) d2 b (d_inp s + 1)); try assumption;
      try reflexivity; [|cbn; auto using eq_sym].
    cbn [mbind res_bind d_bufferstep negb d_out].
    set (st2 := ima_next (ima_next st d1) d2).
    destruct (IH st2 (k + 1 + 1) (mk_decoder_vars (valprev st2) (index st2) (step_of st2) b false
        (d_inp s + 1) ((d_out s ++ [valprev (ima_next st d1)]) ++ [valprev st2])))
      as (s' & E & Hat & Hres).
    { exact (Forall_inv_tail (Forall_inv_tail Hds)). } { repeat split. } { reflexivity. }
    { cbn. lia. }
    { intros j x Hj. cbn [d_inp].
      replace (Z.to_nat (d_inp s + 1) + j)%nat with (Z.to_nat (d_inp s) + S j)%nat by lia.
      apply (Hin (S j) x Hj). }
    exists s'. split; [exact E|]. split; [exact Hat|].
    rewrite Hres. cbn [d_out ima_samples]. now rewrite <- !app_assoc.
Qed.
End Loops.

(** * The two functions *)

Section Functions.
Implicit Types (st : adpcm_state) (indata ds : list Z) (len : Z).

(** [adpcm_coder] computes the reference codes, two to a byte. *)
Lemma adpcm_coder_spec indata len st :
  adpcm_wf st -> 0 <= len <= Z.of_nat (length indata) ->
  let ds := ima_codes st (take (Z.to_nat len) indata) in
  adpcm_coder indata len st = Ok (pack_nibbles ds, ima_run st ds).
Proof.
  intros Hwf Hlen ds. unfold adpcm_coder.
  rewrite (proj1 (table_step _ (proj2 Hwf))). cbn [mbind res_bind].
  set (vs := take (Z.to_nat len) indata).
  replace (Z.to_nat len) with (length vs) by (unfold vs; rewrite length_take; lia).
  destruct (coder_loop indata vs st 0
    (mk_coder_vars (valprev st) (index st) (step_of st) 0 true []))
    as (s' & E & (Hv & Hi & _) & Hres); try assumption; try reflexivity; try lia;
    [repeat split| |].
  { intros j v Hj. unfold vs in Hj. apply lookup_take_Some in Hj. apply Hj. }
  unfold step_of in E. rewrite E. cbn [mbind res_bind].
  fold (coder_result s'). rewrite Hres, Hv, Hi.
  destruct (ima_run_wf st ds Hwf) as [Hw1 Hw2]. fold vs in ds. fold ds.
  rewrite wrapS_id, wrapU_id by (assumption || clia).
  now destruct (ima_run st ds).
Qed.

Lemma adpcm_decoder_spec ds st :
  adpcm_wf st -> Forall (fun d => 0 <= d < 16) ds ->
  adpcm_decoder (pack_nibbles ds) (Z.of_nat (length ds)) st =
    Ok (ima_samples st ds, ima_run st ds).
Proof.
  intros Hwf Hds. unfold adpcm_decoder.
  rewrite (proj1 (table_step _ (proj2 Hwf))). cbn [mbind res_bind]. rewrite Nat2Z.id.
  destruct (decoder_loop (pack_nibbles ds) ds st 0
    (mk_decoder_vars (valprev st) (index st) (step_of st) 0 false 0 []))
    as (s' & E & (Hv & Hi & _) & Hres); try assumption; try reflexivity; try (cbn; lia);
    [repeat split|cbn; auto|].
  unfold step_of in E. rewrite E. cbn [mbind res_bind]. rewrite Hres, Hv, Hi.
  destruct (ima_run_wf st ds Hwf) as [Hw1 Hw2].
  rewrite wrapS_id, wrapU_id by (assumption || clia).
  now destruct (ima_run st ds).
Qed.

Lemma length_pack_nibbles ds : Z.of_nat (length (pack_nibbles ds)) = (Z.of_nat (length ds) + 1) / 2.
Proof.
  induction ds as [|d|d1 d2 ds IH] using list_ind2; [reflexivity..|].
  cbn [pack_nibbles length]. dlia.
Qed.

Lemma ima_codes_app st vs1 vs2 :
  ima_codes st (vs1 ++ vs2) =
    ima_codes st vs1 ++ ima_codes (ima_run st (ima_codes st vs1)) vs2.
Proof.
  revert st. induction vs1 as [|v vs1 IH]; intros st; simpl; [reflexivity|].
  now rewrite IH.
Qed.

Lemma pack_nibbles_app ds1 ds2 :
  Nat.Even (length ds1) -> pack_nibbles (ds1 ++ ds2) = pack_nibbles ds1 ++ pack_nibbles ds2.
Proof.
  induction ds1 as [|d|d1 d2 ds1 IH] using list_ind2; intros [n Hn]; cbn in *.
  - reflexivity.
  - lia.
  - rewrite IH; [reflexivity|]. exists (n - 1)%nat. lia.
Qed.

(** One step of the quantiser on a magnitude below twice the step size leaves a residue of
    at most an eighth of the step, up to the two bits the shifts drop. *)
Lemma coder_divide_error diff step :
  0 <= diff < 2 * step -> 0 <= step ->
  Z.abs (diff - (coder_divide diff step).2) <= step / 8 + 2.
Proof.
  intros Hd Hs. unfold coder_divide. rewrite (Z.shiftr_shiftr step 1 1) by lia.
  rewrite !Z.shiftr_div_pow2 by lia. change (2 ^ (1 + 1)) with 4. change (2 ^ 1) with 2.
  change (2 ^ 3) with 8.
  repeat (zcase; cbv beta iota zeta); cbn [snd]; dlia.
Qed.

Lemma clamp_val_closer v x : inS 16 v -> Z.abs (v - clamp_val x) <= Z.abs (v - x).
Proof. intros. unfold clamp_val. zcase; clia. Qed.

Lemma ima_next_quantize st v :
  valprev (ima_next st (ima_quantize st v)) =
    let vp := (coder_divide (Z.abs (v - valprev st)) (step_of st)).2 in
    clamp_val (if v - valprev st <? 0 then valprev st - vp else valprev st + vp).
Proof.
  unfold ima_next, ima_quantize. cbn [valprev].
  destruct (coder_divide_spec (Z.abs (v - valprev st)) (step_of st)) as [Hr Hvp].
  destruct (lor_sign _ Hr) as (_ & H7 & H8 & H7' & H8').
  destruct (v - valprev st <? 0); rewrite ?Z.lor_0_r, ?H7, ?H8, ?H7', ?H8', <- Hvp; reflexivity.
Qed.
End Functions.

(** C39: From any state with a 16-bit prediction and an index in 0..88, coding len samples
    yields (len+1)/2 bytes, and decoding len samples of them from the same state succeeds and
    ends in the state the coder ended in, which is well formed again. *)
Theorem adpcm_sync (indata : list Z) (len : Z) (st : adpcm_state) :
  adpcm_wf st -> 0 <= len <= Z.of_nat (length indata) ->
  exists out st' samples,
    adpcm_coder indata len st = Ok (out, st') /\
    adpcm_decoder out len st = Ok (samples, st') /\
    adpcm_wf st' /\ Z.of_nat (length out) = (len + 1) / 2 /\
    Z.of_nat (length samples) = len.
Proof.
  intros Hwf Hlen. rewrite adpcm_coder_spec by assumption.
  set (ds := ima_codes st _).
  assert (Z.of_nat (length ds) = len) as Hl
    by (unfold ds; rewrite length_ima_codes, length_take; lia).
  exists (pack_nibbles ds), (ima_run st ds), (ima_samples st ds). split; [reflexivity|].
  rewrite <- Hl, adpcm_decoder_spec by (try apply ima_codes_range; assumption).
  rewrite length_pack_nibbles, length_ima_samples.
  auto using ima_run_wf.
Qed.

Lemma adpcm_sync_witness :
  exists out st' samples,
    adpcm_coder [100; -2000; 32767; 5] 3 (mk_adpcm_state 0 0) = Ok (out, st') /\
    adpcm_decoder out 3 (mk_adpcm_state 0 0) = Ok (samples, st') /\
    adpcm_wf st' /\ Z.of_nat (length out) = (3 + 1) / 2 /\ Z.of_nat (length samples) = 3.
Proof.
  apply (adpcm_sync [100; -2000; 32767; 5] 3 (mk_adpcm_state 0 0)).
  - by_eval.
  - simpl; lia.
Defined.

(** A sample less than two step sizes away from the prediction is tracked: after coding it
    the new prediction is within step/8 + 2 of the sample. *)
Theorem adpcm_tracks (st : adpcm_state) (v : Z) :
  adpcm_wf st -> inS 16 v -> Z.abs (v - valprev st) < 2 * step_of st ->
  exists out st',
    adpcm_coder [v] 1 st = Ok (out, st') /\ Z.abs (v - valprev st') <= step_of st / 8 + 2.
Proof.
  intros Hwf Hv Hd. rewrite adpcm_coder_spec by (simpl; lia || assumption).
  eexists _, _. split; [reflexivity|]. change (valprev (ima_run st (ima_codes st (take (Z.to_nat 1) [v])))) with
    (valprev (ima_next st (ima_quantize st v))). rewrite ima_next_quantize. cbv zeta.
  etransitivity; [apply clamp_val_closer, Hv|].
  pose proof (coder_divide_error (Z.abs (v - valprev st)) (step_of st)). zcase; lia.
Qed.

Lemma adpcm_tracks_witness :
  exists out st', adpcm_coder [150] 1 (mk_adpcm_state 100 25) = Ok (out, st') /\
    Z.abs (150 - valprev st') <= 80 / 8 + 2.
Proof.
  apply (adpcm_tracks (mk_adpcm_state 100 25) 150).
  - by_eval.
  - by_eval.
  - vm_compute. reflexivity.
Defined.

(** Coding a signal in two calls, the first of an even number of samples, yields the
    concatenation of the two outputs and the same final state as coding it in one call. *)
Theorem adpcm_coder_app (a b : list Z) (st : adpcm_state) :
  adpcm_wf st -> Nat.Even (length a) ->
  adpcm_coder (a ++ b) (Z.of_nat (length (a ++ b))) st =
    ('(out1, st1) ← adpcm_coder a (Z.of_nat (length a)) st;
     '(out2, st2) ← adpcm_coder b (Z.of_nat (length b)) st1;
     mret (out1 ++ out2, st2)).
Proof.
  intros Hwf He. rewrite !adpcm_coder_spec by (lia || assumption).
  rewrite !Nat2Z.id, !take_ge by lia. cbn [mbind res_bind].
  rewrite adpcm_coder_spec by (lia || (apply ima_run_wf; assumption)).
  rewrite Nat2Z.id, take_ge by lia. cbn [mbind res_bind].
  rewrite ima_codes_app, pack_nibbles_app by now rewrite length_ima_codes.
  unfold ima_run. now rewrite fold_left_app.
Qed.

Lemma adpcm_coder_app_witness :
  adpcm_coder ([1; 2] ++ [300]) 3 (mk_adpcm_state 0 0) =
    ('(out1, st1) ← adpcm_coder [1; 2] 2 (mk_adpcm_state 0 0);
     '(out2, st2) ← adpcm_coder [300] 1 st1;
     mret (out1 ++ out2, st2)).
Proof.
  apply (adpcm_coder_app [1; 2] [300]).
  - by_eval.
  - exists 1%nat. reflexivity.
Defined.
