(* ===== verification/GsmAdd.v ===== *)
(** GSM 06.10 fixed-point arithmetic (src/mibench/telecomm/gsm/src/add.c and the macros of
    src/mibench/telecomm/gsm/inc/private.h).

    [word] is [short]; [longword] is [long], so every operation takes the data model, and the
    results hold for 32-bit and for 64-bit [long]. The reference operations are exact integer
    arithmetic followed by saturation ([sat16], [sat32]). *)
From stdpp Require Import base list numbers option tactics.
From Stdlib Require Import ZArith Lia.
From S2P Require Import Prelude.

Definition MIN_WORD : Z := -32768.
Definition MAX_WORD : Z := 32767.
Definition MIN_LONGWORD : Z := -2147483648.
Definition MAX_LONGWORD : Z := 2147483647.

Definition SASR (x by_ : Z) : Z := x ≫ by_.

(** * add.c *)

Section Add.
Context (dm : data_model).

Definition saturate (x : Z) : Z :=
  if x <? MIN_WORD then MIN_WORD else if MAX_WORD <? x then MAX_WORD else x.

Definition gsm_add (a b : Z) : Z :=
  let sum := sL dm (a + b) in s16 (saturate sum).

Definition gsm_sub (a b : Z) : Z :=
  let diff := sL dm (a - b) in s16 (saturate diff).

Definition gsm_mult (a b : Z) : Z :=
  if (a =? MIN_WORD) && (b =? MIN_WORD) then MAX_WORD
  else s16 (SASR (sL dm (a * b)) 15).

Definition gsm_mult_r (a b : Z) : Z :=
  if (b =? MIN_WORD) && (a =? MIN_WORD) then MAX_WORD
  else let prod := sL dm (sL dm (a * b) + 16384) in
       let prod := prod ≫ 15 in
       s16 (Z.land prod 0xFFFF).

Definition gsm_abs (a : Z) : Z :=
  s16 (if a <? 0 then (if a =? MIN_WORD then MAX_WORD else - a) else a).

Definition gsm_L_mult (a b : Z) : res Z :=
  c_assert (negb (a =? MIN_WORD) || negb (b =? MIN_WORD));;
  mret (sL dm (sL dm (a * b) ≪ 1)).

Definition gsm_L_add (a b : Z) : Z :=
  if a <? 0 then
    if 0 <=? b then sL dm (a + b)
    else let A := uL dm (uL dm (- (a + 1)) + uL dm (- (b + 1))) in
         if MAX_LONGWORD <=? A then MIN_LONGWORD else sL dm (- sL dm A - 2)
  else if b <=? 0 then sL dm (a + b)
  else let A := uL dm (uL dm a + uL dm b) in
       if MAX_LONGWORD <? A then MAX_LONGWORD else sL dm A.

Definition gsm_L_sub (a b : Z) : Z :=
  if 0 <=? a then
    if 0 <=? b then sL dm (a - b)
    else let A := uL dm (uL dm a + uL dm (- (b + 1))) in
         if MAX_LONGWORD <=? A then MAX_LONGWORD else sL dm (uL dm (A + 1))
  else if b <=? 0 then sL dm (a - b)
  else let A := uL dm (uL dm (- (a + 1)) + uL dm b) in
       if MAX_LONGWORD <=? A then MIN_LONGWORD else sL dm (- sL dm A - 1).

Definition bitoff : list Z :=
  [8; 7; 6; 6; 5; 5; 5; 5; 4; 4; 4; 4; 4; 4; 4; 4;
   3; 3; 3; 3; 3; 3; 3; 3; 3; 3; 3; 3; 3; 3; 3; 3;
   2; 2; 2; 2; 2; 2; 2; 2; 2; 2; 2; 2; 2; 2; 2; 2;
   2; 2; 2; 2; 2; 2; 2; 2; 2; 2; 2; 2; 2; 2; 2; 2;
   1; 1; 1; 1; 1; 1; 1; 1; 1; 1; 1; 1; 1; 1; 1; 1;
   1; 1; 1; 1; 1; 1; 1; 1; 1; 1; 1; 1; 1; 1; 1; 1;
   1; 1; 1; 1; 1; 1; 1; 1; 1; 1; 1; 1; 1; 1; 1; 1;
   1; 1; 1; 1; 1; 1; 1; 1; 1; 1; 1; 1; 1; 1; 1; 1;
   0; 0; 0; 0; 0; 0; 0; 0; 0; 0; 0; 0; 0; 0; 0; 0;
   0; 0; 0; 0; 0; 0; 0; 0; 0; 0; 0; 0; 0; 0; 0; 0;
   0; 0; 0; 0; 0; 0; 0; 0; 0; 0; 0; 0; 0; 0; 0; 0;
   0; 0; 0; 0; 0; 0; 0; 0; 0; 0; 0; 0; 0; 0; 0; 0;
   0; 0; 0; 0; 0; 0; 0; 0; 0; 0; 0; 0; 0; 0; 0; 0;
   0; 0; 0; 0; 0; 0; 0; 0; 0; 0; 0; 0; 0; 0; 0; 0;
   0; 0; 0; 0; 0; 0; 0; 0; 0; 0; 0; 0; 0; 0; 0; 0;
   0; 0; 0; 0; 0; 0; 0; 0; 0; 0; 0; 0; 0; 0; 0; 0].

(** The lookup that ends [gsm_norm], on the argument once it is not negative. *)
Definition gsm_norm_lookup (a : Z) : res Z :=
  if negb (Z.land a 0xffff0000 =? 0) then
    if negb (Z.land a 0xff000000 =? 0)
    then b ← aget bitoff (Z.land 0xFF (a ≫ 24)); mret (-1 + b)
    else b ← aget bitoff (Z.land 0xFF (a ≫ 16)); mret (7 + b)
  else
    if negb (Z.land a 0xff00 =? 0)
    then b ← aget bitoff (Z.land 0xFF (a ≫ 8)); mret (15 + b)
    else b ← aget bitoff (Z.land 0xFF a); mret (23 + b).

Definition gsm_norm (a : Z) : res Z :=
  c_assert (negb (a =? 0));;
  if a <? 0 then
    if a <=? -1073741824 then mret 0 else gsm_norm_lookup (Z.lnot a)
  else gsm_norm_lookup a.

Definition gsm_L_asr (a n : Z) : Z :=
  if 32 <=? n then (if a <? 0 then -1 else 0)
  else if n <=? -32 then 0
  else if n <? 0 then sL dm (a ≪ (- n))
  else a ≫ n.

Definition gsm_asr (a n : Z) : Z :=
  if 16 <=? n then (if a <? 0 then -1 else 0)
  else if n <=? -16 then 0
  else if n <? 0 then s16 (s32 (a ≪ (- n)))
  else s16 (a ≫ n).

Definition gsm_L_asl (a n : Z) : Z :=
  if 32 <=? n then 0
  else if n <=? -32 then (if a <? 0 then -1 else 0)
  else if n <? 0 then gsm_L_asr a (- n)
  else sL dm (a ≪ n).

Definition gsm_asl (a n : Z) : Z :=
  if 16 <=? n then 0
  else if n <=? -16 then (if a <? 0 then -1 else 0)
  else if n <? 0 then gsm_asr a (- n)
  else s16 (s32 (a ≪ n)).

(** The [while (k--)] loop of [gsm_div]: [k] more bits of the quotient. *)
Fixpoint gsm_div_loop (k : nat) (div L_num L_denum : Z) : Z :=
  match k with
  | O => div
  | S k =>
      let div := s16 (div ≪ 1) in
      let L_num := sL dm (L_num ≪ 1) in
      if L_denum <=? L_num
      then gsm_div_loop k (s16 (div + 1)) (sL dm (L_num - L_denum)) L_denum
      else gsm_div_loop k div L_num L_denum
  end.

Definition gsm_div (num denum : Z) : res Z :=
  c_assert ((0 <=? num) && (num <=? denum));;
  if num =? 0 then mret 0 else mret (gsm_div_loop 15 0 num denum).

(** * The macros of private.h

    A macro yields the value of its C expression; the conversion to [word] happens where the
    result is assigned. *)

Definition GSM_MULT_R (a b : Z) : Z := SASR (sL dm (sL dm (a * b) + 16384)) 15.

Definition GSM_MULT (a b : Z) : Z := SASR (sL dm (a * b)) 15.

Definition GSM_L_MULT (a b : Z) : Z := sL dm (sL dm (a * b) ≪ 1).

Definition GSM_L_ADD (a b : Z) : Z :=
  sL dm (uL dm
    (if a <? 0 then
       if 0 <=? b then sL dm (a + b)
       else let utmp := uL dm (uL dm (- (a + 1)) + uL dm (- (b + 1))) in
            if MAX_LONGWORD <=? utmp then MIN_LONGWORD else sL dm (- sL dm utmp - 2)
     else if b <=? 0 then sL dm (a + b)
     else let utmp := uL dm (uL dm a + uL dm b) in
          if MAX_LONGWORD <=? utmp then MAX_LONGWORD else utmp)).

Definition GSM_ADD (a b : Z) : Z :=
  let ltmp := sL dm (a + b) in
  if MAX_WORD - MIN_WORD <? uL dm (sL dm (ltmp - MIN_WORD))
  then (if 0 <? ltmp then MAX_WORD else MIN_WORD)
  else ltmp.

Definition GSM_SUB (a b : Z) : Z :=
  let ltmp := sL dm (a - b) in
  if MAX_WORD <=? ltmp then MAX_WORD
  else if ltmp <=? MIN_WORD then MIN_WORD else ltmp.

Definition GSM_ABS (a : Z) : Z :=
  if a <? 0 then (if a =? MIN_WORD then MAX_WORD else - a) else a.
End Add.

(** The search for the largest absolute value, [temp = GSM_ABS( a[k] ); if (temp > max) max =
    temp;], as rpe.c, long_term.c and lpc.c write it. *)
Definition max_abs_step (max temp : Z) : Z :=
  let temp := s16 (GSM_ABS temp) in if max <? temp then temp else max.

(** * Reference operations *)

Definition sat16 (x : Z) : Z := Z.max (-32768) (Z.min 32767 x).
Definition sat32 (x : Z) : Z := Z.max (-2147483648) (Z.min 2147483647 x).

(** Rounded product of two fractions in Q15. *)
Definition mult_r (a b : Z) : Z := (a * b + 16384) / 32768.

Section AddSpec.
Context (dm : data_model).
Implicit Types a b n x : Z.

Ltac consts := unfold MIN_WORD, MAX_WORD, MIN_LONGWORD, MAX_LONGWORD in *.

Lemma sat16_range x : inS 16 (sat16 x).
Proof. unfold sat16. clia. Qed.

Lemma sat16_id x : inS 16 x -> sat16 x = x.
Proof. unfold sat16. clia. Qed.

Lemma saturate_sat16 x : saturate x = sat16 x.
Proof. unfold saturate, sat16. consts. zcase; lia. Qed.

Lemma gsm_add_sat a b : inS 16 a -> inS 16 b -> gsm_add dm a b = sat16 (a + b).
Proof.
  intros. unfold gsm_add. rewrite sL_id by clia. rewrite saturate_sat16.
  apply wrapS_id; [lia|apply sat16_range].
Qed.

Lemma gsm_sub_sat a b : inS 16 a -> inS 16 b -> gsm_sub dm a b = sat16 (a - b).
Proof.
  intros. unfold gsm_sub. rewrite sL_id by clia. rewrite saturate_sat16.
  apply wrapS_id; [lia|apply sat16_range].
Qed.

(** The macro needs no more than that the sum fits in 31 bits. *)
Lemma GSM_ADD_sat a b : inS 31 (a + b) -> GSM_ADD dm a b = sat16 (a + b).
Proof.
  intros H. unfold GSM_ADD, sat16. consts. rewrite (sL_id dm (a + b)) by clia.
  rewrite (sL_id dm) by clia.
  destruct (Z.leb_spec 0 (a + b - -32768)).
  - rewrite uL_id by clia. zcase; lia.
  - assert (32767 - -32768 < uL dm (a + b - -32768)).
    { unfold wrapU. rewrite <- (Z.mod_add _ 1) by (destruct dm; simpl; lia).
      rewrite Z.mod_small; destruct dm; simpl long_bits; clia. }
    zcase; lia.
Qed.

Lemma GSM_SUB_sat a b : inS 32 (a - b) -> GSM_SUB dm a b = sat16 (a - b).
Proof. intros. unfold GSM_SUB, sat16. consts. rewrite sL_id by assumption. zcase; lia. Qed.

Lemma GSM_ADD_word a b : inS 16 a -> inS 16 b -> GSM_ADD dm a b = sat16 (a + b).
Proof. intros. apply GSM_ADD_sat. clia. Qed.

Lemma GSM_SUB_word a b : inS 16 a -> inS 16 b -> GSM_SUB dm a b = sat16 (a - b).
Proof. intros. apply GSM_SUB_sat. clia. Qed.

Lemma GSM_ABS_sat a : inS 16 a -> GSM_ABS a = sat16 (Z.abs a).
Proof. intros. unfold GSM_ABS, sat16. consts. zcase; clia. Qed.

Lemma gsm_abs_sat a : inS 16 a -> gsm_abs a = sat16 (Z.abs a).
Proof.
  intros Ha. unfold gsm_abs. fold (GSM_ABS a). rewrite GSM_ABS_sat by assumption.
  apply wrapS_id; [lia|apply sat16_range].
Qed.

Lemma gsm_L_add_sat a b : inS 32 a -> inS 32 b -> gsm_L_add dm a b = sat32 (a + b).
Proof. intros. unfold gsm_L_add, sat32. consts. zcase; drop_wrap; zcase; drop_wrap; clia. Qed.

Lemma gsm_L_sub_sat a b : inS 32 a -> inS 32 b -> gsm_L_sub dm a b = sat32 (a - b).
Proof. intros. unfold gsm_L_sub, sat32. consts. zcase; drop_wrap; zcase; drop_wrap; clia. Qed.

Lemma sL_uL x : sL dm (uL dm x) = sL dm x.
Proof.
  unfold wrapS, wrapU. rewrite Zplus_mod_idemp_l. reflexivity.
Qed.

Lemma GSM_L_ADD_sat a b : inS 32 a -> inS 32 b -> GSM_L_ADD dm a b = sat32 (a + b).
Proof.
  intros. unfold GSM_L_ADD, sat32. consts. rewrite sL_uL. zcase; drop_wrap; zcase; drop_wrap; clia.
Qed.

(** Products of words: [|a * b| <= 2^30]. *)
Lemma word_product a b : inS 16 a -> inS 16 b -> -1073741824 <= a * b <= 1073741824.
Proof. cint_unfold. nia. Qed.

Lemma mult_r_range a b : inS 16 a -> inS 16 b -> a <> -32768 \/ b <> -32768 -> inS 16 (mult_r a b).
Proof.
  intros Ha Hb Hne. unfold mult_r.
  assert (-1073741824 < a * b + 16384 < 1073741824) by (cint_unfold; nia).
  clear Ha Hb Hne. generalize dependent (a * b + 16384). intros p Hp. cint_unfold. dlia.
Qed.

Lemma GSM_MULT_R_spec a b : inS 16 a -> inS 16 b -> GSM_MULT_R dm a b = mult_r a b.
Proof.
  intros Ha Hb. pose proof (word_product a b Ha Hb). unfold GSM_MULT_R, SASR, mult_r.
  drop_wrap. now rewrite Z.shiftr_div_pow2 by lia.
Qed.

Lemma GSM_MULT_spec a b : inS 16 a -> inS 16 b -> GSM_MULT dm a b = (a * b) / 32768.
Proof.
  intros Ha Hb. pose proof (word_product a b Ha Hb). unfold GSM_MULT, SASR.
  drop_wrap. now rewrite Z.shiftr_div_pow2 by lia.
Qed.

Lemma s16_land x : s16 (Z.land x 0xFFFF) = s16 x.
Proof.
  change 0xFFFF with (Z.ones 16). rewrite Z.land_ones by lia. unfold wrapS.
  now rewrite Zplus_mod_idemp_l.
Qed.

(** The function versions agree with the macros, and cover the one pair the macros exclude. *)
Lemma gsm_mult_r_spec a b : inS 16 a -> inS 16 b -> gsm_mult_r dm a b = sat16 (mult_r a b).
Proof.
  intros Ha Hb. unfold gsm_mult_r. consts.
  destruct ((b =? -32768) && (a =? -32768)) eqn:E.
  - assert (a = -32768 /\ b = -32768) as [-> ->] by lia. reflexivity.
  - assert (inS 16 (mult_r a b)) by (apply mult_r_range; try assumption; lia).
    cbv zeta. rewrite s16_land. fold (SASR (sL dm (sL dm (a * b) + 16384)) 15).
    fold (GSM_MULT_R dm a b). rewrite GSM_MULT_R_spec by assumption.
    rewrite sat16_id by assumption. apply wrapS_id; [lia|assumption].
Qed.

Lemma gsm_mult_spec a b : inS 16 a -> inS 16 b -> gsm_mult dm a b = sat16 ((a * b) / 32768).
Proof.
  intros Ha Hb. unfold gsm_mult. consts.
  destruct ((a =? -32768) && (b =? -32768)) eqn:E.
  - assert (a = -32768 /\ b = -32768) as [-> ->] by lia. reflexivity.
  - fold (GSM_MULT dm a b). rewrite GSM_MULT_spec by assumption.
    assert (-1073741824 <= a * b < 1073741824) by (cint_unfold; nia).
    assert (inS 16 (a * b / 32768)) by (generalize dependent (a * b); intros; cint_unfold; dlia).
    rewrite sat16_id by assumption. apply wrapS_id; [lia|assumption].
Qed.

(** The macros with their result assigned to a [word], as the filters use them. *)
Lemma word_add a b : inS 16 a -> inS 16 b -> s16 (GSM_ADD dm a b) = sat16 (a + b).
Proof. intros. rewrite GSM_ADD_word by assumption. apply wrapS_id; [lia|apply sat16_range]. Qed.

Lemma word_sub a b : inS 16 a -> inS 16 b -> s16 (GSM_SUB dm a b) = sat16 (a - b).
Proof. intros. rewrite GSM_SUB_word by assumption. apply wrapS_id; [lia|apply sat16_range]. Qed.

Lemma word_mult_r a b : inS 16 a -> inS 16 b -> a <> -32768 \/ b <> -32768 ->
  s16 (GSM_MULT_R dm a b) = mult_r a b.
Proof.
  intros. rewrite GSM_MULT_R_spec by assumption.
  apply wrapS_id; [lia|apply mult_r_range; assumption].
Qed.

Lemma SASR_word a k : 0 <= k -> inS 16 a -> inS 16 (SASR a k).
Proof.
  intros Hk Ha. unfold SASR. rewrite Z.shiftr_div_pow2 by lia.
  assert (0 < 2 ^ k) by lia. cint_unfold. split.
  - apply Z.div_le_lower_bound; nia.
  - apply Z.div_lt_upper_bound; nia.
Qed.

(** ** Normalisation *)

Lemma bitoff_spec x : 0 <= x < 256 ->
  aget bitoff x = Ok (bitoff !!! Z.to_nat x) /\
  (0 < x -> 0 <= bitoff !!! Z.to_nat x < 8 /\
            128 <= x * 2 ^ (bitoff !!! Z.to_nat x) /\
            (x + 1) * 2 ^ (bitoff !!! Z.to_nat x) <= 256).
Proof.
  intros Hx. split; [apply aget_total; exact Hx|].
  assert (forallb (fun x =>
    (x =? 0) || (0 <=? bitoff !!! Z.to_nat x) && (bitoff !!! Z.to_nat x <? 8) &&
     (128 <=? x * 2 ^ (bitoff !!! Z.to_nat x)) && ((x + 1) * 2 ^ (bitoff !!! Z.to_nat x) <=? 256))
    (seqZ 0 256) = true) as H by (vm_compute; reflexivity).
  pose proof (forallb_seqZ _ _ _ H x Hx) as E. cbv beta in E. lia.
Qed.

Lemma norm_scale a x B K :
  0 < B -> 0 < K -> x * K <= a < (x + 1) * K -> 128 <= x * B -> (x + 1) * B <= 256 ->
  128 * K <= a * B < 256 * K.
Proof. intros. nia. Qed.

(** One leaf of the lookup: the byte at bit [k] is the leading one. *)
Lemma norm_leaf a k : 0 <= k -> 2 ^ k <= a < 256 * 2 ^ k ->
  exists b, aget bitoff (Z.land 255 (a ≫ k)) = Ok b /\ 0 <= b < 8 /\
    128 * 2 ^ k <= a * 2 ^ b < 256 * 2 ^ k.
Proof.
  intros Hk Ha. rewrite land_255, Z.shiftr_div_pow2 by lia.
  assert (0 < 2 ^ k) by lia.
  pose proof (Z.mul_div_le a (2 ^ k)). pose proof (Z.mul_succ_div_gt a (2 ^ k)).
  assert (1 <= a / 2 ^ k < 256) by nia.
  rewrite Z.mod_small by lia.
  destruct (bitoff_spec (a / 2 ^ k)) as [-> Hb]; [lia|].
  eexists. split; [reflexivity|]. destruct Hb as (? & ? & ?); [lia|]. split; [assumption|].
  apply (norm_scale _ (a / 2 ^ k)); lia.
Qed.

Lemma gsm_norm_lookup_spec a : 0 < a < 2 ^ 31 ->
  exists n, gsm_norm_lookup a = Ok n /\ 0 <= n <= 30 /\ 2 ^ 30 <= a * 2 ^ n < 2 ^ 31.
Proof.
  intros Ha. unfold gsm_norm_lookup.
  change 0xffff0000 with (Z.ones 16 ≪ 16). change 0xff000000 with (Z.ones 8 ≪ 24).
  change 0xff00 with (Z.ones 8 ≪ 8). rewrite !land_field by lia.
  destruct (Z.leb_spec (2 ^ 24) a), (Z.leb_spec (2 ^ 16) a), (Z.leb_spec (2 ^ 8) a);
    try lia; cint_unfold;
    repeat match goal with |- context [if negb (?x =? 0) then _ else _] =>
      destruct (Z.eqb_spec x 0); try (exfalso; dlia); cbn [negb] end.
  - destruct (norm_leaf a 24) as (b & -> & Hb & Hn); [lia..|]. exists (-1 + b).
    assert (2 ^ b = 2 * 2 ^ (-1 + b)) as E.
    { rewrite <- Z.pow_succ_r; [f_equal; lia|]. destruct (decide (b = 0)); [subst; lia|lia]. }
    split; [reflexivity|]. split; [|lia].
    destruct (decide (b = 0)); [subst; lia|lia].
  - destruct (norm_leaf a 16) as (b & -> & Hb & Hn); [lia..|]. exists (7 + b).
    rewrite Z.pow_add_r by lia. split; [reflexivity|]. lia.
  - destruct (norm_leaf a 8) as (b & -> & Hb & Hn); [lia..|]. exists (15 + b).
    rewrite Z.pow_add_r by lia. split; [reflexivity|]. lia.
  - replace (Z.land 255 a) with (Z.land 255 (a ≫ 0)) by now rewrite Z.shiftr_0_r.
    destruct (norm_leaf a 0) as (b & -> & Hb & Hn); [lia..|]. exists (23 + b).
    rewrite Z.pow_add_r by lia. split; [reflexivity|]. lia.
Qed.

(** [gsm_norm] returns the shift that brings its argument into the top octave. *)
Lemma gsm_norm_spec a : inS 32 a -> a <> 0 ->
  okp (gsm_norm a) (fun n => 0 <= n <= 31 /\
    (0 < a -> n <= 30 /\ 2 ^ 30 <= a * 2 ^ n < 2 ^ 31) /\
    (a < 0 -> - 2 ^ 31 <= a * 2 ^ n <= - 2 ^ 30)).
Proof.
  intros Ha Hne. unfold gsm_norm.
  destruct (Z.eqb_spec a 0); [lia|]. cbn [negb c_assert mbind res_bind].
  zcase.
  - cbn. cint_unfold. lia.
  - destruct (decide (a = -1)) as [->|].
    { vm_compute. intuition discriminate. }
    destruct (gsm_norm_lookup_spec (Z.lnot a)) as (n' & -> & Hn & Hr).
    { unfold Z.lnot. clia. }
    cbn [okp]. split; [lia|]. split; [lia|]. intros _.
    assert (2 ^ 31 = 2 ^ n' * 2 ^ (31 - n')) as E
      by (rewrite <- Z.pow_add_r by lia; f_equal; lia).
    unfold Z.lnot in Hr. assert (0 < 2 ^ n') by lia. rewrite E in *.
    set (P := 2 ^ n') in *. set (Q := 2 ^ (31 - n')) in *.
    assert (- a <= Q) by nia. nia.
  - destruct (gsm_norm_lookup_spec a) as (n' & -> & Hn & Hr); [clia|]. cbn. lia.
Qed.

(** ** Division *)

Lemma gsm_div_loop_spec k : forall div L_num L_denum,
  0 < L_denum < 2 ^ 15 -> 0 <= L_num < L_denum -> 0 <= div ->
  (div + 1) * 2 ^ Z.of_nat k <= 2 ^ 15 ->
  gsm_div_loop dm k div L_num L_denum =
    div * 2 ^ Z.of_nat k + (L_num * 2 ^ Z.of_nat k) / L_denum.
Proof.
  induction k as [|k IH]; intros div num den Hden Hnum Hdiv Hk; cbn [gsm_div_loop].
  { rewrite !Z.mul_1_r, Z.div_small by lia. lia. }
  rewrite Nat2Z.inj_succ, Z.pow_succ_r in * by lia. set (P := 2 ^ Z.of_nat k) in *.
  assert (0 < P) by (unfold P; lia).
  rewrite !Z.shiftl_mul_pow2 by lia. change (2 ^ 1) with 2. cint_unfold.
  assert (div + 1 <= 16384) by nia. drop_wrap.
  zcase; drop_wrap; rewrite IH by (lia || nia).
  - replace (num * (2 * P)) with ((num * 2 - den) * P + P * den) by ring.
    rewrite Z.div_add by lia. ring.
  - replace (num * (2 * P)) with (num * 2 * P) by ring. ring.
Qed.

Lemma gsm_div_loop_full k : forall div d,
  0 < d < 2 ^ 15 -> 0 <= div -> (div + 1) * 2 ^ Z.of_nat k <= 2 ^ 15 ->
  gsm_div_loop dm k div d d = (div + 1) * 2 ^ Z.of_nat k - 1.
Proof.
  induction k as [|k IH]; intros div d Hd Hdiv Hk; cbn [gsm_div_loop]; [lia|].
  rewrite Nat2Z.inj_succ, Z.pow_succ_r in * by lia. set (P := 2 ^ Z.of_nat k) in *.
  assert (0 < P) by (unfold P; lia).
  rewrite !Z.shiftl_mul_pow2 by lia. change (2 ^ 1) with 2. cint_unfold.
  assert (div + 1 <= 16384) by nia. drop_wrap. zcase; [|lia]. drop_wrap.
  replace (d * 2 - d) with d by ring. rewrite IH by (lia || nia). ring.
Qed.

(** The Q15 quotient, saturated for equal arguments. *)
Definition div15 num denum : Z := Z.min 32767 (num * 32768 / denum).

Lemma gsm_div_spec num denum :
  inS 16 num -> inS 16 denum -> 0 <= num <= denum -> 0 < denum ->
  gsm_div dm num denum = Ok (div15 num denum).
Proof.
  intros Hn Hd Hle Hpos. unfold gsm_div, div15.
  replace ((0 <=? num) && (num <=? denum)) with true by lia.
  cbn [c_assert mbind res_bind]. destruct (Z.eqb_spec num 0) as [->|].
  { reflexivity. }
  f_equal. destruct (decide (num = denum)) as [->|].
  - rewrite gsm_div_loop_full by (cint_unfold; simpl; lia).
    rewrite (Z.mul_comm denum 32768), Z.div_mul by lia. reflexivity.
  - rewrite gsm_div_loop_spec by (cint_unfold; simpl; lia).
    change (2 ^ Z.of_nat 15) with 32768.
    assert (num * 32768 / denum < 32768) by (apply Z.div_lt_upper_bound; lia). lia.
Qed.
End AddSpec.

(** * The largest absolute value of an array *)

(** The least word of an array whose largest absolute value is [m] ([GSM_ABS] saturates). *)
Definition sample_min (m : Z) : Z := if m =? 32767 then -32768 else - m.

Section MaxAbs.
Lemma sample_min_mono a b : 0 <= a <= b -> b <= 32767 -> sample_min b <= sample_min a.
Proof. unfold sample_min. zcase; lia. Qed.

Lemma max_abs_fold (a : list Z) : forall m, 0 <= m <= 32767 -> Forall (inS 16) a ->
  m <= fold_left max_abs_step a m <= 32767 /\
  Forall (fun v => sample_min (fold_left max_abs_step a m) <= v
                   <= fold_left max_abs_step a m) a.
Proof.
  induction a as [|v a IH]; intros m Hm Hw; [simpl; split; [lia|constructor]|].
  pose proof (Forall_inv Hw) as Hv. apply Forall_inv_tail in Hw. cbn [fold_left].
  assert (s16 (GSM_ABS v) = sat16 (Z.abs v)) as E.
  { rewrite GSM_ABS_sat by assumption. apply wrapS_id; [lia|apply sat16_range]. }
  assert (max_abs_step m v = Z.max m (sat16 (Z.abs v))) as Ef
    by (unfold max_abs_step; rewrite E; zcase; lia).
  assert (sat16 (Z.abs v) = Z.min 32767 (Z.abs v)) as Es by (unfold sat16; lia).
  rewrite Ef, Es. destruct (IH (Z.max m (Z.min 32767 (Z.abs v)))) as [H1 H2]; [lia|assumption|].
  set (r := fold_left max_abs_step a _) in *.
  split; [lia|]. constructor; [|exact H2].
  pose proof (sample_min_mono (Z.min 32767 (Z.abs v)) r ltac:(lia) ltac:(lia)).
  assert (sample_min (Z.min 32767 (Z.abs v)) <= v) by (unfold sample_min; zcase; clia).
  clia.
Qed.

Lemma max_abs_spec (a : list Z) : Forall (inS 16) a ->
  0 <= fold_left max_abs_step a 0 <= 32767 /\
  Forall (fun v => sample_min (fold_left max_abs_step a 0) <= v <= fold_left max_abs_step a 0) a.
Proof. intros. apply (max_abs_fold a 0); [lia|assumption]. Qed.
End MaxAbs.

(** The 16-bit and 32-bit additions, subtractions, absolute value and rounded products, as
    functions and as macros, are exact integer arithmetic followed by saturation, for 32-bit and
    64-bit long alike. *)
Theorem gsm_arith_saturates (dm : data_model) (a b : Z) :
  (inS 16 a -> inS 16 b ->
     gsm_add dm a b = sat16 (a + b) /\ gsm_sub dm a b = sat16 (a - b) /\
     GSM_ADD dm a b = sat16 (a + b) /\ GSM_SUB dm a b = sat16 (a - b) /\
     gsm_mult_r dm a b = sat16 (mult_r a b) /\ gsm_mult dm a b = sat16 (a * b / 32768) /\
     gsm_abs a = sat16 (Z.abs a)) /\
  (inS 32 a -> inS 32 b ->
     gsm_L_add dm a b = sat32 (a + b) /\ gsm_L_sub dm a b = sat32 (a - b) /\
     GSM_L_ADD dm a b = sat32 (a + b)).
Proof.
  split; intros; repeat split;
    auto using gsm_add_sat, gsm_sub_sat, GSM_ADD_word, GSM_SUB_word, gsm_mult_r_spec,
      gsm_mult_spec, gsm_abs_sat, gsm_L_add_sat, gsm_L_sub_sat, GSM_L_ADD_sat.
Qed.

Lemma gsm_arith_saturates_witness :
  GSM_ADD LP64 30000 30000 = sat16 (30000 + 30000) /\ gsm_L_sub ILP32 (-2000000000) 2000000000 = -2147483648.
Proof.
  split.
  - apply (proj1 (gsm_arith_saturates LP64 30000 30000)); by_eval.
  - destruct (proj2 (gsm_arith_saturates ILP32 (-2000000000) 2000000000) ltac:(by_eval) ltac:(by_eval)) as (_ & -> & _).
    reflexivity.
Defined.

(** gsm_norm returns the shift that brings a non-zero 32-bit value into the top octave of
    its sign. *)
Theorem gsm_norm_normalizes (a : Z) :
  inS 32 a -> a <> 0 ->
  exists n, gsm_norm a = Ok n /\ 0 <= n <= 31 /\
    (0 < a -> 2 ^ 30 <= a * 2 ^ n < 2 ^ 31) /\
    (a < 0 -> - 2 ^ 31 <= a * 2 ^ n <= - 2 ^ 30).
Proof.
  intros Ha Hne. pose proof (gsm_norm_spec a Ha Hne) as H. apply okp_ok in H.
  destruct H as (n & E & Hn & Hp & Hm). exists n. intuition lia.
Qed.

Lemma gsm_norm_normalizes_witness :
  exists n, gsm_norm (-70000) = Ok n /\ 0 <= n <= 31 /\
    (0 < -70000 -> 2 ^ 30 <= -70000 * 2 ^ n < 2 ^ 31) /\
    (-70000 < 0 -> - 2 ^ 31 <= -70000 * 2 ^ n <= - 2 ^ 30).
Proof. apply (gsm_norm_normalizes (-70000)); [by_eval|lia]. Defined.

(** The 15-step shift-and-subtract loop of gsm_div computes the truncated Q15 quotient,
    saturated to 32767 when numerator and denominator are equal. *)
Theorem gsm_div_quotient (dm : data_model) (num denum : Z) :
  inS 16 num -> inS 16 denum -> 0 <= num <= denum -> 0 < denum ->
  gsm_div dm num denum = Ok (Z.min 32767 (num * 32768 / denum)).
Proof. apply gsm_div_spec. Qed.

Lemma gsm_div_quotient_witness : gsm_div LP64 3 7 = Ok (Z.min 32767 (3 * 32768 / 7)).
Proof. apply (gsm_div_quotient LP64 3 7); [by_eval|by_eval|lia|lia]. Defined.
