(* ===== verification/GsmTable.v ===== *)
(** The constant tables of the GSM codec (src/mibench/telecomm/gsm/src/table.c), each used by
    index or, for the short-term sections, inlined at its point of use. *)
From stdpp Require Import base list numbers option tactics.
From Stdlib Require Import ZArith Lia.
From S2P Require Import Prelude.

Definition gsm_A : list Z := [20480; 20480; 20480; 20480; 13964; 15360; 8534; 9036].
Definition gsm_B : list Z := [0; 0; 2048; -2560; 94; -1792; -341; -1144].
Definition gsm_MIC : list Z := [-32; -32; -16; -16; -8; -8; -4; -4].
Definition gsm_MAC : list Z := [31; 31; 15; 15; 7; 7; 3; 3].
Definition gsm_INVA : list Z := [13107; 13107; 13107; 13107; 19223; 17476; 31454; 29708].
Definition gsm_DLB : list Z := [6554; 16384; 26214; 32767].
Definition gsm_QLB : list Z := [3277; 11469; 21299; 32767].
Definition gsm_H : list Z := [-134; -374; 0; 2054; 5741; 8192; 5741; 2054; 0; -374; -134].
Definition gsm_NRFAC : list Z := [29128; 26215; 23832; 21846; 20165; 18725; 17476; 16384].
Definition gsm_FAC : list Z := [18431; 20479; 22527; 24575; 26623; 28671; 30719; 32767].
