(* ===== verification/GsmRpe.v ===== *)
(** GSM 06.10 regular-pulse excitation (src/mibench/telecomm/gsm/src/rpe.c).

    The encoder weights the long-term residual, selects one of four decimated grids, quantises
    it with a block-adaptive quantiser and reconstructs it; the decoder repeats the
    reconstruction from the coded parameters. *)
From stdpp Require Import base list numbers option tactics.
From Stdlib Require Import ZArith Lia.
From S2P Require Import Prelude GsmAdd GsmTable.

Section Rpe.
Context (dm : data_model).

(** ** 4.2.13: [e] is the 50-word array whose elements 5..44 are the signal. *)

Definition weighting_steps : list (Z * Z) :=
  [(0, -134); (1, -374); (3, 2054); (4, 5741); (5, 8192); (6, 5741); (7, 2054);
   (9, -374); (10, -134)].

Definition Weighting_filter (e : list Z) : res (list Z) :=
  mapM (fun k =>
     let L_result := 8192 ≫ 1 in
     L_result ← mfold (fun L_result '(i, H) =>
         x ← aget e (k + i);
         mret (sL dm (L_result + sL dm (x * H)))) weighting_steps L_result;
     let L_result := SASR L_result 13 in
     mret (s16 (if L_result <? MIN_WORD then MIN_WORD
                else if MAX_WORD <? L_result then MAX_WORD else L_result))) (seqZ 0 40).

(** ** 4.2.14 *)

(** [STEP( m, i )] for a list of [i]. *)
Definition grid_steps (x : list Z) (m : Z) (idx : list Z) (L_result : Z) : res Z :=
  mfold (fun L_result i =>
    v ← aget x (m + 3 * i);
    let L_temp := SASR v 2 in
    mret (sL dm (L_result + sL dm (L_temp * L_temp)))) idx L_result.

Definition RPE_grid_selection (x : list Z) : res (list Z * Z) :=
  L_common_0_3 ← grid_steps x 0 (seqZ 1 12) 0;
  L_result ← grid_steps x 0 [0] L_common_0_3;
  let EM := sL dm (L_result ≪ 1) in
  let Mc := 0 in
  L_result ← grid_steps x 1 (seqZ 0 13) 0;
  let L_result := sL dm (L_result ≪ 1) in
  let '(Mc, EM) := if EM <? L_result then (1, L_result) else (Mc, EM) in
  L_result ← grid_steps x 2 (seqZ 0 13) 0;
  let L_result := sL dm (L_result ≪ 1) in
  let '(Mc, EM) := if EM <? L_result then (2, L_result) else (Mc, EM) in
  L_result ← grid_steps x 3 [12] L_common_0_3;
  let L_result := sL dm (L_result ≪ 1) in
  let '(Mc, EM) := if EM <? L_result then (3, L_result) else (Mc, EM) in
  xM ← mapM (fun i => aget x (Mc + 3 * i)) (seqZ 0 13);
  mret (xM, Mc).

(** ** 4.2.15 *)

(** [while (mant <= 7) { mant = mant << 1 | 1; exp--; }] *)
Fixpoint mant_loop (fuel : nat) (mant exp : Z) : res (Z * Z) :=
  match fuel with
  | O => Err OutOfFuel
  | S fuel =>
      if mant <=? 7 then mant_loop fuel (s16 (Z.lor (mant ≪ 1) 1)) (s16 (exp - 1))
      else mret (mant, exp)
  end.

Definition APCM_quantization_xmaxc_to_exp_mant (xmaxc : Z) : res (Z * Z) :=
  let exp := 0 in
  let exp := if 15 <? xmaxc then s16 (SASR xmaxc 3 - 1) else exp in
  let mant := s16 (xmaxc - exp ≪ 3) in
  '(exp, mant) ←
    (if mant =? 0 then mret (-4, 7)
     else '(mant, exp) ← mant_loop 16 mant exp; mret (exp, s16 (mant - 8)));
  c_assert ((-4 <=? exp) && (exp <=? 6));;
  c_assert ((0 <=? mant) && (mant <=? 7));;
  mret (exp, mant).

Definition APCM_xmax (xM : list Z) : Z := fold_left max_abs_step xM 0.

(** The loop that finds the exponent of [xmax]. *)
Definition APCM_exp_body (_ : Z) (s : Z * bool * Z) : res (Z * bool * Z) :=
  let '(temp, itest, exp) := s in
  let itest := itest || (temp <=? 0) in
  let temp := s16 (SASR temp 1) in
  c_assert (exp <=? 5);;
  mret (temp, itest, if itest then exp else exp + 1).

(** Coding of [xmax] to get [xmaxc]. *)
Definition APCM_xmaxc (xmax : Z) : res Z :=
  '(_, _, exp) ← cfor 6 0 APCM_exp_body (s16 (SASR xmax 9), false, 0);
  c_assert ((exp <=? 6) && (0 <=? exp));;
  let temp := exp + 5 in
  c_assert ((temp <=? 11) && (0 <=? temp));;
  mret (gsm_add dm (SASR xmax temp) (exp ≪ 3)).

Definition APCM_quantization (xM : list Z) : res (list Z * Z * Z * Z) :=
  xM ← aread xM 0 13;
  let xmax := APCM_xmax xM in
  xmaxc ← APCM_xmaxc xmax;
  '(exp, mant) ← APCM_quantization_xmaxc_to_exp_mant xmaxc;
  c_assert ((exp <=? 4096) && (-4096 <=? exp));;
  c_assert ((0 <=? mant) && (mant <=? 7));;
  let temp1 := s16 (6 - exp) in
  temp2 ← aget gsm_NRFAC mant;
  xMc ← mapM (fun xMi =>
    c_assert ((0 <=? temp1) && (temp1 <? 16));;
    let temp := s16 (s32 (xMi ≪ temp1)) in
    let temp := s16 (GSM_MULT dm temp temp2) in
    let temp := s16 (SASR temp 12) in
    mret (s16 (temp + 4))) xM;
  mret (xMc, mant, exp, xmaxc).

(** ** 4.2.16 *)

Definition APCM_inverse_quantization (xMc : list Z) (mant exp : Z) : res (list Z) :=
  c_assert ((0 <=? mant) && (mant <=? 7));;
  temp1 ← aget gsm_FAC mant;
  let temp2 := gsm_sub dm 6 exp in
  let temp3 := gsm_asl 1 (gsm_sub dm temp2 1) in
  xMc ← aread xMc 0 13;
  mapM (fun xMci =>
    c_assert ((xMci <=? 7) && (0 <=? xMci));;
    let temp := s16 (s32 (xMci ≪ 1) - 7) in
    c_assert ((temp <=? 7) && (-7 <=? temp));;
    let temp := s16 (s32 (temp ≪ 12)) in
    let temp := s16 (GSM_MULT_R dm temp1 temp) in
    let temp := s16 (GSM_ADD dm temp temp3) in
    mret (gsm_asr temp temp2)) xMc.

(** ** 4.2.17: the switch jumps into the body of the do-while loop, so the first pass writes
    a shorter group; [while (++Mc < 4)] then pads with zeros. *)

Definition RPE_grid_positioning (Mc : Z) (xMp : list Z) : res (list Z) :=
  c_assert ((0 <=? Mc) && (Mc <=? 3));;
  first ← aget xMp 0;
  rest ← aread xMp 1 12;
  let loop := concat ((fun x => [0; 0; x]) <$> rest) in
  mret ((if Mc =? 3 then [0; 0; 0; first]
         else if Mc =? 2 then [0; 0; first]
         else if Mc =? 1 then [0; first]
         else [first]) ++ loop ++ replicate (Z.to_nat (3 - Mc)) 0).

(** ** The two entry points *)

Definition Gsm_RPE_Encoding (e : list Z) : res (list Z * Z * Z * list Z) :=
  x ← Weighting_filter e;
  '(xM, Mc) ← RPE_grid_selection x;
  '(xMc, mant, exp, xmaxc) ← APCM_quantization xM;
  xMp ← APCM_inverse_quantization xMc mant exp;
  ep ← RPE_grid_positioning Mc xMp;
  e ← awrite e 5 ep;
  mret (e, xmaxc, Mc, xMc).

Definition Gsm_RPE_Decoding (xmaxcr Mcr : Z) (xMcr : list Z) : res (list Z) :=
  '(exp, mant) ← APCM_quantization_xmaxc_to_exp_mant xmaxcr;
  xMp ← APCM_inverse_quantization xMcr mant exp;
  RPE_grid_positioning Mcr xMp.
End Rpe.

(** * Grid selection *)

(** The energy of grid [m]: the sum of the squares of its thirteen samples, scaled by 1/4. *)
Definition grid_sample (x : list Z) (k : Z) : Z := x !!! Z.to_nat k / 4.
Definition sum_squares (x : list Z) (m : Z) (idx : list Z) : Z :=
  foldr (fun i acc => grid_sample x (m + 3 * i) * grid_sample x (m + 3 * i) + acc) 0 idx.
Definition grid_energy (x : list Z) (m : Z) : Z := sum_squares x m (seqZ 0 13).

Section GridSelection.
Context (dm : data_model).
Implicit Types (x idx : list Z) (m L : Z).

Lemma grid_sample_square x k : warr 40 x ->
  0 <= grid_sample x k * grid_sample x k <= 67108864.
Proof.
  intros Hx. pose proof (warr_total 40 x (Z.to_nat k) Hx) as Hw. unfold grid_sample.
  assert (-8192 <= x !!! Z.to_nat k / 4 <= 8191) by (cint_unfold; dlia). nia.
Qed.

Lemma grid_steps_exact x m idx : warr 40 x -> forall L,
  Forall (fun i => 0 <= m + 3 * i < 40) idx ->
  0 <= L -> L + Z.of_nat (length idx) * 67108864 < 1073741824 ->
  grid_steps dm x m idx L = Ok (L + sum_squares x m idx) /\
  0 <= sum_squares x m idx <= Z.of_nat (length idx) * 67108864.
Proof.
  intros Hx. induction idx as [|i idx IH]; intros L Hi HL Hb.
  { cbn. split; [unfold mret, res_ret; f_equal|]; lia. }
  pose proof (grid_sample_square x (m + 3 * i) Hx) as Hs.
  pose proof (Forall_inv Hi) as Hi0. cbv beta in Hi0. pose proof (Forall_inv_tail Hi) as Hi1.
  unfold grid_steps. cbn [mfold]. rewrite aget_total by (destruct Hx; lia). cbn [mbind res_bind mret res_ret].
  match goal with |- context [mfold ?f idx ?y] => change (mfold f idx y) with (grid_steps dm x m idx y) end.
  change (sum_squares x m (i :: idx)) with
    (grid_sample x (m + 3 * i) * grid_sample x (m + 3 * i) + sum_squares x m idx).
  cbn [length] in *. cbv zeta. unfold SASR. rewrite Z.shiftr_div_pow2 by lia. change (2 ^ 2) with 4.
  fold (grid_sample x (m + 3 * i)).
  set (q := grid_sample x (m + 3 * i) * grid_sample x (m + 3 * i)) in *.
  rewrite (sL_id dm q), (sL_id dm (L + q)) by clia.
  destruct (IH (L + q)) as [E Hr]; [exact Hi1|lia..|].
  rewrite E. split; [f_equal|]; lia.
Qed.

Lemma sum_squares_app x m idx1 idx2 :
  sum_squares x m (idx1 ++ idx2) = sum_squares x m idx1 + sum_squares x m idx2.
Proof. unfold sum_squares. induction idx1; simpl; lia. Qed.

Lemma sum_squares_shift x : sum_squares x 0 (seqZ 1 12) = sum_squares x 3 (seqZ 0 12).
Proof.
  assert (forall l, sum_squares x 0 (Z.succ <$> l) = sum_squares x 3 l) as H.
  { unfold sum_squares. induction l as [|i l IH]; [reflexivity|]. cbn [fmap list_fmap foldr].
    fold (fmap (M := list) Z.succ l). rewrite IH. replace (0 + 3 * Z.succ i) with (3 + 3 * i) by lia. reflexivity. }
  rewrite <- H. f_equal. 
Qed.

Lemma grid_energy_0 x : grid_energy x 0 = sum_squares x 0 (seqZ 1 12) + sum_squares x 0 [0].
Proof. unfold grid_energy. change (seqZ 0 13) with ([0] ++ seqZ 1 12). rewrite sum_squares_app. lia. Qed.

Lemma grid_energy_3 x : grid_energy x 3 = sum_squares x 0 (seqZ 1 12) + sum_squares x 3 [12].
Proof.
  rewrite sum_squares_shift. unfold grid_energy.
  change (seqZ 0 13) with (seqZ 0 12 ++ [12]). apply sum_squares_app.
Qed.

(** The four energies the code computes. *)
Lemma grid_results x : warr 40 x ->
  exists s0, grid_steps dm x 0 (seqZ 1 12) 0 = Ok s0 /\
  grid_steps dm x 0 [0] s0 = Ok (grid_energy x 0) /\
  grid_steps dm x 1 (seqZ 0 13) 0 = Ok (grid_energy x 1) /\
  grid_steps dm x 2 (seqZ 0 13) 0 = Ok (grid_energy x 2) /\
  grid_steps dm x 3 [12] s0 = Ok (grid_energy x 3) /\
  forall m, 0 <= m <= 3 -> sL dm (grid_energy x m ≪ 1) = 2 * grid_energy x m.
Proof.
  intros Hx. exists (sum_squares x 0 (seqZ 1 12)).
  destruct (grid_steps_exact x 0 (seqZ 1 12) Hx 0) as [E0 H0]; [by_eval|lia|simpl; lia|].
  change (Z.of_nat (length (seqZ 1 12))) with 12 in *. rewrite Z.add_0_l in E0.
  destruct (grid_steps_exact x 0 [0] Hx (sum_squares x 0 (seqZ 1 12))) as [-> H1]; [by_eval|lia|cbn [length]; lia|].
  destruct (grid_steps_exact x 3 [12] Hx (sum_squares x 0 (seqZ 1 12))) as [-> H2]; [by_eval|lia|cbn [length]; lia|].
  destruct (grid_steps_exact x 1 (seqZ 0 13) Hx 0) as [-> H3]; [by_eval|lia|vm_compute; reflexivity|].
  destruct (grid_steps_exact x 2 (seqZ 0 13) Hx 0) as [-> H4]; [by_eval|lia|vm_compute; reflexivity|].
  change (Z.of_nat (length [0])) with 1 in *. change (Z.of_nat (length [12])) with 1 in *.
  change (Z.of_nat (length (seqZ 0 13))) with 13 in *.
  rewrite <- grid_energy_0, <- grid_energy_3, !Z.add_0_l.
  pose proof (grid_energy_0 x). pose proof (grid_energy_3 x). fold (grid_energy x 1) (grid_energy x 2) in *.
  do 5 (split; [assumption || reflexivity|]). intros m Hm.
  assert (m = 0 \/ m = 1 \/ m = 2 \/ m = 3) as Hc by lia.
  rewrite Z.shiftl_mul_pow2 by lia. destruct_or! Hc; subst m; rewrite sL_id by clia; lia.
Qed.

Definition grid_best x (r : list Z * Z) : Prop :=
  let '(xM, Mc) := r in
  0 <= Mc <= 3 /\
  (forall m, 0 <= m <= 3 -> grid_energy x m <= grid_energy x Mc) /\
  (forall m, 0 <= m < Mc -> grid_energy x m < grid_energy x Mc) /\
  xM = (fun i => x !!! Z.to_nat (Mc + 3 * i)) <$> seqZ 0 13.

Lemma grid_downsample x Mc : warr 40 x -> 0 <= Mc <= 3 ->
  mapM (fun i => aget x (Mc + 3 * i)) (seqZ 0 13) =
    Ok ((fun i => x !!! Z.to_nat (Mc + 3 * i)) <$> seqZ 0 13).
Proof.
  intros [Hl _] HM. assert (Forall (fun i => 0 <= i < 13) (seqZ 0 13)) as HF by by_eval.
  induction HF as [|i l Hi _ IH]; [reflexivity|].
  cbn [mapM fmap list_fmap]. rewrite aget_total by lia. cbn [mbind res_bind].
  rewrite IH. reflexivity.
Qed.

Lemma RPE_grid_selection_best x : warr 40 x -> okp (RPE_grid_selection dm x) (grid_best x).
Proof.
  intros Hx. unfold RPE_grid_selection. cbv zeta.
  destruct (grid_results x Hx) as (s0 & -> & E0 & E1 & E2 & E3 & Hd). cbn [mbind res_bind].
  rewrite E0. cbn [mbind res_bind]. rewrite E1. cbn [mbind res_bind]. rewrite E2. cbn [mbind res_bind].
  rewrite E3. cbn [mbind res_bind]. rewrite !Hd by lia.
  assert (forall m, 0 <= m <= 3 -> m = 0 \/ m = 1 \/ m = 2 \/ m = 3) as Hm by lia.
  repeat (zcase; cbv beta iota zeta); rewrite grid_downsample by (lia || assumption);
    (split; [lia|]); (split; [|split; [|reflexivity]]); intros m Hr;
    (destruct (Hm m) as [->|[->|[->| ->]]]; [lia|..]); lia.
Qed.
End GridSelection.

(** * The block-adaptive quantiser *)

(** A 13-sample sequence of 3-bit codes. *)
Definition code3 (c : Z) : Prop := 0 <= c <= 7.
#[global] Instance code3_dec c : Decision (code3 c).
Proof. unfold code3. apply _. Defined.

Section Quantiser.
Implicit Types (dm : data_model) (xM : list Z) (xmax v : Z).

(** What the coding of a block with maximum [xmax] needs: the coded maximum fits its six
    bits, and the extreme samples are scaled without overflow into three bits. *)
Definition quantiser_check dm xmax : bool :=
  match APCM_xmaxc dm xmax with
  | Ok xmaxc =>
      match APCM_quantization_xmaxc_to_exp_mant xmaxc with
      | Ok (exp, mant) =>
          let t1 := 6 - exp in
          let t2 := gsm_NRFAC !!! Z.to_nat mant in
          (0 <=? xmaxc) && (xmaxc <=? 63) && (-4 <=? exp) && (exp <=? 6) &&
          (0 <=? mant) && (mant <=? 7) && (0 <=? t2) && (t2 <=? 32767) &&
          (xmax * 2 ^ t1 <=? 32767) && (-32768 <=? sample_min xmax * 2 ^ t1) &&
          (xmax * 2 ^ t1 * t2 / 134217728 <=? 3) &&
          (-4 <=? sample_min xmax * 2 ^ t1 * t2 / 134217728)
      | Err _ => false
      end
  | Err _ => false
  end.

(** The coded maximum depends on [xmax] only through [xmax >> 5]. *)
Definition block_top xmax : Z := xmax / 32 * 32 + 31.

Lemma shiftr_block_top xmax k : 5 <= k -> SASR (block_top xmax) k = SASR xmax k.
Proof.
  intros Hk. unfold SASR, block_top. rewrite !Z.shiftr_div_pow2 by lia.
  replace (2 ^ k) with (32 * 2 ^ (k - 5))
    by (change 32 with (2 ^ 5); rewrite <- Z.pow_add_r by lia; f_equal; lia).
  rewrite <- !Z.div_div by lia. f_equal. dlia.
Qed.

Lemma APCM_xmaxc_block_top dm xmax : APCM_xmaxc dm (block_top xmax) = APCM_xmaxc dm xmax.
Proof.
  unfold APCM_xmaxc. rewrite (shiftr_block_top xmax 9) by lia.
  destruct (cfor 6 0 _ _) as [[[t it] exp]|e]; [|reflexivity].
  cbn [mbind res_bind]. unfold c_assert.
  destruct ((exp <=? 6) && (0 <=? exp)) eqn:E; [|reflexivity]. cbn [mbind res_bind].
  rewrite shiftr_block_top by lia. reflexivity.
Qed.

Lemma quantiser_check_tops dm : forallb (fun b => quantiser_check dm (b * 32 + 31)) (seqZ 0 1024) = true.
Proof. destruct dm; vm_compute; reflexivity. Qed.

(** The scaled samples of a block. *)
Definition scaled t1 t2 v : Z := v * 2 ^ t1 * t2 / 134217728.

Lemma quantiser_spec dm xmax : 0 <= xmax <= 32767 ->
  exists xmaxc exp mant t2,
    APCM_xmaxc dm xmax = Ok xmaxc /\ 0 <= xmaxc <= 63 /\
    APCM_quantization_xmaxc_to_exp_mant xmaxc = Ok (exp, mant) /\
    -4 <= exp <= 6 /\ 0 <= mant <= 7 /\ aget gsm_NRFAC mant = Ok t2 /\ 0 <= t2 <= 32767 /\
    forall v, sample_min xmax <= v <= xmax ->
      inS 16 (v * 2 ^ (6 - exp)) /\ -4 <= scaled (6 - exp) t2 v <= 3.
Proof.
  intros Hx.
  pose proof (forallb_seqZ _ _ _ (quantiser_check_tops dm) (xmax / 32) ltac:(dlia)) as H.
  cbv beta in H. fold (block_top xmax) in H. unfold quantiser_check in H.
  rewrite APCM_xmaxc_block_top in H.
  destruct (APCM_xmaxc dm xmax) as [xmaxc|]; [|discriminate].
  destruct (APCM_quantization_xmaxc_to_exp_mant xmaxc) as [[exp mant]|] eqn:E; [|discriminate].
  cbv zeta in H. set (t2 := gsm_NRFAC !!! Z.to_nat mant) in *.
  exists xmaxc, exp, mant, t2. split; [reflexivity|]. split; [lia|]. split; [exact E|].
  split; [lia|]. split; [lia|].
  split; [unfold t2; apply aget_total; simpl; lia|]. split; [lia|].
  intros v Hv. unfold scaled.
  assert (sample_min (block_top xmax) <= sample_min xmax /\ xmax <= block_top xmax) as [Hlo Hhi].
  { unfold sample_min, block_top. zcase; dlia. }
  set (P := 2 ^ (6 - exp)) in *. assert (0 < P) by (unfold P; lia).
  set (lo := sample_min (block_top xmax)) in *. set (hi := block_top xmax) in *.
  assert (lo * P <= v * P <= hi * P) by nia.
  split; [clia|].
  assert (lo * P * t2 <= v * P * t2 <= hi * P * t2) as [B1 B2] by (split; apply Z.mul_le_mono_nonneg_r; lia).
  pose proof (Z.div_le_mono _ _ 134217728 ltac:(lia) B1).
  pose proof (Z.div_le_mono _ _ 134217728 ltac:(lia) B2). lia.
Qed.

(** ** Coding a block never fails, and the codes fit their fields *)

Definition block_coded xM (r : list Z * Z * Z * Z) : Prop :=
  let '(xMc, mant, exp, xmaxc) := r in
  length xMc = length xM /\ Forall code3 xMc /\ 0 <= xmaxc <= 63 /\
  -4 <= exp <= 6 /\ 0 <= mant <= 7 /\
  APCM_quantization_xmaxc_to_exp_mant xmaxc = Ok (exp, mant).

Lemma APCM_quantization_ok dm xM :
  length xM = 13%nat -> Forall (inS 16) xM -> okp (APCM_quantization dm xM) (block_coded xM).
Proof.
  intros Hlen Hw. unfold APCM_quantization, APCM_xmax. rewrite aread_all by lia. cbn [mbind res_bind]. destruct (max_abs_spec xM Hw) as [Hx Hv].
  destruct (quantiser_spec dm _ Hx) as (xmaxc & exp & mant & t2 & -> & Hc & E & He & Hm & Ht & Ht2 & Hs).
  cbn [mbind res_bind]. rewrite E. cbn [mbind res_bind].
  replace ((exp <=? 4096) && (-4096 <=? exp)) with true by lia.
  replace ((0 <=? mant) && (mant <=? 7)) with true by lia.
  cbn [c_assert mbind res_bind]. rewrite Ht. cbn [mbind res_bind].
  rewrite (wrapS_id 16 (6 - exp)) by clia.
  eapply okp_bind.
  - apply (okp_mapM _ _ code3 xM Hv). intros v Hr. destruct (Hs v Hr) as [H16 H3].
    replace ((0 <=? 6 - exp) && (6 - exp <? 16)) with true by lia.
    cbn [c_assert mbind res_bind]. rewrite Z.shiftl_mul_pow2 by lia.
    rewrite (wrapS_id 32), (wrapS_id 16 (v * _)) by clia.
    rewrite GSM_MULT_spec by clia. unfold scaled in H3. rewrite <- Z.div_div with (b := 32768) (c := 4096) in H3 by lia.
    unfold SASR. rewrite Z.shiftr_div_pow2 by lia. change (2 ^ 12) with 4096.
    assert (inS 16 (v * 2 ^ (6 - exp) * t2 / 32768)).
    { split; [apply Z.div_le_lower_bound|apply Z.div_lt_upper_bound]; cint_unfold; nia. }
    rewrite (wrapS_id 16 (_ / 32768)) by clia. rewrite (wrapS_id 16 (_ / 4096)) by clia.
    cbn. rewrite wrapS_id by clia. unfold code3. lia.
  - intros xMc [Hl Hcs]. cbn. auto 10.
Qed.

(** ** Reconstruction *)

Lemma APCM_inverse_quantization_ok dm xMc mant exp :
  length xMc = 13%nat -> Forall code3 xMc -> 0 <= mant <= 7 -> -4 <= exp <= 6 ->
  okp (APCM_inverse_quantization dm xMc mant exp)
    (fun xMp => length xMp = length xMc /\ Forall (inS 16) xMp).
Proof.
  intros Hlen Hc Hm He. unfold APCM_inverse_quantization.
  replace ((0 <=? mant) && (mant <=? 7)) with true by lia.
  cbn [c_assert mbind res_bind]. rewrite aget_total by (simpl; lia). cbn [mbind res_bind].
  rewrite aread_all by lia. cbn [mbind res_bind].
  apply (okp_mapM _ _ _ _ Hc). intros c H. unfold code3 in H.
  replace ((c <=? 7) && (0 <=? c)) with true by lia. cbn [c_assert mbind res_bind].
  rewrite (Z.shiftl_mul_pow2 c 1) by lia. change (2 ^ 1) with 2.
  rewrite (wrapS_id 32 (c * 2)), (wrapS_id 16 (c * 2 - 7)) by clia.
  replace ((c * 2 - 7 <=? 7) && (-7 <=? c * 2 - 7)) with true by lia.
  cbn [c_assert mbind res_bind okp mret res_ret]. unfold gsm_asr.
  zcase; try (apply wrapS_range; lia); clia.
Qed.

(** The Duff's-device positioning is the plain one: zero everywhere except that sample [i]
    of the grid lands at [Mc + 3 * i]. *)
Definition grid_expand (Mc : Z) (xMp : list Z) : list Z :=
  (fun k => if (0 <=? k - Mc) && ((k - Mc) mod 3 =? 0) && ((k - Mc) / 3 <? 13)
            then xMp !!! Z.to_nat ((k - Mc) / 3) else 0) <$> seqZ 0 40.

Lemma RPE_grid_positioning_spec Mc xMp :
  0 <= Mc <= 3 -> length xMp = 13%nat ->
  RPE_grid_positioning Mc xMp = Ok (grid_expand Mc xMp).
Proof.
  intros HM Hl. do 13 (destruct xMp as [|? xMp]; [discriminate Hl|]).
  destruct xMp; [|discriminate Hl].
  assert (Mc = 0 \/ Mc = 1 \/ Mc = 2 \/ Mc = 3) as HMc by lia.
  destruct_or! HMc; subst Mc; vm_compute; reflexivity.
Qed.

Lemma grid_expand_words Mc xMp : Forall (inS 16) xMp -> warr 40 (grid_expand Mc xMp).
Proof.
  intros Hw. apply warr_map; [|lia]. intros k _.
  destruct (_ && _); [|clia]. apply (warr_total (Z.of_nat (length xMp))). split; auto.
Qed.
End Quantiser.

(** * Encoder and decoder *)

Section EntryPoints.
Context (dm : data_model).
Implicit Types e xMc : list Z.

(** The impulse response of the weighting filter, all eleven taps. *)
Definition weighting_response : list Z := [-134; -374; 0; 2054; 5741; 8192; 5741; 2054; 0; -374; -134].
Definition weighted e (k : Z) : Z :=
  sat16 ((4096 + zsum (fun i => weighting_response !!! i * e !!! Z.to_nat (k + Z.of_nat i)) 11) / 8192).

(** The filter reads inside [e[0..49]], its accumulator never overflows, and the result is the
    rounded, saturated convolution with the impulse response. *)
Lemma Weighting_filter_spec e : warr 50 e -> Weighting_filter dm e = Ok (weighted e <$> seqZ 0 40).
Proof.
  intros He. unfold Weighting_filter. apply mapM_total, Forall_forall. intros k Hk.
  apply list_elem_of_In, elem_of_seqZ in Hk. cbv zeta. unfold weighting_steps. cbn [mfold].
  pose proof (fun i => warr_total 50 e (Z.to_nat (k + i)) He) as Hw.
  rewrite !aget_total by (destruct He; lia). cbn [mbind res_bind mret res_ret].
  unfold weighted. cbn [zsum].
  repeat match goal with
  | |- context [Z.of_nat ?n] => let v := eval vm_compute in (Z.of_nat n) in change (Z.of_nat n) with v
  | |- context [weighting_response !!! ?n] =>
      let v := eval vm_compute in (weighting_response !!! n) in change (weighting_response !!! n) with v
  end.
  change (8192 ≫ 1) with 4096.
  pose proof (Hw 0). pose proof (Hw 1). pose proof (Hw 3). pose proof (Hw 4). pose proof (Hw 5).
  pose proof (Hw 6). pose proof (Hw 7). pose proof (Hw 9). pose proof (Hw 10). clear Hw.
  repeat match goal with |- context [e !!! ?i] => generalize dependent (e !!! i); intros end.
  drop_wrap. unfold SASR. rewrite Z.shiftr_div_pow2 by lia. change (2 ^ 13) with 8192.
  match goal with |- context [sat16 (?a / 8192)] => set (y := a / 8192) in * end.
  match goal with |- context [?b / 8192 <? MIN_WORD] =>
    replace (b / 8192) with y by (unfold y; apply (f_equal (fun t => t / 8192)); lia) end.
  f_equal. unfold sat16, MIN_WORD, MAX_WORD. zcase; rewrite wrapS_id by clia; lia.
Qed.

Lemma weighted_words e : warr 40 (weighted e <$> seqZ 0 40).
Proof. apply warr_map; [|lia]. intros. apply sat16_range. Qed.

(** The coded parameters of one sub-segment, each within its field of the frame. *)
Definition rpe_params (xmaxc Mc : Z) xMc : Prop :=
  0 <= xmaxc <= 63 /\ 0 <= Mc <= 3 /\ length xMc = 13%nat /\ Forall code3 xMc.

Lemma xmaxc_to_exp_mant_ok xmaxc : 0 <= xmaxc <= 63 ->
  okp (APCM_quantization_xmaxc_to_exp_mant xmaxc)
    (fun '(exp, mant) => -4 <= exp <= 6 /\ 0 <= mant <= 7).
Proof.
  intros H.
  assert (forallb (fun x => match APCM_quantization_xmaxc_to_exp_mant x with
    | Ok (exp, mant) => (-4 <=? exp) && (exp <=? 6) && (0 <=? mant) && (mant <=? 7)
    | Err _ => false end) (seqZ 0 64) = true) as Hc by (vm_compute; reflexivity).
  pose proof (forallb_seqZ _ _ _ Hc xmaxc ltac:(lia)) as E. cbv beta in E.
  destruct (APCM_quantization_xmaxc_to_exp_mant xmaxc) as [[exp mant]|]; [|discriminate].
  simpl. lia.
Qed.

(** Decoding accepts every parameter set that fits the frame and yields 40 words. *)
Lemma Gsm_RPE_Decoding_ok xmaxc Mc xMc :
  rpe_params xmaxc Mc xMc -> okp (Gsm_RPE_Decoding dm xmaxc Mc xMc) (warr 40).
Proof.
  intros (Hx & HM & Hl & Hc). unfold Gsm_RPE_Decoding.
  eapply okp_bind; [apply xmaxc_to_exp_mant_ok, Hx|]. intros [exp mant] [He Hm].
  eapply okp_bind; [apply APCM_inverse_quantization_ok; assumption|].
  intros xMp [Hl' Hw]. rewrite RPE_grid_positioning_spec by (lia || congruence).
  apply grid_expand_words, Hw.
Qed.

Definition rpe_encoded e (r : list Z * Z * Z * list Z) : Prop :=
  let '(e', xmaxc, Mc, xMc) := r in
  rpe_params xmaxc Mc xMc /\
  exists ep, e' = take 5 e ++ ep ++ drop 45 e /\ warr 40 ep /\
    Gsm_RPE_Decoding dm xmaxc Mc xMc = Ok ep.

(** The part of Gsm_RPE_Encoding after the quantiser. *)
Lemma rpe_reconstruct_ok e xMc mant exp xmaxc Mc :
  warr 50 e -> rpe_params xmaxc Mc xMc -> -4 <= exp <= 6 -> 0 <= mant <= 7 ->
  APCM_quantization_xmaxc_to_exp_mant xmaxc = Ok (exp, mant) ->
  okp (xMp ← APCM_inverse_quantization dm xMc mant exp;
       ep ← RPE_grid_positioning Mc xMp;
       e ← awrite e 5 ep;
       mret (e, xmaxc, Mc, xMc)) (rpe_encoded e).
Proof.
  intros He Hp Hex Hm E. pose proof Hp as (_ & HM & Hl & Hc).
  pose proof (Gsm_RPE_Decoding_ok xmaxc Mc xMc Hp) as Hd. unfold Gsm_RPE_Decoding in Hd.
  rewrite E in Hd. cbn [mbind res_bind] in Hd.
  destruct (APCM_inverse_quantization dm xMc mant exp) as [xMp|] eqn:Einv; [|contradiction].
  cbn [mbind res_bind] in *. destruct (RPE_grid_positioning Mc xMp) as [ep|] eqn:Epos; [|contradiction].
  cbn [okp mbind res_bind] in *. assert (length ep = 40%nat) as Hepl by (destruct Hd; lia).
  rewrite awrite_ok by (destruct He; lia). rewrite Hepl.
  change (Z.to_nat 5 + 40)%nat with 45%nat. change (Z.to_nat 5) with 5%nat.
  cbn [mbind res_bind okp mret res_ret rpe_encoded]. split; [exact Hp|].
  exists ep. split; [reflexivity|]. split; [exact Hd|].
  unfold Gsm_RPE_Decoding. rewrite E. cbn [mbind res_bind]. rewrite Einv. exact Epos.
Qed.

Lemma Gsm_RPE_Encoding_ok e : warr 50 e -> okp (Gsm_RPE_Encoding dm e) (rpe_encoded e).
Proof.
  intros He. unfold Gsm_RPE_Encoding. eapply okp_bind_eq; [apply Weighting_filter_spec, He|].
  pose proof (weighted_words e) as Hx. generalize dependent (weighted e <$> seqZ 0 40). intros x Hx.
  eapply okp_bind; [apply RPE_grid_selection_best, Hx|]. intros [xM Mc] (HM & _ & _ & HxM).
  assert (warr 13 xM) as [HxMl HxMw].
  { rewrite HxM. apply warr_map; [|lia]. intros. apply (warr_total 40), Hx. }
  eapply okp_bind; [apply APCM_quantization_ok; [lia|exact HxMw]|].
  intros [[[xMc mant] exp] xmaxc] (Hl & Hc & Hxc & Hex & Hm & E).
  apply rpe_reconstruct_ok; try assumption. unfold rpe_params. repeat split; lia || assumption.
Qed.
End EntryPoints.

(** Gsm_RPE_Encoding never fails, its codes fit their fields, and the residual it leaves in
    e[5..44] is what Gsm_RPE_Decoding computes from the codes. *)
Theorem rpe_encode_decode (dm : data_model) (e : list Z) :
  warr 50 e ->
  exists e' xmaxc Mc xMc ep,
    Gsm_RPE_Encoding dm e = Ok (e', xmaxc, Mc, xMc) /\
    0 <= xmaxc <= 63 /\ 0 <= Mc <= 3 /\ length xMc = 13%nat /\ Forall code3 xMc /\
    Gsm_RPE_Decoding dm xmaxc Mc xMc = Ok ep /\
    warr 40 ep /\ e' = take 5 e ++ ep ++ drop 45 e.
Proof.
  intros He0. pose proof (Gsm_RPE_Encoding_ok dm e He0) as H. apply okp_ok in H.
  destruct H as ([[[e' xmaxc] Mc] xMc] & E & (Hx & HM & Hl & Hc) & ep & He & Hw & Hd).
  exists e', xmaxc, Mc, xMc, ep. auto 10.
Qed.

Lemma rpe_encode_decode_witness :
  exists e' xmaxc Mc xMc ep,
    Gsm_RPE_Encoding ILP32 (Z.mul 300 <$> seqZ (-20) 50) = Ok (e', xmaxc, Mc, xMc) /\
    0 <= xmaxc <= 63 /\ 0 <= Mc <= 3 /\ length xMc = 13%nat /\ Forall code3 xMc /\
    Gsm_RPE_Decoding ILP32 xmaxc Mc xMc = Ok ep /\ warr 40 ep /\
    e' = take 5 (Z.mul 300 <$> seqZ (-20) 50) ++ ep ++ drop 45 (Z.mul 300 <$> seqZ (-20) 50).
Proof. apply (rpe_encode_decode ILP32 (Z.mul 300 <$> seqZ (-20) 50)). by_eval. Defined.

(** RPE_grid_selection returns the first of the four decimated grids with the largest
    energy, in spite of the shared partial sum of grids 0 and 3, together with its 13 samples.
    *)
Theorem rpe_grid_selection_optimal (dm : data_model) (x : list Z) :
  warr 40 x ->
  exists xM Mc, RPE_grid_selection dm x = Ok (xM, Mc) /\ 0 <= Mc <= 3 /\
    (forall m, 0 <= m <= 3 -> grid_energy x m <= grid_energy x Mc) /\
    (forall m, 0 <= m < Mc -> grid_energy x m < grid_energy x Mc) /\
    xM = (fun i => x !!! Z.to_nat (Mc + 3 * i)) <$> seqZ 0 13.
Proof.
  intros Hx. pose proof (RPE_grid_selection_best dm x Hx) as H. apply okp_ok in H.
  destruct H as ([xM Mc] & E & H). exists xM, Mc. split; [exact E|]. exact H.
Qed.

Lemma rpe_grid_selection_optimal_witness :
  exists xM Mc, RPE_grid_selection LP64 (Z.mul 100 <$> seqZ 0 40) = Ok (xM, Mc) /\ 0 <= Mc <= 3 /\
    (forall m, 0 <= m <= 3 ->
      grid_energy (Z.mul 100 <$> seqZ 0 40) m <= grid_energy (Z.mul 100 <$> seqZ 0 40) Mc) /\
    (forall m, 0 <= m < Mc ->
      grid_energy (Z.mul 100 <$> seqZ 0 40) m < grid_energy (Z.mul 100 <$> seqZ 0 40) Mc) /\
    xM = (fun i => (Z.mul 100 <$> seqZ 0 40) !!! Z.to_nat (Mc + 3 * i)) <$> seqZ 0 13.
Proof. apply (rpe_grid_selection_optimal LP64 (Z.mul 100 <$> seqZ 0 40)). by_eval. Defined.
