(* ===== verification/GsmLtp.v ===== *)
(** GSM 06.10 long-term prediction (src/mibench/telecomm/gsm/src/long_term.c, the integer
    version: neither USE_FLOAT_MUL nor USE_TABLE_MUL is defined).

    [dp0] is the 280-word history array of [struct gsm_state]; a C pointer [dp] into it is the
    index [o] of the element it points to, so [dp[k - Nc]] is [dp0[o + k - Nc]]. The code calls
    [Long_term_analysis_filtering] with [dpp == dp], and the model keeps that aliasing: the
    estimate is written into the array the history is read from. *)
From stdpp Require Import base list numbers option tactics.
From Stdlib Require Import ZArith Lia.
From S2P Require Import Prelude GsmAdd GsmTable.

Section Ltp.
Context (dm : data_model).

(** The cross-correlation [L_result] of [wt] with the history at lag [lambda]. *)
Definition LTP_correlation (dp0 : list Z) (o : Z) (wt : list Z) (lambda : Z) : res Z :=
  cfor 40 0 (fun k L_result =>
    w ← aget wt k;
    v ← aget dp0 (o + (k - lambda));
    mret (sL dm (L_result + s32 (w * v)))) 0.

(** The search over the lags 40..120; the state is [(L_max, Nc)]. *)
Definition LTP_search (dp0 : list Z) (o : Z) (wt : list Z) : res (Z * Z) :=
  cfor 81 40 (fun lambda '(L_max, Nc) =>
    L_result ← LTP_correlation dp0 o wt lambda;
    mret (if L_max <? L_result then (L_result, lambda) else (L_max, Nc))) (0, 40).

(** The power of the history at the chosen lag, before the final doubling. *)
Definition LTP_power (dp0 : list Z) (o Nc : Z) : res Z :=
  cfor 40 0 (fun k L_power =>
    v ← aget dp0 (o + (k - Nc));
    let L_temp := SASR v 3 in
    mret (sL dm (L_power + sL dm (L_temp * L_temp)))) 0.

(** [for (bc = 0; bc <= 2; bc++) if (R <= gsm_mult(S, gsm_DLB[bc])) break;] *)
Fixpoint LTP_gain_loop (n : nat) (R S bc : Z) : res Z :=
  match n with
  | O => mret bc
  | Datatypes.S n =>
      dlb ← aget gsm_DLB bc;
      if R <=? gsm_mult dm S dlb then mret bc else LTP_gain_loop n R S (bc + 1)
  end.
Definition LTP_gain (R S : Z) : res Z := LTP_gain_loop 3 R S 0.

(** The scaling [scal] of [d[0..39]]. *)
Definition LTP_scaling (d : list Z) : res Z :=
  d ← aread d 0 40;
  let dmax := fold_left max_abs_step d 0 in
  temp ← (if dmax =? 0 then mret 0
          else c_assert (0 <? dmax);; gsm_norm (sL dm (dmax ≪ 16)));
  let scal := if 6 <? temp then 0 else s16 (6 - temp) in
  c_assert (0 <=? scal);;
  mret scal.

Definition Calculation_of_the_LTP_parameters (d dp0 : list Z) (o : Z) : res (Z * Z) :=
  scal ← LTP_scaling d;
  d ← aread d 0 40;
  let wt := (fun x => s16 (SASR x scal)) <$> d in
  '(L_max, Nc) ← LTP_search dp0 o wt;
  let L_max := sL dm (L_max ≪ 1) in
  c_assert ((scal <=? 100) && (-100 <=? scal));;
  let L_max := L_max ≫ (6 - scal) in
  c_assert ((Nc <=? 120) && (40 <=? Nc));;
  L_power ← LTP_power dp0 o Nc;
  let L_power := sL dm (L_power ≪ 1) in
  if L_max <=? 0 then mret (0, Nc)
  else if L_power <=? L_max then mret (3, Nc)
  else
    temp ← gsm_norm L_power;
    let R := s16 (SASR (sL dm (L_max ≪ temp)) 16) in
    let S := s16 (SASR (sL dm (L_power ≪ temp)) 16) in
    bc ← LTP_gain R S;
    mret (bc, Nc).

(** [STEP( BP )] of [Long_term_analysis_filtering]; [e] is the 50-word array of code.c whose
    element 5 the callee sees as [e[0]]. *)
Definition LTP_filter_body (BP Nc : Z) (o : Z) (d : list Z) (k : Z) (s : list Z * list Z) :
    res (list Z * list Z) :=
  let '(dp0, e) := s in
  v ← aget dp0 (o + (k - Nc));
  dp0 ← aset dp0 (o + k) (s16 (GSM_MULT_R dm BP v));
  dk ← aget d k;
  dppk ← aget dp0 (o + k);
  e ← aset e (5 + k) (s16 (GSM_SUB dm dk dppk));
  mret (dp0, e).

Definition Long_term_analysis_filtering (bc Nc : Z) (dp0 : list Z) (o : Z) (d e : list Z) :
    res (list Z * list Z) :=
  let step BP := cfor 40 0 (LTP_filter_body BP Nc o d) (dp0, e) in
  if bc =? 0 then step 3277
  else if bc =? 1 then step 11469
  else if bc =? 2 then step 21299
  else if bc =? 3 then step 32767
  else mret (dp0, e).

Definition Gsm_Long_Term_Predictor (d dp0 : list Z) (o : Z) (e : list Z) :
    res (list Z * list Z * Z * Z) :=
  '(bc, Nc) ← Calculation_of_the_LTP_parameters d dp0 o;
  '(dp0, e) ← Long_term_analysis_filtering bc Nc dp0 o d e;
  mret (dp0, e, Nc, bc).

(** 4.3.2: the result is the new history and [S->nrp]. *)
Definition LTP_synthesis_body (brp Nr : Z) (erp : list Z) (k : Z) (dp0 : list Z) : res (list Z) :=
  v ← aget dp0 (120 + (k - Nr));
  let drpp := s16 (GSM_MULT_R dm brp v) in
  x ← aget erp k;
  aset dp0 (120 + k) (s16 (GSM_ADD dm x drpp)).

Definition LTP_shift_body (k : Z) (dp0 : list Z) : res (list Z) :=
  v ← aget dp0 (120 + (-80 + k));
  aset dp0 (120 + (-120 + k)) v.

Definition Gsm_Long_Term_Synthesis_Filtering (nrp : Z) (dp0 : list Z) (Ncr bcr : Z)
    (erp : list Z) : res (list Z * Z) :=
  let Nr := if (Ncr <? 40) || (120 <? Ncr) then nrp else Ncr in
  c_assert ((40 <=? Nr) && (Nr <=? 120));;
  brp ← aget gsm_QLB bcr;
  c_assert (negb (brp =? MIN_WORD));;
  dp0 ← cfor 40 0 (LTP_synthesis_body brp Nr erp) dp0;
  dp0 ← cfor 120 0 LTP_shift_body dp0;
  mret (dp0, Nr).
End Ltp.

(** * The lag and the gain *)

(** The exact cross-correlation at lag [lambda]. *)
Definition correlation (dp0 : list Z) (o : Z) (wt : list Z) (lambda : Z) : Z :=
  zsum (fun k => wt !!! k * dp0 !!! Z.to_nat (o + (Z.of_nat k - lambda))) 40.

Section Parameters.
Context (dm : data_model) (dp0 : list Z) (o : Z).
Implicit Types (wt : list Z) (lambda Nc L_max : Z).
Hypothesis Hdp : warr 280 dp0.
Hypothesis Ho : 120 <= o <= 240.

Lemma history_get (k lambda : Z) : 0 <= k < 40 -> 40 <= lambda <= 120 ->
  aget dp0 (o + (k - lambda)) = Ok (dp0 !!! Z.to_nat (o + (k - lambda))).
Proof. intros. apply aget_total. destruct Hdp. lia. Qed.

Lemma history_word (i : Z) : inS 16 (dp0 !!! Z.to_nat i).
Proof. apply (warr_total 280), Hdp. Qed.

Lemma correlation_term wt (k : nat) (i : Z) :
  (forall j : nat, -512 <= wt !!! j <= 512) ->
  - 16777216 <= wt !!! k * dp0 !!! Z.to_nat i <= 16777216.
Proof.
  intros Hwt. pose proof (history_word i). specialize (Hwt k). cint_unfold. nia.
Qed.

Lemma correlation_bound wt lambda :
  (forall j : nat, -512 <= wt !!! j <= 512) ->
  - 671088640 <= correlation dp0 o wt lambda <= 671088640.
Proof.
  intros Hwt.
  assert (- (Z.of_nat 40 * 16777216) <= correlation dp0 o wt lambda <= Z.of_nat 40 * 16777216).
  { apply zsum_bound. intros. apply correlation_term, Hwt. }
  lia.
Qed.

(** With the scaled signal within 9 bits the accumulation never overflows. *)
Lemma LTP_correlation_exact wt lambda : length wt = 40%nat ->
  (forall j : nat, -512 <= wt !!! j <= 512) -> 40 <= lambda <= 120 ->
  LTP_correlation dm dp0 o wt lambda = Ok (correlation dp0 o wt lambda).
Proof.
  intros Hlen Hwt Hl. unfold LTP_correlation, correlation.
  set (f := fun k => wt !!! k * dp0 !!! Z.to_nat (o + (Z.of_nat k - lambda))).
  apply (cfor_states (zsum f)). intros k Hk. rewrite Z.add_0_l, history_get, aget_total, Nat2Z.id by lia.
  cbn [mbind res_bind mret res_ret zsum]. fold (f k).
  pose proof (correlation_term wt k (o + (Z.of_nat k - lambda)) Hwt) as Hf. fold (f k) in Hf.
  pose proof (zsum_bound f k 16777216 ltac:(intros; apply correlation_term, Hwt)).
  drop_wrap. reflexivity.
Qed.

(** The lag found is the first one with the largest positive correlation. *)
Definition best_lag wt (L_max Nc : Z) : Prop :=
  40 <= Nc <= 120 /\ 0 <= L_max <= 671088640 /\
  (forall mu, 40 <= mu <= 120 -> correlation dp0 o wt mu <= L_max) /\
  (L_max = 0 /\ Nc = 40 \/
   L_max = correlation dp0 o wt Nc /\
   forall mu, 40 <= mu < Nc -> correlation dp0 o wt mu < L_max).

Lemma LTP_search_best wt : length wt = 40%nat ->
  (forall j : nat, -512 <= wt !!! j <= 512) ->
  okp (LTP_search dm dp0 o wt) (fun '(L_max, Nc) => best_lag wt L_max Nc).
Proof.
  intros Hlen Hwt. unfold LTP_search.
  set (I := fun lambda '(L_max, Nc) =>
    40 <= Nc <= 120 /\ (Nc = 40 \/ Nc < lambda) /\ 0 <= L_max <= 671088640 /\
    (forall mu, 40 <= mu < lambda -> correlation dp0 o wt mu <= L_max) /\
    (L_max = 0 /\ Nc = 40 \/ L_max = correlation dp0 o wt Nc /\
     forall mu, 40 <= mu < Nc -> correlation dp0 o wt mu < L_max)).
  apply okp_mono with (P := I (40 + Z.of_nat 81)).
  - apply okp_cfor.
    + unfold I. repeat split; try lia.
    + intros lambda [L_max Nc] Hl (HN & HN' & HL & Hmu & Hbest).
      change (Z.of_nat 81) with 81 in Hl.
      rewrite LTP_correlation_exact by (assumption || lia). cbn [mbind res_bind].
      pose proof (correlation_bound wt lambda Hwt).
      unfold I. cbn [okp mret res_ret]. zcase.
      * repeat split; try lia.
        -- intros mu Hm. destruct (decide (mu = lambda)); [subst; lia|].
           specialize (Hmu mu ltac:(lia)). lia.
        -- right. split; [reflexivity|]. intros mu Hm. specialize (Hmu mu ltac:(lia)). lia.
      * repeat split; try lia; [|exact Hbest].
        intros mu Hm. destruct (decide (mu = lambda)); [subst; lia|]. apply Hmu. lia.
  - intros [L_max Nc] (HN & _ & HL & Hmu & Hbest). change (40 + Z.of_nat 81) with 121 in Hmu.
    repeat split; try lia; [|exact Hbest]. intros. apply Hmu. lia.
Qed.

Lemma power_term (i : Z) : 0 <= SASR (dp0 !!! Z.to_nat i) 3 * SASR (dp0 !!! Z.to_nat i) 3 <= 16777216.
Proof.
  pose proof (history_word i). unfold SASR. rewrite Z.shiftr_div_pow2 by lia.
  change (2 ^ 3) with 8.
  assert (-4096 <= dp0 !!! Z.to_nat i / 8 <= 4095) by (cint_unfold; dlia). nia.
Qed.

Lemma LTP_power_ok Nc : 40 <= Nc <= 120 ->
  okp (LTP_power dm dp0 o Nc) (fun p => 0 <= p <= 671088640).
Proof.
  intros HN. unfold LTP_power.
  set (f := fun k : nat => SASR (dp0 !!! Z.to_nat (o + (Z.of_nat k - Nc))) 3 *
                           SASR (dp0 !!! Z.to_nat (o + (Z.of_nat k - Nc))) 3).
  assert (forall k, 0 <= f k <= 16777216) as Hf by (intros; apply power_term).
  rewrite (cfor_states (zsum f)).
  - cbn [okp]. pose proof (zsum_nonneg f 40 ltac:(intros; apply Hf)).
    pose proof (zsum_bound f 40 16777216 ltac:(intros k _; specialize (Hf k); lia)) as H'.
    change (Z.of_nat 40) with 40 in H'. lia.
  - intros k Hk. rewrite Z.add_0_l, history_get by lia.
    cbn [mbind res_bind mret res_ret zsum]. cbv zeta. fold (f k).
    specialize (Hf k). pose proof (zsum_nonneg f k ltac:(intros; apply power_term)).
    pose proof (zsum_bound f k 16777216 ltac:(intros j _; pose proof (power_term (o + (Z.of_nat j - Nc))); unfold f; lia)).
    drop_wrap. reflexivity.
Qed.
End Parameters.

Section Calculation.
Context (dm : data_model).
Implicit Types (d e : list Z) (o v : Z).

(** A shift count [n] with [m * 2^n < 2^15] scales words of magnitude [m] to 9 bits. *)
Lemma scale_bound m n v :
  0 < m <= 32767 -> 0 <= n -> m * 2 ^ n < 32768 -> sample_min m <= v <= m ->
  -512 <= v ≫ (if 6 <? n then 0 else 6 - n) <= 512.
Proof.
  intros Hm Hn Hp Hv. assert (0 < 2 ^ n) by lia.
  assert (-32768 <= v * 2 ^ n < 32768) as Hvn.
  { unfold sample_min in Hv. destruct (Z.eqb_spec m 32767) as [->|]; nia. }
  zcase.
  - assert (2 ^ 7 <= 2 ^ n) by (apply Z.pow_le_mono_r; lia). rewrite Z.shiftr_0_r. nia.
  - rewrite Z.shiftr_div_pow2 by lia.
    assert (64 = 2 ^ (6 - n) * 2 ^ n) as E
      by (rewrite <- Z.pow_add_r by lia; replace (6 - n + n) with 6 by lia; reflexivity).
    rewrite <- (Z.div_mul_cancel_r v (2 ^ (6 - n)) (2 ^ n)), <- E by lia.
    generalize dependent (v * 2 ^ n). intros w Hw. dlia.
Qed.

Lemma LTP_scaling_ok d : warr 40 d ->
  okp (LTP_scaling dm d) (fun scal => 0 <= scal <= 6 /\
    Forall (fun v => -512 <= v ≫ scal <= 512) d).
Proof.
  intros [Hl Hd]. destruct (max_abs_spec d Hd) as [Hm Hv]. unfold LTP_scaling.
  rewrite aread_all by exact Hl. cbn [mbind res_bind].
  set (dmax := fold_left max_abs_step d 0) in *. cbv zeta.
  destruct (Z.eqb_spec dmax 0) as [E|Hne].
  - cbn. split; [vm_compute; intuition discriminate|]. revert Hv. apply Forall_impl.
    intros v H. cbv beta in H. rewrite E in H. assert (v = 0) as -> by (change (sample_min 0) with 0 in H; lia).
    vm_compute. intuition discriminate.
  - replace (0 <? dmax) with true by lia. cbn [c_assert mbind res_bind].
    rewrite Z.shiftl_mul_pow2 by lia. rewrite sL_id by clia.
    pose proof (gsm_norm_spec (dmax * 2 ^ 16) ltac:(clia) ltac:(lia)) as Hn.
    destruct (gsm_norm (dmax * 2 ^ 16)) as [n|]; [|contradiction].
    destruct Hn as (Hn & Hp & _). destruct Hp as [_ Hp]; [lia|]. cbn [mbind res_bind].
    rewrite (wrapS_id 16 (6 - n)) by clia.
    replace (0 <=? (if 6 <? n then 0 else 6 - n)) with true by (zcase; lia).
    cbn [c_assert mbind res_bind okp mret res_ret]. split; [zcase; lia|].
    revert Hv. apply Forall_impl. intros v H. apply (scale_bound dmax); try lia.
Qed.

Definition scaled_signal d scal : list Z := (fun x => s16 (SASR x scal)) <$> d.

Lemma scaled_signal_bound d scal :
  Forall (fun v => -512 <= v ≫ scal <= 512) d ->
  forall j : nat, -512 <= scaled_signal d scal !!! j <= 512.
Proof.
  intros H j. unfold scaled_signal. rewrite list_lookup_total_alt, list_lookup_fmap.
  destruct (d !! j) as [v|] eqn:E; cbn; [|lia].
  pose proof (Forall_lookup_1 _ _ _ _ H E) as Hv. cbv beta in Hv. unfold SASR.
  rewrite wrapS_id by clia. exact Hv.
Qed.

(** The gain code is the first decision level that is not exceeded. *)
Lemma LTP_gain_spec R S :
  LTP_gain dm R S = Ok (if R <=? gsm_mult dm S 6554 then 0 else if R <=? gsm_mult dm S 16384 then 1
                        else if R <=? gsm_mult dm S 26214 then 2 else 3).
Proof.
  unfold LTP_gain. cbn [LTP_gain_loop]. change (0 + 1) with 1. change (1 + 1) with 2. change (2 + 1) with 3.
  change (aget gsm_DLB 0) with (Ok 6554). change (aget gsm_DLB 1) with (Ok 16384).
  change (aget gsm_DLB 2) with (Ok 26214). cbn [mbind res_bind].
  repeat (destruct (R <=? _); [reflexivity|]). reflexivity.
Qed.

Lemma LTP_gain_range R S : okp (LTP_gain dm R S) (fun bc => 0 <= bc <= 3).
Proof. rewrite LTP_gain_spec. cbn [okp]. zcase; lia. Qed.

(** The parameters of a sub-segment: the gain code has two bits, the lag is the first best
    one for the scaled residual. *)
Lemma LTP_parameters_ok d dp0 o : warr 40 d -> warr 280 dp0 -> 120 <= o <= 240 ->
  okp (Calculation_of_the_LTP_parameters dm d dp0 o) (fun '(bc, Nc) =>
    0 <= bc <= 3 /\ 40 <= Nc <= 120 /\
    exists scal L_max, 0 <= scal <= 6 /\ best_lag dp0 o (scaled_signal d scal) L_max Nc).
Proof.
  intros Hd Hdp Ho. unfold Calculation_of_the_LTP_parameters.
  eapply okp_bind; [apply LTP_scaling_ok, Hd|]. intros scal [Hs Hwt].
  rewrite aread_all by (destruct Hd; lia). cbn [mbind res_bind].
  fold (scaled_signal d scal). cbv zeta.
  eapply okp_bind; [apply LTP_search_best; try assumption;
    [unfold scaled_signal; rewrite length_fmap; destruct Hd; lia|apply scaled_signal_bound, Hwt]|].
  intros [L_max Nc] Hb. pose proof Hb as (HN & HL & _).
  replace ((scal <=? 100) && (-100 <=? scal)) with true by lia.
  replace ((Nc <=? 120) && (40 <=? Nc)) with true by lia. cbn [c_assert mbind res_bind].
  eapply okp_bind; [apply (LTP_power_ok dm dp0 o); assumption|]. intros p Hp.
  rewrite !Z.shiftl_mul_pow2 by lia. rewrite (sL_id dm (L_max * _)), (sL_id dm (p * _)) by clia.
  zcase; cbn [okp mret res_ret]; try (split; [lia|]; split; [lia|]; eauto).
  assert (0 < p * 2 ^ 1) by lia.
  eapply okp_bind; [apply (gsm_norm_spec (p * 2 ^ 1)); clia|]. intros n _. cbv zeta.
  eapply okp_bind; [apply LTP_gain_range|]. intros bc Hbc. cbn [okp mret res_ret]. split; [exact Hbc|eauto].
Qed.
End Calculation.

(** * The filters *)

(** The estimate of a sub-segment from the history before index [o], and what adding the
    residual [ep] to it gives. *)
Definition ltp_estimate (dm : data_model) (dp0 : list Z) (o br N : Z) (k : nat) : Z :=
  s16 (GSM_MULT_R dm br (dp0 !!! Z.to_nat (o + (Z.of_nat k - N)))).
Definition ltp_reconstruct (dm : data_model) (dp0 : list Z) (o br N : Z) (ep : list Z) (k : nat) : Z :=
  s16 (GSM_ADD dm (ep !!! k) (ltp_estimate dm dp0 o br N k)).

Section Filters.
Context (dm : data_model).
Implicit Types (d e erp : list Z) (o br N bc : Z).

Lemma ltp_lookup dp0 (i : Z) :
  warr 280 dp0 -> 0 <= i < 280 -> dp0 !! Z.to_nat i = Some (dp0 !!! Z.to_nat i).
Proof. intros [Hl _] Hi. apply list_lookup_lookup_total_lt. lia. Qed.

Lemma LTP_filter_loop br N dp0 (o : nat) d e :
  length d = 40%nat -> warr 280 dp0 -> warr 50 e -> (120 <= o <= 240)%nat -> 40 <= N <= 120 ->
  let est := ltp_estimate dm dp0 (Z.of_nat o) br N in
  cfor 40 0 (LTP_filter_body dm br N (Z.of_nat o) d) (dp0, e) =
    Ok (store dp0 o est 40, store e 5 (fun k => s16 (GSM_SUB dm (d !!! k) (est k))) 40).
Proof.
  intros Hd Hdp [Hel _] Ho HN est.
  set (res_ := fun k => s16 (GSM_SUB dm (d !!! k) (est k))).
  rewrite <- (store_0 dp0 o est) at 1. rewrite <- (store_0 e 5 res_) at 1.
  apply (cfor_states (fun k => (store dp0 o est k, store e 5 res_ k))).
  intros k Hk. destruct Hdp as [Hl Hw]. unfold LTP_filter_body. rewrite Z.add_0_l.
  rewrite (aget_store _ _ _ _ _ (dp0 !!! Z.to_nat (Z.of_nat o + (Z.of_nat k - N))))
    by (lia || (apply ltp_lookup; [split; assumption|lia])).
  cbn [mbind res_bind]. rewrite (aset_store _ o est k) by (lia || reflexivity).
  cbn [mbind res_bind]. rewrite (aget_total d), Nat2Z.id by lia. cbn [mbind res_bind].
  assert (aget (store dp0 o est (S k)) (Z.of_nat o + Z.of_nat k) = Ok (est k)) as ->.
  { apply aget_ok. split; [lia|]. rewrite lookup_store by lia.
    rewrite decide_True by lia. do 2 f_equal. lia. }
  cbn [mbind res_bind]. rewrite (aset_store _ 5 res_ k);
    [reflexivity|lia|reflexivity].
Qed.

(** The decoded gain: table 4.3b for the four codes. *)
Definition ltp_gain bc : Z := gsm_QLB !!! Z.to_nat bc.

Lemma Long_term_analysis_filtering_spec bc N dp0 (o : nat) d e :
  length d = 40%nat -> warr 280 dp0 -> warr 50 e -> (120 <= o <= 240)%nat -> 40 <= N <= 120 -> 0 <= bc <= 3 ->
  let est := ltp_estimate dm dp0 (Z.of_nat o) (ltp_gain bc) N in
  Long_term_analysis_filtering dm bc N dp0 (Z.of_nat o) d e =
    Ok (store dp0 o est 40, store e 5 (fun k => s16 (GSM_SUB dm (d !!! k) (est k))) 40).
Proof.
  intros Hd Hdp He Ho HN Hbc est. unfold Long_term_analysis_filtering.
  assert (bc = 0 \/ bc = 1 \/ bc = 2 \/ bc = 3) as Hc by lia.
  destruct_or! Hc; subst bc; cbn [Z.eqb Pos.eqb]; apply LTP_filter_loop; assumption.
Qed.

(** The decoder's history after one sub-segment: shifted by 40, with the new samples last. *)
Lemma Gsm_Long_Term_Synthesis_Filtering_spec nrp dp0 N bc erp :
  warr 280 dp0 -> length erp = 40%nat -> 0 <= bc <= 3 ->
  let Nr := if (N <? 40) || (120 <? N) then nrp else N in
  40 <= Nr <= 120 ->
  let dp1 := store dp0 120 (ltp_reconstruct dm dp0 120 (ltp_gain bc) Nr erp) 40 in
  Gsm_Long_Term_Synthesis_Filtering dm nrp dp0 N bc erp =
    Ok (store dp1 0 (fun k => dp1 !!! (40 + k)%nat) 120, Nr).
Proof.
  intros Hdp Herp Hbc Nr HN dp1. unfold Gsm_Long_Term_Synthesis_Filtering. fold Nr.
  replace ((40 <=? Nr) && (Nr <=? 120)) with true by lia.
  cbn [c_assert mbind res_bind]. rewrite aget_total by (simpl; lia). cbn [mbind res_bind].
  fold (ltp_gain bc).
  assert (ltp_gain bc =? MIN_WORD = false) as ->.
  { assert (bc = 0 \/ bc = 1 \/ bc = 2 \/ bc = 3) as Hc by lia.
    destruct_or! Hc; subst bc; reflexivity. }
  cbn [negb c_assert mbind res_bind]. destruct Hdp as [Hl Hw].
  assert (cfor 40 0 (LTP_synthesis_body dm (ltp_gain bc) Nr erp) dp0 = Ok dp1) as ->.
  { unfold dp1. set (g := ltp_reconstruct _ _ _ _ _ _).
    rewrite <- (store_0 dp0 120 g) at 1. apply (cfor_states (store dp0 120 g)).
    intros k Hk. unfold LTP_synthesis_body. rewrite Z.add_0_l.
    rewrite (aget_store _ _ _ _ _ (dp0 !!! Z.to_nat (120 + (Z.of_nat k - Nr))))
      by (lia || (apply ltp_lookup; [split; assumption|lia])).
    cbn [mbind res_bind]. rewrite (aget_total erp), Nat2Z.id by lia. cbn [mbind res_bind].
    apply (aset_store _ 120 g); [lia|unfold g, ltp_reconstruct, ltp_estimate; reflexivity]. }
  cbn [mbind res_bind].
  assert (length dp1 = 280%nat) as Hl1 by (unfold dp1; rewrite length_store; lia).
  set (g := fun k => dp1 !!! (40 + k)%nat).
  assert (cfor 120 0 LTP_shift_body dp1 = Ok (store dp1 0 g 120)) as ->; [|reflexivity].
  rewrite <- (store_0 dp1 0 g) at 1. apply (cfor_states (store dp1 0 g)).
  intros k Hk. unfold LTP_shift_body. rewrite Z.add_0_l.
  rewrite (aget_store _ _ _ _ _ (g k)); [|lia|lia|lia|].
  - cbn [mbind res_bind]. replace (120 + (-120 + Z.of_nat k)) with (Z.of_nat 0 + Z.of_nat k) by lia.
    apply aset_store; [lia|reflexivity].
  - unfold g. replace (Z.to_nat (120 + (-80 + Z.of_nat k))) with (40 + k)%nat by lia.
    apply list_lookup_lookup_total_lt. lia.
Qed.
End Filters.

(** The lag search returns a lag in 40..120 whose exact cross-correlation with the scaled
    residual is the largest (the first such lag, or 40 when none is positive) and a gain code in
    0..3, for any residual and any history. *)
Theorem ltp_parameters_best (dm : data_model) (d dp0 : list Z) (o : Z) :
  warr 40 d -> warr 280 dp0 -> 120 <= o <= 240 ->
  exists bc Nc scal L_max,
    Calculation_of_the_LTP_parameters dm d dp0 o = Ok (bc, Nc) /\
    0 <= bc <= 3 /\ 40 <= Nc <= 120 /\ 0 <= scal <= 6 /\
    let corr := correlation dp0 o (scaled_signal d scal) in
    (forall mu, 40 <= mu <= 120 -> corr mu <= L_max) /\
    (L_max = 0 /\ Nc = 40 \/
     L_max = corr Nc /\ forall mu, 40 <= mu < Nc -> corr mu < L_max).
Proof.
  intros Hd Hdp Ho. pose proof (LTP_parameters_ok dm d dp0 o Hd Hdp Ho) as H. apply okp_ok in H.
  destruct H as ([bc Nc] & E & Hbc & HN & scal & L_max & Hs & (_ & _ & H1 & H2)).
  exists bc, Nc, scal, L_max. auto 10.
Qed.

Lemma ltp_parameters_best_witness :
  let d := Z.mul 50 <$> seqZ (-20) 40 in
  let dp0 := Z.mul 7 <$> seqZ 0 280 in
  exists bc Nc scal L_max,
    Calculation_of_the_LTP_parameters ILP32 d dp0 120 = Ok (bc, Nc) /\
    0 <= bc <= 3 /\ 40 <= Nc <= 120 /\ 0 <= scal <= 6 /\
    let corr := correlation dp0 120 (scaled_signal d scal) in
    (forall mu, 40 <= mu <= 120 -> corr mu <= L_max) /\
    (L_max = 0 /\ Nc = 40 \/
     L_max = corr Nc /\ forall mu, 40 <= mu < Nc -> corr mu < L_max).
Proof.
  apply (ltp_parameters_best ILP32 (Z.mul 50 <$> seqZ (-20) 40) (Z.mul 7 <$> seqZ 0 280) 120);
    [by_eval|by_eval|lia].
Defined.
