(* ===== verification/GsmStp.v ===== *)
(** GSM 06.10 short-term filters (src/mibench/telecomm/gsm/src/short_term.c, the integer
    versions: neither USE_FLOAT_MUL nor FAST is defined).

    Both filters decode the log-area ratios of the frame into one half of the double buffer
    [LARpp[2][8]], interpolate with the other half, and run an eight-stage lattice whose memory
    is [u[8]] in the encoder and [v[9]] in the decoder. *)
From stdpp Require Import base list numbers option tactics.
From Stdlib Require Import ZArith Lia.
From S2P Require Import Prelude GsmAdd.

Section Stp.
Context (dm : data_model).

(** ** 4.2.8 *)

Definition LAR_decode_step (B MIC INVA LARc : Z) : Z :=
  let temp1 := s16 (sL dm (GSM_ADD dm LARc MIC ≪ 10)) in
  let temp1 := s16 (GSM_SUB dm temp1 (B ≪ 1)) in
  let temp1 := s16 (GSM_MULT_R dm INVA temp1) in
  s16 (GSM_ADD dm temp1 temp1).

Definition LAR_decode_steps : list (Z * Z * Z) :=
  [(0, -32, 13107); (0, -32, 13107); (2048, -16, 13107); (-2560, -16, 13107);
   (94, -8, 19223); (-1792, -8, 17476); (-341, -4, 31454); (-1144, -4, 29708)].

Definition Decoding_of_the_coded_Log_Area_Ratios (LARc : list Z) : res (list Z) :=
  LARc ← aread LARc 0 8;
  mret (zip_with (fun '(B, MIC, INVA) => LAR_decode_step B MIC INVA) LAR_decode_steps LARc).

(** ** 4.2.9.1: [for (i = 1; i <= 8; i++, LARp++, LARpp_j_1++, LARpp_j++)] *)

Definition coefficients (step : Z -> Z -> Z) (LARpp_j_1 LARpp_j : list Z) : res (list Z) :=
  a ← aread LARpp_j_1 0 8;
  b ← aread LARpp_j 0 8;
  mret (zip_with step a b).

Definition interpolate_0_12 (a b : Z) : Z :=
  let LARp := s16 (GSM_ADD dm (SASR a 2) (SASR b 2)) in s16 (GSM_ADD dm LARp (SASR a 1)).
Definition Coefficients_0_12 := coefficients interpolate_0_12.

Definition interpolate_13_26 (a b : Z) : Z := s16 (GSM_ADD dm (SASR a 1) (SASR b 1)).
Definition Coefficients_13_26 := coefficients interpolate_13_26.

Definition interpolate_27_39 (a b : Z) : Z :=
  let LARp := s16 (GSM_ADD dm (SASR a 2) (SASR b 2)) in s16 (GSM_ADD dm LARp (SASR b 1)).
Definition Coefficients_27_39 := coefficients interpolate_27_39.

Definition Coefficients_40_159 (LARpp_j : list Z) : res (list Z) := aread LARpp_j 0 8.

(** ** 4.2.9.2 *)

(** The three-segment characteristic that both branches of [LARp_to_rp] write out. *)
Definition LARp_expand (temp : Z) : Z :=
  if temp <? 11059 then temp ≪ 1
  else if temp <? 20070 then temp + 11059
  else GSM_ADD dm (temp ≫ 2) 26112.

Definition LARp_to_rp_step (LARp : Z) : Z :=
  if LARp <? 0 then
    let temp := s16 (if LARp =? MIN_WORD then MAX_WORD else - LARp) in
    s16 (- LARp_expand temp)
  else
    let temp := LARp in s16 (LARp_expand temp).

Definition LARp_to_rp (LARp : list Z) : res (list Z) :=
  LARp ← aread LARp 0 8;
  mret (map LARp_to_rp_step LARp).

(** ** 4.2.10 *)

(** The body of [for (i = 0; i < 8; i++)]; the state is [u], [di] and [sav]. *)
Definition analysis_stage (rp : list Z) (i : Z) (st : list Z * Z * Z) : res (list Z * Z * Z) :=
  let '(u, di, sav) := st in
  ui ← aget u i;
  rpi ← aget rp i;
  u ← aset u i sav;
  let zzz := s16 (GSM_MULT_R dm rpi di) in
  let sav := s16 (GSM_ADD dm ui zzz) in
  let zzz := s16 (GSM_MULT_R dm rpi ui) in
  let di := s16 (GSM_ADD dm di zzz) in
  mret (u, di, sav).

(** [for (; k_n--; s++)]: the new [u] and what replaces the samples. *)
Fixpoint analysis_loop (u rp s : list Z) : res (list Z * list Z) :=
  match s with
  | [] => mret (u, [])
  | x :: s =>
      '(u, di, _) ← cfor 8 0 (analysis_stage rp) (u, x, x);
      '(u, d) ← analysis_loop u rp s;
      mret (u, di :: d)
  end.

(** The samples are [s[o .. o + k_n - 1]]. *)
Definition Short_term_analysis_filtering (u rp : list Z) (o k_n : Z) (s : list Z) :
    res (list Z * list Z) :=
  s ← aread s o k_n;
  analysis_loop u rp s.

(** ** 4.3.3: [for (i = 8; i--;)] on [v[0..8]]. *)

(** [tmp == MIN_WORD && x == MIN_WORD ? MAX_WORD : 0x0FFFF & ((tmp * x + 16384) >> 15)],
    converted to [word]. *)
Definition synthesis_mult (tmp x : Z) : Z :=
  s16 (if (tmp =? MIN_WORD) && (x =? MIN_WORD) then MAX_WORD
       else Z.land 0x0FFFF (sL dm (sL dm (tmp * x) + 16384) ≫ 15)).

Fixpoint synthesis_stages (i : nat) (rrp v : list Z) (sri : Z) : res (list Z * Z) :=
  match i with
  | O => mret (v, sri)
  | S i =>
      tmp1 ← aget rrp (Z.of_nat i);
      tmp2 ← aget v (Z.of_nat i);
      let tmp2 := synthesis_mult tmp1 tmp2 in
      let sri := s16 (GSM_SUB dm sri tmp2) in
      let tmp1 := synthesis_mult tmp1 sri in
      vi ← aget v (Z.of_nat i);
      v ← aset v (Z.of_nat i + 1) (s16 (GSM_ADD dm vi tmp1));
      synthesis_stages i rrp v sri
  end.

Fixpoint synthesis_loop (v rrp wt : list Z) : res (list Z * list Z) :=
  match wt with
  | [] => mret (v, [])
  | x :: wt =>
      '(v, sri) ← synthesis_stages 8 rrp v x;
      v ← aset v 0 sri;
      '(v, sr) ← synthesis_loop v rrp wt;
      mret (v, sri :: sr)
  end.

Definition Short_term_synthesis_filtering (v rrp : list Z) (o k : Z) (wt : list Z) :
    res (list Z * list Z) :=
  wt ← aread wt o k;
  synthesis_loop v rrp wt.

(** ** The two entry points

    [filter] is the macro FILTER: the lattice with its memory as first argument. The memory,
    the double buffer and [j] are the parts of [struct gsm_state] the functions use. *)

(** [S->LARpp[j]] *)
Definition LARpp_of (LARpp0 LARpp1 : list Z) (j : Z) : res (list Z) :=
  if j =? 0 then Ok LARpp0 else if j =? 1 then Ok LARpp1 else Err OutOfBounds.

Definition stp_frame (filter : list Z -> list Z -> Z -> Z -> list Z -> res (list Z * list Z))
    (mem : list Z) (LARpp0 LARpp1 : list Z) (j : Z) (LARc s : list Z) :
    res (list Z * list Z * list Z * Z * list Z) :=
  _ ← LARpp_of LARpp0 LARpp1 j;
  let j' := Z.lxor j 1 in
  LARpp_j ← Decoding_of_the_coded_Log_Area_Ratios LARc;
  let LARpp0' := if j =? 0 then LARpp_j else LARpp0 in
  let LARpp1' := if j =? 0 then LARpp1 else LARpp_j in
  LARpp_j_1 ← LARpp_of LARpp0' LARpp1' j';
  LARp ← Coefficients_0_12 LARpp_j_1 LARpp_j;
  LARp ← LARp_to_rp LARp;
  '(mem, o1) ← filter mem LARp 0 13 s;
  LARp ← Coefficients_13_26 LARpp_j_1 LARpp_j;
  LARp ← LARp_to_rp LARp;
  '(mem, o2) ← filter mem LARp 13 14 s;
  LARp ← Coefficients_27_39 LARpp_j_1 LARpp_j;
  LARp ← LARp_to_rp LARp;
  '(mem, o3) ← filter mem LARp 27 13 s;
  LARp ← Coefficients_40_159 LARpp_j;
  LARp ← LARp_to_rp LARp;
  '(mem, o4) ← filter mem LARp 40 120 s;
  mret (mem, LARpp0', LARpp1', j', o1 ++ o2 ++ o3 ++ o4).

Definition Gsm_Short_Term_Analysis_Filter (u LARpp0 LARpp1 : list Z) (j : Z) (LARc s : list Z) :=
  stp_frame Short_term_analysis_filtering u LARpp0 LARpp1 j LARc s.

Definition Gsm_Short_Term_Synthesis_Filter (v LARpp0 LARpp1 : list Z) (j : Z) (LARcr wt : list Z) :=
  stp_frame Short_term_synthesis_filtering v LARpp0 LARpp1 j LARcr wt.

(** * The same computations on arrays known to be long enough

    The reference functions are total; [*_total] below shows that the checked code computes
    them, so that every access of the code is inside its array. *)

Definition decoded_ratios (LARc : list Z) : list Z :=
  zip_with (fun '(B, MIC, INVA) => LAR_decode_step B MIC INVA) LAR_decode_steps LARc.

Definition reflections (LARp : list Z) : list Z := map LARp_to_rp_step LARp.

Fixpoint analysis_lattice (u rp : list Z) (di sav : Z) : list Z * Z :=
  match u, rp with
  | ui :: u, rpi :: rp =>
      let zzz := s16 (GSM_MULT_R dm rpi di) in
      let sav' := s16 (GSM_ADD dm ui zzz) in
      let zzz := s16 (GSM_MULT_R dm rpi ui) in
      let di := s16 (GSM_ADD dm di zzz) in
      let '(u', d) := analysis_lattice u rp di sav' in
      (sav :: u', d)
  | _, _ => (u, di)
  end.

Fixpoint analysis_filter (u rp s : list Z) : list Z * list Z :=
  match s with
  | [] => (u, [])
  | x :: s =>
      let '(u, di) := analysis_lattice u rp x x in
      let '(u, d) := analysis_filter u rp s in
      (u, di :: d)
  end.

Fixpoint synthesis_lattice (i : nat) (rrp v : list Z) (sri : Z) : list Z * Z :=
  match i with
  | O => (v, sri)
  | S i =>
      let tmp1 := rrp !!! i in
      let tmp2 := synthesis_mult tmp1 (v !!! i) in
      let sri := s16 (GSM_SUB dm sri tmp2) in
      let tmp1 := synthesis_mult tmp1 sri in
      let v := <[S i := s16 (GSM_ADD dm (v !!! i) tmp1)]> v in
      synthesis_lattice i rrp v sri
  end.

Fixpoint synthesis_filter (v rrp wt : list Z) : list Z * list Z :=
  match wt with
  | [] => (v, [])
  | x :: wt =>
      let '(v, sri) := synthesis_lattice 8 rrp v x in
      let '(v, sr) := synthesis_filter (<[0%nat := sri]> v) rrp wt in
      (v, sri :: sr)
  end.

(** One frame through a total filter. *)
Definition stp_total (filter : list Z -> list Z -> list Z -> list Z * list Z)
    (mem : list Z) (LARpp0 LARpp1 : list Z) (j : Z) (LARc s : list Z) :
    list Z * list Z * list Z * Z * list Z :=
  let LARpp_j := decoded_ratios LARc in
  let LARpp0' := if j =? 0 then LARpp_j else LARpp0 in
  let LARpp1' := if j =? 0 then LARpp1 else LARpp_j in
  let LARpp_j_1 := if j =? 0 then LARpp1 else LARpp0 in
  let '(mem, o1) := filter mem (reflections (zip_with interpolate_0_12 LARpp_j_1 LARpp_j)) (take 13 s) in
  let '(mem, o2) := filter mem (reflections (zip_with interpolate_13_26 LARpp_j_1 LARpp_j))
                      (take 14 (drop 13 s)) in
  let '(mem, o3) := filter mem (reflections (zip_with interpolate_27_39 LARpp_j_1 LARpp_j))
                      (take 13 (drop 27 s)) in
  let '(mem, o4) := filter mem (reflections LARpp_j) (take 120 (drop 40 s)) in
  (mem, LARpp0', LARpp1', Z.lxor j 1, o1 ++ o2 ++ o3 ++ o4).
End Stp.

(** * Words stay words *)

Section Words.
Context (dm : data_model).
Implicit Types (u v rp s : list Z).

Lemma s16_word x : inS 16 (s16 x).
Proof. apply wrapS_range. lia. Qed.

Lemma zip_with_words {A} (f : A -> Z -> Z) l k :
  (forall a b, inS 16 (f a b)) -> length l = 8%nat -> length k = 8%nat ->
  warr 8 (zip_with f l k).
Proof.
  intros Hf Hl Hk. split; [rewrite length_zip_with_l_eq; lia|].
  clear Hl Hk. revert k. induction l as [|a l IH]; intros [|b k]; simpl; constructor; auto.
Qed.

Lemma LAR_decode_words LARc : length LARc = 8%nat ->
  warr 8 (decoded_ratios dm LARc).
Proof. intros. apply zip_with_words; [intros [[? ?] ?] ?; apply s16_word|reflexivity|assumption]. Qed.

(** The reflection coefficients are never the most negative word, which keeps every
    [GSM_MULT_R] of the filters inside the range of the macro. *)
Definition coeff (r : Z) : Prop := -32767 <= r <= 32767.
Definition coeffs rp : Prop := length rp = 8%nat /\ Forall coeff rp.

Lemma LARp_expand_range t : 0 <= t <= 32767 -> 0 <= LARp_expand dm t <= 32767.
Proof.
  intros Ht. unfold LARp_expand. rewrite Z.shiftl_mul_pow2, Z.shiftr_div_pow2 by lia.
  change (2 ^ 1) with 2. change (2 ^ 2) with 4.
  rewrite GSM_ADD_sat by (cint_unfold; dlia). unfold sat16. zcase; dlia.
Qed.

Lemma LARp_to_rp_step_coeff x : inS 16 x -> coeff (LARp_to_rp_step dm x).
Proof.
  intros Hx. unfold LARp_to_rp_step, coeff, MIN_WORD, MAX_WORD.
  pose proof LARp_expand_range as He.
  zcase; cbv zeta.
  - rewrite (wrapS_id 16 32767) by clia. specialize (He 32767 ltac:(lia)).
    rewrite wrapS_id by clia. lia.
  - rewrite (wrapS_id 16 (- x)) by clia. specialize (He (- x) ltac:(clia)).
    rewrite wrapS_id by clia. lia.
  - specialize (He x ltac:(clia)). rewrite wrapS_id by clia. lia.
Qed.

Lemma reflections_coeffs LARp : warr 8 LARp -> coeffs (reflections dm LARp).
Proof.
  intros [Hl Hw]. split; [unfold reflections; rewrite length_map; lia|].
  apply Forall_fmap. revert Hw. apply Forall_impl. apply LARp_to_rp_step_coeff.
Qed.

Lemma analysis_lattice_words u : forall rp di sav,
  Forall (inS 16) u -> inS 16 di -> inS 16 sav ->
  length (analysis_lattice dm u rp di sav).1 = length u /\
  Forall (inS 16) (analysis_lattice dm u rp di sav).1 /\
  inS 16 (analysis_lattice dm u rp di sav).2.
Proof.
  induction u as [|ui u IH]; intros [|rpi rp] di sav Hu Hd Hs; cbn [analysis_lattice]; auto.
  specialize (IH rp (s16 (GSM_ADD dm di (s16 (GSM_MULT_R dm rpi ui))))
    (s16 (GSM_ADD dm ui (s16 (GSM_MULT_R dm rpi di)))) (Forall_inv_tail Hu)
    (s16_word _) (s16_word _)).
  destruct (analysis_lattice _ u rp _ _) as [u' d]. cbn [fst snd length] in *.
  destruct IH as (Hl & Hw & Hd'). auto.
Qed.

Lemma analysis_lattice_length u : forall rp di sav,
  length (analysis_lattice dm u rp di sav).1 = length u.
Proof.
  induction u as [|ui u IH]; intros [|rpi rp] di sav; cbn [analysis_lattice]; auto.
  match goal with |- context [analysis_lattice dm u rp ?a ?b] =>
    pose proof (IH rp a b); destruct (analysis_lattice dm u rp a b) end.
  cbn [fst length] in *. lia.
Qed.

Lemma analysis_filter_words rp s : forall u,
  warr 8 u -> Forall (inS 16) s ->
  warr 8 (analysis_filter dm u rp s).1 /\
  length (analysis_filter dm u rp s).2 = length s /\
  Forall (inS 16) (analysis_filter dm u rp s).2.
Proof.
  induction s as [|x s IH]; intros u Hu Hs; cbn [analysis_filter]; [auto|].
  pose proof (analysis_lattice_words u rp x x (proj2 Hu) (Forall_inv Hs) (Forall_inv Hs)) as (H1 & H2 & H3).
  destruct (analysis_lattice dm u rp x x) as [u1 di]. cbn [fst snd] in *.
  specialize (IH u1). destruct (analysis_filter dm u1 rp s) as [u2 d].
  cbn [fst snd length] in *. destruct IH as (? & ? & ?);
    [split; [destruct Hu; lia|assumption]|exact (Forall_inv_tail Hs)|]. auto.
Qed.

Lemma synthesis_lattice_words n i rrp : forall v sri,
  warr n v -> inS 16 sri -> Z.of_nat i < n ->
  warr n (synthesis_lattice dm i rrp v sri).1 /\ inS 16 (synthesis_lattice dm i rrp v sri).2.
Proof.
  induction i as [|i IH]; intros v sri Hv Hs Hi; cbn [synthesis_lattice]; [auto|].
  apply IH; [|apply s16_word|lia].
  destruct Hv as [Hl Hw]. split; [now rewrite length_insert|].
  apply Forall_insert; [exact Hw|apply s16_word].
Qed.

Lemma synthesis_filter_words rrp wt : forall v,
  warr 9 v -> Forall (inS 16) wt ->
  warr 9 (synthesis_filter dm v rrp wt).1 /\
  length (synthesis_filter dm v rrp wt).2 = length wt /\
  Forall (inS 16) (synthesis_filter dm v rrp wt).2.
Proof.
  induction wt as [|x wt IH]; intros v Hv Hw; cbn [synthesis_filter]; [auto|].
  pose proof (synthesis_lattice_words 9 8 rrp v x Hv (Forall_inv Hw) ltac:(lia)) as (H1 & H2).
  destruct (synthesis_lattice dm 8 rrp v x) as [v1 sri]. cbn [fst snd] in *.
  specialize (IH (<[0%nat := sri]> v1)).
  destruct (synthesis_filter dm (<[0%nat := sri]> v1) rrp wt) as [v2 sr].
  cbn [fst snd length] in *. destruct IH as (? & ? & ?); [|exact (Forall_inv_tail Hw)|auto].
  destruct H1. split; [now rewrite length_insert|]. now apply Forall_insert.
Qed.
End Words.

(** * A frame through either filter *)

Section Frame.
Context (dm : data_model).
Implicit Types (mem s LARc : list Z) (j : Z).

(** What a filter promises: memory and output stay words. *)
Class LatticeFilter (filter : list Z -> list Z -> list Z -> list Z * list Z) (n : Z) : Prop :=
  filter_words : forall rp s mem, warr n mem -> Forall (inS 16) s ->
    warr n (filter mem rp s).1 /\ length (filter mem rp s).2 = length s /\
    Forall (inS 16) (filter mem rp s).2.

#[global] Instance analysis_is_filter : LatticeFilter (analysis_filter dm) 8.
Proof. intros rp s mem. apply analysis_filter_words. Qed.

#[global] Instance synthesis_is_filter : LatticeFilter (synthesis_filter dm) 9.
Proof. intros rp s mem. apply synthesis_filter_words. Qed.

Lemma stp_total_words filter n `{!LatticeFilter filter n} mem LARpp0 LARpp1 j LARc s :
  warr n mem -> warr 8 LARpp0 -> warr 8 LARpp1 -> j = 0 \/ j = 1 ->
  length LARc = 8%nat -> warr 160 s ->
  let '(mem', L0, L1, j', o) := stp_total dm filter mem LARpp0 LARpp1 j LARc s in
  warr n mem' /\ warr 8 L0 /\ warr 8 L1 /\ (j' = 0 \/ j' = 1) /\ warr 160 o.
Proof.
  intros Hm H0 H1 Hj Hc [Hsl Hsw]. unfold stp_total. cbv zeta.
  set (L0' := if j =? 0 then decoded_ratios dm LARc else LARpp0).
  set (L1' := if j =? 0 then LARpp1 else decoded_ratios dm LARc).
  assert (warr 8 L0' /\ warr 8 L1') as [HL0 HL1].
  { unfold L0', L1'. destruct (j =? 0); auto using LAR_decode_words. }
  set (rp1 := reflections dm (zip_with _ _ _)).
  pose proof (filter_words rp1 (take 13 s) mem Hm ltac:(now apply Forall_take)) as (A1 & B1 & C1).
  destruct (filter mem rp1 _) as [m1 o1]. cbn [fst snd] in *.
  set (rp2 := reflections dm _).
  pose proof (filter_words rp2 (take 14 (drop 13 s)) m1 A1 ltac:(now apply Forall_take, Forall_drop)) as (A2 & B2 & C2).
  destruct (filter m1 rp2 _) as [m2 o2]. cbn [fst snd] in *.
  set (rp3 := reflections dm _).
  pose proof (filter_words rp3 (take 13 (drop 27 s)) m2 A2 ltac:(now apply Forall_take, Forall_drop)) as (A3 & B3 & C3).
  destruct (filter m2 rp3 _) as [m3 o3]. cbn [fst snd] in *.
  set (rp4 := reflections dm _).
  pose proof (filter_words rp4 (take 120 (drop 40 s)) m3 A3 ltac:(now apply Forall_take, Forall_drop)) as (A4 & B4 & C4).
  destruct (filter m3 rp4 _) as [m4 o4]. cbn [fst snd] in *.
  split; [exact A4|]. split; [exact HL0|]. split; [exact HL1|].
  split; [destruct Hj; subst j; vm_compute; auto|].
  rewrite !length_take, ?length_drop in *. split; [rewrite !length_app; lia|].
  repeat apply Forall_app_2; assumption.
Qed.
End Frame.

(** * The checked code computes the reference functions *)

Section Checked.
Context (dm : data_model).
Implicit Types (u v rp s mem LARc : list Z) (j : Z) (i n : nat).

Lemma analysis_stages_total n : forall i u rp di sav,
  length u = (i + n)%nat -> length rp = (i + n)%nat ->
  exists sav', cfor n (Z.of_nat i) (analysis_stage dm rp) (u, di, sav) =
    let r := analysis_lattice dm (drop i u) (drop i rp) di sav in Ok (take i u ++ r.1, r.2, sav').
Proof.
  induction n as [|n IH]; intros i u rp di sav Hu Hr.
  { exists sav. cbn [cfor]. rewrite !drop_ge by lia. cbn. now rewrite take_ge, app_nil_r by lia. }
  cbn [cfor analysis_stage]. rewrite !aget_total by lia. cbn [mbind res_bind].
  rewrite (proj2 (aset_ok u _ sav _)) by (split; [lia|reflexivity]). cbn [mbind res_bind mret res_ret].
  rewrite Nat2Z.id. replace (Z.of_nat i + 1) with (Z.of_nat (S i)) by lia.
  destruct (IH (S i) (<[i := sav]> u) rp (s16 (GSM_ADD dm di (s16 (GSM_MULT_R dm (rp !!! i) (u !!! i)))))
    (s16 (GSM_ADD dm (u !!! i) (s16 (GSM_MULT_R dm (rp !!! i) di)))))
    as (sav' & E); [rewrite length_insert; lia|lia|].
  exists sav'. rewrite E. rewrite drop_insert_lt by lia.
  rewrite (take_S_r _ _ sav) by (apply list_lookup_insert_eq; lia). rewrite take_insert_ge by lia.
  rewrite (drop_S u (u !!! i) i) by (apply list_lookup_lookup_total_lt; lia).
  rewrite (drop_S rp (rp !!! i) i) by (apply list_lookup_lookup_total_lt; lia).
  cbn [analysis_lattice]. destruct (analysis_lattice dm (drop (S i) u) (drop (S i) rp) _ _) as [u' d].
  cbn [fst snd]. now rewrite <- app_assoc.
Qed.

Lemma analysis_loop_total rp s : forall u, length u = 8%nat -> length rp = 8%nat ->
  analysis_loop dm u rp s = Ok (analysis_filter dm u rp s).
Proof.
  induction s as [|x s IH]; intros u Hu Hr; cbn [analysis_loop analysis_filter]; [reflexivity|].
  destruct (analysis_stages_total 8 0 u rp x x Hu Hr) as (sav' & E). rewrite !drop_0 in E.
  change (Z.of_nat 0) with 0 in E. cbv zeta in E. rewrite take_0, app_nil_l in E. rewrite E.
  cbn [mbind res_bind].
  pose proof (analysis_lattice_length dm u rp x x) as Hl.
  destruct (analysis_lattice dm u rp x x) as [u' di]. cbn [fst snd] in *.
  rewrite IH by (assumption || congruence). cbn [mbind res_bind].
  destruct (analysis_filter dm u' rp s). reflexivity.
Qed.

Lemma synthesis_stages_total rrp i : forall v sri, (i <= length rrp)%nat -> (i < length v)%nat ->
  synthesis_stages dm i rrp v sri = Ok (synthesis_lattice dm i rrp v sri).
Proof.
  induction i as [|i IH]; intros v sri Hr Hv; cbn [synthesis_stages synthesis_lattice]; [reflexivity|].
  rewrite !aget_total by lia. cbn [mbind res_bind]. rewrite !Nat2Z.id.
  rewrite (proj2 (aset_ok v _ _ _)) by (split; [lia|reflexivity]). cbn [mbind res_bind].
  replace (Z.to_nat (Z.of_nat i + 1)) with (S i) by lia. apply IH; rewrite ?length_insert; lia.
Qed.

Lemma synthesis_lattice_length i rrp : forall v sri,
  length (synthesis_lattice dm i rrp v sri).1 = length v.
Proof.
  induction i as [|i IH]; intros v sri; cbn [synthesis_lattice]; [reflexivity|].
  now rewrite IH, length_insert.
Qed.

Lemma synthesis_loop_total rrp wt : forall v, length v = 9%nat -> length rrp = 8%nat ->
  synthesis_loop dm v rrp wt = Ok (synthesis_filter dm v rrp wt).
Proof.
  induction wt as [|x wt IH]; intros v Hv Hr; cbn [synthesis_loop synthesis_filter]; [reflexivity|].
  rewrite synthesis_stages_total by lia. cbn [mbind res_bind].
  pose proof (synthesis_lattice_length 8 rrp v x) as Hl.
  destruct (synthesis_lattice dm 8 rrp v x) as [v1 sri]. cbn [fst] in Hl.
  rewrite (proj2 (aset_ok v1 0 sri _)) by (split; [lia|reflexivity]). cbn [mbind res_bind].
  change (Z.to_nat 0) with 0%nat. rewrite IH by (rewrite ?length_insert; lia). cbn [mbind res_bind].
  destruct (synthesis_filter dm _ rrp wt). reflexivity.
Qed.

(** What relates a checked filter with memory of [n] words to its total form. *)
Class FilterTotal (filter : list Z -> list Z -> Z -> Z -> list Z -> res (list Z * list Z))
    (total : list Z -> list Z -> list Z -> list Z * list Z) (n : Z) : Prop :=
  filter_total : forall mem rp (o k : Z) s, Z.of_nat (length mem) = n -> length rp = 8%nat ->
    0 <= o -> 0 <= k -> o + k <= Z.of_nat (length s) ->
    filter mem rp o k s = Ok (total mem rp (take (Z.to_nat k) (drop (Z.to_nat o) s))).

#[global] Instance analysis_total : FilterTotal (Short_term_analysis_filtering dm) (analysis_filter dm) 8.
Proof.
  intros mem rp o k s Hm Hr Ho Hk Hs. unfold Short_term_analysis_filtering.
  rewrite aread_ok by lia. apply analysis_loop_total; lia.
Qed.

#[global] Instance synthesis_total : FilterTotal (Short_term_synthesis_filtering dm) (synthesis_filter dm) 9.
Proof.
  intros mem rp o k s Hm Hr Ho Hk Hs. unfold Short_term_synthesis_filtering.
  rewrite aread_ok by lia. apply synthesis_loop_total; lia.
Qed.

Lemma coefficients_total step a b : length a = 8%nat -> length b = 8%nat ->
  coefficients step a b = Ok (zip_with step a b).
Proof. intros. unfold coefficients. rewrite !aread_all by lia. reflexivity. Qed.

Lemma Decoding_total LARc : length LARc = 8%nat ->
  Decoding_of_the_coded_Log_Area_Ratios dm LARc = Ok (decoded_ratios dm LARc).
Proof. intros. unfold Decoding_of_the_coded_Log_Area_Ratios. rewrite aread_all by lia. reflexivity. Qed.

Lemma LARp_to_rp_total l : length l = 8%nat -> LARp_to_rp dm l = Ok (reflections dm l).
Proof. intros. unfold LARp_to_rp. rewrite aread_all by lia. reflexivity. Qed.

Lemma length_ratios LARc : length LARc = 8%nat -> length (decoded_ratios dm LARc) = 8%nat.
Proof. intros H. unfold decoded_ratios. rewrite length_zip_with_l_eq; [reflexivity|now rewrite H]. Qed.

(** Coefficients and characteristic together. *)
Lemma reflections_total step a b (f : list Z -> res (list Z * list Z * list Z * Z * list Z)) :
  length a = 8%nat -> length b = 8%nat ->
  (LARp ← coefficients step a b; LARp ← LARp_to_rp dm LARp; f LARp) =
    f (reflections dm (zip_with step a b)).
Proof.
  intros Ha Hb. rewrite coefficients_total by assumption. cbn [mbind res_bind].
  rewrite LARp_to_rp_total by (rewrite length_zip_with_l_eq; congruence). reflexivity.
Qed.

Lemma length_reflections l : length (reflections dm l) = length l.
Proof. apply length_map. Qed.

Lemma stp_frame_total filter total (n : Z) `{!LatticeFilter total n, !FilterTotal filter total n}
    mem L0 L1 j LARc s :
  warr n mem -> warr 8 L0 -> warr 8 L1 -> j = 0 \/ j = 1 -> length LARc = 8%nat -> warr 160 s ->
  stp_frame dm filter mem L0 L1 j LARc s = Ok (stp_total dm total mem L0 L1 j LARc s).
Proof.
  intros Hm [H0 _] [H1 _] Hj Hc [Hs Hsw]. unfold stp_frame, stp_total.
  pose proof (length_ratios LARc Hc) as Hd. rewrite Decoding_total by exact Hc.
  assert (LARpp_of L0 L1 j = Ok (if j =? 0 then L0 else L1)) as -> by (destruct Hj; subst j; reflexivity).
  cbn [mbind res_bind]. set (D := decoded_ratios dm LARc) in *.
  assert (LARpp_of (if j =? 0 then D else L0) (if j =? 0 then L1 else D) (Z.lxor j 1) =
    Ok (if j =? 0 then L1 else L0)) as -> by (destruct Hj; subst j; reflexivity).
  cbn [mbind res_bind]. set (P := if j =? 0 then L1 else L0).
  assert (length P = 8%nat) as HP by (unfold P; destruct (j =? 0); lia).
  unfold Coefficients_0_12. rewrite reflections_total by assumption.
  assert (forall step, length (reflections dm (zip_with step P D)) = 8%nat) as Hz
    by (intros; rewrite length_reflections, length_zip_with_l_eq; congruence).
  rewrite (filter_total mem _ 0 13) by (lia || apply Hz || apply Hm). cbn [mbind res_bind].
  change (Z.to_nat 13) with 13%nat. change (Z.to_nat 0) with 0%nat. rewrite drop_0.
  pose proof (filter_words (reflections dm (zip_with (interpolate_0_12 dm) P D)) (take 13 s) mem Hm
    ltac:(now apply Forall_take)) as (A1 & _). destruct (total mem _ (take 13 s)) as [m1 o1]. cbn [fst] in A1.
  unfold Coefficients_13_26. rewrite reflections_total by assumption.
  rewrite (filter_total m1 _ 13 14) by (lia || apply Hz || apply A1). cbn [mbind res_bind].
  change (Z.to_nat 13) with 13%nat. change (Z.to_nat 14) with 14%nat.
  pose proof (filter_words (reflections dm (zip_with (interpolate_13_26 dm) P D)) (take 14 (drop 13 s)) m1 A1
    ltac:(now apply Forall_take, Forall_drop)) as (A2 & _). destruct (total m1 _ _) as [m2 o2]. cbn [fst] in A2.
  unfold Coefficients_27_39. rewrite reflections_total by assumption.
  rewrite (filter_total m2 _ 27 13) by (lia || apply Hz || apply A2). cbn [mbind res_bind].
  change (Z.to_nat 13) with 13%nat. change (Z.to_nat 27) with 27%nat.
  pose proof (filter_words (reflections dm (zip_with (interpolate_27_39 dm) P D)) (take 13 (drop 27 s)) m2 A2
    ltac:(now apply Forall_take, Forall_drop)) as (A3 & _). destruct (total m2 _ _) as [m3 o3]. cbn [fst] in A3.
  unfold Coefficients_40_159. rewrite aread_all by lia. cbn [mbind res_bind].
  rewrite LARp_to_rp_total by exact Hd. cbn [mbind res_bind].
  rewrite (filter_total m3 _ 40 120) by (lia || (rewrite length_reflections; lia) || apply A3).
  cbn [mbind res_bind]. change (Z.to_nat 40) with 40%nat. change (Z.to_nat 120) with 120%nat.
  destruct (total m3 _ _) as [m4 o4]. reflexivity.
Qed.
End Checked.

(** * Synthesis undoes analysis *)

(** The forward and backward residuals of one sample [x] before stage [k], in exact
    arithmetic up to the rounded products. *)
Fixpoint lattice_d (x : Z) (u rp : list Z) (k : nat) : Z :=
  match k with
  | O => x
  | S k => lattice_d x u rp k + mult_r (rp !!! k) (u !!! k)
  end.
Definition lattice_b (x : Z) (u rp : list Z) (k : nat) : Z :=
  match k with
  | O => x
  | S k => u !!! k + mult_r (rp !!! k) (lattice_d x u rp k)
  end.

(** No addition of the eight stages saturates. *)
Definition lattice_exact (x : Z) (u rp : list Z) : Prop :=
  Forall (fun k => inS 16 (lattice_d x u rp (S k)) /\ inS 16 (lattice_b x u rp (S k))) (seq 0 8).
#[global] Instance lattice_exact_dec x u rp : Decision (lattice_exact x u rp).
Proof. unfold lattice_exact. apply _. Defined.

Fixpoint signal_exact (dm : data_model) (u rp s : list Z) : bool :=
  match s with
  | [] => true
  | x :: s => bool_decide (lattice_exact x u rp) &&
              signal_exact dm (analysis_lattice dm u rp x x).1 rp s
  end.

Section Inverse.
Context (dm : data_model) (rp : list Z).
Hypothesis Hrp : coeffs rp.
Implicit Types (u v s : list Z) (x : Z).

Lemma coeff_at (k : nat) : inS 16 (rp !!! k) /\ rp !!! k <> -32768.
Proof.
  assert (coeff (rp !!! k)) as H.
  { rewrite list_lookup_total_alt. destruct (rp !! k) eqn:E; cbn; [|unfold coeff; lia].
    eapply Forall_lookup_1; [apply Hrp|exact E]. }
  unfold coeff in H. split; [clia|lia].
Qed.

Lemma coeff_mult (k : nat) (y : Z) : inS 16 y ->
  s16 (GSM_MULT_R dm (rp !!! k) y) = mult_r (rp !!! k) y /\
  synthesis_mult dm (rp !!! k) y = mult_r (rp !!! k) y /\ inS 16 (mult_r (rp !!! k) y).
Proof.
  intros Hy. destruct (coeff_at k) as [Hw Hne].
  assert (inS 16 (mult_r (rp !!! k) y)) as Hr by (apply mult_r_range; auto).
  split; [apply word_mult_r; auto|]. split; [|exact Hr].
  unfold synthesis_mult, MIN_WORD.
  destruct (Z.eqb_spec (rp !!! k) (-32768)); [contradiction|]. cbn [andb].
  rewrite Z.land_comm, s16_land. fold (SASR (sL dm (sL dm (rp !!! k * y) + 16384)) 15).
  fold (GSM_MULT_R dm (rp !!! k) y). apply word_mult_r; auto.
Qed.

Context (x : Z) (u : list Z).
Hypothesis Hx : inS 16 x.
Hypothesis Hu : warr 8 u.
Hypothesis Hex : lattice_exact x u rp.
Let D := lattice_d x u rp.
Let B := lattice_b x u rp.

Lemma exact_words (k : nat) : (k <= 8)%nat -> inS 16 (D k) /\ inS 16 (B k).
Proof.
  intros Hk. destruct k as [|k]; [split; exact Hx|].
  unfold lattice_exact in Hex. rewrite Forall_forall in Hex.
  apply (Hex k). apply in_seq. lia.
Qed.

Lemma analysis_lattice_exact n : forall k, (k + n = 8)%nat ->
  analysis_lattice dm (drop k u) (drop k rp) (D k) (B k) = (B <$> seq k n, D 8).
Proof.
  destruct Hu as [Hul Huw]. destruct Hrp as [Hrl _].
  induction n as [|n IH]; intros k Hk.
  { assert (k = 8)%nat as -> by lia. rewrite !drop_ge by lia. reflexivity. }
  rewrite (drop_S u (u !!! k)) by (apply list_lookup_lookup_total_lt; lia).
  rewrite (drop_S rp (rp !!! k)) by (apply list_lookup_lookup_total_lt; lia).
  cbn [analysis_lattice]. destruct (exact_words k ltac:(lia)) as [HD _].
  destruct (exact_words (S k) ltac:(lia)) as [HD' HB'].
  assert (inS 16 (u !!! k)) as Huk by (apply (warr_total 8); split; assumption).
  destruct (coeff_mult k _ HD) as (-> & _ & Hm1). destruct (coeff_mult k _ Huk) as (-> & _ & Hm2).
  rewrite !word_add, !sat16_id by assumption.
  change (D k + mult_r (rp !!! k) (u !!! k)) with (D (S k)).
  change (u !!! k + mult_r (rp !!! k) (D k)) with (B (S k)).
  rewrite IH by lia. reflexivity.
Qed.

(** The synthesis stages walk the same residuals backwards. *)
Lemma synthesis_lattice_exact i : forall v, (i <= 8)%nat -> length v = 9%nat ->
  (forall k, (k < i)%nat -> v !!! k = u !!! k) ->
  exists v', synthesis_lattice dm i rp v (D i) = (v', x) /\ length v' = 9%nat /\
    (forall k, (0 < k <= i)%nat -> v' !!! k = B k) /\
    (forall k, (i < k)%nat -> v' !!! k = v !!! k).
Proof.
  induction i as [|i IH]; intros v Hi Hl Hv.
  { exists v. repeat split; auto; intros; lia. }
  cbn [synthesis_lattice]. rewrite (Hv i) by lia.
  destruct (exact_words i ltac:(lia)) as [HD _].
  destruct (exact_words (S i) ltac:(lia)) as [HD' HB'].
  assert (inS 16 (u !!! i)) as Hui by (apply (warr_total 8), Hu).
  destruct (coeff_mult i _ Hui) as (_ & -> & Hm2).
  rewrite word_sub by assumption.
  change (D (S i)) with (D i + mult_r (rp !!! i) (u !!! i)).
  replace (D i + mult_r (rp !!! i) (u !!! i) - mult_r (rp !!! i) (u !!! i)) with (D i) by lia.
  rewrite (sat16_id (D i)) by assumption.
  destruct (coeff_mult i _ HD) as (_ & -> & Hm1). rewrite word_add by assumption.
  change (u !!! i + mult_r (rp !!! i) (D i)) with (B (S i)). rewrite sat16_id by assumption.
  destruct (IH (<[S i := B (S i)]> v)) as (v' & E & Hl' & Hb & Hr); [lia|now rewrite length_insert| |].
  { intros k Hk. rewrite list_lookup_total_insert_ne by lia. apply Hv. lia. }
  exists v'. split; [exact E|]. split; [exact Hl'|]. split.
  - intros k Hk. destruct (decide (k = S i)) as [->|]; [|apply Hb; lia].
    rewrite Hr by lia. apply list_lookup_total_insert_eq. lia.
  - intros k Hk. rewrite Hr by lia. apply list_lookup_total_insert_ne. lia.
Qed.
End Inverse.

Section InverseFilter.
Context (dm : data_model) (rp : list Z).
Hypothesis Hrp : coeffs rp.
Implicit Types (u v s : list Z) (x : Z).

Lemma sample_inverse x u v :
  inS 16 x -> warr 8 u -> lattice_exact x u rp -> length v = 9%nat -> take 8 v = u ->
  exists v1, synthesis_lattice dm 8 rp v (analysis_lattice dm u rp x x).2 = (v1, x) /\
    length v1 = 9%nat /\ take 8 (<[0%nat := x]> v1) = (analysis_lattice dm u rp x x).1.
Proof.
  intros Hx Hu Hex Hl Hv.
  pose proof (analysis_lattice_exact dm rp Hrp x u Hx Hu Hex 8 0 eq_refl) as Ha.
  rewrite !drop_0 in Ha. cbn [lattice_d lattice_b] in Ha. rewrite Ha. cbn [fst snd].
  destruct (synthesis_lattice_exact dm rp Hrp x u Hx Hu Hex 8 v) as (v1 & E & Hl1 & Hb & _);
    [lia|exact Hl| |].
  { intros k Hk. rewrite <- Hv, !list_lookup_total_alt, lookup_take_lt by lia. reflexivity. }
  exists v1. split; [exact E|]. split; [exact Hl1|].
  pose proof (Hb 1%nat ltac:(lia)) as H1. pose proof (Hb 2%nat ltac:(lia)) as H2.
  pose proof (Hb 3%nat ltac:(lia)) as H3. pose proof (Hb 4%nat ltac:(lia)) as H4.
  pose proof (Hb 5%nat ltac:(lia)) as H5. pose proof (Hb 6%nat ltac:(lia)) as H6.
  pose proof (Hb 7%nat ltac:(lia)) as H7. clear Hb E.
  do 9 (destruct v1 as [|? v1]; [discriminate Hl1|]). destruct v1; [|discriminate Hl1].
  cbn [seq fmap list_fmap]. rewrite <- H1, <- H2, <- H3, <- H4, <- H5, <- H6, <- H7. reflexivity.
Qed.

Lemma filters_inverse s : forall u v,
  warr 8 u -> length v = 9%nat -> take 8 v = u -> Forall (inS 16) s ->
  signal_exact dm u rp s = true ->
  exists v', synthesis_filter dm v rp (analysis_filter dm u rp s).2
               = (v', s) /\
    length v' = 9%nat /\ take 8 v' = (analysis_filter dm u rp s).1.
Proof.
  induction s as [|x s IH]; intros u v Hu Hl Hv Hs Hex; cbn [analysis_filter].
  { exists v. auto. }
  cbn [signal_exact] in Hex. apply andb_prop in Hex. destruct Hex as [Hx Hex].
  apply bool_decide_eq_true in Hx.
  destruct (sample_inverse x u v (Forall_inv Hs) Hu Hx Hl Hv) as (v1 & E & Hl1 & Ht).
  pose proof (analysis_lattice_words dm u rp x x (proj2 Hu) (Forall_inv Hs) (Forall_inv Hs)) as (H1 & H2 & _).
  destruct (analysis_lattice dm u rp x x) as [u1 d]. cbn [fst snd] in *.
  destruct (IH u1 (<[0%nat := x]> v1)) as (v' & E' & Hl' & Ht');
    [split; [destruct Hu; lia|assumption]|now rewrite length_insert|assumption
    |exact (Forall_inv_tail Hs)|assumption|].
  destruct (analysis_filter dm u1 rp s) as [u2 ds]. cbn [fst snd] in *.
  exists v'. cbn [synthesis_filter]. rewrite E, E'. auto.
Qed.
End InverseFilter.

(** The eight-stage synthesis lattice undoes the analysis lattice sample by sample, for the
    same reflection coefficients and matching memories, whenever no addition of the analysis
    saturates. *)
Theorem stp_synthesis_inverts_analysis (dm : data_model) (LARp u v s : list Z) :
  warr 8 LARp -> warr 8 u -> length v = 9%nat -> take 8 v = u -> Forall (inS 16) s ->
  signal_exact dm u (reflections dm LARp) s = true ->
  exists rp u' d v', LARp_to_rp dm LARp = Ok rp /\
    Short_term_analysis_filtering dm u rp 0 (Z.of_nat (length s)) s = Ok (u', d) /\
    Short_term_synthesis_filtering dm v rp 0 (Z.of_nat (length s)) d = Ok (v', s) /\ take 8 v' = u'.
Proof.
  intros HL Hu Hl Hv Hs Hex. exists (reflections dm LARp).
  assert (length (reflections dm LARp) = 8%nat) as Hr by (rewrite length_reflections; destruct HL; lia).
  destruct (filters_inverse dm _ (reflections_coeffs dm LARp HL) s u v Hu Hl Hv Hs Hex)
    as (v' & E & _ & Ht).
  pose proof (analysis_filter_words dm (reflections dm LARp) s u Hu Hs) as (_ & Hd & _).
  rewrite LARp_to_rp_total by (destruct HL; lia).
  rewrite (filter_total u _ 0 (Z.of_nat (length s)) s) by (lia || apply Hu || exact Hr).
  change (Z.to_nat 0) with 0%nat. rewrite drop_0, Nat2Z.id, take_ge by lia.
  destruct (analysis_filter dm u _ s) as [u' d]. cbn [fst snd] in *. exists u', d, v'.
  do 2 (split; [reflexivity|]).
  rewrite (filter_total v _ 0 (Z.of_nat (length s)) d) by lia. change (Z.to_nat 0) with 0%nat.
  rewrite drop_0, Nat2Z.id, take_ge, E by lia. auto.
Qed.

Lemma stp_synthesis_inverts_analysis_witness :
  let LARp := [3000; -5000; 12000; -25000; 100; 0; 7; -7] in
  let s := [100; 2000; -3000; 40; 5] in
  exists rp u' d v', LARp_to_rp LP64 LARp = Ok rp /\
    Short_term_analysis_filtering LP64 (replicate 8 10) rp 0 5 s = Ok (u', d) /\
    Short_term_synthesis_filtering LP64 (replicate 9 10) rp 0 5 d = Ok (v', s) /\
    take 8 v' = u'.
Proof.
  apply (stp_synthesis_inverts_analysis LP64 [3000; -5000; 12000; -25000; 100; 0; 7; -7]
    (replicate 8 10) (replicate 9 10) [100; 2000; -3000; 40; 5]);
    [by_eval|by_eval|reflexivity|reflexivity|by_eval|vm_compute; reflexivity].
Defined.
