(* ===== verification/GsmPreprocess.v ===== *)
(** GSM 06.10 preprocessing (src/mibench/telecomm/gsm/src/preprocess.c): downscaling, offset
    compensation with a recursive filter kept at 31 bits, pre-emphasis. The reference is the
    filter in exact integer arithmetic; the model carries the machine conversions and the two
    [assert]s of the source. *)
From stdpp Require Import base list numbers option tactics.
From Stdlib Require Import ZArith Lia.
From S2P Require Import Prelude GsmAdd.

(** The fields of [struct gsm_state] that the filter keeps between frames. *)
Record pre_state := PreState { z1 : Z; L_z2 : Z; mp : Z }.

Section Preprocess.
Context (dm : data_model).

(** One iteration of [while (k--)]. *)
Definition preprocess_step (st : pre_state) (s : Z) : res (pre_state * Z) :=
  let SO := s16 (SASR s 3 ≪ 2) in
  c_assert (-0x4000 <=? SO);;
  c_assert (SO <=? 0x3FFC);;
  let s1 := s16 (SO - z1 st) in
  let z1 := SO in
  c_assert (negb (s1 =? MIN_WORD));;
  let L_s2 := sL dm (s1 ≪ 15) in
  let msp := s16 (SASR (L_z2 st) 15) in
  let lsp := s16 (sL dm (L_z2 st - sL dm (msp ≪ 15))) in
  let L_s2 := sL dm (L_s2 + GSM_MULT_R dm lsp 32735) in
  let L_temp := sL dm (msp * 32735) in
  let L_z2 := GSM_L_ADD dm L_temp L_s2 in
  let L_temp := GSM_L_ADD dm L_z2 16384 in
  let msp := s16 (GSM_MULT_R dm (mp st) (-28180)) in
  let mp := s16 (SASR L_temp 15) in
  mret (PreState z1 L_z2 mp, s16 (GSM_ADD dm mp msp)).

Fixpoint preprocess_loop (st : pre_state) (s : list Z) : res (pre_state * list Z) :=
  match s with
  | [] => mret (st, [])
  | x :: s =>
      r ← preprocess_step st x;
      r' ← preprocess_loop r.1 s;
      mret (r'.1, r.2 :: r'.2)
  end.

(** [k = 160; while (k--)] over [s]; the result is what is stored in [so[0..159]]. *)
Definition Gsm_Preprocess (st : pre_state) (s : list Z) : res (pre_state * list Z) :=
  s ← aread s 0 160;
  preprocess_loop st s.
End Preprocess.

(** * The exact filter *)

(** [x * 32735 / 32768], rounded to nearest. *)
Definition leak (x : Z) : Z := (x * 32735 + 16384) / 32768.

(** The downscaled sample: a multiple of 4 of 15 bits. *)
Definition downscale (s : Z) : Z := s / 8 * 4.

Definition highpass_step (st : pre_state) (s : Z) : pre_state * Z :=
  let y := (downscale s - z1 st) * 32768 + leak (L_z2 st) in
  let p := (y + 16384) / 32768 in
  (PreState (downscale s) y p, sat16 (p + mult_r (mp st) (-28180))).

Fixpoint highpass (st : pre_state) (s : list Z) : pre_state * list Z :=
  match s with
  | [] => (st, [])
  | x :: s => let r := highpass_step st x in
              let r' := highpass r.1 s in (r'.1, r.2 :: r'.2)
  end.

(** The offset [L_z2 - z1 * 2^15] that the filter lets decay stays within the bound it can
    reach; this is what keeps the 31-bit recursion from saturating. *)
Definition pre_inv (st : pre_state) : Prop :=
  -16384 <= z1 st <= 16380 /\
  -16380 * 32768 - 497 <= L_z2 st - z1 st * 32768 <= 16384 * 32768 + 497 /\
  inS 16 (mp st).
#[global] Instance pre_inv_dec st : Decision (pre_inv st).
Proof. unfold pre_inv. apply _. Defined.

Section Exact.
Context (dm : data_model).
Implicit Types (st : pre_state) (s : list Z) (x : Z).

Lemma downscale_range x : inS 16 x -> -16384 <= downscale x <= 16380.
Proof. unfold downscale. intros. cint_unfold. dlia. Qed.

Lemma downscale_spec x : inS 16 x -> s16 (SASR x 3 ≪ 2) = downscale x.
Proof.
  intros H. pose proof (downscale_range x H). unfold SASR.
  rewrite Z.shiftl_mul_pow2, Z.shiftr_div_pow2 by lia. change (2 ^ 2) with 4. change (2 ^ 3) with 8.
  fold (downscale x). apply wrapS_id; clia.
Qed.

(** Multiplying the two halves of [L] separately loses nothing. *)
Lemma leak_split L :
  leak L = L / 32768 * 32735 + mult_r (L mod 32768) 32735.
Proof. unfold leak, mult_r. dlia. Qed.

Lemma highpass_step_inv st x : pre_inv st -> inS 16 x -> pre_inv (highpass_step st x).1.
Proof.
  intros (H1 & H2 & H3) Hx. pose proof (downscale_range x Hx). unfold pre_inv, highpass_step, leak.
  cbn [fst z1 L_z2 mp]. generalize dependent (downscale x). intros d Hd.
  set (y := L_z2 st) in *. set (z := z1 st) in *. cint_unfold. split; [exact Hd|].
  split; dlia.
Qed.

Lemma preprocess_step_exact st x : pre_inv st -> inS 16 x ->
  preprocess_step dm st x = Ok (highpass_step st x).
Proof.
  intros Hi Hx. pose proof (highpass_step_inv st x Hi Hx) as (Hz' & He' & Hm').
  destruct Hi as (H1 & H2 & H3). unfold preprocess_step. rewrite downscale_spec by exact Hx.
  pose proof (downscale_range x Hx) as Hd. unfold highpass_step in *. cbn [fst z1 L_z2 mp] in *.
  generalize dependent (downscale x). intros d Hz' He' Hm' Hd.
  unfold c_assert. destruct (Z.leb_spec (-0x4000) d); [|lia].
  destruct (Z.leb_spec d 0x3FFC); [|lia]. cbn [mbind res_bind].
  rewrite (wrapS_id 16 (d - z1 st)) by clia. unfold MIN_WORD.
  destruct (Z.eqb_spec (d - z1 st) (-32768)); [lia|]. cbn [negb mbind res_bind].
  unfold SASR. rewrite !Z.shiftl_mul_pow2, !Z.shiftr_div_pow2 by lia.
  change (2 ^ 15) with 32768. set (y := L_z2 st) in *. set (z := z1 st) in *.
  pose proof (leak_split y) as Hk.
  assert (- 32768 <= y / 32768 < 32768) by dlia.
  rewrite (wrapS_id 16 (y / 32768)) by clia.
  assert (sL dm (y / 32768 * 32768) = y / 32768 * 32768) as -> by (apply sL_id; clia).
  replace (y - y / 32768 * 32768) with (y mod 32768) by dlia.
  assert (0 <= y mod 32768 < 32768) by dlia.
  rewrite (sL_id dm (y mod 32768)), (wrapS_id 16 (y mod 32768)) by clia.
  rewrite GSM_MULT_R_spec by clia.
  assert (0 <= mult_r (y mod 32768) 32735 <= 32735) by (unfold mult_r; dlia).
  generalize dependent (mult_r (y mod 32768) 32735). intros m Hk Hm.
  drop_wrap. rewrite GSM_L_ADD_sat by clia.
  replace (y / 32768 * 32735 + ((d - z) * 32768 + m)) with ((d - z) * 32768 + leak y) by lia.
  set (y' := (d - z) * 32768 + leak y) in *.
  assert (sat32 y' = y') as -> by (unfold sat32; lia).
  rewrite GSM_L_ADD_sat by clia. assert (sat32 (y' + 16384) = y' + 16384) as -> by (unfold sat32; lia).
  rewrite word_mult_r by first [exact H3|clia].
  rewrite (wrapS_id 16 ((y' + 16384) / 32768)) by clia.
  rewrite word_add by first [exact Hm'|apply mult_r_range; clia]. reflexivity.
Qed.

Lemma preprocess_loop_exact s : forall st, pre_inv st -> Forall (inS 16) s ->
  preprocess_loop dm st s = Ok (highpass st s) /\ pre_inv (highpass st s).1 /\
  warr (Z.of_nat (length s)) (highpass st s).2.
Proof.
  induction s as [|x s IH]; intros st Hi Hs; cbn [preprocess_loop highpass].
  { split; [reflexivity|]. split; [exact Hi|]. split; [reflexivity|constructor]. }
  rewrite preprocess_step_exact by (auto; exact (Forall_inv Hs)). cbn [mbind res_bind].
  destruct (IH (highpass_step st x).1) as (-> & H1 & H2 & H3);
    [apply highpass_step_inv; auto; exact (Forall_inv Hs)|exact (Forall_inv_tail Hs)|].
  cbn [mbind res_bind fst snd]. split; [reflexivity|]. split; [exact H1|].
  split; [cbn [length]; lia|]. constructor; [apply sat16_range|assumption].
Qed.

Lemma Gsm_Preprocess_exact s st : pre_inv st -> warr 160 s ->
  Gsm_Preprocess dm st s = Ok (highpass st s) /\ pre_inv (highpass st s).1 /\ warr 160 (highpass st s).2.
Proof.
  intros Hi [Hl Hs]. unfold Gsm_Preprocess. rewrite aread_all by exact Hl. cbn [mbind res_bind].
  destruct (preprocess_loop_exact s st Hi Hs) as (E & H1 & H2). rewrite <- Hl. auto.
Qed.
End Exact.

(** From any state within the offset invariant, preprocessing fails no assert and computes
    the recursive high-pass filter in exact integer arithmetic: neither the split 31-by-16-bit
    multiplication nor the two GSM_L_ADDs lose anything; the invariant is preserved. *)
Theorem preprocess_exact (dm : data_model) (st : pre_state) (s : list Z) :
  pre_inv st -> warr 160 s ->
  Gsm_Preprocess dm st s = Ok (highpass st s) /\ pre_inv (highpass st s).1.
Proof. intros. split; eapply Gsm_Preprocess_exact; eauto. Qed.

Lemma preprocess_exact_witness :
  let s := [32767; -32768; 100; 32767] ++ replicate 156 (-5) in
  Gsm_Preprocess LP64 (PreState 0 0 0) s = Ok (highpass (PreState 0 0 0) s) /\
  pre_inv (highpass (PreState 0 0 0) s).1.
Proof.
  apply (preprocess_exact LP64 (PreState 0 0 0) ([32767; -32768; 100; 32767] ++ replicate 156 (-5))); by_eval.
Defined.
