(* ===== verification/GsmLpc.v ===== *)
(** GSM 06.10 LPC analysis (src/mibench/telecomm/gsm/src/lpc.c, the integer version):
    autocorrelation with dynamic scaling, the Schur recursion in 16 bits, the piecewise linear
    log-area ratios and their quantisation. The theorems show that no accumulation overflows,
    that no [assert] fails, that every coded ratio fits its field, and how far the decoded
    ratio can be from the one that was coded. *)
From stdpp Require Import base list numbers option tactics.
From Stdlib Require Import ZArith Lia.
From S2P Require Import Prelude GsmAdd GsmStp.

Section Lpc.
Context (dm : data_model).
Implicit Types (s L P K r : list Z).

(** ** 4.2.4 *)

Definition LPC_scalauto s : res Z :=
  s ← aread s 0 160;
  let smax := fold_left max_abs_step s 0 in
  if smax =? 0 then mret 0
  else
    c_assert (0 <? smax);;
    n ← gsm_norm (sL dm (smax ≪ 16));
    mret (s16 (4 - n)).

(** [switch (scalauto) { SCALE(1) SCALE(2) SCALE(3) SCALE(4) }]. *)
Definition LPC_scale s (scalauto : Z) : res (list Z) :=
  if (1 <=? scalauto) && (scalauto <=? 4)
  then s ← aread s 0 160; mret (map (fun x => s16 (GSM_MULT_R dm x (16384 ≫ (scalauto - 1)))) s)
  else mret s.

(** [L_ACF[k] += ((longword)sl * sp[ -(k) ])] with [sp = s + i] and [sl = *sp]. *)
Definition ACF_STEP s (i : nat) L (k : nat) : res (list Z) :=
  sl ← aget s (Z.of_nat i);
  sp ← aget s (Z.of_nat i - Z.of_nat k);
  x ← aget L (Z.of_nat k);
  aset L (Z.of_nat k) (sL dm (x + sL dm (sl * sp))).

(** [STEP(0); ... STEP(c-1)]. *)
Definition ACF_STEPS s (i c : nat) L : res (list Z) := mfold (ACF_STEP s i) (seq 0 c) L.

Definition LPC_accumulate s : res (list Z) :=
  let L := replicate 9 0 in
  L ← mfold (fun L i => ACF_STEPS s i (S i) L) (seq 0 8) L;
  mfold (fun L i => ACF_STEPS s i 9 L) (seq 8 152) L.

Definition Autocorrelation s : res (list Z * list Z) :=
  scalauto ← LPC_scalauto s;
  s ← (if 0 <? scalauto then LPC_scale s scalauto else mret s);
  L_ACF ← LPC_accumulate s;
  L_ACF ← aread L_ACF 0 9;
  let L_ACF := map (fun x => sL dm (x ≪ 1)) L_ACF in
  if 0 <? scalauto then
    c_assert (scalauto <=? 4);;
    s ← aread s 0 160;
    mret (map (fun x => s16 (s32 (x ≪ scalauto))) s, L_ACF)
  else mret (s, L_ACF).

(** ** 4.2.5 *)

Definition schur_step (r : Z) (PK : list Z * list Z) (m : nat) : res (list Z * list Z) :=
  let '(P, K) := PK in
  Km ← aget K (Z.of_nat m);
  let temp := s16 (GSM_MULT_R dm Km r) in
  Pm1 ← aget P (Z.of_nat m + 1);
  P ← aset P (Z.of_nat m) (s16 (GSM_ADD dm Pm1 temp));
  Pm1 ← aget P (Z.of_nat m + 1);
  let temp := s16 (GSM_MULT_R dm Pm1 r) in
  Km ← aget K (Z.of_nat m);
  K ← aset K (Z.of_nat m) (s16 (GSM_ADD dm Km temp));
  mret (P, K).

(** The iterations [n .. 8] of the recursion, [k = 9 - n]; the result is [r[n-1 .. 7]]. *)
Fixpoint schur (k : nat) P K : res (list Z) :=
  match k with
  | O => mret []
  | S k' =>
      P1 ← aget P 1;
      P0 ← aget P 0;
      let temp := s16 (GSM_ABS P1) in
      if P0 <? temp then mret (replicate k 0)
      else
        r ← gsm_div dm temp P0;
        c_assert (0 <=? r);;
        let r := if 0 <? P1 then s16 (- r) else r in
        c_assert (negb (r =? MIN_WORD));;
        match k' with
        | O => mret [r]
        | _ =>
            let temp := s16 (GSM_MULT_R dm P1 r) in
            P ← aset P 0 (s16 (GSM_ADD dm P0 temp));
            '(P, K) ← mfold (schur_step r) (seq 1 k') (P, K);
            rs ← schur k' P K;
            mret (r :: rs)
        end
  end.

(** [K[0]] and [K[8]] are never read; the model has the value of [ACF] there. *)
Definition Reflection_coefficients (L_ACF : list Z) : res (list Z) :=
  L0 ← aget L_ACF 0;
  if L0 =? 0 then mret (replicate 8 0)
  else
    c_assert (negb (L0 =? 0));;
    n ← gsm_norm L0;
    let temp := s16 n in
    c_assert ((0 <=? temp) && (temp <? 32));;
    L_ACF ← aread L_ACF 0 9;
    let ACF := map (fun x => s16 (SASR (sL dm (x ≪ temp)) 16)) L_ACF in
    let K := ACF in
    let P := ACF in
    schur 8 P K.

(** ** 4.2.6 *)

Definition LAR_step (r : Z) : res Z :=
  let temp := s16 (GSM_ABS r) in
  c_assert (0 <=? temp);;
  temp ← (if temp <? 22118 then mret (s16 (temp ≫ 1))
          else if temp <? 31130 then
            c_assert (11059 <=? temp);; mret (s16 (temp - 11059))
          else
            c_assert (26112 <=? temp);;
            let temp := s16 (temp - 26112) in
            mret (s16 (s32 (temp ≪ 2))));
  let r := s16 (if r <? 0 then - temp else temp) in
  c_assert (negb (r =? MIN_WORD));;
  mret r.

Definition Transformation_to_Log_Area_Ratios r : res (list Z) :=
  r ← aread r 0 8;
  mapM LAR_step r.

(** ** 4.2.7 *)

Definition LAR_code_step (A B MAC MIC LAR : Z) : Z :=
  let temp := s16 (GSM_MULT dm A LAR) in
  let temp := s16 (GSM_ADD dm temp B) in
  let temp := s16 (GSM_ADD dm temp 256) in
  let temp := s16 (SASR temp 9) in
  s16 (if MAC <? temp then MAC - MIC else if temp <? MIC then 0 else temp - MIC).

Definition LAR_code_steps : list (Z * Z * Z * Z) :=
  [(20480, 0, 31, -32); (20480, 0, 31, -32); (20480, 2048, 15, -16); (20480, -2560, 15, -16);
   (13964, 94, 7, -8); (15360, -1792, 7, -8); (8534, -341, 3, -4); (9036, -1144, 3, -4)].

Definition Quantization_and_coding (LAR : list Z) : res (list Z) :=
  LAR ← aread LAR 0 8;
  mret (zip_with (fun '(A, B, MAC, MIC) => LAR_code_step A B MAC MIC) LAR_code_steps LAR).

(** The new contents of [s] and of [LARc]. *)
Definition Gsm_LPC_Analysis s : res (list Z * list Z) :=
  a ← Autocorrelation s;
  r ← Reflection_coefficients a.2;
  LAR ← Transformation_to_Log_Area_Ratios r;
  LARc ← Quantization_and_coding LAR;
  mret (a.1, LARc).

(** The same accumulation and quantisation on arrays of the right length. *)
Definition acf_step s (i : nat) L (k : nat) : list Z :=
  <[k := sL dm (L !!! k + sL dm (s !!! i * s !!! (i - k)%nat))]> L.
Definition acf_steps s (i c : nat) L : list Z := fold_left (acf_step s i) (seq 0 c) L.
Definition accumulated s : list Z :=
  fold_left (fun L i => acf_steps s i 9 L) (seq 8 152)
    (fold_left (fun L i => acf_steps s i (S i) L) (seq 0 8) (replicate 9 0)).

Definition schur_pair (r : Z) (PK : list Z * list Z) (m : nat) : list Z * list Z :=
  let '(P, K) := PK in
  let P := <[m := s16 (GSM_ADD dm (P !!! S m) (s16 (GSM_MULT_R dm (K !!! m) r)))]> P in
  (P, <[m := s16 (GSM_ADD dm (K !!! m) (s16 (GSM_MULT_R dm (P !!! S m) r)))]> K).

Definition coded_ratios (LAR : list Z) : list Z :=
  zip_with (fun '(A, B, MAC, MIC) => LAR_code_step A B MAC MIC) LAR_code_steps LAR.
End Lpc.

(** Every access of the code is inside its array. *)
Section Checked.
Context (dm : data_model).
Implicit Types (s L P K : list Z) (i c : nat).

Lemma ACF_STEP_total s i L k : length s = 160%nat -> length L = 9%nat -> (i < 160)%nat -> (k < 9)%nat ->
  (k <= i)%nat -> ACF_STEP dm s i L k = Ok (acf_step dm s i L k) /\ length (acf_step dm s i L k) = 9%nat.
Proof.
  intros Hs HL Hi Hk Hki. unfold ACF_STEP, acf_step. rewrite !aget_total by lia. cbn [mbind res_bind].
  rewrite !Nat2Z.id. replace (Z.to_nat (Z.of_nat i - Z.of_nat k)) with (i - k)%nat by lia.
  rewrite length_insert. split; [|exact HL]. apply aset_ok. rewrite Nat2Z.id. split; [lia|reflexivity].
Qed.

Lemma ACF_STEPS_total s i c L : length s = 160%nat -> length L = 9%nat -> (i < 160)%nat -> (c <= 9)%nat ->
  (c <= S i)%nat -> ACF_STEPS dm s i c L = Ok (acf_steps dm s i c L) /\ length (acf_steps dm s i c L) = 9%nat.
Proof.
  intros Hs HL Hi Hc Hci. apply (mfold_total (fun L => length L = 9%nat)); [exact HL|].
  apply Forall_forall. intros k Hk L' HL'. apply list_elem_of_In, elem_of_seq in Hk. apply ACF_STEP_total; lia.
Qed.

Lemma LPC_accumulate_total s : length s = 160%nat ->
  LPC_accumulate dm s = Ok (accumulated dm s) /\ length (accumulated dm s) = 9%nat.
Proof.
  intros Hs. unfold LPC_accumulate, accumulated.
  destruct (mfold_total (fun L => length L = 9%nat) (fun L i => ACF_STEPS dm s i (S i) L)
    (fun L i => acf_steps dm s i (S i) L) (seq 0 8) (replicate 9 0)) as [E H]; [reflexivity| |].
  { apply Forall_forall. intros i Hi L HL. apply list_elem_of_In, elem_of_seq in Hi. apply ACF_STEPS_total; lia. }
  rewrite E. cbn [mbind res_bind]. apply (mfold_total (fun L => length L = 9%nat)); [exact H|].
  apply Forall_forall. intros i Hi L HL. apply list_elem_of_In, elem_of_seq in Hi. apply ACF_STEPS_total; lia.
Qed.

Lemma schur_step_total r P K m : length P = 9%nat -> length K = 9%nat -> (m < 8)%nat ->
  schur_step dm r (P, K) m = Ok (schur_pair dm r (P, K) m).
Proof.
  intros HP HK Hm. unfold schur_step, schur_pair. rewrite !aget_total by lia. cbn [mbind res_bind].
  rewrite (proj2 (aset_ok P _ _ _)) by (split; [lia|reflexivity]). cbn [mbind res_bind].
  rewrite aget_total by (rewrite length_insert; lia). cbn [mbind res_bind].
  rewrite (proj2 (aset_ok K _ _ _)) by (split; [lia|reflexivity]). cbn [mbind res_bind].
  rewrite Nat2Z.id. replace (Z.to_nat (Z.of_nat m + 1)) with (S m) by lia. reflexivity.
Qed.

Lemma Quantization_total LAR : length LAR = 8%nat ->
  Quantization_and_coding dm LAR = Ok (coded_ratios dm LAR).
Proof. intros. unfold Quantization_and_coding. rewrite aread_all by lia. reflexivity. Qed.
End Checked.

(** * Autocorrelation *)

(** The exact autocorrelation of the first [n] samples at lag [k]. *)
Definition acf (s : list Z) (n k : nat) : Z :=
  zsum (fun i => if (k <=? i)%nat then s !!! i * s !!! (i - k)%nat else 0) n.

Section Acf.
Context (dm : data_model) (s : list Z).
Hypothesis Hs : forall i : nat, -2048 <= s !!! i <= 2048.
Implicit Types (i k n c : nat).

Lemma acf_term i k : -4194304 <= (if (k <=? i)%nat then s !!! i * s !!! (i - k)%nat else 0) <= 4194304.
Proof.
  pose proof (Hs i). pose proof (Hs (i - k)). destruct (k <=? i)%nat; nia.
Qed.

Lemma acf_bound n k : - (Z.of_nat n * 4194304) <= acf s n k <= Z.of_nat n * 4194304.
Proof. apply zsum_bound. intros. apply acf_term. Qed.

Lemma acf_0_S n : acf s (S n) 0 = acf s n 0 + s !!! n * s !!! n.
Proof. unfold acf. cbn [zsum]. now rewrite Nat.sub_0_r. Qed.

Lemma acf_0_mono n m : (n <= m)%nat -> acf s n 0 <= acf s m 0.
Proof.
  induction 1 as [|m _ IH]; [apply Z.le_refl|]. rewrite acf_0_S. pose proof (Z.square_nonneg (s !!! m)). lia.
Qed.

(** Cauchy-Schwarz for the lagged products: no lag exceeds the energy. *)
Lemma acf_cauchy n k : 2 * Z.abs (acf s n k) <= acf s n 0 + acf s (n - k) 0.
Proof.
  induction n as [|n IH]; [rewrite Nat.sub_0_l; apply Z.le_refl|]. rewrite acf_0_S.
  unfold acf at 1. cbn [zsum]. fold (acf s n k). destruct (Nat.leb_spec k n).
  - replace (S n - k)%nat with (S (n - k)) by lia. rewrite acf_0_S.
    generalize dependent (s !!! n). generalize dependent (s !!! (n - k)%nat). intros a b.
    assert (2 * Z.abs (b * a) <= b * b + a * a); [|lia].
    pose proof (Z.square_nonneg (b - a)). pose proof (Z.square_nonneg (b + a)).
    destruct (Z.abs_spec (b * a)) as [[_ ->]|[_ ->]]; lia.
  - replace (S n - k)%nat with 0%nat by lia. replace (n - k)%nat with 0%nat in IH by lia.
    pose proof (Z.square_nonneg (s !!! n)). lia.
Qed.

Lemma acf_max n k : Z.abs (acf s n k) <= acf s n 0.
Proof. pose proof (acf_cauchy n k). pose proof (acf_0_mono (n - k) n ltac:(lia)). lia. Qed.

Lemma insert_fmap_seq (f g : nat -> Z) (c m : nat) v :
  (c < m)%nat -> g c = v -> (forall k, k <> c -> g k = f k) ->
  <[c := v]> (f <$> seq 0 m) = g <$> seq 0 m.
Proof.
  intros Hc Hv Hg. apply list_eq. intros i. destruct (decide (i = c)) as [->|Hne].
  - rewrite list_lookup_insert_eq by (rewrite length_fmap, length_seq; lia).
    rewrite list_lookup_fmap, lookup_seq_lt by lia. cbn. now rewrite Hv.
  - rewrite list_lookup_insert_ne, !list_lookup_fmap by lia.
    destruct (decide (i < m)%nat); [rewrite lookup_seq_lt by lia; cbn; now rewrite Hg|].
    now rewrite lookup_seq_ge by lia.
Qed.

(** [c] STEPs of sample [i] extend the first [c] sums by their next term. *)
Lemma acf_steps_exact i c : (i < 160)%nat -> (c <= 9)%nat -> (c <= S i)%nat ->
  acf_steps dm s i c (acf s i <$> seq 0 9) =
    (fun k => if (k <? c)%nat then acf s (S i) k else acf s i k) <$> seq 0 9.
Proof.
  intros Hi. induction c as [|c IH]; intros Hc Hci; [reflexivity|].
  unfold acf_steps. rewrite seq_S, fold_left_app. cbn [fold_left Nat.add].
  change (fold_left (acf_step dm s i) (seq 0 c) ?L) with (acf_steps dm s i c L).
  rewrite IH by lia. unfold acf_step.
  set (f := fun k => if (k <? c)%nat then _ else _).
  assert ((f <$> seq 0 9) !!! c = acf s i c) as ->.
  { apply list_lookup_total_correct. rewrite list_lookup_fmap, lookup_seq_lt by lia. cbn.
    unfold f. now rewrite Nat.ltb_irrefl. }
  pose proof (acf_term i c) as Ht. rewrite (proj2 (Nat.leb_le c i)) in Ht by lia.
  pose proof (acf_bound i c).
  apply insert_fmap_seq; [lia| |].
  - rewrite (proj2 (Nat.ltb_lt c (S c))) by lia. unfold acf at 1. cbn [zsum]. fold (acf s i c).
    rewrite (proj2 (Nat.leb_le c i)) by lia. drop_wrap. reflexivity.
  - intros k Hk. unfold f. destruct (Nat.ltb_spec k (S c)), (Nat.ltb_spec k c); reflexivity || lia.
Qed.

Lemma acf_unchanged i k : (i < k)%nat -> acf s (S i) k = acf s i k.
Proof. intros. unfold acf. cbn [zsum]. rewrite (proj2 (Nat.leb_gt k i)) by lia. lia. Qed.

Lemma ACF_sample i : (i < 160)%nat ->
  acf_steps dm s i (Nat.min 9 (S i)) (acf s i <$> seq 0 9) = acf s (S i) <$> seq 0 9.
Proof.
  intros Hi. rewrite acf_steps_exact by lia. apply list_fmap_ext. intros j k Hk.
  apply lookup_seq in Hk. destruct (Nat.ltb_spec k (Nat.min 9 (S i))); [reflexivity|].
  symmetry. apply acf_unchanged. lia.
Qed.

(** The unrolled prologue and the loop together compute the sums. *)
Lemma ACF_fold (f : list Z -> nat -> list Z) m : forall i, (i + m <= 160)%nat ->
  (forall j, (i <= j < i + m)%nat -> forall L, f L j = acf_steps dm s j (Nat.min 9 (S j)) L) ->
  fold_left f (seq i m) (acf s i <$> seq 0 9) = acf s (i + m) <$> seq 0 9.
Proof.
  induction m as [|m IH]; intros i Hi Hf; [now rewrite Nat.add_0_r|].
  cbn [seq fold_left]. rewrite Hf, ACF_sample by lia.
  replace (i + S m)%nat with (S i + m)%nat by lia.
  apply IH; [lia|]. intros. apply Hf. lia.
Qed.

Lemma accumulated_exact : accumulated dm s = acf s 160 <$> seq 0 9.
Proof.
  unfold accumulated. change (replicate 9 0) with (acf s 0 <$> seq 0 9).
  rewrite (ACF_fold _ 8 0); [|lia|].
  - apply (ACF_fold _ 152 8); [lia|]. intros j Hj L. now rewrite Nat.min_l by lia.
  - intros j Hj L. now rewrite Nat.min_r by lia.
Qed.
End Acf.

(** * Scaling *)

(** [x] scaled down by [2^q] and back, with the rounding of [GSM_MULT_R]. *)
Definition scaled (q x : Z) : Z := (x + 2 ^ (q - 1)) / 2 ^ q.

Section Scaling.
Context (dm : data_model).
Implicit Types (s : list Z) (x q : Z).

Lemma scale_step x q : inS 16 x -> 1 <= q <= 4 ->
  s16 (GSM_MULT_R dm x (16384 ≫ (q - 1))) = scaled q x.
Proof.
  intros Hx Hq. assert (q = 1 \/ q = 2 \/ q = 3 \/ q = 4) as Hc by lia.
  destruct Hc as [->|[->|[->| ->]]];
    match goal with |- context [16384 ≫ ?k] => let c := eval vm_compute in (16384 ≫ k) in
      change (16384 ≫ k) with c end;
    rewrite word_mult_r by clia; unfold mult_r, scaled; cbn [Z.sub Z.add Z.pos_sub Pos.pred_double Z.pow Z.pow_pos Pos.iter Z.mul Pos.mul Z.opp];
    cint_unfold; dlia.
Qed.

(** The scaling factor brings the frame to 12 bits. *)
Definition scalauto_of s q : Prop :=
  q <= 4 /\
  (q <= 0 -> Forall (fun v => -2048 <= v <= 2048) s) /\
  (1 <= q -> Forall (fun v => -2048 <= scaled q v <= 2048) s) /\
  (Exists (fun v => 16384 <= v) s -> q = 4).

Lemma scaled_bound m n v :
  0 < m <= 32767 -> 0 <= n < 4 -> m * 2 ^ n < 32768 -> sample_min m <= v <= m ->
  -2048 <= scaled (4 - n) v <= 2048.
Proof.
  intros Hm Hn Hp Hv. unfold sample_min in Hv.
  assert (n = 0 \/ n = 1 \/ n = 2 \/ n = 3) as Hc by lia. unfold scaled.
  destruct Hc as [->|[->|[->| ->]]]; cbn in *;
    destruct (Z.eqb_spec m 32767); dlia.
Qed.

Lemma LPC_scalauto_ok s : warr 160 s -> okp (LPC_scalauto dm s) (scalauto_of s).
Proof.
  intros [Hlen Hs]. destruct (max_abs_spec s Hs) as [Hm Hv]. unfold LPC_scalauto.
  rewrite aread_all by exact Hlen. cbn [mbind res_bind].
  set (smax := fold_left max_abs_step s 0) in *. cbv zeta.
  destruct (Z.eqb_spec smax 0) as [E|Hne].
  - rewrite E in Hv. change (sample_min 0) with 0 in Hv. cbn. split; [lia|]. split; [|split; [lia|]].
    + intros _. revert Hv. apply Forall_impl. lia.
    + intros (v & Hin & Hge)%List.Exists_exists. rewrite Forall_forall in Hv.
      specialize (Hv v Hin). cbv beta in Hv. lia.
  - replace (0 <? smax) with true by lia. cbn [c_assert mbind res_bind].
    rewrite Z.shiftl_mul_pow2, sL_id by (lia || clia).
    pose proof (gsm_norm_spec (smax * 2 ^ 16) ltac:(clia) ltac:(lia)) as Hn.
    destruct (gsm_norm (smax * 2 ^ 16)) as [n|]; [|contradiction].
    destruct Hn as (Hn & Hp & _). destruct Hp as [Hn' Hp]; [lia|]. cbn [mbind res_bind okp mret res_ret].
    rewrite wrapS_id by clia. assert (smax * 2 ^ n < 32768) as Hp' by lia. clear Hp.
    assert (Exists (fun v => 16384 <= v) s -> 4 - n = 4) as H4.
    { intros (v & Hin & Hge)%List.Exists_exists. rewrite Forall_forall in Hv.
      specialize (Hv v Hin). cbv beta in Hv. destruct (decide (n = 0)); [lia|].
      assert (2 ^ 1 <= 2 ^ n) by (apply Z.pow_le_mono_r; lia). nia. }
    split; [lia|]. split; [|split; [|exact H4]]; intros Hq; revert Hv; apply Forall_impl; intros v H.
    + assert (2 ^ 4 <= 2 ^ n) by (apply Z.pow_le_mono_r; lia).
      unfold sample_min in H. destruct (Z.eqb_spec smax 32767); nia.
    + apply (scaled_bound smax); lia.
Qed.

(** What [Autocorrelation] leaves of a sample: its multiple of [2^q], which for a sample of
    32760 or more is not a word any more. *)
Definition rescaled q x : Z := if 0 <? q then s16 (scaled q x * 2 ^ q) else x.

Definition working_signal q s : list Z := if 0 <? q then scaled q <$> s else s.

Lemma working_signal_bound q s : scalauto_of s q ->
  forall i : nat, -2048 <= working_signal q s !!! i <= 2048.
Proof.
  intros (Hq & H0 & H1 & _) i. unfold working_signal. rewrite list_lookup_total_alt.
  destruct (Z.ltb_spec 0 q).
  - rewrite list_lookup_fmap. destruct (s !! i) as [v|] eqn:E; cbn; [|lia].
    exact (Forall_lookup_1 _ _ _ _ (H1 ltac:(lia)) E).
  - destruct (s !! i) as [v|] eqn:E; cbn; [|lia].
    exact (Forall_lookup_1 _ _ _ _ (H0 ltac:(lia)) E).
Qed.

Lemma fmap_total (f : Z -> Z) (l : list Z) (i : nat) : (i < length l)%nat -> (f <$> l) !!! i = f (l !!! i).
Proof.
  intros H. apply list_lookup_total_correct. rewrite list_lookup_fmap.
  rewrite (list_lookup_lookup_total_lt l i H). reflexivity.
Qed.

Lemma fmap_Forall_ext {A B} (f g : A -> B) (P : A -> Prop) l :
  Forall P l -> (forall a, P a -> f a = g a) -> f <$> l = g <$> l.
Proof. intros Hl H. induction Hl; cbn; f_equal; auto. Qed.

Lemma Autocorrelation_spec s : warr 160 s ->
  exists q, scalauto_of s q /\
    Autocorrelation dm s =
      Ok (rescaled q <$> s, (fun k => 2 * acf (working_signal q s) 160 k) <$> seq 0 9).
Proof.
  intros Hsw. pose proof (LPC_scalauto_ok s Hsw) as Ho. apply okp_ok in Ho.
  destruct Ho as (q & E & Hq). destruct Hsw as [Hlen Hs]. exists q. split; [exact Hq|].
  pose proof (working_signal_bound q s Hq) as Hw.
  assert (length (working_signal q s) = 160%nat) as Hwl.
  { unfold working_signal. destruct (0 <? q); rewrite ?length_fmap; lia. }
  destruct (LPC_accumulate_total dm _ Hwl) as [Ea Hal].
  unfold Autocorrelation. eapply bind_eq; [exact E|]. eapply bind_eq with (a := working_signal q s).
  { unfold working_signal. destruct (Z.ltb_spec 0 q); [|reflexivity]. unfold LPC_scale.
    destruct Hq as [Hq _]. replace ((1 <=? q) && (q <=? 4)) with true by lia.
    eapply bind_eq; [apply aread_all, Hlen|]. unfold mret, res_ret. rewrite map_fmap. f_equal.
    apply (fmap_Forall_ext _ _ _ _ Hs). intros. apply scale_step; [assumption|lia]. }
  eapply bind_eq; [exact Ea|]. eapply bind_eq; [apply aread_all; lia|]. cbv zeta.
  rewrite accumulated_exact by exact Hw. rewrite map_fmap, <- list_fmap_compose.
  assert ((fun x => sL dm (x ≪ 1)) ∘ acf (working_signal q s) 160 <$> seq 0 9 =
          (fun k => 2 * acf (working_signal q s) 160 k) <$> seq 0 9) as ->.
  { apply list_fmap_ext. intros i k _. unfold compose. rewrite Z.shiftl_mul_pow2 by lia.
    pose proof (acf_bound _ Hw 160 k). rewrite sL_id by clia. lia. }
  clear Hal Ea Hw E. generalize ((fun k => 2 * acf (working_signal q s) 160 k) <$> seq 0 9). intros L.
  unfold rescaled, working_signal in *. destruct (Z.ltb_spec 0 q).
  - destruct Hq as [Hq [_ [H1 _]]]. replace (q <=? 4) with true by lia.
    eapply bind_eq; [reflexivity|]. eapply bind_eq; [apply aread_all; lia|].
    unfold mret, res_ret. rewrite map_fmap. do 2 f_equal. rewrite <- list_fmap_compose.
    apply (fmap_Forall_ext _ _ _ _ (H1 ltac:(lia))). intros x Hx. unfold compose.
    rewrite Z.shiftl_mul_pow2 by lia. f_equal. apply wrapS_id; [lia|].
    assert (2 ^ q <= 2 ^ 4) by (apply Z.pow_le_mono_r; lia). assert (0 < 2 ^ q) by lia.
    cint_unfold. nia.
  - unfold mret, res_ret. do 2 f_equal. symmetry. apply list_fmap_id.
Qed.

Lemma rescaled_near q x : inS 16 x -> q <= 4 -> x < 32760 -> Z.abs (rescaled q x - x) <= 8.
Proof.
  intros Hx Hq Hx'. unfold rescaled. destruct (Z.ltb_spec 0 q); [|lia].
  assert (q = 1 \/ q = 2 \/ q = 3 \/ q = 4) as Hc by lia. unfold scaled.
  destruct Hc as [->|[->|[->| ->]]]; cbn [Z.sub Z.add Z.opp Z.pos_sub Pos.pred_double];
    cint_unfold; rewrite wrapS_id by (cint_unfold; dlia); dlia.
Qed.

Lemma rescaled_flips x : 32760 <= x <= 32767 -> rescaled 4 x = -32768.
Proof.
  intros. unfold rescaled, scaled. cbn [Z.ltb Z.compare]. change (2 ^ 4) with 16.
  change (2 ^ (4 - 1)) with 8. replace ((x + 8) / 16) with 2048 by dlia. reflexivity.
Qed.
End Scaling.

(** * Reflection coefficients *)

(** A coefficient that the later stages can negate and multiply: not -32768. *)
Definition refl (r : Z) : Prop := -32767 <= r <= 32767.

Section Reflection.
Context (dm : data_model).
Implicit Types (P K : list Z) (r : Z).

Lemma gsm_div_ok num denum :
  0 <= num <= denum -> denum <= 32767 -> okp (gsm_div dm num denum) (fun q => 0 <= q <= 32767).
Proof.
  intros H1 H2. destruct (decide (denum = 0)) as [->|].
  { assert (num = 0) as -> by lia. cbn. lia. }
  rewrite gsm_div_spec by clia. cbn. unfold div15.
  assert (0 <= num * 32768 / denum) by (apply Z.div_pos; lia). lia.
Qed.

Lemma warr_insert n (a : list Z) (i : nat) v : warr n a -> inS 16 v -> warr n (<[i := v]> a).
Proof. intros [Hl Ha] Hv. split; [now rewrite length_insert|]. now apply Forall_insert. Qed.

Lemma schur_fold_ok r l PK : Forall (fun m => (m < 8)%nat) l ->
  warr 9 PK.1 -> warr 9 PK.2 ->
  okp (mfold (schur_step dm r) l PK) (fun PK => warr 9 PK.1 /\ warr 9 PK.2).
Proof.
  intros Hl HP HK.
  destruct (mfold_total (fun PK => warr 9 PK.1 /\ warr 9 PK.2) (schur_step dm r) (schur_pair dm r) l PK)
    as [-> H]; [auto| |exact H].
  revert Hl. apply Forall_impl. intros m Hm [P K] [HP' HK']. cbn [fst snd] in *.
  split; [apply schur_step_total; [destruct HP'|destruct HK'|]; lia|].
  cbn [schur_pair fst snd]. split; apply warr_insert; auto; apply wrapS_range; lia.
Qed.

Lemma schur_ok k : forall P K, (k <= 8)%nat -> warr 9 P -> warr 9 K ->
  okp (schur dm k P K) (fun rs => length rs = k /\ Forall refl rs).
Proof.
  induction k as [|k IH]; intros P K Hk HP HK; cbn [schur]; [split; [reflexivity|constructor]|].
  pose proof (warr_total 9 P 0 HP) as H0. pose proof (warr_total 9 P 1 HP) as H1.
  rewrite !aget_total by (destruct HP; lia). cbn [mbind res_bind].
  change (Z.to_nat 0) with 0%nat. change (Z.to_nat 1) with 1%nat.
  rewrite GSM_ABS_sat, (wrapS_id 16 (sat16 _)) by (auto using sat16_range; lia).
  assert (0 <= sat16 (Z.abs (P !!! 1%nat))) by (unfold sat16; lia).
  destruct (Z.ltb_spec (P !!! 0%nat) (sat16 (Z.abs (P !!! 1%nat)))).
  { cbn. rewrite length_replicate. split; [reflexivity|].
    apply (Forall_replicate refl (S k)). unfold refl. lia. }
  eapply okp_bind; [apply gsm_div_ok; clia|]. intros q Hq. cbv beta in Hq.
  replace (0 <=? q) with true by lia. cbn [c_assert mbind res_bind].
  set (r := if 0 <? P !!! 1%nat then _ else q).
  assert (refl r) as Hr.
  { unfold r, refl. destruct (Z.ltb_spec 0 (P !!! 1%nat)); [rewrite wrapS_id by clia|]; lia. }
  replace (negb (r =? MIN_WORD)) with true by (unfold MIN_WORD, refl in *; lia).
  cbn [c_assert mbind res_bind].
  destruct k as [|k]; [split; [reflexivity|constructor; [exact Hr|constructor]]|].
  eapply okp_bind; [apply (okp_aset 9); [exact HP|lia|apply wrapS_range; lia|intros P' HP' _; exact HP']|].
  intros P' HP'.
  eapply okp_bind; [apply (schur_fold_ok r); [|exact HP'|exact HK]|].
  { apply Forall_forall. intros m Hm. apply list_elem_of_In, elem_of_seq in Hm. lia. }
  intros [P2 K2] [HP2 HK2]. cbn [fst snd] in *.
  eapply okp_bind; [apply IH; [lia|assumption..]|]. intros rs [Hl Hrs].
  split; [cbn; congruence|constructor; assumption].
Qed.

(** Normalising the energy normalises every lag: "? overflow ?" in the source is a no. *)
Lemma Reflection_coefficients_ok (L : list Z) :
  length L = 9%nat -> 0 <= L !!! 0%nat -> inS 32 (L !!! 0%nat) ->
  Forall (fun x => Z.abs x <= L !!! 0%nat) L ->
  okp (Reflection_coefficients dm L) (fun rs => length rs = 8%nat /\ Forall refl rs).
Proof.
  intros Hl H0 Hs Ha. unfold Reflection_coefficients.
  rewrite aget_total by lia. cbn [mbind res_bind]. change (Z.to_nat 0) with 0%nat.
  destruct (Z.eqb_spec (L !!! 0%nat) 0) as [E|Hne].
  { cbn [okp mret res_ret]. split; [reflexivity|]. apply (Forall_replicate refl 8). unfold refl. lia. }
  cbn [negb c_assert mbind res_bind]. eapply okp_bind; [apply gsm_norm_spec; assumption|].
  intros n (Hn & Hp & _). destruct Hp as [Hn' Hp]; [lia|].
  rewrite (wrapS_id 16 n) by clia. replace ((0 <=? n) && (n <? 32)) with true by lia.
  cbn [c_assert mbind res_bind]. rewrite aread_all by lia. cbn [mbind res_bind].
  cbv zeta. apply schur_ok; [lia|..]; (split; [now rewrite length_map, Hl|]);
    apply Forall_fmap, Forall_true; intros; apply wrapS_range; lia.
Qed.

(** The normalised lags themselves are exact. *)
Lemma normalised_lag (L : list Z) n x :
  0 <= n -> L !!! 0%nat * 2 ^ n < 2 ^ 31 -> Z.abs x <= L !!! 0%nat ->
  s16 (SASR (sL dm (x ≪ n)) 16) = x * 2 ^ n / 65536.
Proof.
  intros Hn Hp Hx. rewrite Z.shiftl_mul_pow2 by lia. assert (0 < 2 ^ n) by lia.
  assert (- 2 ^ 31 < x * 2 ^ n < 2 ^ 31) as Hb by nia.
  rewrite sL_id by clia. unfold SASR. rewrite Z.shiftr_div_pow2 by lia. change (2 ^ 16) with 65536.
  generalize dependent (x * 2 ^ n). intros y Hy. apply wrapS_id; [lia|]. cint_unfold. dlia.
Qed.
End Reflection.

(** * Log-area ratios *)

(** The piecewise linear companding of 4.2.6, on the magnitude. *)
Definition lar_curve (t : Z) : Z :=
  if t <? 22118 then t / 2 else if t <? 31130 then t - 11059 else (t - 26112) * 4.
Definition odd_ext (f : Z -> Z) (x : Z) : Z := if x <? 0 then - f (- x) else f x.

Section Lar.
Context (dm : data_model).
Implicit Types (r x : Z).

Lemma lar_curve_range t : 0 <= t <= 32767 -> 0 <= lar_curve t <= 26620.
Proof. unfold lar_curve. intros. zcase; dlia. Qed.

Lemma LAR_step_spec r : refl r -> LAR_step r = Ok (odd_ext lar_curve r).
Proof.
  intros Hr. unfold refl in Hr. unfold LAR_step.
  rewrite GSM_ABS_sat by clia. replace (sat16 (Z.abs r)) with (Z.abs r) by (unfold sat16; lia).
  rewrite (wrapS_id 16 (Z.abs r)) by clia. replace (0 <=? Z.abs r) with true by lia.
  cbn [c_assert mbind res_bind].
  pose proof (lar_curve_range (Z.abs r) ltac:(lia)) as Hc.
  match goal with |- context [if Z.abs r <? 22118 then ?a else ?b] =>
    assert ((if Z.abs r <? 22118 then a else b) = Ok (lar_curve (Z.abs r))) as -> end.
  { unfold lar_curve in *. destruct (Z.ltb_spec (Z.abs r) 22118).
    { rewrite Z.shiftr_div_pow2 by lia. change (2 ^ 1) with 2. rewrite wrapS_id by clia. reflexivity. }
    destruct (Z.ltb_spec (Z.abs r) 31130).
    { replace (11059 <=? Z.abs r) with true by lia. cbn [c_assert mbind res_bind].
      rewrite wrapS_id by clia. reflexivity. }
    replace (26112 <=? Z.abs r) with true by lia. cbn [c_assert mbind res_bind].
    rewrite (wrapS_id 16 (Z.abs r - 26112)), Z.shiftl_mul_pow2 by clia.
    drop_wrap. reflexivity. }
  cbn [mbind res_bind]. unfold odd_ext. unfold MIN_WORD.
  destruct (Z.ltb_spec r 0).
  - rewrite Z.abs_neq in * by lia. rewrite wrapS_id by clia.
    replace (negb (- lar_curve (- r) =? -32768)) with true by lia. reflexivity.
  - rewrite Z.abs_eq in * by lia. rewrite wrapS_id by clia.
    replace (negb (lar_curve r =? -32768)) with true by lia. reflexivity.
Qed.

Lemma LAR_range r : refl r -> -26620 <= odd_ext lar_curve r <= 26620.
Proof.
  unfold refl, odd_ext. intros. destruct (Z.ltb_spec r 0).
  - pose proof (lar_curve_range (- r)). lia.
  - pose proof (lar_curve_range r). lia.
Qed.

Lemma Transformation_spec rs : length rs = 8%nat -> Forall refl rs ->
  Transformation_to_Log_Area_Ratios rs = Ok (odd_ext lar_curve <$> rs).
Proof.
  intros Hl Hr. unfold Transformation_to_Log_Area_Ratios. rewrite aread_all by lia. cbn [mbind res_bind].
  apply mapM_total. revert Hr. apply Forall_impl, LAR_step_spec.
Qed.

(** The decoder's characteristic undoes the encoder's, up to the bit that [>> 1] drops. *)
Lemma LAR_inverse r : refl r ->
  -1 <= LARp_to_rp_step dm (odd_ext lar_curve r) - r <= 1.
Proof.
  intros Hr. pose proof (LAR_range r Hr) as Hl. unfold refl in Hr.
  assert (forall t, 0 <= t <= 32767 -> -1 <= LARp_expand dm (lar_curve t) - t <= 0 /\
    0 <= LARp_expand dm (lar_curve t) <= 32767) as He.
  { intros t Ht. pose proof (lar_curve_range t Ht). unfold LARp_expand.
    rewrite GSM_ADD_word, Z.shiftl_mul_pow2, Z.shiftr_div_pow2
      by first [lia|clia|apply SASR_word; clia].
    change (2 ^ 1) with 2. change (2 ^ 2) with 4. unfold lar_curve in *. unfold sat16. zcase; dlia. }
  unfold LARp_to_rp_step, odd_ext, MIN_WORD in *. destruct (Z.ltb_spec r 0).
  - specialize (He (- r) ltac:(lia)). pose proof (lar_curve_range (- r) ltac:(lia)).
    destruct (Z.ltb_spec (- lar_curve (- r)) 0).
    + replace (- lar_curve (- r) =? -32768) with false by lia.
      rewrite Z.opp_involutive, (wrapS_id 16 (lar_curve (- r))) by clia.
      rewrite wrapS_id by clia. lia.
    + assert (lar_curve (- r) = 0) as E by lia. rewrite E in *.
      change (LARp_expand dm (- 0)) with 0. change (LARp_expand dm 0) with 0 in He.
      change (s16 0) with 0. lia.
  - specialize (He r ltac:(lia)). pose proof (lar_curve_range r ltac:(lia)).
    replace (lar_curve r <? 0) with false by lia. rewrite wrapS_id by clia. lia.
Qed.
End Lar.

(** * Quantisation *)

(** The bits that carry each coded ratio. *)
Definition lar_widths : list Z := [6; 6; 5; 5; 4; 4; 3; 3].
Definition lar_codes (LARc : list Z) : Prop := Forall2 (fun w c => 0 <= c < 2 ^ w) lar_widths LARc.
#[global] Instance lar_codes_dec LARc : Decision (lar_codes LARc).
Proof. unfold lar_codes. apply _. Defined.

(** The level of a ratio before clipping. *)
Definition lar_level (A B LAR : Z) : Z := (A * LAR / 32768 + B + 256) / 512.
Definition lar_unclipped (LAR : list Z) : Prop :=
  Forall2 (fun '(A, B, MAC, MIC) x => MIC <= lar_level A B x <= MAC) LAR_code_steps LAR.
#[global] Instance lar_unclipped_dec LAR : Decision (lar_unclipped LAR).
Proof.
  unfold lar_unclipped. apply Forall2_dec. intros [[[A B] MAC] MIC] x. apply _.
Defined.

(** Half a quantisation step plus the rounding of the fixed-point products. *)
Definition lar_tolerance : list Z := [413; 413; 413; 413; 605; 550; 989; 934].

Section Quantisation.
Context (dm : data_model).
Implicit Types (LAR : list Z) (x A B MAC MIC : Z).

Lemma LAR_code_exact A B MAC MIC x :
  0 <= A <= 20480 -> -2560 <= B <= 2048 -> -32 <= MIC <= MAC -> MAC <= 31 -> -26620 <= x <= 26620 ->
  LAR_code_step dm A B MAC MIC x = Z.max MIC (Z.min MAC (lar_level A B x)) - MIC.
Proof.
  intros HA HB HM HM' Hx. unfold LAR_code_step, lar_level.
  rewrite GSM_MULT_spec by clia. assert (-545177600 <= A * x <= 545177600) by nia.
  generalize dependent (A * x). intros p Hp.
  assert (-16638 <= p / 32768 <= 16638) by dlia. set (t := p / 32768) in *.
  rewrite (wrapS_id 16 t), (word_add dm t B), (sat16_id (t + B)) by clia.
  rewrite word_add, sat16_id by clia.
  unfold SASR. rewrite Z.shiftr_div_pow2 by lia. change (2 ^ 9) with 512.
  assert (-64 <= (t + B + 256) / 512 <= 64) by dlia. rewrite (wrapS_id 16 (_ / 512)) by clia.
  zcase; rewrite wrapS_id by clia; lia.
Qed.

Lemma LAR_decode_exact B MIC INVA c :
  -2560 <= B <= 2048 -> -32768 <= 1024 * (c + MIC) - 2 * B <= 32767 -> 0 <= INVA <= 32767 ->
  -32 <= MIC <= 0 -> 0 <= c <= 63 -> -32 <= c + MIC <= 31 -> 
  -16384 <= mult_r INVA (1024 * (c + MIC) - 2 * B) <= 16383 ->
  LAR_decode_step dm B MIC INVA c = 2 * mult_r INVA (1024 * (c + MIC) - 2 * B).
Proof.
  intros HB Ht HI HM Hc Hs Hm. unfold LAR_decode_step.
  rewrite (GSM_ADD_word dm c MIC), (sat16_id (c + MIC)), !Z.shiftl_mul_pow2 by clia.
  change (2 ^ 10) with 1024. change (2 ^ 1) with 2. rewrite (sL_id dm ((c + MIC) * 1024)), (wrapS_id 16 (_ * 1024)) by clia.
  rewrite (word_sub dm ((c + MIC) * 1024) (B * 2)) by clia.
  replace ((c + MIC) * 1024 - B * 2) with (1024 * (c + MIC) - 2 * B) by lia.
  rewrite (sat16_id (1024 * _ - _)) by clia. set (y := 1024 * (c + MIC) - 2 * B) in *.
  rewrite (word_mult_r dm INVA y) by clia. rewrite word_add, sat16_id by clia. lia.
Qed.

(** One ratio through the coder and the decoder. *)
Lemma LAR_step_error A B MAC MIC INVA E x :
  In (A, B, MAC, MIC, INVA, E)
    [(20480, 0, 31, -32, 13107, 413); (20480, 2048, 15, -16, 13107, 413);
     (20480, -2560, 15, -16, 13107, 413); (13964, 94, 7, -8, 19223, 605);
     (15360, -1792, 7, -8, 17476, 550); (8534, -341, 3, -4, 31454, 989);
     (9036, -1144, 3, -4, 29708, 934)] ->
  -26620 <= x <= 26620 -> MIC <= lar_level A B x <= MAC ->
  - E <= LAR_decode_step dm B MIC INVA (LAR_code_step dm A B MAC MIC x) - x <= E.
Proof.
  intros Hin Hx Hl. cbn [In] in Hin.
  do 7 (destruct Hin as [Hin|Hin]; [injection Hin as <- <- <- <- <- <-;
    rewrite LAR_code_exact by lia;
    rewrite Z.min_r, Z.max_r by lia;
    unfold lar_level in *;
    rewrite LAR_decode_exact by (first [lia|unfold mult_r; dlia]); unfold mult_r; dlia|]).
  contradiction.
Qed.

Lemma Quantization_codes LAR : length LAR = 8%nat -> lar_codes (coded_ratios dm LAR).
Proof.
  intros Hl. do 8 (destruct LAR as [|? LAR]; [discriminate|]). destruct LAR; [|discriminate].
  unfold lar_codes, coded_ratios, LAR_code_steps, lar_widths. cbn [zip_with].
  repeat constructor; unfold LAR_code_step; cbv zeta;
    match goal with |- context [s16 (if _ <? ?t then _ else _)] =>
      generalize t; intros end; zcase; rewrite wrapS_id by clia; clia.
Qed.

Lemma lag_0 (f : nat -> Z) : (f <$> seq 0 9) !!! 0%nat = f 0%nat.
Proof. reflexivity. Qed.

Lemma LPC_steps s s' L rs LAR LARc :
  Autocorrelation dm s = Ok (s', L) -> Reflection_coefficients dm L = Ok rs ->
  Transformation_to_Log_Area_Ratios rs = Ok LAR -> Quantization_and_coding dm LAR = Ok LARc ->
  Gsm_LPC_Analysis dm s = Ok (s', LARc).
Proof.
  unfold Gsm_LPC_Analysis. intros ->. cbn. intros ->. cbn. intros ->. cbn [mbind res_bind].
  intros ->. reflexivity.
Qed.

Lemma Gsm_LPC_Analysis_ok s : warr 160 s ->
  exists q LARc, scalauto_of s q /\ Gsm_LPC_Analysis dm s = Ok (rescaled q <$> s, LARc) /\
    warr 160 (rescaled q <$> s) /\ lar_codes LARc.
Proof.
  intros [Hl Hs]. destruct (Autocorrelation_spec dm s (conj Hl Hs)) as (q & Hq & E).
  pose proof (working_signal_bound q s Hq) as Hw. set (w := working_signal q s) in *.
  pose proof (Reflection_coefficients_ok dm ((fun k => 2 * acf w 160 k) <$> seq 0 9)) as Hr.
  pose proof (acf_bound w Hw 160 0) as Hb. change (Z.of_nat 160) with 160 in Hb.
  pose proof (acf_max w 160 0) as Hp.
  rewrite lag_0 in Hr.
  apply okp_ok in Hr; [|reflexivity|lia|clia|].
  2: { apply Forall_fmap, Forall_true. intros k. unfold compose. cbv beta.
     pose proof (acf_max w 160 k). lia. }
  destruct Hr as (rs & Er & Hlen & Hrs).
  exists q, (coded_ratios dm (odd_ext lar_curve <$> rs)). split; [exact Hq|].
  split; [exact (LPC_steps _ _ _ _ _ _ E Er (Transformation_spec rs Hlen Hrs)
    (Quantization_total dm (odd_ext lar_curve <$> rs) ltac:(now rewrite length_fmap)))|]. split.
  - split; [now rewrite length_fmap|]. apply Forall_fmap. revert Hs. apply Forall_impl. intros x Hx.
    unfold compose, rescaled. destruct (0 <? q); [apply wrapS_range; lia|exact Hx].
  - apply Quantization_codes. now rewrite length_fmap.
Qed.
End Quantisation.

(** C37: LPC analysis of any 160 words fails no assert, yields eight codes within the widths
    6,6,5,5,4,4,3,3 of the frame, and leaves in the signal buffer words within 8 of the input
    for every sample below 32760. *)
Theorem lpc_analysis_total (dm : data_model) (s : list Z) :
  warr 160 s ->
  exists s' LARc, Gsm_LPC_Analysis dm s = Ok (s', LARc) /\ warr 160 s' /\ lar_codes LARc /\
    forall i : nat, (i < 160)%nat -> s !!! i < 32760 -> Z.abs (s' !!! i - s !!! i) <= 8.
Proof.
  intros Hs. destruct (Gsm_LPC_Analysis_ok dm s Hs) as (q & LARc & [Hq _] & E & Hw & Hc).
  exists (rescaled q <$> s), LARc. split; [exact E|]. split; [exact Hw|]. split; [exact Hc|].
  intros i Hi Hv. destruct Hs as [Hl Hs]. assert (i < length s)%nat as Hi' by lia.
  rewrite fmap_total by exact Hi'. apply rescaled_near; [|exact Hq|exact Hv].
  apply (warr_total 160). split; assumption.
Qed.

Lemma lpc_analysis_total_witness :
  let s := (fun k => (k * 7919) mod 40000 - 20000) <$> seqZ 0 160 in
  exists s' LARc, Gsm_LPC_Analysis LP64 s = Ok (s', LARc) /\ warr 160 s' /\ lar_codes LARc /\
    forall i : nat, (i < 160)%nat -> s !!! i < 32760 -> Z.abs (s' !!! i - s !!! i) <= 8.
Proof. intros s. apply (lpc_analysis_total LP64 s). by_eval. Defined.

(** The unrolled accumulation computes the exact autocorrelation of a signal scaled to 12
    bits; no lag exceeds the energy, which stays below 2^31, so the normalising shift that the
    source marks "? overflow ?" does not overflow. *)
Theorem autocorrelation_exact (dm : data_model) (s : list Z) :
  warr 160 s ->
  exists s' w, Autocorrelation dm s = Ok (s', (fun k => 2 * acf w 160 k) <$> seq 0 9) /\
    (forall i : nat, -2048 <= w !!! i <= 2048) /\
    (forall k, Z.abs (2 * acf w 160 k) <= 2 * acf w 160 0 < 2 ^ 31) /\
    (forall n k, gsm_norm (2 * acf w 160 0) = Ok n -> acf w 160 0 <> 0 ->
       s16 (SASR (sL dm ((2 * acf w 160 k) ≪ n)) 16) = (2 * acf w 160 k) * 2 ^ n / 65536).
Proof.
  intros Hs. destruct (Autocorrelation_spec dm s Hs) as (q & Hq & E).
  pose proof (working_signal_bound q s Hq) as Hw.
  exists (rescaled q <$> s), (working_signal q s). set (w := working_signal q s) in *.
  pose proof (acf_bound w Hw 160 0) as Hb. change (Z.of_nat 160) with 160 in Hb.
  pose proof (acf_max w 160) as Hmax. split; [exact E|]. split; [exact Hw|].
  split; [intros k; specialize (Hmax k); lia|]. intros n k En Hne. pose proof (Hmax 0%nat).
  pose proof (gsm_norm_spec (2 * acf w 160 0) ltac:(clia) ltac:(lia)) as Hn. rewrite En in Hn.
  destruct Hn as (Hn & Hp & _). specialize (Hmax k). destruct Hp as [_ Hp]; [lia|].
  clear Hw E En Hq. generalize dependent (acf w 160 k). generalize dependent (acf w 160 0).
  intros e Hb' Hne' He Hp x Hx.
  apply (normalised_lag dm [2 * e]); change ([2 * e] !!! 0%nat) with (2 * e); lia.
Qed.

Lemma autocorrelation_exact_witness :
  let s := (fun k => (k * 7919) mod 40000 - 20000) <$> seqZ 0 160 in
  exists s' w, Autocorrelation LP64 s = Ok (s', (fun k => 2 * acf w 160 k) <$> seq 0 9) /\
    (forall i : nat, -2048 <= w !!! i <= 2048) /\
    (forall k, Z.abs (2 * acf w 160 k) <= 2 * acf w 160 0 < 2 ^ 31) /\
    (forall n k, gsm_norm (2 * acf w 160 0) = Ok n -> acf w 160 0 <> 0 ->
       s16 (SASR (sL LP64 ((2 * acf w 160 k) ≪ n)) 16) = (2 * acf w 160 k) * 2 ^ n / 65536).
Proof. intros s. apply (autocorrelation_exact LP64 s). by_eval. Defined.

(** Transformation_to_Log_Area_Ratios maps every coefficient other than -32768 to a ratio
    within +-1.625 (26620/16384) without failing an assert, and the decoder's LARp_to_rp maps it
    back to within one unit. *)
Theorem lar_companding_inverse (dm : data_model) (r : list Z) :
  length r = 8%nat -> Forall refl r ->
  exists LAR rp, Transformation_to_Log_Area_Ratios r = Ok LAR /\ LARp_to_rp dm LAR = Ok rp /\
    Forall (fun x => -26620 <= x <= 26620) LAR /\
    Forall2 (fun x y => Z.abs (y - x) <= 1) r rp.
Proof.
  intros Hl Hr. exists (odd_ext lar_curve <$> r), (reflections dm (odd_ext lar_curve <$> r)).
  split; [apply Transformation_spec; assumption|].
  split; [apply LARp_to_rp_total; now rewrite length_fmap|].
  split; [apply Forall_fmap; revert Hr; apply Forall_impl, LAR_range|].
  unfold reflections. rewrite map_fmap, <- list_fmap_compose, Forall2_fmap_r. apply Forall_Forall2_diag.
  revert Hr. apply Forall_impl. intros x Hx. pose proof (LAR_inverse dm x Hx). unfold compose. lia.
Qed.

Lemma lar_companding_inverse_witness :
  let r := [-32767; 30000; 17; -22119; 0; 1; 31130; -5] in
  exists LAR rp, Transformation_to_Log_Area_Ratios r = Ok LAR /\ LARp_to_rp ILP32 LAR = Ok rp /\
    Forall (fun x => -26620 <= x <= 26620) LAR /\
    Forall2 (fun x y => Z.abs (y - x) <= 1) r rp.
Proof.
  apply (lar_companding_inverse ILP32 [-32767; 30000; 17; -22119; 0; 1; 31130; -5]); [reflexivity|].
  repeat constructor; vm_compute; intuition discriminate.
Defined.

(** Decoding a coded log-area ratio that was not clipped gives the ratio back to within half
    a quantisation step (413, 413, 413, 413, 605, 550, 989 and 934 units). *)
Theorem lar_quantization_error (dm : data_model) (LAR : list Z) :
  Forall (fun x => -26620 <= x <= 26620) LAR -> lar_unclipped LAR ->
  exists LARc LAR', Quantization_and_coding dm LAR = Ok LARc /\
    Decoding_of_the_coded_Log_Area_Ratios dm LARc = Ok LAR' /\
    Forall3 (fun E x y => Z.abs (y - x) <= E) lar_tolerance LAR LAR'.
Proof.
  intros Hr Hu. pose proof Hu as Hl. apply Forall2_length in Hl. cbn [length LAR_code_steps] in Hl.
  exists (coded_ratios dm LAR), (decoded_ratios dm (coded_ratios dm LAR)).
  split; [apply Quantization_total; lia|].
  split; [apply Decoding_total; unfold coded_ratios; rewrite length_zip_with_l_eq; [reflexivity|exact Hl]|].
  do 8 (destruct LAR as [|? LAR]; [discriminate|]). destruct LAR; [|discriminate].
  unfold lar_unclipped, LAR_code_steps in Hu.
  repeat match goal with H : Forall2 _ (_ :: _) (_ :: _) |- _ => inversion_clear H end.
  repeat match goal with H : Forall _ (_ :: _) |- _ =>
    pose proof (Forall_inv H); apply Forall_inv_tail in H end.
  unfold lar_tolerance, coded_ratios, decoded_ratios,
    LAR_code_steps, LAR_decode_steps. cbn [zip_with].
  do 8 (constructor; [apply Z.abs_le; eapply LAR_step_error; [cbn [In]; tauto|assumption|assumption]|]).
  constructor.
Qed.

Lemma lar_quantization_error_witness :
  let LAR := [10000; -20000; 5000; 9000; 700; -800; 900; 1000] in
  exists LARc LAR', Quantization_and_coding LP64 LAR = Ok LARc /\
    Decoding_of_the_coded_Log_Area_Ratios LP64 LARc = Ok LAR' /\
    Forall3 (fun E x y => Z.abs (y - x) <= E) lar_tolerance LAR LAR'.
Proof.
  apply (lar_quantization_error LP64 [10000; -20000; 5000; 9000; 700; -800; 900; 1000]); by_eval.
Defined.

(** A sample of 32760 or more comes out of Autocorrelation as -32768: it is scaled to 2048
    and the shift back by 4 leaves the 16-bit range. *)
Theorem autocorrelation_flips_full_scale (dm : data_model) (s : list Z) (i : nat) :
  warr 160 s -> (i < 160)%nat -> 32760 <= s !!! i ->
  exists s' L_ACF, Autocorrelation dm s = Ok (s', L_ACF) /\ s' !!! i = -32768.
Proof.
  intros [Hl Hs] Hi Hv. destruct (Autocorrelation_spec dm s (conj Hl Hs)) as (q & (_ & _ & _ & H4) & E).
  rewrite E. eexists _, _. split; [reflexivity|].
  assert (s !! i = Some (s !!! i)) as Hx by (apply list_lookup_lookup_total_lt; lia).
  rewrite fmap_total by lia. pose proof (Forall_lookup_1 _ _ _ _ Hs Hx).
  rewrite H4; [apply rescaled_flips; clia|].
  apply List.Exists_exists. exists (s !!! i). split; [|lia].
  apply list_elem_of_In. eapply list_elem_of_lookup_2, Hx.
Qed.

Lemma autocorrelation_flips_full_scale_witness :
  exists s' L_ACF, Autocorrelation LP64 (32761 :: replicate 159 100) = Ok (s', L_ACF) /\
    s' !!! 0%nat = -32768.
Proof.
  apply (autocorrelation_flips_full_scale LP64 (32761 :: replicate 159 100) 0); [by_eval|lia|cbn; lia].
Defined.
