(* ===== verification/GsmCodec.v ===== *)
(** The GSM 06.10 coder and decoder of one frame (src/mibench/telecomm/gsm/src/code.c,
    decode.c, gsm_create.c, gsm_option.c and [struct gsm_state] of inc/private.h).

    The coder rebuilds, sub-segment by sub-segment, the residual that the decoder will have;
    the central theorem is that the two histories, the log-area ratio buffers and [j] never
    drift apart. *)
From stdpp Require Import base list numbers option tactics.
From Stdlib Require Import ZArith Lia.
From S2P Require Import Prelude GsmAdd GsmTable GsmRpe GsmLtp GsmStp GsmPreprocess GsmLpc.

(** [struct gsm_state]; [z1], [L_z2] and [mp] are grouped in [pre]. *)
Record gsm_state := GsmState {
  dp0 : list Z;
  pre : pre_state;
  u : list Z;
  LARpp0 : list Z;
  LARpp1 : list Z;
  j : Z;
  nrp : Z;
  v : list Z;
  msr : Z;
  verbose : Z;
  fast : Z
}.

(** gsm_create.c: [memset] to 0, then [nrp = 40]. *)
Definition gsm_create : gsm_state :=
  GsmState (replicate 280 0) (PreState 0 0 0) (replicate 8 0) (replicate 8 0) (replicate 8 0)
    0 40 (replicate 9 0) 0 0 0.

(** gsm_option.c with asserts enabled and without FAST: the result and the new state; [val] is
    the pointed-to value, [None] for a null pointer. *)
Definition gsm_option (r : gsm_state) (opt : Z) (val : option Z) : gsm_state * Z :=
  if opt =? 1 then
    (match val with
     | Some x => GsmState (dp0 r) (pre r) (u r) (LARpp0 r) (LARpp1 r) (j r) (nrp r) (v r) (msr r)
                   (s8 x) (fast r)
     | None => r
     end, verbose r)
  else (r, -1).

(** The parameters of one sub-segment, and the arrays of a frame: [LARc[8]], [Nc[4]], [bc[4]],
    [Mc[4]], [xmaxc[4]], [xmc[52]]. *)
Record subframe := Subframe { sf_Nc : Z; sf_bc : Z; sf_Mc : Z; sf_xmaxc : Z; sf_xMc : list Z }.
Record gsm_params := GsmParams {
  LARc : list Z; Nc : list Z; bc : list Z; Mc : list Z; xmaxc : list Z; xmc : list Z }.

(** The pointers that both loops advance: [Nc++], [bc++], [Mc++], [xmaxc++], [xMc += 13]. *)
Definition params_of (LARc : list Z) (ps : list subframe) : gsm_params :=
  GsmParams LARc (sf_Nc <$> ps) (sf_bc <$> ps) (sf_Mc <$> ps) (sf_xmaxc <$> ps)
    (concat (sf_xMc <$> ps)).
Definition subframe_at (p : gsm_params) (k : nat) : res subframe :=
  N ← aget (Nc p) (Z.of_nat k);
  b ← aget (bc p) (Z.of_nat k);
  M ← aget (Mc p) (Z.of_nat k);
  x ← aget (xmaxc p) (Z.of_nat k);
  xMc ← aread (xmc p) (Z.of_nat (13 * k)) 13;
  mret (Subframe N b M x xMc).

(** The same on arrays of the right lengths. *)
Definition subframe_of (p : gsm_params) (k : nat) : subframe :=
  Subframe (Nc p !!! k) (bc p !!! k) (Mc p !!! k) (xmaxc p !!! k) (take 13 (drop (13 * k) (xmc p))).

Section Codec.
Context (dm : data_model).

(** [dp[ i ] = GSM_ADD( e[5 + i], dpp[i] )] with [dpp == dp]. *)
Definition coder_update_body (o : Z) (e : list Z) (i : Z) (dp0 : list Z) : res (list Z) :=
  x ← aget e (5 + i);
  y ← aget dp0 (o + i);
  aset dp0 (o + i) (s16 (GSM_ADD dm x y)).

(** One iteration of the loop of [Gsm_Coder]: [dp = S->dp0 + 120 + 40 * k]. *)
Definition coder_subframe (so : list Z) (k : nat) (dp0 e : list Z) :
    res (list Z * list Z * subframe) :=
  d ← aread so (Z.of_nat (40 * k)) 40;
  let o := Z.of_nat (120 + 40 * k) in
  '(dp0, e, Nc, bc) ← Gsm_Long_Term_Predictor dm d dp0 o e;
  '(e, xmaxc, Mc, xMc) ← Gsm_RPE_Encoding dm e;
  dp0 ← cfor 40 0 (coder_update_body o e) dp0;
  mret (dp0, e, Subframe Nc bc Mc xmaxc xMc).

Fixpoint coder_loop (n : nat) (so : list Z) (k : nat) (dp0 e : list Z) :
    res (list Z * list Z * list subframe) :=
  match n with
  | O => mret (dp0, e, [])
  | S n =>
      '(dp0, e, p) ← coder_subframe so k dp0 e;
      '(dp0, e, ps) ← coder_loop n so (S k) dp0 e;
      mret (dp0, e, p :: ps)
  end.

(** [e] is the [static word e[50]] of the function: it outlives the call and is shared by all
    codec states, so it is threaded beside the state. *)
Definition Gsm_Coder (S : gsm_state) (e s : list Z) : res (gsm_state * list Z * gsm_params) :=
  '(pre', so) ← Gsm_Preprocess dm (pre S) s;
  '(so, LARc) ← Gsm_LPC_Analysis dm so;
  '(u', L0, L1, j', so) ←
    Gsm_Short_Term_Analysis_Filter dm (u S) (LARpp0 S) (LARpp1 S) (j S) LARc so;
  '(dp, e, ps) ← coder_loop 4 so 0 (dp0 S) e;
  w ← aread dp 160 120;
  dp ← awrite dp 0 w;
  mret (GsmState dp pre' u' L0 L1 j' (nrp S) (v S) (msr S) (verbose S) (fast S), e,
        params_of LARc ps).

(** [for (k = 160; k--; s++)] *)
Fixpoint postprocess (msr : Z) (s : list Z) : Z * list Z :=
  match s with
  | [] => (msr, [])
  | x :: s =>
      let tmp := s16 (GSM_MULT_R dm msr 28180) in
      let msr := s16 (GSM_ADD dm x tmp) in
      let y := s16 (Z.land (GSM_ADD dm msr msr) 0xFFF8) in
      let '(msr, ys) := postprocess msr s in
      (msr, y :: ys)
  end.

Definition Postprocessing (msr : Z) (s : list Z) : res (Z * list Z) :=
  s ← aread s 0 160;
  Ok (postprocess msr s).

(** The loop of [Gsm_Decoder]: the new history, [nrp] and [wt]. *)
Fixpoint decoder_loop (ps : list subframe) (dp0 : list Z) (nrp : Z) :
    res (list Z * Z * list Z) :=
  match ps with
  | [] => mret (dp0, nrp, [])
  | p :: ps =>
      erp ← Gsm_RPE_Decoding dm (sf_xmaxc p) (sf_Mc p) (sf_xMc p);
      '(dp0, nrp) ← Gsm_Long_Term_Synthesis_Filtering dm nrp dp0 (sf_Nc p) (sf_bc p) erp;
      drp ← aread dp0 120 40;
      '(dp0, nrp, wt) ← decoder_loop ps dp0 nrp;
      mret (dp0, nrp, drp ++ wt)
  end.

Definition Gsm_Decoder (S : gsm_state) (p : gsm_params) : res (gsm_state * list Z) :=
  ps ← mapM (subframe_at p) (seq 0 4);
  '(dp, nrp', wt) ← decoder_loop ps (dp0 S) (nrp S);
  '(v', L0, L1, j', s) ←
    Gsm_Short_Term_Synthesis_Filter dm (v S) (LARpp0 S) (LARpp1 S) (j S) (LARc p) wt;
  '(msr', s) ← Postprocessing (msr S) s;
  mret (GsmState dp (pre S) (u S) L0 L1 j' nrp' v' msr' (verbose S) (fast S), s).
End Codec.

(** * The state invariant *)

Definition gsm_inv (S : gsm_state) : Prop :=
  warr 280 (dp0 S) /\ pre_inv (pre S) /\ warr 8 (u S) /\ warr 8 (LARpp0 S) /\ warr 8 (LARpp1 S) /\
  (j S = 0 \/ j S = 1) /\ 40 <= nrp S <= 120 /\ warr 9 (v S) /\ inS 16 (msr S).
#[global] Instance gsm_inv_dec S : Decision (gsm_inv S).
Proof. unfold gsm_inv. apply _. Defined.

(** Parameters that fit the fields of a frame; a lag outside 40..120 is replaced by [nrp]. *)
Definition sub_valid (p : subframe) : Prop :=
  0 <= sf_Nc p <= 127 /\ 0 <= sf_bc p <= 3 /\ 0 <= sf_Mc p <= 3 /\ 0 <= sf_xmaxc p <= 63 /\
  length (sf_xMc p) = 13%nat /\ Forall code3 (sf_xMc p).
#[global] Instance sub_valid_dec p : Decision (sub_valid p).
Proof. unfold sub_valid, code3. apply _. Defined.

Definition params_valid (p : gsm_params) : Prop :=
  lar_codes (LARc p) /\ Forall sub_valid (subframe_of p <$> seq 0 4).
#[global] Instance params_valid_dec p : Decision (params_valid p).
Proof. unfold params_valid. apply _. Defined.

(** The shape of the C arrays. *)
Definition params_shape (p : gsm_params) : Prop :=
  length (LARc p) = 8%nat /\ length (Nc p) = 4%nat /\ length (bc p) = 4%nat /\ length (Mc p) = 4%nat /\
  length (xmaxc p) = 4%nat /\ length (xmc p) = 52%nat.
#[global] Instance params_shape_dec p : Decision (params_shape p).
Proof. unfold params_shape. apply _. Defined.

(** What the two ends share between frames. *)
Definition synced (E D : gsm_state) : Prop :=
  take 120 (dp0 E) = take 120 (dp0 D) /\ LARpp0 E = LARpp0 D /\ LARpp1 E = LARpp1 D /\ j E = j D.
#[global] Instance synced_dec E D : Decision (synced E D).
Proof. unfold synced. apply _. Defined.

Lemma gsm_create_inv : gsm_inv gsm_create.
Proof. by_eval. Qed.

Section Loop.
Context (dm : data_model).
Implicit Types (d e so : list Z) (k : nat).

Lemma store_store a o g h n : (o + n <= length a)%nat -> store (store a o g n) o h n = store a o h n.
Proof.
  intros H. apply list_eq. intros i. rewrite !lookup_store by (rewrite ?length_store by lia; lia).
  destruct (decide _); reflexivity.
Qed.

(** The estimate and the reconstruction only look at the 120 words before [o]. *)
Lemma reconstruct_window a b o br N ep k :
  40 <= N <= 120 -> (k < 40)%nat ->
  (forall i, (i < 120)%nat -> a !!! (o + i)%nat = b !!! i) ->
  ltp_reconstruct dm a (Z.of_nat (120 + o)) br N ep k = ltp_reconstruct dm b 120 br N ep k.
Proof.
  intros HN Hk Hw. unfold ltp_reconstruct, ltp_estimate.
  replace (Z.to_nat (Z.of_nat (120 + o) + (Z.of_nat k - N)))
    with (o + Z.to_nat (120 + (Z.of_nat k - N)))%nat by lia.
  rewrite Hw by lia. reflexivity.
Qed.

Lemma Gsm_Long_Term_Predictor_ok d a (o : nat) e :
  warr 40 d -> warr 280 a -> (120 <= o <= 240)%nat -> warr 50 e ->
  okp (Gsm_Long_Term_Predictor dm d a (Z.of_nat o) e) (fun '(a', e', N, b) =>
    0 <= b <= 3 /\ 40 <= N <= 120 /\ warr 50 e' /\
    a' = store a o (ltp_estimate dm a (Z.of_nat o) (ltp_gain b) N) 40).
Proof.
  intros Hd Ha Ho He. unfold Gsm_Long_Term_Predictor. assert (length d = 40%nat) by (destruct Hd; lia).
  eapply okp_bind; [apply LTP_parameters_ok; [exact Hd|exact Ha|lia]|].
  intros [b N] (Hb & HN & _). rewrite Long_term_analysis_filtering_spec by assumption.
  cbn [mbind res_bind okp mret res_ret]. split; [exact Hb|]. split; [exact HN|].
  split; [|reflexivity].
  apply warr_store; [exact He|destruct He; lia|]. intros. apply wrapS_range. lia.
Qed.

Lemma coder_update_loop (o : nat) e ep a (est : nat -> Z) :
  warr 280 a -> (o <= 240)%nat -> length e = 50%nat -> length ep = 40%nat ->
  cfor 40 0 (coder_update_body dm (Z.of_nat o) (take 5 e ++ ep ++ drop 45 e)) (store a o est 40)
    = Ok (store a o (fun k => s16 (GSM_ADD dm (ep !!! k) (est k))) 40).
Proof.
  intros [Ha _] Ho He Hep. set (g := fun k => s16 (GSM_ADD dm (ep !!! k) (est k))).
  set (a1 := store a o est 40). assert (length a1 = 280%nat) as Hl by (unfold a1; rewrite length_store; lia).
  rewrite <- (store_store a o est g 40) by lia. fold a1.
  rewrite <- (store_0 a1 o g) at 1. apply (cfor_states (store a1 o g)).
  intros k Hk. unfold coder_update_body. rewrite Z.add_0_l.
  assert (aget (take 5 e ++ ep ++ drop 45 e) (5 + Z.of_nat k) = Ok (ep !!! k)) as ->.
  { apply aget_ok. split; [lia|]. rewrite lookup_app_r by (rewrite length_take; lia).
    rewrite length_take, lookup_app_l by lia.
    replace (Z.to_nat (5 + Z.of_nat k) - Nat.min 5 (length e))%nat with k by lia.
    apply list_lookup_lookup_total_lt. lia. }
  cbn [mbind res_bind]. rewrite (aget_store _ _ _ _ _ (est k)); [|lia|lia|lia|].
  - cbn [mbind res_bind]. apply aset_store; [lia|reflexivity].
  - unfold a1. rewrite lookup_store by lia. rewrite decide_True by lia. do 2 f_equal. lia.
Qed.

(** One sub-segment: the coder's history gets exactly the samples that the decoder will
    reconstruct from the coded parameters. *)
Definition subframe_coded so (k : nat) (a : list Z) (r : list Z * list Z * subframe) : Prop :=
  let '(a', e', p) := r in
  sub_valid p /\ 40 <= sf_Nc p <= 120 /\ warr 50 e' /\
  exists ep, warr 40 ep /\ Gsm_RPE_Decoding dm (sf_xmaxc p) (sf_Mc p) (sf_xMc p) = Ok ep /\
    a' = store a (120 + 40 * k)
           (ltp_reconstruct dm a (Z.of_nat (120 + 40 * k)) (ltp_gain (sf_bc p)) (sf_Nc p) ep) 40.

Lemma coder_subframe_ok so k a e :
  warr 160 so -> (k <= 3)%nat -> warr 280 a -> warr 50 e ->
  okp (coder_subframe dm so k a e) (subframe_coded so k a).
Proof.
  intros [Hsl Hsw] Hk Ha He. unfold coder_subframe.
  eapply okp_bind_eq; [apply aread_ok; lia|]. rewrite Nat2Z.id. change (Z.to_nat 40) with 40%nat.
  eapply okp_bind; [apply Gsm_Long_Term_Predictor_ok; try assumption; [|lia]|].
  { split; [rewrite length_take, length_drop; lia|]. now apply Forall_take, Forall_drop. }
  intros [[[a1 e1] N] b] (Hb & HN & [He1 He1w] & ->).
  eapply okp_bind; [apply Gsm_RPE_Encoding_ok; split; assumption|].
  intros [[[e2 xm] M] xMc] ((Hx & HM & Hl & Hc) & ep & -> & Hep & Hdec). pose proof Hep as [Hepl Hepw].
  rewrite coder_update_loop by (assumption || lia). cbn [mbind res_bind okp mret res_ret].
  unfold subframe_coded, sub_valid. cbn [sf_Nc sf_bc sf_Mc sf_xmaxc sf_xMc].
  split; [repeat split; lia || assumption|]. split; [exact HN|]. split.
  - split; [rewrite !length_app, length_take, length_drop; lia|].
    apply Forall_app_2; [now apply Forall_take|]. apply Forall_app_2; [exact Hepw|now apply Forall_drop].
  - exists ep. split; [exact Hep|]. split; [exact Hdec|]. unfold ltp_reconstruct. reflexivity.
Qed.
End Loop.

Section Slices.
Implicit Types (a b : list Z) (o n m i : nat) (g : nat -> Z).

Lemma store_slice a o g n : (o + n <= length a)%nat -> take n (drop o (store a o g n)) = g <$> seq 0 n.
Proof.
  intros H. unfold store. rewrite drop_app_length' by (rewrite length_take; lia).
  apply take_app_length'. now rewrite length_fmap, length_seq.
Qed.

Lemma total_store_out a o g n i : (o + n <= length a)%nat -> (i < o \/ o + n <= i)%nat ->
  store a o g n !!! i = a !!! i.
Proof.
  intros H Hi. rewrite !list_lookup_total_alt, lookup_store by lia.
  rewrite decide_False by lia. reflexivity.
Qed.

Lemma total_store_in a o g n i : (o + n <= length a)%nat -> (i < n)%nat -> store a o g n !!! (o + i)%nat = g i.
Proof.
  intros H Hi. rewrite list_lookup_total_alt, lookup_store by lia.
  rewrite decide_True by lia. cbn. f_equal. lia.
Qed.

Lemma slice_eq a b o n : length a = length b ->
  (forall i, (o <= i < o + n)%nat -> a !!! i = b !!! i) -> take n (drop o a) = take n (drop o b).
Proof.
  intros Hl H. apply list_eq. intros i. destruct (decide (i < n)%nat).
  - rewrite !lookup_take_lt, !lookup_drop by lia. specialize (H (o + i)%nat ltac:(lia)).
    destruct (decide (o + i < length a)%nat).
    + rewrite !list_lookup_lookup_total_lt by lia. now f_equal.
    + rewrite !lookup_ge_None_2 by lia. reflexivity.
  - rewrite !lookup_ge_None_2 by (rewrite length_take; lia). reflexivity.
Qed.

Lemma slice_split a o n m : take (n + m) (drop o a) = take n (drop o a) ++ take m (drop (o + n) a).
Proof. rewrite <- (take_drop n (drop o a)) at 1. rewrite drop_drop.
  rewrite take_app, (take_ge (take n (drop o a))) by (rewrite length_take; lia).
  destruct (decide (n <= length (drop o a))%nat).
  - rewrite length_take, Nat.min_l by lia. do 2 f_equal; lia.
  - rewrite (drop_ge a (o + n)) by (rewrite length_drop in *; lia). now rewrite !take_nil.
Qed.
End Slices.

Section Sync.
Context (dm : data_model).
Implicit Types (a b e so wt : list Z) (k n : nat) (p : subframe) (ps : list subframe).

(** One sub-segment of the decoder. *)
Lemma decoder_step_ok p a nr erp :
  sub_valid p -> warr 280 a -> 40 <= nr <= 120 -> warr 40 erp ->
  Gsm_RPE_Decoding dm (sf_xmaxc p) (sf_Mc p) (sf_xMc p) = Ok erp ->
  let Nr := if (sf_Nc p <? 40) || (120 <? sf_Nc p) then nr else sf_Nc p in
  let rec_ := ltp_reconstruct dm a 120 (ltp_gain (sf_bc p)) Nr erp in
  exists a', warr 280 a' /\ 40 <= Nr <= 120 /\
    (forall i, (i < 80)%nat -> a' !!! i = a !!! (40 + i)%nat) /\
    (forall i, (i < 40)%nat -> a' !!! (80 + i)%nat = rec_ i) /\
    forall ps, decoder_loop dm (p :: ps) a nr =
      ('(a2, n2, wt) ← decoder_loop dm ps a' Nr; mret (a2, n2, (rec_ <$> seq 0 40) ++ wt)).
Proof.
  intros (_ & Hb & _) Ha Hn Herp Edec Nr rec_.
  assert (40 <= Nr <= 120) as HNr.
  { unfold Nr. destruct (Z.ltb_spec (sf_Nc p) 40), (Z.ltb_spec 120 (sf_Nc p)); cbn [orb]; lia. }
  assert (warr 280 (store a 120 rec_ 40)) as Ha1.
  { apply warr_store; [exact Ha|destruct Ha; lia|]. intros. apply wrapS_range. lia. }
  set (a1 := store a 120 rec_ 40) in *. pose proof Ha as [Hal _]. pose proof Ha1 as [Ha1l _].
  set (g := fun k => a1 !!! (40 + k)%nat). exists (store a1 0 g 120).
  split; [apply warr_store; [exact Ha1|lia|intros; apply (warr_total 280), Ha1]|].
  split; [exact HNr|].
  assert (forall i, (i < 120)%nat -> store a1 0 g 120 !!! i = a1 !!! (40 + i)%nat) as Hg.
  { intros i Hi. apply (total_store_in a1 0 g 120 i); lia. }
  split; [|split].
  - intros i Hi. rewrite Hg by lia. apply total_store_out; lia.
  - intros i Hi. rewrite Hg by lia. replace (40 + (80 + i))%nat with (120 + i)%nat by lia.
    apply total_store_in; lia.
  - intros ps. cbn [decoder_loop]. rewrite Edec. cbn [mbind res_bind].
    rewrite Gsm_Long_Term_Synthesis_Filtering_spec by (assumption || (destruct Herp; lia)). fold Nr. fold rec_.
    fold a1. fold g. cbn [mbind res_bind].
    eapply bind_eq; [apply aread_ok; rewrite ?length_store; lia|].
    change (Z.to_nat 40) with 40%nat. change (Z.to_nat 120) with 120%nat.
    assert (take 40 (drop 120 (store a1 0 g 120)) = rec_ <$> seq 0 40) as ->; [|reflexivity].
    transitivity (take 40 (drop 120 a1)); [|apply store_slice; lia].
    apply slice_eq; [rewrite length_store; lia|]. intros i Hi. apply total_store_out; lia.
Qed.

Lemma decoder_loop_ok ps : forall a nr,
  Forall sub_valid ps -> warr 280 a -> 40 <= nr <= 120 ->
  okp (decoder_loop dm ps a nr) (fun '(a', nr', wt) =>
    warr 280 a' /\ 40 <= nr' <= 120 /\ warr (40 * Z.of_nat (length ps)) wt).
Proof.
  induction ps as [|p ps IH]; intros a nr Hps Ha Hn.
  { split; [exact Ha|]. split; [exact Hn|]. split; [reflexivity|constructor]. }
  pose proof (Forall_inv Hps) as Hp. pose proof Hp as (_ & _ & HM & Hx & Hl & Hc).
  pose proof (Gsm_RPE_Decoding_ok dm (sf_xmaxc p) (sf_Mc p) (sf_xMc p)) as Hd.
  apply okp_ok in Hd; [|repeat split; lia || assumption]. destruct Hd as (erp & Edec & Herp).
  destruct (decoder_step_ok p a nr erp Hp Ha Hn Herp Edec) as (a' & Ha' & HNr & _ & _ & E).
  rewrite E.
  eapply okp_bind; [apply IH; [exact (Forall_inv_tail Hps)|exact Ha'|exact HNr]|].
  intros [[a2 n2] wt] (H1 & H2 & Hwl & Hww). cbn [okp mret res_ret].
  split; [exact H1|]. split; [exact H2|]. cbn [length]. split.
  - rewrite length_app, length_fmap, length_seq. lia.
  - apply Forall_app_2; [|exact Hww]. apply Forall_fmap, Forall_true. intros i. apply wrapS_range. lia.
Qed.

(** The coder's history from [40 * k] on and the decoder's agree on the 120 words that the
    next sub-segment can refer to; they still do after every sub-segment. *)
Definition window (k : nat) a b : Prop := forall i, (i < 120)%nat -> a !!! (40 * k + i)%nat = b !!! i.

Definition loop_synced (n k : nat) a b (nr : Z) (r : list Z * list Z * list subframe) : Prop :=
  let '(a', e', ps) := r in
  length ps = n /\ Forall sub_valid ps /\ warr 280 a' /\ warr 50 e' /\
  (forall i, (i < 120 + 40 * k)%nat -> a' !!! i = a !!! i) /\
  exists b' nr', decoder_loop dm ps b nr = Ok (b', nr', take (40 * n) (drop (120 + 40 * k) a')) /\
    warr 280 b' /\ 40 <= nr' <= 120 /\ window (k + n) a' b'.

Lemma loops_synced n : forall so k a e b nr,
  (k + n <= 4)%nat -> warr 160 so -> warr 280 a -> warr 50 e -> warr 280 b -> 40 <= nr <= 120 ->
  window k a b -> okp (coder_loop dm n so k a e) (loop_synced n k a b nr).
Proof.
  induction n as [|n IH]; intros so k a e b nr Hk Hso Ha He Hb Hn Hw.
  { cbn. split; [reflexivity|]. split; [constructor|]. split; [exact Ha|]. split; [exact He|].
    split; [reflexivity|]. exists b, nr. rewrite Nat.add_0_r. auto. }
  cbn [coder_loop]. eapply okp_bind; [apply coder_subframe_ok; assumption || lia|].
  intros [[a1 e1] p] (Hp & HN & He1 & ep & Hep & Edec & ->).
  set (rec_ := ltp_reconstruct dm a _ _ _ ep).
  pose proof Ha as [Hal _].
  assert (warr 280 (store a (120 + 40 * k) rec_ 40)) as Ha1.
  { apply warr_store; [exact Ha|lia|]. intros. apply wrapS_range. lia. }
  destruct (decoder_step_ok p b nr ep Hp Hb Hn Hep Edec) as (b1 & Hb1 & HNr & Hlo & Hhi & E1).
  set (Nr := if (sf_Nc p <? 40) || (120 <? sf_Nc p) then nr else sf_Nc p) in *.
  assert (Nr = sf_Nc p) as HNr' by (unfold Nr; replace ((sf_Nc p <? 40) || (120 <? sf_Nc p)) with false by lia; reflexivity).
  assert (forall i, (i < 40)%nat -> ltp_reconstruct dm b 120 (ltp_gain (sf_bc p)) Nr ep i = rec_ i) as Hrec.
  { intros i Hi. rewrite HNr'. symmetry. apply reconstruct_window; [exact HN|exact Hi|exact Hw]. }
  assert (window (S k) (store a (120 + 40 * k) rec_ 40) b1) as Hw1.
  { intros i Hi. destruct (decide (i < 80)%nat).
    - rewrite Hlo by assumption. rewrite total_store_out by lia.
      replace (40 * S k + i)%nat with (40 * k + (40 + i))%nat by lia. apply Hw. lia.
    - replace i with (80 + (i - 80))%nat at 2 by lia. rewrite Hhi, Hrec by lia.
      replace (40 * S k + i)%nat with (120 + 40 * k + (i - 80))%nat by lia.
      apply total_store_in; lia. }
  eapply okp_bind; [apply (IH so (S k) _ e1 b1 Nr); assumption || lia|].
  intros [[a2 e2] ps] (Hl & Hps & Ha2 & He2 & Hsame & b2 & nr2 & E2 & Hb2 & Hn2 & Hw2).
  cbn [okp mret res_ret loop_synced]. split; [cbn; lia|]. split; [constructor; assumption|].
  split; [exact Ha2|]. split; [exact He2|]. split.
  { intros i Hi. rewrite Hsame by lia. apply total_store_out; lia. }
  exists b2, nr2. split; [|split; [exact Hb2|split; [exact Hn2|]]].
  2: { replace (k + S n)%nat with (S k + n)%nat by lia. exact Hw2. }
  rewrite E1, E2. cbn [mbind res_bind mret res_ret]. do 2 f_equal.
  replace (40 * S n)%nat with (40 + 40 * n)%nat by lia. rewrite slice_split.
  replace (120 + 40 * k + 40)%nat with (120 + 40 * S k)%nat by lia. f_equal.
  rewrite (slice_eq a2 (store a (120 + 40 * k) rec_ 40)); [|destruct Ha2, Ha1; lia|].
  - rewrite store_slice by lia. apply list_fmap_ext. intros i i' Hi. apply lookup_seq in Hi.
    apply Hrec. lia.
  - intros i Hi. apply Hsame. lia.
Qed.
End Sync.

(** * Frames *)

Section FrameSync.
Context (dm : data_model).
Implicit Types (S E D : gsm_state) (s e : list Z) (p : gsm_params) (ps : list subframe).

Lemma params_roundtrip LARc ps : length ps = 4%nat -> Forall sub_valid ps ->
  subframe_of (params_of LARc ps) <$> seq 0 4 = ps.
Proof.
  intros Hl Hps. do 4 (destruct ps as [|[? ? ? ? ?] ps]; [discriminate|]). destruct ps; [|discriminate].
  repeat match goal with H : Forall _ (_ :: _) |- _ =>
    pose proof (Forall_inv H) as (_ & _ & _ & _ & ? & _); apply Forall_inv_tail in H end.
  cbn [sf_xMc] in *. unfold params_of, subframe_of.
  cbn [fmap list_fmap seq sf_Nc sf_bc sf_Mc sf_xmaxc sf_xMc Nc bc Mc xmaxc xmc concat].
  rewrite app_nil_r. repeat (f_equal; try reflexivity); cbn [Nat.mul Nat.add].
  - rewrite drop_0. now rewrite take_app_length' by lia.
  - rewrite (drop_app_length' _ _ 13) by lia. now rewrite take_app_length' by lia.
  - rewrite (app_assoc sf_xMc0), (drop_app_length' _ _ 26) by (rewrite length_app; lia).
    now rewrite take_app_length' by lia.
  - rewrite (app_assoc sf_xMc1), (app_assoc sf_xMc0), (drop_app_length' _ _ 39)
      by (rewrite !length_app; lia).
    now rewrite take_ge by lia.
Qed.

Lemma params_of_shape L ps : length L = 8%nat -> length ps = 4%nat -> Forall sub_valid ps ->
  params_shape (params_of L ps).
Proof.
  intros HL Hl Hps. unfold params_shape, params_of. cbn [LARc Nc bc Mc xmaxc xmc].
  rewrite !length_fmap. do 5 (split; [assumption|]).
  do 4 (destruct ps as [|[? ? ? ? ?] ps]; [discriminate|]). destruct ps; [|discriminate].
  repeat match goal with H : Forall _ (_ :: _) |- _ =>
    pose proof (Forall_inv H) as (_ & _ & _ & _ & ? & _); apply Forall_inv_tail in H end.
  cbn [sf_xMc fmap list_fmap concat] in *. rewrite !length_app. cbn [length]. lia.
Qed.

Lemma stp_frame_buffers filter mem L0 L1 jj LARc s :
  let '(_, L0', L1', j', _) := stp_total dm filter mem L0 L1 jj LARc s in
  let LARpp_j := decoded_ratios dm LARc in
  L0' = (if jj =? 0 then LARpp_j else L0) /\ L1' = (if jj =? 0 then L1 else LARpp_j) /\
  j' = Z.lxor jj 1.
Proof.
  unfold stp_total. cbv zeta.
  repeat match goal with |- context [filter ?a ?b ?c] => destruct (filter a b c) end. auto.
Qed.

Lemma postprocess_words s : forall m, inS 16 m ->
  inS 16 (postprocess dm m s).1 /\ length (postprocess dm m s).2 = length s /\
  Forall (inS 16) (postprocess dm m s).2.
Proof.
  induction s as [|x s IH]; intros m Hm; cbn [postprocess]; [auto|].
  set (m' := s16 (GSM_ADD dm x _)). specialize (IH m' ltac:(apply wrapS_range; lia)).
  destruct (postprocess dm m' s). cbn [fst snd] in *. destruct IH as (H1 & H2 & H3).
  split; [exact H1|]. split; [cbn; lia|]. constructor; [apply wrapS_range; lia|exact H3].
Qed.

(** The output is truncated to 13 bits: the three low bits of every sample are 0. *)
Lemma postprocess_multiple s : forall m,
  Forall (fun y => y mod 8 = 0) (postprocess dm m s).2.
Proof.
  induction s as [|x s IH]; intros m; cbn [postprocess]; [constructor|].
  set (m' := s16 (GSM_ADD dm x _)). specialize (IH m'). destruct (postprocess dm m' s).
  cbn [snd] in *. constructor; [|exact IH]. change 0xFFF8 with (Z.ones 13 ≪ 3).
  rewrite land_field by lia. generalize ((GSM_ADD dm m' m' / 2 ^ 3) mod 2 ^ 13). intros y.
  unfold wrapS. cint_unfold. dlia.
Qed.

(** Both loops walk the parameter arrays inside their bounds. *)
Lemma subframes_total p : params_shape p ->
  mapM (subframe_at p) (seq 0 4) = Ok (subframe_of p <$> seq 0 4).
Proof.
  intros (_ & H1 & H2 & H3 & H4 & H5). apply mapM_total, Forall_forall. intros k Hk.
  apply list_elem_of_In, elem_of_seq in Hk. unfold subframe_at.
  rewrite !aget_total, aread_ok by lia. cbn [mbind res_bind]. rewrite !Nat2Z.id. reflexivity.
Qed.

(** The decoder on any parameters that fit the frame, given what its loop returns. *)
Lemma Gsm_Decoder_tail S p dp nr wt :
  gsm_inv S -> params_shape p ->
  decoder_loop dm (subframe_of p <$> seq 0 4) (dp0 S) (nrp S) = Ok (dp, nr, wt) ->
  warr 280 dp -> 40 <= nr <= 120 -> warr 160 wt ->
  exists S' s, Gsm_Decoder dm S p = Ok (S', s) /\ gsm_inv S' /\ warr 160 s /\
    Forall (fun y => y mod 8 = 0) s /\ dp0 S' = dp /\
    LARpp0 S' = (if j S =? 0 then decoded_ratios dm (LARc p) else LARpp0 S) /\
    LARpp1 S' = (if j S =? 0 then LARpp1 S else decoded_ratios dm (LARc p)) /\
    j S' = Z.lxor (j S) 1.
Proof.
  intros (_ & Hpre & Hu & H0 & H1 & Hj & _ & Hv & Hm) Hsh E Hdp Hnr Hwt.
  pose proof Hsh as (Hl & _).
  pose proof (stp_total_words dm (synthesis_filter dm) 9 (v S) (LARpp0 S) (LARpp1 S)
    (j S) (LARc p) wt Hv H0 H1 Hj Hl Hwt) as Hw.
  pose proof (stp_frame_buffers (synthesis_filter dm) (v S) (LARpp0 S) (LARpp1 S)
    (j S) (LARc p) wt) as Hb.
  pose proof (stp_frame_total dm (Short_term_synthesis_filtering dm) (synthesis_filter dm) 9 (v S) (LARpp0 S) (LARpp1 S) (j S) (LARc p) wt Hv H0 H1 Hj Hl Hwt) as Ef.
  destruct (stp_total dm _ _ _ _ _ _ _) as [[[[v' L0] L1] j'] s'].
  destruct Hw as (Hv' & HL0 & HL1 & Hj' & Hs'). pose proof (postprocess_words s' (msr S) Hm) as Hpp.
  pose proof (postprocess_multiple s' (msr S)) as H8.
  assert (Postprocessing dm (msr S) s' = Ok (postprocess dm (msr S) s')) as Epp.
  { unfold Postprocessing. rewrite aread_all by apply Hs'. reflexivity. }
  destruct (postprocess dm (msr S) s') as [m' out]. cbn [fst snd] in Hpp, H8.
  destruct Hpp as (Hm' & Hol & Hos). eexists _, _. split.
  { unfold Gsm_Decoder. eapply bind_eq; [apply subframes_total, Hsh|].
    eapply bind_eq; [exact E|]. eapply bind_eq; [exact Ef|]. eapply bind_eq; [exact Epp|]. reflexivity. }
  split; [unfold gsm_inv; cbn; auto 10|]. split; [split; [destruct Hs'; lia|exact Hos]|]. split; [exact H8|]. auto.
Qed.

Lemma Gsm_Decoder_ok S p : gsm_inv S -> params_shape p -> params_valid p ->
  exists S' s, Gsm_Decoder dm S p = Ok (S', s) /\ gsm_inv S' /\ warr 160 s /\
    Forall (fun y => y mod 8 = 0) s.
Proof.
  intros HS Hsh [_ Hps]. pose proof HS as (Hdp & _ & _ & _ & _ & _ & Hn & _).
  pose proof (decoder_loop_ok dm _ _ _ Hps Hdp Hn) as H. apply okp_ok in H.
  destruct H as ([[dp nr] wt] & E & Hdp' & Hn' & Hwt). rewrite length_fmap in Hwt.
  destruct (Gsm_Decoder_tail S p dp nr wt HS Hsh E Hdp' Hn' Hwt) as (S' & s & E' & H1 & H2 & H3 & _).
  eauto 10.
Qed.

(** What coding a frame at [E] guarantees to a decoder [D] that was in step. *)
Definition frame_coded D (r : gsm_state * list Z * gsm_params) : Prop :=
  let '(E', e', p) := r in
  gsm_inv E' /\ warr 50 e' /\ params_valid p /\ params_shape p /\
  exists D' out, Gsm_Decoder dm D p = Ok (D', out) /\ gsm_inv D' /\ warr 160 out /\ synced E' D'.

Lemma Gsm_Coder_ok E D e s :
  gsm_inv E -> gsm_inv D -> synced E D -> warr 50 e -> warr 160 s ->
  okp (Gsm_Coder dm E e s) (frame_coded D).
Proof.
  intros HE HD (Hsy & Hs0 & Hs1 & Hsj) He Hsw.
  pose proof HE as (Hdp & Hpre & Hu & H0 & H1 & Hj & Hn & Hv & Hm).
  pose proof HD as (HdpD & _ & _ & _ & _ & _ & HnD & _). unfold Gsm_Coder.
  destruct (Gsm_Preprocess_exact dm s (pre E) Hpre Hsw) as (Epr & Hpre' & Hso).
  eapply okp_bind_eq; [exact Epr|]. destruct (highpass (pre E) s) as [pre' so]. cbn [fst snd] in *.
  destruct (Gsm_LPC_Analysis_ok dm so Hso) as (q & Lc & _ & El & Hso' & HLc).
  eapply okp_bind_eq; [exact El|]. pose proof HLc as Hlc.
  apply Forall2_length, eq_sym in Hlc.
  pose proof (stp_total_words dm (analysis_filter dm) 8 (u E) (LARpp0 E) (LARpp1 E)
    (j E) Lc _ Hu H0 H1 Hj Hlc Hso') as Hw.
  pose proof (stp_frame_buffers (analysis_filter dm) (u E) (LARpp0 E) (LARpp1 E)
    (j E) Lc (rescaled q <$> so)) as Hb.
  eapply okp_bind_eq; [apply (stp_frame_total dm (Short_term_analysis_filtering dm) (analysis_filter dm) 8 (u E) (LARpp0 E) (LARpp1 E) (j E) Lc _ Hu H0 H1 Hj Hlc Hso')|].
  destruct (stp_total dm _ _ _ _ _ _ _) as [[[[u' L0] L1] j'] so2].
  destruct Hw as (Hu' & HL0 & HL1 & Hj' & Hso2). destruct Hb as (Eb0 & Eb1 & Ebj).
  pose proof Hdp as [Hl1 _]. pose proof HdpD as [Hl2 _].
  eapply okp_bind; [apply (loops_synced dm 4 so2 0 (dp0 E) e (dp0 D) (nrp D)); try assumption; [lia|]|].
  { intros i Hi. cbn [Nat.mul Nat.add]. rewrite !list_lookup_total_alt.
    rewrite <- (lookup_take_lt (dp0 E) 120), <- (lookup_take_lt (dp0 D) 120), Hsy by lia. reflexivity. }
  intros [[dp e'] ps] (Hpl & Hps & [Hdl Hdw] & He' & _ & b' & nr' & Eb & Hb' & Hnr' & Hwin).
  eapply okp_bind_eq; [apply aread_ok; lia|].
  eapply okp_bind_eq; [apply awrite_ok; [lia|rewrite length_take, length_drop; lia]|].
  assert (length (take (Z.to_nat 120) (drop (Z.to_nat 160) dp)) = 120%nat) as -> by (rewrite length_take, length_drop; lia).
  change (Z.to_nat 120) with 120%nat. change (Z.to_nat 160) with 160%nat. change (Z.to_nat 0) with 0%nat.
  rewrite take_0, app_nil_l. cbn [Nat.add okp mret res_ret frame_coded].
  assert (warr 280 (take 120 (drop 160 dp) ++ drop 120 dp)) as Hnew.
  { split; [rewrite length_app, length_take, !length_drop; lia|].
    apply Forall_app_2; [now apply Forall_take, Forall_drop|now apply Forall_drop]. }
  split; [unfold gsm_inv; cbn [dp0 pre u LARpp0 LARpp1 j nrp v msr]; auto 10|].
  split; [exact He'|]. split.
  { split; [exact HLc|]. rewrite params_roundtrip; assumption. }
  pose proof (params_of_shape Lc ps Hlc Hpl Hps) as Hsh. split; [exact Hsh|].
  destruct (Gsm_Decoder_tail D (params_of Lc ps) b' nr' (take (40 * 4) (drop (120 + 40 * 0) dp)))
    as (D' & out & ED & HD' & Hout & _ & EDdp & ED0 & ED1 & EDj).
  - exact HD.
  - exact Hsh.
  - rewrite params_roundtrip by assumption. exact Eb.
  - exact Hb'.
  - exact Hnr'.
  - split; [rewrite length_take, length_drop; lia|now apply Forall_take, Forall_drop].
  - exists D', out. split; [exact ED|]. split; [exact HD'|]. split; [exact Hout|].
    unfold synced. cbn [dp0 LARpp0 LARpp1 j]. rewrite EDdp, ED0, ED1, EDj, Eb0, Eb1, Ebj, Hsj, Hs0, Hs1.
    split; [|auto]. rewrite take_app_length' by (rewrite length_take, length_drop; lia).
    destruct Hb' as [Hbl _]. apply list_eq. intros i. destruct (decide (i < 120)%nat) as [Hi|].
    + rewrite !lookup_take_lt, lookup_drop by assumption. rewrite !list_lookup_lookup_total_lt by lia.
      f_equal. exact (Hwin i Hi).
    + rewrite !lookup_ge_None_2 by (rewrite length_take; lia). reflexivity.
Qed.
End FrameSync.

(** The four sub-segment iterations of Gsm_Coder build in dp0[120..279] exactly the residual
    wt[0..159] that the loop of Gsm_Decoder computes from the coded parameters, and leave the
    same 120-word history, although one works in place on the shared array and the other shifts
    it. *)
Theorem coder_local_decoder (dm : data_model) (so a e b : list Z) (nr : Z) :
  warr 160 so -> warr 280 a -> warr 50 e -> warr 280 b -> 40 <= nr <= 120 ->
  take 120 a = take 120 b ->
  exists a' e' ps b' nr',
    coder_loop dm 4 so 0 a e = Ok (a', e', ps) /\ Forall sub_valid ps /\
    decoder_loop dm ps b nr = Ok (b', nr', take 160 (drop 120 a')) /\
    take 120 (drop 160 a') = take 120 b'.
Proof.
  intros Hso Ha He Hb Hn Hab. pose proof Ha as [Hal _]. pose proof Hb as [Hbl _].
  pose proof (loops_synced dm 4 so 0 a e b nr ltac:(lia) Hso Ha He Hb Hn) as H. apply okp_ok in H.
  - destruct H as ([[a' e'] ps] & E & _ & Hps & Ha' & _ & _ & b' & nr' & Eb & Hb' & _ & Hw).
    exists a', e', ps, b', nr'. split; [exact E|]. split; [exact Hps|]. split; [exact Eb|].
    destruct Ha' as [Hal' _], Hb' as [Hbl' _]. apply list_eq. intros i. destruct (decide (i < 120)%nat) as [Hi|].
    + rewrite !lookup_take_lt, lookup_drop by assumption. rewrite !list_lookup_lookup_total_lt by lia.
      f_equal. exact (Hw i Hi).
    + rewrite !lookup_ge_None_2 by (rewrite length_take; lia). reflexivity.
  - intros i Hi. cbn [Nat.mul Nat.add]. rewrite !list_lookup_total_alt.
    rewrite <- (lookup_take_lt a 120), <- (lookup_take_lt b 120), Hab by lia. reflexivity.
Qed.

Lemma coder_local_decoder_witness :
  let so := (fun k => (k * 7919) mod 20000 - 10000) <$> seqZ 0 160 in
  exists a' e' ps b' nr',
    coder_loop LP64 4 so 0 (replicate 280 3) (replicate 50 0) = Ok (a', e', ps) /\ Forall sub_valid ps /\
    decoder_loop LP64 ps (replicate 280 3) 40 = Ok (b', nr', take 160 (drop 120 a')) /\
    take 120 (drop 160 a') = take 120 b'.
Proof.
  intros so. apply (coder_local_decoder LP64 so (replicate 280 3) (replicate 50 0) (replicate 280 3) 40);
    [by_eval|by_eval|by_eval|by_eval|lia|reflexivity].
Defined.

(** C34: One frame from any pair of states in step: the coder succeeds with parameters that
    fit their fields, the decoder accepts them, both state invariants are preserved and the two
    ends are in step again (the first 120 words of dp0, both halves of LARpp, j). *)
Theorem codec_synchronised (dm : data_model) (E D : gsm_state) (e s : list Z) :
  gsm_inv E -> gsm_inv D -> synced E D -> warr 50 e -> warr 160 s ->
  exists E' e' p D' out,
    Gsm_Coder dm E e s = Ok (E', e', p) /\ gsm_inv E' /\ warr 50 e' /\ params_valid p /\
    Gsm_Decoder dm D p = Ok (D', out) /\ gsm_inv D' /\ warr 160 out /\ synced E' D'.
Proof.
  intros HE HD Hs He Hw. pose proof (Gsm_Coder_ok dm E D e s HE HD Hs He Hw) as H. apply okp_ok in H.
  destruct H as ([[E' e'] p] & EC & H1 & H2 & H3 & _ & D' & out & ED & H4 & H5 & H6).
  exists E', e', p, D', out. auto 10.
Qed.

Lemma codec_synchronised_witness :
  let s := (fun k => (k * 7919) mod 60000 - 30000) <$> seqZ 0 160 in
  exists E' e' p D' out,
    Gsm_Coder LP64 gsm_create (replicate 50 0) s = Ok (E', e', p) /\ gsm_inv E' /\ warr 50 e' /\
    params_valid p /\ Gsm_Decoder LP64 gsm_create p = Ok (D', out) /\ gsm_inv D' /\ warr 160 out /\
    synced E' D'.
Proof.
  intros s. apply (codec_synchronised LP64 gsm_create gsm_create (replicate 50 0) s); by_eval.
Defined.

(** C: the decoder is total. *)
Theorem decoder_total (dm : data_model) (S : gsm_state) (p : gsm_params) :
  gsm_inv S -> params_shape p -> params_valid p ->
  exists S' s, Gsm_Decoder dm S p = Ok (S', s) /\ gsm_inv S' /\ warr 160 s /\
    Forall (fun y => y mod 8 = 0) s.
Proof. apply Gsm_Decoder_ok. Qed.

Lemma decoder_total_witness :
  let p := GsmParams [63; 0; 31; 0; 15; 0; 7; 0] [0; 127; 40; 120] [0; 1; 2; 3] [3; 2; 1; 0]
             [63; 0; 17; 18] (replicate 52 7) in
  exists S' s, Gsm_Decoder ILP32 gsm_create p = Ok (S', s) /\ gsm_inv S' /\ warr 160 s /\
    Forall (fun y => y mod 8 = 0) s.
Proof. intros p. apply (decoder_total ILP32 gsm_create p); by_eval. Defined.
