(* ===== verification/GsmFrame.v ===== *)
(** The 33-byte frame format (src/mibench/telecomm/gsm/src/gsm_encode.c, gsm_decode.c,
    gsm_implode.c, gsm_explode.c).

    The four functions spell out every byte and every field. The specification is one line: the
    bits of the bytes, most significant first, are the magic nibble followed by the bits of the
    76 fields in frame order; packing, unpacking and both round trips follow from it. *)
From stdpp Require Import base list numbers option tactics.
From Stdlib Require Import ZArith Lia.
From S2P Require Import Prelude GsmRpe GsmLpc GsmCodec.

Definition GSM_MAGIC : Z := 0xD.

(** The 33 bytes of gsm_encode.c; every [*c++ = ...] converts to an unsigned char. Each array
    element is read with a checked access and used under its name. *)
Definition gsm_pack (LARc Nc bc Mc xmaxc xmc : list Z) : res (list Z) :=
  LARc0 ← aget LARc 0; LARc1 ← aget LARc 1; LARc2 ← aget LARc 2; LARc3 ← aget LARc 3;
  LARc4 ← aget LARc 4; LARc5 ← aget LARc 5; LARc6 ← aget LARc 6; LARc7 ← aget LARc 7;
  Nc0 ← aget Nc 0; Nc1 ← aget Nc 1; Nc2 ← aget Nc 2; Nc3 ← aget Nc 3;
  bc0 ← aget bc 0; bc1 ← aget bc 1; bc2 ← aget bc 2; bc3 ← aget bc 3;
  Mc0 ← aget Mc 0; Mc1 ← aget Mc 1; Mc2 ← aget Mc 2; Mc3 ← aget Mc 3;
  xmaxc0 ← aget xmaxc 0; xmaxc1 ← aget xmaxc 1; xmaxc2 ← aget xmaxc 2; xmaxc3 ← aget xmaxc 3;
  xmc0 ← aget xmc 0; xmc1 ← aget xmc 1; xmc2 ← aget xmc 2; xmc3 ← aget xmc 3; xmc4 ← aget xmc 4;
  xmc5 ← aget xmc 5; xmc6 ← aget xmc 6; xmc7 ← aget xmc 7; xmc8 ← aget xmc 8; xmc9 ← aget xmc 9;
  xmc10 ← aget xmc 10; xmc11 ← aget xmc 11; xmc12 ← aget xmc 12; xmc13 ← aget xmc 13;
  xmc14 ← aget xmc 14; xmc15 ← aget xmc 15; xmc16 ← aget xmc 16; xmc17 ← aget xmc 17;
  xmc18 ← aget xmc 18; xmc19 ← aget xmc 19; xmc20 ← aget xmc 20; xmc21 ← aget xmc 21;
  xmc22 ← aget xmc 22; xmc23 ← aget xmc 23; xmc24 ← aget xmc 24; xmc25 ← aget xmc 25;
  xmc26 ← aget xmc 26; xmc27 ← aget xmc 27; xmc28 ← aget xmc 28; xmc29 ← aget xmc 29;
  xmc30 ← aget xmc 30; xmc31 ← aget xmc 31; xmc32 ← aget xmc 32; xmc33 ← aget xmc 33;
  xmc34 ← aget xmc 34; xmc35 ← aget xmc 35; xmc36 ← aget xmc 36; xmc37 ← aget xmc 37;
  xmc38 ← aget xmc 38; xmc39 ← aget xmc 39; xmc40 ← aget xmc 40; xmc41 ← aget xmc 41;
  xmc42 ← aget xmc 42; xmc43 ← aget xmc 43; xmc44 ← aget xmc 44; xmc45 ← aget xmc 45;
  xmc46 ← aget xmc 46; xmc47 ← aget xmc 47; xmc48 ← aget xmc 48; xmc49 ← aget xmc 49;
  xmc50 ← aget xmc 50; xmc51 ← aget xmc 51;
  mret
  [ u8 (Z.lor ((Z.land GSM_MAGIC 0xF) ≪ 4) (Z.land (LARc0 ≫ 2) 0xF));
    u8 (Z.lor ((Z.land LARc0 0x3) ≪ 6) (Z.land LARc1 0x3F));
    u8 (Z.lor ((Z.land LARc2 0x1F) ≪ 3) (Z.land (LARc3 ≫ 2) 0x7));
    u8 (Z.lor (Z.lor ((Z.land LARc3 0x3) ≪ 6) ((Z.land LARc4 0xF) ≪ 2)) (Z.land (LARc5 ≫ 2) 0x3));
    u8 (Z.lor (Z.lor ((Z.land LARc5 0x3) ≪ 6) ((Z.land LARc6 0x7) ≪ 3)) (Z.land LARc7 0x7));
    u8 (Z.lor ((Z.land Nc0 0x7F) ≪ 1) (Z.land (bc0 ≫ 1) 0x1));
    u8 (Z.lor (Z.lor ((Z.land bc0 0x1) ≪ 7) ((Z.land Mc0 0x3) ≪ 5)) (Z.land (xmaxc0 ≫ 1) 0x1F));
    u8 (Z.lor (Z.lor (Z.lor ((Z.land xmaxc0 0x1) ≪ 7) ((Z.land xmc0 0x7) ≪ 4)) ((Z.land xmc1 0x7) ≪ 1)) (Z.land (xmc2 ≫ 2) 0x1));
    u8 (Z.lor (Z.lor ((Z.land xmc2 0x3) ≪ 6) ((Z.land xmc3 0x7) ≪ 3)) (Z.land xmc4 0x7));
    u8 (Z.lor (Z.lor ((Z.land xmc5 0x7) ≪ 5) ((Z.land xmc6 0x7) ≪ 2)) (Z.land (xmc7 ≫ 1) 0x3));
    u8 (Z.lor (Z.lor (Z.lor ((Z.land xmc7 0x1) ≪ 7) ((Z.land xmc8 0x7) ≪ 4)) ((Z.land xmc9 0x7) ≪ 1)) (Z.land (xmc10 ≫ 2) 0x1));
    u8 (Z.lor (Z.lor ((Z.land xmc10 0x3) ≪ 6) ((Z.land xmc11 0x7) ≪ 3)) (Z.land xmc12 0x7));
    u8 (Z.lor ((Z.land Nc1 0x7F) ≪ 1) (Z.land (bc1 ≫ 1) 0x1));
    u8 (Z.lor (Z.lor ((Z.land bc1 0x1) ≪ 7) ((Z.land Mc1 0x3) ≪ 5)) (Z.land (xmaxc1 ≫ 1) 0x1F));
    u8 (Z.lor (Z.lor (Z.lor ((Z.land xmaxc1 0x1) ≪ 7) ((Z.land xmc13 0x7) ≪ 4)) ((Z.land xmc14 0x7) ≪ 1)) (Z.land (xmc15 ≫ 2) 0x1));
    u8 (Z.lor (Z.lor ((Z.land xmc15 0x3) ≪ 6) ((Z.land xmc16 0x7) ≪ 3)) (Z.land xmc17 0x7));
    u8 (Z.lor (Z.lor ((Z.land xmc18 0x7) ≪ 5) ((Z.land xmc19 0x7) ≪ 2)) (Z.land (xmc20 ≫ 1) 0x3));
    u8 (Z.lor (Z.lor (Z.lor ((Z.land xmc20 0x1) ≪ 7) ((Z.land xmc21 0x7) ≪ 4)) ((Z.land xmc22 0x7) ≪ 1)) (Z.land (xmc23 ≫ 2) 0x1));
    u8 (Z.lor (Z.lor ((Z.land xmc23 0x3) ≪ 6) ((Z.land xmc24 0x7) ≪ 3)) (Z.land xmc25 0x7));
    u8 (Z.lor ((Z.land Nc2 0x7F) ≪ 1) (Z.land (bc2 ≫ 1) 0x1));
    u8 (Z.lor (Z.lor ((Z.land bc2 0x1) ≪ 7) ((Z.land Mc2 0x3) ≪ 5)) (Z.land (xmaxc2 ≫ 1) 0x1F));
    u8 (Z.lor (Z.lor (Z.lor ((Z.land xmaxc2 0x1) ≪ 7) ((Z.land xmc26 0x7) ≪ 4)) ((Z.land xmc27 0x7) ≪ 1)) (Z.land (xmc28 ≫ 2) 0x1));
    u8 (Z.lor (Z.lor ((Z.land xmc28 0x3) ≪ 6) ((Z.land xmc29 0x7) ≪ 3)) (Z.land xmc30 0x7));
    u8 (Z.lor (Z.lor ((Z.land xmc31 0x7) ≪ 5) ((Z.land xmc32 0x7) ≪ 2)) (Z.land (xmc33 ≫ 1) 0x3));
    u8 (Z.lor (Z.lor (Z.lor ((Z.land xmc33 0x1) ≪ 7) ((Z.land xmc34 0x7) ≪ 4)) ((Z.land xmc35 0x7) ≪ 1)) (Z.land (xmc36 ≫ 2) 0x1));
    u8 (Z.lor (Z.lor ((Z.land xmc36 0x3) ≪ 6) ((Z.land xmc37 0x7) ≪ 3)) (Z.land xmc38 0x7));
    u8 (Z.lor ((Z.land Nc3 0x7F) ≪ 1) (Z.land (bc3 ≫ 1) 0x1));
    u8 (Z.lor (Z.lor ((Z.land bc3 0x1) ≪ 7) ((Z.land Mc3 0x3) ≪ 5)) (Z.land (xmaxc3 ≫ 1) 0x1F));
    u8 (Z.lor (Z.lor (Z.lor ((Z.land xmaxc3 0x1) ≪ 7) ((Z.land xmc39 0x7) ≪ 4)) ((Z.land xmc40 0x7) ≪ 1)) (Z.land (xmc41 ≫ 2) 0x1));
    u8 (Z.lor (Z.lor ((Z.land xmc41 0x3) ≪ 6) ((Z.land xmc42 0x7) ≪ 3)) (Z.land xmc43 0x7));
    u8 (Z.lor (Z.lor ((Z.land xmc44 0x7) ≪ 5) ((Z.land xmc45 0x7) ≪ 2)) (Z.land (xmc46 ≫ 1) 0x3));
    u8 (Z.lor (Z.lor (Z.lor ((Z.land xmc46 0x1) ≪ 7) ((Z.land xmc47 0x7) ≪ 4)) ((Z.land xmc48 0x7) ≪ 1)) (Z.land (xmc49 ≫ 2) 0x1));
    u8 (Z.lor (Z.lor ((Z.land xmc49 0x3) ≪ 6) ((Z.land xmc50 0x7) ≪ 3)) (Z.land xmc51 0x7)) ].

(** gsm_implode.c: the same bytes, with the macros [LARc], [Nc], ... naming elements of
    [source]. *)
Definition gsm_implode (source : list Z) : res (list Z) :=
  source0 ← aget source 0; source1 ← aget source 1; source2 ← aget source 2;
  source3 ← aget source 3; source4 ← aget source 4; source5 ← aget source 5;
  source6 ← aget source 6; source7 ← aget source 7; source8 ← aget source 8;
  source9 ← aget source 9; source10 ← aget source 10; source11 ← aget source 11;
  source12 ← aget source 12; source13 ← aget source 13; source14 ← aget source 14;
  source15 ← aget source 15; source16 ← aget source 16; source17 ← aget source 17;
  source18 ← aget source 18; source19 ← aget source 19; source20 ← aget source 20;
  source21 ← aget source 21; source22 ← aget source 22; source23 ← aget source 23;
  source24 ← aget source 24; source25 ← aget source 25; source26 ← aget source 26;
  source27 ← aget source 27; source28 ← aget source 28; source29 ← aget source 29;
  source30 ← aget source 30; source31 ← aget source 31; source32 ← aget source 32;
  source33 ← aget source 33; source34 ← aget source 34; source35 ← aget source 35;
  source36 ← aget source 36; source37 ← aget source 37; source38 ← aget source 38;
  source39 ← aget source 39; source40 ← aget source 40; source41 ← aget source 41;
  source42 ← aget source 42; source43 ← aget source 43; source44 ← aget source 44;
  source45 ← aget source 45; source46 ← aget source 46; source47 ← aget source 47;
  source48 ← aget source 48; source49 ← aget source 49; source50 ← aget source 50;
  source51 ← aget source 51; source52 ← aget source 52; source53 ← aget source 53;
  source54 ← aget source 54; source55 ← aget source 55; source56 ← aget source 56;
  source57 ← aget source 57; source58 ← aget source 58; source59 ← aget source 59;
  source60 ← aget source 60; source61 ← aget source 61; source62 ← aget source 62;
  source63 ← aget source 63; source64 ← aget source 64; source65 ← aget source 65;
  source66 ← aget source 66; source67 ← aget source 67; source68 ← aget source 68;
  source69 ← aget source 69; source70 ← aget source 70; source71 ← aget source 71;
  source72 ← aget source 72; source73 ← aget source 73; source74 ← aget source 74;
  source75 ← aget source 75;
  mret
  [ u8 (Z.lor ((Z.land GSM_MAGIC 0xF) ≪ 4) (Z.land (source0 ≫ 2) 0xF));
    u8 (Z.lor ((Z.land source0 0x3) ≪ 6) (Z.land source1 0x3F));
    u8 (Z.lor ((Z.land source2 0x1F) ≪ 3) (Z.land (source3 ≫ 2) 0x7));
    u8 (Z.lor (Z.lor ((Z.land source3 0x3) ≪ 6) ((Z.land source4 0xF) ≪ 2)) (Z.land (source5 ≫ 2) 0x3));
    u8 (Z.lor (Z.lor ((Z.land source5 0x3) ≪ 6) ((Z.land source6 0x7) ≪ 3)) (Z.land source7 0x7));
    u8 (Z.lor ((Z.land source8 0x7F) ≪ 1) (Z.land (source9 ≫ 1) 0x1));
    u8 (Z.lor (Z.lor ((Z.land source9 0x1) ≪ 7) ((Z.land source10 0x3) ≪ 5)) (Z.land (source11 ≫ 1) 0x1F));
    u8 (Z.lor (Z.lor (Z.lor ((Z.land source11 0x1) ≪ 7) ((Z.land source12 0x7) ≪ 4)) ((Z.land source13 0x7) ≪ 1)) (Z.land (source14 ≫ 2) 0x1));
    u8 (Z.lor (Z.lor ((Z.land source14 0x3) ≪ 6) ((Z.land source15 0x7) ≪ 3)) (Z.land source16 0x7));
    u8 (Z.lor (Z.lor ((Z.land source17 0x7) ≪ 5) ((Z.land source18 0x7) ≪ 2)) (Z.land (source19 ≫ 1) 0x3));
    u8 (Z.lor (Z.lor (Z.lor ((Z.land source19 0x1) ≪ 7) ((Z.land source20 0x7) ≪ 4)) ((Z.land source21 0x7) ≪ 1)) (Z.land (source22 ≫ 2) 0x1));
    u8 (Z.lor (Z.lor ((Z.land source22 0x3) ≪ 6) ((Z.land source23 0x7) ≪ 3)) (Z.land source24 0x7));
    u8 (Z.lor ((Z.land source25 0x7F) ≪ 1) (Z.land (source26 ≫ 1) 0x1));
    u8 (Z.lor (Z.lor ((Z.land source26 0x1) ≪ 7) ((Z.land source27 0x3) ≪ 5)) (Z.land (source28 ≫ 1) 0x1F));
    u8 (Z.lor (Z.lor (Z.lor ((Z.land source28 0x1) ≪ 7) ((Z.land source29 0x7) ≪ 4)) ((Z.land source30 0x7) ≪ 1)) (Z.land (source31 ≫ 2) 0x1));
    u8 (Z.lor (Z.lor ((Z.land source31 0x3) ≪ 6) ((Z.land source32 0x7) ≪ 3)) (Z.land source33 0x7));
    u8 (Z.lor (Z.lor ((Z.land source34 0x7) ≪ 5) ((Z.land source35 0x7) ≪ 2)) (Z.land (source36 ≫ 1) 0x3));
    u8 (Z.lor (Z.lor (Z.lor ((Z.land source36 0x1) ≪ 7) ((Z.land source37 0x7) ≪ 4)) ((Z.land source38 0x7) ≪ 1)) (Z.land (source39 ≫ 2) 0x1));
    u8 (Z.lor (Z.lor ((Z.land source39 0x3) ≪ 6) ((Z.land source40 0x7) ≪ 3)) (Z.land source41 0x7));
    u8 (Z.lor ((Z.land source42 0x7F) ≪ 1) (Z.land (source43 ≫ 1) 0x1));
    u8 (Z.lor (Z.lor ((Z.land source43 0x1) ≪ 7) ((Z.land source44 0x3) ≪ 5)) (Z.land (source45 ≫ 1) 0x1F));
    u8 (Z.lor (Z.lor (Z.lor ((Z.land source45 0x1) ≪ 7) ((Z.land source46 0x7) ≪ 4)) ((Z.land source47 0x7) ≪ 1)) (Z.land (source48 ≫ 2) 0x1));
    u8 (Z.lor (Z.lor ((Z.land source48 0x3) ≪ 6) ((Z.land source49 0x7) ≪ 3)) (Z.land source50 0x7));
    u8 (Z.lor (Z.lor ((Z.land source51 0x7) ≪ 5) ((Z.land source52 0x7) ≪ 2)) (Z.land (source53 ≫ 1) 0x3));
    u8 (Z.lor (Z.lor (Z.lor ((Z.land source53 0x1) ≪ 7) ((Z.land source54 0x7) ≪ 4)) ((Z.land source55 0x7) ≪ 1)) (Z.land (source56 ≫ 2) 0x1));
    u8 (Z.lor (Z.lor ((Z.land source56 0x3) ≪ 6) ((Z.land source57 0x7) ≪ 3)) (Z.land source58 0x7));
    u8 (Z.lor ((Z.land source59 0x7F) ≪ 1) (Z.land (source60 ≫ 1) 0x1));
    u8 (Z.lor (Z.lor ((Z.land source60 0x1) ≪ 7) ((Z.land source61 0x3) ≪ 5)) (Z.land (source62 ≫ 1) 0x1F));
    u8 (Z.lor (Z.lor (Z.lor ((Z.land source62 0x1) ≪ 7) ((Z.land source63 0x7) ≪ 4)) ((Z.land source64 0x7) ≪ 1)) (Z.land (source65 ≫ 2) 0x1));
    u8 (Z.lor (Z.lor ((Z.land source65 0x3) ≪ 6) ((Z.land source66 0x7) ≪ 3)) (Z.land source67 0x7));
    u8 (Z.lor (Z.lor ((Z.land source68 0x7) ≪ 5) ((Z.land source69 0x7) ≪ 2)) (Z.land (source70 ≫ 1) 0x3));
    u8 (Z.lor (Z.lor (Z.lor ((Z.land source70 0x1) ≪ 7) ((Z.land source71 0x7) ≪ 4)) ((Z.land source72 0x7) ≪ 1)) (Z.land (source73 ≫ 2) 0x1));
    u8 (Z.lor (Z.lor ((Z.land source73 0x3) ≪ 6) ((Z.land source74 0x7) ≪ 3)) (Z.land source75 0x7)) ].

(** The arrays that gsm_decode.c reads out of the 33 bytes [c]. *)
Definition gsm_unpack (c : list Z) : res gsm_params :=
  c0 ← aget c 0; c1 ← aget c 1; c2 ← aget c 2; c3 ← aget c 3; c4 ← aget c 4; c5 ← aget c 5;
  c6 ← aget c 6; c7 ← aget c 7; c8 ← aget c 8; c9 ← aget c 9; c10 ← aget c 10; c11 ← aget c 11;
  c12 ← aget c 12; c13 ← aget c 13; c14 ← aget c 14; c15 ← aget c 15; c16 ← aget c 16;
  c17 ← aget c 17; c18 ← aget c 18; c19 ← aget c 19; c20 ← aget c 20; c21 ← aget c 21;
  c22 ← aget c 22; c23 ← aget c 23; c24 ← aget c 24; c25 ← aget c 25; c26 ← aget c 26;
  c27 ← aget c 27; c28 ← aget c 28; c29 ← aget c 29; c30 ← aget c 30; c31 ← aget c 31;
  c32 ← aget c 32;
  mret (
  GsmParams
    [ s16 (Z.lor (s16 ((Z.land c0 0xF) ≪ 2)) (Z.land (c1 ≫ 6) 0x3));
      s16 (Z.land c1 0x3F);
      s16 (Z.land (c2 ≫ 3) 0x1F);
      s16 (Z.lor (s16 ((Z.land c2 0x7) ≪ 2)) (Z.land (c3 ≫ 6) 0x3));
      s16 (Z.land (c3 ≫ 2) 0xF);
      s16 (Z.lor (s16 ((Z.land c3 0x3) ≪ 2)) (Z.land (c4 ≫ 6) 0x3));
      s16 (Z.land (c4 ≫ 3) 0x7);
      s16 (Z.land c4 0x7) ]
    [ s16 (Z.land (c5 ≫ 1) 0x7F);
      s16 (Z.land (c12 ≫ 1) 0x7F);
      s16 (Z.land (c19 ≫ 1) 0x7F);
      s16 (Z.land (c26 ≫ 1) 0x7F) ]
    [ s16 (Z.lor (s16 ((Z.land c5 0x1) ≪ 1)) (Z.land (c6 ≫ 7) 0x1));
      s16 (Z.lor (s16 ((Z.land c12 0x1) ≪ 1)) (Z.land (c13 ≫ 7) 0x1));
      s16 (Z.lor (s16 ((Z.land c19 0x1) ≪ 1)) (Z.land (c20 ≫ 7) 0x1));
      s16 (Z.lor (s16 ((Z.land c26 0x1) ≪ 1)) (Z.land (c27 ≫ 7) 0x1)) ]
    [ s16 (Z.land (c6 ≫ 5) 0x3);
      s16 (Z.land (c13 ≫ 5) 0x3);
      s16 (Z.land (c20 ≫ 5) 0x3);
      s16 (Z.land (c27 ≫ 5) 0x3) ]
    [ s16 (Z.lor (s16 ((Z.land c6 0x1F) ≪ 1)) (Z.land (c7 ≫ 7) 0x1));
      s16 (Z.lor (s16 ((Z.land c13 0x1F) ≪ 1)) (Z.land (c14 ≫ 7) 0x1));
      s16 (Z.lor (s16 ((Z.land c20 0x1F) ≪ 1)) (Z.land (c21 ≫ 7) 0x1));
      s16 (Z.lor (s16 ((Z.land c27 0x1F) ≪ 1)) (Z.land (c28 ≫ 7) 0x1)) ]
    [ s16 (Z.land (c7 ≫ 4) 0x7);
      s16 (Z.land (c7 ≫ 1) 0x7);
      s16 (Z.lor (s16 ((Z.land c7 0x1) ≪ 2)) (Z.land (c8 ≫ 6) 0x3));
      s16 (Z.land (c8 ≫ 3) 0x7);
      s16 (Z.land c8 0x7);
      s16 (Z.land (c9 ≫ 5) 0x7);
      s16 (Z.land (c9 ≫ 2) 0x7);
      s16 (Z.lor (s16 ((Z.land c9 0x3) ≪ 1)) (Z.land (c10 ≫ 7) 0x1));
      s16 (Z.land (c10 ≫ 4) 0x7);
      s16 (Z.land (c10 ≫ 1) 0x7);
      s16 (Z.lor (s16 ((Z.land c10 0x1) ≪ 2)) (Z.land (c11 ≫ 6) 0x3));
      s16 (Z.land (c11 ≫ 3) 0x7);
      s16 (Z.land c11 0x7);
      s16 (Z.land (c14 ≫ 4) 0x7);
      s16 (Z.land (c14 ≫ 1) 0x7);
      s16 (Z.lor (s16 ((Z.land c14 0x1) ≪ 2)) (Z.land (c15 ≫ 6) 0x3));
      s16 (Z.land (c15 ≫ 3) 0x7);
      s16 (Z.land c15 0x7);
      s16 (Z.land (c16 ≫ 5) 0x7);
      s16 (Z.land (c16 ≫ 2) 0x7);
      s16 (Z.lor (s16 ((Z.land c16 0x3) ≪ 1)) (Z.land (c17 ≫ 7) 0x1));
      s16 (Z.land (c17 ≫ 4) 0x7);
      s16 (Z.land (c17 ≫ 1) 0x7);
      s16 (Z.lor (s16 ((Z.land c17 0x1) ≪ 2)) (Z.land (c18 ≫ 6) 0x3));
      s16 (Z.land (c18 ≫ 3) 0x7);
      s16 (Z.land c18 0x7);
      s16 (Z.land (c21 ≫ 4) 0x7);
      s16 (Z.land (c21 ≫ 1) 0x7);
      s16 (Z.lor (s16 ((Z.land c21 0x1) ≪ 2)) (Z.land (c22 ≫ 6) 0x3));
      s16 (Z.land (c22 ≫ 3) 0x7);
      s16 (Z.land c22 0x7);
      s16 (Z.land (c23 ≫ 5) 0x7);
      s16 (Z.land (c23 ≫ 2) 0x7);
      s16 (Z.lor (s16 ((Z.land c23 0x3) ≪ 1)) (Z.land (c24 ≫ 7) 0x1));
      s16 (Z.land (c24 ≫ 4) 0x7);
      s16 (Z.land (c24 ≫ 1) 0x7);
      s16 (Z.lor (s16 ((Z.land c24 0x1) ≪ 2)) (Z.land (c25 ≫ 6) 0x3));
      s16 (Z.land (c25 ≫ 3) 0x7);
      s16 (Z.land c25 0x7);
      s16 (Z.land (c28 ≫ 4) 0x7);
      s16 (Z.land (c28 ≫ 1) 0x7);
      s16 (Z.lor (s16 ((Z.land c28 0x1) ≪ 2)) (Z.land (c29 ≫ 6) 0x3));
      s16 (Z.land (c29 ≫ 3) 0x7);
      s16 (Z.land c29 0x7);
      s16 (Z.land (c30 ≫ 5) 0x7);
      s16 (Z.land (c30 ≫ 2) 0x7);
      s16 (Z.lor (s16 ((Z.land c30 0x3) ≪ 1)) (Z.land (c31 ≫ 7) 0x1));
      s16 (Z.land (c31 ≫ 4) 0x7);
      s16 (Z.land (c31 ≫ 1) 0x7);
      s16 (Z.lor (s16 ((Z.land c31 0x1) ≪ 2)) (Z.land (c32 ≫ 6) 0x3));
      s16 (Z.land (c32 ≫ 3) 0x7);
      s16 (Z.land c32 0x7) ]).

(** The 76 words that gsm_explode.c stores in [target]. *)
Definition gsm_explode_words (c : list Z) : res (list Z) :=
  c0 ← aget c 0; c1 ← aget c 1; c2 ← aget c 2; c3 ← aget c 3; c4 ← aget c 4; c5 ← aget c 5;
  c6 ← aget c 6; c7 ← aget c 7; c8 ← aget c 8; c9 ← aget c 9; c10 ← aget c 10; c11 ← aget c 11;
  c12 ← aget c 12; c13 ← aget c 13; c14 ← aget c 14; c15 ← aget c 15; c16 ← aget c 16;
  c17 ← aget c 17; c18 ← aget c 18; c19 ← aget c 19; c20 ← aget c 20; c21 ← aget c 21;
  c22 ← aget c 22; c23 ← aget c 23; c24 ← aget c 24; c25 ← aget c 25; c26 ← aget c 26;
  c27 ← aget c 27; c28 ← aget c 28; c29 ← aget c 29; c30 ← aget c 30; c31 ← aget c 31;
  c32 ← aget c 32;
  mret
  [ s16 (Z.lor (s16 ((Z.land c0 0xF) ≪ 2)) (Z.land (c1 ≫ 6) 0x3));
    s16 (Z.land c1 0x3F);
    s16 (Z.land (c2 ≫ 3) 0x1F);
    s16 (Z.lor (s16 ((Z.land c2 0x7) ≪ 2)) (Z.land (c3 ≫ 6) 0x3));
    s16 (Z.land (c3 ≫ 2) 0xF);
    s16 (Z.lor (s16 ((Z.land c3 0x3) ≪ 2)) (Z.land (c4 ≫ 6) 0x3));
    s16 (Z.land (c4 ≫ 3) 0x7);
    s16 (Z.land c4 0x7);
    s16 (Z.land (c5 ≫ 1) 0x7F);
    s16 (Z.lor (s16 ((Z.land c5 0x1) ≪ 1)) (Z.land (c6 ≫ 7) 0x1));
    s16 (Z.land (c6 ≫ 5) 0x3);
    s16 (Z.lor (s16 ((Z.land c6 0x1F) ≪ 1)) (Z.land (c7 ≫ 7) 0x1));
    s16 (Z.land (c7 ≫ 4) 0x7);
    s16 (Z.land (c7 ≫ 1) 0x7);
    s16 (Z.lor (s16 ((Z.land c7 0x1) ≪ 2)) (Z.land (c8 ≫ 6) 0x3));
    s16 (Z.land (c8 ≫ 3) 0x7);
    s16 (Z.land c8 0x7);
    s16 (Z.land (c9 ≫ 5) 0x7);
    s16 (Z.land (c9 ≫ 2) 0x7);
    s16 (Z.lor (s16 ((Z.land c9 0x3) ≪ 1)) (Z.land (c10 ≫ 7) 0x1));
    s16 (Z.land (c10 ≫ 4) 0x7);
    s16 (Z.land (c10 ≫ 1) 0x7);
    s16 (Z.lor (s16 ((Z.land c10 0x1) ≪ 2)) (Z.land (c11 ≫ 6) 0x3));
    s16 (Z.land (c11 ≫ 3) 0x7);
    s16 (Z.land c11 0x7);
    s16 (Z.land (c12 ≫ 1) 0x7F);
    s16 (Z.lor (s16 ((Z.land c12 0x1) ≪ 1)) (Z.land (c13 ≫ 7) 0x1));
    s16 (Z.land (c13 ≫ 5) 0x3);
    s16 (Z.lor (s16 ((Z.land c13 0x1F) ≪ 1)) (Z.land (c14 ≫ 7) 0x1));
    s16 (Z.land (c14 ≫ 4) 0x7);
    s16 (Z.land (c14 ≫ 1) 0x7);
    s16 (Z.lor (s16 ((Z.land c14 0x1) ≪ 2)) (Z.land (c15 ≫ 6) 0x3));
    s16 (Z.land (c15 ≫ 3) 0x7);
    s16 (Z.land c15 0x7);
    s16 (Z.land (c16 ≫ 5) 0x7);
    s16 (Z.land (c16 ≫ 2) 0x7);
    s16 (Z.lor (s16 ((Z.land c16 0x3) ≪ 1)) (Z.land (c17 ≫ 7) 0x1));
    s16 (Z.land (c17 ≫ 4) 0x7);
    s16 (Z.land (c17 ≫ 1) 0x7);
    s16 (Z.lor (s16 ((Z.land c17 0x1) ≪ 2)) (Z.land (c18 ≫ 6) 0x3));
    s16 (Z.land (c18 ≫ 3) 0x7);
    s16 (Z.land c18 0x7);
    s16 (Z.land (c19 ≫ 1) 0x7F);
    s16 (Z.lor (s16 ((Z.land c19 0x1) ≪ 1)) (Z.land (c20 ≫ 7) 0x1));
    s16 (Z.land (c20 ≫ 5) 0x3);
    s16 (Z.lor (s16 ((Z.land c20 0x1F) ≪ 1)) (Z.land (c21 ≫ 7) 0x1));
    s16 (Z.land (c21 ≫ 4) 0x7);
    s16 (Z.land (c21 ≫ 1) 0x7);
    s16 (Z.lor (s16 ((Z.land c21 0x1) ≪ 2)) (Z.land (c22 ≫ 6) 0x3));
    s16 (Z.land (c22 ≫ 3) 0x7);
    s16 (Z.land c22 0x7);
    s16 (Z.land (c23 ≫ 5) 0x7);
    s16 (Z.land (c23 ≫ 2) 0x7);
    s16 (Z.lor (s16 ((Z.land c23 0x3) ≪ 1)) (Z.land (c24 ≫ 7) 0x1));
    s16 (Z.land (c24 ≫ 4) 0x7);
    s16 (Z.land (c24 ≫ 1) 0x7);
    s16 (Z.lor (s16 ((Z.land c24 0x1) ≪ 2)) (Z.land (c25 ≫ 6) 0x3));
    s16 (Z.land (c25 ≫ 3) 0x7);
    s16 (Z.land c25 0x7);
    s16 (Z.land (c26 ≫ 1) 0x7F);
    s16 (Z.lor (s16 ((Z.land c26 0x1) ≪ 1)) (Z.land (c27 ≫ 7) 0x1));
    s16 (Z.land (c27 ≫ 5) 0x3);
    s16 (Z.lor (s16 ((Z.land c27 0x1F) ≪ 1)) (Z.land (c28 ≫ 7) 0x1));
    s16 (Z.land (c28 ≫ 4) 0x7);
    s16 (Z.land (c28 ≫ 1) 0x7);
    s16 (Z.lor (s16 ((Z.land c28 0x1) ≪ 2)) (Z.land (c29 ≫ 6) 0x3));
    s16 (Z.land (c29 ≫ 3) 0x7);
    s16 (Z.land c29 0x7);
    s16 (Z.land (c30 ≫ 5) 0x7);
    s16 (Z.land (c30 ≫ 2) 0x7);
    s16 (Z.lor (s16 ((Z.land c30 0x3) ≪ 1)) (Z.land (c31 ≫ 7) 0x1));
    s16 (Z.land (c31 ≫ 4) 0x7);
    s16 (Z.land (c31 ≫ 1) 0x7);
    s16 (Z.lor (s16 ((Z.land c31 0x1) ≪ 2)) (Z.land (c32 ≫ 6) 0x3));
    s16 (Z.land (c32 ≫ 3) 0x7);
    s16 (Z.land c32 0x7) ].

(** The test that rejects a frame: the high nibble of its first byte is not the magic. *)
Definition bad_magic (c : list Z) : res bool :=
  c0 ← aget c 0;
  mret (negb (Z.land (c0 ≫ 4) 0x0F =? GSM_MAGIC)).

(** The result is the new state, the new contents of the static [e] and the frame. *)
Definition gsm_encode (dm : data_model) (s : gsm_state) (e source : list Z) :
    res (gsm_state * list Z * list Z) :=
  '(s, e, p) ← Gsm_Coder dm s e source;
  c ← gsm_pack (LARc p) (Nc p) (bc p) (Mc p) (xmaxc p) (xmc p);
  mret (s, e, c).

(** The new state, the return value and what is stored in [target], [None] for nothing. *)
Definition gsm_decode (dm : data_model) (s : gsm_state) (c : list Z) :
    res (gsm_state * Z * option (list Z)) :=
  bad ← bad_magic c;
  if bad : bool then mret (s, -1, None)
  else
    p ← gsm_unpack c;
    '(s, target) ← Gsm_Decoder dm s p;
    mret (s, 0, Some target).

Definition gsm_explode (c : list Z) : res (Z * option (list Z)) :=
  bad ← bad_magic c;
  if bad : bool then mret (-1, None)
  else
    target ← gsm_explode_words c;
    mret (0, Some target).

(** * The layout *)

(** The [w] low bits of [x], most significant first. *)
Definition bits (w : nat) (x : Z) : list bool := (fun i => Z.testbit x (Z.of_nat (w - 1 - i))) <$> seq 0 w.

Definition subframe_widths : list nat := [7; 2; 2; 6; 3; 3; 3; 3; 3; 3; 3; 3; 3; 3; 3; 3; 3]%nat.
Definition frame_widths : list nat :=
  [6; 6; 5; 5; 4; 4; 3; 3]%nat ++ subframe_widths ++ subframe_widths ++ subframe_widths ++ subframe_widths.

(** The fields in frame order. *)
Definition subframe_fields (p : gsm_params) (k : nat) : list Z :=
  [Nc p !!! k; bc p !!! k; Mc p !!! k; xmaxc p !!! k] ++ ((fun i => xmc p !!! (13 * k + i)%nat) <$> seq 0 13).
Definition frame_fields (p : gsm_params) : list Z :=
  ((fun i => LARc p !!! i) <$> seq 0 8) ++
  subframe_fields p 0 ++ subframe_fields p 1 ++ subframe_fields p 2 ++ subframe_fields p 3.

Definition frame_bits (fields : list Z) : list bool :=
  bits 4 GSM_MAGIC ++ concat (zip_with bits frame_widths fields).
Definition byte_bits (c : list Z) : list bool := concat (bits 8 <$> c).

(** What the accesses return on arrays of the right lengths. *)
Definition pack_params (p : gsm_params) : list Z :=
  okd [] (gsm_pack (LARc p) (Nc p) (bc p) (Mc p) (xmaxc p) (xmc p)).
Definition unpacked (c : list Z) : gsm_params :=
  okd (GsmParams [] [] [] [] [] []) (gsm_unpack c).

Lemma wrapU_testbit w x n : 0 <= n < w -> Z.testbit (wrapU w x) n = Z.testbit x n.
Proof. intros. apply Z.mod_pow2_bits_low. lia. Qed.

Lemma wrapS_testbit w x n : 0 <= n < w -> Z.testbit (wrapS w x) n = Z.testbit x n.
Proof.
  intros. rewrite <- (wrapU_testbit w (wrapS w x)), wrapU_wrapS by lia. apply wrapU_testbit. lia.
Qed.

(** Push [Z.testbit] at a numeral index down to the variables. *)
Ltac bit_norm :=
  repeat match goal with
  | |- context [Z.testbit (wrapU ?w ?x) ?n] => rewrite (wrapU_testbit w x n) by lia
  | |- context [Z.testbit (wrapS ?w ?x) ?n] => rewrite (wrapS_testbit w x n) by lia
  | |- context [Z.testbit (Z.lor ?a ?b) ?n] => rewrite (Z.lor_spec a b n)
  | |- context [Z.testbit (Z.land ?a ?m) ?n] => rewrite (Z.land_spec a m n);
      let v := eval vm_compute in (Z.testbit m n) in change (Z.testbit m n) with v
  | |- context [Z.testbit (?a ≪ ?k) ?n] => rewrite (Z.shiftl_spec a k n) by lia;
      let v := eval vm_compute in (n - k) in change (n - k) with v
  | |- context [Z.testbit (?a ≫ ?k) ?n] => rewrite (Z.shiftr_spec a k n) by lia;
      let v := eval vm_compute in (n + k) in change (n + k) with v
  | |- context [Z.testbit ?a (Zneg ?p)] => change (Z.testbit a (Zneg p)) with false
  end;
  rewrite ?andb_true_r, ?andb_false_r, ?orb_false_r, ?orb_false_l.
Ltac bits_equal := repeat (f_equal; [bit_norm; reflexivity|]); bit_norm; reflexivity.

Ltac frame_unfold :=
  unfold byte_bits, frame_bits, frame_widths, frame_fields, subframe_widths, subframe_fields, bits;
  cbn [concat fmap list_fmap seq app zip_with Nat.sub Z.of_nat Pos.of_succ_nat Pos.succ Nat.mul Nat.add
       LARc Nc bc Mc xmaxc xmc].

(** Write a list of known length as its elements. *)
Ltac explode_list l := repeat (destruct l as [|? l]; [discriminate|]); destruct l; [|discriminate].

(** Explode a record of arrays of known lengths into its 76 words. *)
Ltac explode_params p :=
  destruct p as [L N b M x m];
  match goal with H : params_shape _ |- _ =>
    destruct H as (?H1 & ?H2 & ?H3 & ?H4 & ?H5 & ?H6); cbn [LARc Nc bc Mc xmaxc xmc] in * end;
  do 8 (destruct L as [|? L]; [discriminate|]); destruct L; [|discriminate];
  do 4 (destruct N as [|? N]; [discriminate|]); destruct N; [|discriminate];
  do 4 (destruct b as [|? b]; [discriminate|]); destruct b; [|discriminate];
  do 4 (destruct M as [|? M]; [discriminate|]); destruct M; [|discriminate];
  do 4 (destruct x as [|? x]; [discriminate|]); destruct x; [|discriminate];
  do 52 (destruct m as [|? m]; [discriminate|]); destruct m; [|discriminate].

Ltac explode_frame c :=
  do 33 (destruct c as [|? c]; [discriminate|]); destruct c; [|discriminate].

(** Evaluate the checked accesses to arrays given by their elements. *)
Ltac run_agets :=
  cbv [okd aget mbind res_bind mret res_ret lookup list_lookup Z.leb Z.compare Z.to_nat Pos.to_nat
       Pos.iter_op Nat.add LARc Nc bc Mc xmaxc xmc].

Lemma gsm_pack_total p : params_shape p ->
  gsm_pack (LARc p) (Nc p) (bc p) (Mc p) (xmaxc p) (xmc p) = Ok (pack_params p).
Proof. intros Hs. explode_params p. clear. unfold pack_params, gsm_pack. run_agets. reflexivity. Qed.

Lemma gsm_unpack_total c : length c = 33%nat -> gsm_unpack c = Ok (unpacked c).
Proof. intros Hl. explode_frame c. clear. unfold unpacked, gsm_unpack. run_agets. reflexivity. Qed.

(** A frame that ends early is read out of bounds. *)
Lemma gsm_unpack_short c : (length c < 33)%nat -> gsm_unpack c = Err OutOfBounds.
Proof. intros Hl. do 33 (destruct c as [|? c]; [reflexivity|]). cbn [length] in Hl. lia. Qed.

Lemma gsm_pack_bits p : params_shape p -> byte_bits (pack_params p) = frame_bits (frame_fields p).
Proof.
  intros Hs. explode_params p. clear. unfold pack_params, gsm_pack, GSM_MAGIC. run_agets.
  frame_unfold. cbn [lookup_total list_lookup_total]. bits_equal.
Qed.

(** The fields that the decoder reads are the bits after the first nibble. *)
Lemma gsm_unpack_bits c : length c = 33%nat ->
  drop 4 (byte_bits c) = concat (zip_with bits frame_widths (frame_fields (unpacked c))).
Proof.
  intros Hl. explode_frame c. clear Hl. unfold unpacked, gsm_unpack. run_agets. frame_unfold. cbn [drop lookup_total list_lookup_total].
  bits_equal.
Qed.

(** * Ranges *)

Definition in_width (w : nat) (x : Z) : Prop := 0 <= x < 2 ^ Z.of_nat w.
Definition fields_ok (fields : list Z) : Prop := Forall2 in_width frame_widths fields.
#[global] Instance fields_ok_dec fields : Decision (fields_ok fields).
Proof. unfold fields_ok, in_width. apply _. Defined.

Section Widths.
Implicit Types (w k n : Z) (x y : Z).

Lemma land_width x n : 0 <= n -> 0 <= Z.land x (Z.ones n) < 2 ^ n.
Proof. intros. rewrite Z.land_ones by lia. apply Z.mod_pos_bound. lia. Qed.

Lemma shiftl_width w k x : 0 <= k <= w -> 0 <= x < 2 ^ (w - k) -> 0 <= x ≪ k < 2 ^ w.
Proof.
  intros Hk Hx. rewrite Z.shiftl_mul_pow2 by lia.
  replace (2 ^ w) with (2 ^ (w - k) * 2 ^ k) by (rewrite <- Z.pow_add_r by lia; f_equal; lia).
  assert (0 < 2 ^ k) by lia. nia.
Qed.

Lemma lor_width w x y : 0 <= w -> 0 <= x < 2 ^ w -> 0 <= y < 2 ^ w -> 0 <= Z.lor x y < 2 ^ w.
Proof.
  intros Hw Hx Hy. assert (0 <= Z.lor x y) by (apply Z.lor_nonneg; lia). split; [lia|].
  destruct (decide (Z.lor x y = 0)) as [->|]; [lia|]. apply Z.log2_lt_pow2; [lia|].
  rewrite Z.log2_lor by lia. destruct (decide (w = 0)) as [->|].
  { assert (x = 0) as -> by lia. assert (y = 0) as -> by lia. contradiction. }
  assert (forall z, 0 <= z < 2 ^ w -> Z.log2 z < w) as Hl.
  { intros z Hz. destruct (decide (z = 0)) as [->|]; [cbn; lia|]. apply Z.log2_lt_pow2; lia. }
  apply Z.max_lub_lt; auto.
Qed.

Lemma word_width w x : 0 <= w < 16 -> 0 <= x < 2 ^ w -> 0 <= s16 x < 2 ^ w.
Proof.
  intros Hw Hx. assert (2 ^ w <= 2 ^ 15) by (apply Z.pow_le_mono_r; lia).
  rewrite wrapS_id by clia. exact Hx.
Qed.

Lemma width_mono w w' x : 0 <= w <= w' -> 0 <= x < 2 ^ w -> 0 <= x < 2 ^ w'.
Proof. intros Hw Hx. assert (2 ^ w <= 2 ^ w') by (apply Z.pow_le_mono_r; lia). lia. Qed.
End Widths.

(** The width of an expression that [gsm_decode] or [gsm_explode] stores. *)
Ltac width :=
  lazymatch goal with
  | |- 0 <= s16 _ < 2 ^ _ => apply word_width; [lia|width]
  | |- 0 <= Z.lor _ _ < 2 ^ _ => apply lor_width; [lia|width|width]
  | |- 0 <= _ ≪ _ < 2 ^ _ => apply shiftl_width; [lia|width]
  | |- 0 <= Z.land ?x ?m < 2 ^ ?w =>
      let n := eval vm_compute in (Z.log2 m + 1) in
      apply (width_mono n); [lia|exact (land_width x n ltac:(lia))]
  end.

Lemma gsm_unpack_fields_ok c : length c = 33%nat -> fields_ok (frame_fields (unpacked c)).
Proof.
  intros Hl. explode_frame c. clear Hl. unfold fields_ok, unpacked, gsm_unpack. run_agets. frame_unfold. cbn [lookup_total list_lookup_total].
  repeat (apply Forall2_cons; [unfold in_width; cbn [Z.of_nat Pos.of_succ_nat Pos.succ]; width|]).
  constructor.
Qed.

(** * Bits determine bytes and fields *)

Section Injective.
Implicit Types (w n : nat) (x y : Z).

Lemma length_bits w x : length (bits w x) = w.
Proof. unfold bits. now rewrite length_fmap, length_seq. Qed.

Lemma bits_inj w x y : in_width w x -> in_width w y -> bits w x = bits w y -> x = y.
Proof.
  intros Hx Hy H. apply Z.bits_inj'. intros i Hi. unfold in_width in *.
  destruct (Z.lt_ge_cases i (Z.of_nat w)) as [Hlt|Hge].
  - assert (bits w x !! (w - 1 - Z.to_nat i)%nat = bits w y !! (w - 1 - Z.to_nat i)%nat) as E by now rewrite H.
    unfold bits in E. rewrite !list_lookup_fmap, lookup_seq_lt in E by lia. cbn in E.
    injection E as E. replace (Z.of_nat (w - 1 - (w - 1 - Z.to_nat i))) with i in E by lia. exact E.
  - assert (forall z, 0 <= z < 2 ^ Z.of_nat w -> Z.testbit z i = false) as Hz.
    { intros z Hz. rewrite <- (Z.mod_small z (2 ^ Z.of_nat w)) by exact Hz.
      apply Z.mod_pow2_bits_high. lia. }
    now rewrite !Hz.
Qed.

Lemma fields_bits_inj ws : forall xs ys, Forall2 in_width ws xs -> Forall2 in_width ws ys ->
  concat (zip_with bits ws xs) = concat (zip_with bits ws ys) -> xs = ys.
Proof.
  induction ws as [|w ws IH]; intros xs ys Hx Hy H; inversion Hx; inversion Hy; subst; [reflexivity|].
  cbn [zip_with concat] in H. apply app_inj_1 in H; [|now rewrite !length_bits].
  destruct H as [E1 E2]. f_equal; [eapply bits_inj; eauto|apply IH; assumption].
Qed.

Lemma byte_bits_fields c : byte_bits c = concat (zip_with bits (replicate (length c) 8%nat) c).
Proof. unfold byte_bits. f_equal. induction c as [|x c IH]; cbn; [|rewrite IH]; reflexivity. Qed.

Lemma byte_bits_inj a b : length a = length b -> Forall (inU 8) a -> Forall (inU 8) b ->
  byte_bits a = byte_bits b -> a = b.
Proof.
  intros Hl Ha Hb. rewrite !byte_bits_fields, <- Hl. apply fields_bits_inj.
  - clear Hl. induction Ha; cbn; constructor; assumption.
  - rewrite Hl. clear Hl. induction Hb; cbn; constructor; assumption.
Qed.
End Injective.

Lemma gsm_pack_bytes p : params_shape p ->
  length (pack_params p) = 33%nat /\ Forall (inU 8) (pack_params p).
Proof.
  intros Hs. explode_params p. clear. unfold pack_params, gsm_pack. run_agets. split; [reflexivity|].
  repeat (apply Forall_cons; [apply wrapU_range; lia|]). apply Forall_nil.
Qed.

(** [n] consecutive elements of an array of [n] are the array. *)
Lemma array_elements (n : nat) (a : list Z) : length a = n -> (fun i => a !!! i) <$> seq 0 n = a.
Proof.
  intros Hl. apply list_eq. intros i. rewrite list_lookup_fmap. destruct (decide (i < n)%nat).
  - rewrite lookup_seq_lt by lia. cbn. symmetry. apply list_lookup_lookup_total_lt. lia.
  - rewrite lookup_seq_ge by lia. symmetry. apply lookup_ge_None_2. lia.
Qed.

Lemma array_ext (n : nat) (a b : list Z) : length a = n -> length b = n ->
  (forall i, (i < n)%nat -> a !!! i = b !!! i) -> a = b.
Proof.
  intros Ha Hb H. rewrite <- (array_elements n a Ha), <- (array_elements n b Hb).
  apply list_fmap_ext. intros i k Hi. apply lookup_seq in Hi. apply H. lia.
Qed.

Lemma frame_fields_inj p q : params_shape p -> params_shape q -> frame_fields p = frame_fields q -> p = q.
Proof.
  destruct p as [L N b M x m], q as [L' N' b' M' x' m'].
  intros (H1 & H2 & H3 & H4 & H5 & H6) (H1' & H2' & H3' & H4' & H5' & H6').
  cbn [LARc Nc bc Mc xmaxc xmc] in *. frame_unfold. intros E. simplify_eq.
  f_equal; (eapply array_ext; [eassumption|assumption|]); intros i Hi;
    repeat (destruct i as [|i]; [assumption|]); lia.
Qed.

Ltac frame_lookups :=
  frame_unfold; cbn [lookup_total list_lookup_total take drop sf_Nc sf_bc sf_Mc sf_xmaxc sf_xMc].

(** Fitting the fields is the validity that the codec works with. *)
Lemma fields_ok_valid p : params_shape p -> fields_ok (frame_fields p) <-> params_valid p.
Proof.
  intros Hs. explode_params p. clear.
  unfold fields_ok, params_valid, lar_codes, lar_widths, subframe_of, sub_valid, code3, in_width.
  frame_lookups. cbn [length].
  split.
  - intros H. repeat match goal with H : Forall2 _ (_ :: _) (_ :: _) |- _ => inversion_clear H end.
    cbn [Z.of_nat Pos.of_succ_nat Pos.succ] in *. cint_unfold.
    repeat first [apply Forall2_cons | apply Forall_cons | apply Forall2_nil | apply Forall_nil
      | split]; cbn [sf_Nc sf_bc sf_Mc sf_xmaxc sf_xMc]; cbv beta; first [assumption | reflexivity | clia].
  - intros [H1 H2].
    repeat match goal with
    | H : Forall2 _ (_ :: _) (_ :: _) |- _ => inversion_clear H
    | H : Forall _ (_ :: _) |- _ => inversion_clear H
    | H : _ /\ _ |- _ => destruct H end.
    cbn [Z.of_nat Pos.of_succ_nat Pos.succ sf_Nc sf_bc sf_Mc sf_xmaxc sf_xMc] in *. cint_unfold.
    repeat match goal with H : Forall _ (_ :: _) |- _ => inversion_clear H end.
    repeat (apply Forall2_cons; [cbv beta; clia|]). apply Forall2_nil.
Qed.

Lemma gsm_unpack_shape c : length c = 33%nat -> params_shape (unpacked c).
Proof. intros Hl. explode_frame c. repeat split. Qed.

Lemma gsm_unpack_valid c : length c = 33%nat -> params_valid (unpacked c).
Proof. intros. apply fields_ok_valid; [now apply gsm_unpack_shape|now apply gsm_unpack_fields_ok]. Qed.

Lemma unpack_pack p : params_shape p -> params_valid p -> unpacked (pack_params p) = p.
Proof.
  intros Hs Hv. destruct (gsm_pack_bytes p Hs) as [Hl _].
  apply frame_fields_inj; [now apply gsm_unpack_shape|exact Hs|].
  apply (fields_bits_inj frame_widths); [now apply gsm_unpack_fields_ok|now apply fields_ok_valid|].
  rewrite <- gsm_unpack_bits by exact Hl. rewrite gsm_pack_bits by exact Hs. reflexivity.
Qed.

(** The first nibble decides whether a frame is accepted. *)
Lemma bad_magic_bits c : length c = 33%nat -> Forall (inU 8) c ->
  bad_magic c = Ok (negb (bool_decide (take 4 (byte_bits c) = bits 4 GSM_MAGIC))).
Proof.
  intros Hl Hc. destruct c as [|x c]; [discriminate|]. pose proof (Forall_inv Hc) as Hx. clear Hc Hl.
  assert (forallb (fun x => eqb (negb (Z.land (x ≫ 4) 0x0F =? GSM_MAGIC))
    (negb (bool_decide (bits 4 (x / 16) = bits 4 GSM_MAGIC)))) (seqZ 0 256) = true) as Hall by (vm_compute; reflexivity).
  pose proof (forallb_seqZ _ _ _ Hall x ltac:(clia)) as H. apply eqb_prop in H.
  assert (take 4 (byte_bits (x :: c)) = bits 4 (x / 16)) as ->.
  { change (x / 16) with (x / 2 ^ 4). rewrite <- Z.shiftr_div_pow2 by lia.
    unfold byte_bits, bits. cbn [fmap list_fmap seq concat app take Nat.sub Z.of_nat Pos.of_succ_nat Pos.succ].
    bits_equal. }
  rewrite <- H. reflexivity.
Qed.

Lemma pack_magic p : params_shape p -> bad_magic (pack_params p) = Ok false.
Proof.
  intros Hs. destruct (gsm_pack_bytes p Hs) as [Hl Hb].
  rewrite bad_magic_bits, gsm_pack_bits by assumption. unfold frame_bits.
  rewrite take_app_length' by (now rewrite length_bits). now rewrite bool_decide_true.
Qed.

Lemma pack_unpack c : length c = 33%nat -> Forall (inU 8) c -> bad_magic c = Ok false ->
  pack_params (unpacked c) = c.
Proof.
  intros Hl Hc Hm. pose proof (gsm_unpack_shape c Hl) as Hs.
  destruct (gsm_pack_bytes (unpacked c) Hs) as [Hl' Hb'].
  apply byte_bits_inj; [congruence|exact Hb'|exact Hc|].
  rewrite gsm_pack_bits by exact Hs. unfold frame_bits. rewrite <- gsm_unpack_bits by exact Hl.
  rewrite bad_magic_bits in Hm by assumption. case_bool_decide as Hd; [|discriminate Hm].
  rewrite <- Hd. apply take_drop.
Qed.

(** gsm_explode.c and gsm_implode.c lay the fields out in frame order. *)
Lemma gsm_explode_fields c : length c = 33%nat -> gsm_explode_words c = Ok (frame_fields (unpacked c)).
Proof.
  intros Hl. explode_frame c. clear Hl. unfold unpacked, gsm_unpack, gsm_explode_words. run_agets.
  frame_unfold. reflexivity.
Qed.

Lemma gsm_implode_fields p : params_shape p -> gsm_implode (frame_fields p) = Ok (pack_params p).
Proof.
  intros Hs. explode_params p. clear. unfold pack_params, gsm_pack, gsm_implode. frame_unfold.
  cbn [lookup_total list_lookup_total]. run_agets. reflexivity.
Qed.

(** Every list of 76 words is the fields of some arrays. *)
Lemma fields_params t : fields_ok t -> exists p, params_shape p /\ t = frame_fields p.
Proof.
  intros Ht. apply Forall2_length, eq_sym in Ht. cbn [length frame_widths app subframe_widths] in Ht.
  do 76 (destruct t as [|? t]; [discriminate|]). destruct t; [|discriminate]. clear Ht.
  eexists (GsmParams [_; _; _; _; _; _; _; _] [_; _; _; _] [_; _; _; _] [_; _; _; _] [_; _; _; _]
    ([_; _; _; _; _; _; _; _; _; _; _; _; _] ++ [_; _; _; _; _; _; _; _; _; _; _; _; _] ++
     [_; _; _; _; _; _; _; _; _; _; _; _; _] ++ [_; _; _; _; _; _; _; _; _; _; _; _; _])).
  split; [|frame_lookups; reflexivity]. repeat split.
Qed.

(** * Properties *)

(** The 33 bytes that gsm_encode writes are, bit for bit and most significant first, the
    magic nibble followed by the 76 fields in their documented widths, and the fields that
    gsm_decode reads are the bits after the first nibble, each within its width. *)
Theorem gsm_frame_layout (p : gsm_params) (c : list Z) :
  params_shape p -> length c = 33%nat ->
  exists c' q,
    gsm_pack (LARc p) (Nc p) (bc p) (Mc p) (xmaxc p) (xmc p) = Ok c' /\ gsm_unpack c = Ok q /\
    byte_bits c' = bits 4 GSM_MAGIC ++ concat (zip_with bits frame_widths (frame_fields p)) /\
    drop 4 (byte_bits c) = concat (zip_with bits frame_widths (frame_fields q)) /\
    Forall2 in_width frame_widths (frame_fields q).
Proof.
  intros Hs Hl. exists (pack_params p), (unpacked c). split; [apply gsm_pack_total, Hs|].
  split; [apply gsm_unpack_total, Hl|]. split; [apply gsm_pack_bits, Hs|].
  split; [apply gsm_unpack_bits, Hl|]. apply gsm_unpack_fields_ok, Hl.
Qed.

Lemma gsm_frame_layout_witness :
  let p := GsmParams [1; 2; 3; 4; 5; 6; 7; 0] [40; 41; 42; 120] [0; 1; 2; 3] [3; 2; 1; 0]
             [63; 0; 17; 18] (replicate 52 5) in
  let c := replicate 33 215 in
  exists c' q,
    gsm_pack (LARc p) (Nc p) (bc p) (Mc p) (xmaxc p) (xmc p) = Ok c' /\ gsm_unpack c = Ok q /\
    byte_bits c' = bits 4 GSM_MAGIC ++ concat (zip_with bits frame_widths (frame_fields p)) /\
    drop 4 (byte_bits c) = concat (zip_with bits frame_widths (frame_fields q)) /\
    Forall2 in_width frame_widths (frame_fields q).
Proof.
  intros p c. apply (gsm_frame_layout p c); [by_eval|reflexivity].
Defined.

(** Unpacking what was packed returns the parameters, packing what was unpacked returns the
    33 bytes (for an accepted magic), and whatever is unpacked is valid input for the decoder.
    *)
Theorem gsm_frame_roundtrip (p : gsm_params) (c : list Z) :
  params_shape p -> params_valid p ->
  length c = 33%nat -> Forall (inU 8) c -> bad_magic c = Ok false ->
  (exists c', gsm_pack (LARc p) (Nc p) (bc p) (Mc p) (xmaxc p) (xmc p) = Ok c' /\ gsm_unpack c' = Ok p) /\
  exists q, gsm_unpack c = Ok q /\ params_valid q /\
    gsm_pack (LARc q) (Nc q) (bc q) (Mc q) (xmaxc q) (xmc q) = Ok c.
Proof.
  intros Hs Hv Hl Hc Hm. split.
  - exists (pack_params p). split; [apply gsm_pack_total, Hs|].
    destruct (gsm_pack_bytes p Hs) as [Hl' _]. rewrite gsm_unpack_total by exact Hl'. f_equal.
    apply unpack_pack; assumption.
  - exists (unpacked c). split; [apply gsm_unpack_total, Hl|]. split; [apply gsm_unpack_valid, Hl|].
    rewrite gsm_pack_total by (apply gsm_unpack_shape, Hl). f_equal. apply pack_unpack; assumption.
Qed.

Lemma gsm_frame_roundtrip_witness :
  let p := GsmParams [1; 2; 3; 4; 5; 6; 7; 0] [40; 41; 42; 120] [0; 1; 2; 3] [3; 2; 1; 0]
             [63; 0; 17; 18] (replicate 52 5) in
  let c := replicate 33 215 in
  (exists c', gsm_pack (LARc p) (Nc p) (bc p) (Mc p) (xmaxc p) (xmc p) = Ok c' /\ gsm_unpack c' = Ok p) /\
  exists q, gsm_unpack c = Ok q /\ params_valid q /\
    gsm_pack (LARc q) (Nc q) (bc q) (Mc q) (xmaxc q) (xmc q) = Ok c.
Proof.
  intros p c. apply (gsm_frame_roundtrip p c); [by_eval|by_eval|reflexivity|by_eval|reflexivity].
Defined.

(** gsm_explode rejects a wrong magic with -1; otherwise imploding the exploded 76 words
    gives the 33 bytes back, and exploding imploded words that fit their fields gives the words
    back. *)
Theorem gsm_implode_explode (c target : list Z) :
  length c = 33%nat -> Forall (inU 8) c -> fields_ok target ->
  (bad_magic c = Ok true -> gsm_explode c = Ok (-1, None)) /\
  (bad_magic c = Ok false ->
     exists t, gsm_explode c = Ok (0, Some t) /\ fields_ok t /\ gsm_implode t = Ok c) /\
  exists c', gsm_implode target = Ok c' /\ gsm_explode c' = Ok (0, Some target).
Proof.
  intros Hl Hc Ht. unfold gsm_explode. split; [now intros ->|]. split.
  - intros Hm. rewrite Hm. exists (frame_fields (unpacked c)). cbn [mbind res_bind].
    rewrite gsm_explode_fields by exact Hl. split; [reflexivity|].
    split; [apply gsm_unpack_fields_ok, Hl|].
    rewrite gsm_implode_fields by (apply gsm_unpack_shape, Hl). f_equal. now apply pack_unpack.
  - destruct (fields_params target Ht) as (p & Hs & ->). exists (pack_params p).
    split; [apply gsm_implode_fields, Hs|]. destruct (gsm_pack_bytes p Hs) as [Hl' _].
    rewrite pack_magic by exact Hs. cbn [mbind res_bind]. rewrite gsm_explode_fields by exact Hl'.
    cbn [mbind res_bind mret res_ret]. do 3 f_equal. rewrite unpack_pack; [reflexivity|exact Hs|].
    apply fields_ok_valid; assumption.
Qed.

Lemma gsm_implode_explode_witness :
  let c := replicate 33 215 in
  let target := okd [] (gsm_explode_words (replicate 33 90)) in
  (bad_magic c = Ok true -> gsm_explode c = Ok (-1, None)) /\
  (bad_magic c = Ok false ->
     exists t, gsm_explode c = Ok (0, Some t) /\ fields_ok t /\ gsm_implode t = Ok c) /\
  exists c', gsm_implode target = Ok c' /\ gsm_explode c' = Ok (0, Some target).
Proof.
  intros c target. apply (gsm_implode_explode c target); [reflexivity|by_eval|by_eval].
Defined.

(** A stream of frames through each end. *)
Fixpoint encode_stream (dm : data_model) (s : gsm_state) (e : list Z) (frames : list (list Z)) :
    res (gsm_state * list Z * list (list Z)) :=
  match frames with
  | [] => mret (s, e, [])
  | x :: frames =>
      '(s, e, c) ← gsm_encode dm s e x;
      '(s, e, cs) ← encode_stream dm s e frames;
      mret (s, e, c :: cs)
  end.

Fixpoint decode_stream (dm : data_model) (s : gsm_state) (cs : list (list Z)) :
    res (gsm_state * list (Z * option (list Z))) :=
  match cs with
  | [] => mret (s, [])
  | c :: cs =>
      '(s, r, t) ← gsm_decode dm s c;
      '(s, ts) ← decode_stream dm s cs;
      mret (s, (r, t) :: ts)
  end.

Definition decoded (r : Z * option (list Z)) : Prop :=
  exists t, r = (0, Some t) /\ warr 160 t.

Section Stream.
Context (dm : data_model).
Implicit Types (E D : gsm_state) (e s c : list Z).

Lemma gsm_encode_decode E D e s :
  gsm_inv E -> gsm_inv D -> synced E D -> warr 50 e -> warr 160 s ->
  exists E' e' c D' t, gsm_encode dm E e s = Ok (E', e', c) /\ gsm_inv E' /\ warr 50 e' /\
    length c = 33%nat /\ gsm_decode dm D c = Ok (D', 0, Some t) /\ gsm_inv D' /\ warr 160 t /\
    synced E' D'.
Proof.
  intros HE HD Hs He Hw. pose proof (Gsm_Coder_ok dm E D e s HE HD Hs He Hw) as H. apply okp_ok in H.
  destruct H as ([[E' e'] p] & EC & H1 & H2 & H3 & H4 & D' & out & ED & H5 & H6 & H7).
  destruct (gsm_pack_bytes p H4) as [Hl _].
  assert (gsm_encode dm E e s = Ok (E', e', pack_params p)) as EE.
  { unfold gsm_encode. eapply bind_eq; [exact EC|]. eapply bind_eq; [apply gsm_pack_total, H4|]. reflexivity. }
  assert (gsm_decode dm D (pack_params p) = Ok (D', 0, Some out)) as EDD.
  { unfold gsm_decode. eapply bind_eq; [apply pack_magic, H4|].
    eapply bind_eq; [apply gsm_unpack_total, Hl|]. rewrite unpack_pack by assumption.
    eapply bind_eq; [exact ED|]. reflexivity. }
  exists E', e', (pack_params p), D', out. auto 10.
Qed.

Lemma streams_synced frames : forall E D e,
  gsm_inv E -> gsm_inv D -> synced E D -> warr 50 e -> Forall (warr 160) frames ->
  exists E' e' cs D' ts, encode_stream dm E e frames = Ok (E', e', cs) /\
    Forall (fun c => length c = 33%nat) cs /\
    decode_stream dm D cs = Ok (D', ts) /\ length ts = length frames /\ Forall decoded ts /\
    synced E' D'.
Proof.
  induction frames as [|s frames IH]; intros E D e HE HD Hs He Hf.
  { exists E, e, [], D, []. repeat (split; [reflexivity || constructor|]). exact Hs. }
  destruct (gsm_encode_decode E D e s HE HD Hs He (Forall_inv Hf))
    as (E1 & e1 & c & D1 & t & EE & HE1 & He1 & Hc & ED & HD1 & Ht & Hs1).
  destruct (IH E1 D1 e1 HE1 HD1 Hs1 He1 (Forall_inv_tail Hf))
    as (E' & e' & cs & D' & ts & EEs & Hcs & EDs & Hl & Hts & Hs').
  exists E', e', (c :: cs), D', ((0, Some t) :: ts). cbn [encode_stream decode_stream].
  rewrite EE, ED. cbn [mbind res_bind]. rewrite EEs, EDs. cbn [mbind res_bind mret res_ret].
  split; [reflexivity|]. split; [constructor; assumption|]. split; [reflexivity|].
  split; [cbn; lia|]. split; [constructor; [exists t; auto|assumption]|exact Hs'].
Qed.
End Stream.



(** The test of the magic looks at the high nibble of the first byte. *)
Lemma bad_magic_nibble x c : inU 8 x -> bad_magic (x :: c) = Ok (negb (x / 16 =? 13)).
Proof.
  intros Hx. unfold bad_magic, GSM_MAGIC. change (aget (x :: c) 0) with (Ok x). cbn [mbind res_bind mret res_ret].
  do 3 f_equal. change 0x0F with (Z.ones 4). rewrite Z.land_ones, Z.shiftr_div_pow2 by lia.
  change (2 ^ 4) with 16. apply Z.mod_small. cint_unfold. dlia.
Qed.


