(* ===== verification/Bytes.v ===== *)
(** Bytes and words shared by the cipher and hash components: words as little- or big-endian
    byte lists, fixed-size blocks, and the bitwise facts about unsigned words they need. *)
From stdpp Require Import base list numbers option tactics.
From Stdlib Require Import ZArith Lia.
From S2P Require Import Prelude.

(** A list of [n] bytes. *)
Definition barr (n : nat) (a : list Z) : Prop := length a = n /\ Forall (inU 8) a.
#[global] Instance barr_dec n a : Decision (barr n a).
Proof. unfold barr. apply _. Defined.

(** The word that a list of bytes stands for, least significant byte first. *)
Fixpoint le_word (b : list Z) : Z := match b with [] => 0 | x :: b => x + 256 * le_word b end.
Definition be_word (b : list Z) : Z := le_word (rev b).

Fixpoint le_bytes (n : nat) (x : Z) : list Z :=
  match n with O => [] | S n => x mod 256 :: le_bytes n (x / 256) end.
Definition be_bytes (n : nat) (x : Z) : list Z := rev (le_bytes n x).

(** The first [n] blocks of [k] elements. *)
Fixpoint blocks (k n : nat) (a : list Z) : list (list Z) :=
  match n with O => [] | S n => take k a :: blocks k n (drop k a) end.

(** [toupper] and [tolower] of the C locale. *)
Definition toupper (c : Z) : Z := if (97 <=? c) && (c <=? 122) then c - 32 else c.
Definition tolower (c : Z) : Z := if (65 <=? c) && (c <=? 90) then c + 32 else c.

Section Words.
Implicit Types (a b : list Z) (n k q r : nat) (x : Z).

Lemma le_word_range b : Forall (inU 8) b -> 0 <= le_word b < 256 ^ Z.of_nat (length b).
Proof.
  induction 1 as [|x b Hx _ IH]; cbn [le_word length]; [lia|].
  rewrite Nat2Z.inj_succ, Z.pow_succ_r by lia. cint_unfold. nia.
Qed.

Lemma length_le_bytes n : forall x, length (le_bytes n x) = n.
Proof. induction n as [|n IH]; intros x; cbn; [reflexivity|now rewrite IH]. Qed.

Lemma le_bytes_bytes n : forall x, Forall (inU 8) (le_bytes n x).
Proof. induction n as [|n IH]; intros x; cbn; constructor; [cint_unfold; dlia|apply IH]. Qed.

Lemma barr_le_bytes n x : barr n (le_bytes n x).
Proof. split; [apply length_le_bytes|apply le_bytes_bytes]. Qed.

Lemma le_word_bytes n : forall x, le_word (le_bytes n x) = x mod 256 ^ Z.of_nat n.
Proof.
  induction n as [|n IH]; intros x; cbn [le_bytes le_word]; [cbn; now rewrite Z.mod_1_r|].
  rewrite IH, Nat2Z.inj_succ, Z.pow_succ_r by lia.
  rewrite (Z.rem_mul_r x 256 (256 ^ Z.of_nat n)) by (assert (0 < 256 ^ Z.of_nat n) by lia; lia). lia.
Qed.

Lemma le_bytes_word b : Forall (inU 8) b -> le_bytes (length b) (le_word b) = b.
Proof.
  induction 1 as [|x b Hx Hb IH]; cbn [length le_word le_bytes]; [reflexivity|].
  pose proof (le_word_range b Hb). cint_unfold.
  replace ((x + 256 * le_word b) mod 256) with x by dlia.
  replace ((x + 256 * le_word b) / 256) with (le_word b) by dlia. now rewrite IH.
Qed.

Lemma barr_take n k b : barr (n + k) b -> barr n (take n b).
Proof. intros [Hl Hb]. split; [rewrite length_take; lia|now apply Forall_take]. Qed.

Lemma barr_drop n k b : barr (n + k) b -> barr k (drop n b).
Proof. intros [Hl Hb]. split; [rewrite length_drop; lia|now apply Forall_drop]. Qed.

Lemma length_blocks k n : forall a, length (blocks k n a) = n.
Proof. induction n as [|n IH]; intros a; cbn; [reflexivity|now rewrite IH]. Qed.

Lemma blocks_S k n a : blocks k (S n) a = take k a :: blocks k n (drop k a).
Proof. reflexivity. Qed.

Lemma block_add k q r : (0 < k)%nat -> ((q * k + r) / k = q + r / k /\ (q * k + r) mod k = r mod k)%nat.
Proof.
  intros Hk. rewrite Nat.div_add_l by lia. split; [reflexivity|].
  rewrite Nat.add_comm. apply Nat.Div0.mod_add.
Qed.

Lemma block_split k n : (0 < k <= n)%nat -> (n / k = S ((n - k) / k) /\ n mod k = (n - k) mod k)%nat.
Proof.
  intros Hk. replace n with (1 * k + (n - k))%nat at 1 3 by lia. apply (block_add k 1). lia.
Qed.

Lemma blocks_app k n m : forall a b, length a = (n * k)%nat ->
  blocks k (n + m) (a ++ b) = blocks k n a ++ blocks k m b.
Proof.
  induction n as [|n IH]; intros a b Hl; cbn [Nat.add blocks app].
  { destruct a; [reflexivity|discriminate]. }
  rewrite take_app_le, drop_app_le by lia. f_equal. apply IH. rewrite length_drop. lia.
Qed.
End Words.

Lemma mjoin_cons {A} (b : list A) (bs : list (list A)) : mjoin (b :: bs) = b ++ mjoin bs.
Proof. reflexivity. Qed.

(** ** Whole blocks: the last one is filled with zeros *)

Definition pad_blocks (w : nat) (a : list Z) : list (list Z) :=
  blocks w ((length a + (w - 1)) / w) (a ++ replicate w 0).

Section Pad.
Context (w : nat) (Hw : (0 < w)%nat).
Implicit Types (a : list Z).

Lemma pad_blocks_nil : pad_blocks w [] = [].
Proof. unfold pad_blocks. cbn [length Nat.add]. rewrite Nat.div_small by lia. reflexivity. Qed.

Lemma pad_blocks_last a : (0 < length a <= w)%nat -> pad_blocks w a = [a ++ replicate (w - length a) 0].
Proof.
  intros Ha. unfold pad_blocks.
  replace ((length a + (w - 1)) / w)%nat with 1%nat by (apply (Nat.div_unique _ w 1 (length a - 1)); lia).
  cbn [blocks]. f_equal. rewrite take_app_ge, take_replicate by lia. do 2 f_equal. lia.
Qed.

Lemma pad_blocks_step a : (w <= length a)%nat -> pad_blocks w a = take w a :: pad_blocks w (drop w a).
Proof.
  intros Ha. unfold pad_blocks. rewrite length_drop.
  replace (length a + (w - 1))%nat with (1 * w + (length a - w + (w - 1)))%nat by lia. rewrite Nat.div_add_l by lia.
  cbn [Nat.add blocks]. rewrite take_app_le, drop_app_le by lia. reflexivity.
Qed.

(** The first block of a non-empty list, whole or not. *)
Lemma pad_blocks_cons a : (0 < length a)%nat ->
  pad_blocks w a = (take w a ++ replicate (w - length a) 0) :: pad_blocks w (drop w a).
Proof.
  intros Ha. destruct (decide (length a < w)%nat) as [H|H].
  - rewrite pad_blocks_last, (drop_ge a), pad_blocks_nil, (take_ge a) by lia. reflexivity.
  - rewrite pad_blocks_step by lia. replace (w - length a)%nat with 0%nat by lia. cbn [replicate]. now rewrite app_nil_r.
Qed.

Lemma length_pad_blocks a : length (pad_blocks w a) = ((length a + (w - 1)) / w)%nat.
Proof. apply length_blocks. Qed.
End Pad.

(** ** Bitwise operations on unsigned words *)

Section Bits.
Implicit Types (w x y z n : Z).

Lemma inU_0 w : 0 <= w -> inU w 0.
Proof. unfold inU. intros. lia. Qed.

Lemma inU_testbit w x : 0 <= w -> 0 <= x -> inU w x <-> forall n, w <= n -> Z.testbit x n = false.
Proof.
  intros Hw Hx. unfold inU. split.
  - intros H n Hn. rewrite <- (Z.mod_small x (2 ^ w)) by lia. apply Z.mod_pow2_bits_high. lia.
  - intros H. split; [exact Hx|]. assert (x = x mod 2 ^ w) as ->; [|apply Z.mod_pos_bound; lia].
    apply Z.bits_inj'. intros n Hn. destruct (Z.ltb_spec n w).
    + rewrite Z.mod_pow2_bits_low by lia. reflexivity.
    + rewrite Z.mod_pow2_bits_high by lia. apply H. lia.
Qed.

Lemma inU_high w x n : 0 <= w -> inU w x -> w <= n -> Z.testbit x n = false.
Proof. intros Hw Hx. pose proof Hx as [? _]. apply (proj1 (inU_testbit w x Hw ltac:(lia)) Hx). Qed.

Lemma inU_lor w x y : 0 <= w -> inU w x -> inU w y -> inU w (Z.lor x y).
Proof.
  intros Hw Hx Hy. pose proof Hx as [? _]. pose proof Hy as [? _].
  apply inU_testbit; [lia|apply Z.lor_nonneg; lia|].
  intros n Hn. rewrite Z.lor_spec, (inU_high w x), (inU_high w y) by assumption. reflexivity.
Qed.

Lemma inU_lxor w x y : 0 <= w -> inU w x -> inU w y -> inU w (Z.lxor x y).
Proof.
  intros Hw Hx Hy. pose proof Hx as [? _]. pose proof Hy as [? _].
  apply inU_testbit; [lia|apply Z.lxor_nonneg; lia|].
  intros n Hn. rewrite Z.lxor_spec, (inU_high w x), (inU_high w y) by assumption. reflexivity.
Qed.

Lemma inU_land_l w x y : 0 <= w -> inU w x -> inU w (Z.land x y).
Proof.
  intros Hw Hx. pose proof Hx as [? _].
  apply inU_testbit; [lia|apply Z.land_nonneg; lia|].
  intros n Hn. rewrite Z.land_spec, (inU_high w x) by assumption. reflexivity.
Qed.

Lemma inU_shiftr w x n : 0 <= w -> 0 <= n -> inU w x -> inU w (x ≫ n).
Proof.
  intros Hw Hn Hx. unfold inU in *. rewrite Z.shiftr_div_pow2 by lia.
  assert (0 < 2 ^ n) by lia. split; [apply Z.div_pos; lia|]. apply Z.div_lt_upper_bound; nia.
Qed.

(** Numbers whose bits do not overlap add up to their union. *)
Lemma lor_disjoint_add x y n : 0 <= n -> 0 <= y < 2 ^ n -> Z.lor (x * 2 ^ n) y = x * 2 ^ n + y.
Proof.
  intros Hn Hy. rewrite <- Z.lxor_lor, <- Z.add_nocarry_lxor; try reflexivity;
    apply Z.bits_inj'; intros i Hi; rewrite Z.land_spec, Z.bits_0;
    (destruct (Z.ltb_spec i n); [rewrite Z.mul_pow2_bits_low by lia; reflexivity|]);
    rewrite <- (Z.mod_small y (2 ^ n)), Z.mod_pow2_bits_high by lia; apply andb_false_r.
Qed.
End Bits.

#[export] Hint Resolve inU_lor inU_lxor inU_land_l inU_shiftr : cint.
