(* ===== verification/Stdio.v ===== *)
(** The stdio streams that the command-line programs use: an input stream is its contents, its
    position and its end-of-file flag; an output stream is what was written and the number of bytes
    that it still accepts, after which writes fall short. *)
From stdpp Require Import base list numbers option tactics.
From Stdlib Require Import ZArith Lia.
From S2P Require Import Prelude Bytes.

Record ifile := IFile { idata : list Z; ipos : nat; ieof : bool }.
Record ofile := OFile { odata : list Z; room : nat }.

(** [fread(buf, 1, n, f)]: the bytes read. *)
Definition fread (n : nat) (f : ifile) : list Z * ifile :=
  let d := take n (drop (ipos f) (idata f)) in
  (d, IFile (idata f) (ipos f + length d) (ieof f || (length d <? n)%nat)).
(** [fwrite(b, 1, n, f)]: the number of bytes written. *)
Definition fwrite (b : list Z) (f : ofile) : Z * ofile :=
  let w := take (room f) b in (Z.of_nat (length w), OFile (odata f ++ w) (room f - length w)).
(** [fread(buf + off, 1, n, f)] with what it leaves in [buf]. *)
Definition fread_into (buf : list Z) (off n : nat) (f : ifile) : nat * list Z * ifile :=
  let '(d, f) := fread n f in (length d, take off buf ++ d ++ drop (off + length d) buf, f).
(** [fgetc(f)], [None] for [EOF], and [fputc(c, f)], [false] for [EOF]. *)
Definition fgetc (f : ifile) : option Z * ifile :=
  let '(d, f) := fread 1 f in (head d, f).
Definition fputc (c : Z) (f : ofile) : bool * ofile :=
  let '(n, f) := fwrite [u8 c] f in (n =? 1, f).
(** [fseek(f, off, SEEK_CUR)]. *)
Definition fseek_cur (off : Z) (f : ifile) : Z * ifile :=
  let p := Z.of_nat (ipos f) + off in
  if p <? 0 then (-1, f) else (0, IFile (idata f) (Z.to_nat p) false).

Section Streams.
Implicit Types (d b : list Z) (n p : nat) (c : Z).

Lemma fwrite_all b f : (length b <= room f)%nat ->
  fwrite b f = (Z.of_nat (length b), OFile (odata f ++ b) (room f - length b)).
Proof. intros H. unfold fwrite. rewrite take_ge by exact H. reflexivity. Qed.

Lemma fputc_ok c f : (1 <= room f)%nat -> fputc c f = (true, OFile (odata f ++ [u8 c]) (room f - 1)).
Proof. intros H. unfold fputc. rewrite fwrite_all by exact H. reflexivity. Qed.

Lemma fgetc_some d p e c : d !! p = Some c -> fgetc (IFile d p e) = (Some c, IFile d (S p) e).
Proof.
  intros H. unfold fgetc, fread. cbn [idata ipos ieof]. rewrite (drop_S _ _ _ H). cbn [take length head Nat.ltb Nat.leb].
  rewrite orb_false_r, Nat.add_1_r. reflexivity.
Qed.

Lemma fgetc_none d p e : d !! p = None -> fgetc (IFile d p e) = (None, IFile d p true).
Proof.
  intros H. unfold fgetc, fread. cbn [idata ipos ieof]. rewrite drop_ge by (now apply lookup_ge_None_1).
  cbn [take length head Nat.ltb Nat.leb]. rewrite orb_true_r, Nat.add_0_r. reflexivity.
Qed.
End Streams.
