(* ===== verification/Toast.v ===== *)
(** The program toast (src/mibench/telecomm/gsm/src/toast.c, toast_alaw.c, toast_ulaw.c, toast_lin.c,
    toast_audio.c): the audio formats, the conversion of a stream to frames and back, and the file
    names. [char] is unsigned and the byte order little-endian, as on RISC-V. [bad] says that the end
    of the input is a read error, which [ferror] reports.

    The dialogue with the user, the file modes and the removal of files are not modelled. *)
From stdpp Require Import base list numbers option tactics.
From Stdlib Require Import ZArith Lia.
From S2P Require Import Prelude GsmCodec GsmFrame Bytes Stdio ToastTables.

(** ** Companding *)

Definition A2S (x : Z) : res Z := aget a2s (u8 x).
Definition S2A (x : Z) : res Z := aget s2a (u16 x ≫ 4).
Definition U2S (x : Z) : res Z := aget u2s (u8 x).
Definition S2U (x : Z) : res Z := aget s2u (u16 x ≫ 3).

(** The loop [for (i = 0; i < 160 && (c = fgetc(in)) != EOF; i++) buf[i] = conv(c)] from [i] on, for
    [n] iterations: the final [i], whether the last character was [EOF], and the buffer. *)
Fixpoint input_loop (conv : Z -> res Z) (n : nat) (i : Z) (buf : list Z) (f : ifile) : res (Z * bool * list Z * ifile) :=
  match n with
  | O => mret (i, false, buf, f)
  | S n =>
      let '(c, f) := fgetc f in
      match c with
      | None => mret (i, true, buf, f)
      | Some c => v ← conv c; buf ← aset buf i (s16 v); input_loop conv n (i + 1) buf f
      end
  end.
Definition char_input (conv : Z -> res Z) (bad : bool) (buf : list Z) (f : ifile) : res (Z * list Z * ifile) :=
  '(i, eof, buf, f) ← input_loop conv 160 0 buf f;
  mret (if eof && bad then -1 else i, buf, f).
Definition alaw_input := char_input A2S.
Definition ulaw_input := char_input U2S.

(** [for (i = 0; i < 160; i++, buf++) if (fputc(conv( *buf ), out) == EOF) return -1; return 0;] *)
Fixpoint output_loop (conv : Z -> res Z) (n : nat) (i : Z) (buf : list Z) (f : ofile) : res (Z * ofile) :=
  match n with
  | O => mret (0, f)
  | S n =>
      x ← aget buf i; v ← conv x;
      let '(ok, f) := fputc v f in
      if ok : bool then output_loop conv n (i + 1) buf f else mret (-1, f)
  end.
Definition alaw_output := output_loop S2A 160 0.
Definition ulaw_output := output_loop S2U 160 0.

(** toast_lin.c: [fread] and [fwrite] count whole samples. *)
Definition linear_input (bad : bool) (buf : list Z) (f : ifile) : res (Z * list Z * ifile) :=
  let '(d, f) := fread 320 f in
  let n := (length d / 2)%nat in
  buf ← awrite buf 0 ((fun w => s16 (le_word w)) <$> blocks 2 n d);
  mret (Z.of_nat n, buf, f).
Definition linear_output (buf : list Z) (f : ofile) : res (Z * ofile) :=
  buf ← aread buf 0 160;
  let '(n, f) := fwrite (flat_map (le_bytes 2) buf) f in
  mret (if negb (n / 2 =? 160) then -1 else 0, f).

(** ** The Sun audio header: toast_audio.c *)

Section Audio.
Context (dm : data_model).

(** [putc] of the four bytes, most significant first. *)
Fixpoint put_bytes (b : list Z) (f : ofile) : Z * ofile :=
  match b with
  | [] => (0, f)
  | c :: b => let '(ok, f) := fputc c f in if ok : bool then put_bytes b f else (-1, f)
  end.
Definition put_u32 (u : Z) (f : ofile) : Z * ofile :=
  put_bytes [Z.land (u ≫ 24) 0xff; Z.land (u ≫ 16) 0xff; Z.land (u ≫ 8) 0xff; Z.land u 0xff] f.

(** The next [n] bytes, appended to the value [u]. *)
Fixpoint get_bytes (n : nat) (u : Z) (f : ifile) : option Z * ifile :=
  match n with
  | O => (Some u, f)
  | S n => let '(c, f) := fgetc f in
      match c with None => (None, f) | Some c => get_bytes n (Z.lor (uL dm (u ≪ 8)) c) f end
  end.
Definition get_u32 (f : ifile) : option Z * ifile := get_bytes 4 0 f.

(** The magic number, character by character. *)
Fixpoint get_magic (m : list Z) (f : ifile) : bool * ifile :=
  match m with
  | [] => (true, f)
  | x :: m => let '(c, f) := fgetc f in
      match c with Some c => if c =? x then get_magic m f else (false, f) | None => (false, f) end
  end.
Definition snd_magic : list Z := [46; 115; 110; 100].

(** The kinds of sound that the function pointers [input] and [output] select. *)
Inductive sound := Ulaw | Alaw | Linear.

(** The function value, the new value of [input] if it is set, and the stream. *)
Definition audio_init_input (f : ifile) : Z * option sound * ifile :=
  let '(ok, f) := get_magic snd_magic f in
  if negb ok then (-1, None, f)
  else
    match get_u32 f with
    | (None, f) => (-1, None, f)
    | (Some len, f) =>
        match get_u32 f with
        | (None, f) => (-1, None, f)
        | (Some _, f) =>
            match get_u32 f with
            | (None, f) => (-1, None, f)
            | (Some enc, f) =>
                let '(r, f) := fseek_cur (sL dm (uL dm (len - 4 * 4))) f in
                if r <? 0 then (-1, None, f)
                else (0, Some (if enc =? 1 then Ulaw else if enc =? 2 then Alaw else if enc =? 3 then Linear else Ulaw), f)
            end
        end
    end.

Fixpoint put_all (l : list Z) (f : ofile) : Z * ofile :=
  match l with
  | [] => (0, f)
  | u :: l => let '(r, f) := put_u32 u f in if r =? 0 then put_all l f else (-1, f)
  end.
Definition audio_init_output (f : ofile) : Z * ofile :=
  let '(n, f) := fwrite snd_magic f in
  if negb (n =? 4) then (-1, f)
  else put_all [32; uL dm (Z.lnot 0); 1; 8000; 1; 0; 0] f.
End Audio.

(** ** The conversion of a stream: toast.c *)

Section Process.
Context (dm : data_model) (k : sound) (bad : bool) (f_fast f_verbose : Z).

Definition input (buf : list Z) (f : ifile) : res (Z * list Z * ifile) :=
  match k with Ulaw => ulaw_input bad buf f | Alaw => alaw_input bad buf f | Linear => linear_input bad buf f end.
Definition output (buf : list Z) (f : ofile) : res (Z * ofile) :=
  match k with Ulaw => ulaw_output buf f | Alaw => alaw_output buf f | Linear => linear_output buf f end.

(** [gsm_create] and the two calls of [gsm_option]. *)
Definition gsm_start : gsm_state :=
  (gsm_option (gsm_option gsm_create 2 (Some f_fast)).1 1 (Some f_verbose)).1.

(** The loop of [process_encode]; [e] is the static array of [Gsm_Coder]. *)
Fixpoint encode_loop (fuel : nat) (r : gsm_state) (e s : list Z) (f : ifile) (o : ofile) : res (Z * ofile) :=
  match fuel with
  | O => Err OutOfFuel
  | S fuel =>
      '(cc, s, f) ← input s f;
      if 0 <? cc then
        s ← (if cc <? 160 then awrite s cc (replicate (Z.to_nat (160 - cc)) 0) else mret s);
        '(r, e, d) ← gsm_encode dm r e s;
        let '(n, o) := fwrite d o in
        if negb (n =? 33) then mret (-1, o) else encode_loop fuel r e s f o
      else if cc <? 0 then mret (-1, o) else mret (0, o)
  end.
(** [s] is the initial contents of the local array. *)
Definition process_encode (e s : list Z) (f : ifile) (o : ofile) : res (Z * ofile) :=
  encode_loop (S (length (idata f))) gsm_start e s f o.

Fixpoint decode_loop (fuel : nat) (r : gsm_state) (d : list Z) (f : ifile) (o : ofile) : res (Z * ofile) :=
  match fuel with
  | O => Err OutOfFuel
  | S fuel =>
      let '(s, f) := fread 33 f in
      if (length s =? 0)%nat then mret (0, o)
      else if negb (length s =? 33)%nat then mret (-1, o)
      else
        '(r, ret, t) ← gsm_decode dm r s;
        if negb (ret =? 0) then mret (-1, o)
        else
          let d := default d t in
          '(w, o) ← output d o;
          if w <? 0 then mret (-1, o) else decode_loop fuel r d f o
  end.
Definition process_decode (d : list Z) (f : ifile) (o : ofile) : res (Z * ofile) :=
  decode_loop (S (length (idata f))) gsm_start d f o.
End Process.

(** ** File names: toast.c *)

Definition SUFFIX_TOASTED : list Z := [46; 103; 115; 109].

(** [suffix(name, suf)]: the offset of the suffix in the name. *)
Definition suffix (name suf : list Z) : option nat :=
  let nlen := length name in
  let slen := length suf in
  if (slen =? 0)%nat || (nlen <=? slen)%nat then None
  else if bool_decide (drop (nlen - slen) name = suf) then Some (nlen - slen)%nat else None.

(** [normalname(name, want, cut)] in a buffer of [maxlen] bytes: an error if the result with its
    terminating zero does not fit. *)
Definition normalname (name want cut : list Z) : res (list Z) :=
  let maxlen := (length name + 1 + length want + length cut)%nat in
  let p := match suffix name cut with
           | Some s => take s name ++ want
           | None => if negb (length want =? 0)%nat && negb (bool_decide (is_Some (suffix name want))) then name ++ want else name
           end in
  if (length p + 1 <=? maxlen)%nat then mret p else Err OutOfBounds.
Definition plainname (name : list Z) : res (list Z) := normalname name [] SUFFIX_TOASTED.
Definition codename (name : list Z) : res (list Z) := normalname name SUFFIX_TOASTED [].

(** [strrchr(name, '/')]: what follows the slash. *)
Fixpoint after_slash (name : list Z) : option (list Z) :=
  match name with
  | [] => None
  | c :: name => match after_slash name with Some r => Some r | None => if c =? 47 then Some name else None end
  end.
Definition endname (name : list Z) : list Z :=
  match after_slash name with Some (c :: r) => c :: r | _ => name end.

(** [parse_argv0]: the flags [f_decode] and [f_cat]. *)
Definition parse_argv0 (av0 : list Z) : bool * bool :=
  let av0 := endname av0 in
  let un := bool_decide (take 2 av0 = [117; 110]) in
  let l := length av0 in
  if (3 <=? l)%nat && bool_decide (drop (l - 3) av0 = [99; 97; 116]) then (true, true) else (un, false).

(** The formats in the order of [alldescs], with their suffixes and their kind of sound. *)
Inductive fmtdesc := f_audio | f_alaw | f_ulaw | f_linear.
Definition fmt_suffix (f : fmtdesc) : list Z :=
  match f with f_audio => [46; 97; 117] | f_ulaw => [46; 117] | f_alaw => [46; 65] | f_linear => [46; 108] end.
Definition fmt_sound (f : fmtdesc) : sound :=
  match f with f_audio => Ulaw | f_ulaw => Ulaw | f_alaw => Alaw | f_linear => Linear end.
Definition alldescs : list fmtdesc := [f_audio; f_alaw; f_ulaw; f_linear].

Definition grok_format (name : list Z) : res (option fmtdesc) :=
  c ← plainname name;
  mret (find (fun f => bool_decide (is_Some (suffix c (fmt_suffix f)))) alldescs).

Example grok_example : grok_format [97; 46; 97; 117; 46; 103; 115; 109] = Ok (Some f_audio) /\
  grok_format [97; 46; 117] = Ok (Some f_ulaw) /\ grok_format [46; 117] = Ok None.
Proof. repeat split; vm_compute; reflexivity. Qed.

(** * Correctness *)

(** ** The companding tables *)

Section Companding.
Implicit Types (c x : Z).

(** What a code decodes to and what a sample is encoded as. *)
Definition alaw_value (c : Z) : Z := s16 (a2s !!! Z.to_nat c).
Definition ulaw_value (c : Z) : Z := s16 (u2s !!! Z.to_nat c).
Definition alaw_code (x : Z) : Z := s2a !!! Z.to_nat (u16 x / 16).
Definition ulaw_code (x : Z) : Z := s2u !!! Z.to_nat (u16 x / 8).

Lemma A2S_ok c : inU 8 c -> A2S c = Ok (a2s !!! Z.to_nat c).
Proof.
  intros Hc. unfold A2S. rewrite wrapU_id by exact Hc. unfold inU in Hc. change (2 ^ 8) with 256 in Hc.
  apply aget_total. change (Z.of_nat (length a2s)) with 256. lia.
Qed.

Lemma U2S_ok c : inU 8 c -> U2S c = Ok (u2s !!! Z.to_nat c).
Proof.
  intros Hc. unfold U2S. rewrite wrapU_id by exact Hc. unfold inU in Hc. change (2 ^ 8) with 256 in Hc.
  apply aget_total. change (Z.of_nat (length u2s)) with 256. lia.
Qed.

Lemma length_s2a : Z.of_nat (length s2a) = 4096.
Proof. vm_compute. reflexivity. Qed.
Lemma length_s2u : Z.of_nat (length s2u) = 8192.
Proof. vm_compute. reflexivity. Qed.

Lemma u16_div x n : 0 < n -> 0 <= u16 x / n /\ u16 x / n <= 65535 / n.
Proof.
  intros Hn. pose proof (wrapU_range 16 x ltac:(lia)) as [H1 H2]. change (2 ^ 16) with 65536 in H2.
  split; [apply Z.div_pos; lia|]. apply Z.div_le_mono; lia.
Qed.

Lemma S2A_ok x : S2A x = Ok (alaw_code x).
Proof.
  unfold S2A, alaw_code. rewrite Z.shiftr_div_pow2 by lia. change (2 ^ 4) with 16.
  apply aget_total. rewrite length_s2a. pose proof (u16_div x 16 ltac:(lia)) as [H1 H2].
  change (65535 / 16) with 4095 in H2. lia.
Qed.

Lemma S2U_ok x : S2U x = Ok (ulaw_code x).
Proof.
  unfold S2U, ulaw_code. rewrite Z.shiftr_div_pow2 by lia. change (2 ^ 3) with 8.
  apply aget_total. rewrite length_s2u. pose proof (u16_div x 8 ltac:(lia)) as [H1 H2].
  change (65535 / 8) with 8191 in H2. lia.
Qed.

(** The quantisation error at both ends of every interval of [w] samples that share a code. *)
Definition bound_ok (w : Z) (codes vals : list Z) (ok : Z -> Z -> bool) : bool :=
  forallb (fun '(i, c) => let y := s16 (vals !!! Z.to_nat c) in
    ok (s16 (w * i)) y && ok (s16 (w * i + (w - 1))) y) (zip (seqZ 0 (Z.of_nat (length codes))) codes).

Lemma bound_ok_spec w codes vals ok (i : Z) : bound_ok w codes vals ok = true ->
  0 <= i < Z.of_nat (length codes) -> let y := s16 (vals !!! Z.to_nat (codes !!! Z.to_nat i)) in
  ok (s16 (w * i)) y = true /\ ok (s16 (w * i + (w - 1))) y = true.
Proof.
  intros H Hi y. unfold bound_ok in H. rewrite forallb_forall in H.
  specialize (H (i, codes !!! Z.to_nat i)). cbv beta iota zeta in H. apply andb_prop, H.
  apply list_elem_of_In, list_elem_of_lookup. exists (Z.to_nat i). apply lookup_zip_with_Some.
  exists i, (codes !!! Z.to_nat i). split; [reflexivity|]. split; [apply lookup_seqZ; lia|].
  apply list_lookup_lookup_total_lt. lia.
Qed.

Lemma s16_value x : inS 16 x -> s16 (u16 x) = x.
Proof. unfold inS, wrapS, wrapU. change (2 ^ (16 - 1)) with 32768. change (2 ^ 16) with 65536. intros H. dlia. Qed.

(** The samples of an interval lie between its ends, and have the same sign. *)
Lemma interval_8 x : inS 16 x -> let i := u16 x / 8 in
  0 <= i < 8192 /\ s16 (8 * i) <= x <= s16 (8 * i + 7) /\ (0 <= s16 (8 * i) \/ s16 (8 * i + 7) < 0).
Proof. unfold inS, wrapS, wrapU. change (2 ^ (16 - 1)) with 32768. change (2 ^ 16) with 65536. intros H. dlia. Qed.

Lemma interval_16 x : inS 16 x -> let i := u16 x / 16 in
  0 <= i < 4096 /\ s16 (16 * i) <= x <= s16 (16 * i + 15) /\ (0 <= s16 (16 * i) \/ s16 (16 * i + 15) < 0) /\
  (x < 31760 -> s16 (16 * i + 15) < 31760).
Proof. unfold inS, wrapS, wrapU. change (2 ^ (16 - 1)) with 32768. change (2 ^ 16) with 65536. intros H. dlia. Qed.

Definition ulaw_near (x y : Z) : bool := 32 * Z.abs (y - x) <=? Z.abs x + 256.
Definition alaw_near (x y : Z) : bool := (31760 <=? x) && (y =? -31744) || (x <? 31760) && (8 * Z.abs (y - x) <=? Z.abs x + 248).

(** The same check with the ends of the intervals counted up, and the values converted once. *)
Definition signed16 (x : Z) : Z := if x <? 32768 then x else x - 65536.
Fixpoint bound_from (w x : Z) (codes ys : list Z) (ok : Z -> Z -> bool) : bool :=
  match codes with
  | [] => true
  | c :: codes => let y := ys !!! Z.to_nat c in (ok (signed16 x) y && ok (signed16 (x + (w - 1))) y) && bound_from w (x + w) codes ys ok
  end.

Lemma signed16_ok x : 0 <= x < 65536 -> signed16 x = s16 x.
Proof. intros Hx. unfold signed16, wrapS. change (2 ^ (16 - 1)) with 32768. change (2 ^ 16) with 65536. destruct (Z.ltb_spec x 32768); dlia. Qed.

Lemma bound_from_ok w vals ok codes : 0 < w -> forall i, 0 <= i -> w * (i + Z.of_nat (length codes)) <= 65536 ->
  bound_from w (w * i) codes (s16 <$> vals) ok = forallb (fun '(i, c) => let y := s16 (vals !!! Z.to_nat c) in ok (s16 (w * i)) y && ok (s16 (w * i + (w - 1))) y) (zip (seqZ i (Z.of_nat (length codes))) codes).
Proof.
  intros Hw. induction codes as [|c codes IH]; intros i Hi Hl; [reflexivity|]. cbn [length] in *. rewrite seqZ_cons by lia. cbn [bound_from zip zip_with forallb].
  assert ((s16 <$> vals) !!! Z.to_nat c = s16 (vals !!! Z.to_nat c)) as -> by (rewrite !list_lookup_total_alt, list_lookup_fmap; destruct (vals !! Z.to_nat c); reflexivity).
  rewrite !signed16_ok by nia. cbv zeta. f_equal. replace (w * i + w) with (w * Z.succ i) by lia. rewrite IH by lia. replace (Z.pred (Z.of_nat (S (length codes)))) with (Z.of_nat (length codes)) by lia. reflexivity.
Qed.

Lemma ulaw_table : bound_ok 8 s2u u2s ulaw_near = true.
Proof. unfold bound_ok. rewrite <- (bound_from_ok 8 u2s ulaw_near s2u) by (rewrite ?length_s2u; lia). vm_compute. reflexivity. Qed.
Lemma alaw_table : bound_ok 16 s2a a2s alaw_near = true.
Proof. unfold bound_ok. rewrite <- (bound_from_ok 16 a2s alaw_near s2a) by (rewrite ?length_s2a; lia). vm_compute. reflexivity. Qed.
Lemma codes_inU (codes : list Z) (i : Z) : forallb (fun c => (0 <=? c) && (c <? 256)) codes = true ->
  0 <= i < Z.of_nat (length codes) -> inU 8 (codes !!! Z.to_nat i).
Proof.
  intros H Hi. rewrite forallb_forall in H. specialize (H (codes !!! Z.to_nat i)). apply andb_prop in H as [H1 H2].
  - unfold inU. change (2 ^ 8) with 256. apply Z.leb_le in H1. apply Z.ltb_lt in H2. lia.
  - apply list_elem_of_In, list_elem_of_lookup_total. exists (Z.to_nat i). split; [lia|reflexivity].
Qed.

Lemma alaw_code_inU x : inU 8 (alaw_code x).
Proof.
  apply codes_inU; [vm_compute; reflexivity|]. rewrite length_s2a. pose proof (u16_div x 16 ltac:(lia)) as [H1 H2].
  change (65535 / 16) with 4095 in H2. lia.
Qed.

Lemma ulaw_code_inU x : inU 8 (ulaw_code x).
Proof.
  apply codes_inU; [vm_compute; reflexivity|]. rewrite length_s2u. pose proof (u16_div x 8 ltac:(lia)) as [H1 H2].
  change (65535 / 8) with 8191 in H2. lia.
Qed.

End Companding.

Lemma ulaw_values :
  (forall c, inU 8 c -> ulaw_code (ulaw_value c) = if c =? 127 then 255 else c) /\
  (forall x, inS 16 x -> 32 * Z.abs (ulaw_value (ulaw_code x) - x) <= Z.abs x + 256).
Proof.
  split.
  - intros c Hc. apply Z.eqb_eq.
    apply (forallb_seqZ (fun c => ulaw_code (ulaw_value c) =? if c =? 127 then 255 else c) 0 256); [vm_compute; reflexivity|].
    unfold inU in Hc. change (2 ^ 8) with 256 in Hc. lia.
  - intros x Hx. pose proof (interval_8 x Hx) as H0. cbv zeta in H0. destruct H0 as (Hi & Hb & Hs).
    pose proof (bound_ok_spec 8 s2u u2s ulaw_near _ ulaw_table ltac:(rewrite length_s2u; exact Hi)) as H.
    cbv zeta in H. change (8 - 1) with 7 in H. destruct H as [H1 H2]. fold (ulaw_code x) in H1, H2. fold (ulaw_value (ulaw_code x)) in H1, H2.
    unfold ulaw_near in H1, H2. apply Z.leb_le in H1, H2. lia.
Qed.

Lemma alaw_values :
  (forall c, inU 8 c -> alaw_code (alaw_value c) = Z.lxor c 128) /\
  (forall x, inS 16 x -> if x <? 31760 then 8 * Z.abs (alaw_value (alaw_code x) - x) <= Z.abs x + 248
                         else alaw_value (alaw_code x) = -31744).
Proof.
  split.
  - intros c Hc. apply Z.eqb_eq.
    apply (forallb_seqZ (fun c => alaw_code (alaw_value c) =? Z.lxor c 128) 0 256); [vm_compute; reflexivity|].
    unfold inU in Hc. change (2 ^ 8) with 256 in Hc. lia.
  - intros x Hx. pose proof (interval_16 x Hx) as H0. cbv zeta in H0. destruct H0 as (Hi & Hb & Hs & Ht).
    pose proof (bound_ok_spec 16 s2a a2s alaw_near _ alaw_table ltac:(rewrite length_s2a; exact Hi)) as H.
    cbv zeta in H. change (16 - 1) with 15 in H. destruct H as [H1 H2]. fold (alaw_code x) in H1, H2. fold (alaw_value (alaw_code x)) in H1, H2.
    unfold alaw_near in H1, H2. destruct (Z.ltb_spec x 31760) as [Hlt|Hge].
    + specialize (Ht Hlt). rewrite (proj2 (Z.leb_gt _ _)), (proj2 (Z.ltb_lt _ _)) in H1 by lia.
      rewrite (proj2 (Z.leb_gt _ _)), (proj2 (Z.ltb_lt _ _)) in H2 by lia. cbn [andb orb] in H1, H2.
      apply Z.leb_le in H1, H2. lia.
    + rewrite (proj2 (Z.leb_le _ _)), (proj2 (Z.ltb_ge _ _)) in H2 by lia. cbn [andb] in H2.
      rewrite orb_false_r in H2. now apply Z.eqb_eq in H2.
Qed.

(** The u-law tables: encoding the decoded code gives the code back, except 127 which gives
    255, and the quantisation error of a sample is bounded by its segment. *)
Theorem ulaw_transcode :
  (forall c, inU 8 c -> exists v, U2S c = Ok v /\ S2U (s16 v) = Ok (if c =? 127 then 255 else c)) /\
  (forall x, inS 16 x -> exists c v, S2U x = Ok c /\ U2S c = Ok v /\ 32 * Z.abs (s16 v - x) <= Z.abs x + 256).
Proof.
  destruct ulaw_values as [H1 H2]. split.
  - intros c Hc. eexists. rewrite U2S_ok by exact Hc. split; [reflexivity|]. rewrite S2U_ok. f_equal. exact (H1 c Hc).
  - intros x Hx. eexists _, _. rewrite S2U_ok, U2S_ok by apply ulaw_code_inU. repeat split. exact (H2 x Hx).
Qed.

(** The A-law tables: a code goes to a sample whose encoding is the code with its top bit
    complemented, and the quantisation error of a sample is bounded by the segment, except for
    the samples from 31760 on. *)
Theorem alaw_transcode :
  (forall c, inU 8 c -> exists v, A2S c = Ok v /\ S2A (s16 v) = Ok (Z.lxor c 128)) /\
  (forall x, inS 16 x -> exists c v, S2A x = Ok c /\ A2S c = Ok v /\
     if x <? 31760 then 8 * Z.abs (s16 v - x) <= Z.abs x + 248 else s16 v = -31744).
Proof.
  destruct alaw_values as [H1 H2]. split.
  - intros c Hc. eexists. rewrite A2S_ok by exact Hc. split; [reflexivity|]. rewrite S2A_ok. f_equal. exact (H1 c Hc).
  - intros x Hx. eexists _, _. rewrite S2A_ok, A2S_ok by apply alaw_code_inU. split; [reflexivity|]. split; [reflexivity|].
    exact (H2 x Hx).
Qed.

(** ** Input and output of frames *)

Section Frames.
Implicit Types (d buf : list Z) (n p i : nat) (k : sound).

(** The samples that the bytes [d] stand for; an odd last byte of linear sound is dropped. *)
Definition samples (k : sound) (d : list Z) : list Z :=
  match k with
  | Ulaw => ulaw_value <$> d
  | Alaw => alaw_value <$> d
  | Linear => (fun w => s16 (le_word w)) <$> blocks 2 (length d / 2) d
  end.
(** The bytes of a frame of samples. *)
Definition sound_bytes (k : sound) (s : list Z) : list Z :=
  match k with
  | Ulaw => (fun x => u8 (ulaw_code x)) <$> s
  | Alaw => (fun x => u8 (alaw_code x)) <$> s
  | Linear => mjoin (le_bytes 2 <$> s)
  end.

Lemma input_loop_ok (conv : Z -> res Z) (val : Z -> Z) d :
  Forall (fun c => okp (conv c) (fun v => s16 v = val c)) d ->
  forall n i p e buf, (i + n <= length buf)%nat ->
  okp (input_loop conv n (Z.of_nat i) buf (IFile d p e)) (fun '(i', eof, buf', f') =>
    let D := take n (drop p d) in
    i' = Z.of_nat (i + length D) /\ eof = (length D <? n)%nat /\ length buf' = length buf /\
    take (i + length D) buf' = take i buf ++ (val <$> D) /\ exists e', f' = IFile d (p + length D) e').
Proof.
  intros Hd n. induction n as [|n IH]; intros i p e buf Hl; cbn [input_loop].
  { rewrite take_0. cbn [okp mret res_ret length fmap list_fmap]. rewrite !Nat.add_0_r, app_nil_r. eauto 10. }
  destruct (d !! p) as [c|] eqn:E.
  - rewrite (fgetc_some d p e c E), (drop_S d c p E). cbn [take length].
    assert (okp (conv c) (fun v => s16 v = val c)) as Hc by (rewrite Forall_forall in Hd; apply Hd, list_elem_of_In, list_elem_of_lookup; eauto).
    eapply okp_bind; [exact Hc|]. cbv beta. intros v Hv.
    unfold aset. rewrite (proj2 (Z.leb_le _ _)), (proj2 (Z.ltb_lt _ _)) by lia. cbn [andb mbind res_bind]. rewrite Nat2Z.id.
    replace (Z.of_nat i + 1) with (Z.of_nat (S i)) by lia.
    eapply okp_mono; [apply IH; rewrite length_insert; lia|]. intros [[[i' eof] buf'] f'] (H1 & H2 & H3 & H4 & e' & H5).
    rewrite length_insert in H3. set (D := take n (drop (S p) d)) in *.
    rewrite !Nat.add_succ_r. rewrite Nat.add_succ_l in *. split; [exact H1|]. split; [exact H2|]. split; [exact H3|].
    split; [|exists e'; rewrite H5; f_equal; lia]. rewrite H4, (take_S_r _ i (s16 v)) by (apply list_lookup_insert_eq; lia).
    rewrite take_insert_ge, <- app_assoc, Hv by lia. reflexivity.
  - rewrite (fgetc_none d p e E), (drop_ge d p) by (now apply lookup_ge_None_1). rewrite take_nil.
    cbn [okp mret res_ret length fmap list_fmap]. rewrite !Nat.add_0_r, app_nil_r. eauto 10.
Qed.

Lemma inU8_of d p c : Forall (inU 8) d -> d !! p = Some c -> inU 8 c.
Proof. intros Hd Hc. eapply Forall_lookup_1; eauto. Qed.

Lemma length_samples k d : length (samples k d) = match k with Linear => (length d / 2)%nat | _ => length d end.
Proof. destruct k; cbn [samples]; rewrite length_fmap; [reflexivity..|apply length_blocks]. Qed.

Lemma samples_s16 k d : Forall (inS 16) (samples k d).
Proof.
  destruct k; cbn [samples]; apply Forall_fmap, Forall_forall; intros; apply wrapS_range; lia.
Qed.

Lemma blocks_take_drop (w n : nat) : forall q (d : list Z), blocks w (n + q) d = blocks w n d ++ blocks w q (drop (n * w) d).
Proof.
  induction n as [|n IH]; intros q d; cbn [Nat.add blocks Nat.mul]; [reflexivity|].
  rewrite IH, drop_drop. reflexivity.
Qed.

Lemma blocks_take_ge (w n : nat) : forall (m : nat) (a : list Z), (n * w <= m)%nat -> blocks w n (take m a) = blocks w n a.
Proof.
  induction n as [|n IH]; intros m a Hm; cbn [blocks]; [reflexivity|]. f_equal; [rewrite take_take; f_equal; lia|].
  rewrite <- (IH (m - w)%nat (drop w a)) by lia. rewrite take_drop_commute. do 3 f_equal. lia.
Qed.

Lemma samples_split (q : nat) d : (2 * q <= length d)%nat ->
  samples Linear d = ((fun w => s16 (le_word w)) <$> blocks 2 q d) ++ samples Linear (drop (2 * q) d).
Proof.
  intros H. cbn [samples]. rewrite length_drop.
  replace (length d)%nat with (q * 2 + (length d - 2 * q))%nat at 1 by lia. rewrite Nat.div_add_l by lia.
  rewrite blocks_take_drop, fmap_app. do 4 f_equal. lia.
Qed.

(** What one call of [input] at position [p] does: it delivers at most 160 of the samples [S] that
    remain and moves the position past them. *)
Definition input_post (k : sound) d p (r : Z * list Z * ifile) : Prop :=
  let '(cc, buf, f) := r in
  let S := samples k (drop p d) in
  cc = Z.of_nat (min 160 (length S)) /\ length buf = 160%nat /\ take (min 160 (length S)) buf = take 160 S /\
  exists p' e', f = IFile d p' e' /\ samples k (drop p' d) = drop 160 S /\ (0 < cc -> (p < p' /\ p < length d)%nat).

Lemma char_input_ok k conv val d p e buf : Forall (inU 8) d -> length buf = 160%nat ->
  (forall c, inU 8 c -> okp (conv c) (fun v => s16 v = val c)) -> (forall d, samples k d = val <$> d) ->
  okp (char_input conv false buf (IFile d p e)) (input_post k d p).
Proof.
  intros Hd Hb Hc Hk. unfold char_input.
  eapply okp_bind; [apply (input_loop_ok conv val d) with (i := 0%nat); [|lia]|].
  { eapply Forall_impl; [exact Hc|exact Hd]. }
  intros [[[i' eof] buf'] f'] (-> & -> & H3 & H4 & e' & ->). cbn [okp mret res_ret]. rewrite andb_false_r.
  unfold input_post. cbv zeta. rewrite Hk, length_fmap, length_drop. rewrite length_take, length_drop in *. cbn [Nat.add] in *.
  rewrite take_0 in H4. cbn [app] in H4.
  split; [reflexivity|]. split; [lia|]. split; [rewrite H4; apply fmap_take|].
  eexists _, e'. split; [reflexivity|]. split; [|lia]. rewrite Hk, <- fmap_drop, drop_drop. f_equal.
  destruct (decide (160 <= length d - p)%nat); [f_equal; lia|]. rewrite !drop_ge; [reflexivity|lia|lia].
Qed.

Lemma linear_input_ok d p e buf : length buf = 160%nat ->
  okp (linear_input false buf (IFile d p e)) (input_post Linear d p).
Proof.
  intros Hb. unfold linear_input, fread. cbn [idata ipos ieof]. set (R := drop p d).
  eapply okp_bind_eq.
  { apply awrite_ok; [lia|]. rewrite length_fmap, length_blocks, Hb, length_take.
    pose proof (Nat.div_le_mono (min 320 (length R)) 320 2 ltac:(lia) ltac:(lia)).
    change (320 / 2)%nat with 160%nat in *. lia. }
  rewrite length_fmap, length_blocks. change (Z.to_nat 0) with 0%nat. rewrite take_0, app_nil_l. cbn [Nat.add].
  cbn [okp mret res_ret]. unfold input_post. cbv zeta. fold R. rewrite length_samples.
  assert (length R = length d - p)%nat as HR by apply length_drop.
  set (q := (length (take 320 R) / 2)%nat).
  assert (q = min 160 (length R / 2)) as Hq.
  { unfold q. rewrite length_take. destruct (Nat.le_ge_cases 320 (length R)).
    - rewrite (Nat.min_l 320) by lia. change (320 / 2)%nat with 160%nat.
      pose proof (Nat.div_le_mono 320 (length R) 2 ltac:(lia) ltac:(lia)). change (320 / 2)%nat with 160%nat in *. lia.
    - rewrite Nat.min_r by lia. pose proof (Nat.div_le_mono (length R) 320 2 ltac:(lia) ltac:(lia)).
      change (320 / 2)%nat with 160%nat in *. lia. }
  assert (2 * q <= length R)%nat as H2q by (pose proof (Nat.mul_div_le (length R) 2 ltac:(lia)); lia).
  assert (blocks 2 q (take 320 R) = blocks 2 q R) as HB.
  { apply blocks_take_ge. unfold q. pose proof (Nat.mul_div_le (length (take 320 R)) 2 ltac:(lia)).
    rewrite length_take in *. lia. }
  rewrite HB, Hq. split; [reflexivity|]. rewrite <- Hq.
  assert (samples Linear R = ((fun w => s16 (le_word w)) <$> blocks 2 q R) ++ samples Linear (drop (2 * q) R)) as HS
    by (apply samples_split; lia).
  assert (length ((fun w => s16 (le_word w)) <$> blocks 2 q R) = q) as Hl by (rewrite length_fmap; apply length_blocks).
  split; [rewrite length_app, Hl, length_drop; lia|].
  destruct (decide (length R < 320)%nat) as [Hs|Hs].
  - assert (samples Linear (drop (2 * q) R) = []) as Hnil.
    { apply nil_length_inv. rewrite length_samples, length_drop. rewrite Nat.min_r in Hq.
      - pose proof (Nat.mod_upper_bound (length R) 2). pose proof (Nat.div_mod_eq (length R) 2).
        apply Nat.div_small. lia.
      - pose proof (Nat.div_le_mono (length R) 320 2 ltac:(lia) ltac:(lia)). change (320 / 2)%nat with 160%nat in *. lia. }
    rewrite Hnil, app_nil_r in HS. rewrite HS. split.
    + rewrite take_app_le, !take_ge by lia. reflexivity.
    + eexists _, _. split; [reflexivity|]. split; [|rewrite length_take; lia]. rewrite (drop_ge _ 160) by lia.
      rewrite (take_ge R) by lia. rewrite drop_ge by lia. reflexivity.
  - assert (q = 160)%nat as Hq160.
    { pose proof (Nat.div_le_mono 320 (length R) 2 ltac:(lia) ltac:(lia)). change (320 / 2)%nat with 160%nat in *. lia. }
    rewrite Hq160 in *. rewrite HS. split.
    + rewrite !take_app_le, !take_ge by lia. reflexivity.
    + eexists _, _. split; [reflexivity|]. split; [|rewrite length_take; lia].
      rewrite drop_app_ge, Hl, Nat.sub_diag, drop_0 by lia. unfold R. rewrite drop_drop, length_take, length_drop. do 2 f_equal. lia.
Qed.

Lemma input_ok k d p e buf : Forall (inU 8) d -> length buf = 160%nat ->
  okp (input k false buf (IFile d p e)) (input_post k d p).
Proof.
  intros Hd Hb. destruct k; cbn [input].
  - apply (char_input_ok Ulaw U2S ulaw_value); [exact Hd|exact Hb| |reflexivity].
    intros c Hc. rewrite (U2S_ok c Hc). reflexivity.
  - apply (char_input_ok Alaw A2S alaw_value); [exact Hd|exact Hb| |reflexivity].
    intros c Hc. rewrite (A2S_ok c Hc). reflexivity.
  - now apply linear_input_ok.
Qed.
End Frames.

Section Loops.
Context (dm : data_model).
Implicit Types (d s buf : list Z) (n p i : nat) (k : sound) (o : ofile).

Lemma output_loop_ok (code : Z -> Z) (c : Z -> res Z) buf : (forall x, c x = Ok (code x)) ->
  forall n i o, (i + n = length buf)%nat -> (n <= room o)%nat ->
  output_loop c n (Z.of_nat i) buf o = Ok (0, OFile (odata o ++ ((fun x => u8 (code x)) <$> drop i buf)) (room o - n)).
Proof.
  intros Hc n. induction n as [|n IH]; intros i o Hi Hr; cbn [output_loop].
  - rewrite drop_ge by lia. cbn [fmap list_fmap]. rewrite app_nil_r, Nat.sub_0_r. destruct o; reflexivity.
  - rewrite aget_total by lia. cbn [mbind res_bind]. rewrite Nat2Z.id, Hc. cbn [mbind res_bind].
    rewrite fputc_ok by lia. replace (Z.of_nat i + 1) with (Z.of_nat (S i)) by lia.
    rewrite IH by (cbn [room]; lia). cbn [odata room]. rewrite <- app_assoc.
    rewrite (drop_S buf (buf !!! i) i) by (apply list_lookup_lookup_total_lt; lia).
    replace (room o - S n)%nat with (room o - 1 - n)%nat by lia. reflexivity.
Qed.

Lemma length_sound_bytes k s : length (sound_bytes k s) = match k with Linear => (2 * length s)%nat | _ => length s end.
Proof.
  destruct k; cbn [sound_bytes]; [apply length_fmap..|]. induction s as [|x s IH]; [reflexivity|].
  change (mjoin (le_bytes 2 <$> x :: s)) with (le_bytes 2 x ++ mjoin (le_bytes 2 <$> s)).
  rewrite length_app, length_le_bytes, IH. cbn [length]. lia.
Qed.

Lemma flat_map_mjoin (f : Z -> list Z) (l : list Z) : flat_map f l = mjoin (f <$> l).
Proof. induction l as [|x l IH]; [reflexivity|]. cbn [flat_map]. rewrite IH. reflexivity. Qed.

Lemma output_ok k buf o : length buf = 160%nat -> (length (sound_bytes k buf) <= room o)%nat ->
  output k buf o = Ok (0, OFile (odata o ++ sound_bytes k buf) (room o - length (sound_bytes k buf))).
Proof.
  intros Hb Hr. pose proof (length_sound_bytes k buf) as Hl. destruct k; cbn [output].
  - unfold ulaw_output. rewrite (output_loop_ok ulaw_code S2U buf S2U_ok 160 0) by lia.
    rewrite drop_0. do 3 f_equal. lia.
  - unfold alaw_output. rewrite (output_loop_ok alaw_code S2A buf S2A_ok 160 0) by lia.
    rewrite drop_0. do 3 f_equal. lia.
  - unfold linear_output. eapply bind_eq; [apply aread_all; lia|]. cbn [sound_bytes] in *.
    rewrite flat_map_mjoin, fwrite_all by exact Hr. rewrite Hl, Hb. reflexivity.
Qed.

(** The frames that [process_encode] makes of the samples. *)
Definition frames_of (S : list Z) : list (list Z) := pad_blocks 160 S.

Lemma frames_warr S : Forall (inS 16) S -> Forall (warr 160) (frames_of S).
Proof.
  unfold frames_of. remember (length S) as n eqn:Hn. revert S Hn. induction (lt_wf n) as [n _ IH]. intros S -> HS.
  destruct (decide (length S = 0)%nat) as [H0|H0]; [apply nil_length_inv in H0 as ->; constructor|].
  rewrite pad_blocks_cons by lia. constructor.
  - split; [rewrite length_app, length_take, length_replicate; lia|].
    apply Forall_app_2; [now apply Forall_take|]. apply Forall_replicate. unfold inS. lia.
  - apply (IH (length (drop 160 S))); [rewrite length_drop; lia|reflexivity|now apply Forall_drop].
Qed.

Lemma synced_refl E : synced E E.
Proof. repeat split; reflexivity. Qed.

Lemma encode_loop_ok k d : Forall (inU 8) d -> forall fuel p eof E e s o,
  gsm_inv E -> warr 50 e -> length s = 160%nat -> (length d - p < fuel)%nat ->
  (33 * length (frames_of (samples k (drop p d))) <= room o)%nat ->
  okp (encode_loop dm k false fuel E e s (IFile d p eof) o) (fun '(ret, o') => ret = 0 /\
    exists E' e' cs, encode_stream dm E e (frames_of (samples k (drop p d))) = Ok (E', e', cs) /\
      odata o' = odata o ++ mjoin cs).
Proof.
  intros Hd fuel. induction fuel as [|fuel IH]; intros p eof E e s o HE He Hs Hf Hr; [lia|]. cbn [encode_loop].
  eapply okp_bind; [apply input_ok; [exact Hd|exact Hs]|]. intros [[cc s'] f'] (Hcc & Hs' & Ht & p' & e' & -> & Hrest & Hpos).
  set (S := samples k (drop p d)) in *.
  destruct (Z.ltb_spec 0 cc) as [H0|H0].
  - eapply okp_bind_eq with (a := take 160 S ++ replicate (160 - length S) 0).
    { destruct (Z.ltb_spec cc 160).
      - rewrite awrite_ok by (rewrite ?length_replicate; lia). f_equal. rewrite length_replicate.
        rewrite (drop_ge s') by lia. rewrite app_nil_r.
        replace (Z.to_nat cc) with (min 160 (length S)) by lia. rewrite Ht. do 2 f_equal. lia.
      - unfold mret, res_ret. f_equal. replace (160 - length S)%nat with 0%nat by lia. cbn [replicate].
        rewrite app_nil_r, <- Ht. symmetry. apply take_ge. lia. }
    unfold frames_of in *. rewrite pad_blocks_cons in * by lia. set (x := take 160 S ++ replicate (160 - length S) 0) in *.
    assert (warr 160 x) as Hx.
    { pose proof (frames_warr S (samples_s16 k _)) as H. unfold frames_of in H. rewrite pad_blocks_cons in H by lia.
      exact (Forall_inv H). }
    destruct (gsm_encode_decode dm E E e x HE HE (synced_refl E) He Hx) as (E1 & e1 & c & D1 & t & EE & HE1 & He1 & Hc & _).
    eapply okp_bind_eq; [exact EE|]. cbn [length] in *. rewrite fwrite_all by lia. rewrite Hc.
    change (negb (Z.of_nat 33 =? 33)) with false. cbv iota.
    eapply okp_mono; [apply IH; [exact HE1|exact He1|destruct Hx; lia|lia|]|].
    + rewrite Hrest. cbn [room]. unfold frames_of. lia.
    + intros [ret o'] (Hret & E' & e2 & cs & Hcs & Ho). split; [exact Hret|]. rewrite Hrest in Hcs.
      exists E', e2, (c :: cs). cbn [encode_stream]. rewrite EE. cbn [mbind res_bind]. unfold frames_of in Hcs.
      rewrite Hcs. cbn [mbind res_bind mret res_ret]. split; [reflexivity|]. rewrite Ho. cbn [odata].
      rewrite <- app_assoc. reflexivity.
  - rewrite (proj2 (Z.ltb_ge cc 0)) by lia. cbn [okp mret res_ret]. split; [reflexivity|].
    assert (S = []) as -> by (apply nil_length_inv; lia). exists E, e, []. cbn.
    split; [reflexivity|now rewrite app_nil_r].
Qed.

(** What stops the decoder: the end of the input, an incomplete frame or a frame with a wrong magic number. *)
Definition stop_value (rest : list Z) : option Z :=
  if (length rest =? 0)%nat then Some 0
  else if (length rest <? 33)%nat then Some (-1)
  else match bad_magic (take 33 rest) with Ok true => Some (-1) | _ => None end.

Definition out_samples (ts : list (Z * option (list Z))) : list (list Z) := (fun t => default [] t.2) <$> ts.

Lemma decode_loop_ok k rest v : stop_value rest = Some v -> forall cs fuel pre D buf o D' ts eof,
  Forall (fun c => length c = 33%nat) cs -> decode_stream dm D cs = Ok (D', ts) -> Forall decoded ts ->
  (length cs < fuel)%nat -> (320 * length cs <= room o)%nat ->
  okp (decode_loop dm k fuel D buf (IFile (pre ++ mjoin cs ++ rest) (length pre) eof) o) (fun '(ret, o') => ret = v /\
    odata o' = odata o ++ mjoin (sound_bytes k <$> out_samples ts)).
Proof.
  intros Hv cs. induction cs as [|c cs IH]; intros fuel pre D buf o D' ts eof Hcs Hds Hts Hf Hr; (destruct fuel as [|fuel]; [lia|]);
    cbn [decode_loop]; unfold fread; cbn [idata ipos ieof]; rewrite drop_app_ge, Nat.sub_diag, drop_0 by lia.
  - cbn [decode_stream] in Hds. injection Hds as <- <-. cbn [mjoin list_join app]. unfold stop_value in Hv.
    cbn [out_samples fmap list_fmap mjoin list_join]. rewrite app_nil_r. rewrite length_take.
    destruct (Nat.eqb_spec (length rest) 0) as [E0|E0].
    { injection Hv as <-. rewrite E0. cbn. auto. }
    rewrite (proj2 (Nat.eqb_neq _ 0)) by lia. destruct (Nat.ltb_spec (length rest) 33) as [Hlt|Hge].
    { injection Hv as <-. rewrite (proj2 (Nat.eqb_neq _ 33)) by lia. cbn. auto. }
    destruct (bad_magic (take 33 rest)) as [[]|] eqn:Eb; [|discriminate..]. injection Hv as <-.
    rewrite (proj2 (Nat.eqb_eq _ 33)) by lia. cbn [negb]. unfold gsm_decode. rewrite Eb.
    cbn. auto.
  - pose proof (Forall_inv Hcs) as Hc. apply Forall_inv_tail in Hcs. cbv beta in Hc.
    change (mjoin (c :: cs)) with (c ++ mjoin cs). rewrite <- (app_assoc c), take_app_le, (take_ge c) by lia. rewrite Hc.
    cbn [Nat.eqb negb]. cbn [decode_stream] in Hds.
    destruct (gsm_decode dm D c) as [[[D1 r] t]|]; [|discriminate]. cbn [mbind res_bind] in *.
    destruct (decode_stream dm D1 cs) as [[D2 ts2]|] eqn:E2; [|discriminate]. cbn [mbind res_bind mret res_ret] in Hds.
    injection Hds as <- <-. pose proof (Forall_inv Hts) as (x & Hx & Hwx). injection Hx as -> ->.
    apply Forall_inv_tail in Hts. change (negb (0 =? 0)) with false. cbv iota. cbn [default from_option id]. destruct Hwx as [Hlx _].
    assert (length (sound_bytes k x) <= 320)%nat as Hlb by (rewrite length_sound_bytes; destruct k; cbv iota; lia).
    cbn [length] in *. rewrite (output_ok k x o) by lia. cbn [mbind res_bind Z.ltb Z.compare].
    rewrite (app_assoc pre). replace (length pre + 33)%nat with (length (pre ++ c)) by (rewrite length_app; lia).
    eapply okp_mono; [apply (IH fuel (pre ++ c) D1 x _ D2 ts2); [exact Hcs|exact E2|exact Hts|lia|cbn [room]; lia]|].
    intros [ret o'] [H1 H2]. split; [exact H1|]. rewrite H2. cbn [odata]. rewrite <- app_assoc. reflexivity.
Qed.
End Loops.

(** ** The claims about streams *)

Section Claims.
Implicit Types (d s buf e : list Z) (p n : nat) (k : sound) (o : ofile).

Lemma gsm_start_inv (f_fast f_verbose : Z) : gsm_inv (gsm_start f_fast f_verbose).
Proof. exact gsm_create_inv. Qed.

Lemma length_decoded k ts : Forall decoded ts ->
  length (mjoin (sound_bytes k <$> out_samples ts)) = match k with Linear => 320 * length ts | _ => 160 * length ts end%nat.
Proof.
  induction 1 as [|t ts (x & -> & Hx) _ IH]; [destruct k; reflexivity|].
  unfold out_samples in *. rewrite !fmap_cons, mjoin_cons, length_app, IH, length_sound_bytes.
  cbn [length snd default from_option id]. destruct Hx as [Hx _]. destruct k; lia.
Qed.

Lemma length_frames cs : Forall (fun c : list Z => length c = 33%nat) cs -> length (mjoin cs) = (33 * length cs)%nat.
Proof.
  induction 1 as [|c cs Hc _ IH]; [reflexivity|]. rewrite mjoin_cons, length_app, IH, Hc. cbn [length]. lia.
Qed.

Lemma length_encoded dm l : forall g e g' e' cs, encode_stream dm g e l = Ok (g', e', cs) -> length cs = length l.
Proof.
  induction l as [|x l IH]; intros g e g' e' cs H; cbn [encode_stream] in H; [injection H as <- <- <-; reflexivity|].
  destruct (gsm_encode dm g e x) as [[[g1 e1] c]|]; [|discriminate]. cbn [mbind res_bind] in H.
  destruct (encode_stream dm g1 e1 l) as [[[g2 e2] cs2]|] eqn:E; [|discriminate]. cbn [mbind res_bind mret res_ret] in H.
  injection H as <- <- <-. cbn [length]. f_equal. exact (IH _ _ _ _ _ E).
Qed.

End Claims.


(** process_decode on good frames followed by anything that stops it writes the samples of
    the good frames and then returns 0 at the end of the input, and -1 on an incomplete frame or
    a frame with a wrong magic number. *)
Theorem toast_decode_stops dm k (f1 v1 v : Z) cs rest buf n D' ts :
  Forall (fun c => length c = 33%nat) cs -> decode_stream dm (gsm_start f1 v1) cs = Ok (D', ts) -> Forall decoded ts ->
  stop_value rest = Some v -> (320 * length cs <= n)%nat ->
  okp (process_decode dm k f1 v1 buf (IFile (mjoin cs ++ rest) 0 false) (OFile [] n)) (fun '(ret, o) => ret = v /\
    odata o = mjoin (sound_bytes k <$> out_samples ts)).
Proof.
  intros Hcs Hds Hts Hv Hn. unfold process_decode. cbn [idata].
  apply (decode_loop_ok dm k rest v Hv cs _ [] (gsm_start f1 v1) buf (OFile [] n) D' ts false); [exact Hcs|exact Hds|exact Hts| |exact Hn].
  rewrite length_app, (length_frames cs Hcs). lia.
Qed.

(** An incomplete input: one good frame of zeros, then 20 bytes. *)
Definition frame0 : list Z := 0xd0 :: replicate 32 0.
Lemma frame0_decodes D' ts : decode_stream ILP32 (gsm_start 0 0) [frame0] = Ok (D', ts) -> Forall decoded ts.
Proof.
  assert (match decode_stream ILP32 (gsm_start 0 0) [frame0] with
    | Ok (_, [(0, Some t)]) => bool_decide (warr 160 t) | _ => false end = true) as H by (vm_compute; reflexivity).
  intros E. rewrite E in H. destruct ts as [|[[] [t|]] []]; try discriminate H.
  constructor; [|constructor]. exists t. split; [reflexivity|exact (bool_decide_eq_true_1 _ H)].
Qed.

Lemma toast_decode_stops_witness :
  match decode_stream ILP32 (gsm_start 0 0) [frame0] with
  | Ok (D', ts) => stop_value (replicate 20 0) = Some (-1) /\
      okp (process_decode ILP32 Ulaw 0 0 (replicate 160 0) (IFile (mjoin [frame0] ++ replicate 20 0) 0 false) (OFile [] 320)) (fun '(ret, o) =>
        ret = -1 /\ odata o = mjoin (sound_bytes Ulaw <$> out_samples ts))
  | Err _ => False
  end.
Proof.
  pose proof (fun D' ts => toast_decode_stops ILP32 Ulaw 0 0 (-1) [frame0] (replicate 20 0) (replicate 160 0) 320 D' ts) as H.
  destruct (decode_stream ILP32 (gsm_start 0 0) [frame0]) as [[D' ts]|] eqn:E.
  - split; [reflexivity|]. apply H with D'; [by repeat constructor|reflexivity|exact (frame0_decodes D' ts E)|reflexivity|cbn; lia].
  - exfalso. assert (match decode_stream ILP32 (gsm_start 0 0) [frame0] with Ok _ => true | _ => false end = true) as Hk
      by (vm_compute; reflexivity). rewrite E in Hk. discriminate.
Defined.

(** ** The audio header *)

Section Header.
Implicit Types (b l : list Z) (f : ofile).

Lemma put_bytes_ok b : forall f, (length b <= room f)%nat ->
  put_bytes b f = (0, OFile (odata f ++ (u8 <$> b)) (room f - length b)).
Proof.
  induction b as [|c b IH]; intros f Hl; cbn [put_bytes length] in *.
  - cbn [fmap list_fmap]. rewrite app_nil_r, Nat.sub_0_r. destruct f; reflexivity.
  - rewrite fputc_ok by lia. rewrite IH by (cbn [room]; lia). cbn [odata room fmap list_fmap].
    rewrite <- app_assoc. cbn [app]. do 2 f_equal. lia.
Qed.

Definition u32_bytes (u : Z) : list Z :=
  u8 <$> [Z.land (u ≫ 24) 0xff; Z.land (u ≫ 16) 0xff; Z.land (u ≫ 8) 0xff; Z.land u 0xff].

Lemma put_all_ok l : forall f, (4 * length l <= room f)%nat ->
  put_all l f = (0, OFile (odata f ++ mjoin (u32_bytes <$> l)) (room f - 4 * length l)).
Proof.
  induction l as [|u l IH]; intros f Hl; cbn [put_all length] in *.
  - cbn. rewrite app_nil_r, Nat.sub_0_r. destruct f; reflexivity.
  - unfold put_u32. rewrite put_bytes_ok by (cbn [length]; lia). cbn [Z.eqb].
    rewrite IH by (cbn [room length]; lia). cbn [odata room length].
    change (u32_bytes <$> u :: l) with (u32_bytes u :: (u32_bytes <$> l)). rewrite mjoin_cons, <- app_assoc.
    unfold u32_bytes at 1. do 2 f_equal. lia.
Qed.
End Header.

(** audio_init_output writes a header of 32 bytes, and audio_init_input, on a stream that
    starts with it, accepts it, selects u-law and stops at the first byte after it, for both
    widths of long. *)
Theorem audio_header dm n data : (32 <= n)%nat -> exists h,
  audio_init_output dm (OFile [] n) = (0, OFile h (n - 32)) /\ length h = 32%nat /\
  audio_init_input dm (IFile (h ++ data) 0 false) = (0, Some Ulaw, IFile (h ++ data) 32 false).
Proof.
  intros Hn. exists (snd_magic ++ mjoin (u32_bytes <$> [32; uL dm (Z.lnot 0); 1; 8000; 1; 0; 0])).
  split; [|destruct dm; split; reflexivity].
  unfold audio_init_output. rewrite fwrite_all by (cbn; lia). cbn [snd_magic length]. cbn [Z.of_nat Pos.of_succ_nat Pos.succ Z.eqb Pos.eqb negb].
  rewrite put_all_ok by (cbn [length room]; lia). cbn [length odata room app]. do 2 f_equal. lia.
Qed.

Lemma audio_header_witness : (32 <= 40)%nat /\ exists h,
  audio_init_output LP64 (OFile [] 40) = (0, OFile h (40 - 32)) /\ length h = 32%nat /\
  audio_init_input LP64 (IFile (h ++ [1; 2]) 0 false) = (0, Some Ulaw, IFile (h ++ [1; 2]) 32 false).
Proof. split; [lia|]. apply (audio_header LP64 40 [1; 2]). lia. Defined.

(** ** The file names *)

Lemma suffix_app (name suf : list Z) : name <> [] -> suf <> [] -> suffix (name ++ suf) suf = Some (length name).
Proof.
  intros Hn Hs. unfold suffix. rewrite length_app. destruct name as [|x name]; [contradiction|]. destruct suf as [|y suf]; [contradiction|].
  cbn [length]. rewrite (proj2 (Nat.eqb_neq _ 0)), (proj2 (Nat.leb_gt _ _)) by lia. cbn [orb].
  rewrite drop_app_ge by (cbn [length]; lia). cbn [length].
  replace (S (length name) + S (length suf) - S (length suf))%nat with (S (length name)) by lia.
  rewrite Nat.sub_diag, drop_0, bool_decide_true by reflexivity. reflexivity.
Qed.

(** codename appends .gsm exactly when the suffix is not there and plainname takes it away
    again; neither overruns the buffer of normalname. *)
Theorem toast_names name : name <> [] ->
  (suffix name SUFFIX_TOASTED = None -> codename name = Ok (name ++ SUFFIX_TOASTED) /\
     plainname name = Ok name /\ plainname (name ++ SUFFIX_TOASTED) = Ok name) /\
  (forall i, suffix name SUFFIX_TOASTED = Some i -> codename name = Ok name /\ plainname name = Ok (take i name) /\
     name = take i name ++ SUFFIX_TOASTED).
Proof.
  intros Hne. unfold plainname, codename, normalname.
  assert (suffix name [] = None) as E0 by reflexivity. assert (forall s, suffix s [] = None) as E00 by reflexivity.
  split.
  - intros E. rewrite E, E0, bool_decide_false by (intros [? ?]; congruence).
    rewrite (suffix_app name SUFFIX_TOASTED Hne) by discriminate. rewrite take_app_length, app_nil_r.
    assert (length SUFFIX_TOASTED = 4%nat) as Hl by reflexivity. rewrite !length_app, !Hl. cbn [length Nat.eqb negb andb].
    rewrite !length_app, !Hl.
    rewrite !(proj2 (Nat.leb_le _ _)) by lia. auto.
  - intros i E. rewrite E, E0, bool_decide_true by (eexists; reflexivity). cbn [negb andb]. rewrite andb_false_r.
    assert (name = take i name ++ SUFFIX_TOASTED) as Hn.
    { unfold suffix in E. destruct (_ || _); [discriminate|]. case_bool_decide as Hd; [|discriminate]. injection E as <-.
      rewrite <- (take_drop (length name - length SUFFIX_TOASTED) name) at 1. f_equal. exact Hd. }
    rewrite app_nil_r, length_take. change (length SUFFIX_TOASTED) with 4%nat. rewrite !(proj2 (Nat.leb_le _ _)) by lia. auto.
Qed.

Lemma toast_names_witness : [97] <> [] /\
  (suffix [97] SUFFIX_TOASTED = None -> codename [97] = Ok ([97] ++ SUFFIX_TOASTED) /\
     plainname [97] = Ok [97] /\ plainname ([97] ++ SUFFIX_TOASTED) = Ok [97]) /\
  (forall i, suffix [97] SUFFIX_TOASTED = Some i -> codename [97] = Ok [97] /\ plainname [97] = Ok (take i [97]) /\
     [97] = take i [97] ++ SUFFIX_TOASTED).
Proof. split; [discriminate|]. apply (toast_names [97]). discriminate. Defined.
