(* ===== verification/Sha.v ===== *)
(** NIST Secure Hash Algorithm (src/mibench/security/sha/sha.c, sha.h), the original SHA without
    the 1994 rotation, as the build selects it.

    [LONG] is [unsigned long], so every operation takes the data model; [le] says whether the
    macro LITTLE_ENDIAN is defined (the target is little-endian). With 32-bit [long] and
    LITTLE_ENDIAN defined the streaming code computes the hash of FIPS 180; with 64-bit [long]
    it does not. *)
From stdpp Require Import base list numbers option tactics.
From Stdlib Require Import ZArith Lia.
From S2P Require Import Prelude Bytes.

(** [SHA_INFO]; [data] is the memory of [LONG data[16]], byte by byte. *)
Record SHA_INFO := ShaInfo { digest : list Z; count_lo : Z; count_hi : Z; data : list Z }.

Definition SHA_BLOCKSIZE : Z := 64.
Definition BLOCK_SIZE : Z := 8192.

Section ShaModel.
Context (dm : data_model) (le : bool).

Definition sizeof_LONG : nat := match dm with ILP32 => 4 | LP64 => 8 end.

Definition f1 (x y z : Z) : Z := Z.lor (Z.land x y) (Z.land (uL dm (Z.lnot x)) z).
Definition f2 (x y z : Z) : Z := Z.lxor (Z.lxor x y) z.
Definition f3 (x y z : Z) : Z := Z.lor (Z.lor (Z.land x y) (Z.land x z)) (Z.land y z).
Definition f4 (x y z : Z) : Z := Z.lxor (Z.lxor x y) z.

Definition CONST1 : Z := 0x5a827999.
Definition CONST2 : Z := 0x6ed9eba1.
Definition CONST3 : Z := 0x8f1bbcdc.
Definition CONST4 : Z := 0xca62c1d6.

Definition ROT32 (x n : Z) : Z := Z.lor (uL dm (x ≪ n)) (x ≫ (32 - n)).

Definition regs : Type := Z * Z * Z * Z * Z.

(** [FUNC(n,i)], with [f] for [f##n] and [c] for [CONST##n]. *)
Definition FUNC (f : Z -> Z -> Z -> Z) (c : Z) (W : list Z) (s : regs) (i : nat) : regs :=
  let '(A, B, C, D, E) := s in
  let temp := uL dm (uL dm (uL dm (uL dm (ROT32 A 5 + f B C D) + E) + W !!! i) + c) in
  (temp, A, ROT32 B 30, C, D).

(** [sha_info->data[i]] as a word of the target. *)
Definition data_word (data : list Z) (i : nat) : Z :=
  le_word (take sizeof_LONG (drop (i * sizeof_LONG) data)).

Definition sha_schedule (data : list Z) : list Z :=
  let W := data_word data <$> seq 0 16 in
  fold_left (fun W i =>
    W ++ [Z.lxor (Z.lxor (Z.lxor (W !!! (i - 3)%nat) (W !!! (i - 8)%nat)) (W !!! (i - 14)%nat))
            (W !!! (i - 16)%nat)]) (seq 16 64) W.

Definition sha_transform (s : SHA_INFO) : SHA_INFO :=
  let W := sha_schedule (data s) in
  let H i := digest s !!! i in
  let r := (H 0%nat, H 1%nat, H 2%nat, H 3%nat, H 4%nat) in
  let r := fold_left (FUNC f1 CONST1 W) (seq 0 20) r in
  let r := fold_left (FUNC f2 CONST2 W) (seq 20 20) r in
  let r := fold_left (FUNC f3 CONST3 W) (seq 40 20) r in
  let '(A, B, C, D, E) := fold_left (FUNC f4 CONST4 W) (seq 60 20) r in
  ShaInfo [uL dm (H 0%nat + A); uL dm (H 1%nat + B); uL dm (H 2%nat + C); uL dm (H 3%nat + D);
           uL dm (H 4%nat + E)] (count_lo s) (count_hi s) (data s).

(** The loop of [byte_reverse] from [cp] on: the first four bytes of each of [n] words. *)
Fixpoint byte_reverse_loop (n : nat) (cp : list Z) : list Z :=
  match n with
  | O => cp
  | S n =>
      [cp !!! 3%nat; cp !!! 2%nat; cp !!! 1%nat; cp !!! 0%nat] ++
      take (sizeof_LONG - 4) (drop 4 cp) ++ byte_reverse_loop n (drop sizeof_LONG cp)
  end.

Definition byte_reverse (buffer : list Z) (count : nat) : list Z :=
  byte_reverse_loop (count / sizeof_LONG) buffer.

(** The call under [#ifdef LITTLE_ENDIAN]. *)
Definition maybe_reverse (data : list Z) : list Z :=
  if le then byte_reverse data 64 else data.

Definition sha_init (s : SHA_INFO) : SHA_INFO :=
  ShaInfo [0x67452301; 0xefcdab89; 0x98badcfe; 0x10325476; 0xc3d2e1f0] 0 0 (data s).

(** [memcpy(data, buffer, n)]. *)
Definition data_copy (s : SHA_INFO) (buffer : list Z) (n : nat) : SHA_INFO :=
  ShaInfo (digest s) (count_lo s) (count_hi s) (take n buffer ++ drop n (data s)).
Definition with_data (s : SHA_INFO) (d : list Z) : SHA_INFO :=
  ShaInfo (digest s) (count_lo s) (count_hi s) d.

Fixpoint sha_update_loop (fuel : nat) (s : SHA_INFO) (buffer : list Z) (count : Z) : res SHA_INFO :=
  match fuel with
  | O => Err OutOfFuel
  | S fuel =>
      if SHA_BLOCKSIZE <=? count then
        let s := data_copy s buffer 64 in
        let s := with_data s (maybe_reverse (data s)) in
        let s := sha_transform s in
        sha_update_loop fuel s (drop 64 buffer) (count - SHA_BLOCKSIZE)
      else mret (data_copy s buffer (Z.to_nat count))
  end.

Definition sha_update (s : SHA_INFO) (buffer : list Z) (count : Z) : res SHA_INFO :=
  let bits := uL dm (count ≪ 3) in
  let hi := if uL dm (count_lo s + bits) <? count_lo s
            then uL dm (count_hi s + 1) else count_hi s in
  let s := ShaInfo (digest s) (uL dm (count_lo s + bits)) (uL dm (hi + (count ≫ 29))) (data s) in
  sha_update_loop (S (Z.to_nat count)) s buffer count.

(** [memset] of [n] bytes of [data] to 0, starting at byte [from]. *)
Definition data_zero (d : list Z) (from n : nat) : list Z :=
  take from d ++ replicate n 0 ++ drop (from + n) d.

(** [sha_info->data[i] = v]. *)
Definition data_set (d : list Z) (i : nat) (v : Z) : list Z :=
  take (i * sizeof_LONG) d ++ le_bytes sizeof_LONG v ++ drop (S i * sizeof_LONG) d.

Definition sha_final (s : SHA_INFO) : SHA_INFO :=
  let lo_bit_count := count_lo s in
  let hi_bit_count := count_hi s in
  let count := Z.to_nat (Z.land (lo_bit_count ≫ 3) 0x3f) in
  let d := <[count := 0x80]> (data s) in
  let count := S count in
  let s :=
    if (56 <? count)%nat then
      let d := data_zero d count (64 - count) in
      let s := sha_transform (with_data s (maybe_reverse d)) in
      with_data s (data_zero (data s) 0 56)
    else with_data s (data_zero d count (56 - count)) in
  let d := maybe_reverse (data s) in
  let d := data_set (data_set d 14 hi_bit_count) 15 lo_bit_count in
  sha_transform (with_data s d).

(** [while ((i = fread(data, 1, BLOCK_SIZE, fin)) > 0)]: [fin] is what is left of the file. *)
Fixpoint sha_stream_loop (fuel : nat) (s : SHA_INFO) (fin : list Z) : res SHA_INFO :=
  match fuel with
  | O => Err OutOfFuel
  | S fuel =>
      let i := Z.min BLOCK_SIZE (Z.of_nat (length fin)) in
      if 0 <? i then
        s ← sha_update s (take (Z.to_nat i) fin) i;
        sha_stream_loop fuel s (drop (Z.to_nat i) fin)
      else mret s
  end.

Definition sha_stream (s : SHA_INFO) (fin : list Z) : res SHA_INFO :=
  s ← sha_stream_loop (S (length fin)) (sha_init s) fin;
  mret (sha_final s).
End ShaModel.

(** * The specification: FIPS 180 (1993) *)

Module Spec.
Definition rotl (x n : Z) : Z := (x * 2 ^ n) mod 2 ^ 32 + x / 2 ^ (32 - n).
Definition ch (x y z : Z) : Z := Z.lxor (Z.land x y) (Z.land (2 ^ 32 - 1 - x) z).
Definition parity (x y z : Z) : Z := Z.lxor x (Z.lxor y z).
Definition maj (x y z : Z) : Z := Z.lxor (Z.lxor (Z.land x y) (Z.land x z)) (Z.land y z).
Definition fk (t : nat) : (Z -> Z -> Z -> Z) * Z :=
  if (t <? 20)%nat then (ch, 0x5a827999) else if (t <? 40)%nat then (parity, 0x6ed9eba1)
  else if (t <? 60)%nat then (maj, 0x8f1bbcdc) else (parity, 0xca62c1d6).

(** The message schedule, newest word first. *)
Fixpoint schedule_rev (n : nat) (w : list Z) : list Z :=
  match n with
  | O => w
  | S n => let w := schedule_rev n w in
           Z.lxor (w !!! 2%nat) (Z.lxor (w !!! 7%nat) (Z.lxor (w !!! 13%nat) (w !!! 15%nat))) :: w
  end.
Definition schedule (block : list Z) : list Z := rev (schedule_rev 64 (rev (be_word <$> blocks 4 16 block))).

Definition round (W : list Z) (s : Z * Z * Z * Z * Z) (t : nat) : Z * Z * Z * Z * Z :=
  let '(a, b, c, d, e) := s in
  ((rotl a 5 + (fk t).1 b c d + e + (fk t).2 + W !!! t) mod 2 ^ 32, a, rotl b 30, c, d).

Definition compress (H block : list Z) : list Z :=
  let '(a, b, c, d, e) := fold_left (round (schedule block)) (seq 0 80)
    (H !!! 0%nat, H !!! 1%nat, H !!! 2%nat, H !!! 3%nat, H !!! 4%nat) in
  zip_with (fun x y => (x + y) mod 2 ^ 32) H [a; b; c; d; e].

Definition H0 : list Z := [0x67452301; 0xefcdab89; 0x98badcfe; 0x10325476; 0xc3d2e1f0].

(** The message, a one bit, zeros up to 56 modulo 64, and its length in bits. *)
Definition pad (m : list Z) : list Z :=
  m ++ [0x80] ++ replicate (Z.to_nat ((55 - Z.of_nat (length m)) mod 64)) 0 ++
  be_bytes 8 (8 * Z.of_nat (length m)).

Definition sha0 (m : list Z) : list Z :=
  fold_left compress (blocks 64 (length (pad m) / 64) (pad m)) H0.
End Spec.

Example sha0_abc : Spec.sha0 [0x61; 0x62; 0x63] = [0x0164b8a9; 0x14cd2a5e; 0x74c4f7ff; 0x082c4d97; 0xf1edf880].
Proof. vm_compute. reflexivity. Qed.

Example sha_stream_abc s : length (data s) = 64%nat ->
  exists s', sha_stream ILP32 true s [0x61; 0x62; 0x63] = Ok s' /\
  digest s' = [0x0164b8a9; 0x14cd2a5e; 0x74c4f7ff; 0x082c4d97; 0xf1edf880].
Proof.
  destruct s as [? ? ? d]. cbn [data]. intros H.
  do 64 (destruct d as [|? d]; [discriminate|]). destruct d; [|discriminate].
  eexists. split; [vm_compute; reflexivity|reflexivity].
Qed.

(** * With 32-bit [long] and LITTLE_ENDIAN defined *)

(** The registers hold 32-bit words. *)
Definition regs_ok (s : regs) : Prop :=
  let '(a, b, c, d, e) := s in inU 32 a /\ inU 32 b /\ inU 32 c /\ inU 32 d /\ inU 32 e.

Section Words32.
Implicit Types (x y z n : Z) (s : regs) (W H : list Z).

Lemma not32 x : inU 32 x -> uL ILP32 (Z.lnot x) = 2 ^ 32 - 1 - x.
Proof. intros Hx. unfold Z.lnot, wrapU. cbn [long_bits]. cint_unfold. dlia. Qed.

Lemma not32_bit x n : inU 32 x -> 0 <= n < 32 -> Z.testbit (2 ^ 32 - 1 - x) n = negb (Z.testbit x n).
Proof.
  intros Hx Hn. rewrite <- not32 by assumption. cbn [long_bits].
  unfold wrapU. rewrite Z.mod_pow2_bits_low by lia. apply Z.lnot_spec. lia.
Qed.

Lemma f1_ch x y z : inU 32 x -> inU 32 y -> inU 32 z -> f1 ILP32 x y z = Spec.ch x y z.
Proof.
  intros Hx Hy Hz. unfold f1, Spec.ch. rewrite not32 by assumption.
  apply Z.bits_inj'. intros n Hn. rewrite Z.lor_spec, Z.lxor_spec, !Z.land_spec.
  destruct (Z.ltb_spec n 32).
  - rewrite not32_bit by (assumption || lia). destruct (Z.testbit x n), (Z.testbit y n), (Z.testbit z n); reflexivity.
  - rewrite (inU_high 32 x), (inU_high 32 z), !andb_false_r by (assumption || lia). reflexivity.
Qed.

Lemma f2_parity x y z : f2 x y z = Spec.parity x y z.
Proof. unfold f2, Spec.parity. apply Z.lxor_assoc. Qed.

Lemma f3_maj x y z : f3 x y z = Spec.maj x y z.
Proof.
  unfold f3, Spec.maj. apply Z.bits_inj'. intros n _.
  rewrite !Z.lor_spec, !Z.lxor_spec, !Z.land_spec.
  destruct (Z.testbit x n), (Z.testbit y n), (Z.testbit z n); reflexivity.
Qed.

(** Rotation by shifts and an or, as an addition of the two parts. *)
Lemma ROT32_rotl x n : inU 32 x -> 0 < n < 32 -> ROT32 ILP32 x n = Spec.rotl x n.
Proof.
  intros Hx Hn. unfold ROT32, Spec.rotl, wrapU. cbn [long_bits].
  rewrite Z.shiftl_mul_pow2, Z.shiftr_div_pow2 by lia.
  assert ((x * 2 ^ n) mod 2 ^ 32 = (x mod 2 ^ (32 - n)) * 2 ^ n) as ->.
  { replace (2 ^ 32) with (2 ^ (32 - n) * 2 ^ n) 
      by (rewrite <- (Z.pow_add_r 2 (32 - n) n) by lia; f_equal; lia).
    apply Zmult_mod_distr_r. }
  apply lor_disjoint_add; [lia|]. assert (0 < 2 ^ (32 - n)) by lia. unfold inU in Hx.
  split; [apply Z.div_pos; lia|]. apply Z.div_lt_upper_bound; [lia|].
  rewrite <- (Z.pow_add_r 2 (32 - n) n) by lia. replace (32 - n + n) with 32 by lia. lia.
Qed.

Lemma rotl_range x n : inU 32 x -> 0 < n < 32 -> inU 32 (Spec.rotl x n).
Proof.
  intros Hx Hn. rewrite <- ROT32_rotl by assumption. unfold ROT32. cbn [long_bits].
  apply inU_lor; [lia|apply wrapU_range; lia|]. apply inU_shiftr; [lia|lia|exact Hx].
Qed.

Lemma FUNC_round f c W s (i : nat) :
  regs_ok s -> (forall x y z, inU 32 x -> inU 32 y -> inU 32 z -> f x y z = (Spec.fk i).1 x y z) ->
  c = (Spec.fk i).2 ->
  FUNC ILP32 f c W s i = Spec.round W s i /\ regs_ok (Spec.round W s i).
Proof.
  intros Hs Hf ->. destruct s as [[[[a b] c] d] e]. destruct Hs as (Ha & Hb & Hc & Hd & He).
  unfold FUNC, Spec.round. rewrite Hf, !ROT32_rotl by (assumption || lia).
  split.
  - unfold wrapU. cbn [long_bits]. repeat rewrite <- ?Z.add_assoc, Zplus_mod_idemp_l. do 5 f_equal. lia.
  - unfold regs_ok. split; [apply Z.mod_pos_bound; lia|]. auto using rotl_range with lia.
Qed.

Lemma fold_FUNC f c W (m : nat) : forall (i : nat) s, regs_ok s ->
  (forall k, (i <= k < i + m)%nat -> c = (Spec.fk k).2 /\
    forall x y z, inU 32 x -> inU 32 y -> inU 32 z -> f x y z = (Spec.fk k).1 x y z) ->
  fold_left (FUNC ILP32 f c W) (seq i m) s = fold_left (Spec.round W) (seq i m) s /\
  regs_ok (fold_left (Spec.round W) (seq i m) s).
Proof.
  induction m as [|m IH]; intros i s Hs Hk; [auto|]. cbn [seq fold_left].
  destruct (Hk i ltac:(lia)) as [Hc Hf]. destruct (FUNC_round f c W s i Hs Hf Hc) as [-> Hs'].
  apply IH; [exact Hs'|]. intros k Hlt. apply Hk. lia.
Qed.

Lemma rounds_spec W s : regs_ok s ->
  fold_left (FUNC ILP32 f4 CONST4 W) (seq 60 20)
   (fold_left (FUNC ILP32 f3 CONST3 W) (seq 40 20)
     (fold_left (FUNC ILP32 f2 CONST2 W) (seq 20 20)
       (fold_left (FUNC ILP32 (f1 ILP32) CONST1 W) (seq 0 20) s)))
  = fold_left (Spec.round W) (seq 0 80) s.
Proof.
  intros Hs. change 80%nat with (20 + (20 + (20 + 20)))%nat. rewrite !seq_app, !fold_left_app.
  cbn [Nat.add].
  destruct (fold_FUNC (f1 ILP32) CONST1 W 20 0 s Hs) as [-> H1].
  { intros k Hk. unfold Spec.fk. rewrite (proj2 (Nat.ltb_lt k 20)) by lia. split; [reflexivity|apply f1_ch]. }
  destruct (fold_FUNC f2 CONST2 W 20 20 _ H1) as [-> H2].
  { intros k Hk. unfold Spec.fk. rewrite (proj2 (Nat.ltb_ge k 20)), (proj2 (Nat.ltb_lt k 40)) by lia.
    split; [reflexivity|intros; apply f2_parity]. }
  destruct (fold_FUNC f3 CONST3 W 20 40 _ H2) as [-> H3].
  { intros k Hk. unfold Spec.fk.
    rewrite (proj2 (Nat.ltb_ge k 20)), (proj2 (Nat.ltb_ge k 40)), (proj2 (Nat.ltb_lt k 60)) by lia.
    split; [reflexivity|intros; apply f3_maj]. }
  destruct (fold_FUNC f4 CONST4 W 20 60 _ H3) as [-> _]; [|reflexivity].
  intros k Hk. unfold Spec.fk.
  rewrite (proj2 (Nat.ltb_ge k 20)), (proj2 (Nat.ltb_ge k 40)), (proj2 (Nat.ltb_ge k 60)) by lia.
  split; [reflexivity|intros; apply f2_parity].
Qed.
End Words32.

(** ** The message schedule *)

Section Schedule.
Implicit Types (W w : list Z) (n i : nat).

Definition schedule_step W i : list Z :=
  W ++ [Z.lxor (Z.lxor (Z.lxor (W !!! (i - 3)%nat) (W !!! (i - 8)%nat)) (W !!! (i - 14)%nat))
          (W !!! (i - 16)%nat)].

Lemma rev_total w i : (i < length w)%nat -> rev w !!! i = w !!! (length w - 1 - i)%nat.
Proof.
  intros H. rewrite !list_lookup_total_alt, rev_alt. f_equal. change (rev_append w []) with (reverse w).
  rewrite reverse_lookup by lia. f_equal. lia.
Qed.

Lemma schedule_rev_length n w : length (Spec.schedule_rev n w) = (n + length w)%nat.
Proof. induction n as [|n IH]; cbn; [reflexivity|now rewrite IH]. Qed.

(** Appending in order builds the reverse of the schedule built at the front. *)
Lemma schedule_fold n : forall W, length W = 16%nat ->
  fold_left schedule_step (seq 16 n) W = rev (Spec.schedule_rev n (rev W)).
Proof.
  induction n as [|n IH]; intros W Hl; [cbn; now rewrite rev_involutive|].
  rewrite seq_S, fold_left_app, IH by assumption. cbn [fold_left Spec.schedule_rev rev].
  set (w := Spec.schedule_rev n (rev W)).
  assert (length w = (n + 16)%nat) as Hw by (unfold w; rewrite schedule_rev_length, length_rev; lia).
  unfold schedule_step. rewrite !rev_total by lia. f_equal. f_equal.
  replace (length w - 1 - (16 + n - 3))%nat with 2%nat by lia.
  replace (length w - 1 - (16 + n - 8))%nat with 7%nat by lia.
  replace (length w - 1 - (16 + n - 14))%nat with 13%nat by lia.
  replace (length w - 1 - (16 + n - 16))%nat with 15%nat by lia.
  rewrite !Z.lxor_assoc. reflexivity.
Qed.

Lemma sha_schedule_words data :
  sha_schedule ILP32 data = rev (Spec.schedule_rev 64 (rev (data_word ILP32 data <$> seq 0 16))).
Proof. apply (schedule_fold 64). reflexivity. Qed.
End Schedule.

(** ** Blocks *)

(** Compression of 16 words. *)
Definition compress_words (H words : list Z) : list Z :=
  let '(a, b, c, d, e) := fold_left (Spec.round (rev (Spec.schedule_rev 64 (rev words)))) (seq 0 80)
    (H !!! 0%nat, H !!! 1%nat, H !!! 2%nat, H !!! 3%nat, H !!! 4%nat) in
  zip_with (fun x y => (x + y) mod 2 ^ 32) H [a; b; c; d; e].

Definition digest_ok (H : list Z) : Prop := length H = 5%nat /\ Forall (inU 32) H.

Section Blocks.
Implicit Types (s : SHA_INFO) (d T : list Z).

Lemma compress_block H d : Spec.compress H d = compress_words H (be_word <$> blocks 4 16 d).
Proof. unfold Spec.compress, compress_words, Spec.schedule. reflexivity. Qed.

Lemma compress_words_ok H words : digest_ok H -> digest_ok (compress_words H words).
Proof.
  intros [Hl _]. unfold compress_words.
  destruct (fold_left _ _ _) as [[[[a b] c] d] e].
  do 5 (destruct H as [|? H]; [discriminate|]). destruct H; [|discriminate]. cbn [zip_with].
  split; [reflexivity|]. repeat (constructor; [apply Z.mod_pos_bound; lia|]). constructor.
Qed.

Lemma sha_transform_words s : digest_ok (digest s) ->
  sha_transform ILP32 s =
    ShaInfo (compress_words (digest s) (data_word ILP32 (data s) <$> seq 0 16))
      (count_lo s) (count_hi s) (data s).
Proof.
  destruct s as [H lo hi d]. intros [Hl Hok]. cbn [digest data count_lo count_hi] in *.
  unfold sha_transform, compress_words. cbn [digest data count_lo count_hi].
  rewrite sha_schedule_words. set (W := rev _).
  do 5 (destruct H as [|? H]; [discriminate|]). destruct H; [|discriminate].
  rewrite rounds_spec.
  - destruct (fold_left _ _ _) as [[[[a b] c] e] f]. reflexivity.
  - unfold regs_ok. repeat match goal with H : Forall _ (_ :: _) |- _ =>
      pose proof (Forall_inv H); apply Forall_inv_tail in H end. cbn. auto.
Qed.

(** Reversing the bytes of every word turns big-endian words into words of the target. *)
Lemma reversed_words d : length d = 64%nat ->
  data_word ILP32 (byte_reverse ILP32 d 64) <$> seq 0 16 = be_word <$> blocks 4 16 d.
Proof.
  intros Hl. do 64 (destruct d as [|? d]; [discriminate|]). destruct d; [|discriminate]. reflexivity.
Qed.

Lemma length_byte_reverse d : length d = 64%nat -> length (byte_reverse ILP32 d 64) = 64%nat.
Proof.
  intros Hl. do 64 (destruct d as [|? d]; [discriminate|]). destruct d; [|discriminate]. reflexivity.
Qed.

(** The last block: 56 bytes of message and padding, then the two count words. *)
Lemma final_words T d hi lo : length T = 56%nat -> length d = 8%nat -> inU 32 hi -> inU 32 lo ->
  data_word ILP32 (data_set ILP32 (data_set ILP32 (byte_reverse ILP32 (T ++ d) 64) 14 hi) 15 lo) <$> seq 0 16
    = be_word <$> blocks 4 16 (T ++ be_bytes 8 (hi * 2 ^ 32 + lo)).
Proof.
  intros HT Hd Hhi Hlo.
  assert (be_bytes 8 (hi * 2 ^ 32 + lo) = be_bytes 4 hi ++ be_bytes 4 lo) as ->.
  { unfold be_bytes. rewrite <- rev_app_distr. f_equal. cbn [le_bytes app].
    unfold inU in *. do 7 (f_equal; [dlia|]). f_equal. dlia. }
  do 8 (destruct d as [|? d]; [discriminate|]). destruct d; [|discriminate].
  do 56 (destruct T as [|? T]; [discriminate|]). destruct T; [|discriminate].
  reflexivity.
Qed.
End Blocks.

(** ** Streaming *)

(** From here on the proofs treat the compression as a black box. *)
#[local] Opaque compress_words Spec.compress sha_transform byte_reverse data_word be_word.

Section Stream.
Implicit Types (s : SHA_INFO) (m buf d P : list Z) (n fuel : nat).

Lemma compress_ok H d : digest_ok H -> digest_ok (Spec.compress H d).
Proof. intros Hok. rewrite compress_block. exact (compress_words_ok H _ Hok). Qed.

Lemma fold_compress_ok l H : digest_ok H -> digest_ok (fold_left Spec.compress l H).
Proof. apply (fold_left_inv digest_ok). intros. now apply compress_ok. Qed.

(** Transforming a full block that was copied in and byte-reversed. *)
Lemma transform_block s d : digest_ok (digest s) -> length d = 64%nat ->
  sha_transform ILP32 (with_data s (maybe_reverse ILP32 true d)) =
    ShaInfo (Spec.compress (digest s) d) (count_lo s) (count_hi s) (byte_reverse ILP32 d 64).
Proof.
  destruct s as [H lo hi d0]. cbn [digest count_lo count_hi]. intros Hok Hl.
  unfold with_data, maybe_reverse. cbn [digest count_lo count_hi].
  rewrite sha_transform_words by exact Hok. cbn [digest count_lo count_hi data].
  rewrite reversed_words by exact Hl. rewrite compress_block. reflexivity.
Qed.

Definition block_tail m : list Z := drop (64 * (length m / 64)) m.

(** What is left of [buf] after its full blocks. *)
Definition copied s s' buf : Prop :=
  digest s' = fold_left Spec.compress (blocks 64 (length buf / 64) buf) (digest s) /\
  count_lo s' = count_lo s /\ count_hi s' = count_hi s /\ length (data s') = 64%nat /\
  take (length buf mod 64) (data s') = block_tail buf.

Lemma sha_update_loop_ok fuel : forall s buf,
  (length buf < fuel)%nat -> digest_ok (digest s) -> length (data s) = 64%nat ->
  okp (sha_update_loop ILP32 true fuel s buf (Z.of_nat (length buf))) (fun s' => copied s s' buf).
Proof.
  induction fuel as [|fuel IH]; intros s buf Hf Hok Hl; [lia|]. cbn [sha_update_loop].
  unfold SHA_BLOCKSIZE. unfold copied, block_tail. destruct (Z.leb_spec 64 (Z.of_nat (length buf))).
  - unfold data_copy at 1 2. cbn [data].
    assert (length (take 64 buf ++ drop 64 (data s)) = 64%nat) as Hl'
      by (rewrite length_app, length_take, length_drop; lia).
    assert (take 64 buf ++ drop 64 (data s) = take 64 buf) as E by (rewrite drop_ge, app_nil_r by lia; reflexivity).
    change (with_data _ ?x) with (with_data s x). rewrite E in *.
    rewrite transform_block by assumption.
    assert ((length buf / 64 = S (length (drop 64 buf) / 64))%nat /\
            (length buf mod 64 = length (drop 64 buf) mod 64)%nat) as [Eq Em].
    { rewrite length_drop. apply (block_split 64); lia. }
    replace (Z.of_nat (length buf) - 64) with (Z.of_nat (length (drop 64 buf))) by (rewrite length_drop; lia).
    eapply okp_mono; [apply IH|].
    + rewrite length_drop. lia.
    + exact (compress_ok _ _ Hok).
    + cbn [data]. now apply length_byte_reverse.
    + intros s' (H1 & H2 & H3 & H4 & H5). cbn [digest count_lo count_hi] in *.
      split; [|split; [exact H2|split; [exact H3|split; [exact H4|]]]].
      * rewrite Eq, blocks_S, fold_left_cons. exact H1.
      * rewrite Em, H5, Eq. unfold block_tail. rewrite drop_drop. f_equal. lia.
  - rewrite Nat.div_small, Nat.mod_small by lia. cbn [okp mret res_ret data_copy digest count_lo count_hi data].
    rewrite Nat2Z.id, Nat.mul_0_r, drop_0.
    split; [reflexivity|]. split; [reflexivity|]. split; [reflexivity|]. split.
    + rewrite length_app, length_take, length_drop. lia.
    + rewrite (take_ge buf) by lia. now rewrite take_app_length'.
Qed.

(** The carry between the two count words. *)
Lemma count_carry (a b : Z) : 0 <= a -> 0 <= b < 2 ^ 29 -> 8 * (a + b) < 2 ^ 64 ->
  ((if ((8 * a) mod 2 ^ 32 + (b * 8) mod 2 ^ 32) mod 2 ^ 32 <? (8 * a) mod 2 ^ 32
    then (8 * a / 2 ^ 32 + 1) mod 2 ^ 32 else 8 * a / 2 ^ 32) + 0) mod 2 ^ 32 = 8 * (a + b) / 2 ^ 32.
Proof.
  intros Ha Hb Hm. cint_unfold. change (2 ^ 64) with 18446744073709551616 in *.
  destruct (Z.ltb_spec (((8 * a) mod 4294967296 + (b * 8) mod 4294967296) mod 4294967296)
    ((8 * a) mod 4294967296)); dlia.
Qed.

(** The state that has seen the message [m]. *)
Definition sha_seen m s : Prop :=
  digest s = fold_left Spec.compress (blocks 64 (length m / 64) m) Spec.H0 /\
  count_lo s = (8 * Z.of_nat (length m)) mod 2 ^ 32 /\
  count_hi s = 8 * Z.of_nat (length m) / 2 ^ 32 /\
  length (data s) = 64%nat /\ take (length m mod 64) (data s) = block_tail m.

Lemma sha_seen_digest_ok m s : sha_seen m s -> digest_ok (digest s).
Proof. intros [-> _]. apply fold_compress_ok. by_eval. Qed.

(** An update extends the message, provided the earlier part is a whole number of blocks. *)
Lemma sha_update_ok m s buf :
  sha_seen m s -> (length m mod 64 = 0)%nat -> Z.of_nat (length buf) < 2 ^ 29 ->
  8 * Z.of_nat (length (m ++ buf)) < 2 ^ 64 ->
  okp (sha_update ILP32 true s buf (Z.of_nat (length buf))) (sha_seen (m ++ buf)).
Proof.
  intros Hs Hm Hb Hmax. pose proof (sha_seen_digest_ok m s Hs) as Hok.
  destruct Hs as (Hd & Hlo & Hhi & Hl & Ht). unfold sha_update.
  rewrite Nat2Z.id. set (s1 := ShaInfo _ _ _ _).
  eapply okp_mono; [apply (sha_update_loop_ok (S (length buf)) s1 buf); [lia|exact Hok|exact Hl]|].
  intros s' (H1 & H2 & H3 & H4 & H5). rewrite length_app in *.
  pose proof (Nat.div_mod_eq (length m) 64) as Edm.
  set (q := (length m / 64)%nat) in *. assert (length m = q * 64)%nat as Em by lia.
  assert (((length m + length buf) / 64 = q + length buf / 64)%nat /\
          ((length m + length buf) mod 64 = length buf mod 64)%nat) as [Eq Er].
  { rewrite Em. apply block_add. lia. }
  unfold sha_seen. rewrite length_app, Eq, Er. split; [|split; [|split; [|split; [exact H4|]]]].
  - rewrite H1, blocks_app, fold_left_app by exact Em. unfold s1. cbn [digest]. now rewrite Hd.
  - rewrite H2. unfold s1. cbn [count_lo]. rewrite Hlo, Z.shiftl_mul_pow2 by lia. change (2 ^ 3) with 8.
    unfold wrapU. cbn [long_bits]. rewrite Zplus_mod_idemp_l, Zplus_mod_idemp_r. f_equal. lia.
  - rewrite H3. unfold s1. cbn [count_hi]. rewrite Hlo, Hhi, Z.shiftl_mul_pow2, Z.shiftr_div_pow2 by lia.
    change (2 ^ 3) with 8. unfold wrapU. cbn [long_bits].
    replace (Z.of_nat (length buf) / 2 ^ 29) with 0 by (symmetry; apply Z.div_small; lia).
    rewrite Nat2Z.inj_add in *. apply count_carry; lia.
  - rewrite H5. unfold block_tail. rewrite length_app, Eq, drop_app_ge by lia. f_equal. lia.
Qed.

Lemma sha_stream_loop_ok fuel : forall s m fin,
  (length fin < fuel)%nat -> sha_seen m s -> (length m mod 64 = 0)%nat \/ fin = [] ->
  8 * Z.of_nat (length (m ++ fin)) < 2 ^ 64 ->
  okp (sha_stream_loop ILP32 true fuel s fin) (sha_seen (m ++ fin)).
Proof.
  induction fuel as [|fuel IH]; intros s m fin Hf Hs Hm Hmax; [lia|]. cbn [sha_stream_loop].
  unfold BLOCK_SIZE. destruct (Z.ltb_spec 0 (Z.min 8192 (Z.of_nat (length fin)))).
  2: { destruct fin; [|cbn [length] in *; lia]. now rewrite app_nil_r. }
  destruct Hm as [Hm| ->]; [|cbn in *; lia].
  set (n := Z.to_nat (Z.min 8192 (Z.of_nat (length fin)))).
  assert (length (take n fin) = n) as Hn by (rewrite length_take; unfold n; lia).
  replace (Z.min 8192 (Z.of_nat (length fin))) with (Z.of_nat (length (take n fin))) by (rewrite Hn; unfold n; lia).
  rewrite length_app in Hmax. eapply okp_bind.
  { apply (sha_update_ok m s (take n fin) Hs Hm); [rewrite Hn; unfold n; lia|].
    rewrite length_app, Hn. unfold n. lia. }
  intros s' Hs'. eapply okp_mono; [apply (IH s' (m ++ take n fin) (drop n fin))|].
  - rewrite length_drop. unfold n. lia.
  - exact Hs'.
  - destruct (decide (Z.of_nat (length fin) <= 8192)).
    + right. apply drop_ge. unfold n. lia.
    + left. rewrite length_app, Hn. replace n with (128 * 64)%nat by (unfold n; lia).
      rewrite Nat.Div0.mod_add. exact Hm.
  - rewrite <- app_assoc, take_drop, length_app. lia.
  - intros s2. now rewrite <- app_assoc, take_drop.
Qed.

(** Marking the end of the message and clearing up to the count words. *)
Lemma data_pad P J n : (S n <= length J)%nat ->
  data_zero (<[length P := 0x80]> (P ++ J)) (S (length P)) n = P ++ 0x80 :: replicate n 0 ++ drop (S n) J.
Proof.
  intros H. unfold data_zero. destruct J as [|x J]; [cbn in H; lia|].
  rewrite insert_app_r_alt, Nat.sub_diag by lia. cbn [insert list_insert].
  rewrite (cons_middle 0x80 P J), (app_assoc P [0x80] J). rewrite take_app_length' by (rewrite length_app; cbn; lia).
  rewrite (drop_app_ge (P ++ [0x80])) by (rewrite length_app; cbn; lia).
  rewrite <- app_assoc. cbn [app drop]. do 4 f_equal. rewrite length_app. cbn. lia.
Qed.

Lemma sha_count lo (len : nat) : lo = (8 * Z.of_nat len) mod 2 ^ 32 ->
  Z.to_nat (Z.land (lo ≫ 3) 0x3f) = (len mod 64)%nat.
Proof.
  intros ->. change 0x3f with (Z.ones 6). rewrite Z.land_ones, Z.shiftr_div_pow2 by lia.
  change (2 ^ 3) with 8. change (2 ^ 6) with 64. cint_unfold.
  rewrite <- (Nat2Z.id (len mod 64)). f_equal. rewrite Nat2Z.inj_mod. dlia.
Qed.

(** The full blocks of a message do not depend on what follows them. *)
Lemma blocks_full m T n : 
  blocks 64 (length m / 64 + n) (m ++ T) = blocks 64 (length m / 64) m ++ blocks 64 n (block_tail m ++ T).
Proof.
  unfold block_tail. set (q := (length m / 64)%nat).
  assert (q * 64 <= length m)%nat by (pose proof (Nat.div_mod_eq (length m) 64); unfold q; lia).
  rewrite <- (take_drop (64 * q) m) at 1. rewrite <- app_assoc, blocks_app by (rewrite length_take; lia).
  f_equal. rewrite <- (take_drop (64 * q) m) at 2. rewrite <- (Nat.add_0_r q) at 3.
  rewrite blocks_app by (rewrite length_take; lia). cbn [blocks]. now rewrite app_nil_r.
Qed.

Lemma data_with s d : data (with_data s d) = d.
Proof. reflexivity. Qed.

Lemma final_block s T d hi lo :
  digest_ok (digest s) -> length T = 56%nat -> length d = 8%nat -> inU 32 hi -> inU 32 lo ->
  digest (sha_transform ILP32
    (with_data s (data_set ILP32 (data_set ILP32 (maybe_reverse ILP32 true (T ++ d)) 14 hi) 15 lo)))
  = Spec.compress (digest s) (T ++ be_bytes 8 (hi * 2 ^ 32 + lo)).
Proof.
  intros Hok HT Hd Hhi Hlo. rewrite sha_transform_words by exact Hok. cbn [digest data with_data maybe_reverse].
  rewrite final_words by assumption. now rewrite compress_block.
Qed.

Lemma sha_final_ok m s : sha_seen m s -> 8 * Z.of_nat (length m) < 2 ^ 64 ->
  digest (sha_final ILP32 true s) = Spec.sha0 m.
Proof.
  intros Hs Hmax. pose proof (sha_seen_digest_ok m s Hs) as Hok.
  destruct Hs as (Hd & Hlo & Hhi & Hl & Ht). unfold sha_final. rewrite (sha_count _ _ Hlo).
  set (r := (length m mod 64)%nat) in *. pose proof (Nat.mod_upper_bound (length m) 64 ltac:(lia)) as Hr.
  fold r in Hr. pose proof (Nat.div_mod_eq (length m) 64) as Edm. fold r in Edm.
  assert (data s = block_tail m ++ drop r (data s)) as Edata by (rewrite <- Ht, take_drop; reflexivity).
  set (J := drop r (data s)) in *. assert (length J = 64 - r)%nat as HJ by (unfold J; rewrite length_drop; lia).
  assert (length (block_tail m) = r) as HP by (unfold block_tail; rewrite length_drop; lia).
  set (P := block_tail m) in *.
  assert (0 <= count_lo s < 2 ^ 32 /\ 0 <= count_hi s < 2 ^ 32 /\
          count_hi s * 2 ^ 32 + count_lo s = 8 * Z.of_nat (length m)) as (Rlo & Rhi & Ebits).
  { rewrite Hlo, Hhi. cint_unfold. change (2 ^ 64) with 18446744073709551616 in *. dlia. }
  unfold Spec.sha0. set (k := Z.to_nat ((55 - Z.of_nat (length m)) mod 64)).
  assert (length (Spec.pad m) = length m + 9 + k)%nat as Hpad.
  { unfold Spec.pad. fold k. unfold be_bytes.
    rewrite !length_app, length_replicate, length_rev, length_le_bytes. cbn [length]. lia. }
  rewrite Hpad. unfold Spec.pad. fold k. rewrite <- Ebits.
  destruct (Nat.ltb_spec 56 (S r)) as [Hbig|Hsmall].
  - assert (k = 63 - r + 56)%nat as -> by (unfold k; dlia).
    replace ((length m + 9 + (63 - r + 56)) / 64)%nat with (length m / 64 + 2)%nat
      by (replace (length m + 9 + (63 - r + 56))%nat with ((length m / 64 + 2) * 64)%nat by lia;
          now rewrite Nat.div_mul by lia).
    rewrite replicate_add. rewrite <- !app_assoc, blocks_full, fold_left_app, <- Hd. fold P.
    assert (data_zero (<[r:=0x80]> (data s)) (S r) (64 - S r) = P ++ 0x80 :: replicate (63 - r) 0) as Ez.
    { rewrite Edata, <- HP, data_pad by (rewrite HJ, HP; lia).
      replace (64 - S (length P))%nat with (63 - length P)%nat by lia.
      rewrite (drop_ge J) by lia. now rewrite app_nil_r. }
    rewrite Ez. set (B1 := P ++ 0x80 :: replicate (63 - r) 0).
    assert (length B1 = 64%nat) as HB1 by (unfold B1; rewrite length_app; cbn [length]; rewrite length_replicate; lia).
    rewrite transform_block by assumption. cbn [data].
    assert (data_zero (byte_reverse ILP32 B1 64) 0 56 = replicate 56 0 ++ drop 56 (byte_reverse ILP32 B1 64)) as ->
      by reflexivity.
    rewrite data_with. rewrite final_block; [|exact (compress_ok _ _ Hok)|reflexivity| |exact Rhi|exact Rlo].
    2: { rewrite length_drop, length_byte_reverse by assumption. reflexivity. }
    cbn [digest with_data].
    replace (P ++ [128] ++ replicate (63 - r) 0 ++ replicate 56 0 ++ be_bytes 8 (count_hi s * 2 ^ 32 + count_lo s))
      with (B1 ++ replicate 56 0 ++ be_bytes 8 (count_hi s * 2 ^ 32 + count_lo s))
      by (unfold B1; now rewrite <- app_assoc).
    rewrite !blocks_S, !fold_left_cons. rewrite take_app_length', drop_app_length' by lia.
    rewrite take_ge; [reflexivity|].
    rewrite length_app, length_replicate. unfold be_bytes. rewrite length_rev, length_le_bytes. lia.
  - assert (k = 55 - r)%nat as -> by (unfold k; dlia).
    replace ((length m + 9 + (55 - r)) / 64)%nat with (length m / 64 + 1)%nat
      by (replace (length m + 9 + (55 - r))%nat with ((length m / 64 + 1) * 64)%nat by lia;
          now rewrite Nat.div_mul by lia).
    rewrite blocks_full, fold_left_app, <- Hd. fold P.
    assert (data_zero (<[r:=0x80]> (data s)) (S r) (56 - S r) =
      (P ++ 0x80 :: replicate (55 - r) 0) ++ drop (S (55 - r)) J) as Ez.
    { rewrite Edata, <- HP, data_pad by (rewrite HJ, HP; lia).
      replace (56 - S (length P))%nat with (55 - length P)%nat by lia. now rewrite <- app_assoc. }
    rewrite Ez, data_with. set (T := P ++ 0x80 :: replicate (55 - r) 0).
    assert (length T = 56%nat) as HT by (unfold T; rewrite length_app; cbn [length]; rewrite length_replicate; lia).
    rewrite final_block; [|exact Hok|exact HT|rewrite length_drop; lia|exact Rhi|exact Rlo].
    cbn [digest with_data].
    replace (P ++ [128] ++ replicate (55 - r) 0 ++ be_bytes 8 (count_hi s * 2 ^ 32 + count_lo s))
      with (T ++ be_bytes 8 (count_hi s * 2 ^ 32 + count_lo s))
      by (unfold T; now rewrite <- app_assoc).
    rewrite blocks_S, fold_left_cons. rewrite take_ge; [reflexivity|].
    rewrite length_app, HT. unfold be_bytes. rewrite length_rev, length_le_bytes. lia.
Qed.
End Stream.

(** * Properties *)

(** C26: On a target with 32-bit long and LITTLE_ENDIAN defined, sha_stream terminates on
    every message whose length in bits is below 2^64 and leaves the SHA-0 digest of FIPS 180
    (1993), padding and bit count included, in sha_info, for every previous content of the
    structure. *)
Theorem sha_stream_correct (s : SHA_INFO) (m : list Z) :
  length (data s) = 64%nat -> 8 * Z.of_nat (length m) < 2 ^ 64 ->
  exists s', sha_stream ILP32 true s m = Ok s' /\ digest s' = Spec.sha0 m.
Proof.
  intros Hl Hm. unfold sha_stream.
  assert (sha_seen [] (sha_init s)) as Hinit by (split; [reflexivity|]; repeat split; assumption || reflexivity).
  pose proof (sha_stream_loop_ok (S (length m)) (sha_init s) [] m ltac:(lia) Hinit (or_introl eq_refl) Hm) as H.
  apply okp_ok in H. destruct H as (s1 & -> & Hs1). eexists. split; [reflexivity|].
  exact (sha_final_ok m s1 Hs1 Hm).
Qed.

Lemma sha_stream_correct_witness :
  exists s', sha_stream ILP32 true (ShaInfo [] 7 7 (replicate 64 99)) (replicate 120 0x61) = Ok s' /\
    digest s' = Spec.sha0 (replicate 120 0x61).
Proof.
  apply (sha_stream_correct (ShaInfo [] 7 7 (replicate 64 99)) (replicate 120 0x61)); [reflexivity|].
  apply Z.ltb_lt. vm_compute. reflexivity.
Defined.

(** A call of sha_update with fewer than 64 bytes followed by one with at least as many
    forgets the bytes of the first: the digest state only depends on their number, so the
    function is only right when every call but the last passes whole blocks. *)
Theorem sha_update_loses_partial_block (dm : data_model) (le : bool) (s : SHA_INFO) (a a' b : list Z) :
  length a = length a' -> (length a < 64)%nat -> (length a <= length b)%nat ->
  (64 <= length (data s))%nat ->
  (s1 ← sha_update dm le s a (Z.of_nat (length a)); sha_update dm le s1 b (Z.of_nat (length b))) =
  (s1 ← sha_update dm le s a' (Z.of_nat (length a')); sha_update dm le s1 b (Z.of_nat (length b))).
Proof.
  intros Haa Ha Hb Hd. unfold sha_update. rewrite <- Haa. cbn [sha_update_loop]. unfold SHA_BLOCKSIZE.
  destruct (Z.leb_spec 64 (Z.of_nat (length a))); [lia|]. cbn [mbind res_bind mret res_ret].
  rewrite !Nat2Z.id. unfold data_copy. cbn [digest count_lo count_hi data].
  rewrite (take_ge a), (take_ge a') by lia.
  assert (forall n, (length a <= n)%nat -> drop n (a ++ drop (length a) (data s)) = drop n (a' ++ drop (length a) (data s))) as E.
  { intros n Hn. rewrite !drop_app_ge, <- Haa by lia. reflexivity. }
  destruct (Z.leb_spec 64 (Z.of_nat (length b))).
  - rewrite !(E 64%nat) by lia. reflexivity.
  - rewrite !(E (length b)) by lia. reflexivity.
Qed.

Lemma sha_update_loses_partial_block_witness :
  let s := ShaInfo Spec.H0 0 0 (replicate 64 0) in
  (s1 ← sha_update ILP32 true s [0x61; 0x62] 2; sha_update ILP32 true s1 [0x63; 0x64; 0x65] 3) =
  (s1 ← sha_update ILP32 true s [0x78; 0x79] 2; sha_update ILP32 true s1 [0x63; 0x64; 0x65] 3).
Proof.
  intros s.
  apply (sha_update_loses_partial_block ILP32 true s [0x61; 0x62] [0x78; 0x79] [0x63; 0x64; 0x65]);
    cbn; lia.
Defined.

(** With 64-bit long the digest that sha_stream leaves for the message abc is not the SHA-0
    digest, not even modulo 2^32, whether or not LITTLE_ENDIAN is defined. *)
Theorem sha_lp64_not_sha (le : bool) :
  exists s', sha_stream LP64 le (ShaInfo [] 0 0 (replicate 128 0)) [0x61; 0x62; 0x63] = Ok s' /\
    digest s' <> Spec.sha0 [0x61; 0x62; 0x63].
Proof.
  destruct le; eexists; (split; [vm_compute; reflexivity|]); vm_compute; discriminate.
Qed.
