(* ===== verification/Blowfish.v ===== *)
(** Blowfish (src/mibench/security/blowfish: bf_enc.c, bf_skey.c, bf_ecb.c, bf_cbc.c,
    bf_cfb64.c, bf_ofb64.c and the macros of bf_locl.h, without BF_PTR and BF_PTR2).

    [BF_LONG] is [unsigned long]; all operations take the data model and the theorems hold for
    both. A [BF_KEY] is a record of the two arrays; the S boxes are read with a checked index.
    The modes are functions from the input bytes and the chaining state to the output bytes and
    the new chaining state. *)
From stdpp Require Import base list numbers option tactics.
From Stdlib Require Import ZArith Lia.
From S2P Require Import Prelude Bytes BlowfishPi.

Record BF_KEY := BfKey { P : list Z; S : list Z }.

Definition BF_ROUNDS : nat := 16.

Section Model.
Context (dm : data_model).

(** [n2l] and [l2n]: four bytes, most significant first. *)
Definition n2l (c : list Z) : Z :=
  Z.lor (Z.lor (Z.lor (uL dm ((c !!! 0%nat) ≪ 24)) (uL dm ((c !!! 1%nat) ≪ 16)))
    (uL dm ((c !!! 2%nat) ≪ 8))) (c !!! 3%nat).
Definition l2n (l : Z) : list Z :=
  [Z.land (l ≫ 24) 0xff; Z.land (l ≫ 16) 0xff; Z.land (l ≫ 8) 0xff; Z.land l 0xff].

(** The value that [BF_ENC(LL,R,S,P)] gives [LL]. *)
Definition BF_ENC (LL R : Z) (S : list Z) (P : Z) : res Z :=
  let LL := Z.lxor LL P in
  s0 ← aget S (R ≫ 24);
  s1 ← aget S (0x0100 + Z.land (R ≫ 16) 0xff);
  s2 ← aget S (0x0200 + Z.land (R ≫ 8) 0xff);
  s3 ← aget S (0x0300 + Z.land R 0xff);
  mret (Z.lxor LL (Z.land (uL dm (Z.lxor (uL dm (s0 + s1)) s2 + s3)) 0xffffffff)).

(** The unrolled rounds: [BF_ENC(r,l,s,p[i])], [BF_ENC(l,r,s,p[i'])], ... for the listed
    subkeys; [x] is the half that the next round changes. *)
Fixpoint BF_rounds (k : BF_KEY) (idx : list nat) (x y : Z) : res (Z * Z) :=
  match idx with
  | [] => mret (x, y)
  | i :: idx =>
      x ← BF_ENC x y (S k) (P k !!! i);
      BF_rounds k idx y x
  end.

Definition BF_encrypt (d : Z * Z) (key : BF_KEY) (encrypt : bool) : res (Z * Z) :=
  let '(l, r) := d in
  if encrypt then
    let l := Z.lxor l (P key !!! 0%nat) in
    '(r, l) ← BF_rounds key [1; 2; 3; 4; 5; 6; 7; 8; 9; 10; 11; 12; 13; 14; 15; 16]%nat r l;
    let r := Z.lxor r (P key !!! (BF_ROUNDS + 1)%nat) in
    mret (Z.land r 0xffffffff, Z.land l 0xffffffff)
  else
    let l := Z.lxor l (P key !!! (BF_ROUNDS + 1)%nat) in
    '(r, l) ← BF_rounds key [16; 15; 14; 13; 12; 11; 10; 9; 8; 7; 6; 5; 4; 3; 2; 1]%nat r l;
    let r := Z.lxor r (P key !!! 0%nat) in
    mret (Z.land r 0xffffffff, Z.land l 0xffffffff).

(** ** bf_skey.c *)

(** [ri= *(d++); if (d >= end) d=data;] on an index [d] into [data]. *)
Definition key_byte (data : list Z) (len d : Z) : res (Z * Z) :=
  b ← aget data d;
  let d := d + 1 in
  mret (b, if len <=? d then 0 else d).

Definition key_word (data : list Z) (len d : Z) : res (Z * Z) :=
  '(b, d) ← key_byte data len d;
  let ri := b in
  '(b, d) ← key_byte data len d;
  let ri := Z.lor (uL dm (ri ≪ 8)) b in
  '(b, d) ← key_byte data len d;
  let ri := Z.lor (uL dm (ri ≪ 8)) b in
  '(b, d) ← key_byte data len d;
  let ri := Z.lor (uL dm (ri ≪ 8)) b in
  mret (ri, d).

(** [p[i]^=ri] for the subkeys from [p] on. *)
Fixpoint mix_key (data : list Z) (len : Z) (p : list Z) (d : Z) : res (list Z) :=
  match p with
  | [] => mret []
  | pi :: p =>
      '(ri, d) ← key_word data len d;
      p ← mix_key data len p d;
      mret (Z.lxor pi ri :: p)
  end.

Definition fill_P_body (i : Z) (s : BF_KEY * (Z * Z)) : res (BF_KEY * (Z * Z)) :=
  let '(key, inn) := s in
  inn ← BF_encrypt inn key true;
  p ← aset (P key) (2 * i) inn.1;
  p ← aset p (2 * i + 1) inn.2;
  mret (BfKey p (S key), inn).
Definition fill_S_body (i : Z) (s : BF_KEY * (Z * Z)) : res (BF_KEY * (Z * Z)) :=
  let '(key, inn) := s in
  inn ← BF_encrypt inn key true;
  p ← aset (S key) (2 * i) inn.1;
  p ← aset p (2 * i + 1) inn.2;
  mret (BfKey (P key) p, inn).

Definition BF_set_key (len : Z) (data : list Z) : res BF_KEY :=
  let len := if 72 <? len then 72 else len in
  p ← mix_key data len bf_init_P 0;
  s ← cfor 9 0 fill_P_body (BfKey p bf_init_S, (0, 0));
  s ← cfor 512 0 fill_S_body s;
  mret s.1.

(** ** bf_ecb.c *)

(** The first [n] bytes that a pointer gives access to. *)
Definition cread (n : nat) (inp : list Z) : res (list Z) :=
  if (n <=? length inp)%nat then mret (take n inp) else Err OutOfBounds.

(** [n2l(in,l0); n2l(in,l1);] and [l2n(l0,out); l2n(l1,out);]. *)
Definition words_of (b : list Z) : Z * Z := (n2l (take 4 b), n2l (drop 4 b)).
Definition bytes_of (d : Z * Z) : list Z := l2n d.1 ++ l2n d.2.
Definition lxor2 (c d : Z * Z) : Z * Z := (Z.lxor c.1 d.1, Z.lxor c.2 d.2).

Definition BF_ecb_encrypt (inp : list Z) (ks : BF_KEY) (encrypt : bool) : res (list Z) :=
  b ← cread 8 inp;
  d ← BF_encrypt (words_of b) ks encrypt;
  mret (bytes_of d).

(** ** bf_cbc.c *)

(** [n2ln(c,l1,l2,n)]: the [n] bytes that are there, followed by zeros. *)
Definition n2ln (c : list Z) (n : nat) : Z * Z := words_of (c ++ replicate (8 - n) 0).
(** [l2nn(l1,l2,c,n)]: only the first [n] bytes of the block. *)
Definition l2nn (d : Z * Z) (n : nat) : list Z := take n (bytes_of d).

(** The two loops and the code for the last partial block. [fuel] bounds the number of blocks;
    the result is the output and the new chain. *)
Fixpoint cbc_encrypt_loop (fuel : nat) (inp : list Z) (l : Z) (ks : BF_KEY) (tout : Z * Z) :
    res (list Z * (Z * Z)) :=
  match fuel with
  | O => Err OutOfFuel
  | Datatypes.S fuel =>
      if 0 <=? l then
        b ← cread 8 inp;
        tout ← BF_encrypt (lxor2 (words_of b) tout) ks true;
        '(out, tout') ← cbc_encrypt_loop fuel (drop 8 inp) (l - 8) ks tout;
        mret (bytes_of tout ++ out, tout')
      else if negb (l =? -8) then
        b ← cread (Z.to_nat (l + 8)) inp;
        tout ← BF_encrypt (lxor2 (n2ln b (Z.to_nat (l + 8))) tout) ks true;
        mret (bytes_of tout, tout)
      else mret ([], tout)
  end.

Fixpoint cbc_decrypt_loop (fuel : nat) (inp : list Z) (l : Z) (ks : BF_KEY) (xor : Z * Z) :
    res (list Z * (Z * Z)) :=
  match fuel with
  | O => Err OutOfFuel
  | Datatypes.S fuel =>
      if 0 <=? l then
        b ← cread 8 inp;
        tin ← BF_encrypt (words_of b) ks false;
        '(out, xor') ← cbc_decrypt_loop fuel (drop 8 inp) (l - 8) ks (words_of b);
        mret (bytes_of (lxor2 tin xor) ++ out, xor')
      else if negb (l =? -8) then
        b ← cread 8 inp;
        tin ← BF_encrypt (words_of b) ks false;
        mret (l2nn (lxor2 tin xor) (Z.to_nat (l + 8)), words_of b)
      else mret ([], xor)
  end.

(** The output and the new contents of [iv]. *)
Definition BF_cbc_encrypt (inp : list Z) (length : Z) (ks : BF_KEY) (iv : list Z) (encrypt : bool) :
    res (list Z * list Z) :=
  b ← cread 8 iv;
  '(out, chain) ←
    (if encrypt then cbc_encrypt_loop (Datatypes.S (Z.to_nat length)) inp (length - 8) ks (words_of b)
     else cbc_decrypt_loop (Datatypes.S (Z.to_nat length)) inp (length - 8) ks (words_of b));
  mret (out, bytes_of chain).

(** ** bf_cfb64.c: one byte of the loop on [(ivec, n)] *)

Definition cfb64_step (schedule : BF_KEY) (encrypt : bool) (ivec : list Z) (n : Z) (x : Z) :
    res (list Z * Z * Z) :=
  iv ← (if n =? 0 then
          ti ← BF_encrypt (words_of ivec) schedule true;
          mret (bytes_of ti)
        else mret ivec);
  c ← aget iv n;
  let y := Z.lxor x c in
  iv ← aset iv n (if encrypt then y else x);
  mret (iv, Z.land (n + 1) 0x07, y).

Fixpoint cfb64_loop (schedule : BF_KEY) (encrypt : bool) (ivec : list Z) (n : Z) (inp : list Z) :
    res (list Z * Z * list Z) :=
  match inp with
  | [] => mret (ivec, n, [])
  | x :: inp =>
      '(ivec, n, y) ← cfb64_step schedule encrypt ivec n x;
      '(ivec, n, out) ← cfb64_loop schedule encrypt ivec n inp;
      mret (ivec, n, y :: out)
  end.

(** The new [ivec], the new [*num] and the output. *)
Definition BF_cfb64_encrypt (inp : list Z) (length : nat) (schedule : BF_KEY) (ivec : list Z) (num : Z)
    (encrypt : bool) : res (list Z * Z * list Z) :=
  inp ← cread length inp;
  cfb64_loop schedule encrypt ivec num inp.

(** ** bf_ofb64.c: the state is [(ti, d, n, save)] *)

Definition ofb64_step (schedule : BF_KEY) (s : (Z * Z) * list Z * Z * bool) (x : Z) :
    res ((Z * Z) * list Z * Z * bool * Z) :=
  let '(ti, d, n, save) := s in
  '(ti, d, save) ←
    (if n =? 0 then ti ← BF_encrypt ti schedule true; mret (ti, bytes_of ti, true)
     else mret (ti, d, save));
  c ← aget d n;
  mret (ti, d, Z.land (n + 1) 0x07, save, Z.lxor x c).

Fixpoint ofb64_loop (schedule : BF_KEY) (s : (Z * Z) * list Z * Z * bool) (inp : list Z) :
    res ((Z * Z) * list Z * Z * bool * list Z) :=
  match inp with
  | [] => mret (s, [])
  | x :: inp =>
      '(s, y) ← ofb64_step schedule s x;
      '(s, out) ← ofb64_loop schedule s inp;
      mret (s, y :: out)
  end.

Definition BF_ofb64_encrypt (inp : list Z) (length : nat) (schedule : BF_KEY) (ivec : list Z) (num : Z) :
    res (list Z * Z * list Z) :=
  inp ← cread length inp;
  v ← cread 8 ivec;
  let ti := words_of v in
  '(ti, _, n, save, out) ← ofb64_loop schedule (ti, bytes_of ti, num, false) inp;
  mret (if save : bool then bytes_of ti else ivec, n, out).
End Model.

(** The first test vector of bftest.c: the zero key on the zero block. *)
Example BF_zero_vector :
  (k ← BF_set_key LP64 8 (replicate 8 0); BF_ecb_encrypt LP64 (replicate 8 0) k true)
  = Ok [0x4E; 0xF9; 0x97; 0x45; 0x61; 0x98; 0xDD; 0x78].
Proof. vm_compute. reflexivity. Qed.

(** * The Feistel network *)

Definition key_ok (k : BF_KEY) : Prop :=
  length (P k) = 18%nat /\ Forall (inU 32) (P k) /\ length (S k) = 1024%nat /\ Forall (inU 32) (S k).
#[global] Instance key_ok_dec k : Decision (key_ok k).
Proof. unfold key_ok. apply _. Defined.

(** The round function of the Blowfish paper, on 32-bit words. *)
Definition F (k : BF_KEY) (x : Z) : Z :=
  let box n i := S k !!! Z.to_nat (256 * n + i) in
  (Z.lxor ((box 0 (x / 2 ^ 24) + box 1 (x / 2 ^ 16 mod 256)) mod 2 ^ 32) (box 2 (x / 2 ^ 8 mod 256))
   + box 3 (x mod 256)) mod 2 ^ 32.

(** The rounds on words. *)
Fixpoint feistel (k : BF_KEY) (idx : list nat) (x y : Z) : Z * Z :=
  match idx with
  | [] => (x, y)
  | i :: idx => feistel k idx y (Z.lxor (Z.lxor x (P k !!! i)) (F k y))
  end.

Definition word (x : Z) : Prop := inU 32 x.
Definition block2 (d : Z * Z) : Prop := inU 32 d.1 /\ inU 32 d.2.

Section Feistel.
Context (dm : data_model) (k : BF_KEY).
Hypothesis Hk : key_ok k.
Implicit Types (x y a b : Z) (idx : list nat) (d : Z * Z).

Lemma land_mod32 x : Z.land x 0xffffffff = x mod 2 ^ 32.
Proof. change 0xffffffff with (Z.ones 32). apply Z.land_ones. lia. Qed.

Lemma land_byte x : Z.land x 0xff = x mod 256.
Proof. change 0xff with (Z.ones 8). apply Z.land_ones. lia. Qed.

Lemma lxor_mod a b n : 0 <= n -> Z.lxor a b mod 2 ^ n = Z.lxor (a mod 2 ^ n) (b mod 2 ^ n).
Proof.
  intros Hn. apply Z.bits_inj'. intros i Hi. rewrite Z.lxor_spec. destruct (Z.ltb_spec i n).
  - rewrite !Z.mod_pow2_bits_low, Z.lxor_spec by lia. reflexivity.
  - rewrite !Z.mod_pow2_bits_high by lia. reflexivity.
Qed.

Lemma wrap_mod32 x : uL dm x mod 2 ^ 32 = x mod 2 ^ 32.
Proof.
  unfold wrapU. destruct dm; cbn [long_bits]; [apply Z.mod_mod; lia|].
  cint_unfold. change (2 ^ 64) with 18446744073709551616. dlia.
Qed.

Lemma sbox_get (n i : Z) : 0 <= n < 4 -> 0 <= i < 256 ->
  aget (S k) (256 * n + i) = Ok (S k !!! Z.to_nat (256 * n + i)).
Proof. intros. apply aget_total. destruct Hk as (_ & _ & -> & _). lia. Qed.

Lemma sbox_word (i : nat) : inU 32 (S k !!! i).
Proof.
  destruct Hk as (_ & _ & _ & H). rewrite list_lookup_total_alt. destruct (S k !! i) eqn:E; cbn; [|clia].
  exact (Forall_lookup_1 _ _ _ _ H E).
Qed.

Lemma subkey_word (i : nat) : inU 32 (P k !!! i).
Proof.
  destruct Hk as (_ & H & _). rewrite list_lookup_total_alt. destruct (P k !! i) eqn:E; cbn; [|clia].
  exact (Forall_lookup_1 _ _ _ _ H E).
Qed.

Lemma F_word y : inU 32 (F k y).
Proof. apply Z.mod_pos_bound. lia. Qed.

(** The round function does not depend on the width of [long]. *)
Lemma BF_ENC_spec x y (i : nat) : inU 32 y ->
  BF_ENC dm x y (S k) (P k !!! i) = Ok (Z.lxor (Z.lxor x (P k !!! i)) (F k y)).
Proof.
  intros Hy. unfold BF_ENC. rewrite !Z.shiftr_div_pow2, !land_byte by lia.
  assert (0 <= y / 2 ^ 24 < 256) as H0 by (cint_unfold; dlia).
  change (y / 2 ^ 24) with (256 * 0 + y / 2 ^ 24) at 1. rewrite sbox_get by lia. cbn [mbind res_bind].
  rewrite (sbox_get 1), (sbox_get 2), (sbox_get 3) by (try apply Z.mod_pos_bound; lia).
  cbn [mbind res_bind mret res_ret]. rewrite land_mod32, wrap_mod32. do 2 f_equal. unfold F.
  change (256 * 0 + y / 2 ^ 24) with (y / 2 ^ 24).
  set (s0 := S k !!! Z.to_nat (y / 2 ^ 24)). set (s1 := S k !!! Z.to_nat (256 * 1 + _)).
  set (s2 := S k !!! Z.to_nat (256 * 2 + _)). set (s3 := S k !!! Z.to_nat (256 * 3 + _)).
  rewrite <- Zplus_mod_idemp_l. symmetry. rewrite <- Zplus_mod_idemp_l. do 2 f_equal.
  rewrite !lxor_mod, wrap_mod32, Z.mod_mod by lia. reflexivity.
Qed.

Lemma lxor_word a b : inU 32 a -> inU 32 b -> inU 32 (Z.lxor a b).
Proof. apply inU_lxor. lia. Qed.

Lemma feistel_words idx : forall x y, inU 32 x -> inU 32 y -> block2 (feistel k idx x y).
Proof.
  induction idx as [|i idx IH]; intros x y Hx Hy; [split; assumption|]. cbn [feistel].
  apply IH; [exact Hy|]. auto using lxor_word, subkey_word, F_word.
Qed.

Lemma BF_rounds_spec idx : forall x y, inU 32 x -> inU 32 y -> BF_rounds dm k idx x y = Ok (feistel k idx x y).
Proof.
  induction idx as [|i idx IH]; intros x y Hx Hy; [reflexivity|]. cbn [BF_rounds feistel].
  rewrite BF_ENC_spec by assumption. cbn [mbind res_bind].
  apply IH; [exact Hy|]. auto using lxor_word, subkey_word, F_word.
Qed.

Lemma feistel_app idx1 idx2 x y :
  feistel k (idx1 ++ idx2) x y = let '(a, b) := feistel k idx1 x y in feistel k idx2 a b.
Proof.
  revert x y. induction idx1 as [|i idx1 IH]; intros x y; [reflexivity|]. cbn [app feistel]. apply IH.
Qed.

Lemma lxor_cancel a b : Z.lxor (Z.lxor a b) b = a.
Proof. now rewrite Z.lxor_assoc, Z.lxor_nilpotent, Z.lxor_0_r. Qed.

Lemma lxor_twice x a b : Z.lxor (Z.lxor (Z.lxor (Z.lxor x a) b) a) b = x.
Proof.
  apply Z.bits_inj'. intros n _. rewrite !Z.lxor_spec.
  destruct (Z.testbit x n), (Z.testbit a n), (Z.testbit b n); reflexivity.
Qed.

(** Running the rounds backwards on swapped halves undoes them. *)
Lemma feistel_inverse idx : forall x y,
  let '(a, b) := feistel k idx x y in feistel k (rev idx) b a = (y, x).
Proof.
  induction idx as [|i idx IH]; intros x y; [reflexivity|]. cbn [feistel rev].
  specialize (IH y (Z.lxor (Z.lxor x (P k !!! i)) (F k y))).
  destruct (feistel k idx y _) as [a b]. rewrite feistel_app, IH. cbn [feistel].
  f_equal. apply lxor_twice.
Qed.

Definition enc_idx : list nat := [1; 2; 3; 4; 5; 6; 7; 8; 9; 10; 11; 12; 13; 14; 15; 16]%nat.

(** Encryption and decryption of one block of two words, as pure functions. *)
Definition encipher d : Z * Z :=
  let '(r, l) := feistel k enc_idx d.2 (Z.lxor d.1 (P k !!! 0%nat)) in
  (Z.lxor r (P k !!! 17%nat), l).
Definition decipher d : Z * Z :=
  let '(r, l) := feistel k (rev enc_idx) d.2 (Z.lxor d.1 (P k !!! 17%nat)) in
  (Z.lxor r (P k !!! 0%nat), l).

Lemma BF_encrypt_spec d encrypt : block2 d ->
  BF_encrypt dm d k encrypt = Ok (if encrypt then encipher d else decipher d) /\
  block2 (if encrypt then encipher d else decipher d).
Proof.
  destruct d as [l r]. intros [Hl Hr]. cbn [fst snd] in *. unfold BF_encrypt, encipher, decipher. cbn [fst snd].
  pose proof (subkey_word 0) as H0. pose proof (subkey_word 17) as H17.
  change (BF_ROUNDS + 1)%nat with 17%nat.
  change [1; 2; 3; 4; 5; 6; 7; 8; 9; 10; 11; 12; 13; 14; 15; 16]%nat with enc_idx.
  change [16; 15; 14; 13; 12; 11; 10; 9; 8; 7; 6; 5; 4; 3; 2; 1]%nat with (rev enc_idx).
  destruct encrypt; rewrite BF_rounds_spec by auto using lxor_word; cbn [mbind res_bind].
  - pose proof (feistel_words enc_idx r (Z.lxor l (P k !!! 0%nat)) Hr (lxor_word _ _ Hl H0)) as [Ha Hb].
    destruct (feistel k enc_idx _ _) as [a b]. cbn [fst snd mret res_ret] in *. rewrite !land_mod32.
    pose proof (lxor_word _ _ Ha H17). rewrite !Z.mod_small by assumption. split; [reflexivity|split; assumption].
  - pose proof (feistel_words (rev enc_idx) r (Z.lxor l (P k !!! 17%nat)) Hr (lxor_word _ _ Hl H17)) as [Ha Hb].
    destruct (feistel k (rev enc_idx) _ _) as [a b]. cbn [fst snd mret res_ret] in *. rewrite !land_mod32.
    pose proof (lxor_word _ _ Ha H0). rewrite !Z.mod_small by assumption. split; [reflexivity|split; assumption].
Qed.

Lemma decipher_encipher d : decipher (encipher d) = d.
Proof.
  destruct d as [l r]. unfold decipher, encipher. cbn [fst snd].
  pose proof (feistel_inverse enc_idx r (Z.lxor l (P k !!! 0%nat))) as H.
  destruct (feistel k enc_idx _ _) as [a b]. cbn [fst snd]. rewrite lxor_cancel, H, lxor_cancel. reflexivity.
Qed.

Lemma encipher_decipher d : encipher (decipher d) = d.
Proof.
  destruct d as [l r]. unfold decipher, encipher. cbn [fst snd].
  pose proof (feistel_inverse (rev enc_idx) r (Z.lxor l (P k !!! 17%nat))) as H. rewrite rev_involutive in H.
  destruct (feistel k (rev enc_idx) _ _) as [a b]. cbn [fst snd]. rewrite lxor_cancel, H, lxor_cancel. reflexivity.
Qed.
End Feistel.

(** * Bytes and words *)

Section Conversions.
Context (dm : data_model).
Implicit Types (b c : list Z) (x : Z).

Lemma n2l_be b : barr 4 b -> n2l dm b = be_word b.
Proof.
  intros [Hl Hb]. do 4 (destruct b as [|? b]; [discriminate|]). destruct b; [|discriminate].
  repeat match goal with H : Forall _ (_ :: _) |- _ => pose proof (Forall_inv H); apply Forall_inv_tail in H end.
  unfold n2l. cbn [lookup_total list_lookup_total]. unfold inU in *. change (2 ^ 8) with 256 in *.
  rewrite !Z.shiftl_mul_pow2 by lia.
  rewrite !(uL_id dm) by (cint_unfold; lia).
  rewrite (lor_disjoint_add z (z0 * 2 ^ 16) 24) by lia.
  replace (z * 2 ^ 24 + z0 * 2 ^ 16) with ((z * 2 ^ 8 + z0) * 2 ^ 16) by lia.
  rewrite (lor_disjoint_add _ (z1 * 2 ^ 8) 16) by lia.
  replace ((z * 2 ^ 8 + z0) * 2 ^ 16 + z1 * 2 ^ 8) with ((z * 2 ^ 16 + z0 * 2 ^ 8 + z1) * 2 ^ 8) by lia.
  rewrite (lor_disjoint_add _ z2 8) by lia. unfold be_word. cbn [rev app le_word]. lia.
Qed.

Lemma l2n_be x : inU 32 x -> l2n x = be_bytes 4 x.
Proof.
  intros _. unfold l2n, be_bytes. rewrite !Z.shiftr_div_pow2, !land_byte by lia. cbn [le_bytes rev app].
  rewrite !Z.div_div by lia. reflexivity.
Qed.

Lemma barr_l2n x : barr 4 (l2n x).
Proof.
  split; [reflexivity|]. unfold l2n. rewrite !land_byte. repeat (constructor; [apply Z.mod_pos_bound; lia|]). constructor.
Qed.

Lemma n2l_word b : barr 4 b -> inU 32 (n2l dm b).
Proof.
  intros Hb. rewrite n2l_be by assumption. unfold be_word, inU. destruct Hb as [Hl Hb].
  pose proof (le_word_range (rev b) ltac:(now apply Forall_rev)) as H. rewrite length_rev, Hl in H. exact H.
Qed.

Lemma n2l_l2n x : inU 32 x -> n2l dm (l2n x) = x.
Proof.
  intros Hx. rewrite n2l_be by apply barr_l2n. rewrite l2n_be by assumption.
  unfold be_word, be_bytes. rewrite rev_involutive, le_word_bytes. apply Z.mod_small. exact Hx.
Qed.

Lemma l2n_n2l b : barr 4 b -> l2n (n2l dm b) = b.
Proof.
  intros Hb. rewrite l2n_be by now apply n2l_word. rewrite n2l_be by assumption.
  unfold be_word, be_bytes. destruct Hb as [Hl Hb].
  replace 4%nat with (length (rev b)) by now rewrite length_rev.
  rewrite le_bytes_word by now apply Forall_rev. apply rev_involutive.
Qed.
End Conversions.

(** * The modes *)

Section Modes.
Context (dm : data_model) (k : BF_KEY).
Hypothesis Hk : key_ok k.
Implicit Types (b inp iv out : list Z) (c d : Z * Z) (n : nat).

Lemma words_of_block2 b : barr 8 b -> block2 (words_of dm b).
Proof.
  intros Hb. split; cbn [words_of fst snd]; apply n2l_word; [exact (barr_take 4 4 b Hb)|exact (barr_drop 4 4 b Hb)].
Qed.

Lemma barr_bytes_of d : barr 8 (bytes_of d).
Proof.
  destruct (barr_l2n d.1) as [H1 H2], (barr_l2n d.2) as [H3 H4]. unfold bytes_of.
  split; [rewrite length_app; lia|now apply Forall_app_2].
Qed.

Lemma words_bytes d : block2 d -> words_of dm (bytes_of d) = d.
Proof.
  intros [H1 H2]. destruct d as [x y]. unfold words_of, bytes_of. cbn [fst snd] in *.
  rewrite take_app_length' by reflexivity. rewrite drop_app_length' by reflexivity.
  rewrite !n2l_l2n by assumption. reflexivity.
Qed.

Lemma bytes_words b : barr 8 b -> bytes_of (words_of dm b) = b.
Proof.
  intros Hb. unfold bytes_of, words_of. cbn [fst snd].
  rewrite !l2n_n2l by (first [exact (barr_drop 4 4 b Hb)|exact (barr_take 4 4 b Hb)]). apply take_drop.
Qed.

Lemma lxor2_block c d : block2 c -> block2 d -> block2 (lxor2 c d).
Proof. intros [? ?] [? ?]. split; cbn; now apply lxor_word. Qed.

Lemma lxor2_cancel c d : lxor2 (lxor2 c d) d = c.
Proof. destruct c, d. unfold lxor2. cbn. now rewrite !lxor_cancel. Qed.

Lemma encipher_block d : block2 d -> block2 (encipher k d).
Proof. intros Hd. exact (proj2 (BF_encrypt_spec dm k Hk d true Hd)). Qed.

Lemma cread_ok n inp : (n <= length inp)%nat -> cread n inp = Ok (take n inp).
Proof. intros H. unfold cread. now rewrite (proj2 (Nat.leb_le _ _) H). Qed.

Lemma cread_app n b inp : length b = n -> cread n (b ++ inp) = Ok b.
Proof. intros H. rewrite cread_ok by (rewrite length_app; lia). now rewrite take_app_length'. Qed.

Lemma cread_all b : cread (length b) b = Ok b.
Proof. rewrite cread_ok by lia. now rewrite take_ge. Qed.

(** Both directions of the block cipher on a block, with the round trip. *)
Lemma BF_encrypt_pair c : block2 c ->
  exists d, BF_encrypt dm c k true = Ok d /\ block2 d /\ BF_encrypt dm d k false = Ok c.
Proof.
  intros Hc. destruct (BF_encrypt_spec dm k Hk c true Hc) as [E He]. exists (encipher k c).
  split; [exact E|]. split; [exact He|].
  rewrite (proj1 (BF_encrypt_spec dm k Hk _ false He)), decipher_encipher. reflexivity.
Qed.

(** ** CBC *)

Definition cbc_roundtrip (fuel : nat) inp c : Prop :=
  exists out c',
    cbc_encrypt_loop dm fuel inp (Z.of_nat (length inp) - 8) k c = Ok (out, c') /\
    Forall (inU 8) out /\ block2 c' /\ Z.of_nat (length out) = (Z.of_nat (length inp) + 7) / 8 * 8 /\
    cbc_decrypt_loop dm fuel out (Z.of_nat (length inp) - 8) k c = Ok (inp, c').

Lemma cbc_loops (fuel : nat) : forall inp c, (length inp < fuel)%nat -> Forall (inU 8) inp -> block2 c ->
  cbc_roundtrip fuel inp c.
Proof.
  induction fuel as [|fuel IH]; intros inp c Hf Hb Hc; [lia|].
  unfold cbc_roundtrip. cbn [cbc_encrypt_loop].
  destruct (Z.leb_spec 0 (Z.of_nat (length inp) - 8)) as [Hge|Hlt].
  - assert (barr 8 (take 8 inp)) as Hb8 by (split; [rewrite length_take; lia|now apply Forall_take]).
    destruct (BF_encrypt_pair _ (lxor2_block _ c (words_of_block2 _ Hb8) Hc)) as (d & E1 & Hd & E2).
    rewrite cread_ok by lia. cbn [mbind res_bind]. rewrite E1. cbn [mbind res_bind].
    assert (Z.of_nat (length inp) - 8 - 8 = Z.of_nat (length (drop 8 inp)) - 8) as El by (rewrite length_drop; lia).
    rewrite El. destruct (IH (drop 8 inp) d) as (out & c' & F1 & F2 & F3 & F4 & F5);
      [rewrite length_drop; lia|now apply Forall_drop|exact Hd|].
    rewrite F1. cbn [mbind res_bind mret res_ret]. eexists _, _. split; [reflexivity|].
    destruct (barr_bytes_of d) as [Hdl Hdb]. split; [now apply Forall_app_2|]. split; [exact F3|]. split.
    + rewrite length_app, Nat2Z.inj_add, F4, Hdl, length_drop. dlia.
    + cbn [cbc_decrypt_loop]. destruct (Z.leb_spec 0 (Z.of_nat (length inp) - 8)); [|lia].
      rewrite (cread_app 8), (drop_app_length' _ _ 8), El by exact Hdl. cbn [mbind res_bind].
      rewrite words_bytes, E2 by exact Hd. cbn [mbind res_bind]. rewrite F5. cbn [mbind res_bind mret res_ret].
      rewrite lxor2_cancel, bytes_words, take_drop by exact Hb8. reflexivity.
  - destruct (Z.eqb_spec (Z.of_nat (length inp) - 8) (-8)) as [E0|Hne]; cbn [negb].
    { destruct inp; [|cbn in E0; lia]. exists [], c. cbn. auto using Forall_nil. }
    replace (Z.to_nat (Z.of_nat (length inp) - 8 + 8)) with (length inp) by lia.
    rewrite cread_all. cbn [mbind res_bind]. unfold n2ln. set (b := inp ++ replicate (8 - length inp) 0).
    assert (barr 8 b) as Hb8.
    { split; [unfold b; rewrite length_app, length_replicate; lia|].
      apply Forall_app_2; [exact Hb|apply Forall_replicate; clia]. }
    destruct (BF_encrypt_pair _ (lxor2_block _ c (words_of_block2 _ Hb8) Hc)) as (d & E1 & Hd & E2).
    rewrite E1. cbn [mbind res_bind mret res_ret]. exists (bytes_of d), d.
    split; [reflexivity|]. destruct (barr_bytes_of d) as [Hdl Hdb]. split; [exact Hdb|]. split; [exact Hd|].
    split; [rewrite Hdl; dlia|]. cbn [cbc_decrypt_loop].
    destruct (Z.leb_spec 0 (Z.of_nat (length inp) - 8)); [lia|].
    destruct (Z.eqb_spec (Z.of_nat (length inp) - 8) (-8)); [lia|]. cbn [negb].
    replace 8%nat with (length (bytes_of d)) at 1 by exact Hdl. rewrite cread_all. cbn [mbind res_bind].
    rewrite words_bytes, E2 by exact Hd. cbn [mbind res_bind mret res_ret].
    unfold l2nn. rewrite lxor2_cancel, bytes_words by exact Hb8.
    replace (Z.to_nat (Z.of_nat (length inp) - 8 + 8)) with (length inp) by lia.
    unfold b. now rewrite take_app_length.
Qed.
(** ** CFB and OFB: the state is a block of bytes and the position in it *)

Definition mode_ok (iv : list Z) (num : Z) : Prop := barr 8 iv /\ 0 <= num < 8.

Lemma land_7 (x : Z) : 0 <= Z.land x 0x07 < 8.
Proof. change 0x07 with (Z.ones 3). rewrite Z.land_ones by lia. apply Z.mod_pos_bound. lia. Qed.

Lemma aget_byte iv (i : Z) : barr 8 iv -> 0 <= i < 8 -> exists v : Z, aget iv i = Ok v /\ inU 8 v.
Proof.
  intros [Hl Hb] Hi. exists (iv !!! Z.to_nat i). split; [apply aget_total; lia|].
  apply (Forall_lookup_1 (inU 8) iv (Z.to_nat i)); [exact Hb|]. apply list_lookup_lookup_total_lt. lia.
Qed.

Lemma aset_byte iv (i x : Z) : barr 8 iv -> 0 <= i < 8 -> inU 8 x ->
  aset iv i x = Ok (<[Z.to_nat i := x]> iv) /\ barr 8 (<[Z.to_nat i := x]> iv).
Proof.
  intros [Hl Hb] Hi Hx. split; [apply aset_ok; split; [lia|reflexivity]|].
  split; [now rewrite length_insert|now apply Forall_insert].
Qed.

Lemma encrypt_block iv : barr 8 iv ->
  exists d, BF_encrypt dm (words_of dm iv) k true = Ok d /\ block2 d.
Proof.
  intros Hb. destruct (BF_encrypt_pair _ (words_of_block2 iv Hb)) as (d & E & Hd & _). exists d. split; [exact E|exact Hd].
Qed.

(** One byte, encrypted and decrypted from the same state. *)
Lemma cfb64_step_pair iv (num x : Z) : mode_ok iv num -> inU 8 x ->
  exists iv' num' y, cfb64_step dm k true iv num x = Ok (iv', num', y) /\ mode_ok iv' num' /\ inU 8 y /\
    cfb64_step dm k false iv num y = Ok (iv', num', x).
Proof.
  intros [Hb Hn] Hx. unfold cfb64_step.
  assert (exists iv1, (if num =? 0 then ti ← BF_encrypt dm (words_of dm iv) k true; mret (bytes_of ti)
                       else mret iv) = Ok iv1 /\ barr 8 iv1) as (iv1 & -> & Hb1).
  { destruct (num =? 0); [|now exists iv]. destruct (encrypt_block iv Hb) as (d & -> & _).
    exists (bytes_of d). split; [reflexivity|apply barr_bytes_of]. }
  cbn [mbind res_bind]. destruct (aget_byte iv1 num Hb1 Hn) as (c & -> & Hc). cbn [mbind res_bind].
  assert (inU 8 (Z.lxor x c)) as Hy by (apply inU_lxor; [lia|assumption|assumption]).
  destruct (aset_byte iv1 num (Z.lxor x c) Hb1 Hn Hy) as [Hset Hb2]. rewrite Hset.
  cbn [mbind res_bind mret res_ret].
  eexists _, _, _. split; [reflexivity|]. split; [split; [exact Hb2|apply land_7]|]. split; [exact Hy|].
  rewrite lxor_cancel, Hset. reflexivity.
Qed.

Lemma cfb64_loop_pair inp : forall iv (num : Z), mode_ok iv num -> Forall (inU 8) inp ->
  exists iv' num' out, cfb64_loop dm k true iv num inp = Ok (iv', num', out) /\ mode_ok iv' num' /\
    length out = length inp /\ Forall (inU 8) out /\
    cfb64_loop dm k false iv num out = Ok (iv', num', inp).
Proof.
  induction inp as [|x inp IH]; intros iv num Hs Hb.
  { exists iv, num, []. auto using Forall_nil. }
  cbn [cfb64_loop]. destruct (cfb64_step_pair iv num x Hs (Forall_inv Hb)) as (iv1 & n1 & y & -> & Hs1 & Hy & E).
  cbn [mbind res_bind]. destruct (IH iv1 n1 Hs1 (Forall_inv_tail Hb)) as (iv2 & n2 & out & -> & Hs2 & Hl & Ho & E2).
  cbn [mbind res_bind mret res_ret]. exists iv2, n2, (y :: out). split; [reflexivity|]. split; [exact Hs2|].
  split; [cbn; now rewrite Hl|]. split; [now constructor|]. cbn [cfb64_loop]. rewrite E. cbn [mbind res_bind].
  rewrite E2. reflexivity.
Qed.

Lemma cfb64_loop_app (e : bool) a b : forall iv (num : Z),
  cfb64_loop dm k e iv num (a ++ b) =
    '(iv, num, o1) ← cfb64_loop dm k e iv num a;
    '(iv, num, o2) ← cfb64_loop dm k e iv num b;
    mret (iv, num, o1 ++ o2).
Proof.
  induction a as [|x a IH]; intros iv num; cbn [app cfb64_loop].
  { cbn [mbind res_bind mret res_ret]. destruct (cfb64_loop dm k e iv num b) as [[[? ?] ?]|?]; reflexivity. }
  destruct (cfb64_step dm k e iv num x) as [[[iv1 n1] y]|?]; cbn [mbind res_bind]; [|reflexivity].
  rewrite IH. destruct (cfb64_loop dm k e iv1 n1 a) as [[[iv2 n2] o1]|?]; cbn [mbind res_bind mret res_ret]; [|reflexivity].
  destruct (cfb64_loop dm k e iv2 n2 b) as [[[iv3 n3] o2]|?]; reflexivity.
Qed.
(** The keystream of OFB does not depend on the data: the same steps undo themselves. *)
Lemma ofb64_step_pair d (num x : Z) : block2 d -> 0 <= num < 8 -> inU 8 x ->
  exists d' num' y (sv : bool),
    (forall b : bool, ofb64_step dm k (d, bytes_of d, num, b) x = Ok (d', bytes_of d', num', sv || b, y)) /\
    (forall b : bool, ofb64_step dm k (d, bytes_of d, num, b) y = Ok (d', bytes_of d', num', sv || b, x)) /\
    block2 d' /\ 0 <= num' < 8 /\ inU 8 y /\ (sv = false -> d' = d).
Proof.
  intros Hd Hn Hx. unfold ofb64_step.
  assert (exists d1 (sv : bool), (forall b : bool,
      (if num =? 0 then ti ← BF_encrypt dm d k true; mret (ti, bytes_of ti, true)
       else mret (d, bytes_of d, b)) = Ok (d1, bytes_of d1, sv || b)) /\ block2 d1 /\ (sv = false -> d1 = d))
    as (d1 & sv & Hstep & Hd1 & Hsv).
  { destruct (num =? 0).
    - destruct (BF_encrypt_pair d Hd) as (d1 & -> & Hd1 & _). exists d1, true. split; [reflexivity|].
      split; [exact Hd1|discriminate].
    - exists d, false. split; [reflexivity|]. split; [exact Hd|reflexivity]. }
  destruct (aget_byte (bytes_of d1) num (barr_bytes_of d1) Hn) as (v & Hv & Hvb).
  exists d1, (Z.land (num + 1) 0x07), (Z.lxor x v), sv.
  split; [intros b; rewrite Hstep; cbn [mbind res_bind]; rewrite Hv; reflexivity|].
  split; [intros b; rewrite Hstep; cbn [mbind res_bind]; rewrite Hv; cbn [mbind res_bind]; now rewrite lxor_cancel|].
  split; [exact Hd1|]. split; [apply land_7|]. split; [apply inU_lxor; [lia|assumption|assumption]|exact Hsv].
Qed.

Lemma ofb64_loop_pair inp : forall d (num : Z), block2 d -> 0 <= num < 8 -> Forall (inU 8) inp ->
  exists d' num' out (sv : bool),
    (forall b : bool, ofb64_loop dm k (d, bytes_of d, num, b) inp = Ok (d', bytes_of d', num', sv || b, out)) /\
    (forall b : bool, ofb64_loop dm k (d, bytes_of d, num, b) out = Ok (d', bytes_of d', num', sv || b, inp)) /\
    block2 d' /\ 0 <= num' < 8 /\ Forall (inU 8) out /\ length out = length inp /\ (sv = false -> d' = d).
Proof.
  induction inp as [|x inp IH]; intros d num Hd Hn Hb.
  { exists d, num, [], false. repeat split; auto using Forall_nil; apply Hd || lia. }
  destruct (ofb64_step_pair d num x Hd Hn (Forall_inv Hb)) as (d1 & n1 & y & sv1 & E1 & F1 & Hd1 & Hn1 & Hy & Hs1).
  destruct (IH d1 n1 Hd1 Hn1 (Forall_inv_tail Hb)) as (d2 & n2 & out & sv2 & E2 & F2 & Hd2 & Hn2 & Ho & Hl & Hs2).
  exists d2, n2, (y :: out), (sv2 || sv1). cbn [ofb64_loop].
  split; [intros b; rewrite E1; cbn [mbind res_bind]; rewrite E2, orb_assoc; reflexivity|].
  split; [intros b; rewrite F1; cbn [mbind res_bind]; rewrite F2, orb_assoc; reflexivity|].
  split; [exact Hd2|]. split; [exact Hn2|]. split; [now constructor|]. split; [cbn; now rewrite Hl|].
  intros H. apply orb_false_elim in H as [H2 H1]. now rewrite Hs2, Hs1.
Qed.

Lemma ofb64_loop_app a b : forall s,
  ofb64_loop dm k s (a ++ b) =
    '(s, o1) ← ofb64_loop dm k s a;
    '(s, o2) ← ofb64_loop dm k s b;
    mret (s, o1 ++ o2).
Proof.
  induction a as [|x a IH]; intros s; cbn [app ofb64_loop].
  { cbn [mbind res_bind mret res_ret]. destruct (ofb64_loop dm k s b) as [[? ?]|?]; reflexivity. }
  destruct (ofb64_step dm k s x) as [[s1 y]|?]; cbn [mbind res_bind]; [|reflexivity].
  rewrite IH. destruct (ofb64_loop dm k s1 a) as [[s2 o1]|?]; cbn [mbind res_bind mret res_ret]; [|reflexivity].
  destruct (ofb64_loop dm k s2 b) as [[s3 o2]|?]; reflexivity.
Qed.

(** What the loop leaves behind is the block [ti], whether or not it was written back. *)
Lemma ofb64_encrypt_loop inp iv (num : Z) d num' out (sv : bool) : barr 8 iv ->
  (forall b : bool, ofb64_loop dm k (words_of dm iv, bytes_of (words_of dm iv), num, b) inp
             = Ok (d, bytes_of d, num', sv || b, out)) ->
  (sv = false -> d = words_of dm iv) ->
  BF_ofb64_encrypt dm inp (length inp) k iv num = Ok (bytes_of d, num', out).
Proof.
  intros Hb E Hs. unfold BF_ofb64_encrypt. rewrite cread_all. cbn [mbind res_bind].
  pose proof (cread_all iv) as Hiv. rewrite (proj1 Hb) in Hiv. rewrite Hiv. cbn [mbind res_bind].
  rewrite E. cbn [mbind res_bind mret res_ret]. destruct sv; cbn [orb]; [reflexivity|].
  rewrite Hs, bytes_words by (exact Hb || reflexivity). reflexivity.
Qed.
End Modes.

(** * The key schedule *)

(** The key byte that is used at position [t] of the 72 bytes that the subkeys take. *)
Definition key_cycle (data : list Z) (n t : nat) : Z := data !!! (t mod n)%nat.

(** The subkeys from the bytes [f t], [f (t+1)], ... on. *)
Fixpoint mixed (f : nat -> Z) (t : nat) (p : list Z) : list Z :=
  match p with
  | [] => []
  | pi :: p => Z.lxor pi (be_word [f t; f (1 + t); f (2 + t); f (3 + t)]%nat) :: mixed f (4 + t)%nat p
  end.

Section KeySchedule.
Implicit Types (dm : data_model) (data p : list Z) (n t : nat) (d : Z * Z) (key : BF_KEY).

Definition key_input data n : Prop := (0 < n <= length data)%nat /\ Forall (inU 8) data.

Lemma key_cycle_byte data n t : key_input data n -> inU 8 (key_cycle data n t).
Proof.
  intros [Hn Hb]. unfold key_cycle. pose proof (Nat.mod_upper_bound t n ltac:(lia)).
  apply (Forall_lookup_1 (inU 8) data (t mod n)%nat); [exact Hb|]. apply list_lookup_lookup_total_lt. lia.
Qed.

Lemma key_byte_spec data n t : key_input data n ->
  key_byte data (Z.of_nat n) (Z.of_nat (t mod n)) = Ok (key_cycle data n t, Z.of_nat ((1 + t) mod n)).
Proof.
  intros [Hn _]. pose proof (Nat.mod_upper_bound t n ltac:(lia)) as Ht. unfold key_byte.
  rewrite aget_total, Nat2Z.id by lia. cbn [mbind res_bind mret res_ret]. unfold key_cycle. do 2 f_equal.
  rewrite <- (Nat.Div0.add_mod_idemp_r 1 t n).
  destruct (Z.leb_spec (Z.of_nat n) (Z.of_nat (t mod n) + 1)).
  - replace (1 + t mod n)%nat with n by lia. now rewrite Nat.Div0.mod_same.
  - rewrite (Nat.mod_small (1 + t mod n) n) by lia. lia.
Qed.

Lemma shift_in dm x b w : 0 <= w -> inU w x -> inU 8 b -> 8 + w <= 32 ->
  Z.lor (uL dm (x ≪ 8)) b = x * 256 + b /\ inU (8 + w) (x * 256 + b).
Proof.
  intros Hw Hx Hb H32. rewrite Z.shiftl_mul_pow2 by lia.
  assert (inU (8 + w) (x * 256 + b)) as Hr.
  { unfold inU in *. rewrite Z.pow_add_r by lia. change (2 ^ 8) with 256 in *. lia. }
  assert (2 ^ (8 + w) <= 2 ^ 32) by (apply Z.pow_le_mono_r; lia).
  rewrite uL_id by (unfold inU in *; change (2 ^ 8) with 256 in *; lia).
  split; [|exact Hr]. apply lor_disjoint_add; [lia|exact Hb].
Qed.

Lemma key_word_spec dm data n t : key_input data n ->
  key_word dm data (Z.of_nat n) (Z.of_nat (t mod n)) =
    Ok (be_word [key_cycle data n t; key_cycle data n (1 + t); key_cycle data n (2 + t); key_cycle data n (3 + t)]%nat,
        Z.of_nat ((4 + t) mod n)).
Proof.
  intros Hk. pose proof (key_cycle_byte data n t Hk) as H0. pose proof (key_cycle_byte data n (1 + t) Hk) as H1.
  pose proof (key_cycle_byte data n (2 + t) Hk) as H2. pose proof (key_cycle_byte data n (3 + t) Hk) as H3.
  unfold key_word. rewrite !key_byte_spec by assumption. cbn [mbind res_bind].
  rewrite !key_byte_spec by assumption. cbn [mbind res_bind].
  rewrite !key_byte_spec by assumption. cbn [mbind res_bind].
  rewrite !key_byte_spec by assumption. cbn [mbind res_bind mret res_ret].
  change (1 + (1 + (1 + (1 + t))))%nat with (4 + t)%nat. change (1 + (1 + (1 + t)))%nat with (3 + t)%nat.
  change (1 + (1 + t))%nat with (2 + t)%nat.
  destruct (shift_in dm _ _ 8 ltac:(lia) H0 H1 ltac:(lia)) as [-> W1].
  destruct (shift_in dm _ _ 16 ltac:(lia) W1 H2 ltac:(lia)) as [-> W2].
  destruct (shift_in dm _ _ 24 ltac:(lia) W2 H3 ltac:(lia)) as [-> _].
  do 2 f_equal. unfold be_word. cbn [rev app le_word]. lia.
Qed.

Lemma mix_key_spec dm data n : key_input data n -> forall p t,
  mix_key dm data (Z.of_nat n) p (Z.of_nat (t mod n)) = Ok (mixed (key_cycle data n) t p).
Proof.
  intros Hk. induction p as [|pi p IH]; intros t; [reflexivity|]. cbn [mix_key mixed].
  rewrite key_word_spec by assumption. cbn [mbind res_bind]. rewrite IH. reflexivity.
Qed.

Lemma mixed_ext f g p : forall t,
  (forall i, (t <= i < t + 4 * length p)%nat -> f i = g i) -> mixed f t p = mixed g t p.
Proof.
  induction p as [|pi p IH]; intros t H; [reflexivity|]. cbn [mixed]. cbn [length] in H.
  rewrite (H t), (H (1 + t)%nat), (H (2 + t)%nat), (H (3 + t)%nat) by lia.
  f_equal. apply IH. intros. apply H. lia.
Qed.

Lemma mixed_words f p : (forall i, inU 8 (f i)) -> Forall (inU 32) p -> forall t,
  length (mixed f t p) = length p /\ Forall (inU 32) (mixed f t p).
Proof.
  intros Hf. induction 1 as [|pi p Hp _ IH]; intros t; [split; [reflexivity|constructor]|].
  cbn [mixed length]. destruct (IH (4 + t)%nat) as [-> H]. split; [reflexivity|]. constructor; [|exact H].
  apply lxor_word; [exact Hp|]. unfold be_word.
  pose proof (le_word_range (rev [f t; f (1 + t); f (2 + t); f (3 + t)]%nat)) as Hr. cbn [length rev app] in *.
  apply Hr. repeat (constructor; [apply Hf|]). constructor.
Qed.

Lemma init_words : length bf_init_P = 18%nat /\ Forall (inU 32) bf_init_P /\
  length bf_init_S = 1024%nat /\ Forall (inU 32) bf_init_S.
Proof. by_eval. Qed.

Definition filled (s : BF_KEY * (Z * Z)) : Prop := key_ok s.1 /\ block2 s.2.

Lemma aset_words (m : nat) a (i : Z) x : length a = m -> Forall (inU 32) a -> 0 <= i < Z.of_nat m -> inU 32 x ->
  exists a', aset a i x = Ok a' /\ length a' = m /\ Forall (inU 32) a'.
Proof.
  intros Hl Ha Hi Hx. exists (<[Z.to_nat i := x]> a). split; [apply aset_ok; split; [lia|reflexivity]|].
  split; [now rewrite length_insert|now apply Forall_insert].
Qed.

(** An iteration of the fill loops keeps the key well formed and does not depend on the width of
    [long]. *)
Lemma fill_P_step dm i s : 0 <= i < 9 -> filled s ->
  fill_P_body dm i s = fill_P_body ILP32 i s /\ okp (fill_P_body ILP32 i s) filled.
Proof.
  destruct s as [key d]. intros Hi [Hk Hd]. cbn [fst snd] in *. unfold fill_P_body.
  rewrite !(fun dm => proj1 (BF_encrypt_spec dm key Hk d true Hd)). cbn [mbind res_bind].
  pose proof (encipher_block ILP32 key Hk d Hd) as [He1 He2]. destruct Hk as (H1 & H2 & H3).
  destruct (aset_words 18 (P key) (2 * i) (encipher key d).1 H1 H2 ltac:(lia) He1) as (p1 & -> & Hl1 & Hp1).
  cbn [mbind res_bind].
  destruct (aset_words 18 p1 (2 * i + 1) (encipher key d).2 Hl1 Hp1 ltac:(lia) He2) as (p2 & -> & Hl2 & Hp2).
  cbn [mbind res_bind mret res_ret]. split; [reflexivity|]. split; [split; [exact Hl2|split; [exact Hp2|exact H3]]|].
  split; [exact He1|exact He2].
Qed.

Lemma fill_S_step dm i s : 0 <= i < 512 -> filled s ->
  fill_S_body dm i s = fill_S_body ILP32 i s /\ okp (fill_S_body ILP32 i s) filled.
Proof.
  destruct s as [key d]. intros Hi [Hk Hd]. cbn [fst snd] in *. unfold fill_S_body.
  rewrite !(fun dm => proj1 (BF_encrypt_spec dm key Hk d true Hd)). cbn [mbind res_bind].
  pose proof (encipher_block ILP32 key Hk d Hd) as [He1 He2]. destruct Hk as (H1 & H2 & H3 & H4).
  destruct (aset_words 1024 (S key) (2 * i) (encipher key d).1 H3 H4 ltac:(lia) He1) as (p1 & -> & Hl1 & Hp1).
  cbn [mbind res_bind].
  destruct (aset_words 1024 p1 (2 * i + 1) (encipher key d).2 Hl1 Hp1 ltac:(lia) He2) as (p2 & -> & Hl2 & Hp2).
  cbn [mbind res_bind mret res_ret]. split; [reflexivity|]. split; [|split; [exact He1|exact He2]].
  split; [exact H1|]. split; [exact H2|]. split; [exact Hl2|exact Hp2].
Qed.

(** The fill loops from a mixed P array on. *)
Definition fill dm p : res BF_KEY :=
  s ← cfor 9 0 (fill_P_body dm) (BfKey p bf_init_S, (0, 0));
  s ← cfor 512 0 (fill_S_body dm) s;
  mret s.1.

Lemma fill_spec dm p : length p = 18%nat -> Forall (inU 32) p ->
  fill dm p = fill ILP32 p /\ okp (fill ILP32 p) key_ok.
Proof.
  intros Hl Hp. unfold fill. destruct init_words as (_ & _ & H3 & H4).
  assert (filled (BfKey p bf_init_S, (0, 0))) as H0.
  { split; [split; [exact Hl|split; [exact Hp|split; [exact H3|exact H4]]]|split; cbn; clia]. }
  destruct (cfor_agree filled (fill_P_body dm) (fill_P_body ILP32) 9 0 _ H0) as [-> Ho].
  { intros i s Hi Hs. apply fill_P_step; [lia|exact Hs]. }
  destruct (cfor 9 0 (fill_P_body ILP32) _) as [s|e]; [|destruct Ho]. cbn [mbind res_bind okp] in *.
  destruct (cfor_agree filled (fill_S_body dm) (fill_S_body ILP32) 512 0 s Ho) as [-> Ho2].
  { intros i s' Hi Hs. apply fill_S_step; [lia|exact Hs]. }
  destruct (cfor 512 0 (fill_S_body ILP32) s) as [s2|e]; [|destruct Ho2]. cbn [mbind res_bind okp] in *.
  split; [reflexivity|]. apply Ho2.
Qed.

Lemma BF_set_key_fill dm data n : key_input data n ->
  BF_set_key dm (Z.of_nat n) data = fill dm (mixed (key_cycle data (n `min` 72)) 0 bf_init_P).
Proof.
  intros [Hn Hb]. unfold BF_set_key.
  replace (if 72 <? Z.of_nat n then 72 else Z.of_nat n) with (Z.of_nat (n `min` 72))
    by (destruct (Z.ltb_spec 72 (Z.of_nat n)); lia).
  pose proof (mix_key_spec dm data (n `min` 72) ltac:(split; [lia|exact Hb]) bf_init_P 0) as E.
  rewrite Nat.Div0.mod_0_l in E. change (Z.of_nat 0) with 0 in E. rewrite E. reflexivity.
Qed.
End KeySchedule.

(** * Properties *)

(** The keys that [BF_set_key] starts from serve as concrete inputs. *)
Definition pi_key : BF_KEY := BfKey bf_init_P bf_init_S.

(** C35: For every well-formed key and every block of two 32-bit words, and both widths of
    long, BF_encrypt terminates without an access outside the S boxes, computes the 16-round
    Feistel network of the Blowfish paper, and its two directions undo each other. *)
Theorem BF_encrypt_feistel (dm : data_model) (key : BF_KEY) (d : Z * Z) :
  key_ok key -> block2 d ->
  exists c, BF_encrypt dm d key true = Ok c /\ c = encipher key d /\ block2 c /\
    BF_encrypt dm c key false = Ok d /\
  exists e, BF_encrypt dm d key false = Ok e /\ e = decipher key d /\ block2 e /\
    BF_encrypt dm e key true = Ok d.
Proof.
  intros Hk Hd. destruct (BF_encrypt_spec dm key Hk d true Hd) as [E He].
  destruct (BF_encrypt_spec dm key Hk d false Hd) as [D Hde].
  exists (encipher key d). split; [exact E|]. split; [reflexivity|]. split; [exact He|].
  split; [rewrite (proj1 (BF_encrypt_spec dm key Hk _ false He)), decipher_encipher; reflexivity|].
  exists (decipher key d). split; [exact D|]. split; [reflexivity|]. split; [exact Hde|].
  rewrite (proj1 (BF_encrypt_spec dm key Hk _ true Hde)), encipher_decipher. reflexivity.
Qed.

Lemma BF_encrypt_feistel_witness :
  BF_encrypt LP64 (1, 2) pi_key true = Ok (encipher pi_key (1, 2)).
Proof.
  destruct (BF_encrypt_feistel LP64 pi_key (1, 2) init_words ltac:(split; cbn; clia)) as (c & -> & -> & _).
  reflexivity.
Defined.

(** ECB: a block encrypted with one width of long and decrypted with the same or the other
    comes back unchanged. *)
Theorem BF_ecb_inverse (dm dm' : data_model) (key : BF_KEY) (b : list Z) :
  key_ok key -> barr 8 b ->
  exists c, BF_ecb_encrypt dm b key true = Ok c /\ barr 8 c /\ BF_ecb_encrypt dm' c key false = Ok b.
Proof.
  intros Hk Hb. pose proof (words_of_block2 dm b Hb) as Hw.
  destruct (BF_encrypt_pair dm key Hk _ Hw) as (d & E & Hd & _).
  exists (bytes_of d). unfold BF_ecb_encrypt. replace 8%nat with (length b) by apply Hb.
  rewrite cread_all. cbn [mbind res_bind]. rewrite E. cbn [mbind res_bind mret res_ret]. split; [reflexivity|].
  destruct (barr_bytes_of d) as [Hl Hdb]. rewrite (proj1 Hb). split; [split; assumption|].
  replace 8%nat with (length (bytes_of d)) by exact Hl. rewrite cread_all. cbn [mbind res_bind].
  rewrite words_bytes by exact Hd.
  destruct (BF_encrypt_spec dm key Hk _ true Hw) as [E' _]. rewrite E in E'. injection E' as E'.
  rewrite (proj1 (BF_encrypt_spec dm' key Hk d false Hd)), E', decipher_encipher.
  cbn [mbind res_bind mret res_ret]. rewrite bytes_words by exact Hb. reflexivity.
Qed.

Lemma BF_ecb_inverse_witness :
  exists c, BF_ecb_encrypt LP64 [1; 2; 3; 4; 5; 6; 7; 8] pi_key true = Ok c /\
    BF_ecb_encrypt ILP32 c pi_key false = Ok [1; 2; 3; 4; 5; 6; 7; 8].
Proof.
  destruct (BF_ecb_inverse LP64 ILP32 pi_key [1; 2; 3; 4; 5; 6; 7; 8] init_words ltac:(by_eval)) as (c & E & _ & D).
  exists c. split; [exact E|exact D].
Defined.

(** CBC: encrypting a message of any length gives whole blocks, and decrypting them with the
    same length and the same initial iv gives the message back and leaves the same iv. *)
Theorem BF_cbc_roundtrip (dm : data_model) (key : BF_KEY) (iv inp : list Z) :
  key_ok key -> barr 8 iv -> Forall (inU 8) inp ->
  exists out iv',
    BF_cbc_encrypt dm inp (Z.of_nat (length inp)) key iv true = Ok (out, iv') /\
    Z.of_nat (length out) = (Z.of_nat (length inp) + 7) / 8 * 8 /\ barr 8 iv' /\
    BF_cbc_encrypt dm out (Z.of_nat (length inp)) key iv false = Ok (inp, iv').
Proof.
  intros Hk Hiv Hb. unfold BF_cbc_encrypt.
  pose proof (cread_all iv) as Hc. rewrite (proj1 Hiv) in Hc. rewrite Hc. cbn [mbind res_bind].
  rewrite Nat2Z.id.
  destruct (cbc_loops dm key Hk (Datatypes.S (length inp)) inp (words_of dm iv)) as (out & c' & E & _ & _ & Hl & D);
    [lia|exact Hb|now apply words_of_block2|].
  exists out, (bytes_of c'). rewrite E, D. cbn [mbind res_bind mret res_ret].
  split; [reflexivity|]. split; [exact Hl|]. split; [apply barr_bytes_of|reflexivity].
Qed.

Lemma BF_cbc_roundtrip_witness :
  exists out iv', BF_cbc_encrypt LP64 [1; 2; 3; 4; 5; 6; 7; 8; 9] 9 pi_key (replicate 8 7) true = Ok (out, iv') /\
    BF_cbc_encrypt LP64 out 9 pi_key (replicate 8 7) false = Ok ([1; 2; 3; 4; 5; 6; 7; 8; 9], iv').
Proof.
  destruct (BF_cbc_roundtrip LP64 pi_key (replicate 8 7) [1; 2; 3; 4; 5; 6; 7; 8; 9] init_words
    ltac:(by_eval) ltac:(by_eval)) as (out & iv' & E & _ & _ & D).
  exists out, iv'. split; [exact E|exact D].
Defined.

(** CFB: from every state (ivec, num), decrypting what encryption produced gives the message
    back and leaves the same ivec and num. *)
Theorem BF_cfb64_roundtrip (dm : data_model) (key : BF_KEY) (iv inp : list Z) (num : Z) :
  key_ok key -> mode_ok iv num -> Forall (inU 8) inp ->
  exists iv' num' out,
    BF_cfb64_encrypt dm inp (length inp) key iv num true = Ok (iv', num', out) /\
    mode_ok iv' num' /\ length out = length inp /\ Forall (inU 8) out /\
    BF_cfb64_encrypt dm out (length out) key iv num false = Ok (iv', num', inp).
Proof.
  intros Hk Hs Hb. destruct (cfb64_loop_pair dm key Hk inp iv num Hs Hb) as (iv' & num' & out & E & Hs' & Hl & Ho & D).
  exists iv', num', out. unfold BF_cfb64_encrypt. rewrite !cread_all. cbn [mbind res_bind].
  split; [exact E|]. split; [exact Hs'|]. split; [exact Hl|]. split; [exact Ho|exact D].
Qed.

Lemma BF_cfb64_roundtrip_witness :
  exists iv' num' out, BF_cfb64_encrypt LP64 (seqZ 1 11) 11 pi_key (replicate 8 7) 6 true = Ok (iv', num', out) /\
    BF_cfb64_encrypt LP64 out 11 pi_key (replicate 8 7) 6 false = Ok (iv', num', seqZ 1 11).
Proof.
  destruct (BF_cfb64_roundtrip LP64 pi_key (replicate 8 7) (seqZ 1 11) 6 init_words
    ltac:(split; [by_eval|lia]) ltac:(by_eval)) as (iv' & num' & out & E & _ & Hl & _ & D).
  exists iv', num', out. rewrite Hl in D. split; [exact E|exact D].
Defined.

(** CFB: processing a message in two calls, with ivec and num carried over, is processing it
    in one, in both directions. *)
Theorem BF_cfb64_split (dm : data_model) (key : BF_KEY) (iv a b : list Z) (num : Z) (enc : bool) :
  BF_cfb64_encrypt dm (a ++ b) (length (a ++ b)) key iv num enc =
    '(iv, num, o1) ← BF_cfb64_encrypt dm a (length a) key iv num enc;
    '(iv, num, o2) ← BF_cfb64_encrypt dm b (length b) key iv num enc;
    mret (iv, num, o1 ++ o2).
Proof. unfold BF_cfb64_encrypt. rewrite !cread_all. cbn [mbind res_bind]. apply cfb64_loop_app. Qed.

(** OFB: applying the function to its own output from the same ivec and num gives the
    message back and leaves the same state. *)
Theorem BF_ofb64_involution (dm : data_model) (key : BF_KEY) (iv inp : list Z) (num : Z) :
  key_ok key -> mode_ok iv num -> Forall (inU 8) inp ->
  exists iv' num' out,
    BF_ofb64_encrypt dm inp (length inp) key iv num = Ok (iv', num', out) /\
    mode_ok iv' num' /\ length out = length inp /\ Forall (inU 8) out /\
    BF_ofb64_encrypt dm out (length out) key iv num = Ok (iv', num', inp).
Proof.
  intros Hk [Hiv Hn] Hb.
  destruct (ofb64_loop_pair dm key Hk inp _ num (words_of_block2 dm iv Hiv) Hn Hb)
    as (d & num' & out & sv & E & D & Hd & Hn' & Ho & Hl & Hs).
  exists (bytes_of d), num', out. split; [exact (ofb64_encrypt_loop dm key inp iv num d num' out sv Hiv E Hs)|].
  split; [split; [apply barr_bytes_of|exact Hn']|]. split; [exact Hl|]. split; [exact Ho|].
  exact (ofb64_encrypt_loop dm key out iv num d num' inp sv Hiv D Hs).
Qed.

Lemma BF_ofb64_involution_witness :
  exists iv' num' out, BF_ofb64_encrypt LP64 (seqZ 1 11) 11 pi_key (replicate 8 7) 6 = Ok (iv', num', out) /\
    BF_ofb64_encrypt LP64 out 11 pi_key (replicate 8 7) 6 = Ok (iv', num', seqZ 1 11).
Proof.
  destruct (BF_ofb64_involution LP64 pi_key (replicate 8 7) (seqZ 1 11) 6 init_words
    ltac:(split; [by_eval|lia]) ltac:(by_eval)) as (iv' & num' & out & E & _ & Hl & _ & D).
  exists iv', num', out. rewrite Hl in D. split; [exact E|exact D].
Defined.

(** OFB: processing a message in two calls is processing it in one, although ivec is only
    written back by a call that encrypted a block. *)
Theorem BF_ofb64_split (dm : data_model) (key : BF_KEY) (iv a b : list Z) (num : Z) :
  key_ok key -> mode_ok iv num -> Forall (inU 8) a -> Forall (inU 8) b ->
  okp (BF_ofb64_encrypt dm (a ++ b) (length (a ++ b)) key iv num)
    (fun r => ('(iv, num, o1) ← BF_ofb64_encrypt dm a (length a) key iv num;
               '(iv, num, o2) ← BF_ofb64_encrypt dm b (length b) key iv num;
               mret (iv, num, o1 ++ o2)) = Ok r).
Proof.
  intros Hk [Hiv Hn] Ha Hb.
  destruct (ofb64_loop_pair dm key Hk a _ num (words_of_block2 dm iv Hiv) Hn Ha)
    as (d1 & n1 & o1 & s1 & E1 & _ & Hd1 & Hn1 & _ & _ & Hs1).
  destruct (ofb64_loop_pair dm key Hk b _ n1 Hd1 Hn1 Hb) as (d2 & n2 & o2 & s2 & E2 & _ & Hd2 & _ & _ & _ & Hs2).
  rewrite (ofb64_encrypt_loop dm key a iv num d1 n1 o1 s1 Hiv E1 Hs1). cbn [mbind res_bind].
  rewrite (ofb64_encrypt_loop dm key b (bytes_of d1) n1 d2 n2 o2 s2 (barr_bytes_of d1))
    by (rewrite words_bytes by exact Hd1; assumption).
  rewrite (ofb64_encrypt_loop dm key (a ++ b) iv num d2 n2 (o1 ++ o2) (s2 || s1) Hiv); [reflexivity| |].
  - intros sv. rewrite ofb64_loop_app, E1. cbn [mbind res_bind]. rewrite E2. cbn [mbind res_bind mret res_ret].
    now rewrite orb_assoc.
  - intros H. apply orb_false_elim in H as [H2 H1]. now rewrite Hs2, Hs1.
Qed.

Lemma BF_ofb64_split_witness :
  okp (BF_ofb64_encrypt LP64 (seqZ 1 3 ++ seqZ 4 9) 12 pi_key (replicate 8 7) 6)
    (fun r => ('(iv, num, o1) ← BF_ofb64_encrypt LP64 (seqZ 1 3) 3 pi_key (replicate 8 7) 6;
               '(iv, num, o2) ← BF_ofb64_encrypt LP64 (seqZ 4 9) 9 pi_key iv num;
               mret (iv, num, o1 ++ o2)) = Ok r).
Proof.
  apply (BF_ofb64_split LP64 pi_key (replicate 8 7) (seqZ 1 3) (seqZ 4 9) 6 init_words);
    [split; [by_eval|lia]|by_eval|by_eval].
Defined.

(** BF_set_key with n > 0 key bytes terminates without an access outside its arrays, leaves
    a well-formed key, and that key only depends on the first 72 bytes of the key repeated
    cyclically: no byte after the 72nd counts, and the width of long does not matter. *)
Theorem BF_set_key_cyclic (dm : data_model) (data : list Z) (n : nat) :
  (0 < n <= length data)%nat -> Forall (inU 8) data ->
  exists key, BF_set_key dm (Z.of_nat n) data = Ok key /\ key_ok key /\
    forall dm' data', (72 <= length data')%nat -> Forall (inU 8) data' ->
      (forall t, (t < 72)%nat -> data' !!! t = data !!! (t mod (n `min` 72))%nat) ->
      BF_set_key dm' (Z.of_nat (length data')) data' = Ok key.
Proof.
  intros Hn Hb. destruct init_words as (Hpl & Hp & _).
  assert (key_input data (n `min` 72)) as Hk by (split; [lia|exact Hb]).
  destruct (mixed_words (key_cycle data (n `min` 72)) bf_init_P (fun i => key_cycle_byte _ _ i Hk) Hp 0) as [Hl Hw].
  rewrite Hpl in Hl. rewrite BF_set_key_fill by (split; assumption).
  destruct (fill_spec dm _ Hl Hw) as [-> Ho]. apply okp_ok in Ho as (key & E & Hkey).
  exists key. split; [exact E|]. split; [exact Hkey|]. intros dm' data' Hd Hb' Hcyc.
  rewrite BF_set_key_fill by (split; [lia|exact Hb']).
  rewrite (mixed_ext _ (key_cycle data (n `min` 72)) bf_init_P 0).
  - rewrite (proj1 (fill_spec dm' _ Hl Hw)). exact E.
  - rewrite Hpl. intros i Hi. unfold key_cycle. rewrite (Nat.min_r (length data') 72) by lia.
    rewrite (Nat.mod_small i 72) by lia. apply Hcyc. lia.
Qed.

Lemma BF_set_key_cyclic_witness :
  exists key, BF_set_key LP64 2 [1; 2] = Ok key /\
    BF_set_key ILP32 72 (concat (replicate 36 [1; 2])) = Ok key.
Proof.
  destruct (BF_set_key_cyclic LP64 [1; 2] 2 ltac:(cbn; lia) ltac:(by_eval)) as (key & E & _ & H).
  exists key. split; [exact E|].
  apply (H ILP32 (concat (replicate 36 [1; 2]))); [vm_compute; lia|by_eval|].
  intros t Ht. do 72 (destruct t as [|t]; [reflexivity|]). lia.
Defined.
