(* ===== verification/AesTables.v ===== *)
(** The fixed tables of src/mibench/security/rijndael/aestab.h, in the form that
    [AES_LITTLE_ENDIAN] and [FOUR_TABLES], [FOUR_LR_TABLES] and [FOUR_IM_TABLES] select.

    As in the header, the four rotated copies of a table are made by macros from one list of
    entries; an entry [r(p,q,r,s)] is the quadruple of its bytes. *)
From stdpp Require Import base list.
From Stdlib Require Import ZArith.
Open Scope Z_scope.

(** [0x##p##q##r##s]. *)
Definition hex4 (p q r s : Z) : Z := ((p * 256 + q) * 256 + r) * 256 + s.
Definition r0 (e : Z * Z * Z * Z) : Z := let '(p, q, r, s) := e in hex4 p q r s.
Definition r1 (e : Z * Z * Z * Z) : Z := let '(p, q, r, s) := e in hex4 q r s p.
Definition r2 (e : Z * Z * Z * Z) : Z := let '(p, q, r, s) := e in hex4 r s p q.
Definition r3 (e : Z * Z * Z * Z) : Z := let '(p, q, r, s) := e in hex4 s p q r.
Definition w0 (p : Z) : Z := hex4 0 0 0 p.
Definition w1 (p : Z) : Z := hex4 0 0 p 0.
Definition w2 (p : Z) : Z := hex4 0 p 0 0.
Definition w3 (p : Z) : Z := hex4 p 0 0 0.

Definition rcon_tab : list Z :=
  w0 <$> [0x01; 0x02; 0x04; 0x08; 0x10; 0x20; 0x40; 0x80; 0x1b; 0x36; 0x6c; 0xd8; 0xab; 0x4d; 0x9a; 0x2f; 0x5e;
   0xbc; 0x63; 0xc6; 0x97; 0x35; 0x6a; 0xd4; 0xb3; 0x7d; 0xfa; 0xef; 0xc5].

Definition f_table : list (Z * Z * Z * Z) :=
  [(0xa5, 0x63, 0x63, 0xc6); (0x84, 0x7c, 0x7c, 0xf8); (0x99, 0x77, 0x77, 0xee); (0x8d, 0x7b, 0x7b, 0xf6);
   (0x0d, 0xf2, 0xf2, 0xff); (0xbd, 0x6b, 0x6b, 0xd6); (0xb1, 0x6f, 0x6f, 0xde); (0x54, 0xc5, 0xc5, 0x91);
   (0x50, 0x30, 0x30, 0x60); (0x03, 0x01, 0x01, 0x02); (0xa9, 0x67, 0x67, 0xce); (0x7d, 0x2b, 0x2b, 0x56);
   (0x19, 0xfe, 0xfe, 0xe7); (0x62, 0xd7, 0xd7, 0xb5); (0xe6, 0xab, 0xab, 0x4d); (0x9a, 0x76, 0x76, 0xec);
   (0x45, 0xca, 0xca, 0x8f); (0x9d, 0x82, 0x82, 0x1f); (0x40, 0xc9, 0xc9, 0x89); (0x87, 0x7d, 0x7d, 0xfa);
   (0x15, 0xfa, 0xfa, 0xef); (0xeb, 0x59, 0x59, 0xb2); (0xc9, 0x47, 0x47, 0x8e); (0x0b, 0xf0, 0xf0, 0xfb);
   (0xec, 0xad, 0xad, 0x41); (0x67, 0xd4, 0xd4, 0xb3); (0xfd, 0xa2, 0xa2, 0x5f); (0xea, 0xaf, 0xaf, 0x45);
   (0xbf, 0x9c, 0x9c, 0x23); (0xf7, 0xa4, 0xa4, 0x53); (0x96, 0x72, 0x72, 0xe4); (0x5b, 0xc0, 0xc0, 0x9b);
   (0xc2, 0xb7, 0xb7, 0x75); (0x1c, 0xfd, 0xfd, 0xe1); (0xae, 0x93, 0x93, 0x3d); (0x6a, 0x26, 0x26, 0x4c);
   (0x5a, 0x36, 0x36, 0x6c); (0x41, 0x3f, 0x3f, 0x7e); (0x02, 0xf7, 0xf7, 0xf5); (0x4f, 0xcc, 0xcc, 0x83);
   (0x5c, 0x34, 0x34, 0x68); (0xf4, 0xa5, 0xa5, 0x51); (0x34, 0xe5, 0xe5, 0xd1); (0x08, 0xf1, 0xf1, 0xf9);
   (0x93, 0x71, 0x71, 0xe2); (0x73, 0xd8, 0xd8, 0xab); (0x53, 0x31, 0x31, 0x62); (0x3f, 0x15, 0x15, 0x2a);
   (0x0c, 0x04, 0x04, 0x08); (0x52, 0xc7, 0xc7, 0x95); (0x65, 0x23, 0x23, 0x46); (0x5e, 0xc3, 0xc3, 0x9d);
   (0x28, 0x18, 0x18, 0x30); (0xa1, 0x96, 0x96, 0x37); (0x0f, 0x05, 0x05, 0x0a); (0xb5, 0x9a, 0x9a, 0x2f);
   (0x09, 0x07, 0x07, 0x0e); (0x36, 0x12, 0x12, 0x24); (0x9b, 0x80, 0x80, 0x1b); (0x3d, 0xe2, 0xe2, 0xdf);
   (0x26, 0xeb, 0xeb, 0xcd); (0x69, 0x27, 0x27, 0x4e); (0xcd, 0xb2, 0xb2, 0x7f); (0x9f, 0x75, 0x75, 0xea);
   (0x1b, 0x09, 0x09, 0x12); (0x9e, 0x83, 0x83, 0x1d); (0x74, 0x2c, 0x2c, 0x58); (0x2e, 0x1a, 0x1a, 0x34);
   (0x2d, 0x1b, 0x1b, 0x36); (0xb2, 0x6e, 0x6e, 0xdc); (0xee, 0x5a, 0x5a, 0xb4); (0xfb, 0xa0, 0xa0, 0x5b);
   (0xf6, 0x52, 0x52, 0xa4); (0x4d, 0x3b, 0x3b, 0x76); (0x61, 0xd6, 0xd6, 0xb7); (0xce, 0xb3, 0xb3, 0x7d);
   (0x7b, 0x29, 0x29, 0x52); (0x3e, 0xe3, 0xe3, 0xdd); (0x71, 0x2f, 0x2f, 0x5e); (0x97, 0x84, 0x84, 0x13);
   (0xf5, 0x53, 0x53, 0xa6); (0x68, 0xd1, 0xd1, 0xb9); (0x00, 0x00, 0x00, 0x00); (0x2c, 0xed, 0xed, 0xc1);
   (0x60, 0x20, 0x20, 0x40); (0x1f, 0xfc, 0xfc, 0xe3); (0xc8, 0xb1, 0xb1, 0x79); (0xed, 0x5b, 0x5b, 0xb6);
   (0xbe, 0x6a, 0x6a, 0xd4); (0x46, 0xcb, 0xcb, 0x8d); (0xd9, 0xbe, 0xbe, 0x67); (0x4b, 0x39, 0x39, 0x72);
   (0xde, 0x4a, 0x4a, 0x94); (0xd4, 0x4c, 0x4c, 0x98); (0xe8, 0x58, 0x58, 0xb0); (0x4a, 0xcf, 0xcf, 0x85);
   (0x6b, 0xd0, 0xd0, 0xbb); (0x2a, 0xef, 0xef, 0xc5); (0xe5, 0xaa, 0xaa, 0x4f); (0x16, 0xfb, 0xfb, 0xed);
   (0xc5, 0x43, 0x43, 0x86); (0xd7, 0x4d, 0x4d, 0x9a); (0x55, 0x33, 0x33, 0x66); (0x94, 0x85, 0x85, 0x11);
   (0xcf, 0x45, 0x45, 0x8a); (0x10, 0xf9, 0xf9, 0xe9); (0x06, 0x02, 0x02, 0x04); (0x81, 0x7f, 0x7f, 0xfe);
   (0xf0, 0x50, 0x50, 0xa0); (0x44, 0x3c, 0x3c, 0x78); (0xba, 0x9f, 0x9f, 0x25); (0xe3, 0xa8, 0xa8, 0x4b);
   (0xf3, 0x51, 0x51, 0xa2); (0xfe, 0xa3, 0xa3, 0x5d); (0xc0, 0x40, 0x40, 0x80); (0x8a, 0x8f, 0x8f, 0x05);
   (0xad, 0x92, 0x92, 0x3f); (0xbc, 0x9d, 0x9d, 0x21); (0x48, 0x38, 0x38, 0x70); (0x04, 0xf5, 0xf5, 0xf1);
   (0xdf, 0xbc, 0xbc, 0x63); (0xc1, 0xb6, 0xb6, 0x77); (0x75, 0xda, 0xda, 0xaf); (0x63, 0x21, 0x21, 0x42);
   (0x30, 0x10, 0x10, 0x20); (0x1a, 0xff, 0xff, 0xe5); (0x0e, 0xf3, 0xf3, 0xfd); (0x6d, 0xd2, 0xd2, 0xbf);
   (0x4c, 0xcd, 0xcd, 0x81); (0x14, 0x0c, 0x0c, 0x18); (0x35, 0x13, 0x13, 0x26); (0x2f, 0xec, 0xec, 0xc3);
   (0xe1, 0x5f, 0x5f, 0xbe); (0xa2, 0x97, 0x97, 0x35); (0xcc, 0x44, 0x44, 0x88); (0x39, 0x17, 0x17, 0x2e);
   (0x57, 0xc4, 0xc4, 0x93); (0xf2, 0xa7, 0xa7, 0x55); (0x82, 0x7e, 0x7e, 0xfc); (0x47, 0x3d, 0x3d, 0x7a);
   (0xac, 0x64, 0x64, 0xc8); (0xe7, 0x5d, 0x5d, 0xba); (0x2b, 0x19, 0x19, 0x32); (0x95, 0x73, 0x73, 0xe6);
   (0xa0, 0x60, 0x60, 0xc0); (0x98, 0x81, 0x81, 0x19); (0xd1, 0x4f, 0x4f, 0x9e); (0x7f, 0xdc, 0xdc, 0xa3);
   (0x66, 0x22, 0x22, 0x44); (0x7e, 0x2a, 0x2a, 0x54); (0xab, 0x90, 0x90, 0x3b); (0x83, 0x88, 0x88, 0x0b);
   (0xca, 0x46, 0x46, 0x8c); (0x29, 0xee, 0xee, 0xc7); (0xd3, 0xb8, 0xb8, 0x6b); (0x3c, 0x14, 0x14, 0x28);
   (0x79, 0xde, 0xde, 0xa7); (0xe2, 0x5e, 0x5e, 0xbc); (0x1d, 0x0b, 0x0b, 0x16); (0x76, 0xdb, 0xdb, 0xad);
   (0x3b, 0xe0, 0xe0, 0xdb); (0x56, 0x32, 0x32, 0x64); (0x4e, 0x3a, 0x3a, 0x74); (0x1e, 0x0a, 0x0a, 0x14);
   (0xdb, 0x49, 0x49, 0x92); (0x0a, 0x06, 0x06, 0x0c); (0x6c, 0x24, 0x24, 0x48); (0xe4, 0x5c, 0x5c, 0xb8);
   (0x5d, 0xc2, 0xc2, 0x9f); (0x6e, 0xd3, 0xd3, 0xbd); (0xef, 0xac, 0xac, 0x43); (0xa6, 0x62, 0x62, 0xc4);
   (0xa8, 0x91, 0x91, 0x39); (0xa4, 0x95, 0x95, 0x31); (0x37, 0xe4, 0xe4, 0xd3); (0x8b, 0x79, 0x79, 0xf2);
   (0x32, 0xe7, 0xe7, 0xd5); (0x43, 0xc8, 0xc8, 0x8b); (0x59, 0x37, 0x37, 0x6e); (0xb7, 0x6d, 0x6d, 0xda);
   (0x8c, 0x8d, 0x8d, 0x01); (0x64, 0xd5, 0xd5, 0xb1); (0xd2, 0x4e, 0x4e, 0x9c); (0xe0, 0xa9, 0xa9, 0x49);
   (0xb4, 0x6c, 0x6c, 0xd8); (0xfa, 0x56, 0x56, 0xac); (0x07, 0xf4, 0xf4, 0xf3); (0x25, 0xea, 0xea, 0xcf);
   (0xaf, 0x65, 0x65, 0xca); (0x8e, 0x7a, 0x7a, 0xf4); (0xe9, 0xae, 0xae, 0x47); (0x18, 0x08, 0x08, 0x10);
   (0xd5, 0xba, 0xba, 0x6f); (0x88, 0x78, 0x78, 0xf0); (0x6f, 0x25, 0x25, 0x4a); (0x72, 0x2e, 0x2e, 0x5c);
   (0x24, 0x1c, 0x1c, 0x38); (0xf1, 0xa6, 0xa6, 0x57); (0xc7, 0xb4, 0xb4, 0x73); (0x51, 0xc6, 0xc6, 0x97);
   (0x23, 0xe8, 0xe8, 0xcb); (0x7c, 0xdd, 0xdd, 0xa1); (0x9c, 0x74, 0x74, 0xe8); (0x21, 0x1f, 0x1f, 0x3e);
   (0xdd, 0x4b, 0x4b, 0x96); (0xdc, 0xbd, 0xbd, 0x61); (0x86, 0x8b, 0x8b, 0x0d); (0x85, 0x8a, 0x8a, 0x0f);
   (0x90, 0x70, 0x70, 0xe0); (0x42, 0x3e, 0x3e, 0x7c); (0xc4, 0xb5, 0xb5, 0x71); (0xaa, 0x66, 0x66, 0xcc);
   (0xd8, 0x48, 0x48, 0x90); (0x05, 0x03, 0x03, 0x06); (0x01, 0xf6, 0xf6, 0xf7); (0x12, 0x0e, 0x0e, 0x1c);
   (0xa3, 0x61, 0x61, 0xc2); (0x5f, 0x35, 0x35, 0x6a); (0xf9, 0x57, 0x57, 0xae); (0xd0, 0xb9, 0xb9, 0x69);
   (0x91, 0x86, 0x86, 0x17); (0x58, 0xc1, 0xc1, 0x99); (0x27, 0x1d, 0x1d, 0x3a); (0xb9, 0x9e, 0x9e, 0x27);
   (0x38, 0xe1, 0xe1, 0xd9); (0x13, 0xf8, 0xf8, 0xeb); (0xb3, 0x98, 0x98, 0x2b); (0x33, 0x11, 0x11, 0x22);
   (0xbb, 0x69, 0x69, 0xd2); (0x70, 0xd9, 0xd9, 0xa9); (0x89, 0x8e, 0x8e, 0x07); (0xa7, 0x94, 0x94, 0x33);
   (0xb6, 0x9b, 0x9b, 0x2d); (0x22, 0x1e, 0x1e, 0x3c); (0x92, 0x87, 0x87, 0x15); (0x20, 0xe9, 0xe9, 0xc9);
   (0x49, 0xce, 0xce, 0x87); (0xff, 0x55, 0x55, 0xaa); (0x78, 0x28, 0x28, 0x50); (0x7a, 0xdf, 0xdf, 0xa5);
   (0x8f, 0x8c, 0x8c, 0x03); (0xf8, 0xa1, 0xa1, 0x59); (0x80, 0x89, 0x89, 0x09); (0x17, 0x0d, 0x0d, 0x1a);
   (0xda, 0xbf, 0xbf, 0x65); (0x31, 0xe6, 0xe6, 0xd7); (0xc6, 0x42, 0x42, 0x84); (0xb8, 0x68, 0x68, 0xd0);
   (0xc3, 0x41, 0x41, 0x82); (0xb0, 0x99, 0x99, 0x29); (0x77, 0x2d, 0x2d, 0x5a); (0x11, 0x0f, 0x0f, 0x1e);
   (0xcb, 0xb0, 0xb0, 0x7b); (0xfc, 0x54, 0x54, 0xa8); (0xd6, 0xbb, 0xbb, 0x6d); (0x3a, 0x16, 0x16, 0x2c)].

Definition i_table : list (Z * Z * Z * Z) :=
  [(0x50, 0xa7, 0xf4, 0x51); (0x53, 0x65, 0x41, 0x7e); (0xc3, 0xa4, 0x17, 0x1a); (0x96, 0x5e, 0x27, 0x3a);
   (0xcb, 0x6b, 0xab, 0x3b); (0xf1, 0x45, 0x9d, 0x1f); (0xab, 0x58, 0xfa, 0xac); (0x93, 0x03, 0xe3, 0x4b);
   (0x55, 0xfa, 0x30, 0x20); (0xf6, 0x6d, 0x76, 0xad); (0x91, 0x76, 0xcc, 0x88); (0x25, 0x4c, 0x02, 0xf5);
   (0xfc, 0xd7, 0xe5, 0x4f); (0xd7, 0xcb, 0x2a, 0xc5); (0x80, 0x44, 0x35, 0x26); (0x8f, 0xa3, 0x62, 0xb5);
   (0x49, 0x5a, 0xb1, 0xde); (0x67, 0x1b, 0xba, 0x25); (0x98, 0x0e, 0xea, 0x45); (0xe1, 0xc0, 0xfe, 0x5d);
   (0x02, 0x75, 0x2f, 0xc3); (0x12, 0xf0, 0x4c, 0x81); (0xa3, 0x97, 0x46, 0x8d); (0xc6, 0xf9, 0xd3, 0x6b);
   (0xe7, 0x5f, 0x8f, 0x03); (0x95, 0x9c, 0x92, 0x15); (0xeb, 0x7a, 0x6d, 0xbf); (0xda, 0x59, 0x52, 0x95);
   (0x2d, 0x83, 0xbe, 0xd4); (0xd3, 0x21, 0x74, 0x58); (0x29, 0x69, 0xe0, 0x49); (0x44, 0xc8, 0xc9, 0x8e);
   (0x6a, 0x89, 0xc2, 0x75); (0x78, 0x79, 0x8e, 0xf4); (0x6b, 0x3e, 0x58, 0x99); (0xdd, 0x71, 0xb9, 0x27);
   (0xb6, 0x4f, 0xe1, 0xbe); (0x17, 0xad, 0x88, 0xf0); (0x66, 0xac, 0x20, 0xc9); (0xb4, 0x3a, 0xce, 0x7d);
   (0x18, 0x4a, 0xdf, 0x63); (0x82, 0x31, 0x1a, 0xe5); (0x60, 0x33, 0x51, 0x97); (0x45, 0x7f, 0x53, 0x62);
   (0xe0, 0x77, 0x64, 0xb1); (0x84, 0xae, 0x6b, 0xbb); (0x1c, 0xa0, 0x81, 0xfe); (0x94, 0x2b, 0x08, 0xf9);
   (0x58, 0x68, 0x48, 0x70); (0x19, 0xfd, 0x45, 0x8f); (0x87, 0x6c, 0xde, 0x94); (0xb7, 0xf8, 0x7b, 0x52);
   (0x23, 0xd3, 0x73, 0xab); (0xe2, 0x02, 0x4b, 0x72); (0x57, 0x8f, 0x1f, 0xe3); (0x2a, 0xab, 0x55, 0x66);
   (0x07, 0x28, 0xeb, 0xb2); (0x03, 0xc2, 0xb5, 0x2f); (0x9a, 0x7b, 0xc5, 0x86); (0xa5, 0x08, 0x37, 0xd3);
   (0xf2, 0x87, 0x28, 0x30); (0xb2, 0xa5, 0xbf, 0x23); (0xba, 0x6a, 0x03, 0x02); (0x5c, 0x82, 0x16, 0xed);
   (0x2b, 0x1c, 0xcf, 0x8a); (0x92, 0xb4, 0x79, 0xa7); (0xf0, 0xf2, 0x07, 0xf3); (0xa1, 0xe2, 0x69, 0x4e);
   (0xcd, 0xf4, 0xda, 0x65); (0xd5, 0xbe, 0x05, 0x06); (0x1f, 0x62, 0x34, 0xd1); (0x8a, 0xfe, 0xa6, 0xc4);
   (0x9d, 0x53, 0x2e, 0x34); (0xa0, 0x55, 0xf3, 0xa2); (0x32, 0xe1, 0x8a, 0x05); (0x75, 0xeb, 0xf6, 0xa4);
   (0x39, 0xec, 0x83, 0x0b); (0xaa, 0xef, 0x60, 0x40); (0x06, 0x9f, 0x71, 0x5e); (0x51, 0x10, 0x6e, 0xbd);
   (0xf9, 0x8a, 0x21, 0x3e); (0x3d, 0x06, 0xdd, 0x96); (0xae, 0x05, 0x3e, 0xdd); (0x46, 0xbd, 0xe6, 0x4d);
   (0xb5, 0x8d, 0x54, 0x91); (0x05, 0x5d, 0xc4, 0x71); (0x6f, 0xd4, 0x06, 0x04); (0xff, 0x15, 0x50, 0x60);
   (0x24, 0xfb, 0x98, 0x19); (0x97, 0xe9, 0xbd, 0xd6); (0xcc, 0x43, 0x40, 0x89); (0x77, 0x9e, 0xd9, 0x67);
   (0xbd, 0x42, 0xe8, 0xb0); (0x88, 0x8b, 0x89, 0x07); (0x38, 0x5b, 0x19, 0xe7); (0xdb, 0xee, 0xc8, 0x79);
   (0x47, 0x0a, 0x7c, 0xa1); (0xe9, 0x0f, 0x42, 0x7c); (0xc9, 0x1e, 0x84, 0xf8); (0x00, 0x00, 0x00, 0x00);
   (0x83, 0x86, 0x80, 0x09); (0x48, 0xed, 0x2b, 0x32); (0xac, 0x70, 0x11, 0x1e); (0x4e, 0x72, 0x5a, 0x6c);
   (0xfb, 0xff, 0x0e, 0xfd); (0x56, 0x38, 0x85, 0x0f); (0x1e, 0xd5, 0xae, 0x3d); (0x27, 0x39, 0x2d, 0x36);
   (0x64, 0xd9, 0x0f, 0x0a); (0x21, 0xa6, 0x5c, 0x68); (0xd1, 0x54, 0x5b, 0x9b); (0x3a, 0x2e, 0x36, 0x24);
   (0xb1, 0x67, 0x0a, 0x0c); (0x0f, 0xe7, 0x57, 0x93); (0xd2, 0x96, 0xee, 0xb4); (0x9e, 0x91, 0x9b, 0x1b);
   (0x4f, 0xc5, 0xc0, 0x80); (0xa2, 0x20, 0xdc, 0x61); (0x69, 0x4b, 0x77, 0x5a); (0x16, 0x1a, 0x12, 0x1c);
   (0x0a, 0xba, 0x93, 0xe2); (0xe5, 0x2a, 0xa0, 0xc0); (0x43, 0xe0, 0x22, 0x3c); (0x1d, 0x17, 0x1b, 0x12);
   (0x0b, 0x0d, 0x09, 0x0e); (0xad, 0xc7, 0x8b, 0xf2); (0xb9, 0xa8, 0xb6, 0x2d); (0xc8, 0xa9, 0x1e, 0x14);
   (0x85, 0x19, 0xf1, 0x57); (0x4c, 0x07, 0x75, 0xaf); (0xbb, 0xdd, 0x99, 0xee); (0xfd, 0x60, 0x7f, 0xa3);
   (0x9f, 0x26, 0x01, 0xf7); (0xbc, 0xf5, 0x72, 0x5c); (0xc5, 0x3b, 0x66, 0x44); (0x34, 0x7e, 0xfb, 0x5b);
   (0x76, 0x29, 0x43, 0x8b); (0xdc, 0xc6, 0x23, 0xcb); (0x68, 0xfc, 0xed, 0xb6); (0x63, 0xf1, 0xe4, 0xb8);
   (0xca, 0xdc, 0x31, 0xd7); (0x10, 0x85, 0x63, 0x42); (0x40, 0x22, 0x97, 0x13); (0x20, 0x11, 0xc6, 0x84);
   (0x7d, 0x24, 0x4a, 0x85); (0xf8, 0x3d, 0xbb, 0xd2); (0x11, 0x32, 0xf9, 0xae); (0x6d, 0xa1, 0x29, 0xc7);
   (0x4b, 0x2f, 0x9e, 0x1d); (0xf3, 0x30, 0xb2, 0xdc); (0xec, 0x52, 0x86, 0x0d); (0xd0, 0xe3, 0xc1, 0x77);
   (0x6c, 0x16, 0xb3, 0x2b); (0x99, 0xb9, 0x70, 0xa9); (0xfa, 0x48, 0x94, 0x11); (0x22, 0x64, 0xe9, 0x47);
   (0xc4, 0x8c, 0xfc, 0xa8); (0x1a, 0x3f, 0xf0, 0xa0); (0xd8, 0x2c, 0x7d, 0x56); (0xef, 0x90, 0x33, 0x22);
   (0xc7, 0x4e, 0x49, 0x87); (0xc1, 0xd1, 0x38, 0xd9); (0xfe, 0xa2, 0xca, 0x8c); (0x36, 0x0b, 0xd4, 0x98);
   (0xcf, 0x81, 0xf5, 0xa6); (0x28, 0xde, 0x7a, 0xa5); (0x26, 0x8e, 0xb7, 0xda); (0xa4, 0xbf, 0xad, 0x3f);
   (0xe4, 0x9d, 0x3a, 0x2c); (0x0d, 0x92, 0x78, 0x50); (0x9b, 0xcc, 0x5f, 0x6a); (0x62, 0x46, 0x7e, 0x54);
   (0xc2, 0x13, 0x8d, 0xf6); (0xe8, 0xb8, 0xd8, 0x90); (0x5e, 0xf7, 0x39, 0x2e); (0xf5, 0xaf, 0xc3, 0x82);
   (0xbe, 0x80, 0x5d, 0x9f); (0x7c, 0x93, 0xd0, 0x69); (0xa9, 0x2d, 0xd5, 0x6f); (0xb3, 0x12, 0x25, 0xcf);
   (0x3b, 0x99, 0xac, 0xc8); (0xa7, 0x7d, 0x18, 0x10); (0x6e, 0x63, 0x9c, 0xe8); (0x7b, 0xbb, 0x3b, 0xdb);
   (0x09, 0x78, 0x26, 0xcd); (0xf4, 0x18, 0x59, 0x6e); (0x01, 0xb7, 0x9a, 0xec); (0xa8, 0x9a, 0x4f, 0x83);
   (0x65, 0x6e, 0x95, 0xe6); (0x7e, 0xe6, 0xff, 0xaa); (0x08, 0xcf, 0xbc, 0x21); (0xe6, 0xe8, 0x15, 0xef);
   (0xd9, 0x9b, 0xe7, 0xba); (0xce, 0x36, 0x6f, 0x4a); (0xd4, 0x09, 0x9f, 0xea); (0xd6, 0x7c, 0xb0, 0x29);
   (0xaf, 0xb2, 0xa4, 0x31); (0x31, 0x23, 0x3f, 0x2a); (0x30, 0x94, 0xa5, 0xc6); (0xc0, 0x66, 0xa2, 0x35);
   (0x37, 0xbc, 0x4e, 0x74); (0xa6, 0xca, 0x82, 0xfc); (0xb0, 0xd0, 0x90, 0xe0); (0x15, 0xd8, 0xa7, 0x33);
   (0x4a, 0x98, 0x04, 0xf1); (0xf7, 0xda, 0xec, 0x41); (0x0e, 0x50, 0xcd, 0x7f); (0x2f, 0xf6, 0x91, 0x17);
   (0x8d, 0xd6, 0x4d, 0x76); (0x4d, 0xb0, 0xef, 0x43); (0x54, 0x4d, 0xaa, 0xcc); (0xdf, 0x04, 0x96, 0xe4);
   (0xe3, 0xb5, 0xd1, 0x9e); (0x1b, 0x88, 0x6a, 0x4c); (0xb8, 0x1f, 0x2c, 0xc1); (0x7f, 0x51, 0x65, 0x46);
   (0x04, 0xea, 0x5e, 0x9d); (0x5d, 0x35, 0x8c, 0x01); (0x73, 0x74, 0x87, 0xfa); (0x2e, 0x41, 0x0b, 0xfb);
   (0x5a, 0x1d, 0x67, 0xb3); (0x52, 0xd2, 0xdb, 0x92); (0x33, 0x56, 0x10, 0xe9); (0x13, 0x47, 0xd6, 0x6d);
   (0x8c, 0x61, 0xd7, 0x9a); (0x7a, 0x0c, 0xa1, 0x37); (0x8e, 0x14, 0xf8, 0x59); (0x89, 0x3c, 0x13, 0xeb);
   (0xee, 0x27, 0xa9, 0xce); (0x35, 0xc9, 0x61, 0xb7); (0xed, 0xe5, 0x1c, 0xe1); (0x3c, 0xb1, 0x47, 0x7a);
   (0x59, 0xdf, 0xd2, 0x9c); (0x3f, 0x73, 0xf2, 0x55); (0x79, 0xce, 0x14, 0x18); (0xbf, 0x37, 0xc7, 0x73);
   (0xea, 0xcd, 0xf7, 0x53); (0x5b, 0xaa, 0xfd, 0x5f); (0x14, 0x6f, 0x3d, 0xdf); (0x86, 0xdb, 0x44, 0x78);
   (0x81, 0xf3, 0xaf, 0xca); (0x3e, 0xc4, 0x68, 0xb9); (0x2c, 0x34, 0x24, 0x38); (0x5f, 0x40, 0xa3, 0xc2);
   (0x72, 0xc3, 0x1d, 0x16); (0x0c, 0x25, 0xe2, 0xbc); (0x8b, 0x49, 0x3c, 0x28); (0x41, 0x95, 0x0d, 0xff);
   (0x71, 0x01, 0xa8, 0x39); (0xde, 0xb3, 0x0c, 0x08); (0x9c, 0xe4, 0xb4, 0xd8); (0x90, 0xc1, 0x56, 0x64);
   (0x61, 0x84, 0xcb, 0x7b); (0x70, 0xb6, 0x32, 0xd5); (0x74, 0x5c, 0x6c, 0x48); (0x42, 0x57, 0xb8, 0xd0)].

Definition li_table : list Z :=
  [0x52; 0x09; 0x6a; 0xd5; 0x30; 0x36; 0xa5; 0x38; 0xbf; 0x40; 0xa3; 0x9e; 0x81; 0xf3; 0xd7; 0xfb; 0x7c;
   0xe3; 0x39; 0x82; 0x9b; 0x2f; 0xff; 0x87; 0x34; 0x8e; 0x43; 0x44; 0xc4; 0xde; 0xe9; 0xcb; 0x54; 0x7b;
   0x94; 0x32; 0xa6; 0xc2; 0x23; 0x3d; 0xee; 0x4c; 0x95; 0x0b; 0x42; 0xfa; 0xc3; 0x4e; 0x08; 0x2e; 0xa1;
   0x66; 0x28; 0xd9; 0x24; 0xb2; 0x76; 0x5b; 0xa2; 0x49; 0x6d; 0x8b; 0xd1; 0x25; 0x72; 0xf8; 0xf6; 0x64;
   0x86; 0x68; 0x98; 0x16; 0xd4; 0xa4; 0x5c; 0xcc; 0x5d; 0x65; 0xb6; 0x92; 0x6c; 0x70; 0x48; 0x50; 0xfd;
   0xed; 0xb9; 0xda; 0x5e; 0x15; 0x46; 0x57; 0xa7; 0x8d; 0x9d; 0x84; 0x90; 0xd8; 0xab; 0x00; 0x8c; 0xbc;
   0xd3; 0x0a; 0xf7; 0xe4; 0x58; 0x05; 0xb8; 0xb3; 0x45; 0x06; 0xd0; 0x2c; 0x1e; 0x8f; 0xca; 0x3f; 0x0f;
   0x02; 0xc1; 0xaf; 0xbd; 0x03; 0x01; 0x13; 0x8a; 0x6b; 0x3a; 0x91; 0x11; 0x41; 0x4f; 0x67; 0xdc; 0xea;
   0x97; 0xf2; 0xcf; 0xce; 0xf0; 0xb4; 0xe6; 0x73; 0x96; 0xac; 0x74; 0x22; 0xe7; 0xad; 0x35; 0x85; 0xe2;
   0xf9; 0x37; 0xe8; 0x1c; 0x75; 0xdf; 0x6e; 0x47; 0xf1; 0x1a; 0x71; 0x1d; 0x29; 0xc5; 0x89; 0x6f; 0xb7;
   0x62; 0x0e; 0xaa; 0x18; 0xbe; 0x1b; 0xfc; 0x56; 0x3e; 0x4b; 0xc6; 0xd2; 0x79; 0x20; 0x9a; 0xdb; 0xc0;
   0xfe; 0x78; 0xcd; 0x5a; 0xf4; 0x1f; 0xdd; 0xa8; 0x33; 0x88; 0x07; 0xc7; 0x31; 0xb1; 0x12; 0x10; 0x59;
   0x27; 0x80; 0xec; 0x5f; 0x60; 0x51; 0x7f; 0xa9; 0x19; 0xb5; 0x4a; 0x0d; 0x2d; 0xe5; 0x7a; 0x9f; 0x93;
   0xc9; 0x9c; 0xef; 0xa0; 0xe0; 0x3b; 0x4d; 0xae; 0x2a; 0xf5; 0xb0; 0xc8; 0xeb; 0xbb; 0x3c; 0x83; 0x53;
   0x99; 0x61; 0x17; 0x2b; 0x04; 0x7e; 0xba; 0x77; 0xd6; 0x26; 0xe1; 0x69; 0x14; 0x63; 0x55; 0x21; 0x0c;
   0x7d].

Definition m_table : list (Z * Z * Z * Z) :=
  [(0x00, 0x00, 0x00, 0x00); (0x0b, 0x0d, 0x09, 0x0e); (0x16, 0x1a, 0x12, 0x1c); (0x1d, 0x17, 0x1b, 0x12);
   (0x2c, 0x34, 0x24, 0x38); (0x27, 0x39, 0x2d, 0x36); (0x3a, 0x2e, 0x36, 0x24); (0x31, 0x23, 0x3f, 0x2a);
   (0x58, 0x68, 0x48, 0x70); (0x53, 0x65, 0x41, 0x7e); (0x4e, 0x72, 0x5a, 0x6c); (0x45, 0x7f, 0x53, 0x62);
   (0x74, 0x5c, 0x6c, 0x48); (0x7f, 0x51, 0x65, 0x46); (0x62, 0x46, 0x7e, 0x54); (0x69, 0x4b, 0x77, 0x5a);
   (0xb0, 0xd0, 0x90, 0xe0); (0xbb, 0xdd, 0x99, 0xee); (0xa6, 0xca, 0x82, 0xfc); (0xad, 0xc7, 0x8b, 0xf2);
   (0x9c, 0xe4, 0xb4, 0xd8); (0x97, 0xe9, 0xbd, 0xd6); (0x8a, 0xfe, 0xa6, 0xc4); (0x81, 0xf3, 0xaf, 0xca);
   (0xe8, 0xb8, 0xd8, 0x90); (0xe3, 0xb5, 0xd1, 0x9e); (0xfe, 0xa2, 0xca, 0x8c); (0xf5, 0xaf, 0xc3, 0x82);
   (0xc4, 0x8c, 0xfc, 0xa8); (0xcf, 0x81, 0xf5, 0xa6); (0xd2, 0x96, 0xee, 0xb4); (0xd9, 0x9b, 0xe7, 0xba);
   (0x7b, 0xbb, 0x3b, 0xdb); (0x70, 0xb6, 0x32, 0xd5); (0x6d, 0xa1, 0x29, 0xc7); (0x66, 0xac, 0x20, 0xc9);
   (0x57, 0x8f, 0x1f, 0xe3); (0x5c, 0x82, 0x16, 0xed); (0x41, 0x95, 0x0d, 0xff); (0x4a, 0x98, 0x04, 0xf1);
   (0x23, 0xd3, 0x73, 0xab); (0x28, 0xde, 0x7a, 0xa5); (0x35, 0xc9, 0x61, 0xb7); (0x3e, 0xc4, 0x68, 0xb9);
   (0x0f, 0xe7, 0x57, 0x93); (0x04, 0xea, 0x5e, 0x9d); (0x19, 0xfd, 0x45, 0x8f); (0x12, 0xf0, 0x4c, 0x81);
   (0xcb, 0x6b, 0xab, 0x3b); (0xc0, 0x66, 0xa2, 0x35); (0xdd, 0x71, 0xb9, 0x27); (0xd6, 0x7c, 0xb0, 0x29);
   (0xe7, 0x5f, 0x8f, 0x03); (0xec, 0x52, 0x86, 0x0d); (0xf1, 0x45, 0x9d, 0x1f); (0xfa, 0x48, 0x94, 0x11);
   (0x93, 0x03, 0xe3, 0x4b); (0x98, 0x0e, 0xea, 0x45); (0x85, 0x19, 0xf1, 0x57); (0x8e, 0x14, 0xf8, 0x59);
   (0xbf, 0x37, 0xc7, 0x73); (0xb4, 0x3a, 0xce, 0x7d); (0xa9, 0x2d, 0xd5, 0x6f); (0xa2, 0x20, 0xdc, 0x61);
   (0xf6, 0x6d, 0x76, 0xad); (0xfd, 0x60, 0x7f, 0xa3); (0xe0, 0x77, 0x64, 0xb1); (0xeb, 0x7a, 0x6d, 0xbf);
   (0xda, 0x59, 0x52, 0x95); (0xd1, 0x54, 0x5b, 0x9b); (0xcc, 0x43, 0x40, 0x89); (0xc7, 0x4e, 0x49, 0x87);
   (0xae, 0x05, 0x3e, 0xdd); (0xa5, 0x08, 0x37, 0xd3); (0xb8, 0x1f, 0x2c, 0xc1); (0xb3, 0x12, 0x25, 0xcf);
   (0x82, 0x31, 0x1a, 0xe5); (0x89, 0x3c, 0x13, 0xeb); (0x94, 0x2b, 0x08, 0xf9); (0x9f, 0x26, 0x01, 0xf7);
   (0x46, 0xbd, 0xe6, 0x4d); (0x4d, 0xb0, 0xef, 0x43); (0x50, 0xa7, 0xf4, 0x51); (0x5b, 0xaa, 0xfd, 0x5f);
   (0x6a, 0x89, 0xc2, 0x75); (0x61, 0x84, 0xcb, 0x7b); (0x7c, 0x93, 0xd0, 0x69); (0x77, 0x9e, 0xd9, 0x67);
   (0x1e, 0xd5, 0xae, 0x3d); (0x15, 0xd8, 0xa7, 0x33); (0x08, 0xcf, 0xbc, 0x21); (0x03, 0xc2, 0xb5, 0x2f);
   (0x32, 0xe1, 0x8a, 0x05); (0x39, 0xec, 0x83, 0x0b); (0x24, 0xfb, 0x98, 0x19); (0x2f, 0xf6, 0x91, 0x17);
   (0x8d, 0xd6, 0x4d, 0x76); (0x86, 0xdb, 0x44, 0x78); (0x9b, 0xcc, 0x5f, 0x6a); (0x90, 0xc1, 0x56, 0x64);
   (0xa1, 0xe2, 0x69, 0x4e); (0xaa, 0xef, 0x60, 0x40); (0xb7, 0xf8, 0x7b, 0x52); (0xbc, 0xf5, 0x72, 0x5c);
   (0xd5, 0xbe, 0x05, 0x06); (0xde, 0xb3, 0x0c, 0x08); (0xc3, 0xa4, 0x17, 0x1a); (0xc8, 0xa9, 0x1e, 0x14);
   (0xf9, 0x8a, 0x21, 0x3e); (0xf2, 0x87, 0x28, 0x30); (0xef, 0x90, 0x33, 0x22); (0xe4, 0x9d, 0x3a, 0x2c);
   (0x3d, 0x06, 0xdd, 0x96); (0x36, 0x0b, 0xd4, 0x98); (0x2b, 0x1c, 0xcf, 0x8a); (0x20, 0x11, 0xc6, 0x84);
   (0x11, 0x32, 0xf9, 0xae); (0x1a, 0x3f, 0xf0, 0xa0); (0x07, 0x28, 0xeb, 0xb2); (0x0c, 0x25, 0xe2, 0xbc);
   (0x65, 0x6e, 0x95, 0xe6); (0x6e, 0x63, 0x9c, 0xe8); (0x73, 0x74, 0x87, 0xfa); (0x78, 0x79, 0x8e, 0xf4);
   (0x49, 0x5a, 0xb1, 0xde); (0x42, 0x57, 0xb8, 0xd0); (0x5f, 0x40, 0xa3, 0xc2); (0x54, 0x4d, 0xaa, 0xcc);
   (0xf7, 0xda, 0xec, 0x41); (0xfc, 0xd7, 0xe5, 0x4f); (0xe1, 0xc0, 0xfe, 0x5d); (0xea, 0xcd, 0xf7, 0x53);
   (0xdb, 0xee, 0xc8, 0x79); (0xd0, 0xe3, 0xc1, 0x77); (0xcd, 0xf4, 0xda, 0x65); (0xc6, 0xf9, 0xd3, 0x6b);
   (0xaf, 0xb2, 0xa4, 0x31); (0xa4, 0xbf, 0xad, 0x3f); (0xb9, 0xa8, 0xb6, 0x2d); (0xb2, 0xa5, 0xbf, 0x23);
   (0x83, 0x86, 0x80, 0x09); (0x88, 0x8b, 0x89, 0x07); (0x95, 0x9c, 0x92, 0x15); (0x9e, 0x91, 0x9b, 0x1b);
   (0x47, 0x0a, 0x7c, 0xa1); (0x4c, 0x07, 0x75, 0xaf); (0x51, 0x10, 0x6e, 0xbd); (0x5a, 0x1d, 0x67, 0xb3);
   (0x6b, 0x3e, 0x58, 0x99); (0x60, 0x33, 0x51, 0x97); (0x7d, 0x24, 0x4a, 0x85); (0x76, 0x29, 0x43, 0x8b);
   (0x1f, 0x62, 0x34, 0xd1); (0x14, 0x6f, 0x3d, 0xdf); (0x09, 0x78, 0x26, 0xcd); (0x02, 0x75, 0x2f, 0xc3);
   (0x33, 0x56, 0x10, 0xe9); (0x38, 0x5b, 0x19, 0xe7); (0x25, 0x4c, 0x02, 0xf5); (0x2e, 0x41, 0x0b, 0xfb);
   (0x8c, 0x61, 0xd7, 0x9a); (0x87, 0x6c, 0xde, 0x94); (0x9a, 0x7b, 0xc5, 0x86); (0x91, 0x76, 0xcc, 0x88);
   (0xa0, 0x55, 0xf3, 0xa2); (0xab, 0x58, 0xfa, 0xac); (0xb6, 0x4f, 0xe1, 0xbe); (0xbd, 0x42, 0xe8, 0xb0);
   (0xd4, 0x09, 0x9f, 0xea); (0xdf, 0x04, 0x96, 0xe4); (0xc2, 0x13, 0x8d, 0xf6); (0xc9, 0x1e, 0x84, 0xf8);
   (0xf8, 0x3d, 0xbb, 0xd2); (0xf3, 0x30, 0xb2, 0xdc); (0xee, 0x27, 0xa9, 0xce); (0xe5, 0x2a, 0xa0, 0xc0);
   (0x3c, 0xb1, 0x47, 0x7a); (0x37, 0xbc, 0x4e, 0x74); (0x2a, 0xab, 0x55, 0x66); (0x21, 0xa6, 0x5c, 0x68);
   (0x10, 0x85, 0x63, 0x42); (0x1b, 0x88, 0x6a, 0x4c); (0x06, 0x9f, 0x71, 0x5e); (0x0d, 0x92, 0x78, 0x50);
   (0x64, 0xd9, 0x0f, 0x0a); (0x6f, 0xd4, 0x06, 0x04); (0x72, 0xc3, 0x1d, 0x16); (0x79, 0xce, 0x14, 0x18);
   (0x48, 0xed, 0x2b, 0x32); (0x43, 0xe0, 0x22, 0x3c); (0x5e, 0xf7, 0x39, 0x2e); (0x55, 0xfa, 0x30, 0x20);
   (0x01, 0xb7, 0x9a, 0xec); (0x0a, 0xba, 0x93, 0xe2); (0x17, 0xad, 0x88, 0xf0); (0x1c, 0xa0, 0x81, 0xfe);
   (0x2d, 0x83, 0xbe, 0xd4); (0x26, 0x8e, 0xb7, 0xda); (0x3b, 0x99, 0xac, 0xc8); (0x30, 0x94, 0xa5, 0xc6);
   (0x59, 0xdf, 0xd2, 0x9c); (0x52, 0xd2, 0xdb, 0x92); (0x4f, 0xc5, 0xc0, 0x80); (0x44, 0xc8, 0xc9, 0x8e);
   (0x75, 0xeb, 0xf6, 0xa4); (0x7e, 0xe6, 0xff, 0xaa); (0x63, 0xf1, 0xe4, 0xb8); (0x68, 0xfc, 0xed, 0xb6);
   (0xb1, 0x67, 0x0a, 0x0c); (0xba, 0x6a, 0x03, 0x02); (0xa7, 0x7d, 0x18, 0x10); (0xac, 0x70, 0x11, 0x1e);
   (0x9d, 0x53, 0x2e, 0x34); (0x96, 0x5e, 0x27, 0x3a); (0x8b, 0x49, 0x3c, 0x28); (0x80, 0x44, 0x35, 0x26);
   (0xe9, 0x0f, 0x42, 0x7c); (0xe2, 0x02, 0x4b, 0x72); (0xff, 0x15, 0x50, 0x60); (0xf4, 0x18, 0x59, 0x6e);
   (0xc5, 0x3b, 0x66, 0x44); (0xce, 0x36, 0x6f, 0x4a); (0xd3, 0x21, 0x74, 0x58); (0xd8, 0x2c, 0x7d, 0x56);
   (0x7a, 0x0c, 0xa1, 0x37); (0x71, 0x01, 0xa8, 0x39); (0x6c, 0x16, 0xb3, 0x2b); (0x67, 0x1b, 0xba, 0x25);
   (0x56, 0x38, 0x85, 0x0f); (0x5d, 0x35, 0x8c, 0x01); (0x40, 0x22, 0x97, 0x13); (0x4b, 0x2f, 0x9e, 0x1d);
   (0x22, 0x64, 0xe9, 0x47); (0x29, 0x69, 0xe0, 0x49); (0x34, 0x7e, 0xfb, 0x5b); (0x3f, 0x73, 0xf2, 0x55);
   (0x0e, 0x50, 0xcd, 0x7f); (0x05, 0x5d, 0xc4, 0x71); (0x18, 0x4a, 0xdf, 0x63); (0x13, 0x47, 0xd6, 0x6d);
   (0xca, 0xdc, 0x31, 0xd7); (0xc1, 0xd1, 0x38, 0xd9); (0xdc, 0xc6, 0x23, 0xcb); (0xd7, 0xcb, 0x2a, 0xc5);
   (0xe6, 0xe8, 0x15, 0xef); (0xed, 0xe5, 0x1c, 0xe1); (0xf0, 0xf2, 0x07, 0xf3); (0xfb, 0xff, 0x0e, 0xfd);
   (0x92, 0xb4, 0x79, 0xa7); (0x99, 0xb9, 0x70, 0xa9); (0x84, 0xae, 0x6b, 0xbb); (0x8f, 0xa3, 0x62, 0xb5);
   (0xbe, 0x80, 0x5d, 0x9f); (0xb5, 0x8d, 0x54, 0x91); (0xa8, 0x9a, 0x4f, 0x83); (0xa3, 0x97, 0x46, 0x8d)].

Definition ft_tab : list (list Z) := [r0 <$> f_table; r1 <$> f_table; r2 <$> f_table; r3 <$> f_table].
Definition it_tab : list (list Z) := [r0 <$> i_table; r1 <$> i_table; r2 <$> i_table; r3 <$> i_table].
(** [r(p,q,r,s)] defined as [w0(q)], ..., [w3(q)]. *)
Definition snd4 (e : Z * Z * Z * Z) : Z := let '(_, q, _, _) := e in q.
Definition fl_tab : list (list Z) :=
  [(fun e => w0 (snd4 e)) <$> f_table; (fun e => w1 (snd4 e)) <$> f_table;
   (fun e => w2 (snd4 e)) <$> f_table; (fun e => w3 (snd4 e)) <$> f_table].
Definition il_tab : list (list Z) := [w0 <$> li_table; w1 <$> li_table; w2 <$> li_table; w3 <$> li_table].
Definition im_tab : list (list Z) := [r0 <$> m_table; r1 <$> m_table; r2 <$> m_table; r3 <$> m_table].
