(* ===== verification/Aes.v ===== *)
(** Rijndael (src/mibench/security/rijndael/aes.c, aes.h) with the options that aes.h and aes.c
    select: BLOCK_SIZE 16, little-endian words, fixed four-fold tables, UNROLL.

    [word] is [unsigned long], so the operations take the data model: with 64-bit [long] every
    word read from or written to a byte array takes eight bytes. The bytes of a word that the
    cipher uses are the lower four on both models; an access beyond the end of a byte array is an
    error of the model. *)
From stdpp Require Import base list numbers option tactics.
From Stdlib Require Import ZArith Lia Btauto.
From S2P Require Import Prelude Bytes AesTables.

(** The context [aes]. *)
Record aes := AesCtx { Nkey : Z; Nrnd : Z; e_key : list Z; d_key : list Z; mode : Z }.

Definition aes_bad : Z := 0.
Definition aes_good : Z := 1.
Definition nc : Z := 4.
Definition KS_LENGTH : Z := 64.
Definition enc : Z := 1.

Section Model.
Context (dm : data_model).

Definition sizeof_word : nat := match dm with ILP32 => 4 | LP64 => 8 end.

(** [word_in(x + off)] and [word_out(y + off, v)]. *)
Definition word_in (x : list Z) (off : nat) : res Z :=
  if (off + sizeof_word <=? length x)%nat then mret (le_word (take sizeof_word (drop off x)))
  else Err OutOfBounds.
Definition word_out (y : list Z) (off : nat) (v : Z) : res (list Z) :=
  if (off + sizeof_word <=? length y)%nat
  then mret (take off y ++ le_bytes sizeof_word v ++ drop (off + sizeof_word) y)
  else Err OutOfBounds.

Definition bval (x n : Z) : Z := u8 (x ≫ (8 * n)).

(** [tab[r][i]]. *)
Definition tget (tab : list (list Z)) (r : nat) (i : Z) : res Z := aget (tab !!! r) i.

(** [four_tables(x,tab,vf,rf,c)], with [v r] for [bval(vf(x,r,c),rf(r,c))]. *)
Definition four_tables (tab : list (list Z)) (v : Z -> Z) : res Z :=
  t0 ← tget tab 0 (v 0);
  t1 ← tget tab 1 (v 1);
  t2 ← tget tab 2 (v 2);
  t3 ← tget tab 3 (v 3);
  mret (Z.lxor (Z.lxor (Z.lxor t0 t1) t2) t3).

Definition rf2 (r c : Z) : Z := Z.land (r - c) 3.
Definition ls_box (x c : Z) : res Z := four_tables fl_tab (fun r => bval x (rf2 r c)).
Definition inv_mcol (x : Z) : res Z := four_tables im_tab (fun r => bval x r).

(** ** The key schedule *)

(** [e[i] = e[j] ^ e[k]]. *)
Definition xor_into (e : list Z) (i j k : Z) : res (list Z) :=
  x ← aget e j; y ← aget e k; aset e i (Z.lxor x y).
(** [e[i] = e[j] ^ ls_box(e[k],c)]. *)
Definition ls_into (e : list Z) (i j k c : Z) : res (list Z) :=
  x ← aget e j; y ← aget e k; t ← ls_box y c; aset e i (Z.lxor x t).
(** [e[i] = e[j] ^ ls_box(e[k],3) ^ rcon_tab[rci]]. *)
Definition rcon_into (e : list Z) (i j k rci : Z) : res (list Z) :=
  x ← aget e j; y ← aget e k; t ← ls_box y 3; c ← aget rcon_tab rci; aset e i (Z.lxor (Z.lxor x t) c).

Definition key4_body (e : list Z) (kf rci : Z) : res (list Z) :=
  e ← rcon_into e (kf + 4) kf (kf + 3) rci;
  e ← xor_into e (kf + 5) (kf + 1) (kf + 4);
  e ← xor_into e (kf + 6) (kf + 2) (kf + 5);
  xor_into e (kf + 7) (kf + 3) (kf + 6).
Definition key6_body (e : list Z) (kf rci : Z) : res (list Z) :=
  e ← rcon_into e (kf + 6) kf (kf + 5) rci;
  e ← xor_into e (kf + 7) (kf + 1) (kf + 6);
  e ← xor_into e (kf + 8) (kf + 2) (kf + 7);
  e ← xor_into e (kf + 9) (kf + 3) (kf + 8);
  e ← xor_into e (kf + 10) (kf + 4) (kf + 9);
  xor_into e (kf + 11) (kf + 5) (kf + 10).
Definition key8_body (e : list Z) (kf rci : Z) : res (list Z) :=
  e ← rcon_into e (kf + 8) kf (kf + 7) rci;
  e ← xor_into e (kf + 9) (kf + 1) (kf + 8);
  e ← xor_into e (kf + 10) (kf + 2) (kf + 9);
  e ← xor_into e (kf + 11) (kf + 3) (kf + 10);
  e ← ls_into e (kf + 12) (kf + 4) (kf + 11) 0;
  e ← xor_into e (kf + 13) (kf + 5) (kf + 12);
  e ← xor_into e (kf + 14) (kf + 6) (kf + 13);
  xor_into e (kf + 15) (kf + 7) (kf + 14).

(** [do ... while(kf < kt)]; at most [fuel] iterations. *)
Fixpoint key_loop (body : list Z -> Z -> Z -> res (list Z)) (step : Z) (fuel : nat) (e : list Z) (kf kt rci : Z) :
    res (list Z) :=
  match fuel with
  | O => Err OutOfFuel
  | S fuel =>
      e ← body e kf rci;
      let kf := kf + step in
      if kf <? kt then key_loop body step fuel e kf kt (rci + 1) else mret e
  end.

(** [cx->e_key[i] = word_in(in_key + 4 * i)] for the [n] words from [i] on. *)
Fixpoint key_in (n i : nat) (in_key e : list Z) : res (list Z) :=
  match n with
  | O => mret e
  | S n => w ← word_in in_key (4 * i); e ← aset e (Z.of_nat i) w; key_in n (S i) in_key e
  end.

(** [cpy(kt, kf)] and [mix(kt, kf)] on the four words from [kt] and [kf] on. *)
Definition cpy (d e : list Z) (kt kf : Z) : res (list Z) :=
  cfor 4 0 (fun c d => w ← aget e (kf + c); aset d (kt + c) w) d.
Definition mix (d e : list Z) (kt kf : Z) : res (list Z) :=
  cfor 4 0 (fun c d => w ← aget e (kf + c); w ← inv_mcol w; aset d (kt + c) w) d.

(** The decryption key schedule; [kt] and [kf] in terms of the round. *)
Definition dec_key (Nrnd : Z) (e d : list Z) : res (list Z) :=
  d ← cpy d e (nc * Nrnd) 0;
  d ← cfor (Z.to_nat (Nrnd - 1)) 1 (fun i d => mix d e (nc * (Nrnd - i)) (nc * i)) d;
  cpy d e 0 (nc * Nrnd).

(** [Nr(Nk,Nc)]. *)
Definition Nr (Nk Nc : Z) : Z := Z.max Nk Nc + 6.

(** The function value and the context. *)
Definition set_key (in_key : list Z) (n_bytes f : Z) (cx : aes) : res (Z * aes) :=
  if negb (Z.land n_bytes 7 =? 0) || (n_bytes <? 16) || (32 <? n_bytes)
     || (Z.land f 1 =? 0) && (Z.land f 2 =? 0) then
    if negb (n_bytes =? 0)
    then mret (aes_bad, AesCtx (Nkey cx) (Nrnd cx) (e_key cx) (d_key cx) (Z.land (mode cx) (Z.lnot 0x03)))
    else mret (s16 (Nkey cx ≪ 2), cx)
  else
    let mode := Z.lor (Z.land (mode cx) (Z.lnot 0x03)) (Z.land (u8 f) 0x03) in
    let Nkey := n_bytes ≫ 2 in
    let Nrnd := Nr Nkey nc in
    e ← key_in 4 0 in_key (e_key cx);
    let kt := nc * (Nrnd + 1) - Nkey in
    e ← (if Nkey =? 4 then key_loop key4_body 4 10 e 0 kt 0
         else if Nkey =? 6 then e ← key_in 2 4 in_key e; key_loop key6_body 6 8 e 0 kt 0
         else if Nkey =? 8 then e ← key_in 4 4 in_key e; key_loop key8_body 8 7 e 0 kt 0
         else mret e);
    d ← (if negb (Z.land mode 3 =? enc) then dec_key Nrnd e (d_key cx) else mret (d_key cx));
    mret (aes_good, AesCtx Nkey Nrnd e d mode).

(** ** Encryption and decryption *)

(** The column that [fwd_var(x,r,c)] and [inv_var(x,r,c)] read. *)
Definition fwd_var (r c : Z) : nat :=
  if r =? 0 then (if c =? 0 then 0 else if c =? 1 then 1 else if c =? 2 then 2 else if c =? 3 then 3
                  else if c =? 4 then 4 else if c =? 5 then 5 else if c =? 6 then 6 else 7)
  else if r =? 1 then
    (if c =? 0 then 1 else if c =? 1 then 2 else if c =? 2 then 3
     else if c =? 3 then if nc =? 4 then 0 else 4
     else if c =? 4 then 5 else if c =? 5 then if nc =? 8 then 6 else 0 else if c =? 6 then 7 else 0)
  else if r =? 2 then
    (if c =? 0 then if nc =? 8 then 3 else 2 else if c =? 1 then if nc =? 8 then 4 else 3
     else if c =? 2 then if nc =? 4 then 0 else if nc =? 8 then 5 else 4
     else if c =? 3 then if nc =? 4 then 1 else if nc =? 8 then 6 else 5
     else if c =? 4 then if nc =? 8 then 7 else 0 else if c =? 5 then if nc =? 8 then 0 else 1
     else if c =? 6 then 1 else 2)
  else
    (if c =? 0 then if nc =? 8 then 4 else 3
     else if c =? 1 then if nc =? 4 then 0 else if nc =? 8 then 5 else 4
     else if c =? 2 then if nc =? 4 then 1 else if nc =? 8 then 6 else 5
     else if c =? 3 then if nc =? 4 then 2 else if nc =? 8 then 7 else 0
     else if c =? 4 then if nc =? 8 then 0 else 1 else if c =? 5 then if nc =? 8 then 1 else 2
     else if c =? 6 then 2 else 3).
Definition inv_var (r c : Z) : nat :=
  if r =? 0 then (if c =? 0 then 0 else if c =? 1 then 1 else if c =? 2 then 2 else if c =? 3 then 3
                  else if c =? 4 then 4 else if c =? 5 then 5 else if c =? 6 then 6 else 7)
  else if r =? 1 then
    (if c =? 0 then if nc =? 4 then 3 else if nc =? 8 then 7 else 5
     else if c =? 1 then 0 else if c =? 2 then 1 else if c =? 3 then 2 else if c =? 4 then 3
     else if c =? 5 then 4 else if c =? 6 then 5 else 6)
  else if r =? 2 then
    (if c =? 0 then if nc =? 4 then 2 else if nc =? 8 then 5 else 4
     else if c =? 1 then if nc =? 4 then 3 else if nc =? 8 then 6 else 5
     else if c =? 2 then if nc =? 8 then 7 else 0 else if c =? 3 then if nc =? 8 then 0 else 1
     else if c =? 4 then if nc =? 8 then 1 else 2 else if c =? 5 then if nc =? 8 then 2 else 3
     else if c =? 6 then 3 else 4)
  else
    (if c =? 0 then if nc =? 4 then 1 else if nc =? 8 then 4 else 3
     else if c =? 1 then if nc =? 4 then 2 else if nc =? 8 then 5 else 4
     else if c =? 2 then if nc =? 4 then 3 else if nc =? 8 then 6 else 5
     else if c =? 3 then if nc =? 8 then 7 else 0 else if c =? 4 then if nc =? 8 then 0 else 1
     else if c =? 5 then if nc =? 8 then 1 else 2 else if c =? 6 then 2 else 3).

(** [fwd_rnd], [inv_rnd], [fwd_lrnd] and [inv_lrnd] by their tables and their variables. *)
Definition rnd (tab : list (list Z)) (var : Z -> Z -> nat) (x k : list Z) (kp c : Z) : res Z :=
  key ← aget k (kp + c);
  t ← four_tables tab (fun r => bval (x !!! var r c) r);
  mret (Z.lxor key t).

(** [round(rm, y, x, kp)]: the four words of [y]. *)
Definition round (tab : list (list Z)) (var : Z -> Z -> nat) (k : list Z) (x : list Z) (kp : Z) : res (list Z) :=
  y0 ← rnd tab var x k kp 0;
  y1 ← rnd tab var x k kp 1;
  y2 ← rnd tab var x k kp 2;
  y3 ← rnd tab var x k kp 3;
  mret [y0; y1; y2; y3].

(** [state_in(b0, in_blk, kp)] and [state_out(out_blk, b0)]. *)
Definition state_in (in_blk k : list Z) (kp : Z) : res (list Z) :=
  mapM (fun c : nat => w ← word_in in_blk (4 * c); key ← aget k (kp + Z.of_nat c); mret (Z.lxor w key))
    [0; 1; 2; 3]%nat.
Definition state_out (out_blk b : list Z) : res (list Z) :=
  y ← word_out out_blk 0 (b !!! 0%nat);
  y ← word_out y 4 (b !!! 1%nat);
  y ← word_out y 8 (b !!! 2%nat);
  word_out y 12 (b !!! 3%nat).

(** The unrolled rounds of the [switch], which falls through from 14 to 12 to 10, with [rd b kp]
    for [round(rnd, _, b, kp)] and [lrd b kp] for the last round. *)
Definition rounds (rd lrd : list Z -> Z -> res (list Z)) (Nrnd : Z) (b0 : list Z) (kp : Z) : res (list Z) :=
  '(b0, kp) ←
    (if Nrnd =? 14 then b1 ← rd b0 kp; b0 ← rd b1 (kp + nc); mret (b0, kp + 2 * nc) else mret (b0, kp));
  '(b0, kp) ←
    (if (Nrnd =? 14) || (Nrnd =? 12)
     then b1 ← rd b0 kp; b0 ← rd b1 (kp + nc); mret (b0, kp + 2 * nc) else mret (b0, kp));
  if (Nrnd =? 14) || (Nrnd =? 12) || (Nrnd =? 10) then
    b1 ← rd b0 kp;
    b0 ← rd b1 (kp + nc);
    b1 ← rd b0 (kp + 2 * nc);
    b0 ← rd b1 (kp + 3 * nc);
    b1 ← rd b0 (kp + 4 * nc);
    b0 ← rd b1 (kp + 5 * nc);
    b1 ← rd b0 (kp + 6 * nc);
    b0 ← rd b1 (kp + 7 * nc);
    b1 ← rd b0 (kp + 8 * nc);
    lrd b1 (kp + 9 * nc)
  else mret b0.

(** The function value and the contents of [out_blk]. *)
Definition encrypt (in_blk out_blk : list Z) (cx : aes) : res (Z * list Z) :=
  if Z.land (mode cx) 0x01 =? 0 then mret (aes_bad, out_blk)
  else
    b0 ← state_in in_blk (e_key cx) 0;
    b0 ← rounds (round ft_tab fwd_var (e_key cx)) (round fl_tab fwd_var (e_key cx)) (Nrnd cx) b0 nc;
    out ← state_out out_blk b0;
    mret (aes_good, out).

Definition decrypt (in_blk out_blk : list Z) (cx : aes) : res (Z * list Z) :=
  if Z.land (mode cx) 0x02 =? 0 then mret (aes_bad, out_blk)
  else
    b0 ← state_in in_blk (d_key cx) 0;
    b0 ← rounds (round it_tab inv_var (d_key cx)) (round il_tab inv_var (d_key cx)) (Nrnd cx) b0 nc;
    out ← state_out out_blk b0;
    mret (aes_good, out).
End Model.

Definition fresh_aes : aes := AesCtx 0 0 (replicate 64 0) (replicate 64 0) 0.

(** FIPS 197, appendix C.1. *)
Example aes128_vector :
  ('(r, cx) ← set_key ILP32 (seqZ 0 16) 16 3 fresh_aes;
   '(r1, c) ← encrypt ILP32 [0x00; 0x11; 0x22; 0x33; 0x44; 0x55; 0x66; 0x77; 0x88; 0x99; 0xaa; 0xbb; 0xcc; 0xdd; 0xee; 0xff]
                (replicate 16 0) cx;
   '(r2, p) ← decrypt ILP32 c (replicate 16 0) cx;
   mret (r, r1, r2, c, p)) =
  Ok (1, 1, 1,
      [0x69; 0xc4; 0xe0; 0xd8; 0x6a; 0x7b; 0x04; 0x30; 0xd8; 0xcd; 0xb7; 0x80; 0x70; 0xb4; 0xc5; 0x5a],
      [0x00; 0x11; 0x22; 0x33; 0x44; 0x55; 0x66; 0x77; 0x88; 0x99; 0xaa; 0xbb; 0xcc; 0xdd; 0xee; 0xff]).
Proof. vm_compute. reflexivity. Qed.

(** * FIPS 197 *)

Module Fips.
(** The field of 256 elements: addition is exclusive or. *)
Definition xtime (a : Z) : Z := Z.lxor (2 * a mod 256) (if 128 <=? a then 0x1b else 0).
Fixpoint gmul_bits (n : nat) (c a : Z) : Z :=
  match n with O => 0 | S n => Z.lxor (if Z.odd c then a else 0) (gmul_bits n (c / 2) (xtime a)) end.
Definition gmul (c a : Z) : Z := gmul_bits 8 c a.
(** The inverse of a non-zero element is its 254th power; see [gmul_ginv]. *)
Definition ginv (a : Z) : Z :=
  let a2 := gmul a a in let a4 := gmul a2 a2 in let a8 := gmul a4 a4 in let a16 := gmul a8 a8 in
  let a32 := gmul a16 a16 in let a64 := gmul a32 a32 in let a128 := gmul a64 a64 in
  gmul a2 (gmul a4 (gmul a8 (gmul a16 (gmul a32 (gmul a64 a128))))).

(** The substitution: the inverse, then the affine transformation. *)
Definition rotl8 (a n : Z) : Z := a * 2 ^ n mod 256 + a / 2 ^ (8 - n).
Definition sbox (a : Z) : Z :=
  let b := ginv a in
  Z.lxor (Z.lxor (Z.lxor (Z.lxor (Z.lxor b (rotl8 b 1)) (rotl8 b 2)) (rotl8 b 3)) (rotl8 b 4)) 0x63.
Definition inv_sbox (a : Z) : Z := ginv (Z.lxor (Z.lxor (Z.lxor (rotl8 a 1) (rotl8 a 3)) (rotl8 a 6)) 0x05).

(** A state is a list of four columns of four bytes. *)
Definition xor_col (a b : list Z) : list Z := zip_with Z.lxor a b.
Definition add_round_key (k st : list (list Z)) : list (list Z) := zip_with xor_col k st.
Definition sub_state (sub : Z -> Z) (st : list (list Z)) : list (list Z) := (fun col : list Z => sub <$> col) <$> st.
(** Row [r] moves by [o * r] columns. *)
Definition shift_state (o : nat) (st : list (list Z)) : list (list Z) :=
  (fun c => (fun r => st !!! ((c + o * r) mod 4)%nat !!! r) <$> seq 0 4) <$> seq 0 4.
(** The product with the circulant matrix of first column [m]. *)
Definition coef (m : list Z) (i r : nat) : Z := m !!! ((i + (4 - r)) mod 4)%nat.
Definition mix_column (m : list Z) (a : list Z) : list Z :=
  (fun i => Z.lxor (Z.lxor (Z.lxor (gmul (coef m i 0) (a !!! 0%nat)) (gmul (coef m i 1) (a !!! 1%nat)))
              (gmul (coef m i 2) (a !!! 2%nat))) (gmul (coef m i 3) (a !!! 3%nat))) <$> seq 0 4.
Definition mix_state (m : list Z) (st : list (list Z)) : list (list Z) := mix_column m <$> st.
Definition fwd_m : list Z := [2; 1; 1; 3].
Definition inv_m : list Z := [14; 9; 13; 11].
Definition one_m : list Z := [1; 0; 0; 0].

Definition sub_bytes := sub_state sbox.
Definition inv_sub_bytes := sub_state inv_sbox.
Definition shift_rows := shift_state 1.
Definition inv_shift_rows := shift_state 3.
Definition mix_columns := mix_state fwd_m.
Definition inv_mix_columns := mix_state inv_m.

Definition cipher (Nr : nat) (rk : nat -> list (list Z)) (st : list (list Z)) : list (list Z) :=
  let st := add_round_key (rk 0%nat) st in
  let st := fold_left (fun st i => add_round_key (rk i) (mix_columns (shift_rows (sub_bytes st)))) (seq 1 (Nr - 1)) st in
  add_round_key (rk Nr) (shift_rows (sub_bytes st)).

Definition inv_cipher (Nr : nat) (rk : nat -> list (list Z)) (st : list (list Z)) : list (list Z) :=
  let st := add_round_key (rk Nr) st in
  let st := fold_left (fun st i => inv_mix_columns (add_round_key (rk i) (inv_sub_bytes (inv_shift_rows st))))
              (rev (seq 1 (Nr - 1))) st in
  add_round_key (rk 0%nat) (inv_sub_bytes (inv_shift_rows st)).

(** The key expansion; words are columns. *)
Definition rot_word (w : list Z) : list Z := drop 1 w ++ take 1 w.
Definition rcon (i : nat) : list Z := [Nat.iter (i - 1) xtime 1; 0; 0; 0].
Definition next_word (Nk : nat) (w : list (list Z)) : list Z :=
  let i := length w in
  let temp := w !!! (i - 1)%nat in
  xor_col (w !!! (i - Nk)%nat)
    (if (i mod Nk =? 0)%nat then xor_col (sbox <$> rot_word temp) (rcon (i / Nk))
     else if (6 <? Nk)%nat && (i mod Nk =? 4)%nat then sbox <$> temp else temp).
Fixpoint expand (Nk n : nat) (w : list (list Z)) : list (list Z) :=
  match n with O => w | S n => let w := expand Nk n w in w ++ [next_word Nk w] end.
(** The round keys of a key of [4 * Nk] bytes. *)
Definition round_keys (Nk : nat) (key : list Z) (i : nat) : list (list Z) :=
  take 4 (drop (4 * i) (expand Nk (4 * (Nk + 7) - Nk) (blocks 4 Nk key))).
End Fips.

Example fips_128 :
  Fips.cipher 10 (Fips.round_keys 4 (seqZ 0 16))
    (blocks 4 4 [0x00; 0x11; 0x22; 0x33; 0x44; 0x55; 0x66; 0x77; 0x88; 0x99; 0xaa; 0xbb; 0xcc; 0xdd; 0xee; 0xff]) =
  blocks 4 4 [0x69; 0xc4; 0xe0; 0xd8; 0x6a; 0x7b; 0x04; 0x30; 0xd8; 0xcd; 0xb7; 0x80; 0x70; 0xb4; 0xc5; 0x5a].
Proof. vm_compute. reflexivity. Qed.

(** ** The field *)

(** Rearranging exclusive ors. *)
Ltac lxor_ac := apply Z.bits_inj'; intros ? ?; rewrite ?Z.lxor_spec, ?Z.bits_0; btauto.

Section Field.
Import Fips.
Implicit Types (a b c x : Z) (m : list Z).
Notation byte x := (0 <= x < 256).

Lemma bytes_forallb (f : Z -> bool) : forallb f (seqZ 0 256) = true -> forall x, byte x -> f x = true.
Proof. intros H x Hx. apply (forallb_seqZ f 0 256 H). lia. Qed.

Ltac by_bytes f x := let H := fresh in
  pose proof (bytes_forallb f ltac:(vm_compute; reflexivity) x ltac:(assumption)) as H; cbv beta in H;
  first [apply Z.eqb_eq in H | apply bool_decide_unpack in H | idtac].

Lemma gmul_ginv a : byte a -> gmul a (ginv a) = if a =? 0 then 0 else 1.
Proof. intros Ha. by_bytes (fun a => gmul a (ginv a) =? if a =? 0 then 0 else 1) a. assumption. Qed.

Lemma inv_sbox_sbox a : byte a -> inv_sbox (sbox a) = a.
Proof. intros Ha. by_bytes (fun a => inv_sbox (sbox a) =? a) a. assumption. Qed.

Lemma sbox_byte a : byte a -> byte (sbox a).
Proof.
  intros Ha. by_bytes (fun a => (0 <=? sbox a) && (sbox a <? 256)) a.
  apply andb_prop in H as [H1%Z.leb_le H2%Z.ltb_lt]. lia.
Qed.

Lemma inv_sbox_byte a : byte a -> byte (inv_sbox a).
Proof.
  intros Ha. by_bytes (fun a => (0 <=? inv_sbox a) && (inv_sbox a <? 256)) a.
  apply andb_prop in H as [H1%Z.leb_le H2%Z.ltb_lt]. lia.
Qed.

Lemma byte_inU x : byte x <-> inU 8 x.
Proof. reflexivity. Qed.

Lemma lxor_byte a b : byte a -> byte b -> byte (Z.lxor a b).
Proof. rewrite !byte_inU. apply inU_lxor. lia. Qed.

Lemma xtime_byte a : byte a -> byte (xtime a).
Proof.
  intros Ha. unfold xtime. apply lxor_byte; [apply Z.mod_pos_bound; lia|]. destruct (128 <=? a); lia.
Qed.

Lemma gmul_bits_byte n : forall c a, byte a -> byte (gmul_bits n c a).
Proof.
  induction n as [|n IH]; intros c a Ha; cbn [gmul_bits]; [lia|].
  apply lxor_byte; [destruct (Z.odd c); lia|apply IH, xtime_byte, Ha].
Qed.

Lemma gmul_byte c a : byte a -> byte (gmul c a).
Proof. apply gmul_bits_byte. Qed.

Lemma xtime_lxor a b : byte a -> byte b -> xtime (Z.lxor a b) = Z.lxor (xtime a) (xtime b).
Proof.
  intros Ha Hb.
  pose proof (bytes_forallb (fun a => forallb (fun b => xtime (Z.lxor a b) =? Z.lxor (xtime a) (xtime b)) (seqZ 0 256))
    ltac:(vm_compute; reflexivity) a Ha) as H. cbv beta in H.
  apply Z.eqb_eq, (bytes_forallb _ H b Hb).
Qed.

Lemma gmul_bits_lxor n : forall c a b, byte a -> byte b ->
  gmul_bits n c (Z.lxor a b) = Z.lxor (gmul_bits n c a) (gmul_bits n c b).
Proof.
  induction n as [|n IH]; intros c a b Ha Hb; cbn [gmul_bits]; [reflexivity|].
  rewrite xtime_lxor, IH by auto using xtime_byte.
  destruct (Z.odd c); lxor_ac.
Qed.

(** Multiplication distributes over addition. *)
Lemma gmul_lxor c a b : byte a -> byte b -> gmul c (Z.lxor a b) = Z.lxor (gmul c a) (gmul c b).
Proof. apply gmul_bits_lxor. Qed.

(** The two column matrices are inverse to each other, coefficient by coefficient. *)
Lemma inv_coef (i j : nat) a : (i < 4)%nat -> (j < 4)%nat -> byte a ->
  Z.lxor (Z.lxor (Z.lxor (gmul (coef inv_m i 0) (gmul (coef fwd_m 0 j) a)) (gmul (coef inv_m i 1) (gmul (coef fwd_m 1 j) a)))
    (gmul (coef inv_m i 2) (gmul (coef fwd_m 2 j) a))) (gmul (coef inv_m i 3) (gmul (coef fwd_m 3 j) a))
  = if decide (i = j) then a else 0.
Proof.
  intros Hi Hj Ha.
  match goal with |- ?l = ?r =>
    let f := eval pattern i, j, a in l in let g := eval pattern i, j in r in
    match f with ?f i j a => match g with ?g i j =>
      assert (forallb (fun i => forallb (fun j => forallb (fun a => f i j a =? (if decide (i = j) then a else 0)) (seqZ 0 256))
        (seq 0 4)) (seq 0 4) = true) as H by (vm_compute; reflexivity) end end end.
  rewrite forallb_forall in H. specialize (H i ltac:(apply in_seq; lia)). cbv beta in H.
  rewrite forallb_forall in H. specialize (H j ltac:(apply in_seq; lia)). cbv beta in H.
  apply Z.eqb_eq. exact (bytes_forallb _ H a Ha).
Qed.
End Field.


(** ** Words as columns *)

(** The columns that a list of words stands for: the lower four bytes of each. *)
Definition cols (b : list Z) : list (list Z) := le_bytes 4 <$> b.
(** Round key [i] of a key schedule. *)
Definition rkey (e : list Z) (i : nat) : list (list Z) := take 4 (drop (4 * i) (cols e)).

Section Words.
Import Fips.
Implicit Types (x y w : Z) (r c i : nat).
Notation byte x := (0 <= x < 256).

Lemma le_bytes_lxor n : forall x y, le_bytes n (Z.lxor x y) = xor_col (le_bytes n x) (le_bytes n y).
Proof.
  unfold xor_col. induction n as [|n IH]; intros x y; cbn [le_bytes zip_with]; [reflexivity|].
  f_equal.
  - change 256 with (2 ^ 8). rewrite <- !Z.land_ones by lia.
    apply Z.bits_inj'. intros i Hi. rewrite Z.lxor_spec, !Z.land_spec, Z.lxor_spec.
    destruct (Z.testbit x i), (Z.testbit y i), (Z.testbit (Z.ones 8) i); reflexivity.
  - change 256 with (2 ^ 8). rewrite <- !Z.shiftr_div_pow2 by lia. rewrite Z.shiftr_lxor. apply IH.
Qed.

Lemma le_bytes_prefix n : forall b, (n <= length b)%nat -> Forall (inU 8) b -> le_bytes n (le_word b) = take n b.
Proof.
  induction n as [|n IH]; intros [|x b] Hl Hb; cbn [length le_bytes le_word take] in *; try reflexivity; [lia|].
  pose proof (Forall_inv Hb) as Hx. apply Forall_inv_tail in Hb. cint_unfold. f_equal; [dlia|].
  replace ((x + 256 * le_word b) / 256) with (le_word b) by dlia. apply IH; [lia|exact Hb].
Qed.

Lemma bval_le_bytes x r : (r < 4)%nat -> bval x (Z.of_nat r) = le_bytes 4 x !!! r.
Proof.
  intros Hr. unfold bval, wrapU. rewrite Z.shiftr_div_pow2 by lia.
  destruct r as [|[|[|[|]]]]; [| | | |lia]; cbn [le_bytes lookup_total list_lookup_total];
    rewrite ?Z.div_div by lia; [change (2 ^ (8 * Z.of_nat 0)) with 1; now rewrite Z.div_1_r|reflexivity..].
Qed.

Lemma bval_byte x n : byte (bval x n).
Proof. apply wrapU_range. lia. Qed.

(** ** The tables *)

(** Table [r] of [tab] holds column [r] of the matrix [m] times [sub x]. *)
Definition tab_ok (tab : list (list Z)) (m : list Z) (sub : Z -> Z) : Prop :=
  forall r x, (r < 4)%nat -> byte x ->
    okp (tget tab r x) (fun t => le_bytes 4 t = (fun i => gmul (coef m i r) (sub x)) <$> seq 0 4).

Definition tab_okb (tab : list (list Z)) (m : list Z) (sub : Z -> Z) : bool :=
  forallb (fun x => let y := sub x in forallb (fun r => match tget tab r x with
    | Ok t => bool_decide (le_bytes 4 t = (fun i => gmul (coef m i r) y) <$> seq 0 4)
    | Err _ => false end) (seq 0 4)) (seqZ 0 256).

Lemma tab_okb_ok tab m sub : tab_okb tab m sub = true -> tab_ok tab m sub.
Proof.
  intros H r x Hr Hx. pose proof (bytes_forallb _ H x Hx) as Hb. cbv beta zeta in Hb.
  rewrite forallb_forall in Hb. specialize (Hb r ltac:(apply in_seq; lia)). cbv beta in Hb.
  destruct (tget tab r x) as [t|]; [|discriminate]. exact (bool_decide_eq_true_1 _ Hb).
Qed.

Lemma ft_ok : tab_ok ft_tab fwd_m sbox.
Proof. apply tab_okb_ok. vm_compute. reflexivity. Qed.
Lemma fl_ok : tab_ok fl_tab one_m sbox.
Proof. apply tab_okb_ok. vm_compute. reflexivity. Qed.
Lemma it_ok : tab_ok it_tab inv_m inv_sbox.
Proof. apply tab_okb_ok. vm_compute. reflexivity. Qed.
Lemma il_ok : tab_ok il_tab one_m inv_sbox.
Proof. apply tab_okb_ok. vm_compute. reflexivity. Qed.
Lemma im_ok : tab_ok im_tab inv_m (fun x => x).
Proof. apply tab_okb_ok. vm_compute. reflexivity. Qed.

Lemma four_tables_ok tab m sub (v : Z -> Z) : tab_ok tab m sub -> (forall r : Z, byte (v r)) ->
  okp (four_tables tab v) (fun t => le_bytes 4 t = mix_column m [sub (v 0); sub (v 1); sub (v 2); sub (v 3)]).
Proof.
  intros Ht Hv. unfold four_tables.
  do 4 (eapply okp_bind; [apply Ht; [lia|apply Hv]|intros ? ?]).
  cbv beta in *. cbn [okp mret res_ret]. rewrite !le_bytes_lxor.
  repeat match goal with H : le_bytes 4 _ = _ |- _ => rewrite H; clear H end. reflexivity.
Qed.

Lemma gmul_1 x : byte x -> gmul 1 x = x.
Proof. intros Hx. unfold gmul. cbn. apply Z.lxor_0_r. Qed.
Lemma gmul_0 x : gmul 0 x = 0.
Proof. reflexivity. Qed.

Lemma mix_column_one a0 a1 a2 a3 : byte a0 -> byte a1 -> byte a2 -> byte a3 ->
  mix_column one_m [a0; a1; a2; a3] = [a0; a1; a2; a3].
Proof.
  intros. unfold mix_column. cbn -[gmul Z.lxor].
  rewrite !gmul_0, !gmul_1 by assumption. now rewrite ?Z.lxor_0_l, ?Z.lxor_0_r.
Qed.
End Words.

(** ** The rounds *)

Section Rounds.
Import Fips.
Implicit Types (b k : list Z) (kp : Z).

Lemma length_cols b : length (cols b) = length b.
Proof. apply length_fmap. Qed.

Lemma cols_lookup b (i : nat) : (i < length b)%nat -> cols b !! i = Some (le_bytes 4 (b !!! i)).
Proof. intros Hi. unfold cols. rewrite list_lookup_fmap, (list_lookup_lookup_total_lt b i Hi). reflexivity. Qed.

Lemma cols_total b (i : nat) : (i < length b)%nat -> cols b !!! i = le_bytes 4 (b !!! i).
Proof. intros Hi. apply list_lookup_total_correct, cols_lookup, Hi. Qed.

(** Four successive words as columns. *)
Lemma cols_take4 k (o : nat) : (o + 4 <= length k)%nat ->
  take 4 (drop o (cols k)) =
    [le_bytes 4 (k !!! o); le_bytes 4 (k !!! (o + 1)%nat); le_bytes 4 (k !!! (o + 2)%nat); le_bytes 4 (k !!! (o + 3)%nat)].
Proof.
  intros Hl. apply list_eq. intros i. destruct (decide (i < 4)%nat) as [Hi|Hi].
  - rewrite lookup_take_lt, lookup_drop, cols_lookup by lia.
    destruct i as [|[|[|[|]]]]; [rewrite Nat.add_0_r| | | |lia]; reflexivity.
  - rewrite !lookup_ge_None_2; [reflexivity|cbn; lia|rewrite length_take; lia].
Qed.

Lemma list_4 {A} `{Inhabited A} (b : list A) : length b = 4%nat -> b = [b !!! 0%nat; b !!! 1%nat; b !!! 2%nat; b !!! 3%nat].
Proof. destruct b as [|? [|? [|? [|? []]]]]; try discriminate. reflexivity. Qed.

Lemma sub_state_lookup sub st (i r : nat) : (i < length st)%nat -> (r < length (st !!! i))%nat ->
  sub_state sub st !!! i !!! r = sub (st !!! i !!! r).
Proof.
  intros Hi Hr. unfold sub_state. rewrite (list_lookup_total_fmap (fun col : list Z => sub <$> col) st i Hi).
  apply list_lookup_total_fmap, Hr.
Qed.

(** The variable that row [r] of column [c] reads. *)
Definition var_ok (var : Z -> Z -> nat) (o : nat) : Prop :=
  forall r c, (r < 4)%nat -> (c < 4)%nat -> var (Z.of_nat r) (Z.of_nat c) = ((c + o * r) mod 4)%nat.

Lemma fwd_var_ok : var_ok fwd_var 1.
Proof. intros [|[|[|[|]]]] [|[|[|[|]]]] ??; first [reflexivity|lia]. Qed.
Lemma inv_var_ok : var_ok inv_var 3.
Proof. intros [|[|[|[|]]]] [|[|[|[|]]]] ??; first [reflexivity|lia]. Qed.

Definition step_col (m : list Z) (sub : Z -> Z) (o : nat) (st : list (list Z)) (c : nat) : list Z :=
  mix_column m ((fun r => sub (st !!! ((c + o * r) mod 4)%nat !!! r)) <$> seq 0 4).

Lemma rnd_ok tab m sub var o k b kp (c : nat) : tab_ok tab m sub -> var_ok var o -> length b = 4%nat ->
  0 <= kp -> kp + 4 <= Z.of_nat (length k) -> (c < 4)%nat ->
  okp (rnd tab var b k kp (Z.of_nat c))
    (fun w => le_bytes 4 w = xor_col (le_bytes 4 (k !!! Z.to_nat (kp + Z.of_nat c))) (step_col m sub o (cols b) c)).
Proof.
  intros Ht Hv Hb Hk Hkl Hc. unfold rnd. rewrite aget_total by lia. cbn [mbind res_bind].
  eapply okp_bind; [apply (four_tables_ok _ _ _ _ Ht); intros; apply bval_byte|].
  cbv beta. intros t H. cbn [okp mret res_ret]. rewrite le_bytes_lxor, H. f_equal.
  unfold step_col. f_equal. cbn [seq fmap list_fmap].
  assert (forall r, (r < 4)%nat -> bval (b !!! var (Z.of_nat r) (Z.of_nat c)) (Z.of_nat r)
    = cols b !!! ((c + o * r) mod 4)%nat !!! r) as Hr.
  { intros r Hr. rewrite Hv, bval_le_bytes, cols_total by first [assumption|rewrite Hb; apply Nat.mod_upper_bound; lia].
    reflexivity. }
  rewrite <- !Hr by lia. reflexivity.
Qed.

(** One round: the tables do the substitution, the shifting of the rows and the mixing of the columns. *)
Lemma round_ok tab m sub var o k b kp : tab_ok tab m sub -> var_ok var o -> length b = 4%nat ->
  0 <= kp -> kp + 4 <= Z.of_nat (length k) ->
  okp (round tab var k b kp) (fun b' => length b' = 4%nat /\
    cols b' = add_round_key (take 4 (drop (Z.to_nat kp) (cols k))) (mix_state m (shift_state o (sub_state sub (cols b))))).
Proof.
  intros Ht Hv Hb Hk Hkl. unfold round.
  pose proof (fun c : nat => rnd_ok tab m sub var o k b kp c Ht Hv Hb Hk Hkl) as Hr.
  eapply okp_bind; [apply (Hr 0%nat); lia|intros y0 H0].
  eapply okp_bind; [apply (Hr 1%nat); lia|intros y1 H1].
  eapply okp_bind; [apply (Hr 2%nat); lia|intros y2 H2].
  eapply okp_bind; [apply (Hr 3%nat); lia|intros y3 H3].
  split; [reflexivity|]. cbv beta in *. rewrite cols_take4 by lia.
  unfold cols at 1. cbn [fmap list_fmap]. rewrite H0, H1, H2, H3, !Z2Nat.inj_add by lia.
  rewrite Nat.add_0_r. unfold add_round_key, mix_state, shift_state. cbn [seq fmap list_fmap zip_with].
  assert (forall i r : nat, (i < 4)%nat -> (r < 4)%nat ->
    sub_state sub (cols b) !!! i !!! r = sub (cols b !!! i !!! r)) as Hs.
  { intros i r Hi Hr'. apply sub_state_lookup; [rewrite length_cols; lia|].
    rewrite cols_total, length_le_bytes; lia. }
  unfold step_col. cbn [seq fmap list_fmap].
  rewrite !Hs by first [lia|apply Nat.mod_upper_bound; lia]. reflexivity.
Qed.

(** The unrolled rounds apply the round function [Nrnd - 1] times and the last round once. *)
Lemma rounds_ok (rd lrd : list Z -> Z -> res (list Z)) (F G : nat -> list (list Z) -> list (list Z)) len N b :
  (forall i b, (4 * i + 4 <= len)%nat -> length b = 4%nat ->
     okp (rd b (Z.of_nat (4 * i))) (fun b' => length b' = 4%nat /\ cols b' = F i (cols b))) ->
  (forall i b, (4 * i + 4 <= len)%nat -> length b = 4%nat ->
     okp (lrd b (Z.of_nat (4 * i))) (fun b' => length b' = 4%nat /\ cols b' = G i (cols b))) ->
  N = 10%nat \/ N = 12%nat \/ N = 14%nat -> (4 * (N + 1) <= len)%nat -> length b = 4%nat ->
  okp (rounds rd lrd (Z.of_nat N) b nc) (fun b' => length b' = 4%nat /\
    cols b' = G N (fold_left (fun st i => F i st) (seq 1 (N - 1)) (cols b))).
Proof.
  intros HF HG HN Hl Hb. unfold rounds, nc.
  destruct HN as [-> | [-> | ->]];
  repeat match goal with |- context [Z.of_nat ?n =? ?m] =>
    let c := eval vm_compute in (Z.of_nat n =? m) in change (Z.of_nat n =? m) with c end;
  cbn [orb mbind res_bind mret res_ret seq Nat.sub fold_left]; cbv iota; cbn [mbind res_bind mret res_ret];
  repeat match goal with
  | |- context [rd ?b ?kp] =>
      let i := eval vm_compute in (Z.to_nat (kp / 4)) in
      let H := fresh "H" in
      pose proof (HF i b ltac:(lia) ltac:(assumption)) as H;
      change (Z.of_nat (4 * i)) with kp in H;
      destruct (rd b kp); [destruct H|destruct H]; cbn [mbind res_bind mret res_ret okp]
  end;
  match goal with
  | |- okp (lrd ?b ?kp) _ =>
      let i := eval vm_compute in (Z.to_nat (kp / 4)) in
      let H := fresh "H" in
      pose proof (HG i b ltac:(lia) ltac:(assumption)) as H;
      change (Z.of_nat (4 * i)) with kp in H;
      eapply okp_mono; [exact H|intros ? [? ?]; split; [assumption|congruence]]
  end.
Qed.
End Rounds.

(** ** States *)

Section States.
Import Fips.
Implicit Types (st k : list (list Z)) (m : list Z).
Notation byte x := (0 <= x < 256).

(** Four columns of four bytes. *)
Definition good (st : list (list Z)) : Prop := length st = 4%nat /\ Forall (barr 4) st.

Ltac lxor_bytes := repeat lazymatch goal with |- _ <= Z.lxor _ _ < _ => apply lxor_byte end; apply gmul_byte; assumption.

Lemma col_inv a : barr 4 a ->
  exists a0 a1 a2 a3, a = [a0; a1; a2; a3] /\ byte a0 /\ byte a1 /\ byte a2 /\ byte a3.
Proof.
  intros [Hl Ha]. destruct a as [|a0 [|a1 [|a2 [|a3 []]]]]; try discriminate.
  inversion_clear Ha as [|? ? H0 Ha']. inversion_clear Ha' as [|? ? H1 Ha]. inversion_clear Ha as [|? ? H2 Ha'].
  inversion_clear Ha' as [|? ? H3 _]. unfold inU in *. exists a0, a1, a2, a3. repeat split; lia.
Qed.

Lemma col_intro a0 a1 a2 a3 : byte a0 -> byte a1 -> byte a2 -> byte a3 -> barr 4 [a0; a1; a2; a3].
Proof. intros. split; [reflexivity|]. repeat constructor; unfold inU; lia. Qed.

Lemma good_inv st : good st -> exists a b c d, st = [a; b; c; d] /\ barr 4 a /\ barr 4 b /\ barr 4 c /\ barr 4 d.
Proof.
  intros [Hl Ha]. destruct st as [|a [|b [|c [|d []]]]]; try discriminate.
  inversion_clear Ha as [|? ? H0 Ha']. inversion_clear Ha' as [|? ? H1 Ha]. inversion_clear Ha as [|? ? H2 Ha'].
  inversion_clear Ha' as [|? ? H3 _]. eauto 10.
Qed.

Lemma good_intro a b c d : barr 4 a -> barr 4 b -> barr 4 c -> barr 4 d -> good [a; b; c; d].
Proof. intros. split; [reflexivity|]. do 4 (constructor; [assumption|]). constructor. Qed.

Ltac inv_cols := repeat match goal with
  | H : good ?st |- _ => apply good_inv in H as (? & ? & ? & ? & -> & ? & ? & ? & ?)
  | H : barr 4 ?a |- _ => apply col_inv in H as (? & ? & ? & ? & -> & ? & ? & ? & ?)
  end.

Lemma xor_col_good a b : barr 4 a -> barr 4 b -> barr 4 (xor_col a b).
Proof. intros. inv_cols. apply col_intro; apply lxor_byte; assumption. Qed.

Lemma add_good k st : good k -> good st -> good (add_round_key k st).
Proof.
  intros Hk Hs. apply good_inv in Hk as (? & ? & ? & ? & -> & ? & ? & ? & ?).
  apply good_inv in Hs as (? & ? & ? & ? & -> & ? & ? & ? & ?).
  apply good_intro; apply xor_col_good; assumption.
Qed.

Lemma sub_good sub st : (forall x, byte x -> byte (sub x)) -> good st -> good (sub_state sub st).
Proof. intros Hsub Hs. inv_cols. apply good_intro; apply col_intro; apply Hsub; assumption. Qed.

Lemma shift_good o st : o = 1%nat \/ o = 3%nat -> good st -> good (shift_state o st).
Proof. intros [-> | ->] Hs; inv_cols; apply good_intro; apply col_intro; assumption. Qed.

Lemma mix_column_good m a : barr 4 a -> barr 4 (mix_column m a).
Proof. intros. inv_cols. apply col_intro; lxor_bytes. Qed.

Lemma mix_good m st : good st -> good (mix_state m st).
Proof.
  intros Hs. apply good_inv in Hs as (? & ? & ? & ? & -> & ? & ? & ? & ?).
  apply good_intro; apply mix_column_good; assumption.
Qed.

Lemma xor_col_comm a b : barr 4 a -> barr 4 b -> xor_col a b = xor_col b a.
Proof. intros. inv_cols. unfold xor_col. cbn [zip_with]. now rewrite !(Z.lxor_comm x3), (Z.lxor_comm x4), (Z.lxor_comm x5), (Z.lxor_comm x6). Qed.

Lemma add_add k st : good k -> good st -> add_round_key k (add_round_key k st) = st.
Proof.
  intros. inv_cols. unfold add_round_key, xor_col. cbn [zip_with].
  repeat f_equal; rewrite <- Z.lxor_assoc, Z.lxor_nilpotent; apply Z.lxor_0_l.
Qed.

Lemma sub_shift sub o st : o = 1%nat \/ o = 3%nat -> good st ->
  shift_state o (sub_state sub st) = sub_state sub (shift_state o st).
Proof. intros [-> | ->] Hs; inv_cols; reflexivity. Qed.

Lemma inv_shift_shift st : good st -> inv_shift_rows (shift_rows st) = st.
Proof. intros Hs. inv_cols. reflexivity. Qed.

Lemma inv_sub_sub st : good st -> inv_sub_bytes (sub_bytes st) = st.
Proof.
  intros Hs. inv_cols. unfold inv_sub_bytes, sub_bytes, sub_state. cbn [fmap list_fmap].
  now rewrite !inv_sbox_sbox by assumption.
Qed.

(** Mixing is linear. *)
Lemma mix_column_xor m a b : barr 4 a -> barr 4 b ->
  mix_column m (xor_col a b) = xor_col (mix_column m a) (mix_column m b).
Proof.
  intros. inv_cols. unfold mix_column, xor_col. cbn [seq fmap list_fmap zip_with lookup_total list_lookup_total].
  rewrite !gmul_lxor by assumption.
  repeat (apply (f_equal2 cons); [lxor_ac|]). reflexivity.
Qed.

Lemma mix_add m k st : good k -> good st ->
  mix_state m (add_round_key k st) = add_round_key (mix_state m k) (mix_state m st).
Proof.
  intros Hk Hs. apply good_inv in Hk as (? & ? & ? & ? & -> & ? & ? & ? & ?).
  apply good_inv in Hs as (? & ? & ? & ? & -> & ? & ? & ? & ?).
  unfold mix_state, add_round_key. cbn [fmap list_fmap zip_with]. now rewrite !mix_column_xor by assumption.
Qed.

Lemma inv_mix_column a : barr 4 a -> mix_column inv_m (mix_column fwd_m a) = a.
Proof.
  intros Ha. apply col_inv in Ha as (a0 & a1 & a2 & a3 & -> & ? & ? & ? & ?).
  assert (forall i, (i < 4)%nat -> mix_column inv_m (mix_column fwd_m [a0; a1; a2; a3]) !!! i = [a0; a1; a2; a3] !!! i) as H'.
  { intros i Hi.
    pose proof (inv_coef i 0 a0 Hi ltac:(lia) ltac:(assumption)) as E0.
    pose proof (inv_coef i 1 a1 Hi ltac:(lia) ltac:(assumption)) as E1.
    pose proof (inv_coef i 2 a2 Hi ltac:(lia) ltac:(assumption)) as E2.
    pose proof (inv_coef i 3 a3 Hi ltac:(lia) ltac:(assumption)) as E3.
    transitivity (Z.lxor (Z.lxor (Z.lxor (if decide (i = 0%nat) then a0 else 0) (if decide (i = 1%nat) then a1 else 0))
      (if decide (i = 2%nat) then a2 else 0)) (if decide (i = 3%nat) then a3 else 0)).
    2: { destruct i as [|[|[|[|]]]]; [| | | |lia]; cbn; now rewrite ?Z.lxor_0_l, ?Z.lxor_0_r. }
    rewrite <- E0, <- E1, <- E2, <- E3. clear E0 E1 E2 E3.
    destruct i as [|[|[|[|]]]]; [| | | |lia];
      unfold mix_column; cbn [seq fmap list_fmap lookup_total list_lookup_total];
      rewrite !gmul_lxor by lxor_bytes; lxor_ac. }
  apply list_eq_same_length with (n := 4%nat); [reflexivity|reflexivity|].
  intros i x y Hi Hx Hy. apply list_lookup_total_correct in Hx, Hy. specialize (H' i Hi). congruence.
Qed.

Lemma inv_mix_mix st : good st -> inv_mix_columns (mix_columns st) = st.
Proof.
  intros Hs. apply good_inv in Hs as (? & ? & ? & ? & -> & ? & ? & ? & ?).
  unfold inv_mix_columns, mix_columns, mix_state. cbn [fmap list_fmap]. now rewrite !inv_mix_column by assumption.
Qed.
End States.

(** ** Ciphers *)

Section Ciphers.
Import Fips.
Implicit Types (st k : list (list Z)) (rk dk : nat -> list (list Z)) (N i n : nat).

Definition fwd_round rk st i : list (list Z) := add_round_key (rk i) (mix_columns (shift_rows (sub_bytes st))).

Lemma fwd_half_good st : good st -> good (shift_rows (sub_bytes st)).
Proof. intros. apply shift_good; [now left|]. apply sub_good; [exact sbox_byte|assumption]. Qed.

Lemma inv_half_good st : good st -> good (inv_sub_bytes (inv_shift_rows st)).
Proof. intros. apply sub_good; [exact inv_sbox_byte|]. apply shift_good; [now right|assumption]. Qed.

Lemma inv_half st : good st -> inv_sub_bytes (inv_shift_rows (shift_rows (sub_bytes st))) = st.
Proof.
  intros. rewrite inv_shift_shift by (apply sub_good; [exact sbox_byte|assumption]). apply inv_sub_sub. assumption.
Qed.

Lemma fwd_rounds_good rk n st : (forall i, (i <= n)%nat -> good (rk i)) -> good st ->
  good (fold_left (fwd_round rk) (seq 1 n) st).
Proof.
  intros Hk Hs. induction n as [|n IH]; [exact Hs|].
  rewrite seq_S, fold_left_app. cbn [fold_left]. unfold fwd_round at 1.
  apply add_good; [apply Hk; lia|]. apply mix_good, fwd_half_good, IH. intros; apply Hk; lia.
Qed.

Lemma cipher_good rk N st : (forall i, (i <= N)%nat -> good (rk i)) -> good st -> good (cipher N rk st).
Proof.
  intros Hk Hs. unfold cipher. apply add_good; [apply Hk; lia|]. apply fwd_half_good.
  apply (fwd_rounds_good rk (N - 1)); [intros; apply Hk; lia|]. apply add_good; [apply Hk; lia|assumption].
Qed.

(** The inverse cipher undoes the cipher, for every sequence of round keys. *)
Lemma inv_cipher_cipher rk N st : (forall i, (i <= N)%nat -> good (rk i)) -> (1 <= N)%nat -> good st ->
  inv_cipher N rk (cipher N rk st) = st.
Proof.
  intros Hk HN Hs. unfold cipher, inv_cipher. fold (fwd_round rk).
  pose proof (add_good _ _ (Hk 0%nat ltac:(lia)) Hs) as Hs0.
  rewrite add_add; [|apply Hk; lia|apply fwd_half_good, fwd_rounds_good; [intros; apply Hk; lia|exact Hs0]].
  assert (forall n st, (n <= N)%nat -> good st ->
    fold_left (fun st i => inv_mix_columns (add_round_key (rk i) (inv_sub_bytes (inv_shift_rows st)))) (rev (seq 1 n))
      (shift_rows (sub_bytes (fold_left (fwd_round rk) (seq 1 n) st))) = shift_rows (sub_bytes st)) as H.
  { clear - Hk. intros n. induction n as [|n IH]; intros st Hn Hs; [reflexivity|].
    rewrite seq_S, rev_app_distr, !fold_left_app. cbn [rev app fold_left Nat.add]. rewrite <- (IH st) by first [lia|assumption].
    assert (good (fold_left (fwd_round rk) (seq 1 n) st)) as Hg by (apply fwd_rounds_good; [intros; apply Hk; lia|assumption]).
    pose proof (fwd_half_good _ Hg). pose proof (Hk (S n) ltac:(lia)).
    f_equal. unfold fwd_round at 1. rewrite inv_half by (apply add_good; [|apply mix_good]; assumption).
    rewrite add_add by first [assumption|apply mix_good; assumption]. apply inv_mix_mix. assumption. }
  rewrite H, inv_half by first [lia|assumption]. apply add_add; [apply Hk; lia|exact Hs].
Qed.

(** The ciphers only read the round keys up to the last. *)
Lemma fold_left_ext {A B} (f g : A -> B -> A) (l : list B) a :
  Forall (fun x => forall a, f a x = g a x) l -> fold_left f l a = fold_left g l a.
Proof. intros H. revert a. induction H as [|x l Hx _ IH]; intros a; [reflexivity|]. cbn [fold_left]. rewrite Hx. apply IH. Qed.

Lemma cipher_ext rk rk' N : (forall i, (i <= N)%nat -> rk i = rk' i) -> forall st, cipher N rk st = cipher N rk' st.
Proof.
  intros H st. unfold cipher. rewrite !H by lia. f_equal. do 2 f_equal. apply fold_left_ext, Forall_forall.
  intros i Hi%in_seq st'. rewrite H by lia. reflexivity.
Qed.

Lemma inv_cipher_ext rk rk' N : (forall i, (i <= N)%nat -> rk i = rk' i) -> forall st, inv_cipher N rk st = inv_cipher N rk' st.
Proof.
  intros H st. unfold inv_cipher. rewrite !H by lia. f_equal. do 2 f_equal. apply fold_left_ext, Forall_forall.
  intros i Hi%in_rev%in_seq st'. rewrite H by lia. reflexivity.
Qed.

(** The equivalent inverse cipher: the decryption key schedule holds the mixed round keys in reverse order. *)
Definition dec_keys rk dk N : Prop := forall i, (i <= N)%nat ->
  dk i = if decide (0 < i < N)%nat then inv_mix_columns (rk (N - i)%nat) else rk (N - i)%nat.

Lemma equiv_inv_round k st : good k -> good st ->
  add_round_key (inv_mix_columns k) (inv_mix_columns (inv_shift_rows (inv_sub_bytes st))) =
    inv_mix_columns (add_round_key k (inv_sub_bytes (inv_shift_rows st))).
Proof.
  intros Hk Hs. unfold inv_shift_rows, inv_sub_bytes, inv_mix_columns.
  rewrite (sub_shift inv_sbox 3 st (or_intror eq_refl) Hs). symmetry. apply mix_add; [exact Hk|].
  apply inv_half_good, Hs.
Qed.

Lemma equiv_inv_cipher rk dk N st : dec_keys rk dk N -> (forall i, (i <= N)%nat -> good (rk i)) ->
  (1 <= N)%nat -> good st ->
  add_round_key (dk N) (inv_shift_rows (inv_sub_bytes
    (fold_left (fun st i => add_round_key (dk i) (inv_mix_columns (inv_shift_rows (inv_sub_bytes st)))) (seq 1 (N - 1))
      (add_round_key (dk 0%nat) st)))) = inv_cipher N rk st.
Proof.
  intros Hd Hk HN Hs. unfold inv_cipher.
  rewrite (Hd N), (Hd 0%nat) by lia. rewrite !decide_False by lia. rewrite Nat.sub_diag, Nat.sub_0_r.
  pose proof (add_good _ _ (Hk N ltac:(lia)) Hs) as Hs0. revert Hs0. generalize (add_round_key (rk N) st). clear st Hs.
  intros st Hs.
  assert (forall n st, (n < N)%nat -> good st ->
    let st' := fold_left (fun st i => add_round_key (dk i) (inv_mix_columns (inv_shift_rows (inv_sub_bytes st)))) (seq (N - n) n) st in
    good st' /\ st' =
    fold_left (fun st i => inv_mix_columns (add_round_key (rk i) (inv_sub_bytes (inv_shift_rows st)))) (rev (seq 1 n)) st) as H.
  { clear st Hs. intros n. induction n as [|n IH]; intros st Hn Hs; cbv zeta; [split; [exact Hs|reflexivity]|].
    rewrite (seq_S n 1), rev_app_distr. cbn [seq rev app fold_left]. replace (S (N - S n)) with (N - n)%nat by lia.
    assert (good (inv_mix_columns (add_round_key (rk (S n)) (inv_sub_bytes (inv_shift_rows st))))) as Hg.
    { apply mix_good, add_good; [apply Hk; lia|]. apply inv_half_good, Hs. }
    rewrite (Hd (N - S n)%nat), decide_True by lia. replace (N - (N - S n))%nat with (S n) by lia.
    rewrite equiv_inv_round by first [assumption|apply Hk; lia]. apply IH; [lia|exact Hg]. }
  specialize (H (N - 1)%nat st ltac:(lia) Hs). cbv zeta in H. destruct H as [Hg He].
  replace (N - (N - 1))%nat with 1%nat in Hg, He by lia. f_equal. rewrite <- He.
  unfold inv_shift_rows, inv_sub_bytes. apply sub_shift; [now right|exact Hg].
Qed.

Lemma rkey_good e i : (4 * i + 4 <= length e)%nat -> good (rkey e i).
Proof.
  intros Hl. unfold rkey. rewrite cols_take4 by lia. apply good_intro; apply barr_le_bytes.
Qed.
End Ciphers.

(** ** Blocks in and out, and the two block operations *)

Section Operations.
Import Fips.
Context (dm : data_model).
Implicit Types (x y b k e : list Z) (off i N : nat).

(** The bytes beyond its four that reading or writing a word touches. *)
Definition slack : nat := sizeof_word dm - 4.

Lemma sizeof_word_slack : sizeof_word dm = (4 + slack)%nat.
Proof. unfold slack, sizeof_word. destruct dm; reflexivity. Qed.

Lemma okp_mapM_fmap {A B C} (f : A -> res B) (h : B -> C) (g : A -> C) (l : list A) :
  Forall (fun a => okp (f a) (fun c => h c = g a)) l -> okp (mapM f l) (fun l' => h <$> l' = g <$> l).
Proof.
  induction 1 as [|a l Ha _ IH]; [reflexivity|]. cbn [mapM].
  eapply okp_bind; [exact Ha|intros c Hc]. eapply okp_bind; [exact IH|intros l' Hl'].
  cbn [okp mret res_ret fmap list_fmap]. congruence.
Qed.

Lemma word_in_ok x off : Forall (inU 8) x -> (off + 4 + slack <= length x)%nat ->
  okp (word_in dm x off) (fun w => le_bytes 4 w = take 4 (drop off x)).
Proof.
  intros Hx Hl. unfold word_in. rewrite sizeof_word_slack, (proj2 (Nat.leb_le _ _)) by lia. cbn [okp mret res_ret].
  rewrite le_bytes_prefix; [rewrite take_take; f_equal; lia|rewrite length_take, length_drop; lia|].
  apply Forall_take, Forall_drop, Hx.
Qed.

Lemma le_bytes_take n m (v : Z) : (n <= m)%nat -> take n (le_bytes m v) = le_bytes n v.
Proof.
  revert m v. induction n as [|n IH]; intros [|m] v H; cbn; [reflexivity..|lia|]. f_equal. apply IH. lia.
Qed.

Lemma word_out_ok y off (v : Z) : (off + 4 + slack <= length y)%nat ->
  okp (word_out dm y off v) (fun y' => length y' = length y /\ take (off + 4) y' = take off y ++ le_bytes 4 v /\
    drop (off + 4 + slack) y' = drop (off + 4 + slack) y /\ (Forall (inU 8) y -> Forall (inU 8) y')).
Proof.
  intros Hl. unfold word_out. rewrite sizeof_word_slack, (proj2 (Nat.leb_le _ _)) by lia. cbn [okp mret res_ret].
  assert (length (take off y) = off) as Ho by (rewrite length_take; lia).
  rewrite !length_app, length_take, length_le_bytes, length_drop. split; [lia|repeat split].
  - rewrite take_app_ge by lia. f_equal. rewrite Ho. replace (off + 4 - off)%nat with 4%nat by lia.
    rewrite take_app_le by (rewrite length_le_bytes; lia). apply le_bytes_take. lia.
  - rewrite app_assoc, drop_app_ge by (rewrite length_app, length_le_bytes; lia).
    rewrite length_app, length_le_bytes, Ho. rewrite <- Nat.add_assoc, Nat.sub_diag. reflexivity.
  - intros Hy. repeat apply Forall_app_2; [now apply Forall_take|apply le_bytes_bytes|now apply Forall_drop].
Qed.

Lemma state_in_ok x k i : Forall (inU 8) x -> (16 + slack <= length x)%nat -> (4 * i + 4 <= length k)%nat ->
  okp (state_in dm x k (Z.of_nat (4 * i))) (fun b => length b = 4%nat /\ cols b = add_round_key (rkey k i) (blocks 4 4 x)).
Proof.
  intros Hx Hl Hk. unfold state_in.
  set (g := fun c : nat => xor_col (le_bytes 4 (k !!! (4 * i + c)%nat)) (take 4 (drop (4 * c) x))).
  eapply okp_mono; [apply (okp_mapM_fmap _ (le_bytes 4) g)|].
  - apply Forall_forall. intros c Hc%list_elem_of_In. assert (c < 4)%nat as Hc4.
    { repeat (apply elem_of_cons in Hc as [-> | Hc]; [lia|]). apply not_elem_of_nil in Hc. contradiction. }
    eapply okp_bind; [apply word_in_ok; [exact Hx|lia]|intros w Hw].
    rewrite aget_total by lia. cbn [mbind res_bind okp mret res_ret]. rewrite <- Nat2Z.inj_add, Nat2Z.id.
    rewrite le_bytes_lxor, Hw. apply xor_col_comm; [|apply barr_le_bytes].
    split; [rewrite length_take, length_drop; lia|]. apply Forall_take, Forall_drop, Hx.
  - intros b Hb. split; [apply (f_equal length) in Hb; rewrite length_fmap in Hb; exact Hb|].
    unfold cols. rewrite Hb. unfold rkey. rewrite cols_take4 by lia. subst g. cbn [fmap list_fmap].
    rewrite Nat.add_0_r. cbn [blocks]. rewrite !drop_drop. reflexivity.
Qed.

Lemma state_out_ok y b : length b = 4%nat -> (16 + slack <= length y)%nat ->
  okp (state_out dm y b) (fun y' => length y' = length y /\ take 16 y' = mjoin (cols b) /\
    drop (16 + slack) y' = drop (16 + slack) y /\ (Forall (inU 8) y -> Forall (inU 8) y')).
Proof.
  intros Hb Hl. unfold state_out. rewrite (list_4 b Hb). cbn [lookup_total list_lookup_total].
  eapply okp_bind; [apply word_out_ok; lia|intros y0 (L0 & T0 & D0 & B0)].
  eapply okp_bind; [apply word_out_ok; lia|intros y1 (L1 & T1 & D1 & B1)].
  eapply okp_bind; [apply word_out_ok; lia|intros y2 (L2 & T2 & D2 & B2)].
  eapply okp_mono; [apply word_out_ok; lia|intros y3 (L3 & T3 & D3 & B3)].
  cbn [Nat.add] in *. split; [lia|split; [|split; [|auto]]].
  - rewrite T3, T2, T1, T0. rewrite take_0. cbn [cols fmap list_fmap mjoin list_join app].
    rewrite <- !app_assoc, app_nil_r. reflexivity.
  - assert (forall n m (l l' : list Z), (n <= m)%nat -> drop n l = drop n l' -> drop m l = drop m l') as Hd.
    { intros n m l l' Hn He. replace m with (n + (m - n))%nat by lia. rewrite <- !drop_drop, He. reflexivity. }
    etransitivity; [eapply Hd; [|exact D3]; lia|]. etransitivity; [eapply Hd; [|exact D2]; lia|].
    etransitivity; [eapply Hd; [|exact D1]; lia|]. eapply Hd; [|exact D0]. lia.
Qed.

Lemma blocks_good x : Forall (inU 8) x -> (16 <= length x)%nat -> good (blocks 4 4 x).
Proof.
  intros Hx Hl. cbn [blocks]. rewrite !drop_drop.
  apply good_intro; (split; [rewrite length_take, ?length_drop; lia|]);
    repeat first [apply Forall_take|apply Forall_drop]; exact Hx.
Qed.

(** What a block operation leaves in [out_blk]. *)
Definition out_ok (y : list Z) (st : list (list Z)) (r : Z * list Z) : Prop :=
  r.1 = aes_good /\ length r.2 = length y /\ take 16 r.2 = mjoin st /\ drop (16 + slack) r.2 = drop (16 + slack) y /\
  (Forall (inU 8) y -> Forall (inU 8) r.2).

Lemma cols_good b : length b = 4%nat -> good (cols b).
Proof. intros Hb. rewrite (list_4 b Hb). apply good_intro; apply barr_le_bytes. Qed.

Lemma mix_one st : good st -> mix_state one_m st = st.
Proof.
  intros Hs. apply good_inv in Hs as (? & ? & ? & ? & -> & Ha & Hb & Hc & Hd).
  apply col_inv in Ha as (? & ? & ? & ? & -> & ? & ? & ? & ?). apply col_inv in Hb as (? & ? & ? & ? & -> & ? & ? & ? & ?).
  apply col_inv in Hc as (? & ? & ? & ? & -> & ? & ? & ? & ?). apply col_inv in Hd as (? & ? & ? & ? & -> & ? & ? & ? & ?).
  unfold mix_state. cbn [fmap list_fmap]. now rewrite !mix_column_one by assumption.
Qed.

Lemma round_rkey tab m sub var o k i b : tab_ok tab m sub -> var_ok var o -> (4 * i + 4 <= length k)%nat -> length b = 4%nat ->
  okp (round tab var k b (Z.of_nat (4 * i))) (fun b' => length b' = 4%nat /\
    cols b' = add_round_key (rkey k i) (mix_state m (shift_state o (sub_state sub (cols b))))).
Proof.
  intros Ht Hv Hl Hb. eapply okp_mono; [apply (round_ok tab m sub var o); [exact Ht|exact Hv|exact Hb|lia..]|].
  intros b' [H1 H2]. split; [exact H1|]. rewrite Nat2Z.id in H2. exact H2.
Qed.

Lemma last_round_rkey tab sub var o k i b : tab_ok tab one_m sub -> var_ok var o -> o = 1%nat \/ o = 3%nat ->
  (forall v, 0 <= v < 256 -> 0 <= sub v < 256) -> (4 * i + 4 <= length k)%nat -> length b = 4%nat ->
  okp (round tab var k b (Z.of_nat (4 * i))) (fun b' => length b' = 4%nat /\
    cols b' = add_round_key (rkey k i) (shift_state o (sub_state sub (cols b)))).
Proof.
  intros Ht Hv Ho Hs Hl Hb. eapply okp_mono; [apply (round_rkey tab one_m sub var o); assumption|].
  intros b' [H1 H2]. split; [exact H1|]. rewrite H2, mix_one; [reflexivity|].
  apply shift_good; [exact Ho|]. apply sub_good; [exact Hs|]. apply cols_good, Hb.
Qed.

Lemma encrypt_ok x y cx N : Z.land (mode cx) 1 <> 0 -> Nrnd cx = Z.of_nat N -> N = 10%nat \/ N = 12%nat \/ N = 14%nat ->
  length (e_key cx) = 64%nat -> Forall (inU 8) x -> (16 + slack <= length x)%nat -> (16 + slack <= length y)%nat ->
  okp (encrypt dm x y cx) (out_ok y (cipher N (rkey (e_key cx)) (blocks 4 4 x))).
Proof.
  intros Hm HN HNr Hk Hx Hlx Hly. unfold encrypt. rewrite (proj2 (Z.eqb_neq _ 0) Hm), HN.
  eapply okp_bind; [apply (state_in_ok x (e_key cx) 0); [exact Hx|lia..]|intros b [Hb Hc]].
  eapply okp_bind.
  { apply (rounds_ok _ _ (fun i st => add_round_key (rkey (e_key cx) i) (mix_columns (shift_rows (sub_bytes st))))
      (fun i st => add_round_key (rkey (e_key cx) i) (shift_rows (sub_bytes st))) 64).
    - intros. apply (round_rkey ft_tab fwd_m sbox fwd_var 1); [exact ft_ok|exact fwd_var_ok|lia|assumption].
    - intros. apply (last_round_rkey fl_tab sbox fwd_var 1);
        [exact fl_ok|exact fwd_var_ok|now left|exact sbox_byte|lia|assumption].
    - exact HNr.
    - lia.
    - exact Hb. }
  cbv beta. intros b' [Hb' Hc']. eapply okp_bind; [apply state_out_ok; [exact Hb'|exact Hly]|].
  intros y' (H1 & H2 & H3). split; [reflexivity|]. split; [exact H1|]. split; [|exact H3]. cbn [snd]. rewrite H2, Hc', Hc.
  reflexivity.
Qed.

Lemma decrypt_ok x y cx N rk : Z.land (mode cx) 2 <> 0 -> Nrnd cx = Z.of_nat N -> N = 10%nat \/ N = 12%nat \/ N = 14%nat ->
  length (d_key cx) = 64%nat -> (forall i, (i <= N)%nat -> good (rk i)) -> dec_keys rk (rkey (d_key cx)) N ->
  Forall (inU 8) x -> (16 + slack <= length x)%nat -> (16 + slack <= length y)%nat ->
  okp (decrypt dm x y cx) (out_ok y (inv_cipher N rk (blocks 4 4 x))).
Proof.
  intros Hm HN HNr Hk Hrk Hdk Hx Hlx Hly. unfold decrypt. rewrite (proj2 (Z.eqb_neq _ 0) Hm), HN.
  eapply okp_bind; [apply (state_in_ok x (d_key cx) 0); [exact Hx|lia..]|intros b [Hb Hc]].
  eapply okp_bind.
  { apply (rounds_ok _ _ (fun i st => add_round_key (rkey (d_key cx) i) (inv_mix_columns (inv_shift_rows (inv_sub_bytes st))))
      (fun i st => add_round_key (rkey (d_key cx) i) (inv_shift_rows (inv_sub_bytes st))) 64).
    - intros. apply (round_rkey it_tab inv_m inv_sbox inv_var 3); [exact it_ok|exact inv_var_ok|lia|assumption].
    - intros. apply (last_round_rkey il_tab inv_sbox inv_var 3);
        [exact il_ok|exact inv_var_ok|now right|exact inv_sbox_byte|lia|assumption].
    - exact HNr.
    - lia.
    - exact Hb. }
  cbv beta. intros b' [Hb' Hc']. eapply okp_bind; [apply state_out_ok; [exact Hb'|exact Hly]|].
  intros y' (H1 & H2 & H3). split; [reflexivity|]. split; [exact H1|]. split; [|exact H3]. cbn [snd]. rewrite H2, Hc', Hc.
  f_equal. apply (equiv_inv_cipher rk (rkey (d_key cx)) N); [exact Hdk|exact Hrk|lia|apply blocks_good; [exact Hx|lia]].
Qed.
End Operations.

(** ** The key schedule *)

Section Schedule.
Import Fips.
Implicit Types (e d : list Z) (w : list (list Z)) (q n s : nat).

(** The first words of the array [e] stand for the columns [w]. *)
Definition repr e w : Prop := length e = 64%nat /\ take (length w) (cols e) = w.

Lemma repr_lookup e w (j : nat) : repr e w -> (j < length w)%nat -> (j < 64)%nat /\ le_bytes 4 (e !!! j) = w !!! j.
Proof.
  intros [He Hw] Hj. assert (j < 64)%nat as H64.
  { apply (f_equal length) in Hw. rewrite length_take, length_cols in Hw. lia. }
  split; [exact H64|]. symmetry. apply list_lookup_total_correct. rewrite <- Hw, lookup_take_lt by exact Hj.
  apply cols_lookup. lia.
Qed.

(** Storing the next word. *)
Lemma repr_push e w (i x : Z) (col : list Z) : repr e w -> i = Z.of_nat (length w) -> (length w < 64)%nat -> le_bytes 4 x = col ->
  okp (aset e i x) (fun e' => repr e' (w ++ [col])).
Proof.
  intros [He Hw] -> Hl <-. unfold aset. rewrite (proj2 (Z.leb_le _ _)), (proj2 (Z.ltb_lt _ _)) by lia. cbn [andb okp].
  split; [now rewrite length_insert|]. unfold cols. rewrite list_fmap_insert, Nat2Z.id, length_app.
  cbn [length]. rewrite Nat.add_1_r, (take_S_r _ _ (le_bytes 4 x)) by (apply list_lookup_insert_eq; rewrite length_fmap; lia).
  rewrite take_insert_ge by lia. f_equal. exact Hw.
Qed.

Lemma aget_repr e w (i : Z) : repr e w -> 0 <= i < Z.of_nat (length w) ->
  okp (aget e i) (fun x => le_bytes 4 x = w !!! Z.to_nat i).
Proof.
  intros Hr Hi. destruct (repr_lookup e w (Z.to_nat i) Hr) as [H64 Hw]; [lia|].
  rewrite aget_total by (destruct Hr; lia). exact Hw.
Qed.

Lemma xor_into_ok e w (i j k : Z) : repr e w -> i = Z.of_nat (length w) -> (length w < 64)%nat ->
  0 <= j < i -> 0 <= k < i ->
  okp (xor_into e i j k) (fun e' => repr e' (w ++ [xor_col (w !!! Z.to_nat j) (w !!! Z.to_nat k)])).
Proof.
  intros Hr Hi Hl Hj Hk. unfold xor_into.
  eapply okp_bind; [apply (aget_repr e w); [exact Hr|lia]|intros x Hx].
  eapply okp_bind; [apply (aget_repr e w); [exact Hr|lia]|intros y Hy].
  apply repr_push; [exact Hr|exact Hi|exact Hl|]. rewrite le_bytes_lxor, Hx, Hy. reflexivity.
Qed.

(** [ls_box]: the substitution, after rotating the word when [c] is 3. *)
Lemma ls_box_ok (y : Z) : okp (ls_box y 0) (fun t => le_bytes 4 t = sbox <$> le_bytes 4 y) /\
  okp (ls_box y 3) (fun t => le_bytes 4 t = sbox <$> rot_word (le_bytes 4 y)).
Proof.
  assert (forall r, (r < 4)%nat -> 0 <= sbox (bval y (Z.of_nat r)) < 256) as Hb by (intros; apply sbox_byte, bval_byte).
  pose proof (Hb 0%nat ltac:(lia)). pose proof (Hb 1%nat ltac:(lia)).
  pose proof (Hb 2%nat ltac:(lia)). pose proof (Hb 3%nat ltac:(lia)).
  assert (forall r, (r < 4)%nat -> le_bytes 4 y !!! r = bval y (Z.of_nat r)) as Hl by (intros; symmetry; now apply bval_le_bytes).
  rewrite (list_4 (le_bytes 4 y) (length_le_bytes 4 y)), !Hl by lia.
  split; (eapply okp_mono; [apply (four_tables_ok _ _ _ _ fl_ok); intros; apply bval_byte|]); intros t ->;
    cbn [rot_word drop take app fmap list_fmap]; apply mix_column_one; assumption.
Qed.

Lemma ls_into_ok e w (i j k : Z) : repr e w -> i = Z.of_nat (length w) -> (length w < 64)%nat ->
  0 <= j < i -> 0 <= k < i ->
  okp (ls_into e i j k 0) (fun e' => repr e' (w ++ [xor_col (w !!! Z.to_nat j) (sbox <$> w !!! Z.to_nat k)])).
Proof.
  intros Hr Hi Hl Hj Hk. unfold ls_into.
  eapply okp_bind; [apply (aget_repr e w); [exact Hr|lia]|intros x Hx].
  eapply okp_bind; [apply (aget_repr e w); [exact Hr|lia]|intros y Hy].
  eapply okp_bind; [apply (ls_box_ok y)|intros t Ht].
  apply repr_push; [exact Hr|exact Hi|exact Hl|]. rewrite le_bytes_lxor, Hx, Ht, Hy. reflexivity.
Qed.

Lemma rcon_tab_ok q : (q < 10)%nat -> okp (aget rcon_tab (Z.of_nat q)) (fun c => le_bytes 4 c = rcon (S q)).
Proof. intros Hq. do 10 (destruct q as [|q]; [reflexivity|]). lia. Qed.

Lemma rcon_into_ok e w (i j k : Z) q : repr e w -> i = Z.of_nat (length w) -> (length w < 64)%nat ->
  0 <= j < i -> 0 <= k < i -> (q < 10)%nat ->
  okp (rcon_into e i j k (Z.of_nat q)) (fun e' => repr e'
    (w ++ [xor_col (w !!! Z.to_nat j) (xor_col (sbox <$> rot_word (w !!! Z.to_nat k)) (rcon (S q)))])).
Proof.
  intros Hr Hi Hl Hj Hk Hq. unfold rcon_into.
  eapply okp_bind; [apply (aget_repr e w); [exact Hr|lia]|intros x Hx].
  eapply okp_bind; [apply (aget_repr e w); [exact Hr|lia]|intros y Hy].
  eapply okp_bind; [apply (ls_box_ok y)|intros t Ht].
  eapply okp_bind; [apply (rcon_tab_ok q Hq)|intros c Hc].
  apply repr_push; [exact Hr|exact Hi|exact Hl|]. rewrite Z.lxor_assoc, !le_bytes_lxor, Hx, Ht, Hy, Hc. reflexivity.
Qed.

Lemma length_expand Nk n w : length (expand Nk n w) = (length w + n)%nat.
Proof. induction n as [|n IH]; cbn [expand]; [lia|]. rewrite length_app, IH. cbn [length]. lia. Qed.

(** Position [s] of group [q] in a schedule with groups of [Nk] words. *)
Lemma group_pos Nk q s : (s < Nk)%nat -> ((Nk + (Nk * q + s)) mod Nk = s /\ (Nk + (Nk * q + s)) / Nk = S q)%nat.
Proof.
  intros Hs. replace (Nk + (Nk * q + s))%nat with (S q * Nk + s)%nat by lia.
  destruct (block_add Nk (S q) s ltac:(lia)) as [H1 H2]. rewrite H1, H2, Nat.mod_small, Nat.div_small by lia. lia.
Qed.

Section Steps.
Context (Nk q : nat) (w0 : list (list Z)) (Hw0 : length w0 = Nk).
Context (s : nat) (e : list Z) (i j k : Z).
Context (Hs : (s < Nk)%nat) (Hq : (Nk + (Nk * q + s) < 64)%nat) (Hr : repr e (expand Nk (Nk * q + s) w0)).
Context (Hi : i = Z.of_nat (Nk + (Nk * q + s))) (Hj : j = i - Z.of_nat Nk) (Hk : k = i - 1).

Lemma step_length : length (expand Nk (Nk * q + s) w0) = (Nk + (Nk * q + s))%nat.
Proof. rewrite length_expand, Hw0. reflexivity. Qed.

Lemma next_word_step : next_word Nk (expand Nk (Nk * q + s) w0) =
  let w := expand Nk (Nk * q + s) w0 in
  xor_col (w !!! Z.to_nat j) (if (s =? 0)%nat then xor_col (sbox <$> rot_word (w !!! Z.to_nat k)) (rcon (S q))
                         else if (6 <? Nk)%nat && (s =? 4)%nat then sbox <$> w !!! Z.to_nat k else w !!! Z.to_nat k).
Proof.
  unfold next_word. cbv zeta. rewrite step_length. destruct (group_pos Nk q s Hs) as [-> ->].
  replace (Z.to_nat j) with (Nk + (Nk * q + s) - Nk)%nat by lia.
  replace (Z.to_nat k) with (Nk + (Nk * q + s) - 1)%nat by lia. reflexivity.
Qed.

Lemma expand_step : expand Nk (Nk * q + S s) w0 =
  expand Nk (Nk * q + s) w0 ++ [next_word Nk (expand Nk (Nk * q + s) w0)].
Proof. rewrite Nat.add_succ_r. reflexivity. Qed.

Lemma xor_step : s <> 0%nat -> (6 <? Nk)%nat && (s =? 4)%nat = false ->
  okp (xor_into e i j k) (fun e' => repr e' (expand Nk (Nk * q + S s) w0)).
Proof.
  intros H0 H4. rewrite expand_step, next_word_step. cbv zeta. rewrite H4, (proj2 (Nat.eqb_neq s 0) H0).
  apply xor_into_ok; rewrite ?step_length; first [assumption|lia].
Qed.

Lemma ls_step : s = 4%nat -> (6 < Nk)%nat -> okp (ls_into e i j k 0) (fun e' => repr e' (expand Nk (Nk * q + S s) w0)).
Proof.
  intros H4 H6. rewrite expand_step, next_word_step. cbv zeta.
  rewrite (proj2 (Nat.eqb_eq s 4) H4), (proj2 (Nat.ltb_lt 6 Nk) H6), (proj2 (Nat.eqb_neq s 0)) by lia.
  apply ls_into_ok; rewrite ?step_length; first [assumption|lia].
Qed.

Lemma rcon_step (rci : Z) : s = 0%nat -> rci = Z.of_nat q -> (q < 10)%nat ->
  okp (rcon_into e i j k rci) (fun e' => repr e' (expand Nk (Nk * q + S s) w0)).
Proof.
  intros H0 -> Hq10. rewrite expand_step, next_word_step. cbv zeta.
  rewrite (proj2 (Nat.eqb_eq s 0) H0).
  apply rcon_into_ok; rewrite ?step_length; first [assumption|lia].
Qed.
End Steps.

(** One group of [Nk] words. *)
Definition body_ok (Nk : nat) (body : list Z -> Z -> Z -> res (list Z)) : Prop :=
  forall w0 e q, length w0 = Nk -> (Nk * (q + 2) <= 64)%nat -> (q < 10)%nat -> repr e (expand Nk (Nk * q) w0) ->
    okp (body e (Z.of_nat (Nk * q)) (Z.of_nat q)) (fun e' => repr e' (expand Nk (Nk * S q) w0)).

Ltac group_step lem Nk q w0 s :=
  apply (lem Nk q w0 ltac:(assumption) s); first [lia|assumption|reflexivity].

Lemma key4_ok : body_ok 4 key4_body.
Proof.
  intros w0 e q Hw Hq Hq' Hr. unfold key4_body. rewrite <- (Nat.add_0_r (4 * q)) in Hr.
  eapply okp_bind; [group_step rcon_step 4%nat q w0 0%nat|clear e Hr; intros e Hr; cbv beta in Hr].
  eapply okp_bind; [group_step xor_step 4%nat q w0 1%nat|clear e Hr; intros e Hr; cbv beta in Hr].
  eapply okp_bind; [group_step xor_step 4%nat q w0 2%nat|clear e Hr; intros e Hr; cbv beta in Hr].
  replace (4 * S q)%nat with (4 * q + 4)%nat by lia. group_step xor_step 4%nat q w0 3%nat.
Qed.

Lemma key6_ok : body_ok 6 key6_body.
Proof.
  intros w0 e q Hw Hq Hq' Hr. unfold key6_body. rewrite <- (Nat.add_0_r (6 * q)) in Hr.
  eapply okp_bind; [group_step rcon_step 6%nat q w0 0%nat|clear e Hr; intros e Hr; cbv beta in Hr].
  eapply okp_bind; [group_step xor_step 6%nat q w0 1%nat|clear e Hr; intros e Hr; cbv beta in Hr].
  eapply okp_bind; [group_step xor_step 6%nat q w0 2%nat|clear e Hr; intros e Hr; cbv beta in Hr].
  eapply okp_bind; [group_step xor_step 6%nat q w0 3%nat|clear e Hr; intros e Hr; cbv beta in Hr].
  eapply okp_bind; [group_step xor_step 6%nat q w0 4%nat|clear e Hr; intros e Hr; cbv beta in Hr].
  replace (6 * S q)%nat with (6 * q + 6)%nat by lia. group_step xor_step 6%nat q w0 5%nat.
Qed.

Lemma key8_ok : body_ok 8 key8_body.
Proof.
  intros w0 e q Hw Hq Hq' Hr. unfold key8_body. rewrite <- (Nat.add_0_r (8 * q)) in Hr.
  eapply okp_bind; [group_step rcon_step 8%nat q w0 0%nat|clear e Hr; intros e Hr; cbv beta in Hr].
  eapply okp_bind; [group_step xor_step 8%nat q w0 1%nat|clear e Hr; intros e Hr; cbv beta in Hr].
  eapply okp_bind; [group_step xor_step 8%nat q w0 2%nat|clear e Hr; intros e Hr; cbv beta in Hr].
  eapply okp_bind; [group_step xor_step 8%nat q w0 3%nat|clear e Hr; intros e Hr; cbv beta in Hr].
  eapply okp_bind; [group_step ls_step 8%nat q w0 4%nat|clear e Hr; intros e Hr; cbv beta in Hr].
  eapply okp_bind; [group_step xor_step 8%nat q w0 5%nat|clear e Hr; intros e Hr; cbv beta in Hr].
  eapply okp_bind; [group_step xor_step 8%nat q w0 6%nat|clear e Hr; intros e Hr; cbv beta in Hr].
  replace (8 * S q)%nat with (8 * q + 8)%nat by lia. group_step xor_step 8%nat q w0 7%nat.
Qed.

(** The loop of [set_key] runs exactly [n] more iterations when the [n]th is the first to reach [kt]. *)
Lemma key_loop_ok Nk body w0 kt : body_ok Nk body -> length w0 = Nk -> forall n q e,
  (1 <= n)%nat -> (Nk * (q + n + 1) <= 64)%nat -> (q + n <= 10)%nat ->
  Z.of_nat (Nk * (q + n - 1)) < kt <= Z.of_nat (Nk * (q + n)) -> repr e (expand Nk (Nk * q) w0) ->
  okp (key_loop body (Z.of_nat Nk) n e (Z.of_nat (Nk * q)) kt (Z.of_nat q))
    (fun e' => repr e' (expand Nk (Nk * (q + n)) w0)).
Proof.
  intros Hb Hw n. induction n as [|n IH]; intros q e Hn Hl Hq Hkt Hr; [lia|]. cbn [key_loop].
  eapply okp_bind; [apply (Hb w0 e q Hw); [nia|lia|exact Hr]|]. clear e Hr. intros e Hr. cbv beta in Hr.
  replace (Z.of_nat (Nk * q) + Z.of_nat Nk) with (Z.of_nat (Nk * S q)) by lia.
  destruct n as [|n].
  - rewrite (proj2 (Z.ltb_ge _ _)) by lia. cbn [okp mret res_ret]. now rewrite Nat.add_1_r.
  - rewrite (proj2 (Z.ltb_lt _ _)) by nia. replace (Z.of_nat q + 1) with (Z.of_nat (S q)) by lia.
    replace (q + S (S n))%nat with (S q + S n)%nat in * by lia. apply IH; first [exact Hr|lia].
Qed.
End Schedule.

Section SetKey.
Import Fips.
Context (dm : data_model).
Implicit Types (e d key : list Z) (w : list (list Z)) (i n t f N : nat).

Lemma blocks_snoc n : forall key, blocks 4 (S n) key = blocks 4 n key ++ [take 4 (drop (4 * n) key)].
Proof.
  induction n as [|n IH]; intros key; [reflexivity|].
  rewrite blocks_S, IH, (blocks_S 4 n). rewrite drop_drop. replace (4 * S n)%nat with (4 + 4 * n)%nat by lia. reflexivity.
Qed.

Lemma key_in_ok key : Forall (inU 8) key -> forall n i e, (4 * (i + n) + slack dm <= length key)%nat -> (i + n <= 64)%nat ->
  repr e (blocks 4 i key) -> okp (key_in dm n i key e) (fun e' => repr e' (blocks 4 (i + n) key)).
Proof.
  intros Hk n. induction n as [|n IH]; intros i e Hl H64 Hr; cbn [key_in].
  { rewrite Nat.add_0_r. exact Hr. }
  eapply okp_bind; [apply word_in_ok; [exact Hk|lia]|intros x Hx].
  eapply okp_bind; [apply (repr_push e (blocks 4 i key)); [exact Hr|now rewrite length_blocks|rewrite length_blocks; lia|exact Hx]|].
  cbv beta. intros e' Hr'. rewrite <- blocks_snoc in Hr'.
  replace (i + S n)%nat with (S i + n)%nat by lia. apply IH; [lia|lia|exact Hr'].
Qed.

(** Round keys of an array in which one word was stored. *)
Lemma rkey_insert d t c (x : Z) i : (c < 4)%nat ->
  rkey (<[(4 * t + c)%nat := x]> d) i = if decide (i = t) then <[c := le_bytes 4 x]> (rkey d i) else rkey d i.
Proof.
  intros Hc. unfold rkey, cols. rewrite list_fmap_insert. case_decide as Hi.
  - subst i. rewrite drop_insert_ge, take_insert_lt by lia. f_equal. lia.
  - destruct (decide (i < t)%nat).
    + rewrite drop_insert_ge, take_insert_ge by lia. reflexivity.
    + rewrite drop_insert_lt by lia. reflexivity.
Qed.

(** Copying four words, each through [op]. *)
Lemma blit_ok (op : Z -> res Z) (h : list Z -> list Z) d e t f :
  (forall x, okp (op x) (fun x' => le_bytes 4 x' = h (le_bytes 4 x))) ->
  length d = 64%nat -> length e = 64%nat -> (t < 16)%nat -> (f < 16)%nat ->
  okp (cfor 4 0 (fun c d => w ← aget e (Z.of_nat (4 * f) + c); w ← op w; aset d (Z.of_nat (4 * t) + c) w) d)
    (fun d' => length d' = 64%nat /\ forall i, (i < 16)%nat -> rkey d' i = if decide (i = t) then h <$> rkey e f else rkey d i).
Proof.
  intros Hop Hd He Ht Hf.
  eapply okp_mono; [apply (okp_cfor (fun c d' => length d' = 64%nat /\ forall i, (i < 16)%nat ->
     rkey d' i = if decide (i = t) then (h <$> take (Z.to_nat c) (rkey e f)) ++ drop (Z.to_nat c) (rkey d t) else rkey d i))|].
  - split; [exact Hd|]. intros i Hi. case_decide; [subst|]; reflexivity.
  - intros c d' Hc [Hl Hk]. assert (exists n, c = Z.of_nat n /\ (n < 4)%nat) as (n & -> & Hn) by (exists (Z.to_nat c); lia).
    rewrite <- !Nat2Z.inj_add, aget_total by lia. cbn [mbind res_bind].
    eapply okp_bind; [apply Hop|]. intros x Hx. rewrite Nat2Z.id in Hx.
    unfold aset. rewrite (proj2 (Z.leb_le _ _)), (proj2 (Z.ltb_lt _ _)) by lia. cbn [andb okp].
    split; [now rewrite length_insert|]. intros i Hi. rewrite !Nat2Z.id, rkey_insert, Hk by assumption.
    case_decide; [|reflexivity]. subst i.
    replace (Z.to_nat (Z.of_nat n + 1)) with (S n) by lia. rewrite Nat2Z.id in *.
    unfold rkey at 1 2 3 4. rewrite !cols_take4 by lia. rewrite Hx.
    destruct n as [|[|[|[|]]]]; [| | | |lia]; rewrite ?Nat.add_0_r; reflexivity.
  - cbv beta. intros d' [Hl Hk]. split; [exact Hl|]. intros i Hi. rewrite Hk by exact Hi.
    case_decide; [|reflexivity]. change (Z.to_nat (0 + Z.of_nat 4)) with 4%nat.
    unfold rkey. rewrite !cols_take4 by lia. reflexivity.
Qed.

Lemma cpy_ok d e t f : length d = 64%nat -> length e = 64%nat -> (t < 16)%nat -> (f < 16)%nat ->
  okp (cpy d e (Z.of_nat (4 * t)) (Z.of_nat (4 * f)))
    (fun d' => length d' = 64%nat /\ forall i, (i < 16)%nat -> rkey d' i = if decide (i = t) then rkey e f else rkey d i).
Proof.
  intros H H0 H1 H2. eapply okp_mono; [exact (blit_ok (fun x : Z => mret x) (fun c => c) d e t f (fun x => eq_refl) H H0 H1 H2)|].
  cbv beta. intros d' [Hl Hk]. split; [exact Hl|]. intros i Hi. rewrite Hk by exact Hi.
  case_decide; [apply list_fmap_id|reflexivity].
Qed.

Lemma mix_ok d e t f : length d = 64%nat -> length e = 64%nat -> (t < 16)%nat -> (f < 16)%nat ->
  okp (mix d e (Z.of_nat (4 * t)) (Z.of_nat (4 * f)))
    (fun d' => length d' = 64%nat /\ forall i, (i < 16)%nat -> rkey d' i = if decide (i = t) then inv_mix_columns (rkey e f) else rkey d i).
Proof.
  intros. apply (blit_ok inv_mcol (mix_column inv_m)); [|assumption..]. intros x.
  eapply okp_mono; [apply (four_tables_ok _ _ _ _ im_ok); intros; apply bval_byte|]. intros t' ->. f_equal.
  rewrite (list_4 (le_bytes 4 x) (length_le_bytes 4 x)), <- !bval_le_bytes by lia. reflexivity.
Qed.

(** The decryption key schedule is the one of the equivalent inverse cipher. *)
Lemma dec_key_ok N e d : (1 <= N < 16)%nat -> length d = 64%nat -> length e = 64%nat ->
  okp (dec_key (Z.of_nat N) e d) (fun d' => length d' = 64%nat /\ dec_keys (rkey e) (rkey d') N).
Proof.
  intros HN Hd He. unfold dec_key, nc.
  replace (4 * Z.of_nat N) with (Z.of_nat (4 * N)) by lia.
  eapply okp_bind; [apply (cpy_ok d e N 0); [assumption..|lia|lia]|]. cbv beta. intros d1 [Hd1 Hk1].
  eapply okp_bind.
  { apply (okp_cfor (fun c d' => length d' = 64%nat /\ forall i, (i <= N)%nat -> (Z.of_nat N - c < Z.of_nat i) ->
      rkey d' i = if decide (0 < i < N)%nat then inv_mix_columns (rkey e (N - i)) else rkey e (N - i))).
    - split; [exact Hd1|]. intros i Hi Hi'. assert (i = N) as -> by lia.
      rewrite decide_False, Hk1, decide_True, Nat.sub_diag by lia. reflexivity.
    - intros c d' Hc [Hl Hk]. assert (exists n, c = Z.of_nat n) as [n ->] by (exists (Z.to_nat c); lia).
      replace (4 * (Z.of_nat N - Z.of_nat n)) with (Z.of_nat (4 * (N - n))) by lia.
      replace (4 * Z.of_nat n) with (Z.of_nat (4 * n)) by lia.
      eapply okp_mono; [apply mix_ok; [assumption..|lia|lia]|]. cbv beta. intros d2 [Hl2 Hk2].
      split; [exact Hl2|]. intros i Hi Hi'. rewrite Hk2 by lia. destruct (decide (i = (N - n)%nat)) as [->|Hne].
      + rewrite decide_True by lia. do 2 f_equal. lia.
      + apply Hk; lia. }
  cbv beta. intros d2 [Hl2 Hk2].
  eapply okp_mono; [apply (cpy_ok d2 e 0 N); [assumption..|lia|lia]|]. cbv beta. intros d3 [Hl3 Hk3].
  split; [exact Hl3|]. intros i Hi. rewrite Hk3 by lia. destruct (decide (i = 0%nat)) as [->|Hne].
  - rewrite decide_False, Nat.sub_0_r by lia. reflexivity.
  - apply Hk2; lia.
Qed.

Lemma window {A} (l : list A) o n m : (o + n <= m)%nat -> take n (drop o (take m l)) = take n (drop o l).
Proof. intros H. rewrite !take_drop_commute, take_take. do 2 f_equal. lia. Qed.

Lemma expand_prefix Nk n w : forall m, (n <= m)%nat -> take (length w + n) (expand Nk m w) = expand Nk n w.
Proof.
  intros m H. induction H as [|m H IH].
  - apply take_ge. rewrite length_expand. lia.
  - cbn [expand]. rewrite take_app_le by (rewrite length_expand; lia). exact IH.
Qed.

(** The schedule that the loop of [set_key] leaves holds the round keys. *)
Lemma repr_round_keys Nk key e n i : repr e (expand Nk n (blocks 4 Nk key)) ->
  (4 * (Nk + 7) - Nk <= n)%nat -> (i <= Nk + 6)%nat -> rkey e i = round_keys Nk key i.
Proof.
  intros [_ Hr] Hn Hi. unfold rkey, round_keys.
  rewrite <- (expand_prefix Nk _ (blocks 4 Nk key) n Hn), <- Hr.
  rewrite length_expand, length_blocks, take_take, window; [reflexivity|lia].
Qed.

Lemma mode_bits (m f : Z) : Z.land (Z.lor (Z.land m (Z.lnot 0x03)) (Z.land (u8 f) 0x03)) 3 = Z.land f 3.
Proof.
  apply Z.bits_inj'. intros k Hk. unfold wrapU. rewrite <- (Z.land_ones f 8) by lia. change (Z.ones 8) with 255.
  rewrite !Z.land_spec, Z.lor_spec, !Z.land_spec, Z.lnot_spec by lia.
  destruct (Z.ltb_spec k 2).
  - assert (k = 0 \/ k = 1) as [-> | ->] by lia; cbn; btauto.
  - rewrite (Z.bits_above_log2 3 k) by (cbn; lia). btauto.
Qed.

Lemma land_low (m : Z) (b : Z) : b = 1 \/ b = 2 -> Z.land m b = Z.land (Z.land m 3) b.
Proof. intros [-> | ->]; rewrite <- Z.land_assoc; reflexivity. Qed.

(** The key of a call of [set_key] that returns [aes_good]. *)
Definition key_ok (Nk : nat) (key : list Z) : Prop :=
  (Nk = 4%nat \/ Nk = 6%nat \/ Nk = 8%nat) /\ Forall (inU 8) key /\ (4 * Nk + slack dm <= length key)%nat.

(** The context that it leaves. *)
Definition ctx_ok (Nk : nat) (key : list Z) (f : Z) (cx : aes) : Prop :=
  Nkey cx = Z.of_nat Nk /\ Nrnd cx = Z.of_nat (Nk + 6) /\ Z.land (mode cx) 3 = Z.land f 3 /\
  length (e_key cx) = 64%nat /\ (forall i, (i <= Nk + 6)%nat -> rkey (e_key cx) i = round_keys Nk key i) /\
  length (d_key cx) = 64%nat /\ (Z.land f 2 <> 0 -> dec_keys (rkey (e_key cx)) (rkey (d_key cx)) (Nk + 6)).

Lemma set_key_expand Nk key e : key_ok Nk key -> length e = 64%nat ->
  okp (e ← key_in dm 4 0 key e;
       let kt := nc * (Nr (Z.of_nat Nk) nc + 1) - Z.of_nat Nk in
       if Z.of_nat Nk =? 4 then key_loop key4_body 4 10 e 0 kt 0
       else if Z.of_nat Nk =? 6 then e ← key_in dm 2 4 key e; key_loop key6_body 6 8 e 0 kt 0
       else if Z.of_nat Nk =? 8 then e ← key_in dm 4 4 key e; key_loop key8_body 8 7 e 0 kt 0
       else mret e)
    (fun e' => length e' = 64%nat /\ forall i, (i <= Nk + 6)%nat -> rkey e' i = round_keys Nk key i).
Proof.
  intros (HNk & Hk & Hl) He.
  eapply okp_bind; [apply (key_in_ok key Hk 4 0); [lia|lia|split; [exact He|reflexivity]]|].
  cbv beta. intros e4 H4. cbv zeta.
  destruct HNk as [-> | [-> | ->]].
  - eapply okp_mono; [apply (key_loop_ok 4 key4_body (blocks 4 4 key) 40 key4_ok (length_blocks 4 4 key) 10 0); [lia..|exact H4]|].
    cbv beta. intros e' He'. split; [apply He'|]. intros i Hi. apply (repr_round_keys 4 key e' 40); [exact He'|lia|lia].
  - eapply okp_bind; [apply (key_in_ok key Hk 2 4); [lia|lia|exact H4]|]. cbv beta. intros e6 H6.
    eapply okp_mono; [apply (key_loop_ok 6 key6_body (blocks 4 6 key) 46 key6_ok (length_blocks 4 6 key) 8 0); [lia..|exact H6]|].
    cbv beta. intros e' He'. split; [apply He'|]. intros i Hi. apply (repr_round_keys 6 key e' 48); [exact He'|lia|lia].
  - eapply okp_bind; [apply (key_in_ok key Hk 4 4); [lia|lia|exact H4]|]. cbv beta. intros e8 H8.
    eapply okp_mono; [apply (key_loop_ok 8 key8_body (blocks 4 8 key) 52 key8_ok (length_blocks 4 8 key) 7 0); [lia..|exact H8]|].
    cbv beta. intros e' He'. split; [apply He'|]. intros i Hi. apply (repr_round_keys 8 key e' 56); [exact He'|lia|lia].
Qed.

Lemma flags_guard (f : Z) : Z.land f 3 <> 0 -> (Z.land f 1 =? 0) && (Z.land f 2 =? 0) = false.
Proof.
  intros H. destruct (Z.eqb_spec (Z.land f 1) 0) as [H1|], (Z.eqb_spec (Z.land f 2) 0) as [H2|]; try reflexivity.
  exfalso. apply H. change 3 with (Z.lor 1 2). rewrite Z.land_lor_distr_r, H1, H2. reflexivity.
Qed.

Lemma set_key_ok Nk key (f : Z) cx : key_ok Nk key -> Z.land f 3 <> 0 ->
  length (e_key cx) = 64%nat -> length (d_key cx) = 64%nat ->
  okp (set_key dm key (Z.of_nat (4 * Nk)) f cx) (fun r => r.1 = aes_good /\ ctx_ok Nk key f r.2).
Proof.
  intros Hkey Hf He Hd. unfold set_key. rewrite (flags_guard f Hf).
  assert (negb (Z.land (Z.of_nat (4 * Nk)) 7 =? 0) || (Z.of_nat (4 * Nk) <? 16) || (32 <? Z.of_nat (4 * Nk)) || false = false
    /\ Z.of_nat (4 * Nk) ≫ 2 = Z.of_nat Nk /\ Nr (Z.of_nat Nk) nc = Z.of_nat (Nk + 6)) as (Hg & Hn & HNr).
  { destruct Hkey as ([-> | [-> | ->]] & _ & _); repeat split; reflexivity. }
  rewrite Hg, Hn. clear Hg Hn. cbv zeta.
  pose proof (set_key_expand Nk key (e_key cx) Hkey He) as HE.
  destruct (key_in dm 4 0 key (e_key cx)) as [e4|]; [|destruct HE]. cbn [mbind res_bind] in *. cbv zeta in HE.
  eapply okp_bind; [exact HE|]. clear HE. cbv beta. intros e [Hle Hre]. rewrite HNr, mode_bits.
  assert (1 <= Nk + 6 < 16)%nat as HN by (destruct Hkey as ([-> | [-> | ->]] & _ & _); lia).
  eapply (okp_bind _ _ (fun d => length d = 64%nat /\ (Z.land f 2 <> 0 -> dec_keys (rkey e) (rkey d) (Nk + 6)))).
  - destruct (Z.eqb_spec (Z.land f 3) enc) as [Hm|Hm]; cbn [negb].
    + split; [exact Hd|]. intros H2. rewrite (land_low f 2), Hm in H2 by now right. destruct (H2 eq_refl).
    + eapply okp_mono; [apply dec_key_ok; assumption|]. cbv beta. intros d [H1 H2]. split; [exact H1|]. intros _. exact H2.
  - cbv beta. intros d [Hld Hdk]. split; [reflexivity|]. unfold ctx_ok. cbn [snd Nkey Nrnd e_key d_key mode].
    rewrite mode_bits. auto 10.
Qed.

(** The refused calls. *)
Lemma set_key_refused key (n_bytes f : Z) cx :
  n_bytes <> 16 /\ n_bytes <> 24 /\ n_bytes <> 32 /\ n_bytes <> 0 \/ n_bytes <> 0 /\ Z.land f 3 = 0 ->
  exists cx', set_key dm key n_bytes f cx = Ok (aes_bad, cx') /\ Z.land (mode cx') 3 = 0 /\
    e_key cx' = e_key cx /\ d_key cx' = d_key cx.
Proof.
  intros H. unfold set_key.
  assert (negb (Z.land n_bytes 7 =? 0) || (n_bytes <? 16) || (32 <? n_bytes) || (Z.land f 1 =? 0) && (Z.land f 2 =? 0) = true) as ->.
  { destruct H as [(H1 & H2 & H3 & H4)|[H1 H2]].
    - change 7 with (Z.ones 3). rewrite Z.land_ones by lia. change (2 ^ 3) with 8.
      destruct (Z.eqb_spec (n_bytes mod 8) 0); [|reflexivity].
      destruct (Z.ltb_spec n_bytes 16); [reflexivity|]. destruct (Z.ltb_spec 32 n_bytes); [reflexivity|]. dlia.
    - rewrite (land_low f 1), (land_low f 2), H2 by auto. apply orb_true_r. }
  rewrite (proj2 (Z.eqb_neq n_bytes 0)) by lia. cbn [negb]. eexists. split; [reflexivity|]. cbn [mode e_key d_key].
  rewrite <- Z.land_assoc. change (Z.land (Z.lnot 3) 3) with 0. rewrite Z.land_0_r. auto.
Qed.
End SetKey.

(** * The claims *)

(** C31: After set_key with a key of 16, 24 or 32 bytes, encrypt computes the cipher of FIPS
    197 and decrypt its inverse cipher, with the key expansion of FIPS 197, on every block and
    for both widths of long (given buffers with room for the last word), each only when the
    flags of set_key allow it and returning aes_bad otherwise. *)
Theorem aes_fips dm Nk key f cx x y : key_ok dm Nk key -> Z.land f 3 <> 0 ->
  length (e_key cx) = 64%nat -> length (d_key cx) = 64%nat ->
  Forall (inU 8) x -> (16 + slack dm <= length x)%nat -> (16 + slack dm <= length y)%nat ->
  okp (set_key dm key (Z.of_nat (4 * Nk)) f cx) (fun '(r, cx') => r = aes_good /\
    (if Z.land f 1 =? 0 then encrypt dm x y cx' = Ok (aes_bad, y)
     else okp (encrypt dm x y cx') (out_ok dm y (Fips.cipher (Nk + 6) (Fips.round_keys Nk key) (blocks 4 4 x)))) /\
    (if Z.land f 2 =? 0 then decrypt dm x y cx' = Ok (aes_bad, y)
     else okp (decrypt dm x y cx') (out_ok dm y (Fips.inv_cipher (Nk + 6) (Fips.round_keys Nk key) (blocks 4 4 x))))).
Proof.
  intros Hkey Hf He Hd Hx Hlx Hly. eapply okp_mono; [apply (set_key_ok dm Nk key f cx); assumption|].
  intros [r cx'] [Hr (HNk & HNr & Hm & Hle & Hrk & Hld & Hdk)]. cbn [fst snd] in *. split; [exact Hr|].
  assert (Nk + 6 = 10 \/ Nk + 6 = 12 \/ Nk + 6 = 14)%nat as HN by (destruct Hkey as [? _]; lia).
  assert (forall b, b = 1 \/ b = 2 -> Z.land (mode cx') b = Z.land f b) as Hb.
  { intros b Hb. rewrite (land_low (mode cx')), (land_low f), Hm by exact Hb. reflexivity. }
  split.
  - destruct (Z.eqb_spec (Z.land f 1) 0) as [H1|H1]; [unfold encrypt; rewrite Hb, H1 by (now left); reflexivity|].
    rewrite <- (cipher_ext _ _ _ Hrk (blocks 4 4 x)). apply encrypt_ok; try assumption. rewrite Hb by (now left). exact H1.
  - destruct (Z.eqb_spec (Z.land f 2) 0) as [H2|H2]; [unfold decrypt; rewrite Hb, H2 by (now right); reflexivity|].
    rewrite <- (inv_cipher_ext _ _ _ Hrk (blocks 4 4 x)). apply decrypt_ok; try assumption.
    + rewrite Hb by (now right). exact H2.
    + intros i Hi. apply rkey_good. lia.
    + apply Hdk, H2.
Qed.

Lemma aes_fips_witness :
  key_ok ILP32 4 (seqZ 0 16) /\
  okp (set_key ILP32 (seqZ 0 16) (Z.of_nat (4 * 4)) 3 fresh_aes) (fun '(r, cx') => r = aes_good /\
    (if Z.land 3 1 =? 0 then encrypt ILP32 (seqZ 16 16) (replicate 16 0) cx' = Ok (aes_bad, replicate 16 0)
     else okp (encrypt ILP32 (seqZ 16 16) (replicate 16 0) cx')
       (out_ok ILP32 (replicate 16 0) (Fips.cipher (4 + 6) (Fips.round_keys 4 (seqZ 0 16)) (blocks 4 4 (seqZ 16 16))))) /\
    (if Z.land 3 2 =? 0 then decrypt ILP32 (seqZ 16 16) (replicate 16 0) cx' = Ok (aes_bad, replicate 16 0)
     else okp (decrypt ILP32 (seqZ 16 16) (replicate 16 0) cx')
       (out_ok ILP32 (replicate 16 0) (Fips.inv_cipher (4 + 6) (Fips.round_keys 4 (seqZ 0 16)) (blocks 4 4 (seqZ 16 16)))))).
Proof.
  assert (key_ok ILP32 4 (seqZ 0 16)) as Hk by (split; [now left|split; by_eval]).
  split; [exact Hk|]. apply (aes_fips ILP32 4 (seqZ 0 16) 3 fresh_aes (seqZ 16 16) (replicate 16 0) Hk);
    by_eval.
Defined.

Section Blocks16.
Implicit Types (l : list Z).

Lemma blocks_take16 l : blocks 4 4 (take 16 l) = blocks 4 4 l.
Proof.
  cbn [blocks]. rewrite !drop_drop. cbn [Nat.add].
  pose proof (fun o H => window l o 4 16 H) as W.
  pose proof (W 0%nat ltac:(lia)) as W0. rewrite !drop_0 in W0. rewrite W0, !W by lia. reflexivity.
Qed.

Lemma blocks_mjoin st : good st -> blocks 4 4 (mjoin st) = st.
Proof.
  intros Hs. apply good_inv in Hs as (? & ? & ? & ? & -> & Ha & Hb & Hc & Hd).
  apply col_inv in Ha as (? & ? & ? & ? & -> & _). apply col_inv in Hb as (? & ? & ? & ? & -> & _).
  apply col_inv in Hc as (? & ? & ? & ? & -> & _). apply col_inv in Hd as (? & ? & ? & ? & -> & _). reflexivity.
Qed.

Lemma mjoin_blocks l : (16 <= length l)%nat -> mjoin (blocks 4 4 l) = take 16 l.
Proof. intros Hl. do 16 (destruct l as [|? l]; [cbn in Hl; lia|]). reflexivity. Qed.
End Blocks16.

(** With a key set for both directions, decrypting the block that encrypt produced gives the
    original block back. *)
Theorem aes_decrypt_encrypt dm Nk key f cx x y z : key_ok dm Nk key -> Z.land f 3 = 3 ->
  length (e_key cx) = 64%nat -> length (d_key cx) = 64%nat -> Forall (inU 8) x -> Forall (inU 8) y ->
  (16 + slack dm <= length x)%nat -> (16 + slack dm <= length y)%nat -> (16 + slack dm <= length z)%nat ->
  okp (set_key dm key (Z.of_nat (4 * Nk)) f cx) (fun '(_, cx') =>
    okp (encrypt dm x y cx') (fun '(_, c) =>
      okp (decrypt dm c z cx') (fun '(r, p) => r = aes_good /\ take 16 p = take 16 x))).
Proof.
  intros Hkey Hf He Hd Hx Hy Hlx Hly Hlz.
  eapply okp_mono; [apply (set_key_ok dm Nk key f cx); first [assumption|lia]|].
  intros [r cx'] [_ (HNk & HNr & Hm & Hle & _ & Hld & Hdk)]. cbn [snd] in *.
  assert (Nk + 6 = 10 \/ Nk + 6 = 12 \/ Nk + 6 = 14)%nat as HN by (destruct Hkey as [? _]; lia).
  assert (Z.land f 2 <> 0) as Hf2 by (rewrite (land_low f 2), Hf by (now right); by_eval).
  assert (forall i, (i <= Nk + 6)%nat -> good (rkey (e_key cx') i)) as Hg by (intros; apply rkey_good; lia).
  pose proof (blocks_good x Hx ltac:(lia)) as Hgx.
  eapply okp_mono; [apply (encrypt_ok dm x y cx' (Nk + 6)); try assumption; rewrite land_low, Hm, Hf by (now left); by_eval|].
  intros [r1 c] (_ & Hlc & Hc & _ & Hbc). cbn [snd] in *.
  eapply okp_mono.
  { apply (decrypt_ok dm c z cx' (Nk + 6) (rkey (e_key cx'))); try assumption; [|exact (Hdk Hf2)|exact (Hbc Hy)|lia].
    rewrite land_low, Hm, Hf by (now right). by_eval. }
  intros [r2 p] (Hr & _ & Hp & _). cbn [fst snd] in *. split; [exact Hr|].
  rewrite <- (blocks_take16 c), Hc, blocks_mjoin in Hp by (apply cipher_good; assumption).
  rewrite Hp, inv_cipher_cipher by first [assumption|lia]. apply mjoin_blocks. lia.
Qed.

Lemma aes_decrypt_encrypt_witness :
  key_ok LP64 8 (seqZ 0 36) /\
  okp (set_key LP64 (seqZ 0 36) (Z.of_nat (4 * 8)) 3 fresh_aes) (fun '(_, cx') =>
    okp (encrypt LP64 (seqZ 16 20) (replicate 20 0) cx') (fun '(_, c) =>
      okp (decrypt LP64 c (replicate 20 0) cx') (fun '(r, p) => r = aes_good /\ take 16 p = take 16 (seqZ 16 20)))).
Proof.
  assert (key_ok LP64 8 (seqZ 0 36)) as Hk by (split; [now right; right|split; by_eval]).
  split; [exact Hk|].
  apply (aes_decrypt_encrypt LP64 8 (seqZ 0 36) 3 fresh_aes (seqZ 16 20) (replicate 20 0) (replicate 20 0) Hk); by_eval.
Defined.

(** set_key refuses every other key length than 16, 24 and 32 bytes and flags without a
    direction, leaves the key schedules as they were and the context in a state in which encrypt
    and decrypt return aes_bad without writing. *)
Theorem aes_key_refused dm key n_bytes f cx x y :
  n_bytes <> 16 /\ n_bytes <> 24 /\ n_bytes <> 32 /\ n_bytes <> 0 \/ n_bytes <> 0 /\ Z.land f 3 = 0 ->
  exists cx', set_key dm key n_bytes f cx = Ok (aes_bad, cx') /\ e_key cx' = e_key cx /\ d_key cx' = d_key cx /\
    encrypt dm x y cx' = Ok (aes_bad, y) /\ decrypt dm x y cx' = Ok (aes_bad, y).
Proof.
  intros H. destruct (set_key_refused dm key n_bytes f cx H) as (cx' & H1 & Hm & H2 & H3). exists cx'.
  split; [exact H1|]. split; [exact H2|]. split; [exact H3|].
  unfold encrypt, decrypt. rewrite (land_low (mode cx') 1), (land_low (mode cx') 2), Hm by auto. split; reflexivity.
Qed.

Lemma aes_key_refused_witness :
  (20 <> 16 /\ 20 <> 24 /\ 20 <> 32 /\ 20 <> 0 \/ 20 <> 0 /\ Z.land 3 3 = 0) /\
  exists cx', set_key ILP32 (seqZ 0 20) 20 3 fresh_aes = Ok (aes_bad, cx') /\
    e_key cx' = e_key fresh_aes /\ d_key cx' = d_key fresh_aes /\
    encrypt ILP32 [] [] cx' = Ok (aes_bad, []) /\ decrypt ILP32 [] [] cx' = Ok (aes_bad, []).
Proof.
  assert (20 <> 16 /\ 20 <> 24 /\ 20 <> 32 /\ 20 <> 0 \/ 20 <> 0 /\ Z.land 3 3 = 0) as H by (left; lia).
  split; [exact H|]. apply (aes_key_refused ILP32 (seqZ 0 20) 20 3 fresh_aes [] [] H).
Defined.

(** With 64-bit long, encrypting a block in an array of exactly 16 bytes reads beyond the
    array: the fourth word is read as eight bytes from offset 12. *)
Theorem aes_lp64_exact_block x y cx : length x = 16%nat -> length (e_key cx) = 64%nat -> Z.land (mode cx) 1 <> 0 ->
  encrypt LP64 x y cx = Err OutOfBounds.
Proof.
  intros Hx He Hm. unfold encrypt. rewrite (proj2 (Z.eqb_neq _ 0) Hm).
  assert (state_in LP64 x (e_key cx) 0 = Err OutOfBounds) as ->; [|reflexivity].
  unfold state_in, word_in. cbn [mapM sizeof_word]. rewrite Hx. cbn [Nat.leb Nat.add Nat.mul mbind res_bind mret res_ret].
  rewrite !aget_total by lia. reflexivity.
Qed.

Lemma aes_lp64_exact_block_witness :
  Z.land (mode (AesCtx 4 10 (replicate 64 0) (replicate 64 0) 3)) 1 <> 0 /\
  encrypt LP64 (seqZ 0 16) (replicate 16 0) (AesCtx 4 10 (replicate 64 0) (replicate 64 0) 3) = Err OutOfBounds.
Proof.
  split; [by_eval|]. apply (aes_lp64_exact_block (seqZ 0 16) (replicate 16 0)); by_eval.
Defined.
