(* ===== verification/Aesxam.v ===== *)
(** The program rijndael (src/mibench/security/rijndael/aesxam.c): file encryption in cipher block
    chaining mode.

    A [char] array is the list of its bytes. *)
From stdpp Require Import base list numbers option tactics.
From Stdlib Require Import ZArith Lia.
From S2P Require Import Prelude Bytes Stdio AesTables Aes.

(** The static variables of [fillrand]. *)
Record rand := Rand { ra : Z; rb : Z; mt : Z; count : Z; r : list Z }.
Definition rand0 : rand := Rand 0 0 1 4 [0; 0; 0; 0].

Section Program.
Context (dm : data_model).

(** [RAND(a,b)]: its value and the new [a] and [b]. *)
Definition RAND (a b : Z) : Z * Z * Z :=
  let a := uL dm (36969 * Z.land a 65535 + a ≫ 16) in
  let b := uL dm (18000 * Z.land b 65535 + b ≫ 16) in
  (uL dm (uL dm (a ≪ 16) + b), a, b).

Definition fillrand_body (i : Z) (s : list Z * rand) : res (list Z * rand) :=
  let '(buf, g) := s in
  g ← (if count g =? 4
       then let '(v, a, b) := RAND (ra g) (rb g) in r' ← word_out dm (r g) 0 v; mret (Rand a b (mt g) 0 r')
       else mret g);
  v ← aget (r g) (count g);
  buf ← aset buf i v;
  mret (buf, Rand (ra g) (rb g) (mt g) (count g + 1) (r g)).

(** The buffer, of which the first [len] bytes are filled, and the static variables. *)
Definition fillrand (buf : list Z) (len : nat) (g : rand) : res (list Z * rand) :=
  let g := if negb (mt g =? 0) then Rand 0xeaf3 0x35fe 0 (count g) (r g) else g in
  cfor len 0 fillrand_body (buf, g).

(** [for(i = 0; i < 16; ++i) a[i] ^= b[i];] *)
Definition xor_loop (a b : list Z) : res (list Z) :=
  cfor 16 0 (fun i a => x ← aget a i; y ← aget b i; aset a i (Z.lxor x y)) a.

(** ** [encfile] *)

(** How the loop of [encfile] ends: at the end of the input, or with an error code. *)
Inductive enc_end :=
  | EncEof (fout : ofile) (inbuf outbuf : list Z) (i l : nat)
  | EncErr (code : Z) (fout : ofile).

Fixpoint enc_loop (fuel : nat) (ctx : aes) (fin : ifile) (fout : ofile) (inbuf outbuf : list Z) (i l : nat) : res enc_end :=
  match fuel with
  | O => Err OutOfFuel
  | S fuel =>
      if ieof fin then mret (EncEof fout inbuf outbuf i l)
      else
        let '(i, inbuf, fin) := fread_into inbuf (16 - l) l fin in
        if (i <? l)%nat then mret (EncEof fout inbuf outbuf i l)
        else
          inbuf ← xor_loop inbuf outbuf;
          '(_, outbuf) ← encrypt dm inbuf outbuf ctx;
          let '(n, fout) := fwrite outbuf fout in
          if negb (n =? 16) then mret (EncErr (-7) fout)
          else enc_loop fuel ctx fin fout inbuf outbuf 16 16
  end.

(** What [encfile] does after its loop. *)
Definition enc_finish (ctx : aes) (e : enc_end) : res (Z * ofile) :=
  match e with
  | EncErr code fout => mret (code, fout)
  | EncEof fout inbuf outbuf i l =>
      let i := if (l =? 15)%nat then S i else i in
      if negb (i =? 0)%nat then
        let inbuf := take i inbuf ++ replicate (16 - i) 0 in
        inbuf ← xor_loop inbuf outbuf;
        '(_, outbuf) ← encrypt dm inbuf outbuf ctx;
        let '(n, fout) := fwrite outbuf fout in
        if negb (n =? 16) then mret (-8, fout) else mret (0, fout)
      else mret (0, fout)
  end.

(** The function value, the output stream and the static variables of [fillrand]; [inbuf] and
    [outbuf] are the contents of the two uninitialised arrays. *)
Definition encfile (inbuf outbuf : list Z) (fin : ifile) (fout : ofile) (ctx : aes) (g : rand) : res (Z * ofile * rand) :=
  '(outbuf, g) ← fillrand outbuf 16 g;
  let flen := Z.of_nat (length (idata fin)) in
  let fin := IFile (idata fin) 0 false in
  let '(_, fout) := fwrite outbuf fout in
  '(inbuf, g) ← fillrand inbuf 1 g;
  b0 ← aget inbuf 0;
  inbuf ← aset inbuf 0 (Z.lor (Z.land (u8 flen) 15) (Z.land b0 (Z.lnot 15)));
  e ← enc_loop (length (idata fin) + 2) ctx fin fout inbuf outbuf 0 15;
  '(code, fout) ← enc_finish ctx e;
  mret (code, fout, g).

(** ** [decfile] *)

Inductive dec_end :=
  | DecEof (fout : ofile) (outbuf : list Z) (l : nat)
  | DecErr (code : Z) (fout : ofile).

(** [bp1] and [bp2] are the contents of the buffers that the two pointers point to. *)
Fixpoint dec_loop (fuel : nat) (ctx : aes) (fin : ifile) (fout : ofile) (bp1 bp2 outbuf : list Z) (l : nat) : res dec_end :=
  match fuel with
  | O => Err OutOfFuel
  | S fuel =>
      let '(i, bp1, fin) := fread_into bp1 0 16 fin in
      if negb (i =? 16)%nat then mret (DecEof fout outbuf l)
      else
        let '(n, fout) := fwrite (take l (drop (16 - l) outbuf)) fout in
        if negb (n =? Z.of_nat l) then mret (DecErr (-11) fout)
        else
          '(_, outbuf) ← decrypt dm bp1 outbuf ctx;
          outbuf ← xor_loop outbuf bp2;
          dec_loop fuel ctx fin fout bp2 bp1 outbuf 16
  end.

(** What [decfile] does after its loop. *)
Definition dec_finish (flen : nat) (e : dec_end) : res (Z * ofile) :=
  match e with
  | DecErr code fout => mret (code, fout)
  | DecEof fout outbuf l =>
      let l := if (l =? 15)%nat then 1%nat else 0%nat in
      let flen := (flen + (1 - l))%nat in
      if negb (flen =? 0)%nat then
        let '(n, fout) := fwrite (take flen (drop l outbuf)) fout in
        if negb (n =? Z.of_nat flen) then mret (-12, fout) else mret (0, fout)
      else mret (0, fout)
  end.

(** [inbuf1], [inbuf2] and [outbuf] are the contents of the three uninitialised arrays. *)
Definition decfile (inbuf1 inbuf2 outbuf : list Z) (fin : ifile) (fout : ofile) (ctx : aes) : res (Z * ofile) :=
  let '(i, inbuf1, fin) := fread_into inbuf1 0 16 fin in
  if negb (i =? 16)%nat then mret (9, fout)
  else
    let '(i, inbuf2, fin) := fread_into inbuf2 0 16 fin in
    if negb (i =? 0)%nat && negb (i =? 16)%nat then mret (-10, fout)
    else
      '(_, outbuf) ← decrypt dm inbuf2 outbuf ctx;
      outbuf ← xor_loop outbuf inbuf1;
      b0 ← aget outbuf 0;
      let flen := Z.to_nat (Z.land b0 15) in
      e ← dec_loop (length (idata fin) + 1) ctx fin fout inbuf1 inbuf2 outbuf 15;
      dec_finish flen e.

(** ** [main] *)

(** The loop over the key digits: an error code, or the rest of the string, the number of digits
    and the key. *)
Fixpoint hex_loop (cp : list Z) (i by_ : Z) (key : list Z) : res (Z + list Z * Z * list Z) :=
  match cp with
  | [] => mret (inr (cp, i, key))
  | c :: cp' =>
      if negb (i <? 64) then mret (inr (cp, i, key))
      else
        let ch := toupper c in
        match (if (48 <=? ch) && (ch <=? 57) then Some (s32 (by_ ≪ 4) + ch - 48)
               else if (65 <=? ch) && (ch <=? 70) then Some (s32 (by_ ≪ 4) + ch - 65 + 10)
               else None) with
        | None => mret (inl (-2))
        | Some by_ =>
            key ← (if Z.land i 1 =? 0 then mret key else aset key ((i + 1) / 2 - 1) (Z.land by_ 0xff));
            hex_loop cp' (i + 1) by_ key
        end
  end.

(** The error code or the key and its length in bytes. *)
Definition parse_key (cp key : list Z) : res (Z + list Z * Z) :=
  e ← hex_loop cp 0 0 key;
  match e with
  | inl err => mret (inl err)
  | inr (cp, i, key) =>
      match cp with
      | _ :: _ => mret (inl (-3))
      | [] => if (i <? 32) || negb (Z.land i 15 =? 0) then mret (inl (-4)) else mret (inr (key, i / 2))
      end
  end.

(** [main] with four arguments: the letter, the key, the contents of the input file and the space for
    the output file when they can be opened, and the initial contents of the local arrays. *)
Definition main (letter : Z) (argv4 : list Z) (infile : option (list Z)) (outfile : option nat)
    (key0 inbuf inbuf2 outbuf : list Z) (ctx0 : aes) : res (Z * option ofile) :=
  if negb (toupper letter =? 68) && negb (toupper letter =? 69) then mret (-1, None)
  else
    k ← parse_key argv4 key0;
    match k with
    | inl err => mret (err, None)
    | inr (key, key_len) =>
        match infile, outfile with
        | None, _ => mret (-5, None)
        | Some _, None => mret (-6, None)
        | Some data, Some n =>
            if toupper letter =? 69 then
              '(_, ctx) ← set_key dm key key_len 1 ctx0;
              '(err, fout, _) ← encfile inbuf outbuf (IFile data 0 false) (OFile [] n) ctx rand0;
              mret (err, Some fout)
            else
              '(_, ctx) ← set_key dm key key_len 2 ctx0;
              '(err, fout) ← decfile inbuf inbuf2 outbuf (IFile data 0 false) (OFile [] n) ctx;
              mret (err, Some fout)
        end
    end.
End Program.

(** An encryption and the decryption of its output. *)
Example rijndael_run :
  let key := [48; 49; 50; 51; 52; 53; 54; 55; 56; 57; 97; 98; 99; 100; 101; 102;
              70; 69; 68; 67; 66; 65; 57; 56; 55; 54; 53; 52; 51; 50; 49; 48] in
  let z := replicate 16 0 in
  match main ILP32 69 key (Some (seqZ 1 40)) (Some 100%nat) (replicate 32 0) z z z fresh_aes with
  | Ok (e1, Some f1) =>
      match main ILP32 100 key (Some (odata f1)) (Some 100%nat) (replicate 32 0) z z z fresh_aes with
      | Ok (e2, Some f2) => (e1, length (odata f1), e2, odata f2) = (0, 64%nat, 0, seqZ 1 40)
      | _ => False
      end
  | _ => False
  end.
Proof. vm_compute. reflexivity. Qed.

(** * Cipher block chaining *)

(** The file as whole blocks. *)
Definition chunks (R : list Z) : list (list Z) := pad_blocks 16 R.
Fixpoint cbc (E : list Z -> list Z) (iv : list Z) (bs : list (list Z)) : list (list Z) :=
  match bs with [] => [] | b :: bs => let c := E (zip_with Z.lxor b iv) in c :: cbc E c bs end.

Section Chunks.
Implicit Types (R a b : list Z).

Lemma chunks_nil : chunks [] = [].
Proof. reflexivity. Qed.

Lemma chunks_last R : (0 < length R <= 16)%nat -> chunks R = [R ++ replicate (16 - length R) 0].
Proof. apply pad_blocks_last. lia. Qed.

Lemma chunks_step R : (16 <= length R)%nat -> chunks R = take 16 R :: chunks (drop 16 R).
Proof. apply pad_blocks_step. lia. Qed.

Lemma chunks_barr R : Forall (inU 8) R -> Forall (barr 16) (chunks R).
Proof.
  remember (length R) as n eqn:Hn. revert R Hn. induction (lt_wf n) as [n _ IH]. intros R -> HR.
  destruct (decide (length R = 0)%nat) as [H0|H0]; [apply nil_length_inv in H0 as ->; constructor|].
  destruct (decide (length R < 16)%nat) as [H|H].
  - rewrite chunks_last by lia. constructor; [|constructor].
    split; [rewrite length_app, length_replicate; lia|]. apply Forall_app_2; [exact HR|].
    apply Forall_replicate. unfold inU. lia.
  - rewrite chunks_step by lia. constructor.
    + split; [rewrite length_take; lia|]. now apply Forall_take.
    + apply (IH (length (drop 16 R))); [rewrite length_drop; lia|reflexivity|]. now apply Forall_drop.
Qed.

Lemma xor_loop_ok a b : length a = 16%nat -> length b = 16%nat -> xor_loop a b = Ok (zip_with Z.lxor a b).
Proof.
  intros Ha Hb. do 16 (destruct a as [|? a]; [discriminate|destruct b as [|? b]; [discriminate|]]).
  destruct a; [|discriminate]. destruct b; [|discriminate]. reflexivity.
Qed.

Lemma xor_barr n a b : barr n a -> barr n b -> barr n (zip_with Z.lxor a b).
Proof.
  intros [Ha Fa] [Hb Fb]. split; [rewrite length_zip_with; lia|]. clear Ha Hb n. revert b Fb.
  induction Fa as [|x a Hx Fa IH]; intros [|y b] Fb; try constructor.
  - apply inU_lxor; [lia|exact Hx|exact (Forall_inv Fb)].
  - apply IH, (Forall_inv_tail Fb).
Qed.

Lemma xor_xor n a b : barr n a -> barr n b -> zip_with Z.lxor (zip_with Z.lxor a b) b = a.
Proof.
  intros [Ha _] [Hb _]. assert (length a = length b) as H by congruence. clear Ha Hb. revert b H.
  induction a as [|x a IH]; intros [|y b] H; try discriminate; [reflexivity|]. cbn [zip_with].
  rewrite IH by (now injection H). f_equal. rewrite Z.lxor_assoc, Z.lxor_nilpotent. apply Z.lxor_0_r.
Qed.
End Chunks.

(** ** The random bytes *)

Section Random.
Definition rand_ok (g : rand) : Prop := barr 4 (r g) /\ 0 <= count g <= 4.

Lemma fillrand_ok buf len g : barr 16 buf -> (len <= 16)%nat -> rand_ok g ->
  okp (fillrand ILP32 buf len g) (fun '(buf', g') => barr 16 buf' /\ rand_ok g').
Proof.
  intros Hbuf Hlen Hg. unfold fillrand.
  eapply okp_mono; [apply (okp_cfor (fun _ s => barr 16 s.1 /\ rand_ok s.2))|].
  - split; [exact Hbuf|]. destruct (negb _); exact Hg.
  - clear buf g Hbuf Hg. intros i [buf g] Hi [Hbuf [Hr Hc]]. cbn [fst snd] in *. unfold fillrand_body.
    apply (okp_bind _ _ (fun g => barr 4 (r g) /\ 0 <= count g < 4)).
    + destruct (Z.eqb_spec (count g) 4); [|split; [exact Hr|lia]].
      destruct (RAND ILP32 (ra g) (rb g)) as [[v a] b].
      eapply okp_bind; [apply (word_out_ok ILP32 (r g) 0 v); change (slack ILP32) with 0%nat; destruct Hr; lia|].
      intros r' (Hl & _ & _ & Hb). destruct Hr as [Hr1 Hr2]. split; [|cbn; lia]. split; [cbn; lia|exact (Hb Hr2)].
    + intros g' [Hr' Hc']. rewrite aget_total by (destruct Hr'; lia). cbn [mbind res_bind].
      unfold aset. rewrite (proj2 (Z.leb_le _ _)), (proj2 (Z.ltb_lt _ _)) by (destruct Hbuf; lia).
      cbn [andb mbind res_bind mret res_ret okp fst snd]. split; [|split; [exact Hr'|cbn; lia]].
      destruct Hbuf as [Hl Hb]. split; [now rewrite length_insert|]. apply Forall_insert; [exact Hb|].
      destruct Hr' as [Hlr Hbr]. eapply Forall_lookup_1; [exact Hbr|]. apply list_lookup_lookup_total_lt. lia.
  - intros [buf' g']. auto.
Qed.

Lemma land_nibble x b : Z.land (Z.lor (Z.land (u8 x) 15) (Z.land b (Z.lnot 15))) 15 = x mod 16.
Proof.
  unfold wrapU. change (x mod 16) with (x mod 2 ^ 4). rewrite <- (Z.land_ones x 8), <- (Z.land_ones x 4) by lia.
  change (Z.ones 8) with 255. change (Z.ones 4) with 15.
  rewrite Z.land_lor_distr_l, <- !Z.land_assoc. change (Z.land (Z.lnot 15) 15) with 0.
  rewrite Z.land_0_r, Z.lor_0_r. reflexivity.
Qed.

Lemma nibble_byte x b : inU 8 b -> inU 8 (Z.lor (Z.land (u8 x) 15) (Z.land b (Z.lnot 15))).
Proof.
  intros Hb. apply inU_lor; [lia| |apply inU_land_l; [lia|exact Hb]].
  apply inU_land_l; [lia|]. apply wrapU_range. lia.
Qed.
End Random.

Lemma res_bind_assoc {A B C} (m : res A) (f : A -> res B) (g : B -> res C) :
  (m ≫= f) ≫= g = m ≫= (fun a => f a ≫= g).
Proof. destruct m; reflexivity. Qed.

(** ** The two files *)

Section Files.
Context (E D : list Z -> list Z).
Context (HE : forall x, barr 16 x -> barr 16 (E x)).
Context (HD : forall x, barr 16 x -> barr 16 (D x)) (HDE : forall x, barr 16 x -> D (E x) = x).

(** The context encrypts with [E]; the context decrypts with [D]. *)
Definition enc_with (ctx : aes) : Prop := forall x y, barr 16 x -> barr 16 y -> encrypt ILP32 x y ctx = Ok (aes_good, E x).
Definition dec_with (ctx : aes) : Prop := forall x y, barr 16 x -> barr 16 y -> decrypt ILP32 x y ctx = Ok (aes_good, D x).

(** The loop with what remains of the file, where the byte before the first block counts as read. *)
Lemma enc_loop_ok ctx data (He : enc_with ctx) : Forall (inU 8) data ->
  forall fuel pos fout inbuf outbuf i l pend, barr 16 inbuf -> barr 16 outbuf ->
  l = 15%nat \/ l = 16%nat -> take (16 - l) inbuf = pend ->
  (length data - pos < fuel)%nat -> (pos <= length data)%nat -> (16 - l + (length data - pos) + 16 <= room fout)%nat ->
  okp (e ← enc_loop ILP32 fuel ctx (IFile data pos false) fout inbuf outbuf i l; enc_finish ILP32 ctx e)
    (fun r => r.1 = 0 /\ odata r.2 = odata fout ++ mjoin (cbc E outbuf (chunks (pend ++ drop pos data)))).
Proof.
  intros Hdata fuel. induction fuel as [|fuel IH]; intros pos fout inbuf outbuf i l pend Hin Hout Hl Hp Hf Hpos Hroom; [lia|].
  cbn [enc_loop ieof]. unfold fread_into, fread. cbn [idata ipos ieof].
  set (d := take l (drop pos data)). set (R := pend ++ drop pos data).
  assert (length pend = 16 - l)%nat as Hlp by (subst pend; rewrite length_take; destruct Hin; lia).
  assert (length R = 16 - l + (length data - pos))%nat as HR by (unfold R; rewrite length_app, length_drop; lia).
  assert (length d = min l (length data - pos)) as Hd by (unfold d; rewrite length_take, length_drop; lia).
  assert (Forall (inU 8) R) as HRb.
  { unfold R. apply Forall_app_2; [subst pend; apply Forall_take, Hin|apply Forall_drop, Hdata]. }
  rewrite Hp. destruct (Nat.ltb_spec (length d) l) as [Hlt|Hge].
  - cbn [mbind res_bind mret res_ret enc_finish].
    assert (d = drop pos data) as Ed by (apply take_ge; rewrite length_drop; lia).
    assert ((if (l =? 15)%nat then S (length d) else length d) = length R) as Ei.
    { rewrite HR, Hd. destruct Hl as [-> | ->]; cbn [Nat.eqb]; lia. }
    rewrite Ei. destruct (Nat.eqb_spec (length R) 0) as [E0|E0]; cbn [negb].
    { split; [reflexivity|]. apply nil_length_inv in E0. cbn [snd]. rewrite E0. cbn. now rewrite app_nil_r. }
    assert (take (length R) (pend ++ d ++ drop (16 - l + length d) inbuf) = R) as ->.
    { rewrite app_assoc, Ed. fold R. rewrite take_app_le by lia. apply take_ge. lia. }
    assert (chunks R = [R ++ replicate (16 - length R) 0]) as Ec by (apply chunks_last; lia).
    pose proof (chunks_barr R HRb) as HB. rewrite Ec in HB. apply Forall_inv in HB.
    rewrite xor_loop_ok by first [apply HB|apply Hout]. cbn [mbind res_bind].
    pose proof (xor_barr 16 _ _ HB Hout) as HX. rewrite (He _ _ HX Hout). cbn [mbind res_bind].
    destruct (HE _ HX) as [HlE _].
    rewrite fwrite_all by lia. rewrite HlE. cbn [Z.of_nat Z.eqb negb]. split; [reflexivity|]. cbn [snd odata].
    rewrite Ec. cbn [cbc mjoin list_join]. now rewrite app_nil_r.
  - assert (pend ++ d ++ drop (16 - l + length d) inbuf = take 16 R) as ->.
    { rewrite drop_ge, app_nil_r by (destruct Hin; lia). unfold R, d. rewrite take_app_ge by lia. do 2 f_equal. lia. }
    assert (barr 16 (take 16 R)) as HB by (split; [rewrite length_take; lia|apply Forall_take, HRb]).
    rewrite xor_loop_ok by first [apply HB|apply Hout]. cbn [mbind res_bind].
    pose proof (xor_barr 16 _ _ HB Hout) as HX. rewrite (He _ _ HX Hout). cbn [mbind res_bind].
    pose proof (HE _ HX) as HC. destruct HC as [HlE HbE].
    rewrite fwrite_all by lia. rewrite HlE. cbn [Z.of_nat Z.eqb negb].
    cbn [orb]. replace (length d) with l by lia.
    eapply okp_mono; [apply (IH (pos + l)%nat (OFile (odata fout ++ E (zip_with Z.lxor (take 16 R) outbuf)) (room fout - 16))
      (zip_with Z.lxor (take 16 R) outbuf) (E (zip_with Z.lxor (take 16 R) outbuf)) 16%nat 16%nat []);
      first [exact HX|exact (conj HlE HbE)|now right|reflexivity|cbn [room]; lia]|].
    intros [e f] [He0 Hf0]. cbn [fst snd odata] in *. split; [exact He0|]. rewrite Hf0.
    rewrite (chunks_step R) by lia. cbn [cbc mjoin list_join]. rewrite <- app_assoc. do 3 f_equal.
    assert (drop 16 R = [] ++ drop (pos + l) data) as ->; [|reflexivity].
    unfold R. rewrite drop_app_ge, drop_drop by lia. cbn [app]. f_equal. lia.
Qed.

Lemma encfile_ok ctx data inbuf outbuf n : enc_with ctx -> Forall (inU 8) data -> barr 16 inbuf -> barr 16 outbuf ->
  (length data + 48 <= n)%nat ->
  okp (encfile ILP32 inbuf outbuf (IFile data 0 false) (OFile [] n) ctx rand0) (fun '(e, f, _) => e = 0 /\
    exists iv b, barr 16 iv /\ inU 8 b /\ Z.land b 15 = Z.of_nat (length data) mod 16 /\
      odata f = iv ++ mjoin (cbc E iv (chunks (b :: data)))).
Proof.
  intros He Hdata Hin Hout Hn. unfold encfile.
  eapply okp_bind; [apply (fillrand_ok outbuf 16 rand0 Hout); [lia|by_eval]|]. intros [iv g] [Hiv Hg]. cbn [idata].
  rewrite fwrite_all by (cbn; destruct Hiv; lia). cbn [odata room app].
  eapply okp_bind; [apply (fillrand_ok inbuf 1 g Hin); [lia|exact Hg]|]. intros [inb g'] [Hinb Hg'].
  destruct (lookup_lt_is_Some_2 inb 0) as [b0 Hb0]; [destruct Hinb; lia|].
  rewrite (proj2 (aget_ok inb 0 b0) (conj (Z.le_refl 0) Hb0)). cbn [mbind res_bind].
  set (b := Z.lor _ _). assert (inU 8 b) as Hb.
  { apply nibble_byte. eapply Forall_lookup_1; [apply Hinb|exact Hb0]. }
  unfold aset. rewrite (proj2 (Z.ltb_lt _ _)) by (destruct Hinb; lia). cbn [Z.leb Z.compare andb mbind res_bind].
  assert (barr 16 (<[Z.to_nat 0 := b]> inb)) as Hinb'.
  { destruct Hinb as [Hl Hf]. split; [now rewrite length_insert|now apply Forall_insert]. }
  pose proof (enc_loop_ok ctx data He Hdata (length data + 2) 0 (OFile iv (n - length iv)) _ iv 0 15 [b] Hinb' Hiv
    (or_introl eq_refl)) as H.
  assert (take (16 - 15) (<[Z.to_nat 0 := b]> inb) = [b]) as Hp.
  { destruct inb as [|x inb]; [destruct Hinb; discriminate|reflexivity]. }
  rewrite <- res_bind_assoc. eapply okp_bind.
  - apply (H Hp); [lia|lia|]. cbn [room]. destruct Hiv. lia.
  - intros [code f] [Hc Hf]. cbn [fst snd odata okp mret res_ret] in *. split; [exact Hc|].
    exists iv, b. split; [exact Hiv|]. split; [exact Hb|]. split; [|exact Hf].
    unfold b. apply land_nibble.
Qed.

(** ** Decryption *)

(** The bytes that [decfile] writes from the plain blocks [p :: ps], when [l] bytes of the first are
    part of the file. *)
Fixpoint emit (flen l : nat) (p : list Z) (ps : list (list Z)) : list Z :=
  match ps with
  | [] => let o := if (l =? 15)%nat then 1%nat else 0%nat in take (flen + (1 - o)) (drop o p)
  | q :: ps => take l (drop (16 - l) p) ++ emit flen 16 q ps
  end.

Lemma length_emit flen ps : forall l p, barr 16 p -> Forall (barr 16) ps ->
  (length (emit flen l p ps) <= 16 * S (length ps))%nat.
Proof.
  induction ps as [|q ps IH]; intros l p Hp Hps; cbn [emit].
  - rewrite length_take, length_drop. cbn [length]. destruct Hp. lia.
  - rewrite length_app, length_take, length_drop. cbn [length].
    specialize (IH 16%nat q (Forall_inv Hps) (Forall_inv_tail Hps)). destruct Hp. lia.
Qed.

Lemma cbc_barr bs : forall iv, barr 16 iv -> Forall (barr 16) bs -> Forall (barr 16) (cbc E iv bs).
Proof.
  induction bs as [|b bs IH]; intros iv Hiv Hbs; cbn [cbc]; constructor.
  - apply HE, xor_barr; [exact (Forall_inv Hbs)|exact Hiv].
  - apply IH; [|exact (Forall_inv_tail Hbs)]. apply HE, xor_barr; [exact (Forall_inv Hbs)|exact Hiv].
Qed.

(** The loop when the blocks [cs] are left of the input and [bp2] is the last one read. *)
Lemma dec_loop_ok ctx flen (Hd : dec_with ctx) : forall ps fuel pre fout bp1 bp2 outbuf l,
  barr 16 bp1 -> barr 16 bp2 -> barr 16 outbuf -> Forall (barr 16) ps -> l = 15%nat \/ l = 16%nat -> (flen < 16)%nat ->
  (length ps < fuel)%nat -> (16 * S (length ps) <= room fout)%nat ->
  okp (e ← dec_loop ILP32 fuel ctx (IFile (pre ++ mjoin (cbc E bp2 ps)) (length pre) false) fout bp1 bp2 outbuf l;
       dec_finish flen e)
    (fun r => r.1 = 0 /\ odata r.2 = odata fout ++ emit flen l outbuf ps).
Proof.
  intros ps. induction ps as [|p ps IH]; intros fuel pre fout bp1 bp2 outbuf l H1 H2 Ho Hps Hl Hfl Hf Hroom;
    (destruct fuel as [|fuel]; [lia|]); cbn [dec_loop]; unfold fread_into, fread; cbn [idata ipos ieof];
    rewrite drop_app_ge, Nat.sub_diag, drop_0 by lia.
  - cbn [cbc mjoin list_join]. rewrite take_nil. cbn [length Nat.eqb negb mbind res_bind mret res_ret dec_finish emit].
    set (o := if (l =? 15)%nat then 1%nat else 0%nat).
    assert (length (take (flen + (1 - o)) (drop o outbuf)) = flen + (1 - o))%nat as Hlen.
    { rewrite length_take, length_drop. destruct Ho as [-> _]. unfold o. destruct Hl as [-> | ->]; cbn [Nat.eqb]; lia. }
    destruct (Nat.eqb_spec (flen + (1 - o)) 0) as [E0|E0]; cbn [negb].
    + rewrite E0 in *. split; [reflexivity|]. cbn [snd]. now rewrite take_0, app_nil_r.
    + rewrite fwrite_all by (cbn [length] in Hroom; unfold o in *; destruct Hl as [-> | ->]; cbn [Nat.eqb] in *; lia).
      rewrite Hlen, Z.eqb_refl. cbn [negb]. split; reflexivity.
  - cbn [cbc mjoin list_join]. set (c := E (zip_with Z.lxor p bp2)).
    pose proof (Forall_inv Hps) as Hp. apply Forall_inv_tail in Hps.
    pose proof (xor_barr 16 p bp2 Hp H2) as Hx. pose proof (HE _ Hx) as Hc. fold c in Hc. pose proof Hc as [Hlc _].
    rewrite take_app_le, (take_ge c) by lia. rewrite Hlc. cbn [Nat.eqb negb take app Nat.add].
    rewrite (drop_ge bp1), app_nil_r, (take_0 bp1) by (destruct H1; lia). cbn [app].
    assert (length (take l (drop (16 - l) outbuf)) = l) as Hlen.
    { rewrite length_take, length_drop. destruct Ho as [-> _]. destruct Hl as [-> | ->]; lia. }
    rewrite fwrite_all by (cbn [length] in Hroom; lia). rewrite Hlen, Z.eqb_refl. cbn [negb].
    rewrite (Hd c outbuf Hc Ho). cbn [mbind res_bind]. rewrite (HDE _ Hx : D c = _).
    rewrite xor_loop_ok by first [apply Hx|apply H2]. cbn [mbind res_bind]. rewrite (xor_xor 16 p bp2 Hp H2).
    cbn [orb Nat.ltb Nat.leb]. rewrite app_assoc. replace (length pre + 16)%nat with (length (pre ++ c)) by (rewrite length_app; lia).
    eapply okp_mono; [apply (IH fuel (pre ++ c) (OFile (odata fout ++ take l (drop (16 - l) outbuf)) (room fout - l)) bp2 c p 16%nat);
      first [assumption|now right|cbn [length room] in *; lia]|].
    intros [e f] [He Hf']. cbn [fst snd odata emit] in *. split; [exact He|]. rewrite Hf', <- app_assoc. reflexivity.
Qed.

Lemma length_cbc bs : forall iv, length (cbc E iv bs) = length bs.
Proof. induction bs as [|b bs IH]; intros iv; cbn [cbc length]; [reflexivity|]. now rewrite IH. Qed.

Lemma length_mjoin16 (bs : list (list Z)) : Forall (barr 16) bs -> length (mjoin bs) = (16 * length bs)%nat.
Proof.
  induction 1 as [|b bs [Hb _] _ IH]; [reflexivity|]. rewrite mjoin_cons. cbn [length]. rewrite length_app. lia.
Qed.

(** [decfile] on the cipher blocks of a non-empty list of plain blocks. *)
Lemma decfile_ok ctx (Hd : dec_with ctx) iv p ps inbuf1 inbuf2 outbuf n : barr 16 iv -> Forall (barr 16) (p :: ps) ->
  barr 16 inbuf1 -> barr 16 inbuf2 -> barr 16 outbuf -> (16 * S (length ps) <= n)%nat ->
  okp (decfile ILP32 inbuf1 inbuf2 outbuf (IFile (iv ++ mjoin (cbc E iv (p :: ps))) 0 false) (OFile [] n) ctx)
    (fun r => r.1 = 0 /\ odata r.2 = emit (Z.to_nat (Z.land (p !!! 0%nat) 15)) 15 p ps).
Proof.
  intros Hiv Hps H1 H2 Ho Hn. unfold decfile, fread_into, fread. cbn [idata ipos ieof].
  pose proof (Forall_inv Hps) as Hp. pose proof Hiv as [Hli _].
  pose proof (xor_barr 16 p iv Hp Hiv) as Hx. cbn [cbc]. rewrite mjoin_cons. set (c := E (zip_with Z.lxor p iv)).
  pose proof (HE _ Hx : barr 16 c) as Hc. pose proof Hc as [Hlc _].
  rewrite drop_0, take_app_le, (take_ge iv) by lia. rewrite Hli. cbn [Nat.eqb negb Nat.add].
  rewrite (drop_ge inbuf1), app_nil_r, (take_0 inbuf1) by (destruct H1; lia). cbn [app].
  rewrite (drop_app_ge iv) by lia. rewrite Hli, Nat.sub_diag, drop_0.
  rewrite take_app_le, (take_ge c) by lia. rewrite Hlc. cbn [Nat.eqb negb andb Nat.add orb Nat.ltb Nat.leb].
  rewrite (drop_ge inbuf2), app_nil_r, (take_0 inbuf2) by (destruct H2; lia). cbn [app].
  rewrite (Hd c outbuf Hc Ho). cbn [mbind res_bind]. rewrite (HDE _ Hx : D c = _).
  rewrite xor_loop_ok by first [apply Hx|apply Hiv]. cbn [mbind res_bind]. rewrite (xor_xor 16 p iv Hp Hiv).
  rewrite aget_total by (destruct Hp; lia). change (Z.to_nat 0) with 0%nat. cbn [mbind res_bind].
  assert (length (mjoin (cbc E c ps)) = 16 * length ps)%nat as Hlm.
  { rewrite length_mjoin16, length_cbc; [reflexivity|]. apply cbc_barr; [exact Hc|exact (Forall_inv_tail Hps)]. }
  pose proof (dec_loop_ok ctx (Z.to_nat (Z.land (p !!! 0%nat) 15)) Hd ps
    (length (iv ++ c ++ mjoin (cbc E c ps)) + 1) (iv ++ c) (OFile [] n) iv c p 15%nat Hiv Hc Hp (Forall_inv_tail Hps)
    (or_introl eq_refl)) as H.
  rewrite <- app_assoc, !length_app, Hli, Hlc, Hlm in H. rewrite !length_app, Hli, Hlc.
  rewrite Hlm.
  apply H; [|lia|cbn [room]; lia].
  pose proof (Z.mod_pos_bound (p !!! 0%nat) 16 ltac:(lia)). change 15 with (Z.ones 4). rewrite Z.land_ones by lia.
  change (2 ^ 4) with 16. lia.
Qed.

Lemma emit_chunks flen : forall R l p ps, chunks R = p :: ps -> (0 < length R)%nat -> l = 15%nat \/ l = 16%nat ->
  flen = ((length R - 1) mod 16)%nat -> emit flen l p ps = drop (16 - l) R.
Proof.
  intros R. remember (length R) as n eqn:Hn. revert R Hn. induction (lt_wf n) as [n _ IH].
  intros R -> l p ps Hc H0 Hl Hf. destruct (decide (length R <= 16)%nat) as [H|H].
  - rewrite chunks_last in Hc by lia. injection Hc as <- <-. cbn [emit].
    rewrite Nat.mod_small in Hf by lia. subst flen. destruct Hl as [-> | ->]; cbn [Nat.eqb].
    + rewrite drop_app_le by lia. rewrite take_app_le by (rewrite length_drop; lia).
      apply take_ge. rewrite length_drop. lia.
    + rewrite !drop_0, take_app_le by lia. apply take_ge. lia.
  - rewrite chunks_step in Hc by lia. injection Hc as <- Hc.
    assert (length (drop 16 R) = length R - 16)%nat as Hd by apply length_drop.
    destruct ps as [|q ps].
    { exfalso. destruct (drop 16 R) as [|x R'] eqn:E'; [cbn in Hd; lia|].
      assert (1 <= length (chunks (x :: R')))%nat; [|rewrite Hc in *; cbn in *; lia].
      unfold chunks. rewrite length_pad_blocks. cbn [length]. apply Nat.div_le_lower_bound; lia. }
    cbn [emit]. rewrite (IH (length (drop 16 R)) ltac:(lia) (drop 16 R) eq_refl 16%nat q ps Hc) by
      first [lia|rewrite Hd, Hf; replace (length R - 1)%nat with (1 * 16 + (length R - 16 - 1))%nat by lia;
             apply (block_add 16 1); lia].
    rewrite drop_0. rewrite <- (take_drop 16 R) at 3. rewrite drop_app_le by (rewrite length_take; lia).
    f_equal. apply take_ge. rewrite length_drop, length_take. lia.
Qed.
End Files.

(** ** The two directions of the cipher *)

Section Cipher.
Implicit Types (Nk : nat) (key x y : list Z).

Definition block_enc Nk key x : list Z := mjoin (Fips.cipher (Nk + 6) (Fips.round_keys Nk key) (blocks 4 4 x)).
Definition block_dec Nk key x : list Z := mjoin (Fips.inv_cipher (Nk + 6) (Fips.round_keys Nk key) (blocks 4 4 x)).

Lemma round_keys_good Nk key i : key_ok ILP32 Nk key -> (i <= Nk + 6)%nat -> good (Fips.round_keys Nk key i).
Proof.
  intros Hk Hi. pose proof (set_key_expand ILP32 Nk key (replicate 64 0) Hk (length_replicate 64 0)) as H.
  apply okp_ok in H as (e & _ & Hl & Hr). rewrite <- Hr by exact Hi. apply rkey_good.
  destruct Hk as [? _]. lia.
Qed.

Lemma mjoin_good st : good st -> barr 16 (mjoin st).
Proof.
  intros Hs. apply good_inv in Hs as (a & b & c & d & -> & Ha & Hb & Hc & Hd).
  cbn [mjoin list_join]. destruct Ha, Hb, Hc, Hd.
  split; [rewrite !length_app; cbn; lia|]. repeat apply Forall_app_2; try assumption. constructor.
Qed.

Lemma block_good x : barr 16 x -> good (blocks 4 4 x).
Proof. intros [Hl Hx]. apply blocks_good; [exact Hx|lia]. Qed.

Lemma block_enc_barr Nk key x : key_ok ILP32 Nk key -> barr 16 x -> barr 16 (block_enc Nk key x).
Proof.
  intros Hk Hx. apply mjoin_good, cipher_good; [|now apply block_good]. intros. now apply round_keys_good.
Qed.

Lemma block_dec_enc Nk key x : key_ok ILP32 Nk key -> barr 16 x -> block_dec Nk key (block_enc Nk key x) = x.
Proof.
  intros Hk Hx. pose proof (block_good x Hx) as Hg.
  assert (forall i, (i <= Nk + 6)%nat -> good (Fips.round_keys Nk key i)) as Hr by (intros; now apply round_keys_good).
  unfold block_dec, block_enc. rewrite blocks_mjoin by (apply cipher_good; assumption).
  rewrite inv_cipher_cipher by first [assumption|lia]. destruct Hx as [Hl _].
  rewrite mjoin_blocks by lia. apply take_ge. lia.
Qed.

(** With arrays of exactly 16 bytes the output is determined. *)
Lemma out_block y st (m : res (Z * list Z)) : length y = 16%nat -> okp m (out_ok ILP32 y st) -> m = Ok (aes_good, mjoin st).
Proof.
  intros Hy H. apply okp_ok in H as ([e o] & -> & He & Hl & Ho & _). cbn [fst snd] in *. subst e.
  rewrite take_ge in Ho by lia. now subst o.
Qed.

Lemma key_rounds Nk key : key_ok ILP32 Nk key -> (Nk + 6 = 10 \/ Nk + 6 = 12 \/ Nk + 6 = 14)%nat.
Proof. intros [H _]. lia. Qed.

Lemma set_key_enc Nk key cx : key_ok ILP32 Nk key -> length (e_key cx) = 64%nat -> length (d_key cx) = 64%nat ->
  okp (set_key ILP32 key (Z.of_nat (4 * Nk)) 1 cx) (fun p => enc_with (block_enc Nk key) p.2).
Proof.
  intros Hk He Hd. eapply okp_mono; [apply (set_key_ok ILP32 Nk key 1 cx); first [assumption|by_eval]|].
  intros [e ctx] [_ (_ & HNr & Hm & Hle & Hrk & _)]. cbn [snd] in *. intros x y Hx Hy.
  unfold block_enc. rewrite <- (cipher_ext _ _ _ Hrk (blocks 4 4 x)). apply (out_block y); [apply Hy|].
  apply encrypt_ok; try assumption; [|now apply key_rounds in Hk|apply Hx|destruct Hx; change (slack ILP32) with 0%nat; lia|
    destruct Hy; change (slack ILP32) with 0%nat; lia].
  rewrite land_low, Hm by (now left). by_eval.
Qed.

Lemma set_key_dec Nk key cx : key_ok ILP32 Nk key -> length (e_key cx) = 64%nat -> length (d_key cx) = 64%nat ->
  okp (set_key ILP32 key (Z.of_nat (4 * Nk)) 2 cx) (fun p => dec_with (block_dec Nk key) p.2).
Proof.
  intros Hk He Hd. eapply okp_mono; [apply (set_key_ok ILP32 Nk key 2 cx); first [assumption|by_eval]|].
  intros [e ctx] [_ (_ & HNr & Hm & Hle & Hrk & Hld & Hdk)]. cbn [snd] in *. intros x y Hx Hy.
  unfold block_dec. rewrite <- (inv_cipher_ext _ _ _ Hrk (blocks 4 4 x)). apply (out_block y); [apply Hy|].
  apply decrypt_ok; try assumption; [|now apply key_rounds in Hk| |apply Hdk; by_eval|apply Hx|
    destruct Hx; change (slack ILP32) with 0%nat; lia|destruct Hy; change (slack ILP32) with 0%nat; lia].
  - rewrite land_low, Hm by (now right). by_eval.
  - intros i Hi. apply rkey_good. apply key_rounds in Hk. lia.
Qed.
End Cipher.

(** ** The key on the command line *)

Section Key.
Implicit Types (s key : list Z) (i c : Z) (m : nat).

(** The value of a hexadecimal digit. *)
Definition hexd (c : Z) : option Z :=
  if (48 <=? c) && (c <=? 57) then Some (c - 48)
  else if (65 <=? c) && (c <=? 70) then Some (c - 55)
  else if (97 <=? c) && (c <=? 102) then Some (c - 87) else None.
Definition is_hex (c : Z) : bool := match hexd c with Some _ => true | None => false end.
Definition hexv (c : Z) : Z := default 0 (hexd c).
Fixpoint hex_bytes s : list Z :=
  match s with c1 :: c2 :: s => 16 * hexv c1 + hexv c2 :: hex_bytes s | _ => [] end.

Lemma digit_step c by_ :
  (if (48 <=? toupper c) && (toupper c <=? 57) then Some (s32 (by_ ≪ 4) + toupper c - 48)
   else if (65 <=? toupper c) && (toupper c <=? 70) then Some (s32 (by_ ≪ 4) + toupper c - 65 + 10) else None) =
  (fun d => s32 (by_ ≪ 4) + d) <$> hexd c.
Proof.
  unfold toupper, hexd.
  destruct (Z.leb_spec 97 c), (Z.leb_spec c 122), (Z.leb_spec 48 c), (Z.leb_spec c 57), (Z.leb_spec 65 c),
    (Z.leb_spec c 70), (Z.leb_spec c 102); cbn [andb fmap option_fmap option_map]; try lia; zcase; zcase; try reflexivity; try lia; f_equal; lia.
Qed.

Lemma hexd_range c d : hexd c = Some d -> 0 <= d < 16.
Proof.
  unfold hexd. destruct (Z.leb_spec 48 c), (Z.leb_spec c 57), (Z.leb_spec 65 c), (Z.leb_spec c 70),
    (Z.leb_spec 97 c), (Z.leb_spec c 102); cbn [andb]; try discriminate; intros [= <-]; lia.
Qed.

Lemma hexv_range c : 0 <= hexv c < 16.
Proof. unfold hexv. destruct (hexd c) as [d|] eqn:E; [apply (hexd_range c d E)|cbn; lia]. Qed.

(** Two digits make a byte, whatever came before. *)
Lemma two_digits (x d1 d2 : Z) : 0 <= d1 < 16 -> 0 <= d2 < 16 ->
  Z.land (s32 ((s32 (x ≪ 4) + d1) ≪ 4) + d2) 0xff = 16 * d1 + d2.
Proof.
  intros H1 H2. change 0xff with (Z.ones 8). rewrite Z.land_ones by lia.
  rewrite !Z.shiftl_mul_pow2 by lia. change (2 ^ 4) with 16. unfold wrapS.
  change (2 ^ (32 - 1)) with 2147483648. change (2 ^ 32) with 4294967296. change (2 ^ 8) with 256. dlia.
Qed.

Lemma odd_land i : Z.land (2 * i) 1 = 0 /\ Z.land (2 * i + 1) 1 = 1.
Proof.
  assert (forall x, Z.land x 1 = x mod 2) as H by (intros x; apply (Z.land_ones x 1); lia).
  rewrite !H. split; dlia.
Qed.

Lemma hex_bytes_bytes s : Forall (inU 8) (hex_bytes s).
Proof.
  induction s as [|c|c1 c2 s IH] using list_ind2; cbn [hex_bytes]; constructor; [|exact IH].
  pose proof (hexv_range c1). pose proof (hexv_range c2). unfold inU. lia.
Qed.
Lemma hex_loop_ok : forall s m by_ key, Nat.Even (length s) -> forallb is_hex s = true -> (2 * m + length s <= 64)%nat ->
  barr 32 key ->
  exists key', hex_loop s (Z.of_nat (2 * m)) by_ key = Ok (inr ([], Z.of_nat (2 * m + length s), key')) /\
    barr 32 key' /\ take (m + length s / 2) key' = take m key ++ hex_bytes s.
Proof.
  intros s. induction s as [|c|c1 c2 s IH] using list_ind2; intros m by_ key Hev Hs Hm Hk.
  - exists key. cbn [hex_loop length hex_bytes]. rewrite Nat.add_0_r, app_nil_r. cbn [Nat.div Nat.divmod fst Nat.sub].
    rewrite Nat.add_0_r. auto.
  - destruct Hev as [k Hev]. cbn in Hev. lia.
  - cbn [forallb] in Hs. apply andb_prop in Hs as [Hc1 Hs]. apply andb_prop in Hs as [Hc2 Hs].
    unfold is_hex in Hc1, Hc2. destruct (hexd c1) as [d1|] eqn:E1; [|discriminate]. destruct (hexd c2) as [d2|] eqn:E2; [|discriminate].
    cbn [length] in *. destruct (odd_land (Z.of_nat m)) as [Hev0 Hod].
    replace (Z.of_nat (2 * m)) with (2 * Z.of_nat m) by lia.
    cbn [hex_loop]. rewrite digit_step, E1. cbn [fmap option_fmap option_map].
    rewrite (proj2 (Z.ltb_lt (2 * Z.of_nat m) 64)), Hev0 by lia. cbn [negb Z.eqb mbind res_bind mret res_ret].
    rewrite digit_step, E2. cbn [fmap option_fmap option_map].
    rewrite (proj2 (Z.ltb_lt (2 * Z.of_nat m + 1) 64)), Hod by lia. cbn [negb Z.eqb mbind res_bind mret res_ret].
    replace ((2 * Z.of_nat m + 1 + 1) / 2 - 1) with (Z.of_nat m) by dlia.
    rewrite two_digits by (eapply hexd_range; eassumption).
    unfold aset. rewrite (proj2 (Z.leb_le _ _)), (proj2 (Z.ltb_lt _ _)) by (destruct Hk; lia). cbn [andb mbind res_bind].
    replace (2 * Z.of_nat m + 1 + 1) with (Z.of_nat (2 * S m)) by lia.
    destruct (IH (S m) (s32 ((s32 (by_ ≪ 4) + d1) ≪ 4) + d2) (<[Z.to_nat (Z.of_nat m) := 16 * d1 + d2]> key)) as (key' & H1 & H2 & H3).
    + destruct Hev as [k Hk']. exists (k - 1)%nat. lia.
    + exact Hs.
    + lia.
    + destruct Hk as [Hl Hb]. split; [now rewrite length_insert|]. apply Forall_insert; [exact Hb|].
      pose proof (hexd_range _ _ E1). pose proof (hexd_range _ _ E2). unfold inU. lia.
    + destruct Hk as [Hk _]. exists key'. split; [rewrite H1; do 4 f_equal; lia|]. split; [exact H2|].
      replace (S (S (length s))) with (1 * 2 + length s)%nat by lia. rewrite Nat.div_add_l by lia.
      replace (m + (1 + length s / 2))%nat with (S m + length s / 2)%nat by lia. rewrite H3, Nat2Z.id.
      rewrite (take_S_r _ m (16 * d1 + d2)) by (apply list_lookup_insert_eq; lia).
      rewrite take_insert_ge, <- app_assoc by lia. cbn [hex_bytes app]. unfold hexv. rewrite E1, E2. reflexivity.
Qed.


Lemma parse_key_ok s key Nk : forallb is_hex s = true -> length s = (8 * Nk)%nat -> Nk = 4%nat \/ Nk = 6%nat \/ Nk = 8%nat ->
  barr 32 key -> exists key', parse_key s key = Ok (inr (key', Z.of_nat (4 * Nk))) /\ barr 32 key' /\ take (4 * Nk) key' = hex_bytes s.
Proof.
  intros Hs Hl HNk Hk. destruct (hex_loop_ok s 0 0 key) as (key' & H1 & H2 & H3); [exists (4 * Nk)%nat; lia|exact Hs|lia|exact Hk|].
  exists key'. unfold parse_key. change (hex_loop s 0 0 key) with (hex_loop s (Z.of_nat (2 * 0)) 0 key). rewrite H1. cbn [mbind res_bind].
  split; [|split; [exact H2|]].
  - rewrite Hl. destruct HNk as [-> | [-> | ->]]; reflexivity.
  - rewrite Hl, take_0 in H3. cbn [app] in H3. rewrite <- H3. f_equal. replace (8 * Nk)%nat with (4 * Nk * 2)%nat by lia.
    rewrite Nat.div_mul; lia.
Qed.

Lemma hex_loop_total : forall s i by_ key, 0 <= i -> length key = 32%nat ->
  okp (hex_loop s i by_ key) (fun e => match e with
    | inl err => err = -2 /\ forallb is_hex (take (Z.to_nat (64 - i)) s) = false
    | inr (cp, n, key') => forallb is_hex (take (Z.to_nat (64 - i)) s) = true /\ cp = drop (Z.to_nat (64 - i)) s /\
        (cp = [] -> n = i + Z.of_nat (length s)) end).
Proof.
  intros s. induction s as [|c s IH]; intros i by_ key Hi Hk; cbn [hex_loop].
  - rewrite take_nil, drop_nil. split; [reflexivity|]. split; [reflexivity|]. intros _. cbn. lia.
  - destruct (Z.ltb_spec i 64) as [H64|H64]; cbn [negb].
    2: { replace (Z.to_nat (64 - i)) with 0%nat by lia. split; [reflexivity|]. split; [reflexivity|]. discriminate. }
    replace (Z.to_nat (64 - i)) with (S (Z.to_nat (64 - (i + 1)))) by lia. cbn [take drop forallb].
    assert (is_hex c = match hexd c with Some _ => true | None => false end) as -> by reflexivity.
    rewrite digit_step. destruct (hexd c) as [d|]; cbn [fmap option_fmap option_map]; [|split; reflexivity].
    eapply (okp_bind _ _ (fun key => length key = 32%nat)).
    { destruct (Z.eqb_spec (Z.land i 1) 0) as [Hz|Hz]; [exact Hk|].
      assert (Z.land i 1 = i mod 2) as Em by (apply (Z.land_ones i 1); lia).
      unfold aset. rewrite (proj2 (Z.leb_le _ _)), (proj2 (Z.ltb_lt _ _)) by dlia. cbn [andb okp]. now rewrite length_insert. }
    intros key' Hk'. eapply okp_mono; [apply IH; [lia|exact Hk']|]. cbn [andb length].
    intros [err|[[cp n] key2]]; [auto|]. intros (H1 & H2 & H3). split; [exact H1|]. split; [exact H2|].
    intros H. rewrite (H3 H). lia.
Qed.
End Key.

Section Whole.
Implicit Types (key x : list Z).

Lemma blocks_prefix n : forall (a : list Z), blocks 4 n (take (4 * n) a) = blocks 4 n a.
Proof.
  induction n as [|n IH]; intros a; [reflexivity|]. rewrite !blocks_S.
  replace (4 * S n)%nat with (4 + 4 * n)%nat by lia. f_equal; [rewrite take_take; f_equal; lia|].
  rewrite <- (IH (drop 4 a)), take_drop_commute. reflexivity.
Qed.

(** The cipher only depends on the key bytes that are used. *)
Lemma round_keys_prefix Nk key key' : take (4 * Nk) key = take (4 * Nk) key' -> Fips.round_keys Nk key = Fips.round_keys Nk key'.
Proof. intros H. unfold Fips.round_keys. rewrite <- (blocks_prefix Nk key), H, blocks_prefix. reflexivity. Qed.

Lemma chunks_length (R : list Z) : length (chunks R) = ((length R + 15) / 16)%nat.
Proof. apply length_pad_blocks. Qed.

Lemma key_ok_of Nk key : Nk = 4%nat \/ Nk = 6%nat \/ Nk = 8%nat -> barr 32 key -> key_ok ILP32 Nk key.
Proof. intros HNk [Hl Hb]. split; [exact HNk|]. split; [exact Hb|]. change (slack ILP32) with 0%nat. lia. Qed.
End Whole.

(** * The claims *)

(** C32: The program with a 32-bit long (with a 64-bit one its word_in and word_out leave
    the buffers of 16 bytes): with a key of 32, 48 or 64 hexadecimal digits, encrypting any file
    and decrypting the result with the same key succeeds and gives the file back byte for byte,
    whatever its length, whatever the uninitialised buffers hold, on an output device with
    enough space. *)
Theorem rijndael_roundtrip s Nk data (e d : Z) n1 n2 key1 key2 b1 b2 b3 b4 b5 b6 ctx1 ctx2 :
  forallb is_hex s = true -> length s = (8 * Nk)%nat -> Nk = 4%nat \/ Nk = 6%nat \/ Nk = 8%nat ->
  toupper e = 69 -> toupper d = 68 ->
  Forall (inU 8) data -> (length data + 48 <= n1)%nat -> (length data + 16 <= n2)%nat ->
  barr 32 key1 -> barr 32 key2 -> Forall (barr 16) [b1; b2; b3; b4; b5; b6] ->
  Forall (fun a => length a = 64%nat) [e_key ctx1; d_key ctx1; e_key ctx2; d_key ctx2] ->
  okp (main ILP32 e s (Some data) (Some n1) key1 b1 b2 b3 ctx1) (fun '(err1, f1) => err1 = 0 /\
    okp (main ILP32 d s (odata <$> f1) (Some n2) key2 b4 b5 b6 ctx2) (fun '(err2, f2) => err2 = 0 /\
      odata <$> f2 = Some data)).
Proof.
  intros Hs Hl HNk He Hd Hdata Hn1 Hn2 Hk1 Hk2 Hb Hctx.
  repeat match goal with H : Forall _ (_ :: _) |- _ =>
    let H' := fresh in pose proof (Forall_inv H) as H'; apply Forall_inv_tail in H end.
  destruct (parse_key_ok s key1 Nk Hs Hl HNk Hk1) as (k1 & P1 & K1 & T1).
  destruct (parse_key_ok s key2 Nk Hs Hl HNk Hk2) as (k2 & P2 & K2 & T2).
  pose proof (key_ok_of Nk k1 HNk K1) as O1. pose proof (key_ok_of Nk k2 HNk K2) as O2.
  unfold main at 1. rewrite He. cbn [Z.eqb negb andb Pos.eqb]. rewrite P1. cbn [mbind res_bind].
  eapply okp_bind; [apply (set_key_enc Nk k1 ctx1 O1); assumption|]. intros [r1 c1] Hc1. cbn [snd] in Hc1.
  eapply okp_bind; [apply (encfile_ok (block_enc Nk k1)); first [assumption|intros; now apply block_enc_barr]|].
  intros [[err1 f1] g] (-> & iv & b & Hiv & Hbb & Hnib & Hf1). cbn [okp mret res_ret]. split; [reflexivity|].
  cbn [fmap option_fmap option_map]. rewrite Hf1.
  unfold main. rewrite Hd. cbn [Z.eqb negb andb Pos.eqb]. rewrite P2. cbn [mbind res_bind].
  eapply okp_bind; [apply (set_key_dec Nk k2 ctx2 O2); assumption|]. intros [r2 c2] Hc2. cbn [snd] in Hc2.
  destruct (chunks (b :: data)) as [|p ps] eqn:Ech.
  { exfalso. apply (f_equal length) in Ech. rewrite chunks_length in Ech. cbn [length] in Ech.
    pose proof (Nat.div_le_lower_bound (S (length data) + 15) 16 1 ltac:(lia)). lia. }
  assert (Forall (barr 16) (p :: ps)) as Hps by (rewrite <- Ech; apply chunks_barr; now constructor).
  assert (forall x, barr 16 x -> block_dec Nk k2 (block_enc Nk k1 x) = x) as Hinv.
  { intros x Hx. unfold block_enc. rewrite (round_keys_prefix Nk k1 k2) by congruence. now apply block_dec_enc. }
  eapply okp_bind.
  { apply (decfile_ok (block_enc Nk k1) (block_dec Nk k2)); try assumption.
    - intros; now apply block_enc_barr.
    - apply (f_equal length) in Ech. rewrite chunks_length in Ech. cbn [length] in Ech.
      pose proof (Nat.mul_div_le (S (length data) + 15) 16 ltac:(lia)). lia. }
  intros [err2 f2] [He2 Hf2]. cbn [fst snd okp mret res_ret fmap option_fmap option_map] in *. split; [exact He2|].
  rewrite Hf2. f_equal.
  assert (p !!! 0%nat = b) as ->.
  { destruct (decide (length (b :: data) <= 16)%nat).
    - rewrite chunks_last in Ech by (cbn [length] in *; lia). injection Ech as <- _. reflexivity.
    - rewrite chunks_step in Ech by lia. injection Ech as <- _. reflexivity. }
  rewrite Hnib.
  apply (emit_chunks _ (b :: data) 15%nat p ps Ech); [cbn; lia|now left|].
  cbn [length]. rewrite Nat.sub_succ, Nat.sub_0_r. rewrite <- (Nat2Z.id (length data mod 16)), Nat2Z.inj_mod. reflexivity.
Qed.

Lemma rijndael_roundtrip_witness :
  length (replicate 48 65) = (8 * 6)%nat /\
  okp (main ILP32 101 (replicate 48 65) (Some [1; 2; 3]) (Some 51%nat) (replicate 32 0)
         (replicate 16 7) (replicate 16 7) (replicate 16 7) fresh_aes) (fun '(err1, f1) => err1 = 0 /\
    okp (main ILP32 100 (replicate 48 65) (odata <$> f1) (Some 20%nat) (replicate 32 9)
           (replicate 16 8) (replicate 16 8) (replicate 16 8) fresh_aes) (fun '(err2, f2) => err2 = 0 /\
      odata <$> f2 = Some [1; 2; 3])).
Proof.
  split; [reflexivity|].
  apply (rijndael_roundtrip (replicate 48 65) 6 [1; 2; 3] 101 100 51 20 (replicate 32 0) (replicate 32 9)
    (replicate 16 7) (replicate 16 7) (replicate 16 7) (replicate 16 8) (replicate 16 8) (replicate 16 8) fresh_aes fresh_aes);
    [reflexivity|reflexivity|now right; left|reflexivity|reflexivity|by_eval..].
Defined.

(** The key argument is accepted exactly when it has 32, 48 or 64 digits, all hexadecimal;
    otherwise the exit code is -2 for a digit that is not hexadecimal among the first 64, -3 for
    a longer key and -4 for a wrong length. *)
Theorem parse_key_refuses s key : length key = 32%nat ->
  okp (parse_key s key) (fun e => match e with
    | inl err =>
        if forallb is_hex (take 64 s)
        then if (64 <? length s)%nat then err = -3
             else err = -4 /\ length s <> 32%nat /\ length s <> 48%nat /\ length s <> 64%nat
        else err = -2
    | inr (_, n) => forallb is_hex s = true /\ 2 * n = Z.of_nat (length s) /\
        (length s = 32 \/ length s = 48 \/ length s = 64)%nat
    end).
Proof.
  intros Hk. unfold parse_key. eapply okp_bind; [apply hex_loop_total; [lia|exact Hk]|].
  change (Z.to_nat (64 - 0)) with 64%nat.
  intros [err|[[cp n] key']]; [intros [-> ->]; reflexivity|]. intros (H1 & H2 & H3).
  destruct cp as [|x cp].
  - specialize (H3 eq_refl). assert (length s <= 64)%nat as Hl.
    { apply (f_equal length) in H2. rewrite length_drop in H2. cbn in H2. lia. }
    rewrite take_ge in H1 by lia.
    assert (Z.land n 15 = n mod 16) as Hm by (apply (Z.land_ones n 4); lia). rewrite Hm.
    destruct (Z.ltb_spec n 32); cbn [orb].
    { cbn [okp mret res_ret]. rewrite take_ge, H1 by lia. rewrite (proj2 (Nat.ltb_ge 64 _)) by lia. lia. }
    destruct (Z.eqb_spec (n mod 16) 0); cbn [negb okp mret res_ret].
    + split; [exact H1|]. split; dlia.
    + rewrite take_ge, H1 by lia. rewrite (proj2 (Nat.ltb_ge 64 _)) by lia. split; [reflexivity|].
      repeat split; intros E; dlia.
  - cbn [okp mret res_ret]. rewrite H1. apply (f_equal length) in H2. rewrite length_drop in H2. cbn [length] in H2.
    rewrite (proj2 (Nat.ltb_lt 64 _)) by lia. reflexivity.
Qed.

Lemma parse_key_refuses_witness :
  length (replicate 32 0) = 32%nat /\ okp (parse_key (replicate 65 65) (replicate 32 0)) (fun e => match e with
    | inl err =>
        if forallb is_hex (take 64 (replicate 65 65))
        then if (64 <? length (replicate 65 65))%nat then err = -3
             else err = -4 /\ length (replicate 65 65) <> 32%nat /\ length (replicate 65 65) <> 48%nat /\ length (replicate 65 65) <> 64%nat
        else err = -2
    | inr (_, n) => forallb is_hex (replicate 65 65) = true /\ 2 * n = Z.of_nat (length (replicate 65 65)) /\
        (length (replicate 65 65) = 32 \/ length (replicate 65 65) = 48 \/ length (replicate 65 65) = 64)%nat
    end).
Proof. split; [reflexivity|]. apply (parse_key_refuses (replicate 65 65) (replicate 32 0)). reflexivity. Defined.

(** An input file that only holds the initialisation vector is not reported as corrupt: the
    decryption of the uninitialised buffer [inbuf2] is written. *)
Theorem decfile_no_block Nk key ctx iv inbuf1 inbuf2 outbuf n : dec_with (block_dec Nk key) ctx ->
  barr 16 (block_dec Nk key inbuf2) -> barr 16 iv -> barr 16 inbuf1 -> barr 16 inbuf2 -> barr 16 outbuf -> (16 <= n)%nat ->
  let p := zip_with Z.lxor (block_dec Nk key inbuf2) iv in
  okp (decfile ILP32 inbuf1 inbuf2 outbuf (IFile iv 0 false) (OFile [] n) ctx)
    (fun r => r.1 = 0 /\ odata r.2 = take (Z.to_nat (Z.land (p !!! 0%nat) 15)) (drop 1 p)).
Proof.
  intros Hd HD Hiv H1 H2 Ho Hn p. pose proof (xor_barr 16 _ iv HD Hiv : barr 16 p) as Hp. pose proof Hiv as [Hli _].
  unfold decfile, fread_into, fread. cbn [idata ipos ieof].
  rewrite Nat.add_1_r. generalize (length iv) at 1 as fuel. intros fuel.
  rewrite drop_0, (take_ge iv) by lia. rewrite Hli. cbn [Nat.eqb negb Nat.add].
  rewrite (drop_ge inbuf1), app_nil_r, (take_0 inbuf1) by (destruct H1; lia). cbn [app].
  rewrite (drop_ge iv), take_nil by lia. cbn [length Nat.eqb negb andb Nat.add orb Nat.ltb Nat.leb app].
  rewrite (take_0 inbuf2), drop_0. cbn [app].
  rewrite (Hd inbuf2 outbuf H2 Ho). cbn [mbind res_bind].
  rewrite xor_loop_ok by first [apply HD|apply Hiv]. cbn [mbind res_bind]. fold p.
  rewrite aget_total by (destruct Hp; lia). change (Z.to_nat 0) with 0%nat. cbn [mbind res_bind].
  set (flen := Z.to_nat _).
  cbn [dec_loop]. unfold fread_into, fread. cbn [idata ipos ieof].
  rewrite (drop_ge iv), take_nil by lia. cbn [length Nat.eqb negb mbind res_bind mret res_ret dec_finish Nat.sub].
  rewrite Nat.add_0_r. destruct (Nat.eqb_spec flen 0) as [->|Hf]; cbn [negb okp mret res_ret]; [auto|].
  assert (length (take flen (drop 1 p)) = flen) as Hlen.
  { rewrite length_take, length_drop. destruct Hp as [-> _]. pose proof (Z.mod_pos_bound (p !!! 0%nat) 16 ltac:(lia)).
    unfold flen. change 15 with (Z.ones 4). rewrite Z.land_ones by lia. change (2 ^ 4) with 16. lia. }
  rewrite fwrite_all by (rewrite Hlen; unfold flen in *; cbn [room]; rewrite <- Hlen; rewrite length_take, length_drop; destruct Hp; lia).
  rewrite Hlen, Z.eqb_refl. cbn [negb okp mret res_ret fst snd odata app]. auto.
Qed.
