(* ===== verification/Dijkstra.v ===== *)
(** Shortest paths (src/mibench/network/dijkstra/dijkstra_large.c; dijkstra_small.c only differs in
    the number of runs).

    The program keeps its queue in a linked list and relabels nodes as often as it finds a
    shorter distance. The model has the global arrays and the queue as explicit state; the
    elements of the linked list are only reachable through [qHead], so the list is a list.
    A failing [malloc], which ends the program, is not modelled. *)
From stdpp Require Import base list numbers option tactics.
From Stdlib Require Import ZArith Lia.
From S2P Require Import Prelude DijkstraData.

Definition NUM_NODES : Z := 100.
Definition NONE : Z := 9999.

Record NODE := Node { iDist : Z; iPrev : Z }.
Record QITEM := QItem { q_iNode : Z; q_iDist : Z; q_iPrev : Z }.
(** The globals [qHead], [g_qCount], [rgnNodes], and [iNode], [iDist] and [iPrev] together as [cur]. *)
Record dstate := DState { qHead : list QITEM; g_qCount : Z; rgnNodes : list NODE; cur : QITEM }.

Definition enqueue (iNode iDist iPrev : Z) (s : dstate) : dstate :=
  DState (qHead s ++ [QItem iNode iDist iPrev]) (s32 (g_qCount s + 1)) (rgnNodes s) (cur s).

(** [dequeue (&iNode, &iDist, &iPrev)]: an empty queue leaves the three globals as they are. *)
Definition dequeue (s : dstate) : dstate :=
  match qHead s with
  | [] => s
  | q :: rest => DState rest (s32 (g_qCount s - 1)) (rgnNodes s) q
  end.

Definition qcount (s : dstate) : Z := g_qCount s.

(** [rgnNodes[i]] and [rgnNodes[i] = n]. *)
Definition node_get (s : dstate) (i : Z) : res NODE :=
  if 0 <=? i then match rgnNodes s !! Z.to_nat i with Some n => Ok n | None => Err OutOfBounds end
  else Err OutOfBounds.
Definition node_set (s : dstate) (i : Z) (n : NODE) : res dstate :=
  if (0 <=? i) && (i <? Z.of_nat (length (rgnNodes s)))
  then Ok (DState (qHead s) (g_qCount s) (<[Z.to_nat i := n]> (rgnNodes s)) (cur s)) else Err OutOfBounds.
(** [AdjMatrix[i][j]]. *)
Definition adj (A : list (list Z)) (i j : Z) : res Z :=
  if 0 <=? i then match A !! Z.to_nat i with Some row => aget row j | None => Err OutOfBounds end
  else Err OutOfBounds.

Section Model.
Context (AdjMatrix : list (list Z)).

(** The body of the inner loop, for the dequeued [iNode] and [iDist]. *)
Definition relax_body (i : Z) (s : dstate) : res dstate :=
  let iNode := q_iNode (cur s) in
  let iDist' := q_iDist (cur s) in
  iCost ← adj AdjMatrix iNode i;
  if negb (iCost =? NONE) then
    n ← node_get s i;
    if (NONE =? iDist n) || (s32 (iCost + iDist') <? iDist n) then
      s ← node_set s i (Node (s32 (iDist' + iCost)) iNode);
      mret (enqueue i (s32 (iDist' + iCost)) iNode s)
    else mret s
  else mret s.

(** [while (qcount() > 0)]. *)
Fixpoint dijkstra_loop (fuel : nat) (s : dstate) : res dstate :=
  match fuel with
  | O => Err OutOfFuel
  | S fuel =>
      if 0 <? qcount s then
        s ← cfor (Z.to_nat NUM_NODES) 0 relax_body (dequeue s);
        dijkstra_loop fuel s
      else mret s
  end.

(** The loop that resets the nodes. *)
Definition reset_body (ch : Z) (s : dstate) : res dstate := node_set s ch (Node NONE NONE).

(** More iterations than two for every unit of distance that the labels can lose; see
    [dijkstra_loop_total]. *)
Definition dijkstra_fuel : nat := Z.to_nat (2 * NUM_NODES * NONE + 2).

Definition dijkstra (chStart chEnd : Z) (s : dstate) : res dstate :=
  s ← cfor (Z.to_nat NUM_NODES) 0 reset_body s;
  if chStart =? chEnd then mret s
  else
    n ← node_get s chStart;
    s ← node_set s chStart (Node 0 NONE);
    dijkstra_loop dijkstra_fuel (enqueue chStart 0 NONE s).

(** The loop of [main], [runs] iterations, on [j] and the globals. *)
Definition main_body (i : Z) (js : Z * dstate) : res (Z * dstate) :=
  let '(j, s) := js in
  let j := Z.rem j NUM_NODES in
  s ← dijkstra i j s;
  mret (j + 1, s).
Definition main_loop (runs : nat) (s : dstate) : res (Z * dstate) :=
  cfor runs 0 main_body (Z.quot NUM_NODES 2, s).
End Model.

(** The state the program starts from: the globals are zero. *)
Definition init_state : dstate := DState [] 0 (replicate 100 (Node 0 0)) (QItem 0 0 0).

Example dijkstra_0_50 :
  (s ← dijkstra setArray 0 50 init_state; node_get s 50) = Ok (Node 1 51).
Proof. vm_compute. reflexivity. Qed.

(** * Specification *)

Section Spec.
Context (A : list (list Z)).

(** The cost of the edge from [u] to [v], [NONE] if there is none. *)
Definition cost (u v : Z) : Z := A !!! Z.to_nat u !!! Z.to_nat v.

Definition node (v : Z) : Prop := 0 <= v < NUM_NODES.

(** [walk s v d]: a walk of total cost [d] leads from [s] to [v]. *)
Inductive walk (s : Z) : Z -> Z -> Prop :=
  | walk_nil : walk s s 0
  | walk_edge u v d : walk s u d -> node v -> cost u v <> NONE -> walk s v (d + cost u v).

(** [d] is the distance from [s] to [v]. *)
Definition distance (s v d : Z) : Prop := walk s v d /\ forall d', walk s v d' -> d <= d'.
End Spec.

(** A square matrix of edge costs that keep every sum along a simple path below [NONE]. *)
Definition matrix_ok (A : list (list Z)) : Prop :=
  length A = 100%nat /\
  Forall (fun row => length row = 100%nat /\ Forall (fun c => c = NONE \/ 0 <= c <= 100) row) A.
#[global] Instance matrix_ok_dec A : Decision (matrix_ok A).
Proof. unfold matrix_ok. apply _. Defined.

Section Proof.
Context (A : list (list Z)) (HA : matrix_ok A) (src : Z) (Hsrc : node src).
Implicit Types (s : dstate) (u v w d i : Z) (p : list Z) (lab : Z -> Z) (q : QITEM).

Lemma adj_ok u v : node u -> node v -> adj A u v = Ok (cost A u v).
Proof.
  intros Hu Hv. destruct HA as [Hl Hr]. unfold node, NUM_NODES in *. unfold adj, cost.
  destruct (Z.leb_spec 0 u); [|lia].
  rewrite (list_lookup_lookup_total_lt A (Z.to_nat u)) by lia.
  apply aget_total. rewrite (proj1 (Forall_lookup_1 _ _ (Z.to_nat u) _ Hr
    (list_lookup_lookup_total_lt A (Z.to_nat u) ltac:(lia)))). lia.
Qed.

Lemma cost_range u v : node u -> node v -> cost A u v = NONE \/ 0 <= cost A u v <= 100.
Proof.
  intros Hu Hv. destruct HA as [Hl Hr]. unfold node, NUM_NODES in *. unfold cost.
  destruct (Forall_lookup_1 _ _ (Z.to_nat u) _ Hr (list_lookup_lookup_total_lt A (Z.to_nat u) ltac:(lia))) as [Hrl Hc].
  apply (Forall_lookup_1 _ _ (Z.to_nat v) _ Hc). apply list_lookup_lookup_total_lt. lia.
Qed.

(** The label of a node. *)
Definition lab s v : Z := iDist (default (Node NONE NONE) (rgnNodes s !! Z.to_nat v)).
Definition pred s v : Z := iPrev (default (Node NONE NONE) (rgnNodes s !! Z.to_nat v)).

(** ** Simple paths whose prefixes the labels have caught up with *)

Inductive spath lab : list Z -> Z -> Z -> Prop :=
  | spath_src : lab src <= 0 -> spath lab [src] src 0
  | spath_step p u v d : spath lab p u d -> v ∉ p -> node v -> cost A u v <> NONE ->
      lab v <= d + cost A u v -> spath lab (v :: p) v (d + cost A u v).

Definition good lab v d : Prop := exists p, spath lab p v d.

Lemma spath_node lab p v d : spath lab p v d -> node v /\ Forall node p /\ NoDup p /\ (1 <= length p)%nat.
Proof.
  induction 1 as [H|p u v d _ (IH1 & IH2 & IH3 & IH4) Hv Hn _ _].
  - split; [exact Hsrc|]. split; [apply Forall_cons; [exact Hsrc|apply Forall_nil]|]. split; [|cbn; lia].
    apply NoDup_singleton.
  - split; [exact Hn|]. split; [now constructor|]. split; [now constructor|cbn; lia].
Qed.

Lemma nodes_bound p : Forall node p -> NoDup p -> (length p <= 100)%nat.
Proof.
  intros Hp Hd. change 100%nat with (length (seqZ 0 100)). apply submseteq_length, NoDup_submseteq; [exact Hd|].
  intros v Hv. apply elem_of_seqZ. rewrite Forall_forall in Hp. apply list_elem_of_In, Hp in Hv.
  unfold node, NUM_NODES in Hv. lia.
Qed.

Lemma spath_cost lab p v d : spath lab p v d -> 0 <= d <= 100 * (Z.of_nat (length p) - 1).
Proof.
  induction 1 as [H|p u v d Hp IH Hv Hn Hc _]; [cbn; lia|]. destruct (spath_node _ _ _ _ Hp) as (Hu & _).
  destruct (cost_range u v Hu Hn); [contradiction|]. cbn [length]. lia.
Qed.

Lemma good_bound lab v d : good lab v d -> node v /\ 0 <= d <= 9900.
Proof.
  intros [p Hp]. pose proof (spath_cost _ _ _ _ Hp). destruct (spath_node _ _ _ _ Hp) as (Hv & Hn & Hd & _).
  pose proof (nodes_bound p Hn Hd). split; [exact Hv|lia].
Qed.

Lemma spath_le lab p v d : spath lab p v d -> lab v <= d /\ forall w, w ∈ p -> lab w <= d.
Proof.
  induction 1 as [H|p u v d Hp [_ IH] Hv Hn Hc Hl].
  - split; [exact H|]. intros w Hw. apply list_elem_of_singleton in Hw as ->. exact H.
  - split; [exact Hl|]. destruct (spath_node _ _ _ _ Hp) as (Hu & _).
    destruct (cost_range u v Hu Hn); [contradiction|].
    intros w Hw. apply elem_of_cons in Hw as [->|Hw]; [exact Hl|]. specialize (IH w Hw). lia.
Qed.

Lemma spath_mono lab lab' p v d : (forall w, lab' w <= lab w) -> spath lab p v d -> spath lab' p v d.
Proof.
  intros Hle. induction 1 as [H|p u v d Hp IH Hv Hn Hc Hl]; [constructor|constructor; try assumption].
  - specialize (Hle src). lia.
  - specialize (Hle v). lia.
Qed.

Lemma good_mono lab lab' v d : (forall w, lab' w <= lab w) -> good lab v d -> good lab' v d.
Proof. intros Hle [p Hp]. exists p. exact (spath_mono _ _ _ _ _ Hle Hp). Qed.

(** A shorter label for [v] through [u] comes from a simple path again. *)
Lemma good_step lab lab' u v d :
  (forall w, lab' w <= lab w) -> good lab u d -> node v -> cost A u v <> NONE ->
  d + cost A u v < lab v -> lab' v <= d + cost A u v -> good lab' v (d + cost A u v).
Proof.
  intros Hle [p Hp] Hv Hc Hlt Hl. exists (v :: p). constructor; try assumption.
  - exact (spath_mono _ _ _ _ _ Hle Hp).
  - intros Hin. destruct (spath_le _ _ _ _ Hp) as [_ H]. specialize (H v Hin).
    destruct (spath_node _ _ _ _ Hp) as (Hu & _). destruct (cost_range u v Hu Hv); [contradiction|]. lia.
Qed.

(** A node without a label is not on the path, so that there is room for one more edge. *)
Lemma good_unlabelled lab u v d :
  good lab u d -> node v -> cost A u v <> NONE -> lab v = NONE -> d + cost A u v < NONE.
Proof.
  intros [p Hp] Hv Hc Hl. pose proof (spath_cost _ _ _ _ Hp) as Hd. destruct (spath_le _ _ _ _ Hp) as [_ Hle].
  destruct (spath_node _ _ _ _ Hp) as (Hu & Hn & Hnd & Hlen). pose proof (nodes_bound p Hn Hnd).
  destruct (cost_range u v Hu Hv); [contradiction|]. unfold NONE in *.
  pose proof (nodes_bound (v :: p) ltac:(now constructor)) as Hb. cbn [length] in Hb.
  enough (NoDup (v :: p)) as H' by (specialize (Hb H'); lia).
  constructor; [|exact Hnd]. intros Hin. specialize (Hle v Hin). lia.
Qed.

Lemma good_walk lab v d : good lab v d -> walk A src v d.
Proof. intros [p Hp]. induction Hp; [constructor|now constructor]. Qed.
(** ** The invariant *)

(** Twice the sum of the labels plus the length of the queue. *)
Definition total (l : list NODE) : Z := foldr (fun n t => iDist n + t) 0 l.
Definition potential s : Z := 2 * total (rgnNodes s) + Z.of_nat (length (qHead s)).

Definition relaxed lab u v : Prop := cost A u v <> NONE -> lab v <= lab u + cost A u v.

(** The state while the edges to the nodes below [i] are already relaxed for the dequeued item. *)
Record inv i s : Prop := Inv {
  inv_len : length (rgnNodes s) = 100%nat;
  inv_count : g_qCount s = Z.of_nat (length (qHead s));
  inv_lab : forall v, node v -> lab s v = NONE \/ good (lab s) v (lab s v);
  inv_queue : Forall (fun q => good (lab s) (q_iNode q) (q_iDist q)) (qHead s);
  inv_cur : i < NUM_NODES -> good (lab s) (q_iNode (cur s)) (q_iDist (cur s));
  inv_src : lab s src = 0;
  inv_edge : forall u, node u -> lab s u <> NONE ->
    (exists q, q ∈ qHead s /\ q_iNode q = u /\ q_iDist q = lab s u) \/
    (forall v, node v -> (u = q_iNode (cur s) /\ lab s u = q_iDist (cur s) /\ i <= v) \/ relaxed (lab s) u v);
  inv_pred : forall v, node v -> v <> src -> lab s v <> NONE ->
    node (pred s v) /\ cost A (pred s v) v <> NONE /\ lab s (pred s v) + cost A (pred s v) v <= lab s v;
  inv_potential : potential s <= 2 * NUM_NODES * NONE + 1 }.

Lemma total_insert (l : list NODE) (j : nat) n n' : l !! j = Some n ->
  total (<[j := n']> l) = total l - iDist n + iDist n'.
Proof.
  revert j. induction l as [|m l IH]; intros [|j] H; cbn in H; try discriminate.
  - injection H as ->. cbn. lia.
  - change (iDist m + total (<[j := n']> l) = iDist m + total l - iDist n + iDist n').
    rewrite (IH j H). lia.
Qed.

Lemma total_nonneg (l : list NODE) : Forall (fun n => 0 <= iDist n) l -> 0 <= total l.
Proof. induction 1 as [|n l H _ IH]; [reflexivity|]. change (0 <= iDist n + total l). lia. Qed.

Lemma lab_lookup s v n : rgnNodes s !! Z.to_nat v = Some n -> lab s v = iDist n.
Proof. intros H. unfold lab. now rewrite H. Qed.

Lemma inv_label_range i s v : inv i s -> node v -> lab s v = NONE \/ 0 <= lab s v <= 9900.
Proof.
  intros Hi Hv. destruct (inv_lab _ _ Hi v Hv) as [H|H]; [now left|right].
  apply (proj2 (good_bound _ _ _ H)).
Qed.

Lemma inv_queue_length i s : inv i s -> Z.of_nat (length (qHead s)) <= potential s.
Proof.
  intros Hi. unfold potential. enough (0 <= total (rgnNodes s)) by lia. apply total_nonneg.
  apply Forall_lookup_2. intros j n Hj. pose proof (lookup_lt_Some _ _ _ Hj) as Hl. rewrite (inv_len _ _ Hi) in Hl.
  rewrite <- (Nat2Z.id j) in Hj. rewrite <- (lab_lookup s _ n Hj). unfold NONE in *.
  pose proof (inv_label_range i s (Z.of_nat j) Hi ltac:(unfold node, NUM_NODES; lia)). unfold NONE in *. lia.
Qed.

Lemma node_get_ok i s v : inv i s -> node v ->
  exists n, node_get s v = Ok n /\ rgnNodes s !! Z.to_nat v = Some n /\ lab s v = iDist n.
Proof.
  intros Hi Hv. pose proof (inv_len _ _ Hi) as Hl. unfold node, NUM_NODES in Hv.
  destruct (lookup_lt_is_Some_2 (rgnNodes s) (Z.to_nat v)) as [n Hn]; [lia|]. exists n.
  unfold node_get. destruct (Z.leb_spec 0 v); [|lia]. rewrite Hn. split; [reflexivity|].
  split; [reflexivity|]. exact (lab_lookup _ _ _ Hn).
Qed.

(** A label and a predecessor of [v] replaced. *)
Definition set_node s v (n : NODE) : dstate :=
  DState (qHead s) (g_qCount s) (<[Z.to_nat v := n]> (rgnNodes s)) (cur s).

Lemma node_set_ok s v (n : NODE) : length (rgnNodes s) = 100%nat -> node v -> node_set s v n = Ok (set_node s v n).
Proof.
  intros Hl Hv. unfold node, NUM_NODES in Hv. unfold node_set. rewrite Hl.
  destruct (Z.leb_spec 0 v), (Z.ltb_spec v (Z.of_nat 100)); try lia. reflexivity.
Qed.

Lemma set_node_labels s v (n : NODE) w : length (rgnNodes s) = 100%nat -> node v ->
  (lab (set_node s v n) w = if decide (Z.to_nat w = Z.to_nat v) then iDist n else lab s w) /\
  (pred (set_node s v n) w = if decide (Z.to_nat w = Z.to_nat v) then iPrev n else pred s w).
Proof.
  intros Hl Hv. unfold node, NUM_NODES in Hv. unfold lab, pred, set_node. cbn [rgnNodes]. case_decide as E.
  - rewrite E, list_lookup_insert_eq by lia. split; reflexivity.
  - rewrite list_lookup_insert_ne by congruence. split; reflexivity.
Qed.

Lemma node_eq u v : node u -> node v -> Z.to_nat u = Z.to_nat v -> u = v.
Proof. unfold node. lia. Qed.
(** ** The steps *)

(** What a shorter label for [i] through the dequeued item does to the state. *)
Definition improve s i : dstate :=
  let d := q_iDist (cur s) + cost A (q_iNode (cur s)) i in
  enqueue i d (q_iNode (cur s)) (set_node s i (Node d (q_iNode (cur s)))).

Section Improve.
Context (s : dstate) (i : Z) (Hi : inv i s) (Hn : node i).
Context (Hc : cost A (q_iNode (cur s)) i <> NONE).
Context (Hlt : q_iDist (cur s) + cost A (q_iNode (cur s)) i < lab s i).
Notation d := (q_iDist (cur s) + cost A (q_iNode (cur s)) i).

Lemma improve_cur : good (lab s) (q_iNode (cur s)) (q_iDist (cur s)).
Proof. apply (inv_cur _ _ Hi). apply Hn. Qed.

Lemma improve_lab w : lab (improve s i) w = if decide (Z.to_nat w = Z.to_nat i) then d else lab s w.
Proof. exact (proj1 (set_node_labels s i (Node d (q_iNode (cur s))) w (inv_len _ _ Hi) Hn)). Qed.

Lemma improve_pred w :
  pred (improve s i) w = if decide (Z.to_nat w = Z.to_nat i) then q_iNode (cur s) else pred s w.
Proof. exact (proj2 (set_node_labels s i (Node d (q_iNode (cur s))) w (inv_len _ _ Hi) Hn)). Qed.

Lemma improve_le w : lab (improve s i) w <= lab s w.
Proof.
  rewrite improve_lab. case_decide as E; [|lia]. assert (lab s w = lab s i) as -> by (unfold lab; now rewrite E). lia.
Qed.

Lemma improve_good : good (lab (improve s i)) i d /\ 0 <= d <= 9900.
Proof.
  assert (good (lab (improve s i)) i d) as Hg; [|split; [exact Hg|exact (proj2 (good_bound _ _ _ Hg))]].
  apply (good_step (lab s)); [exact improve_le|exact improve_cur|exact Hn|exact Hc|exact Hlt|].
  rewrite improve_lab. case_decide; [lia|contradiction].
Qed.

Lemma improve_other u : node u -> u <> i -> lab (improve s i) u = lab s u /\ pred (improve s i) u = pred s u.
Proof.
  intros Hu Hne. rewrite improve_lab, improve_pred.
  case_decide as E; [|split; reflexivity]. destruct Hne. exact (node_eq _ _ Hu Hn E).
Qed.

Lemma improve_self : lab (improve s i) i = d /\ pred (improve s i) i = q_iNode (cur s).
Proof. rewrite improve_lab, improve_pred. case_decide; [split; reflexivity|contradiction]. Qed.

Lemma improve_potential : potential (improve s i) <= potential s - 1.
Proof.
  destruct (node_get_ok i s i Hi Hn) as (n & _ & Hl & Hlab).
  unfold potential, improve, enqueue, set_node. cbn [qHead rgnNodes].
  rewrite (total_insert _ _ n _ Hl), length_app, <- Hlab. cbn [iDist length].
  rewrite Nat2Z.inj_add. change (Z.of_nat 1) with 1. lia.
Qed.

Lemma improve_src : i <> src.
Proof. pose proof improve_good as [_ H]. pose proof (inv_src _ _ Hi). intros ->. lia. Qed.

Lemma improve_edge u : node u -> lab (improve s i) u <> NONE ->
  (exists q, q ∈ qHead (improve s i) /\ q_iNode q = u /\ q_iDist q = lab (improve s i) u) \/
  (forall v, node v ->
     (u = q_iNode (cur s) /\ lab (improve s i) u = q_iDist (cur s) /\ i + 1 <= v) \/ relaxed (lab (improve s i)) u v).
Proof.
  intros Hu Hl. destruct (decide (u = i)) as [->|Hne].
  - left. exists (QItem i d (q_iNode (cur s))). cbn [q_iNode q_iDist]. rewrite (proj1 improve_self).
    split; [|split; reflexivity]. apply elem_of_app. right. apply list_elem_of_singleton. reflexivity.
  - rewrite (proj1 (improve_other u Hu Hne)) in *.
    destruct (inv_edge _ _ Hi u Hu Hl) as [(q & Hq & E)|H]; [left|right].
    + exists q. split; [apply elem_of_app; now left|exact E].
    + intros v Hv. unfold relaxed. rewrite (proj1 (improve_other u Hu Hne)).
      destruct (H v Hv) as [(-> & Hd & Hle)|Hr].
      * destruct (decide (v = i)) as [->|]; [right|left; split; [reflexivity|split; [exact Hd|lia]]].
        intros _. rewrite (proj1 improve_self). lia.
      * right. intros Hcv. specialize (Hr Hcv). pose proof (improve_le v). lia.
Qed.

Lemma improve_inv : inv (i + 1) (improve s i).
Proof.
  pose proof improve_potential as Hpot. pose proof (inv_potential _ _ Hi) as Hp0.
  pose proof (inv_queue_length _ _ Hi) as Hq. pose proof improve_good as [Hg Hd]. constructor.
  - cbn. rewrite length_insert. apply (inv_len _ _ Hi).
  - cbn. rewrite (inv_count _ _ Hi), length_app, wrapS_id; [cbn; lia|lia|].
    unfold NONE, NUM_NODES in *. clia.
  - intros v Hv. destruct (decide (v = i)) as [->|Hne]; [right; now rewrite (proj1 improve_self)|].
    rewrite (proj1 (improve_other v Hv Hne)). destruct (inv_lab _ _ Hi v Hv) as [H|H]; [now left|right].
    exact (good_mono _ _ _ _ improve_le H).
  - apply Forall_app_2; [|apply Forall_cons; [exact Hg|apply Forall_nil]].
    eapply Forall_impl; [|exact (inv_queue _ _ Hi)]. intros q H. exact (good_mono _ _ _ _ improve_le H).
  - intros _. exact (good_mono _ _ _ _ improve_le improve_cur).
  - rewrite (proj1 (improve_other src Hsrc (not_eq_sym improve_src))). apply (inv_src _ _ Hi).
  - exact improve_edge.
  - intros v Hv Hvs Hl. destruct (decide (v = i)) as [->|Hne].
    + rewrite (proj2 improve_self), (proj1 improve_self). split; [apply (good_bound _ _ _ improve_cur)|].
      split; [exact Hc|]. pose proof (improve_le (q_iNode (cur s))).
      destruct improve_cur as [p Hpath]. destruct (spath_le _ _ _ _ Hpath) as [? _]. lia.
    + destruct (improve_other v Hv Hne) as [E1 E2]. rewrite E1 in *. rewrite E2.
      destruct (inv_pred _ _ Hi v Hv Hvs Hl) as (H1 & H2 & H3). split; [exact H1|]. split; [exact H2|].
      pose proof (improve_le (pred s v)). lia.
  - lia.
Qed.
End Improve.

(** Nothing to improve: the edge is relaxed, or there is none. *)
Lemma keep_inv s i : inv i s -> node i ->
  (cost A (q_iNode (cur s)) i <> NONE -> lab s i <= q_iDist (cur s) + cost A (q_iNode (cur s)) i) -> inv (i + 1) s.
Proof.
  intros Hi Hn Hle. destruct Hi as [H1 H2 H3 H4 H5 H6 H7 H8 H9]. constructor; try assumption.
  - intros Hlt. apply H5. apply Hn.
  - intros u Hu Hl. destruct (H7 u Hu Hl) as [H|H]; [now left|right]. intros v Hv.
    destruct (H v Hv) as [(-> & Hd & Hlei)|Hr]; [|now right].
    destruct (decide (v = i)) as [->|]; [right|left; split; [reflexivity|split; [exact Hd|lia]]].
    intros Hc. rewrite Hd. exact (Hle Hc).
Qed.

Lemma relax_ok s i : inv i s -> node i ->
  okp (relax_body A i s) (fun s' => inv (i + 1) s' /\ potential s' <= potential s).
Proof.
  intros Hi Hn. pose proof (inv_cur _ _ Hi ltac:(apply Hn)) as Hg.
  destruct (good_bound _ _ _ Hg) as [Hcur Hd]. unfold relax_body.
  rewrite adj_ok by assumption. cbn [mbind res_bind].
  destruct (Z.eqb_spec (cost A (q_iNode (cur s)) i) NONE) as [E|Hc]; cbn [negb].
  { cbn. split; [apply keep_inv; [exact Hi|exact Hn|contradiction]|lia]. }
  destruct (cost_range _ _ Hcur Hn) as [|Hcr]; [contradiction|].
  destruct (node_get_ok i s i Hi Hn) as (n & -> & _ & Hlab). cbn [mbind res_bind]. rewrite <- Hlab.
  rewrite !(wrapS_id 32) by clia. rewrite (Z.add_comm (cost A _ i)).
  pose proof (inv_label_range i s i Hi Hn) as Hrange. unfold NONE in Hrange.
  destruct (Z.ltb_spec (q_iDist (cur s) + cost A (q_iNode (cur s)) i) (lab s i)) as [Hlt|Hge].
  - rewrite orb_true_r, node_set_ok by (apply (inv_len _ _ Hi) || exact Hn). cbn [mbind res_bind mret res_ret okp].
    split; [exact (improve_inv s i Hi Hn Hc Hlt)|]. pose proof (improve_potential s i Hi Hn Hlt).
    change (potential (improve s i) <= potential s). lia.
  - destruct (Z.eqb_spec NONE (lab s i)) as [E|_].
    { pose proof (good_unlabelled _ _ i _ Hg Hn Hc (eq_sym E)). lia. }
    cbn. split; [apply keep_inv; [exact Hi|exact Hn|lia]|lia].
Qed.

Lemma dequeue_ok s : inv NUM_NODES s -> 0 < g_qCount s ->
  inv 0 (dequeue s) /\ potential (dequeue s) = potential s - 1.
Proof.
  intros Hi Hpos. pose proof (inv_queue_length _ _ Hi) as Hq. pose proof (inv_potential _ _ Hi) as Hp.
  destruct Hi as [H1 H2 H3 H4 H5 H6 H7 H8 H9]. unfold dequeue.
  destruct s as [[|q rest] cnt nodes c]; cbn [qHead g_qCount rgnNodes cur] in *; [cbn in H2; lia|].
  split; [|unfold potential; cbn [qHead rgnNodes length]; lia].
  constructor; unfold lab, pred in *; cbn [qHead g_qCount rgnNodes cur] in *; try assumption.
  - rewrite H2. cbn [length] in *. rewrite wrapS_id by (lia || (unfold NONE, NUM_NODES in *; clia)). lia.
  - exact (Forall_inv_tail H4).
  - intros _. exact (Forall_inv H4).
  - intros u Hu Hl. destruct (H7 u Hu Hl) as [(q' & Hin & E1 & E2)|H].
    + apply elem_of_cons in Hin as [->|Hin]; [right|left; now exists q'].
      intros v Hv. left. split; [now rewrite E1|]. split; [now rewrite E2|apply Hv].
    + right. intros v Hv. right. destruct (H v Hv) as [(_ & _ & Hle)|Hr]; [|exact Hr].
      unfold node in Hv. lia.
  - unfold potential in *. cbn [qHead rgnNodes length] in *. lia.
Qed.

(** The loop ends with an empty queue and every edge relaxed: each iteration lowers the potential. *)
Lemma dijkstra_loop_total fuel : forall s, inv NUM_NODES s -> potential s < Z.of_nat fuel ->
  okp (dijkstra_loop A fuel s) (fun s' => inv NUM_NODES s' /\ qHead s' = []).
Proof.
  induction fuel as [|fuel IH]; intros s Hi Hf; [pose proof (inv_queue_length _ _ Hi); lia|].
  cbn [dijkstra_loop]. unfold qcount. destruct (Z.ltb_spec 0 (g_qCount s)) as [Hpos|Hz].
  - destruct (dequeue_ok s Hi Hpos) as [H0 Hp].
    eapply okp_bind.
    { apply (okp_cfor (fun i s' => inv i s' /\ potential s' <= potential (dequeue s))); [split; [exact H0|lia]|].
      intros i s' Hir [Hi' Hp']. eapply okp_mono; [apply relax_ok; [exact Hi'|]|].
      - unfold node. change (Z.of_nat (Z.to_nat NUM_NODES)) with NUM_NODES in Hir. lia.
      - cbv beta. intros s2 [H2 H3]. split; [exact H2|lia]. }
    cbv beta. intros s' [Hi' Hp']. apply IH; [exact Hi'|lia].
  - cbn. split; [exact Hi|]. pose proof (inv_count _ _ Hi). destruct (qHead s); [reflexivity|cbn in *; lia].
Qed.
(** ** Before and after the loop *)

(** What every call leaves behind for the next one. *)
Definition idle s : Prop := qHead s = [] /\ g_qCount s = 0 /\ length (rgnNodes s) = 100%nat.

Lemma total_replicate (n : nat) : total (replicate n (Node NONE NONE)) = Z.of_nat n * NONE.
Proof.
  induction n as [|n IH]; [reflexivity|]. change (NONE + total (replicate n (Node NONE NONE)) = Z.of_nat (S n) * NONE).
  lia.
Qed.

Lemma reset_ok s : idle s ->
  okp (cfor (Z.to_nat NUM_NODES) 0 reset_body s) (fun s' =>
    qHead s' = [] /\ g_qCount s' = 0 /\ rgnNodes s' = replicate 100 (Node NONE NONE)).
Proof.
  intros Hs. eapply okp_mono.
  - apply (okp_cfor (fun k s' => idle s' /\ forall j, 0 <= j < k -> rgnNodes s' !! Z.to_nat j = Some (Node NONE NONE))).
    { split; [exact Hs|]. intros. lia. }
    intros k s' Hk [(H1 & H2 & H3) Hj]. change (Z.of_nat (Z.to_nat NUM_NODES)) with NUM_NODES in Hk.
    unfold reset_body. rewrite node_set_ok by (exact H3 || unfold node; lia). cbn [okp]. unfold NUM_NODES in Hk.
    split; [unfold idle, set_node; cbn; now rewrite length_insert|]. intros j Hjk. cbn [set_node rgnNodes].
    destruct (decide (j = k)) as [->|]; [now rewrite list_lookup_insert_eq by lia|].
    rewrite list_lookup_insert_ne by lia. apply Hj. lia.
  - cbv beta. intros s' [(H1 & H2 & H3) Hj]. split; [exact H1|]. split; [exact H2|]. apply list_eq. intros j.
    destruct (decide (j < 100)%nat) as [Hlt|Hge].
    + rewrite lookup_replicate_2 by exact Hlt. rewrite <- (Nat2Z.id j). apply Hj.
      change (Z.of_nat (Z.to_nat NUM_NODES)) with 100. lia.
    + rewrite !lookup_ge_None_2; [reflexivity|rewrite length_replicate; lia|rewrite H3; lia].
Qed.

(** The state when the loop is entered. *)
Lemma start_inv s : qHead s = [] -> g_qCount s = 0 -> rgnNodes s = replicate 100 (Node NONE NONE) ->
  inv NUM_NODES (enqueue src 0 NONE (set_node s src (Node 0 NONE))).
Proof.
  intros H1 H2 H3. assert (length (rgnNodes s) = 100%nat) as Hl by (rewrite H3; reflexivity).
  set (s' := enqueue src 0 NONE (set_node s src (Node 0 NONE))).
  assert (forall w, node w -> lab s' w = if decide (w = src) then 0 else NONE) as Hlab.
  { intros w Hw. transitivity (lab (set_node s src (Node 0 NONE)) w); [reflexivity|].
    rewrite (proj1 (set_node_labels s src (Node 0 NONE) w Hl Hsrc)). cbn [iDist].
    destruct (decide (w = src)) as [->|Hne]; case_decide as E; try reflexivity; try contradiction.
    - destruct Hne. exact (node_eq _ _ Hw Hsrc E).
    - unfold lab. rewrite H3, lookup_replicate_2 by (unfold node, NUM_NODES in Hw; lia). reflexivity. }
  assert (lab s' src = 0) as Hs0 by (rewrite Hlab by exact Hsrc; case_decide; [reflexivity|contradiction]).
  assert (good (lab s') src 0) as Hg by (exists [src]; constructor; lia).
  constructor.
  - unfold s'. cbn. now rewrite length_insert.
  - unfold s'. cbn. rewrite H1, H2. reflexivity.
  - intros v Hv. rewrite Hlab by exact Hv. case_decide as E; [right; now subst v|now left].
  - unfold s'. cbn [enqueue set_node qHead]. rewrite H1. apply Forall_cons; [exact Hg|apply Forall_nil].
  - lia.
  - exact Hs0.
  - intros u Hu Hlu. rewrite Hlab in Hlu by exact Hu. case_decide as E; [subst u|contradiction]. left.
    exists (QItem src 0 NONE). split; [unfold s'; cbn; rewrite H1; now apply list_elem_of_singleton|].
    split; [reflexivity|now rewrite Hs0].
  - intros v Hv Hne Hlv. rewrite Hlab in Hlv by exact Hv. case_decide; contradiction.
  - unfold potential, s'. cbn [enqueue set_node qHead rgnNodes]. rewrite H1, H3.
    rewrite (total_insert _ _ (Node NONE NONE)), total_replicate
      by (apply lookup_replicate_2; unfold node, NUM_NODES in Hsrc; lia).
    cbn. unfold NONE, NUM_NODES. lia.
Qed.

(** With an empty queue no walk is shorter than the labels. *)
Lemma final_walk s v d : inv NUM_NODES s -> qHead s = [] -> node v -> walk A src v d ->
  lab s v <> NONE /\ lab s v <= d.
Proof.
  intros Hi Hq Hv Hw. induction Hw as [|u v d Hw IH Hv' Hc].
  { rewrite (inv_src _ _ Hi). unfold NONE. lia. }
  assert (node u) as Hu by (destruct Hw; assumption). destruct (IH Hu) as [Hlu Hle].
  destruct (inv_edge _ _ Hi u Hu Hlu) as [(q & Hin & _)|H]; [rewrite Hq in Hin; now apply not_elem_of_nil in Hin|].
  destruct (H v Hv) as [(_ & _ & Hlt)|Hr]; [unfold node in Hv; lia|]. specialize (Hr Hc). split; [|lia].
  intros E. destruct (inv_lab _ _ Hi u Hu) as [|Hg]; [contradiction|].
  pose proof (good_unlabelled _ _ v _ Hg Hv Hc E). lia.
Qed.

Lemma final_distance s v : inv NUM_NODES s -> qHead s = [] -> node v ->
  (lab s v = NONE /\ (forall d, ~ walk A src v d)) \/
  (lab s v <> NONE /\ distance A src v (lab s v)).
Proof.
  intros Hi Hq Hv. destruct (decide (lab s v = NONE)) as [E|E]; [left|right].
  - split; [exact E|]. intros d Hw. destruct (final_walk s v d Hi Hq Hv Hw). contradiction.
  - split; [exact E|]. destruct (inv_lab _ _ Hi v Hv) as [|Hg]; [contradiction|].
    split; [exact (good_walk _ _ _ Hg)|]. intros d Hw. apply (final_walk s v d Hi Hq Hv Hw).
Qed.

(** What a run from [src] leaves in [rgnNodes]. *)
Definition solved s : Prop := forall v, node v ->
  (lab s v = NONE /\ (forall d, ~ walk A src v d)) \/
  (lab s v <> NONE /\ distance A src v (lab s v) /\
   (v <> src -> node (pred s v) /\ cost A (pred s v) v <> NONE /\
      distance A src (pred s v) (lab s v - cost A (pred s v) v))).

Lemma final_solved s : inv NUM_NODES s -> qHead s = [] -> solved s.
Proof.
  intros Hi Hq v Hv. destruct (final_distance s v Hi Hq Hv) as [H|[Hl Hd]]; [now left|right].
  split; [exact Hl|]. split; [exact Hd|]. intros Hne.
  destruct (inv_pred _ _ Hi v Hv Hne Hl) as (Hp & Hc & Hle). split; [exact Hp|]. split; [exact Hc|].
  destruct (cost_range _ _ Hp Hv) as [|Hcr]; [contradiction|]. destruct (inv_label_range _ _ _ Hi Hv) as [|Hr]; [contradiction|].
  destruct (final_distance s _ Hi Hq Hp) as [[E _]|[_ [Hw Hmin]]]; [unfold NONE in *; lia|].
  assert (lab s v <= lab s (pred s v) + cost A (pred s v) v) by (apply (proj2 Hd); now constructor).
  replace (lab s v - cost A (pred s v) v) with (lab s (pred s v)) by lia. split; [exact Hw|exact Hmin].
Qed.

Lemma dijkstra_ok chEnd s : idle s -> src <> chEnd ->
  okp (dijkstra A src chEnd s) (fun s' => idle s' /\ solved s').
Proof.
  intros Hs Hne. unfold dijkstra. eapply okp_bind; [exact (reset_ok s Hs)|]. cbv beta. intros s1 (H1 & H2 & H3).
  destruct (Z.eqb_spec src chEnd); [contradiction|].
  assert (length (rgnNodes s1) = 100%nat) as Hl by (rewrite H3; reflexivity).
  assert (exists nd, node_get s1 src = Ok nd) as [nd ->].
  { unfold node_get. pose proof Hsrc as [? ?]. unfold NUM_NODES in *. destruct (Z.leb_spec 0 src); [|lia].
    rewrite H3, lookup_replicate_2 by lia. now eexists. }
  cbn [mbind res_bind]. rewrite node_set_ok by assumption. cbn [mbind res_bind].
  pose proof (start_inv s1 H1 H2 H3) as Hi. eapply okp_mono.
  - apply dijkstra_loop_total; [exact Hi|]. pose proof (inv_potential _ _ Hi). unfold dijkstra_fuel.
    rewrite Z2Nat.id by (unfold NUM_NODES, NONE; lia). lia.
  - cbv beta. intros s' [Hi' Hq]. split; [|exact (final_solved s' Hi' Hq)].
    split; [exact Hq|]. split; [rewrite (inv_count _ _ Hi'), Hq; reflexivity|apply (inv_len _ _ Hi')].
Qed.
End Proof.

(** * Properties *)

(** C10: For every 100 by 100 matrix whose entries are NONE or costs from 0 to 100, every
    start node and every other end node, dijkstra terminates without an access outside its
    arrays and with an empty queue; every node that can be reached is then labelled with its
    distance from the start and with the last node before it on a shortest path, and every other
    node with NONE. *)
Theorem dijkstra_shortest (A : list (list Z)) (chStart chEnd : Z) (s : dstate) :
  matrix_ok A -> node chStart -> chStart <> chEnd -> idle s ->
  exists s', dijkstra A chStart chEnd s = Ok s' /\ idle s' /\ solved A chStart s'.
Proof.
  intros HA Hs Hne Hi. pose proof (dijkstra_ok A HA chStart Hs chEnd s Hi Hne) as H.
  apply okp_ok in H as (s' & E & H). exists s'. split; [exact E|exact H].
Qed.

Lemma dijkstra_shortest_witness :
  exists s', dijkstra setArray 0 50 init_state = Ok s' /\ distance setArray 0 50 1.
Proof.
  destruct (dijkstra_shortest setArray 0 50 init_state ltac:(by_eval) ltac:(unfold node, NUM_NODES; lia)
    ltac:(lia) ltac:(split; [reflexivity|split; reflexivity])) as (s' & E & _ & H).
  exists s'. split; [exact E|].
  assert (lab s' 50 = 1) as Hl.
  { pose proof dijkstra_0_50 as H50. rewrite E in H50. cbn [mbind res_bind] in H50. unfold node_get in H50. change (0 <=? 50) with true in H50. cbn iota in H50. unfold lab.
    destruct (rgnNodes s' !! Z.to_nat 50) as [nd|]; [|discriminate H50]. injection H50 as ->. reflexivity. }
  destruct (H 50 ltac:(unfold node, NUM_NODES; lia)) as [[E' _]|(_ & Hd & _)]; rewrite Hl in *; [discriminate E'|exact Hd].
Defined.

(** The loop of main, which runs dijkstra again and again on the global variables that the
    previous run left, terminates for up to 100 runs on every such matrix, and leaves the labels
    of the last run. *)
Theorem dijkstra_main_total (A : list (list Z)) (runs : nat) :
  matrix_ok A -> Z.of_nat runs <= NUM_NODES ->
  exists j s, main_loop A runs init_state = Ok (j, s) /\ idle s /\
    (0 < runs -> solved A (Z.of_nat runs - 1) s)%nat.
Proof.
  intros HA Hr. unfold main_loop.
  assert (okp (cfor runs 0 (main_body A) (Z.quot NUM_NODES 2, init_state)) (fun js =>
    idle js.2 /\ (0 < Z.of_nat runs -> solved A (Z.of_nat runs - 1) js.2))) as H.
  { eapply okp_mono.
    - apply (okp_cfor (fun i js => (js.1 = 50 + i /\ i <= 50 \/ js.1 = i - 50 /\ 50 < i) /\
        idle js.2 /\ (0 < i -> solved A (i - 1) js.2))).
      { cbn [fst snd]. split; [left; change (Z.quot NUM_NODES 2) with 50; lia|].
        split; [split; [reflexivity|split; reflexivity]|lia]. }
      intros i [j s] Hi (Hj & Hidle & _). cbn [fst snd] in *. unfold main_body.
      assert (Z.rem j NUM_NODES <> i /\ (Z.rem j NUM_NODES = 50 + i /\ i < 50 \/ Z.rem j NUM_NODES = i - 50 /\ 50 <= i))
        as [Hne Hrem].
      { unfold NUM_NODES in *. destruct (Z.eq_dec i 50).
        - assert (j = 100) as -> by lia. change (Z.rem 100 100) with 0. lia.
        - rewrite Z.rem_small by lia. lia. }
      eapply okp_bind; [apply (dijkstra_ok A HA i ltac:(unfold node, NUM_NODES in *; lia) _ s Hidle (not_eq_sym Hne))|].
      cbv beta. intros s' [Hi' Hs]. cbn. split; [lia|]. split; [exact Hi'|]. intros _.
      replace (i + 1 - 1) with i by lia. exact Hs.
    - cbv beta. rewrite Z.add_0_l. intros js (_ & H1 & H2). split; [exact H1|exact H2]. }
  apply okp_ok in H as ([j s] & E & H1 & H2). exists j, s. split; [exact E|]. split; [exact H1|]. intros Hp. apply H2. lia.
Qed.

Lemma dijkstra_main_total_witness :
  exists j s, main_loop setArray 100 init_state = Ok (j, s) /\ solved setArray 99 s.
Proof.
  destruct (dijkstra_main_total setArray 100 ltac:(by_eval) ltac:(unfold NUM_NODES; lia)) as (j & s & E & _ & H).
  exists j, s. split; [exact E|]. apply H. lia.
Defined.
