(* ===== verification/Crc32.v ===== *)
(** The CRC of src/mibench/telecomm/CRC32/crc_32.c: the table, the macro UPDC32 of crc.h, and the
    functions on a byte, a buffer and a file.

    [DWORD] is [unsigned long], so the functions take the data model. The reference definition is
    the shift register of the polynomial, one bit at a time. *)
From stdpp Require Import base list numbers option tactics.
From Stdlib Require Import ZArith Lia.
From S2P Require Import Prelude Bytes.

Definition crc_32_tab : list Z :=
  [0x00000000; 0x77073096; 0xee0e612c; 0x990951ba; 0x076dc419; 0x706af48f; 0xe963a535; 0x9e6495a3;
   0x0edb8832; 0x79dcb8a4; 0xe0d5e91e; 0x97d2d988; 0x09b64c2b; 0x7eb17cbd; 0xe7b82d07; 0x90bf1d91;
   0x1db71064; 0x6ab020f2; 0xf3b97148; 0x84be41de; 0x1adad47d; 0x6ddde4eb; 0xf4d4b551; 0x83d385c7;
   0x136c9856; 0x646ba8c0; 0xfd62f97a; 0x8a65c9ec; 0x14015c4f; 0x63066cd9; 0xfa0f3d63; 0x8d080df5;
   0x3b6e20c8; 0x4c69105e; 0xd56041e4; 0xa2677172; 0x3c03e4d1; 0x4b04d447; 0xd20d85fd; 0xa50ab56b;
   0x35b5a8fa; 0x42b2986c; 0xdbbbc9d6; 0xacbcf940; 0x32d86ce3; 0x45df5c75; 0xdcd60dcf; 0xabd13d59;
   0x26d930ac; 0x51de003a; 0xc8d75180; 0xbfd06116; 0x21b4f4b5; 0x56b3c423; 0xcfba9599; 0xb8bda50f;
   0x2802b89e; 0x5f058808; 0xc60cd9b2; 0xb10be924; 0x2f6f7c87; 0x58684c11; 0xc1611dab; 0xb6662d3d;
   0x76dc4190; 0x01db7106; 0x98d220bc; 0xefd5102a; 0x71b18589; 0x06b6b51f; 0x9fbfe4a5; 0xe8b8d433;
   0x7807c9a2; 0x0f00f934; 0x9609a88e; 0xe10e9818; 0x7f6a0dbb; 0x086d3d2d; 0x91646c97; 0xe6635c01;
   0x6b6b51f4; 0x1c6c6162; 0x856530d8; 0xf262004e; 0x6c0695ed; 0x1b01a57b; 0x8208f4c1; 0xf50fc457;
   0x65b0d9c6; 0x12b7e950; 0x8bbeb8ea; 0xfcb9887c; 0x62dd1ddf; 0x15da2d49; 0x8cd37cf3; 0xfbd44c65;
   0x4db26158; 0x3ab551ce; 0xa3bc0074; 0xd4bb30e2; 0x4adfa541; 0x3dd895d7; 0xa4d1c46d; 0xd3d6f4fb;
   0x4369e96a; 0x346ed9fc; 0xad678846; 0xda60b8d0; 0x44042d73; 0x33031de5; 0xaa0a4c5f; 0xdd0d7cc9;
   0x5005713c; 0x270241aa; 0xbe0b1010; 0xc90c2086; 0x5768b525; 0x206f85b3; 0xb966d409; 0xce61e49f;
   0x5edef90e; 0x29d9c998; 0xb0d09822; 0xc7d7a8b4; 0x59b33d17; 0x2eb40d81; 0xb7bd5c3b; 0xc0ba6cad;
   0xedb88320; 0x9abfb3b6; 0x03b6e20c; 0x74b1d29a; 0xead54739; 0x9dd277af; 0x04db2615; 0x73dc1683;
   0xe3630b12; 0x94643b84; 0x0d6d6a3e; 0x7a6a5aa8; 0xe40ecf0b; 0x9309ff9d; 0x0a00ae27; 0x7d079eb1;
   0xf00f9344; 0x8708a3d2; 0x1e01f268; 0x6906c2fe; 0xf762575d; 0x806567cb; 0x196c3671; 0x6e6b06e7;
   0xfed41b76; 0x89d32be0; 0x10da7a5a; 0x67dd4acc; 0xf9b9df6f; 0x8ebeeff9; 0x17b7be43; 0x60b08ed5;
   0xd6d6a3e8; 0xa1d1937e; 0x38d8c2c4; 0x4fdff252; 0xd1bb67f1; 0xa6bc5767; 0x3fb506dd; 0x48b2364b;
   0xd80d2bda; 0xaf0a1b4c; 0x36034af6; 0x41047a60; 0xdf60efc3; 0xa867df55; 0x316e8eef; 0x4669be79;
   0xcb61b38c; 0xbc66831a; 0x256fd2a0; 0x5268e236; 0xcc0c7795; 0xbb0b4703; 0x220216b9; 0x5505262f;
   0xc5ba3bbe; 0xb2bd0b28; 0x2bb45a92; 0x5cb36a04; 0xc2d7ffa7; 0xb5d0cf31; 0x2cd99e8b; 0x5bdeae1d;
   0x9b64c2b0; 0xec63f226; 0x756aa39c; 0x026d930a; 0x9c0906a9; 0xeb0e363f; 0x72076785; 0x05005713;
   0x95bf4a82; 0xe2b87a14; 0x7bb12bae; 0x0cb61b38; 0x92d28e9b; 0xe5d5be0d; 0x7cdcefb7; 0x0bdbdf21;
   0x86d3d2d4; 0xf1d4e242; 0x68ddb3f8; 0x1fda836e; 0x81be16cd; 0xf6b9265b; 0x6fb077e1; 0x18b74777;
   0x88085ae6; 0xff0f6a70; 0x66063bca; 0x11010b5c; 0x8f659eff; 0xf862ae69; 0x616bffd3; 0x166ccf45;
   0xa00ae278; 0xd70dd2ee; 0x4e048354; 0x3903b3c2; 0xa7672661; 0xd06016f7; 0x4969474d; 0x3e6e77db;
   0xaed16a4a; 0xd9d65adc; 0x40df0b66; 0x37d83bf0; 0xa9bcae53; 0xdebb9ec5; 0x47b2cf7f; 0x30b5ffe9;
   0xbdbdf21c; 0xcabac28a; 0x53b39330; 0x24b4a3a6; 0xbad03605; 0xcdd70693; 0x54de5729; 0x23d967bf;
   0xb3667a2e; 0xc4614ab8; 0x5d681b02; 0x2a6f2b94; 0xb40bbe37; 0xc30c8ea1; 0x5a05df1b; 0x2d02ef8d].

Section Model.
Context (dm : data_model).

(** [UPDC32(octet,crc)]; [octet] is converted to [BYTE]. *)
Definition UPDC32 (octet crc : Z) : res Z :=
  t ← aget crc_32_tab (Z.land (Z.lxor crc (u8 octet)) 0xff);
  mret (Z.lxor t (crc ≫ 8)).

Definition updateCRC32 (ch crc : Z) : res Z := UPDC32 ch crc.

(** The loop of [crc32buf] and, with the count, of [crc32file]. *)
Fixpoint crc_loop (buf : list Z) (oldcrc32 : Z) : res Z :=
  match buf with
  | [] => mret oldcrc32
  | c :: buf => oldcrc32 ← UPDC32 c oldcrc32; crc_loop buf oldcrc32
  end.

Definition crc32buf (buf : list Z) (len : nat) : res Z :=
  if (len <=? length buf)%nat then
    oldcrc32 ← crc_loop (take len buf) 0xFFFFFFFF;
    mret (uL dm (Z.lnot oldcrc32))
  else Err OutOfBounds.

Fixpoint crc_file_loop (fin : list Z) (oldcrc32 charcnt : Z) : res (Z * Z) :=
  match fin with
  | [] => mret (oldcrc32, charcnt)
  | c :: fin => oldcrc32 ← UPDC32 c oldcrc32; crc_file_loop fin oldcrc32 (sL dm (charcnt + 1))
  end.

(** [Error_] and [Success_]. *)
Inductive Boolean_T := Error_ | Success_.

(** [fin] is [None] when [fopen] fails, and otherwise the characters that [getc] delivers and
    the value of [ferror] at the end. The result is the value returned, [*crc] and [*charcnt]. *)
Definition crc32file (fin : option (list Z * bool)) (crc : Z) : res (Boolean_T * Z * Z) :=
  match fin with
  | None => mret (Error_, crc, 0)
  | Some (fin, error) =>
      '(oldcrc32, charcnt) ← crc_file_loop fin 0xFFFFFFFF 0;
      mret (Success_, uL dm (Z.lnot oldcrc32), if error : bool then -1 else charcnt)
  end.
End Model.

(** The check value of this CRC: the digits 1 to 9. *)
Example crc_check : crc32buf ILP32 [0x31; 0x32; 0x33; 0x34; 0x35; 0x36; 0x37; 0x38; 0x39] 9 = Ok 0xCBF43926.
Proof. vm_compute. reflexivity. Qed.

(** * The shift register *)

(** X^32+X^26+X^23+X^22+X^16+X^12+X^11+X^10+X^8+X^7+X^5+X^4+X^2+X^1+X^0, highest-order term in the
    lowest-order bit, X^32 implied. *)
Definition poly : Z := 0xedb88320.

Definition crc_bit (c : Z) : Z := if Z.testbit c 0 then Z.lxor (c ≫ 1) poly else c ≫ 1.
Fixpoint crc_bits (n : nat) (c : Z) : Z := match n with O => c | S n => crc_bits n (crc_bit c) end.
Definition crc_byte (c x : Z) : Z := crc_bits 8 (Z.lxor c x).
Definition crc_register (m : list Z) (c : Z) : Z := fold_left crc_byte m c.

Section Register.
Implicit Types (a b c x : Z) (m : list Z) (n : nat).

Lemma crc_bit_word c : inU 32 c -> inU 32 (crc_bit c).
Proof.
  intros Hc. unfold crc_bit. destruct (Z.testbit c 0); [apply inU_lxor; [lia| |unfold poly; clia]|]; apply inU_shiftr; (lia || exact Hc).
Qed.

Lemma crc_bits_word n : forall c, inU 32 c -> inU 32 (crc_bits n c).
Proof. induction n as [|n IH]; intros c Hc; [exact Hc|]. apply IH, crc_bit_word, Hc. Qed.

(** The register is linear over exclusive or. *)
Lemma crc_bit_lxor a b : crc_bit (Z.lxor a b) = Z.lxor (crc_bit a) (crc_bit b).
Proof.
  unfold crc_bit. rewrite Z.lxor_spec, Z.shiftr_lxor.
  destruct (Z.testbit a 0), (Z.testbit b 0); cbn [xorb]; apply Z.bits_inj'; intros i Hi; rewrite !Z.lxor_spec;
    destruct (Z.testbit (a ≫ 1) i), (Z.testbit (b ≫ 1) i), (Z.testbit poly i); reflexivity.
Qed.

Lemma crc_bits_lxor n : forall a b, crc_bits n (Z.lxor a b) = Z.lxor (crc_bits n a) (crc_bits n b).
Proof. induction n as [|n IH]; intros a b; [reflexivity|]. cbn [crc_bits]. now rewrite crc_bit_lxor, IH. Qed.

(** Zeros at the low end are only shifted out. *)
Lemma crc_bits_shift n : forall a, crc_bits n (a * 2 ^ Z.of_nat n) = a.
Proof.
  induction n as [|n IH]; intros a; [cbn; lia|]. cbn [crc_bits].
  rewrite Nat2Z.inj_succ, Z.pow_succ_r, Z.mul_assoc, (Z.mul_comm a 2), <- Z.mul_assoc by lia.
  unfold crc_bit. rewrite Z.testbit_even_0, Z.shiftr_div_pow2 by lia. change (2 ^ 1) with 2.
  rewrite (Z.mul_comm 2), Z.div_mul by lia. apply IH.
Qed.

(** The table holds the eight steps of every byte. *)
Lemma crc_tab_ok x : 0 <= x < 256 -> aget crc_32_tab x = Ok (crc_bits 8 x).
Proof.
  intros Hx. pose proof (forallb_seqZ (fun x => match aget crc_32_tab x with Ok v => v =? crc_bits 8 x | _ => false end)
    0 256 ltac:(vm_compute; reflexivity) x ltac:(lia)) as H. cbv beta in H.
  destruct (aget crc_32_tab x); [|discriminate]. apply Z.eqb_eq in H. now subst.
Qed.

Lemma split_byte c : c = Z.lxor (Z.land c 0xff) ((c ≫ 8) * 2 ^ 8).
Proof.
  apply Z.bits_inj'. intros i Hi. rewrite <- Z.shiftl_mul_pow2, Z.lxor_spec, Z.land_spec, Z.shiftl_spec by lia.
  change 0xff with (Z.ones 8). destruct (Z.ltb_spec i 8).
  - rewrite Z.ones_spec_low, (Z.testbit_neg_r _ (i - 8)), andb_true_r, xorb_false_r by lia. reflexivity.
  - rewrite Z.ones_spec_high, Z.shiftr_spec, andb_false_r by lia. cbn [xorb]. f_equal. lia.
Qed.

Lemma UPDC32_ok x c : inU 8 x -> UPDC32 x c = Ok (crc_byte c x).
Proof.
  intros Hx. unfold UPDC32. rewrite (wrapU_id 8) by exact Hx.
  assert (0 <= Z.land (Z.lxor c x) 0xff < 256) as Hr.
  { change 0xff with (Z.ones 8). rewrite Z.land_ones by lia. apply Z.mod_pos_bound. lia. }
  rewrite crc_tab_ok by exact Hr. cbn [mbind res_bind mret res_ret]. unfold crc_byte.
  rewrite (split_byte (Z.lxor c x)) at 2. rewrite crc_bits_lxor.
  pose proof (crc_bits_shift 8 (Z.lxor c x ≫ 8)) as H. change (Z.of_nat 8) with 8 in H. rewrite H. do 2 f_equal.
  rewrite Z.shiftr_lxor, (Z.shiftr_div_pow2 x), (Z.div_small x), Z.lxor_0_r by (unfold inU in Hx; lia). reflexivity.
Qed.

Lemma crc_loop_ok m : forall c, Forall (inU 8) m -> crc_loop m c = Ok (crc_register m c).
Proof.
  induction m as [|x m IH]; intros c Hm; [reflexivity|]. cbn [crc_loop].
  rewrite UPDC32_ok by exact (Forall_inv Hm). cbn [mbind res_bind]. rewrite IH by exact (Forall_inv_tail Hm). reflexivity.
Qed.

Lemma crc_register_word m : forall c, inU 32 c -> Forall (inU 8) m -> inU 32 (crc_register m c).
Proof.
  induction m as [|x m IH]; intros c Hc Hm; [exact Hc|]. apply IH; [|exact (Forall_inv_tail Hm)].
  apply crc_bits_word, inU_lxor; [lia|exact Hc|]. pose proof (Forall_inv Hm). clia.
Qed.
(** ** No information is lost: the steps are injective *)

Lemma lxor_eq_0 a b : Z.lxor a b = 0 -> a = b.
Proof. apply Z.lxor_eq. Qed.

Lemma crc_bit_zero c : inU 32 c -> crc_bit c = 0 -> c = 0.
Proof.
  intros Hc. unfold crc_bit. rewrite Z.shiftr_div_pow2 by lia. change (2 ^ 1) with 2.
  destruct (Z.testbit c 0) eqn:E; intros H.
  - apply lxor_eq_0 in H. unfold poly in H. cint_unfold. dlia.
  - rewrite Z.bit0_odd in E. assert (Z.even c = true) as Ev by (rewrite <- Z.negb_odd, E; reflexivity).
    apply Z.even_spec in Ev as [k Hk]. dlia.
Qed.

Lemma crc_bits_zero n : forall c, inU 32 c -> crc_bits n c = 0 -> c = 0.
Proof.
  induction n as [|n IH]; intros c Hc H; [exact H|]. apply crc_bit_zero; [exact Hc|].
  apply IH; [apply crc_bit_word, Hc|exact H].
Qed.

Lemma crc_bits_inj n a b : inU 32 a -> inU 32 b -> crc_bits n a = crc_bits n b -> a = b.
Proof.
  intros Ha Hb H. apply lxor_eq_0, (crc_bits_zero n); [apply inU_lxor; (lia || assumption)|].
  rewrite crc_bits_lxor, H. apply Z.lxor_nilpotent.
Qed.

Lemma crc_byte_arg c x : inU 32 c -> inU 8 x -> inU 32 (Z.lxor c x).
Proof. intros Hc Hx. apply inU_lxor; [lia|exact Hc|clia]. Qed.

Lemma crc_register_inj m : forall c c', inU 32 c -> inU 32 c' -> Forall (inU 8) m ->
  crc_register m c = crc_register m c' -> c = c'.
Proof.
  induction m as [|x m IH]; intros c c' Hc Hc' Hm H; [exact H|].
  pose proof (crc_byte_arg c x Hc (Forall_inv Hm)) as H1. pose proof (crc_byte_arg c' x Hc' (Forall_inv Hm)) as H2.
  unfold crc_register in H. rewrite !fold_left_cons in H.
  apply IH in H; [|now apply crc_bits_word|now apply crc_bits_word|exact (Forall_inv_tail Hm)].
  apply (crc_bits_inj 8) in H; [|exact H1|exact H2].
  apply (f_equal (fun z => Z.lxor z x)) in H. now rewrite !Z.lxor_assoc, Z.lxor_nilpotent, !Z.lxor_0_r in H.
Qed.

Lemma crc_bits_add n k : forall c, crc_bits (n + k) c = crc_bits k (crc_bits n c).
Proof. induction n as [|n IH]; intros c; [reflexivity|]. apply IH. Qed.

(** A run of bytes enters the register like one word. *)
Lemma crc_register_word_in m : forall c, Forall (inU 8) m ->
  crc_register m c = crc_bits (8 * length m) (Z.lxor c (le_word m)).
Proof.
  induction m as [|x m IH]; intros c Hm; [cbn; now rewrite Z.lxor_0_r|].
  unfold crc_register. rewrite fold_left_cons. fold (crc_register m (crc_byte c x)).
  rewrite IH by exact (Forall_inv_tail Hm). cbn [length le_word].
  replace (8 * S (length m))%nat with (8 + 8 * length m)%nat by lia. rewrite crc_bits_add. f_equal.
  pose proof (Forall_inv Hm) as Hx. unfold inU in Hx. change (2 ^ 8) with 256 in Hx.
  assert (x + 256 * le_word m = Z.lxor x (le_word m * 2 ^ 8)) as ->.
  { rewrite Z.add_comm, (Z.mul_comm 256). change 256 with (2 ^ 8). rewrite <- (lor_disjoint_add _ x 8) by lia.
    rewrite Z.lxor_comm, Z.lxor_lor; [reflexivity|]. apply Z.bits_inj'. intros i Hi. rewrite Z.land_spec, Z.bits_0.
    destruct (Z.ltb_spec i 8); [rewrite Z.mul_pow2_bits_low by lia; reflexivity|].
    rewrite <- (Z.mod_small x (2 ^ 8)), Z.mod_pow2_bits_high by lia. apply andb_false_r. }
  rewrite <- Z.lxor_assoc, crc_bits_lxor. pose proof (crc_bits_shift 8 (le_word m)) as H.
  change (Z.of_nat 8) with 8 in H. rewrite H. reflexivity.
Qed.

Lemma crc_burst (x y : list Z) c : inU 32 c -> Forall (inU 8) x -> Forall (inU 8) y ->
  length x = length y -> (length x <= 4)%nat -> crc_register x c = crc_register y c -> x = y.
Proof.
  intros Hc Hx Hy Hl H4. rewrite !crc_register_word_in, <- Hl by assumption.
  pose proof (le_word_range x Hx) as Rx. pose proof (le_word_range y Hy) as Ry. rewrite <- Hl in Ry.
  assert (256 ^ Z.of_nat (length x) <= 256 ^ 4) as Hp by (apply Z.pow_le_mono_r; lia). change (256 ^ 4) with (2 ^ 32) in Hp.
  intros H. apply crc_bits_inj in H; [|apply inU_lxor; unfold inU in *; lia|apply inU_lxor; unfold inU in *; lia].
  apply (f_equal (Z.lxor c)) in H. rewrite <- !Z.lxor_assoc, Z.lxor_nilpotent, !Z.lxor_0_l in H.
  rewrite <- (le_bytes_word x Hx), <- (le_bytes_word y Hy), <- Hl, H. reflexivity.
Qed.

Lemma crc_file_loop_ok dm m : forall c (n : Z), Forall (inU 8) m -> inS (long_bits dm) n ->
  crc_file_loop dm m c n = Ok (crc_register m c, sL dm (n + Z.of_nat (length m))).
Proof.
  induction m as [|x m IH]; intros c n Hm Hn; cbn [crc_file_loop length].
  { rewrite Z.add_0_r, wrapS_id; [reflexivity|destruct dm; cbn; lia|exact Hn]. }
  rewrite UPDC32_ok by exact (Forall_inv Hm). cbn [mbind res_bind].
  rewrite IH; [|exact (Forall_inv_tail Hm)|apply wrapS_range; destruct dm; cbn; lia].
  do 2 f_equal. rewrite wrapS_add_l. f_equal. lia.
Qed.
End Register.

(** The value that the functions return for a message: the complement of the register, in a
    [DWORD]. *)
Definition crc_value (dm : data_model) (m : list Z) : Z :=
  match dm with ILP32 => 0 | LP64 => 2 ^ 64 - 2 ^ 32 end + (0xFFFFFFFF - crc_register m 0xFFFFFFFF).

Lemma crc_value_ok dm m : Forall (inU 8) m -> uL dm (Z.lnot (crc_register m 0xFFFFFFFF)) = crc_value dm m.
Proof.
  intros Hm. pose proof (crc_register_word m 0xFFFFFFFF ltac:(clia) Hm) as Hr. unfold crc_value, Z.lnot.
  unfold wrapU. destruct dm; cbn [long_bits]; cint_unfold; dlia.
Qed.

Lemma crc32buf_ok dm m : Forall (inU 8) m -> crc32buf dm m (length m) = Ok (crc_value dm m).
Proof.
  intros Hm. unfold crc32buf. rewrite Nat.leb_refl, take_ge by lia. rewrite crc_loop_ok by exact Hm.
  cbn [mbind res_bind mret res_ret]. now rewrite crc_value_ok.
Qed.

(** * Properties *)

(** The table-driven functions on a buffer and on a file return the complement of the 32-bit
    shift register of the CRC polynomial, one bit at a time, over the message; with 64-bit long
    the 32 bits above it are set. The file function also counts the characters, or stores -1
    after a read error. *)
Theorem crc32_bitwise (dm : data_model) (m : list Z) (error : bool) (crc : Z) :
  Forall (inU 8) m ->
  crc32buf dm m (length m) = Ok (crc_value dm m) /\
  crc32file dm (Some (m, error)) crc =
    Ok (Success_, crc_value dm m, if error then -1 else sL dm (Z.of_nat (length m))).
Proof.
  intros Hm. split; [now apply crc32buf_ok|]. unfold crc32file.
  rewrite crc_file_loop_ok by (exact Hm || (destruct dm; cbn [long_bits]; clia)).
  cbn [mbind res_bind mret res_ret]. now rewrite crc_value_ok.
Qed.

Lemma crc32_bitwise_witness :
  crc32buf LP64 [0x61; 0x62; 0x63] 3 = Ok (crc_value LP64 [0x61; 0x62; 0x63]) /\
  crc_value LP64 [0x61; 0x62; 0x63] = 0xFFFFFFFF352441C2.
Proof.
  split; [|vm_compute; reflexivity].
  exact (proj1 (crc32_bitwise LP64 [0x61; 0x62; 0x63] false 0 ltac:(by_eval))).
Defined.

(** Two messages that only differ within four consecutive bytes have different checksums. *)
Theorem crc32_detects_bursts (dm : data_model) (a x y b : list Z) :
  Forall (inU 8) a -> Forall (inU 8) x -> Forall (inU 8) y -> Forall (inU 8) b ->
  length x = length y -> (length x <= 4)%nat -> x <> y ->
  crc32buf dm (a ++ x ++ b) (length (a ++ x ++ b)) <> crc32buf dm (a ++ y ++ b) (length (a ++ y ++ b)).
Proof.
  intros Ha Hx Hy Hb Hl H4 Hne. rewrite !crc32buf_ok by (repeat apply Forall_app_2; assumption).
  intros H. injection H as H. unfold crc_value, crc_register in H. rewrite !fold_left_app in H.
  apply Hne. pose proof (crc_register_word a 0xFFFFFFFF ltac:(clia) Ha) as Wa.
  change (fold_left crc_byte a 0xFFFFFFFF) with (crc_register a 0xFFFFFFFF) in H.
  set (r := crc_register a 0xFFFFFFFF) in *. apply (crc_burst x y r Wa Hx Hy Hl H4).
  apply (crc_register_inj b); [now apply crc_register_word|now apply crc_register_word|exact Hb|].
  unfold crc_register in *. lia.
Qed.

Lemma crc32_detects_bursts_witness :
  crc32buf ILP32 ([1] ++ [2; 3] ++ [4]) 4 <> crc32buf ILP32 ([1] ++ [2; 7] ++ [4]) 4.
Proof.
  apply (crc32_detects_bursts ILP32 [1] [2; 3] [2; 7] [4]); by_eval.
Defined.
