(* ===== verification/Isqrt.v ===== *)
(** The integer square root of src/mibench/automotive/basicmath/isqrt.c.

    [x], [a], [r] and [e] are [unsigned long], so the function takes the data model. *)
From stdpp Require Import base list numbers option tactics.
From Stdlib Require Import ZArith Lia.
From S2P Require Import Prelude.

Definition BITSPERLONG : Z := 32.

Section Model.
Context (dm : data_model).

(** [TOP2BITS(x)]; the mask [3L << 30] is converted to [unsigned long]. *)
Definition TOP2BITS (x : Z) : Z := Z.land x (uL dm (3 ≪ (BITSPERLONG - 2))) ≫ (BITSPERLONG - 2).

Record vars := Vars { v_x : Z; v_a : Z; v_r : Z }.

Definition usqrt_body (s : vars) : vars :=
  let r := uL dm (uL dm (v_r s ≪ 2) + TOP2BITS (v_x s)) in
  let x := uL dm (v_x s ≪ 2) in
  let a := uL dm (v_a s ≪ 1) in
  let e := uL dm (uL dm (a ≪ 1) + 1) in
  if e <=? r then Vars x (uL dm (a + 1)) (uL dm (r - e)) else Vars x a r.

Fixpoint usqrt_loop (n : nat) (s : vars) : vars :=
  match n with O => s | S n => usqrt_loop n (usqrt_body s) end.

(** [q] is the pair of [sqrt] and [frac], of 32 bits each; the [memcpy] of [sizeof(long)] bytes
    stores the accumulator over the first of them, or over both (least significant half first). *)
Definition usqrt (x : Z) (q : Z * Z) : Z * Z :=
  let a := v_a (usqrt_loop (Z.to_nat BITSPERLONG) (Vars x 0 0)) in
  match dm with
  | ILP32 => (a, q.2)
  | LP64 => (a mod 2 ^ 32, a / 2 ^ 32)
  end.
End Model.

Example usqrt_144 : usqrt LP64 144 (7, 7) = (12 * 65536, 0) /\ usqrt ILP32 144 (7, 7) = (12 * 65536, 7).
Proof. vm_compute. split; reflexivity. Qed.

Section Proof.
Context (dm : data_model) (x : Z) (Hx : inU (long_bits dm) x) (Hdm : dm = LP64 \/ x < 2 ^ 28).
Implicit Types (i : Z) (s : vars).

(** The digits in base four that are used after [i] iterations. *)
Definition digits i : Z := (x mod 2 ^ 32) * 4 ^ i / 2 ^ 32.

(** The grammar-school step: one more digit of the radicand, one more bit of the root. *)
Lemma sqrt_digit n t : 0 <= n -> 0 <= t < 4 ->
  let a := Z.sqrt n in let r := n - a * a in
  Z.sqrt (4 * n + t) = if 4 * a + 1 <=? 4 * r + t then 2 * a + 1 else 2 * a.
Proof.
  intros Hn Ht a r. pose proof (Z.sqrt_spec n Hn) as H. fold a in H.
  destruct (Z.leb_spec (4 * a + 1) (4 * r + t)); apply Z.sqrt_unique; unfold r in *; lia.
Qed.

Lemma top2 y : TOP2BITS dm y = (y / 2 ^ 30) mod 4.
Proof.
  unfold TOP2BITS, BITSPERLONG. rewrite uL_id by (change (3 ≪ (32 - 2)) with 0xC0000000; clia).
  change (3 ≪ (32 - 2)) with (Z.ones 2 ≪ 30). rewrite land_field by lia.
  change (32 - 2) with 30. rewrite Z.shiftr_div_pow2, Z.div_mul by lia. reflexivity.
Qed.

Lemma digits_range i : 0 <= i <= 31 -> 0 <= digits i /\ Z.sqrt (digits i) < 2 ^ 31 /\
  (dm = ILP32 -> Z.sqrt (digits i) < 2 ^ 29).
Proof.
  intros Hi. unfold digits.
  assert (0 < 4 ^ i <= 4 ^ 31) as Hp by (split; [lia|apply Z.pow_le_mono_r; lia]). change (4 ^ 31) with 4611686018427387904 in Hp.
  assert (0 <= x mod 2 ^ 32 < 2 ^ 32) as Hm by (apply Z.mod_pos_bound; lia).
  split; [apply Z.div_pos; lia|]. split.
  - apply Z.sqrt_lt_square; [apply Z.div_pos; lia|lia|]. apply Z.div_lt_upper_bound; [lia|]. cint_unfold. nia.
  - intros E. destruct Hdm as [E'|Hs]; [congruence|]. assert (x mod 2 ^ 32 < 2 ^ 28) as Hxs.
    { rewrite Z.mod_small; [exact Hs|]. unfold inU in Hx. lia. }
    apply Z.sqrt_lt_square; [apply Z.div_pos; lia|lia|]. apply Z.div_lt_upper_bound; [lia|]. cint_unfold. nia.
Qed.

Lemma wrap_top y : (wrapU (long_bits dm) y / 2 ^ 30) mod 4 = (y / 2 ^ 30) mod 4.
Proof. clear. unfold wrapU. destruct dm; cbn [long_bits]; cint_unfold; dlia. Qed.

Lemma digits_carry z k : z * 4 / 2 ^ 32 = 4 * (z / 2 ^ 32) + ((z + k * 2 ^ 32) / 2 ^ 30) mod 4.
Proof. clear. cint_unfold. dlia. Qed.

Lemma digits_step i : 0 <= i <= 31 -> digits (i + 1) = 4 * digits i + TOP2BITS dm (wrapU (long_bits dm) (x * 4 ^ i)).
Proof.
  intros Hi. rewrite top2, wrap_top. unfold digits.
  replace (x * 4 ^ i) with (x mod 2 ^ 32 * 4 ^ i + x / 2 ^ 32 * 4 ^ i * 2 ^ 32)
    by (transitivity ((2 ^ 32 * (x / 2 ^ 32) + x mod 2 ^ 32) * 4 ^ i); [ring|];
        f_equal; symmetry; apply Z.div_mod; lia).
  rewrite Z.pow_add_r, Z.mul_assoc by lia. apply digits_carry.
Qed.

(** After [i] iterations. *)
Definition usqrt_inv i s : Prop :=
  v_x s = wrapU (long_bits dm) (x * 4 ^ i) /\ v_a s = Z.sqrt (digits i) /\
  v_r s = digits i - Z.sqrt (digits i) * Z.sqrt (digits i).

Lemma usqrt_step i s : 0 <= i <= 31 -> usqrt_inv i s -> usqrt_inv (i + 1) (usqrt_body dm s).
Proof.
  intros Hi (H1 & H2 & H3). destruct (digits_range i Hi) as (Hn & Ha & Ha').
  pose proof (Z.sqrt_nonneg (digits i)) as H0. pose proof (Z.sqrt_spec (digits i) Hn) as Hs. cbv zeta in Hs.
  pose proof (top2 (v_x s)) as Ht. pose proof (Z.mod_pos_bound (v_x s / 2 ^ 30) 4 ltac:(lia)) as Htr. rewrite <- Ht in Htr.
  pose proof (digits_step i Hi) as Hd. rewrite <- H1 in Hd.
  pose proof (sqrt_digit (digits i) (TOP2BITS dm (v_x s)) Hn Htr) as Hsq. cbv zeta in Hsq. rewrite <- Hd in Hsq.
  assert (uL dm (v_x s ≪ 2) = wrapU (long_bits dm) (x * 4 ^ (i + 1))) as Hx'.
  { rewrite H1, Z.shiftl_mul_pow2 by lia. unfold wrapU. rewrite Zmult_mod_idemp_l.
    rewrite Z.pow_add_r by lia. f_equal. lia. }
  assert (0 <= v_r s <= 2 * v_a s /\ v_a s < 2 ^ 31 /\ (dm = ILP32 -> v_a s < 2 ^ 29)) as (Hr & Hab & Hab')
    by (rewrite H2, H3; split; [lia|split; [exact Ha|exact Ha']]).
  rewrite <- H3, <- H2 in Hsq. unfold usqrt_body.
  assert (forall y, 0 <= y <= 4 * v_r s + 3 \/ 0 <= y <= 4 * v_a s + 2 -> uL dm y = y) as Hid.
  { intros y Hy. apply wrapU_id. unfold inU. destruct dm; cbn [long_bits] in *; cint_unfold; [specialize (Hab' eq_refl)|]; lia. }
  rewrite Hx', !Z.shiftl_mul_pow2 by lia. change (2 ^ 2) with 4. change (2 ^ 1) with 2.
  rewrite (Hid (v_r s * 4)), (Hid (v_r s * 4 + _)), (Hid (v_a s * 2)), (Hid (v_a s * 2 * 2)), (Hid (v_a s * 2 * 2 + 1)) by lia.
  replace (v_a s * 2 * 2 + 1) with (4 * v_a s + 1) by lia. replace (v_r s * 4) with (4 * v_r s) by lia.
  revert Hsq. destruct (Z.leb_spec (4 * v_a s + 1) (4 * v_r s + TOP2BITS dm (v_x s))); intros Hsq.
  - unfold usqrt_inv. cbn [v_x v_a v_r]. rewrite (Hid (v_a s * 2 + 1)) by lia. rewrite (Hid (_ - _)) by lia.
    split; [reflexivity|]. split; [lia|]. rewrite Hsq, Hd. lia.
  - unfold usqrt_inv. cbn [v_x v_a v_r]. split; [reflexivity|]. split; [lia|]. rewrite Hsq, Hd. lia.
Qed.

Lemma usqrt_loop_inv n : forall i s, 0 <= i -> i + Z.of_nat n = 32 -> usqrt_inv i s -> usqrt_inv 32 (usqrt_loop dm n s).
Proof.
  induction n as [|n IH]; intros i s H0 Hi Hs; cbn [usqrt_loop]; [now replace 32 with i by lia|].
  apply (IH (i + 1)); [lia|lia|]. apply usqrt_step; [lia|exact Hs].
Qed.

Lemma usqrt_acc : v_a (usqrt_loop dm (Z.to_nat BITSPERLONG) (Vars x 0 0)) = Z.sqrt ((x mod 2 ^ 32) * 2 ^ 32).
Proof.
  destruct (usqrt_loop_inv 32 0 (Vars x 0 0)) as (_ & H & _); [lia|lia| |].
  - unfold usqrt_inv. cbn [v_x v_a v_r]. assert (digits 0 = 0) as ->.
    { unfold digits. rewrite Z.pow_0_r, Z.mul_1_r. apply Z.div_small, Z.mod_pos_bound. lia. }
    split; [|split; reflexivity]. rewrite Z.pow_0_r, Z.mul_1_r. symmetry. apply wrapU_id, Hx.
  - change (Z.to_nat BITSPERLONG) with 32%nat. rewrite H. f_equal. unfold digits.
    change (4 ^ 32) with (2 ^ 32 * 2 ^ 32). rewrite Z.mul_assoc, Z.div_mul by lia. reflexivity.
Qed.
End Proof.

(** * Properties *)

(** With 64-bit long, and with 32-bit long for arguments below 2^28, usqrt stores the
    integer square root of its argument (the low 32 bits of it) times 2^32, that is the square
    root with 16 binary places, over the first field; with 64-bit long the second field becomes
    0, with 32-bit long it is not written. *)
Theorem usqrt_floor (dm : data_model) (x : Z) (q : Z * Z) :
  inU (long_bits dm) x -> dm = LP64 \/ x < 2 ^ 28 ->
  let root := Z.sqrt ((x mod 2 ^ 32) * 2 ^ 32) in
  usqrt dm x q = (root, match dm with ILP32 => q.2 | LP64 => 0 end) /\
  root * root <= (x mod 2 ^ 32) * 2 ^ 32 < (root + 1) * (root + 1).
Proof.
  intros Hx Hdm root. pose proof (Z.mod_pos_bound x (2 ^ 32) ltac:(lia)) as Hm.
  split; [|apply Z.sqrt_spec; lia]. unfold usqrt. rewrite usqrt_acc by assumption. fold root.
  assert (0 <= root < 2 ^ 32) as Hr.
  { split; [apply Z.sqrt_nonneg|]. apply Z.sqrt_lt_square; [lia|lia|]. cint_unfold. nia. }
  destruct dm; [reflexivity|]. rewrite Z.mod_small, Z.div_small by exact Hr. reflexivity.
Qed.

Lemma usqrt_floor_witness : usqrt LP64 2 (0, 0) = (Z.sqrt (2 * 2 ^ 32), 0) /\ Z.sqrt (2 * 2 ^ 32) = 92681.
Proof.
  split; [|vm_compute; reflexivity].
  exact (proj1 (usqrt_floor LP64 2 (0, 0) ltac:(cbn [long_bits]; clia) (or_introl eq_refl))).
Defined.

(** With 32-bit long there is an argument, 2^31, for which usqrt does not return the square
    root, because the remainder overflows; with 64-bit long it does. *)
Theorem usqrt_ilp32_overflow (q : Z * Z) :
  exists x, inU 32 x /\ (usqrt ILP32 x q).1 <> Z.sqrt (x * 2 ^ 32) /\ (usqrt LP64 x q).1 = Z.sqrt (x * 2 ^ 32).
Proof. exists (2 ^ 31). split; [clia|]. split; vm_compute; [discriminate|reflexivity]. Qed.
