(* ===== verification/StringSearch.v ===== *)
(** Boyer-Moore-Horspool string search (src/mibench/office/stringsearch): bmhsrch.c (exact),
    bmhisrch.c (case-insensitive through [toupper] and [tolower]), bmhasrch.c (case- and
    accent-insensitive through a table) and the functions of pbmsrch_small.c and pbmsrch_large.c.

    A string is the list of its bytes before the terminating zero. A search returns the offset of
    the occurrence in the string, or [None] for the null pointer. *)
From stdpp Require Import base list numbers option tactics.
From Stdlib Require Import ZArith Lia.
From S2P Require Import Prelude Bytes.

Definition UCHAR_MAX : Z := 255.
Definition LARGE : Z := 32767.

(** The static variables of each of the three files. *)
Record bmh := Bmh { patlen : Z; skip : list Z; skip2 : Z; pat : list Z }.

(** ** Initialisation *)

(** [for (i = 0; i <= UCHAR_MAX; ++i) skip[i] = patlen;] *)
Definition skip_fill (m : Z) (sk : list Z) : res (list Z) :=
  cfor (Z.to_nat (UCHAR_MAX + 1)) 0 (fun i sk => aset sk i m) sk.
(** [skip2] after the loop over the pattern, with [eqc x y] for the comparison of a pattern
    character with the last one. *)
Definition skip2_loop (eqc : Z -> Z -> res bool) (p : list Z) (m : Z) (last : res Z) : res Z :=
  cfor (Z.to_nat (m - 1)) 0 (fun i k => c ← aget p i; l ← last; b ← eqc c l; mret (if b : bool then m - i - 1 else k)) m.
Definition eq_char (x y : Z) : res bool := mret (x =? y).

(** bmhsrch.c; [sk] is the previous contents of [skip]. *)
Definition bmh_init (pattern sk : list Z) : res bmh :=
  let m := Z.of_nat (length pattern) in
  sk ← skip_fill m sk;
  sk ← cfor (Z.to_nat m) 0 (fun i sk => c ← aget pattern i; aset sk c (m - i - 1)) sk;
  lastpatchar ← aget pattern (m - 1);
  sk ← aset sk lastpatchar LARGE;
  k2 ← skip2_loop eq_char pattern m (mret lastpatchar);
  mret (Bmh m sk k2 pattern).

(** bmhisrch.c, when [realloc] finds the memory. *)
Definition bmhi_init (pattern sk : list Z) : res bmh :=
  let m := Z.of_nat (length pattern) in
  let p := (fun c => u8 (toupper c)) <$> pattern in
  sk ← skip_fill m sk;
  sk ← cfor (Z.to_nat (m - 1)) 0 (fun i sk =>
         c ← aget p i; sk ← aset sk c (m - i - 1); aset sk (tolower c) (m - i - 1)) sk;
  lastpatchar ← aget p (m - 1);
  sk ← aset sk lastpatchar LARGE;
  sk ← aset sk (tolower lastpatchar) LARGE;
  k2 ← skip2_loop eq_char p m (mret lastpatchar);
  mret (Bmh m sk k2 p).

(** bmhasrch.c. *)
Definition lowervec : list Z :=
  [0; 1; 2; 3; 4; 5; 6; 7; 8; 9; 10; 11; 12; 13; 14; 15;
   16; 17; 18; 19; 20; 21; 22; 23; 24; 25; 26; 27; 28; 29; 30; 31;
   32; 33; 34; 35; 36; 37; 38; 39; 40; 41; 42; 43; 44; 45; 46; 47;
   48; 49; 50; 51; 52; 53; 54; 55; 56; 57; 58; 59; 60; 61; 62; 63;
   64; 97; 98; 99; 100; 101; 102; 103; 104; 105; 106; 107; 108; 109; 110; 111;
   112; 113; 114; 115; 116; 117; 118; 119; 120; 121; 122; 91; 92; 93; 94; 95;
   96; 97; 98; 99; 100; 101; 102; 103; 104; 105; 106; 107; 108; 109; 110; 111;
   112; 113; 114; 115; 116; 117; 118; 119; 120; 121; 122; 123; 124; 125; 126; 127;
   99; 117; 101; 97; 97; 97; 97; 99; 101; 101; 101; 105; 105; 105; 97; 97;
   101; 145; 146; 111; 111; 111; 117; 117; 121; 111; 117; 155; 156; 157; 158; 159;
   97; 105; 111; 117; 110; 110; 166; 167; 168; 169; 170; 171; 172; 173; 174; 175;
   176; 177; 178; 179; 180; 181; 182; 183; 184; 185; 186; 187; 188; 189; 190; 191;
   192; 193; 194; 195; 196; 197; 198; 199; 200; 201; 202; 203; 204; 205; 206; 207;
   208; 209; 210; 211; 212; 213; 214; 215; 216; 217; 218; 219; 220; 221; 222; 223;
   224; 225; 226; 227; 228; 229; 230; 231; 232; 233; 234; 235; 236; 237; 238; 239;
   240; 241; 242; 243; 244; 245; 246; 247; 248; 249; 250; 251; 252; 253; 254; 255].
Definition lowerc (c : Z) : res Z := aget lowervec (u8 c).
Definition eq_lower (x y : Z) : res bool := a ← lowerc x; b ← lowerc y; mret (a =? b).

(** The loop [for (j = patlen - 1; j >= 0; --j)] from [j] = [n] - 1 on: the value of [j] at its end. *)
Fixpoint last_match (n : nat) (p : list Z) (i : Z) : res Z :=
  match n with
  | O => mret (-1)
  | S n => c ← aget p (Z.of_nat n); b ← eq_lower i c; if b : bool then mret (Z.of_nat n) else last_match n p i
  end.

Definition bmha_init (pattern sk : list Z) : res bmh :=
  let m := Z.of_nat (length pattern) in
  sk ← cfor (Z.to_nat (UCHAR_MAX + 1)) 0 (fun i sk =>
         sk ← aset sk i m;
         j ← last_match (length pattern) pattern i;
         sk ← (if 0 <=? j then aset sk i (m - j - 1) else mret sk);
         if j =? m - 1 then aset sk i LARGE else mret sk) sk;
  k2 ← skip2_loop eq_lower pattern m (aget pattern (m - 1));
  mret (Bmh m sk k2 pattern).

(** ** Search *)

Section Search.
(** The comparison of a character of the string with one of the pattern. *)
Context (eqc : Z -> Z -> res bool).
Context (st : bmh) (string : list Z) (stringlen : Z).

(** [while ((i += skip[((uchar * )string)[i]]) < 0);] *)
Fixpoint skip_loop (fuel : nat) (i : Z) : res Z :=
  match fuel with
  | O => Err OutOfFuel
  | S fuel =>
      c ← aget string (stringlen + i);
      k ← aget (skip st) c;
      let i := i + k in
      if i <? 0 then skip_loop fuel i else mret i
  end.

(** [while (--j >= 0 && s[j] == pat[j]);] from the given [j] on, with [s] at offset [o]: the final [j]. *)
Fixpoint cmp_loop (j : nat) (o : Z) : res Z :=
  match j with
  | O => mret (-1)
  | S j => c ← aget string (o + Z.of_nat j); p ← aget (pat st) (Z.of_nat j);
      b ← eqc c p; if b : bool then cmp_loop j o else mret (Z.of_nat j)
  end.

Fixpoint search_loop (fuel : nat) (i : Z) : res (option Z) :=
  match fuel with
  | O => Err OutOfFuel
  | S fuel =>
      i ← skip_loop (S (Z.to_nat stringlen)) i;
      if i <? LARGE - stringlen then mret None
      else
        let i := i - LARGE in
        let j := patlen st - 1 in
        let s := stringlen + (i - j) in
        j ← cmp_loop (Z.to_nat j) s;
        if j <? 0 then mret (Some s)
        else
          let i := i + skip2 st in
          if 0 <=? i then mret None else search_loop fuel i
  end.

Definition search : res (option Z) :=
  let i := patlen st - 1 - stringlen in
  if 0 <=? i then mret None else search_loop (S (Z.to_nat stringlen)) i.
End Search.

(** [toupper(s[j]) == pat[j]] *)
Definition eq_upper (x y : Z) : res bool := mret (toupper x =? y).

Definition bmh_search := search eq_char.
Definition bmhi_search := search eq_upper.
Definition bmha_search := search eq_lower.

(** ** pbmsrch_small.c *)

Section Pbm.
Context (dm : data_model).

(** [table], [len] and [findme]; [tb] is the previous contents of [table]. *)
Record pbm := Pbm { table : list Z; len : Z; findme : list Z }.

Definition init_search (string tb : list Z) : res pbm :=
  let n := Z.of_nat (length string) in
  tb ← cfor (Z.to_nat (UCHAR_MAX + 1)) 0 (fun i tb => aset tb i n) tb;
  tb ← cfor (Z.to_nat n) 0 (fun i tb => c ← aget string i; aset tb c (uL dm (uL dm (n - i) - 1))) tb;
  mret (Pbm tb n string).

Section Strsearch.
Context (st : pbm) (string : list Z).
Let limit := Z.of_nat (length string).

(** The inner loop: the last [shift] read, if any, and [pos]. *)
Fixpoint shift_loop (fuel : nat) (shift : option Z) (pos : Z) : res (option Z * Z) :=
  match fuel with
  | O => Err OutOfFuel
  | S fuel =>
      if pos <? limit then
        c ← aget string pos;
        shift ← aget (table st) c;
        if 0 <? shift then shift_loop fuel (Some shift) (uL dm (pos + shift)) else mret (Some shift, pos)
      else mret (shift, pos)
  end.

(** [strncmp(findme, &string[o], len)] is zero: the [len] characters agree, or both strings end. *)
Definition strncmp_eq (o : Z) : bool :=
  bool_decide (take (Z.to_nat (len st)) (findme st) = take (Z.to_nat (len st)) (drop (Z.to_nat o) string)).

Fixpoint pos_loop (fuel : nat) (shift : option Z) (pos : Z) : res (option Z) :=
  match fuel with
  | O => Err OutOfFuel
  | S fuel =>
      if pos <? limit then
        '(shift, pos) ← shift_loop (S (S (length string))) shift pos;
        match shift with
        | Some 0 =>
            let here := uL dm (uL dm (pos - len st) + 1) in
            if strncmp_eq here then mret (Some here) else pos_loop fuel shift (uL dm (pos + 1))
        | _ => pos_loop fuel shift pos
        end
      else mret None
  end.

Definition strsearch : res (option Z) := pos_loop (S (S (length string))) None (uL dm (len st - 1)).
End Strsearch.
End Pbm.

Example bmh_abc : (st ← bmh_init [97; 98; 99] (replicate 256 0); bmh_search st [97; 97; 98; 97; 98; 99; 97] 7) = Ok (Some 3).
Proof. vm_compute. reflexivity. Qed.
Example bmhi_abc : (st ← bmhi_init [97; 66; 99] (replicate 256 0); bmhi_search st [97; 97; 98; 65; 98; 67; 97] 7) = Ok (Some 3).
Proof. vm_compute. reflexivity. Qed.
Example bmha_abc : (st ← bmha_init [97; 66; 99] (replicate 256 0); bmha_search st [97; 97; 98; 65; 98; 128; 97] 7) = Ok (Some 3).
Proof. vm_compute. reflexivity. Qed.
Example pbm_abc : (st ← init_search LP64 [97; 66; 99] (replicate 256 0); strsearch LP64 st [97; 97; 98; 97; 66; 99; 97]) = Ok (Some 3).
Proof. vm_compute. reflexivity. Qed.

(** * Correctness *)

(** [pat] occurs at offset [o] of [T], comparing through [kt] and [kp]. *)
Definition occurs (kt kp : Z -> Z) (T P : list Z) (o : nat) : Prop :=
  (o + length P <= length T)%nat /\ forall j, (j < length P)%nat -> kt (T !!! (o + j)%nat) = kp (P !!! j).

(** The result of a search is the first occurrence, or [None] when there is none. *)
Definition first_occurrence (kt kp : Z -> Z) (T P : list Z) (r : option Z) : Prop :=
  match r with
  | Some z => exists o, z = Z.of_nat o /\ occurs kt kp T P o /\ forall o', (o' < o)%nat -> ~ occurs kt kp T P o'
  | None => forall o, ~ occurs kt kp T P o
  end.

Section Correct.
Context (kt kp : Z -> Z) (P : list Z).
Context (HP : Forall (inU 8) P) (Hm : P <> []).
Implicit Types (T sk : list Z) (o j p n : nat) (c k : Z).
Local Notation m := (length P).
Local Notation last := (P !!! (length P - 1)%nat).

Lemma m_pos : (1 <= m)%nat.
Proof. clear HP. destruct P; [contradiction|cbn; lia]. Qed.

(** No character of the pattern strictly after position [m - 1 - k] and before the last is [x]. *)
Definition clear_above (x k : Z) : Prop :=
  1 <= k <= Z.of_nat m /\ forall j, (j < m - 1)%nat -> Z.of_nat m - 1 - k < Z.of_nat j -> kp (P !!! j) <> x.

Definition table_ok sk : Prop := length sk = 256%nat /\ forall c, inU 8 c ->
  if kt c =? kp last then sk !!! Z.to_nat c = LARGE else clear_above (kt c) (sk !!! Z.to_nat c).
Definition bmh_ok (s : bmh) : Prop :=
  patlen s = Z.of_nat m /\ pat s = P /\ table_ok (skip s) /\ clear_above (kp last) (skip2 s).

Section SearchOk.
Context (eqc : Z -> Z -> res bool) (Heq : forall (c c2 : Z), inU 8 c -> inU 8 c2 -> eqc c c2 = Ok (kt c =? kp c2)).
Context (st : bmh) (Hst : bmh_ok st) (T : list Z) (n : nat).
Context (HT : Forall (inU 8) T) (Hn : (n <= length T)%nat) (HL : Z.of_nat m + Z.of_nat n < LARGE).
Local Notation occ := (occurs kt kp (take n T) P).

(** No occurrence ends before position [p]. *)
Definition none_before p : Prop := forall o, (o + (m - 1) < p)%nat -> ~ occ o.

Lemma text_byte p : (p < n)%nat -> inU 8 (T !!! p).
Proof. intros Hp. eapply Forall_lookup_1; [exact HT|]. apply list_lookup_lookup_total_lt. lia. Qed.

Lemma pat_byte j : (j < m)%nat -> inU 8 (P !!! j).
Proof. intros Hj. eapply Forall_lookup_1; [exact HP|]. apply list_lookup_lookup_total_lt. lia. Qed.

Lemma occ_char o j : occ o -> (j < m)%nat -> kt (T !!! (o + j)%nat) = kp (P !!! j) /\ (o + j < n)%nat.
Proof.
  intros [Hl Ho] Hj. rewrite length_take in Hl. specialize (Ho j Hj). rewrite lookup_total_take_lt in Ho by lia. split; [exact Ho|lia].
Qed.

Lemma none_at_end p : none_before p -> (n <= p)%nat -> forall o, ~ occ o.
Proof.
  intros Hp Hnp o Ho. apply (Hp o); [|exact Ho]. destruct Ho as [Hl _]. rewrite length_take in Hl.
  pose proof m_pos. lia.
Qed.

(** Moving on by [k], given the character at [p]. *)
Lemma none_before_skip p k : none_before p -> (m - 1 <= p < n)%nat -> clear_above (kt (T !!! p)) k ->
  (forall o, (o + (m - 1))%nat = p -> ~ occ o) -> none_before (p + Z.to_nat k).
Proof.
  intros Hb Hp [Hk Hc] Hat o Ho Hocc. destruct (decide (o + (m - 1) < p)%nat) as [H|H]; [exact (Hb o H Hocc)|].
  destruct (decide (o + (m - 1) = p)%nat) as [He|He]; [exact (Hat o He Hocc)|].
  destruct (occ_char o (p - o) Hocc) as [E _]; [destruct Hocc as [Hl _]; rewrite length_take in Hl; lia|].
  replace (o + (p - o))%nat with p in E by lia. apply (Hc (p - o)%nat); [lia|lia|now symmetry].
Qed.

Lemma skip_loop_ok : forall fuel p, (n - p < fuel)%nat -> (m - 1 <= p < n)%nat -> none_before p ->
  okp (skip_loop st T (Z.of_nat n) fuel (Z.of_nat p - Z.of_nat n)) (fun i =>
    (i < LARGE - Z.of_nat n /\ forall o, ~ occ o) \/
    exists p', i = Z.of_nat p' - Z.of_nat n + LARGE /\ (p <= p' < n)%nat /\ kt (T !!! p') = kp last /\ none_before p').
Proof.
  destruct Hst as (_ & _ & [Hsl Hsk] & _). intros fuel. induction fuel as [|fuel IH]; intros p Hf Hp Hb; [lia|].
  cbn [skip_loop]. replace (Z.of_nat n + (Z.of_nat p - Z.of_nat n)) with (Z.of_nat p) by lia.
  rewrite aget_total by lia. cbn [mbind res_bind]. rewrite Nat2Z.id.
  pose proof (text_byte p ltac:(lia)) as Hc. rewrite aget_total by (unfold inU in Hc; lia). cbn [mbind res_bind].
  specialize (Hsk _ Hc). set (k := skip st !!! _) in *. destruct (Z.eqb_spec (kt (T !!! p)) (kp last)) as [E|E].
  - rewrite Hsk. rewrite (proj2 (Z.ltb_ge _ 0)) by lia. right. exists p. split; [lia|]. split; [lia|]. auto.
  - assert (none_before (p + Z.to_nat k)) as Hb'.
    { apply none_before_skip; [exact Hb|exact Hp|exact Hsk|]. intros o Ho Hocc.
      destruct (occ_char o (m - 1) Hocc) as [E' _]; [pose proof m_pos; lia|]. rewrite Ho in E'. contradiction. }
    destruct Hsk as [Hk _]. destruct (Z.ltb_spec (Z.of_nat p - Z.of_nat n + k) 0).
    + replace (Z.of_nat p - Z.of_nat n + k) with (Z.of_nat (p + Z.to_nat k) - Z.of_nat n) by lia.
      eapply okp_mono; [apply (IH (p + Z.to_nat k)%nat); [lia|lia|exact Hb']|].
      intros i [H'|(p' & H1 & H2 & H3)]; [now left|right]. exists p'. split; [exact H1|]. split; [lia|exact H3].
    + left. cbn [okp mret res_ret]. split; [lia|]. apply (none_at_end _ Hb'). lia.
Qed.

Lemma cmp_loop_ok o : (o + m <= n)%nat -> forall j, (j < m)%nat ->
  okp (cmp_loop eqc st T j (Z.of_nat o)) (fun r =>
    if r <? 0 then forall i, (i < j)%nat -> kt (T !!! (o + i)%nat) = kp (P !!! i)
    else exists i, (i < j)%nat /\ kt (T !!! (o + i)%nat) <> kp (P !!! i)).
Proof.
  intros Ho j. induction j as [|j IH]; intros Hj; cbn [cmp_loop].
  { cbn. intros. lia. }
  destruct Hst as (_ & -> & _). rewrite <- Nat2Z.inj_add, !aget_total by lia. cbn [mbind res_bind]. rewrite !Nat2Z.id.
  rewrite Heq by first [apply text_byte; lia|apply pat_byte; lia]. cbn [mbind res_bind].
  destruct (Z.eqb_spec (kt (T !!! (o + j)%nat)) (kp (P !!! j))) as [E|E].
  - eapply okp_mono; [apply IH; lia|]. intros r H. cbv beta in *. revert H. destruct (r <? 0).
    + intros H i Hi. destruct (decide (i = j)) as [->|]; [exact E|]. apply H. lia.
    + intros (i & Hi & H). exists i. split; [lia|exact H].
  - cbn [okp mret res_ret]. rewrite (proj2 (Z.ltb_ge _ 0)) by lia. exists j. split; [lia|exact E].
Qed.

Lemma search_loop_ok : forall fuel p, (n - p < fuel)%nat -> (m - 1 <= p < n)%nat -> none_before p ->
  okp (search_loop eqc st T (Z.of_nat n) fuel (Z.of_nat p - Z.of_nat n)) (first_occurrence kt kp (take n T) P).
Proof.
  intros fuel. induction fuel as [|fuel IH]; intros p Hf Hp Hb; [lia|]. cbn [search_loop]. rewrite Nat2Z.id.
  eapply okp_bind; [apply skip_loop_ok; [lia|exact Hp|exact Hb]|]. cbv beta.
  intros i [[Hi Hnone]|(p' & -> & Hp' & Elast & Hb')].
  { rewrite (proj2 (Z.ltb_lt _ _)) by exact Hi. exact Hnone. }
  rewrite (proj2 (Z.ltb_ge _ _)) by lia. cbv zeta.
  pose proof Hst as (Hpl & Hpat & _ & Hs2). pose proof m_pos.
  replace (Z.of_nat n + (Z.of_nat p' - Z.of_nat n + LARGE - LARGE - (patlen st - 1))) with (Z.of_nat (p' - (m - 1))) by lia.
  replace (Z.to_nat (patlen st - 1)) with (m - 1)%nat by lia.
  eapply okp_bind; [apply cmp_loop_ok; lia|]. cbv beta. intros r Hr. destruct (r <? 0).
  - exists (p' - (m - 1))%nat. split; [reflexivity|]. split.
    + split; [rewrite length_take; lia|]. intros j Hj. rewrite lookup_total_take_lt by lia.
      destruct (decide (j = m - 1)%nat) as [->|]; [|apply Hr; lia].
      replace (p' - (m - 1) + (m - 1))%nat with p' by lia. exact Elast.
    + intros o' Ho'. apply Hb'. lia.
  - destruct Hr as (j & Hj & Hne).
    assert (none_before (p' + Z.to_nat (skip2 st))) as Hb2.
    { apply none_before_skip; [exact Hb'|lia|rewrite Elast; exact Hs2|]. intros o Ho Hocc.
      destruct (occ_char o j Hocc) as [E _]; [lia|]. apply Hne. replace (p' - (m - 1) + j)%nat with (o + j)%nat by lia. exact E. }
    destruct Hs2 as [Hk2 _].
    destruct (Z.leb_spec 0 (Z.of_nat p' - Z.of_nat n + LARGE - LARGE + skip2 st)).
    + exact (none_at_end _ Hb2 ltac:(lia)).
    + replace (Z.of_nat p' - Z.of_nat n + LARGE - LARGE + skip2 st) with (Z.of_nat (p' + Z.to_nat (skip2 st)) - Z.of_nat n) by lia.
      apply IH; [lia|lia|exact Hb2].
Qed.

Lemma search_ok : okp (search eqc st T (Z.of_nat n)) (first_occurrence kt kp (take n T) P).
Proof.
  unfold search. pose proof Hst as (Hpl & _). rewrite Hpl. pose proof m_pos.
  destruct (Z.leb_spec 0 (Z.of_nat m - 1 - Z.of_nat n)).
  - cbn [okp mret res_ret]. intros o [Hl _]. rewrite length_take in Hl. lia.
  - replace (Z.of_nat m - 1 - Z.of_nat n) with (Z.of_nat (m - 1) - Z.of_nat n) by lia.
    rewrite Nat2Z.id. apply search_loop_ok; [lia|lia|]. intros o Ho. lia.
Qed.
End SearchOk.
End Correct.

(** ** The tables *)

Section Init.
Implicit Types (P T sk : list Z) (j n : nat) (c k x : Z).

Lemma byte_total (P : list Z) j : Forall (inU 8) P -> (j < length P)%nat -> inU 8 (P !!! j).
Proof. intros HP Hj. eapply Forall_lookup_1; [exact HP|]. now apply list_lookup_lookup_total_lt. Qed.

(** Storing in a table of 256 entries. *)
Lemma okp_table sk c v (Q : list Z -> Prop) : length sk = 256%nat -> inU 8 c ->
  (forall sk', length sk' = 256%nat -> (forall c', inU 8 c' ->
     sk' !!! Z.to_nat c' = if c' =? c then v else sk !!! Z.to_nat c') -> Q sk') ->
  okp (aset sk c v) Q.
Proof.
  intros Hl Hc HQ. unfold inU in Hc. change (2 ^ 8) with 256 in Hc.
  unfold aset. rewrite (proj2 (Z.leb_le _ _)), (proj2 (Z.ltb_lt _ _)) by lia. cbn [andb okp]. apply HQ.
  - now rewrite length_insert.
  - intros c' Hc'. unfold inU in Hc'. destruct (Z.eqb_spec c' c) as [->|Hne].
    + apply list_lookup_total_insert_eq. lia.
    + apply list_lookup_total_insert_ne. lia.
Qed.

Lemma skip_fill_ok m sk : length sk = 256%nat ->
  okp (skip_fill m sk) (fun sk' => length sk' = 256%nat /\ forall c, inU 8 c -> sk' !!! Z.to_nat c = m).
Proof.
  intros Hl. unfold skip_fill. change (Z.to_nat (UCHAR_MAX + 1)) with 256%nat.
  eapply okp_mono; [apply (okp_cfor (fun i sk' => length sk' = 256%nat /\ forall c, inU 8 c -> c < i -> sk' !!! Z.to_nat c = m))|].
  - split; [exact Hl|]. intros c Hc. unfold inU in Hc. lia.
  - intros i sk' Hi [Hl' H]. apply okp_table; [exact Hl'|unfold inU; change (2 ^ 8) with 256; lia|].
    intros sk2 Hl2 H2. split; [exact Hl2|]. intros c Hc Hlt. rewrite (H2 c Hc). destruct (Z.eqb_spec c i); [reflexivity|].
    apply H; [exact Hc|lia].
  - cbv beta. intros sk' [Hl' H]. split; [exact Hl'|]. intros c Hc. apply H; [exact Hc|]. unfold inU in Hc.
    change (2 ^ 8) with 256 in Hc. lia.
Qed.

Lemma skip2_ok kp P eqc : (forall x y, inU 8 x -> inU 8 y -> eqc x y = Ok (kp x =? kp y)) -> Forall (inU 8) P -> P <> [] ->
  okp (skip2_loop eqc P (Z.of_nat (length P)) (mret (P !!! (length P - 1)%nat)))
    (clear_above kp P (kp (P !!! (length P - 1)%nat))).
Proof.
  intros Heq HP Hne. pose proof (m_pos P Hne) as Hm. unfold skip2_loop.
  set (l := P !!! (length P - 1)%nat). set (m := Z.of_nat (length P)).
  eapply okp_mono; [apply (okp_cfor (fun i k => 1 <= k <= m /\ forall j, Z.of_nat j < i -> m - 1 - k < Z.of_nat j -> kp (P !!! j) <> kp l))|].
  - split; [lia|]. intros j Hj. lia.
  - intros i k Hi [Hk Hc]. rewrite aget_total by lia. cbn [mbind res_bind mret res_ret].
    rewrite Heq by (apply byte_total; [exact HP|lia]). cbn [mbind res_bind okp].
    destruct (Z.eqb_spec (kp (P !!! Z.to_nat i)) (kp l)) as [E|E].
    + split; [lia|]. intros j Hj Hj'. lia.
    + split; [exact Hk|]. intros j Hj Hj'. destruct (decide (Z.of_nat j = i)) as [<-|]; [rewrite Nat2Z.id in E; exact E|].
      apply Hc; lia.
  - cbv beta. intros k [Hk Hc]. split; [exact Hk|]. intros j Hj Hj'. apply Hc; [lia|exact Hj'].
Qed.

(** *** bmhsrch.c *)

Lemma eq_char_ok x y : inU 8 x -> inU 8 y -> eq_char x y = Ok (x =? y).
Proof. reflexivity. Qed.

Lemma bmh_init_ok P sk : Forall (inU 8) P -> P <> [] -> length sk = 256%nat ->
  okp (bmh_init P sk) (bmh_ok (fun c => c) (fun c => c) P).
Proof.
  intros HP Hne Hl. pose proof (m_pos P Hne) as Hm. unfold bmh_init. cbv zeta.
  set (m := Z.of_nat (length P)).
  eapply okp_bind; [apply skip_fill_ok, Hl|]. intros sk1 [Hl1 H1].
  eapply okp_bind.
  { apply (okp_cfor (fun i sk' => length sk' = 256%nat /\ forall c, inU 8 c -> let k := sk' !!! Z.to_nat c in
      0 <= k <= m /\ (forall j, Z.of_nat j < i -> m - 1 - k < Z.of_nat j -> P !!! j <> c) /\
      (k < m -> m - 1 - k < i /\ P !!! Z.to_nat (m - 1 - k) = c))).
    - split; [exact Hl1|]. intros c Hc. cbv zeta. rewrite (H1 c Hc). split; [lia|]. split; [intros j Hj; lia|lia].
    - intros i sk' Hi [Hl' H']. rewrite aget_total by lia. cbn [mbind res_bind].
      apply okp_table; [exact Hl'|apply byte_total; [exact HP|lia]|]. intros sk2 Hl2 H2. split; [exact Hl2|].
      intros c Hc. cbv zeta. rewrite (H2 c Hc). specialize (H' c Hc). cbv zeta in H'.
      destruct (Z.eqb_spec c (P !!! Z.to_nat i)) as [->|Hd].
      + split; [lia|]. split; [intros j Hj Hj'; lia|]. intros _. split; [lia|]. f_equal. lia.
      + destruct H' as (Hk & Hc' & Hkm). split; [exact Hk|]. split.
        * intros j Hj Hj'. destruct (decide (Z.of_nat j = i)) as [<-|]; [rewrite Nat2Z.id in Hd; congruence|]. apply Hc'; lia.
        * intros H. destruct (Hkm H) as [H3 H4]. split; [lia|exact H4]. }
  cbv beta. intros sk2 [Hl2 H2]. rewrite aget_total by lia. cbn [mbind res_bind].
  replace (Z.to_nat (m - 1)) with (length P - 1)%nat by lia.
  assert (inU 8 (P !!! (length P - 1)%nat)) as Hlast by (apply byte_total; [exact HP|lia]).
  eapply okp_bind; [apply (okp_table _ _ _ (table_ok (fun c => c) (fun c => c) P)); [exact Hl2|exact Hlast|]|].
  - intros sk3 Hl3 H3. split; [exact Hl3|]. intros c Hc. rewrite (H3 c Hc).
    destruct (Z.eqb_spec c (P !!! (length P - 1)%nat)) as [|Hd]; [reflexivity|].
    destruct (H2 c Hc) as (Hk & Hc' & Hkm). split.
    + split; [|lia]. destruct (decide (sk2 !!! Z.to_nat c = 0)) as [E0|]; [|lia]. exfalso.
      destruct Hkm as [_ E]; [lia|]. apply Hd. rewrite <- E, E0. f_equal. lia.
    + intros j Hj Hj'. apply Hc'; lia.
  - intros sk3 Ht. eapply okp_bind; [apply (skip2_ok (fun c => c)); [apply eq_char_ok|exact HP|exact Hne]|].
    intros k2 Hk2. cbn [okp mret res_ret]. split; [reflexivity|]. split; [reflexivity|]. split; [exact Ht|exact Hk2].
Qed.

(** *** bmhisrch.c *)

Lemma toupper_byte x : inU 8 x -> inU 8 (toupper x).
Proof.
  unfold inU, toupper. change (2 ^ 8) with 256. intros H.
  destruct (Z.leb_spec 97 x), (Z.leb_spec x 122); cbn [andb]; lia.
Qed.

Lemma tolower_byte x : inU 8 x -> inU 8 (tolower x).
Proof.
  unfold inU, tolower. change (2 ^ 8) with 256. intros H.
  destruct (Z.leb_spec 65 x), (Z.leb_spec x 90); cbn [andb]; lia.
Qed.

(** The characters whose upper case is the upper case of [x]. *)
Lemma toupper_fibre c x : (toupper c =? toupper x) = (c =? toupper x) || (c =? tolower (toupper x)).
Proof.
  unfold toupper, tolower.
  destruct (Z.leb_spec 97 c), (Z.leb_spec c 122), (Z.leb_spec 97 x), (Z.leb_spec x 122); cbn [andb];
    repeat match goal with |- context [?a <=? ?b] => destruct (Z.leb_spec a b) end; cbn [andb];
    repeat match goal with |- context [?a =? ?b] => destruct (Z.eqb_spec a b) end; cbn [orb]; try reflexivity; lia.
Qed.

Definition upper (P : list Z) : list Z := toupper <$> P.

Lemma upper_bytes P : Forall (inU 8) P -> Forall (inU 8) (upper P).
Proof. intros H. apply Forall_fmap. eapply Forall_impl; [|exact H]. intros x. apply toupper_byte. Qed.

Lemma upper_total P j : (j < length P)%nat -> upper P !!! j = toupper (P !!! j).
Proof. intros Hj. apply (list_lookup_total_fmap toupper P j Hj). Qed.

Lemma bmhi_pat P : Forall (inU 8) P -> (fun c => u8 (toupper c)) <$> P = upper P.
Proof.
  intros HP. apply list_fmap_ext. intros i x Hx. apply wrapU_id, toupper_byte. eapply Forall_lookup_1; eauto.
Qed.

Lemma bmhi_init_ok P sk : Forall (inU 8) P -> P <> [] -> length sk = 256%nat ->
  okp (bmhi_init P sk) (bmh_ok toupper (fun c => c) (upper P)).
Proof.
  intros HP Hne Hl. pose proof (m_pos P Hne) as Hm. unfold bmhi_init. cbv zeta. rewrite (bmhi_pat P HP).
  pose proof (upper_bytes P HP) as HU. assert (length (upper P) = length P) as HlU by apply length_fmap.
  set (m := Z.of_nat (length P)).
  eapply okp_bind; [apply skip_fill_ok, Hl|]. intros sk1 [Hl1 H1].
  eapply okp_bind.
  { apply (okp_cfor (fun i sk' => length sk' = 256%nat /\ forall c, inU 8 c -> let k := sk' !!! Z.to_nat c in
      1 <= k <= m /\ forall j, Z.of_nat j < i -> m - 1 - k < Z.of_nat j -> upper P !!! j <> toupper c)).
    - split; [exact Hl1|]. intros c Hc. cbv zeta. rewrite (H1 c Hc). split; [lia|]. intros j Hj. lia.
    - intros i sk' Hi [Hl' H']. rewrite aget_total by lia. cbn [mbind res_bind].
      pose proof (byte_total (upper P) (Z.to_nat i) HU ltac:(lia)) as Hb.
      eapply okp_bind; [apply (okp_table _ _ _ (fun s => length s = 256%nat /\ forall c', inU 8 c' ->
         s !!! Z.to_nat c' = if c' =? upper P !!! Z.to_nat i then m - i - 1 else sk' !!! Z.to_nat c')); [exact Hl'|exact Hb|auto]|].
      cbv beta. intros sk2 [Hl2 H2].
      apply okp_table; [exact Hl2|now apply tolower_byte|]. intros sk3 Hl3 H3. split; [exact Hl3|].
      intros c Hc. cbv zeta. rewrite (H3 c Hc), (H2 c Hc). specialize (H' c Hc). cbv zeta in H'.
      assert ((toupper c =? upper P !!! Z.to_nat i) = (c =? upper P !!! Z.to_nat i) || (c =? tolower (upper P !!! Z.to_nat i))) as Hf
        by (rewrite upper_total by lia; apply toupper_fibre).
      destruct (c =? tolower (upper P !!! Z.to_nat i)), (c =? upper P !!! Z.to_nat i); cbn [orb] in Hf;
        try (split; [lia|]; intros j Hj Hj'; lia).
      apply Z.eqb_neq in Hf. destruct H' as [Hk Hc']. split; [exact Hk|]. intros j Hj Hj'.
      destruct (decide (Z.of_nat j = i)) as [<-|]; [rewrite Nat2Z.id in Hf; congruence|]. apply Hc'; lia. }
  cbv beta. intros sk2 [Hl2 H2]. rewrite aget_total by lia. cbn [mbind res_bind].
  replace (Z.to_nat (m - 1)) with (length (upper P) - 1)%nat by lia.
  set (l := upper P !!! (length (upper P) - 1)%nat).
  assert (inU 8 l) as Hlast by (apply byte_total; [exact HU|lia]).
  eapply okp_bind; [apply (okp_table _ _ _ (fun s => length s = 256%nat /\ forall c', inU 8 c' ->
     s !!! Z.to_nat c' = if c' =? l then LARGE else sk2 !!! Z.to_nat c')); [exact Hl2|exact Hlast|auto]|].
  cbv beta. intros sk3 [Hl3 H3].
  eapply okp_bind; [apply (okp_table _ _ _ (table_ok toupper (fun c => c) (upper P))); [exact Hl3|now apply tolower_byte|]|].
  - intros sk4 Hl4 H4. split; [exact Hl4|]. intros c Hc. rewrite (H4 c Hc), (H3 c Hc). fold l.
    assert ((toupper c =? l) = (c =? l) || (c =? tolower l)) as Hf by (unfold l; rewrite upper_total by lia; apply toupper_fibre).
    rewrite Hf. destruct (c =? tolower l), (c =? l); cbn [orb]; try reflexivity.
    destruct (H2 c Hc) as [Hk Hc']. split; [rewrite HlU; exact Hk|]. intros j Hj Hj'. rewrite HlU in *. apply Hc'; lia.
  - intros sk4 Ht. unfold m. rewrite <- HlU. eapply okp_bind; [apply (skip2_ok (fun c => c)); [apply eq_char_ok|exact HU|]|].
    + intros E. apply (f_equal length) in E. cbn in E. lia.
    + intros k2 Hk2. cbn [okp mret res_ret]. split; [reflexivity|]. split; [reflexivity|]. split; [exact Ht|exact Hk2].
Qed.

(** *** bmhasrch.c *)

Definition lower (c : Z) : Z := lowervec !!! Z.to_nat c.

Lemma eq_lower_ok x y : inU 8 x -> inU 8 y -> eq_lower x y = Ok (lower x =? lower y).
Proof.
  intros Hx Hy. unfold eq_lower, lowerc. rewrite !wrapU_id by assumption. unfold inU in *.
  change (2 ^ 8) with 256 in *. rewrite !aget_total by (change (Z.of_nat (length lowervec)) with 256; lia). reflexivity.
Qed.

Lemma last_match_ok P c : Forall (inU 8) P -> inU 8 c -> forall n, (n <= length P)%nat ->
  okp (last_match n P c) (fun j : Z => -1 <= j < Z.of_nat n /\ (0 <= j -> lower (P !!! Z.to_nat j) = lower c) /\
    forall i, (i < n)%nat -> j < Z.of_nat i -> lower (P !!! i) <> lower c).
Proof.
  intros HP Hc n. induction n as [|n IH]; intros Hn; cbn [last_match].
  - cbn [okp mret res_ret]. split; [lia|]. split; [lia|]. intros. lia.
  - rewrite aget_total by lia. cbn [mbind res_bind]. rewrite Nat2Z.id.
    rewrite eq_lower_ok by first [exact Hc|apply byte_total; [exact HP|lia]]. cbn [mbind res_bind].
    destruct (Z.eqb_spec (lower c) (lower (P !!! n))) as [E|E].
    + cbn [okp mret res_ret]. rewrite Nat2Z.id. split; [lia|]. split; [now symmetry|]. intros. lia.
    + eapply okp_mono; [apply IH; lia|]. cbv beta. intros j (H1 & H2 & H3). split; [lia|]. split; [exact H2|].
      intros i Hi Hj. destruct (decide (i = n)) as [->|]; [congruence|]. apply H3; lia.
Qed.

Lemma bmha_init_ok P sk : Forall (inU 8) P -> P <> [] -> length sk = 256%nat ->
  okp (bmha_init P sk) (bmh_ok lower lower P).
Proof.
  intros HP Hne Hl. pose proof (m_pos P Hne) as Hm. unfold bmha_init. cbv zeta.
  change (Z.to_nat (UCHAR_MAX + 1)) with 256%nat. set (m := Z.of_nat (length P)).
  eapply okp_bind.
  { apply (okp_cfor (fun i sk' => length sk' = 256%nat /\ forall c, inU 8 c -> c < i ->
      if lower c =? lower (P !!! (length P - 1)%nat) then sk' !!! Z.to_nat c = LARGE
      else clear_above lower P (lower c) (sk' !!! Z.to_nat c))).
    - split; [exact Hl|]. intros c Hc. unfold inU in Hc. lia.
    - intros i sk' Hi [Hl' H'].
      assert (inU 8 i) as Hib by (unfold inU; change (2 ^ 8) with 256; lia).
      set (upd := fun v s => length s = 256%nat /\ forall c', inU 8 c' ->
         s !!! Z.to_nat c' = if c' =? i then v else sk' !!! Z.to_nat c').
      eapply okp_bind; [apply (okp_table _ _ _ (upd m)); [exact Hl'|exact Hib|unfold upd; auto]|].
      intros sk1 [Hl1 H1].
      eapply okp_bind; [apply (last_match_ok P i HP Hib); lia|]. cbv beta. intros j (Hj & Hjm & Hjn).
      eapply (okp_bind _ _ (upd (if 0 <=? j then m - j - 1 else m))).
      { destruct (0 <=? j); [|split; assumption]. apply okp_table; [exact Hl1|exact Hib|].
        intros s Hs1 Hs2. split; [exact Hs1|]. intros c' Hc'. rewrite (Hs2 c' Hc'), (H1 c' Hc'). destruct (c' =? i); reflexivity. }
      intros sk2 [Hl2 H2].
      assert (okp (if j =? m - 1 then aset sk2 i LARGE else mret sk2)
        (upd (if j =? m - 1 then LARGE else if 0 <=? j then m - j - 1 else m))) as Hu.
      { destruct (j =? m - 1); [|split; assumption]. apply okp_table; [exact Hl2|exact Hib|].
        intros s Hs1 Hs2. split; [exact Hs1|]. intros c' Hc'. rewrite (Hs2 c' Hc'), (H2 c' Hc'). destruct (c' =? i); reflexivity. }
      eapply okp_mono; [exact Hu|]. intros s [Hs1 Hs2]. split; [exact Hs1|]. intros c Hc Hci. rewrite (Hs2 c Hc).
      destruct (Z.eqb_spec c i) as [->|]; [|apply H'; [exact Hc|lia]].
      destruct (Z.eqb_spec j (m - 1)) as [->|Hjne].
      + replace (Z.to_nat (m - 1)) with (length P - 1)%nat in Hjm by lia. rewrite Hjm by lia. now rewrite Z.eqb_refl.
      + rewrite (proj2 (Z.eqb_neq _ _)) by (intros E; apply (Hjn (length P - 1)%nat); [lia|lia|congruence]).
        split; [destruct (Z.leb_spec 0 j); lia|]. intros q Hq Hq'. apply Hjn; [lia|]. destruct (Z.leb_spec 0 j); lia. }
  cbv beta. intros sk2 [Hl2 H2].
  eapply okp_bind.
  { rewrite aget_total by lia. replace (Z.to_nat (m - 1)) with (length P - 1)%nat by lia.
    apply (skip2_ok lower); [apply eq_lower_ok|exact HP|exact Hne]. }
  intros k2 Hk2. cbn [okp mret res_ret]. split; [reflexivity|]. split; [reflexivity|]. split; [|exact Hk2].
  split; [exact Hl2|]. intros c Hc. apply H2; [exact Hc|]. unfold inU in Hc. change (2 ^ 8) with 256 in Hc. lia.
Qed.
End Init.

(** *** pbmsrch_small.c *)

Section PbmOk.
Context (dm : data_model) (P T : list Z).
Context (HP : Forall (inU 8) P) (Hne : P <> []) (HT : Forall (inU 8) T).
Context (HL : Z.of_nat (length P) + Z.of_nat (length T) < 2 ^ 32).
Implicit Types (o j p n : nat) (c k : Z).
Local Notation m := (length P).
Local Notation idc := (fun c : Z => c).
Local Notation occ := (occurs idc idc T P).

Lemma size_id (x : Z) : 0 <= x <= Z.of_nat (length P) + Z.of_nat (length T) -> uL dm x = x.
Proof. intros H. apply uL_id. unfold inU. lia. Qed.

(** [table]: the distance of the last occurrence of a character from the end of the pattern. *)
Definition pbm_ok (s : pbm) : Prop := len s = Z.of_nat m /\ findme s = P /\ length (table s) = 256%nat /\
  forall c, inU 8 c -> let k := table s !!! Z.to_nat c in
    0 <= k <= Z.of_nat m /\ (forall j, (j < m)%nat -> Z.of_nat m - 1 - k < Z.of_nat j -> P !!! j <> c) /\
    (k < Z.of_nat m -> P !!! Z.to_nat (Z.of_nat m - 1 - k) = c).

Lemma init_search_ok tb : length tb = 256%nat -> okp (init_search dm P tb) pbm_ok.
Proof.
  intros Hl. pose proof (m_pos P Hne) as Hm. unfold init_search. cbv zeta. set (M := Z.of_nat (length P)).
  eapply okp_bind; [apply (skip_fill_ok M tb Hl)|]. intros sk1 [Hl1 H1].
  eapply okp_bind.
  { apply (okp_cfor (fun i sk' => length sk' = 256%nat /\ forall c, inU 8 c -> let k := sk' !!! Z.to_nat c in
      0 <= k <= M /\ (forall j, Z.of_nat j < i -> M - 1 - k < Z.of_nat j -> P !!! j <> c) /\
      (k < M -> M - 1 - k < i /\ P !!! Z.to_nat (M - 1 - k) = c))).
    - split; [exact Hl1|]. intros c Hc. cbv zeta. rewrite (H1 c Hc). split; [lia|]. split; [intros j Hj; lia|lia].
    - intros i sk' Hi [Hl' H']. rewrite aget_total by lia. cbn [mbind res_bind].
      rewrite (size_id (M - i)), size_id by lia.
      apply okp_table; [exact Hl'|apply byte_total; [exact HP|lia]|]. intros sk2 Hl2 H2. split; [exact Hl2|].
      intros c Hc. cbv zeta. rewrite (H2 c Hc). specialize (H' c Hc). cbv zeta in H'.
      destruct (Z.eqb_spec c (P !!! Z.to_nat i)) as [->|Hd].
      + split; [lia|]. split; [intros j Hj Hj'; lia|]. intros _. split; [lia|]. f_equal. lia.
      + destruct H' as (Hk & Hc' & Hkm). split; [exact Hk|]. split.
        * intros j Hj Hj'. destruct (decide (Z.of_nat j = i)) as [<-|]; [rewrite Nat2Z.id in Hd; congruence|]. apply Hc'; lia.
        * intros H. destruct (Hkm H) as [H3 H4]. split; [lia|exact H4]. }
  cbv beta. intros sk2 [Hl2 H2]. cbn [okp mret res_ret]. split; [reflexivity|]. split; [reflexivity|]. split; [exact Hl2|].
  intros c Hc. destruct (H2 c Hc) as (Hk & Hc' & Hkm). split; [exact Hk|]. split; [intros j Hj; apply Hc'; lia|].
  intros H. apply Hkm, H.
Qed.

Context (st : pbm) (Hst : pbm_ok st).

Definition clear_to p : Prop := forall o, (o + (m - 1) < p)%nat -> ~ occ o.

Lemma clear_all p : clear_to p -> (length T <= p)%nat -> forall o, ~ occ o.
Proof. intros Hp Hl o Ho. apply (Hp o); [|exact Ho]. destruct Ho as [H _]. pose proof (m_pos P Hne). lia. Qed.

Lemma shift_loop_ok : forall fuel p s, (length T - p < fuel)%nat -> (p < length T)%nat \/ s <> Some 0 ->
  (m - 1 <= p <= length T + m)%nat -> clear_to p ->
  okp (shift_loop dm st T fuel s (Z.of_nat p)) (fun r => exists p', r.2 = Z.of_nat p' /\ (p <= p' <= length T + m)%nat /\ clear_to p' /\
    if decide (r.1 = Some 0) then (p' < length T)%nat else (length T <= p')%nat).
Proof.
  destruct Hst as (_ & _ & Hl & Ht). intros fuel. induction fuel as [|fuel IH]; intros p s Hf Hs Hp Hb; [lia|]. cbn [shift_loop].
  destruct (Z.ltb_spec (Z.of_nat p) (Z.of_nat (length T))) as [Hlt|Hge].
  2: { exists p. split; [reflexivity|]. split; [lia|]. split; [exact Hb|]. cbn [fst].
    destruct Hs as [|Hs]; [lia|]. rewrite decide_False by exact Hs. lia. }
  rewrite aget_total by lia. cbn [mbind res_bind]. rewrite Nat2Z.id.
  pose proof (byte_total T p HT ltac:(lia)) as Hc. pose proof (Ht _ Hc) as Hk. cbv zeta in Hk.
  rewrite aget_total by (unfold inU in Hc; change (2 ^ 8) with 256 in Hc; lia). cbn [mbind res_bind].
  set (k := table st !!! _) in *. destruct Hk as (Hk & Hkc & _).
  destruct (Z.ltb_spec 0 k).
  - rewrite size_id by lia. replace (Z.of_nat p + k) with (Z.of_nat (p + Z.to_nat k)) by lia.
    eapply okp_mono; [apply IH; [lia|right; intros [= E]; lia|lia|]|].
    + intros o Ho Hocc. destruct (decide (o + (m - 1) < p)%nat) as [Hd|Hd]; [exact (Hb o Hd Hocc)|].
      destruct Hocc as [Hlen Hall]. pose proof (m_pos P Hne). specialize (Hall (p - o)%nat ltac:(lia)). cbv beta in Hall.
      replace (o + (p - o))%nat with p in Hall by lia. apply (Hkc (p - o)%nat); [lia|lia|congruence].
    + cbv beta. intros r (p' & H1 & H2 & H3). exists p'. split; [exact H1|]. split; [lia|exact H3].
  - exists p. cbn [fst snd mret res_ret]. split; [reflexivity|]. split; [lia|]. split; [exact Hb|].
    assert (k = 0) as -> by lia. rewrite decide_True by reflexivity. lia.
Qed.

Lemma strncmp_eq_ok o : strncmp_eq st T (Z.of_nat o) = true <-> occ o.
Proof.
  destruct Hst as (Hlen & Hf & _). unfold strncmp_eq. rewrite bool_decide_eq_true, Hlen, Hf, !Nat2Z.id, take_ge by lia.
  unfold occurs. split.
  - intros E. assert (o + m <= length T)%nat as Hl.
    { pose proof (f_equal length E) as E'. rewrite length_take, length_drop in E'. pose proof (m_pos P Hne). lia. }
    split; [exact Hl|]. intros j Hj. rewrite E, lookup_total_take_lt, lookup_total_drop by lia. reflexivity.
  - intros [Hl H]. apply list_eq. intros j. destruct (decide (j < m)%nat) as [Hj|Hj].
    + rewrite lookup_take_lt, lookup_drop by lia.
      rewrite !list_lookup_lookup_total_lt by lia. f_equal. symmetry. apply H, Hj.
    + rewrite !lookup_ge_None_2; [reflexivity|rewrite length_take; lia|lia].
Qed.

Lemma pos_loop_ok : forall fuel p s, (length T - p < fuel)%nat -> (m - 1 <= p <= length T + m)%nat -> clear_to p ->
  okp (pos_loop dm st T fuel s (Z.of_nat p)) (first_occurrence idc idc T P).
Proof.
  pose proof (m_pos P Hne) as Hm. intros fuel. induction fuel as [|fuel IH]; intros p s Hf Hp Hb; [lia|]. cbn [pos_loop].
  destruct (Z.ltb_spec (Z.of_nat p) (Z.of_nat (length T))) as [Hlt|Hge].
  2: { exact (clear_all p Hb ltac:(lia)). }
  eapply okp_bind; [apply shift_loop_ok; [lia|lia|lia|exact Hb]|]. intros [s' q] (p' & Hq & Hp' & Hb' & Hd). cbn [fst snd] in *. subst q.
  case_decide as Hs.
  - subst s'. cbv zeta.
    assert (len st = Z.of_nat m) as Hlen by apply Hst.
    assert (uL dm (uL dm (Z.of_nat p' - len st) + 1) = Z.of_nat (p' - (m - 1))) as ->.
    { unfold wrapU. rewrite Zplus_mod_idemp_l, Hlen. fold (uL dm (Z.of_nat p' - Z.of_nat m + 1)). rewrite size_id; lia. }
    destruct (strncmp_eq st T (Z.of_nat (p' - (m - 1)))) eqn:E.
    + apply strncmp_eq_ok in E. exists (p' - (m - 1))%nat. split; [reflexivity|]. split; [exact E|].
      intros o' Ho'. apply Hb'. lia.
    + rewrite size_id by lia. replace (Z.of_nat p' + 1) with (Z.of_nat (S p')) by lia.
      apply IH; [lia|lia|]. intros o Ho Hocc. destruct (decide (o + (m - 1) < p')%nat) as [Hlo|Hlo]; [exact (Hb' o Hlo Hocc)|].
      assert (o = p' - (m - 1))%nat as -> by lia. apply strncmp_eq_ok in Hocc. congruence.
  - assert (okp (pos_loop dm st T fuel s' (Z.of_nat p')) (first_occurrence idc idc T P)) as H.
    { destruct fuel as [|fuel]; [lia|]. apply IH; [lia|lia|exact Hb']. }
    destruct s' as [[| |]|]; first [exact H|congruence].
Qed.

Lemma strsearch_ok : okp (strsearch dm st T) (first_occurrence idc idc T P).
Proof.
  pose proof (m_pos P Hne) as Hm. unfold strsearch. destruct Hst as (Hlen & _). rewrite Hlen.
  rewrite size_id by lia. replace (Z.of_nat m - 1) with (Z.of_nat (m - 1)) by lia.
  apply pos_loop_ok; [lia|lia|]. intros o Ho. lia.
Qed.
End PbmOk.

(** * The claims *)

(** C38: bmh_init and bmh_search: for every non-empty pattern and every string with pattern
    length plus string length below 32767, the search terminates, stays inside the string and
    the table and returns the first occurrence, or NULL when there is none. *)
Theorem bmh_first P T n sk : Forall (inU 8) P -> P <> [] -> Forall (inU 8) T -> (n <= length T)%nat ->
  Z.of_nat (length P) + Z.of_nat n < LARGE -> length sk = 256%nat ->
  okp (st ← bmh_init P sk; bmh_search st T (Z.of_nat n)) (first_occurrence (fun c => c) (fun c => c) (take n T) P).
Proof.
  intros HP Hne HT Hn HL Hsk. eapply okp_bind; [apply bmh_init_ok; assumption|]. intros st Hst.
  apply search_ok; try assumption. apply eq_char_ok.
Qed.

Lemma bmh_first_witness :
  Z.of_nat (length [97; 98]) + Z.of_nat 5 < LARGE /\
  okp (st ← bmh_init [97; 98] (replicate 256 0); bmh_search st [98; 97; 97; 98; 99] (Z.of_nat 5))
    (first_occurrence (fun c => c) (fun c => c) (take 5 [98; 97; 97; 98; 99]) [97; 98]).
Proof. split; [reflexivity|]. apply (bmh_first [97; 98] [98; 97; 97; 98; 99] 5 (replicate 256 0)); by_eval. Defined.

(** Occurrences of a pattern that was turned into upper case first. *)
Lemma occurs_upper T P o : occurs toupper (fun c => c) T (upper P) o <-> occurs toupper toupper T P o.
Proof.
  unfold occurs. assert (length (upper P) = length P) as -> by apply length_fmap.
  split; intros [H1 H2]; (split; [exact H1|]); intros j Hj; rewrite (H2 j Hj); [|symmetry]; apply upper_total, Hj.
Qed.

(** bmhi_init and bmhi_search return the first occurrence up to the case of ASCII letters,
    for every non-empty pattern and every string with pattern length plus string length below
    32767. *)
Theorem bmhi_first P T n sk : Forall (inU 8) P -> P <> [] -> Forall (inU 8) T -> (n <= length T)%nat ->
  Z.of_nat (length P) + Z.of_nat n < LARGE -> length sk = 256%nat ->
  okp (st ← bmhi_init P sk; bmhi_search st T (Z.of_nat n)) (first_occurrence toupper toupper (take n T) P).
Proof.
  intros HP Hne HT Hn HL Hsk. eapply okp_bind; [apply bmhi_init_ok; assumption|]. intros st Hst.
  assert (length (upper P) = length P) as HlU by apply length_fmap.
  eapply okp_mono; [apply (search_ok toupper (fun c => c) (upper P)); try assumption|].
  - now apply upper_bytes.
  - intros E. apply Hne. apply (f_equal length) in E. rewrite HlU in E. now apply nil_length_inv.
  - intros x y _ _. reflexivity.
  - lia.
  - intros [z|]; cbn [first_occurrence].
    + intros (o & -> & Ho & Hmin). exists o. split; [reflexivity|]. split; [now apply occurs_upper|].
      intros o' Ho' H. apply (Hmin o' Ho'). now apply occurs_upper.
    + intros H o Ho. apply (H o). now apply occurs_upper.
Qed.

Lemma bmhi_first_witness :
  Z.of_nat (length [97; 66]) + Z.of_nat 5 < LARGE /\
  okp (st ← bmhi_init [97; 66] (replicate 256 0); bmhi_search st [98; 97; 65; 98; 99] (Z.of_nat 5))
    (first_occurrence toupper toupper (take 5 [98; 97; 65; 98; 99]) [97; 66]).
Proof. split; [reflexivity|]. apply (bmhi_first [97; 66] [98; 97; 65; 98; 99] 5 (replicate 256 0)); by_eval. Defined.

(** bmha_init and bmha_search return the first occurrence up to the character classes of
    lowervec, for every non-empty pattern and every string with pattern length plus string
    length below 32767. *)
Theorem bmha_first P T n sk : Forall (inU 8) P -> P <> [] -> Forall (inU 8) T -> (n <= length T)%nat ->
  Z.of_nat (length P) + Z.of_nat n < LARGE -> length sk = 256%nat ->
  okp (st ← bmha_init P sk; bmha_search st T (Z.of_nat n)) (first_occurrence lower lower (take n T) P).
Proof.
  intros HP Hne HT Hn HL Hsk. eapply okp_bind; [apply bmha_init_ok; assumption|]. intros st Hst.
  apply search_ok; try assumption. apply eq_lower_ok.
Qed.

Lemma bmha_first_witness :
  Z.of_nat (length [97; 130]) + Z.of_nat 5 < LARGE /\
  okp (st ← bmha_init [97; 130] (replicate 256 0); bmha_search st [98; 97; 65; 101; 99] (Z.of_nat 5))
    (first_occurrence lower lower (take 5 [98; 97; 65; 101; 99]) [97; 130]).
Proof. split; [reflexivity|]. apply (bmha_first [97; 130] [98; 97; 65; 101; 99] 5 (replicate 256 0)); by_eval. Defined.

(** init_search and strsearch: for every non-empty pattern and every string of any length
    below 2^32, the search terminates, stays inside the string and returns the first occurrence
    or NULL, for both widths of size_t. *)
Theorem strsearch_first dm P T tb : Forall (inU 8) P -> P <> [] -> Forall (inU 8) T -> length tb = 256%nat ->
  Z.of_nat (length P) + Z.of_nat (length T) < 2 ^ 32 ->
  okp (st ← init_search dm P tb; strsearch dm st T) (first_occurrence (fun c => c) (fun c => c) T P).
Proof.
  intros HP Hne HT Htb HL. eapply okp_bind; [apply (init_search_ok dm P T); assumption|]. intros st Hst.
  apply strsearch_ok; assumption.
Qed.

Lemma strsearch_first_witness :
  Z.of_nat (length [97; 98]) + Z.of_nat (length [98; 97; 97; 98; 99]) < 2 ^ 32 /\
  okp (st ← init_search LP64 [97; 98] (replicate 256 0); strsearch LP64 st [98; 97; 97; 98; 99])
    (first_occurrence (fun c => c) (fun c => c) [98; 97; 97; 98; 99] [97; 98]).
Proof. split; [reflexivity|]. apply (strsearch_first LP64 [97; 98] [98; 97; 97; 98; 99] (replicate 256 0)); by_eval. Defined.

(** With an empty pattern the three Horspool searches read outside the pattern or the
    string, and strsearch reports no occurrence. *)
Theorem empty_pattern dm T n sk : length sk = 256%nat -> 0 <= n < 2 ^ 31 -> Z.of_nat (length T) < 2 ^ 32 - 1 ->
  bmh_init [] sk = Err OutOfBounds /\ bmhi_init [] sk = Err OutOfBounds /\
  (st ← bmha_init [] sk; bmha_search st T n) = Err OutOfBounds /\
  okp (st ← init_search dm [] sk; strsearch dm st T) (fun r => r = None).
Proof.
  intros Hsk Hn HT. pose proof (skip_fill_ok 0 sk Hsk) as H0. apply okp_ok in H0 as (sk' & H0 & _).
  split; [unfold bmh_init; cbv zeta; cbn [length]; change (Z.of_nat 0) with 0; rewrite H0; reflexivity|].
  split; [unfold bmhi_init; cbv zeta; cbn [length]; change (Z.of_nat 0) with 0; rewrite H0; reflexivity|].
  split.
  - assert (okp (bmha_init [] sk) (fun st => patlen st = 0)) as Ha.
    { unfold bmha_init. cbv zeta. cbn [length]. change (Z.of_nat 0) with 0. eapply (okp_bind _ _ (fun s => length s = 256%nat)); [|reflexivity].
      apply (okp_cfor (fun _ s => length s = 256%nat)); [exact Hsk|]. intros i s Hi Hs.
      change (Z.to_nat (UCHAR_MAX + 1)) with 256%nat in Hi.
      assert (inU 8 i) as Hib by (unfold inU; change (2 ^ 8) with 256; lia).
      eapply okp_bind; [apply (okp_table s i 0 (fun s => length s = 256%nat)); auto|]. cbv beta. intros s2 Hs2.
      apply okp_table; auto. }
    apply okp_ok in Ha as (st & -> & Hst). cbn [mbind res_bind]. unfold bmha_search, search. rewrite Hst.
    rewrite (proj2 (Z.leb_gt _ _)) by lia. cbn [search_loop skip_loop].
    replace (n + (0 - 1 - n)) with (-1) by lia. reflexivity.
  - unfold init_search. cbv zeta. cbn [length]. change (Z.of_nat 0) with 0. change (cfor (Z.to_nat (UCHAR_MAX + 1)) 0 (fun i tb => aset tb i 0) sk) with (skip_fill 0 sk).
    rewrite H0. cbn [mbind res_bind]. change (Z.to_nat 0) with 0%nat. cbn [cfor mbind res_bind mret res_ret]. unfold strsearch. cbn [len pos_loop].
    rewrite (proj2 (Z.ltb_ge _ _)); [reflexivity|]. destruct dm; cbn [long_bits]; [change (wrapU 32 (0 - 1)) with (2 ^ 32 - 1)|
      change (wrapU 64 (0 - 1)) with (2 ^ 64 - 1)]; lia.
Qed.
