(* ===== verification/Bitcount.v ===== *)
(** The bit counters (src/mibench/automotive/bitcount/bitcnt_1.c to bitcnt_4.c, bitcnts.c), for both
    widths of [long]. [char] is unsigned and the byte order little-endian, as on RISC-V. A signed
    overflow wraps around; [bit_count] meets one for every negative argument. *)
From stdpp Require Import base list numbers option tactics.
From Stdlib Require Import ZArith Lia Btauto.
From S2P Require Import Prelude Bytes.

(** ** The counters *)

Section Counters.
Context (dm : data_model).
Implicit Types (x n i : Z).

(** bitcnt_1.c: the body of the [do ... while] and the test. *)
Fixpoint bit_count_loop (fuel : nat) (x n : Z) : res Z :=
  match fuel with
  | O => Err OutOfFuel
  | S fuel =>
      let n := n + 1 in
      let x := Z.land x (sL dm (x - 1)) in
      if negb (0 =? x) then bit_count_loop fuel x n else mret n
  end.
Definition bit_count (x : Z) : res Z :=
  if negb (x =? 0) then bit_count_loop (Z.to_nat (long_bits dm)) x 0 else mret 0.

(** bitcnt_2.c: one line of [bitcount]. The masks are non-negative numbers below 2^32: [unsigned long]
    or [long], according to the width, so the right shift is logical. *)
Definition bitcount_step (m1 m2 sh i : Z) : Z := sL dm (uL dm ((Z.land i m1 ≫ sh) + Z.land i m2)).
Definition bitcount (i : Z) : res Z :=
  let i := bitcount_step 0xAAAAAAAA 0x55555555 1 i in
  let i := bitcount_step 0xCCCCCCCC 0x33333333 2 i in
  let i := bitcount_step 0xF0F0F0F0 0x0F0F0F0F 4 i in
  let i := bitcount_step 0xFF00FF00 0x00FF00FF 8 i in
  let i := bitcount_step 0xFFFF0000 0x0000FFFF 16 i in
  mret (s32 i).

(** The table of bitcnt_3.c and of bitcnt_4.c. *)
Definition bits : list Z :=
  [
    0; 1; 1; 2; 1; 2; 2; 3; 1; 2; 2; 3; 2; 3; 3; 4;
    1; 2; 2; 3; 2; 3; 3; 4; 2; 3; 3; 4; 3; 4; 4; 5;
    1; 2; 2; 3; 2; 3; 3; 4; 2; 3; 3; 4; 3; 4; 4; 5;
    2; 3; 3; 4; 3; 4; 4; 5; 3; 4; 4; 5; 4; 5; 5; 6;
    1; 2; 2; 3; 2; 3; 3; 4; 2; 3; 3; 4; 3; 4; 4; 5;
    2; 3; 3; 4; 3; 4; 4; 5; 3; 4; 4; 5; 4; 5; 5; 6;
    2; 3; 3; 4; 3; 4; 4; 5; 3; 4; 4; 5; 4; 5; 5; 6;
    3; 4; 4; 5; 4; 5; 5; 6; 4; 5; 5; 6; 5; 6; 6; 7;
    1; 2; 2; 3; 2; 3; 3; 4; 2; 3; 3; 4; 3; 4; 4; 5;
    2; 3; 3; 4; 3; 4; 4; 5; 3; 4; 4; 5; 4; 5; 5; 6;
    2; 3; 3; 4; 3; 4; 4; 5; 3; 4; 4; 5; 4; 5; 5; 6;
    3; 4; 4; 5; 4; 5; 5; 6; 4; 5; 5; 6; 5; 6; 6; 7;
    2; 3; 3; 4; 3; 4; 4; 5; 3; 4; 4; 5; 4; 5; 5; 6;
    3; 4; 4; 5; 4; 5; 5; 6; 4; 5; 5; 6; 5; 6; 6; 7;
    3; 4; 4; 5; 4; 5; 5; 6; 4; 5; 5; 6; 5; 6; 6; 7;
    4; 5; 5; 6; 5; 6; 6; 7; 5; 6; 6; 7; 6; 7; 7; 8
  ].

(** bitcnt_3.c *)
Definition ntbl_bitcount (x : Z) : res Z :=
  b0 ← aget bits (Z.land x 0x0000000F);
  b1 ← aget bits (Z.land x 0x000000F0 ≫ 4);
  b2 ← aget bits (Z.land x 0x00000F00 ≫ 8);
  b3 ← aget bits (Z.land x 0x0000F000 ≫ 12);
  b4 ← aget bits (Z.land x 0x000F0000 ≫ 16);
  b5 ← aget bits (Z.land x 0x00F00000 ≫ 20);
  b6 ← aget bits (Z.land x 0x0F000000 ≫ 24);
  b7 ← aget bits (Z.land x 0xF0000000 ≫ 28);
  mret (b0 + b1 + b2 + b3 + b4 + b5 + b6 + b7).

(** The bytes of the object [x] in memory. *)
Definition object_bytes (x : Z) : list Z := le_bytes (Z.to_nat (long_bits dm / 8)) (uL dm x).

Definition BW_btbl_bitcount (x : Z) : res Z :=
  let ch := object_bytes x in
  c0 ← aget ch 0; b0 ← aget bits c0;
  c1 ← aget ch 1; b1 ← aget bits c1;
  c3 ← aget ch 3; b3 ← aget bits c3;
  c2 ← aget ch 2; b2 ← aget bits c2;
  mret (b0 + b1 + b3 + b2).

Definition AR_btbl_bitcount (x : Z) : res Z :=
  let Ptr := object_bytes x in
  c ← aget Ptr 0; Accu ← aget bits c;
  c ← aget Ptr 1; b ← aget bits c; let Accu := Accu + b in
  c ← aget Ptr 2; b ← aget bits c; let Accu := Accu + b in
  c ← aget Ptr 3; b ← aget bits c; let Accu := Accu + b in
  mret Accu.

(** bitcnt_4.c: the depth of the recursion is the fuel. *)
Fixpoint ntbl_bitcnt_rec (fuel : nat) (x : Z) : res Z :=
  match fuel with
  | O => Err OutOfFuel
  | S fuel =>
      cnt ← aget bits (Z.land x 0x0000000F);
      let x := x ≫ 4 in
      if negb (0 =? x) then c ← ntbl_bitcnt_rec fuel x; mret (cnt + c) else mret cnt
  end.
Definition ntbl_bitcnt (x : Z) : res Z := ntbl_bitcnt_rec (Z.to_nat (long_bits dm / 4)) x.

Fixpoint btbl_bitcnt_rec (fuel : nat) (x : Z) : res Z :=
  match fuel with
  | O => Err OutOfFuel
  | S fuel =>
      c0 ← aget (object_bytes x) 0;
      cnt ← aget bits (Z.land c0 0xFF);
      let x := x ≫ 8 in
      if negb (0 =? x) then c ← btbl_bitcnt_rec fuel x; mret (cnt + c) else mret cnt
  end.
Definition btbl_bitcnt (x : Z) : res Z := btbl_bitcnt_rec (Z.to_nat (long_bits dm / 8)) x.

(** bitcnts.c: the loop [for (i = n = 0; x && i < sizeof(long) * CHAR_BIT; ++i, x >>= 1)], [k] more
    iterations being left to the bound. *)
Fixpoint bit_shifter_loop (k : nat) (x n : Z) : Z :=
  match k with
  | O => n
  | S k => if negb (x =? 0) then bit_shifter_loop k (x ≫ 1) (n + s32 (Z.land x 1)) else n
  end.
Definition bit_shifter (x : Z) : res Z := mret (bit_shifter_loop (Z.to_nat (long_bits dm)) x 0).

Definition pBitCntFunc : list (Z -> res Z) :=
  [bit_count; bitcount; ntbl_bitcnt; ntbl_bitcount; BW_btbl_bitcount; AR_btbl_bitcount; bit_shifter].

(** The measured loop of [main], from the random number [seed] on. *)
Definition iterations : nat := Z.to_nat 7500.
Definition total_body (f : Z -> res Z) (_ : Z) (s : Z * Z) : res (Z * Z) :=
  let '(n, seed) := s in
  c ← f seed; mret (sL dm (n + c), sL dm (seed + 13)).
Definition main_total (f : Z -> res Z) (seed : Z) : res Z :=
  '(n, _) ← cfor iterations 0 (total_body f) (0, seed); mret n.
End Counters.

Example counters_run : (fun f => f 0x12345678) <$> pBitCntFunc LP64 = replicate 7 (Ok 13) /\
  btbl_bitcnt LP64 0x12345678 = Ok 13 /\ bit_count LP64 (-1) = Ok 64 /\ bitcount LP64 (-1) = Ok 32.
Proof. repeat split; vm_compute; reflexivity. Qed.

(** * Correctness *)

(** ** The sum of digits *)

(** The sum of the [n] low digits of [s] bits of the two's-complement number [x]; with [s = 1], the
    number of bits that are set. *)
Fixpoint digit_sum (s : Z) (n : nat) (x : Z) : Z :=
  match n with O => 0 | S n => x mod 2 ^ s + digit_sum s n (x / 2 ^ s) end.
Abbreviation popcount := (digit_sum 1).

Section Digits.
Implicit Types (s x y w m : Z) (n k : nat).

Lemma digit_sum_add s n k x : 0 <= s -> digit_sum s (n + k) x = digit_sum s n x + digit_sum s k (x / 2 ^ (s * Z.of_nat n)).
Proof.
  intros Hs. revert x. induction n as [|n IH]; intros x; cbn [digit_sum plus].
  - rewrite Z.mul_0_r, Z.pow_0_r, Z.div_1_r. reflexivity.
  - rewrite IH, <- Z.add_assoc. do 3 f_equal. rewrite Z.div_div by (apply Z.pow_nonzero || apply Z.pow_pos_nonneg; lia).
    rewrite <- Z.pow_add_r by lia. f_equal. f_equal. lia.
Qed.

Lemma digit_sum_mod s n x : 0 <= s -> digit_sum s n (x mod 2 ^ (s * Z.of_nat n)) = digit_sum s n x.
Proof.
  intros Hs. revert x. induction n as [|n IH]; intros x; cbn [digit_sum]; [reflexivity|].
  replace (s * Z.of_nat (S n)) with (s + s * Z.of_nat n) by lia. rewrite Z.pow_add_r by lia.
  set (a := 2 ^ s). assert (0 < a) by (apply Z.pow_pos_nonneg; lia).
  set (b := 2 ^ (s * Z.of_nat n)). assert (0 < b) by (apply Z.pow_pos_nonneg; lia).
  rewrite Z.rem_mul_r by lia. rewrite (Z.mul_comm a), Z.mod_add, Z.mod_mod by lia. f_equal.
  rewrite Z.div_add by lia. rewrite (Z.div_small (x mod a)) by (apply Z.mod_pos_bound; lia). apply IH.
Qed.

Lemma digit_sum_congr s n x y : 0 <= s -> x mod 2 ^ (s * Z.of_nat n) = y mod 2 ^ (s * Z.of_nat n) ->
  digit_sum s n x = digit_sum s n y.
Proof. intros Hs H. rewrite <- (digit_sum_mod s n x), <- (digit_sum_mod s n y), H by exact Hs. reflexivity. Qed.

Lemma digit_sum_0 s n : digit_sum s n 0 = 0.
Proof. induction n as [|n IH]; cbn [digit_sum]; [reflexivity|]. rewrite Zmod_0_l, Zdiv_0_l, IH. reflexivity. Qed.

Lemma popcount_bound n x : 0 <= popcount n x <= Z.of_nat n.
Proof.
  revert x. induction n as [|n IH]; intros x; cbn [digit_sum]; [lia|]. specialize (IH (x / 2 ^ 1)).
  pose proof (Z.mod_pos_bound x (2 ^ 1) ltac:(lia)). change (2 ^ 1) with 2 in *. lia.
Qed.

Lemma popcount_pos n x : 0 < popcount n x <-> x mod 2 ^ Z.of_nat n <> 0.
Proof.
  revert x. induction n as [|n IH]; intros x; cbn [digit_sum].
  - rewrite Z.pow_0_r, Z.mod_1_r. lia.
  - rewrite Nat2Z.inj_succ, Z.pow_succ_r by lia. change (2 ^ 1) with 2. specialize (IH (x / 2)).
    pose proof (popcount_bound n (x / 2)). pose proof (Z.mod_pos_bound x 2 ltac:(lia)).
    assert (0 < 2 ^ Z.of_nat n) by (apply Z.pow_pos_nonneg; lia). rewrite Z.rem_mul_r by lia.
    pose proof (Z.mod_pos_bound (x / 2) (2 ^ Z.of_nat n) ltac:(lia)). lia.
Qed.

(** [x & (x - 1)] is [x] without its lowest set bit. *)
Lemma popcount_land_pred n x : x mod 2 ^ Z.of_nat n <> 0 -> popcount n (Z.land x (x - 1)) = popcount n x - 1.
Proof.
  revert x. induction n as [|n IH]; intros x Hx; cbn [digit_sum].
  - rewrite Z.pow_0_r, Z.mod_1_r in Hx. lia.
  - rewrite Nat2Z.inj_succ, Z.pow_succ_r in Hx by lia. change (2 ^ 1) with 2.
    assert (0 < 2 ^ Z.of_nat n) by (apply Z.pow_pos_nonneg; lia). rewrite Z.rem_mul_r in Hx by lia.
    assert (forall a b, Z.land a b / 2 = Z.land (a / 2) (b / 2)) as Hd.
    { intros a b. change 2 with (2 ^ 1). rewrite <- !Z.shiftr_div_pow2 by lia. apply Z.shiftr_land. }
    assert (forall a b, Z.land a b mod 2 = (a mod 2) * (b mod 2)) as Hm.
    { intros a b. rewrite <- !Z.bit0_mod, Z.land_spec. destruct (Z.testbit a 0), (Z.testbit b 0); reflexivity. }
    rewrite Hd, Hm. pose proof (Z.mod_pos_bound x 2 ltac:(lia)).
    assert (x mod 2 = 0 \/ x mod 2 = 1) as [E|E] by lia; rewrite E.
    + replace ((x - 1) / 2) with (x / 2 - 1) by dlia. rewrite IH by (intros E2; apply Hx; rewrite E, E2; reflexivity). lia.
    + replace ((x - 1) / 2) with (x / 2) by dlia. rewrite Z.land_diag. assert ((x - 1) mod 2 = 0) as -> by dlia. lia.
Qed.

(** One step of the parallel sum: neighbouring digits are added. *)
Fixpoint swar (s : Z) (n : nat) (x : Z) : Z :=
  match n with
  | O => 0
  | S n => (x mod 2 ^ s + (x / 2 ^ s) mod 2 ^ s) + 2 ^ (2 * s) * swar s n (x / 2 ^ (2 * s))
  end.
Fixpoint low_mask (s : Z) (n : nat) : Z :=
  match n with O => 0 | S n => (2 ^ s - 1) + 2 ^ (2 * s) * low_mask s n end.

Lemma land_split x (k lo hi : Z) : 0 <= k -> 0 <= lo < 2 ^ k ->
  Z.land x (lo + 2 ^ k * hi) = Z.land x lo + 2 ^ k * Z.land (x / 2 ^ k) hi.
Proof.
  intros Hk Hlo. assert (0 < 2 ^ k) by (apply Z.pow_pos_nonneg; lia).
  assert (Z.land x lo mod 2 ^ k = Z.land x lo) as Hl.
  { rewrite <- Z.land_ones, <- Z.land_assoc, Z.land_ones by lia. f_equal. apply Z.mod_small. lia. }
  pose proof (Z.mod_pos_bound (Z.land x lo) (2 ^ k) ltac:(lia)).
  rewrite (Z.div_mod (Z.land x (lo + 2 ^ k * hi)) (2 ^ k)) by lia. rewrite Z.add_comm. f_equal.
  - rewrite <- Z.land_ones, <- Z.land_assoc, Z.land_ones by lia. f_equal.
    rewrite (Z.mul_comm (2 ^ k)), Z.mod_add, Z.mod_small by lia. reflexivity.
  - f_equal. rewrite <- !Z.shiftr_div_pow2, Z.shiftr_land by lia. f_equal. rewrite Z.shiftr_div_pow2 by lia.
    rewrite (Z.mul_comm (2 ^ k)), Z.div_add, Z.div_small by lia. lia.
Qed.

Lemma swar_mask s n x : 0 < s -> Z.land (x / 2 ^ s) (low_mask s n) + Z.land x (low_mask s n) = swar s n x.
Proof.
  intros Hs. revert x. induction n as [|n IH]; intros x; cbn [low_mask swar]; [rewrite !Z.land_0_r; reflexivity|].
  assert (0 < 2 ^ s) by (apply Z.pow_pos_nonneg; lia).
  assert (2 ^ (2 * s) = 2 ^ s * 2 ^ s) as E2 by (rewrite <- Z.pow_add_r by lia; f_equal; lia).
  rewrite !land_split by (rewrite ?E2; nia).
  assert (forall y, Z.land y (2 ^ s - 1) = y mod 2 ^ s) as Hm.
  { intros y. rewrite <- Z.land_ones by lia. f_equal. rewrite Z.ones_equiv. lia. }
  rewrite !Hm, <- IH. replace (x / 2 ^ s / 2 ^ (2 * s)) with (x / 2 ^ (2 * s) / 2 ^ s); [ring|].
  rewrite !Z.div_div by lia. f_equal. lia.
Qed.

Lemma swar_sum s n x : 1 <= s -> digit_sum (2 * s) n (swar s n x) = digit_sum s (2 * n) x.
Proof.
  intros Hs. revert x. induction n as [|n IH]; intros x; [reflexivity|].
  replace (2 * S n)%nat with (S (S (2 * n))) by lia. cbn [swar digit_sum].
  assert (2 <= 2 ^ s) by (apply (Z.pow_le_mono_r 2 1 s); lia).
  assert (2 ^ (2 * s) = 2 ^ s * 2 ^ s) as E2 by (rewrite <- Z.pow_add_r by lia; f_equal; lia).
  pose proof (Z.mod_pos_bound x (2 ^ s) ltac:(lia)). pose proof (Z.mod_pos_bound (x / 2 ^ s) (2 ^ s) ltac:(lia)).
  set (lo := x mod 2 ^ s + (x / 2 ^ s) mod 2 ^ s) in *. assert (0 <= lo < 2 ^ (2 * s)) by nia.
  rewrite (Z.mul_comm (2 ^ (2 * s))), Z.mod_add, Z.mod_small, Z.div_add, Z.div_small by lia. rewrite Z.add_0_l, IH.
  unfold lo. rewrite Z.div_div, <- E2 by lia. lia.
Qed.
End Digits.

Lemma popcount_fields (k n : nat) (x : Z) :
  popcount (k * n) x = zsum (fun i => popcount k (x / 2 ^ (Z.of_nat k * Z.of_nat i))) n.
Proof.
  induction n as [|n IH]; [rewrite Nat.mul_0_r; reflexivity|].
  replace (k * S n)%nat with (k * n + k)%nat by lia. rewrite digit_sum_add, IH by lia. cbn [zsum].
  do 3 f_equal. f_equal. lia.
Qed.

Lemma popcount_nonneg_top (n k : nat) (x : Z) : 0 <= x < 2 ^ Z.of_nat n -> popcount (n + k) x = popcount n x.
Proof.
  intros Hx. rewrite digit_sum_add, Z.mul_1_l, Z.div_small, digit_sum_0 by lia. lia.
Qed.

(** ** Values of [long] *)

Section Long.
Context (dm : data_model).
Implicit Types (x y n m : Z).
Local Abbreviation w := (long_bits dm).
Local Abbreviation W := (Z.to_nat (long_bits dm)).

Lemma long_bits_pos : 32 <= w.
Proof. destruct dm; simpl; lia. Qed.

Lemma sL_mod x : sL dm x mod 2 ^ w = x mod 2 ^ w.
Proof.
  pose proof long_bits_pos. unfold wrapS. rewrite Zminus_mod_idemp_l. f_equal. lia.
Qed.

Lemma sL_mod32 x : sL dm x mod 2 ^ 32 = x mod 2 ^ 32.
Proof. destruct dm; unfold wrapS; cbn; dlia. Qed.

Lemma uL_mod32 x : uL dm x mod 2 ^ 32 = x mod 2 ^ 32.
Proof. destruct dm; unfold wrapU; cbn; dlia. Qed.

Lemma inS_sign k x : 0 < k -> inS k x <-> x / 2 ^ (k - 1) = 0 \/ x / 2 ^ (k - 1) = -1.
Proof.
  intros Hk. unfold inS. assert (0 < 2 ^ (k - 1)) by (apply Z.pow_pos_nonneg; lia).
  pose proof (Z.div_mod x (2 ^ (k - 1)) ltac:(lia)). pose proof (Z.mod_pos_bound x (2 ^ (k - 1)) ltac:(lia)).
  split; [intros; assert (-1 <= x / 2 ^ (k - 1) <= 0) by nia; lia|intros [E|E]; rewrite E in *; lia].
Qed.

Lemma inS_land k x y : 0 < k -> inS k x -> inS k y -> inS k (Z.land x y).
Proof.
  intros Hk Hx Hy. apply inS_sign in Hx, Hy; [|exact Hk|exact Hk]. apply inS_sign; [exact Hk|].
  rewrite <- Z.shiftr_div_pow2, Z.shiftr_land, !Z.shiftr_div_pow2 by lia.
  destruct Hx as [-> | ->], Hy as [-> | ->]; cbn; auto.
Qed.

Lemma land_mod k x y : 0 <= k -> Z.land x y mod 2 ^ k = Z.land (x mod 2 ^ k) (y mod 2 ^ k).
Proof.
  intros Hk. rewrite <- !Z.land_ones by exact Hk. apply Z.bits_inj'. intros i Hi. rewrite !Z.land_spec. btauto.
Qed.

Lemma long_nonzero x : inS w x -> x <> 0 -> x mod 2 ^ w <> 0.
Proof.
  intros Hx H0 E. apply H0. pose proof long_bits_pos. rewrite <- (wrapS_id w x) by (assumption || lia).
  unfold wrapS. rewrite <- Zplus_mod_idemp_l, E, Z.add_0_l. rewrite Z.mod_small; [lia|].
  assert (0 < 2 ^ (w - 1)) by (apply Z.pow_pos_nonneg; lia). split; [lia|]. apply Z.pow_lt_mono_r; lia.
Qed.

(** ** [bit_count] and [bit_shifter] *)

Lemma bit_count_loop_ok fuel x n : inS w x -> x <> 0 -> popcount W x <= Z.of_nat fuel ->
  bit_count_loop dm fuel x n = Ok (n + popcount W x).
Proof.
  pose proof long_bits_pos. revert x n. induction fuel as [|fuel IH]; intros x n Hx H0 Hf; cbn [bit_count_loop].
  - pose proof (proj2 (popcount_pos W x)). rewrite Z2Nat.id in * by lia. pose proof (long_nonzero x Hx H0). lia.
  - assert (popcount W (Z.land x (sL dm (x - 1))) = popcount W x - 1) as Hp.
    { rewrite <- popcount_land_pred by (rewrite Z2Nat.id by lia; apply long_nonzero; assumption).
      apply digit_sum_congr; [lia|]. rewrite Z.mul_1_l, Z2Nat.id by lia. rewrite !land_mod, sL_mod by lia. reflexivity. }
    assert (inS w (Z.land x (sL dm (x - 1)))) as Hi by (apply inS_land; [lia|exact Hx|apply wrapS_range; lia]).
    destruct (Z.eqb_spec 0 (Z.land x (sL dm (x - 1)))) as [E|E]; cbn [negb].
    + rewrite <- E, digit_sum_0 in Hp. cbn [mret res_ret]. f_equal. lia.
    + rewrite IH by (auto; lia). f_equal. lia.
Qed.

Lemma bit_count_ok x : inS w x -> bit_count dm x = Ok (popcount W x).
Proof.
  intros Hx. unfold bit_count. destruct (Z.eqb_spec x 0) as [->|H0]; cbn [negb]; [now rewrite digit_sum_0|].
  apply bit_count_loop_ok; [assumption..|]. apply popcount_bound.
Qed.

Lemma bit_shifter_loop_ok k x n : bit_shifter_loop k x n = n + popcount k x.
Proof.
  revert x n. induction k as [|k IH]; intros x n; cbn [bit_shifter_loop digit_sum]; [lia|].
  destruct (Z.eqb_spec x 0) as [->|H0]; cbn [negb].
  - rewrite Zmod_0_l, Zdiv_0_l, digit_sum_0. lia.
  - rewrite IH, Z.shiftr_div_pow2 by lia. change (Z.land x 1) with (Z.land x (Z.ones 1)). rewrite Z.land_ones by lia.
    pose proof (Z.mod_pos_bound x (2 ^ 1) ltac:(lia)). rewrite wrapS_id by (change (2 ^ 1) with 2 in *; clia). lia.
Qed.

(** ** [bitcount] *)

Lemma bitcount_step_sum (n : nat) m1 m2 sh x : 1 <= sh -> 2 * sh * Z.of_nat n = 32 -> m1 = m2 ≪ sh -> m2 = low_mask sh n ->
  digit_sum (2 * sh) n (bitcount_step dm m1 m2 sh x) = digit_sum sh (2 * n) x.
Proof.
  intros Hs Hn -> ->. rewrite <- swar_sum, <- swar_mask by lia. apply digit_sum_congr; [lia|]. rewrite Hn.
  unfold bitcount_step. rewrite sL_mod32, uL_mod32. do 2 f_equal.
  rewrite Z.shiftr_land, Z.shiftr_shiftl_l, Z.sub_diag, Z.shiftl_0_r, Z.shiftr_div_pow2 by lia. reflexivity.
Qed.

Lemma s32_digit y : 0 <= digit_sum 32 1 y <= 32 -> s32 y = digit_sum 32 1 y.
Proof.
  cbn [digit_sum]. unfold wrapS. change (2 ^ 32) with 4294967296. change (2 ^ (32 - 1)) with 2147483648. intros H. dlia.
Qed.

Lemma bitcount_chain x y1 y2 y3 y4 y5 :
  y1 = bitcount_step dm 0xAAAAAAAA 0x55555555 1 x -> y2 = bitcount_step dm 0xCCCCCCCC 0x33333333 2 y1 ->
  y3 = bitcount_step dm 0xF0F0F0F0 0x0F0F0F0F 4 y2 -> y4 = bitcount_step dm 0xFF00FF00 0x00FF00FF 8 y3 ->
  y5 = bitcount_step dm 0xFFFF0000 0x0000FFFF 16 y4 -> s32 y5 = popcount 32 x.
Proof.
  intros E1 E2 E3 E4 E5.
  assert (digit_sum 32 1 y5 = digit_sum 16 2 y4) as H5 by (subst y5; apply (bitcount_step_sum 1); reflexivity || lia).
  assert (digit_sum 16 2 y4 = digit_sum 8 4 y3) as H4 by (subst y4; apply (bitcount_step_sum 2); reflexivity || lia).
  assert (digit_sum 8 4 y3 = digit_sum 4 8 y2) as H3 by (subst y3; apply (bitcount_step_sum 4); reflexivity || lia).
  assert (digit_sum 4 8 y2 = digit_sum 2 16 y1) as H2 by (subst y2; apply (bitcount_step_sum 8); reflexivity || lia).
  assert (digit_sum 2 16 y1 = popcount 32 x) as H1 by (subst y1; apply (bitcount_step_sum 16); reflexivity || lia).
  clear E1 E2 E3 E4 E5. pose proof (popcount_bound 32 x) as Hb.
  rewrite <- H1, <- H2, <- H3, <- H4, <- H5 in *. apply s32_digit, Hb.
Qed.

Lemma bitcount_ok x : bitcount dm x = Ok (popcount 32 x).
Proof. unfold bitcount. cbv zeta. cbn [mret res_ret]. f_equal. eapply bitcount_chain; reflexivity. Qed.

(** ** The tables *)

Lemma bits_popcount k : inU 8 k -> aget bits k = Ok (popcount 8 k).
Proof.
  unfold inU. change (2 ^ 8) with 256. intros Hk. rewrite aget_total by (change (Z.of_nat (length bits)) with 256; lia).
  f_equal. apply Z.eqb_eq. apply (forallb_seqZ (fun k => bits !!! Z.to_nat k =? popcount 8 k) 0 256); [vm_compute; reflexivity|lia].
Qed.

Lemma bits_nibble x m k : 0 <= k -> m = Z.ones 4 ≪ k -> aget bits (Z.land x m ≫ k) = Ok (popcount 4 (x / 2 ^ k)).
Proof.
  intros Hk ->. rewrite land_field, Z.shiftr_div_pow2, Z.div_mul by (apply Z.pow_nonzero || lia; lia).
  pose proof (Z.mod_pos_bound (x / 2 ^ k) (2 ^ 4) ltac:(lia)). change (2 ^ 4) with 16 in *.
  rewrite bits_popcount by (unfold inU; change (2 ^ 8) with 256; lia).
  f_equal. rewrite (popcount_nonneg_top 4 4) by (change (2 ^ Z.of_nat 4) with 16; lia).
  exact (digit_sum_mod 1 4 (x / 2 ^ k) ltac:(lia)).
Qed.

Lemma bits_low x : aget bits (Z.land x 0xF) = Ok (popcount 4 x).
Proof.
  pose proof (bits_nibble x 0xF 0 ltac:(lia) eq_refl) as E. rewrite Z.shiftr_0_r, Z.pow_0_r, Z.div_1_r in E. exact E.
Qed.

Lemma bits_byte x (i : Z) : aget bits ((x / 2 ^ i) mod 256) = Ok (popcount 8 (x / 2 ^ i)).
Proof.
  pose proof (Z.mod_pos_bound (x / 2 ^ i) 256 ltac:(lia)). rewrite bits_popcount by (unfold inU; change (2 ^ 8) with 256; lia).
  f_equal. exact (digit_sum_mod 1 8 (x / 2 ^ i) ltac:(lia)).
Qed.

Lemma ntbl_bitcount_ok x : ntbl_bitcount x = Ok (popcount 32 x).
Proof.
  unfold ntbl_bitcount. rewrite bits_low.
  do 7 (match goal with |- context [aget bits (Z.land x ?m ≫ ?k)] => rewrite (bits_nibble x m k) by (lia || reflexivity) end).
  cbn [mbind res_bind mret res_ret]. f_equal. rewrite (popcount_fields 4 8). cbn [zsum].
  rewrite Z.mul_0_r, Z.pow_0_r, Z.div_1_r. reflexivity.
Qed.

Lemma le_bytes_lookup (n : nat) x (i : nat) : (i < n)%nat -> le_bytes n x !! i = Some ((x / 2 ^ (8 * Z.of_nat i)) mod 256).
Proof.
  revert x i. induction n as [|n IH]; intros x i Hi; [lia|]. destruct i as [|i]; cbn [le_bytes lookup list_lookup].
  - rewrite Z.mul_0_r, Z.pow_0_r, Z.div_1_r. reflexivity.
  - rewrite IH by lia. change 256 with (2 ^ 8) at 1. rewrite Z.div_div by (apply Z.pow_nonzero || apply Z.pow_pos_nonneg; lia).
    rewrite <- Z.pow_add_r by lia. do 4 f_equal. lia.
Qed.

Lemma object_byte x (i : Z) : 0 <= i < 4 -> aget (object_bytes dm x) i = Ok ((uL dm x / 2 ^ (8 * i)) mod 256).
Proof.
  intros Hi. apply aget_ok. split; [lia|]. unfold object_bytes. rewrite le_bytes_lookup; [|destruct dm; [change (Z.to_nat (long_bits ILP32 / 8)) with 4%nat|change (Z.to_nat (long_bits LP64 / 8)) with 8%nat]; lia].
  rewrite Z2Nat.id by lia. reflexivity.
Qed.

Lemma popcount_bytes x : popcount 32 x =
  popcount 8 (uL dm x) + popcount 8 (uL dm x / 2 ^ 8) + popcount 8 (uL dm x / 2 ^ 16) + popcount 8 (uL dm x / 2 ^ 24).
Proof.
  rewrite (digit_sum_congr 1 32 x (uL dm x)) by (lia || symmetry; apply uL_mod32).
  rewrite (popcount_fields 8 4). cbn [zsum]. rewrite Z.mul_0_r, Z.pow_0_r, Z.div_1_r. reflexivity.
Qed.

Lemma BW_btbl_bitcount_ok x : BW_btbl_bitcount dm x = Ok (popcount 32 x).
Proof.
  unfold BW_btbl_bitcount. cbv zeta. rewrite !object_byte by lia. cbn [mbind res_bind].
  rewrite !bits_byte. cbn [mbind res_bind mret res_ret]. rewrite popcount_bytes. f_equal.
  change (8 * 0) with 0. change (8 * 1) with 8. change (8 * 2) with 16. change (8 * 3) with 24. rewrite Z.pow_0_r, Z.div_1_r. lia.
Qed.

Lemma AR_btbl_bitcount_ok x : AR_btbl_bitcount dm x = Ok (popcount 32 x).
Proof.
  unfold AR_btbl_bitcount. cbv zeta. rewrite !object_byte by lia. cbn [mbind res_bind].
  rewrite !bits_byte. cbn [mbind res_bind mret res_ret]. rewrite popcount_bytes. f_equal.
  change (8 * 0) with 0. rewrite Z.pow_0_r, Z.div_1_r. reflexivity.
Qed.

(** ** The recursive counters *)

Lemma ntbl_bitcnt_rec_ok fuel x : 0 <= x < 16 ^ Z.of_nat fuel -> (0 < fuel)%nat ->
  ntbl_bitcnt_rec fuel x = Ok (popcount (4 * fuel) x).
Proof.
  revert x. induction fuel as [|fuel IH]; intros x Hx Hf; [lia|]. cbn [ntbl_bitcnt_rec].
  rewrite bits_low. cbn [mbind res_bind]. rewrite Z.shiftr_div_pow2 by lia.
  replace (4 * S fuel)%nat with (4 + 4 * fuel)%nat by lia. rewrite digit_sum_add by lia. change (1 * Z.of_nat 4) with 4.
  rewrite Nat2Z.inj_succ, Z.pow_succ_r in Hx by lia.
  destruct (Z.eqb_spec 0 (x / 2 ^ 4)) as [E|E]; cbn [negb].
  - rewrite <- E, digit_sum_0. cbn [mret res_ret]. f_equal. lia.
  - assert (0 <= x / 2 ^ 4 < 16 ^ Z.of_nat fuel) as Hd.
    { change (2 ^ 4) with 16 in *. split; [apply Z.div_pos; lia|]. apply Z.div_lt_upper_bound; lia. }
    rewrite IH; [reflexivity|exact Hd|]. destruct fuel; [|lia]. cbn in Hd. lia.
Qed.

Lemma ntbl_bitcnt_negative fuel x : x < 0 -> ntbl_bitcnt_rec fuel x = Err OutOfFuel.
Proof.
  revert x. induction fuel as [|fuel IH]; intros x Hx; [reflexivity|]. cbn [ntbl_bitcnt_rec].
  rewrite bits_low. cbn [mbind res_bind]. rewrite Z.shiftr_div_pow2 by lia.
  assert (x / 2 ^ 4 < 0) as Hd by (apply Z.div_lt_upper_bound; lia). rewrite IH by exact Hd.
  rewrite (proj2 (Z.eqb_neq _ _)) by lia. reflexivity.
Qed.

Lemma long_pow (k : nat) : (4 * k = W)%nat -> 2 ^ w = 16 ^ Z.of_nat k.
Proof.
  intros Hk. pose proof long_bits_pos. change 16 with (2 ^ 4). rewrite <- Z.pow_mul_r by lia. apply (f_equal (Z.pow 2)). lia.
Qed.

Lemma ntbl_bitcnt_ok x : 0 <= x -> inS w x -> ntbl_bitcnt dm x = Ok (popcount W x).
Proof.
  intros H0 [_ Hx]. unfold ntbl_bitcnt. assert (4 * Z.to_nat (w / 4) = W)%nat as E by (destruct dm; reflexivity).
  pose proof (long_pow _ E) as Ep. rewrite <- E. apply ntbl_bitcnt_rec_ok; [|pose proof long_bits_pos; lia].
  rewrite <- Ep. split; [exact H0|]. eapply Z.lt_trans; [exact Hx|]. pose proof long_bits_pos. apply Z.pow_lt_mono_r; lia.
Qed.

(** A number of [k] bits has no more bits than that. *)
Lemma popcount_long (k : nat) x : (k <= W)%nat -> 0 <= x < 2 ^ Z.of_nat k -> popcount W x = popcount k x.
Proof.
  intros Hk Hx. replace W with (k + (W - k))%nat by lia. apply popcount_nonneg_top, Hx.
Qed.

Lemma counters_ok x : 0 <= x < 2 ^ 31 -> Forall (fun f => f x = Ok (popcount 32 x)) (pBitCntFunc dm).
Proof.
  intros Hx. pose proof long_bits_pos. assert (inS w x) as Hi.
  { pose proof (Z.pow_le_mono_r 2 31 (w - 1) ltac:(lia) ltac:(lia)). unfold inS. lia. }
  assert (popcount W x = popcount 32 x) as E by (apply popcount_long; [lia|change (2 ^ Z.of_nat 32) with (2 ^ 32); lia]).
  unfold pBitCntFunc. repeat constructor.
  - rewrite bit_count_ok by exact Hi. now rewrite E.
  - apply bitcount_ok.
  - rewrite ntbl_bitcnt_ok by (lia || exact Hi). now rewrite E.
  - apply ntbl_bitcount_ok.
  - apply BW_btbl_bitcount_ok.
  - apply AR_btbl_bitcount_ok.
  - unfold bit_shifter. rewrite bit_shifter_loop_ok, E. reflexivity.
Qed.
End Long.

(** Every value of long, both widths: bit_count and bit_shifter return the number of its set
    bits, ntbl_bitcnt does for non-negative values, and the parallel sum bitcount and the three
    table counters return the number of set bits among the low 32. *)
Theorem bit_counters_exact dm x : inS (long_bits dm) x ->
  bit_count dm x = Ok (popcount (Z.to_nat (long_bits dm)) x) /\
  bit_shifter dm x = Ok (popcount (Z.to_nat (long_bits dm)) x) /\
  (0 <= x -> ntbl_bitcnt dm x = Ok (popcount (Z.to_nat (long_bits dm)) x)) /\
  bitcount dm x = Ok (popcount 32 x) /\ ntbl_bitcount x = Ok (popcount 32 x) /\
  BW_btbl_bitcount dm x = Ok (popcount 32 x) /\ AR_btbl_bitcount dm x = Ok (popcount 32 x).
Proof.
  intros Hx. split; [apply bit_count_ok, Hx|]. split; [unfold bit_shifter; now rewrite bit_shifter_loop_ok|].
  split; [intros H0; apply ntbl_bitcnt_ok; assumption|]. split; [apply bitcount_ok|]. split; [apply ntbl_bitcount_ok|].
  split; [apply BW_btbl_bitcount_ok|apply AR_btbl_bitcount_ok].
Qed.

Lemma bit_counters_exact_witness : inS (long_bits LP64) (-3) /\
  bit_count LP64 (-3) = Ok (popcount (Z.to_nat (long_bits LP64)) (-3)) /\
  bit_shifter LP64 (-3) = Ok (popcount (Z.to_nat (long_bits LP64)) (-3)) /\
  (0 <= -3 -> ntbl_bitcnt LP64 (-3) = Ok (popcount (Z.to_nat (long_bits LP64)) (-3))) /\
  bitcount LP64 (-3) = Ok (popcount 32 (-3)) /\ ntbl_bitcount (-3) = Ok (popcount 32 (-3)) /\
  BW_btbl_bitcount LP64 (-3) = Ok (popcount 32 (-3)) /\ AR_btbl_bitcount LP64 (-3) = Ok (popcount 32 (-3)).
Proof. split; [by_eval|]. apply (bit_counters_exact LP64 (-3)). by_eval. Defined.

(** On a negative number the recursion of ntbl_bitcnt never ends: at every depth it asks for
    one more level. *)
Theorem ntbl_bitcnt_diverges x : x < 0 -> forall depth, ntbl_bitcnt_rec depth x = Err OutOfFuel.
Proof. intros Hx depth. apply ntbl_bitcnt_negative, Hx. Qed.

Lemma ntbl_bitcnt_diverges_witness : -1 < 0 /\ forall depth, ntbl_bitcnt_rec depth (-1) = Err OutOfFuel.
Proof. split; [lia|]. apply (ntbl_bitcnt_diverges (-1)). lia. Defined.

(** ** The benchmark *)

Section Main.
Context (dm : data_model) (f : Z -> res Z) (seed : Z).

(** The state of the loop after [j] iterations. *)
Definition main_state (j : nat) : Z * Z := (zsum (fun i => popcount 32 (seed + 13 * Z.of_nat i)) j, seed + 13 * Z.of_nat j).

Lemma main_loop_ok n : 0 <= seed -> seed + 13 * Z.of_nat n < 2 ^ 31 -> Z.of_nat n <= 7500 ->
  (forall x, 0 <= x < 2 ^ 31 -> f x = Ok (popcount 32 x)) ->
  cfor n 0 (total_body dm f) (main_state 0) = Ok (main_state n).
Proof.
  intros H0 Hs Hn Hf. apply cfor_states. intros j Hj. unfold total_body, main_state. rewrite Hf by lia.
  cbn [mbind res_bind mret res_ret zsum]. change (2 ^ 31) with 2147483648 in *. do 2 f_equal.
  - apply sL_id. assert (0 <= zsum (fun i => popcount 32 (seed + 13 * Z.of_nat i)) j <= 32 * Z.of_nat j) as Hz.
    { clear -j. induction j as [|j IH]; cbn [zsum]; [lia|]. pose proof (popcount_bound 32 (seed + 13 * Z.of_nat j)). lia. }
    pose proof (popcount_bound 32 (seed + 13 * Z.of_nat j)). unfold inS. change (2 ^ (32 - 1)) with 2147483648. lia.
  - rewrite sL_id by (unfold inS; change (2 ^ (32 - 1)) with 2147483648; lia). lia.
Qed.
End Main.

(** The measured loop of main returns the same total for all seven functions of the table:
    the sum of the bit counts of the 7500 numbers from the random seed on, as long as these stay
    below 2^31. *)
Theorem bitcnts_main_agree dm seed : 0 <= seed -> seed + 97500 < 2 ^ 31 ->
  Forall (fun f => main_total dm f seed = Ok (zsum (fun j => popcount 32 (seed + 13 * Z.of_nat j)) iterations)) (pBitCntFunc dm).
Proof.
  intros H0 Hs. apply Forall_forall. intros f Hf. unfold main_total.
  assert (forall x, 0 <= x < 2 ^ 31 -> f x = Ok (popcount 32 x)) as Hx.
  { intros x Hx. exact (proj1 (Forall_forall _ _) (counters_ok dm x Hx) f Hf). }
  assert (13 * Z.of_nat iterations = 97500) as Ei by (vm_compute; reflexivity).
  pose proof (main_loop_ok dm f seed iterations H0 ltac:(lia) ltac:(lia) Hx) as E.
  unfold main_state at 1 in E. change (zsum _ 0) with 0 in E. change (Z.of_nat 0) with 0 in E. rewrite Z.mul_0_r, Z.add_0_r in E.
  rewrite E. reflexivity.
Qed.

Lemma bitcnts_main_agree_witness : 0 <= 1804289383 /\ 1804289383 + 97500 < 2 ^ 31 /\
  Forall (fun f => main_total LP64 f 1804289383 =
    Ok (zsum (fun j => popcount 32 (1804289383 + 13 * Z.of_nat j)) iterations)) (pBitCntFunc LP64).
Proof. split; [lia|]. split; [lia|]. apply (bitcnts_main_agree LP64 1804289383); lia. Defined.
