(* ===== verification/Bitops.v ===== *)
(** Bit arrays, binary strings and bit files (src/mibench/automotive/bitcount/bitarray.c, bitstrng.c,
    bstr_i.c, bitfiles.c). [char] is unsigned, as on RISC-V; a shift by a negative count, which C
    leaves undefined, is an error. *)
From stdpp Require Import base list numbers option tactics.
From Stdlib Require Import ZArith Lia.
From S2P Require Import Prelude Bytes Stdio.

(** ** Bit arrays: bitarray.c *)

(** [calloc((bits + CHAR_BIT - 1) / CHAR_BIT, 1)]; [size_t] is as wide as [long]. *)
Definition alloc_bit_array (dm : data_model) (bits : Z) : list Z :=
  replicate (Z.to_nat (uL dm (bits + 8 - 1) / 8)) 0.

(** [1 << (number % CHAR_BIT)]. *)
Definition bit_mask (number : Z) : res Z :=
  let k := Z.rem number 8 in if 0 <=? k then mret (1 ≪ k) else Err OutOfBounds.

Definition getbit (set : list Z) (number : Z) : res Z :=
  c ← aget set (Z.quot number 8);
  m ← bit_mask number;
  mret (if negb (Z.land c m =? 0) then 1 else 0).

Definition setbit (set : list Z) (number value : Z) : res (list Z) :=
  c ← aget set (Z.quot number 8);
  m ← bit_mask number;
  if negb (value =? 0) then aset set (Z.quot number 8) (u8 (Z.lor c m))
  else aset set (Z.quot number 8) (u8 (Z.land c (Z.lnot m))).

Definition flipbit (set : list Z) (number : Z) : res (list Z) :=
  c ← aget set (Z.quot number 8);
  m ← bit_mask number;
  aset set (Z.quot number 8) (u8 (Z.lxor c m)).

(** ** Binary strings: bitstrng.c and bstr_i.c *)

(** [while (--biz >= 0)], for [biz = n]. *)
Fixpoint bitstring_loop (byze : Z) (n : nat) : list Z :=
  match n with
  | O => []
  | S biz =>
      u8 (Z.land (byze ≫ Z.of_nat biz) 1 + 48) ::
      (if (biz mod 4 =? 0)%nat && negb (biz =? 0)%nat then [32] else []) ++ bitstring_loop byze biz
  end.

(** The characters that are written, with the terminating zero. *)
Definition bitstring (byze biz strwid : Z) : list Z :=
  let j := s32 (strwid - (biz + (biz ≫ 2) - (if negb (Z.rem biz 4 =? 0) then 0 else 1))) in
  replicate (Z.to_nat j) 32 ++ bitstring_loop byze (Z.to_nat biz) ++ [0].

(** The loop of [bstr_i]; reading past the end of the array is an error. *)
Fixpoint bstr_loop (cptr : list Z) (j : Z) : res Z :=
  match cptr with
  | [] => Err OutOfBounds
  | c :: cptr =>
      if negb (c =? 0) && ((c =? 48) || (c =? 49)) then
        let i := u32 (c - 48) in
        bstr_loop cptr (Z.lor (u32 (j ≪ 1)) (Z.land i 0x01))
      else mret j
  end.
Definition bstr_i (cptr : option (list Z)) : res Z :=
  match cptr with None => mret 0 | Some cptr => bstr_loop cptr 0 end.

(** ** Bit files: bitfiles.c *)

(** [file] is an input or an output stream, according to the mode; both are kept here. *)
Record bfile := Bfile { inf : ifile; outf : ofile; rbuf : Z; rcnt : Z; wbuf : Z; wcnt : Z }.

(** A successful [bfopen]; [rbuf0] and [wbuf0] are the contents of the memory that [malloc] returns. *)
Definition bfopen (i : ifile) (o : ofile) (rbuf0 wbuf0 : Z) : bfile := Bfile i o rbuf0 0 wbuf0 0.

Definition bfread (bf : bfile) : Z * bfile :=
  let bf := if 0 =? rcnt bf then
              let '(c, f) := fgetc (inf bf) in
              Bfile f (outf bf) (u8 (default (-1) c)) 8 (wbuf bf) (wcnt bf)
            else bf in
  let cnt := u8 (rcnt bf - 1) in
  ((if negb (Z.land (rbuf bf) (1 ≪ cnt) =? 0) then 1 else 0), Bfile (inf bf) (outf bf) (rbuf bf) cnt (wbuf bf) (wcnt bf)).

Definition bfwrite (bit : Z) (bf : bfile) : bfile :=
  let bf := if 8 =? wcnt bf then Bfile (inf bf) (fputc (wbuf bf) (outf bf)).2 (rbuf bf) (rcnt bf) (wbuf bf) 0 else bf in
  Bfile (inf bf) (outf bf) (rbuf bf) (rcnt bf) (u8 (Z.lor (u8 (wbuf bf ≪ 1)) (Z.land bit 1))) (u8 (wcnt bf + 1)).

(** [bfclose] leaves the streams as they are. *)
Definition bfclose (bf : bfile) : ifile * ofile := (inf bf, outf bf).

Example bitops_run :
  bitstring 14 15 16 = [48; 48; 48; 32; 48; 48; 48; 48; 32; 48; 48; 48; 48; 32; 49; 49; 49; 48; 0] /\
  bstr_i (Some [49; 48; 49; 120; 0]) = Ok 5.
Proof. split; vm_compute; reflexivity. Qed.

(** * Correctness *)

(** ** A bit array is an array of bits *)

Section Array.
Implicit Types (set : list Z) (k i : nat) (n : nat) (c v : Z).

(** The bits of a byte, least significant first, and of an array. *)
Definition byte_bools c : list bool := (fun i => Z.testbit c (Z.of_nat i)) <$> seq 0 8.
Definition bools set : list bool := mjoin (byte_bools <$> set).

Lemma bools_cons c set : bools (c :: set) = byte_bools c ++ bools set.
Proof. reflexivity. Qed.

Lemma length_bools set : length (bools set) = (8 * length set)%nat.
Proof. induction set as [|c set IH]; [reflexivity|]. rewrite bools_cons, length_app, IH. cbn [length byte_bools fmap list_fmap seq]. lia. Qed.

Lemma lookup_bools set k c : set !! (k / 8)%nat = Some c -> bools set !!! k = Z.testbit c (Z.of_nat (k mod 8)).
Proof.
  revert k. induction set as [|x set IH]; intros k Hk; [discriminate|]. rewrite bools_cons.
  destruct (Nat.lt_ge_cases k 8) as [Hlt|Hge].
  - rewrite lookup_total_app_l by (cbn; lia). rewrite Nat.div_small in Hk by lia. injection Hk as ->.
    rewrite Nat.mod_small by lia. do 8 (destruct k as [|k]; [reflexivity|]). lia.
  - rewrite lookup_total_app_r by (cbn; lia). change (length (byte_bools x)) with 8%nat.
    destruct (block_split 8 k ltac:(lia)) as [E1 E2]. rewrite E1 in Hk. rewrite E2. apply IH, Hk.
Qed.

(** Replacing a byte by one that differs in one bit replaces that bit. *)
Lemma bools_insert set k c c' b : set !! (k / 8)%nat = Some c ->
  (forall i, (i < 8)%nat -> Z.testbit c' (Z.of_nat i) = if (i =? k mod 8)%nat then b else Z.testbit c (Z.of_nat i)) ->
  bools (<[(k / 8)%nat := c']> set) = <[k := b]> (bools set).
Proof.
  intros Hc Hb. pose proof (lookup_lt_Some _ _ _ Hc) as Hl. apply list_eq_same_length with (8 * length set)%nat.
  - rewrite length_insert. apply length_bools.
  - rewrite length_bools, length_insert. reflexivity.
  - intros j x y Hj Hx Hy. apply list_lookup_total_correct in Hx, Hy. subst x y.
    assert (j / 8 < length set)%nat as Hj8 by (apply Nat.Div0.div_lt_upper_bound; lia).
    assert (j mod 8 < 8)%nat as Hm by (apply Nat.mod_upper_bound; lia).
    destruct (lookup_lt_is_Some_2 set (j / 8) Hj8) as [d Hd].
    destruct (decide ((j / 8)%nat = (k / 8)%nat)) as [E|E].
    + rewrite (lookup_bools _ j c') by (rewrite E; apply list_lookup_insert_eq; lia). rewrite Hb by exact Hm.
      destruct (Nat.eqb_spec (j mod 8) (k mod 8)) as [Em|Em].
      * assert (j = k) as -> by (rewrite (Nat.div_mod_eq j 8), (Nat.div_mod_eq k 8); lia).
        rewrite list_lookup_total_insert_eq by (rewrite length_bools; lia). reflexivity.
      * assert (j <> k) by congruence. rewrite list_lookup_total_insert_ne by congruence.
        rewrite E, Hc in Hd. rewrite (lookup_bools _ j c) by (rewrite E; exact Hc). reflexivity.
    + assert (j <> k) by congruence. rewrite list_lookup_total_insert_ne by congruence.
      rewrite (lookup_bools _ j d), (lookup_bools set j d); [reflexivity|exact Hd|].
      rewrite list_lookup_insert_ne by congruence. exact Hd.
Qed.
End Array.

(** The bit operations on the byte that [getbit], [setbit] and [flipbit] use. *)
Section ByteBits.
Implicit Types (k i : nat) (c : Z).

Lemma bit_mask_ok k : bit_mask (Z.of_nat k) = Ok (1 ≪ Z.of_nat (k mod 8)) /\ Z.quot (Z.of_nat k) 8 = Z.of_nat (k / 8).
Proof.
  unfold bit_mask. rewrite Z.rem_mod_nonneg, Z.quot_div_nonneg by lia. change 8 with (Z.of_nat 8).
  rewrite <- Nat2Z.inj_mod, <- Nat2Z.inj_div, (proj2 (Z.leb_le _ _)) by lia. auto.
Qed.

Lemma mask_testbit k i : Z.testbit (1 ≪ Z.of_nat k) (Z.of_nat i) = (i =? k)%nat.
Proof.
  rewrite Z.shiftl_1_l, Z.pow2_bits_eqb by lia. destruct (Nat.eqb_spec i k); [subst; apply Z.eqb_refl|]. apply Z.eqb_neq. lia.
Qed.

Lemma mask_inU k : (k < 8)%nat -> inU 8 (1 ≪ Z.of_nat k).
Proof. intros Hk. do 8 (destruct k as [|k]; [by_eval|]). lia. Qed.

Lemma u8_testbit c i : (i < 8)%nat -> Z.testbit (u8 c) (Z.of_nat i) = Z.testbit c (Z.of_nat i).
Proof. intros Hi. unfold wrapU. apply Z.mod_pow2_bits_low. lia. Qed.

Lemma land_mask c k : negb (Z.land c (1 ≪ Z.of_nat k) =? 0) = Z.testbit c (Z.of_nat k).
Proof.
  destruct (Z.testbit c (Z.of_nat k)) eqn:E.
  - apply negb_true_iff, Z.eqb_neq. intros H. apply (f_equal (fun x : Z => Z.testbit x (Z.of_nat k))) in H.
    rewrite Z.land_spec, mask_testbit, Nat.eqb_refl, E, Z.testbit_0_l in H. discriminate.
  - apply negb_false_iff, Z.eqb_eq, Z.bits_inj'. intros n Hn. rewrite Z.land_spec, Z.testbit_0_l.
    rewrite <- (Z2Nat.id n), mask_testbit by exact Hn. destruct (Nat.eqb_spec (Z.to_nat n) k) as [->|]; [rewrite E; reflexivity|apply andb_false_r].
Qed.
End ByteBits.

(** getbit, setbit and flipbit implement an array of bits: on every array of bytes and every
    index inside it they read the bit, replace exactly that bit by the truth value of the
    argument, and negate exactly that bit. *)
Theorem bit_array_refines (n k : nat) (set : list Z) (v : Z) : barr n set -> (k < 8 * n)%nat ->
  getbit set (Z.of_nat k) = Ok (Z.b2z (bools set !!! k)) /\
  okp (setbit set (Z.of_nat k) v) (fun set' => barr n set' /\ bools set' = <[k := negb (v =? 0)]> (bools set)) /\
  okp (flipbit set (Z.of_nat k)) (fun set' => barr n set' /\ bools set' = <[k := negb (bools set !!! k)]> (bools set)).
Proof.
  intros [Hl Hb] Hk. destruct (bit_mask_ok k) as [Em Eq].
  assert (k / 8 < length set)%nat as Hk8 by (apply Nat.Div0.div_lt_upper_bound; lia).
  assert (k mod 8 < 8)%nat as Hm by (apply Nat.mod_upper_bound; lia).
  destruct (lookup_lt_is_Some_2 set (k / 8) Hk8) as [c Hc].
  assert (aget set (Z.of_nat (k / 8)) = Ok c) as Ec by (apply aget_ok; rewrite Nat2Z.id; split; [lia|exact Hc]).
  assert (forall c', okp (aset set (Z.of_nat (k / 8)) c') (fun set' => set' = <[(k / 8)%nat := c']> set)) as Ha.
  { intros c'. unfold aset. rewrite (proj2 (andb_true_iff _ _)) by lia. rewrite Nat2Z.id. reflexivity. }
  assert (forall b' c', (forall i, (i < 8)%nat -> Z.testbit c' (Z.of_nat i) = if (i =? k mod 8)%nat then b' : bool else Z.testbit c (Z.of_nat i)) ->
    okp (aset set (Z.of_nat (k / 8)) (u8 c')) (fun set' => barr n set' /\ bools set' = <[k := b']> (bools set))) as Hset.
  { intros b' c' H. eapply okp_mono; [apply Ha|]. intros set' ->. split.
    - split; [rewrite length_insert; exact Hl|]. apply Forall_insert; [exact Hb|apply wrapU_range; lia].
    - apply bools_insert with c; [exact Hc|]. intros i Hi. rewrite u8_testbit by exact Hi. apply H, Hi. }
  unfold getbit, setbit, flipbit. rewrite Eq, Em, Ec, (lookup_bools set k c Hc). cbn [mbind res_bind mret res_ret].
  rewrite land_mask. split; [reflexivity|]. split.
  - destruct (v =? 0); cbn [negb]; apply Hset; intros i Hi.
    + rewrite Z.land_spec, Z.lnot_spec, mask_testbit by lia. destruct (i =? k mod 8)%nat; cbn [negb]; [apply andb_false_r|apply andb_true_r].
    + rewrite Z.lor_spec, mask_testbit. destruct (i =? k mod 8)%nat; [apply orb_true_r|apply orb_false_r].
  - apply Hset. intros i Hi. rewrite Z.lxor_spec, mask_testbit. destruct (Nat.eqb_spec i (k mod 8)) as [->|]; [apply xorb_true_r|apply xorb_false_r].
Qed.

Lemma bit_array_refines_witness : barr 2 [5; 0] /\ (9 < 8 * 2)%nat /\
  getbit [5; 0] (Z.of_nat 9) = Ok (Z.b2z (bools [5; 0] !!! 9%nat)) /\
  okp (setbit [5; 0] (Z.of_nat 9) 7) (fun set' => barr 2 set' /\ bools set' = <[9%nat := negb (7 =? 0)]> (bools [5; 0])) /\
  okp (flipbit [5; 0] (Z.of_nat 9)) (fun set' => barr 2 set' /\ bools set' = <[9%nat := negb (bools [5; 0] !!! 9%nat)]> (bools [5; 0])).
Proof. split; [by_eval|]. split; [lia|]. apply (bit_array_refines 2 9 [5; 0] 7); [by_eval|lia]. Defined.

(** ** A binary string reads back *)

Section Strings.
Implicit Types (byze x j : Z) (n m : nat).

(** A string without its blanks. *)
Definition squeeze (s : list Z) : list Z := List.filter (fun c => negb (c =? 32)) s.

Lemma squeeze_app a b : squeeze (a ++ b) = squeeze a ++ squeeze b.
Proof. apply filter_app. Qed.

Lemma squeeze_blanks m : squeeze (replicate m 32) = [].
Proof. induction m as [|m IH]; [reflexivity|exact IH]. Qed.

Lemma digit_char x : u8 (Z.land x 1 + 48) = 48 + x mod 2 /\ (x mod 2 = 0 \/ x mod 2 = 1).
Proof.
  change (Z.land x 1) with (Z.land x (Z.ones 1)). rewrite Z.land_ones by lia. change (2 ^ 1) with 2.
  pose proof (Z.mod_pos_bound x 2 ltac:(lia)). rewrite wrapU_id by clia. lia.
Qed.

Lemma length_bitstring_loop byze n : length (bitstring_loop byze n) = (n + (n - 1) / 4)%nat.
Proof.
  induction n as [|n IH]; [reflexivity|]. cbn [bitstring_loop length]. rewrite length_app, IH. replace (S n - 1)%nat with n by lia.
  destruct n as [|n]; [reflexivity|]. replace (S n - 1)%nat with n by lia. cbn [Nat.eqb negb].
  destruct (Nat.eqb_spec (S n mod 4) 0) as [E|E]; cbn [andb length]; pose proof (Nat.div_mod_eq (S n) 4); pose proof (Nat.div_mod_eq n 4);
    pose proof (Nat.mod_upper_bound (S n) 4 ltac:(lia)); pose proof (Nat.mod_upper_bound n 4 ltac:(lia)); lia.
Qed.

(** Reading the digits of [n] bits continues the number [j]. *)
Lemma bstr_bitstring byze n : forall j, 0 <= j < 2 ^ 32 ->
  bstr_loop (squeeze (bitstring_loop byze n ++ [0])) j = Ok (u32 (j * 2 ^ Z.of_nat n + byze mod 2 ^ Z.of_nat n)).
Proof.
  induction n as [|n IH]; intros j Hj.
  - cbn. rewrite Z.pow_0_r, Z.mod_1_r, Z.mul_1_r, Z.add_0_r, wrapU_id by exact Hj. reflexivity.
  - cbn [bitstring_loop app]. destruct (digit_char (byze ≫ Z.of_nat n)) as [-> Hd].
    set (d := (byze ≫ Z.of_nat n) mod 2) in *. unfold squeeze. cbn [List.filter].
    rewrite (proj2 (Z.eqb_neq (48 + d) 32)) by lia. cbn [negb].
    assert (List.filter (fun c => negb (c =? 32)) ((if (n mod 4 =? 0)%nat && negb (n =? 0)%nat then [32] else []) ++ bitstring_loop byze n ++ [0]) =
      squeeze (bitstring_loop byze n ++ [0])) as E.
    { destruct (_ && _); reflexivity. }
    rewrite <- app_assoc, E. cbn [bstr_loop].
    rewrite (proj2 (Z.eqb_neq (48 + d) 0)) by lia. cbn [negb andb].
    assert ((48 + d =? 48) || (48 + d =? 49) = true) as -> by (destruct Hd as [-> | ->]; reflexivity).
    replace (48 + d - 48) with d by lia. rewrite (wrapU_id 32 d) by clia.
    assert (Z.lor (u32 (j ≪ 1)) (Z.land d 1) = u32 (2 * j + d)) as ->.
    { change (Z.land d 1) with (Z.land d (Z.ones 1)). rewrite Z.land_ones, Z.mod_small by (change (2 ^ 1) with 2; lia).
      rewrite Z.shiftl_mul_pow2 by lia. unfold wrapU. change (2 ^ 32) with (2 ^ 31 * 2). change (2 ^ 1) with 2.
      rewrite Zmult_mod_distr_r. change 2 with (2 ^ 1) at 2. rewrite lor_disjoint_add by (change (2 ^ 1) with 2; lia).
      change (2 ^ 1) with 2. rewrite <- Zmult_mod_distr_r. change (2 ^ 31 * 2) with 4294967296.
      destruct Hd as [-> | ->]; dlia. }
    rewrite IH by apply (wrapU_range 32 _ ltac:(lia)). f_equal.
    rewrite Nat2Z.inj_succ, Z.pow_succ_r by lia. set (p := 2 ^ Z.of_nat n). assert (0 < p) by (apply Z.pow_pos_nonneg; lia).
    assert (byze mod (2 * p) = byze mod p + p * d) as ->.
    { rewrite (Z.mul_comm 2 p), Z.rem_mul_r by lia. unfold d. rewrite Z.shiftr_div_pow2 by lia. reflexivity. }
    unfold wrapU. rewrite <- Zplus_mod_idemp_l, Zmult_mod_idemp_l, Zplus_mod_idemp_l. f_equal. ring.
Qed.
End Strings.

(** bitstring writes the larger of the requested width and the digits with one blank between
    groups of four, and bstr_i on the digits gives the low bits of the number back, for every
    width up to that of long. *)
Theorem bitstring_roundtrip dm byze biz strwid : 0 < biz <= long_bits dm -> - 2 ^ 30 <= strwid <= 2 ^ 30 ->
  Z.of_nat (length (bitstring byze biz strwid)) = Z.max strwid (biz + (biz - 1) / 4) + 1 /\
  bstr_i (Some (squeeze (bitstring byze biz strwid))) = Ok (byze mod 2 ^ Z.min biz 32).
Proof.
  intros Hb' Hs. assert (0 < biz <= 64) as Hb by (destruct (long_bits_cases dm); lia). clear Hb' dm. unfold bitstring, bstr_i. split.
  - rewrite !length_app, length_replicate, length_bitstring_loop. cbn [length].
    rewrite Z.rem_mod_nonneg, Z.shiftr_div_pow2 by lia. change (2 ^ 2) with 4. change (2 ^ 30) with 1073741824 in Hs.
    set (j := strwid - _). assert (j = strwid - (biz + (biz - 1) / 4)) as Ej.
    { unfold j. destruct (Z.eqb_spec (biz mod 4) 0); cbn [negb]; dlia. }
    rewrite wrapS_id by (clia || (unfold inS; change (2 ^ (32 - 1)) with 2147483648; dlia)).
    assert (Z.of_nat ((Z.to_nat biz - 1) / 4) = (biz - 1) / 4) as Ed.
    { rewrite Nat2Z.inj_div. f_equal. lia. }
    lia.
  - rewrite squeeze_app, squeeze_blanks. cbn [app]. rewrite bstr_bitstring by lia. rewrite Z.mul_0_l, Z.add_0_l, Z2Nat.id by lia. f_equal.
    unfold wrapU. destruct (Z.le_gt_cases biz 32).
    + rewrite Z.min_l by lia. apply Z.mod_small. pose proof (Z.mod_pos_bound byze (2 ^ biz) ltac:(lia)).
      pose proof (Z.pow_le_mono_r 2 biz 32 ltac:(lia) ltac:(lia)). lia.
    + rewrite Z.min_r by lia. replace (2 ^ biz) with (2 ^ 32 * 2 ^ (biz - 32)) by (rewrite <- Z.pow_add_r by lia; f_equal; lia).
      rewrite Z.rem_mul_r by (try apply Z.pow_pos_nonneg; try apply Z.pow_nonzero; lia). rewrite (Z.mul_comm (2 ^ 32)), Z.mod_add, Z.mod_mod by lia. reflexivity.
Qed.

Lemma bitstring_roundtrip_witness : 0 < 13 <= long_bits ILP32 /\ - 2 ^ 30 <= 16 <= 2 ^ 30 /\
  Z.of_nat (length (bitstring (-5) 13 16)) = Z.max 16 (13 + (13 - 1) / 4) + 1 /\
  bstr_i (Some (squeeze (bitstring (-5) 13 16))) = Ok (-5 mod 2 ^ Z.min 13 32).
Proof. split; [cbn; lia|]. split; [lia|]. apply (bitstring_roundtrip ILP32 (-5) 13 16); [cbn; lia|lia]. Defined.

(** ** A bit file loses its last bits *)

Section Files.
Implicit Types (b c : Z) (bs last : list Z) (bf : bfile) (n k : nat) (d : list Z).

Definition write_bits bs bf : bfile := fold_left (fun bf b => bfwrite b bf) bs bf.
Fixpoint read_bits n bf : list Z * bfile :=
  match n with
  | O => ([], bf)
  | S n => let '(b, bf) := bfread bf in let '(bs, bf) := read_bits n bf in (b :: bs, bf)
  end.

(** The number whose binary digits are [bs], and the [n] low digits of [c], most significant first. *)
Definition bin bs : Z := fold_left (fun a b => 2 * a + b) bs 0.
Fixpoint low_bits n c : list Z := match n with O => [] | S n => (c / 2 ^ Z.of_nat n) mod 2 :: low_bits n c end.

Definition is_bit b : Prop := b = 0 \/ b = 1.

Lemma bin_snoc bs b : bin (bs ++ [b]) = 2 * bin bs + b.
Proof. unfold bin. rewrite fold_left_app. reflexivity. Qed.

Lemma bin_range bs : Forall is_bit bs -> 0 <= bin bs < 2 ^ Z.of_nat (length bs).
Proof.
  induction bs as [|b bs IH] using rev_ind; intros H; [cbn; lia|]. apply Forall_app in H as [H1 H2].
  specialize (IH H1). apply Forall_inv in H2. rewrite bin_snoc, length_app, Nat2Z.inj_add, Z.pow_add_r by lia. cbn [length].
  change (2 ^ Z.of_nat 1) with 2. destruct H2; lia.
Qed.

Lemma low_bits_div n c : low_bits (S n) c = low_bits n (c / 2) ++ [c mod 2].
Proof.
  revert c. induction n as [|n IH]; intros c; [cbn; rewrite Z.div_1_r; reflexivity|].
  change (low_bits (S (S n)) c) with ((c / 2 ^ Z.of_nat (S n)) mod 2 :: low_bits (S n) c). rewrite IH. cbn [low_bits app]. f_equal.
  rewrite Nat2Z.inj_succ, Z.pow_succ_r, Z.div_div by lia. reflexivity.
Qed.

Lemma low_bits_bin bs : Forall is_bit bs -> low_bits (length bs) (bin bs) = bs.
Proof.
  induction bs as [|b bs IH] using rev_ind; intros H; [reflexivity|]. apply Forall_app in H as [H1 H2].
  apply Forall_inv in H2. rewrite bin_snoc, length_app, Nat.add_1_r, low_bits_div. f_equal.
  - replace ((2 * bin bs + b) / 2) with (bin bs) by (destruct H2; subst b; dlia). exact (IH H1).
  - f_equal. destruct H2; subst b; dlia.
Qed.

(** What has been written: whole bytes in the file and one to eight bits in the buffer. *)
Definition written (i : ifile) (n : nat) bs bf : Prop :=
  exists groups last, bs = mjoin groups ++ last /\ Forall (fun g => length g = 8%nat) groups /\ (length last <= 8)%nat /\
    (bs <> [] -> (0 < length last)%nat) /\
    inf bf = i /\ outf bf = OFile (bin <$> groups) (n - length groups) /\
    wcnt bf = Z.of_nat (length last) /\ wbuf bf mod 2 ^ Z.of_nat (length last) = bin last /\ 0 <= wbuf bf < 256.

Lemma land_1 b : Z.land b 1 = b mod 2.
Proof. change 1 with (Z.ones 1). rewrite Z.land_ones by lia. reflexivity. Qed.

(** The buffer after one more bit. *)
Lemma wbuf_shift (w b : Z) : 0 <= w < 256 -> u8 (Z.lor (u8 (w ≪ 1)) (Z.land b 1)) = (2 * w + b mod 2) mod 256.
Proof.
  intros Hw. rewrite land_1. pose proof (Z.mod_pos_bound b 2 ltac:(lia)).
  assert (u8 (w ≪ 1) = (w mod 128) * 2 ^ 1) as ->.
  { rewrite Z.shiftl_mul_pow2 by lia. unfold wrapU. change (2 ^ 8) with (128 * 2 ^ 1). apply Zmult_mod_distr_r. }
  rewrite lor_disjoint_add by (change (2 ^ 1) with 2; lia). change (2 ^ 1) with 2. unfold wrapU. change (2 ^ 8) with 256.
  rewrite Z.mod_small by dlia. dlia.
Qed.

Lemma written_step i n bs bf b : Forall is_bit bs -> (length bs < 8 * n)%nat -> written i n bs bf -> written i n (bs ++ [b mod 2]) (bfwrite b bf).
Proof.
  intros Hbits Hn (groups & last & -> & Hg & Hl & Hne & Hi & Ho & Hc & Hw & Hr).
  apply Forall_app in Hbits as [_ Hlast]. rewrite length_app in Hn.
  assert (length (mjoin groups) = 8 * length groups)%nat as Hlg.
  { clear -Hg. induction Hg as [|g gs Hg _ IH]; [reflexivity|]. rewrite mjoin_cons, length_app, IH, Hg. cbn [length]. lia. }
  unfold bfwrite. rewrite Hc. destruct (Z.eqb_spec 8 (Z.of_nat (length last))) as [E|E].
  - assert (length last = 8)%nat as E8 by lia. rewrite E8 in Hw. change (2 ^ Z.of_nat 8) with 256 in Hw. rewrite Z.mod_small in Hw by exact Hr.
    exists (groups ++ [last]), [b mod 2]. cbn [inf outf wcnt wbuf rbuf rcnt length].
    rewrite Ho, fputc_ok by (cbn [room]; lia). cbn [snd odata room]. rewrite wbuf_shift by exact Hr.
    assert (mjoin (groups ++ [last]) = mjoin groups ++ last) as ->.
    { clear. induction groups as [|g gs IH]; [cbn; now rewrite app_nil_r|]. cbn [app]. rewrite !mjoin_cons, IH. apply app_assoc. }
    repeat split; auto; try lia.
    + apply Forall_app. auto.
    + rewrite fmap_app, length_app, Hw. cbn [fmap list_fmap length]. f_equal; [|lia]. do 2 f_equal. apply wrapU_id.
      pose proof (bin_range last Hlast) as Hb. rewrite E8 in Hb. exact Hb.
    + change (2 ^ Z.of_nat 1) with 2. unfold bin. cbn [fold_left]. dlia.
    + apply Z.mod_pos_bound. lia.
    + apply Z.mod_pos_bound. lia.
  - exists groups, (last ++ [b mod 2]). cbn [inf outf wcnt wbuf rbuf rcnt]. rewrite length_app. cbn [length]. rewrite <- app_assoc, wbuf_shift by exact Hr.
    repeat split; auto; try lia.
    + rewrite wrapU_id by (unfold inU; change (2 ^ 8) with 256; lia). lia.
    + rewrite bin_snoc, <- Hw. replace (Z.of_nat (length last + 1)) with (Z.succ (Z.of_nat (length last))) by lia.
      rewrite Z.pow_succ_r by lia. set (p := Z.of_nat (length last)). assert (0 <= p <= 7) as Hp by lia.
      assert (0 < 2 ^ p) by (apply Z.pow_pos_nonneg; lia). pose proof (Z.mod_pos_bound b 2 ltac:(lia)).
      rewrite Z.mod_mod_divide.
      * rewrite Z.rem_mul_r by lia. replace ((2 * wbuf bf + b mod 2) mod 2) with (b mod 2) by dlia.
        replace ((2 * wbuf bf + b mod 2) / 2) with (wbuf bf) by dlia. lia.
      * exists (2 ^ (7 - p)). rewrite <- Z.pow_succ_r, <- Z.pow_add_r by lia. change 256 with (2 ^ 8). f_equal. lia.
    + apply Z.mod_pos_bound. lia.
    + apply Z.mod_pos_bound. lia.
Qed.

Lemma written_bits i n bs : forall bs0 bf, Forall is_bit bs0 -> (length bs0 + length bs <= 8 * n)%nat -> written i n bs0 bf ->
  written i n (bs0 ++ ((fun b => b mod 2) <$> bs)) (write_bits bs bf).
Proof.
  induction bs as [|b bs IH]; intros bs0 bf Hb Hn H; [cbn; rewrite app_nil_r; exact H|].
  cbn [length] in Hn. change (write_bits (b :: bs) bf) with (write_bits bs (bfwrite b bf)). rewrite fmap_cons.
  replace (bs0 ++ b mod 2 :: ((fun b => b mod 2) <$> bs)) with ((bs0 ++ [b mod 2]) ++ ((fun b => b mod 2) <$> bs)) by (rewrite <- app_assoc; reflexivity).
  apply IH; [|rewrite length_app; cbn [length]; lia|apply written_step; [exact Hb|lia|exact H]].
  apply Forall_app. split; [exact Hb|]. constructor; [|constructor]. pose proof (Z.mod_pos_bound b 2 ltac:(lia)). unfold is_bit. lia.
Qed.

(** The bits that [bfread] will return: those of the buffer, those of the file, and ones. *)
Definition stream_bits n d (p : nat) bf : list Z :=
  low_bits (Z.to_nat (rcnt bf)) (rbuf bf) ++ mjoin (low_bits 8 <$> drop p d) ++ replicate n 1.

Lemma bfread_buffered bf (r : nat) : rcnt bf = Z.of_nat (S r) -> (r < 8)%nat ->
  bfread bf = ((rbuf bf / 2 ^ Z.of_nat r) mod 2, Bfile (inf bf) (outf bf) (rbuf bf) (Z.of_nat r) (wbuf bf) (wcnt bf)).
Proof.
  intros E Hr. unfold bfread. rewrite (proj2 (Z.eqb_neq 0 (rcnt bf))) by lia. rewrite E.
  replace (u8 (Z.of_nat (S r) - 1)) with (Z.of_nat r) by (rewrite wrapU_id; [lia|unfold inU; change (2 ^ 8) with 256; lia]).
  rewrite land_mask, <- Z.testbit_spec' by lia. destruct (Z.testbit _ _); reflexivity.
Qed.

Lemma bfread_refill bf d p e : inf bf = IFile d p e -> rcnt bf = 0 -> Forall (inU 8) d -> exists c p' e',
  bfread bf = bfread (Bfile (IFile d p' e') (outf bf) c 8 (wbuf bf) (wcnt bf)) /\
  low_bits 8 c ++ mjoin (low_bits 8 <$> drop p' d) = mjoin (low_bits 8 <$> drop p d) ++ (if (length d <=? p)%nat then replicate 8 1 else []).
Proof.
  intros Hi Hc Hd. destruct (d !! p) as [c|] eqn:E.
  - exists c, (S p), e. split.
    + unfold bfread at 1. rewrite Hc, Hi, (fgetc_some _ _ _ _ E). cbn [Z.eqb default from_option id].
      rewrite wrapU_id by exact (Forall_lookup_1 _ _ _ _ Hd E). reflexivity.
    + rewrite (drop_S _ _ _ E), (proj2 (Nat.leb_gt _ _)), app_nil_r by exact (lookup_lt_Some _ _ _ E). reflexivity.
  - exists 255, p, true. split.
    + unfold bfread at 1. rewrite Hc, Hi, (fgetc_none _ _ _ E). reflexivity.
    + apply lookup_ge_None_1 in E. rewrite (proj2 (Nat.leb_le _ _)), drop_ge by exact E. reflexivity.
Qed.

Lemma take_ones n m (l : list Z) : take n (l ++ replicate (n + m) 1) = take n (l ++ replicate n 1).
Proof.
  rewrite !take_app. f_equal. rewrite !take_replicate. f_equal. lia.
Qed.

Lemma read_bits_ok d n : forall p e bf, inf bf = IFile d p e -> 0 <= rcnt bf <= 8 -> Forall (inU 8) d ->
  (read_bits n bf).1 = take n (stream_bits n d p bf).
Proof.
  assert (forall p e bf m r, inf bf = IFile d p e -> rcnt bf = Z.of_nat (S r) -> (r < 8)%nat -> Forall (inU 8) d ->
    (forall p e bf, inf bf = IFile d p e -> 0 <= rcnt bf <= 8 -> Forall (inU 8) d -> (read_bits m bf).1 = take m (stream_bits m d p bf)) ->
    (read_bits (S m) bf).1 = take (S m) (stream_bits (S m) d p bf)) as Hstep.
  { intros p e bf m r Hi Hc Hr Hd IH. cbn [read_bits]. rewrite (bfread_buffered bf r Hc Hr).
    specialize (IH p e (Bfile (inf bf) (outf bf) (rbuf bf) (Z.of_nat r) (wbuf bf) (wcnt bf)) Hi ltac:(cbn [rcnt]; lia) Hd).
    destruct (read_bits m _) as [l bf']. cbn [fst] in *. rewrite IH. unfold stream_bits. cbn [rcnt rbuf]. rewrite Hc, !Nat2Z.id.
    cbn [low_bits app take]. f_equal. rewrite !app_assoc. symmetry. replace (S m) with (m + 1)%nat by lia. apply take_ones. }
  induction n as [|n IH]; intros p e bf Hi Hc Hd; [reflexivity|]. destruct (Z.eq_dec (rcnt bf) 0) as [E|E].
  - destruct (bfread_refill bf d p e Hi E Hd) as (c & p' & e' & Eb & Es).
    assert ((read_bits (S n) bf).1 = (read_bits (S n) (Bfile (IFile d p' e') (outf bf) c 8 (wbuf bf) (wcnt bf))).1) as ->.
    { cbn [read_bits]. rewrite Eb. reflexivity. }
    rewrite (Hstep p' e' (Bfile (IFile d p' e') (outf bf) c 8 (wbuf bf) (wcnt bf)) n 7%nat eq_refl eq_refl ltac:(lia) Hd IH).
    unfold stream_bits. cbn [rcnt rbuf]. rewrite E. change (Z.to_nat 8) with 8%nat. change (low_bits (Z.to_nat 0) _) with (@nil Z). cbn [app].
    rewrite app_assoc, Es. destruct (length d <=? p)%nat; [|rewrite app_nil_r; reflexivity].
    rewrite <- app_assoc, <- replicate_add, Nat.add_comm. apply take_ones.
  - apply (Hstep p e bf n (Z.to_nat (rcnt bf - 1))); [exact Hi|lia|lia|exact Hd|exact IH].
Qed.
End Files.

(** Bits written with bfwrite and read back with bfread are the same, except that bfclose
    drops the last one to eight bits written; past the end of the file bfread returns ones. *)
Theorem bitfile_roundtrip bs i n rbuf0 wbuf0 rbuf1 wbuf1 m : 0 <= wbuf0 < 256 -> (length bs <= 8 * n)%nat ->
  let whole := ((length bs - 1) / 8)%nat in
  let d := odata (bfclose (write_bits bs (bfopen i (OFile [] n) rbuf0 wbuf0))).2 in
  length d = whole /\
  (read_bits m (bfopen (IFile d 0 false) (OFile [] 0) rbuf1 wbuf1)).1 =
    take m (((fun b => b mod 2) <$> take (8 * whole) bs) ++ replicate m 1).
Proof.
  intros Hw Hn whole d.
  destruct (written_bits i n bs [] (bfopen i (OFile [] n) rbuf0 wbuf0)) as (groups & last & Eb & Hg & Hl & Hne & _ & Ho & _ & _ & _);
    [constructor|cbn [length]; lia| |].
  { exists [], []. cbn. rewrite Nat.sub_0_r, Z.mod_1_r. repeat split; auto; lia || congruence. }
  cbn [app] in Eb. assert (Forall is_bit (mjoin groups ++ last)) as Hbits.
  { rewrite <- Eb. apply Forall_fmap, Forall_forall. intros b _. cbn. unfold is_bit. pose proof (Z.mod_pos_bound b 2 ltac:(lia)). lia. }
  apply Forall_app in Hbits as [Hbits _].
  assert (length (mjoin groups) = 8 * length groups)%nat as Hlg.
  { clear -Hg. induction Hg as [|g gs Hg _ IH]; [reflexivity|]. rewrite mjoin_cons, length_app, IH, Hg. cbn [length]. lia. }
  assert (d = bin <$> groups) as Ed by (unfold d, bfclose; cbn [snd]; rewrite Ho; reflexivity).
  pose proof (f_equal length Eb) as Elen. rewrite length_fmap, length_app, Hlg in Elen.
  assert (length groups = whole) as Hgw.
  { unfold whole. destruct bs as [|b bs]; [cbn [length] in *; cbn; lia|]. specialize (Hne ltac:(discriminate)). cbn [length] in *.
    apply (Nat.div_unique _ _ _ (length last - 1)); lia. }
  assert (Forall (fun g => Forall is_bit g) groups) as Hgb.
  { clear -Hbits. induction groups as [|g gs IH]; [constructor|]. rewrite mjoin_cons in Hbits. apply Forall_app in Hbits as [? ?]. constructor; auto. }
  split; [rewrite Ed, length_fmap; exact Hgw|].
  rewrite (read_bits_ok d m 0 false); [|reflexivity|cbn; lia|].
  - unfold stream_bits. cbn [bfopen rcnt]. change (low_bits (Z.to_nat 0) _) with (@nil Z). cbn [app]. rewrite drop_0. f_equal. f_equal.
    rewrite fmap_take, Eb, <- Hgw, <- Hlg, take_app_length, Ed.
    clear -Hg Hgb. induction groups as [|g gs IH]; [reflexivity|]. inversion Hg; inversion Hgb; subst. rewrite !fmap_cons, !mjoin_cons, IH by assumption.
    f_equal. rewrite <- (low_bits_bin g) at 2 by assumption. congruence.
  - rewrite Ed. apply Forall_fmap, Forall_forall. intros g Hin. cbn.
    pose proof (bin_range g (proj1 (Forall_forall _ _) Hgb g Hin)) as H. rewrite (proj1 (Forall_forall _ _) Hg g Hin) in H. exact H.
Qed.

Lemma bitfile_roundtrip_witness :
  let bs := [1; 0; 1; 1; 0; 0; 1; 0; 1; 1] in
  0 <= 77 < 256 /\ (length bs <= 8 * 2)%nat /\
  let whole := ((length bs - 1) / 8)%nat in
  let d := odata (bfclose (write_bits bs (bfopen (IFile [] 0 false) (OFile [] 2) 3 77))).2 in
  length d = whole /\
  (read_bits 12 (bfopen (IFile d 0 false) (OFile [] 0) 9 9)).1 =
    take 12 (((fun b => b mod 2) <$> take (8 * whole) bs) ++ replicate 12 1).
Proof.
  intros bs. split; [lia|]. split; [cbn; lia|]. apply (bitfile_roundtrip bs (IFile [] 0 false) 2 3 77 9 9 12); [lia|cbn; lia].
Defined.
