(* ===== verification/Patricia.v ===== *)
(** The Patricia trie (src/mibench/network/patricia/patricia.c and patricia.h) on an explicit heap of
    nodes, and the program that fills it (patricia_test.c).

    A location is a number and 0 is the null pointer, where nothing is allocated. The array [p_m] of
    masks belongs to one node and is kept inside it; there the empty list is the null pointer. [char] is unsigned, as on RISC-V. A shift by a negative count, which C leaves undefined,
    and an access through a pointer to no node are errors. [malloc] succeeds. *)
From stdpp Require Import base list numbers option tactics gmap.
From Stdlib Require Import ZArith Lia.
From S2P Require Import Prelude.

(** ** The data: patricia.h *)

Record ptree_mask := PtreeMask { pm_mask : Z; pm_data : Z }.
Abbreviation loc := Z.
Record ptree := Ptree { p_key : Z; p_m : list ptree_mask; p_mlen : Z; p_b : Z; p_left : loc; p_right : loc }.
Abbreviation heap := (gmap loc ptree).

Definition load (s : heap) (x : loc) : res ptree := match s !! x with Some n => mret n | None => Err OutOfBounds end.
Definition store (s : heap) (x : loc) (n : ptree) : res heap := _ ← load s x; mret (<[x := n]> s).

Definition set_key (n : ptree) (k : Z) : ptree := Ptree k (p_m n) (p_mlen n) (p_b n) (p_left n) (p_right n).
Definition set_m (n : ptree) (m : list ptree_mask) (len : Z) : ptree := Ptree (p_key n) m len (p_b n) (p_left n) (p_right n).
Definition set_left (n : ptree) (x : loc) : ptree := Ptree (p_key n) (p_m n) (p_mlen n) (p_b n) x (p_right n).
Definition set_right (n : ptree) (x : loc) : ptree := Ptree (p_key n) (p_m n) (p_mlen n) (p_b n) (p_left n) x.
Definition set_child (right : bool) (n : ptree) (x : loc) : ptree := if right then set_right n x else set_left n x.
Definition child (right : bool) (n : ptree) : loc := if right then p_right n else p_left n.

(** [p_m[i]]. *)
Definition mget (m : list ptree_mask) (i : Z) : res ptree_mask :=
  if 0 <=? i then match m !! Z.to_nat i with Some v => mret v | None => Err OutOfBounds end else Err OutOfBounds.

(** ** The operations: patricia.c *)

Section Patricia.
Context (dm : data_model).
Implicit Types (s : heap) (t h n p g head : loc) (i d key mask : Z).

(** [key & (1 << (31-i))]: the shifted [int] is converted to [unsigned long]. *)
Definition bit (i key : Z) : res Z :=
  if (0 <=? 31 - i) && (31 - i <? 32) then mret (Z.land key (uL dm (s32 (1 ≪ (31 - i))))) else Err OutOfBounds.
Definition bit_set (i key : Z) : res bool := b ← bit i key; mret (negb (b =? 0)).

Fixpoint pat_count (fuel : nat) s t (b : Z) : res Z :=
  match fuel with
  | O => Err OutOfFuel
  | S fuel =>
      tn ← load s t;
      if p_b tn <=? b then mret 0
      else
        l ← pat_count fuel s (p_left tn) (p_b tn);
        r ← pat_count fuel s (p_right tn) (p_b tn);
        mret (s32 (p_mlen tn + l + r))
  end.

Fixpoint insertR (fuel : nat) s h n d p : res (loc * heap) :=
  match fuel with
  | O => Err OutOfFuel
  | S fuel =>
      hn ← load s h; pn ← load s p;
      if (d <=? p_b hn) || (p_b hn <=? p_b pn) then
        nn ← load s n; b ← bit_set d (p_key nn);
        s ← store s n (Ptree (p_key nn) (p_m nn) (p_mlen nn) (u8 d) (if b : bool then h else n) (if b then n else h));
        mret (n, s)
      else
        nn ← load s n; b ← bit_set (p_b hn) (p_key nn);
        '(c, s) ← insertR fuel s (child b hn) n d h;
        hn ← load s h; s ← store s h (set_child b hn c);
        mret (h, s)
  end.

(** [t = bit(t->p_b, key) ? t->p_right : t->p_left], with the old and the new [p_b]. *)
Definition go_down s t key : res (Z * loc * Z) :=
  tn ← load s t; b ← bit_set (p_b tn) key;
  let t := child b tn in tn' ← load s t; mret (p_b tn, t, p_b tn').

(** The bit positions on a way down increase and fit a byte. *)
Definition depth_fuel : nat := 257.

(** The [do ... while] of [pat_insert]. *)
Fixpoint leaf_loop (fuel : nat) s t key : res loc :=
  match fuel with
  | O => Err OutOfFuel
  | S fuel => '(i, t, b) ← go_down s t key; if i <? b then leaf_loop fuel s t key else mret t
  end.

(** [for (i=0; i < mlen; i++) if (mask == m[i].pm_mask) break;]: [mlen] at the end. *)
Fixpoint mask_index (k : nat) (i : Z) (m : list ptree_mask) (mask : Z) : res (option Z) :=
  match k with
  | O => mret None
  | S k => x ← mget m i; if mask =? pm_mask x then mret (Some i) else mask_index k (i + 1) m mask
  end.

(** [bcopy] of one mask to [pm], the end of what is filled of the [cap] masks of [buf]. *)
Definition buf_put (cap : Z) (buf : list ptree_mask) (x : ptree_mask) : res (list ptree_mask) :=
  if Z.of_nat (length buf) <? cap then mret (buf ++ [x]) else Err OutOfBounds.

(** The loop that copies the masks in order, with the new mask [x]. *)
Fixpoint merge_loop (fuel : nat) (cap : Z) (buf m : list ptree_mask) (mlen i : Z) (x : ptree_mask) (copied : bool) :
    res (list ptree_mask * ptree_mask * bool) :=
  match fuel with
  | O => Err OutOfFuel
  | S fuel =>
      if i <? mlen then
        y ← mget m i;
        if pm_mask y <? pm_mask x then
          buf ← buf_put cap buf y; merge_loop fuel cap buf m mlen (i + 1) x copied
        else
          buf ← buf_put cap buf x; merge_loop fuel cap buf m mlen i (PtreeMask 0xffffffff (pm_data x)) true
      else mret (buf, x, copied)
  end.
Definition merge_masks (m : list ptree_mask) (mlen : Z) (x : ptree_mask) : res (list ptree_mask) :=
  '(buf, x, copied) ← merge_loop (Z.to_nat mlen + 2) (mlen + 1) [] m mlen 0 x false;
  if copied : bool then mret buf else buf_put (mlen + 1) buf x.

(** [for (i=1; i < 32 && bit(i, k1) == bit(i, k2); i++);] *)
Fixpoint first_diff (k : nat) (i k1 k2 : Z) : res Z :=
  match k with
  | O => mret i
  | S k => a ← bit i k1; b ← bit i k2; if a =? b then first_diff k (i + 1) k1 k2 else mret i
  end.

Definition pat_insert s n head : res (loc * heap) :=
  if (head =? 0) || (n =? 0) then mret (0, s)
  else
      nn ← load s n;
      match p_m nn with
      | [] => mret (0, s)
      | x :: _ =>
          let nn := set_key nn (Z.land (p_key nn) (pm_mask x)) in
          s ← store s n nn;
          t ← leaf_loop depth_fuel s head (p_key nn);
          tn ← load s t;
          if p_key nn =? p_key tn then
            j ← mask_index (Z.to_nat (p_mlen tn)) 0 (p_m tn) (pm_mask x);
            match j with
            | Some j =>
                s ← store s t (set_m tn (<[Z.to_nat j := PtreeMask (pm_mask x) (pm_data x)]> (p_m tn)) (p_mlen tn));
                mret (t, delete n s)
            | None =>
                buf ← merge_masks (p_m tn) (p_mlen tn) x;
                let s := delete n s in
                s ← store s t (set_m tn buf (u8 (p_mlen tn + 1)));
                mret (t, s)
            end
          else
            d ← first_diff 31 1 (p_key nn) (p_key tn);
            hn ← load s head; b ← bit_set (p_b hn) (p_key nn);
            '(c, s) ← insertR depth_fuel s (child b hn) n d head;
            hn ← load s head; s ← store s head (set_child b hn c);
            mret (n, s)
      end.

(** The loop of [pat_search], with the most complete match [p] so far. *)
Definition matches (tn : ptree) key : res bool := m ← mget (p_m tn) 0; mret (p_key tn =? Z.land key (pm_mask m)).
Fixpoint search_loop (fuel : nat) s t key p : res (loc * loc) :=
  match fuel with
  | O => Err OutOfFuel
  | S fuel =>
      tn ← load s t; b ← matches tn key;
      let p := if b : bool then t else p in
      '(i, t, b) ← go_down s t key; if i <? b then search_loop fuel s t key p else mret (t, p)
  end.
Definition pat_search s key head : res loc :=
  if head =? 0 then mret 0
  else
    '(t, p) ← search_loop depth_fuel s head key 0;
    tn ← load s t; b ← matches tn key; mret (if b : bool then t else p).

(** The loop of [pat_remove], with the parent and the grandparent. *)
Fixpoint remove_loop (fuel : nat) s p t key : res (loc * loc * loc) :=
  match fuel with
  | O => Err OutOfFuel
  | S fuel =>
      '(i, t', b) ← go_down s t key; if i <? b then remove_loop fuel s t t' key else mret (p, t, t')
  end.

(** [pat_remove]; [t0] is the uninitialised pointer that the first test reads. *)
Definition pat_remove (t0 : loc) s n head : res (Z * heap) :=
  if n =? 0 then mret (0, s)
  else
      nn ← load s n;
      match p_m nn with
      | [] => mret (0, s)
      | x :: _ =>
          if t0 =? 0 then mret (0, s) else
          '(g, p, t) ← remove_loop depth_fuel s head head (p_key nn);
          tn ← load s t;
          if negb (p_key tn =? p_key nn) then mret (0, s)
          else if p_mlen tn =? 1 then
            if p_b tn =? 0 then mret (0, s)
            else
              y ← mget (p_m tn) 0;
              if negb (pm_mask y =? pm_mask x) then mret (0, s)
              else
                pn ← load s p;
                '(_, pp, _) ← remove_loop depth_fuel s p p (p_key pn);
                ppn ← load s pp; b ← bit_set (p_b ppn) (p_key pn); s ← store s pp (set_child b ppn t);
                gn ← load s g; b ← bit_set (p_b gn) (p_key nn);
                pn ← load s p; b' ← bit_set (p_b pn) (p_key nn);
                s ← store s g (set_child b gn (child (negb b') pn));
                s ← (if t =? p then mret s
                     else
                       tn ← load s t; pn ← load s p;
                       store s t (Ptree (p_key pn) (p_m pn) (p_mlen pn) (p_b tn) (p_left tn) (p_right tn)));
                mret (1, delete p s)
          else
            j ← mask_index (Z.to_nat (p_mlen tn)) 0 (p_m tn) (pm_mask x);
            match j with
            | None => mret (0, s)
            | Some _ =>
                let buf := List.filter (fun y => negb (pm_mask x =? pm_mask y)) (take (Z.to_nat (p_mlen tn)) (p_m tn)) in
                s ← store s t (set_m tn buf (u8 (p_mlen tn - 1)));
                mret (1, s)
            end
      end.
End Patricia.

(** ** The program: patricia_test.c *)

(** The head node with the default entry; [data] is the address of its data. *)
Definition phead_node (head : loc) (data : Z) : ptree := Ptree 0 [PtreeMask 0 data] 1 0 head head.

(** One line of the input: whether the address is found; otherwise it is inserted. *)
Definition main_step (dm : data_model) (head : loc) (addr data : Z) (s : heap) : res (bool * heap) :=
  let p := fresh ({[ 0 ]} ∪ dom s) in
  let s := <[p := Ptree addr [PtreeMask 0xffffffff data] 0 0 0 0]> s in
  pfind ← pat_search dm s addr head;
  fn ← load s pfind;
  if p_key fn =? addr then mret (true, s)
  else '(_, s) ← pat_insert dm s p head; mret (false, s).
Fixpoint main_loop (dm : data_model) (head : loc) (addrs : list (Z * Z)) (s : heap) : res (list bool * heap) :=
  match addrs with
  | [] => mret ([], s)
  | (addr, data) :: addrs =>
      '(b, s) ← main_step dm head addr data s;
      '(bs, s) ← main_loop dm head addrs s; mret (b :: bs, s)
  end.
Definition main (dm : data_model) (addrs : list (Z * Z)) : res (list bool) :=
  '(bs, _) ← main_loop dm 1 addrs {[ 1 := phead_node 1 0 ]}; mret bs.

Example main_run : main LP64 ((fun a => (a, 0)) <$> [5; 7; 0x80000005; 5; 0xffffffff; 0x80000005; 9; 7; 0]) =
  Ok [false; false; false; true; false; true; false; true; true].
Proof. vm_compute. reflexivity. Qed.
