(* ===== verification/PatriciaTrie.v ===== *)
(** The shape of a Patricia trie in the heap: the bits of a key, the abstract trie, its
    well-formedness, its representation in the heap of Patricia.v, and searching. *)
From stdpp Require Import base list numbers option tactics gmap sorting.
From Stdlib Require Import ZArith Lia.
From S2P Require Import Prelude Patricia.

(** ** The bits of a key *)

(** Bit [i] of a 32-bit key, bit 0 being the most significant. *)
Definition kbit (i k : Z) : bool := Z.testbit k (31 - i).

(** [k1] and [k2] agree on the bits 1 to [b - 1]. *)
Definition agree (b k1 k2 : Z) : Prop := forall j, 1 <= j < b -> kbit j k1 = kbit j k2.

Section Bits.
Context (dm : data_model).
Implicit Types (i j k b : Z).

Lemma land_pow2 x j : 0 <= j -> Z.land x (2 ^ j) = if Z.testbit x j then 2 ^ j else 0.
Proof.
  intros Hj. apply Z.bits_inj'. intros n Hn. rewrite Z.land_spec, Z.pow2_bits_eqb by exact Hj.
  destruct (Z.eqb_spec j n) as [->|Hne].
  - destruct (Z.testbit x n); cbn [andb]; [rewrite Z.pow2_bits_true by exact Hn|rewrite Z.testbit_0_l]; reflexivity.
  - rewrite andb_false_r. destruct (Z.testbit x j); [rewrite Z.pow2_bits_false by congruence|rewrite Z.testbit_0_l]; reflexivity.
Qed.

Lemma inU_bits k n : inU 32 k -> 32 <= n -> Z.testbit k n = false.
Proof.
  intros [H0 H1] Hn. destruct (Z.eq_dec k 0) as [->|]; [apply Z.testbit_0_l|].
  apply Z.bits_above_log2; [lia|]. apply Z.lt_le_trans with 32; [|exact Hn]. apply Z.log2_lt_pow2; lia.
Qed.

Lemma land_low_bits k x y : inU 32 k -> x mod 2 ^ 32 = y mod 2 ^ 32 -> Z.land k x = Z.land k y.
Proof.
  intros Hk H. apply Z.bits_inj'. intros n Hn. rewrite !Z.land_spec.
  destruct (Z.lt_ge_cases n 32) as [Hlt|Hge]; [|rewrite (inU_bits k n Hk Hge), !andb_false_l; trivial].
  rewrite <- (Z.mod_pow2_bits_low x 32 n), <- (Z.mod_pow2_bits_low y 32 n), H by exact Hlt. trivial.
Qed.

Lemma bit_ok i k : 0 <= i <= 31 -> inU 32 k -> bit dm i k = Ok (if kbit i k then 2 ^ (31 - i) else 0).
Proof.
  intros Hi Hk. unfold bit, kbit. rewrite (proj2 (Z.leb_le _ _)), (proj2 (Z.ltb_lt _ _)) by lia. cbn [andb mret res_ret]. f_equal.
  rewrite <- land_pow2, Z.shiftl_1_l by lia. set (j := 31 - i) in *. assert (0 <= j <= 31) as Hj by lia. clearbody j.
  destruct (Z.eq_dec j 31) as [->|Hne].
  - apply land_low_bits; [exact Hk|]. destruct dm; vm_compute; reflexivity.
  - assert (0 < 2 ^ j) by (apply Z.pow_pos_nonneg; lia). pose proof (Z.pow_le_mono_r 2 j 30 ltac:(lia) ltac:(lia)) as Hp.
    change (2 ^ 30) with 1073741824 in Hp. rewrite wrapS_id by clia. rewrite uL_id by clia. reflexivity.
Qed.

Lemma bit_set_ok i k : 0 <= i <= 31 -> inU 32 k -> bit_set dm i k = Ok (kbit i k).
Proof.
  intros Hi Hk. unfold bit_set. rewrite bit_ok by assumption. cbn [mbind res_bind mret res_ret]. f_equal.
  assert (0 < 2 ^ (31 - i)) by (apply Z.pow_pos_nonneg; lia). destruct (kbit i k); [|reflexivity].
  rewrite (proj2 (Z.eqb_neq _ _)) by lia. reflexivity.
Qed.

(** A key is determined by its bits. *)
Lemma kbit_eq k1 k2 : inU 32 k1 -> inU 32 k2 -> (forall i, 0 <= i <= 31 -> kbit i k1 = kbit i k2) -> k1 = k2.
Proof.
  intros H1 H2 H. apply Z.bits_inj'. intros n Hn. destruct (Z.lt_ge_cases n 32) as [Hlt|Hge].
  - specialize (H (31 - n) ltac:(lia)). unfold kbit in H. replace (31 - (31 - n)) with n in H by lia. exact H.
  - rewrite !inU_bits by assumption. reflexivity.
Qed.

Lemma kbit_0 i : kbit i 0 = false.
Proof. apply Z.testbit_0_l. Qed.

Lemma agree_sym b k1 k2 : agree b k1 k2 -> agree b k2 k1.
Proof. intros H j Hj. symmetry. apply H, Hj. Qed.
Lemma agree_trans b k1 k2 k3 : agree b k1 k2 -> agree b k2 k3 -> agree b k1 k3.
Proof. intros H1 H2 j Hj. rewrite H1, H2 by exact Hj. reflexivity. Qed.
Lemma agree_mono b b' k1 k2 : b <= b' -> agree b' k1 k2 -> agree b k1 k2.
Proof. intros Hb H j Hj. apply H. lia. Qed.

(** The first bit, from 1 on, where two keys differ; 32 if there is none. *)
Lemma first_diff_ok n i k1 k2 : 1 <= i -> i + Z.of_nat n = 32 -> inU 32 k1 -> inU 32 k2 -> agree i k1 k2 ->
  exists d, first_diff dm n i k1 k2 = Ok d /\ i <= d <= 32 /\ agree d k1 k2 /\ (d < 32 -> kbit d k1 <> kbit d k2).
Proof.
  revert i. induction n as [|n IH]; intros i Hi Hn H1 H2 Ha; cbn [first_diff].
  - exists i. split; [reflexivity|]. split; [lia|]. split; [exact Ha|lia].
  - rewrite !bit_ok by (assumption || lia). cbn [mbind res_bind].
    assert (((if kbit i k1 then 2 ^ (31 - i) else 0) =? (if kbit i k2 then 2 ^ (31 - i) else 0)) = Bool.eqb (kbit i k1) (kbit i k2)) as ->.
    { assert (0 < 2 ^ (31 - i)) by (apply Z.pow_pos_nonneg; lia).
      destruct (kbit i k1), (kbit i k2); cbn [Bool.eqb]; [apply Z.eqb_eq|apply Z.eqb_neq|apply Z.eqb_neq|apply Z.eqb_eq]; lia. }
    destruct (Bool.eqb (kbit i k1) (kbit i k2)) eqn:E.
    + apply eqb_prop in E. destruct (IH (i + 1)) as (d & Hd & Hr & Had & Hdiff); try lia; try assumption.
      { intros j Hj. destruct (Z.eq_dec j i) as [->|]; [exact E|apply Ha; lia]. }
      exists d. split; [exact Hd|]. split; [lia|]. auto.
    + exists i. split; [reflexivity|]. split; [lia|]. split; [exact Ha|]. intros _ Hc. rewrite Hc, eqb_reflx in E. discriminate.
Qed.
End Bits.
#[export] Hint Resolve agree_sym agree_trans : core.

(** ** The abstract trie *)

(** A leaf is a link upwards to the node [x] with the key [k]; a node [x] tests bit [b]. *)
Inductive trie := Leaf (x : loc) (k : Z) | Node (x : loc) (b : Z) (l r : trie).

Fixpoint leaves (t : trie) : list (loc * Z) :=
  match t with Leaf x k => [(x, k)] | Node _ _ l r => leaves l ++ leaves r end.
Fixpoint nodes (t : trie) : list loc :=
  match t with Leaf _ _ => [] | Node x _ l r => x :: nodes l ++ nodes r end.
Fixpoint walk (t : trie) (key : Z) : loc * Z :=
  match t with Leaf x k => (x, k) | Node _ b l r => walk (if kbit b key then r else l) key end.
(** The nodes on the way of a key. *)
Fixpoint pathn (t : trie) (key : Z) : list loc :=
  match t with Leaf _ _ => [] | Node x b l r => x :: pathn (if kbit b key then r else l) key end.
Definition root (t : trie) : loc := match t with Leaf x _ => x | Node x _ _ _ => x end.

(** The bits increase downwards, they direct the keys, and the keys below a node agree before its bit.
    In the half of the keys with bit 0 set, the key 0 of the head stands for no key at all. *)
Fixpoint wf (pb : Z) (t : trie) : Prop :=
  match t with
  | Leaf _ k => inU 32 k
  | Node _ b l r =>
      pb < b <= 31 /\ wf b l /\ wf b r /\ Forall (fun y => kbit b y.2 = false) (leaves l) /\
      Forall (fun y => kbit b y.2 = true \/ (b = 0 /\ y.2 = 0)) (leaves r) /\
      (forall y z, y ∈ leaves l ++ leaves r -> z ∈ leaves l ++ leaves r -> agree b y.2 z.2)
  end.

Section Tries.
Implicit Types (t l r : trie) (pb b key k : Z) (x : loc).

Lemma walk_leaves t key : walk t key ∈ leaves t.
Proof.
  induction t as [x k|x b l IHl r IHr]; cbn [walk leaves]; [constructor|].
  apply elem_of_app. destruct (kbit b key); auto.
Qed.

Lemma pathn_nodes t key x : x ∈ pathn t key -> x ∈ nodes t.
Proof.
  induction t as [y k|y b l IHl r IHr]; cbn [pathn nodes]; [set_solver|]. rewrite !elem_of_cons, elem_of_app. destruct (kbit b key); tauto.
Qed.

Lemma wf_inU pb t y : wf pb t -> y ∈ leaves t -> inU 32 y.2.
Proof.
  revert pb. induction t as [x k|x b l IHl r IHr]; intros pb; cbn [wf leaves].
  - intros H Hy. apply list_elem_of_singleton in Hy as ->. exact H.
  - intros (_ & Hl & Hr & _) Hy. apply elem_of_app in Hy as [Hy|Hy]; eauto.
Qed.

Lemma wf_mono pb pb' t : pb' <= pb -> wf pb t -> wf pb' t.
Proof. destruct t; cbn [wf]; [auto|]. intros ? (? & ?). split; [lia|assumption]. Qed.

(** Every key is found at its leaf. *)
Lemma walk_leaf pb t y : wf pb t -> y ∈ leaves t -> y.2 <> 0 \/ 0 <= pb -> walk t y.2 = y.
Proof.
  revert pb. induction t as [x k|x b l IHl r IHr]; intros pb; cbn [wf leaves walk].
  - intros _ Hy _. apply list_elem_of_singleton in Hy as ->. reflexivity.
  - intros (Hb & Hl & Hr & Fl & Fr & _) Hy Hk. apply elem_of_app in Hy as [Hy|Hy].
    + rewrite (proj1 (Forall_forall _ _) Fl y Hy). destruct (Z.le_gt_cases 0 b); [|destruct Hk; [|lia]]; eapply IHl; eauto.
    + destruct (proj1 (Forall_forall _ _) Fr y Hy) as [->|[-> E]]; [|destruct Hk; [congruence|lia]].
      destruct (Z.le_gt_cases 0 b); [|destruct Hk; [|lia]]; eapply IHr; eauto.
Qed.
End Tries.

(** ** Representation in the heap *)

(** The data of a node that links do not change. *)
Definition erase (n : ptree) : Z * list ptree_mask * Z * Z := (p_key n, p_m n, p_mlen n, p_b n).

Fixpoint repr (s : heap) (pb : Z) (t : trie) : Prop :=
  match t with
  | Leaf x k => exists n, s !! x = Some n /\ p_key n = k /\ 0 <= p_b n <= pb
  | Node x b l r => exists n, s !! x = Some n /\ p_b n = b /\ p_left n = root l /\ p_right n = root r /\ repr s b l /\ repr s b r
  end.

Section Repr.
Implicit Types (s : heap) (t l r : trie) (pb b key k : Z) (x : loc) (n : ptree).

Lemma repr_frame s s' pb t : repr s pb t -> (forall x, x ∈ nodes t -> s' !! x = s !! x) ->
  (forall x, x ∈ (leaves t).*1 -> (fun n => (p_key n, p_b n)) <$> s' !! x = (fun n => (p_key n, p_b n)) <$> s !! x) -> repr s' pb t.
Proof.
  revert pb. induction t as [x k|x b l IHl r IHr]; intros pb; cbn [repr nodes leaves].
  - intros (n & Hn & Hk & Hb) _ H. specialize (H x ltac:(constructor)). rewrite Hn in H.
    destruct (s' !! x) as [n'|] eqn:E; [|discriminate]. cbn in H. injection H as H1 H2. exists n'. rewrite H1, H2. auto.
  - intros (n & Hn & Hb & El & Er & Hl & Hr) HN HL. exists n. rewrite (HN x) by constructor. repeat split; try assumption.
    + apply IHl; [exact Hl| |]; intros y Hy; [apply HN; constructor; apply elem_of_app; auto|apply HL; rewrite fmap_app; apply elem_of_app; auto].
    + apply IHr; [exact Hr| |]; intros y Hy; [apply HN; constructor; apply elem_of_app; auto|apply HL; rewrite fmap_app; apply elem_of_app; auto].
Qed.

Lemma repr_mono s pb pb' t : pb <= pb' -> repr s pb t -> repr s pb' t.
Proof. destruct t; cbn [repr]; [|auto]. intros ? (n & ? & ? & ?). exists n. repeat split; auto; lia. Qed.

Lemma repr_leaf_key s pb t y : repr s pb t -> y ∈ leaves t -> exists n, s !! y.1 = Some n /\ p_key n = y.2.
Proof.
  revert pb. induction t as [x k|x b l IHl r IHr]; intros pb; cbn [repr leaves].
  - intros (n & Hn & Hk & _) Hy. apply list_elem_of_singleton in Hy as ->. eauto.
  - intros (_ & _ & _ & _ & _ & Hl & Hr) Hy. apply elem_of_app in Hy as [Hy|Hy]; eauto.
Qed.
End Repr.

(** ** Walking down *)

Definition is_node (t : trie) : bool := match t with Leaf _ _ => false | Node _ _ _ _ => true end.

Section Walk.
Context (dm : data_model) (s : heap) (key : Z) (Hkey : inU 32 key).
Implicit Types (t l r : trie) (pb b : Z) (x p : loc) (n : ptree).

Lemma load_ok x n : s !! x = Some n -> load s x = Ok n.
Proof. unfold load. intros ->. reflexivity. Qed.

Lemma root_bit b t : repr s b t -> wf b t -> exists n, s !! root t = Some n /\ (b <? p_b n) = is_node t.
Proof.
  destruct t as [x k|x b' l r]; cbn [repr wf root is_node].
  - intros (n & Hn & _ & Hb) _. exists n. split; [exact Hn|]. apply Z.ltb_ge. lia.
  - intros (n & Hn & <- & _) (Hb & _). exists n. split; [exact Hn|]. apply Z.ltb_lt. lia.
Qed.

Lemma go_down_ok pb x b l r : repr s pb (Node x b l r) -> 0 <= b <= 31 -> wf b l -> wf b r ->
  let c := if kbit b key then r else l in
  exists b', go_down dm s x key = Ok (b, root c, b') /\ (b <? b') = is_node c.
Proof.
  intros (n & Hn & Hb & El & Er & Hl & Hr) Hb31 Wl Wr c. unfold go_down. rewrite (load_ok x n Hn). cbn [mbind res_bind].
  rewrite Hb, bit_set_ok by assumption. cbn [mbind res_bind].
  assert (child (kbit b key) n = root c) as -> by (unfold c, child; destruct (kbit b key); assumption).
  destruct (root_bit b c) as (m & Hm & Ec); [unfold c; destruct (kbit b key); assumption|unfold c; destruct (kbit b key); assumption|].
  rewrite (load_ok _ m Hm). cbn [mbind res_bind mret res_ret]. eauto.
Qed.

Lemma leaf_loop_ok fuel : forall pb x b l r, repr s pb (Node x b l r) -> wf pb (Node x b l r) -> 0 <= b -> 31 - b < Z.of_nat fuel ->
  leaf_loop dm fuel s x key = Ok (walk (Node x b l r) key).1.
Proof.
  induction fuel as [|fuel IH]; intros pb x b l r Hr Hw Hb Hf; [cbn [wf] in Hw; lia|]. cbn [leaf_loop walk].
  pose proof Hw as (Hb31 & Wl & Wr & _). destruct (go_down_ok pb x b l r Hr ltac:(lia) Wl Wr) as (b' & Eg & Eb). rewrite Eg. cbn [mbind res_bind]. rewrite Eb.
  destruct Hr as (n & _ & _ & _ & _ & Rl & Rr).
  destruct (if kbit b key then r else l) as [y k|y b2 l2 r2] eqn:E; cbn [is_node root]; [reflexivity|].
  assert (repr s b (Node y b2 l2 r2)) as R2 by (rewrite <- E; destruct (kbit b key); assumption).
  assert (wf b (Node y b2 l2 r2)) as W2 by (rewrite <- E; destruct (kbit b key); assumption).
  pose proof W2 as (Hb2 & _). apply (IH b); [exact R2|exact W2|lia|lia].
Qed.

(** A node whose key is the searched key under its first mask. *)
Definition match_at x : Prop := exists n m, s !! x = Some n /\ p_m n !! 0%nat = Some m /\ p_key n = Z.land key (pm_mask m).

Lemma matches_ok n m : p_m n !! 0%nat = Some m -> matches n key = Ok (p_key n =? Z.land key (pm_mask m)).
Proof. intros H. unfold matches, mget. change (0 <=? 0) with true. cbv iota. change (Z.to_nat 0) with 0%nat. rewrite H. reflexivity. Qed.

Definition has_masks (x : loc) : Prop := forall n, s !! x = Some n -> exists m, p_m n !! 0%nat = Some m.

Lemma pat_search_loop_ok (N : list loc) fuel : forall pb x b l r p, repr s pb (Node x b l r) -> wf pb (Node x b l r) -> 0 <= b -> 31 - b < Z.of_nat fuel ->
  Forall has_masks (nodes (Node x b l r)) -> Forall (fun y => y ∈ N) (nodes (Node x b l r)) ->
  match_at x \/ (match_at p /\ p ∈ N) ->
  exists p', search_loop dm fuel s x key p = Ok ((walk (Node x b l r) key).1, p') /\ match_at p' /\ p' ∈ N.
Proof.
  induction fuel as [|fuel IH]; intros pb x b l r p Hr Hw Hb Hf Hm HN Hp; [cbn [wf] in Hw; lia|]. cbn [search_loop walk].
  pose proof Hw as (Hb31 & Wl & Wr & _). destruct (go_down_ok pb x b l r Hr ltac:(lia) Wl Wr) as (b' & Eg & Eb).
  destruct Hr as (n & Hn & _ & _ & _ & Rl & Rr). rewrite (load_ok x n Hn). cbn [mbind res_bind].
  cbn [nodes] in Hm. pose proof (Forall_inv Hm n Hn) as [m Em]. rewrite (matches_ok n m Em). cbn [mbind res_bind].
  rewrite Eg. cbn [mbind res_bind]. rewrite Eb.
  cbn [nodes] in HN. pose proof (Forall_inv HN) as HxN.
  assert (match_at (if p_key n =? Z.land key (pm_mask m) then x else p) /\ (if p_key n =? Z.land key (pm_mask m) then x else p) ∈ N) as Hp'.
  { destruct (Z.eqb_spec (p_key n) (Z.land key (pm_mask m))) as [E|E]; [split; [exists n, m; auto|exact HxN]|].
    destruct Hp as [(n' & m' & Hn' & Hm' & Ek)|Hp]; [|exact Hp]. congruence. }
  destruct (if kbit b key then r else l) as [y k|y b2 l2 r2] eqn:E; cbn [is_node root]; [eauto|].
  assert (repr s b (Node y b2 l2 r2)) as R2 by (rewrite <- E; destruct (kbit b key); assumption).
  assert (wf b (Node y b2 l2 r2)) as W2 by (rewrite <- E; destruct (kbit b key); assumption).
  pose proof W2 as (Hb2 & _). apply (IH b); [exact R2|exact W2|lia|lia| | |right; exact Hp'].
  - apply Forall_inv_tail, Forall_app in Hm as [Hm1 Hm2]. rewrite <- E. destruct (kbit b key); assumption.
  - apply Forall_inv_tail, Forall_app in HN as [HN1 HN2]. rewrite <- E. destruct (kbit b key); assumption.
Qed.
End Walk.

(** ** The invariant of a trie *)

Definition whole (head : loc) (L R : trie) : trie := Node head 0 L R.

Record trie_ok (s : heap) (head : loc) (L R : trie) : Prop := TrieOk {
  ok_null : head <> 0;
  ok_wf : wf (-1) (whole head L R);
  ok_repr : repr s (-1) (whole head L R);
  ok_key : exists n, s !! head = Some n /\ p_key n = 0;
  ok_left : (leaves L).*1 ≡ₚ head :: nodes L;
  ok_right : (leaves R).*1 ≡ₚ head :: nodes R;
  ok_nodup : NoDup (nodes (whole head L R));
  ok_masks : Forall (has_masks s) (nodes (whole head L R));
  ok_self : forall x n, x ∈ nodes (whole head L R) -> s !! x = Some n -> x ∈ pathn (whole head L R) (p_key n) }.

(** The dictionary that the trie stands for: the masks and their number for every key. *)
Definition entry (n : ptree) : list ptree_mask * Z := (p_m n, p_mlen n).
Definition entries (s : heap) (T : list loc) (D : gmap Z (list ptree_mask * Z)) : Prop :=
  forall k e, D !! k = Some e <-> exists x n, x ∈ T /\ s !! x = Some n /\ p_key n = k /\ entry n = e.
Definition trie_rep (s : heap) (head : loc) (D : gmap Z (list ptree_mask * Z)) : Prop :=
  exists L R, trie_ok s head L R /\ entries s (nodes (whole head L R)) D.

Section Invariant.
Context (s : heap) (head : loc) (L R : trie) (Hok : trie_ok s head L R).
Implicit Types (x : loc) (n : ptree) (key k : Z).

Lemma leaf_node y : y ∈ leaves (whole head L R) -> y.1 ∈ nodes (whole head L R).
Proof.
  intros Hy. apply elem_of_app in Hy as [Hy|Hy]; apply (list_elem_of_fmap_2 fst) in Hy;
    [rewrite (ok_left _ _ _ _ Hok) in Hy|rewrite (ok_right _ _ _ _ Hok) in Hy]; apply elem_of_cons in Hy as [->|Hy];
    try (constructor; fail); constructor; apply elem_of_app; auto.
Qed.

Lemma leaf_of x y t : (leaves t).*1 ≡ₚ y :: nodes t -> x ∈ y :: nodes t -> exists k, (x, k) ∈ leaves t.
Proof.
  intros Hp Hx. rewrite <- Hp in Hx. apply list_elem_of_fmap_1 in Hx as ([x' k] & -> & Hk). eauto.
Qed.

Lemma head_left : (head, 0) ∈ leaves L.
Proof.
  destruct (leaf_of head head L (ok_left _ _ _ _ Hok)) as [k Hk]; [constructor|].
  destruct (ok_key _ _ _ _ Hok) as (n & Hn & Hk0).
  destruct (repr_leaf_key s (-1) (whole head L R) (head, k) (ok_repr _ _ _ _ Hok)) as (n' & Hn' & Hk'); [apply elem_of_app; auto|].
  cbn [fst snd] in *. replace 0 with k by congruence. exact Hk.
Qed.

Lemma head_right k : (head, k) ∈ leaves R -> k = 0.
Proof.
  intros Hk. destruct (ok_key _ _ _ _ Hok) as (n & Hn & Hk0).
  destruct (repr_leaf_key s (-1) (whole head L R) (head, k) (ok_repr _ _ _ _ Hok)) as (n' & Hn' & Hk'); [apply elem_of_app; auto|].
  cbn [fst snd] in *. congruence.
Qed.

Lemma walk_left k : kbit 0 k = false -> walk (whole head L R) k = walk L k.
Proof. intros H. cbn [whole walk]. rewrite H. reflexivity. Qed.
Lemma walk_right k : kbit 0 k = true -> walk (whole head L R) k = walk R k.
Proof. intros H. cbn [whole walk]. rewrite H. reflexivity. Qed.

(** The walk of a node's key ends at the node. *)
Lemma walk_node x n : x ∈ nodes (whole head L R) -> s !! x = Some n ->
  inU 32 (p_key n) /\ walk (whole head L R) (p_key n) = (x, p_key n).
Proof.
  intros Hx Hn. pose proof (ok_wf _ _ _ _ Hok) as (_ & Wl & Wr & Fl & Fr & _).
  assert (forall y, y ∈ leaves (whole head L R) -> y.1 = x -> y = (x, p_key n)) as Hy.
  { intros [y k] Hy E. cbn [fst] in E. subst y.
    destruct (repr_leaf_key s (-1) _ _ (ok_repr _ _ _ _ Hok) Hy) as (n' & Hn' & Hk). cbn [fst snd] in *. congruence. }
  assert (forall k, (x, k) ∈ leaves L -> k = p_key n /\ inU 32 (p_key n) /\ walk (whole head L R) (p_key n) = (x, p_key n)) as HL.
  { intros k Hk. pose proof (Hy (x, k) ltac:(apply elem_of_app; auto) eq_refl) as E. injection E as ->.
    split; [reflexivity|]. split; [exact (wf_inU 0 L _ Wl Hk)|]. rewrite walk_left by exact (proj1 (Forall_forall _ _) Fl _ Hk).
    apply (walk_leaf 0 L (x, p_key n) Wl Hk). right. lia. }
  destruct (decide (x = head)) as [->|Hne].
  - destruct (HL 0 head_left) as (_ & H1 & H2). auto.
  - cbn [whole nodes] in Hx. apply elem_of_cons in Hx as [->|Hx]; [contradiction|]. apply elem_of_app in Hx as [Hx|Hx].
    + destruct (leaf_of x head L (ok_left _ _ _ _ Hok)) as [k Hk]; [constructor; exact Hx|]. destruct (HL k Hk) as (_ & H1 & H2). auto.
    + destruct (leaf_of x head R (ok_right _ _ _ _ Hok)) as [k Hk]; [constructor; exact Hx|].
      pose proof (Hy (x, k) ltac:(apply elem_of_app; auto) eq_refl) as E. injection E as ->.
      split; [exact (wf_inU 0 R _ Wr Hk)|]. destruct (proj1 (Forall_forall _ _) Fr _ Hk) as [Hb|[_ H0]]; cbn [snd] in *.
      * rewrite walk_right by exact Hb. apply (walk_leaf 0 R (x, p_key n) Wr Hk). right. lia.
      * exfalso. apply Hne. destruct (leaf_of head head R (ok_right _ _ _ _ Hok)) as [k Hk']; [constructor|].
        pose proof (head_right k Hk') as ->. rewrite H0 in Hk.
        pose proof (walk_leaf 0 R _ Wr Hk ltac:(right; lia)) as E1. pose proof (walk_leaf 0 R _ Wr Hk' ltac:(right; lia)) as E2.
        cbn [snd] in *. congruence.
Qed.

Lemma whole_bit n : s !! head = Some n -> p_b n = 0.
Proof. intros Hn. destruct (ok_repr _ _ _ _ Hok) as (n' & Hn' & Hb & _). congruence. Qed.

(** The search ends at a node, and at the node of the key if there is one. *)
Lemma find_ok key : inU 32 key -> exists y n, walk (whole head L R) key = (y, p_key n) /\ s !! y = Some n /\
  y ∈ nodes (whole head L R) /\ inU 32 (p_key n) /\
  (forall x m, x ∈ nodes (whole head L R) -> s !! x = Some m -> p_key m = key -> x = y).
Proof.
  intros Hkey. pose proof (walk_leaves (whole head L R) key) as Hy. destruct (walk (whole head L R) key) as [y k] eqn:E.
  destruct (repr_leaf_key s (-1) _ _ (ok_repr _ _ _ _ Hok) Hy) as (n & Hn & Hk). cbn [fst snd] in *. subst k.
  exists y, n. pose proof (leaf_node _ Hy) as Hny. split; [reflexivity|]. split; [exact Hn|]. split; [exact Hny|].
  split; [exact (wf_inU _ _ _ (ok_wf _ _ _ _ Hok) Hy)|]. intros x m Hx Hm Hkm. destruct (walk_node x m Hx Hm) as [_ Hw]. congruence.
Qed.

Lemma find_entry D key : inU 32 key -> entries s (nodes (whole head L R)) D -> forall y n,
  walk (whole head L R) key = (y, p_key n) -> s !! y = Some n ->
  D !! key = if p_key n =? key then Some (entry n) else None.
Proof.
  intros Hkey HD y n Ew Hn. destruct (find_ok key Hkey) as (y' & n' & Ew' & Hn' & Hy' & _ & Hu).
  assert (y' = y) as -> by congruence. assert (n' = n) as -> by congruence. destruct (Z.eqb_spec (p_key n) key) as [E|E].
  - apply HD. exists y, n. auto.
  - destruct (D !! key) as [e|] eqn:ED; [|reflexivity]. apply HD in ED as (x & m & Hx & Hm & Hkm & _).
    pose proof (Hu x m Hx Hm Hkm) as ->. congruence.
Qed.
End Invariant.

Lemma patricia_search_fact dm s head D key : trie_rep s head D -> inU 32 key ->
  (forall ms len, D !! 0 = Some (ms, len) -> exists d ms', ms = PtreeMask 0 d :: ms') ->
  exists r n m, pat_search dm s key head = Ok r /\ s !! r = Some n /\ p_m n !! 0%nat = Some m /\
    p_key n = Z.land key (pm_mask m) /\ D !! p_key n = Some (entry n) /\
    (forall ms len, D !! key = Some (ms, len) -> (exists m', ms !! 0%nat = Some m' /\ Z.land key (pm_mask m') = key) ->
      p_key n = key).
Proof.
  intros (L & R & Hok & HD) Hkey Hdef. destruct (find_ok s head L R Hok key Hkey) as (y & n & Ew & Hn & Hy & _ & _).
  pose proof (find_entry s head L R Hok D key Hkey HD y n Ew Hn) as ED.
  assert (match_at s key head) as Hmh.
  { destruct (ok_key _ _ _ _ Hok) as (hn & Hhn & Hk0).
    assert (D !! 0 = Some (entry hn)) as E0 by (apply HD; exists head, hn; repeat split; auto; constructor).
    destruct (Hdef _ _ E0) as (d & ms' & Em). exists hn, (PtreeMask 0 d). rewrite Em, Z.land_0_r. auto. }
  destruct (pat_search_loop_ok dm s key Hkey (nodes (whole head L R)) depth_fuel (-1) head 0 L R 0 (ok_repr _ _ _ _ Hok) (ok_wf _ _ _ _ Hok))
    as (p & Es & (pn & pm & Hpn & Hpm & Hpk) & HpN);
    [lia|unfold depth_fuel; lia|exact (ok_masks _ _ _ _ Hok)|apply Forall_forall; auto|left; exact Hmh|].
  unfold pat_search. rewrite (proj2 (Z.eqb_neq _ _)) by exact (ok_null _ _ _ _ Hok).
  unfold whole in Ew. rewrite Es, Ew. cbn [mbind res_bind fst]. rewrite (load_ok s y n Hn). cbn [mbind res_bind].
  destruct (proj1 (Forall_forall _ _) (ok_masks _ _ _ _ Hok) y Hy n Hn) as [m Hm]. rewrite (matches_ok key n m Hm). cbn [mbind res_bind mret res_ret].
  destruct (Z.eqb_spec (p_key n) (Z.land key (pm_mask m))) as [E|E].
  - exists y, n, m. repeat split; auto; [apply HD; exists y, n; auto|]. intros ms len Hms _. rewrite Hms in ED.
    destruct (Z.eqb_spec (p_key n) key) as [Ek|]; [exact Ek|discriminate].
  - exists p, pn, pm. repeat split; auto; [apply HD; exists p, pn; auto|]. intros ms len Hms (m' & Hm' & Hl). exfalso. rewrite Hms in ED.
    destruct (Z.eqb_spec (p_key n) key) as [Ek|]; [|discriminate]. injection ED as -> _. apply E. congruence.
Qed.
