(* ===== verification/PatriciaInsert.v ===== *)
(** Insertion into the Patricia trie of Patricia.v: the new node of a new key, the order of the masks
    of an old key, and the program patricia_test.c. *)
From stdpp Require Import base list numbers option tactics gmap sorting.
From Stdlib Require Import ZArith Lia.
From S2P Require Import Prelude Patricia PatriciaTrie.

(** ** Insertion into the abstract trie *)

Section Ins.
Context (n : loc) (k d : Z).
Implicit Types (t l r : trie) (pb b : Z) (x : loc).

Definition join (t : trie) : trie := if kbit d k then Node n d t (Leaf n k) else Node n d (Leaf n k) t.
Fixpoint ins (t : trie) : trie :=
  match t with
  | Leaf _ _ => join t
  | Node x b l r => if d <=? b then join t else if kbit b k then Node x b l (ins r) else Node x b (ins l) r
  end.

Lemma leaves_join t : leaves (join t) ≡ₚ (n, k) :: leaves t.
Proof. unfold join. destruct (kbit d k); cbn [leaves]; [rewrite Permutation_app_comm|]; reflexivity. Qed.

Lemma leaves_ins t : leaves (ins t) ≡ₚ (n, k) :: leaves t.
Proof.
  induction t as [x k0|x b l IHl r IHr]; cbn [ins]; [apply leaves_join|].
  destruct (d <=? b); [apply leaves_join|]. destruct (kbit b k); cbn [leaves].
  - rewrite IHr, Permutation_app_comm. cbn [app]. rewrite (Permutation_app_comm (leaves r)). reflexivity.
  - rewrite IHl. reflexivity.
Qed.

Lemma nodes_join t : nodes (join t) = n :: nodes t.
Proof. unfold join. destruct (kbit d k); cbn [nodes app]; [rewrite app_nil_r|]; reflexivity. Qed.

Lemma nodes_ins t : nodes (ins t) ≡ₚ n :: nodes t.
Proof.
  induction t as [x k0|x b l IHl r IHr]; cbn [ins]; [rewrite nodes_join; reflexivity|].
  destruct (d <=? b); [rewrite nodes_join; reflexivity|]. destruct (kbit b k); cbn [nodes].
  - rewrite IHr, (Permutation_app_comm (nodes l)). cbn [app]. rewrite (Permutation_app_comm (nodes r)). apply Permutation_swap.
  - rewrite IHl. cbn [app]. apply Permutation_swap.
Qed.

(** The ways of the old keys and of the new one. *)
Lemma pathn_ins t key x : walk (ins t) key <> (n, k) -> x ∈ pathn t key -> x ∈ pathn (ins t) key.
Proof.
  assert (forall t, walk (join t) key <> (n, k) -> x ∈ pathn t key -> x ∈ pathn (join t) key) as Hj.
  { intros t'. unfold join. destruct (kbit d k); cbn [walk pathn]; destruct (kbit d key); cbn [walk pathn]; rewrite elem_of_cons; tauto. }
  induction t as [y k0|y b l IHl r IHr]; [apply Hj|]. cbn [ins]. destruct (d <=? b); [apply Hj|].
  destruct (kbit b k); cbn [walk pathn]; rewrite !elem_of_cons; destruct (kbit b key); tauto.
Qed.

Lemma pathn_new t : n ∈ pathn (ins t) k.
Proof.
  assert (forall t, n ∈ pathn (join t) k) as Hj by (intros t'; unfold join; destruct (kbit d k); cbn [pathn]; constructor).
  induction t as [y k0|y b l IHl r IHr]; [apply Hj|]. cbn [ins]. destruct (d <=? b); [apply Hj|].
  destruct (kbit b k) eqn:E; cbn [pathn]; rewrite E; apply elem_of_cons; auto.
Qed.

Hypothesis Hd : 1 <= d <= 31.
Hypothesis Hk : inU 32 k.

Lemma wf_join pb t k0 : wf d t -> pb < d -> agree d k k0 -> kbit d k <> kbit d k0 ->
  (forall y, y ∈ leaves t -> agree d y.2 k0 /\ kbit d y.2 = kbit d k0) -> wf pb (join t).
Proof.
  intros Hw Hpb Ha Hne Ht.
  assert (forall y, y ∈ (n, k) :: leaves t -> agree d y.2 k0) as Hall.
  { intros y Hy. apply elem_of_cons in Hy as [->|Hy]; [exact Ha|apply Ht, Hy]. }
  assert (Forall (fun y => kbit d y.2 = negb (kbit d k)) (leaves t)) as Hf.
  { apply Forall_forall. intros y Hy. destruct (Ht y Hy) as [_ E]. rewrite E. revert Hne. destruct (kbit d k), (kbit d k0); cbn [negb]; congruence. }
  assert (forall y z, y ∈ leaves (join t) -> z ∈ leaves (join t) -> agree d y.2 z.2) as Hag.
  { intros y z Hy Hz. rewrite leaves_join in Hy, Hz. eauto. }
  unfold join in *. destruct (kbit d k) eqn:E; cbn [wf leaves negb] in *; (split; [lia|]).
  - split; [exact Hw|]. split; [exact Hk|]. split; [exact Hf|]. split; [constructor; [left; exact E|constructor]|exact Hag].
  - split; [exact Hk|]. split; [exact Hw|]. split; [constructor; [exact E|constructor]|]. split; [|exact Hag].
    apply (Forall_impl _ _ _ Hf). auto.
Qed.

Lemma wf_ins pb t : wf pb t -> 0 <= pb < d -> agree d k (walk t k).2 -> kbit d k <> kbit d (walk t k).2 -> wf pb (ins t).
Proof.
  revert pb. induction t as [x k0|x b l IHl r IHr]; intros pb Hw Hpb Ha Hne.
  - cbn [ins walk snd] in *. apply (wf_join pb _ k0); [exact Hw|lia|exact Ha|exact Hne|].
    intros y Hy. apply list_elem_of_singleton in Hy as ->. split; [intros j _; reflexivity|reflexivity].
  - pose proof Hw as (Hb & Hl & Hr & Fl & Fr & Hag). cbn [ins]. pose proof (walk_leaves (Node x b l r) k) as Hwl.
    destruct (Z.leb_spec d b) as [Hdb|Hdb].
    + assert (d <> b) as Hdb'.
      { intros ->. apply Hne. clear -Fl Fr Hpb Hb. cbn [walk]. destruct (kbit b k) eqn:E.
        - destruct (proj1 (Forall_forall _ _) Fr _ (walk_leaves r k)) as [E1|[E1 _]]; [congruence|lia].
        - symmetry. exact (proj1 (Forall_forall _ _) Fl _ (walk_leaves l k)). }
      apply (wf_join pb _ (walk (Node x b l r) k).2); [|lia|exact Ha|exact Hne|].
      * cbn [wf]. split; [lia|]. auto.
      * intros y Hy. pose proof (Hag y _ Hy Hwl) as Hay. split; [apply (agree_mono d b); [lia|exact Hay]|apply Hay; lia].
    + assert (kbit b k = kbit b (walk (Node x b l r) k).2) as Ebk by (apply Ha; lia).
      assert (forall y, y ∈ (n, k) :: leaves l ++ leaves r -> agree b y.2 (walk (Node x b l r) k).2) as Hall.
      { intros y Hy. apply elem_of_cons in Hy as [->|Hy]; [apply (agree_mono b d); [lia|exact Ha]|apply Hag; assumption]. }
      assert (forall t' c, leaves t' ≡ₚ (n, k) :: leaves c -> forall o, (c = l /\ o = r \/ c = r /\ o = l) ->
        forall y z, y ∈ leaves t' ++ leaves o -> z ∈ leaves t' ++ leaves o -> agree b y.2 z.2) as Hag'.
      { intros t' c Ht' o Ho y z. rewrite Ht'. assert (forall u, u ∈ ((n, k) :: leaves c) ++ leaves o -> agree b u.2 (walk (Node x b l r) k).2) as Hu.
        { intros u Hu. apply Hall. destruct Ho as [[-> ->]|[-> ->]]; set_solver. }
        eauto. }
      cbn [walk] in Ha, Hne. destruct (kbit b k) eqn:E; cbn [wf]; (split; [lia|]).
      * split; [exact Hl|]. split; [apply IHr; [exact Hr|lia|exact Ha|exact Hne]|]. split; [exact Fl|]. split.
        -- rewrite leaves_ins. constructor; [left; exact E|exact Fr].
        -- intros y z Hy Hz. apply (Hag' (ins r) r (leaves_ins r) l); [auto| |]; rewrite Permutation_app_comm; assumption.
      * split; [apply IHl; [exact Hl|lia|exact Ha|exact Hne]|]. split; [exact Hr|]. split.
        -- rewrite leaves_ins. constructor; [exact E|exact Fl].
        -- split; [exact Fr|]. apply (Hag' (ins l) l (leaves_ins l) r). auto.
Qed.
End Ins.

(** ** [insertR] in the heap *)

(** Changing links only. *)
Definition same_data (s s' : heap) (x : loc) : Prop := erase <$> s' !! x = erase <$> s !! x.

Section Heap.
Context (dm : data_model) (n : loc) (nn : ptree) (d : Z).
Implicit Types (s : heap) (t l r : trie) (pb b : Z) (x y p : loc).
Local Abbreviation k := (p_key nn).

Lemma same_data_kb s s' x : same_data s s' x -> (fun m => (p_key m, p_b m)) <$> s' !! x = (fun m => (p_key m, p_b m)) <$> s !! x.
Proof.
  unfold same_data. destruct (s' !! x), (s !! x); cbn; intros H; try discriminate; [|reflexivity]. injection H as H1 _ _ H2. congruence.
Qed.

Lemma store_ok s x m m' : s !! x = Some m -> store s x m' = Ok (<[x := m']> s).
Proof. intros H. unfold store. rewrite (load_ok s x m H). reflexivity. Qed.

(** The new node after insertion. *)
Definition placed (s : heap) : Prop := exists a b, s !! n = Some (Ptree k (p_m nn) (p_mlen nn) d a b).

(** Replacing one child of the node [x], after the subtree [c] of that child was changed from [s] to [s1]. *)
Lemma relink_ok s s1 x b (dir : bool) l r c' hn : let c := if dir then r else l in let o := if dir then l else r in
  s !! x = Some hn -> p_b hn = b -> p_left hn = root l -> p_right hn = root r -> repr s b o ->
  repr s1 b c' -> nodes c' ≡ₚ n :: nodes c -> n ∉ x :: nodes l ++ nodes r -> n ∉ (leaves o).*1 -> NoDup (x :: nodes l ++ nodes r) ->
  (forall y, y ∉ n :: nodes c -> s1 !! y = s !! y) -> (forall y, y ∈ nodes c -> same_data s s1 y) -> placed s1 ->
  let s2 := <[x := set_child dir hn (root c')]> s1 in
  s1 !! x = Some hn /\ (forall pb, repr s2 pb (if dir then Node x b l c' else Node x b c' r)) /\
  (forall y, y ∉ n :: x :: nodes l ++ nodes r -> s2 !! y = s !! y) /\ (forall y, y ∈ x :: nodes l ++ nodes r -> same_data s s2 y) /\ placed s2.
Proof.
  intros c o Hx Hb El Er Ro Rc Hcn Hn Hno Hnd Hs1 Hsame (a1 & a2 & Hpl) s2.
  assert (NoDup (x :: nodes c ++ nodes o)) as Hnd'.
  { unfold c, o. destruct dir; [rewrite (Permutation_app_comm (nodes r))|]; exact Hnd. }
  assert (n ∉ x :: nodes c ++ nodes o) as Hn' by (unfold c, o; destruct dir; set_solver).
  assert (forall y, y ∈ x :: nodes l ++ nodes r <-> y ∈ x :: nodes c ++ nodes o) as Hset by (unfold c, o; destruct dir; set_solver).
  apply NoDup_cons in Hnd' as [Hxn Hnd']. apply NoDup_app in Hnd' as (_ & Hdisj & _).
  assert (s1 !! x = Some hn) as Hx1 by (rewrite Hs1; [exact Hx|set_solver]).
  assert (s2 !! x = Some (set_child dir hn (root c'))) as Hx2 by apply lookup_insert_eq.
  assert (forall y, y <> x -> s2 !! y = s1 !! y) as Hne by (intros y Hy; apply lookup_insert_ne; congruence).
  assert (erase (set_child dir hn (root c')) = erase hn) as Ee by (destruct dir; reflexivity).
  assert (forall y, y <> n -> same_data s s2 y) as Hall.
  { intros y Hy. unfold same_data. destruct (decide (y = x)) as [->|Hyx]; [rewrite Hx2, Hx; cbn; rewrite Ee; reflexivity|].
    rewrite Hne by exact Hyx. destruct (decide (y ∈ nodes c)) as [Hyc|Hyc]; [apply Hsame, Hyc|]. rewrite Hs1 by set_solver. reflexivity. }
  assert (repr s2 b c') as Rc2.
  { apply (repr_frame s1); [exact Rc| |].
    - intros y Hy. rewrite Hcn in Hy. apply Hne. intros ->. apply elem_of_cons in Hy as [->|Hy]; set_solver.
    - intros y Hy. destruct (decide (y = x)) as [->|Hyx]; [rewrite Hx2, Hx1; destruct dir; reflexivity|]. rewrite Hne by exact Hyx. reflexivity. }
  assert (repr s2 b o) as Ro2.
  { apply (repr_frame s); [exact Ro| |].
    - intros y Hy. rewrite Hne by set_solver. apply Hs1. set_solver.
    - intros y Hy. apply same_data_kb, Hall. congruence. }
  split; [exact Hx1|]. split; [|split; [|split]].
  - intros pb. clear -Hx2 Hb El Er Ro2 Rc2. subst o.
    destruct dir; cbn [repr]; eexists; (split; [exact Hx2|]); cbn [set_child set_left set_right p_b p_left p_right]; auto 7.
  - intros y Hy. rewrite Hne by set_solver. apply Hs1. unfold c. destruct dir; set_solver.
  - intros y Hy. apply Hall. intros ->. contradiction.
  - exists a1, a2. rewrite Hne; [exact Hpl|]. intros ->. apply Hn. constructor.
Qed.

Hypothesis Hd : 1 <= d <= 31.
Hypothesis Hk : inU 32 k.

Lemma join_ok fuel s pb t p hn pn : repr s pb t -> 0 <= pb < d -> n ∉ nodes t -> n ∉ (leaves t).*1 -> s !! n = Some nn ->
  s !! root t = Some hn -> s !! p = Some pn -> (d <=? p_b hn) || (p_b hn <=? p_b pn) = true ->
  exists s', insertR dm (S fuel) s (root t) n d p = Ok (root (join n k d t), s') /\ repr s' pb (join n k d t) /\
    (forall x, x ≠ n -> s' !! x = s !! x) /\ placed s'.
Proof.
  intros Hr Hpb Hn1 Hn2 Hn Hh Hp Hc. cbn [insertR]. rewrite (load_ok _ _ _ Hh), (load_ok _ _ _ Hp). cbn [mbind res_bind]. rewrite Hc.
  rewrite (load_ok _ _ _ Hn). cbn [mbind res_bind]. rewrite bit_set_ok by (lia || exact Hk). cbn [mbind res_bind].
  rewrite (store_ok _ _ _ _ Hn). cbn [mbind res_bind mret res_ret].
  rewrite wrapU_id by (unfold inU; change (2 ^ 8) with 256; lia).
  set (n' := Ptree _ _ _ _ _ _). exists (<[n := n']> s).
  assert (repr (<[n := n']> s) d t) as Ht.
  { apply (repr_frame s); [apply (repr_mono s pb); [lia|exact Hr]| |].
    - intros x Hx. apply lookup_insert_ne. congruence.
    - intros x Hx. rewrite lookup_insert_ne by congruence. reflexivity. }
  assert (repr (<[n := n']> s) d (Leaf n k)) as Hl.
  { exists n'. rewrite lookup_insert_eq. repeat split; cbn [n' p_b]; lia. }
  split; [unfold join; destruct (kbit d k); reflexivity|]. split; [|split].
  - unfold join. destruct (kbit d k) eqn:E; exists n'; rewrite lookup_insert_eq; unfold n'; rewrite ?E; auto 7.
  - intros x Hx. apply lookup_insert_ne. congruence.
  - exists (p_left n'), (p_right n'). rewrite lookup_insert_eq. reflexivity.
Qed.

Lemma insertR_ok fuel : forall pb t p s, repr s pb t -> wf pb t -> 0 <= pb < d -> n ∉ nodes t -> n ∉ (leaves t).*1 ->
  s !! n = Some nn -> (exists pn, s !! p = Some pn /\ p_b pn = pb) -> NoDup (nodes t) ->
  agree d k (walk t k).2 -> kbit d k <> kbit d (walk t k).2 -> 31 - pb < Z.of_nat fuel ->
  exists s', insertR dm fuel s (root t) n d p = Ok (root (ins n k d t), s') /\ repr s' pb (ins n k d t) /\
    (forall x, x ∉ n :: nodes t -> s' !! x = s !! x) /\ (forall x, x ∈ nodes t -> same_data s s' x) /\ placed s'.
Proof.
  induction fuel as [|fuel IH]; intros pb t p s Hr Hw Hpb Hn1 Hn2 Hn (pn & Hp & Epb) Hnd Ha Hne Hf; [lia|].
  destruct (root_bit s pb t Hr Hw) as (hn & Hh & Eh).
  destruct ((d <=? p_b hn) || (p_b hn <=? p_b pn)) eqn:Ec.
  { destruct (join_ok fuel s pb t p hn pn) as (s' & H1 & H2 & H3 & H4); try assumption.
    assert (ins n k d t = join n k d t) as ->.
    { destruct t as [x k0|x b l r]; [reflexivity|]. cbn [ins]. destruct Hr as (m & Hm & Hb & _). cbn [root] in Hh.
      assert (m = hn) as -> by congruence. cbn [is_node] in Eh. destruct (Z.leb_spec d b); [reflexivity|].
      apply Z.ltb_lt in Eh. apply orb_prop in Ec as [Ec|Ec]; apply Z.leb_le in Ec; lia. }
    exists s'. repeat split; auto.
    - intros x Hx. apply H3. intros ->. apply Hx. constructor.
    - intros x Hx. unfold same_data. rewrite H3; [reflexivity|]. intros ->. contradiction. }
  destruct t as [x k0|x b l r]; cbn [is_node root] in *.
  { apply Z.ltb_ge in Eh. apply orb_false_iff in Ec as [_ Ec]. apply Z.leb_gt in Ec. lia. }
  pose proof Hr as (m & Hm & Hb & El & Er & Rl & Rr). assert (m = hn) as -> by congruence. clear Hm.
  apply orb_false_iff in Ec as [Ec1 Ec2]. pose proof Hw as (Hb31 & Wl & Wr & Fl & Fr & Hag).
  cbn [insertR ins]. rewrite (load_ok _ _ _ Hh), (load_ok _ _ _ Hp). cbn [mbind res_bind]. rewrite Ec1, Ec2. cbn [orb].
  rewrite (load_ok _ _ _ Hn). cbn [mbind res_bind]. rewrite Hb, bit_set_ok by (lia || exact Hk). cbn [mbind res_bind].
  rewrite Hb in Ec1. rewrite Ec1. apply Z.leb_gt in Ec1.
  set (c := if kbit b k then r else l). set (o := if kbit b k then l else r).
  assert (child (kbit b k) hn = root c) as -> by (unfold c, child; destruct (kbit b k); assumption).
  cbn [nodes] in *. pose proof Hnd as Hnd0. apply NoDup_cons in Hnd as [_ Hnd]. apply NoDup_app in Hnd as (Nl & _ & Nr).
  cbn [leaves] in Hn2. rewrite fmap_app in Hn2.
  assert (walk (Node x b l r) k = walk c k) as Ewalk by (cbn [walk]; unfold c; reflexivity). rewrite Ewalk in *.
  destruct (IH b c x s) as (s1 & E1 & R1 & F1 & D1 & P1); [unfold c; destruct (kbit b k); assumption|unfold c; destruct (kbit b k); assumption|lia|
    unfold c; destruct (kbit b k); set_solver|unfold c; destruct (kbit b k); set_solver|exact Hn|exists hn; auto|
    unfold c; destruct (kbit b k); assumption|exact Ha|exact Hne|lia|].
  rewrite E1. cbn [mbind res_bind].
  destruct (relink_ok s s1 x b (kbit b k) l r (ins n k d c) hn) as (Hx1 & R2 & F2 & D2 & P2);
    [exact Hh|exact Hb|exact El|exact Er|destruct (kbit b k); assumption|exact R1|apply nodes_ins|exact Hn1|destruct (kbit b k); set_solver|exact Hnd0|
     exact F1|exact D1|exact P1|].
  rewrite (load_ok _ _ _ Hx1). cbn [mbind res_bind]. rewrite (store_ok _ _ _ _ Hx1). cbn [mbind res_bind mret res_ret].
  exists (<[x := set_child (kbit b k) hn (root (ins n k d c))]> s1). split; [destruct (kbit b k); reflexivity|]. split; [|auto].
  specialize (R2 pb). subst c. destruct (kbit b k); exact R2.
Qed.
End Heap.

(** ** Invariants under changes that keep the shape *)

Definition shape (m : ptree) : Z * Z * loc * loc := (p_key m, p_b m, p_left m, p_right m).

Section Shape.
Implicit Types (s : heap) (t L R : trie) (x head : loc) (D : gmap Z (list ptree_mask * Z)).

Lemma shape_some s s' x m : shape <$> s' !! x = shape <$> s !! x -> s !! x = Some m -> exists m', s' !! x = Some m' /\ shape m' = shape m.
Proof. intros H E. rewrite E in H. destruct (s' !! x) as [m'|]; [|discriminate]. exists m'. cbn in H. split; [reflexivity|congruence]. Qed.

Lemma repr_shape s s' pb t : repr s pb t -> (forall x, x ∈ nodes t \/ x ∈ (leaves t).*1 -> shape <$> s' !! x = shape <$> s !! x) -> repr s' pb t.
Proof.
  revert pb. induction t as [x k|x b l IHl r IHr]; intros pb; cbn [repr nodes leaves].
  - intros (m & Hm & Hk & Hb) H. destruct (shape_some s s' x m (H x ltac:(right; constructor)) Hm) as (m' & Hm' & E). injection E as E1 E2 _ _.
    exists m'. rewrite E1, E2. auto.
  - intros (m & Hm & Hb & El & Er & Hl & Hr) H.
    destruct (shape_some s s' x m (H x ltac:(left; constructor)) Hm) as (m' & Hm' & E). injection E as _ E2 E3 E4.
    exists m'. rewrite E2, E3, E4. repeat split; auto; [apply IHl|apply IHr]; try assumption; intros y Hy; apply H; rewrite fmap_app; set_solver.
Qed.

Lemma trie_ok_shape s s' head L R : trie_ok s head L R -> (forall x, x ∈ nodes (whole head L R) -> shape <$> s' !! x = shape <$> s !! x) ->
  Forall (has_masks s') (nodes (whole head L R)) -> trie_ok s' head L R.
Proof.
  intros Hok H Hm. destruct Hok as [O1 O2 O3 (m & Hm0 & Hk) O5 O6 O7 O8 O9] eqn:EE. pose proof Hok as Hok'. clear EE. constructor; auto.
  - apply (repr_shape s); [exact O3|]. intros x [Hx|Hx]; [apply H, Hx|]. apply H.
    apply list_elem_of_fmap_1 in Hx as (y & -> & Hy). exact (leaf_node s head L R Hok' y Hy).
  - destruct (shape_some s s' head m (H head ltac:(constructor)) Hm0) as (m' & Hm' & E). injection E as E1 _ _ _. exists m'. rewrite E1. auto.
  - intros x m' Hx Hm'. pose proof (H x Hx) as E. rewrite Hm' in E. destruct (s !! x) as [m0|] eqn:E0; [|discriminate]. cbn in E. injection E as E1 _ _ _.
    rewrite E1. exact (O9 x m0 Hx E0).
Qed.

(** A heap that agrees on the nodes of the trie. *)
Lemma trie_ok_frame s s' head L R : trie_ok s head L R -> (forall x, x ∈ nodes (whole head L R) -> s' !! x = s !! x) -> trie_ok s' head L R.
Proof.
  intros Hok H. apply (trie_ok_shape s); [exact Hok|intros x Hx; rewrite H by exact Hx; reflexivity|].
  apply Forall_forall. intros x Hx m Hm. rewrite H in Hm by exact Hx. exact (proj1 (Forall_forall _ _) (ok_masks _ _ _ _ Hok) x Hx m Hm).
Qed.

Lemma entries_frame s s' T D : entries s T D -> (forall x, x ∈ T -> s' !! x = s !! x) -> entries s' T D.
Proof.
  intros HD H k e. rewrite (HD k e). split; intros (x & m & Hx & Hm & Hrest); exists x, m; (split; [exact Hx|]); (split; [|exact Hrest]);
    [rewrite H by exact Hx|rewrite <- H by exact Hx]; exact Hm.
Qed.
End Shape.

(** ** A new key *)

Section NewKey.
Context (dm : data_model) (s : heap) (head : loc) (L R : trie) (Hok : trie_ok s head L R).
Context (n : loc) (nn : ptree) (Hn : s !! n = Some nn) (Hnew : n ∉ nodes (whole head L R)).
Local Abbreviation k := (p_key nn).
Hypothesis Hk : inU 32 k.
Hypothesis Hm : exists m, p_m nn !! 0%nat = Some m.

Lemma new_bit y tn : walk (whole head L R) k = (y, p_key tn) -> s !! y = Some tn -> p_key tn <> k -> k <> 2 ^ 31 ->
  exists d, first_diff dm 31 1 k (p_key tn) = Ok d /\ 1 <= d <= 31 /\ agree d k (p_key tn) /\ kbit d k <> kbit d (p_key tn).
Proof.
  intros Ew Hy Hne H31. pose proof (ok_wf _ _ _ _ Hok) as (_ & Wl & Wr & Fl & Fr & _).
  pose proof (walk_leaves (whole head L R) k) as Hyl. rewrite Ew in Hyl.
  assert (inU 32 (p_key tn)) as Ht by exact (wf_inU _ _ _ (ok_wf _ _ _ _ Hok) Hyl).
  destruct (first_diff_ok dm 31 1 k (p_key tn)) as (d & E & Hd & Ha & Hdiff); [lia|reflexivity|exact Hk|exact Ht|intros j Hj; lia|].
  exists d. split; [exact E|]. destruct (Z.eq_dec d 32) as [->|Hd32]; [exfalso|split; [lia|]; split; [exact Ha|apply Hdiff; lia]].
  assert (forall k', inU 32 k' -> agree 32 k k' -> kbit 0 k = kbit 0 k' -> k = k') as Heq.
  { intros k' Hk' Ha' H0. apply kbit_eq; [exact Hk|exact Hk'|]. intros i Hi. destruct (Z.eq_dec i 0) as [->|]; [exact H0|apply Ha'; lia]. }
  destruct (kbit 0 k) eqn:E0.
  - rewrite walk_right in Ew by exact E0. pose proof (walk_leaves R k) as Hr. rewrite Ew in Hr.
    destruct (proj1 (Forall_forall _ _) Fr _ Hr) as [Hb|[_ H0]]; cbn [snd] in *; [apply Hne; symmetry; apply Heq; [exact Ht|exact Ha|congruence]|].
    apply H31, Heq; [by_eval|rewrite H0 in Ha; intros j Hj; rewrite Ha, kbit_0 by exact Hj|vm_compute; reflexivity].
    symmetry. unfold kbit. apply Z.pow2_bits_false. lia.
  - rewrite walk_left in Ew by exact E0. pose proof (walk_leaves L k) as Hl. rewrite Ew in Hl.
    pose proof (proj1 (Forall_forall _ _) Fl _ Hl) as Hb. cbn [snd] in Hb. apply Hne. symmetry. apply Heq; [exact Ht|exact Ha|congruence].
Qed.

Lemma ins_perm t d : (leaves t).*1 ≡ₚ head :: nodes t -> (leaves (ins n k d t)).*1 ≡ₚ head :: nodes (ins n k d t).
Proof. intros H. rewrite leaves_ins, nodes_ins. cbn [fmap list_fmap fst]. rewrite H. apply Permutation_swap. Qed.

(** The insertion below the head. *)
Lemma new_key_ok y tn : walk (whole head L R) k = (y, p_key tn) -> s !! y = Some tn -> p_key tn <> k -> k <> 2 ^ 31 ->
  exists d hn c s1 L' R', first_diff dm 31 1 k (p_key tn) = Ok d /\ s !! head = Some hn /\ p_b hn = 0 /\
    insertR dm depth_fuel s (child (kbit 0 k) hn) n d head = Ok (c, s1) /\ s1 !! head = Some hn /\
    let s2 := <[head := set_child (kbit 0 k) hn c]> s1 in
    trie_ok s2 head L' R' /\ nodes (whole head L' R') ≡ₚ n :: nodes (whole head L R) /\
    (forall x, x ∈ nodes (whole head L R) -> same_data s s2 x) /\ placed n nn d s2.
Proof.
  intros Ew Hy Hne H31. destruct (new_bit y tn Ew Hy Hne H31) as (d & Ed & Hd & Ha & Hdiff).
  pose proof (ok_wf _ _ _ _ Hok) as (_ & Wl & Wr & Fl & Fr & _).
  destruct (ok_repr _ _ _ _ Hok) as (hn & Hh & Hb & El & Er & Rl & Rr).
  pose proof (ok_nodup _ _ _ _ Hok) as Hnd. cbn [whole nodes] in Hnd, Hnew.
  pose proof Hnd as Hnd0. apply NoDup_cons in Hnd0 as [_ Hnd0]. apply NoDup_app in Hnd0 as (Nl & _ & Nr).
  assert (n ∉ (leaves L).*1 /\ n ∉ (leaves R).*1) as [HnL HnR].
  { rewrite (ok_left _ _ _ _ Hok), (ok_right _ _ _ _ Hok). set_solver. }
  set (c := if kbit 0 k then R else L).
  assert (walk c k = (y, p_key tn)) as Ec by (rewrite <- Ew; cbn [whole walk]; unfold c; reflexivity).
  destruct (insertR_ok dm n nn d Hd Hk depth_fuel 0 c head s) as (s1 & E1 & R1 & F1 & D1 & P1);
    [unfold c; destruct (kbit 0 k); assumption|unfold c; destruct (kbit 0 k); assumption|lia|unfold c; destruct (kbit 0 k); set_solver|
     unfold c; destruct (kbit 0 k); assumption|exact Hn|exists hn; auto|unfold c; destruct (kbit 0 k); assumption|rewrite Ec; exact Ha|
     rewrite Ec; exact Hdiff|unfold depth_fuel; lia|].
  destruct (relink_ok n nn d s s1 head 0 (kbit 0 k) L R (ins n k d c) hn) as (Hx1 & R2 & F2 & D2 & P2);
    [exact Hh|exact Hb|exact El|exact Er|destruct (kbit 0 k); assumption|exact R1|apply nodes_ins|exact Hnew|destruct (kbit 0 k); assumption|exact Hnd|
     exact F1|exact D1|exact P1|].
  assert (wf 0 (ins n k d c)) as Wc.
  { apply wf_ins; [exact Hd|exact Hk|unfold c; destruct (kbit 0 k); assumption|lia|rewrite Ec; exact Ha|rewrite Ec; exact Hdiff]. }
  exists d, hn, (root (ins n k d c)), s1, (if kbit 0 k then L else ins n k d c), (if kbit 0 k then ins n k d c else R).
  split; [exact Ed|]. split; [exact Hh|]. split; [exact Hb|].
  split; [replace (child (kbit 0 k) hn) with (root c) by (unfold c, child; destruct (kbit 0 k); auto); exact E1|]. split; [exact Hx1|].
  intros s2. fold s2 in R2, F2, D2, P2.
  assert (nodes (whole head (if kbit 0 k then L else ins n k d c) (if kbit 0 k then ins n k d c else R)) ≡ₚ n :: nodes (whole head L R)) as Hperm.
  { unfold c. destruct (kbit 0 k); cbn [whole nodes]; rewrite nodes_ins; [rewrite (Permutation_app_comm (nodes L))|]; cbn [app];
      [rewrite (Permutation_app_comm (nodes R))|]; apply Permutation_swap. }
  split; [|auto]. constructor.
  - exact (ok_null _ _ _ _ Hok).
  - cbn [whole wf]. split; [lia|]. split; [destruct (kbit 0 k); assumption|]. split; [destruct (kbit 0 k); assumption|].
    split; [|split; [|intros u v _ _ j Hj; lia]].
    + unfold c. destruct (kbit 0 k) eqn:E0; [exact Fl|]. rewrite leaves_ins. constructor; [exact E0|exact Fl].
    + unfold c. destruct (kbit 0 k) eqn:E0; [|exact Fr]. rewrite leaves_ins. constructor; [left; exact E0|exact Fr].
  - specialize (R2 (-1)). destruct (kbit 0 k); exact R2.
  - destruct (ok_key _ _ _ _ Hok) as (m & Hm0 & Hk0). assert (m = hn) as -> by congruence.
    exists (set_child (kbit 0 k) hn (root (ins n k d c))). unfold s2. rewrite lookup_insert_eq. split; [reflexivity|]. destruct (kbit 0 k); exact Hk0.
  - unfold c. destruct (kbit 0 k); [exact (ok_left _ _ _ _ Hok)|apply ins_perm; exact (ok_left _ _ _ _ Hok)].
  - unfold c. destruct (kbit 0 k); [apply ins_perm; exact (ok_right _ _ _ _ Hok)|exact (ok_right _ _ _ _ Hok)].
  - rewrite Hperm. apply NoDup_cons. split; [exact Hnew|exact Hnd].
  - rewrite Hperm. constructor.
    + destruct P2 as (a & b & HP). intros m Hm2. replace m with (Ptree k (p_m nn) (p_mlen nn) d a b) by congruence. exact Hm.
    + apply Forall_forall. intros x Hx m Hm2. specialize (D2 x Hx). unfold same_data in D2. rewrite Hm2 in D2.
      destruct (s !! x) as [m0|] eqn:E; [|discriminate]. cbn in D2. injection D2 as _ E2 _ _. rewrite E2.
      exact (proj1 (Forall_forall _ _) (ok_masks _ _ _ _ Hok) x Hx m0 E).
  - intros x m Hx Hm2. rewrite Hperm in Hx. apply elem_of_cons in Hx as [->|Hx].
    + destruct P2 as (a & b & HP). replace m with (Ptree k (p_m nn) (p_mlen nn) d a b) by congruence. cbn [whole pathn p_key].
      apply elem_of_cons. right. unfold c. destruct (kbit 0 k); apply pathn_new.
    + assert (exists m0, s !! x = Some m0 /\ p_key m = p_key m0) as (m0 & Hm0 & ->).
      { specialize (D2 x Hx). unfold same_data in D2. rewrite Hm2 in D2. destruct (s !! x) as [m0|]; [|discriminate].
        cbn in D2. injection D2 as E2 _ _ _. eauto. }
      pose proof (ok_self _ _ _ _ Hok x m0 Hx Hm0) as Hp. destruct (walk_node s head L R Hok x m0 Hx Hm0) as [_ Hwx].
      cbn [whole pathn walk] in Hp, Hwx |- *. apply elem_of_cons in Hp as [->|Hp]; [constructor|]. apply elem_of_cons. right.
      assert (c = (if kbit 0 (p_key m0) then R else L) -> x ∈ pathn (ins n k d c) (p_key m0)) as Hside.
      { intros Ecs. apply pathn_ins; [|rewrite Ecs; exact Hp]. rewrite <- Ecs in Hwx.
        assert (walk (ins n k d c) (p_key m0) = (x, p_key m0)) as ->.
        { apply (walk_leaf 0 (ins n k d c) (x, p_key m0) Wc); [|right; lia]. rewrite leaves_ins, <- Hwx. apply elem_of_cons. right. apply walk_leaves. }
        intros E. apply Hnew. injection E as <- _. exact Hx. }
      subst c. destruct (kbit 0 k), (kbit 0 (p_key m0)); auto.
Qed.
End NewKey.

(** ** The masks of a node *)

Section Masks.
Implicit Types (m buf : list ptree_mask) (x y : ptree_mask) (i : nat) (mlen cap mask : Z).

(** The mask before the first one that is not smaller. *)
Fixpoint insert_mask m x : list ptree_mask :=
  match m with [] => [x] | y :: m => if pm_mask y <? pm_mask x then y :: insert_mask m x else x :: y :: m end.

(** What [pat_insert] makes of the masks of a key: it replaces the data of an old mask, and it
    overruns its buffer when the new one comes before the mask of all ones. *)
Definition add_mask m x : res (list ptree_mask) :=
  match list_find (fun y => pm_mask x = pm_mask y) m with
  | Some (j, _) => mret (<[j := x]> m)
  | None => if bool_decide (Exists (fun y => pm_mask y = 0xffffffff) m) then Err OutOfBounds else mret (insert_mask m x)
  end.

Lemma mget_ok m i y : m !! i = Some y -> mget m (Z.of_nat i) = Ok y.
Proof. intros H. unfold mget. rewrite (proj2 (Z.leb_le _ _)), Nat2Z.id, H by lia. reflexivity. Qed.

Lemma mask_index_ok m mask c : forall i, (i + c = length m)%nat ->
  mask_index c (Z.of_nat i) m mask = Ok ((fun p => Z.of_nat (i + p.1)) <$> list_find (fun y => mask = pm_mask y) (drop i m)).
Proof.
  induction c as [|c IH]; intros i Hi; cbn [mask_index].
  - rewrite drop_ge by lia. reflexivity.
  - destruct (lookup_lt_is_Some_2 m i ltac:(lia)) as [y Hy]. rewrite (mget_ok m i y Hy), (drop_S _ _ _ Hy). cbn [mbind res_bind list_find].
    destruct (Z.eqb_spec mask (pm_mask y)) as [E|E].
    + rewrite decide_True by exact E. cbn. rewrite Nat.add_0_r. reflexivity.
    + rewrite decide_False by exact E. replace (Z.of_nat i + 1) with (Z.of_nat (S i)) by lia. rewrite IH by lia.
      destruct (list_find _ _) as [[j z]|]; cbn; [|reflexivity]. do 2 f_equal. lia.
Qed.

Lemma buf_put_ok cap buf x : Z.of_nat (length buf) < cap -> buf_put cap buf x = Ok (buf ++ [x]).
Proof. intros H. unfold buf_put. rewrite (proj2 (Z.ltb_lt _ _)) by exact H. reflexivity. Qed.

(** After the new mask was copied and replaced by the mask of all ones. *)
Lemma merge_rest m cap x fuel : pm_mask x = 0xffffffff -> Forall (fun y => pm_mask y < 0xffffffff) m -> forall i buf,
  (length m - i < fuel)%nat -> (i <= length m)%nat -> Z.of_nat (length buf + (length m - i)) <= cap ->
  merge_loop fuel cap buf m (Z.of_nat (length m)) (Z.of_nat i) x true = Ok (buf ++ drop i m, x, true).
Proof.
  intros Hx Hm. induction fuel as [|fuel IH]; intros i buf Hf Hi Hc; [lia|]. cbn [merge_loop].
  destruct (Z.ltb_spec (Z.of_nat i) (Z.of_nat (length m))) as [Hlt|Hge].
  - destruct (lookup_lt_is_Some_2 m i ltac:(lia)) as [y Hy]. rewrite (mget_ok m i y Hy), (drop_S _ _ _ Hy). cbn [mbind res_bind].
    rewrite Hx, (proj2 (Z.ltb_lt _ _)) by exact (Forall_lookup_1 _ _ _ _ Hm Hy). rewrite buf_put_ok by lia. cbn [mbind res_bind].
    replace (Z.of_nat i + 1) with (Z.of_nat (S i)) by lia. rewrite IH by (rewrite ?length_app; cbn [length]; lia).
    rewrite <- app_assoc. reflexivity.
  - rewrite drop_ge, app_nil_r by lia. reflexivity.
Qed.

Lemma merge_overrun m cap x fuel : pm_mask x = 0xffffffff -> forall i buf, Exists (fun y => pm_mask y = 0xffffffff) (drop i m) ->
  Z.of_nat (length buf) <= cap -> cap - Z.of_nat (length buf) < Z.of_nat fuel ->
  merge_loop fuel cap buf m (Z.of_nat (length m)) (Z.of_nat i) x true = Err OutOfBounds.
Proof.
  destruct x as [mx dx]. cbn [pm_mask]. intros ->. induction fuel as [|fuel IH]; intros i buf He Hb Hf; [lia|]. cbn [merge_loop pm_data].
  assert (i < length m)%nat as Hi.
  { destruct (Nat.lt_ge_cases i (length m)) as [H|H]; [exact H|]. rewrite drop_ge in He by exact H. inversion He. }
  rewrite (proj2 (Z.ltb_lt _ _)) by lia. destruct (lookup_lt_is_Some_2 m i Hi) as [y Hy].
  rewrite (mget_ok m i y Hy). cbn [mbind res_bind pm_mask]. rewrite (drop_S _ _ _ Hy) in He.
  unfold buf_put. destruct (Z.ltb_spec (Z.of_nat (length buf)) cap) as [Hlt|Hge]; cbn [mbind res_bind];
    [|destruct (_ <? _); reflexivity].
  destruct (Z.ltb_spec (pm_mask y) 0xffffffff) as [Hy2|Hy2].
  - replace (Z.of_nat i + 1) with (Z.of_nat (S i)) by lia. apply IH; rewrite ?length_app; cbn [length mret res_ret]; try lia.
    inversion He as [? ? E|]; subst; [lia|assumption].
  - apply IH; rewrite ?length_app; cbn [length]; try lia. rewrite (drop_S _ _ _ Hy). exact He.
Qed.

Lemma merge_loop_ok m cap x fuel : Forall (fun y => pm_mask y < 0xffffffff) m -> forall i buf,
  (length m - i + 1 < fuel)%nat -> (i <= length m)%nat -> Z.of_nat (length buf + (length m - i)) < cap ->
  merge_loop fuel cap buf m (Z.of_nat (length m)) (Z.of_nat i) x false =
    Ok (if forallb (fun y => pm_mask y <? pm_mask x) (drop i m) then (buf ++ drop i m, x, false)
        else (buf ++ insert_mask (drop i m) x, PtreeMask 0xffffffff (pm_data x), true)).
Proof.
  intros Hm. induction fuel as [|fuel IH]; intros i buf Hf Hi Hc; [lia|]. cbn [merge_loop].
  destruct (Z.ltb_spec (Z.of_nat i) (Z.of_nat (length m))) as [Hlt|Hge].
  - destruct (lookup_lt_is_Some_2 m i ltac:(lia)) as [y Hy]. rewrite (mget_ok m i y Hy), (drop_S _ _ _ Hy). cbn [mbind res_bind forallb insert_mask].
    rewrite buf_put_ok by lia. rewrite (buf_put_ok cap buf x) by lia. cbn [mbind res_bind].
    destruct (pm_mask y <? pm_mask x); cbn [andb].
    + replace (Z.of_nat i + 1) with (Z.of_nat (S i)) by lia. rewrite IH by (rewrite ?length_app; cbn [length]; lia).
      destruct (forallb _ _); rewrite <- app_assoc; reflexivity.
    + rewrite merge_rest; [|reflexivity|exact Hm|lia|lia|rewrite length_app; cbn [length]; lia].
      rewrite <- app_assoc, (drop_S _ _ _ Hy). reflexivity.
  - rewrite drop_ge by lia. cbn [forallb]. rewrite app_nil_r. reflexivity.
Qed.

Lemma insert_mask_all m x : forallb (fun y => pm_mask y <? pm_mask x) m = true -> insert_mask m x = m ++ [x].
Proof.
  induction m as [|y m IH]; [reflexivity|]. cbn [forallb insert_mask app]. intros H. apply andb_prop in H as [-> H]. now rewrite IH.
Qed.

Lemma length_insert_mask m x : length (insert_mask m x) = S (length m).
Proof. induction m as [|y m IH]; [reflexivity|]. cbn [insert_mask]. destruct (_ <? _); cbn [length]; lia. Qed.

Lemma merge_masks_ok m x : inU 32 (pm_mask x) -> Forall (fun y => inU 32 (pm_mask y)) m -> list_find (fun y => pm_mask x = pm_mask y) m = None ->
  merge_masks m (Z.of_nat (length m)) x = add_mask m x.
Proof.
  intros Hx Hm Hf. unfold add_mask. rewrite Hf. unfold merge_masks. rewrite Nat2Z.id.
  case_bool_decide as He.
  - assert (forall fuel i buf, Exists (fun y => pm_mask y = 0xffffffff) (drop i m) -> Z.of_nat (length buf) <= Z.of_nat (length m) + 1 ->
      Z.of_nat (length m) + 1 - Z.of_nat (length buf) < Z.of_nat fuel ->
      merge_loop fuel (Z.of_nat (length m) + 1) buf m (Z.of_nat (length m)) (Z.of_nat i) x false = Err OutOfBounds) as H.
    { induction fuel as [|fuel IH]; intros i buf Hi Hb Hfu; [lia|]. cbn [merge_loop].
      assert (i < length m)%nat as Hlt.
      { destruct (Nat.lt_ge_cases i (length m)) as [H|H]; [exact H|]. rewrite drop_ge in Hi by exact H. inversion Hi. }
      rewrite (proj2 (Z.ltb_lt _ _)) by lia. destruct (lookup_lt_is_Some_2 m i Hlt) as [y Hy].
      rewrite (mget_ok m i y Hy). cbn [mbind res_bind]. rewrite (drop_S _ _ _ Hy) in Hi.
      unfold buf_put. destruct (Z.ltb_spec (Z.of_nat (length buf)) (Z.of_nat (length m) + 1)) as [Hl|Hl]; cbn [mbind res_bind mret res_ret];
        [|destruct (_ <? _); reflexivity].
      destruct (Z.ltb_spec (pm_mask y) (pm_mask x)) as [Hyx|Hyx].
      - replace (Z.of_nat i + 1) with (Z.of_nat (S i)) by lia. apply IH; rewrite ?length_app; cbn [length]; try lia.
        inversion Hi as [? ? E|]; subst; [|assumption]. unfold inU in Hx. change (2 ^ 32) with 4294967296 in Hx. lia.
      - apply merge_overrun; [reflexivity| |rewrite length_app; cbn [length]; lia|rewrite length_app; cbn [length]; lia].
        rewrite (drop_S _ _ _ Hy). exact Hi. }
    rewrite (H _ 0%nat []); [reflexivity|rewrite drop_0; exact He|cbn [length]; lia|cbn [length]; lia].
  - assert (Forall (fun y => pm_mask y < 0xffffffff) m) as Hlt.
    { apply Forall_forall. intros y Hy. pose proof (proj1 (Forall_forall _ _) Hm y Hy) as Hu. unfold inU in Hu. change (2 ^ 32) with 4294967296 in Hu.
      destruct (Z.eq_dec (pm_mask y) 0xffffffff) as [E|E]; [|lia]. exfalso. apply He, Exists_exists. eauto. }
    rewrite (merge_loop_ok m _ x _ Hlt 0 []) by (cbn [length]; lia). rewrite drop_0. cbn [app].
    destruct (forallb _ m) eqn:E; cbn [mbind res_bind]; [|reflexivity]. rewrite buf_put_ok by lia. rewrite (insert_mask_all m x E). reflexivity.
Qed.

(** The order of the masks is kept. *)
Definition masks_sorted m : Prop := StronglySorted (fun y z => pm_mask y < pm_mask z) m.

Lemma insert_mask_in m x y : y ∈ insert_mask m x <-> y = x \/ y ∈ m.
Proof.
  induction m as [|z m IH]; cbn [insert_mask]; [set_solver|]. destruct (_ <? _); rewrite ?elem_of_cons, ?IH; tauto.
Qed.

Lemma insert_mask_sorted m x : masks_sorted m -> Forall (fun y => pm_mask y <> pm_mask x) m -> masks_sorted (insert_mask m x).
Proof.
  induction 1 as [|y m Hs IH Hy]; intros Hx; cbn [insert_mask]; [repeat constructor|]. pose proof (Forall_inv Hx) as Hyx. apply Forall_inv_tail in Hx.
  destruct (Z.ltb_spec (pm_mask y) (pm_mask x)) as [Hlt|Hge].
  - constructor; [apply IH, Hx|]. apply Forall_forall. intros z Hz. apply insert_mask_in in Hz as [->|Hz]; [exact Hlt|exact (proj1 (Forall_forall _ _) Hy z Hz)].
  - constructor; [constructor; assumption|]. cbv beta in Hyx. constructor; [lia|].
    apply (Forall_impl _ _ _ Hy). intros z Hz. cbv beta in Hz. lia.
Qed.
End Masks.
