(* ===== verification/PatriciaDict.v ===== *)
(** The Patricia trie as a dictionary: pat_insert of Patricia.v implements the insertion into a finite
    map from keys to masks, and patricia_test.c finds exactly the addresses that it has read before. *)
From stdpp Require Import base list numbers option tactics gmap sorting.
From Stdlib Require Import ZArith Lia.
From S2P Require Import Prelude Patricia PatriciaTrie PatriciaInsert.

Abbreviation dict := (gmap Z (list ptree_mask * Z)).

(** ** Entries of the dictionary and nodes of the trie *)

Section Entries.
Implicit Types (s : heap) (T : list loc) (D : dict) (x y n : loc) (k : Z).

Lemma entries_update s s' T D y tn tn' : entries s T D -> y ∈ T -> s !! y = Some tn -> s' !! y = Some tn' -> p_key tn' = p_key tn ->
  (forall x, x ∈ T -> x <> y -> s' !! x = s !! x) -> (forall x m, x ∈ T -> s !! x = Some m -> p_key m = p_key tn -> x = y) ->
  entries s' T (<[p_key tn := entry tn']> D).
Proof.
  intros HD HyT Hy Hy' Hk Hs Hu k e. destruct (decide (k = p_key tn)) as [->|Hne].
  - rewrite lookup_insert_eq. split.
    + intros E. injection E as <-. exists y, tn'. auto.
    + intros (x & m & Hx & Hm & Hkm & <-). destruct (decide (x = y)) as [->|Hxy]; [congruence|].
      rewrite Hs in Hm by assumption. exfalso. eauto.
  - rewrite lookup_insert_ne by congruence. rewrite (HD k e). split; intros (x & m & Hx & Hm & Hkm & He).
    + exists x, m. rewrite Hs; [auto|exact Hx|]. intros ->. congruence.
    + exists x, m. destruct (decide (x = y)) as [->|Hxy]; [congruence|]. rewrite Hs in Hm by assumption. auto.
Qed.

Lemma entries_new s s' T T' D n m : entries s T D -> D !! p_key m = None -> T' ≡ₚ n :: T -> (forall x, x ∈ T -> same_data s s' x) ->
  s' !! n = Some m -> n ∉ T -> entries s' T' (<[p_key m := entry m]> D).
Proof.
  intros HD Hnone HT Hs Hn HnT k e.
  assert (forall x a, x ∈ T -> s !! x = Some a -> exists a', s' !! x = Some a' /\ p_key a' = p_key a /\ entry a' = entry a) as H1.
  { intros x a Hx Ha. specialize (Hs x Hx). unfold same_data in Hs. rewrite Ha in Hs. destruct (s' !! x) as [a'|]; [|discriminate].
    cbn in Hs. injection Hs as E1 E2 E3 _. exists a'. unfold entry. rewrite E2, E3. auto. }
  assert (forall x a', x ∈ T -> s' !! x = Some a' -> exists a, s !! x = Some a /\ p_key a' = p_key a /\ entry a' = entry a) as H2.
  { intros x a' Hx Ha. specialize (Hs x Hx). unfold same_data in Hs. rewrite Ha in Hs. destruct (s !! x) as [a|]; [|discriminate].
    cbn in Hs. injection Hs as E1 E2 E3 _. exists a. unfold entry. rewrite E2, E3. auto. }
  destruct (decide (k = p_key m)) as [->|Hne].
  - rewrite lookup_insert_eq. split.
    + intros E. injection E as <-. exists n, m. rewrite HT. repeat split; auto. constructor.
    + intros (x & a & Hx & Ha & Hka & <-). rewrite HT in Hx. apply elem_of_cons in Hx as [->|Hx]; [congruence|].
      destruct (H2 x a Hx Ha) as (a0 & Ha0 & E1 & E2). exfalso.
      assert (D !! p_key m = Some (entry a0)) as E by (apply HD; exists x, a0; repeat split; congruence). congruence.
  - rewrite lookup_insert_ne by congruence. rewrite (HD k e). split.
    + intros (x & a & Hx & Ha & Hka & He). destruct (H1 x a Hx Ha) as (a' & Ha' & E1 & E2). exists x, a'. rewrite HT.
      split; [apply elem_of_cons; auto|]. repeat split; congruence.
    + intros (x & a' & Hx & Ha & Hka & He). rewrite HT in Hx. apply elem_of_cons in Hx as [->|Hx]; [congruence|].
      destruct (H2 x a' Hx Ha) as (a & Ha' & E1 & E2). exists x, a. repeat split; congruence.
Qed.

Lemma node_alloc s head L R x : trie_ok s head L R -> x ∈ nodes (whole head L R) -> exists m, s !! x = Some m.
Proof.
  intros Hok. assert (forall pb t, repr s pb t -> x ∈ nodes t -> exists m, s !! x = Some m) as H.
  { intros pb t. revert pb. induction t as [y k|y b l IHl r IHr]; intros pb; cbn [repr nodes]; [set_solver|].
    intros (m & Hm & _ & _ & _ & Hl & Hr) Hx. apply elem_of_cons in Hx as [->|Hx]; [eauto|]. apply elem_of_app in Hx as [Hx|Hx]; eauto. }
  exact (H _ _ (ok_repr _ _ _ _ Hok)).
Qed.
End Entries.

(** ** The forbidden key *)

Section Forbidden.
Context (dm : data_model) (s : heap) (head : loc) (L R : trie) (Hok : trie_ok s head L R).

(** The key with bit 0 only meets the head, from which no later bit distinguishes it. *)
Lemma walk_top : walk (whole head L R) (2 ^ 31) = (head, 0).
Proof.
  rewrite walk_right by (vm_compute; reflexivity). pose proof (ok_wf _ _ _ _ Hok) as (_ & _ & Wr & _).
  assert (forall pb t, wf pb t -> 0 <= pb -> walk t (2 ^ 31) = walk t 0) as H.
  { intros pb t. revert pb. induction t as [x k|x b l IHl r IHr]; intros pb; cbn [wf walk]; [reflexivity|].
    intros (Hb & Hl & Hr & _) Hpb. rewrite kbit_0. replace (kbit b (2 ^ 31)) with false by (symmetry; apply Z.pow2_bits_false; lia).
    eapply IHl; [exact Hl|lia]. }
  rewrite (H 0 R Wr ltac:(lia)). destruct (leaf_of head head R (ok_right _ _ _ _ Hok)) as [k Hk]; [constructor|].
  pose proof (head_right s head L R Hok k Hk) as ->. exact (walk_leaf 0 R (head, 0) Wr Hk ltac:(right; lia)).
Qed.

(** No bit 32 to insert at. *)
Lemma insertR_32 n nn fuel : forall pb t p s0, repr s0 pb t -> wf pb t -> 0 <= pb <= 31 -> s0 !! n = Some nn -> inU 32 (p_key nn) ->
  (exists pn, s0 !! p = Some pn /\ p_b pn = pb) -> 31 - pb < Z.of_nat fuel -> insertR dm fuel s0 (root t) n 32 p = Err OutOfBounds.
Proof.
  induction fuel as [|fuel IH]; intros pb t p s0 Hr Hw Hpb Hn Hk (pn & Hp & Epb) Hf; [lia|].
  destruct (root_bit s0 pb t Hr Hw) as (hn & Hh & Eh). cbn [insertR].
  rewrite (load_ok _ _ _ Hh), (load_ok _ _ _ Hp). cbn [mbind res_bind].
  destruct ((32 <=? p_b hn) || (p_b hn <=? p_b pn)) eqn:Ec; rewrite (load_ok _ _ _ Hn); cbn [mbind res_bind]; [reflexivity|].
  destruct t as [x k0|x b l r]; cbn [is_node root] in *.
  { apply Z.ltb_ge in Eh. apply orb_false_iff in Ec as [_ Ec]. apply Z.leb_gt in Ec. lia. }
  destruct Hr as (m & Hm & Hb & El & Er & Rl & Rr). assert (m = hn) as -> by congruence.
  pose proof Hw as (Hb31 & Wl & Wr & _). rewrite Hb, bit_set_ok by (lia || exact Hk). cbn [mbind res_bind].
  assert (child (kbit b (p_key nn)) hn = root (if kbit b (p_key nn) then r else l)) as -> by (unfold child; destruct (kbit b (p_key nn)); assumption).
  rewrite (IH b); [reflexivity|destruct (kbit b (p_key nn)); assumption|destruct (kbit b (p_key nn)); assumption|lia|exact Hn|exact Hk|exists hn; auto|lia].
Qed.

Lemma first_diff_top : first_diff dm 31 1 (2 ^ 31) 0 = Ok 32.
Proof. destruct dm; vm_compute; reflexivity. Qed.
End Forbidden.

(** ** Insertion into the dictionary *)

Definition insert_spec (D : dict) (nn : ptree) : res dict :=
  match p_m nn with
  | [] => mret D
  | x :: _ =>
      let k := Z.land (p_key nn) (pm_mask x) in
      match D !! k with
      | None => if k =? 2 ^ 31 then Err OutOfBounds else mret (<[k := (p_m nn, p_mlen nn)]> D)
      | Some (ms, _) => ms' ← add_mask ms x; mret (<[k := (ms', Z.of_nat (length ms'))]> D)
      end
  end.

(** The masks of a key are 32-bit numbers whose number is [p_mlen]. *)
Definition masks_ok (D : dict) (k : Z) : Prop :=
  forall ms len, D !! k = Some (ms, len) -> len = Z.of_nat (length ms) /\ len < 255 /\ Forall (fun y => inU 32 (pm_mask y)) ms.

Section Insert.
Context (dm : data_model) (s : heap) (head : loc) (L R : trie) (D : dict).
Context (Hok : trie_ok s head L R) (HD : entries s (nodes (whole head L R)) D).
Context (n : loc) (nn : ptree) (x : ptree_mask) (xs : list ptree_mask) (Hn : s !! n = Some nn) (Hnew : n ∉ nodes (whole head L R)).
Context (Hm : p_m nn = x :: xs) (Hk : inU 32 (p_key nn)) (Hx : inU 32 (pm_mask x)).
Local Abbreviation k := (p_key nn).

(** [pat_insert] once the key of the new node is masked and its leaf [t] is found. *)
Definition insert_at (t : loc) : res (loc * heap) :=
  tn ← load s t;
  if k =? p_key tn then
    j ← mask_index (Z.to_nat (p_mlen tn)) 0 (p_m tn) (pm_mask x);
    match j with
    | Some j =>
        s ← store s t (set_m tn (<[Z.to_nat j := PtreeMask (pm_mask x) (pm_data x)]> (p_m tn)) (p_mlen tn));
        mret (t, delete n s)
    | None =>
        buf ← merge_masks (p_m tn) (p_mlen tn) x;
        let s := delete n s in
        s ← store s t (set_m tn buf (u8 (p_mlen tn + 1)));
        mret (t, s)
    end
  else
    d ← first_diff dm 31 1 k (p_key tn);
    hn ← load s head; b ← bit_set dm (p_b hn) k;
    '(c, s) ← insertR dm depth_fuel s (child b hn) n d head;
    hn ← load s head; s ← store s head (set_child b hn c);
    mret (n, s).

Definition inserted (D' : dict) (r : loc * heap) : Prop :=
  trie_rep r.2 head D' /\ exists rn, r.2 !! r.1 = Some rn /\ p_key rn = k.

Lemma insert_at_new y tn : walk (whole head L R) k = (y, p_key tn) -> s !! y = Some tn -> p_key tn <> k ->
  match (if k =? 2 ^ 31 then Err OutOfBounds else mret (<[k := (p_m nn, p_mlen nn)]> D)) with
  | Ok D' => okp (insert_at y) (inserted D')
  | Err e => insert_at y = Err e
  end.
Proof.
  intros Ew Hy Hne. unfold insert_at. rewrite (load_ok _ _ _ Hy). cbn [mbind res_bind]. rewrite (proj2 (Z.eqb_neq k (p_key tn))) by congruence.
  destruct (Z.eqb_spec k (2 ^ 31)) as [E31|E31].
  - pose proof (walk_top s head L R Hok) as Et. rewrite <- E31, Ew in Et. injection Et as -> E0. rewrite E0, E31, first_diff_top. cbn [mbind res_bind].
    destruct (ok_repr _ _ _ _ Hok) as (hn & Hh & Hb & El & Er & Rl & Rr). rewrite (load_ok _ _ _ Hh). cbn [mbind res_bind].
    rewrite Hb, bit_set_ok by (lia || by_eval). change (kbit 0 (2 ^ 31)) with true. cbn [mbind res_bind child]. rewrite Er.
    pose proof (ok_wf _ _ _ _ Hok) as (_ & _ & Wr & _).
    rewrite (insertR_32 dm n nn depth_fuel 0 R head s Rr Wr ltac:(lia) Hn Hk); [reflexivity|exists hn; auto|unfold depth_fuel; lia].
  - cbn [mret res_ret].
    destruct (new_key_ok dm s head L R Hok n nn Hn Hnew Hk ltac:(exists x; rewrite Hm; reflexivity) y tn Ew Hy Hne E31)
      as (d & hn & c & s1 & L' & R' & Ed & Hh & Hb & E1 & Hh1 & Hok' & Hperm & Hsame & (a & b & Hpl)).
    rewrite Ed. cbn [mbind res_bind]. rewrite (load_ok _ _ _ Hh). cbn [mbind res_bind]. rewrite Hb, bit_set_ok by (lia || exact Hk). cbn [mbind res_bind].
    rewrite E1. cbn [mbind res_bind]. rewrite (load_ok _ _ _ Hh1). cbn [mbind res_bind]. rewrite (store_ok _ _ _ _ Hh1).
    cbn [mbind res_bind mret res_ret okp]. split; [|eexists; split; [exact Hpl|reflexivity]].
    exists L', R'. split; [exact Hok'|]. cbn [snd].
    apply (entries_new s _ (nodes (whole head L R)) _ D n (Ptree k (p_m nn) (p_mlen nn) d a b)); auto. cbn [p_key].
    pose proof (find_entry s head L R Hok D k Hk HD y tn Ew Hy) as E. rewrite (proj2 (Z.eqb_neq _ _)) in E by exact Hne. exact E.
Qed.

(** New masks in the node of an old key. *)
Lemma remask_ok y tn ms' len' s' : walk (whole head L R) k = (y, k) -> s !! y = Some tn -> p_key tn = k ->
  (exists m, ms' !! 0%nat = Some m) -> s' !! y = Some (set_m tn ms' len') ->
  (forall z, z ∈ nodes (whole head L R) -> z <> y -> s' !! z = s !! z) -> trie_rep s' head (<[k := (ms', len')]> D).
Proof.
  intros Ew Hy Hky Hms Hy' Hs'. destruct (find_ok s head L R Hok k Hk) as (y' & n' & Ew' & Hn' & HyT & _ & Hu).
  assert (y' = y) as -> by congruence. exists L, R. split.
  - apply (trie_ok_shape s); [exact Hok| |].
    + intros z Hz. destruct (decide (z = y)) as [->|Hne]; [rewrite Hy', Hy; reflexivity|rewrite Hs' by assumption; reflexivity].
    + apply Forall_forall. intros z Hz m Hmz. destruct (decide (z = y)) as [->|Hne].
      * rewrite Hy' in Hmz. injection Hmz as <-. exact Hms.
      * rewrite Hs' in Hmz by assumption. exact (proj1 (Forall_forall _ _) (ok_masks _ _ _ _ Hok) z Hz m Hmz).
  - rewrite <- Hky. apply (entries_update s s' _ D y tn (set_m tn ms' len')); auto. intros z m Hz Hmz E. apply (Hu z m); congruence.
Qed.

Lemma insert_at_old y tn ms : walk (whole head L R) k = (y, k) -> s !! y = Some tn -> p_key tn = k -> p_m tn = ms ->
  p_mlen tn = Z.of_nat (length ms) -> Z.of_nat (length ms) < 255 -> Forall (fun y => inU 32 (pm_mask y)) ms ->
  match add_mask ms x with
  | Ok ms' => okp (insert_at y) (inserted (<[k := (ms', Z.of_nat (length ms'))]> D))
  | Err e => insert_at y = Err e
  end.
Proof.
  intros Ew Hy Hky Hms Hlen H255 Hin. destruct (find_ok s head L R Hok k Hk) as (y' & n' & Ew' & Hn' & HyT & _ & Hu).
  assert (y' = y) as -> by congruence. assert (y <> n) as Hyn by congruence.
  assert (exists m, ms !! 0%nat = Some m) as [m0 Hm0].
  { rewrite <- Hms. exact (proj1 (Forall_forall _ _) (ok_masks _ _ _ _ Hok) y HyT tn Hy). }
  unfold insert_at. rewrite (load_ok _ _ _ Hy). cbn [mbind res_bind]. rewrite Hky, Z.eqb_refl, Hlen, Hms, Nat2Z.id.
  pose proof (mask_index_ok ms (pm_mask x) (length ms) 0 eq_refl) as Ei. change (Z.of_nat 0) with 0 in Ei. rewrite Ei, drop_0. cbn [mbind res_bind].
  destruct (list_find (fun y => pm_mask x = pm_mask y) ms) as [[j z]|] eqn:Ef; cbn [fmap option_fmap option_map fst Nat.add].
  - unfold add_mask. rewrite Ef. cbn [mret res_ret]. rewrite Nat2Z.id, (store_ok _ _ _ _ Hy). cbn [mbind res_bind mret res_ret okp].
    replace (PtreeMask (pm_mask x) (pm_data x)) with x by (destruct x; reflexivity). rewrite length_insert. split.
    + apply (remask_ok y tn); auto.
      * apply list_find_Some in Ef as (Hj & _ & _). destruct j as [|j]; [exists x; apply list_lookup_insert_eq; exact (lookup_lt_Some _ _ _ Hm0)|].
        exists m0. rewrite list_lookup_insert_ne by lia. exact Hm0.
      * cbn [snd]. rewrite lookup_delete_ne by congruence. apply lookup_insert_eq.
      * intros w Hw Hwy. cbn [snd]. rewrite lookup_delete_ne, lookup_insert_ne; [reflexivity|congruence|]. intros ->. contradiction.
    + eexists. cbn [fst snd]. rewrite lookup_delete_ne by congruence. rewrite lookup_insert_eq. split; [reflexivity|exact Hky].
  - rewrite (merge_masks_ok ms x Hx Hin Ef). destruct (add_mask ms x) as [ms'|e] eqn:Ea; cbn [mbind res_bind]; [|reflexivity].
    assert (delete n s !! y = Some tn) as Hyd by (rewrite lookup_delete_ne by congruence; exact Hy).
    rewrite (store_ok _ _ _ _ Hyd). cbn [mbind res_bind mret res_ret okp].
    assert (ms' = insert_mask ms x) as ->.
    { unfold add_mask in Ea. rewrite Ef in Ea. case_bool_decide; [discriminate|]. injection Ea as <-. reflexivity. }
    rewrite wrapU_id by (unfold inU; change (2 ^ 8) with 256; lia).
    replace (Z.of_nat (length ms) + 1) with (Z.of_nat (length (insert_mask ms x))) by (rewrite length_insert_mask; lia). split.
    + apply (remask_ok y tn); auto.
      * destruct ms as [|w ms]; [discriminate|]. cbn [insert_mask]. destruct (_ <? _); eauto.
      * apply lookup_insert_eq.
      * intros w Hw Hwy. cbn [snd]. rewrite lookup_insert_ne, lookup_delete_ne; [reflexivity| |congruence]. intros ->. contradiction.
    + eexists. cbn [fst snd]. rewrite lookup_insert_eq. split; [reflexivity|exact Hky].
Qed.
End Insert.

Lemma land_inU k m : inU 32 k -> inU 32 m -> inU 32 (Z.land k m).
Proof.
  intros Hk Hm. unfold inU in *. split; [apply Z.land_nonneg; lia|].
  replace (Z.land k m) with (Z.land k m mod 2 ^ 32); [apply Z.mod_pos_bound; lia|].
  rewrite <- Z.land_ones, <- Z.land_assoc, (Z.land_ones m), Z.mod_small by lia. reflexivity.
Qed.

Lemma pat_insert_fact dm s head D n nn x xs : trie_rep s head D -> s !! n = None -> n <> 0 ->
  p_m nn = x :: xs -> inU 32 (p_key nn) -> inU 32 (pm_mask x) -> masks_ok D (Z.land (p_key nn) (pm_mask x)) ->
  match insert_spec D nn with
  | Ok D' => okp (pat_insert dm (<[n := nn]> s) n head) (fun r => trie_rep r.2 head D' /\
      exists rn, r.2 !! r.1 = Some rn /\ p_key rn = Z.land (p_key nn) (pm_mask x))
  | Err e => pat_insert dm (<[n := nn]> s) n head = Err e
  end.
Proof.
  intros (L & R & Hok0 & HD0) Hn Hn0 Hm Hk Hx Hmo. set (nn' := set_key nn (Z.land (p_key nn) (pm_mask x))).
  set (s0 := <[n := nn']> (<[n := nn]> s)).
  assert (forall z, z ∈ nodes (whole head L R) -> z <> n) as Hzn.
  { intros z Hz ->. destruct (node_alloc s head L R n Hok0 Hz) as [m Hm']. congruence. }
  assert (forall z, z ∈ nodes (whole head L R) -> s0 !! z = s !! z) as Hs0.
  { intros z Hz. pose proof (Hzn z Hz). unfold s0. rewrite !lookup_insert_ne by congruence. reflexivity. }
  pose proof (trie_ok_frame s s0 head L R Hok0 Hs0) as Hok. pose proof (entries_frame s s0 _ D HD0 Hs0) as HD.
  assert (inU 32 (p_key nn')) as Hk' by (apply land_inU; assumption).
  assert (s0 !! n = Some nn') as Hnn by apply lookup_insert_eq.
  assert (n ∉ nodes (whole head L R)) as Hnew by (intros H; exact (Hzn n H eq_refl)).
  destruct (find_ok s0 head L R Hok (p_key nn') Hk') as (y & tn & Ew & Hy & HyT & _ & _).
  pose proof (find_entry s0 head L R Hok D (p_key nn') Hk' HD y tn Ew Hy) as ED.
  assert (pat_insert dm (<[n := nn]> s) n head = insert_at dm s0 head n nn' x y) as ->.
  { unfold pat_insert. rewrite (proj2 (Z.eqb_neq head 0)), (proj2 (Z.eqb_neq n 0)) by (exact Hn0 || exact (ok_null _ _ _ _ Hok)). cbn [orb].
    assert (<[n := nn]> s !! n = Some nn) as H1 by apply lookup_insert_eq. rewrite (load_ok _ _ _ H1). cbn [mbind res_bind]. rewrite Hm.
    rewrite (store_ok _ _ _ _ H1). cbn [mbind res_bind]. fold nn'. fold s0.
    pose proof (leaf_loop_ok dm s0 (p_key nn') Hk' depth_fuel (-1) head 0 L R (ok_repr _ _ _ _ Hok) (ok_wf _ _ _ _ Hok) ltac:(lia)
      ltac:(unfold depth_fuel; lia)) as E. unfold whole in Ew. rewrite Ew in E. cbn [fst] in E. rewrite E. reflexivity. }
  unfold insert_spec. rewrite Hm. change (Z.land (p_key nn) (pm_mask x)) with (p_key nn'). rewrite ED.
  destruct (Z.eqb_spec (p_key tn) (p_key nn')) as [Ek|Ek].
  - cbn [entry]. destruct (Hmo (p_m tn) (p_mlen tn)) as (Hl1 & Hl2 & Hl3); [exact ED|].
    rewrite Ek in Ew. pose proof (insert_at_old dm s0 head L R D Hok HD n nn' x xs Hnn Hnew Hm Hk' Hx y tn (p_m tn) Ew Hy Ek eq_refl Hl1 ltac:(lia) Hl3) as H.
    destruct (add_mask (p_m tn) x) as [ms'|e]; exact H.
  - pose proof (insert_at_new dm s0 head L R D Hok HD n nn' x xs Hnn Hnew Hm Hk' y tn Ew Hy Ek) as H.
    cbn [nn' set_key p_m p_mlen] in H. rewrite Hm in H. exact H.
Qed.

(** C11: pat_insert implements insertion into a finite map from 32-bit keys to sorted masks:
    on every trie that represents a map, it ends in a trie that represents the map with the
    masked key added, its mask replaced or its mask merged in, and it fails only where the map
    says so (key 2^31, or a mask buffer that is overrun). *)
Theorem pat_insert_refines dm s head D n nn x xs : trie_rep s head D -> s !! n = None -> n <> 0 ->
  p_m nn = x :: xs -> inU 32 (p_key nn) -> inU 32 (pm_mask x) -> masks_ok D (Z.land (p_key nn) (pm_mask x)) ->
  match insert_spec D nn with
  | Ok D' => okp (pat_insert dm (<[n := nn]> s) n head) (fun r => trie_rep r.2 head D' /\
      exists rn, r.2 !! r.1 = Some rn /\ p_key rn = Z.land (p_key nn) (pm_mask x))
  | Err e => pat_insert dm (<[n := nn]> s) n head = Err e
  end.
Proof. apply pat_insert_fact. Qed.

(** ** The trie of patricia_test.c *)

(** The dictionary and the heap that the program starts with. *)
Definition init_dict (data : Z) : dict := {[ 0 := ([PtreeMask 0 data], 1) ]}.
Definition init_heap (head data : Z) : heap := {[ head := phead_node head data ]}.

Lemma init_trie head data : head <> 0 -> trie_rep (init_heap head data) head (init_dict data).
Proof.
  intros Hh. assert (init_heap head data !! head = Some (phead_node head data)) as E by apply lookup_singleton_eq.
  exists (Leaf head 0), (Leaf head 0). split.
  - constructor; cbn [whole wf repr nodes leaves app fmap list_fmap fst root]; auto.
    + split; [lia|]. split; [by_eval|]. split; [by_eval|]. split; [repeat constructor|]. split; [constructor; [right; auto|constructor]|].
      intros y z Hy Hz j Hj. lia.
    + exists (phead_node head data). split; [exact E|]. cbn [phead_node p_b p_left p_right]. split; [reflexivity|]. split; [reflexivity|].
      split; [reflexivity|]. split; exists (phead_node head data); (split; [exact E|]); (split; [reflexivity|]); cbn; lia.
    + eexists. split; [exact E|reflexivity].
    + constructor; [set_solver|constructor].
    + constructor; [|constructor]. intros m Hm. rewrite E in Hm. injection Hm as <-. eexists. reflexivity.
    + intros x m Hx _. apply list_elem_of_singleton in Hx as ->. constructor.
  - intros k e. cbn [whole nodes app]. unfold init_dict. split.
    + intros H. apply lookup_singleton_Some in H as [<- <-]. exists head, (phead_node head data). repeat split; auto. constructor.
    + intros (x & m & Hx & Hm & <- & <-). apply list_elem_of_singleton in Hx as ->. rewrite E in Hm. injection Hm as <-. reflexivity.
Qed.

(** The default entry has the mask 0, and the first mask of a key covers it. *)
Definition default_ok (D : dict) : Prop := forall ms len, D !! 0 = Some (ms, len) -> exists d ms', ms = PtreeMask 0 d :: ms'.
Definition covered (D : dict) (key : Z) : Prop :=
  exists ms len m, D !! key = Some (ms, len) /\ ms !! 0%nat = Some m /\ Z.land key (pm_mask m) = key.

(** On every trie that represents a map whose entry 0 has the mask 0, pat_search ends at a
    node whose key is the searched key under its first mask, and at the node of the key itself
    if the map has it with a covering first mask. *)
Theorem patricia_search dm s head D key : trie_rep s head D -> inU 32 key ->
  default_ok D ->
  exists r n m, pat_search dm s key head = Ok r /\ s !! r = Some n /\ p_m n !! 0%nat = Some m /\
    p_key n = Z.land key (pm_mask m) /\ D !! p_key n = Some (entry n) /\ (covered D key -> p_key n = key).
Proof.
  intros Hrep Hk Hd. destruct (patricia_search_fact dm s head D key Hrep Hk Hd) as (r & n & m & E & Hn & Hm & Hkm & HD & Hc).
  exists r, n, m. repeat (split; [assumption|]). intros (ms & len & m' & Hms & Hm' & Hl). exact (Hc ms len Hms (ex_intro _ m' (conj Hm' Hl))).
Qed.

Lemma patricia_search_witness : trie_rep (init_heap 1 5) 1 (init_dict 5) /\ default_ok (init_dict 5) /\
  exists r n m, pat_search LP64 (init_heap 1 5) 0x0a000001 1 = Ok r /\ init_heap 1 5 !! r = Some n /\ p_m n !! 0%nat = Some m /\
    p_key n = Z.land 0x0a000001 (pm_mask m) /\ init_dict 5 !! p_key n = Some (entry n) /\ (covered (init_dict 5) 0x0a000001 -> p_key n = 0x0a000001).
Proof.
  assert (trie_rep (init_heap 1 5) 1 (init_dict 5)) as H by (apply init_trie; discriminate).
  assert (default_ok (init_dict 5)) as Hd.
  { intros ms len E. unfold init_dict in E. apply lookup_singleton_Some in E as [_ E]. injection E as <- _. exists 5, []. reflexivity. }
  split; [exact H|]. split; [exact Hd|]. apply (patricia_search LP64 (init_heap 1 5) 1 (init_dict 5) 0x0a000001); [exact H|by_eval|exact Hd].
Defined.

Lemma pat_insert_refines_witness : let nn := Ptree 0x0a000001 [PtreeMask 0xff000000 7] 1 0 0 0 in
  trie_rep (init_heap 1 5) 1 (init_dict 5) /\ init_heap 1 5 !! 2 = None /\ masks_ok (init_dict 5) (Z.land (p_key nn) 0xff000000) /\
  match insert_spec (init_dict 5) nn with
  | Ok D' => okp (pat_insert LP64 (<[2 := nn]> (init_heap 1 5)) 2 1) (fun r => trie_rep r.2 1 D' /\
      exists rn, r.2 !! r.1 = Some rn /\ p_key rn = Z.land (p_key nn) 0xff000000)
  | Err e => pat_insert LP64 (<[2 := nn]> (init_heap 1 5)) 2 1 = Err e
  end.
Proof.
  intros nn. assert (trie_rep (init_heap 1 5) 1 (init_dict 5)) as H by (apply init_trie; discriminate).
  assert (masks_ok (init_dict 5) (Z.land (p_key nn) 0xff000000)) as Hmo by (intros ms len E; vm_compute in E; discriminate).
  split; [exact H|]. split; [reflexivity|]. split; [exact Hmo|].
  apply (pat_insert_refines LP64 (init_heap 1 5) 1 (init_dict 5) 2 nn (PtreeMask 0xff000000 7) []);
    [exact H|reflexivity|discriminate|reflexivity|by_eval|by_eval|exact Hmo].
Defined.

(** Whether each address is 0 or occurred before. *)
Fixpoint seen_flags (seen addrs : list Z) : list bool :=
  match addrs with [] => [] | a :: addrs => bool_decide (a ∈ seen) :: seen_flags (a :: seen) addrs end.

Section Main.
Context (dm : data_model) (head : loc).
Implicit Types (s : heap) (D : dict) (seen : list Z) (addr data k : Z).

(** The dictionary after the addresses [seen]: every node has one mask, which covers its key. *)
Definition main_dict seen D : Prop :=
  (forall k, k ∈ seen <-> is_Some (D !! k)) /\
  (forall k ms len, D !! k = Some (ms, len) -> exists m, ms = [m] /\ Z.land k (pm_mask m) = k) /\
  default_ok D.

Lemma trie_rep_frame s s' D : trie_rep s head D -> (forall x m, s !! x = Some m -> s' !! x = Some m) -> trie_rep s' head D.
Proof.
  intros (L & R & Hok & HD) H. assert (forall x, x ∈ nodes (whole head L R) -> s' !! x = s !! x) as Hs.
  { intros x Hx. destruct (node_alloc s head L R x Hok Hx) as [m Hm]. rewrite Hm. apply H, Hm. }
  exists L, R. split; [exact (trie_ok_frame s s' head L R Hok Hs)|exact (entries_frame s s' _ D HD Hs)].
Qed.

Lemma main_step_ok s D seen addr data : trie_rep s head D -> main_dict seen D -> inU 32 addr -> addr <> 2 ^ 31 ->
  okp (main_step dm head addr data s) (fun r => r.1 = bool_decide (addr ∈ seen) /\ exists D', trie_rep r.2 head D' /\ main_dict (addr :: seen) D').
Proof.
  intros Hrep (Hseen & Hone & Hdef) Ha H31. unfold main_step. set (p := fresh ({[0]} ∪ dom s)). set (pn := Ptree addr _ 0 0 0 0).
  assert (p ∉ {[0]} ∪ dom s) as Hp by apply is_fresh. assert (p <> 0 /\ s !! p = None) as [Hp0 Hps].
  { split; [set_solver|]. apply not_elem_of_dom. set_solver. }
  set (s1 := <[p := pn]> s).
  assert (trie_rep s1 head D) as Hrep1.
  { apply (trie_rep_frame s); [exact Hrep|]. intros x m Hx. unfold s1. rewrite lookup_insert_ne; [exact Hx|congruence]. }
  destruct (patricia_search_fact dm s1 head D addr Hrep1 Ha Hdef) as (r & n & m & Er & Hn & _ & _ & HDn & Hcov).
  rewrite Er. cbn [mbind res_bind]. rewrite (load_ok _ _ _ Hn). cbn [mbind res_bind].
  destruct (Z.eqb_spec (p_key n) addr) as [E|E].
  - cbn [mret res_ret okp fst snd]. rewrite E in HDn. assert (addr ∈ seen) as Hin by (apply Hseen; eauto).
    rewrite bool_decide_true by exact Hin. split; [reflexivity|]. exists D. split; [exact Hrep1|]. split; [|auto].
    intros k. rewrite elem_of_cons, <- Hseen. split; [intros [->|]; assumption|auto].
  - assert (D !! addr = None) as Hnone.
    { destruct (D !! addr) as [[ms len]|] eqn:ED; [|reflexivity]. exfalso. apply E. destruct (Hone addr ms len ED) as (m' & -> & Hl).
      apply (Hcov [m'] len eq_refl). exists m'. auto. }
    assert (addr ∉ seen) as Hnin by (rewrite Hseen, Hnone; intros [? ?]; discriminate). rewrite bool_decide_false by exact Hnin.
    assert (Z.land addr 0xffffffff = addr) as Hland.
    { change 0xffffffff with (Z.ones 32). rewrite Z.land_ones by lia. apply Z.mod_small. exact Ha. }
    pose proof (pat_insert_fact dm s head D p pn (PtreeMask 0xffffffff data) [] Hrep Hps Hp0 eq_refl Ha ltac:(by_eval)) as H.
    unfold insert_spec in H. cbn [pn p_m p_key pm_mask p_mlen] in H. rewrite Hland, Hnone, (proj2 (Z.eqb_neq _ _)) in H by exact H31.
    specialize (H ltac:(intros ms len E2; congruence)). cbn [mret res_ret] in H. fold pn s1 in H.
    eapply okp_bind; [exact H|]. intros [q s2] [Hrep2 _]. cbn [fst snd mret res_ret okp] in *. split; [reflexivity|].
    eexists. split; [exact Hrep2|]. split; [|split].
    + intros k. rewrite elem_of_cons, lookup_insert_is_Some, <- Hseen. destruct (decide (addr = k)); [subst; tauto|]. split; [intros [->|]; tauto|tauto].
    + intros k ms len Hk. apply lookup_insert_Some in Hk as [[<- Hk]|[_ Hk]]; [|exact (Hone k ms len Hk)].
      injection Hk as <- _. exists (PtreeMask 0xffffffff data). auto.
    + intros ms len Hk. apply lookup_insert_Some in Hk as [[E0 Hk]|[_ Hk]]; [|exact (Hdef ms len Hk)]. subst addr.
      exfalso. destruct Hrep as (L & R & Hok & HD). destruct (ok_key _ _ _ _ Hok) as (hn & Hhn & Hk0).
      assert (D !! 0 = Some (entry hn)) as E0 by (apply HD; exists head, hn; repeat split; auto; constructor). congruence.
Qed.

Lemma pat_main_loop_ok addrs : forall s D seen, trie_rep s head D -> main_dict seen D ->
  Forall (fun a => inU 32 a.1 /\ a.1 <> 2 ^ 31) addrs -> okp (main_loop dm head addrs s) (fun r => r.1 = seen_flags seen addrs.*1).
Proof.
  induction addrs as [|[a d] addrs IH]; intros s D seen Hrep Hd Ha; [reflexivity|]. cbn [main_loop].
  pose proof (Forall_inv Ha) as [Ha1 Ha2]. eapply okp_bind; [exact (main_step_ok s D seen a d Hrep Hd Ha1 Ha2)|].
  intros [b s'] (Hb & D' & Hrep' & Hd'). cbn [fst snd] in *.
  eapply okp_bind; [exact (IH s' D' (a :: seen) Hrep' Hd' (Forall_inv_tail Ha))|]. intros [bs s2] Hbs.
  cbn [fst snd mret res_ret okp fmap list_fmap seen_flags] in *. rewrite Hb, Hbs. reflexivity.
Qed.
End Main.

(** On every list of 32-bit addresses without 2^31 the main loop of patricia_test.c ends and
    reports as found exactly the addresses that are 0 or occurred earlier in the list. *)
Theorem patricia_main dm addrs : Forall (fun a => inU 32 a.1 /\ a.1 <> 2 ^ 31) addrs ->
  main dm addrs = Ok (seen_flags [0] addrs.*1).
Proof.
  intros Ha. assert (okp (main dm addrs) (fun bs => bs = seen_flags [0] addrs.*1)) as H.
  { unfold main. eapply okp_bind; [apply (pat_main_loop_ok dm 1 addrs (init_heap 1 0) (init_dict 0) [0])|].
    - apply init_trie. discriminate.
    - unfold init_dict. split; [|split].
      + intros k. rewrite list_elem_of_singleton, lookup_singleton_is_Some. split; congruence.
      + intros k ms len H. apply lookup_singleton_Some in H as [<- H]. injection H as <- _. exists (PtreeMask 0 0). auto.
      + intros ms len H. apply lookup_singleton_Some in H as [_ H]. injection H as <- _. eauto.
    - exact Ha.
    - intros [bs s] Hbs. exact Hbs. }
  apply okp_ok in H as (bs & E & ->). exact E.
Qed.

Lemma patricia_main_witness : let addrs := [(0xc0a80001, 1); (0x0a000001, 2); (0xc0a80001, 3)] in
  Forall (fun a => inU 32 a.1 /\ a.1 <> 2 ^ 31) addrs /\ main LP64 addrs = Ok (seen_flags [0] addrs.*1).
Proof.
  intros addrs. assert (Forall (fun a => inU 32 a.1 /\ a.1 <> 2 ^ 31) addrs) as H by by_eval.
  split; [exact H|]. exact (patricia_main LP64 addrs H).
Defined.

(** ** What the trie does not do *)

(** The longest prefix is not always found: with the routes 10.0.0.0/8, 10.1.0.0/16 and 10.2.0.0/16,
    the search for 10.3.0.0 returns the first route or the head, according to the order of insertion. *)
Definition route (key mask : Z) : ptree := Ptree key [PtreeMask mask 0] 1 0 0 0.
Fixpoint add_routes (dm : data_model) (n : loc) (routes : list ptree) (s : heap) : res heap :=
  match routes with
  | [] => mret s
  | r :: routes => '(_, s) ← pat_insert dm (<[n := r]> s) n 1; add_routes dm (n + 1) routes s
  end.
Definition lookup_route (dm : data_model) (routes : list ptree) (key : Z) : res Z :=
  s ← add_routes dm 2 routes (init_heap 1 0); r ← pat_search dm s key 1; n ← load s r; mret (p_key n).

(** The longest matching prefix is not always found: with routes to 10.0.0.0/8, 10.1.0.0/16
    and 10.2.0.0/16 the answer for 10.3.0.0 depends on the order of insertion, and can be the
    default entry. *)
Theorem longest_prefix_missed dm : let r8 := route 0x0a000000 0xff000000 in
  let r16 := [route 0x0a010000 0xffff0000; route 0x0a020000 0xffff0000] in
  lookup_route dm (r8 :: r16) 0x0a030000 = Ok 0x0a000000 /\ lookup_route dm (r16 ++ [r8]) 0x0a030000 = Ok 0.
Proof. destruct dm; split; vm_compute; reflexivity. Qed.
