(* ===== verification/PatriciaRemove.v ===== *)
(** Removal from the Patricia trie of Patricia.v: pat_remove implements the removal from the finite
    map from keys to masks that PatriciaDict.v describes. *)
From stdpp Require Import base list numbers option tactics gmap sorting.
From Stdlib Require Import ZArith Lia.
From S2P Require Import Prelude Patricia PatriciaTrie PatriciaInsert PatriciaDict.

(** ** Removal from the abstract trie *)

Section Pure.
Implicit Types (t l r c : trie) (x y p g : loc) (pb b key k : Z) (u : loc * Z).

(** The parent of the leaf of a key, its grandparent, the trie with another location at that leaf, and
    the trie without the leaf and its parent. *)
Fixpoint par (t : trie) (key : Z) : loc :=
  match t with
  | Leaf x _ => x
  | Node x b l r => if is_node (if kbit b key then r else l) then par (if kbit b key then r else l) key else x
  end.
Fixpoint gpar (g : loc) (t : trie) (key : Z) : loc :=
  match t with
  | Leaf _ _ => g
  | Node x b l r => if is_node (if kbit b key then r else l) then gpar x (if kbit b key then r else l) key else g
  end.
Fixpoint setleaf (t : trie) (key : Z) (y : loc) : trie :=
  match t with
  | Leaf x k => Leaf y k
  | Node x b l r => if kbit b key then Node x b l (setleaf r key y) else Node x b (setleaf l key y) r
  end.
Fixpoint del (t : trie) (key : Z) : trie :=
  match t with
  | Leaf x k => Leaf x k
  | Node x b l r =>
      if is_node (if kbit b key then r else l) then if kbit b key then Node x b l (del r key) else Node x b (del l key) r
      else if kbit b key then l else r
  end.

Lemma is_node_setleaf t key y : is_node (setleaf t key y) = is_node t.
Proof. destruct t as [x k|x b l r]; [reflexivity|]. cbn [setleaf]. destruct (kbit b key); reflexivity. Qed.

Lemma nodes_setleaf t key y : nodes (setleaf t key y) = nodes t.
Proof. induction t as [x k|x b l IHl r IHr]; [reflexivity|]. cbn [setleaf]. destruct (kbit b key); cbn [nodes]; congruence. Qed.

Lemma pathn_setleaf t key y key' : pathn (setleaf t key y) key' = pathn t key'.
Proof.
  induction t as [x k|x b l IHl r IHr]; [reflexivity|]. cbn [setleaf]. destruct (kbit b key); cbn [pathn]; destruct (kbit b key'); congruence.
Qed.

Lemma par_setleaf t key y key' : is_node t = true -> par (setleaf t key y) key' = par t key'.
Proof.
  induction t as [x k|x b l IHl r IHr]; [discriminate|]. intros _. cbn [setleaf].
  destruct (kbit b key); cbn [par]; destruct (kbit b key'); rewrite ?is_node_setleaf; try reflexivity;
    match goal with |- context [is_node ?c] => destruct (is_node c) eqn:E end; auto.
Qed.

Lemma gpar_setleaf t key y key' g : gpar g (setleaf t key y) key' = gpar g t key'.
Proof.
  revert g. induction t as [x k|x b l IHl r IHr]; intros g; [reflexivity|]. cbn [setleaf].
  destruct (kbit b key); cbn [gpar]; destruct (kbit b key'); rewrite ?is_node_setleaf, ?IHl, ?IHr; reflexivity.
Qed.

Lemma setleaf_id t key k y : walk t key = (y, k) -> setleaf t key y = t.
Proof.
  induction t as [x k0|x b l IHl r IHr]; cbn [walk setleaf]; [congruence|]. destruct (kbit b key); intros H; rewrite ?IHl, ?IHr by exact H; reflexivity.
Qed.

Lemma leaves_setleaf t key y x k : walk t key = (x, k) -> exists rest, leaves t ≡ₚ (x, k) :: rest /\ leaves (setleaf t key y) ≡ₚ (y, k) :: rest.
Proof.
  induction t as [x' k'|x' b l IHl r IHr]; cbn [walk setleaf].
  - intros H. injection H as -> ->. exists []. auto.
  - destruct (kbit b key); intros H.
    + destruct (IHr H) as (rest & H1 & H2). exists (leaves l ++ rest). cbn [leaves]. rewrite H1, H2. split; symmetry; apply Permutation_middle.
    + destruct (IHl H) as (rest & H1 & H2). exists (rest ++ leaves r). cbn [leaves]. rewrite H1, H2. split; reflexivity.
Qed.

Lemma walk_setleaf_ne t key key' y : walk t key' <> walk t key -> walk (setleaf t key y) key' = walk t key'.
Proof.
  induction t as [x k|x b l IHl r IHr]; cbn [walk setleaf]; [congruence|].
  destruct (kbit b key); cbn [walk]; destruct (kbit b key'); auto.
Qed.

Lemma leaves_del t key : is_node t = true -> leaves t ≡ₚ walk t key :: leaves (del t key).
Proof.
  induction t as [x k|x b l IHl r IHr]; [discriminate|]. intros _. cbn [walk del leaves].
  destruct (kbit b key).
  - destruct r as [y k|y b' l' r']; cbn [is_node leaves walk]; [symmetry; apply Permutation_cons_append|].
    change (leaves l ++ leaves (Node y b' l' r') ≡ₚ walk (Node y b' l' r') key :: leaves l ++ leaves (del (Node y b' l' r') key)).
    rewrite IHr by reflexivity. symmetry. apply Permutation_middle.
  - destruct l as [y k|y b' l' r']; cbn [is_node leaves walk]; [reflexivity|].
    change (leaves (Node y b' l' r') ++ leaves r ≡ₚ walk (Node y b' l' r') key :: leaves (del (Node y b' l' r') key) ++ leaves r).
    rewrite IHl by reflexivity. reflexivity.
Qed.

Lemma nodes_del t key : is_node t = true -> nodes t ≡ₚ par t key :: nodes (del t key).
Proof.
  induction t as [x k|x b l IHl r IHr]; [discriminate|]. intros _. cbn [par del nodes].
  destruct (kbit b key).
  - destruct r as [y k|y b' l' r'] eqn:E; cbn [is_node]; [cbn [nodes]; rewrite app_nil_r; reflexivity|]. rewrite <- E in *.
    cbn [nodes]. rewrite IHr by (rewrite E; reflexivity). rewrite <- Permutation_middle. apply Permutation_swap.
  - destruct l as [y k|y b' l' r'] eqn:E; cbn [is_node]; [cbn [nodes app]; reflexivity|]. rewrite <- E in *.
    cbn [nodes]. rewrite IHl by (rewrite E; reflexivity). cbn [app]. apply Permutation_swap.
Qed.

Lemma par_pathn t key : is_node t = true -> par t key ∈ pathn t key.
Proof.
  induction t as [x k|x b l IHl r IHr]; [discriminate|]. intros _. cbn [par pathn].
  destruct (is_node (if kbit b key then r else l)) eqn:E; [|constructor]. apply elem_of_cons. right. revert E. destruct (kbit b key); auto.
Qed.

Lemma pathn_del t key key' x : is_node t = true -> x ∈ pathn t key' -> x <> par t key -> x ∈ pathn (del t key) key'.
Proof.
  induction t as [y k|y b l IHl r IHr]; [discriminate|]. intros _. cbn [pathn par del]. rewrite elem_of_cons.
  destruct (kbit b key).
  - destruct (is_node r) eqn:E; cbn [pathn].
    + rewrite elem_of_cons. destruct (kbit b key'); [intros [->|H] Hne; auto|tauto].
    + intros [->|H] Hne; [contradiction|]. destruct (kbit b key'); [destruct r; [set_solver|discriminate]|exact H].
  - destruct (is_node l) eqn:E; cbn [pathn].
    + rewrite elem_of_cons. destruct (kbit b key'); [tauto|intros [->|H] Hne; auto].
    + intros [->|H] Hne; [contradiction|]. destruct (kbit b key'); [exact H|destruct l; [set_solver|discriminate]].
Qed.

Lemma gpar_nodes t key g : g ∈ nodes t -> gpar g t key ∈ nodes t.
Proof.
  revert g. induction t as [y k|y b l IHl r IHr]; [auto|]. intros g Hg. cbn [gpar].
  destruct (is_node (if kbit b key then r else l)) eqn:E; [|exact Hg].
  destruct (if kbit b key then r else l) as [|y' b' l' r'] eqn:Ec; [discriminate|].
  cbn [gpar]. destruct (is_node (if kbit b' key then r' else l')) eqn:E'; [|constructor].
  cbn [nodes]. apply elem_of_cons. right. apply elem_of_app.
  assert (gpar y' (Node y' b' l' r') key ∈ nodes (Node y' b' l' r')) as H by (destruct (kbit b key); subst; [apply IHr|apply IHl]; constructor).
  cbn [gpar] in H. rewrite E' in H. rewrite <- Ec in H. destruct (kbit b key); auto.
Qed.

(** All nodes on the way of a key lie on the way of every key that passes the last of them. *)
Lemma pathn_par t k1 k2 x : NoDup (nodes t) -> par t k1 ∈ pathn t k2 -> x ∈ pathn t k1 -> x ∈ pathn t k2.
Proof.
  induction t as [y k|y b l IHl r IHr]; cbn [nodes par pathn]; [set_solver|]. intros Hnd Hp Hx.
  apply NoDup_cons in Hnd as [Hy Hnd]. apply NoDup_app in Hnd as (Nl & Hdisj & Nr).
  apply elem_of_cons in Hx as [->|Hx]; [constructor|]. apply elem_of_cons. right.
  destruct (is_node (if kbit b k1 then r else l)) eqn:E; [|destruct (kbit b k1), l, r; cbn [is_node pathn] in *; try discriminate; set_solver].
  assert (par (if kbit b k1 then r else l) k1 ∈ nodes (if kbit b k1 then r else l)) as Hpn by apply pathn_nodes with k1, par_pathn, E.
  apply elem_of_cons in Hp as [Hp|Hp]; [exfalso; rewrite Hp in Hpn; destruct (kbit b k1); set_solver|].
  assert (kbit b k1 = kbit b k2) as Eb.
  { apply pathn_nodes in Hp. destruct (kbit b k1), (kbit b k2); try reflexivity; exfalso; eapply Hdisj; eassumption. }
  rewrite <- Eb in *. destruct (kbit b k1); auto.
Qed.

Lemma leaves_setleaf_key t key y u : u ∈ leaves (setleaf t key y) -> exists u', u' ∈ leaves t /\ u'.2 = u.2.
Proof.
  induction t as [x k|x b l IHl r IHr]; cbn [setleaf].
  - intros H. apply list_elem_of_singleton in H as ->. exists (x, k). split; [constructor|reflexivity].
  - destruct (kbit b key); cbn [leaves]; rewrite elem_of_app; intros [H|H].
    + exists u. rewrite elem_of_app. auto.
    + destruct (IHr H) as (u' & Hu & E). exists u'. rewrite elem_of_app. auto.
    + destruct (IHl H) as (u' & Hu & E). exists u'. rewrite elem_of_app. auto.
    + exists u. rewrite elem_of_app. auto.
Qed.

Lemma wf_setleaf t key y : forall pb, wf pb t -> wf pb (setleaf t key y).
Proof.
  induction t as [x k|x b l IHl r IHr]; intros pb; [auto|]. cbn [wf setleaf]. intros (Hb & Hl & Hr & Fl & Fr & Hag).
  assert (forall t' u, u ∈ leaves (setleaf t' key y) -> forall P : Z -> Prop, (forall v, v ∈ leaves t' -> P v.2) -> P u.2) as Hkey.
  { intros t' u Hu P HP. destruct (leaves_setleaf_key t' key y u Hu) as (u' & Hu' & <-). apply HP, Hu'. }
  assert (forall t', (t' = l \/ t' = r) -> forall u v, u ∈ leaves (setleaf t' key y) ++ leaves l ++ leaves r ->
    v ∈ leaves (setleaf t' key y) ++ leaves l ++ leaves r -> agree b u.2 v.2) as Hag'.
  { intros t' Ht u v Hu Hv.
    assert (forall w, w ∈ leaves (setleaf t' key y) ++ leaves l ++ leaves r -> exists w', w' ∈ leaves l ++ leaves r /\ w'.2 = w.2) as Hw.
    { intros w Hw. apply elem_of_app in Hw as [Hw|Hw]; [|eauto]. destruct (leaves_setleaf_key t' key y w Hw) as (w' & Hw' & E).
      exists w'. split; [|exact E]. apply elem_of_app. destruct Ht as [-> | ->]; auto. }
    destruct (Hw u Hu) as (u' & Hu' & <-), (Hw v Hv) as (v' & Hv' & <-). auto. }
  destruct (kbit b key); cbn [wf]; (split; [exact Hb|]).
  - split; [exact Hl|]. split; [apply IHr, Hr|]. split; [exact Fl|]. split.
    + apply Forall_forall. intros u Hu. apply (Hkey r u Hu (fun k => kbit b k = true \/ (b = 0 /\ k = 0))).
      intros v Hv. exact (proj1 (Forall_forall _ _) Fr v Hv).
    + intros u v Hu Hv. apply (Hag' r); [auto| |]; set_solver.
  - split; [apply IHl, Hl|]. split; [exact Hr|]. split; [|split; [exact Fr|]].
    + apply Forall_forall. intros u Hu. apply (Hkey l u Hu (fun k => kbit b k = false)). intros v Hv. exact (proj1 (Forall_forall _ _) Fl v Hv).
    + intros u v Hu Hv. apply (Hag' l); [auto| |]; set_solver.
Qed.

Lemma leaves_del_in t key u : u ∈ leaves (del t key) -> u ∈ leaves t.
Proof. destruct t as [x k|x b l r]; [auto|]. intros H. rewrite (leaves_del (Node x b l r) key eq_refl). apply elem_of_cons. auto. Qed.

Lemma wf_del t key : forall pb, wf pb t -> wf pb (del t key).
Proof.
  induction t as [x k|x b l IHl r IHr]; intros pb; [auto|]. cbn [wf del]. intros (Hb & Hl & Hr & Fl & Fr & Hag).
  destruct (is_node (if kbit b key then r else l)); [|destruct (kbit b key); [apply (wf_mono b); [lia|exact Hl]|apply (wf_mono b); [lia|exact Hr]]].
  destruct (kbit b key); cbn [wf]; (split; [exact Hb|]).
  - split; [exact Hl|]. split; [apply IHr, Hr|]. split; [exact Fl|]. split.
    + apply Forall_forall. intros u Hu. exact (proj1 (Forall_forall _ _) Fr u (leaves_del_in r key u Hu)).
    + intros u v Hu Hv. apply Hag; apply elem_of_app; [apply elem_of_app in Hu as [Hu|Hu]|apply elem_of_app in Hv as [Hv|Hv]]; eauto using leaves_del_in.
  - split; [apply IHl, Hl|]. split; [exact Hr|]. split; [|split; [exact Fr|]].
    + apply Forall_forall. intros u Hu. exact (proj1 (Forall_forall _ _) Fl u (leaves_del_in l key u Hu)).
    + intros u v Hu Hv. apply Hag; apply elem_of_app; [apply elem_of_app in Hu as [Hu|Hu]|apply elem_of_app in Hv as [Hv|Hv]]; eauto using leaves_del_in.
Qed.
End Pure.

(** ** Links in the heap *)

(** The part of [repr] that speaks of the links and of the bits of the nodes. *)
Fixpoint links (s : heap) (t : trie) : Prop :=
  match t with
  | Leaf _ _ => True
  | Node x b l r => exists n, s !! x = Some n /\ p_b n = b /\ p_left n = root l /\ p_right n = root r /\ links s l /\ links s r
  end.
Definition wires (m : ptree) : Z * loc * loc := (p_b m, p_left m, p_right m).

Section Links.
Implicit Types (s : heap) (t l r : trie) (x y : loc) (pb b key : Z) (u : loc * Z).

Lemma repr_links s t : forall pb, repr s pb t -> links s t.
Proof.
  induction t as [x k|x b l IHl r IHr]; intros pb; cbn [repr links]; [auto|].
  intros (n & H1 & H2 & H3 & H4 & H5 & H6). exists n. repeat split; eauto.
Qed.

Lemma links_frame s s' t : links s t -> (forall x, x ∈ nodes t -> wires <$> s' !! x = wires <$> s !! x) -> links s' t.
Proof.
  induction t as [x k|x b l IHl r IHr]; cbn [links nodes]; [auto|].
  intros (n & H1 & H2 & H3 & H4 & H5 & H6) H. pose proof (H x ltac:(constructor)) as E. rewrite H1 in E.
  destruct (s' !! x) as [n'|]; [|discriminate]. cbn in E. injection E as E1 E2 E3.
  exists n'. repeat split; try congruence; [apply IHl|apply IHr]; try assumption; intros y Hy; apply H; set_solver.
Qed.

(** The representation, from the links and the leaves. *)
Lemma links_repr s t : forall pb, links s t -> wf pb t -> 0 <= pb ->
  (forall u, u ∈ leaves t -> exists n, s !! u.1 = Some n /\ p_key n = u.2 /\ 0 <= p_b n /\ (p_b n <= pb \/ u.1 ∈ pathn t u.2)) -> repr s pb t.
Proof.
  induction t as [x k|x b l IHl r IHr]; intros pb; cbn [links wf repr leaves].
  - intros _ _ _ H. destruct (H (x, k) ltac:(constructor)) as (n & Hn & Hk & Hb & [Hp|Hp]); cbn [fst snd pathn] in *; [|set_solver].
    exists n. repeat split; auto.
  - intros (n & Hn & Hb & El & Er & Ll & Lr) (Hb31 & Wl & Wr & Fl & Fr & _) Hpb H.
    assert (forall c u, u ∈ leaves c -> u ∈ leaves l ++ leaves r -> c = (if kbit b u.2 then r else l) ->
      exists n, s !! u.1 = Some n /\ p_key n = u.2 /\ 0 <= p_b n /\ (p_b n <= b \/ u.1 ∈ pathn c u.2)) as Hc.
    { intros c u _ Hu Ec. destruct (H u Hu) as (m & Hm & Hk & Hm0 & Hor). exists m. repeat split; auto.
      destruct Hor as [Hle|Hin]; [left; lia|]. cbn [pathn] in Hin. apply elem_of_cons in Hin as [Ex|Hin]; [|right; rewrite Ec; exact Hin].
      left. rewrite Ex in Hm. assert (m = n) as -> by congruence. lia. }
    exists n. repeat split; auto.
    + apply IHl; [exact Ll|exact Wl|lia|]. intros u Hu. apply Hc; [exact Hu|apply elem_of_app; auto|].
      rewrite (proj1 (Forall_forall _ _) Fl u Hu). reflexivity.
    + apply IHr; [exact Lr|exact Wr|lia|]. intros u Hu. apply Hc; [exact Hu|apply elem_of_app; auto|].
      destruct (proj1 (Forall_forall _ _) Fr u Hu) as [E|[E _]]; [rewrite E; reflexivity|lia].
Qed.

Lemma root_setleaf_node t key y : root (setleaf t key y) = if is_node t then root t else y.
Proof. destruct t as [x k|x b l r]; [reflexivity|]. cbn [setleaf]. destruct (kbit b key); reflexivity. Qed.

(** A change inside one child, and a change of the link to one child. *)
Lemma links_child s s' x b l r (dir : bool) c' : links s (Node x b l r) -> NoDup (nodes (Node x b l r)) ->
  links s' c' -> root c' = root (if dir then r else l) -> (forall z, z ∉ nodes (if dir then r else l) -> s' !! z = s !! z) ->
  links s' (if dir then Node x b l c' else Node x b c' r).
Proof.
  intros (n & Hn & Hb & El & Er & Ll & Lr) Hnd Lc Ec Hs. cbn [nodes] in Hnd. apply NoDup_cons in Hnd as [Hx Hnd]. apply NoDup_app in Hnd as (_ & Hdisj & _).
  assert (forall t', (forall z, z ∈ nodes t' -> z ∉ nodes (if dir then r else l)) -> links s t' -> links s' t') as Hframe.
  { intros t' Ht' Hl'. apply (links_frame s); [exact Hl'|]. intros z Hz. rewrite Hs by auto. reflexivity. }
  assert (s' !! x = Some n) as Hn' by (rewrite Hs; [exact Hn|destruct dir; set_solver]).
  destruct dir; exists n; (split; [exact Hn'|]); (split; [exact Hb|]).
  - split; [exact El|]. split; [congruence|]. split; [|exact Lc]. apply Hframe; [|exact Ll]. intros z H1 H2. exact (Hdisj z H1 H2).
  - split; [congruence|]. split; [exact Er|]. split; [exact Lc|]. apply Hframe; [|exact Lr]. intros z H1 H2. exact (Hdisj z H2 H1).
Qed.

Lemma links_relink s x b l r (dir : bool) c' n : links s (Node x b l r) -> NoDup (nodes (Node x b l r)) -> s !! x = Some n ->
  links s c' -> x ∉ nodes c' -> links (<[x := set_child dir n (root c')]> s) (if dir then Node x b l c' else Node x b c' r).
Proof.
  intros (n' & Hn' & Hb & El & Er & Ll & Lr) Hnd Hn Lc Hxc. assert (n' = n) as -> by congruence.
  cbn [nodes] in Hnd. apply NoDup_cons in Hnd as [Hx _]. set (s' := <[x := _]> s).
  assert (forall t', x ∉ nodes t' -> links s t' -> links s' t') as Hframe.
  { intros t' Ht' Hl'. apply (links_frame s); [exact Hl'|]. intros z Hz. unfold s'. rewrite lookup_insert_ne by congruence. reflexivity. }
  assert (s' !! x = Some (set_child dir n (root c'))) as Hx' by apply lookup_insert_eq. clearbody s'.
  destruct dir; eexists; (split; [exact Hx'|]); cbn [set_child set_left set_right p_b p_left p_right]; (split; [exact Hb|]).
  - split; [exact El|]. split; [reflexivity|]. split; apply Hframe; auto. set_solver.
  - split; [reflexivity|]. split; [exact Er|]. split; apply Hframe; auto. set_solver.
Qed.

(** Another target for the link to the leaf of a key. *)
Lemma setleaf_links s t key y q : is_node t = true -> links s t -> NoDup (nodes t) -> s !! par t key = Some q ->
  links (<[par t key := set_child (kbit (p_b q) key) q y]> s) (setleaf t key y).
Proof.
  induction t as [x k|x b l IHl r IHr]; [discriminate|]. intros _ Hlinks Hnd Hq. pose proof Hlinks as (n & Hn & Hb & _ & _ & Ll & Lr).
  pose proof Hnd as Hnd0. cbn [nodes] in Hnd0. apply NoDup_cons in Hnd0 as [Hx Hnd0]. apply NoDup_app in Hnd0 as (Nl & _ & Nr).
  change (setleaf (Node x b l r) key y) with
    (if kbit b key then Node x b l (setleaf r key y) else Node x b (setleaf l key y) r).
  cbn [par] in Hq |- *. destruct (is_node (if kbit b key then r else l)) eqn:Ec.
  - assert (par (if kbit b key then r else l) key ∈ nodes (if kbit b key then r else l)) as Hpc by apply pathn_nodes with key, par_pathn, Ec.
    set (s' := <[_ := _]> s). assert (links s' (setleaf (if kbit b key then r else l) key y)) as Lc.
    { unfold s'. destruct (kbit b key); [apply IHr|apply IHl]; assumption. }
    pose proof (links_child s s' x b l r (kbit b key) _ Hlinks Hnd Lc ltac:(rewrite root_setleaf_node, Ec; reflexivity)) as H.
    destruct (kbit b key); apply H; intros z Hz; unfold s'; rewrite lookup_insert_ne; congruence.
  - assert (q = n) as -> by congruence. rewrite Hb.
    pose proof (links_relink s x b l r (kbit b key) (setleaf (if kbit b key then r else l) key y) n Hlinks Hnd Hn) as H.
    rewrite root_setleaf_node, Ec, nodes_setleaf in H.
    assert (links s (setleaf (if kbit b key then r else l) key y)) as Lc by (destruct (if kbit b key then r else l); [exact I|discriminate]).
    specialize (H Lc). destruct (kbit b key); apply H; set_solver.
Qed.

(** The grandparent's link past the parent. *)
Lemma del_links s t key g pn gn x b l r : t = Node x b l r -> is_node (if kbit b key then r else l) = true -> links s t -> NoDup (nodes t) ->
  s !! par t key = Some pn -> s !! gpar g t key = Some gn ->
  links (<[gpar g t key := set_child (kbit (p_b gn) key) gn (child (negb (kbit (p_b pn) key)) pn)]> s) (del t key) /\ gpar g t key ∈ nodes t.
Proof.
  revert x b l r g. induction t as [|x b l IHl r IHr]; [discriminate|]. intros ? ? ? ? g E Hc Hlinks Hnd Hp Hg.
  injection E as <- <- <- <-. pose proof Hlinks as (n & Hn & Hb & _ & _ & Ll & Lr).
  pose proof Hnd as Hnd0. cbn [nodes] in Hnd0. apply NoDup_cons in Hnd0 as [Hx Hnd0]. apply NoDup_app in Hnd0 as (Nl & _ & Nr).
  cbn [par gpar del] in Hp, Hg |- *. rewrite Hc in Hp, Hg |- *.
  assert (links s (if kbit b key then r else l)) as Lc by (destruct (kbit b key); assumption).
  assert (NoDup (nodes (if kbit b key then r else l))) as Nc by (destruct (kbit b key); assumption).
  assert (forall x2 b2 l2 r2, (if kbit b key then r else l) = Node x2 b2 l2 r2 -> is_node (if kbit b2 key then r2 else l2) = true ->
    links (<[gpar x (if kbit b key then r else l) key := set_child (kbit (p_b gn) key) gn (child (negb (kbit (p_b pn) key)) pn)]> s)
      (del (if kbit b key then r else l) key) /\ gpar x (if kbit b key then r else l) key ∈ nodes (if kbit b key then r else l)) as IH.
  { intros x2 b2 l2 r2 E2 Ec2. destruct (kbit b key); [eapply IHr|eapply IHl]; eauto. }
  clear IHl IHr. destruct (if kbit b key then r else l) as [|x2 b2 l2 r2] eqn:E2; [discriminate|].
  destruct (is_node (if kbit b2 key then r2 else l2)) eqn:Ec2.
  - specialize (IH x2 b2 l2 r2 eq_refl Ec2). cbv beta in IH.
    set (s' := <[_ := _]> s) in *. destruct IH as [Ld Hgn].
    pose proof (links_child s s' x b l r (kbit b key) (del (Node x2 b2 l2 r2) key) Hlinks Hnd Ld) as H. rewrite E2 in H.
    assert (root (del (Node x2 b2 l2 r2) key) = x2) as Er2 by (cbn [del]; rewrite Ec2; destruct (kbit b2 key); reflexivity).
    specialize (H Er2). assert (forall z, z ∉ nodes (Node x2 b2 l2 r2) -> s' !! z = s !! z) as Hs.
    { intros z Hz. unfold s'. rewrite lookup_insert_ne; [reflexivity|]. congruence. }
    split; [|cbn [nodes]; rewrite <- E2 in Hgn; destruct (kbit b key); set_solver].
    specialize (H Hs). destruct (kbit b key); rewrite E2; exact H.
  - cbn [gpar par] in Hp, Hg |- *. rewrite Ec2 in Hp, Hg |- *. assert (gn = n) as -> by congruence. rewrite Hb.
    destruct Lc as (n2 & Hn2 & Hb2 & El2 & Er2 & Ll2 & Lr2). assert (n2 = pn) as -> by congruence. rewrite Hb2.
    set (o := if kbit b2 key then l2 else r2). assert (child (negb (kbit b2 key)) pn = root o) as -> by (unfold o, child; destruct (kbit b2 key); assumption).
    assert (del (Node x2 b2 l2 r2) key = o) as Ed by (cbn [del]; rewrite Ec2; reflexivity).
    pose proof (links_relink s x b l r (kbit b key) o n Hlinks Hnd Hn ltac:(unfold o; destruct (kbit b2 key); assumption)) as H.
    assert (x ∉ nodes o) as Hxo.
    { intros Hxo. apply Hx. assert (x ∈ nodes (Node x2 b2 l2 r2)) as Hx2 by (cbn [nodes]; unfold o in Hxo; destruct (kbit b2 key); set_solver).
      rewrite <- E2 in Hx2. destruct (kbit b key); set_solver. }
    specialize (H Hxo). split; [|cbn [nodes]; constructor]. destruct (kbit b key); rewrite E2, Ed; exact H.
Qed.
End Links.

(** ** The loops of [pat_remove] *)

Section Loops.
Context (dm : data_model) (s : heap) (key : Z) (Hkey : inU 32 key).
Implicit Types (t l r : trie) (pb b : Z) (x p : loc).

Lemma remove_loop_ok fuel : forall pb x b l r p, repr s pb (Node x b l r) -> wf pb (Node x b l r) -> 0 <= b -> 31 - b < Z.of_nat fuel ->
  remove_loop dm fuel s p x key = Ok (gpar p (Node x b l r) key, par (Node x b l r) key, (walk (Node x b l r) key).1).
Proof.
  induction fuel as [|fuel IH]; intros pb x b l r p Hr Hw Hb Hf; [cbn [wf] in Hw; lia|]. cbn [remove_loop walk par gpar].
  pose proof Hw as (Hb31 & Wl & Wr & _). destruct (go_down_ok dm s key Hkey pb x b l r Hr ltac:(lia) Wl Wr) as (b' & Eg & Eb).
  rewrite Eg. cbn [mbind res_bind]. rewrite Eb.
  destruct Hr as (n & _ & _ & _ & _ & Rl & Rr).
  destruct (if kbit b key then r else l) as [y k|y b2 l2 r2] eqn:E; cbn [is_node root]; [reflexivity|].
  assert (repr s b (Node y b2 l2 r2)) as R2 by (rewrite <- E; destruct (kbit b key); assumption).
  assert (wf b (Node y b2 l2 r2)) as W2 by (rewrite <- E; destruct (kbit b key); assumption).
  pose proof W2 as (Hb2 & _). apply (IH b); [exact R2|exact W2|lia|lia].
Qed.

(** The subtree of a node on the way has the same parent of the leaf. *)
Lemma subtree_ok t : forall pb x, repr s pb t -> wf pb t -> -1 <= pb -> x ∈ pathn t key ->
  exists pb' b l r, repr s pb' (Node x b l r) /\ wf pb' (Node x b l r) /\ 0 <= b /\ par (Node x b l r) key = par t key.
Proof.
  induction t as [y k|y b l IHl r IHr]; intros pb x Hr Hw Hpb Hx; [set_solver|].
  cbn [pathn] in Hx. apply elem_of_cons in Hx as [->|Hx].
  - exists pb, b, l, r. split; [exact Hr|]. split; [exact Hw|]. split; [destruct Hw; lia|reflexivity].
  - pose proof Hw as (Hb & Wl & Wr & _). destruct Hr as (n & _ & _ & _ & _ & Rl & Rr).
    assert (is_node (if kbit b key then r else l) = true) as E by (destruct (if kbit b key then r else l); [set_solver|reflexivity]).
    cbn [par]. rewrite E. destruct (kbit b key); [apply (IHr b)|apply (IHl b)]; auto; lia.
Qed.
End Loops.

(** The bits that the nodes test. *)
Lemma node_bits s head L R x : trie_ok s head L R -> x ∈ nodes (whole head L R) -> exists m, s !! x = Some m /\ 0 <= p_b m <= 31 /\ (x = head -> p_b m = 0).
Proof.
  intros Hok Hx. assert (forall pb t, -1 <= pb -> wf pb t -> repr s pb t -> x ∈ nodes t -> exists m, s !! x = Some m /\ 0 <= p_b m <= 31) as H.
  { intros pb t. revert pb. induction t as [z k0|z b l IHl r IHr]; intros pb Hpb; cbn [wf repr nodes]; [set_solver|].
    intros (Hb & Wl & Wr & _) (m & Hm & Eb & _ & _ & Rl & Rr) H. apply elem_of_cons in H as [->|H]; [exists m; split; [exact Hm|lia]|].
    apply elem_of_app in H as [H|H]; [apply (IHl b)|apply (IHr b)]; auto; lia. }
  destruct (H (-1) (whole head L R) ltac:(lia) (ok_wf _ _ _ _ Hok) (ok_repr _ _ _ _ Hok) Hx) as (m & Hm & H0). exists m. split; [exact Hm|]. split; [exact H0|].
  intros ->. exact (whole_bit s head L R Hok m Hm).
Qed.

Lemma node_bit_pos s head L R x m : trie_ok s head L R -> x ∈ nodes (whole head L R) -> s !! x = Some m -> x <> head -> p_b m <> 0.
Proof.
  intros Hok Hx Hm Hne. assert (forall pb t, 0 <= pb -> wf pb t -> repr s pb t -> x ∈ nodes t -> 0 < p_b m) as H.
  { intros pb t. revert pb. induction t as [z k0|z b l IHl r IHr]; intros pb Hpb; cbn [wf repr nodes]; [set_solver|].
    intros (Hb & Wl & Wr & _) (m' & Hm' & Eb & _ & _ & Rl & Rr) H. apply elem_of_cons in H as [->|H]; [assert (m' = m) as -> by congruence; lia|].
    apply elem_of_app in H as [H|H]; [apply (IHl b)|apply (IHr b)]; auto; lia. }
  cbn [whole nodes] in Hx. apply elem_of_cons in Hx as [->|Hx]; [contradiction|].
  pose proof (ok_wf _ _ _ _ Hok) as (_ & Wl & Wr & _). destruct (ok_repr _ _ _ _ Hok) as (hn & _ & _ & _ & _ & Rl & Rr).
  apply elem_of_app in Hx as [Hx|Hx]; [pose proof (H 0 L)|pose proof (H 0 R)]; intros E; specialize (H0 ltac:(lia)); intuition lia.
Qed.

(** ** Removal of a key *)

Section RemoveKey.
Context (s : heap) (head : loc) (L R : trie) (D : dict).
Context (Hok : trie_ok s head L R) (HD : entries s (nodes (whole head L R)) D).
Context (y : loc) (tn : ptree) (Hy : s !! y = Some tn) (HyT : y ∈ nodes (whole head L R)) (Hyh : y <> head).
Local Abbreviation k := (p_key tn).
Local Abbreviation T := (whole head L R).
Local Abbreviation p := (par T k).
Context (pn : ptree) (Hp : s !! p = Some pn).
Local Abbreviation kp := (p_key pn).
Local Abbreviation T1 := (setleaf T kp y).
Local Abbreviation T2 := (del T1 k).
Implicit Types (x z : loc) (n : ptree) (u : loc * Z).

Lemma rk_walk : walk T k = (y, k) /\ inU 32 k.
Proof. destruct (walk_node s head L R Hok y tn HyT Hy). auto. Qed.

Local Abbreviation side := (if kbit 0 k then R else L).

Lemma rk_side : is_node side = true /\ walk side k = (y, k).
Proof.
  pose proof rk_walk as [Hw _]. cbn [whole walk] in Hw. split; [|exact Hw].
  destruct side as [x k'|] eqn:E; [|reflexivity]. exfalso. apply Hyh. cbn [walk] in Hw. injection Hw as -> _.
  pose proof (ok_left _ _ _ _ Hok) as HL. pose proof (ok_right _ _ _ _ Hok) as HR.
  destruct (kbit 0 k); [rewrite E in HR|rewrite E in HL]; cbn in *; [apply Permutation_length_1_inv in HR|apply Permutation_length_1_inv in HL]; congruence.
Qed.

Lemma rk_p : p = par side k /\ p ∈ nodes side /\ p ∈ nodes T /\ p <> head.
Proof.
  pose proof rk_side as [Hs _]. assert (p = par side k) as E by (cbn [whole par]; rewrite Hs; reflexivity).
  assert (p ∈ nodes side) as Hin by (rewrite E; apply pathn_nodes with k, par_pathn, Hs).
  split; [exact E|]. split; [exact Hin|]. pose proof (ok_nodup _ _ _ _ Hok) as Hnd. cbn [whole nodes] in *. apply NoDup_cons in Hnd as [Hh _].
  clear -Hin Hh. revert Hin. match goal with |- _ -> ?q ∈ _ /\ _ => generalize q end. intros q Hin. apply not_elem_of_app in Hh as [H1 H2].
  rewrite elem_of_cons, elem_of_app. destruct (kbit 0 k); (split; [tauto|intros ->; contradiction]).
Qed.

Lemma rk_walk_p : walk T kp = (p, kp) /\ inU 32 kp /\ p ∈ pathn T kp.
Proof.
  destruct rk_p as (_ & _ & HpT & _). destruct (walk_node s head L R Hok p pn HpT Hp). split; [assumption|]. split; [assumption|].
  exact (ok_self _ _ _ _ Hok p pn HpT Hp).
Qed.

(** The key of the parent lies on the same side of the head. *)
Lemma rk_bit : kbit 0 kp = kbit 0 k.
Proof.
  destruct rk_p as (_ & Hin & _ & Hne). destruct rk_walk_p as (_ & _ & Hpath). cbn [whole pathn] in Hpath.
  apply elem_of_cons in Hpath as [E|Hpath]; [contradiction|]. apply pathn_nodes in Hpath.
  pose proof (ok_nodup _ _ _ _ Hok) as Hnd. cbn [whole nodes] in Hnd. apply NoDup_cons in Hnd as [_ Hnd]. apply NoDup_app in Hnd as (_ & Hdisj & _).
  destruct (kbit 0 kp), (kbit 0 k); try reflexivity; exfalso; eapply Hdisj; eassumption.
Qed.

Lemma rk_y_path : y ∈ pathn T kp.
Proof.
  destruct rk_walk_p as (_ & _ & Hpath). apply (pathn_par T k kp y); [exact (ok_nodup _ _ _ _ Hok)|exact Hpath|exact (ok_self _ _ _ _ Hok y tn HyT Hy)].
Qed.

Local Abbreviation side2 := (del (setleaf side kp y) k).

Lemma rk_T2 : T2 = whole head (if kbit 0 k then L else side2) (if kbit 0 k then side2 else R).
Proof.
  pose proof rk_bit as Eb. pose proof rk_side as [Hs _]. cbn [whole setleaf]. rewrite Eb.
  destruct (kbit 0 k) eqn:E; cbn [del whole]; rewrite E, is_node_setleaf, Hs; reflexivity.
Qed.

Lemma rk_walk_side : walk side kp = (p, kp).
Proof. destruct rk_walk_p as (Hw & _). cbn [whole walk] in Hw. rewrite rk_bit in Hw. exact Hw. Qed.

Lemma rk_nodes_side : nodes side ≡ₚ p :: nodes side2.
Proof.
  destruct rk_p as (E & _). pose proof rk_side as [Hs _].
  rewrite <- (nodes_setleaf side kp y). rewrite (nodes_del (setleaf side kp y) k) by (rewrite is_node_setleaf; exact Hs).
  rewrite par_setleaf by exact Hs. rewrite <- E. reflexivity.
Qed.

Lemma rk_nodes : nodes T ≡ₚ p :: nodes T2.
Proof.
  destruct rk_p as (E & _). change (nodes T) with (head :: nodes L ++ nodes R). rewrite rk_T2.
  change (nodes (whole head (if kbit 0 k then L else side2) (if kbit 0 k then side2 else R))) with
    (head :: nodes (if kbit 0 k then L else side2) ++ nodes (if kbit 0 k then side2 else R)).
  pose proof rk_nodes_side as Hn. destruct (kbit 0 k); rewrite Hn.
  - rewrite <- Permutation_middle. apply Permutation_swap.
  - cbn [app]. apply Permutation_swap.
Qed.

(** The leaves that remain: those of neither node, and the one of the parent's key, which moves to [y]. *)
Lemma rk_leaves : exists rest, leaves side2 ≡ₚ (if decide (y = p) then [] else [(y, kp)]) ++ rest /\
  leaves side ≡ₚ (if decide (y = p) then [] else [(p, kp)]) ++ (y, k) :: rest.
Proof.
  pose proof rk_side as [Hs Hw]. destruct (decide (y = p)) as [E|E].
  - assert (kp = k) as Ek by (rewrite <- E in Hp; congruence). exists (leaves side2). split; [reflexivity|].
    rewrite Ek. rewrite (setleaf_id side k k y Hw). cbn [app]. rewrite <- Hw. apply leaves_del, Hs.
  - destruct (leaves_setleaf side kp y p kp rk_walk_side) as (rest & H1 & H2).
    pose proof (leaves_del (setleaf side kp y) k ltac:(rewrite is_node_setleaf; exact Hs)) as H3.
    rewrite walk_setleaf_ne in H3 by (rewrite Hw, rk_walk_side; congruence). rewrite Hw in H3.
    assert ((y, k) ∈ leaves side) as Hyl by (rewrite <- Hw; apply walk_leaves).
    rewrite H1 in Hyl. apply elem_of_cons in Hyl as [Hyl|Hyl]; [congruence|].
    apply elem_of_Permutation in Hyl as [rest' Hr']. exists rest'. rewrite H1, Hr'. split; [|reflexivity].
    rewrite H2, Hr' in H3. rewrite (Permutation_swap (y, k) (y, kp)) in H3. apply Permutation_cons_inv in H3. symmetry. exact H3.
Qed.

Lemma rk_perm : (leaves side).*1 ≡ₚ head :: nodes side -> (leaves side2).*1 ≡ₚ head :: nodes side2.
Proof.
  intros H. destruct rk_leaves as (rest & H2 & H1). rewrite H1, rk_nodes_side in H. rewrite H2.
  destruct (decide (y = p)) as [E|E]; cbn [app fmap list_fmap fst] in *.
  - rewrite <- E, (Permutation_swap y head) in H. apply Permutation_cons_inv in H. exact H.
  - rewrite (Permutation_swap p head) in H. apply Permutation_cons_inv in H. exact H.
Qed.

Lemma rk_side_perm : (leaves side).*1 ≡ₚ head :: nodes side.
Proof. destruct (kbit 0 k); [exact (ok_right _ _ _ _ Hok)|exact (ok_left _ _ _ _ Hok)]. Qed.

(** The heap after the removal: the links of [T2], and at [y] the data of the parent. *)
Context (s4 : heap) (Hlinks : links s4 T2).
Context (Hsame : forall z, z <> p -> z <> y -> same_data s s4 z).
Context (Hmove : y <> p -> exists n, s4 !! y = Some n /\ erase n = (kp, p_m pn, p_mlen pn, p_b tn)).

Lemma rk_T2_nodes x : x ∈ nodes T2 <-> x ∈ nodes T /\ x <> p.
Proof.
  pose proof (ok_nodup _ _ _ _ Hok) as Hnd. rewrite rk_nodes in Hnd. apply NoDup_cons in Hnd as [Hpn _].
  rewrite rk_nodes, elem_of_cons. split; [intros H; split; [auto|intros ->; contradiction]|intros [[->|H] Hne]; [contradiction|exact H]].
Qed.

(** What the remaining nodes hold. *)
Lemma rk_data x m : x ∈ nodes T2 -> s4 !! x = Some m ->
  (x <> y /\ exists m0, s !! x = Some m0 /\ erase m = erase m0) \/ (x = y /\ y <> p /\ erase m = (kp, p_m pn, p_mlen pn, p_b tn)).
Proof.
  intros Hx Hm. apply rk_T2_nodes in Hx as [HxT Hxp]. destruct (decide (x = y)) as [->|Hxy].
  - right. destruct (Hmove Hxp) as (n & Hn & E). assert (n = m) as -> by congruence. auto.
  - left. split; [exact Hxy|]. pose proof (Hsame x Hxp Hxy) as E. unfold same_data in E. rewrite Hm in E.
    destruct (s !! x) as [m0|]; [|discriminate]. injection E as E1 E2 E3 E4. exists m0. unfold erase. rewrite E1, E2, E3, E4. auto.
Qed.

Lemma rk_back x m0 : x ∈ nodes T -> x <> p -> x <> y -> s !! x = Some m0 -> exists m, s4 !! x = Some m /\ erase m = erase m0.
Proof.
  intros Hx Hxp Hxy Hm. pose proof (Hsame x Hxp Hxy) as E. unfold same_data in E. rewrite Hm in E.
  destruct (s4 !! x) as [m|]; [|discriminate]. injection E as E1 E2 E3 E4. exists m. unfold erase. rewrite E1, E2, E3, E4. auto.
Qed.

Lemma rk_key x m : s !! x = Some m -> x ∈ nodes T -> (p_key m = k -> x = y) /\ (p_key m = kp -> x = p) /\ (p_key m = 0 -> x = head).
Proof.
  intros Hm Hx. destruct (walk_node s head L R Hok x m Hx Hm) as [_ Hw]. destruct rk_walk as [Hwy _]. destruct rk_walk_p as [Hwp _].
  destruct (ok_key _ _ _ _ Hok) as (hn & Hh & Hk0).
  destruct (walk_node s head L R Hok head hn ltac:(constructor) Hh) as [_ Hwh]. rewrite Hk0 in Hwh.
  split; [|split]; intros E; congruence.
Qed.

Lemma rk_self x m : x ∈ nodes T2 -> s4 !! x = Some m -> x ∈ pathn T2 (p_key m).
Proof.
  intros Hx Hm. assert (x ∈ nodes T /\ x <> p) as [HxT Hxp] by (apply rk_T2_nodes; exact Hx).
  apply pathn_del; [rewrite is_node_setleaf; reflexivity| |rewrite par_setleaf by reflexivity; exact Hxp]. rewrite pathn_setleaf.
  destruct (rk_data x m Hx Hm) as [(_ & m0 & Hm0 & E)|(-> & _ & E)]; injection E as -> _ _ _; [exact (ok_self _ _ _ _ Hok x m0 HxT Hm0)|exact rk_y_path].
Qed.

Lemma rk_entries : entries s4 (nodes T2) (delete k D).
Proof.
  intros kk e. assert (y = p -> kp = k) as Hyp by (intros E; rewrite <- E in Hp; congruence). split.
  - intros H. apply lookup_delete_Some in H as [Hne H]. apply HD in H as (x & n & Hx & Hn & Hkn & He). subst kk e.
    destruct (decide (x = p)) as [E|Hxp].
    + assert (n = pn) as -> by congruence. assert (y <> p) as Hyp' by (intros E'; apply Hne; symmetry; exact (Hyp E')).
      destruct (Hmove Hyp') as (m & Hm & Em). injection Em as E1 E2 E3 _. exists y, m. unfold entry. rewrite E1, E2, E3.
      split; [apply rk_T2_nodes; auto|auto].
    + assert (x <> y) as Hxy by (intros ->; congruence). destruct (rk_back x n Hx Hxp Hxy Hn) as (m & Hm & Em). injection Em as E1 E2 E3 _.
      exists x, m. unfold entry. rewrite E1, E2, E3. split; [apply rk_T2_nodes; auto|auto].
  - intros (x & m & Hx & Hm & <- & <-). destruct (rk_data x m Hx Hm) as [(Hxy & m0 & Hm0 & E)|(-> & Hyp' & E)]; injection E as E1 E2 E3 _; unfold entry; rewrite E1, E2, E3.
    + apply rk_T2_nodes in Hx as [HxT Hxp]. rewrite lookup_delete_ne by (intros Ek; symmetry in Ek; exact (Hxy (proj1 (rk_key x m0 Hm0 HxT) Ek))).
      apply HD. exists x, m0. auto.
    + destruct rk_p as (_ & _ & HpT & _).
      rewrite lookup_delete_ne by (intros Ek; apply Hyp'; symmetry; exact (proj1 (rk_key p pn Hp HpT) (eq_sym Ek))).
      apply HD. exists p, pn. auto.
Qed.

(** The leaves of the new trie hold the keys of the heap. *)
Lemma rk_leaf_cases u : u ∈ leaves T2 -> u.1 <> p /\ ((u.1 <> y /\ u ∈ leaves T) \/ (u = (y, kp) /\ y <> p)).
Proof.
  destruct rk_leaves as (rest & H2 & H1). destruct rk_p as (_ & Hps & _ & Hph). pose proof rk_side_perm as Hsp.
  pose proof (ok_nodup _ _ _ _ Hok) as Hnd. cbn [whole nodes] in Hnd. apply NoDup_cons in Hnd as [Hh Hnd].
  assert (y ∈ nodes side) as Hys.
  { assert (y ∈ (leaves side).*1) as H by (rewrite H1, fmap_app; apply elem_of_app; right; constructor).
    rewrite Hsp in H. apply elem_of_cons in H as [->|H]; [contradiction|exact H]. }
  assert (NoDup (leaves side).*1) as Hn1.
  { rewrite Hsp. apply NoDup_cons. apply NoDup_app in Hnd as (NL & _ & NR). destruct (kbit 0 k); (split; [set_solver|assumption]). }
  assert (forall v, v ∈ rest -> v.1 <> y /\ v.1 <> p) as Hrest.
  { intros v Hv. rewrite H1 in Hn1. rewrite fmap_app in Hn1. apply NoDup_app in Hn1 as (_ & Hd & Hn2).
    cbn [fmap list_fmap fst] in Hd, Hn2. apply NoDup_cons in Hn2 as [Hy2 _]. apply (list_elem_of_fmap_2 fst) in Hv.
    assert (v.1 <> y) as Hvy by (intros E; rewrite E in Hv; contradiction). split; [exact Hvy|]. destruct (decide (y = p)) as [<-|Hyp]; [exact Hvy|].
    intros E. apply (Hd p); [constructor|]. apply elem_of_cons. right. rewrite <- E. exact Hv. }
  set (other := if kbit 0 k then L else R).
  assert (forall v, v ∈ leaves other -> v.1 <> y /\ v.1 <> p) as Hother.
  { intros v Hv. assert (v.1 ∈ head :: nodes other) as Hv1.
    { unfold other in *. destruct (kbit 0 k); [rewrite <- (ok_left _ _ _ _ Hok)|rewrite <- (ok_right _ _ _ _ Hok)]; apply list_elem_of_fmap_2, Hv. }
    apply NoDup_app in Hnd as (_ & Hd & _). apply elem_of_cons in Hv1 as [->|Hv1]; [split; congruence|].
    unfold other in *. assert (forall q, q ∈ nodes side -> v.1 <> q) as Hq; [|auto].
    intros q Hq E. rewrite E in Hv1. revert Hq Hv1. clear -Hd. destruct (kbit 0 k); intros Hq Hv1; [exact (Hd q Hv1 Hq)|exact (Hd q Hq Hv1)]. }
  rewrite rk_T2. intros Hu. assert (u ∈ leaves side2 \/ u ∈ leaves other) as [Hu'|Hu'].
  { unfold other. cbn [whole leaves] in Hu. apply elem_of_app in Hu. revert Hu. generalize side2. destruct (kbit 0 k); tauto. }
  - rewrite H2 in Hu'. apply elem_of_app in Hu' as [Hu'|Hu'].
    + destruct (decide (y = p)) as [E|E]; [apply elem_of_nil in Hu'; contradiction|]. apply list_elem_of_singleton in Hu' as ->. auto.
    + destruct (Hrest u Hu') as [Ha Hb]. split; [exact Hb|]. left. split; [exact Ha|].
      assert (u ∈ leaves side) as Hus by (rewrite H1; apply elem_of_app; right; constructor; exact Hu').
      cbn [whole leaves]. apply elem_of_app. destruct (kbit 0 k); auto.
  - destruct (Hother u Hu') as [Ha Hb]. split; [exact Hb|]. left. split; [exact Ha|].
    unfold other in Hu'. cbn [whole leaves]. apply elem_of_app. destruct (kbit 0 k); auto.
Qed.

Lemma rk_leaf u : u ∈ leaves T2 -> exists n, s4 !! u.1 = Some n /\ p_key n = u.2 /\ 0 <= p_b n /\ (u.1 = head -> p_b n = 0) /\
  (u.1 <> head -> u.1 ∈ pathn T2 u.2 /\ u.2 <> 0).
Proof.
  intros Hu. destruct (rk_leaf_cases u Hu) as (Hup & [(Huy & HuT)|(-> & Hyp)]).
  - pose proof (leaf_node s head L R Hok u HuT) as Hin. destruct (node_bits s head L R u.1 Hok Hin) as (m0 & Hm0 & H0 & Hhd).
    destruct (repr_leaf_key s (-1) _ _ (ok_repr _ _ _ _ Hok) HuT) as (m0' & Hm0' & Hk0). assert (m0' = m0) as -> by congruence.
    destruct (rk_back u.1 m0 Hin Hup Huy Hm0) as (m & Hm & E). injection E as E1 _ _ E4. exists m.
    split; [exact Hm|]. split; [congruence|]. split; [lia|]. split; [intros E; rewrite E4; exact (Hhd E)|]. intros Hne. split.
    + replace u.2 with (p_key m) by congruence. apply rk_self; [apply rk_T2_nodes; auto|exact Hm].
    + rewrite <- Hk0. intros E. exact (Hne (proj2 (proj2 (rk_key u.1 m0 Hm0 Hin)) E)).
  - cbn [fst snd]. destruct (Hmove Hyp) as (m & Hm & E). injection E as E1 _ _ E4. destruct (node_bits s head L R y Hok HyT) as (tn' & Htn & H0 & _).
    assert (tn' = tn) as -> by congruence. exists m. split; [exact Hm|]. split; [exact E1|]. split; [lia|]. split; [intros E; contradiction|]. intros _. split.
    + pose proof (rk_self y m ltac:(apply rk_T2_nodes; auto) Hm) as H. rewrite E1 in H. exact H.
    + destruct rk_p as (_ & _ & HpT & Hph). intros E. exact (Hph (proj2 (proj2 (rk_key p pn Hp HpT)) E)).
Qed.

Local Abbreviation L' := (if kbit 0 k then L else side2).
Local Abbreviation R' := (if kbit 0 k then side2 else R).

Lemma rk_wf : wf (-1) (whole head L' R').
Proof. rewrite <- rk_T2. apply wf_del, wf_setleaf, (ok_wf _ _ _ _ Hok). Qed.

Lemma rk_repr : repr s4 (-1) (whole head L' R').
Proof.
  pose proof rk_wf as (_ & Wl & Wr & Fl & Fr & _). pose proof Hlinks as Hl. rewrite rk_T2 in Hl. destruct Hl as (n & Hn & Hb & El & Er & Ll & Lr).
  pose proof rk_leaf as Hleaf. rewrite rk_T2 in Hleaf. cbn [whole leaves pathn] in Hleaf.
  assert (forall c, (c = L' \/ c = R') -> (forall u, u ∈ leaves c -> u.2 <> 0 -> (if kbit 0 u.2 then R' else L') = c) ->
    forall u, u ∈ leaves c -> exists n, s4 !! u.1 = Some n /\ p_key n = u.2 /\ 0 <= p_b n /\ (p_b n <= 0 \/ u.1 ∈ pathn c u.2)) as Hc.
  { intros c Hcc Hdir u Hu. destruct (Hleaf u) as (m & Hm & Hk & H0 & Hh & Hne); [apply elem_of_app; destruct Hcc as [-> | ->]; auto|].
    exists m. split; [exact Hm|]. split; [exact Hk|]. split; [exact H0|]. destruct (decide (u.1 = head)) as [E|E]; [left; rewrite (Hh E); lia|right].
    destruct (Hne E) as [Hp1 Hz]. apply elem_of_cons in Hp1 as [E'|Hp1]; [contradiction|]. rewrite (Hdir u Hu Hz) in Hp1. exact Hp1. }
  exists n. split; [exact Hn|]. split; [exact Hb|]. split; [exact El|]. split; [exact Er|]. split; apply links_repr; try assumption; try lia; apply Hc; auto; intros u Hu Hz.
  - rewrite (proj1 (Forall_forall _ _) Fl u Hu). reflexivity.
  - destruct (proj1 (Forall_forall _ _) Fr u Hu) as [E|[_ E]]; [rewrite E; reflexivity|contradiction].
Qed.

Lemma rk_ok : trie_ok s4 head L' R'.
Proof.
  assert (nodes (whole head L' R') = nodes T2) as EN by (rewrite rk_T2; reflexivity).
  destruct rk_p as (_ & _ & _ & Hph). constructor.
  - exact (ok_null _ _ _ _ Hok).
  - exact rk_wf.
  - exact rk_repr.
  - destruct (ok_key _ _ _ _ Hok) as (hn & Hh & Hk0). destruct (rk_back head hn ltac:(constructor) (not_eq_sym Hph) (not_eq_sym Hyh) Hh) as (m & Hm & E).
    injection E as E1 _ _ _. exists m. split; congruence.
  - pose proof (rk_perm rk_side_perm) as H. pose proof (ok_left _ _ _ _ Hok) as HL. revert H. generalize side2. destruct (kbit 0 k); auto.
  - pose proof (rk_perm rk_side_perm) as H. pose proof (ok_right _ _ _ _ Hok) as HR. revert H. generalize side2. destruct (kbit 0 k); auto.
  - rewrite EN. pose proof (ok_nodup _ _ _ _ Hok) as Hnd. rewrite rk_nodes in Hnd. apply NoDup_cons in Hnd as [_ Hnd]. exact Hnd.
  - rewrite EN. apply Forall_forall. intros x Hx m Hm. pose proof (proj1 (Forall_forall _ _) (ok_masks _ _ _ _ Hok)) as HM.
    destruct (rk_data x m Hx Hm) as [(_ & m0 & Hm0 & E)|(-> & _ & E)]; injection E as _ E2 _ _; rewrite E2.
    + apply rk_T2_nodes in Hx as [HxT _]. exact (HM x HxT m0 Hm0).
    + destruct rk_p as (_ & _ & HpT & _). exact (HM p HpT pn Hp).
  - rewrite <- rk_T2. exact rk_self.
Qed.

Lemma rk_rep : trie_rep s4 head (delete k D).
Proof. exists L', R'. split; [exact rk_ok|]. rewrite <- rk_T2. exact rk_entries. Qed.
End RemoveKey.

(** ** [pat_remove] *)

(** The end of [pat_remove]: the parent [p] of the leaf [t] of [key] leaves the trie. *)
Definition unlink (dm : data_model) (s : heap) (g p t : loc) (key : Z) : res (Z * heap) :=
  pn ← load s p;
  '(_, pp, _) ← remove_loop dm depth_fuel s p p (p_key pn);
  ppn ← load s pp; b ← bit_set dm (p_b ppn) (p_key pn); s ← store s pp (set_child b ppn t);
  gn ← load s g; b ← bit_set dm (p_b gn) key;
  pn ← load s p; b' ← bit_set dm (p_b pn) key;
  s ← store s g (set_child b gn (child (negb b') pn));
  s ← (if t =? p then mret s
       else
         tn ← load s t; pn ← load s p;
         store s t (Ptree (p_key pn) (p_m pn) (p_mlen pn) (p_b tn) (p_left tn) (p_right tn)));
  mret (1, delete p s).

Lemma same_data_child s x m b c z : s !! x = Some m -> same_data s (<[x := set_child b m c]> s) z.
Proof.
  intros Hx. unfold same_data. destruct (decide (z = x)) as [->|Hne]; [|rewrite lookup_insert_ne by congruence; reflexivity].
  rewrite lookup_insert_eq, Hx. destruct b; reflexivity.
Qed.

Lemma same_data_some s s' x m : same_data s s' x -> s !! x = Some m -> exists m', s' !! x = Some m' /\ erase m' = erase m.
Proof. unfold same_data. intros E H. rewrite H in E. destruct (s' !! x) as [m'|]; [|discriminate]. injection E as E1 E2 E3 E4. exists m'. unfold erase. rewrite E1, E2, E3, E4. auto. Qed.

Section Unlink.
Context (dm : data_model) (s : heap) (head : loc) (L R : trie) (D : dict).
Context (Hok : trie_ok s head L R) (HD : entries s (nodes (whole head L R)) D).
Context (y : loc) (tn : ptree) (Hy : s !! y = Some tn) (HyT : y ∈ nodes (whole head L R)) (Hyh : y <> head).
Local Abbreviation k := (p_key tn).
Local Abbreviation T := (whole head L R).
Local Abbreviation p := (par T k).
Local Abbreviation g := (gpar head T k).

(** The last two writes. *)
Lemma move_ok s2 pn T2 : s !! p = Some pn -> links s2 T2 -> (forall z, same_data s s2 z) -> p ∉ nodes T2 ->
  exists s4, (s ← (if y =? p then mret s2
              else tn ← load s2 y; pn ← load s2 p;
                   store s2 y (Ptree (p_key pn) (p_m pn) (p_mlen pn) (p_b tn) (p_left tn) (p_right tn)));
              mret (1, delete p s)) = Ok (1, s4) /\
    links s4 T2 /\ (forall z, z <> p -> z <> y -> same_data s s4 z) /\
    (y <> p -> exists n, s4 !! y = Some n /\ erase n = (p_key pn, p_m pn, p_mlen pn, p_b tn)).
Proof.
  intros Hp Hl Hs HpT. destruct (Z.eqb_spec y p) as [E|E].
  - eexists. split; [reflexivity|]. split; [|split; [|contradiction]].
    + apply (links_frame s2); [exact Hl|]. intros x Hx. rewrite lookup_delete_ne; [reflexivity|]. intros <-. contradiction.
    + intros z Hz _. unfold same_data. rewrite lookup_delete_ne by congruence. exact (Hs z).
  - destruct (same_data_some _ _ _ _ (Hs y) Hy) as (tn2 & Htn2 & Et). destruct (same_data_some _ _ _ _ (Hs p) Hp) as (pn2 & Hpn2 & Ep).
    injection Et as _ _ _ Et. injection Ep as Ep1 Ep2 Ep3 _.
    rewrite (load_ok _ _ _ Htn2), (load_ok _ _ _ Hpn2). cbn [mbind res_bind]. rewrite (store_ok _ _ _ _ Htn2). cbn [mbind res_bind].
    eexists. split; [reflexivity|]. split; [|split].
    + apply (links_frame s2); [exact Hl|]. intros x Hx. rewrite lookup_delete_ne by (intros <-; contradiction).
      destruct (decide (x = y)) as [->|Hne]; [rewrite lookup_insert_eq, Htn2; reflexivity|rewrite lookup_insert_ne by congruence; reflexivity].
    + intros z Hz Hzy. unfold same_data. rewrite lookup_delete_ne, lookup_insert_ne by congruence. exact (Hs z).
    + intros _. eexists. rewrite lookup_delete_ne, lookup_insert_eq by congruence. split; [reflexivity|]. unfold erase. cbn. congruence.
Qed.

Lemma unlink_ok : exists s4, unlink dm s g p y k = Ok (1, s4) /\ trie_rep s4 head (delete k D).
Proof.
  destruct (rk_p s head L R Hok y tn Hy HyT Hyh) as (_ & _ & HpT & _).
  destruct (node_alloc s head L R p Hok HpT) as [pn Hp].
  destruct (rk_walk_p s head L R Hok y tn Hy HyT Hyh pn Hp) as (_ & Hkp & Hpath).
  destruct (rk_walk s head L R Hok y tn Hy HyT) as [_ Hk].
  destruct (rk_side s head L R Hok y tn Hy HyT Hyh) as [Hside _].
  pose proof (rk_T2_nodes s head L R Hok y tn Hy HyT Hyh pn Hp p) as Hp2.
  (* the link to the leaf of [p]'s key *)
  destruct (subtree_ok s (p_key pn) Hkp T (-1) p (ok_repr _ _ _ _ Hok) (ok_wf _ _ _ _ Hok) ltac:(lia) Hpath) as (pb & b & l & r & Rr & Wr & Hb & Epp).
  pose proof (remove_loop_ok dm s (p_key pn) Hkp depth_fuel pb p b l r p Rr Wr Hb ltac:(unfold depth_fuel; lia)) as Eloop. rewrite Epp in Eloop.
  set (pp := par T (p_key pn)) in *.
  assert (pp ∈ nodes T) as HppT by (apply pathn_nodes with (p_key pn), par_pathn; reflexivity).
  destruct (node_bits s head L R pp Hok HppT) as (ppn & Hpp & Hppb & _).
  set (s1 := <[pp := set_child (kbit (p_b ppn) (p_key pn)) ppn y]> s).
  assert (links s1 (setleaf T (p_key pn) y)) as Hl1.
  { apply setleaf_links; [reflexivity|exact (repr_links s T _ (ok_repr _ _ _ _ Hok))|exact (ok_nodup _ _ _ _ Hok)|exact Hpp]. }
  assert (forall z, same_data s s1 z) as Hs1 by (intros z; apply same_data_child, Hpp).
  (* the link past [p] *)
  assert (g ∈ nodes T) as HgT by (apply (gpar_nodes T k head); constructor).
  destruct (node_bits s head L R g Hok HgT) as (gn0 & Hg0 & Hgb & _).
  destruct (same_data_some _ _ _ _ (Hs1 g) Hg0) as (gn & Hg & Eg). injection Eg as _ _ _ Eg.
  destruct (node_bits s head L R p Hok HpT) as (pn' & Hp' & Hpb & _). assert (pn' = pn) as -> by congruence.
  destruct (same_data_some _ _ _ _ (Hs1 p) Hp) as (pn1 & Hp1 & Ep). injection Ep as _ _ _ Ep.
  set (s2 := <[g := set_child (kbit (p_b gn) k) gn (child (negb (kbit (p_b pn1) k)) pn1)]> s1).
  assert (links s2 (del (setleaf T (p_key pn) y) k)) as Hl2.
  { pose proof (del_links s1 (setleaf T (p_key pn) y) k head pn1 gn) as H. rewrite gpar_setleaf, par_setleaf, nodes_setleaf in H by reflexivity.
    unfold s2. pose proof (rk_bit s head L R Hok y tn Hy HyT Hyh pn Hp) as Eb. cbn [whole setleaf] in H |- *. rewrite Eb in H |- *.
    destruct (kbit 0 k) eqn:E0; eapply H; try reflexivity; rewrite ?E0, ?is_node_setleaf; try assumption; try exact (ok_nodup _ _ _ _ Hok);
      cbn [whole setleaf] in Hl1; rewrite Eb in Hl1; exact Hl1. }
  assert (forall z, same_data s s2 z) as Hs2.
  { intros z. unfold same_data, s2. etransitivity; [exact (same_data_child s1 g gn _ _ z Hg)|apply Hs1]. }
  destruct (move_ok s2 pn _ Hp Hl2 Hs2) as (s4 & Es4 & Hl4 & Hs4 & Hm4); [rewrite Hp2; tauto|].
  exists s4. split.
  - unfold unlink. rewrite (load_ok _ _ _ Hp). cbn [mbind res_bind]. rewrite Eloop. cbn [mbind res_bind].
    rewrite (load_ok _ _ _ Hpp). cbn [mbind res_bind]. rewrite bit_set_ok by (lia || exact Hkp). cbn [mbind res_bind]. rewrite (store_ok _ _ _ _ Hpp). cbn [mbind res_bind].
    fold s1. rewrite (load_ok _ _ _ Hg). cbn [mbind res_bind]. rewrite bit_set_ok by (lia || exact Hk). cbn [mbind res_bind].
    rewrite (load_ok _ _ _ Hp1). cbn [mbind res_bind]. rewrite bit_set_ok by (lia || exact Hk). cbn [mbind res_bind].
    rewrite (store_ok _ _ _ _ Hg). cbn [mbind res_bind]. exact Es4.
  - exact (rk_rep s head L R D Hok HD y tn Hy HyT Hyh pn Hp s4 Hl4 Hs4 Hm4).
Qed.
End Unlink.

(** ** Removal from the dictionary *)

(** What [pat_remove] returns and leaves; [t0] is the value of the uninitialised pointer. *)
Definition remove_spec (t0 : loc) (D : dict) (nn : ptree) : Z * dict :=
  match p_m nn with
  | [] => (0, D)
  | x :: _ =>
      if t0 =? 0 then (0, D) else
      match D !! p_key nn with
      | None => (0, D)
      | Some ([y], _) => if negb (p_key nn =? 0) && (pm_mask y =? pm_mask x) then (1, delete (p_key nn) D) else (0, D)
      | Some (ms, _) =>
          let ms' := List.filter (fun y => negb (pm_mask x =? pm_mask y)) ms in
          if existsb (fun y => pm_mask x =? pm_mask y) ms
          then (1, <[p_key nn := (ms', Z.of_nat (length ms'))]> D) else (0, D)
      end
  end.

(** The masks of a key are distinct and counted by [p_mlen]. *)
Definition masks_distinct (D : dict) (k : Z) : Prop :=
  forall ms len, D !! k = Some (ms, len) -> ms <> [] /\ len = Z.of_nat (length ms) /\ len < 256 /\ NoDup (pm_mask <$> ms).

Lemma filter_distinct (ms : list ptree_mask) (a : Z) : NoDup (pm_mask <$> ms) ->
  length (List.filter (fun y => negb (a =? pm_mask y)) ms) = (length ms - (if existsb (fun y => (a =? pm_mask y)%Z) ms then 1 else 0))%nat /\
  (existsb (fun y => a =? pm_mask y) ms = false -> List.filter (fun y => negb (a =? pm_mask y)) ms = ms).
Proof.
  induction ms as [|z ms IH]; [auto|]. cbn [fmap list_fmap]. intros Hnd. apply NoDup_cons in Hnd as [Hz Hnd].
  destruct (IH Hnd) as [H1 H2]. cbn [existsb List.filter length]. destruct (Z.eqb_spec a (pm_mask z)) as [E|E]; cbn [negb orb].
  - assert (existsb (fun y => a =? pm_mask y) ms = false) as En.
    { apply Bool.not_true_iff_false. intros H. apply existsb_exists in H as (w & Hw & Ew). apply Z.eqb_eq in Ew. apply Hz. rewrite <- E, Ew.
      apply list_elem_of_fmap_2, list_elem_of_In, Hw. }
    rewrite (H2 En). split; [lia|discriminate].
  - cbn [length]. rewrite H1. split; [|intros H; rewrite (H2 H); reflexivity]. destruct (existsb _ ms) eqn:Ex; [|lia].
    destruct ms; [discriminate|cbn [length]; lia].
Qed.

Lemma mask_index_exists (ms : list ptree_mask) (a : Z) : exists j, mask_index (length ms) 0 ms a = Ok j /\
  (match j with Some _ => true | None => false end) = existsb (fun y => a =? pm_mask y) ms.
Proof.
  pose proof (mask_index_ok ms a (length ms) 0%nat eq_refl) as E. change (Z.of_nat 0) with 0 in E. rewrite drop_0 in E. rewrite E.
  destruct (list_find (fun y => a = pm_mask y) ms) as [[j z]|] eqn:Ef; cbn [fmap option_fmap option_map fst]; eexists; (split; [reflexivity|]); symmetry.
  - apply list_find_Some in Ef as (Hj & Ez & _). apply existsb_exists. exists z. split; [apply list_elem_of_In; exact (list_elem_of_lookup_2 _ _ _ Hj)|apply Z.eqb_eq, Ez].
  - apply Bool.not_true_iff_false. intros H. apply existsb_exists in H as (w & Hw & Ew). apply Z.eqb_eq in Ew.
    apply list_find_None in Ef. exact (proj1 (Forall_forall _ _) Ef w (proj2 (list_elem_of_In _ _) Hw) Ew).
Qed.

Section Remove.
Context (dm : data_model) (s : heap) (head : loc) (L R : trie) (D : dict).
Context (Hok : trie_ok s head L R) (HD : entries s (nodes (whole head L R)) D).
Context (n : loc) (nn : ptree) (x : ptree_mask) (xs : list ptree_mask) (Hn : s !! n = Some nn) (Hm : p_m nn = x :: xs).
Context (Hk : inU 32 (p_key nn)) (Hd : masks_distinct D (p_key nn)).
Local Abbreviation k := (p_key nn).

(** [pat_remove] at the leaf [t]. *)
Definition remove_at (g p t : loc) : res (Z * heap) :=
  tn ← load s t;
  if negb (p_key tn =? k) then mret (0, s)
  else if p_mlen tn =? 1 then
    if p_b tn =? 0 then mret (0, s)
    else y ← mget (p_m tn) 0; if negb (pm_mask y =? pm_mask x) then mret (0, s) else unlink dm s g p t k
  else
    j ← mask_index (Z.to_nat (p_mlen tn)) 0 (p_m tn) (pm_mask x);
    match j with
    | None => mret (0, s)
    | Some _ =>
        let buf := List.filter (fun y => negb (pm_mask x =? pm_mask y)) (take (Z.to_nat (p_mlen tn)) (p_m tn)) in
        s ← store s t (set_m tn buf (u8 (p_mlen tn - 1)));
        mret (1, s)
    end.

Lemma same_rep : trie_rep s head D.
Proof. exists L, R. auto. Qed.

(** One of several masks. *)
Lemma remove_mask y tn : walk (whole head L R) k = (y, k) -> s !! y = Some tn -> p_key tn = k -> y ∈ nodes (whole head L R) ->
  p_mlen tn = Z.of_nat (length (p_m tn)) -> p_mlen tn < 256 -> NoDup (pm_mask <$> p_m tn) -> (2 <= length (p_m tn))%nat ->
  let ms' := List.filter (fun y => negb (pm_mask x =? pm_mask y)) (p_m tn) in
  trie_rep (<[y := set_m tn ms' (u8 (p_mlen tn - 1))]> s) head
    (if existsb (fun y => pm_mask x =? pm_mask y) (p_m tn) then <[k := (ms', Z.of_nat (length ms'))]> D else D) \/
  existsb (fun y => pm_mask x =? pm_mask y) (p_m tn) = false.
Proof.
  intros Ew Hy Hky HyT Hlen H256 Hnd H2 ms'. destruct (filter_distinct (p_m tn) (pm_mask x) Hnd) as [Hl _]. fold ms' in Hl.
  destruct (existsb _ (p_m tn)) eqn:E; [left|auto]. rewrite wrapU_id by (unfold inU; change (2 ^ 8) with 256; lia).
  replace (p_mlen tn - 1) with (Z.of_nat (length ms')) by lia.
  apply (remask_ok s head L R D Hok HD nn Hk y tn); auto.
  - destruct ms' as [|m ms'']; [cbn [length] in Hl; lia|exists m; reflexivity].
  - apply lookup_insert_eq.
  - intros z _ Hz. apply lookup_insert_ne. congruence.
Qed.

Lemma remove_at_ok t0 y tn : t0 <> 0 -> walk (whole head L R) k = (y, p_key tn) -> s !! y = Some tn -> y ∈ nodes (whole head L R) ->
  okp (remove_at (gpar head (whole head L R) k) (par (whole head L R) k) y) (fun r =>
    r.1 = (remove_spec t0 D nn).1 /\ trie_rep r.2 head (remove_spec t0 D nn).2).
Proof.
  intros Ht0 Ew Hy HyT. pose proof (find_entry s head L R Hok D k Hk HD y tn Ew Hy) as ED.
  unfold remove_at, remove_spec. rewrite Hm, (proj2 (Z.eqb_neq t0 0)), (load_ok _ _ _ Hy), ED by exact Ht0. cbn [mbind res_bind].
  destruct (Z.eqb_spec (p_key tn) k) as [Ek|Ek]; cbn [negb]; [|split; [reflexivity|exact same_rep]].
  destruct (Hd _ _ ED) as (Hne & Hlen & H256 & Hnd). unfold entry. rewrite Ek in Ew.
  assert (y = head <-> k = 0) as Hhead.
  { destruct (ok_key _ _ _ _ Hok) as (hn & Hh & Hk0). destruct (walk_node s head L R Hok head hn ltac:(constructor) Hh) as [_ Hwh].
    split; intros E; [subst y|]; congruence. }
  destruct (node_bits s head L R y Hok HyT) as (tn' & Htn' & Hb & Hb0). assert (tn' = tn) as -> by congruence.
  destruct (p_m tn) as [|z [|z2 ms]] eqn:Ems; [congruence| |].
  - rewrite Hlen. cbn [length]. change (Z.of_nat 1 =? 1) with true. cbv iota.
    destruct (Z.eqb_spec k 0) as [E0|E0]; cbn [negb andb].
    + rewrite (Hb0 (proj2 Hhead E0)). cbn [Z.eqb]. split; [reflexivity|exact same_rep].
    + assert (y <> head) as Hyh by tauto. assert (p_b tn <> 0) as Hpb by exact (node_bit_pos s head L R y tn Hok HyT Hy Hyh).
      rewrite (proj2 (Z.eqb_neq _ _)) by exact Hpb. change (mget [z] 0) with (@Ok ptree_mask z). cbn [mbind res_bind].
      destruct (pm_mask z =? pm_mask x); cbn [negb]; [|split; [reflexivity|exact same_rep]].
      destruct (unlink_ok dm s head L R D Hok HD y tn Hy HyT Hyh) as (s4 & E & Hrep). rewrite Ek in E, Hrep. rewrite E. split; [reflexivity|exact Hrep].
  - rewrite <- Ems in *. assert (2 <= length (p_m tn))%nat as H2 by (rewrite Ems; cbn [length]; lia).
    rewrite (proj2 (Z.eqb_neq (p_mlen tn) 1)) by lia. rewrite Hlen, Nat2Z.id, firstn_all, <- Hlen.
    destruct (mask_index_exists (p_m tn) (pm_mask x)) as (j & Ej & Hj). rewrite Ej. cbn [mbind res_bind].
    pose proof (remove_mask y tn Ew Hy Ek HyT Hlen H256 Hnd H2) as Hrm. cbv zeta in Hrm. rewrite Ems in Hrm, Hj |- *. cbv iota beta zeta.
    destruct (existsb (fun y => pm_mask x =? pm_mask y) (z :: z2 :: ms)); destruct j as [j|]; try discriminate; cbv iota; cbn [fst snd].
    + rewrite (store_ok _ _ _ _ Hy). cbn [mbind res_bind mret res_ret okp fst snd]. split; [reflexivity|]. destruct Hrm as [Hrm|?]; [exact Hrm|discriminate].
    + split; [reflexivity|exact same_rep].
Qed.
End Remove.

(** C12: pat_remove implements removal from the finite map: on every trie that represents a
    map it ends, returns whether something was removed, and leaves a trie that represents the
    map without the mask, or without the key when the mask was its last, with the parent node
    re-linked and its data moved. Only the last mask of the key 0 is never removed; the default
    mask is, while the key 0 has another one. *)
Theorem pat_remove_refines dm t0 s head D n nn : trie_rep s head D -> n <> 0 -> s !! n = Some nn -> inU 32 (p_key nn) ->
  masks_distinct D (p_key nn) ->
  okp (pat_remove dm t0 s n head) (fun r => r.1 = (remove_spec t0 D nn).1 /\ trie_rep r.2 head (remove_spec t0 D nn).2).
Proof.
  intros (L & R & Hok & HD) Hn0 Hn Hk Hd. unfold pat_remove. rewrite (proj2 (Z.eqb_neq n 0)), (load_ok _ _ _ Hn) by exact Hn0. cbn [mbind res_bind].
  assert (trie_rep s head D) as Hrep by (exists L, R; auto).
  destruct (p_m nn) as [|x xs] eqn:Hm; [unfold remove_spec; rewrite Hm; split; [reflexivity|exact Hrep]|].
  destruct (Z.eqb_spec t0 0) as [E0|E0]; [unfold remove_spec; rewrite Hm, E0; split; [reflexivity|exact Hrep]|].
  destruct (find_ok s head L R Hok (p_key nn) Hk) as (y & tn & Ew & Hy & HyT & _ & _).
  pose proof (remove_loop_ok dm s (p_key nn) Hk depth_fuel (-1) head 0 L R head (ok_repr _ _ _ _ Hok) (ok_wf _ _ _ _ Hok) ltac:(lia)
    ltac:(unfold depth_fuel; lia)) as E. fold (whole head L R) in E. rewrite Ew in E. cbn [fst] in E. rewrite E. cbn [mbind res_bind].
  exact (remove_at_ok dm s head L R D Hok HD nn x xs Hm Hk Hd t0 y tn E0 Ew Hy HyT).
Qed.

(** A trie with one key besides that of the head. *)
Definition sample_node : ptree := Ptree 0x0a000000 [PtreeMask 0xff000000 7] 1 0 0 0.
Definition sample_heap : heap := match pat_insert LP64 (<[2 := sample_node]> (init_heap 1 5)) 2 1 with Ok (_, s) => s | Err _ => init_heap 1 5 end.
Definition sample_dict : dict := <[0x0a000000 := ([PtreeMask 0xff000000 7], 1)]> (init_dict 5).

Lemma sample_rep : trie_rep sample_heap 1 sample_dict.
Proof.
  assert (trie_rep (init_heap 1 5) 1 (init_dict 5)) as H by (apply init_trie; discriminate).
  pose proof (pat_insert_fact LP64 (init_heap 1 5) 1 (init_dict 5) 2 sample_node (PtreeMask 0xff000000 7) [] H eq_refl ltac:(discriminate) eq_refl
    ltac:(by_eval) ltac:(by_eval)) as Hi.
  assert (masks_ok (init_dict 5) (Z.land (p_key sample_node) (pm_mask (PtreeMask 0xff000000 7)))) as Hmo by (intros ms len E; vm_compute in E; discriminate).
  specialize (Hi Hmo). assert (insert_spec (init_dict 5) sample_node = Ok sample_dict) as Es by (vm_compute; reflexivity). rewrite Es in Hi.
  assert (pat_insert LP64 (<[2 := sample_node]> (init_heap 1 5)) 2 1 = Ok (2, sample_heap)) as Ep by (vm_compute; reflexivity).
  rewrite Ep in Hi. exact (proj1 Hi).
Qed.

Lemma pat_remove_refines_witness : let s := <[3 := sample_node]> sample_heap in
  trie_rep s 1 sample_dict /\ masks_distinct sample_dict 0x0a000000 /\ remove_spec 9 sample_dict sample_node = (1, delete 0x0a000000 sample_dict) /\
  okp (pat_remove LP64 9 s 3 1) (fun r => r.1 = (remove_spec 9 sample_dict sample_node).1 /\ trie_rep r.2 1 (remove_spec 9 sample_dict sample_node).2).
Proof.
  intros s. assert (trie_rep s 1 sample_dict) as H.
  { apply (trie_rep_frame 1 sample_heap); [exact sample_rep|]. intros x m Hx. unfold s. rewrite lookup_insert_ne; [exact Hx|].
    intros <-. vm_compute in Hx. discriminate. }
  assert (masks_distinct sample_dict 0x0a000000) as Hd.
  { intros ms len E. unfold sample_dict in E. rewrite lookup_insert_eq in E. injection E as <- <-. split; [discriminate|]. split; [reflexivity|]. split; [lia|].
    repeat constructor. set_solver. }
  split; [exact H|]. split; [exact Hd|]. split; [vm_compute; reflexivity|].
  apply (pat_remove_refines LP64 9 s 1 sample_dict 3 sample_node); [exact H|discriminate|apply lookup_insert_eq|by_eval|exact Hd].
Defined.

(** The mask of the default entry is removed like any other when the node of the key 0 has a second one; what is then found
    at the head covers 0.0.0.0/8 only. *)
Example default_removed :
  let masks r := match r with Ok (v, s) => (v, pm_mask <$> match s !! 1 with Some t => p_m t | None => [] end) | Err _ => (-1, []) end in
  let s1 := pat_insert LP64 (<[2 := Ptree 0 [PtreeMask 0xff000000 7] 1 0 0 0]> (init_heap 1 5)) 2 1 in
  masks s1 = (1, [0; 0xff000000]) /\
  masks (match s1 with Ok (_, s) => pat_remove LP64 9 (<[3 := Ptree 0 [PtreeMask 0 5] 1 0 0 0]> s) 3 1 | Err e => Err e end) = (1, [0xff000000]).
Proof. vm_compute. split; reflexivity. Qed.
