(* ===== verification/Idea.v ===== *)
(** The IDEA block cipher of pgp (src/mibench/security/pgp/src/idea.c, idea.h): multiplication and
    inversion modulo 65537, the key schedules and the cipher, for 16-bit temporaries and for the 32-bit ones
    of the option IDEA32. The byte order is little-endian (no HIGHFIRST); the multiplication is the
    default macro (neither SMALL_CACHE nor AVOID_JUMPS). A buffer of bytes that the source reads as
    16-bit words is aligned. *)
From stdpp Require Import base list numbers option tactics.
From Stdlib Require Import ZArith Lia Znumtheory.
From S2P Require Import Prelude Bytes.

(** * The code *)

Section Idea.
Context (dm : data_model) (idea32 : bool).
Implicit Types (x y k : Z) (EK DK key : list Z).

(** [uint16] and [low16]. *)
Definition uint16_bits : Z := if idea32 then 32 else 16.
Local Abbreviation uw := (wrapU uint16_bits).
Definition low16 (x : Z) : Z := if idea32 then Z.land x 0xffff else x.

(** [MUL(x,y)]: the new value of [x]. *)
Definition MUL (x y : Z) : Z :=
  let t16 := y in
  if negb (t16 =? 0) then
    let x := low16 x in
    if negb (x =? 0) then
      let t32 := uL dm (x * t16) in
      let x := uw (low16 t32) in
      let t16 := uw (t32 ≫ 16) in
      uw (x - t16 + Z.b2z (x <? t16))
    else uw (1 - t16)
  else uw (1 - x).

Fixpoint mulInv_loop (fuel : nat) (x y t0 t1 : Z) : res Z :=
  match fuel with
  | O => Err OutOfFuel
  | S fuel =>
      let q := Z.quot x y in
      let x := Z.rem x y in
      let t0 := uw (t0 + q * t1) in
      if x =? 1 then mret t0
      else
        let q := Z.quot y x in
        let y := Z.rem y x in
        let t1 := uw (t1 + q * t0) in
        if y =? 1 then mret (low16 (uw (1 - t1))) else mulInv_loop fuel x y t0 t1
  end.
(** Two divisions at least halve [y], which fits 16 bits. *)
Definition mulInv (x : Z) : res Z :=
  if x <=? 1 then mret x
  else
    let t1 := uw (Z.quot 0x10001 x) in
    let y := uw (Z.rem 0x10001 x) in
    if y =? 1 then mret (low16 (uw (1 - t1))) else mulInv_loop 17 x y 1 t1.

Definition IDEAROUNDS : nat := 8.
Definition IDEAKEYLEN : nat := 52.

(** The loop on [j] with the pointer [EK] at the offset [e]. *)
Definition expand_first (userkey : list Z) (j : Z) EK : res (list Z) :=
  a ← aget userkey (2 * j); b ← aget userkey (2 * j + 1); aset EK j (u16 (a ≪ 8 + b)).
Definition expand_body (j : Z) (st : Z * Z * list Z) : res (Z * Z * list Z) :=
  let '(i, e, EK) := st in
  let i := i + 1 in
  a ← aget EK (e + Z.land i 7); b ← aget EK (e + Z.land (i + 1) 7);
  EK ← aset EK (e + i + 7) (u16 (Z.lor (a ≪ 9) (b ≫ 7)));
  mret (Z.land i 7, e + Z.land i 8, EK).
Definition ideaExpandKey (userkey EK : list Z) : res (list Z) :=
  EK ← cfor 8 0 (expand_first userkey) EK;
  '(_, _, EK) ← cfor 44 8 expand_body (0, 0, EK); mret EK.

(** [*EK++]. *)
Definition next (l : list Z) : res (Z * list Z) := match l with x :: l => mret (x, l) | [] => Err OutOfBounds end.

(** [ideaInvertKey] fills [temp] from its end; [p] is what is filled so far. *)
Definition invert_group (swap : bool) (st : list Z * list Z) : res (list Z * list Z) :=
  let '(EK, p) := st in
  '(a, EK) ← next EK; t1 ← mulInv a;
  '(b, EK) ← next EK; let t2 := uw (- b) in
  '(c, EK) ← next EK; let t3 := uw (- c) in
  '(d, EK) ← next EK; t4 ← mulInv d;
  mret (EK, u16 t1 :: (if swap then u16 t3 :: u16 t2 :: u16 t4 :: p else u16 t2 :: u16 t3 :: u16 t4 :: p)).
Definition invert_pair (st : list Z * list Z) : res (list Z * list Z) :=
  let '(EK, p) := st in
  '(t1, EK) ← next EK; '(a, EK) ← next EK; mret (EK, t1 :: a :: p).
Definition ideaInvertKey (EK : list Z) : res (list Z) :=
  st ← invert_group false (EK, []);
  st ← cfor (IDEAROUNDS - 1) 0 (fun _ st => st ← invert_pair st; invert_group true st) st;
  st ← invert_pair st;
  '(_, temp) ← invert_group false st;
  mret temp.

(** One turn of the loop of [ideaCipher]. *)
Definition cipher_round (st : Z * Z * Z * Z * list Z) : res (Z * Z * Z * Z * list Z) :=
  let '(x1, x2, x3, x4, key) := st in
  '(k, key) ← next key; let x1 := MUL x1 k in
  '(k, key) ← next key; let x2 := uw (x2 + k) in
  '(k, key) ← next key; let x3 := uw (x3 + k) in
  '(k, key) ← next key; let x4 := MUL x4 k in
  let s3 := x3 in
  let x3 := Z.lxor x3 x1 in
  '(k, key) ← next key; let x3 := MUL x3 k in
  let s2 := x2 in
  let x2 := Z.lxor x2 x4 in
  let x2 := uw (x2 + x3) in
  '(k, key) ← next key; let x2 := MUL x2 k in
  let x3 := uw (x3 + x2) in
  let x1 := Z.lxor x1 x2 in
  let x4 := Z.lxor x4 x3 in
  let x2 := Z.lxor x2 s3 in
  let x3 := Z.lxor x3 s2 in
  mret (x1, x2, x3, x4, key).

(** A 16-bit word of a buffer, and the exchange of its bytes. *)
Definition get_word16 (b : list Z) (i : Z) : res Z := lo ← aget b (2 * i); hi ← aget b (2 * i + 1); mret (lo + 256 * hi).
Definition swap16 (x : Z) : Z := uw (Z.lor (x ≫ 8) (x ≪ 8)).
Definition put_word16 (x : Z) : list Z := le_bytes 2 (u16 x).

Definition ideaCipher (inbuf key : list Z) : res (list Z) :=
  x1 ← get_word16 inbuf 0; x2 ← get_word16 inbuf 1; x3 ← get_word16 inbuf 2; x4 ← get_word16 inbuf 3;
  let x1 := swap16 x1 in let x2 := swap16 x2 in let x3 := swap16 x3 in let x4 := swap16 x4 in
  '(x1, x2, x3, x4, key) ← cfor IDEAROUNDS 0 (fun _ => cipher_round) (x1, x2, x3, x4, key);
  '(k, key) ← next key; let x1 := MUL x1 k in
  '(k, key) ← next key; let x3 := uw (x3 + k) in
  '(k, key) ← next key; let x2 := uw (x2 + k) in
  '(k, key) ← next key; let x4 := MUL x4 k in
  let x1 := low16 x1 in let x2 := low16 x2 in let x3 := low16 x3 in let x4 := low16 x4 in
  mret (put_word16 (swap16 x1) ++ put_word16 (swap16 x3) ++ put_word16 (swap16 x2) ++ put_word16 (swap16 x4)).
End Idea.

(** The test vector of the cipher: key 1 to 8 as words, plaintext 0 to 3. *)
Example idea_vector : forall i32, (EK ← ideaExpandKey [0;1;0;2;0;3;0;4;0;5;0;6;0;7;0;8] (replicate 52 0); ideaCipher LP64 i32 [0;0;0;1;0;2;0;3] EK) =
  Ok [0x11; 0xfb; 0xed; 0x2b; 0x01; 0x98; 0x6d; 0xe5].
Proof. intros []; vm_compute; reflexivity. Qed.

(** * Arithmetic modulo 65537 *)

(** The word 0 stands for 65536. *)
Definition rep (x : Z) : Z := if x =? 0 then 65536 else x.
Definition gmul (x y : Z) : Z := (rep x * rep y) mod 65537 mod 65536.

Lemma prime_65537 : prime 65537.
Proof.
  apply prime_alt. split; [lia|]. intros n Hn [m Hm].
  assert (forallb (fun d => negb (65537 mod d =? 0)) (seqZ 2 255) = true) as H by (vm_compute; reflexivity).
  assert (forall d e, 65537 = d * e -> 2 <= e <= 256 -> False) as Hd.
  { intros d e E He. pose proof (forallb_seqZ _ _ _ H e ltac:(lia)) as Hde. cbv beta in Hde. clear H. rename Hde into H. apply negb_true_iff, Z.eqb_neq in H. apply H. rewrite E. apply Z.mod_mul. lia. }
  destruct (Z.le_gt_cases n 256); [apply (Hd m n); lia|]. apply (Hd n m); nia.
Qed.

Lemma rep_range x : inU 16 x -> 1 <= rep x <= 65536.
Proof. unfold rep, inU. intros H. change (2 ^ 16) with 65536 in H. destruct (Z.eqb_spec x 0); lia. Qed.

Lemma rep_mod x : inU 16 x -> rep x mod 65536 = x.
Proof. unfold rep, inU. intros H. change (2 ^ 16) with 65536 in H. destruct (Z.eqb_spec x 0) as [->|]; [reflexivity|]. apply Z.mod_small. lia. Qed.

Lemma mul_unit a b : 1 <= a <= 65536 -> 1 <= b <= 65536 -> 1 <= (a * b) mod 65537 <= 65536.
Proof.
  intros Ha Hb. pose proof (Z.mod_pos_bound (a * b) 65537 ltac:(lia)). assert ((a * b) mod 65537 <> 0); [|lia].
  intros E. apply Z.mod_divide in E; [|lia]. apply prime_mult in E as [E|E]; [| |exact prime_65537]; apply Z.divide_pos_le in E; lia.
Qed.

Lemma rep_small r : 1 <= r <= 65536 -> rep (r mod 65536) = r.
Proof.
  intros H. unfold rep. destruct (Z.eq_dec r 65536) as [->|Hne]; [reflexivity|]. rewrite Z.mod_small by lia. destruct (Z.eqb_spec r 0); lia.
Qed.

Lemma gmul_inU x y : inU 16 (gmul x y).
Proof. unfold gmul, inU. apply Z.mod_pos_bound. lia. Qed.

Lemma rep_gmul x y : inU 16 x -> inU 16 y -> rep (gmul x y) = (rep x * rep y) mod 65537.
Proof. intros Hx Hy. apply rep_small, mul_unit; apply rep_range; assumption. Qed.

(** [y'] is the inverse of [y]. *)
Definition inverse (y y' : Z) : Prop := inU 16 y' /\ (rep y * rep y') mod 65537 = 1.

Lemma gmul_cancel x y y' : inU 16 x -> inU 16 y -> inverse y y' -> gmul (gmul x y) y' = x.
Proof.
  intros Hx Hy [Hy' E]. unfold gmul at 1. rewrite rep_gmul by assumption. rewrite Z.mul_mod_idemp_l by lia.
  rewrite <- Z.mul_assoc, <- Z.mul_mod_idemp_r, E, Z.mul_1_r by lia. rewrite (Z.mod_small (rep x)) by (pose proof (rep_range x Hx); lia). apply rep_mod, Hx.
Qed.

(** * The multiplication and the inversion *)

Section Ops.
Context (dm : data_model) (idea32 : bool).
Local Abbreviation W := (uint16_bits idea32).
Local Abbreviation uw := (wrapU W).
Implicit Types (x y k : Z).

Lemma W_cases : W = 32 /\ idea32 = true \/ W = 16 /\ idea32 = false.
Proof. unfold uint16_bits. destruct idea32; auto. Qed.

Lemma u16_uw x : u16 (uw x) = u16 x.
Proof.
  unfold wrapU. destruct W_cases as [[-> _]|[-> _]]; [|apply Z.mod_mod; lia].
  change (2 ^ 32) with (2 ^ 16 * 2 ^ 16). rewrite Z.rem_mul_r by lia. rewrite (Z.mul_comm (2 ^ 16)), Z.mod_add by lia. apply Z.mod_mod. lia.
Qed.

Lemma uw_range x : inU W (uw x).
Proof. apply wrapU_range. destruct W_cases as [[-> _]|[-> _]]; lia. Qed.

Lemma inU16_W x : inU 16 x -> inU W x.
Proof. unfold inU. change (2 ^ 16) with 65536. destruct W_cases as [[-> _]|[-> _]]; [change (2 ^ 32) with 4294967296|change (2 ^ 16) with 65536]; lia. Qed.

Lemma uw_id x : inU 16 x -> uw x = x.
Proof. intros H. apply wrapU_id, inU16_W, H. Qed.

Lemma low16_ok x : inU W x -> low16 idea32 x = u16 x.
Proof.
  intros H. unfold low16. destruct W_cases as [[E ->]|[E ->]].
  - unfold wrapU. change 0xffff with (Z.ones 16). apply Z.land_ones. lia.
  - rewrite E in H. rewrite wrapU_id by exact H. reflexivity.
Qed.

Lemma u16_inU x : inU 16 (u16 x).
Proof. apply wrapU_range. lia. Qed.
#[local] Hint Resolve u16_inU uw_range inU16_W gmul_inU : core.

Lemma u16_add_l x y : u16 (u16 x + y) = u16 (x + y).
Proof. unfold wrapU. apply Z.add_mod_idemp_l. lia. Qed.
Lemma u16_add_r x y : u16 (x + u16 y) = u16 (x + y).
Proof. unfold wrapU. apply Z.add_mod_idemp_r. lia. Qed.
Lemma u16_sub_r x y : u16 (x - u16 y) = u16 (x - y).
Proof. unfold wrapU. apply Zminus_mod_idemp_r. Qed.

(** The two halves of the product, without a division. *)
Lemma mul_halves x y : 1 <= x <= 65535 -> 1 <= y <= 65535 ->
  u16 ((x * y) mod 65536 - (x * y) / 65536 + Z.b2z ((x * y) mod 65536 <? (x * y) / 65536)) = (x * y) mod 65537 mod 65536.
Proof.
  intros Hx Hy. set (p := x * y). assert (1 <= p <= 65535 * 65535) as Hp by (unfold p; nia). clearbody p.
  pose proof (Z.div_mod p 65536 ltac:(lia)) as Ep. pose proof (Z.mod_pos_bound p 65536 ltac:(lia)) as Hlo.
  assert (0 <= p / 65536 <= 65535) as Hhi by (split; [apply Z.div_pos; lia|apply Z.div_le_upper_bound; lia]).
  set (hi := p / 65536) in *. set (lo := p mod 65536) in *. clearbody hi lo. unfold wrapU. change (2 ^ 16) with 65536.
  destruct (Z.ltb_spec lo hi); cbn [Z.b2z].
  - replace (p mod 65537) with (lo - hi + 65537) by (apply Z.mod_unique with (hi - 1); lia).
    replace (lo - hi + 65537) with (lo - hi + 1 + 1 * 65536) by lia. rewrite Z.mod_add by lia. reflexivity.
  - replace (p mod 65537) with (lo - hi) by (apply Z.mod_unique with hi; lia). rewrite Z.add_0_r. reflexivity.
Qed.

(** 65536 is minus one. *)
Lemma gmul_zero x : inU 16 x -> gmul x 0 = u16 (1 - x).
Proof.
  intros Hx. pose proof (rep_range x Hx) as Hr. pose proof (rep_mod x Hx) as Em. unfold gmul. change (rep 0) with 65536.
  replace ((rep x * 65536) mod 65537) with (65537 - rep x) by (apply Z.mod_unique with (rep x - 1); lia).
  unfold wrapU. change (2 ^ 16) with 65536. rewrite <- Em at 2. rewrite Zminus_mod_idemp_r. replace (65537 - rep x) with (1 - rep x + 1 * 65536) by lia. apply Z.mod_add. lia.
Qed.

Lemma gmul_comm x y : gmul x y = gmul y x.
Proof. unfold gmul. rewrite Z.mul_comm. reflexivity. Qed.

Lemma MUL_ok x y : inU W x -> inU 16 y -> inU W (MUL dm idea32 x y) /\ u16 (MUL dm idea32 x y) = gmul (u16 x) y.
Proof.
  intros Hx Hy. unfold MUL. rewrite (low16_ok x Hx). destruct (Z.eqb_spec y 0) as [->|Hy0]; cbn [negb].
  { split; [auto|]. rewrite gmul_zero, u16_uw, u16_sub_r by auto. reflexivity. }
  destruct (Z.eqb_spec (u16 x) 0) as [->|Hx0]; cbn [negb].
  { split; [auto|]. rewrite u16_uw, gmul_comm, gmul_zero by exact Hy. reflexivity. }
  split; [auto|]. rewrite u16_uw. pose proof (u16_inU x) as Hx'. set (a := u16 x) in *. clearbody a. clear x Hx.
  assert (1 <= a <= 65535 /\ 1 <= y <= 65535) as [Ha Hb] by (unfold inU in Hx', Hy; change (2 ^ 16) with 65536 in *; lia).
  assert (0 <= a * y < 4294967296) as Hp by nia. rewrite uL_id by exact Hp.
  assert (uw (low16 idea32 (a * y)) = (a * y) mod 65536) as ->.
  { unfold low16. destruct W_cases as [[-> ->]|[-> ->]]; [|reflexivity]. change 0xffff with (Z.ones 16). rewrite Z.land_ones by lia. change (2 ^ 16) with 65536.
    apply wrapU_id. pose proof (Z.mod_pos_bound (a * y) 65536 ltac:(lia)). unfold inU. change (2 ^ 32) with 4294967296. lia. }
  rewrite uw_id; rewrite Z.shiftr_div_pow2 by lia; change (2 ^ 16) with 65536.
  - rewrite mul_halves by assumption. unfold gmul, rep. rewrite (proj2 (Z.eqb_neq a 0)), (proj2 (Z.eqb_neq y 0)) by lia. reflexivity.
  - unfold inU. change (2 ^ 16) with 65536. split; [apply Z.div_pos; lia|apply Z.div_lt_upper_bound; lia].
Qed.
End Ops.

(** Euclid's algorithm: [t0] and [t1] times the argument are [x] and [- y], and they do not overflow. *)
Section Inverse.
Context (idea32 : bool) (x0 : Z) (Hx0 : 2 <= x0 <= 65535).
Implicit Types (x y : Z).

Definition euclid (x y t0 t1 : Z) : Prop :=
  1 <= t0 /\ 1 <= t1 /\ t0 * y + t1 * x = 65537 /\ (65537 | t0 * x0 - x) /\ (65537 | t1 * x0 + y).

Lemma rep_x0 : rep x0 = x0.
Proof. unfold rep. rewrite (proj2 (Z.eqb_neq x0 0)) by lia. reflexivity. Qed.

Lemma inverse_of t : 1 <= t <= 65536 -> (65537 | t * x0 - 1) -> inverse x0 (u16 t).
Proof.
  intros Ht [c Hc]. split; [apply u16_inU|]. unfold wrapU. change (2 ^ 16) with 65536. rewrite rep_small, rep_x0 by lia.
  symmetry. apply Z.mod_unique with c; lia.
Qed.

(** [1 - t1] is the inverse if [t1] times the argument is [-1]. *)
Lemma inverse_neg t1 : 1 <= t1 <= 65536 -> (65537 | t1 * x0 + 1) -> inverse x0 (low16 idea32 (wrapU (uint16_bits idea32) (1 - t1))).
Proof.
  intros Ht [c Hc]. rewrite low16_ok, u16_uw by apply uw_range. replace (u16 (1 - t1)) with (u16 (65537 - t1)).
  - apply inverse_of; [lia|]. exists (x0 - c). lia.
  - unfold wrapU. change (2 ^ 16) with 65536. replace (65537 - t1) with (1 - t1 + 1 * 65536) by lia. apply Z.mod_add. lia.
Qed.

Lemma no_divisor y c : 2 <= y <= 65536 -> 65537 = y * c -> False.
Proof.
  intros Hy E. destruct (prime_divisors 65537 prime_65537 y) as [H|[H|[H|H]]]; [exists c; lia|lia..].
Qed.

(** Each of the two divisions of a turn keeps the invariant, with the roles exchanged. *)
Lemma euclid_left x y t0 t1 : euclid x y t0 t1 -> 2 <= y < x -> x <= 65535 ->
  let x' := Z.rem x y in let t0' := wrapU (uint16_bits idea32) (t0 + Z.quot x y * t1) in
  1 <= x' < y /\ t0' = t0 + x / y * t1 /\ euclid x' y t0' t1.
Proof.
  intros (H0 & H1 & E & D0 & D1) Hy Hx x' t0'. unfold x', t0'. rewrite Z.rem_mod_nonneg, Z.quot_div_nonneg by lia.
  pose proof (Z.div_mod x y ltac:(lia)) as Ex. pose proof (Z.mod_pos_bound x y ltac:(lia)) as Hm.
  set (q := x / y) in *. set (r := x mod y) in *. clearbody q r.
  assert (1 <= r) as Hr1.
  { destruct (Z.eq_dec r 0) as [Hr|Hr]; [|lia]. exfalso. apply (no_divisor y (t0 + t1 * q)); [lia|]. rewrite <- E, Ex, Hr. ring. }
  assert (1 <= q) as Hq by nia.
  assert ((t0 + q * t1) * y + t1 * r = 65537) as E' by (rewrite <- E, Ex; ring).
  assert (t0 + q * t1 <= 65535) as Hb by nia.
  split; [lia|]. rewrite uw_id by (unfold inU; change (2 ^ 16) with 65536; nia). split; [reflexivity|].
  repeat split; try assumption; try nia. replace ((t0 + q * t1) * x0 - r) with (t0 * x0 - x + q * (t1 * x0 + y)) by (rewrite Ex; ring).
  apply Z.divide_add_r; [assumption|]. apply Z.divide_mul_r. assumption.
Qed.

Lemma euclid_right x y t0 t1 : euclid x y t0 t1 -> 2 <= x < y -> y <= 65535 ->
  let y' := Z.rem y x in let t1' := wrapU (uint16_bits idea32) (t1 + Z.quot y x * t0) in
  1 <= y' < x /\ t1' = t1 + y / x * t0 /\ euclid x y' t0 t1'.
Proof.
  intros (H0 & H1 & E & D0 & D1) Hy Hx y' t1'. unfold y', t1'. rewrite Z.rem_mod_nonneg, Z.quot_div_nonneg by lia.
  pose proof (Z.div_mod y x ltac:(lia)) as Ex. pose proof (Z.mod_pos_bound y x ltac:(lia)) as Hm.
  set (q := y / x) in *. set (r := y mod x) in *. clearbody q r.
  assert (1 <= r) as Hr1.
  { destruct (Z.eq_dec r 0) as [Hr|Hr]; [|lia]. exfalso. apply (no_divisor x (t1 + t0 * q)); [lia|]. rewrite <- E, Ex, Hr. ring. }
  assert (1 <= q) as Hq by nia.
  assert (t0 * r + (t1 + q * t0) * x = 65537) as E' by (rewrite <- E, Ex; ring).
  assert (t1 + q * t0 <= 65535) as Hb by nia.
  split; [lia|]. rewrite uw_id by (unfold inU; change (2 ^ 16) with 65536; nia). split; [reflexivity|].
  repeat split; try assumption; try nia. replace ((t1 + q * t0) * x0 + r) with (t1 * x0 + y + q * (t0 * x0 - x)) by (rewrite Ex; ring).
  apply Z.divide_add_r; [assumption|]. apply Z.divide_mul_r. assumption.
Qed.

Lemma euclid_bounds x y t0 t1 : euclid x y t0 t1 -> 1 <= x -> 1 <= y -> t0 <= 65536 /\ t1 <= 65536.
Proof. intros (H0 & H1 & E & _) Hx Hy. nia. Qed.

Lemma mulInv_loop_ok fuel : forall x y t0 t1, euclid x y t0 t1 -> 2 <= y < x -> x <= 65535 -> y < 2 ^ Z.of_nat fuel ->
  okp (mulInv_loop idea32 fuel x y t0 t1) (inverse x0).
Proof.
  induction fuel as [|fuel IH]; intros x y t0 t1 He Hy Hx Hf; [change (2 ^ Z.of_nat 0) with 1 in Hf; lia|]. cbn [mulInv_loop].
  destruct (euclid_left x y t0 t1 He Hy Hx) as (Hx' & _ & He'). set (x' := Z.rem x y) in *. set (t0' := wrapU _ (t0 + _)) in *. clearbody x' t0'.
  destruct (Z.eqb_spec x' 1) as [->|H1].
  - cbn [mret res_ret okp]. destruct He' as (H0 & H1 & E & D0 & D1).
    assert (t0' <= 65535) as Hb by nia. rewrite <- (wrapU_id 16 t0') by (unfold inU; change (2 ^ 16) with 65536; lia). apply inverse_of; [lia|exact D0].
  - destruct (euclid_right x' y t0' t1 He' ltac:(lia) ltac:(lia)) as (Hy' & _ & He''). assert (2 * Z.rem y x' < y) as Hhalf.
    { rewrite Z.rem_mod_nonneg by lia. pose proof (Z.div_mod y x' ltac:(lia)). pose proof (Z.mod_pos_bound y x' ltac:(lia)). assert (1 <= y / x') by (apply Z.div_le_lower_bound; lia). nia. }
    set (y' := Z.rem y x') in *. set (t1' := wrapU _ (t1 + _)) in *. clearbody y' t1'.
    destruct (Z.eqb_spec y' 1) as [->|H2].
    + cbn [mret res_ret okp]. pose proof (euclid_bounds _ _ _ _ He'' ltac:(lia) ltac:(lia)) as [_ Hb]. destruct He'' as (_ & H3 & _ & _ & D1).
      apply inverse_neg; [lia|exact D1].
    + apply IH; [exact He''|lia|lia|]. rewrite Nat2Z.inj_succ, Z.pow_succ_r in Hf by lia. lia.
Qed.
End Inverse.

Lemma mulInv_fact idea32 x : inU 16 x -> okp (mulInv idea32 x) (inverse x).
Proof.
  unfold inU. change (2 ^ 16) with 65536. intros Hx. unfold mulInv. destruct (Z.leb_spec x 1) as [H1|H1].
  - cbn [mret res_ret okp]. assert (x = 0 \/ x = 1) as [-> | ->] by lia; split; by_eval.
  - rewrite Z.quot_div_nonneg, Z.rem_mod_nonneg by lia. pose proof (Z.div_mod 65537 x ltac:(lia)) as E. pose proof (Z.mod_pos_bound 65537 x ltac:(lia)) as Hm.
    set (q := 65537 / x) in *. set (r := 65537 mod x) in *. clearbody q r.
    assert (1 <= r) as Hr by (destruct (Z.eq_dec r 0) as [Hr|Hr]; [exfalso; apply (no_divisor x q); lia|lia]).
    assert (1 <= q <= 65535) as Hq by nia. rewrite (uw_id idea32 q), (uw_id idea32 r) by (unfold inU; change (2 ^ 16) with 65536; lia).
    assert (65537 | q * x + r) as D by (exists 1; lia). destruct (Z.eqb_spec r 1) as [->|H2].
    + cbn [mret res_ret okp]. apply inverse_neg; [lia|lia|exact D].
    + apply mulInv_loop_ok; [lia| |lia|lia|change (2 ^ Z.of_nat 17) with 131072; lia]. repeat split; try lia; [exists 0; lia|exact D].
Qed.

(** * The cipher on four words *)

Abbreviation quad := (Z * Z * Z * Z)%type.
Definition inQ (x : quad) : Prop := let '(a, b, c, d) := x in inU 16 a /\ inU 16 b /\ inU 16 c /\ inU 16 d.
Definition sw (x : quad) : quad := let '(a, b, c, d) := x in (a, c, b, d).

(** The keyed layer, and the layer that changes both pairs by the same two words. *)
Definition layer (k x : quad) : quad :=
  let '(k1, k2, k3, k4) := k in let '(a, b, c, d) := x in (gmul a k1, u16 (b + k2), u16 (c + k3), gmul d k4).
Definition mix (k : Z * Z) (x : quad) : quad :=
  let '(a, b, c, d) := x in
  let p := gmul (Z.lxor c a) k.1 in
  let q := gmul (u16 (Z.lxor b d + p)) k.2 in
  let r := u16 (p + q) in
  (Z.lxor a q, Z.lxor b r, Z.lxor c q, Z.lxor d r).

(** A round, and the cipher with its rounds and the last layer. *)
Abbreviation group := (quad * (Z * Z))%type.
Definition round (g : group) (x : quad) : quad := sw (mix g.2 (layer g.1 x)).
Definition rounds (gs : list group) (x : quad) : quad := fold_left (fun x g => round g x) gs x.
Definition cipher (gs : list group) (k : quad) (x : quad) : quad := layer k (sw (rounds gs x)).

Definition group_ok (g : group) : Prop := inQ g.1 /\ inU 16 g.2.1 /\ inU 16 g.2.2.

Section Algebra.
Implicit Types (x k : quad) (g : group).

Lemma sw_sw x : sw (sw x) = x.
Proof. destruct x as [[[a b] c] d]. reflexivity. Qed.
Lemma inQ_sw x : inQ x -> inQ (sw x).
Proof. destruct x as [[[a b] c] d]. cbn. tauto. Qed.
Lemma inQ_layer k x : inQ (layer k x).
Proof. destruct k as [[[k1 k2] k3] k4], x as [[[a b] c] d]. cbn. auto using gmul_inU, u16_inU. Qed.
Lemma inQ_mix (m : Z * Z) x : inQ x -> inQ (mix m x).
Proof. destruct x as [[[a b] c] d]. cbn. intros (Ha & Hb & Hc & Hd). split; [|split; [|split]]; (apply inU_lxor; [lia|assumption|first [apply gmul_inU|apply u16_inU]]). Qed.
Lemma inQ_round g x : inQ (round g x).
Proof. apply inQ_sw, inQ_mix, inQ_layer. Qed.
Lemma inQ_rounds gs x : inQ x -> inQ (rounds gs x).
Proof. revert x. induction gs as [|g gs IH]; intros x Hx; [exact Hx|]. apply IH, inQ_round. Qed.

(** The second layer undoes itself: it does not change what it depends on. *)
Lemma mix_mix (m : Z * Z) x : mix m (mix m x) = x.
Proof.
  destruct x as [[[a b] c] d]. unfold mix. cbv zeta. set (p := gmul (Z.lxor c a) m.1). set (q := gmul (u16 (Z.lxor b d + p)) m.2). set (r := u16 (p + q)).
  assert (forall u v w, Z.lxor (Z.lxor u w) (Z.lxor v w) = Z.lxor u v) as H.
  { intros u v w. apply Z.bits_inj'. intros n _. rewrite !Z.lxor_spec. destruct (Z.testbit u n), (Z.testbit v n), (Z.testbit w n); reflexivity. }
  rewrite !H. fold p. fold q. fold r.
  assert (forall u w, Z.lxor (Z.lxor u w) w = u) as H2 by (intros u w; rewrite Z.lxor_assoc, Z.lxor_nilpotent, Z.lxor_0_r; reflexivity).
  rewrite !H2. reflexivity.
Qed.

Lemma rounds_cons k (m : Z * Z) gs x : rounds ((k, m) :: gs) x = rounds gs (sw (mix m (layer k x))).
Proof. reflexivity. Qed.

(** The inverse of a key of the first layer. *)
Definition inv_key k k' : Prop :=
  let '(k1, k2, k3, k4) := k in let '(i1, i2, i3, i4) := k' in inverse k1 i1 /\ i2 = u16 (- k2) /\ i3 = u16 (- k3) /\ inverse k4 i4.

Lemma add_neg a b : inU 16 a -> u16 (u16 (a + b) + u16 (- b)) = a.
Proof. intros H. rewrite u16_add_r, u16_add_l. replace (a + b + - b) with a by lia. apply wrapU_id, H. Qed.

Lemma layer_inv k k' x : inQ k -> inQ x -> inv_key k k' -> layer k' (layer k x) = x.
Proof.
  destruct k as [[[k1 k2] k3] k4], k' as [[[i1 i2] i3] i4], x as [[[a b] c] d]. cbn. intros (K1 & _ & _ & K4) (Ha & Hb & Hc & Hd) (I1 & -> & -> & I4).
  rewrite !gmul_cancel, !add_neg by assumption. reflexivity.
Qed.

Lemma layer_sw k x : layer (sw k) (sw x) = sw (layer k x).
Proof. destruct k as [[[k1 k2] k3] k4], x as [[[a b] c] d]. reflexivity. Qed.

(** The inner groups of the inverted key, for the rounds after the first layer [k]: [inv_rounds k gs ds] says that
    [ds] holds the mixing keys of all rounds but the last and the inverses of the layers after the first, from the
    end; [k'] is the layer of the last round and [m'] its mixing key. *)
Inductive inv_rounds : list group -> list group -> Prop :=
| inv_one g : inv_rounds [g] []
| inv_snoc gs ds g g' i : inv_rounds (gs ++ [g]) ds -> inv_key g'.1 i -> inv_rounds (gs ++ [g; g']) ((sw i, g.2) :: ds).

Lemma inv_rounds_ok gs ds : inv_rounds gs ds -> Forall group_ok gs -> forall x, inQ x ->
  exists g0 gs0 g1 gs1, gs = g0 :: gs0 /\ gs = gs1 ++ [g1] /\ rounds ds (sw (layer g1.1 (rounds gs1 x))) = sw (layer g0.1 x).
Proof.
  induction 1 as [g|gs ds g g' i Hi IH Hk]; intros Hok x Hx.
  - exists g, [], g, []. auto.
  - assert (Forall group_ok (gs ++ [g])) as Hok1 by (apply Forall_app in Hok as [H1 H2]; apply Forall_app; split; [exact H1|constructor; [exact (Forall_inv H2)|constructor]]).
    assert (inQ g'.1) as Hg' by (apply Forall_app in Hok as [_ H2]; exact (proj1 (Forall_inv (Forall_inv_tail H2)))).
    destruct (IH Hok1 x Hx) as (g0 & gs0 & g1 & gs1 & E0 & E1 & Hr). apply app_inj_tail in E1 as [<- <-].
    destruct gs as [|h gs]; cbn [app] in E0; injection E0 as -> E0.
    + exists g0, [g'], g', [g0]. split; [reflexivity|]. split; [reflexivity|]. change (rounds [g0] x) with (round g0 x). rewrite rounds_cons.
      rewrite layer_sw, (layer_inv g'.1 i _ Hg'); [|apply inQ_round|exact Hk]. unfold round. rewrite sw_sw, mix_mix. exact Hr.
    + exists g0, (gs ++ [g; g']), g', (g0 :: gs ++ [g]). split; [reflexivity|]. split; [cbn [app]; rewrite <- app_assoc; reflexivity|].
      assert (rounds (g0 :: gs ++ [g]) x = round g (rounds (g0 :: gs) x)) as -> by (unfold rounds; cbn [fold_left]; rewrite fold_left_app; reflexivity).
      rewrite rounds_cons, layer_sw, (layer_inv g'.1 i _ Hg'); [|apply inQ_round|exact Hk]. unfold round. rewrite sw_sw, mix_mix. exact Hr.
Qed.

(** Decryption with the inverted key. *)
Lemma cipher_inv gs ds g0 gs0 gs1 g1 k i0 ik x : gs = g0 :: gs0 -> gs = gs1 ++ [g1] -> inv_rounds gs ds -> Forall group_ok gs -> inQ k -> inQ x ->
  inv_key g0.1 i0 -> inv_key k ik -> cipher ((ik, g1.2) :: ds) i0 (cipher gs k x) = x.
Proof.
  intros E0 E1 Hi Hok Hk Hx H0 Hik. destruct (inv_rounds_ok gs ds Hi Hok x Hx) as (a & b & c & d & F0 & F1 & Hr).
  rewrite E0 in F0. injection F0 as <- <-. rewrite E1 in F1. apply app_inj_tail in F1 as [<- <-].
  unfold cipher. rewrite rounds_cons.
  assert (sw (rounds gs x) = mix g1.2 (layer g1.1 (rounds gs1 x))) as E.
  { rewrite E1. unfold rounds. rewrite fold_left_app. cbn [fold_left]. unfold round at 1. rewrite sw_sw. reflexivity. }
  rewrite E, (layer_inv k ik); [|exact Hk|apply inQ_mix, inQ_layer|exact Hik]. rewrite mix_mix, Hr, sw_sw.
  apply layer_inv; [|exact Hx|exact H0]. rewrite E0 in Hok. exact (proj1 (Forall_inv Hok)).
Qed.
End Algebra.

(** * The code against the cipher on words *)

Definition quad_list (x : quad) : list Z := let '(a, b, c, d) := x in [a; b; c; d].
Definition group_list (g : group) : list Z := quad_list g.1 ++ [g.2.1; g.2.2].
(** The 52 words of a key. *)
Definition flat (gs : list group) (k : quad) : list Z := mjoin (group_list <$> gs) ++ quad_list k.

Lemma flat_cons g gs k : flat (g :: gs) k = group_list g ++ flat gs k.
Proof. unfold flat. cbn [fmap list_fmap]. rewrite mjoin_cons, app_assoc. reflexivity. Qed.

Lemma u16_lxor x y : u16 (Z.lxor x y) = Z.lxor (u16 x) (u16 y).
Proof.
  unfold wrapU. rewrite <- !Z.land_ones by lia. apply Z.bits_inj'. intros n _. rewrite !Z.land_spec, !Z.lxor_spec, !Z.land_spec.
  destruct (Z.testbit x n), (Z.testbit y n), (Z.testbit (Z.ones 16) n); reflexivity.
Qed.

Section Words.
Context (dm : data_model) (idea32 : bool).
Local Abbreviation W := (uint16_bits idea32).
Local Abbreviation uw := (wrapU W).
Implicit Types (x y k : Z) (g : group) (q : quad).

Definition inQW (q : quad) : Prop := let '(a, b, c, d) := q in inU W a /\ inU W b /\ inU W c /\ inU W d.
Definition low_quad (q : quad) : quad := let '(a, b, c, d) := q in (u16 a, u16 b, u16 c, u16 d).

Lemma W_pos : 0 <= W.
Proof. destruct (W_cases idea32) as [[-> _]|[-> _]]; lia. Qed.

Lemma inUW_lxor x y : inU W x -> inU W y -> inU W (Z.lxor x y).
Proof. apply inU_lxor, W_pos. Qed.

Lemma MUL_inU x y : inU W x -> inU 16 y -> inU W (MUL dm idea32 x y).
Proof. intros Hx Hy. exact (proj1 (MUL_ok dm idea32 x y Hx Hy)). Qed.
Lemma MUL_low x y : inU W x -> inU 16 y -> u16 (MUL dm idea32 x y) = gmul (u16 x) y.
Proof. intros Hx Hy. exact (proj2 (MUL_ok dm idea32 x y Hx Hy)). Qed.

Lemma cipher_round_ok q g rest : inQW q -> group_ok g ->
  exists q', cipher_round dm idea32 (q, group_list g ++ rest) = Ok (q', rest) /\ inQW q' /\ low_quad q' = round g (low_quad q).
Proof.
  destruct q as [[[x1 x2] x3] x4], g as [[[[k1 k2] k3] k4] [k5 k6]]. cbn [inQW group_ok inQ fst snd]. intros (H1 & H2 & H3 & H4) ((K1 & K2 & K3 & K4) & K5 & K6).
  eexists. split; [reflexivity|]. pose proof (uw_range idea32) as Huw.
  assert (forall x y, inU W x -> inU W y -> inU W (Z.lxor x y)) as Hxor by exact inUW_lxor.
  assert (forall x y, inU W x -> inU 16 y -> inU W (MUL dm idea32 x y)) as Hm by exact MUL_inU.
  split; [cbn [inQW]; auto 9|].
  cbn [low_quad round sw mix layer fst snd]. rewrite !u16_lxor, !u16_uw.
  assert (u16 (MUL dm idea32 (Z.lxor (uw (x3 + k3)) (MUL dm idea32 x1 k1)) k5) = gmul (Z.lxor (u16 (u16 x3 + k3)) (gmul (u16 x1) k1)) k5) as Ep.
  { rewrite MUL_low, u16_lxor, MUL_low, u16_uw, u16_add_l by auto. reflexivity. }
  set (p := MUL dm idea32 (Z.lxor (uw (x3 + k3)) _) k5) in *. set (P := gmul (Z.lxor (u16 (u16 x3 + k3)) _) k5) in *.
  assert (u16 (MUL dm idea32 (uw (Z.lxor (uw (x2 + k2)) (MUL dm idea32 x4 k4) + p)) k6) = gmul (u16 (Z.lxor (u16 (u16 x2 + k2)) (gmul (u16 x4) k4) + P)) k6) as Eq.
  { rewrite MUL_low, u16_uw by auto. rewrite <- u16_add_l, u16_lxor, u16_uw, MUL_low, <- u16_add_r, Ep by auto. rewrite (u16_add_l x2). reflexivity. }
  set (r := MUL dm idea32 (uw (Z.lxor (uw (x2 + k2)) _ + p)) k6) in *. set (R := gmul (u16 (Z.lxor (u16 (u16 x2 + k2)) _ + P)) k6) in *.
  rewrite !MUL_low, Eq, !u16_add_l by auto. rewrite <- (u16_add_l p), <- (u16_add_r _ r), Ep, Eq.
  rewrite (Z.lxor_comm (u16 (x3 + k3)) R), (Z.lxor_comm (u16 (x2 + k2)) (u16 (P + R))). reflexivity.
Qed.

Lemma cipher_rounds_ok gs rest : forall i q, inQW q -> Forall group_ok gs ->
  exists q', cfor (length gs) i (fun _ => cipher_round dm idea32) (q, mjoin (group_list <$> gs) ++ rest) = Ok (q', rest) /\
    inQW q' /\ low_quad q' = rounds gs (low_quad q).
Proof.
  induction gs as [|g gs IH]; intros i q Hq Hg; [exists q; auto|]. cbn [length cfor fmap list_fmap]. rewrite mjoin_cons, <- app_assoc.
  destruct (cipher_round_ok q g (mjoin (group_list <$> gs) ++ rest) Hq (Forall_inv Hg)) as (q1 & E1 & Hq1 & El). rewrite E1. cbn [mbind res_bind].
  destruct (IH (i + 1) q1 Hq1 (Forall_inv_tail Hg)) as (q2 & E2 & Hq2 & El2). exists q2. rewrite E2. rewrite El2, El. auto.
Qed.

(** The words of a block. *)
Definition block_words (b : list Z) : quad :=
  (be_word (take 2 b), be_word (take 2 (drop 2 b)), be_word (take 2 (drop 4 b)), be_word (take 2 (drop 6 b))).
Definition words_block (q : quad) : list Z :=
  let '(a, b, c, d) := q in be_bytes 2 a ++ be_bytes 2 b ++ be_bytes 2 c ++ be_bytes 2 d.

Lemma be_word2 a b : be_word [a; b] = 256 * a + b.
Proof. unfold be_word. cbn [rev app le_word]. lia. Qed.

Lemma swap_word lo hi : inU 8 lo -> inU 8 hi -> u16 (swap16 idea32 (lo + 256 * hi)) = 256 * lo + hi.
Proof.
  unfold inU. change (2 ^ 8) with 256. intros Hlo Hhi. unfold swap16. rewrite u16_uw.
  rewrite Z.shiftr_div_pow2, Z.shiftl_mul_pow2 by lia. change (2 ^ 8) with 256. replace (lo + 256 * hi) with (lo + hi * 256) by lia. rewrite Z.div_add, Z.div_small by lia.
  rewrite Z.lor_comm. change 256 with (2 ^ 8) at 2. rewrite lor_disjoint_add by (change (2 ^ 8) with 256; lia).
  unfold wrapU. change (2 ^ 16) with 65536. change (2 ^ 8) with 256. symmetry. apply Z.mod_unique with hi; lia.
Qed.

Lemma put_swap x : inU 16 x -> put_word16 (swap16 idea32 x) = be_bytes 2 x.
Proof.
  unfold inU. change (2 ^ 16) with 65536. intros Hx. unfold put_word16. replace x with (x mod 256 + 256 * (x / 256)) at 1 by (pose proof (Z.div_mod x 256 ltac:(lia)); lia).
  pose proof (Z.mod_pos_bound x 256 ltac:(lia)) as Hm. assert (0 <= x / 256 < 256) as Hd by (split; [apply Z.div_pos; lia|apply Z.div_lt_upper_bound; lia]).
  rewrite swap_word by assumption. unfold be_bytes. cbn [le_bytes rev app]. f_equal; [|f_equal].
  - replace (256 * (x mod 256) + x / 256) with (x / 256 + (x mod 256) * 256) by lia. rewrite Z.mod_add, (Z.mod_small (x / 256)) by lia. reflexivity.
  - replace (256 * (x mod 256) + x / 256) with (x / 256 + (x mod 256) * 256) by lia. rewrite Z.div_add, (Z.div_small (x / 256) 256) by lia. rewrite Z.add_0_l, Z.mod_mod by lia. reflexivity.
Qed.
End Words.

(** * Keys as lists *)

Definition key_ok (EK : list Z) : Prop := length EK = IDEAKEYLEN /\ Forall (inU 16) EK.

Lemma split_group EK : (6 <= length EK)%nat -> Forall (inU 16) EK ->
  exists g rest, EK = group_list g ++ rest /\ group_ok g /\ Forall (inU 16) rest /\ length EK = (6 + length rest)%nat.
Proof.
  intros Hl HF. do 6 (destruct EK as [|? EK]; [cbn [length] in Hl; lia|]).
  repeat (apply Forall_cons_1 in HF as [? HF]). exists (z, z0, z1, z2, (z3, z4)), EK. split; [reflexivity|].
  split; [unfold group_ok, inQ; cbn [fst snd]; auto 7|]. split; [exact HF|reflexivity].
Qed.

Lemma split_groups n : forall EK, length EK = (6 * n + 4)%nat -> Forall (inU 16) EK ->
  exists gs k, EK = flat gs k /\ length gs = n /\ Forall group_ok gs /\ inQ k.
Proof.
  induction n as [|n IH]; intros EK Hl HF.
  - do 4 (destruct EK as [|? EK]; [cbn [length] in Hl; lia|]). destruct EK; [|cbn [length] in Hl; lia].
    repeat (apply Forall_cons_1 in HF as [? HF]). exists [], (z, z0, z1, z2). unfold inQ. auto 8.
  - destruct (split_group EK) as (g & rest & -> & Hg & Hr & El); [lia|exact HF|].
    destruct (IH rest) as (gs & k & -> & Hn & Hgs & Hk); [lia|exact Hr|]. exists (g :: gs), k. rewrite flat_cons. cbn [length]. auto.
Qed.

Lemma key_flat EK : key_ok EK -> exists gs k, EK = flat gs k /\ length gs = IDEAROUNDS /\ Forall group_ok gs /\ inQ k.
Proof. intros [Hl HF]. exact (split_groups 8 EK Hl HF). Qed.

Lemma flat_key gs k : length gs = IDEAROUNDS -> Forall group_ok gs -> inQ k -> key_ok (flat gs k).
Proof.
  intros Hl Hg Hk. assert (forall n gs, length gs = n -> Forall group_ok gs -> length (flat gs k) = (6 * n + 4)%nat /\ Forall (inU 16) (flat gs k)) as H.
  { clear gs Hl Hg. destruct k as [[[a b] c] d]. destruct Hk as (Ha & Hb & Hc & Hd). induction n as [|n IH]; intros [|g gs] Hl Hg; try discriminate.
    - split; [reflexivity|]. cbn. repeat (apply Forall_cons_2; [assumption|]). constructor.
    - rewrite flat_cons, length_app, Forall_app. destruct (IH gs ltac:(cbn [length] in Hl; lia) (Forall_inv_tail Hg)) as [E HF]. rewrite E.
      pose proof (Forall_inv Hg) as Hg0. destruct g as [[[[k1 k2] k3] k4] [k5 k6]]. destruct Hg0 as ((K1 & K2 & K3 & K4) & K5 & K6).
      split; [cbn; lia|]. split; [|exact HF]. cbn. repeat (apply Forall_cons_2; [assumption|]). constructor. }
  exact (H IDEAROUNDS gs Hl Hg).
Qed.

Section Cipher.
Context (dm : data_model) (idea32 : bool).
Implicit Types (g : group) (q : quad).

Lemma next_cons x l : next (x :: l) = Ok (x, l).
Proof. reflexivity. Qed.

Lemma words_low (b : list Z) : barr 8 b -> exists x1 x2 x3 x4, get_word16 b 0 = Ok x1 /\ get_word16 b 1 = Ok x2 /\ get_word16 b 2 = Ok x3 /\ get_word16 b 3 = Ok x4 /\
  low_quad (swap16 idea32 x1, swap16 idea32 x2, swap16 idea32 x3, swap16 idea32 x4) = block_words b /\ inQ (block_words b).
Proof.
  intros [Hl HF]. do 8 (destruct b as [|? b]; [discriminate|]). destruct b; [|discriminate].
  repeat (apply Forall_cons_1 in HF as [? HF]). exists (z + 256 * z0), (z1 + 256 * z2), (z3 + 256 * z4), (z5 + 256 * z6).
  do 4 (split; [reflexivity|]). unfold block_words. cbn [take drop low_quad]. rewrite !be_word2, !swap_word by assumption. split; [reflexivity|].
  cbn [inQ]. unfold inU in *. change (2 ^ 8) with 256 in *. change (2 ^ 16) with 65536. lia.
Qed.

Lemma ideaCipher_ok b gs k : barr 8 b -> length gs = IDEAROUNDS -> Forall group_ok gs -> inQ k ->
  ideaCipher dm idea32 b (flat gs k) = Ok (words_block (cipher gs k (block_words b))).
Proof.
  intros Hb Hl Hg Hk. destruct (words_low b Hb) as (x1 & x2 & x3 & x4 & E1 & E2 & E3 & E4 & El & _).
  unfold ideaCipher. rewrite E1, E2, E3, E4. cbn [mbind res_bind]. rewrite <- Hl. unfold flat.
  destruct (cipher_rounds_ok dm idea32 gs (quad_list k) 0 (swap16 idea32 x1, swap16 idea32 x2, swap16 idea32 x3, swap16 idea32 x4))
    as ([[[y1 y2] y3] y4] & Ec & (Y1 & Y2 & Y3 & Y4) & Hr); [unfold swap16; cbn [inQW]; auto using uw_range|exact Hg|].
  rewrite Ec. cbn [mbind res_bind]. destruct k as [[[k1 k2] k3] k4]. destruct Hk as (K1 & _ & _ & K4). cbn [quad_list]. rewrite !next_cons. cbn [mbind res_bind].
  rewrite next_cons. cbn [mbind res_bind]. rewrite next_cons. cbn [mbind res_bind]. rewrite next_cons. cbn [mbind res_bind mret res_ret].
  unfold cipher. rewrite <- El, <- Hr. cbn [low_quad sw layer words_block]. f_equal.
  rewrite !low16_ok by (first [apply uw_range|apply MUL_inU; assumption]). rewrite !put_swap by apply u16_inU.
  rewrite !MUL_low, !u16_uw, !u16_add_l by assumption. reflexivity.
Qed.

Lemma be_bytes_word2 b : barr 2 b -> be_bytes 2 (be_word b) = b.
Proof.
  intros [Hl HF]. unfold be_bytes, be_word. rewrite <- (length_rev b) in Hl. rewrite <- Hl, le_bytes_word, rev_involutive; [reflexivity|].
  apply Forall_rev, HF.
Qed.

Lemma words_block_words b : barr 8 b -> words_block (block_words b) = b.
Proof.
  intros Hb. unfold words_block, block_words. rewrite !be_bytes_word2.
  - rewrite (take_ge (drop 6 b) 2) by (rewrite length_drop; destruct Hb; lia). rewrite <- (take_drop 6 b) at 5.
    rewrite app_assoc, app_assoc. f_equal. destruct Hb as [Hl _]. do 8 (destruct b as [|? b]; [discriminate|]). reflexivity.
  - apply barr_take with 0%nat. apply barr_drop with (n := 6%nat). exact Hb.
  - apply barr_take with 2%nat. apply barr_drop with (n := 4%nat). exact Hb.
  - apply barr_take with 4%nat. apply barr_drop with (n := 2%nat). exact Hb.
  - apply barr_take with 6%nat. exact Hb.
Qed.

Lemma block_words_block q : inQ q -> block_words (words_block q) = q /\ barr 8 (words_block q).
Proof.
  assert (forall x, inU 16 x -> exists h l, be_bytes 2 x = [h; l] /\ inU 8 h /\ inU 8 l /\ 256 * h + l = x) as H.
  { intros x Hx. exists ((x / 256) mod 256), (x mod 256). unfold inU in *. change (2 ^ 8) with 256. change (2 ^ 16) with 65536 in Hx.
    split; [reflexivity|]. pose proof (Z.div_mod x 256 ltac:(lia)). pose proof (Z.mod_pos_bound x 256 ltac:(lia)).
    assert (0 <= x / 256 < 256) by (split; [apply Z.div_pos; lia|apply Z.div_lt_upper_bound; lia]). rewrite (Z.mod_small (x / 256)) by lia. lia. }
  destruct q as [[[a b] c] d]. intros (Ha & Hb & Hc & Hd). destruct (H a Ha) as (ah & al & Ea & ? & ? & <-), (H b Hb) as (bh & bl & Eb & ? & ? & <-),
    (H c Hc) as (ch & cl & Ec & ? & ? & <-), (H d Hd) as (dh & dl & Ed & ? & ? & <-).
  unfold words_block, block_words. rewrite Ea, Eb, Ec, Ed. cbn [app take drop]. rewrite !be_word2. split; [reflexivity|].
  split; [reflexivity|]. repeat (apply Forall_cons_2; [assumption|]). constructor.
Qed.
End Cipher.

(** * The inverted key *)

Section Invert.
Context (idea32 : bool).
Implicit Types (g : group) (k i : quad) (gs ds : list group).

Lemma neg_word x : inU 16 x -> u16 (wrapU (uint16_bits idea32) (- x)) = u16 (- x).
Proof. intros _. apply u16_uw. Qed.

Lemma inverse_inU k : inQ k -> forall i, inv_key k i -> inQ i.
Proof. destruct k as [[[a b] c] d]. intros _ [[[i1 i2] i3] i4] ([H1 _] & -> & -> & [H4 _]). split; [exact H1|]. split; [apply u16_inU|]. split; [apply u16_inU|exact H4]. Qed.

Lemma invert_group_ok (swap : bool) k rest p : inQ k ->
  exists i, invert_group idea32 swap (quad_list k ++ rest, p) = Ok (rest, quad_list (if swap then sw i else i) ++ p) /\ inv_key k i.
Proof.
  destruct k as [[[a b] c] d]. intros (Ha & Hb & Hc & Hd). pose proof (mulInv_fact idea32 a Ha) as Ia. pose proof (mulInv_fact idea32 d Hd) as Id.
  apply okp_ok in Ia as (ia & Ea & Ia). apply okp_ok in Id as (id & Ed & Id).
  exists (ia, u16 (- b), u16 (- c), id). split; [|cbn; auto]. unfold invert_group. cbn [quad_list app next mbind res_bind mret res_ret].
  rewrite Ea. cbn [mbind res_bind]. rewrite Ed. cbn [mbind res_bind]. rewrite !u16_uw, (wrapU_id 16 ia), (wrapU_id 16 id) by (apply Ia || apply Id).
  destruct swap; reflexivity.
Qed.

Lemma invert_loop_ok i0 k rest : forall gs g ds j, inv_rounds (gs ++ [g]) ds -> Forall group_ok (gs ++ g :: rest) -> Forall group_ok ds ->
  exists gs1 g1 ds1, gs ++ g :: rest = gs1 ++ [g1] /\ inv_rounds (gs1 ++ [g1]) ds1 /\ Forall group_ok ds1 /\ length ds1 = (length ds + length rest)%nat /\
    cfor (length rest) j (fun _ st => st ← invert_pair st; invert_group idea32 true st) ([g.2.1; g.2.2] ++ flat rest k, flat ds i0) =
      Ok ([g1.2.1; g1.2.2] ++ quad_list k, flat ds1 i0).
Proof.
  induction rest as [|g' rest IH]; intros gs g ds j Hi Hg Hd; [exists gs, g, ds; rewrite Nat.add_0_r; auto|].
  assert (group_ok g /\ group_ok g') as [Hg0 Hg'] by (apply Forall_app in Hg as [_ H]; split; [exact (Forall_inv H)|exact (Forall_inv (Forall_inv_tail H))]).
  cbn [length cfor]. cbn [app invert_pair next mbind res_bind mret res_ret]. rewrite flat_cons. unfold group_list at 1. rewrite <- app_assoc.
  destruct (invert_group_ok true g'.1 ([g'.2.1; g'.2.2] ++ flat rest k) (g.2.1 :: g.2.2 :: flat ds i0) (proj1 Hg')) as (i & Ei & Hk). rewrite Ei. cbn [mbind res_bind].
  destruct (IH (gs ++ [g]) g' ((sw i, g.2) :: ds) (j + 1)) as (gs1 & g1 & ds1 & E1 & Hi1 & Hd1 & Hl & Ec).
  - rewrite <- app_assoc. apply inv_snoc; assumption.
  - rewrite <- app_assoc. exact Hg.
  - constructor; [|exact Hd]. destruct Hg0 as (_ & M1 & M2). split; [apply inQ_sw, (inverse_inU g'.1); [exact (proj1 Hg')|exact Hk]|auto].
  - exists gs1, g1, ds1. split; [rewrite <- E1, <- app_assoc; reflexivity|]. split; [exact Hi1|]. split; [exact Hd1|]. split; [cbn [length] in Hl; lia|].
    etransitivity; [|exact Ec]. rewrite (flat_cons (sw i, g.2)). unfold group_list. cbn [fst snd]. rewrite <- (app_assoc (quad_list (sw i))). reflexivity.
Qed.

Lemma ideaInvertKey_ok gs k : length gs = IDEAROUNDS -> Forall group_ok gs -> inQ k ->
  exists ds i, ideaInvertKey idea32 (flat gs k) = Ok (flat ds i) /\ length ds = IDEAROUNDS /\ Forall group_ok ds /\ inQ i /\
    forall x, inQ x -> cipher ds i (cipher gs k x) = x.
Proof.
  intros Hl Hg Hk. destruct gs as [|g0 gs]; [discriminate|]. pose proof (Forall_inv Hg) as Hg0. unfold ideaInvertKey.
  rewrite flat_cons. unfold group_list at 1. rewrite <- app_assoc.
  destruct (invert_group_ok false g0.1 ([g0.2.1; g0.2.2] ++ flat gs k) [] (proj1 Hg0)) as (i0 & E0 & H0). rewrite E0. cbn [mbind res_bind]. rewrite app_nil_r.
  destruct (invert_loop_ok i0 k gs [] g0 [] 0 (inv_one g0) Hg (Forall_nil _)) as (gs1 & g1 & ds1 & E1 & Hi1 & Hd1 & Hl1 & Ec).
  cbn [app] in E1. replace (IDEAROUNDS - 1)%nat with (length gs) by (cbn [length] in Hl; unfold IDEAROUNDS in *; lia).
  change (flat [] i0) with (quad_list i0) in Ec. rewrite Ec. cbn [mbind res_bind app invert_pair next mret res_ret].
  assert (Forall group_ok (gs1 ++ [g1])) as Hg1 by (rewrite <- E1; exact Hg).
  destruct (invert_group_ok false k [] (g1.2.1 :: g1.2.2 :: flat ds1 i0) Hk) as (ik & E2 & Hik). rewrite app_nil_r in E2. rewrite E2. cbn [mbind res_bind].
  exists ((ik, g1.2) :: ds1), i0. split; [|split; [|split; [|split]]].
  - rewrite flat_cons. unfold group_list. cbn [fst snd]. rewrite <- app_assoc. reflexivity.
  - cbn [length] in *. unfold IDEAROUNDS in *. lia.
  - constructor; [|exact Hd1]. apply Forall_app in Hg1 as [_ Hg1]. destruct (Forall_inv Hg1) as (_ & M1 & M2). split; [exact (inverse_inU k Hk ik Hik)|auto].
  - exact (inverse_inU g0.1 (proj1 Hg0) i0 H0).
  - intros x Hx. rewrite <- E1 in Hi1. exact (cipher_inv (g0 :: gs) ds1 g0 gs gs1 g1 k i0 ik x eq_refl E1 Hi1 Hg Hk Hx H0 Hik).
Qed.
End Invert.

(** C27: Decryption inverts encryption: for every expanded key, and for 16-bit and wider
    temporaries, ideaInvertKey succeeds, and ideaCipher with the inverted key maps every
    encrypted block back to the block, where the encrypted block is that of the eight and a half
    rounds over multiplication modulo 65537, addition and exclusive or of 16-bit words. MUL is
    multiplication modulo the prime 65537 with 0 for 65536, whatever the upper bits of its wider
    operand, and mulInv ends and computes the inverses of this multiplication. *)
Theorem idea_decrypts dm idea32 EK b : key_ok EK -> barr 8 b ->
  (exists DK c, ideaInvertKey idea32 EK = Ok DK /\ key_ok DK /\ ideaCipher dm idea32 b EK = Ok c /\ barr 8 c /\ ideaCipher dm idea32 c DK = Ok b /\
     exists gs k, EK = flat gs k /\ length gs = 8%nat /\ block_words c = cipher gs k (block_words b)) /\
  (forall x y, inU (uint16_bits idea32) x -> inU 16 y -> u16 (MUL dm idea32 x y) = (rep (u16 x) * rep y) mod 65537 mod 65536) /\
  (forall x, inU 16 x -> exists y, mulInv idea32 x = Ok y /\ inU 16 y /\ (rep x * rep y) mod 65537 = 1).
Proof.
  intros HEK Hb. split; [|split].
  - destruct (key_flat EK HEK) as (gs & k & -> & Hl & Hg & Hk).
    destruct (ideaInvertKey_ok idea32 gs k Hl Hg Hk) as (ds & i & Ei & Hld & Hgd & Hi & Hx).
    destruct (words_low idea32 b Hb) as (_ & _ & _ & _ & _ & _ & _ & _ & _ & Hw).
    assert (inQ (cipher gs k (block_words b))) as Hc by apply inQ_layer. destruct (block_words_block _ Hc) as [Ew Hbc].
    exists (flat ds i), (words_block (cipher gs k (block_words b))). split; [exact Ei|]. split; [apply flat_key; assumption|].
    split; [apply ideaCipher_ok; assumption|]. split; [exact Hbc|]. split; [|exists gs, k; auto].
    rewrite ideaCipher_ok, Ew, Hx, words_block_words by assumption. reflexivity.
  - intros x y Hx Hy. exact (proj2 (MUL_ok dm idea32 x y Hx Hy)).
  - intros x Hx. pose proof (mulInv_fact idea32 x Hx) as H. apply okp_ok in H as (y & E & Hy & Hm). exists y. auto.
Qed.

(** * The expanded key *)

(** The word at position [s] of a 128-bit key that is read as a circle. *)
Definition kword (K s : Z) : Z := let r := (112 - s) mod 128 in u16 (Z.lor (K ≫ r) (K ≪ (128 - r))).
(** Eight words of the key, then eight of the key rotated by 25 bits, and so on. *)
Definition key_word (K : Z) (n : nat) : Z := kword K (16 * (Z.of_nat n mod 8) + 25 * (Z.of_nat n / 8)).

Section Expand.
Implicit Types (K s i : Z).

Lemma kword_bit K s i : inU 128 K -> 0 <= i < 16 -> Z.testbit (kword K s) i = Z.testbit K ((112 + i - s) mod 128).
Proof.
  intros HK Hi. unfold kword. set (r := (112 - s) mod 128). pose proof (Z.mod_pos_bound (112 - s) 128 ltac:(lia)) as Hr. fold r in Hr.
  unfold wrapU. rewrite <- Z.land_ones, Z.land_spec, Z.ones_spec_low, andb_true_r, Z.lor_spec, Z.shiftr_spec, Z.shiftl_spec by lia.
  assert ((112 + i - s) mod 128 = (r + i) mod 128) as ->.
  { unfold r. rewrite Z.add_mod_idemp_l by lia. f_equal. lia. }
  destruct (Z.lt_ge_cases (r + i) 128) as [Hlt|Hge].
  - rewrite (Z.mod_small (r + i)), (Z.testbit_neg_r _ (i - (128 - r))) by lia. rewrite orb_false_r. f_equal. lia.
  - replace ((r + i) mod 128) with (r + i - 128) by (apply Z.mod_unique with 1; lia).
    rewrite (inU_high 128 K (i + r)) by (assumption || lia). cbn [orb]. f_equal. lia.
Qed.

Lemma kword_inU K s : inU 16 (kword K s).
Proof. apply u16_inU. Qed.

Lemma kword_ext K s s' : s mod 128 = s' mod 128 -> kword K s = kword K s'.
Proof. intros E. unfold kword. rewrite <- Zminus_mod_idemp_r, E, Zminus_mod_idemp_r. reflexivity. Qed.

(** Two neighbouring words hold the word 9 bits further on. *)
Lemma kword_step K s : inU 128 K -> u16 (Z.lor (kword K s ≪ 9) (kword K (s + 16) ≫ 7)) = kword K (s + 9).
Proof.
  intros HK. apply Z.bits_inj'. intros i Hi. destruct (Z.lt_ge_cases i 16) as [Hlt|Hge]; [|rewrite !(inU_high 16) by (first [apply u16_inU|lia]); reflexivity].
  rewrite (kword_bit K (s + 9)) by (assumption || lia).
  unfold wrapU at 1. rewrite <- Z.land_ones, Z.land_spec, Z.ones_spec_low, andb_true_r, Z.lor_spec, Z.shiftl_spec, Z.shiftr_spec by lia.
  destruct (Z.lt_ge_cases i 9) as [H9|H9].
  - rewrite Z.testbit_neg_r, kword_bit by (assumption || lia). cbn [orb]. f_equal. f_equal. lia.
  - rewrite (inU_high 16 (kword K (s + 16))) by (first [apply kword_inU|lia]). rewrite orb_false_r, kword_bit by (assumption || lia). f_equal. f_equal. lia.
Qed.

Lemma le_word_drop n : forall b, Forall (inU 8) b -> le_word b / 256 ^ Z.of_nat n = le_word (drop n b).
Proof.
  induction n as [|n IH]; intros b HF; [cbn [drop]; change (256 ^ Z.of_nat 0) with 1; apply Z.div_1_r|].
  destruct b as [|x b]; [apply Z.div_0_l; lia|]. apply Forall_cons_1 in HF as [Hx HF]. unfold inU in Hx. change (2 ^ 8) with 256 in Hx.
  cbn [drop le_word]. rewrite <- IH by exact HF. rewrite Nat2Z.inj_succ, Z.pow_succ_r, <- Z.div_div by lia.
  rewrite (Z.mul_comm 256), Z.div_add, (Z.div_small x) by lia. reflexivity.
Qed.

Lemma le_word_take n : forall b, Forall (inU 8) b -> le_word b mod 256 ^ Z.of_nat n = le_word (take n b).
Proof.
  induction n as [|n IH]; intros b HF; [cbn [take]; change (256 ^ Z.of_nat 0) with 1; apply Z.mod_1_r|].
  destruct b as [|x b]; [apply Z.mod_0_l; lia|]. apply Forall_cons_1 in HF as [Hx HF]. unfold inU in Hx. change (2 ^ 8) with 256 in Hx.
  cbn [take le_word]. rewrite <- IH by exact HF. rewrite Nat2Z.inj_succ, Z.pow_succ_r by lia. rewrite Z.rem_mul_r by lia.
  rewrite (Z.mul_comm 256 (le_word b)), Z.mod_add, Z.div_add, (Z.mod_small x), (Z.div_small x) by lia. rewrite Z.add_0_l. reflexivity.
Qed.

(** A user key, and its first eight words. *)
Lemma kword_first K s : 0 <= s <= 112 -> kword K s = K / 2 ^ (112 - s) mod 2 ^ 16.
Proof.
  intros Hs. unfold kword. rewrite (Z.mod_small (112 - s)) by lia. unfold wrapU. rewrite <- !Z.land_ones, Z.land_lor_distr_l by lia.
  rewrite <- Z.shiftr_div_pow2 by lia. rewrite (Z.land_ones (K ≪ _)), Z.shiftl_mul_pow2 by lia.
  replace (128 - (112 - s)) with (s + 16) by lia. rewrite Z.pow_add_r, Z.mul_assoc, Z.mod_mul, Z.lor_0_r by lia. reflexivity.
Qed.

Lemma key_first (userkey : list Z) (j : nat) : barr 16 userkey -> (j < 8)%nat -> exists a b, aget userkey (2 * Z.of_nat j) = Ok a /\
  aget userkey (2 * Z.of_nat j + 1) = Ok b /\ u16 (a ≪ 8 + b) = key_word (be_word userkey) j.
Proof.
  intros [Hl HF] Hj. unfold key_word. replace (16 * (Z.of_nat j mod 8) + 25 * (Z.of_nat j / 8)) with (16 * Z.of_nat j) by (rewrite Z.mod_small, Z.div_small by lia; lia).
  rewrite kword_first by lia. assert (be_word userkey / 2 ^ (112 - 16 * Z.of_nat j) mod 2 ^ 16 = le_word (take 2 (drop (14 - 2 * j) (rev userkey)))) as ->.
  { unfold be_word. replace (112 - 16 * Z.of_nat j) with (8 * Z.of_nat (14 - 2 * j)) by lia. rewrite Z.pow_mul_r by lia. change (2 ^ 8) with 256.
    rewrite le_word_drop by (apply Forall_rev, HF). change (2 ^ 16) with (256 ^ Z.of_nat 2). apply le_word_take, Forall_drop, Forall_rev, HF. }
  do 16 (destruct userkey as [|? userkey]; [discriminate|]). destruct userkey; [|discriminate]. repeat (apply Forall_cons_1 in HF as [? HF]). clear HF Hl.
  assert (forall a b, inU 8 a -> inU 8 b -> u16 (a ≪ 8 + b) = le_word [b; a]) as Hw.
  { intros a b. unfold inU. change (2 ^ 8) with 256. intros Ha Hb. rewrite Z.shiftl_mul_pow2 by lia. change (2 ^ 8) with 256. cbn [le_word].
    replace (b + 256 * (a + 256 * 0)) with (a * 256 + b) by lia. apply wrapU_id. unfold inU. change (2 ^ 16) with 65536. lia. }
  do 8 (destruct j as [|j]; [eexists _, _; split; [reflexivity|]; split; [reflexivity|]; apply Hw; assumption|]). lia.
Qed.

Lemma key_word_inU K n : inU 16 (key_word K n).
Proof. apply kword_inU. Qed.

Lemma key_word_step K (t : nat) : inU 128 K ->
  u16 (Z.lor (key_word K (8 * (t / 8) + (t + 1) mod 8) ≪ 9) (key_word K (8 * (t / 8) + (t + 2) mod 8) ≫ 7)) = key_word K (t + 8).
Proof.
  intros HK. assert (forall d, key_word K (8 * (t / 8) + (t + d) mod 8) = kword K (16 * (Z.of_nat (t mod 8) + Z.of_nat d) + 25 * Z.of_nat (t / 8))) as H.
  { intros d. apply kword_ext. pose proof (Nat.mod_upper_bound (t + d) 8 ltac:(lia)).
    replace (Z.of_nat (8 * (t / 8) + (t + d) mod 8)) with (Z.of_nat ((t + d) mod 8) + Z.of_nat (t / 8) * 8) by lia.
    rewrite Z.mod_add, Z.div_add, (Z.mod_small (Z.of_nat ((t + d) mod 8)) 8), (Z.div_small (Z.of_nat ((t + d) mod 8)) 8) by lia.
    rewrite Nat2Z.inj_mod, Nat2Z.inj_add, (Nat2Z.inj_mod t). change (Z.of_nat 8) with 8.
    rewrite <- (Z.add_mod_idemp_l (Z.of_nat t)) by lia. set (a := Z.of_nat t mod 8 + Z.of_nat d). rewrite (Z.div_mod a 8) at 2 by lia.
    rewrite <- (Z.mod_add (16 * (a mod 8) + _) (a / 8) 128) by lia. f_equal. lia. }
  rewrite !H. change (Z.of_nat 2) with (1 + 1). change (Z.of_nat 1) with 1.
  replace (16 * (Z.of_nat (t mod 8) + (1 + 1)) + 25 * Z.of_nat (t / 8)) with (16 * (Z.of_nat (t mod 8) + 1) + 25 * Z.of_nat (t / 8) + 16) by lia.
  rewrite kword_step by exact HK. unfold key_word. f_equal. rewrite Nat2Z.inj_add, !Nat2Z.inj_mod, !Nat2Z.inj_div. change (Z.of_nat 8) with (1 * 8) at 3 4.
  rewrite Z.mod_add, Z.div_add by lia. change (Z.of_nat 8) with 8. lia.
Qed.
End Expand.

Lemma aget_stored (a : list Z) (g : nat -> Z) k i : (k <= length a)%nat -> (i < k)%nat -> aget (store a 0 g k) (Z.of_nat i) = Ok (g i).
Proof.
  intros Hk Hi. apply aget_ok. split; [lia|]. rewrite Nat2Z.id, lookup_store by lia. rewrite decide_True by lia. rewrite Nat.sub_0_r. reflexivity.
Qed.

Lemma expand_body_ok (EK : list Z) K t : length EK = IDEAKEYLEN -> inU 128 K -> (t < 44)%nat ->
  expand_body (8 + Z.of_nat t) (Z.of_nat (t mod 8), 8 * Z.of_nat (t / 8), store EK 0 (key_word K) (8 + t)) =
  Ok (Z.of_nat (S t mod 8), 8 * Z.of_nat (S t / 8), store EK 0 (key_word K) (8 + S t)).
Proof.
  intros Hl HK Ht. unfold IDEAKEYLEN in Hl. unfold expand_body. pose proof (Nat.mod_upper_bound t 8 ltac:(lia)) as Hm. pose proof (Nat.div_mod_eq t 8) as Ed.
  change 7 with (Z.ones 3). rewrite !Z.land_ones by lia. change (2 ^ 3) with 8.
  replace (8 * Z.of_nat (t / 8) + (Z.of_nat (t mod 8) + 1) mod 8) with (Z.of_nat (8 * (t / 8) + (t + 1) mod 8)).
  2:{ rewrite Nat2Z.inj_add, Nat2Z.inj_mul, (Nat2Z.inj_mod (t + 1)), Nat2Z.inj_add, (Nat2Z.inj_mod t), Z.add_mod_idemp_l by lia. reflexivity. }
  replace (8 * Z.of_nat (t / 8) + (Z.of_nat (t mod 8) + 1 + 1) mod 8) with (Z.of_nat (8 * (t / 8) + (t + 2) mod 8)).
  2:{ rewrite Nat2Z.inj_add, Nat2Z.inj_mul, (Nat2Z.inj_mod (t + 2)), Nat2Z.inj_add, (Nat2Z.inj_mod t), <- Z.add_assoc, Z.add_mod_idemp_l by lia. reflexivity. }
  rewrite !aget_stored by (pose proof (Nat.mod_upper_bound (t + 1) 8 ltac:(lia)); pose proof (Nat.mod_upper_bound (t + 2) 8 ltac:(lia)); lia).
  cbn [mbind res_bind]. rewrite key_word_step by exact HK.
  replace (8 * Z.of_nat (t / 8) + (Z.of_nat (t mod 8) + 1) + Z.ones 3) with (Z.of_nat 0 + Z.of_nat (8 + t)) by (change (Z.ones 3) with 7; lia).
  rewrite aset_store by (first [lia|f_equal; lia]). cbn [mbind res_bind mret res_ret]. replace (S (8 + t)) with (8 + S t)%nat by lia.
  assert (Z.of_nat (S t mod 8) = (Z.of_nat (t mod 8) + 1) mod 8 /\ 8 * Z.of_nat (S t / 8) = 8 * Z.of_nat (t / 8) + Z.land (Z.of_nat (t mod 8) + 1) 8) as [-> ->]; [|reflexivity].
  clear -Hm Ed. set (m := (t mod 8)%nat) in *. set (q := (t / 8)%nat) in *. clearbody m q. subst t.
  replace (S (8 * q + m)) with (S m + q * 8)%nat by lia. rewrite Nat.Div0.mod_add, Nat.div_add by lia.
  rewrite Nat2Z.inj_add.
  do 8 (destruct m as [|m]; [split; [reflexivity|];
    lazymatch goal with |- 8 * (?a + _) = _ + ?x => let u := eval vm_compute in a in let v := eval vm_compute in x in change a with u; change x with v end; lia|]).
  lia.
Qed.

(** All the words. *)
Lemma expand_words userkey EK : barr 16 userkey -> length EK = IDEAKEYLEN ->
  ideaExpandKey userkey EK = Ok (key_word (be_word userkey) <$> seq 0 52).
Proof.
  intros Hk Hl. set (K := be_word userkey). assert (inU 128 K) as HK.
  { destruct Hk as [Hlk HF]. unfold K, be_word. assert (Forall (inU 8) (rev userkey)) as HR by apply Forall_rev, HF. pose proof (le_word_range (rev userkey) HR) as H. rewrite length_rev, Hlk in H.
    change (256 ^ Z.of_nat 16) with (2 ^ 128) in H. exact H. }
  unfold ideaExpandKey, IDEAKEYLEN in *.
  assert (cfor 8 0 (expand_first userkey) EK = Ok (store EK 0 (key_word K) 8)) as ->.
  { rewrite <- (store_0 EK 0 (key_word K)) at 1. apply (cfor_states (fun k => store EK 0 (key_word K) k)). intros j Hj. unfold expand_first. rewrite Z.add_0_l.
    destruct (key_first userkey j Hk Hj) as (a & b & Ea & Eb & Ew). rewrite Ea, Eb. cbn [mbind res_bind]. rewrite Ew.
    change (Z.of_nat j) with (Z.of_nat 0 + Z.of_nat j). apply aset_store; [lia|reflexivity]. }
  cbn [mbind res_bind].
  pose proof (cfor_states (fun t => (Z.of_nat (t mod 8), 8 * Z.of_nat (t / 8), store EK 0 (key_word K) (8 + t))) expand_body 44 8
    (fun t Ht => expand_body_ok EK K t Hl HK Ht)) as E. change (cfor 44 8 expand_body (0, 0, store EK 0 (key_word K) 8) = Ok (Z.of_nat (44 mod 8), 8 * Z.of_nat (44 / 8), store EK 0 (key_word K) 52)) in E.
  rewrite E. cbn [mbind res_bind mret res_ret]. f_equal. unfold store. rewrite drop_ge by lia. apply app_nil_r.
Qed.

(** ideaExpandKey computes the key schedule of IDEA: the n-th of the 52 words is the 16-bit
    window of the 128-bit user key, read as big-endian bytes and rotated left by 25 bits for
    every eight words, at the place n mod 8. *)
Theorem idea_key_schedule userkey EK : barr 16 userkey -> length EK = IDEAKEYLEN ->
  ideaExpandKey userkey EK = Ok (key_word (be_word userkey) <$> seq 0 52).
Proof. apply expand_words. Qed.

Lemma idea_decrypts_witness : let EK := Z.of_nat <$> seq 1 52 in let b := [0;0;0;1;0;2;0;3] in key_ok EK /\ barr 8 b /\
  (exists DK c, ideaInvertKey true EK = Ok DK /\ key_ok DK /\ ideaCipher LP64 true b EK = Ok c /\ barr 8 c /\ ideaCipher LP64 true c DK = Ok b /\
     exists gs k, EK = flat gs k /\ length gs = 8%nat /\ block_words c = cipher gs k (block_words b)) /\
  (forall x y, inU (uint16_bits true) x -> inU 16 y -> u16 (MUL LP64 true x y) = (rep (u16 x) * rep y) mod 65537 mod 65536) /\
  (forall x, inU 16 x -> exists y, mulInv true x = Ok y /\ inU 16 y /\ (rep x * rep y) mod 65537 = 1).
Proof.
  intros EK b. assert (key_ok EK) as H1 by (split; [reflexivity|by_eval]). assert (barr 8 b) as H2 by by_eval.
  split; [exact H1|]. split; [exact H2|]. exact (idea_decrypts LP64 true EK b H1 H2).
Defined.

Lemma idea_key_schedule_witness : let userkey := Z.of_nat <$> seq 1 16 in barr 16 userkey /\
  ideaExpandKey userkey (replicate 52 0) = Ok (key_word (be_word userkey) <$> seq 0 52).
Proof.
  intros userkey. assert (barr 16 userkey) as H by by_eval. split; [exact H|]. exact (idea_key_schedule userkey (replicate 52 0) H eq_refl).
Defined.
