(* ===== verification/IdeaCfb.v ===== *)
(** The cipher feedback mode of pgp (src/mibench/security/pgp/src/idea.c, idea.h): encryption and decryption
    of a stream in pieces of any length, with the resynchronisation at the boundaries. Source and
    destination may be the same buffer, since each byte is read before it is written. *)
From stdpp Require Import base list numbers option tactics.
From Stdlib Require Import ZArith Lia.
From S2P Require Import Prelude Bytes Idea.

(** * The code *)

Record IdeaCfbContext := Cfb { oldcipher : list Z; iv : list Z; cfb_key : list Z; bufleft : Z }.

(** [memcpy(dst + off, src, len)] where [src] holds the [len] bytes. *)
Definition memcpy (dst : list Z) (off : Z) (src : list Z) : res (list Z) :=
  if (0 <=? off) && (off + Z.of_nat (length src) <=? Z.of_nat (length dst))
  then mret (take (Z.to_nat off) dst ++ src ++ drop (Z.to_nat off + length src) dst) else Err OutOfBounds.
(** The [len] bytes at [src + off]. *)
Definition bytes_at (src : list Z) (off len : Z) : res (list Z) :=
  if (0 <=? off) && (0 <=? len) && (off + len <=? Z.of_nat (length src))
  then mret (take (Z.to_nat len) (drop (Z.to_nat off) src)) else Err OutOfBounds.

Section Cfb.
Context (dm : data_model) (idea32 : bool).
Implicit Types (c : IdeaCfbContext) (key src : list Z).

Definition ideaCfbReinit c (iv0 : option (list Z)) : res IdeaCfbContext :=
  v ← match iv0 with Some v => bytes_at v 0 8 | None => mret (replicate 8 0) end;
  v ← memcpy (iv c) 0 v;
  mret (Cfb (oldcipher c) v (cfb_key c) 0).

Definition ideaCfbInit c key : res IdeaCfbContext :=
  k ← ideaExpandKey key (cfb_key c);
  ideaCfbReinit (Cfb (oldcipher c) (iv c) k (bufleft c)) None.

Definition ideaCfbSync c : res IdeaCfbContext :=
  let n := bufleft c in
  if negb (n =? 0) then
    v ← bytes_at (iv c) 0 (8 - n); v ← memcpy (iv c) n v;
    w ← bytes_at (oldcipher c) (8 - n) n; v ← memcpy v 0 w;
    mret (Cfb (oldcipher c) v (cfb_key c) 0)
  else mret c.

(** What happens to a byte [b] of the buffer and a byte [x] of the source: the new byte of the buffer and the byte
    of the destination, for encryption and for decryption. *)
Definition enc_byte (b x : Z) : Z * Z := (Z.lxor b x, Z.lxor b x).
Definition dec_byte (b x : Z) : Z * Z := (x, Z.lxor b x).

Section Run.
Context (f : Z -> Z -> Z * Z).

(** The inner loops: [src] against the buffer from the index [pos] on. *)
Fixpoint xor_loop (buf : list Z) (pos : Z) src : res (list Z * list Z) :=
  match src with
  | [] => mret (buf, [])
  | x :: src =>
      b ← aget buf pos; buf ← aset buf pos (f b x).1;
      '(buf, dest) ← xor_loop buf (pos + 1) src; mret (buf, (f b x).2 :: dest)
  end.

(** [memcpy(oldcipher, iv, 8)] and the next key stream, then a block or the rest. *)
Definition next_block c src (left : Z) : res (IdeaCfbContext * list Z) :=
  old ← memcpy (oldcipher c) 0 (take 8 (iv c));
  v ← ideaCipher dm idea32 (iv c) (cfb_key c);
  '(v, dest) ← xor_loop v 0 src;
  mret (Cfb old v (cfb_key c) left, dest).

(** The blocks while more than 8 bytes are left, and the last 1 to 8 bytes. *)
Fixpoint block_loop (fuel : nat) c src : res (IdeaCfbContext * list Z) :=
  match fuel with
  | O => Err OutOfFuel
  | S fuel =>
      if 8 <? Z.of_nat (length src) then
        '(c, d1) ← next_block c (take 8 src) (bufleft c); '(c, d2) ← block_loop fuel c (drop 8 src); mret (c, d1 ++ d2)
      else next_block c src (8 - Z.of_nat (length src))
  end.

Definition cfb_crypt c src : res (IdeaCfbContext * list Z) :=
  let n := bufleft c in
  let count := Z.of_nat (length src) in
  if count <=? n then
    '(v, dest) ← xor_loop (iv c) (8 - n) src; mret (Cfb (oldcipher c) v (cfb_key c) (n - count), dest)
  else
    '(v, d1) ← xor_loop (iv c) (8 - n) (take (Z.to_nat n) src);
    '(c, d2) ← block_loop (length src) (Cfb (oldcipher c) v (cfb_key c) n) (drop (Z.to_nat n) src);
    mret (c, d1 ++ d2).
End Run.

(** The two functions have the same loops. *)
Definition ideaCfbEncrypt := cfb_crypt enc_byte.
Definition ideaCfbDecrypt := cfb_crypt dec_byte.
End Cfb.

(** A context with the key 1 to 8, eleven bytes in two pieces with a resynchronisation between them. *)
Example cfb_run : let init := ideaCfbInit (Cfb (replicate 8 0) (replicate 8 0) (replicate 52 0) 0) [0;1;0;2;0;3;0;4;0;5;0;6;0;7;0;8] in
  (c ← init; '(c, d1) ← ideaCfbEncrypt LP64 true c [1;2;3;4;5;6;7;8;9]; c ← ideaCfbSync c; '(_, d2) ← ideaCfbEncrypt LP64 true c [10;11];
   c ← init; '(c, e1) ← ideaCfbDecrypt LP64 true c d1; c ← ideaCfbSync c; '(_, e2) ← ideaCfbDecrypt LP64 true c d2; mret (e1, e2)) =
  Ok ([1;2;3;4;5;6;7;8;9], [10;11]).
Proof. vm_compute. reflexivity. Qed.

(** * The reference: one byte at a time *)

Section Reference.
Context (dm : data_model) (idea32 : bool) (f : Z -> Z -> Z * Z).
Implicit Types (c : IdeaCfbContext) (src : list Z).

(** When the key stream is used up the cipher turns the last eight bytes of the ciphertext into the next one. *)
Definition refill c : res IdeaCfbContext :=
  if bufleft c =? 0 then v ← ideaCipher dm idea32 (iv c) (cfb_key c); mret (Cfb (iv c) v (cfb_key c) 8) else mret c.
Definition cfb_step c (x : Z) : res (IdeaCfbContext * Z) :=
  c ← refill c;
  b ← aget (iv c) (8 - bufleft c); v ← aset (iv c) (8 - bufleft c) (f b x).1;
  mret (Cfb (oldcipher c) v (cfb_key c) (bufleft c - 1), (f b x).2).
Fixpoint cfb_ref c src : res (IdeaCfbContext * list Z) :=
  match src with
  | [] => mret (c, [])
  | x :: src => '(c, y) ← cfb_step c x; '(c, dest) ← cfb_ref c src; mret (c, y :: dest)
  end.

Lemma cfb_ref_app src1 src2 : forall c, cfb_ref c (src1 ++ src2) =
  ('(c, d1) ← cfb_ref c src1; '(c, d2) ← cfb_ref c src2; mret (c, d1 ++ d2)).
Proof.
  induction src1 as [|x src1 IH]; intros c; cbn [app cfb_ref mbind res_bind mret res_ret].
  - destruct (cfb_ref c src2) as [[c2 d2]|e]; reflexivity.
  - destruct (cfb_step c x) as [[c1 y]|e]; [|reflexivity]. cbn [mbind res_bind]. rewrite IH.
    destruct (cfb_ref c1 src1) as [[c2 d1]|e]; [|reflexivity]. cbn [mbind res_bind].
    cbn [mret res_ret mbind res_bind]. destruct (cfb_ref c2 src2) as [[c3 d2]|e]; reflexivity.
Qed.

Definition ctx_ok c : Prop := barr 8 (oldcipher c) /\ barr 8 (iv c) /\ key_ok (cfb_key c) /\ 0 <= bufleft c < 8.
Definition byte_ok : Prop := forall b x, inU 8 b -> inU 8 x -> inU 8 (f b x).1 /\ inU 8 (f b x).2.

Lemma ideaCipher_total b EK : barr 8 b -> key_ok EK -> okp (ideaCipher dm idea32 b EK) (barr 8).
Proof.
  intros Hb HEK. destruct (key_flat EK HEK) as (gs & k & -> & Hl & Hg & Hk). rewrite ideaCipher_ok by assumption.
  cbn [okp]. apply block_words_block, inQ_layer.
Qed.

(** A step may leave 8 bytes before it uses one. *)
Definition ctx_ok' c : Prop := barr 8 (oldcipher c) /\ barr 8 (iv c) /\ key_ok (cfb_key c) /\ 1 <= bufleft c <= 8.

Lemma refill_ok c : ctx_ok c -> okp (refill c) ctx_ok'.
Proof.
  intros (Ho & Hv & Hk & Hb). unfold refill. destruct (Z.eqb_spec (bufleft c) 0) as [E|E].
  - eapply okp_bind; [exact (ideaCipher_total _ _ Hv Hk)|]. intros v Hv'. cbn [mret res_ret okp]. unfold ctx_ok'. cbn. repeat split; try apply Hv; try apply Hv'; try apply Hk; lia.
  - cbn [mret res_ret okp]. unfold ctx_ok'. repeat split; try apply Ho; try apply Hv; try apply Hk; lia.
Qed.

Lemma barr_aget n a i : barr n a -> 0 <= i < Z.of_nat n -> exists b, aget a i = Ok b /\ inU 8 b.
Proof.
  intros [Hl HF] Hi. destruct (lookup_lt_is_Some_2 a (Z.to_nat i)) as [b Hb]; [lia|]. exists b. split; [apply aget_ok; auto with lia|].
  exact (proj1 (Forall_lookup _ _) HF _ _ Hb).
Qed.

Lemma barr_aset n a i v : barr n a -> 0 <= i < Z.of_nat n -> inU 8 v -> exists a', aset a i v = Ok a' /\ barr n a'.
Proof.
  intros [Hl HF] Hi Hv. exists (<[Z.to_nat i := v]> a). split.
  - apply aset_ok. split; [lia|reflexivity].
  - split; [rewrite length_insert; exact Hl|]. apply Forall_insert; assumption.
Qed.

Lemma cfb_step_ok c x : byte_ok -> ctx_ok c -> inU 8 x -> okp (cfb_step c x) (fun r => ctx_ok r.1 /\ inU 8 r.2).
Proof.
  intros Hf Hc Hx. unfold cfb_step. eapply okp_bind; [exact (refill_ok c Hc)|]. intros c' (Ho & Hv & Hk & Hb).
  destruct (barr_aget 8 (iv c') (8 - bufleft c') Hv ltac:(lia)) as (b & Eb & Hbb). rewrite Eb. cbn [mbind res_bind].
  destruct (Hf b x Hbb Hx) as [H1 H2]. destruct (barr_aset 8 (iv c') (8 - bufleft c') _ Hv ltac:(lia) H1) as (v & Ev & Hv'). rewrite Ev. cbn [mbind res_bind mret res_ret okp fst snd].
  split; [|exact H2]. unfold ctx_ok. cbn [oldcipher iv cfb_key bufleft]. split; [exact Ho|]. split; [exact Hv'|]. split; [exact Hk|lia].
Qed.

Lemma cfb_ref_ok src : byte_ok -> forall c, ctx_ok c -> Forall (inU 8) src ->
  okp (cfb_ref c src) (fun r => ctx_ok r.1 /\ Forall (inU 8) r.2 /\ length r.2 = length src).
Proof.
  intros Hf. induction src as [|x src IH]; intros c Hc HF; [cbn; auto|]. apply Forall_cons_1 in HF as [Hx HF]. cbn [cfb_ref].
  eapply okp_bind; [exact (cfb_step_ok c x Hf Hc Hx)|]. intros [c1 y] [Hc1 Hy]. cbn [fst snd] in *.
  eapply okp_bind; [exact (IH c1 Hc1 HF)|]. intros [c2 dest] (Hc2 & HF2 & Hl). cbn [fst snd mret res_ret okp] in *.
  split; [exact Hc2|]. split; [constructor; assumption|cbn [length]; congruence].
Qed.
End Reference.

(** * The loops are the reference *)

Section Loops.
Context (dm : data_model) (idea32 : bool) (f : Z -> Z -> Z * Z) (Hf : byte_ok f).
Implicit Types (c : IdeaCfbContext) (src : list Z).
Local Abbreviation cfb_ref := (cfb_ref dm idea32 f).

Lemma xor_loop_ref src : forall old v k n, Z.of_nat (length src) <= n -> n <= 8 ->
  cfb_ref (Cfb old v k n) src = ('(v, dest) ← xor_loop f v (8 - n) src; mret (Cfb old v k (n - Z.of_nat (length src)), dest)).
Proof.
  induction src as [|x src IH]; intros old v k n Hl Hn.
  - cbn [IdeaCfb.cfb_ref xor_loop mbind res_bind mret res_ret length]. rewrite Z.sub_0_r. reflexivity.
  - cbn [IdeaCfb.cfb_ref xor_loop length] in *. unfold cfb_step, refill. cbn [bufleft iv oldcipher cfb_key]. rewrite (proj2 (Z.eqb_neq n 0)) by lia.
    cbn [mbind res_bind mret res_ret iv bufleft oldcipher cfb_key]. destruct (aget v (8 - n)) as [b|e]; [|reflexivity]. cbn [mbind res_bind].
    destruct (aset v (8 - n) (f b x).1) as [v'|e]; [|reflexivity]. cbn [mbind res_bind mret res_ret]. rewrite IH by lia. replace (8 - (n - 1)) with (8 - n + 1) by lia.
    destruct (xor_loop f v' (8 - n + 1) src) as [[v2 d]|e]; [|reflexivity]. cbn [mbind res_bind mret res_ret]. do 3 f_equal. lia.
Qed.

Lemma memcpy_all a b : length a = length b -> memcpy a 0 b = Ok b.
Proof.
  intros H. unfold memcpy. rewrite H. change (0 <=? 0) with true. rewrite (proj2 (Z.leb_le _ _)) by lia. cbn [andb mret res_ret]. change (Z.to_nat 0) with 0%nat.
  cbn [take app Nat.add]. rewrite drop_ge by lia. rewrite app_nil_r. reflexivity.
Qed.

(** The context at the start of a block: the source still has the old [bufleft] there. *)
Definition at_block c : IdeaCfbContext := Cfb (oldcipher c) (iv c) (cfb_key c) 0.
Definition with_left c (n : Z) : IdeaCfbContext := Cfb (oldcipher c) (iv c) (cfb_key c) n.

Lemma next_block_ref c src left : barr 8 (oldcipher c) -> barr 8 (iv c) -> (0 < length src <= 8)%nat ->
  next_block dm idea32 f c src left = ('(c', dest) ← cfb_ref (at_block c) src; mret (with_left c' left, dest)).
Proof.
  intros [Ho _] [Hv _] Hl. unfold next_block. rewrite take_ge, memcpy_all by lia. cbn [mbind res_bind].
  destruct src as [|x src]; [cbn [length] in Hl; lia|]. cbn [IdeaCfb.cfb_ref].
  assert (forall v, ideaCipher dm idea32 (iv c) (cfb_key c) = Ok v ->
    cfb_ref (at_block c) (x :: src) = cfb_ref (Cfb (iv c) v (cfb_key c) 8) (x :: src)) as H.
  { intros v E. cbn [IdeaCfb.cfb_ref]. unfold cfb_step, refill. cbn [at_block bufleft iv cfb_key oldcipher Z.eqb]. rewrite E. reflexivity. }
  destruct (ideaCipher dm idea32 (iv c) (cfb_key c)) as [v|e] eqn:E.
  - cbn [mbind res_bind]. fold (cfb_ref (at_block c) (x :: src)).
    change ('(c0, y) ← cfb_step dm idea32 f (at_block c) x; '(c1, dest) ← cfb_ref c0 src; mret (c1, y :: dest)) with (cfb_ref (at_block c) (x :: src)).
    rewrite (H v eq_refl), xor_loop_ref by lia. change (8 - 8) with 0. destruct (xor_loop f v 0 (x :: src)) as [[v2 d]|e]; reflexivity.
  - unfold cfb_step, refill. cbn [at_block bufleft iv cfb_key oldcipher Z.eqb]. rewrite E. reflexivity.
Qed.

Lemma ref_left c src c' d : cfb_ref (at_block c) src = Ok (c', d) -> (0 < length src <= 8)%nat -> barr 8 (oldcipher c) -> barr 8 (iv c) ->
  bufleft c' = 8 - Z.of_nat (length src).
Proof.
  intros E Hl Ho Hv. destruct src as [|x src]; [cbn [length] in Hl; lia|]. cbn [IdeaCfb.cfb_ref] in E. unfold cfb_step, refill in E.
  cbn [at_block bufleft iv cfb_key oldcipher Z.eqb] in E. destruct (ideaCipher dm idea32 (iv c) (cfb_key c)) as [v|e]; [|discriminate].
  cbn [mbind res_bind mret res_ret bufleft iv cfb_key oldcipher] in E. destruct (aget v (8 - 8)) as [b|e]; [|discriminate]. cbn [mbind res_bind] in E.
  destruct (aset v (8 - 8) (f b x).1) as [v'|e]; [|discriminate]. cbn [mbind res_bind mret res_ret] in E. cbn [length] in *.
  rewrite xor_loop_ref in E by lia. destruct (xor_loop f v' _ src) as [[v2 d2]|e]; [|discriminate]. cbn [mbind res_bind mret res_ret] in E.
  injection E as <- _. cbn [bufleft]. lia.
Qed.

Lemma block_loop_ref fuel : forall c src, ctx_ok (at_block c) -> Forall (inU 8) src -> (0 < length src <= fuel)%nat ->
  block_loop dm idea32 f fuel c src = cfb_ref (at_block c) src.
Proof.
  induction fuel as [|fuel IH]; intros c src Hc HF Hl; [lia|]. pose proof Hc as (Ho & Hv & Hk & _). cbn [at_block oldcipher iv cfb_key] in Ho, Hv, Hk.
  cbn [block_loop]. destruct (Z.ltb_spec 8 (Z.of_nat (length src))) as [H8|H8].
  - assert (length (take 8 src) = 8%nat) as Ht by (rewrite length_take; lia).
    rewrite next_block_ref by (assumption || lia).
    transitivity (cfb_ref (at_block c) (take 8 src ++ drop 8 src)); [|rewrite take_drop; reflexivity]. rewrite cfb_ref_app.
    pose proof (cfb_ref_ok dm idea32 f (take 8 src) Hf (at_block c) Hc (Forall_take _ _ _ HF)) as Hr.
    destruct (cfb_ref (at_block c) (take 8 src)) as [[c1 d1]|e] eqn:E; [|reflexivity]. cbn [mbind res_bind mret res_ret].
    destruct Hr as (Hc1 & _). cbn [fst] in Hc1. pose proof (ref_left c _ c1 d1 E ltac:(lia) Ho Hv) as Eb. rewrite Ht in Eb.
    rewrite IH; [|exact Hc1 || idtac|apply Forall_drop, HF|rewrite length_drop; lia].
    + assert (at_block (with_left c1 (bufleft c)) = c1) as ->; [|reflexivity]. destruct c1. cbn [bufleft] in Eb. unfold at_block, with_left. cbn. f_equal. lia.
    + destruct Hc1 as (O1 & V1 & K1 & _). unfold ctx_ok, at_block, with_left. cbn [oldcipher iv cfb_key bufleft]. split; [exact O1|]. split; [exact V1|]. split; [exact K1|lia].
  - rewrite next_block_ref by (assumption || lia). destruct (cfb_ref (at_block c) src) as [[c1 d1]|e] eqn:E; [|reflexivity].
    cbn [mbind res_bind mret res_ret]. pose proof (ref_left c _ c1 d1 E ltac:(lia) Ho Hv) as Eb. rewrite <- Eb. destruct c1; reflexivity.
Qed.

Lemma cfb_crypt_ref c src : ctx_ok c -> Forall (inU 8) src -> cfb_crypt dm idea32 f c src = cfb_ref c src.
Proof.
  intros Hc HF. pose proof Hc as (Ho & Hv & Hk & Hb). unfold cfb_crypt. destruct c as [old v k n]. cbn [oldcipher iv cfb_key bufleft] in *.
  destruct (Z.leb_spec (Z.of_nat (length src)) n) as [Hn|Hn]; [rewrite xor_loop_ref by lia; reflexivity|].
  transitivity (cfb_ref (Cfb old v k n) (take (Z.to_nat n) src ++ drop (Z.to_nat n) src)); [|rewrite take_drop; reflexivity]. assert (length (take (Z.to_nat n) src) = Z.to_nat n) as Ht by (rewrite length_take; lia).
  pose proof (cfb_ref_ok dm idea32 f (take (Z.to_nat n) src) Hf (Cfb old v k n) Hc (Forall_take _ _ _ HF)) as Hr.
  rewrite cfb_ref_app. rewrite xor_loop_ref in Hr |- * by lia.
  destruct (xor_loop f v (8 - n) (take (Z.to_nat n) src)) as [[v1 d1]|e]; [|reflexivity]. cbn [mbind res_bind mret res_ret okp fst] in Hr |- *.
  destruct Hr as ((_ & Hv1 & _) & _). cbn [iv] in Hv1.
  rewrite block_loop_ref; [|unfold ctx_ok, at_block; cbn; auto with lia|apply Forall_drop, HF|rewrite length_drop; lia].
  unfold at_block. cbn [oldcipher iv cfb_key]. replace (n - Z.of_nat (length (take (Z.to_nat n) src))) with 0 by lia. reflexivity.
Qed.
End Loops.

(** * Streams in pieces *)

Lemma enc_byte_ok : byte_ok enc_byte.
Proof. intros b x Hb Hx. split; apply inU_lxor; (lia || assumption). Qed.
Lemma dec_byte_ok : byte_ok dec_byte.
Proof. intros b x Hb Hx. split; [exact Hx|apply inU_lxor; (lia || assumption)]. Qed.

Lemma memcpy_ok dst off src : 0 <= off -> off + Z.of_nat (length src) <= Z.of_nat (length dst) ->
  memcpy dst off src = Ok (take (Z.to_nat off) dst ++ src ++ drop (Z.to_nat off + length src) dst).
Proof. intros H1 H2. unfold memcpy. rewrite (proj2 (Z.leb_le _ _) H1), (proj2 (Z.leb_le _ _) H2). reflexivity. Qed.
Lemma bytes_at_ok src off len : 0 <= off -> 0 <= len -> off + len <= Z.of_nat (length src) ->
  bytes_at src off len = Ok (take (Z.to_nat len) (drop (Z.to_nat off) src)).
Proof. intros H1 H2 H3. unfold bytes_at. rewrite (proj2 (Z.leb_le _ _) H1), (proj2 (Z.leb_le _ _) H2), (proj2 (Z.leb_le _ _) H3). reflexivity. Qed.

(** The last eight bytes of the ciphertext. *)
Definition window (c : IdeaCfbContext) : list Z :=
  drop (Z.to_nat (8 - bufleft c)) (oldcipher c) ++ take (Z.to_nat (8 - bufleft c)) (iv c).

(** What is done to a stream: bytes pass, or the stream is resynchronised. *)
Inductive cfb_op := CfbData (src : list Z) | CfbSync.
Section Ops.
Context (crypt : IdeaCfbContext -> list Z -> res (IdeaCfbContext * list Z)).
Fixpoint cfb_ops (c : IdeaCfbContext) (ops : list cfb_op) : res (IdeaCfbContext * list cfb_op) :=
  match ops with
  | [] => mret (c, [])
  | CfbData src :: ops => '(c, dest) ← crypt c src; '(c, out) ← cfb_ops c ops; mret (c, CfbData dest :: out)
  | CfbSync :: ops => c ← ideaCfbSync c; '(c, out) ← cfb_ops c ops; mret (c, CfbSync :: out)
  end.
End Ops.
Definition op_bytes (o : cfb_op) : Prop := match o with CfbData src => Forall (inU 8) src | CfbSync => True end.

Section Streams.
Context (dm : data_model) (idea32 : bool).
Implicit Types (c : IdeaCfbContext) (src : list Z).

Lemma step_inverse c x c' y : cfb_step dm idea32 enc_byte c x = Ok (c', y) -> cfb_step dm idea32 dec_byte c y = Ok (c', x).
Proof.
  unfold cfb_step. destruct (refill dm idea32 c) as [c1|e]; [|discriminate]. cbn [mbind res_bind].
  destruct (aget (iv c1) (8 - bufleft c1)) as [b|e]; [|discriminate]. cbn [mbind res_bind enc_byte dec_byte fst snd].
  destruct (aset (iv c1) (8 - bufleft c1) (Z.lxor b x)) as [v|e] eqn:E; [|discriminate]. cbn [mbind res_bind mret res_ret]. intros H. injection H as <- <-.
  rewrite E. cbn [mbind res_bind]. rewrite <- Z.lxor_assoc, Z.lxor_nilpotent, Z.lxor_0_l. reflexivity.
Qed.

Lemma ref_inverse src : forall c c' dest, cfb_ref dm idea32 enc_byte c src = Ok (c', dest) -> cfb_ref dm idea32 dec_byte c dest = Ok (c', src).
Proof.
  induction src as [|x src IH]; intros c c' dest; cbn [cfb_ref].
  - intros H. injection H as <- <-. reflexivity.
  - destruct (cfb_step dm idea32 enc_byte c x) as [[c1 y]|e] eqn:E; [|discriminate]. cbn [mbind res_bind].
    destruct (cfb_ref dm idea32 enc_byte c1 src) as [[c2 d]|e] eqn:E2; [|discriminate]. cbn [mbind res_bind mret res_ret]. intros H. injection H as <- <-.
    cbn [cfb_ref]. rewrite (step_inverse _ _ _ _ E). cbn [mbind res_bind]. rewrite (IH _ _ _ E2). reflexivity.
Qed.

Lemma sync_ok c : ctx_ok c -> ideaCfbSync c = Ok (Cfb (oldcipher c) (window c) (cfb_key c) 0) /\ barr 8 (window c).
Proof.
  intros ([Ho Fo] & [Hv Fv] & Hk & Hb). destruct c as [old v k n]. cbn [oldcipher iv cfb_key bufleft] in *. unfold window. cbn [oldcipher iv cfb_key bufleft].
  assert (barr 8 (drop (Z.to_nat (8 - n)) old ++ take (Z.to_nat (8 - n)) v)) as Hw.
  { split; [rewrite length_app, length_drop, length_take; lia|]. apply Forall_app. split; [apply Forall_drop, Fo|apply Forall_take, Fv]. }
  split; [|exact Hw]. unfold ideaCfbSync. cbn [oldcipher iv cfb_key bufleft]. destruct (Z.eqb_spec n 0) as [->|Hn]; cbn [negb].
  - change (Z.to_nat (8 - 0)) with 8%nat. rewrite drop_ge, take_ge by lia. reflexivity.
  - rewrite (bytes_at_ok v) by lia. change (Z.to_nat 0) with 0%nat. rewrite drop_0. cbn [mbind res_bind].
    rewrite memcpy_ok by (rewrite ?length_take; lia). cbn [mbind res_bind]. rewrite length_take, (drop_ge v), app_nil_r by lia.
    rewrite bytes_at_ok by lia. cbn [mbind res_bind]. rewrite (take_ge (drop (Z.to_nat (8 - n)) old)) by (rewrite length_drop; lia).
    rewrite memcpy_ok by (rewrite ?length_app, ?length_take, ?length_drop; lia). cbn [mbind res_bind mret res_ret]. change (Z.to_nat 0) with 0%nat. cbn [take app Nat.add].
    rewrite length_drop, drop_app_ge by (rewrite length_take; lia). rewrite length_take.
    replace (length old - Z.to_nat (8 - n) - (Z.to_nat n `min` length v))%nat with 0%nat by lia. reflexivity.
Qed.

Lemma sync_ctx c : ctx_ok c -> okp (ideaCfbSync c) ctx_ok.
Proof.
  intros Hc. destruct (sync_ok c Hc) as [E Hw]. rewrite E. destruct Hc as (Ho & _ & Hk & _).
  cbn [okp]. unfold ctx_ok. cbn [oldcipher iv cfb_key bufleft]. split; [exact Ho|]. split; [exact Hw|]. split; [exact Hk|lia].
Qed.

Lemma crypt_ok f c src : byte_ok f -> ctx_ok c -> Forall (inU 8) src ->
  okp (cfb_crypt dm idea32 f c src) (fun r => ctx_ok r.1 /\ Forall (inU 8) r.2 /\ length r.2 = length src).
Proof. intros Hf Hc HF. rewrite cfb_crypt_ref by assumption. apply cfb_ref_ok; assumption. Qed.

(** C29: For every sequence of writes of any lengths and of resynchronisations, the sequence
    with the same lengths on the encrypted bytes decrypts to the original bytes, no access
    leaves the buffers, and the two ends have the same context afterwards. *)
Theorem idea_cfb_stream c ops : ctx_ok c -> Forall op_bytes ops ->
  exists c' out, cfb_ops (ideaCfbEncrypt dm idea32) c ops = Ok (c', out) /\ cfb_ops (ideaCfbDecrypt dm idea32) c out = Ok (c', ops) /\ ctx_ok c'.
Proof.
  intros Hc HF. revert c Hc. induction ops as [|[src|] ops IH]; intros c Hc; [exists c, []; auto| |]; pose proof (Forall_inv HF) as Ho; specialize (IH (Forall_inv_tail HF)).
  - cbn [op_bytes] in Ho. pose proof (crypt_ok enc_byte c src enc_byte_ok Hc Ho) as H. apply okp_ok in H as ([c1 dest] & E & Hc1 & Fd & Hl). cbn [fst snd] in *.
    destruct (IH c1 Hc1) as (c' & out & E1 & E2 & Hc'). exists c', (CfbData dest :: out). cbn [cfb_ops]. unfold ideaCfbEncrypt in *. rewrite E. cbn [mbind res_bind]. rewrite E1.
    split; [reflexivity|]. split; [|exact Hc']. unfold ideaCfbDecrypt in *. rewrite (cfb_crypt_ref dm idea32 dec_byte dec_byte_ok) by assumption.
    rewrite (cfb_crypt_ref dm idea32 enc_byte enc_byte_ok) in E by assumption. rewrite (ref_inverse _ _ _ _ E). cbn [mbind res_bind]. rewrite E2. reflexivity.
  - pose proof (sync_ctx c Hc) as H. apply okp_ok in H as (c1 & E & Hc1). destruct (IH c1 Hc1) as (c' & out & E1 & E2 & Hc').
    exists c', (CfbSync :: out). cbn [cfb_ops]. rewrite E. cbn [mbind res_bind]. rewrite E1, E2. auto.
Qed.

(** The buffered loops, which handle the rest of the last block, whole blocks and a last
    block separately, are the feedback mode one byte at a time; encrypting in two pieces is
    encrypting at once. *)
Theorem idea_cfb_pieces c src1 src2 : ctx_ok c -> Forall (inU 8) src1 -> Forall (inU 8) src2 ->
  ideaCfbEncrypt dm idea32 c (src1 ++ src2) =
    ('(c, d1) ← ideaCfbEncrypt dm idea32 c src1; '(c, d2) ← ideaCfbEncrypt dm idea32 c src2; mret (c, d1 ++ d2)) /\
  ideaCfbEncrypt dm idea32 c src1 = cfb_ref dm idea32 enc_byte c src1.
Proof.
  intros Hc F1 F2. pose proof enc_byte_ok as He. unfold ideaCfbEncrypt. rewrite !cfb_crypt_ref by (try apply Forall_app; auto). split; [|reflexivity].
  rewrite cfb_ref_app. pose proof (cfb_ref_ok dm idea32 enc_byte src1 He c Hc F1) as H.
  destruct (cfb_ref dm idea32 enc_byte c src1) as [[c1 d1]|e]; [|reflexivity]. cbn [mbind res_bind]. destruct H as (Hc1 & _). cbn [fst] in Hc1.
  rewrite cfb_crypt_ref by assumption. reflexivity.
Qed.

(** The window slides over the ciphertext. *)
Lemma step_window c x c' y : ctx_ok c -> cfb_step dm idea32 enc_byte c x = Ok (c', y) -> window c' = drop 1 (window c) ++ [y].
Proof.
  intros Hc. unfold cfb_step. pose proof (refill_ok dm idea32 c Hc) as Hr.
  assert (forall c1, refill dm idea32 c = Ok c1 -> window c1 = window c) as Hw.
  { intros c1. unfold refill. destruct (Z.eqb_spec (bufleft c) 0) as [E|E]; [|intros H; injection H as <-; reflexivity].
    destruct (ideaCipher _ _ _ _) as [v|e]; [|discriminate]. intros H. injection H as <-. unfold window. cbn [bufleft oldcipher iv]. rewrite E.
    destruct Hc as ([Ho _] & [Hv _] & _). change (Z.to_nat (8 - 8)) with 0%nat. change (Z.to_nat (8 - 0)) with 8%nat.
    rewrite drop_0, take_0, app_nil_r, drop_ge, take_ge by lia. reflexivity. }
  destruct (refill dm idea32 c) as [c1|e]; [|discriminate]. rewrite <- (Hw c1 eq_refl). clear Hw. destruct Hr as ([Ho _] & [Hv _] & _ & Hb).
  cbn [mbind res_bind]. destruct (aget (iv c1) (8 - bufleft c1)) as [b|e]; [|discriminate]. cbn [mbind res_bind enc_byte fst snd].
  destruct (aset (iv c1) (8 - bufleft c1) (Z.lxor b x)) as [v|e] eqn:E; [|discriminate]. cbn [mbind res_bind mret res_ret]. intros H. injection H as <- <-.
  apply aset_ok in E as [Hi ->]. unfold window. cbn [oldcipher iv bufleft]. set (m := Z.to_nat (8 - bufleft c1)) in *.
  replace (Z.to_nat (8 - (bufleft c1 - 1))) with (S m) by lia.
  destruct (drop m (oldcipher c1)) as [|o os] eqn:Ed; [apply (f_equal length) in Ed; rewrite length_drop in Ed; cbn [length] in Ed; lia|].
  cbn [app drop]. rewrite drop_0. assert (drop (S m) (oldcipher c1) = os) as ->.
  { replace (S m) with (m + 1)%nat by lia. rewrite <- drop_drop, Ed. reflexivity. }
  rewrite <- app_assoc. f_equal. rewrite (take_S_r _ _ (Z.lxor b x)).
  - rewrite take_insert_ge by lia. reflexivity.
  - apply list_lookup_insert_eq. lia.
Qed.

Lemma ref_window src : forall c c' dest, ctx_ok c -> Forall (inU 8) src -> cfb_ref dm idea32 enc_byte c src = Ok (c', dest) ->
  window c' = drop (length src) (window c ++ dest).
Proof.
  induction src as [|x src IH]; intros c c' dest Hc HF; cbn [cfb_ref].
  - intros H. injection H as <- <-. rewrite app_nil_r. reflexivity.
  - apply Forall_cons_1 in HF as [Hx HF]. pose proof (cfb_step_ok dm idea32 enc_byte c x enc_byte_ok Hc Hx) as Hs.
    destruct (cfb_step dm idea32 enc_byte c x) as [[c1 y]|e] eqn:E; [|discriminate]. cbn [mbind res_bind]. destruct Hs as [Hc1 _]. cbn [fst] in Hc1.
    destruct (cfb_ref dm idea32 enc_byte c1 src) as [[c2 d]|e] eqn:E2; [|discriminate]. cbn [mbind res_bind mret res_ret]. intros H. injection H as <- <-.
    rewrite (IH _ _ _ Hc1 HF E2), (step_window _ _ _ _ Hc E), <- app_assoc. cbn [app length].
    destruct (sync_ok c Hc) as [_ [Hl _]]. destruct (window c) as [|w ws]; [discriminate|]. cbn [drop app]. rewrite drop_0. reflexivity.
Qed.

(** Resynchronisation makes the next key stream depend on the last eight bytes of
    ciphertext: the window that it installs as the vector is, after every encryption, the last
    eight bytes of the old window followed by the ciphertext. *)
Theorem idea_cfb_sync c src : ctx_ok c -> Forall (inU 8) src ->
  okp (ideaCfbEncrypt dm idea32 c src) (fun r => exists c', ideaCfbSync r.1 = Ok c' /\ bufleft c' = 0 /\ cfb_key c' = cfb_key r.1 /\
    iv c' = drop (length src) (window c ++ r.2) /\ length r.2 = length src).
Proof.
  intros Hc HF. pose proof enc_byte_ok as He. unfold ideaCfbEncrypt. rewrite cfb_crypt_ref by assumption.
  pose proof (cfb_ref_ok dm idea32 enc_byte src He c Hc HF) as H. destruct (cfb_ref dm idea32 enc_byte c src) as [[c1 d]|e] eqn:E; [|exact H].
  cbn [okp fst snd] in *. destruct H as (Hc1 & _ & Hl). destruct (sync_ok c1 Hc1) as [Es _]. eexists. split; [exact Es|]. cbn [bufleft cfb_key iv].
  split; [reflexivity|]. split; [reflexivity|]. split; [exact (ref_window src c c1 d Hc HF E)|exact Hl].
Qed.
End Streams.

Definition sample_ctx : IdeaCfbContext := Cfb (replicate 8 0) (replicate 8 7) (Z.of_nat <$> seq 1 52) 3.
Lemma sample_ctx_ok : ctx_ok sample_ctx.
Proof. split; [by_eval|]. split; [by_eval|]. split; [split; [reflexivity|by_eval]|cbn; lia]. Qed.

Lemma idea_cfb_stream_witness : let ops := [CfbData [1;2;3;4;5;6;7;8;9]; CfbSync; CfbData [10; 11]] in ctx_ok sample_ctx /\ Forall op_bytes ops /\
  exists c' out, cfb_ops (ideaCfbEncrypt LP64 true) sample_ctx ops = Ok (c', out) /\ cfb_ops (ideaCfbDecrypt LP64 true) sample_ctx out = Ok (c', ops) /\ ctx_ok c'.
Proof.
  intros ops. assert (Forall op_bytes ops) as H by (repeat constructor; cbn; lia). split; [exact sample_ctx_ok|]. split; [exact H|].
  exact (idea_cfb_stream LP64 true sample_ctx ops sample_ctx_ok H).
Defined.

Lemma idea_cfb_pieces_witness : let s1 := [1;2;3;4;5;6;7;8;9] in let s2 := [10; 11] in ctx_ok sample_ctx /\ Forall (inU 8) s1 /\ Forall (inU 8) s2 /\
  ideaCfbEncrypt LP64 true sample_ctx (s1 ++ s2) =
    ('(c, d1) ← ideaCfbEncrypt LP64 true sample_ctx s1; '(c, d2) ← ideaCfbEncrypt LP64 true c s2; mret (c, d1 ++ d2)) /\
  ideaCfbEncrypt LP64 true sample_ctx s1 = cfb_ref LP64 true enc_byte sample_ctx s1.
Proof.
  intros s1 s2. assert (Forall (inU 8) s1) as H1 by by_eval. assert (Forall (inU 8) s2) as H2 by by_eval.
  split; [exact sample_ctx_ok|]. split; [exact H1|]. split; [exact H2|]. exact (idea_cfb_pieces LP64 true sample_ctx s1 s2 sample_ctx_ok H1 H2).
Defined.

Lemma idea_cfb_sync_witness : let src := [1;2;3;4;5;6;7;8;9] in ctx_ok sample_ctx /\ Forall (inU 8) src /\
  okp (ideaCfbEncrypt LP64 true sample_ctx src) (fun r => exists c', ideaCfbSync r.1 = Ok c' /\ bufleft c' = 0 /\ cfb_key c' = cfb_key r.1 /\
    iv c' = drop (length src) (window sample_ctx ++ r.2) /\ length r.2 = length src).
Proof.
  intros src. assert (Forall (inU 8) src) as H by by_eval. split; [exact sample_ctx_ok|]. split; [exact H|].
  exact (idea_cfb_sync LP64 true sample_ctx src sample_ctx_ok H).
Defined.
