(* ===== verification/Md5.v ===== *)
(** The MD5 message digest of pgp (src/mibench/security/pgp/src/md5.c, md5.h), with the C version of
    MD5Transform (no ASM_MD5) on a little-endian machine (no HIGHFIRST), for both widths of [unsigned long], which is
    the type [uint32].

    The buffer [in] is its 64 bytes; the transformation reads it as 16 words of the size of [uint32], which are more
    than the buffer has when they have 8 bytes. *)
From stdpp Require Import base list numbers option tactics.
From Stdlib Require Import ZArith Lia.
From S2P Require Import Prelude Bytes Sha.

(** * The code *)

Record MD5Context := Md5 { md5_buf : list Z; md5_bits : Z * Z; md5_in : list Z }.

Section Md5.
Context (dm : data_model).
Implicit Types (ctx : MD5Context) (buf : list Z).

Definition F1 (x y z : Z) : Z := Z.lxor z (Z.land x (Z.lxor y z)).
Definition F2 (x y z : Z) : Z := F1 z x y.
Definition F3 (x y z : Z) : Z := Z.lxor (Z.lxor x y) z.
Definition F4 (x y z : Z) : Z := Z.lxor y (Z.lor x (uL dm (Z.lnot z))).

(** [MD5STEP(f, w, x, y, z, data, s)]: the new value of [w]. *)
Definition MD5STEP (f : Z -> Z -> Z -> Z) (w x y z data s : Z) : Z :=
  let w := uL dm (w + (f x y z + data)) in
  let w := Z.lor (uL dm (w ≪ s)) (w ≫ (32 - s)) in
  uL dm (w + x).

Definition md5_regs : Type := Z * Z * Z * Z.

(** The 64 steps, as four groups of 16. *)
Definition md5_round1 (inp : list Z) (s : md5_regs) : md5_regs :=
  let '(a, b, c, d) := s in
  let a := MD5STEP F1 a b c d (inp !!! 0%nat + 0xd76aa478) 7 in
  let d := MD5STEP F1 d a b c (inp !!! 1%nat + 0xe8c7b756) 12 in
  let c := MD5STEP F1 c d a b (inp !!! 2%nat + 0x242070db) 17 in
  let b := MD5STEP F1 b c d a (inp !!! 3%nat + 0xc1bdceee) 22 in
  let a := MD5STEP F1 a b c d (inp !!! 4%nat + 0xf57c0faf) 7 in
  let d := MD5STEP F1 d a b c (inp !!! 5%nat + 0x4787c62a) 12 in
  let c := MD5STEP F1 c d a b (inp !!! 6%nat + 0xa8304613) 17 in
  let b := MD5STEP F1 b c d a (inp !!! 7%nat + 0xfd469501) 22 in
  let a := MD5STEP F1 a b c d (inp !!! 8%nat + 0x698098d8) 7 in
  let d := MD5STEP F1 d a b c (inp !!! 9%nat + 0x8b44f7af) 12 in
  let c := MD5STEP F1 c d a b (inp !!! 10%nat + 0xffff5bb1) 17 in
  let b := MD5STEP F1 b c d a (inp !!! 11%nat + 0x895cd7be) 22 in
  let a := MD5STEP F1 a b c d (inp !!! 12%nat + 0x6b901122) 7 in
  let d := MD5STEP F1 d a b c (inp !!! 13%nat + 0xfd987193) 12 in
  let c := MD5STEP F1 c d a b (inp !!! 14%nat + 0xa679438e) 17 in
  let b := MD5STEP F1 b c d a (inp !!! 15%nat + 0x49b40821) 22 in
  (a, b, c, d).
Definition md5_round2 (inp : list Z) (s : md5_regs) : md5_regs :=
  let '(a, b, c, d) := s in
  let a := MD5STEP F2 a b c d (inp !!! 1%nat + 0xf61e2562) 5 in
  let d := MD5STEP F2 d a b c (inp !!! 6%nat + 0xc040b340) 9 in
  let c := MD5STEP F2 c d a b (inp !!! 11%nat + 0x265e5a51) 14 in
  let b := MD5STEP F2 b c d a (inp !!! 0%nat + 0xe9b6c7aa) 20 in
  let a := MD5STEP F2 a b c d (inp !!! 5%nat + 0xd62f105d) 5 in
  let d := MD5STEP F2 d a b c (inp !!! 10%nat + 0x02441453) 9 in
  let c := MD5STEP F2 c d a b (inp !!! 15%nat + 0xd8a1e681) 14 in
  let b := MD5STEP F2 b c d a (inp !!! 4%nat + 0xe7d3fbc8) 20 in
  let a := MD5STEP F2 a b c d (inp !!! 9%nat + 0x21e1cde6) 5 in
  let d := MD5STEP F2 d a b c (inp !!! 14%nat + 0xc33707d6) 9 in
  let c := MD5STEP F2 c d a b (inp !!! 3%nat + 0xf4d50d87) 14 in
  let b := MD5STEP F2 b c d a (inp !!! 8%nat + 0x455a14ed) 20 in
  let a := MD5STEP F2 a b c d (inp !!! 13%nat + 0xa9e3e905) 5 in
  let d := MD5STEP F2 d a b c (inp !!! 2%nat + 0xfcefa3f8) 9 in
  let c := MD5STEP F2 c d a b (inp !!! 7%nat + 0x676f02d9) 14 in
  let b := MD5STEP F2 b c d a (inp !!! 12%nat + 0x8d2a4c8a) 20 in
  (a, b, c, d).
Definition md5_round3 (inp : list Z) (s : md5_regs) : md5_regs :=
  let '(a, b, c, d) := s in
  let a := MD5STEP F3 a b c d (inp !!! 5%nat + 0xfffa3942) 4 in
  let d := MD5STEP F3 d a b c (inp !!! 8%nat + 0x8771f681) 11 in
  let c := MD5STEP F3 c d a b (inp !!! 11%nat + 0x6d9d6122) 16 in
  let b := MD5STEP F3 b c d a (inp !!! 14%nat + 0xfde5380c) 23 in
  let a := MD5STEP F3 a b c d (inp !!! 1%nat + 0xa4beea44) 4 in
  let d := MD5STEP F3 d a b c (inp !!! 4%nat + 0x4bdecfa9) 11 in
  let c := MD5STEP F3 c d a b (inp !!! 7%nat + 0xf6bb4b60) 16 in
  let b := MD5STEP F3 b c d a (inp !!! 10%nat + 0xbebfbc70) 23 in
  let a := MD5STEP F3 a b c d (inp !!! 13%nat + 0x289b7ec6) 4 in
  let d := MD5STEP F3 d a b c (inp !!! 0%nat + 0xeaa127fa) 11 in
  let c := MD5STEP F3 c d a b (inp !!! 3%nat + 0xd4ef3085) 16 in
  let b := MD5STEP F3 b c d a (inp !!! 6%nat + 0x04881d05) 23 in
  let a := MD5STEP F3 a b c d (inp !!! 9%nat + 0xd9d4d039) 4 in
  let d := MD5STEP F3 d a b c (inp !!! 12%nat + 0xe6db99e5) 11 in
  let c := MD5STEP F3 c d a b (inp !!! 15%nat + 0x1fa27cf8) 16 in
  let b := MD5STEP F3 b c d a (inp !!! 2%nat + 0xc4ac5665) 23 in
  (a, b, c, d).
Definition md5_round4 (inp : list Z) (s : md5_regs) : md5_regs :=
  let '(a, b, c, d) := s in
  let a := MD5STEP F4 a b c d (inp !!! 0%nat + 0xf4292244) 6 in
  let d := MD5STEP F4 d a b c (inp !!! 7%nat + 0x432aff97) 10 in
  let c := MD5STEP F4 c d a b (inp !!! 14%nat + 0xab9423a7) 15 in
  let b := MD5STEP F4 b c d a (inp !!! 5%nat + 0xfc93a039) 21 in
  let a := MD5STEP F4 a b c d (inp !!! 12%nat + 0x655b59c3) 6 in
  let d := MD5STEP F4 d a b c (inp !!! 3%nat + 0x8f0ccc92) 10 in
  let c := MD5STEP F4 c d a b (inp !!! 10%nat + 0xffeff47d) 15 in
  let b := MD5STEP F4 b c d a (inp !!! 1%nat + 0x85845dd1) 21 in
  let a := MD5STEP F4 a b c d (inp !!! 8%nat + 0x6fa87e4f) 6 in
  let d := MD5STEP F4 d a b c (inp !!! 15%nat + 0xfe2ce6e0) 10 in
  let c := MD5STEP F4 c d a b (inp !!! 6%nat + 0xa3014314) 15 in
  let b := MD5STEP F4 b c d a (inp !!! 13%nat + 0x4e0811a1) 21 in
  let a := MD5STEP F4 a b c d (inp !!! 4%nat + 0xf7537e82) 6 in
  let d := MD5STEP F4 d a b c (inp !!! 11%nat + 0xbd3af235) 10 in
  let c := MD5STEP F4 c d a b (inp !!! 2%nat + 0x2ad7d2bb) 15 in
  let b := MD5STEP F4 b c d a (inp !!! 9%nat + 0xeb86d391) 21 in
  (a, b, c, d).

Definition MD5Transform (buf inp : list Z) : list Z :=
  let s := (buf !!! 0%nat, buf !!! 1%nat, buf !!! 2%nat, buf !!! 3%nat) in
  let '(a, b, c, d) := md5_round4 inp (md5_round3 inp (md5_round2 inp (md5_round1 inp s))) in
  zip_with (fun x y => uL dm (x + y)) buf [a; b; c; d].

Definition sizeof_uint32 : nat := match dm with ILP32 => 4 | LP64 => 8 end.
(** [(uint32 * ) ctx->in]. *)
Definition in_words (inp : list Z) : res (list Z) :=
  if (16 * sizeof_uint32 <=? length inp)%nat then mret (le_word <$> blocks sizeof_uint32 16 inp) else Err OutOfBounds.
Definition set_word (inp : list Z) (i : nat) (v : Z) : res (list Z) :=
  if ((i + 1) * sizeof_uint32 <=? length inp)%nat
  then mret (take (i * sizeof_uint32) inp ++ le_bytes sizeof_uint32 v ++ drop ((i + 1) * sizeof_uint32) inp) else Err OutOfBounds.
(** [memcpy] to, and [memset] of, the bytes from [off] on. *)
Definition md5_write (inp : list Z) (off : nat) (b : list Z) : res (list Z) :=
  if (off + length b <=? length inp)%nat then mret (take off inp ++ b ++ drop (off + length b) inp) else Err OutOfBounds.

Definition MD5Init ctx : MD5Context :=
  Md5 [0x67452301; 0xefcdab89; 0x98badcfe; 0x10325476] (0, 0) (md5_in ctx).

(** [MD5Transform(ctx->buf, (uint32 * ) ctx->in)]. *)
Definition md5_transform ctx : res MD5Context :=
  w ← in_words (md5_in ctx); mret (Md5 (MD5Transform (md5_buf ctx) w) (md5_bits ctx) (md5_in ctx)).
Definition with_in ctx (inp : list Z) : MD5Context := Md5 (md5_buf ctx) (md5_bits ctx) inp.

(** The 64-byte chunks, and the rest. *)
Fixpoint md5_chunks (fuel : nat) ctx buf : res MD5Context :=
  match fuel with
  | O => Err OutOfFuel
  | S fuel =>
      if (64 <=? length buf)%nat then
        inp ← md5_write (md5_in ctx) 0 (take 64 buf); ctx ← md5_transform (with_in ctx inp); md5_chunks fuel ctx (drop 64 buf)
      else inp ← md5_write (md5_in ctx) 0 buf; mret (with_in ctx inp)
  end.

(** [len] is the length of [buf], an [unsigned]. *)
Definition MD5Update ctx buf : res MD5Context :=
  let len := Z.of_nat (length buf) in
  let t := (md5_bits ctx).1 in
  let lo := uL dm (t + uL dm (len ≪ 3)) in
  let hi := if lo <? t then uL dm ((md5_bits ctx).2 + 1) else (md5_bits ctx).2 in
  let hi := uL dm (hi + len ≫ 29) in
  let ctx := Md5 (md5_buf ctx) (lo, hi) (md5_in ctx) in
  let t := Z.to_nat (Z.land (t ≫ 3) 0x3f) in
  if (0 <? t)%nat then
    if (length buf <? 64 - t)%nat then inp ← md5_write (md5_in ctx) t buf; mret (with_in ctx inp)
    else
      inp ← md5_write (md5_in ctx) t (take (64 - t) buf); ctx ← md5_transform (with_in ctx inp);
      md5_chunks (S (length buf)) ctx (drop (64 - t) buf)
  else md5_chunks (S (length buf)) ctx buf.

(** The digest, and the context of which [memset(ctx, 0, sizeof(ctx))] clears the size of a pointer. *)
Definition MD5Final ctx : res (list Z * MD5Context) :=
  let count := Z.to_nat (Z.land ((md5_bits ctx).1 ≫ 3) 0x3f) in
  inp ← md5_write (md5_in ctx) count [0x80];
  let p := S count in
  let count := (64 - 1 - count)%nat in
  ctx ← (if (count <? 8)%nat then
           inp ← md5_write inp p (replicate count 0); ctx ← md5_transform (with_in ctx inp);
           inp ← md5_write (md5_in ctx) 0 (replicate 56 0); mret (with_in ctx inp)
         else inp ← md5_write inp p (replicate (count - 8) 0); mret (with_in ctx inp));
  inp ← set_word (md5_in ctx) 14 (md5_bits ctx).1; inp ← set_word inp 15 (md5_bits ctx).2;
  ctx ← md5_transform (with_in ctx inp);
  let bytes := mjoin (le_bytes sizeof_uint32 <$> md5_buf ctx) in
  mret (take 16 bytes, Md5 (<[0%nat := 0]> (md5_buf ctx)) (md5_bits ctx) (md5_in ctx)).

(** A message that comes in pieces. *)
Fixpoint md5_pieces ctx (pieces : list (list Z)) : res MD5Context :=
  match pieces with [] => mret ctx | b :: pieces => ctx ← MD5Update ctx b; md5_pieces ctx pieces end.
Definition md5_digest ctx (pieces : list (list Z)) : res (list Z) :=
  ctx ← md5_pieces (MD5Init ctx) pieces; '(d, _) ← MD5Final ctx; mret d.
End Md5.

(** * RFC 1321 *)

Module Rfc1321.
Definition T : list Z :=
  [0xd76aa478; 0xe8c7b756; 0x242070db; 0xc1bdceee; 0xf57c0faf; 0x4787c62a; 0xa8304613; 0xfd469501; 0x698098d8;
  0x8b44f7af; 0xffff5bb1; 0x895cd7be; 0x6b901122; 0xfd987193; 0xa679438e; 0x49b40821; 0xf61e2562; 0xc040b340;
  0x265e5a51; 0xe9b6c7aa; 0xd62f105d; 0x02441453; 0xd8a1e681; 0xe7d3fbc8; 0x21e1cde6; 0xc33707d6; 0xf4d50d87;
  0x455a14ed; 0xa9e3e905; 0xfcefa3f8; 0x676f02d9; 0x8d2a4c8a; 0xfffa3942; 0x8771f681; 0x6d9d6122; 0xfde5380c;
  0xa4beea44; 0x4bdecfa9; 0xf6bb4b60; 0xbebfbc70; 0x289b7ec6; 0xeaa127fa; 0xd4ef3085; 0x04881d05; 0xd9d4d039;
  0xe6db99e5; 0x1fa27cf8; 0xc4ac5665; 0xf4292244; 0x432aff97; 0xab9423a7; 0xfc93a039; 0x655b59c3; 0x8f0ccc92;
  0xffeff47d; 0x85845dd1; 0x6fa87e4f; 0xfe2ce6e0; 0xa3014314; 0x4e0811a1; 0xf7537e82; 0xbd3af235; 0x2ad7d2bb;
  0xeb86d391].
Definition S : list Z := [7; 12; 17; 22; 5; 9; 14; 20; 4; 11; 16; 23; 6; 10; 15; 21].
Definition fn (i : nat) (x y z : Z) : Z :=
  if (i <? 16)%nat then Spec.ch x y z
  else if (i <? 32)%nat then Z.lxor (Z.land x z) (Z.land y (2 ^ 32 - 1 - z))
  else if (i <? 48)%nat then Spec.parity x y z else Z.lxor y (Z.lor x (2 ^ 32 - 1 - z)).
(** The word of the block that a step uses, and the rotation. *)
Definition index (i : nat) : nat :=
  if (i <? 16)%nat then i else if (i <? 32)%nat then ((5 * i + 1) mod 16)%nat
  else if (i <? 48)%nat then ((3 * i + 5) mod 16)%nat else ((7 * i) mod 16)%nat.
Definition shift (i : nat) : Z := S !!! (4 * (i / 16) + i mod 4)%nat.

Definition step (X : list Z) (s : Z * Z * Z * Z) (i : nat) : Z * Z * Z * Z :=
  let '(a, b, c, d) := s in
  (d, (b + Spec.rotl ((a + fn i b c d + X !!! index i + T !!! i) mod 2 ^ 32) (shift i)) mod 2 ^ 32, b, c).
Definition compress (H block : list Z) : list Z :=
  let '(a, b, c, d) := fold_left (step (le_word <$> blocks 4 16 block)) (seq 0 64) (H !!! 0%nat, H !!! 1%nat, H !!! 2%nat, H !!! 3%nat) in
  zip_with (fun x y => (x + y) mod 2 ^ 32) H [a; b; c; d].
Definition H0 : list Z := [0x67452301; 0xefcdab89; 0x98badcfe; 0x10325476].
(** The message, a one bit, zeros up to 56 modulo 64, and its length in bits modulo 2^64. *)
Definition pad (m : list Z) : list Z :=
  m ++ [0x80] ++ replicate (Z.to_nat ((55 - Z.of_nat (length m)) mod 64)) 0 ++ le_bytes 8 (8 * Z.of_nat (length m)).
Definition md5 (m : list Z) : list Z :=
  mjoin (le_bytes 4 <$> fold_left compress (blocks 64 (length (pad m) / 64) (pad m)) H0).
End Rfc1321.

(** Two of the test vectors of the RFC: the empty message and "abc". *)
Example md5_vectors : Rfc1321.md5 [] = be_bytes 16 0xd41d8cd98f00b204e9800998ecf8427e /\
  Rfc1321.md5 [0x61; 0x62; 0x63] = be_bytes 16 0x900150983cd24fb0d6963f7d28e17f72.
Proof. split; vm_compute; reflexivity. Qed.
Example md5_digest_abc : md5_digest ILP32 (Md5 [] (0, 0) (replicate 64 7)) [[0x61]; [0x62; 0x63]] = Ok (be_bytes 16 0x900150983cd24fb0d6963f7d28e17f72).
Proof. vm_compute. reflexivity. Qed.

(** * The transformation *)

Definition md5_regs_ok (s : md5_regs) : Prop := let '(a, b, c, d) := s in inU 32 a /\ inU 32 b /\ inU 32 c /\ inU 32 d.
Definition buf_ok (H : list Z) : Prop := length H = 4%nat /\ Forall (inU 32) H.

(** A step with the registers named after their use. *)
Definition code_step (f : Z -> Z -> Z -> Z) (inp : list Z) (s : md5_regs) (i : nat) : md5_regs :=
  let '(a, b, c, d) := s in (d, MD5STEP ILP32 f a b c d (inp !!! Rfc1321.index i + Rfc1321.T !!! i) (Rfc1321.shift i), b, c).

#[local] Opaque MD5STEP.
Lemma round1_steps inp s : md5_round1 ILP32 inp s = fold_left (code_step F1 inp) (seq 0 16) s.
Proof. destruct s as [[[a b] c] d]. reflexivity. Qed.
Lemma round2_steps inp s : md5_round2 ILP32 inp s = fold_left (code_step F2 inp) (seq 16 16) s.
Proof. destruct s as [[[a b] c] d]. reflexivity. Qed.
Lemma round3_steps inp s : md5_round3 ILP32 inp s = fold_left (code_step F3 inp) (seq 32 16) s.
Proof. destruct s as [[[a b] c] d]. reflexivity. Qed.
Lemma round4_steps inp s : md5_round4 ILP32 inp s = fold_left (code_step (F4 ILP32) inp) (seq 48 16) s.
Proof. destruct s as [[[a b] c] d]. reflexivity. Qed.
#[local] Transparent MD5STEP.

Section Words32.
Implicit Types (x y z w : Z) (s : md5_regs) (inp H : list Z) (i : nat).

Lemma F1_ch x y z : inU 32 x -> inU 32 y -> inU 32 z -> F1 x y z = Spec.ch x y z.
Proof.
  intros Hx Hy Hz. unfold F1, Spec.ch. apply Z.bits_inj'. intros n Hn. rewrite !Z.lxor_spec, !Z.land_spec, Z.lxor_spec.
  destruct (Z.lt_ge_cases n 32).
  - rewrite not32_bit by (assumption || lia). destruct (Z.testbit x n), (Z.testbit y n), (Z.testbit z n); reflexivity.
  - rewrite (inU_high 32 x), (inU_high 32 y), (inU_high 32 z) by (assumption || lia). rewrite !andb_false_r. reflexivity.
Qed.

Lemma F2_fn x y z : inU 32 x -> inU 32 y -> inU 32 z -> F2 x y z = Z.lxor (Z.land x z) (Z.land y (2 ^ 32 - 1 - z)).
Proof. intros Hx Hy Hz. unfold F2. rewrite F1_ch by assumption. unfold Spec.ch. rewrite (Z.land_comm z x), (Z.land_comm _ y). reflexivity. Qed.

Lemma F4_fn x y z : inU 32 z -> F4 ILP32 x y z = Z.lxor y (Z.lor x (2 ^ 32 - 1 - z)).
Proof. intros Hz. unfold F4. rewrite not32 by exact Hz. reflexivity. Qed.

(** A step adds in another order than the RFC and rotates by shifts. *)
Lemma MD5STEP_ok f i a b c d x k : f b c d = Rfc1321.fn i b c d -> inU 32 b -> 0 < Rfc1321.shift i < 32 ->
  MD5STEP ILP32 f a b c d (x + k) (Rfc1321.shift i) = (b + Spec.rotl ((a + Rfc1321.fn i b c d + x + k) mod 2 ^ 32) (Rfc1321.shift i)) mod 2 ^ 32.
Proof.
  intros Ef Hb Hs. unfold MD5STEP. rewrite Ef. set (w := uL ILP32 (a + (Rfc1321.fn i b c d + (x + k)))).
  assert ((a + Rfc1321.fn i b c d + x + k) mod 2 ^ 32 = w) as -> by (unfold w, wrapU; cbn [long_bits]; f_equal; lia).
  assert (inU 32 w) as Hw by (apply wrapU_range; cbn; lia). change (Z.lor (uL ILP32 (w ≪ Rfc1321.shift i)) (w ≫ (32 - Rfc1321.shift i))) with (ROT32 ILP32 w (Rfc1321.shift i)).
  rewrite ROT32_rotl by assumption. unfold wrapU. cbn [long_bits]. f_equal. lia.
Qed.

Lemma shift_range i : (i < 64)%nat -> 0 < Rfc1321.shift i < 32.
Proof.
  intros Hi. assert (forallb (fun i => (0 <? Rfc1321.shift i) && (Rfc1321.shift i <? 32)) (seq 0 64) = true) as H by (vm_compute; reflexivity).
  rewrite forallb_forall in H. specialize (H i ltac:(apply in_seq; lia)). apply andb_true_iff in H as [H1 H2]. lia.
Qed.

Lemma step_regs_ok X s i : md5_regs_ok s -> md5_regs_ok (Rfc1321.step X s i).
Proof. destruct s as [[[a b] c] d]. intros (Ha & Hb & Hc & Hd). cbn. split; [exact Hd|]. split; [|auto]. apply Z.mod_pos_bound. lia. Qed.

Lemma fold_steps f inp (n : nat) : forall (i : nat) s, md5_regs_ok s -> (i + n <= 64)%nat ->
  (forall j x y z, (i <= j < i + n)%nat -> inU 32 x -> inU 32 y -> inU 32 z -> f x y z = Rfc1321.fn j x y z) ->
  fold_left (code_step f inp) (seq i n) s = fold_left (Rfc1321.step inp) (seq i n) s /\ md5_regs_ok (fold_left (Rfc1321.step inp) (seq i n) s).
Proof.
  induction n as [|n IH]; intros i s Hs Hi Hf; [cbn; auto|]. cbn [seq]. rewrite !fold_left_cons.
  assert (code_step f inp s i = Rfc1321.step inp s i) as ->.
  { destruct s as [[[a b] c] d]. destruct Hs as (Ha & Hb & Hc & Hd). cbn [code_step Rfc1321.step].
    rewrite (MD5STEP_ok f i) by (first [apply Hf; (lia || assumption)|assumption|apply shift_range; lia]). reflexivity. }
  apply IH; [apply step_regs_ok, Hs|lia|]. intros j x y z Hj. apply Hf. lia.
Qed.

Lemma fn_cases j : (j < 16 -> Rfc1321.fn j = Spec.ch)%nat /\ (16 <= j < 32 -> Rfc1321.fn j = fun x y z => Z.lxor (Z.land x z) (Z.land y (2 ^ 32 - 1 - z)))%nat /\
  (32 <= j < 48 -> Rfc1321.fn j = Spec.parity)%nat /\ (48 <= j -> Rfc1321.fn j = fun x y z => Z.lxor y (Z.lor x (2 ^ 32 - 1 - z)))%nat.
Proof.
  unfold Rfc1321.fn. destruct (Nat.ltb_spec j 16), (Nat.ltb_spec j 32), (Nat.ltb_spec j 48);
    (split; [intros; first [reflexivity|lia]|]; split; [intros; first [reflexivity|lia]|]; split; intros; first [reflexivity|lia]).
Qed.

Lemma all_rounds inp s : md5_regs_ok s ->
  md5_round4 ILP32 inp (md5_round3 ILP32 inp (md5_round2 ILP32 inp (md5_round1 ILP32 inp s))) = fold_left (Rfc1321.step inp) (seq 0 64) s /\
  md5_regs_ok (fold_left (Rfc1321.step inp) (seq 0 64) s).
Proof.
  intros Hs. change (seq 0 64) with (seq 0 16 ++ seq 16 16 ++ seq 32 16 ++ seq 48 16). rewrite !fold_left_app.
  rewrite round1_steps, round2_steps, round3_steps, round4_steps.
  destruct (fold_steps F1 inp 16 0 s Hs ltac:(lia)) as [-> H1].
  { intros j x y z Hj Hx Hy Hz. rewrite (proj1 (fn_cases j)) by lia. apply F1_ch; assumption. }
  destruct (fold_steps F2 inp 16 16 _ H1 ltac:(lia)) as [-> H2].
  { intros j x y z Hj Hx Hy Hz. rewrite (proj1 (proj2 (fn_cases j))) by lia. apply F2_fn; assumption. }
  destruct (fold_steps F3 inp 16 32 _ H2 ltac:(lia)) as [-> H3].
  { intros j x y z Hj Hx Hy Hz. rewrite (proj1 (proj2 (proj2 (fn_cases j)))) by lia. apply f2_parity. }
  destruct (fold_steps (F4 ILP32) inp 16 48 _ H3 ltac:(lia)) as [-> H4].
  { intros j x y z Hj Hx Hy Hz. rewrite (proj2 (proj2 (proj2 (fn_cases j)))) by lia. apply F4_fn; assumption. }
  split; [reflexivity|exact H4].
Qed.

Lemma MD5Transform_compress H d : buf_ok H -> MD5Transform ILP32 H (le_word <$> blocks 4 16 d) = Rfc1321.compress H d.
Proof.
  intros [Hl HF]. unfold MD5Transform, Rfc1321.compress. set (s := (_, _, _, _)). assert (md5_regs_ok s) as Hs.
  { destruct H as [|a [|b [|c [|e [|]]]]]; try discriminate. unfold s. repeat (apply Forall_cons_1 in HF as [? HF]). cbn. auto. }
  rewrite (proj1 (all_rounds _ s Hs)). reflexivity.
Qed.

Lemma compress_buf_ok H d : buf_ok H -> buf_ok (Rfc1321.compress H d).
Proof.
  intros [Hl _]. unfold Rfc1321.compress. destruct (fold_left _ _ _) as [[[a b] c] e]. destruct H as [|h0 [|h1 [|h2 [|h3 [|]]]]]; try discriminate.
  split; [reflexivity|]. cbn [zip_with]. repeat (apply Forall_cons_2; [apply Z.mod_pos_bound; lia|]). constructor.
Qed.

Lemma fold_compress_buf_ok l : forall H, buf_ok H -> buf_ok (fold_left Rfc1321.compress l H).
Proof. intros H HH. apply fold_left_inv; [intros H1 d H2; apply compress_buf_ok, H2|exact HH]. Qed.

Lemma md5_transform_ok ctx : buf_ok (md5_buf ctx) -> length (md5_in ctx) = 64%nat ->
  md5_transform ILP32 ctx = Ok (Md5 (Rfc1321.compress (md5_buf ctx) (md5_in ctx)) (md5_bits ctx) (md5_in ctx)).
Proof.
  intros Hb Hl. unfold md5_transform, in_words. cbn [sizeof_uint32]. rewrite Hl. cbn [Nat.leb Nat.mul Nat.add mbind res_bind mret res_ret].
  rewrite MD5Transform_compress by exact Hb. reflexivity.
Qed.
End Words32.

(** * Streams *)

Definition absorb (H x : list Z) : list Z := fold_left Rfc1321.compress (blocks 64 (length x / 64) x) H.

#[local] Opaque Rfc1321.compress.

Section Stream.
Implicit Types (m x y H b : list Z) (ctx : MD5Context).

Lemma length_block_tail m : length (block_tail m) = (length m mod 64)%nat.
Proof. unfold block_tail. rewrite length_drop. pose proof (Nat.div_mod_eq (length m) 64). lia. Qed.

Lemma absorb_short H x : (length x < 64)%nat -> absorb H x = H /\ block_tail x = x.
Proof. intros Hx. unfold absorb, block_tail. rewrite Nat.div_small by exact Hx. split; reflexivity. Qed.

Lemma absorb_tail H m y : absorb H (m ++ y) = absorb (absorb H m) (block_tail m ++ y) /\ block_tail (m ++ y) = block_tail (block_tail m ++ y).
Proof.
  pose proof (Nat.div_mod_eq (length m) 64) as Em. set (q := (length m / 64)%nat) in *.
  destruct (block_add 64 q (length m mod 64 + length y) ltac:(lia)) as [Eq _].
  replace (q * 64 + (length m mod 64 + length y))%nat with (length (m ++ y)) in Eq by (rewrite length_app; lia).
  replace (length m mod 64 + length y)%nat with (length (block_tail m ++ y)) in Eq by (rewrite length_app, length_block_tail; reflexivity).
  split.
  - unfold absorb. rewrite Eq. fold q. unfold q. rewrite blocks_full, fold_left_app. reflexivity.
  - unfold block_tail at 1 2. rewrite Eq. replace (64 * (q + length (block_tail m ++ y) / 64))%nat with (64 * q + 64 * (length (block_tail m ++ y) / 64))%nat by lia.
    rewrite <- drop_drop. f_equal. unfold block_tail at 1. fold q. rewrite drop_app_le by lia. reflexivity.
Qed.

Lemma absorb_block H b y : length b = 64%nat -> absorb H (b ++ y) = absorb (Rfc1321.compress H b) y /\ block_tail (b ++ y) = block_tail y.
Proof.
  intros Hb. destruct (absorb_tail H b y) as [-> ->]. assert (block_tail b = []) as ->.
  { unfold block_tail. rewrite Hb. change (64 * (64 / 64))%nat with 64%nat. apply drop_ge. lia. }
  cbn [app]. split; [|reflexivity]. f_equal. unfold absorb. rewrite Hb. change (64 / 64)%nat with 1%nat. cbn [blocks fold_left]. rewrite take_ge by lia. reflexivity.
Qed.

Lemma md5_write_ok x off b : (off + length b <= length x)%nat -> md5_write x off b = Ok (take off x ++ b ++ drop (off + length b) x).
Proof. intros H. unfold md5_write. rewrite (proj2 (Nat.leb_le _ _)) by exact H. reflexivity. Qed.

Lemma length_written x off b : (off + length b <= length x)%nat -> length (take off x ++ b ++ drop (off + length b) x) = length x.
Proof. intros H. rewrite !length_app, length_take, length_drop. lia. Qed.

(** The chaining value and the start of the buffer after [x]; the bit count stays. *)
Definition absorbed H x ctx ctx' : Prop :=
  md5_buf ctx' = absorb H x /\ md5_bits ctx' = md5_bits ctx /\ length (md5_in ctx') = 64%nat /\
  take (length (block_tail x)) (md5_in ctx') = block_tail x.

Lemma md5_chunks_ok fuel : forall ctx b, buf_ok (md5_buf ctx) -> length (md5_in ctx) = 64%nat -> (length b < fuel)%nat ->
  okp (md5_chunks ILP32 fuel ctx b) (absorbed (md5_buf ctx) b ctx).
Proof.
  induction fuel as [|fuel IH]; intros ctx b Hb Hl Hf; [lia|]. cbn [md5_chunks]. destruct (Nat.leb_spec 64 (length b)) as [H64|H64].
  - assert (length (take 64 b) = 64%nat) as Ht by (rewrite length_take; lia). rewrite md5_write_ok by lia. cbn [mbind res_bind take app Nat.add].
    rewrite Ht, (drop_ge (md5_in ctx)), app_nil_r by lia. rewrite md5_transform_ok by (cbn [with_in md5_buf md5_in]; assumption). cbn [mbind res_bind with_in md5_buf md5_bits md5_in].
    pose proof (IH (Md5 (Rfc1321.compress (md5_buf ctx) (take 64 b)) (md5_bits ctx) (take 64 b)) (drop 64 b) (compress_buf_ok _ _ Hb) Ht
      ltac:(rewrite length_drop; lia)) as Hr. eapply okp_mono; [exact Hr|]. intros ctx' (H1 & H2 & H3 & H4). cbn [md5_buf md5_bits] in *.
    destruct (absorb_block (md5_buf ctx) (take 64 b) (drop 64 b) Ht) as [Ea Et]. rewrite take_drop in Ea, Et. unfold absorbed. rewrite Ea, Et. auto.
  - rewrite md5_write_ok by lia. cbn [mbind res_bind mret res_ret okp take app Nat.add]. destruct (absorb_short (md5_buf ctx) b H64) as [Ea Et].
    unfold absorbed. rewrite Ea, Et. cbn [with_in md5_buf md5_bits md5_in]. rewrite take_0. cbn [app]. split; [reflexivity|]. split; [reflexivity|].
    split; [rewrite length_app, length_drop; lia|]. rewrite take_app_length'; reflexivity.
Qed.

(** The context that has seen the message [m]. *)
Definition md5_seen m ctx : Prop :=
  md5_buf ctx = absorb Rfc1321.H0 m /\ md5_bits ctx = ((8 * Z.of_nat (length m)) mod 2 ^ 32, 8 * Z.of_nat (length m) / 2 ^ 32) /\
  length (md5_in ctx) = 64%nat /\ take (length (block_tail m)) (md5_in ctx) = block_tail m.

Lemma absorb_buf_ok H m : buf_ok H -> buf_ok (absorb H m).
Proof. apply fold_compress_buf_ok. Qed.

Lemma H0_ok : buf_ok Rfc1321.H0.
Proof. split; [reflexivity|by_eval]. Qed.

Lemma md5_carry (a b : Z) : 0 <= a -> 0 <= b < 2 ^ 32 -> 8 * (a + b) < 2 ^ 64 ->
  uL ILP32 ((if uL ILP32 ((8 * a) mod 2 ^ 32 + uL ILP32 (b ≪ 3)) <? (8 * a) mod 2 ^ 32 then uL ILP32 (8 * a / 2 ^ 32 + 1) else 8 * a / 2 ^ 32) + b ≫ 29) = 8 * (a + b) / 2 ^ 32 /\
  uL ILP32 ((8 * a) mod 2 ^ 32 + uL ILP32 (b ≪ 3)) = (8 * (a + b)) mod 2 ^ 32.
Proof.
  intros Ha Hb Hm. rewrite Z.shiftl_mul_pow2, Z.shiftr_div_pow2 by lia. unfold wrapU. cbn [long_bits]. change (2 ^ 3) with 8. change (2 ^ 29) with 536870912.
  change (2 ^ 64) with 18446744073709551616 in *. change (2 ^ 32) with 4294967296 in *.
  split; [|rewrite Zplus_mod_idemp_l, Zplus_mod_idemp_r; f_equal; lia].
  destruct (Z.ltb_spec (((8 * a) mod 4294967296 + (b * 8) mod 4294967296) mod 4294967296) ((8 * a) mod 4294967296)); dlia.
Qed.

Lemma md5_update_ok m ctx b : md5_seen m ctx -> Z.of_nat (length b) < 2 ^ 32 -> 8 * Z.of_nat (length (m ++ b)) < 2 ^ 64 ->
  okp (MD5Update ILP32 ctx b) (md5_seen (m ++ b)).
Proof.
  intros (Hb & Hbits & Hl & Ht) Hlen Hmax. rewrite length_app, Nat2Z.inj_add in Hmax.
  destruct (md5_carry (Z.of_nat (length m)) (Z.of_nat (length b)) ltac:(lia) ltac:(lia) Hmax) as [Ehi Elo].
  unfold MD5Update. rewrite Hbits. cbn [fst snd]. cbv zeta. rewrite Ehi, Elo. rewrite (sha_count _ (length m) eq_refl).
  set (ctx1 := Md5 (md5_buf ctx) _ (md5_in ctx)).
  assert (buf_ok (md5_buf ctx)) as Hok by (rewrite Hb; apply absorb_buf_ok, H0_ok).
  assert (okp (if (0 <? length m mod 64)%nat
      then if (length b <? 64 - length m mod 64)%nat
        then inp ← md5_write (md5_in ctx1) (length m mod 64) b; mret (with_in ctx1 inp)
        else inp ← md5_write (md5_in ctx1) (length m mod 64) (take (64 - length m mod 64) b); ctx ← md5_transform ILP32 (with_in ctx1 inp);
             md5_chunks ILP32 (S (length b)) ctx (drop (64 - length m mod 64) b)
      else md5_chunks ILP32 (S (length b)) ctx1 b) (absorbed (md5_buf ctx) (block_tail m ++ b) ctx1)) as H.
  - rewrite <- length_block_tail in *. set (P := block_tail m) in *. pose proof (Nat.mod_upper_bound (length m) 64 ltac:(lia)) as HP. rewrite <- length_block_tail in HP. fold P in HP.
    destruct (Nat.ltb_spec 0 (length P)) as [H0|H0].
    + destruct (Nat.ltb_spec (length b) (64 - length P)) as [H64|H64].
      * rewrite md5_write_ok by (unfold ctx1; cbn [md5_in]; lia). cbn [mbind res_bind mret res_ret okp]. unfold ctx1. cbn [with_in md5_in md5_buf md5_bits]. rewrite Ht.
        destruct (absorb_short (md5_buf ctx) (P ++ b)) as [Ea Et]; [rewrite length_app; lia|]. unfold absorbed. rewrite Ea, Et. cbn [with_in md5_buf md5_bits md5_in].
        split; [reflexivity|]. split; [reflexivity|]. split; [rewrite !length_app, length_drop; lia|]. rewrite app_assoc, take_app_length'; reflexivity.
      * assert (length (take (64 - length P) b) = 64 - length P)%nat as Htk by (rewrite length_take; lia).
        rewrite md5_write_ok by (unfold ctx1; cbn [md5_in]; lia). cbn [mbind res_bind]. unfold ctx1 at 1 2 3. cbn [with_in md5_in md5_buf md5_bits]. rewrite Ht, Htk, (drop_ge (md5_in ctx)), app_nil_r by lia.
        set (B := P ++ take (64 - length P) b). assert (length B = 64%nat) as HB by (unfold B; rewrite length_app; lia).
        rewrite md5_transform_ok by (cbn [md5_buf md5_in]; assumption). cbn [mbind res_bind md5_buf md5_bits md5_in].
        pose proof (md5_chunks_ok (S (length b)) (Md5 (Rfc1321.compress (md5_buf ctx) B) (md5_bits ctx1) B) (drop (64 - length P) b) (compress_buf_ok _ _ Hok) HB
          ltac:(rewrite length_drop; lia)) as Hr. eapply okp_mono; [exact Hr|].
        intros ctx' (H1 & H2 & H3 & H4). cbn [md5_buf md5_bits] in *.
        destruct (absorb_block (md5_buf ctx) B (drop (64 - length P) b) HB) as [Ea Et].
        assert (B ++ drop (64 - length P) b = P ++ b) as EB by (unfold B; rewrite <- app_assoc, take_drop; reflexivity). rewrite EB in Ea, Et.
        unfold absorbed. rewrite Ea, Et. auto.
    + destruct P as [|p P]; [|cbn [length] in H0; lia]. cbn [app]. apply (md5_chunks_ok (S (length b)) ctx1 b); [exact Hok|exact Hl|lia].
  - eapply okp_mono; [exact H|]. intros ctx' (H1 & H2 & H3 & H4). destruct (absorb_tail Rfc1321.H0 m b) as [Ea Et]. unfold md5_seen. rewrite Ea, Et, H1, Hb, H2. unfold ctx1. cbn [md5_bits].
    rewrite length_app, Nat2Z.inj_add. auto.
Qed.
End Stream.

(** * The end of a message *)

Lemma le_bytes_mod n x : le_bytes n (x mod 256 ^ Z.of_nat n) = le_bytes n x.
Proof.
  pose proof (le_bytes_word (le_bytes n x) (le_bytes_bytes n x)) as H. rewrite length_le_bytes, le_word_bytes in H. exact H.
Qed.

Lemma le_bytes_add n k : forall x, le_bytes (n + k) x = le_bytes n x ++ le_bytes k (x / 256 ^ Z.of_nat n).
Proof.
  induction n as [|n IH]; intros x; [cbn [Nat.add le_bytes app]; change (256 ^ Z.of_nat 0) with 1; rewrite Z.div_1_r; reflexivity|].
  cbn [Nat.add le_bytes app]. rewrite IH, Z.div_div by lia. rewrite <- Z.pow_succ_r, <- Nat2Z.inj_succ by lia. reflexivity.
Qed.

Section Final.
Implicit Types (m x H T : list Z) (ctx : MD5Context).

Lemma set_words x T (n : Z) : length x = 64%nat -> take 56 x = T ->
  (x ← set_word ILP32 x 14 (n mod 2 ^ 32); set_word ILP32 x 15 (n / 2 ^ 32)) = Ok (T ++ le_bytes 8 n).
Proof.
  intros Hl HT. assert (length T = 56%nat) as HTl by (rewrite <- HT, length_take; lia).
  unfold set_word. cbn [sizeof_uint32]. change ((14 + 1) * 4)%nat with 60%nat. change (14 * 4)%nat with 56%nat. change ((15 + 1) * 4)%nat with 64%nat. change (15 * 4)%nat with 60%nat.
  rewrite Hl. cbn [Nat.leb mbind res_bind mret res_ret]. rewrite HT.
  rewrite !length_app, length_drop, length_le_bytes, HTl, Hl. change (64 <=? 56 + (4 + (64 - 60)))%nat with true. cbn [mret res_ret]. f_equal.
  rewrite (drop_ge (T ++ _)) by (rewrite !length_app, length_drop, length_le_bytes; lia). rewrite app_nil_r.
  rewrite app_assoc, take_app_length' by (rewrite length_app, length_le_bytes; lia). rewrite <- app_assoc. f_equal.
  change 8%nat with (4 + 4)%nat. rewrite le_bytes_add. change (256 ^ Z.of_nat 4) with (2 ^ 32). f_equal. exact (le_bytes_mod 4 n).
Qed.

(** The last block: 56 bytes and the length. *)
Definition final_block ctx : res MD5Context :=
  inp ← set_word ILP32 (md5_in ctx) 14 (md5_bits ctx).1; inp ← set_word ILP32 inp 15 (md5_bits ctx).2; md5_transform ILP32 (with_in ctx inp).

Lemma final_block_ok ctx T (n : Z) : buf_ok (md5_buf ctx) -> md5_bits ctx = (n mod 2 ^ 32, n / 2 ^ 32) -> length (md5_in ctx) = 64%nat ->
  take 56 (md5_in ctx) = T -> okp (final_block ctx) (fun ctx' => md5_buf ctx' = Rfc1321.compress (md5_buf ctx) (T ++ le_bytes 8 n)).
Proof.
  intros Hb Hbits Hl HT. unfold final_block. rewrite Hbits. cbn [fst snd]. pose proof (set_words (md5_in ctx) T n Hl HT) as E.
  destruct (set_word ILP32 (md5_in ctx) 14 (n mod 2 ^ 32)) as [x|e]; [|discriminate]. cbn [mbind res_bind] in *. rewrite E. cbn [mbind res_bind].
  rewrite md5_transform_ok; [reflexivity|exact Hb|]. cbn [with_in md5_in]. rewrite length_app, length_le_bytes, <- HT, length_take. lia.
Qed.

Lemma digest_bytes H : buf_ok H -> take 16 (mjoin (le_bytes 4 <$> H)) = mjoin (le_bytes 4 <$> H).
Proof. intros [Hl _]. destruct H as [|a [|b [|c [|d [|]]]]]; try discriminate. reflexivity. Qed.

Lemma md5_final_ok m ctx : md5_seen m ctx -> 8 * Z.of_nat (length m) < 2 ^ 64 -> okp (MD5Final ILP32 ctx) (fun r => r.1 = Rfc1321.md5 m).
Proof.
  intros (Hb & Hbits & Hl & Ht) Hmax. assert (buf_ok (md5_buf ctx)) as Hok by (rewrite Hb; apply absorb_buf_ok, H0_ok).
  assert (forall ctx2 T, buf_ok (md5_buf ctx2) -> md5_bits ctx2 = md5_bits ctx -> length (md5_in ctx2) = 64%nat -> take 56 (md5_in ctx2) = T ->
    Rfc1321.compress (md5_buf ctx2) (T ++ le_bytes 8 (8 * Z.of_nat (length m))) = absorb Rfc1321.H0 (Rfc1321.pad m) ->
    okp (inp ← set_word ILP32 (md5_in ctx2) 14 (md5_bits ctx2).1; inp ← set_word ILP32 inp 15 (md5_bits ctx2).2;
         ctx' ← md5_transform ILP32 (with_in ctx2 inp); mret (take 16 (mjoin (le_bytes 4 <$> md5_buf ctx')), Md5 (<[0%nat := 0]> (md5_buf ctx')) (md5_bits ctx') (md5_in ctx')))
      (fun r => r.1 = Rfc1321.md5 m)) as Hfin.
  { intros ctx2 T Hok2 Hbits2 Hl2 HT E. rewrite Hbits in Hbits2. pose proof (final_block_ok ctx2 T _ Hok2 Hbits2 Hl2 HT) as H. unfold final_block in H.
    destruct (set_word ILP32 (md5_in ctx2) 14 (md5_bits ctx2).1) as [x|e]; [|exact H]. cbn [mbind res_bind] in *.
    destruct (set_word ILP32 x 15 (md5_bits ctx2).2) as [x'|e]; [|exact H]. cbn [mbind res_bind] in *.
    destruct (md5_transform ILP32 (with_in ctx2 x')) as [ctx'|e]; [|exact H]. cbn [mbind res_bind mret res_ret okp fst] in *.
    rewrite H, digest_bytes by apply compress_buf_ok, Hok2. rewrite E. reflexivity. }
  set (P := block_tail m) in *. pose proof (length_block_tail m) as HP. fold P in HP. pose proof (Nat.mod_upper_bound (length m) 64 ltac:(lia)) as Hr.
  unfold MD5Final. rewrite Hbits. cbn [fst snd]. rewrite (sha_count _ (length m) eq_refl), <- HP in *.
  rewrite md5_write_ok by (cbn [length]; lia). cbn [mbind res_bind]. rewrite Ht. set (x := P ++ [0x80] ++ drop (length P + length [0x80]) (md5_in ctx)).
  assert (length x = 64%nat) as Hx by (unfold x; rewrite !length_app, length_drop; cbn [length]; lia).
  assert (take (S (length P)) x = P ++ [0x80]) as Htx by (unfold x; rewrite app_assoc; apply take_app_length'; rewrite length_app; cbn [length]; lia).
  clearbody x. destruct (absorb_tail Rfc1321.H0 m ([0x80] ++ replicate (Z.to_nat ((55 - Z.of_nat (length m)) mod 64)) 0 ++ le_bytes 8 (8 * Z.of_nat (length m)))) as [Ea _].
  fold (Rfc1321.pad m) in Ea. fold P in Ea. rewrite <- Hb in Ea. pose proof (Nat.div_mod_eq (length m) 64) as Edm. rewrite <- HP in Edm.
  destruct (Nat.ltb_spec (64 - 1 - length P) 8) as [H8|H8].
  - rewrite md5_write_ok by (rewrite length_replicate; lia). cbn [mbind res_bind]. rewrite Htx, (drop_ge x), app_nil_r by (rewrite length_replicate; lia).
    set (B := (P ++ [0x80]) ++ replicate (64 - 1 - length P) 0). assert (length B = 64%nat) as HB by (unfold B; rewrite !length_app, length_replicate; cbn [length]; lia).
    rewrite md5_transform_ok by assumption. cbn [mbind res_bind with_in md5_in md5_buf md5_bits]. rewrite md5_write_ok by (rewrite length_replicate; lia).
    cbn [mbind res_bind]. rewrite take_0. cbn [app]. rewrite length_replicate. cbn [Nat.add mret res_ret mbind res_bind].
    set (ctx2 := with_in (Md5 (Rfc1321.compress (md5_buf ctx) B) (md5_bits ctx) B) (replicate 56 0 ++ drop 56 B)).
    apply (Hfin ctx2 (replicate 56 0)); [apply compress_buf_ok, Hok|reflexivity|unfold ctx2; cbn [with_in md5_in]; rewrite length_app, length_replicate, length_drop; lia| |].
    + unfold ctx2. cbn [with_in md5_in]. apply take_app_length'. rewrite length_replicate. reflexivity.
    + rewrite Ea. replace (Z.to_nat ((55 - Z.of_nat (length m)) mod 64)) with (64 - 1 - length P + 56)%nat by dlia.
      rewrite replicate_add. replace (P ++ [0x80] ++ (replicate (64 - 1 - length P) 0 ++ replicate 56 0) ++ le_bytes 8 (8 * Z.of_nat (length m)))
        with (B ++ replicate 56 0 ++ le_bytes 8 (8 * Z.of_nat (length m))) by (unfold B; rewrite <- !app_assoc; reflexivity).
      rewrite (proj1 (absorb_block (md5_buf ctx) B _ HB)). rewrite <- (app_nil_r (replicate 56 0 ++ _)) at 2.
      rewrite (proj1 (absorb_block _ (replicate 56 0 ++ _) [] ltac:(rewrite length_app, length_replicate, length_le_bytes; reflexivity))). reflexivity.
  - rewrite md5_write_ok by (rewrite length_replicate; lia). cbn [mbind res_bind mret res_ret]. rewrite Htx.
    set (T := (P ++ [0x80]) ++ replicate (64 - 1 - length P - 8) 0). assert (length T = 56%nat) as HT by (unfold T; rewrite !length_app, length_replicate; cbn [length]; lia).
    set (ctx2 := with_in ctx _). apply (Hfin ctx2 T); [exact Hok|reflexivity| | |].
    + unfold ctx2. cbn [with_in md5_in]. rewrite !length_app, length_drop, length_replicate. cbn [length]. lia.
    + unfold ctx2. cbn [with_in md5_in]. rewrite app_assoc. apply take_app_length'. symmetry. exact HT.
    + rewrite Ea. replace (Z.to_nat ((55 - Z.of_nat (length m)) mod 64)) with (64 - 1 - length P - 8)%nat by dlia.
      replace (P ++ [0x80] ++ replicate (64 - 1 - length P - 8) 0 ++ le_bytes 8 (8 * Z.of_nat (length m)))
        with ((T ++ le_bytes 8 (8 * Z.of_nat (length m))) ++ []) by (unfold T; rewrite <- !app_assoc, app_nil_r; reflexivity).
      rewrite (proj1 (absorb_block _ (T ++ _) [] ltac:(rewrite length_app, HT, length_le_bytes; reflexivity))). reflexivity.
Qed.
End Final.

Lemma md5_init_seen ctx : length (md5_in ctx) = 64%nat -> md5_seen [] (MD5Init ctx).
Proof. intros Hl. unfold md5_seen. split; [reflexivity|]. split; [reflexivity|]. split; [exact Hl|]. reflexivity. Qed.

Lemma md5_pieces_ok pieces : forall m ctx, md5_seen m ctx -> Forall (fun b => Z.of_nat (length b) < 2 ^ 32) pieces ->
  8 * Z.of_nat (length (m ++ mjoin pieces)) < 2 ^ 64 -> okp (md5_pieces ILP32 ctx pieces) (md5_seen (m ++ mjoin pieces)).
Proof.
  induction pieces as [|b pieces IH]; intros m ctx Hs HF Hmax; [cbn; rewrite app_nil_r; exact Hs|].
  apply Forall_cons_1 in HF as [Hb HF]. rewrite mjoin_cons in *. cbn [md5_pieces]. rewrite app_assoc in *.
  eapply okp_bind; [apply (md5_update_ok m ctx b Hs Hb); rewrite !length_app in *; lia|]. intros ctx' Hs'. exact (IH _ _ Hs' HF Hmax).
Qed.

(** C28: Where unsigned long has 32 bits, MD5Init, any sequence of MD5Update calls and
    MD5Final compute the MD5 digest, after the definition of RFC 1321, of the concatenated
    pieces, however the message is split. *)
Theorem md5_correct ctx pieces : length (md5_in ctx) = 64%nat -> Forall (fun b => Z.of_nat (length b) < 2 ^ 32) pieces ->
  8 * Z.of_nat (length (mjoin pieces)) < 2 ^ 64 -> md5_digest ILP32 ctx pieces = Ok (Rfc1321.md5 (mjoin pieces)).
Proof.
  intros Hl HF Hmax. assert (okp (md5_digest ILP32 ctx pieces) (fun d => d = Rfc1321.md5 (mjoin pieces))) as H.
  { unfold md5_digest. eapply okp_bind; [exact (md5_pieces_ok pieces [] _ (md5_init_seen ctx Hl) HF Hmax)|]. intros ctx' Hs.
    eapply okp_bind; [exact (md5_final_ok _ ctx' Hs Hmax)|]. intros [d c] Hd. exact Hd. }
  apply okp_ok in H as (d & -> & ->). reflexivity.
Qed.

Lemma md5_correct_witness : let ctx := Md5 [] (0, 0) (replicate 64 7) in let pieces := [[0x61]; [0x62; 0x63]] in
  Forall (fun b => Z.of_nat (length b) < 2 ^ 32) pieces /\ 8 * Z.of_nat (length (mjoin pieces)) < 2 ^ 64 /\
  md5_digest ILP32 ctx pieces = Ok (Rfc1321.md5 (mjoin pieces)).
Proof.
  intros ctx pieces. assert (Forall (fun b : list Z => Z.of_nat (length b) < 2 ^ 32) pieces) as H by by_eval. split; [exact H|].
  assert (8 * Z.of_nat (length (mjoin pieces)) < 2 ^ 64) as H2 by by_eval. split; [exact H2|]. exact (md5_correct ctx pieces eq_refl H H2).
Defined.

(** Where unsigned long has 64 bits, MD5Final accesses words outside the 64 bytes of the
    input buffer, whatever the message is. *)
Theorem md5_lp64_overruns ctx : length (md5_in ctx) = 64%nat -> MD5Final LP64 ctx = Err OutOfBounds.
Proof.
  intros Hl. unfold MD5Final. assert (forall c, length (md5_in c) = 64%nat -> md5_transform LP64 c = Err OutOfBounds) as Ht.
  { intros c Hc. unfold md5_transform, in_words. cbn [sizeof_uint32]. rewrite Hc. reflexivity. }
  assert (forall x v, length x = 64%nat -> set_word LP64 x 14 v = Err OutOfBounds) as Hs.
  { intros x v Hx. unfold set_word. cbn [sizeof_uint32]. rewrite Hx. reflexivity. }
  set (c := Z.to_nat (Z.land _ _)). assert (c < 64)%nat as Hc.
  { unfold c. change 0x3f with (Z.ones 6). rewrite Z.land_ones by lia. pose proof (Z.mod_pos_bound ((md5_bits ctx).1 ≫ 3) (2 ^ 6) ltac:(lia)). lia. }
  rewrite md5_write_ok by (cbn [length]; lia). cbn [mbind res_bind].
  destruct (Nat.ltb_spec (64 - 1 - c) 8) as [H8|H8]; rewrite md5_write_ok by (rewrite length_replicate, length_written; cbn [length]; lia); cbn [mbind res_bind mret res_ret].
  - rewrite Ht; [reflexivity|]. cbn [with_in md5_in]. rewrite !length_written; rewrite ?length_replicate, ?length_written; cbn [length]; lia.
  - rewrite Hs; [reflexivity|]. cbn [with_in md5_in]. rewrite !length_written; rewrite ?length_replicate, ?length_written; cbn [length]; lia.
Qed.

Lemma md5_lp64_overruns_witness : let ctx := Md5 [] (0, 0) (replicate 64 7) in length (md5_in ctx) = 64%nat /\ MD5Final LP64 ctx = Err OutOfBounds.
Proof. intros ctx. split; [reflexivity|]. exact (md5_lp64_overruns ctx eq_refl). Defined.
