(* ===== verification/RandPool.v ===== *)
(** The random pool of pgp (src/mibench/security/pgp/src/randpool.c, randpool.h) and the generator of
    session keys (ideaRandInit, ideaRandState, ideaRandWash and ideaRandByte of idea.c), on a little-endian machine and
    for both widths of [unsigned long].

    The static variables of randpool.c are a record. The pool is its bytes; the code reads and writes it as
    words of the size of [word32], and as groups of four bytes. *)
From stdpp Require Import base list numbers option tactics.
From Stdlib Require Import ZArith Lia.
From S2P Require Import Prelude Bytes Idea IdeaCfb Md5.

(** * The pool *)

Record rand_pool := RandPool { randPool : list Z; randPoolGetPos : Z; randPoolAddPos : Z; randPoolKey : list Z }.
Definition RANDPOOLBITS : Z := 3072.
Definition RANDPOOLWORDS : Z := Z.land (RANDPOOLBITS + 127) (Z.lnot 127) ≫ 5.

Section Pool.
Context (dm : data_model).
Implicit Types (r : rand_pool) (mem key w : list Z).

Definition sizeof_word32 : Z := Z.of_nat (sizeof_uint32 dm).
Definition sizeof_randPool : Z := RANDPOOLWORDS * sizeof_word32.
Definition sizeof_randPoolKey : Z := 16 * sizeof_word32.

(** [randPool[i]]. *)
Definition pool_word mem (i : Z) : res Z := b ← bytes_at mem (i * sizeof_word32) sizeof_word32; mret (le_word b).
Definition set_pool_word mem (i v : Z) : res (list Z) := memcpy mem (i * sizeof_word32) (le_bytes (sizeof_uint32 dm) v).

(** The conversions at the start and at the end of the stirring; [p] is at the byte [4 * i]. *)
Definition to_words (i : Z) mem : res (list Z) :=
  p0 ← aget mem (4 * i); p1 ← aget mem (4 * i + 1); p2 ← aget mem (4 * i + 2); p3 ← aget mem (4 * i + 3);
  set_pool_word mem i (Z.lor (uL dm (Z.lor (p3 ≪ 8) p2 ≪ 16)) (Z.lor (p1 ≪ 8) p0)).
Definition to_bytes (i : Z) mem : res (list Z) :=
  t ← pool_word mem i;
  mem ← aset mem (4 * i) (u8 (t ≫ 24)); mem ← aset mem (4 * i + 1) (u8 (t ≫ 16));
  mem ← aset mem (4 * i + 2) (u8 (t ≫ 8)); aset mem (4 * i + 3) (u8 t).

(** [iv[j] = randPool[i+j] ^= iv[j]]. *)
Definition xor_word (i : Z) (j : nat) (st : list Z * list Z) : res (list Z * list Z) :=
  let '(mem, iv) := st in
  t ← pool_word mem (i + Z.of_nat j); let t := Z.lxor t (iv !!! j) in
  mem ← set_pool_word mem (i + Z.of_nat j) t; mret (mem, <[j := t]> iv).
(** One pass of the feedback mode. *)
Definition stir_body key (k : Z) (st : list Z * list Z) : res (list Z * list Z) :=
  let '(mem, iv) := st in
  let i := 4 * k in
  st ← xor_word i 0 (mem, MD5Transform dm iv key);
  st ← xor_word i 1 st; st ← xor_word i 2 st; xor_word i 3 st.
Definition stir_pass key (st : list Z * list Z) : res (list Z * list Z) := cfor (Z.to_nat (RANDPOOLWORDS / 4)) 0 (stir_body key) st.
(** [memcpy(randPoolKey, randPool, sizeof(randPoolKey))]. *)
Definition new_key mem : res (list Z) := mapM (fun i => pool_word mem i) (seqZ 0 16).

Definition randPoolStir r : res rand_pool :=
  mem ← cfor (Z.to_nat RANDPOOLWORDS) 0 to_words (randPool r);
  iv ← mapM (fun i => pool_word mem i) (seqZ (RANDPOOLWORDS - 4) 4);
  '(mem, iv) ← stir_pass (randPoolKey r) (mem, iv);
  key ← new_key mem;
  '(mem, iv) ← stir_pass key (mem, iv);
  key ← new_key mem;
  mem ← cfor (Z.to_nat RANDPOOLWORDS) 0 to_bytes mem;
  mret (RandPool mem sizeof_randPoolKey 0 key).

(** [xorbytes(randPool + off, buf, len)] with the [len] bytes of [buf]. *)
Fixpoint xorbytes mem (off : Z) (buf : list Z) : res (list Z) :=
  match buf with
  | [] => mret mem
  | x :: buf => b ← aget mem off; mem ← aset mem off (Z.lxor b x); xorbytes mem (off + 1) buf
  end.
Definition set_mem r mem : rand_pool := RandPool mem (randPoolGetPos r) (randPoolAddPos r) (randPoolKey r).

(** The loop, and the rest. A stirred pool takes more than one byte, so that the length is enough fuel. *)
Fixpoint add_loop (fuel : nat) r (buf : list Z) : res rand_pool :=
  match fuel with
  | O => Err OutOfFuel
  | S fuel =>
      let t := sizeof_randPool - randPoolAddPos r in
      if t <? Z.of_nat (length buf) then
        mem ← xorbytes (randPool r) (randPoolAddPos r) (take (Z.to_nat t) buf);
        r ← randPoolStir (set_mem r mem); add_loop fuel r (drop (Z.to_nat t) buf)
      else if negb (Z.of_nat (length buf) =? 0) then
        mem ← xorbytes (randPool r) (randPoolAddPos r) buf;
        mret (RandPool mem sizeof_randPool (randPoolAddPos r + Z.of_nat (length buf)) (randPoolKey r))
      else mret r
  end.
Definition randPoolAddBytes r (buf : list Z) : res rand_pool := add_loop (S (S (length buf))) r buf.

Fixpoint get_loop (fuel : nat) r (len : Z) : res (rand_pool * list Z) :=
  match fuel with
  | O => Err OutOfFuel
  | S fuel =>
      let t := sizeof_randPool - randPoolGetPos r in
      if t <? len then
        b ← bytes_at (randPool r) (randPoolGetPos r) t;
        r ← randPoolStir r; '(r, buf) ← get_loop fuel r (len - t); mret (r, b ++ buf)
      else if negb (len =? 0) then
        b ← bytes_at (randPool r) (randPoolGetPos r) len;
        mret (RandPool (randPool r) (randPoolGetPos r + len) (randPoolAddPos r) (randPoolKey r), b)
      else mret (r, [])
  end.
Definition randPoolGetBytes r (len : Z) : res (rand_pool * list Z) := get_loop (S (S (Z.to_nat len))) r len.

Definition randPoolGetByte r : res (rand_pool * Z) :=
  r ← (if randPoolGetPos r =? sizeof_randPool then randPoolStir r else mret r);
  b ← aget (randPool r) (randPoolGetPos r);
  mret (RandPool (randPool r) (randPoolGetPos r + 1) (randPoolAddPos r) (randPoolKey r), b).

(** The initial values of the static variables. *)
Definition init_pool : rand_pool := RandPool (replicate (Z.to_nat sizeof_randPool) 0) sizeof_randPool 0 (replicate 16 0).
End Pool.

(** * The generator *)

Record IdeaRandContext := IdeaRand { outbuf : list Z; rand_key : list Z; rand_bufleft : Z; internalbuf : list Z }.

Section Rand.
Context (dm : data_model) (idea32 : bool).
Implicit Types (c : IdeaRandContext) (key seed : list Z) (r : rand_pool).

Definition ideaRandInit c key seed : res IdeaRandContext :=
  k ← ideaExpandKey key (rand_key c); s ← bytes_at seed 0 8; mret (IdeaRand (outbuf c) k 0 s).

(** The key and the seed that are read out. *)
Definition state_body (k : list Z) (i : Z) key : res (list Z) :=
  w ← aget k i; key ← aset key (2 * i) (u8 (w ≫ 8)); aset key (2 * i + 1) (u8 w).
Definition ideaRandState c key seed : res (list Z * list Z) :=
  s ← memcpy seed 0 (take 8 (internalbuf c)); key ← cfor 8 0 (state_body (rand_key c)) key; mret (key, s).

Definition ideaRandWash c (cfb : IdeaCfbContext) (keyseed : list Z) : res (IdeaRandContext * IdeaCfbContext) :=
  '(key, seed) ← ideaRandState c (take 16 keyseed) (drop 16 keyseed);
  '(cfb, keyseed) ← ideaCfbEncrypt dm idea32 cfb (key ++ seed);
  c ← ideaRandInit c (take 16 keyseed) (drop 16 keyseed); mret (c, cfb).

Definition xor_buf (a b : list Z) : list Z := zip_with Z.lxor a b.
Definition ideaRandByte c r : res (IdeaRandContext * rand_pool * Z) :=
  '(c, r) ← (if rand_bufleft c =? 0 then
      '(r, timestamp) ← randPoolGetBytes dm r 8;
      out ← ideaCipher dm idea32 (xor_buf (internalbuf c) timestamp) (rand_key c);
      int ← ideaCipher dm idea32 (xor_buf out timestamp) (rand_key c);
      mret (IdeaRand out (rand_key c) 8 int, r)
    else mret (c, r));
  b ← aget (outbuf c) (rand_bufleft c - 1);
  mret (IdeaRand (outbuf c) (rand_key c) (rand_bufleft c - 1) (internalbuf c), r, b).
End Rand.

Example pool_run : (r ← randPoolAddBytes ILP32 (init_pool ILP32) [1; 2; 3]; '(r, a) ← randPoolGetBytes ILP32 r 5; '(_, b) ← randPoolGetByte ILP32 r; mret (a ++ [b])) =
  ('(_, b) ← (r ← randPoolAddBytes ILP32 (init_pool ILP32) [1; 2; 3]; randPoolGetBytes ILP32 r 6); mret b).
Proof. vm_compute. reflexivity. Qed.

(** * Safety *)

Section Safety.
Context (dm : data_model).
Implicit Types (r : rand_pool) (mem key : list Z).
Local Abbreviation W := (sizeof_word32 dm).
Local Abbreviation N := (sizeof_randPool dm).

(** The pool has its bytes, and the two positions lie inside or at its end. *)
Definition pool_ok r : Prop :=
  barr (Z.to_nat N) (randPool r) /\ 0 <= randPoolGetPos r <= N /\ 0 <= randPoolAddPos r <= N.

Lemma word_size : (W = 4 \/ W = 8) /\ N = 96 * W /\ Z.of_nat (sizeof_uint32 dm) = W.
Proof. unfold sizeof_randPool, sizeof_word32. destruct dm; vm_compute; auto. Qed.

Lemma memcpy_barr n mem off b : barr n mem -> Forall (inU 8) b -> 0 <= off -> off + Z.of_nat (length b) <= Z.of_nat n -> okp (memcpy mem off b) (barr n).
Proof.
  intros [Hl HF] Hb H0 H1. rewrite memcpy_ok by lia. cbn [okp]. split.
  - rewrite !length_app, length_take, length_drop. lia.
  - apply Forall_app. split; [apply Forall_take, HF|]. apply Forall_app. split; [exact Hb|apply Forall_drop, HF].
Qed.

Lemma pool_word_ok n mem i : barr n mem -> 0 <= i -> (i + 1) * W <= Z.of_nat n -> okp (pool_word dm mem i) (fun _ => True).
Proof.
  intros [Hl _] H0 H1. pose proof word_size as (HW & _). unfold pool_word. rewrite bytes_at_ok by nia. exact I.
Qed.

Lemma set_pool_word_ok n mem i v : barr n mem -> 0 <= i -> (i + 1) * W <= Z.of_nat n -> okp (set_pool_word dm mem i v) (barr n).
Proof.
  intros Hm H0 H1. pose proof word_size as (HW & _ & E). apply memcpy_barr; [exact Hm|apply le_bytes_bytes|nia|rewrite length_le_bytes, E; nia].
Qed.

Lemma okp_aget_barr n mem i : barr n mem -> 0 <= i < Z.of_nat n -> okp (aget mem i) (inU 8).
Proof. intros Hm Hi. destruct (barr_aget n mem i Hm Hi) as (b & E & Hb). rewrite E. exact Hb. Qed.
Lemma okp_aset_barr n mem i v : barr n mem -> 0 <= i < Z.of_nat n -> inU 8 v -> okp (aset mem i v) (barr n).
Proof. intros Hm Hi Hv. destruct (barr_aset n mem i v Hm Hi Hv) as (a & E & Ha). rewrite E. exact Ha. Qed.

Lemma u8_inU x : inU 8 (u8 x).
Proof. apply wrapU_range. lia. Qed.

Local Abbreviation mem_ok := (barr (Z.to_nat N)).

Lemma to_words_ok i mem : mem_ok mem -> 0 <= i < 96 -> okp (to_words dm i mem) mem_ok.
Proof.
  intros Hm Hi. pose proof word_size as (HW & EN & _). unfold to_words.
  do 4 (eapply okp_bind; [apply (okp_aget_barr _ _ _ Hm); lia|]; intros ? _). apply set_pool_word_ok; [exact Hm|lia|lia].
Qed.

Lemma to_bytes_ok i mem : mem_ok mem -> 0 <= i < 96 -> okp (to_bytes dm i mem) mem_ok.
Proof.
  intros Hm Hi. pose proof word_size as (HW & EN & _). unfold to_bytes. eapply okp_bind; [apply (pool_word_ok _ _ _ Hm); lia|]. intros t _.
  do 3 (eapply okp_bind; [apply okp_aset_barr; [eassumption|lia|apply u8_inU]|]; intros ? ?). apply okp_aset_barr; [assumption|lia|apply u8_inU].
Qed.

Lemma xor_word_ok i j st : mem_ok st.1 -> 0 <= i -> i + Z.of_nat j < 96 -> okp (xor_word dm i j st) (fun st => mem_ok st.1).
Proof.
  destruct st as [mem iv]. cbn [fst]. intros Hm Hi Hj. pose proof word_size as (HW & EN & _). unfold xor_word.
  eapply okp_bind; [apply (pool_word_ok _ _ _ Hm); lia|]. intros t _. eapply okp_bind; [apply set_pool_word_ok; [exact Hm|lia|lia]|]. intros mem' Hm'. exact Hm'.
Qed.

Lemma stir_pass_ok key st : mem_ok st.1 -> okp (stir_pass dm key st) (fun st => mem_ok st.1).
Proof.
  intros Hm. unfold stir_pass. change (Z.to_nat (RANDPOOLWORDS / 4)) with 24%nat.
  apply (okp_cfor (fun _ st => mem_ok st.1)); [exact Hm|]. intros k [mem iv] Hk Hm'. cbn [fst] in Hm'. unfold stir_body.
  eapply okp_bind; [apply xor_word_ok; [exact Hm'|lia|lia]|]. intros s1 H1. eapply okp_bind; [apply xor_word_ok; [exact H1|lia|lia]|]. intros s2 H2.
  eapply okp_bind; [apply xor_word_ok; [exact H2|lia|lia]|]. intros s3 H3. apply xor_word_ok; [exact H3|lia|lia].
Qed.

Lemma words_ok mem lo n : mem_ok mem -> 0 <= lo -> 0 <= n -> lo + n <= 96 -> okp (mapM (fun i => pool_word dm mem i) (seqZ lo n)) (fun _ => True).
Proof.
  intros Hm H0 Hn H1. pose proof word_size as (HW & EN & _).
  eapply okp_mono; [apply (okp_mapM _ (fun i => lo <= i < lo + n) (fun _ => True))|auto].
  - apply Forall_forall. intros i Hi. apply list_elem_of_In, elem_of_seqZ in Hi. exact Hi.
  - intros i Hi. apply (pool_word_ok _ _ _ Hm); lia.
Qed.

(** Stirring never leaves the pool, and then 64 bytes, or 128, are used up. *)
Lemma randPoolStir_ok r : pool_ok r -> okp (randPoolStir dm r) (fun r => pool_ok r /\ randPoolGetPos r = sizeof_randPoolKey dm /\ randPoolAddPos r = 0).
Proof.
  intros (Hm & Hg & Ha). pose proof word_size as (HW & EN & _). unfold randPoolStir. change (Z.to_nat RANDPOOLWORDS) with 96%nat. change (RANDPOOLWORDS - 4) with 92.
  eapply okp_bind; [apply (okp_cfor (fun _ => mem_ok)); [exact Hm|intros i mem Hi Hmem; apply to_words_ok; [exact Hmem|lia]]|]. intros mem1 H1.
  eapply okp_bind; [apply words_ok; [exact H1|lia|lia|lia]|]. intros iv _.
  eapply okp_bind; [apply (stir_pass_ok _ (mem1, iv)); exact H1|]. intros [mem2 iv2] H2. cbn [fst] in H2.
  eapply okp_bind; [apply (words_ok mem2 0 16); [exact H2|lia|lia|lia]|]. intros key _.
  eapply okp_bind; [apply (stir_pass_ok key (mem2, iv2)); exact H2|]. intros [mem3 iv3] H3. cbn [fst] in H3.
  eapply okp_bind; [apply (words_ok mem3 0 16); [exact H3|lia|lia|lia]|]. intros key' _.
  eapply okp_bind; [apply (okp_cfor (fun _ => mem_ok)); [exact H3|intros i mem Hi Hmem; apply to_bytes_ok; [exact Hmem|lia]]|]. intros mem4 H4.
  cbn [mret res_ret okp]. unfold pool_ok, sizeof_randPoolKey. cbn [randPool randPoolGetPos randPoolAddPos]. split; [|auto]. split; [exact H4|lia].
Qed.
End Safety.

(** * One byte at a time *)

Section Bytewise.
Context (dm : data_model).
Implicit Types (r : rand_pool) (mem key buf : list Z).
Local Abbreviation W := (sizeof_word32 dm).
Local Abbreviation N := (sizeof_randPool dm).

Fixpoint get_each (n : nat) r : res (rand_pool * list Z) :=
  match n with
  | O => mret (r, [])
  | S n => '(r, b) ← randPoolGetByte dm r; '(r, l) ← get_each n r; mret (r, b :: l)
  end.

(** A byte goes to the next position; a full pool is stirred first. *)
Definition add_byte r (x : Z) : res rand_pool :=
  r ← (if randPoolAddPos r =? N then randPoolStir dm r else mret r);
  b ← aget (randPool r) (randPoolAddPos r); mem ← aset (randPool r) (randPoolAddPos r) (Z.lxor b x);
  mret (RandPool mem N (randPoolAddPos r + 1) (randPoolKey r)).
Fixpoint add_each r buf : res rand_pool :=
  match buf with [] => mret r | x :: buf => r ← add_byte r x; add_each r buf end.

Lemma stir_positions mem g a g' a' key : randPoolStir dm (RandPool mem g a key) = randPoolStir dm (RandPool mem g' a' key).
Proof. reflexivity. Qed.

Lemma get_each_app n k : forall r, get_each (n + k) r = ('(r, a) ← get_each n r; '(r, b) ← get_each k r; mret (r, a ++ b)).
Proof.
  induction n as [|n IH]; intros r; cbn [Nat.add get_each mbind res_bind mret res_ret].
  - destruct (get_each k r) as [[r' b]|e]; reflexivity.
  - destruct (randPoolGetByte dm r) as [[r1 x]|e]; [|reflexivity]. cbn [mbind res_bind]. rewrite IH. destruct (get_each n r1) as [[r2 a]|e]; [|reflexivity].
    cbn [mbind res_bind mret res_ret]. destruct (get_each k r2) as [[r3 b]|e]; reflexivity.
Qed.

Definition with_get r (g : Z) : rand_pool := RandPool (randPool r) g (randPoolAddPos r) (randPoolKey r).

(** Inside the pool the bytes are those that follow. *)
Lemma get_inside n : forall r, pool_ok dm r -> randPoolGetPos r + Z.of_nat n <= N ->
  exists l, get_each n r = Ok (with_get r (randPoolGetPos r + Z.of_nat n), l) /\ bytes_at (randPool r) (randPoolGetPos r) (Z.of_nat n) = Ok l /\ length l = n /\ Forall (inU 8) l.
Proof.
  induction n as [|n IH]; intros r Hr Hn; pose proof Hr as ([Hl HF] & Hg & Ha); pose proof (word_size dm) as (HW & EN & _).
  - exists []. cbn [get_each]. split; [destruct r; unfold with_get; cbn; rewrite Z.add_0_r; reflexivity|]. rewrite bytes_at_ok by lia. auto.
  - cbn [get_each]. unfold randPoolGetByte. rewrite (proj2 (Z.eqb_neq _ _)) by lia. cbn [mbind res_bind mret res_ret].
    destruct (barr_aget _ (randPool r) (randPoolGetPos r) (conj Hl HF) ltac:(lia)) as (b & Eb & Hb). rewrite Eb. cbn [mbind res_bind mret res_ret].
    assert (pool_ok dm (with_get r (randPoolGetPos r + 1))) as Hr1 by (split; [exact (conj Hl HF)|cbn; lia]).
    destruct (IH _ Hr1) as (l & E1 & E2 & E3 & E4); [cbn [with_get randPoolGetPos]; lia|]. unfold with_get in E1, E2. cbn [randPoolGetPos randPool randPoolAddPos randPoolKey] in E1, E2.
    rewrite E1. cbn [mbind res_bind mret res_ret]. exists (b :: l). split; [unfold with_get; do 3 f_equal; lia|]. split; [|split; [cbn [length]; lia|constructor; assumption]].
    rewrite bytes_at_ok in E2 |- * by lia. apply aget_ok in Eb as [_ Eb]. f_equal. injection E2 as E2. rewrite !Nat2Z.id in *.
    rewrite (drop_S _ b _ Eb). cbn [take]. f_equal. rewrite <- E2. f_equal. f_equal. lia.
Qed.

Lemma get_each_stir n r r' : randPoolGetPos r = N -> randPoolStir dm r = Ok r' -> randPoolGetPos r' <> N -> (0 < n)%nat -> get_each n r = get_each n r'.
Proof.
  intros E Es Hne Hn. destruct n as [|n]; [lia|]. cbn [get_each]. unfold randPoolGetByte. rewrite E, Z.eqb_refl, Es. cbn [mbind res_bind].
  rewrite (proj2 (Z.eqb_neq _ _) Hne). reflexivity.
Qed.

Lemma get_loop_ok fuel : forall r len, pool_ok dm r -> 0 <= len -> len + Z.b2z (randPoolGetPos r =? N) < Z.of_nat fuel ->
  get_loop dm fuel r len = get_each (Z.to_nat len) r /\ okp (get_loop dm fuel r len) (fun x => pool_ok dm x.1 /\ Z.of_nat (length x.2) = len /\ Forall (inU 8) x.2).
Proof.
  induction fuel as [|fuel IH]; intros r len Hr Hlen Hf; [destruct (randPoolGetPos r =? N); cbn [Z.b2z] in Hf; lia|].
  pose proof Hr as ([Hl HF] & Hg & Ha). pose proof (word_size dm) as (HW & EN & _). cbn [get_loop]. set (t := N - randPoolGetPos r).
  destruct (Z.ltb_spec t len) as [Ht|Ht].
  - destruct (get_inside (Z.to_nat t) r Hr ltac:(lia)) as (l & E1 & E2 & E3 & E4). rewrite Z2Nat.id in E1, E2 by lia. rewrite E2. cbn [mbind res_bind].
    pose proof (randPoolStir_ok dm r Hr) as Hs. destruct (randPoolStir dm r) as [r'|e] eqn:Es; [|contradiction]. cbn [mbind res_bind okp] in *. destruct Hs as (Hr' & Eg & _).
    assert (randPoolGetPos r' <> N) as Hne by (rewrite Eg; unfold sizeof_randPoolKey; lia).
    destruct (IH r' (len - t) Hr' ltac:(lia)) as [IH1 IH2]; [rewrite (proj2 (Z.eqb_neq _ _) Hne); cbn [Z.b2z]; destruct (Z.eqb_spec (randPoolGetPos r) N); cbn [Z.b2z] in Hf; lia|].
    replace (Z.to_nat len) with (Z.to_nat t + Z.to_nat (len - t))%nat by lia. rewrite get_each_app, E1. cbn [mbind res_bind].
    rewrite (get_each_stir (Z.to_nat (len - t)) (with_get r (randPoolGetPos r + t)) r'); [|cbn [with_get randPoolGetPos]; lia|rewrite <- Es; destruct r; apply stir_positions|exact Hne|lia].
    rewrite IH1. split; [reflexivity|]. rewrite IH1 in IH2. destruct (get_each (Z.to_nat (len - t)) r') as [[r2 l2]|e]; [|contradiction].
    cbn [mbind res_bind mret res_ret okp fst snd] in *. destruct IH2 as (H1 & H2 & H3). split; [exact H1|]. split; [rewrite length_app; lia|apply Forall_app; auto].
  - destruct (get_inside (Z.to_nat len) r Hr ltac:(lia)) as (l & E1 & E2 & E3 & E4). rewrite Z2Nat.id in E1, E2 by lia. rewrite E1.
    destruct (Z.eqb_spec len 0) as [->|Hne]; cbn [negb].
    + destruct l; [|discriminate]. unfold with_get. rewrite Z.add_0_r. cbn [mret res_ret okp fst snd]. split; [destruct r; reflexivity|]. split; [exact Hr|auto].
    + rewrite E2. cbn [mbind res_bind mret res_ret okp fst snd]. split; [reflexivity|]. split; [split; [exact (conj Hl HF)|cbn; lia]|]. split; [lia|exact E4].
Qed.

Lemma get_bytes_fact r len : pool_ok dm r -> 0 <= len ->
  randPoolGetBytes dm r len = get_each (Z.to_nat len) r /\ okp (randPoolGetBytes dm r len) (fun x => pool_ok dm x.1 /\ Z.of_nat (length x.2) = len /\ Forall (inU 8) x.2).
Proof.
  intros Hr Hlen. unfold randPoolGetBytes. apply get_loop_ok; [exact Hr|exact Hlen|]. destruct (randPoolGetPos r =? N); cbn [Z.b2z]; lia.
Qed.

(** randPoolGetBytes delivers what repeated calls of randPoolGetByte deliver, so that two
    requests give the same bytes as one request for both; it ends without leaving the pool,
    which stays well formed, with as many bytes as were asked for. *)
Theorem rand_get_bytewise r n k : pool_ok dm r -> 0 <= n -> 0 <= k ->
  randPoolGetBytes dm r n = get_each (Z.to_nat n) r /\
  randPoolGetBytes dm r (n + k) = ('(r, a) ← randPoolGetBytes dm r n; '(r, b) ← randPoolGetBytes dm r k; mret (r, a ++ b)) /\
  okp (randPoolGetBytes dm r n) (fun x => pool_ok dm x.1 /\ Z.of_nat (length x.2) = n /\ Forall (inU 8) x.2).
Proof.
  intros Hr Hn Hk. destruct (get_bytes_fact r n Hr Hn) as [E1 H1]. destruct (get_bytes_fact r (n + k) Hr ltac:(lia)) as [E2 _].
  split; [exact E1|]. split; [|exact H1]. rewrite E2, E1 in *. replace (Z.to_nat (n + k)) with (Z.to_nat n + Z.to_nat k)%nat by lia. rewrite get_each_app.
  destruct (get_each (Z.to_nat n) r) as [[r1 a]|e]; [|reflexivity]. cbn [mbind res_bind okp fst] in *. destruct (get_bytes_fact r1 k (proj1 H1) Hk) as [-> _]. reflexivity.
Qed.

Lemma xorbytes_ok n buf : forall mem off, barr n mem -> Forall (inU 8) buf -> 0 <= off -> off + Z.of_nat (length buf) <= Z.of_nat n -> okp (xorbytes mem off buf) (barr n).
Proof.
  induction buf as [|x buf IH]; intros mem off Hm Hb H0 H1; [exact Hm|]. cbn [xorbytes length] in *. apply Forall_cons_1 in Hb as [Hx Hb].
  eapply okp_bind; [apply (okp_aget_barr _ _ _ Hm); lia|]. intros b Hbb. eapply okp_bind; [apply (okp_aset_barr _ _ _ _ Hm); [lia|apply inU_lxor; [lia|assumption..]]|].
  intros mem' Hm'. apply IH; [exact Hm'|exact Hb|lia|lia].
Qed.

Lemma add_each_app buf1 buf2 : forall r, add_each r (buf1 ++ buf2) = (r ← add_each r buf1; add_each r buf2).
Proof. induction buf1 as [|x buf1 IH]; intros r; [reflexivity|]. cbn [app add_each]. destruct (add_byte r x) as [r1|e]; [apply IH|reflexivity]. Qed.

Lemma add_byte_eq r x : pool_ok dm r -> inU 8 x -> randPoolAddPos r < N ->
  exists mem, (forall buf, xorbytes (randPool r) (randPoolAddPos r) (x :: buf) = xorbytes mem (randPoolAddPos r + 1) buf) /\
    add_byte r x = Ok (RandPool mem N (randPoolAddPos r + 1) (randPoolKey r)) /\ pool_ok dm (RandPool mem N (randPoolAddPos r + 1) (randPoolKey r)).
Proof.
  intros (Hm & Hg & Ha) Hx Hlt. pose proof (word_size dm) as (HW & EN & _).
  destruct (barr_aget _ (randPool r) (randPoolAddPos r) Hm) as (b & Eb & Hb); [lia|].
  destruct (barr_aset _ (randPool r) (randPoolAddPos r) (Z.lxor b x) Hm) as (mem & Em & Hm'); [lia|apply inU_lxor; [lia|assumption..]|].
  exists mem. unfold add_byte. rewrite (proj2 (Z.eqb_neq (randPoolAddPos r) N)) by lia. cbn [xorbytes mbind res_bind mret res_ret]. rewrite Eb. cbn [mbind res_bind mret res_ret]. rewrite Em. cbn [mbind res_bind mret res_ret].
  split; [reflexivity|]. split; [reflexivity|]. split; [exact Hm'|cbn; lia].
Qed.

(** Where the bytes fit, adding them one by one is one pass over the pool. *)
Lemma add_inside buf : forall r x, pool_ok dm r -> inU 8 x -> Forall (inU 8) buf -> randPoolAddPos r + Z.of_nat (S (length buf)) <= N ->
  add_each r (x :: buf) = (mem ← xorbytes (randPool r) (randPoolAddPos r) (x :: buf); mret (RandPool mem N (randPoolAddPos r + Z.of_nat (S (length buf))) (randPoolKey r))).
Proof.
  induction buf as [|y buf IH]; intros r x Hr Hx Hb Hl; (destruct (add_byte_eq r x Hr Hx) as (mem & Ex & Ea & Hr'); [lia|]); rewrite Ex.
  - cbn [add_each xorbytes mbind res_bind mret res_ret]. rewrite Ea. cbn [mbind res_bind]. reflexivity.
  - apply Forall_cons_1 in Hb as [Hy Hb]. rewrite (eq_refl : add_each r (x :: y :: buf) = (r ← add_byte r x; add_each r (y :: buf))), Ea. cbn [mbind res_bind].
    cbn [length] in Hl. rewrite IH; cbn [randPool randPoolAddPos randPoolKey]; [|exact Hr'|exact Hy|exact Hb|lia].
    destruct (xorbytes _ _ _) as [m2|e]; [|reflexivity]. cbn [mbind res_bind mret res_ret]. do 2 f_equal. cbn [length]. lia.
Qed.

Lemma add_byte_stir r r' x buf : randPoolAddPos r = N -> randPoolStir dm r = Ok r' -> randPoolAddPos r' <> N -> add_each r (x :: buf) = add_each r' (x :: buf).
Proof.
  intros E Es Hne. cbn [add_each]. unfold add_byte. rewrite E, Z.eqb_refl, Es. cbn [mbind res_bind mret res_ret]. rewrite (proj2 (Z.eqb_neq _ _) Hne). reflexivity.
Qed.

(** Where they do not, the front fills the pool, which is stirred before the rest. *)
Lemma add_over r front y rest : pool_ok dm r -> Forall (inU 8) front -> Z.of_nat (length front) = N - randPoolAddPos r ->
  add_each r (front ++ y :: rest) = (mem ← xorbytes (randPool r) (randPoolAddPos r) front; r ← randPoolStir dm (set_mem r mem); add_each r (y :: rest)) /\
  okp (xorbytes (randPool r) (randPoolAddPos r) front) (fun mem => okp (randPoolStir dm (set_mem r mem)) (fun r => pool_ok dm r /\ randPoolAddPos r = 0)).
Proof.
  intros Hr Hb Hl. pose proof Hr as (Hm & Hg & Ha). pose proof (word_size dm) as (HW & EN & _).
  pose proof (xorbytes_ok (Z.to_nat N) front (randPool r) (randPoolAddPos r) Hm Hb ltac:(lia) ltac:(lia)) as Hx.
  rewrite add_each_app. destruct (xorbytes _ _ _) as [m|e] eqn:Ex; [|contradiction]. cbn [okp mbind res_bind] in *.
  assert (pool_ok dm (set_mem r m)) as Hr1 by (split; [exact Hx|cbn; lia]).
  assert (okp (randPoolStir dm (set_mem r m)) (fun r => pool_ok dm r /\ randPoolAddPos r = 0)) as Hs by (eapply okp_mono; [apply (randPoolStir_ok dm _ Hr1)|]; intros r2 (H1 & _ & H2); auto).
  split; [|exact Hs]. destruct (randPoolStir dm (set_mem r m)) as [r2|e] eqn:Es; [|contradiction]. cbn [okp mbind res_bind] in *.
  destruct front as [|x front].
  - cbn [add_each mbind res_bind mret res_ret]. cbn [xorbytes] in Ex. injection Ex as <-. cbn [length] in Hl.
    apply (add_byte_stir r r2); [lia|rewrite <- Es; destruct r; reflexivity|lia].
  - apply Forall_cons_1 in Hb as [Hx1 HF]. cbn [length] in Hl.
    rewrite (add_inside front r x Hr Hx1 HF) by lia. rewrite Ex. cbn [mbind res_bind mret res_ret]. apply (add_byte_stir _ r2); [cbn [randPoolAddPos]; lia|rewrite <- Es; reflexivity|lia].
Qed.

Lemma add_loop_ok fuel : forall r buf, pool_ok dm r -> Forall (inU 8) buf -> Z.of_nat (length buf) + Z.b2z (randPoolAddPos r =? N) < Z.of_nat fuel ->
  add_loop dm fuel r buf = add_each r buf /\ okp (add_loop dm fuel r buf) (pool_ok dm).
Proof.
  induction fuel as [|fuel IH]; intros r buf Hr Hb Hf; [destruct (randPoolAddPos r =? N); cbn [Z.b2z] in Hf; lia|].
  pose proof Hr as (Hm & Hg & Ha). pose proof (word_size dm) as (HW & EN & _). cbn [add_loop]. set (t := N - randPoolAddPos r).
  destruct (Z.ltb_spec t (Z.of_nat (length buf))) as [Ht|Ht].
  - pose proof (length_drop buf (Z.to_nat t)) as El. destruct (drop (Z.to_nat t) buf) as [|y rest] eqn:Ed; [cbn [length] in El; lia|].
    destruct (add_over r (take (Z.to_nat t) buf) y rest Hr) as [Ee Ho]; [apply Forall_take, Hb|rewrite length_take; lia|].
    rewrite <- Ed, take_drop, Ed in Ee. rewrite Ee.
    destruct (xorbytes _ _ _) as [m|e]; [|contradiction]. cbn [okp mbind res_bind] in *. destruct (randPoolStir dm (set_mem r m)) as [r2|e]; [|contradiction]. cbn [okp mbind res_bind] in *.
    destruct Ho as [Hr2 Ea]. apply IH; [exact Hr2|rewrite <- Ed; apply Forall_drop, Hb|]. rewrite (proj2 (Z.eqb_neq (randPoolAddPos r2) N)) by lia. rewrite El. destruct (Z.eqb_spec (randPoolAddPos r) N); cbn [Z.b2z] in *; lia.
  - destruct buf as [|x buf]; [split; [reflexivity|exact Hr]|]. rewrite (proj2 (Z.eqb_neq (Z.of_nat (length (x :: buf))) 0)) by (cbn [length]; lia). cbn [negb].
    pose proof Hb as Hb0. apply Forall_cons_1 in Hb0 as [Hx HF]. cbn [length] in Ht. rewrite (add_inside buf r x Hr Hx HF) by lia.
    split; [reflexivity|]. eapply okp_bind; [apply (xorbytes_ok (Z.to_nat N) (x :: buf) _ _ Hm Hb); cbn [length]; lia|]. intros m Hm2. cbn [mret res_ret okp]. split; [exact Hm2|cbn; lia].
Qed.

(** randPoolAddBytes, which fills the pool and stirs it whenever it is full, adds the bytes
    one at a time with a stir before the byte that no longer fits, so that it does not matter
    how the bytes are split over calls; it never leaves the pool, which stays well formed. *)
Theorem rand_add_bytewise r a b : pool_ok dm r -> Forall (inU 8) (a ++ b) ->
  randPoolAddBytes dm r a = add_each r a /\
  randPoolAddBytes dm r (a ++ b) = (r ← randPoolAddBytes dm r a; randPoolAddBytes dm r b) /\
  okp (randPoolAddBytes dm r a) (pool_ok dm).
Proof.
  assert (forall r buf, pool_ok dm r -> Forall (inU 8) buf -> randPoolAddBytes dm r buf = add_each r buf /\ okp (randPoolAddBytes dm r buf) (pool_ok dm)) as Hall.
  { intros r' buf Hr' HF. apply add_loop_ok; [exact Hr'|exact HF|]. destruct (randPoolAddPos r' =? N); cbn [Z.b2z]; lia. }
  intros Hr HF. destruct (Hall r _ Hr HF) as [E2 _]. apply Forall_app in HF as [HFa HFb]. destruct (Hall r a Hr HFa) as [E1 H1].
  split; [exact E1|]. split; [|exact H1]. rewrite E2, E1 in *. rewrite add_each_app. destruct (add_each r a) as [r1|e]; [|reflexivity].
  cbn [mbind res_bind okp] in *. destruct (Hall r1 b H1 HFb) as [-> _]. reflexivity.
Qed.
End Bytewise.

Lemma init_pool_ok dm : pool_ok dm (init_pool dm).
Proof.
  unfold pool_ok, init_pool, barr. cbn [randPool randPoolGetPos randPoolAddPos]. pose proof (word_size dm) as (HW & EN & _).
  split; [split; [apply length_replicate|apply Forall_replicate; unfold inU; lia]|lia].
Qed.

(** * The generator *)

Section Generator.
Context (dm : data_model) (idea32 : bool).
Implicit Types (c : IdeaRandContext) (r : rand_pool) (key seed : list Z).

(** The words of the key can be read out again. *)
Lemma state_body_ok userkey (j : nat) key0 : barr 16 userkey -> length key0 = 16%nat -> (j < 8)%nat ->
  state_body (key_word (be_word userkey) <$> seq 0 52) (Z.of_nat j) (take (2 * j) userkey ++ drop (2 * j) key0) = Ok (take (2 * S j) userkey ++ drop (2 * S j) key0).
Proof.
  intros Hk Hl Hj. destruct (key_first userkey j Hk Hj) as (a & b & Ea & Eb & Ew). unfold state_body.
  assert (aget (key_word (be_word userkey) <$> seq 0 52) (Z.of_nat j) = Ok (key_word (be_word userkey) j)) as ->.
  { apply aget_ok. split; [lia|]. rewrite Nat2Z.id, list_lookup_fmap, lookup_seq_lt by lia. reflexivity. }
  rewrite <- Ew. destruct Hk as [Hlk HF]. destruct (barr_aget 16 userkey (2 * Z.of_nat j) (conj Hlk HF) ltac:(lia)) as (a' & Ea' & Ha). destruct (barr_aget 16 userkey (2 * Z.of_nat j + 1) (conj Hlk HF) ltac:(lia)) as (b' & Eb' & Hb).
  rewrite Ea in Ea'. rewrite Eb in Eb'. injection Ea' as <-. injection Eb' as <-. unfold inU in Ha, Hb. change (2 ^ 8) with 256 in *.
  assert (u16 (a ≪ 8 + b) = 256 * a + b) as ->. { rewrite Z.shiftl_mul_pow2 by lia. change (2 ^ 8) with 256. unfold wrapU. change (2 ^ 16) with 65536. rewrite Z.mod_small by lia. lia. }
  cbn [mbind res_bind]. assert (u8 ((256 * a + b) ≫ 8) = a) as ->.
  { rewrite Z.shiftr_div_pow2 by lia. unfold wrapU. change (2 ^ 8) with 256. rewrite (Z.mul_comm 256), Z.div_add_l, (Z.div_small b), Z.add_0_r, Z.mod_small by lia. reflexivity. }
  assert (u8 (256 * a + b) = b) as ->. { unfold wrapU. change (2 ^ 8) with 256. rewrite (Z.mul_comm 256), Z.add_comm, Z.mod_add, Z.mod_small by lia. reflexivity. }
  clear Ew Ha Hb HF. do 16 (destruct userkey as [|? userkey]; [discriminate|]). destruct userkey; [|discriminate].
  do 16 (destruct key0 as [|? key0]; [discriminate|]). destruct key0; [|discriminate]. clear Hlk Hl.
  do 8 (destruct j as [|j]; [cbn in Ea, Eb; injection Ea as ->; injection Eb as ->; reflexivity|]). lia.
Qed.

Lemma state_of_init c c' key seed key0 seed0 : barr 16 key -> length seed = 8%nat -> length (rand_key c) = IDEAKEYLEN -> length key0 = 16%nat -> length seed0 = 8%nat ->
  ideaRandInit c key seed = Ok (IdeaRand (outbuf c) (key_word (be_word key) <$> seq 0 52) 0 seed) /\
  (ideaRandInit c key seed = Ok c' -> ideaRandState c' key0 seed0 = Ok (key, seed)).
Proof.
  intros Hk Hs Hc Hk0 Hs0. assert (ideaRandInit c key seed = Ok (IdeaRand (outbuf c) (key_word (be_word key) <$> seq 0 52) 0 seed)) as E.
  { unfold ideaRandInit. rewrite expand_words by assumption. cbn [mbind res_bind]. rewrite bytes_at_ok by lia. cbn [mbind res_bind mret res_ret]. rewrite drop_0, take_ge by lia. reflexivity. }
  split; [exact E|]. rewrite E. intros E'. injection E' as <-. unfold ideaRandState. cbn [internalbuf rand_key].
  rewrite take_ge by lia. rewrite memcpy_all by lia. cbn [mbind res_bind].
  rewrite <- (eq_refl : take (2 * 0) key ++ drop (2 * 0) key0 = key0) at 1.
  rewrite (cfor_states (fun j => take (2 * j) key ++ drop (2 * j) key0) _ 8 0); [|intros j Hj; rewrite Z.add_0_l; apply state_body_ok; assumption].
  cbn [mbind res_bind mret res_ret]. destruct Hk as [Hk _]. rewrite take_ge, drop_ge, app_nil_r by (cbn; lia). reflexivity.
Qed.

(** A generator keeps its key and its seed: what ideaRandState reads after ideaRandInit is
    what was put in, and after ideaRandWash it is the encryption of the old key and seed under
    the given feedback mode. *)
Theorem rand_wash c cfb key seed key0 seed0 keyseed : barr 16 key -> barr 8 seed -> length (rand_key c) = IDEAKEYLEN ->
  length key0 = 16%nat -> length seed0 = 8%nat -> length keyseed = 24%nat -> ctx_ok cfb ->
  exists c1 c2 cfb' e, ideaRandInit c key seed = Ok c1 /\ ideaRandState c1 key0 seed0 = Ok (key, seed) /\
    ideaCfbEncrypt dm idea32 cfb (key ++ seed) = Ok (cfb', e) /\ ideaRandWash dm idea32 c1 cfb keyseed = Ok (c2, cfb') /\ ctx_ok cfb' /\
    ideaRandState c2 key0 seed0 = Ok (take 16 e, drop 16 e).
Proof.
  intros Hk Hs Hc Hk0 Hs0 Hks Hcfb. destruct (state_of_init c (IdeaRand (outbuf c) (key_word (be_word key) <$> seq 0 52) 0 seed) key seed key0 seed0 Hk (proj1 Hs) Hc Hk0 Hs0) as [E1 E2].
  set (c1 := IdeaRand _ _ _ _) in *. exists c1.
  pose proof (crypt_ok dm idea32 enc_byte cfb (key ++ seed) enc_byte_ok Hcfb ltac:(apply Forall_app; split; [apply Hk|apply Hs])) as Ho.
  apply okp_ok in Ho as ([cfb' e] & Ee & Hcfb' & Fe & Le). cbn [fst snd] in *. rewrite length_app, (proj1 Hk), (proj1 Hs) in Le.
  destruct (state_of_init c c1 key seed (take 16 keyseed) (drop 16 keyseed) Hk (proj1 Hs) Hc ltac:(rewrite length_take; lia) ltac:(rewrite length_drop; lia)) as [_ E3].
  assert (barr 16 (take 16 e)) as Hke by (split; [rewrite length_take; lia|apply Forall_take, Fe]).
  assert (length (rand_key c1) = IDEAKEYLEN) as Hl1 by reflexivity.
  destruct (state_of_init c1 (IdeaRand (outbuf c1) (key_word (be_word (take 16 e)) <$> seq 0 52) 0 (drop 16 e)) (take 16 e) (drop 16 e) key0 seed0 Hke ltac:(rewrite length_drop; lia) Hl1 Hk0 Hs0) as [E4 E5].
  eexists _, cfb', e. split; [exact E1|]. split; [exact (E2 E1)|]. split; [exact Ee|]. split; [|split; [exact Hcfb'|exact (E5 E4)]].
  unfold ideaRandWash. rewrite (E3 E1). cbn [mbind res_bind]. unfold ideaCfbEncrypt. rewrite Ee. cbn [mbind res_bind]. rewrite E4. reflexivity.
Qed.

(** Calls of [ideaRandByte]. *)
Fixpoint rand_bytes (n : nat) c r : res (IdeaRandContext * rand_pool * list Z) :=
  match n with
  | O => mret (c, r, [])
  | S n => '(c, r, b) ← ideaRandByte dm idea32 c r; '(c, r, l) ← rand_bytes n c r; mret (c, r, b :: l)
  end.
Definition rand_ok c : Prop := barr 8 (outbuf c) /\ key_ok (rand_key c) /\ barr 8 (internalbuf c) /\ 0 <= rand_bufleft c <= 8.

(** What is left of a block comes out from its end. *)
Lemma rand_bytes_left n : forall out k int r, length out = 8%nat -> (n <= 8)%nat ->
  rand_bytes n (IdeaRand out k (Z.of_nat n) int) r = Ok (IdeaRand out k 0 int, r, rev (take n out)).
Proof.
  induction n as [|n IH]; intros out k int r Hl Hn; [reflexivity|]. cbn [rand_bytes]. unfold ideaRandByte. cbn [rand_bufleft outbuf rand_key internalbuf].
  rewrite (proj2 (Z.eqb_neq _ _)) by lia. cbn [mbind res_bind mret res_ret rand_bufleft outbuf rand_key internalbuf]. replace (Z.of_nat (S n) - 1) with (Z.of_nat n) by lia.
  destruct (lookup_lt_is_Some_2 out n ltac:(lia)) as [b Eb]. rewrite (proj2 (aget_ok out (Z.of_nat n) b)) by (rewrite Nat2Z.id; auto with lia). cbn [mbind res_bind mret res_ret].
  rewrite IH by lia. cbn [mbind res_bind mret res_ret]. rewrite (take_S_r _ _ _ Eb), rev_app_distr. reflexivity.
Qed.

Lemma xor_buf_barr n a b : barr n a -> barr n b -> barr n (xor_buf a b).
Proof.
  intros [Ha Fa] [Hb Fb]. split; [unfold xor_buf; rewrite length_zip_with; lia|]. apply Forall_forall. intros x Hx. apply list_elem_of_In, elem_of_lookup_zip_with in Hx as (i & x1 & x2 & -> & H1 & H2).
  apply inU_lxor; [lia|exact (Forall_lookup_1 _ _ _ _ Fa H1)|exact (Forall_lookup_1 _ _ _ _ Fb H2)].
Qed.

(** C30: From an empty buffer eight calls of ideaRandByte take one time stamp of eight bytes
    from the pool and implement a step of the generator of ANSI X9.17: the block that is
    delivered, from its end, is E(seed xor stamp), and the new seed is E(block xor stamp). No
    call fails and the state stays well formed. *)
Theorem rand_x917 c r : rand_ok c -> pool_ok dm r -> rand_bufleft c = 0 ->
  exists r' t out int, randPoolGetBytes dm r 8 = Ok (r', t) /\ pool_ok dm r' /\ barr 8 t /\
    ideaCipher dm idea32 (xor_buf (internalbuf c) t) (rand_key c) = Ok out /\
    ideaCipher dm idea32 (xor_buf out t) (rand_key c) = Ok int /\
    rand_bytes 8 c r = Ok (IdeaRand out (rand_key c) 0 int, r', rev out) /\ rand_ok (IdeaRand out (rand_key c) 0 int).
Proof.
  intros (Ho & Hk & Hi & _) Hr Hb. destruct (get_bytes_fact dm r 8 Hr ltac:(lia)) as [_ Hg]. apply okp_ok in Hg as ([r' t] & Eg & Hr' & Lt & Ft). cbn [fst snd] in *.
  assert (barr 8 t) as Ht by (split; [lia|exact Ft]).
  pose proof (ideaCipher_total dm idea32 _ _ (xor_buf_barr 8 _ _ Hi Ht) Hk) as H1. apply okp_ok in H1 as (out & Eo & Hout).
  pose proof (ideaCipher_total dm idea32 _ _ (xor_buf_barr 8 _ _ Hout Ht) Hk) as H2. apply okp_ok in H2 as (int & Ei & Hint).
  exists r', t, out, int. split; [exact Eg|]. split; [exact Hr'|]. split; [exact Ht|]. split; [exact Eo|]. split; [exact Ei|].
  split; [|split; [exact Hout|]; split; [exact Hk|]; split; [exact Hint|cbn; lia]].
  pose proof (rand_bytes_left 8 out (rand_key c) int r' (proj1 Hout) (le_n _)) as El. rewrite take_ge in El by (rewrite (proj1 Hout); lia). rewrite <- El.
  assert (ideaRandByte dm idea32 c r = ideaRandByte dm idea32 (IdeaRand out (rand_key c) (Z.of_nat 8) int) r') as E8.
  { unfold ideaRandByte. rewrite Hb. cbn [rand_bufleft outbuf rand_key internalbuf]. change (Z.of_nat 8 =? 0) with false. change (0 =? 0) with true. cbn iota.
    rewrite Eg. cbn [mbind res_bind]. rewrite Eo. cbn [mbind res_bind]. rewrite Ei. reflexivity. }
  change (rand_bytes 8 c r) with ('(c, r, b) ← ideaRandByte dm idea32 c r; '(c, r, l) ← rand_bytes 7 c r; mret (c, r, b :: l)). rewrite E8. reflexivity.
Qed.
End Generator.

(** * Witnesses *)

Lemma rand_get_bytewise_witness : pool_ok ILP32 (init_pool ILP32) /\ 0 <= 3 /\ 0 <= 500 /\
  randPoolGetBytes ILP32 (init_pool ILP32) 3 = get_each ILP32 3 (init_pool ILP32).
Proof.
  split; [exact (init_pool_ok ILP32)|]. split; [lia|]. split; [lia|]. exact (proj1 (rand_get_bytewise ILP32 (init_pool ILP32) 3 500 (init_pool_ok ILP32) ltac:(lia) ltac:(lia))).
Defined.

Lemma rand_add_bytewise_witness : let a := [1; 2; 3] in let b := Z.of_nat <$> seq 0 200 in pool_ok LP64 (init_pool LP64) /\ Forall (inU 8) (a ++ b) /\
  randPoolAddBytes LP64 (init_pool LP64) (a ++ b) = (r ← randPoolAddBytes LP64 (init_pool LP64) a; randPoolAddBytes LP64 r b).
Proof.
  intros a b. assert (Forall (inU 8) (a ++ b)) as H by by_eval. split; [exact (init_pool_ok LP64)|]. split; [exact H|].
  exact (proj1 (proj2 (rand_add_bytewise LP64 (init_pool LP64) a b (init_pool_ok LP64) H))).
Defined.

Definition sample_rand : IdeaRandContext := IdeaRand (replicate 8 0) (Z.of_nat <$> seq 1 52) 0 [8; 7; 6; 5; 4; 3; 2; 1].
Lemma sample_rand_ok : rand_ok sample_rand.
Proof. unfold rand_ok. split; [by_eval|]. split; [split; [reflexivity|by_eval]|]. split; [by_eval|cbn; lia]. Qed.

Lemma rand_x917_witness : rand_ok sample_rand /\ pool_ok ILP32 (init_pool ILP32) /\ rand_bufleft sample_rand = 0 /\
  exists r t out int, randPoolGetBytes ILP32 (init_pool ILP32) 8 = Ok (r, t) /\ rand_bytes ILP32 true 8 sample_rand (init_pool ILP32) = Ok (IdeaRand out (rand_key sample_rand) 0 int, r, rev out).
Proof.
  split; [exact sample_rand_ok|]. split; [exact (init_pool_ok ILP32)|]. split; [reflexivity|].
  destruct (rand_x917 ILP32 true sample_rand (init_pool ILP32) sample_rand_ok (init_pool_ok ILP32) eq_refl) as (r & t & out & int & H1 & _ & _ & _ & _ & H2 & _).
  exists r, t, out, int. split; [exact H1|exact H2].
Defined.

Lemma rand_wash_witness : let key := Z.of_nat <$> seq 1 16 in let seed := Z.of_nat <$> seq 1 8 in barr 16 key /\ barr 8 seed /\ ctx_ok sample_ctx /\
  exists c1 c2 cfb' e, ideaRandInit sample_rand key seed = Ok c1 /\ ideaRandState c1 (replicate 16 0) (replicate 8 0) = Ok (key, seed) /\
    ideaCfbEncrypt LP64 false sample_ctx (key ++ seed) = Ok (cfb', e) /\ ideaRandWash LP64 false c1 sample_ctx (replicate 24 0) = Ok (c2, cfb') /\ ctx_ok cfb' /\
    ideaRandState c2 (replicate 16 0) (replicate 8 0) = Ok (take 16 e, drop 16 e).
Proof.
  intros key seed. assert (barr 16 key) as H1 by by_eval. assert (barr 8 seed) as H2 by by_eval. split; [exact H1|]. split; [exact H2|]. split; [exact sample_ctx_ok|].
  exact (rand_wash LP64 false sample_rand sample_ctx key seed (replicate 16 0) (replicate 8 0) (replicate 24 0) H1 H2 eq_refl eq_refl eq_refl eq_refl sample_ctx_ok).
Defined.
