(* ===== verification/Mpi.v ===== *)
(** The multiprecision library of pgp (src/mibench/security/pgp/src/mpilib.c, mpilib.h): the registers
    and the primitives on them, in the portable configuration, which has 16-bit units in low-first order.

    A register is the list of the units from its pointer on, least significant first; an access behind its end
    is the error [OutOfBounds]. The variable [global_precision] is the argument [prec]. The registers
    that a call changes are distinct from the others, as they are in all calls of the library. *)
From stdpp Require Import base list numbers option tactics.
From Stdlib Require Import ZArith Lia.
From S2P Require Import Prelude Bytes.

(** * The code *)

Definition UNITSIZE : Z := 16.
Definition uppermostbit : Z := 0x8000.
Definition MAX_UNIT_PRECISION : nat := 130.
Definition units2bits (n : Z) : Z := n ≪ 4.
Definition bits2units (n : Z) : Z := (n + 15) ≫ 4.
Definition bit_index (n : Z) : Z := bits2units (n + 1) - 1.
Definition bitmsk (n : Z) : Z := u16 (1 ≪ Z.land n 15).

(** [*r], and the pointer after it. *)
Definition unit_next (r : list Z) : res (Z * list Z) := match r with a :: r => mret (a, r) | [] => Err OutOfBounds end.

Fixpoint mp_addc (prec : nat) (r1 r2 : list Z) (carry : bool) : res (list Z * bool) :=
  match prec with
  | O => mret (r1, carry)
  | S prec =>
      '(a, r1) ← unit_next r1; '(b, r2) ← unit_next r2;
      let '(x, carry) := if carry then (u16 (a + b + 1), u16 (Z.lnot a) <=? b) else (u16 (a + b), u16 (a + b) <? a) in
      '(r1, carry) ← mp_addc prec r1 r2 carry; mret (x :: r1, carry)
  end.
Definition mp_add (prec : nat) (r1 r2 : list Z) : res (list Z * bool) := mp_addc prec r1 r2 false.

Fixpoint mp_subb (prec : nat) (r1 r2 : list Z) (borrow : bool) : res (list Z * bool) :=
  match prec with
  | O => mret (r1, borrow)
  | S prec =>
      '(a, r1) ← unit_next r1; '(b, r2) ← unit_next r2;
      let '(x, borrow) := if borrow then (u16 (a - b - 1), a <=? b) else (u16 (a - b), a <? b) in
      '(r1, borrow) ← mp_subb prec r1 r2 borrow; mret (x :: r1, borrow)
  end.
Definition mp_sub (prec : nat) (r1 r2 : list Z) : res (list Z * bool) := mp_subb prec r1 r2 false.

Fixpoint mp_rotate_left (prec : nat) (r1 : list Z) (carry : bool) : res (list Z * bool) :=
  match prec with
  | O => mret (r1, carry)
  | S prec =>
      '(a, r1) ← unit_next r1;
      let nextcarry := s16 a <? 0 in
      '(r1, out) ← mp_rotate_left prec r1 nextcarry; mret (u16 (Z.lor (a ≪ 1) (Z.b2z carry)) :: r1, out)
  end.
Definition mp_shift_left (prec : nat) (r1 : list Z) : res (list Z * bool) := mp_rotate_left prec r1 false.

(** From the most significant unit down. *)
Fixpoint shift_unit_loop (prec : nat) (r1 : list Z) (carry : Z) : res (list Z) :=
  match prec with
  | O => mret r1
  | S prec => nextcarry ← aget r1 (Z.of_nat prec); r1 ← aset r1 (Z.of_nat prec) carry; shift_unit_loop prec r1 nextcarry
  end.
Fixpoint shift_right_loop (bits : Z) (prec : nat) (r1 : list Z) (carry : Z) : res (list Z) :=
  match prec with
  | O => mret r1
  | S prec =>
      let bitmask := u16 (u16 (1 ≪ bits) - 1) in let unbits := UNITSIZE - bits in
      a ← aget r1 (Z.of_nat prec);
      r1 ← aset r1 (Z.of_nat prec) (u16 (Z.lor (a ≫ bits) (carry ≪ unbits)));
      shift_right_loop bits prec r1 (Z.land a bitmask)
  end.
Definition mp_shift_right_bits (prec : nat) (r1 : list Z) (bits : Z) : res (list Z) :=
  if bits =? 0 then mret r1
  else if bits =? UNITSIZE then shift_unit_loop prec r1 0 else shift_right_loop bits prec r1 0.

Fixpoint mp_compare (prec : nat) (r1 r2 : list Z) : res Z :=
  match prec with
  | O => Err OutOfBounds
  | S prec =>
      a ← aget r1 (Z.of_nat prec); b ← aget r2 (Z.of_nat prec);
      if a <? b then mret (-1) else if b <? a then mret 1 else if (prec =? 0)%nat then mret 0 else mp_compare prec r1 r2
  end.

Fixpoint mp_inc (prec : nat) (r : list Z) : res (list Z * bool) :=
  match prec with
  | O => Err OutOfBounds
  | S prec =>
      '(a, r) ← unit_next r; let a := u16 (a + 1) in
      if negb (a =? 0) then mret (a :: r, false)
      else if (prec =? 0)%nat then mret (a :: r, true)
      else '(r, c) ← mp_inc prec r; mret (a :: r, c)
  end.
Fixpoint mp_dec (prec : nat) (r : list Z) : res (list Z * bool) :=
  match prec with
  | O => Err OutOfBounds
  | S prec =>
      '(a, r) ← unit_next r; let a := u16 (a - 1) in
      if negb (s16 a =? -1) then mret (a :: r, false)
      else if (prec =? 0)%nat then mret (a :: r, true)
      else '(r, c) ← mp_dec prec r; mret (a :: r, c)
  end.

Fixpoint complement_loop (prec : nat) (r : list Z) : res (list Z) :=
  match prec with
  | O => mret r
  | S prec => '(a, r) ← unit_next r; r ← complement_loop prec r; mret (u16 (Z.lnot a) :: r)
  end.
Definition mp_neg (prec : nat) (r : list Z) : res (list Z) := '(r, _) ← mp_dec prec r; complement_loop prec r.

(** [memcpy] and [memset] of whole units. *)
Definition mp_move (prec : nat) (dst src : list Z) : res (list Z) :=
  if ((prec <=? length dst) && (prec <=? length src))%nat then mret (take prec src ++ drop prec dst) else Err OutOfBounds.
Definition unitfill0 (r : list Z) (unitcount : nat) : res (list Z) :=
  if (unitcount <=? length r)%nat then mret (replicate unitcount 0 ++ drop unitcount r) else Err OutOfBounds.
Definition mp_init (prec : nat) (r : list Z) (value : Z) : res (list Z) := r ← unitfill0 r prec; aset r 0 value.

Fixpoint significance (prec : nat) (r : list Z) : res nat :=
  match prec with
  | O => Err OutOfBounds
  | S p => a ← aget r (Z.of_nat p); if negb (a =? 0) then mret prec else if (p =? 0)%nat then mret O else significance p r
  end.

Definition mp_setbit (r : list Z) (n : Z) : res (list Z) := a ← aget r (bit_index n); aset r (bit_index n) (Z.lor a (bitmsk n)).
Definition mp_tstminus (prec : nat) (r : list Z) : res bool := a ← aget r (Z.of_nat prec - 1); mret (s16 a <? 0).
Definition testeq (prec : nat) (r : list Z) (i : Z) : res bool :=
  a ← aget r 0; s ← significance prec r; mret ((a =? i) && (s <=? 1)%nat).

Example primitives : ('(a, c) ← mp_add 2 [0xffff; 1] [3; 0xfffe]; '(b, d) ← mp_sub 2 a [5; 0]; s ← mp_shift_right_bits 2 b 3; n ← mp_neg 2 s; mret (a, c, b, d, s, n)) =
  Ok ([2; 0], true, [0xfffd; 0xffff], true, [0xffff; 0x1fff], [1; 0xe000]).
Proof. reflexivity. Qed.

(** * The values of registers *)

Notation BASE := 65536 (only parsing).
Fixpoint mval (r : list Z) : Z := match r with [] => 0 | a :: r => a + BASE * mval r end.
(** The value at a precision. *)
Definition valp (prec : nat) (r : list Z) : Z := mval (take prec r).
Fixpoint units (n : nat) (x : Z) : list Z := match n with O => [] | S n => x mod BASE :: units n (x / BASE) end.
(** The register with a new value. *)
Definition put (prec : nat) (r : list Z) (x : Z) : list Z := units prec x ++ drop prec r.
Definition radix (prec : nat) : Z := BASE ^ Z.of_nat prec.
Definition reg (prec : nat) (r : list Z) : Prop := (prec <= length r)%nat /\ Forall (inU 16) r.
#[global] Instance reg_dec prec r : Decision (reg prec r).
Proof. unfold reg. apply _. Defined.

Section Values.
Implicit Types (r s : list Z) (p n : nat) (x y : Z).

Lemma radix_0 : radix 0 = 1.
Proof. reflexivity. Qed.
Lemma radix_S p : radix (S p) = BASE * radix p.
Proof. unfold radix. rewrite Nat2Z.inj_succ, Z.pow_succ_r by lia. reflexivity. Qed.
Lemma radix_pos p : 0 < radix p.
Proof. unfold radix. lia. Qed.
Lemma radix_pow p : radix p = 2 ^ (16 * Z.of_nat p).
Proof. unfold radix. change BASE with (2 ^ 16). rewrite <- Z.pow_mul_r by lia. reflexivity. Qed.
Lemma radix_add p n : radix (p + n) = radix p * radix n.
Proof. unfold radix. rewrite Nat2Z.inj_add, Z.pow_add_r by lia. reflexivity. Qed.

Lemma mval_range r : Forall (inU 16) r -> 0 <= mval r < radix (length r).
Proof.
  induction 1 as [|a r Ha _ IH]; cbn [mval length]; [rewrite radix_0; lia|].
  rewrite radix_S. cint_unfold. lia.
Qed.
Lemma mval_app r s : mval (r ++ s) = mval r + radix (length r) * mval s.
Proof. induction r as [|a r IH]; cbn [app mval length]; [rewrite radix_0; lia|]. rewrite IH, radix_S. lia. Qed.
Lemma mval_replicate n : mval (replicate n 0) = 0.
Proof. induction n as [|n IH]; cbn [replicate mval]; lia. Qed.

Lemma reg_take p r : reg p r -> Forall (inU 16) (take p r) /\ length (take p r) = p.
Proof. intros [Hl HF]. split; [apply Forall_take, HF|rewrite length_take; lia]. Qed.
Lemma valp_range p r : reg p r -> 0 <= valp p r < radix p.
Proof. intros Hr. apply reg_take in Hr as [HF Hl]. unfold valp. rewrite <- Hl at 3. apply mval_range, HF. Qed.
Lemma reg_cons p r : reg (S p) r -> exists a r', r = a :: r' /\ inU 16 a /\ reg p r'.
Proof. intros [Hl HF]. destruct r as [|a r]; cbn [length] in Hl; [lia|]. apply Forall_cons_1 in HF as [Ha HF]. exists a, r. repeat split; [apply Ha..|lia|exact HF]. Qed.
Lemma valp_cons p a r : valp (S p) (a :: r) = a + BASE * valp p r.
Proof. reflexivity. Qed.
Lemma reg_le n p r : reg p r -> (n <= p)%nat -> reg n r.
Proof. intros [Hl HF] Hn. split; [lia|exact HF]. Qed.

Lemma length_units n : forall x, length (units n x) = n.
Proof. induction n as [|n IH]; intros x; cbn [units length]; [reflexivity|]. rewrite IH. reflexivity. Qed.
Lemma units_inU n : forall x, Forall (inU 16) (units n x).
Proof. induction n as [|n IH]; intros x; cbn [units]; constructor; [cint_unfold; dlia|apply IH]. Qed.
Lemma mval_units n : forall x, mval (units n x) = x mod radix n.
Proof.
  induction n as [|n IH]; intros x; cbn [units mval]; [rewrite radix_0, Z.mod_1_r; reflexivity|].
  rewrite IH, radix_S, Z.rem_mul_r by (pose proof (radix_pos n); lia). reflexivity.
Qed.
Lemma units_mval r : Forall (inU 16) r -> units (length r) (mval r) = r.
Proof.
  induction 1 as [|a r Ha HF IH]; cbn [length mval units]; [reflexivity|]. cint_unfold.
  replace ((a + BASE * mval r) mod BASE) with a by (rewrite (Z.mul_comm BASE), Z.mod_add, Z.mod_small; lia).
  replace ((a + BASE * mval r) / BASE) with (mval r) by (rewrite (Z.mul_comm BASE), Z.div_add, Z.div_small; lia). rewrite IH. reflexivity.
Qed.
Lemma units_mod n x : units n (x mod radix n) = units n x.
Proof. rewrite <- mval_units. rewrite <- (length_units n x) at 1. apply units_mval, units_inU. Qed.

Lemma put_reg p r x : reg p r -> reg p (put p r x).
Proof.
  intros [Hl HF]. unfold put. split; [rewrite length_app, length_units; lia|]. apply Forall_app. split; [apply units_inU|apply Forall_drop, HF].
Qed.
Lemma length_put p r x : (p <= length r)%nat -> length (put p r x) = length r.
Proof. intros Hl. unfold put. rewrite length_app, length_units, length_drop. lia. Qed.
Lemma take_put p r x : take p (put p r x) = units p x.
Proof. unfold put. rewrite take_app_le, take_ge by (rewrite length_units; lia). reflexivity. Qed.
Lemma drop_put p r x : drop p (put p r x) = drop p r.
Proof. unfold put. apply drop_app_length'. rewrite length_units. reflexivity. Qed.
Lemma valp_put p r x : valp p (put p r x) = x mod radix p.
Proof. unfold valp. rewrite take_put. apply mval_units. Qed.
Lemma put_put p r x y : put p (put p r x) y = put p r y.
Proof. unfold put at 1. rewrite drop_put. reflexivity. Qed.
Lemma put_mod p r x : put p r (x mod radix p) = put p r x.
Proof. unfold put. rewrite units_mod. reflexivity. Qed.
Lemma put_ext p r x y : x mod radix p = y mod radix p -> put p r x = put p r y.
Proof. intros E. rewrite <- (put_mod _ _ x), E. apply put_mod. Qed.
Lemma put_valp p r : reg p r -> put p r (valp p r) = r.
Proof. intros Hr. apply reg_take in Hr as [HF Hl]. unfold put, valp. rewrite <- Hl at 1. rewrite units_mval by exact HF. apply take_drop. Qed.
Lemma put_cons p a r x : put (S p) (a :: r) x = x mod BASE :: put p r (x / BASE).
Proof. reflexivity. Qed.
Lemma put_eq p r r' : reg p r' -> drop p r' = drop p r -> r' = put p r (valp p r').
Proof. intros Hr E. rewrite <- (put_valp p r' Hr) at 1. unfold put. rewrite E. reflexivity. Qed.

Lemma put_unique p r r' x : reg p r' -> drop p r' = drop p r -> valp p r' = x mod radix p -> r' = put p r x.
Proof. intros Hr E Ev. rewrite (put_eq p r r' Hr E), Ev. apply put_mod. Qed.

(** The most significant unit. *)
Lemma take_last p r a : r !! p = Some a -> valp (S p) r = valp p r + radix p * a.
Proof.
  intros E. unfold valp. rewrite (take_S_r _ _ _ E), mval_app. cbn [mval]. rewrite length_take_le by (apply lookup_lt_Some in E; lia). lia.
Qed.
Lemma reg_last p r : reg (S p) r -> exists a, aget r (Z.of_nat p) = Ok a /\ inU 16 a /\ valp (S p) r = valp p r + radix p * a /\ r !! p = Some a.
Proof.
  intros [Hl HF]. destruct (lookup_lt_is_Some_2 r p ltac:(lia)) as [a E]. exists a. split; [apply aget_ok; rewrite Nat2Z.id; auto with lia|].
  split; [exact (Forall_lookup_1 _ _ _ _ HF E)|]. split; [apply take_last, E|exact E].
Qed.
Lemma put_snoc p r y x : reg (S p) r -> 0 <= y < radix p -> inU 16 x -> put p (<[p := x]> r) y = put (S p) r (y + radix p * x).
Proof.
  intros [Hl HF] Hy Hx. assert (reg p (<[p := x]> r)) as Hr by (split; [rewrite length_insert; lia|apply Forall_insert; assumption]).
  pose proof (put_reg p _ y Hr) as [Hl' HF']. rewrite length_put in Hl' by (rewrite length_insert; lia). rewrite length_insert in Hl'.
  assert (put p (<[p := x]> r) y !! p = Some x) as E.
  { unfold put. rewrite lookup_app_r by (rewrite length_units; lia). rewrite length_units, lookup_drop, Nat.sub_diag, Nat.add_0_r. apply list_lookup_insert_eq. lia. }
  apply put_unique; [split; [rewrite length_put by (rewrite length_insert; lia); rewrite length_insert; exact Hl|exact HF']| |].
  - unfold put. rewrite drop_app_ge by (rewrite length_units; lia). rewrite length_units, drop_drop, drop_insert_lt by lia. f_equal. lia.
  - rewrite (take_last _ _ _ E), valp_put, !Z.mod_small; [reflexivity| |lia]. rewrite radix_S. unfold inU in Hx. change (2 ^ 16) with BASE in Hx. nia.
Qed.
End Values.

(** * The primitives compute with the values *)

(** Decide the tests of digits. *)
Ltac digits :=
  repeat match goal with
  | |- context [?a <? ?b] => destruct (Z.ltb_spec a b)
  | |- context [?a <=? ?b] => destruct (Z.leb_spec a b)
  end; cbn [Z.b2z]; first [reflexivity|dlia].

Section Primitives.
Implicit Types (r s : list Z) (p n : nat) (x y : Z) (c : bool).

Lemma inU16 x : inU 16 x <-> 0 <= x < BASE.
Proof. unfold inU. reflexivity. Qed.
Lemma u16_mod x : u16 x = x mod BASE.
Proof. reflexivity. Qed.
Lemma lnot16 a : inU 16 a -> u16 (Z.lnot a) = BASE - 1 - a.
Proof. rewrite inU16, u16_mod. intros Ha. unfold Z.lnot. rewrite <- (Z.mod_add _ 1) by lia. rewrite Z.mod_small; lia. Qed.

Lemma addc_digit a b c : inU 16 a -> inU 16 b ->
  (if c then (u16 (a + b + 1), u16 (Z.lnot a) <=? b) else (u16 (a + b), u16 (a + b) <? a)) = ((a + b + Z.b2z c) mod BASE, BASE <=? a + b + Z.b2z c) /\
  Z.b2z (BASE <=? a + b + Z.b2z c) = (a + b + Z.b2z c) / BASE.
Proof.
  intros Ha Hb. pose proof Ha as Ha'. rewrite inU16 in Ha', Hb. destruct c; cbn [Z.b2z].
  - rewrite lnot16 by exact Ha. split; [f_equal; digits|]. digits.
  - rewrite Z.add_0_r, u16_mod. split; [f_equal; digits|]. digits.
Qed.

Lemma mp_addc_ok p : forall r1 r2 c, reg p r1 -> reg p r2 ->
  mp_addc p r1 r2 c = Ok (put p r1 (valp p r1 + valp p r2 + Z.b2z c), radix p <=? valp p r1 + valp p r2 + Z.b2z c).
Proof.
  induction p as [|p IH]; intros r1 r2 c H1 H2.
  - cbn [mp_addc mret res_ret]. change (valp 0 r1) with 0. change (valp 0 r2) with 0. rewrite radix_0. destruct c; reflexivity.
  - apply reg_cons in H1 as (a & s1 & -> & Ha & H1). apply reg_cons in H2 as (b & s2 & -> & Hb & H2).
    cbn [mp_addc unit_next mbind res_bind mret res_ret]. destruct (addc_digit a b c Ha Hb) as [-> Ec]. rewrite IH by assumption. cbn [mbind res_bind mret res_ret].
    rewrite !valp_cons, radix_S, put_cons, Ec. set (t := a + b + Z.b2z c) in *.
    replace (a + BASE * valp p s1 + (b + BASE * valp p s2) + Z.b2z c) with (t + (valp p s1 + valp p s2) * BASE) by lia.
    rewrite Z.mod_add, Z.div_add by lia. f_equal; f_equal; [f_equal; f_equal; lia|]. clearbody t. pose proof (radix_pos p). digits.
Qed.

Lemma subb_digit a b c : inU 16 a -> inU 16 b ->
  (if c then (u16 (a - b - 1), a <=? b) else (u16 (a - b), a <? b)) = ((a - b - Z.b2z c) mod BASE, a - b - Z.b2z c <? 0) /\
  - Z.b2z (a - b - Z.b2z c <? 0) = (a - b - Z.b2z c) / BASE.
Proof.
  rewrite !inU16. intros Ha Hb. rewrite !u16_mod. destruct c; cbn [Z.b2z].
  - split; [f_equal; digits|]. digits.
  - rewrite Z.sub_0_r. split; [f_equal; digits|]. digits.
Qed.

Lemma mp_subb_ok p : forall r1 r2 c, reg p r1 -> reg p r2 ->
  mp_subb p r1 r2 c = Ok (put p r1 (valp p r1 - valp p r2 - Z.b2z c), valp p r1 - valp p r2 - Z.b2z c <? 0).
Proof.
  induction p as [|p IH]; intros r1 r2 c H1 H2.
  - cbn [mp_subb mret res_ret]. change (valp 0 r1) with 0. change (valp 0 r2) with 0. destruct c; reflexivity.
  - apply reg_cons in H1 as (a & s1 & -> & Ha & H1). apply reg_cons in H2 as (b & s2 & -> & Hb & H2).
    cbn [mp_subb unit_next mbind res_bind mret res_ret]. destruct (subb_digit a b c Ha Hb) as [-> Ec]. rewrite IH by assumption. cbn [mbind res_bind mret res_ret].
    rewrite !valp_cons, put_cons. set (t := a - b - Z.b2z c) in *.
    replace (a + BASE * valp p s1 - (b + BASE * valp p s2) - Z.b2z c) with (t + (valp p s1 - valp p s2) * BASE) by lia.
    rewrite Z.mod_add, Z.div_add by lia. f_equal; f_equal; [f_equal; f_equal; lia|]. clearbody t. digits.
Qed.

Lemma mp_rotate_left_ok p : forall r c, reg p r ->
  mp_rotate_left p r c = Ok (put p r (2 * valp p r + Z.b2z c), radix p <=? 2 * valp p r + Z.b2z c).
Proof.
  induction p as [|p IH]; intros r c H1.
  - cbn [mp_rotate_left mret res_ret]. change (valp 0 r) with 0. rewrite radix_0. destruct c; reflexivity.
  - apply reg_cons in H1 as (a & s & -> & Ha & H1). cbn [mp_rotate_left unit_next mbind res_bind mret res_ret]. rewrite IH by assumption. cbn [mbind res_bind mret res_ret].
    assert (Z.b2z (s16 a <? 0) = (2 * a + Z.b2z c) / BASE /\ u16 (Z.lor (a ≪ 1) (Z.b2z c)) = (2 * a + Z.b2z c) mod BASE) as [Ec ->].
    { rewrite inU16 in Ha. split; [|assert (Z.lor (a ≪ 1) (Z.b2z c) = 2 * a + Z.b2z c) as ->; [|reflexivity]].
      - unfold wrapS. change (2 ^ (16 - 1)) with 32768. change (2 ^ 16) with BASE. destruct c; cbn [Z.b2z]; digits.
      - destruct a as [|a|a]; [destruct c; reflexivity|destruct c; reflexivity|lia]. }
    rewrite valp_cons, put_cons, radix_S, Ec. set (t := 2 * a + Z.b2z c) in *.
    replace (2 * (a + BASE * valp p s) + Z.b2z c) with (t + 2 * valp p s * BASE) by lia.
    rewrite Z.mod_add, Z.div_add by lia. f_equal; f_equal; [f_equal; f_equal; lia|]. clearbody t. pose proof (radix_pos p). digits.
Qed.

Lemma valp_insert p r x : valp p (<[p := x]> r) = valp p r.
Proof. unfold valp. rewrite take_insert_ge by lia. reflexivity. Qed.

(** A step of a shift: the carry of the unit above enters at the top. *)
Lemma shift_step p r a x carry carry' m : reg (S p) r -> r !! p = Some a -> inU 16 x -> 0 < m -> m <= BASE -> 0 <= carry' < m -> a + carry * BASE = x * m + carry' ->
  put p (<[p := x]> r) ((valp p (<[p := x]> r) + carry' * radix p) / m) = put (S p) r ((valp (S p) r + carry * radix (S p)) / m).
Proof.
  intros Hr Ea Hx Hm HmB Hc E. pose proof (valp_range p r (reg_le p _ _ Hr (le_S _ _ (le_n p)))) as Hv. rewrite valp_insert, (take_last _ _ _ Ea), radix_S.
  replace (valp p r + radix p * a + carry * (BASE * radix p)) with (valp p r + carry' * radix p + (radix p * x) * m) by nia.
  rewrite Z.div_add by lia. apply put_snoc; [exact Hr| |exact Hx]. pose proof (radix_pos p).
  split; [apply Z.div_pos; nia|apply Z.div_lt_upper_bound; nia].
Qed.

Lemma shift_unit_ok p : forall r carry, reg p r -> inU 16 carry ->
  shift_unit_loop p r carry = Ok (put p r ((valp p r + carry * radix p) / BASE)).
Proof.
  induction p as [|p IH]; intros r carry Hr Hc; [reflexivity|]. cbn [shift_unit_loop].
  destruct (reg_last p r Hr) as (a & Ea & Ha & _ & El). rewrite Ea. cbn [mbind res_bind].
  assert (reg p (<[p := carry]> r)) as Hr' by (split; [rewrite length_insert; apply Nat.lt_le_incl, Hr|apply Forall_insert; [apply Hr|exact Hc]]).
  unfold aset. rewrite (proj2 (Z.leb_le _ _)) by lia. rewrite (proj2 (Z.ltb_lt _ _)) by (apply lookup_lt_Some in El; lia). cbn [andb mbind res_bind]. rewrite Nat2Z.id, IH by assumption. f_equal.
  rewrite inU16 in Ha. apply (shift_step p r a carry carry a BASE); auto with lia.
Qed.

Lemma shift_digit bits a carry : 0 < bits < 16 -> inU 16 a -> 0 <= carry < 2 ^ bits ->
  let x := u16 (Z.lor (a ≫ bits) (carry ≪ (UNITSIZE - bits))) in
  inU 16 x /\ Z.land a (u16 (u16 (1 ≪ bits) - 1)) = a mod 2 ^ bits /\ a + carry * BASE = x * 2 ^ bits + a mod 2 ^ bits.
Proof.
  intros Hb Ha Hc x. rewrite inU16 in Ha. assert (2 ^ bits * 2 ^ (16 - bits) = BASE) as E by (rewrite <- Z.pow_add_r by lia; replace (bits + (16 - bits)) with 16 by lia; reflexivity).
  assert (1 < 2 ^ bits) as H1 by (apply Z.pow_gt_1; lia). assert (0 < 2 ^ (16 - bits)) as H2 by lia.
  assert (u16 (u16 (1 ≪ bits) - 1) = Z.ones bits) as ->.
  { assert (2 ^ bits < BASE) by (apply (Z.pow_lt_mono_r 2 bits 16); lia). rewrite Z.shiftl_1_l, Z.ones_equiv, !u16_mod. rewrite (Z.mod_small (2 ^ bits)) by lia. rewrite Z.mod_small by lia. lia. }
  rewrite Z.land_ones by lia. assert (x = a / 2 ^ bits + carry * 2 ^ (16 - bits)) as Ex.
  { unfold x, UNITSIZE. rewrite Z.shiftr_div_pow2, Z.shiftl_mul_pow2 by lia. assert (0 <= a / 2 ^ bits < 2 ^ (16 - bits)) as Hq by (split; [apply Z.div_pos; lia|apply Z.div_lt_upper_bound; lia]).
    assert ((carry + 1) * 2 ^ (16 - bits) <= BASE) by (rewrite <- E; apply Z.mul_le_mono_nonneg_r; lia).
    rewrite Z.lor_comm, lor_disjoint_add by lia. rewrite u16_mod, Z.mod_small; lia. }
  split; [apply wrapU_range; lia|]. split; [reflexivity|]. rewrite Ex. pose proof (Z.div_mod a (2 ^ bits) ltac:(lia)). nia.
Qed.

Lemma aset_last p r x : reg (S p) r -> inU 16 x -> aset r (Z.of_nat p) x = Ok (<[p := x]> r) /\ reg p (<[p := x]> r).
Proof.
  intros [Hl HF] Hx. unfold aset. rewrite (proj2 (Z.leb_le _ _)) by lia. rewrite (proj2 (Z.ltb_lt _ _)) by lia. rewrite Nat2Z.id. split; [reflexivity|].
  split; [rewrite length_insert; lia|apply Forall_insert; assumption].
Qed.

Lemma shift_right_ok bits p : 0 < bits < 16 -> forall r carry, reg p r -> 0 <= carry < 2 ^ bits ->
  shift_right_loop bits p r carry = Ok (put p r ((valp p r + carry * radix p) / 2 ^ bits)).
Proof.
  intros Hb. induction p as [|p IH]; intros r carry Hr Hc; cbn [shift_right_loop].
  - cbn [mret res_ret]. reflexivity.
  - destruct (reg_last p r Hr) as (a & Ea & Ha & _ & El). rewrite Ea. cbn [mbind res_bind]. destruct (shift_digit bits a carry Hb Ha Hc) as (Hx & -> & E).
    set (x := u16 _) in *. destruct (aset_last p r x Hr Hx) as [-> Hr']. cbn [mbind res_bind]. assert (0 < 2 ^ bits) by lia. pose proof (Z.mod_pos_bound a (2 ^ bits) ltac:(lia)).
    assert (2 ^ bits <= BASE) by (apply (Z.pow_le_mono_r 2 bits 16); lia). rewrite IH by assumption. f_equal. apply (shift_step p r a x carry _ (2 ^ bits)); auto with lia.
Qed.

Lemma mp_shift_right_bits_ok p r bits : reg p r -> 0 <= bits <= 16 -> mp_shift_right_bits p r bits = Ok (put p r (valp p r / 2 ^ bits)).
Proof.
  intros Hr Hb. unfold mp_shift_right_bits, UNITSIZE. destruct (Z.eqb_spec bits 0) as [->|H0].
  - rewrite Z.div_1_r, put_valp by exact Hr. reflexivity.
  - destruct (Z.eqb_spec bits 16) as [->|H16].
    + rewrite shift_unit_ok by (try exact Hr; unfold inU; lia). rewrite Z.add_0_r. reflexivity.
    + rewrite shift_right_ok by (try exact Hr; lia). rewrite Z.add_0_r. reflexivity.
Qed.

Definition cmpz x y : Z := if x <? y then -1 else if y <? x then 1 else 0.

Lemma mp_compare_ok p : forall r s, (0 < p)%nat -> reg p r -> reg p s -> mp_compare p r s = Ok (cmpz (valp p r) (valp p s)).
Proof.
  induction p as [|p IH]; intros r s Hp Hr Hs; [lia|]. cbn [mp_compare].
  destruct (reg_last p r Hr) as (a & Ea & Ha & Er & _). destruct (reg_last p s Hs) as (b & Eb & Hb & Es & _). rewrite Ea, Eb. cbn [mbind res_bind].
  apply (fun H => reg_le p _ _ H (le_S _ _ (le_n p))) in Hr, Hs. pose proof (valp_range p r Hr). pose proof (valp_range p s Hs). rewrite Er, Es.
  unfold cmpz. destruct (Z.ltb_spec a b); [rewrite (proj2 (Z.ltb_lt _ _)) by nia; reflexivity|].
  destruct (Z.ltb_spec b a); [rewrite (proj2 (Z.ltb_ge _ _)), (proj2 (Z.ltb_lt _ _)) by nia; reflexivity|].
  assert (a = b) as -> by lia. destruct (Nat.eqb_spec p 0) as [->|Hne].
  - change (valp 0 r) with 0. change (valp 0 s) with 0. rewrite Z.ltb_irrefl. reflexivity.
  - rewrite IH by (assumption || lia). unfold cmpz. f_equal. repeat match goal with |- context [?x <? ?y] => destruct (Z.ltb_spec x y) end; lia || reflexivity.
Qed.

Lemma s16_minus1 a : inU 16 a -> (s16 a =? -1) = (a =? BASE - 1).
Proof.
  rewrite inU16. intros Ha. unfold wrapS. change (2 ^ (16 - 1)) with 32768. change (2 ^ 16) with BASE.
  destruct (Z.eqb_spec a (BASE - 1)) as [->|Hne]; [reflexivity|]. apply Z.eqb_neq. dlia.
Qed.

Lemma mp_inc_ok p : forall r, (0 < p)%nat -> reg p r -> mp_inc p r = Ok (put p r (valp p r + 1), radix p <=? valp p r + 1).
Proof.
  induction p as [|p IH]; intros r Hp Hr; [lia|]. apply reg_cons in Hr as (a & s & -> & Ha & Hs). cbn [mp_inc unit_next mbind res_bind mret res_ret].
  rewrite inU16 in Ha. pose proof (valp_range p s Hs) as Hv. rewrite u16_mod, valp_cons, put_cons, radix_S. destruct (Z.eqb_spec ((a + 1) mod BASE) 0) as [E|E]; cbn [negb].
  - assert (a = BASE - 1) as -> by dlia. replace (BASE - 1 + BASE * valp p s + 1) with (0 + (valp p s + 1) * BASE) by lia. rewrite Z.mod_add, Z.div_add by lia.
    change (0 / BASE) with 0. change (0 mod BASE) with 0. rewrite Z.add_0_l. change ((BASE - 1 + 1) mod BASE) with 0. destruct (Nat.eqb_spec p 0) as [->|Hne].
    + change (valp 0 s) with 0. rewrite radix_0. reflexivity.
    + rewrite IH by (assumption || lia). cbn [mbind res_bind mret res_ret]. do 2 f_equal. digits.
  - rewrite (Z.mod_small (a + 1)) by dlia. replace (a + BASE * valp p s + 1) with (a + 1 + valp p s * BASE) by lia. rewrite Z.mod_add, Z.div_add, Z.div_small, Z.mod_small, Z.add_0_l, put_valp by (assumption || dlia).
    do 2 f_equal. digits.
Qed.

Lemma mp_dec_ok p : forall r, (0 < p)%nat -> reg p r -> mp_dec p r = Ok (put p r (valp p r - 1), valp p r - 1 <? 0).
Proof.
  induction p as [|p IH]; intros r Hp Hr; [lia|]. apply reg_cons in Hr as (a & s & -> & Ha & Hs). cbn [mp_dec unit_next mbind res_bind mret res_ret].
  rewrite s16_minus1 by (apply wrapU_range; lia). rewrite inU16 in Ha. pose proof (valp_range p s Hs) as Hv. rewrite u16_mod, valp_cons, put_cons. destruct (Z.eqb_spec ((a - 1) mod BASE) (BASE - 1)) as [E|E]; cbn [negb].
  - assert (a = 0) as -> by dlia. replace (0 + BASE * valp p s - 1) with (BASE - 1 + (valp p s - 1) * BASE) by lia. rewrite Z.mod_add, Z.div_add by lia.
    change ((BASE - 1) / BASE) with 0. change ((BASE - 1) mod BASE) with (BASE - 1). rewrite Z.add_0_l. change ((0 - 1) mod BASE) with (BASE - 1). destruct (Nat.eqb_spec p 0) as [->|Hne].
    + change (valp 0 s) with 0. reflexivity.
    + rewrite IH by (assumption || lia). cbn [mbind res_bind mret res_ret]. do 2 f_equal. digits.
  - replace (a + BASE * valp p s - 1) with (a - 1 + valp p s * BASE) by lia. rewrite Z.mod_add, Z.div_add, Z.div_small, Z.add_0_l, put_valp by (assumption || dlia).
    do 2 f_equal. digits.
Qed.

Lemma complement_ok p : forall r, reg p r -> complement_loop p r = Ok (put p r (- 1 - valp p r)).
Proof.
  induction p as [|p IH]; intros r Hr; [reflexivity|]. apply reg_cons in Hr as (a & s & -> & Ha & Hs). cbn [complement_loop unit_next mbind res_bind mret res_ret].
  rewrite IH by assumption. cbn [mbind res_bind mret res_ret]. rewrite lnot16 by exact Ha. rewrite inU16 in Ha. rewrite valp_cons, put_cons.
  replace (-1 - (a + BASE * valp p s)) with (BASE - 1 - a + (-1 - valp p s) * BASE) by lia. rewrite Z.mod_add, Z.div_add, Z.div_small, Z.mod_small by lia. reflexivity.
Qed.

Lemma mp_neg_ok p r : (0 < p)%nat -> reg p r -> mp_neg p r = Ok (put p r (- valp p r)).
Proof.
  intros Hp Hr. unfold mp_neg. rewrite mp_dec_ok by assumption. cbn [mbind res_bind]. rewrite complement_ok by apply put_reg, Hr. rewrite put_put. f_equal.
  apply put_ext. rewrite valp_put. rewrite Zminus_mod_idemp_r. f_equal. lia.
Qed.

Lemma mp_move_ok p r s : (p <= length r)%nat -> reg p s -> mp_move p r s = Ok (put p r (valp p s)).
Proof.
  intros Hr Hs. unfold mp_move. rewrite (proj2 (Nat.leb_le _ _) Hr), (proj2 (Nat.leb_le _ _) (proj1 Hs)). cbn [andb mret res_ret]. unfold put. do 2 f_equal.
  apply reg_take in Hs as [HF Hl]. unfold valp. rewrite <- Hl at 2. rewrite units_mval by exact HF. reflexivity.
Qed.

Lemma units_0 n : units n 0 = replicate n 0.
Proof. induction n as [|n IH]; [reflexivity|]. cbn [units replicate]. rewrite <- IH. reflexivity. Qed.
Lemma unitfill0_ok p r : (p <= length r)%nat -> unitfill0 r p = Ok (put p r 0).
Proof. intros Hr. unfold unitfill0, put. rewrite (proj2 (Nat.leb_le _ _) Hr), units_0. reflexivity. Qed.
Lemma mp_init_ok p r x : (0 < p)%nat -> (p <= length r)%nat -> inU 16 x -> mp_init p r x = Ok (put p r x).
Proof.
  intros Hp Hr Hx. unfold mp_init. rewrite unitfill0_ok by exact Hr. cbn [mbind res_bind]. destruct p as [|p]; [lia|]. destruct r as [|a r]; cbn [length] in Hr; [lia|].
  rewrite !put_cons. rewrite inU16 in Hx. rewrite (Z.mod_small x), (Z.div_small x) by lia. reflexivity.
Qed.

Lemma significance_ok p r : (0 < p)%nat -> reg p r ->
  exists n, significance p r = Ok n /\ (n <= p)%nat /\ valp p r = valp n r /\ ((0 < n)%nat -> radix (pred n) <= valp p r).
Proof.
  induction p as [|p IH]; intros Hp Hr; [lia|]. cbn [significance]. destruct (reg_last p r Hr) as (a & Ea & Ha & Er & _). rewrite Ea. cbn [mbind res_bind].
  apply (fun H => reg_le p _ _ H (le_S _ _ (le_n p))) in Hr. pose proof (valp_range p r Hr). rewrite inU16 in Ha. destruct (Z.eqb_spec a 0) as [->|Hne]; cbn [negb].
  - rewrite Er, Z.mul_0_r, Z.add_0_r. destruct (Nat.eqb_spec p 0) as [->|Hp0].
    + exists O. split; [reflexivity|]. split; [lia|]. split; [reflexivity|lia].
    + destruct IH as (n & E1 & E2 & E3 & E4); [lia|exact Hr|]. exists n. split; [exact E1|]. split; [lia|]. auto.
  - exists (S p). split; [reflexivity|]. split; [lia|]. split; [reflexivity|]. intros _. cbn [pred]. rewrite Er. pose proof (radix_pos p). nia.
Qed.

Lemma testeq_ok p r x : (0 < p)%nat -> reg p r -> inU 16 x -> testeq p r x = Ok (valp p r =? x).
Proof.
  intros Hp Hr Hx. unfold testeq. destruct (significance_ok p r Hp Hr) as (n & -> & Hn & Ev & Hlo). destruct p as [|p]; [lia|]. pose proof Hr as Hr0.
  apply reg_cons in Hr0 as (a & s & -> & Ha & Hs). cbn [aget mbind res_bind mret res_ret]. change (aget (a :: s) 0) with (Ok a). cbn [mbind res_bind mret res_ret]. f_equal.
  rewrite inU16 in Hx, Ha. pose proof (valp_range p s Hs) as Hv. rewrite valp_cons in *. destruct (Nat.leb_spec n 1) as [H1|H1].
  - assert (valp p s = 0) as -> by (destruct n as [|[|n]]; [change (valp 0 (a :: s)) with 0 in Ev|rewrite valp_cons in Ev; change (valp 0 s) with 0 in Ev|]; lia). rewrite Z.mul_0_r, Z.add_0_r, andb_true_r. reflexivity.
  - rewrite andb_false_r. symmetry. apply Z.eqb_neq. destruct n as [|[|n]]; [lia..|]. specialize (Hlo ltac:(lia)). cbn [pred] in Hlo. rewrite radix_S in Hlo. pose proof (radix_pos n). lia.
Qed.

Lemma mp_tstminus_ok p r : (0 < p)%nat -> reg p r -> mp_tstminus p r = Ok (radix p <=? 2 * valp p r).
Proof.
  intros Hp Hr. destruct p as [|p]; [lia|]. unfold mp_tstminus. destruct (reg_last p r Hr) as (a & Ea & Ha & Er & _).
  replace (Z.of_nat (S p) - 1) with (Z.of_nat p) by lia. rewrite Ea. cbn [mbind res_bind mret res_ret]. f_equal. rewrite Er, radix_S.
  pose proof (valp_range p r (reg_le _ _ _ Hr (le_S _ _ (le_n p)))). rewrite inU16 in Ha. unfold wrapS. change (2 ^ (16 - 1)) with 32768. change (2 ^ 16) with BASE.
  destruct (Z.leb_spec (BASE * radix p) (2 * (valp p r + radix p * a))) as [H1|H1]; [apply Z.ltb_lt|apply Z.ltb_ge].
  - assert (32768 <= a) by nia. dlia.
  - assert (a < 32768) by nia. dlia.
Qed.
End Primitives.

(** The primitives compute on the numbers that the registers stand for: addition and
    subtraction with carry and borrow, rotation, increment, decrement, negation, right shifts,
    comparison, initialisation, the significance and the sign test, each modulo the radix of the
    precision and without touching the units above it. *)
Theorem mpi_primitives p r s c bits : (0 < p)%nat -> reg p r -> reg p s -> 0 <= bits <= 16 ->
  mp_addc p r s c = Ok (put p r (valp p r + valp p s + Z.b2z c), radix p <=? valp p r + valp p s + Z.b2z c) /\
  mp_subb p r s c = Ok (put p r (valp p r - valp p s - Z.b2z c), valp p r - valp p s - Z.b2z c <? 0) /\
  mp_rotate_left p r c = Ok (put p r (2 * valp p r + Z.b2z c), radix p <=? 2 * valp p r + Z.b2z c) /\
  mp_shift_right_bits p r bits = Ok (put p r (valp p r / 2 ^ bits)) /\
  mp_compare p r s = Ok (cmpz (valp p r) (valp p s)) /\
  mp_inc p r = Ok (put p r (valp p r + 1), radix p <=? valp p r + 1) /\
  mp_dec p r = Ok (put p r (valp p r - 1), valp p r - 1 <? 0) /\
  mp_neg p r = Ok (put p r (- valp p r)) /\ mp_move p r s = Ok (put p r (valp p s)).
Proof.
  intros Hp Hr Hs Hb. rewrite mp_addc_ok, mp_subb_ok, mp_rotate_left_ok, mp_shift_right_bits_ok, mp_compare_ok, mp_inc_ok, mp_dec_ok, mp_neg_ok, mp_move_ok by (assumption || apply Hr). auto 10.
Qed.

Lemma mpi_primitives_witness : let r := [0xffff; 0xffff; 7] in let s := [2; 0] in (0 < 2)%nat /\ reg 2 r /\ reg 2 s /\ 0 <= 3 <= 16 /\
  mp_addc 2 r s true = Ok (put 2 r (valp 2 r + valp 2 s + Z.b2z true), radix 2 <=? valp 2 r + valp 2 s + Z.b2z true).
Proof.
  intros r s. assert (reg 2 r) as Hr by by_eval. assert (reg 2 s) as Hs by by_eval. assert (0 <= 3 <= 16) as Hb by lia. assert (0 < 2)%nat as Hp by lia.
  split; [exact Hp|]. split; [exact Hr|]. split; [exact Hs|]. split; [exact Hb|]. exact (proj1 (mpi_primitives 2 r s true 3 Hp Hr Hs Hb)).
Defined.
