(* ===== verification/MpiDiv.v ===== *)
(** Division, remainder and multiplication of the multiprecision library of pgp
    (src/mibench/security/pgp/src/mpilib.c, mpilib.h): the bit sniffers and the routines that go over
    the bits of an operand. *)
From stdpp Require Import base list numbers option tactics.
From Stdlib Require Import ZArith Lia Btauto.
From S2P Require Import Prelude Bytes Mpi.

(** * The code *)

(** A bit sniffer is a unit and a mask in it. *)
Abbreviation sniffer := (Z * Z)%type.
Definition sniff_bit (r : list Z) (at_ : sniffer) : res bool := a ← aget r at_.1; mret (negb (Z.land a at_.2 =? 0)).
Definition stuff_bit (r : list Z) (at_ : sniffer) : res (list Z) := a ← aget r at_.1; aset r at_.1 (Z.lor a at_.2).
Definition bump_bitsniffer (at_ : sniffer) : sniffer :=
  let mask := at_.2 ≫ 1 in if mask =? 0 then (at_.1 - 1, uppermostbit) else (at_.1, mask).
Fixpoint sniff_loop (fuel : nat) (r : list Z) (at_ : sniffer) (bits : Z) : res (Z * sniffer) :=
  match fuel with
  | O => Err OutOfFuel
  | S fuel => b ← sniff_bit r at_; if negb b then sniff_loop fuel r (at_.1, at_.2 ≫ 1) (bits - 1) else mret (bits, at_)
  end.
(** [None] where the macro returns from the function that uses it. *)
Definition init_bitsniffer (prec : nat) (r : list Z) : res (option (Z * sniffer)) :=
  n ← significance prec r;
  if (n =? 0)%nat then mret None
  else x ← sniff_loop 16 r (Z.of_nat n - 1, uppermostbit) (units2bits (Z.of_nat n)); mret (Some x).

Definition countbits (prec : nat) (r : list Z) : res Z :=
  x ← init_bitsniffer prec r; match x with Some (bits, _) => mret bits | None => mret 0 end.

(** [while (bits--)]: the loops do not use the count. *)
Definition for_bits {A} (bits : Z) (body : A -> res A) (s : A) : res A := cfor (Z.to_nat bits) 0 (fun _ => body) s.

(** The status, the remainder and the quotient. *)
Definition udiv_body (prec : nat) (dividend divisor : list Z) (st : list Z * list Z * sniffer) : res (list Z * list Z * sniffer) :=
  let '(remainder, quotient, at_) := st in
  b ← sniff_bit dividend at_;
  '(remainder, _) ← mp_rotate_left prec remainder b;
  c ← mp_compare prec remainder divisor;
  '(remainder, quotient) ← (if 0 <=? c then
      '(remainder, _) ← mp_sub prec remainder divisor; quotient ← stuff_bit quotient at_; mret (remainder, quotient)
    else mret (remainder, quotient));
  mret (remainder, quotient, bump_bitsniffer at_).
Definition mp_udiv (prec : nat) (remainder quotient dividend divisor : list Z) : res (Z * list Z * list Z) :=
  z ← testeq prec divisor 0;
  if z : bool then mret (-1, remainder, quotient)
  else
    remainder ← mp_init prec remainder 0; quotient ← mp_init prec quotient 0;
    x ← init_bitsniffer prec dividend;
    match x with
    | None => mret (0, remainder, quotient)
    | Some (bits, at_) =>
        '(remainder, quotient, _) ← for_bits bits (udiv_body prec dividend divisor) (remainder, quotient, at_);
        mret (0, remainder, quotient)
    end.

(** The two operands are negated in place and repaired. *)
Definition mp_div (prec : nat) (remainder quotient dividend divisor : list Z) : res (Z * list Z * list Z * list Z * list Z) :=
  dvdsign ← mp_tstminus prec dividend; dsign ← mp_tstminus prec divisor;
  let neg_if (b : bool) r := if b then mp_neg prec r else mret r in
  dividend ← neg_if dvdsign dividend; divisor ← neg_if dsign divisor;
  '(status, remainder, quotient) ← mp_udiv prec remainder quotient dividend divisor;
  dividend ← neg_if dvdsign dividend; divisor ← neg_if dsign divisor;
  if status <? 0 then mret (status, remainder, quotient, dividend, divisor)
  else
    remainder ← neg_if dvdsign remainder; quotient ← neg_if (xorb dvdsign dsign) quotient;
    mret (status, remainder, quotient, dividend, divisor).

Definition shortdiv_body (dividend : list Z) (divisor : Z) (st : Z * list Z * sniffer) : res (Z * list Z * sniffer) :=
  let '(remainder, quotient, at_) := st in
  b ← sniff_bit dividend at_;
  let remainder := u16 (remainder ≪ 1) in
  let remainder := if b : bool then u16 (remainder + 1) else remainder in
  '(remainder, quotient) ← (if divisor <=? remainder then quotient ← stuff_bit quotient at_; mret (u16 (remainder - divisor), quotient)
    else mret (remainder, quotient));
  mret (remainder, quotient, bump_bitsniffer at_).
(** The result of type [word16], and the quotient. *)
Definition mp_shortdiv (prec : nat) (quotient dividend : list Z) (divisor : Z) : res (Z * list Z) :=
  if divisor =? 0 then mret (u16 (-1), quotient)
  else
    quotient ← mp_init prec quotient 0;
    x ← init_bitsniffer prec dividend;
    match x with
    | None => mret (0, quotient)
    | Some (bits, at_) =>
        '(remainder, quotient, _) ← for_bits bits (shortdiv_body dividend divisor) (0, quotient, at_); mret (remainder, quotient)
    end.

Definition mod_body (prec : nat) (dividend divisor : list Z) (st : list Z * sniffer) : res (list Z * sniffer) :=
  let '(remainder, at_) := st in
  b ← sniff_bit dividend at_;
  '(remainder, _) ← mp_rotate_left prec remainder b;
  c ← mp_compare prec remainder divisor;
  remainder ← (if 0 <=? c then '(remainder, _) ← mp_sub prec remainder divisor; mret remainder else mret remainder);
  mret (remainder, bump_bitsniffer at_).
Definition mp_mod (prec : nat) (remainder dividend divisor : list Z) : res (Z * list Z) :=
  z ← testeq prec divisor 0;
  if z : bool then mret (-1, remainder)
  else
    remainder ← mp_init prec remainder 0;
    x ← init_bitsniffer prec dividend;
    match x with
    | None => mret (0, remainder)
    | Some (bits, at_) => '(remainder, _) ← for_bits bits (mod_body prec dividend divisor) (remainder, at_); mret (0, remainder)
    end.

Definition shortmod_body (dividend : list Z) (divisor : Z) (st : Z * sniffer) : res (Z * sniffer) :=
  let '(remainder, at_) := st in
  b ← sniff_bit dividend at_;
  let remainder := u16 (remainder ≪ 1) in
  let remainder := if b : bool then u16 (remainder + 1) else remainder in
  let remainder := if divisor <=? remainder then u16 (remainder - divisor) else remainder in
  mret (remainder, bump_bitsniffer at_).
Definition mp_shortmod (prec : nat) (dividend : list Z) (divisor : Z) : res Z :=
  if divisor =? 0 then mret (u16 (-1))
  else
    x ← init_bitsniffer prec dividend;
    match x with
    | None => mret 0
    | Some (bits, at_) => '(remainder, _) ← for_bits bits (shortmod_body dividend divisor) (0, at_); mret remainder
    end.

Definition mult_body (prec : nat) (multiplicand multiplier : list Z) (st : list Z * sniffer) : res (list Z * sniffer) :=
  let '(prod, at_) := st in
  '(prod, _) ← mp_shift_left prec prod;
  b ← sniff_bit multiplier at_;
  prod ← (if b : bool then '(prod, _) ← mp_add prec prod multiplicand; mret prod else mret prod);
  mret (prod, bump_bitsniffer at_).
Definition mp_mult (prec : nat) (prod multiplicand multiplier : list Z) : res (list Z) :=
  prod ← mp_init prec prod 0;
  z ← testeq prec multiplicand 0;
  if z : bool then mret prod
  else
    x ← init_bitsniffer prec multiplier;
    match x with
    | None => mret prod
    | Some (bits, at_) => '(prod, _) ← for_bits bits (mult_body prec multiplicand multiplier) (prod, at_); mret prod
    end.

(** The local array is cleared before it is read. *)
Definition recip_body (prec : nat) (divisor : list Z) (st : list Z * list Z * sniffer) : res (list Z * list Z * sniffer) :=
  let '(remainder, quotient, at_) := st in
  '(remainder, _) ← mp_shift_left prec remainder;
  c ← mp_compare prec remainder divisor;
  '(remainder, quotient) ← (if 0 <=? c then
      '(remainder, _) ← mp_sub prec remainder divisor; quotient ← stuff_bit quotient at_; mret (remainder, quotient)
    else mret (remainder, quotient));
  mret (remainder, quotient, bump_bitsniffer at_).
Definition mp_recip (prec : nat) (quotient divisor : list Z) : res (Z * list Z) :=
  z ← testeq prec divisor 0;
  if z : bool then mret (-1, quotient)
  else
    remainder ← mp_init prec (replicate MAX_UNIT_PRECISION 0) 0; quotient ← mp_init prec quotient 0;
    bits ← countbits prec divisor;
    let qprec := bits2units (bits + 1) in
    remainder ← mp_setbit remainder (bits - 1);
    '(_, quotient, _) ← for_bits bits (recip_body prec divisor) (remainder, quotient, (qprec - 1, bitmsk bits));
    mret (0, quotient).

Example div_run : ('(s, r, q) ← mp_udiv 2 [0; 0] [0; 0] [0xcdef; 0x89ab] [0x1234; 0]; t ← mp_mult 2 [0; 0] q [0x1234; 0]; '(t, _) ← mp_add 2 t r; '(_, u) ← mp_recip 2 [0; 0] [3; 0];
   mret (s, r, q, t, u)) = Ok (0, [4307; 0], [0x9023; 7], [0xcdef; 0x89ab], [4; 0]).
Proof. vm_compute. reflexivity. Qed.

(** * Sniffers *)

(** The sniffer at the bit [n]. *)
Definition at_bit (n : Z) : sniffer := (n / 16, 2 ^ (n mod 16)).

Section Sniffers.
Implicit Types (r : list Z) (p : nat) (n : Z).

Lemma at_bit_unit p n : 0 <= n < 16 * Z.of_nat p -> exists k, n / 16 = Z.of_nat k /\ (k < p)%nat /\ n = 16 * Z.of_nat k + n mod 16 /\ 0 <= n mod 16 < 16.
Proof. intros Hn. exists (Z.to_nat (n / 16)). split; [dlia|]. split; [dlia|]. split; dlia. Qed.

Lemma testbit_small x m i : 0 <= x < 2 ^ m -> m <= i -> Z.testbit x i = false.
Proof. intros Hx Hi. destruct (Z.le_gt_cases 0 m); [|rewrite Z.pow_neg_r in Hx by lia; lia]. rewrite <- (Z.mod_small x (2 ^ m)) by lia. apply Z.mod_pow2_bits_high. lia. Qed.

(** The unit of a bit. *)
Lemma unit_bit p r k (j : Z) a : reg p r -> (k < p)%nat -> r !! k = Some a -> 0 <= j < 16 -> Z.testbit (valp p r) (16 * Z.of_nat k + j) = Z.testbit a j.
Proof.
  intros Hr Hk Ek Hj. assert (Forall (inU 16) (take p r)) as HF by apply reg_take, Hr. assert (inU 16 a) as Ha by (destruct Hr as [_ HF']; exact (Forall_lookup_1 _ _ _ _ HF' Ek)).
  unfold valp. rewrite <- (take_drop_middle (take p r) k a) by (rewrite lookup_take_lt by lia; exact Ek).
  rewrite take_take, Nat.min_l by lia. assert (length (take k r) = k) as Lk by (rewrite length_take; destruct Hr; lia). rewrite mval_app. cbn [mval]. rewrite Lk.
  assert (reg k r) as Hk' by (apply (reg_le k p); [exact Hr|lia]). pose proof (valp_range k r Hk') as Hv. unfold valp in Hv. set (hi := mval (drop _ _)).
  rewrite (Z.add_comm (mval _)), (Z.mul_comm (radix k)), radix_pow in *. rewrite <- lor_disjoint_add by lia.
  rewrite Z.lor_spec, <- Z.shiftl_mul_pow2, Z.shiftl_spec by lia. rewrite (testbit_small (mval (take k r)) (16 * Z.of_nat k)), orb_false_r by lia.
  replace (16 * Z.of_nat k + j - 16 * Z.of_nat k) with j by lia. rewrite inU16 in Ha. rewrite (Z.mul_comm BASE). change BASE with (2 ^ 16).
  rewrite Z.add_comm, <- lor_disjoint_add by lia. rewrite Z.lor_spec, <- Z.shiftl_mul_pow2, Z.shiftl_spec by lia. rewrite Z.testbit_neg_r by lia. reflexivity.
Qed.

Lemma land_bit a j : 0 <= j -> negb (Z.land a (2 ^ j) =? 0) = Z.testbit a j.
Proof.
  intros Hj. destruct (Z.testbit a j) eqn:E.
  - destruct (Z.eqb_spec (Z.land a (2 ^ j)) 0) as [H|H]; [|reflexivity]. apply (f_equal (fun x => Z.testbit x j)) in H. rewrite Z.land_spec, E, Z.pow2_bits_true, Z.bits_0 in H by lia. discriminate.
  - assert (Z.land a (2 ^ j) = 0) as ->; [|reflexivity]. apply Z.bits_inj'. intros i Hi. rewrite Z.land_spec, Z.bits_0, Z.pow2_bits_eqb by lia.
    destruct (Z.eqb_spec j i) as [->|]; [rewrite E|]; btauto.
Qed.

Lemma reg_unit p r k : reg p r -> (k < p)%nat -> exists a, r !! k = Some a /\ inU 16 a /\ aget r (Z.of_nat k) = Ok a.
Proof.
  intros Hr Hk. destruct (reg_last k r (reg_le (S k) p _ Hr Hk)) as (a & Ea & Ha & _ & El). eauto.
Qed.

Lemma sniff_ok p r n : reg p r -> 0 <= n < 16 * Z.of_nat p -> sniff_bit r (at_bit n) = Ok (Z.testbit (valp p r) n).
Proof.
  intros Hr Hn. destruct (at_bit_unit p n Hn) as (k & Ek & Hk & En & Hj). unfold sniff_bit, at_bit. cbn [fst snd]. rewrite Ek.
  destruct (reg_unit p r k Hr Hk) as (a & El & Ha & ->). cbn [mbind res_bind mret res_ret]. rewrite land_bit by lia. rewrite En at 2. rewrite (unit_bit p r k _ a) by (assumption || lia). reflexivity.
Qed.

Lemma bump_ok n : bump_bitsniffer (at_bit n) = at_bit (n - 1).
Proof.
  unfold bump_bitsniffer, at_bit, uppermostbit. cbn [fst snd]. pose proof (Z.mod_pos_bound n 16 ltac:(lia)). pose proof (Z.div_mod n 16 ltac:(lia)) as E.
  rewrite Z.shiftr_div_pow2 by lia. change (2 ^ 1) with 2. destruct (Z.eq_dec (n mod 16) 0) as [E0|E0].
  - rewrite E0. change (2 ^ 0 / 2) with 0. cbn [Z.eqb]. f_equal; [dlia|]. replace ((n - 1) mod 16) with 15 by dlia. reflexivity.
  - assert (2 ^ (n mod 16) = 2 * 2 ^ (n mod 16 - 1)) as -> by (rewrite <- Z.pow_succ_r by lia; f_equal; lia). rewrite Z.mul_comm, Z.div_mul by lia.
    rewrite (proj2 (Z.eqb_neq _ _)) by lia. f_equal; [dlia|]. f_equal. dlia.
Qed.

Lemma valp_insert_at p r k a x : (p <= length r)%nat -> (k < p)%nat -> r !! k = Some a -> valp p (<[k := x]> r) = valp p r + radix k * (x - a).
Proof.
  intros Hl Hk Ek. unfold valp. rewrite take_insert_lt by lia. rewrite insert_take_drop by (rewrite length_take; lia).
  rewrite <- (take_drop_middle (take p r) k a) at 3 by (rewrite lookup_take_lt by lia; exact Ek).
  rewrite !mval_app. cbn [mval]. rewrite length_take, length_take, !Nat.min_l by lia. lia.
Qed.

Lemma stuff_ok p r n : reg p r -> 0 <= n < 16 * Z.of_nat p -> Z.testbit (valp p r) n = false -> stuff_bit r (at_bit n) = Ok (put p r (valp p r + 2 ^ n)).
Proof.
  intros Hr Hn Hb. destruct (at_bit_unit p n Hn) as (k & Ek & Hk & En & Hj). unfold stuff_bit, at_bit. cbn [fst snd]. rewrite Ek.
  destruct (reg_unit p r k Hr Hk) as (a & El & Ha & ->). cbn [mbind res_bind]. rewrite En in Hb. rewrite (unit_bit p r k _ a) in Hb by (assumption || lia).
  set (j := n mod 16) in *. assert (Z.lor a (2 ^ j) = a + 2 ^ j) as Ea.
  { symmetry. rewrite <- Z.lxor_lor, <- Z.add_nocarry_lxor; [reflexivity|..]; apply Z.bits_inj'; intros i Hi; rewrite Z.land_spec, Z.bits_0, Z.pow2_bits_eqb by lia;
      (destruct (Z.eqb_spec j i) as [<-|]; [rewrite Hb|]; btauto). }
  assert (inU 16 (Z.lor a (2 ^ j))) as Hx by (apply inU_lor; [lia|exact Ha|split; [lia|apply Z.pow_lt_mono_r; lia]]).
  pose proof Hr as [Hl HF]. unfold aset. rewrite (proj2 (Z.leb_le _ _)) by lia. rewrite (proj2 (Z.ltb_lt _ _)) by lia. cbn [andb]. rewrite Nat2Z.id. f_equal.
  apply put_unique; [split; [rewrite length_insert; exact Hl|apply Forall_insert; assumption]|apply drop_insert_lt; lia|].
  rewrite (valp_insert_at p r k a) by assumption. rewrite Ea. replace (valp p r + radix k * (a + 2 ^ j - a)) with (valp p r + 2 ^ n).
  2:{ rewrite En, radix_pow, Z.pow_add_r by lia. lia. }
  symmetry. apply Z.mod_small. assert (reg p (<[k := Z.lor a (2 ^ j)]> r)) as Hr' by (split; [rewrite length_insert; exact Hl|apply Forall_insert; assumption]).
  apply valp_range in Hr'. rewrite (valp_insert_at p r k a), Ea in Hr' by assumption. replace (valp p r + 2 ^ n) with (valp p r + radix k * (a + 2 ^ j - a)); [exact Hr'|].
  rewrite En, radix_pow, Z.pow_add_r by lia. lia.
Qed.

(** The most significant bit. *)
Lemma sniff_loop_ok fuel p r : reg p r -> forall n, 0 <= n < 16 * Z.of_nat p -> 0 < valp p r < 2 ^ (n + 1) -> n / 16 = Z.log2 (valp p r) / 16 -> n - Z.log2 (valp p r) < Z.of_nat fuel ->
  sniff_loop fuel r (at_bit n) (n + 1) = Ok (Z.log2 (valp p r) + 1, at_bit (Z.log2 (valp p r))).
Proof.
  intros Hr. induction fuel as [|fuel IH]; intros n Hn Hv Hq Hf.
  - pose proof (Z.log2_lt_pow2 (valp p r) (n + 1) ltac:(lia)). lia.
  - cbn [sniff_loop]. rewrite (sniff_ok p) by assumption. cbn [mbind res_bind]. assert (Z.log2 (valp p r) <= n) as Hlog by (assert (Z.log2 (valp p r) < n + 1) by (apply Z.log2_lt_pow2; lia); lia).
    destruct (Z.testbit (valp p r) n) eqn:E; cbn [negb].
    + assert (n = Z.log2 (valp p r)) as <-; [|reflexivity]. destruct (Z.le_gt_cases n (Z.log2 (valp p r))); [lia|]. rewrite Z.bits_above_log2 in E by lia. discriminate.
    + assert (Z.log2 (valp p r) <> n) as Hne by (intros En; rewrite <- En, Z.bit_log2 in E by lia; discriminate). pose proof (Z.log2_nonneg (valp p r)).
      assert (((at_bit n).1, (at_bit n).2 ≫ 1) = at_bit (n - 1)) as ->.
      { rewrite <- bump_ok. unfold bump_bitsniffer. destruct (Z.eqb_spec ((at_bit n).2 ≫ 1) 0) as [E0|]; [exfalso|reflexivity].
        unfold at_bit in E0. cbn [snd] in E0. rewrite Z.shiftr_div_pow2 in E0 by lia. change (2 ^ 1) with 2 in E0. assert (n mod 16 <> 0) by dlia.
        assert (2 ^ (n mod 16) = 2 * 2 ^ (n mod 16 - 1)) as E1 by (rewrite <- Z.pow_succ_r by dlia; f_equal; lia). rewrite E1, Z.mul_comm, Z.div_mul in E0 by lia.
        assert (0 < 2 ^ (n mod 16 - 1)) by (apply Z.pow_pos_nonneg; dlia). lia. }
      replace (n + 1 - 1) with (n - 1 + 1) by lia. apply IH; [lia| |dlia|lia].
      split; [lia|]. replace (n - 1 + 1) with n by lia. apply Z.log2_lt_pow2; lia.
Qed.

Lemma init_bitsniffer_ok p r : (0 < p)%nat -> reg p r ->
  init_bitsniffer p r = Ok (if valp p r =? 0 then None else Some (Z.log2 (valp p r) + 1, at_bit (Z.log2 (valp p r)))).
Proof.
  intros Hp Hr. unfold init_bitsniffer. destruct (significance_ok p r Hp Hr) as (n & -> & Hn & Ev & Hlo). cbn [mbind res_bind]. destruct (Nat.eqb_spec n 0) as [->|Hne].
  - rewrite Ev. change (valp 0 r) with 0. reflexivity.
  - specialize (Hlo ltac:(lia)). destruct n as [|n]; [lia|]. cbn [pred] in Hlo. pose proof (radix_pos n). rewrite (proj2 (Z.eqb_neq _ _)) by lia.
    pose proof (valp_range _ _ (reg_le _ _ _ Hr Hn)) as Hhi. rewrite <- Ev in Hhi. rewrite radix_pow in Hlo, Hhi.
    assert (16 * Z.of_nat n <= Z.log2 (valp p r) < 16 * Z.of_nat (S n)) as Hlog by (split; [apply Z.log2_le_pow2; lia|apply Z.log2_lt_pow2; lia]).
    unfold units2bits, uppermostbit. rewrite Z.shiftl_mul_pow2 by lia. change (2 ^ 4) with 16.
    assert ((Z.of_nat (S n) - 1, 0x8000) = at_bit (16 * Z.of_nat n + 15)) as -> by (unfold at_bit; f_equal; [dlia|replace ((16 * Z.of_nat n + 15) mod 16) with 15 by dlia; reflexivity]).
    replace (Z.of_nat (S n) * 16) with (16 * Z.of_nat n + 15 + 1) by lia. rewrite (sniff_loop_ok 16 p) by (assumption || lia || (replace (16 * Z.of_nat n + 15 + 1) with (16 * Z.of_nat (S n)) by lia; lia) || dlia). reflexivity.
Qed.

Lemma countbits_ok p r : (0 < p)%nat -> reg p r -> countbits p r = Ok (if valp p r =? 0 then 0 else Z.log2 (valp p r) + 1).
Proof. intros Hp Hr. unfold countbits. rewrite init_bitsniffer_ok by assumption. cbn [mbind res_bind]. destruct (valp p r =? 0); reflexivity. Qed.
End Sniffers.

(** * The loops *)

Section Loops.
Implicit Types (r s : list Z) (p : nat) (n x y d D : Z).

(** [st n] is the state when [n] bits are left. *)
Lemma for_bits_states {A} (st : Z -> A) (body : A -> res A) bits : 0 <= bits ->
  (forall n, 0 <= n < bits -> body (st (n + 1)) = Ok (st n)) -> for_bits bits body (st bits) = Ok (st 0).
Proof.
  intros Hb Hbody. unfold for_bits. pose proof (cfor_states (fun k => st (bits - Z.of_nat k)) (fun _ => body) (Z.to_nat bits) 0) as H. cbv beta in H.
  change (Z.of_nat 0) with 0 in H. rewrite Z.sub_0_r, Z2Nat.id, Z.sub_diag in H by lia. apply H. intros k Hk.
  replace (bits - Z.of_nat k) with (bits - Z.of_nat (S k) + 1) by lia. apply Hbody. lia.
Qed.
Lemma for_bits_inv {A} (I : Z -> A -> Prop) (body : A -> res A) bits a0 : 0 <= bits -> I bits a0 ->
  (forall n a, 0 <= n < bits -> I (n + 1) a -> okp (body a) (I n)) -> okp (for_bits bits body a0) (I 0).
Proof.
  intros Hb Hs Hbody. unfold for_bits. eapply okp_mono; [apply (okp_cfor (fun k a => I (bits - k) a) (fun _ => body) (Z.to_nat bits) 0 a0)|].
  - rewrite Z.sub_0_r. exact Hs.
  - intros k a Hk Ha. replace (bits - (k + 1)) with (bits - k - 1) by lia. apply Hbody; [lia|]. replace (bits - k - 1 + 1) with (bits - k) by lia. exact Ha.
  - intros a Ha. replace (bits - (0 + Z.of_nat (Z.to_nat bits))) with 0 in Ha by lia. exact Ha.
Qed.

(** The bits of a number from the top. *)
Lemma prefix_step D n : 0 <= n -> D / 2 ^ n = 2 * (D / 2 ^ (n + 1)) + Z.b2z (Z.testbit D n).
Proof.
  intros Hn. assert (0 < 2 ^ n) by lia. rewrite Z.pow_add_r by lia. change (2 ^ 1) with 2. rewrite <- Z.div_div by lia. rewrite Z.testbit_spec' by lia. apply Z.div_mod. lia.
Qed.
Lemma prefix_bound p D n : 0 <= D < radix p -> 0 <= n -> 0 <= D / 2 ^ (n + 1) /\ 2 * (D / 2 ^ (n + 1)) + Z.b2z (Z.testbit D n) < radix p.
Proof.
  intros HD Hn. rewrite <- prefix_step by exact Hn. assert (0 < 2 ^ n) by lia. assert (0 < 2 ^ (n + 1)) by lia. split; [apply Z.div_pos; lia|].
  apply Z.le_lt_trans with D; [|lia]. apply Z.div_le_upper_bound; nia.
Qed.
Lemma prefix_top D n : 0 <= D -> Z.log2 D < n -> D / 2 ^ n = 0.
Proof. intros HD Hn. apply Z.div_small. split; [exact HD|]. pose proof (Z.log2_nonneg D). destruct (Z.eq_dec D 0) as [->|]; [apply Z.pow_pos_nonneg; lia|]. apply Z.log2_lt_pow2; lia. Qed.
Lemma div_step A d c : 0 < d ->
  let R := 2 * (A mod d) + Z.b2z c in
  0 <= R < 2 * d /\ (2 * A + Z.b2z c) / d = 2 * (A / d) + Z.b2z (d <=? R) /\ (2 * A + Z.b2z c) mod d = R - d * Z.b2z (d <=? R).
Proof.
  intros Hd R. pose proof (Z.mod_pos_bound A d Hd). pose proof (Z.div_mod A d ltac:(lia)) as E. assert (0 <= Z.b2z c <= 1) by (destruct c; cbn; lia).
  assert (0 <= R < 2 * d) as HR by lia. split; [exact HR|].
  assert (2 * A + Z.b2z c = d * (2 * (A / d) + Z.b2z (d <=? R)) + (R - d * Z.b2z (d <=? R))) as E2 by lia.
  assert (0 <= R - d * Z.b2z (d <=? R) < d) as Hr by (destruct (Z.leb_spec d R); cbn [Z.b2z]; lia).
  split; [symmetry; apply (Z.div_unique _ _ _ _ (or_introl Hr) E2)|symmetry; apply (Z.mod_unique _ _ _ _ (or_introl Hr) E2)].
Qed.
Lemma bits_range p D : 0 < D < radix p -> 0 <= Z.log2 D < 16 * Z.of_nat p.
Proof. intros HD. split; [apply Z.log2_nonneg|]. apply Z.log2_lt_pow2; [lia|]. rewrite <- radix_pow. lia. Qed.
Lemma cmpz_ge x y : (0 <=? cmpz x y) = (y <=? x).
Proof. unfold cmpz. destruct (Z.ltb_spec x y), (Z.ltb_spec y x), (Z.leb_spec y x); lia || reflexivity. Qed.

(** A shifted remainder is reduced. *)
Lemma reduce_ok p r s A c d : (0 < p)%nat -> reg p r -> reg p s -> valp p s = d -> 0 < d -> 0 <= A -> 2 * A + Z.b2z c < radix p ->
  mp_rotate_left p (put p r (A mod d)) c = Ok (put p r (2 * (A mod d) + Z.b2z c), radix p <=? 2 * (A mod d) + Z.b2z c) /\
  mp_compare p (put p r (2 * (A mod d) + Z.b2z c)) s = Ok (cmpz (2 * (A mod d) + Z.b2z c) d) /\
  mp_sub p (put p r (2 * (A mod d) + Z.b2z c)) s = Ok (put p r (2 * (A mod d) + Z.b2z c - d), 2 * (A mod d) + Z.b2z c - d <? 0).
Proof.
  intros Hp Hr Hs E Hd HA Hrad. destruct (div_step A d c Hd) as (HR & _). pose proof (Z.mod_pos_bound A d Hd). pose proof (Z.mod_le A d HA Hd). assert (0 <= Z.b2z c <= 1) by (destruct c; cbn; lia).
  rewrite mp_rotate_left_ok by apply put_reg, Hr. rewrite mp_compare_ok by (try apply put_reg; assumption). unfold mp_sub. rewrite mp_subb_ok by (try apply put_reg; assumption).
  rewrite !valp_put, !put_put, (Z.mod_small (A mod d) (radix p)), (Z.mod_small (2 * (A mod d) + Z.b2z c) (radix p)), E by lia. change (Z.b2z false) with 0. rewrite Z.sub_0_r. split; [reflexivity|]. split; reflexivity.
Qed.

Lemma udiv_body_ok p rem quo s t D d n : (0 < p)%nat -> reg p rem -> reg p quo -> reg p s -> reg p t -> valp p s = D -> valp p t = d -> 0 < d -> 0 <= n < 16 * Z.of_nat p ->
  udiv_body p s t (put p rem (D / 2 ^ (n + 1) mod d), put p quo (D / 2 ^ (n + 1) / d * 2 ^ (n + 1)), at_bit n) =
  Ok (put p rem (D / 2 ^ n mod d), put p quo (D / 2 ^ n / d * 2 ^ n), at_bit (n - 1)).
Proof.
  intros Hp Hr Hq Hs Ht ED Ed Hd Hn. unfold udiv_body. rewrite (sniff_ok p), ED by assumption. cbn [mbind res_bind].
  pose proof (prefix_bound p D n ltac:(rewrite <- ED; apply valp_range, Hs) ltac:(lia)) as [HA Hrad]. set (A := D / 2 ^ (n + 1)) in *. set (c := Z.testbit D n) in *. destruct (reduce_ok p rem t A c d Hp Hr Ht Ed Hd HA Hrad) as (-> & Ec & Es). cbn [mbind res_bind]. rewrite Ec. cbn [mbind res_bind]. rewrite cmpz_ge.
  rewrite (prefix_step D n) by lia. fold A c. destruct (div_step A d c Hd) as (HR & Eq & Em). rewrite Eq, Em.
  assert (0 <= A / d * 2 ^ (n + 1) < radix p) as Hbound.
  { pose proof (valp_range p s Hs) as HD. rewrite ED in HD. assert (0 <= A / d) by (apply Z.div_pos; lia). assert (A / d <= A) by (apply Z.div_le_upper_bound; nia).
    pose proof (Z.mul_div_le D (2 ^ (n + 1)) ltac:(lia)). split; [lia|]. apply Z.le_lt_trans with D; [|lia]. fold A in H1. nia. }
  destruct (Z.leb_spec d (2 * (A mod d) + Z.b2z c)) as [Hle|Hgt]; cbn [Z.b2z].
  - rewrite Es. cbn [mbind res_bind]. rewrite (stuff_ok p) by (try (apply put_reg; assumption); try assumption; rewrite valp_put, (Z.mod_small _ (radix p) Hbound); apply Z.mul_pow2_bits_low; lia).
    rewrite valp_put, put_put, (Z.mod_small _ (radix p) Hbound). cbn [mbind res_bind mret res_ret]. rewrite bump_ok, Z.pow_add_r by lia. do 4 f_equal; lia.
  - cbn [mbind res_bind mret res_ret]. rewrite bump_ok, Z.pow_add_r by lia. do 4 f_equal; lia.
Qed.

Lemma udiv_loop_ok p rem quo s t : (0 < p)%nat -> reg p rem -> reg p quo -> reg p s -> reg p t -> 0 < valp p s -> 0 < valp p t ->
  for_bits (Z.log2 (valp p s) + 1) (udiv_body p s t) (put p rem 0, put p quo 0, at_bit (Z.log2 (valp p s))) =
  Ok (put p rem (valp p s mod valp p t), put p quo (valp p s / valp p t), at_bit (-1)).
Proof.
  intros Hp Hr Hq Hs Ht HD Hd. set (D := valp p s) in *. set (d := valp p t) in *.
  pose proof (for_bits_states (fun n => (put p rem (D / 2 ^ n mod d), put p quo (D / 2 ^ n / d * 2 ^ n), at_bit (n - 1))) (udiv_body p s t) (Z.log2 D + 1)) as H. cbv beta in H.
  pose proof (valp_range p s Hs) as Hs'. fold D in Hs'. pose proof (bits_range p D ltac:(lia)) as Hlog.
  rewrite prefix_top, Zmod_0_l, Zdiv_0_l, Z.mul_0_l, Z.add_simpl_r in H by lia. rewrite H; [|lia|].
  - change (2 ^ 0) with 1. rewrite Z.div_1_r, Z.mul_1_r. reflexivity.
  - intros n Hn. rewrite Z.add_simpl_r. apply udiv_body_ok; (assumption || reflexivity || lia).
Qed.

Lemma mp_udiv_ok p rem quo s t : (0 < p)%nat -> reg p rem -> reg p quo -> reg p s -> reg p t -> 0 < valp p t ->
  mp_udiv p rem quo s t = Ok (0, put p rem (valp p s mod valp p t), put p quo (valp p s / valp p t)).
Proof.
  intros Hp Hr Hq Hs Ht Hd. unfold mp_udiv. assert (inU 16 0) as H0 by (unfold inU; lia). rewrite testeq_ok by assumption. cbn [mbind res_bind].
  rewrite (proj2 (Z.eqb_neq _ _)) by lia. rewrite !mp_init_ok by (try assumption; apply Hr || apply Hq). cbn [mbind res_bind]. rewrite init_bitsniffer_ok by assumption. cbn [mbind res_bind].
  destruct (Z.eqb_spec (valp p s) 0) as [->|Hne]; [rewrite Zmod_0_l, Zdiv_0_l; reflexivity|].
  pose proof (valp_range p s Hs). rewrite udiv_loop_ok by (assumption || lia). reflexivity.
Qed.

Lemma mod_body_ok p rem s t D d n : (0 < p)%nat -> reg p rem -> reg p s -> reg p t -> valp p s = D -> valp p t = d -> 0 < d -> 0 <= n < 16 * Z.of_nat p ->
  mod_body p s t (put p rem (D / 2 ^ (n + 1) mod d), at_bit n) = Ok (put p rem (D / 2 ^ n mod d), at_bit (n - 1)).
Proof.
  intros Hp Hr Hs Ht ED Ed Hd Hn. unfold mod_body. rewrite (sniff_ok p), ED by assumption. cbn [mbind res_bind].
  pose proof (prefix_bound p D n ltac:(rewrite <- ED; apply valp_range, Hs) ltac:(lia)) as [HA Hrad]. rewrite (prefix_step D n) by lia.
  set (A := D / 2 ^ (n + 1)) in *. set (c := Z.testbit D n) in *. destruct (reduce_ok p rem t A c d Hp Hr Ht Ed Hd HA Hrad) as (-> & Ec & Es). cbn [mbind res_bind]. rewrite Ec. cbn [mbind res_bind].
  rewrite cmpz_ge, bump_ok. destruct (div_step A d c Hd) as (HR & _ & ->). destruct (Z.leb_spec d (2 * (A mod d) + Z.b2z c)) as [Hle|Hgt]; cbn [Z.b2z].
  - rewrite Es. cbn [mbind res_bind mret res_ret]. do 3 f_equal. lia.
  - cbn [mbind res_bind mret res_ret]. do 3 f_equal. lia.
Qed.

Lemma mp_mod_ok p rem s t : (0 < p)%nat -> reg p rem -> reg p s -> reg p t -> 0 < valp p t -> mp_mod p rem s t = Ok (0, put p rem (valp p s mod valp p t)).
Proof.
  intros Hp Hr Hs Ht Hd. unfold mp_mod. assert (inU 16 0) as H0 by (unfold inU; lia). rewrite testeq_ok by assumption. cbn [mbind res_bind].
  rewrite (proj2 (Z.eqb_neq _ _)) by lia. rewrite mp_init_ok by (try assumption; apply Hr). cbn [mbind res_bind]. rewrite init_bitsniffer_ok by assumption. cbn [mbind res_bind].
  destruct (Z.eqb_spec (valp p s) 0) as [->|Hne]; [rewrite Zmod_0_l; reflexivity|]. pose proof (valp_range p s Hs) as Hs'. set (D := valp p s) in *. set (d := valp p t) in *.
  pose proof (for_bits_states (fun n => (put p rem (D / 2 ^ n mod d), at_bit (n - 1))) (mod_body p s t) (Z.log2 D + 1)) as H. cbv beta in H.
  pose proof (bits_range p D ltac:(lia)) as Hlog. rewrite prefix_top, Zmod_0_l, Z.add_simpl_r in H by lia. rewrite H; [|lia|].
  - change (2 ^ 0) with 1. rewrite Z.div_1_r. reflexivity.
  - intros n Hn. rewrite Z.add_simpl_r. apply mod_body_ok; (assumption || reflexivity || lia).
Qed.

(** A short remainder; the doubled remainder must fit in 16 bits. *)
Lemma short_step D d n c R : 0 < d <= 32768 -> R = 2 * (D / 2 ^ (n + 1) mod d) + Z.b2z c ->
  (if c : bool then u16 (u16 ((D / 2 ^ (n + 1) mod d) ≪ 1) + 1) else u16 ((D / 2 ^ (n + 1) mod d) ≪ 1)) = R /\ 0 <= R < 2 * d /\ (d <= R -> u16 (R - d) = R - d).
Proof.
  intros Hd ER. pose proof (Z.mod_pos_bound (D / 2 ^ (n + 1)) d ltac:(lia)) as Hm. set (m := _ mod d) in *. rewrite Z.shiftl_mul_pow2 by lia. change (2 ^ 1) with 2.
  rewrite (u16_mod (m * 2)), (Z.mod_small (m * 2)) by lia. destruct c; cbn [Z.b2z] in ER |- *; (split; [|split; [lia|intros HR; rewrite u16_mod; apply Z.mod_small; lia]]).
  - rewrite u16_mod, Z.mod_small; lia.
  - lia.
Qed.

Lemma quo_bound D d n p : 0 <= D < radix p -> 0 < d -> 0 <= n -> 0 <= D / 2 ^ n / d * 2 ^ n < radix p.
Proof.
  intros HD Hd Hn. assert (0 <= D / 2 ^ n) by (apply Z.div_pos; lia). assert (0 <= D / 2 ^ n / d) by (apply Z.div_pos; lia). assert (D / 2 ^ n / d <= D / 2 ^ n) by (apply Z.div_le_upper_bound; nia).
  pose proof (Z.mul_div_le D (2 ^ n) ltac:(lia)). split; [lia|]. apply Z.le_lt_trans with D; [|lia]. nia.
Qed.

Lemma shortdiv_body_ok p quo s D d n : reg p quo -> reg p s -> valp p s = D -> 0 < d <= 32768 -> 0 <= n < 16 * Z.of_nat p ->
  shortdiv_body s d (D / 2 ^ (n + 1) mod d, put p quo (D / 2 ^ (n + 1) / d * 2 ^ (n + 1)), at_bit n) = Ok (D / 2 ^ n mod d, put p quo (D / 2 ^ n / d * 2 ^ n), at_bit (n - 1)).
Proof.
  intros Hq Hs ED Hd Hn. unfold shortdiv_body. rewrite (sniff_ok p), ED by assumption. cbn [mbind res_bind]. rewrite (prefix_step D n) by lia.
  pose proof (quo_bound D d (n + 1) p ltac:(rewrite <- ED; apply valp_range, Hs) ltac:(lia) ltac:(lia)) as Hb.
  destruct (short_step D d n (Z.testbit D n) _ Hd eq_refl) as (-> & HR & Hu). destruct (div_step (D / 2 ^ (n + 1)) d (Z.testbit D n) ltac:(lia)) as (_ & -> & ->).
  set (A := D / 2 ^ (n + 1)) in *. set (R := 2 * (A mod d) + _) in *. destruct (Z.leb_spec d R) as [Hle|Hgt]; cbn [Z.b2z].
  - rewrite (stuff_ok p) by (try (apply put_reg; assumption); try assumption; rewrite valp_put, (Z.mod_small _ (radix p) Hb); apply Z.mul_pow2_bits_low; lia).
    rewrite valp_put, put_put, (Z.mod_small _ (radix p) Hb), Hu by lia. cbn [mbind res_bind mret res_ret]. rewrite bump_ok, Z.pow_add_r by lia. do 3 f_equal; [lia|]. f_equal. lia.
  - cbn [mbind res_bind mret res_ret]. rewrite bump_ok, Z.pow_add_r by lia. do 3 f_equal; [lia|]. f_equal. lia.
Qed.

Lemma shortmod_body_ok p s D d n : reg p s -> valp p s = D -> 0 < d <= 32768 -> 0 <= n < 16 * Z.of_nat p ->
  shortmod_body s d (D / 2 ^ (n + 1) mod d, at_bit n) = Ok (D / 2 ^ n mod d, at_bit (n - 1)).
Proof.
  intros Hs ED Hd Hn. unfold shortmod_body. rewrite (sniff_ok p), ED by assumption. cbn [mbind res_bind mret res_ret]. rewrite (prefix_step D n) by lia.
  destruct (short_step D d n (Z.testbit D n) _ Hd eq_refl) as (-> & HR & Hu). destruct (div_step (D / 2 ^ (n + 1)) d (Z.testbit D n) ltac:(lia)) as (_ & _ & ->).
  rewrite bump_ok. do 2 f_equal. destruct (Z.leb_spec d (2 * (D / 2 ^ (n + 1) mod d) + Z.b2z (Z.testbit D n))) as [Hle|Hgt]; cbn [Z.b2z]; [rewrite Hu by exact Hle|]; lia.
Qed.

Lemma mp_shortdiv_ok p quo s d : (0 < p)%nat -> reg p quo -> reg p s -> 0 < d <= 32768 ->
  mp_shortdiv p quo s d = Ok (valp p s mod d, put p quo (valp p s / d)) /\ mp_shortmod p s d = Ok (valp p s mod d).
Proof.
  intros Hp Hq Hs Hd. unfold mp_shortdiv, mp_shortmod. rewrite (proj2 (Z.eqb_neq _ _)) by lia. rewrite mp_init_ok by (try assumption; (apply Hq || (unfold inU; lia))). cbn [mbind res_bind].
  rewrite init_bitsniffer_ok by assumption. cbn [mbind res_bind]. destruct (Z.eqb_spec (valp p s) 0) as [->|Hne]; [rewrite Zmod_0_l, Zdiv_0_l; auto|].
  pose proof (valp_range p s Hs) as Hs'. set (D := valp p s) in *. pose proof (bits_range p D ltac:(lia)) as Hlog.
  pose proof (for_bits_states (fun n => (D / 2 ^ n mod d, put p quo (D / 2 ^ n / d * 2 ^ n), at_bit (n - 1))) (shortdiv_body s d) (Z.log2 D + 1)) as H. cbv beta in H.
  pose proof (for_bits_states (fun n => (D / 2 ^ n mod d, at_bit (n - 1))) (shortmod_body s d) (Z.log2 D + 1)) as H'. cbv beta in H'.
  rewrite prefix_top, Zmod_0_l, Zdiv_0_l, Z.mul_0_l, Z.add_simpl_r in H by lia. rewrite prefix_top, Zmod_0_l, Z.add_simpl_r in H' by lia. rewrite H, H'; try lia.
  - change (2 ^ 0) with 1. rewrite Z.div_1_r, Z.mul_1_r. auto.
  - intros n Hn. rewrite Z.add_simpl_r. apply (shortmod_body_ok p); (assumption || reflexivity || lia).
  - intros n Hn. rewrite Z.add_simpl_r. apply (shortdiv_body_ok p); (assumption || reflexivity || lia).
Qed.

Lemma mult_body_ok p prod s t n : (0 < p)%nat -> reg p prod -> reg p s -> reg p t -> 0 <= n < 16 * Z.of_nat p ->
  mult_body p s t (put p prod (valp p s * (valp p t / 2 ^ (n + 1))), at_bit n) = Ok (put p prod (valp p s * (valp p t / 2 ^ n)), at_bit (n - 1)).
Proof.
  intros Hp Hr Hs Ht Hn. unfold mult_body, mp_shift_left, mp_add. rewrite mp_rotate_left_ok by apply put_reg, Hr. cbn [mbind res_bind]. rewrite (sniff_ok p) by assumption. cbn [mbind res_bind].
  rewrite valp_put, put_put, (prefix_step (valp p t) n) by lia. change (Z.b2z false) with 0. rewrite Z.add_0_r. set (A := valp p t / 2 ^ (n + 1)). set (M := valp p s).
  assert (put p prod (2 * ((M * A) mod radix p)) = put p prod (2 * (M * A))) as -> by (apply put_ext; rewrite Z.mul_mod_idemp_r by (pose proof (radix_pos p); lia); reflexivity).
  rewrite bump_ok. destruct (Z.testbit (valp p t) n); cbn [Z.b2z mbind res_bind mret res_ret].
  - rewrite mp_addc_ok by (try apply put_reg; assumption). cbn [mbind res_bind mret res_ret Z.b2z]. rewrite valp_put, put_put, Z.add_0_r. do 2 f_equal.
    apply put_ext. rewrite Z.add_mod_idemp_l by (pose proof (radix_pos p); lia). f_equal. unfold M. lia.
  - do 3 f_equal. lia.
Qed.

Lemma mp_mult_ok p prod s t : (0 < p)%nat -> reg p prod -> reg p s -> reg p t -> mp_mult p prod s t = Ok (put p prod (valp p s * valp p t)).
Proof.
  intros Hp Hr Hs Ht. unfold mp_mult. assert (inU 16 0) as H0 by (unfold inU; lia). rewrite mp_init_ok by (try assumption; apply Hr). cbn [mbind res_bind]. rewrite testeq_ok by assumption. cbn [mbind res_bind].
  destruct (Z.eqb_spec (valp p s) 0) as [->|Hs0]; [reflexivity|]. rewrite init_bitsniffer_ok by assumption. cbn [mbind res_bind].
  destruct (Z.eqb_spec (valp p t) 0) as [->|Hne]; [rewrite Z.mul_0_r; reflexivity|]. pose proof (valp_range p t Ht) as Ht'. pose proof (bits_range p (valp p t) ltac:(lia)) as Hlog.
  pose proof (for_bits_states (fun n => (put p prod (valp p s * (valp p t / 2 ^ n)), at_bit (n - 1))) (mult_body p s t) (Z.log2 (valp p t) + 1)) as H. cbv beta in H.
  rewrite prefix_top, Z.mul_0_r, Z.add_simpl_r in H by lia. rewrite H; [|lia|].
  - change (2 ^ 0) with 1. rewrite Z.div_1_r. reflexivity.
  - intros n Hn. rewrite Z.add_simpl_r. apply mult_body_ok; (assumption || lia).
Qed.

(** [mp_setbit] and the first sniffer of [mp_recip]. *)
Lemma bit_index_ok n : 0 <= n -> bit_index n = n / 16.
Proof. intros Hn. unfold bit_index, bits2units. rewrite Z.shiftr_div_pow2 by lia. change (2 ^ 4) with 16. dlia. Qed.
Lemma bitmsk_ok n : 0 <= n -> bitmsk n = 2 ^ (n mod 16).
Proof.
  intros Hn. unfold bitmsk. change 15 with (Z.ones 4). rewrite Z.land_ones, Z.shiftl_1_l by lia. change (2 ^ 4) with 16. apply Z.mod_small.
  pose proof (Z.mod_pos_bound n 16 ltac:(lia)). split; [lia|apply Z.pow_lt_mono_r; lia].
Qed.
Lemma mp_setbit_ok r n : 0 <= n -> mp_setbit r n = stuff_bit r (at_bit n).
Proof. intros Hn. unfold mp_setbit, stuff_bit, at_bit. rewrite bit_index_ok, bitmsk_ok by exact Hn. reflexivity. Qed.

(** What the loop of [mp_recip] keeps: the quotient may be too small by one, which happens for powers of two. *)
Definition recip_inv p (rem quo : list Z) d bits n (st : list Z * list Z * sniffer) : Prop :=
  exists q R, st = (put p rem R, put p quo (q * 2 ^ (n + 1)), at_bit n) /\ 0 <= R <= d /\ 0 <= q < 2 ^ (bits - n) /\ q * d + R = 2 ^ (2 * bits - 1 - n).

Lemma recip_body_ok p rem quo t d bits n st : (0 < p)%nat -> reg p rem -> reg p quo -> reg p t -> valp p t = d -> 0 < d -> 2 * d < radix p -> bits < 16 * Z.of_nat p -> 0 <= n < bits ->
  recip_inv p rem quo d bits (n + 1) st -> okp (recip_body p t st) (recip_inv p rem quo d bits n).
Proof.
  intros Hp Hr Hq Ht Ed Hd Hrad Hbits Hn (q & R & -> & HR & Hqq & E). unfold recip_body, mp_shift_left, mp_sub.
  rewrite mp_rotate_left_ok by apply put_reg, Hr. cbn [mbind res_bind]. rewrite valp_put, put_put, (Z.mod_small R), Z.add_0_r by lia.
  rewrite mp_compare_ok by (try apply put_reg; assumption). cbn [mbind res_bind]. rewrite valp_put, (Z.mod_small (2 * R)), Ed, cmpz_ge by lia.
  assert (2 ^ (bits - n) = 2 * 2 ^ (bits - (n + 1))) as Ep by (rewrite <- Z.pow_succ_r by lia; f_equal; lia).
  assert (2 ^ (2 * bits - 1 - n) = 2 * 2 ^ (2 * bits - 1 - (n + 1))) as Ep2 by (rewrite <- Z.pow_succ_r by lia; f_equal; lia).
  assert (2 ^ (n + 1 + 1) = 2 * 2 ^ (n + 1)) as Ep3 by (rewrite (Z.pow_add_r 2 (n + 1)) by lia; lia).
  assert (0 <= q * 2 ^ (n + 1 + 1) < radix p) as Hb.
  { split; [lia|]. apply Z.lt_le_trans with (2 ^ (bits - (n + 1)) * 2 ^ (n + 1 + 1)); [apply Z.mul_lt_mono_pos_r; lia|]. rewrite radix_pow, <- Z.pow_add_r by lia. apply Z.pow_le_mono_r; lia. }
  destruct (Z.leb_spec d (2 * R)) as [Hle|Hgt].
  - rewrite mp_subb_ok by (try apply put_reg; assumption). cbn [mbind res_bind]. rewrite (stuff_ok p) by (try (apply put_reg; assumption); try lia; rewrite valp_put, (Z.mod_small _ (radix p) Hb); apply Z.mul_pow2_bits_low; lia).
    cbn [mbind res_bind mret res_ret okp]. rewrite !valp_put, !put_put, (Z.mod_small _ (radix p) Hb), (Z.mod_small (2 * R)), bump_ok by lia. cbn [Z.b2z].
    exists (2 * q + 1), (2 * R - d). split; [f_equal; [f_equal; f_equal; lia|f_equal; lia]|]. lia.
  - cbn [mbind res_bind mret res_ret okp]. rewrite bump_ok. exists (2 * q), (2 * R). split; [f_equal; [f_equal; f_equal; lia|f_equal; lia]|]. lia.
Qed.

(** The reciprocal: [2^(2*bits)] over the divisor, but for the last two bits. *)
Lemma mp_recip_ok p quo t bits : (0 < p <= MAX_UNIT_PRECISION)%nat -> reg p quo -> reg p t -> 0 < valp p t -> 2 * valp p t < radix p -> bits = Z.log2 (valp p t) + 1 ->
  exists q R, mp_recip p quo t = Ok (0, put p quo (2 * q)) /\ 0 <= R <= valp p t /\ 0 <= q < 2 ^ bits /\ q * valp p t + R = 2 ^ (2 * bits - 1).
Proof.
  intros [Hp HpM] Hq Ht Hd Hrad Ebits. set (d := valp p t) in *. unfold mp_recip. assert (inU 16 0) as H0 by (unfold inU; lia). rewrite testeq_ok by assumption. cbn [mbind res_bind]. fold d.
  rewrite (proj2 (Z.eqb_neq _ _)) by lia. set (rem := replicate MAX_UNIT_PRECISION 0). assert (reg p rem) as Hr by (split; [unfold rem; rewrite length_replicate; exact HpM|apply Forall_replicate, H0]).
  rewrite !mp_init_ok by (assumption || apply Hr || apply Hq). cbn [mbind res_bind]. rewrite countbits_ok by assumption. cbn [mbind res_bind]. fold d. rewrite (proj2 (Z.eqb_neq _ _)) by lia. rewrite <- Ebits.
  pose proof (Z.log2_nonneg d). assert (2 ^ (bits - 1) <= d < 2 ^ bits) as Hlog by (pose proof (Z.log2_spec d Hd) as [H1 H2]; rewrite Ebits, Z.add_simpl_r; auto).
  assert (bits < 16 * Z.of_nat p) as Hbits.
  { rewrite radix_pow in Hrad. assert (2 ^ bits = 2 * 2 ^ (bits - 1)) as E2 by (rewrite <- Z.pow_succ_r by lia; f_equal; lia). apply (Z.pow_lt_mono_r_iff 2); lia. }
  rewrite mp_setbit_ok, (stuff_ok p) by (try apply put_reg; try assumption; try lia; rewrite valp_put, Z.mod_0_l by (pose proof (radix_pos p); lia); apply Z.bits_0). cbn [mbind res_bind].
  rewrite valp_put, put_put, Z.mod_0_l, Z.add_0_l by (pose proof (radix_pos p); lia).
  assert ((bits2units (bits + 1) - 1, bitmsk bits) = at_bit bits) as -> by (unfold at_bit; rewrite bitmsk_ok by lia; fold (bit_index bits); rewrite bit_index_ok by lia; reflexivity).
  pose proof (for_bits_inv (recip_inv p rem quo d bits) (recip_body p t) bits (put p rem (2 ^ (bits - 1)), put p quo 0, at_bit bits)) as H1.
  apply okp_ok in H1 as (st & -> & q & R & -> & HR & Hqq & E); [|lia| |].
  - exists q, R. cbn [mbind res_bind mret res_ret]. rewrite Z.sub_0_r in *. split; [|auto]. do 3 f_equal. change (2 ^ (0 + 1)) with 2. lia.
  - exists 0, (2 ^ (bits - 1)). rewrite Z.sub_diag, Z.mul_0_l. split; [reflexivity|]. split; [lia|]. split; [lia|]. rewrite Z.add_0_l. f_equal. lia.
  - intros n a Hn Ha. apply (recip_body_ok p rem quo t d bits n a); assumption || reflexivity.
Qed.

(** ** Signed division *)

Definition sval p r : Z := if radix p <=? 2 * valp p r then valp p r - radix p else valp p r.

Lemma quot_abs a b : b <> 0 -> Z.quot a b = if xorb (a <? 0) (b <? 0) then - (Z.abs a / Z.abs b) else Z.abs a / Z.abs b.
Proof.
  intros Hb. rewrite <- Z.quot_div_nonneg by lia. destruct (Z.ltb_spec a 0), (Z.ltb_spec b 0); cbn [xorb];
    [rewrite (Z.abs_neq a), (Z.abs_neq b), Z.quot_opp_opp by lia; reflexivity|rewrite (Z.abs_neq a), (Z.abs_eq b), Z.quot_opp_l by lia; lia
    |rewrite (Z.abs_eq a), (Z.abs_neq b), Z.quot_opp_r by lia; lia|rewrite (Z.abs_eq a), (Z.abs_eq b) by lia; reflexivity].
Qed.
Lemma rem_abs a b : b <> 0 -> Z.rem a b = if a <? 0 then - (Z.abs a mod Z.abs b) else Z.abs a mod Z.abs b.
Proof.
  intros Hb. rewrite <- Z.rem_mod_nonneg, Z.rem_abs_r by lia. destruct (Z.ltb_spec a 0); [rewrite (Z.abs_neq a), Z.rem_opp_l by lia; lia|rewrite (Z.abs_eq a) by lia; reflexivity].
Qed.

(** The magnitude in place, and back. *)
Lemma neg_if_ok p r : (0 < p)%nat -> reg p r ->
  (if sval p r <? 0 then mp_neg p r else mret r) = Ok (put p r (Z.abs (sval p r))) /\
  (if sval p r <? 0 then mp_neg p (put p r (Z.abs (sval p r))) else mret (put p r (Z.abs (sval p r)))) = Ok r /\
  0 <= Z.abs (sval p r) < radix p /\ (radix p <=? 2 * valp p r) = (sval p r <? 0).
Proof.
  intros Hp Hr. pose proof (valp_range p r Hr) as Hv. pose proof (radix_pos p).
  assert ((radix p <=? 2 * valp p r) = (sval p r <? 0)) as E by (unfold sval; destruct (Z.leb_spec (radix p) (2 * valp p r)); symmetry; [apply Z.ltb_lt|apply Z.ltb_ge]; lia).
  assert (0 <= Z.abs (sval p r) < radix p) as Hb by (unfold sval; destruct (Z.leb_spec (radix p) (2 * valp p r)); lia).
  destruct (Z.ltb_spec (sval p r) 0) as [Hneg|Hpos].
  - assert (sval p r = valp p r - radix p) as Es by (unfold sval in *; destruct (Z.leb_spec (radix p) (2 * valp p r)); lia).
    rewrite !mp_neg_ok by (try apply put_reg; assumption). rewrite valp_put, put_put. split; [|split; [|auto]]; f_equal.
    + apply put_ext. rewrite Es. rewrite Z.abs_neq by lia. replace (- valp p r) with (- (valp p r - radix p) + (-1) * radix p) by lia. apply Z.mod_add. lia.
    + rewrite <- (put_valp p r Hr) at 3. apply put_ext. rewrite (Z.mod_small (Z.abs _)), Es, Z.abs_neq by lia. replace (- - (valp p r - radix p)) with (valp p r + (-1) * radix p) by lia. apply Z.mod_add. lia.
  - assert (sval p r = valp p r) as Es by (unfold sval in *; destruct (Z.leb_spec (radix p) (2 * valp p r)); lia). rewrite Es, Z.abs_eq, put_valp by (assumption || lia). rewrite E. split; [reflexivity|]. split; [reflexivity|]. lia.
Qed.

Lemma put_neg_if p r (b : bool) x : (0 < p)%nat -> reg p r -> 0 <= x < radix p -> (if b then mp_neg p (put p r x) else mret (put p r x)) = Ok (put p r (if b then - x else x)).
Proof. intros Hp Hr Hx. destruct b; [|reflexivity]. rewrite mp_neg_ok by (try apply put_reg; assumption). rewrite valp_put, put_put, (Z.mod_small x) by exact Hx. reflexivity. Qed.

Lemma mp_div_ok p rem quo s t : (0 < p)%nat -> reg p rem -> reg p quo -> reg p s -> reg p t -> sval p t <> 0 ->
  mp_div p rem quo s t = Ok (0, put p rem (Z.rem (sval p s) (sval p t)), put p quo (Z.quot (sval p s) (sval p t)), s, t).
Proof.
  intros Hp Hr Hq Hs Ht Hd. unfold mp_div. rewrite !mp_tstminus_ok by assumption. cbn [mbind res_bind].
  destruct (neg_if_ok p s Hp Hs) as (Es1 & Es2 & Hbs & ->). destruct (neg_if_ok p t Hp Ht) as (Et1 & Et2 & Hbt & ->).
  rewrite Es1. cbn [mbind res_bind]. rewrite Et1. cbn [mbind res_bind]. assert (valp p (put p t (Z.abs (sval p t))) = Z.abs (sval p t)) as Et by (rewrite valp_put; apply Z.mod_small, Hbt).
  rewrite mp_udiv_ok by (try apply put_reg; try assumption; lia). rewrite Et, valp_put, (Z.mod_small (Z.abs (sval p s))) by exact Hbs. cbn [mbind res_bind].
  rewrite Es2. cbn [mbind res_bind]. rewrite Et2. cbn [mbind res_bind]. cbn [Z.ltb Z.compare]. set (a := sval p s) in *. set (b := sval p t) in *.
  assert (0 <= Z.abs a mod Z.abs b < radix p) as Hm by (pose proof (Z.mod_pos_bound (Z.abs a) (Z.abs b) ltac:(lia)); lia).
  assert (0 <= Z.abs a / Z.abs b < radix p) as Hdv by (split; [apply Z.div_pos; lia|apply Z.div_lt_upper_bound; nia]).
  rewrite !put_neg_if by assumption. cbn [mbind res_bind mret res_ret]. rewrite rem_abs, quot_abs by exact Hd. reflexivity.
Qed.
End Loops.

(** C18: Division, remainder and multiplication on registers are those of the integers:
    mp_udiv and mp_mod give quotient and remainder, mp_div those of the signed numbers rounded
    towards zero with the operands restored, mp_mult the product modulo the radix. *)
Theorem mpi_division p rem quo s t : (0 < p)%nat -> reg p rem -> reg p quo -> reg p s -> reg p t -> sval p t <> 0 ->
  mp_udiv p rem quo s t = Ok (0, put p rem (valp p s mod valp p t), put p quo (valp p s / valp p t)) /\
  mp_div p rem quo s t = Ok (0, put p rem (Z.rem (sval p s) (sval p t)), put p quo (Z.quot (sval p s) (sval p t)), s, t) /\
  mp_mod p rem s t = Ok (0, put p rem (valp p s mod valp p t)) /\
  mp_mult p rem s t = Ok (put p rem (valp p s * valp p t)).
Proof.
  intros Hp Hr Hq Hs Ht Hd. pose proof (valp_range p t Ht) as Hv. assert (0 < valp p t) by (unfold sval in Hd; destruct (Z.leb_spec (radix p) (2 * valp p t)); lia).
  rewrite mp_udiv_ok, mp_div_ok, mp_mod_ok, mp_mult_ok by assumption. auto.
Qed.

(** Division by a short divisor is exact for divisors up to 32768; for 32769 the 16-bit
    remainder overflows, and mp_shortmod of 65536 gives 0, not 32767. *)
Theorem short_division p quo s d : (0 < p)%nat -> reg p quo -> reg p s -> 0 < d <= 32768 ->
  mp_shortdiv p quo s d = Ok (valp p s mod d, put p quo (valp p s / d)) /\ mp_shortmod p s d = Ok (valp p s mod d) /\
  mp_shortmod 2 [0; 1] 32769 = Ok 0 /\ valp 2 [0; 1] mod 32769 = 32767.
Proof.
  intros Hp Hq Hs Hd. destruct (mp_shortdiv_ok p quo s d Hp Hq Hs Hd) as [-> ->]. split; [reflexivity|]. split; [reflexivity|]. split; vm_compute; reflexivity.
Qed.

Lemma mpi_division_witness : let s := [0xfffb; 0xffff] in let t := [3; 0] in let z := [0; 0] in (0 < 2)%nat /\ reg 2 z /\ reg 2 s /\ reg 2 t /\ sval 2 s = -5 /\ sval 2 t <> 0 /\
  mp_div 2 z z s t = Ok (0, put 2 z (-2), put 2 z (-1), s, t).
Proof.
  intros s t z. assert (reg 2 z) as Hz by by_eval. assert (reg 2 s) as Hs by by_eval. assert (reg 2 t) as Ht by by_eval. assert (sval 2 t <> 0) as Hd by (vm_compute; discriminate). assert (0 < 2)%nat as Hp by lia.
  split; [exact Hp|]. split; [exact Hz|]. split; [exact Hs|]. split; [exact Ht|]. split; [reflexivity|]. split; [exact Hd|]. exact (proj1 (proj2 (mpi_division 2 z z s t Hp Hz Hz Hs Ht Hd))).
Defined.

Lemma short_division_witness : let s := [1; 2; 3] in (0 < 3)%nat /\ reg 3 s /\ 0 < 10 <= 32768 /\ mp_shortdiv 3 s s 10 = Ok (valp 3 s mod 10, put 3 s (valp 3 s / 10)).
Proof.
  intros s. assert (reg 3 s) as Hs by by_eval. assert (0 < 3)%nat as Hp by lia. assert (0 < 10 <= 32768) as Hd by lia.
  split; [exact Hp|]. split; [exact Hs|]. split; [exact Hd|]. exact (proj1 (short_division 3 s s 10 Hp Hs Hs Hd)).
Defined.
