(* ===== verification/MpiSmith.v ===== *)
(** Modular multiplication in the multiprecision library of pgp (src/mibench/security/pgp/src/mpilib.c): the
    product by units, and Smith's reduction, which divides by a reciprocal of two units.

    Units and multiplication units have both 16 bits, as in the portable configuration; [unsigned long] has 32 or
    64 bits. The static variables of the algorithm are a record. *)
From stdpp Require Import base list numbers option tactics.
From Stdlib Require Import ZArith Lia Btauto.
From S2P Require Import Prelude Bytes Mpi MpiDiv.

(** * The code *)

Record smith := Smith {
  modulus : list Z; nbits : Z; ds_data : list Z; mod_quotient : list Z; mod_divisor : list Z;
  mshift : Z; reciph : Z; recipl : Z; modlenMULTUNITS : Z }.

Section Smith.
Context (dm : data_model).
Implicit Types (st : smith) (prod multiplicand multiplier d : list Z) (prec : nat).

(** [multiplier] is one unit. *)
Fixpoint smul_loop (n : nat) prod multiplicand (multiplier carry : Z) : res (list Z) :=
  match n with
  | O => '(x, prod) ← unit_next prod; mret (u16 (x + u16 carry) :: prod)
  | S n =>
      '(a, multiplicand) ← unit_next multiplicand; '(x, prod) ← unit_next prod;
      let p := uL dm (uL dm (multiplier * a) + uL dm (x + carry)) in
      prod ← smul_loop n prod multiplicand multiplier (p ≫ 16); mret (u16 p :: prod)
  end.
Definition mp_smul (munit_prec : nat) prod multiplicand (multiplier : Z) : res (list Z) := smul_loop munit_prec prod multiplicand multiplier 0.

Fixpoint dmul_loop (munit_prec n : nat) prod multiplicand multiplier : res (list Z) :=
  match n with
  | O => mret prod
  | S n =>
      '(b, multiplier) ← unit_next multiplier;
      prod ← mp_smul munit_prec prod multiplicand b;
      '(x, prod) ← unit_next prod; prod ← dmul_loop munit_prec n prod multiplicand multiplier; mret (x :: prod)
  end.
Definition mp_dmul prec prod multiplicand multiplier : res (list Z) :=
  prod ← unitfill0 prod (prec * 2); dmul_loop prec prec prod multiplicand multiplier.

Definition MULTUNIT_mask : Z := 0xffff.
(** The dividend ends at the index [i]; its units are complemented. *)
Definition mp_quo_digit st d (i : Z) : res Z :=
  d2 ← aget d i; d1 ← aget d (i - 1); d0 ← aget d (i - 2);
  let d2 := Z.lxor d2 MULTUNIT_mask in let d1 := Z.lxor d1 MULTUNIT_mask in let d0 := Z.lxor d0 MULTUNIT_mask in
  let q1 := uL dm (uL dm (d0 * reciph st) + reciph st) in
  let q2 := uL dm (uL dm (d1 * recipl st) + 1 ≪ 16) in
  let q0 := uL dm (q1 ≫ 1 + q2 ≫ 1 + 1) in
  let q1 := uL dm (d1 * reciph st) in
  let q2 := uL dm (d2 * recipl st) in
  let q := uL dm (q0 ≫ 16 + q1 ≫ 1 + q2 ≫ 1 + 1) in
  let q := uL dm (q ≫ (16 - 2) + uL dm (uL dm (d2 * reciph st) ≪ 1)) in
  let q := q ≫ mshift st in
  mret (u16 (if q <? 1 ≪ 16 - 1 then q else 1 ≪ 16 - 1)).

(** The pointer arithmetic of the copy of the three highest units stays inside the array if there are three. *)
Definition stage_smith_modulus prec st (n_modulus : list Z) : res smith :=
  modulus ← mp_move prec (modulus st) n_modulus;
  nbits ← countbits prec modulus;
  sigmod ← significance prec modulus;
  mod_divisor ← (if (3 <=? sigmod)%nat then mp_move 3 (mod_divisor st) (drop (sigmod - 3) modulus) else Err OutOfBounds);
  c ← countbits 3 mod_divisor;
  let mshift := c - 2 * 16 in
  mod_divisor ← mp_shift_right_bits 3 mod_divisor mshift;
  '(_, mod_quotient) ← mp_recip 3 (mod_quotient st) mod_divisor;
  mod_quotient ← mp_shift_right_bits 3 mod_quotient 1;
  let mshift := Z.rem (mshift + (16 - 1)) 16 + 1 in
  '(mod_quotient, _) ← mp_inc 3 mod_quotient;
  c ← countbits 3 mod_quotient;
  '(mod_quotient, mshift) ← (if 2 * 16 <? c then q ← mp_shift_right_bits 3 mod_quotient 1; mret (q, mshift - 1) else mret (mod_quotient, mshift));
  recipl ← aget mod_quotient 0; reciph ← aget mod_quotient 1;
  mret (Smith modulus nbits (ds_data st) mod_quotient mod_divisor mshift reciph recipl (Z.quot (nbits + 16 - 1) 16)).

(** The units from an index on. *)
Definition split_at d (i : Z) : res (list Z * list Z) :=
  if (0 <=? i) && (i <=? Z.of_nat (length d)) then mret (take (Z.to_nat i) d, drop (Z.to_nat i) d) else Err OutOfBounds.

(** The product of the modulus and the trial digit is subtracted, with the correction of a digit that was too large. *)
Definition subtract_digit prec st d (dmph dmpl q : Z) : res (list Z) :=
  if 0 <? q then
    '(low, d) ← split_at d dmpl; d ← mp_smul prec d (modulus st) q; let d := low ++ d in
    top ← aget d dmph;
    if Z.land top 0x8000 =? 0 then
      '(low, d) ← split_at d dmpl; '(d, borrow) ← mp_subb prec d (modulus st) false; let d := low ++ d in
      if borrow : bool then top ← aget d dmph; aset d dmph (u16 (top - 1)) else mret d
    else mret d
  else mret d.
(** One turn of the divide loop. *)
Definition divide_body prec st (_ : Z) (x : list Z * Z * Z) : res (list Z * Z * Z) :=
  let '(d, dmph, dmpl) := x in
  q ← mp_quo_digit st d dmph; d ← subtract_digit prec st d dmph dmpl q; mret (d, dmph - 1, dmpl - 1).

Definition smith_modmult prec st prod multiplicand multiplier : res (smith * list Z) :=
  '(head, d) ← split_at (ds_data st) 1;
  d ← mp_dmul prec d multiplicand multiplier;
  let wide := (prec * 2 + 1)%nat in
  d ← aset d (Z.of_nat wide - 1) 0;
  s ← significance wide d; let dmi := Z.of_nat s in
  d ← (if modlenMULTUNITS st <=? dmi then
      '(d, _) ← mp_inc wide d; d ← mp_neg wide d;
      let nqd := dmi + 1 - modlenMULTUNITS st in
      '(d, _, _) ← cfor (Z.to_nat nqd) 0 (divide_body prec st) (d, dmi, dmi - modlenMULTUNITS st);
      d ← mp_neg prec d; '(d, _) ← mp_dec prec d; mret d
    else mret d);
  prod ← mp_move prec prod d;
  mret (Smith (modulus st) (nbits st) (head ++ d) (mod_quotient st) (mod_divisor st) (mshift st) (reciph st) (recipl st) (modlenMULTUNITS st), prod).

(** [empty_array] divides the number of elements by the size of an element once more. *)
Definition empty_array (r : list Z) : res (list Z) := unitfill0 r (length r / 2).
Definition smith_burn st : res smith :=
  m ← empty_array (modulus st); d ← empty_array (ds_data st); q ← empty_array (mod_quotient st); v ← empty_array (mod_divisor st);
  mret (Smith m 0 d q v 0 0 0 0).
End Smith.

Definition init_smith : smith :=
  Smith (replicate MAX_UNIT_PRECISION 0) 0 (replicate (MAX_UNIT_PRECISION * 2 + 2) 0) (replicate 4 0) (replicate 4 0) 0 0 0 0.

(** The square of the modulus less one. *)
Definition smith_square (dm : data_model) (m : Z) : res Z :=
  st ← stage_smith_modulus 4 init_smith (units 4 m); '(_, prod) ← smith_modmult dm 4 st (units 4 0) (units 4 (m - 1)) (units 4 (m - 1)); mret (valp 4 prod).

Example smith_runs : smith_square LP64 (2 ^ 64 - 59) = Ok 1 /\ smith_square ILP32 (2 ^ 64 - 59) = Ok 253403066984.
Proof. split; vm_compute; reflexivity. Qed.

(** * The product *)

Section Product.
Context (dm : data_model).
Implicit Types (r s a prod : list Z) (n p : nat) (m x carry : Z).

Lemma put_0 r x : put 0 r x = r.
Proof. unfold put. cbn [units app]. apply drop_0. Qed.

Lemma product_digit (a : Z) m x carry : inU 16 a -> inU 16 m -> inU 16 x -> inU 16 carry ->
  uL dm (uL dm (m * a) + uL dm (x + carry)) = m * a + x + carry /\ inU 16 ((m * a + x + carry) / BASE).
Proof.
  rewrite !inU16. intros Ha Hm Hx Hc. assert (0 <= m * a <= 65535 * 65535) by nia.
  rewrite (uL_id dm (m * a)), (uL_id dm (x + carry)) by (unfold inU; change (2 ^ 32) with 4294967296; lia). rewrite uL_id by (unfold inU; change (2 ^ 32) with 4294967296; lia).
  split; [lia|]. split; [apply Z.div_pos; lia|apply Z.div_lt_upper_bound; lia].
Qed.

Lemma smul_loop_ok n : forall prod a m carry, reg (S n) prod -> reg n a -> inU 16 m -> inU 16 carry ->
  smul_loop dm n prod a m carry = Ok (put (S n) prod (valp (S n) prod + m * valp n a + carry)).
Proof.
  induction n as [|n IH]; intros prod a m carry Hp Ha Hm Hc; apply reg_cons in Hp as (x & prod' & -> & Hx & Hp).
  - cbn [smul_loop unit_next mbind res_bind mret res_ret]. rewrite valp_cons, put_cons, put_0. change (valp 0 a) with 0. change (valp 0 prod') with 0.
    f_equal. f_equal. rewrite (wrapU_id 16 carry) by exact Hc. rewrite u16_mod. f_equal. lia.
  - apply reg_cons in Ha as (b & a' & -> & Hb & Ha). cbn [smul_loop unit_next mbind res_bind mret res_ret]. destruct (product_digit b m x carry Hb Hm Hx Hc) as [-> Hq].
    rewrite Z.shiftr_div_pow2 by lia. change (2 ^ 16) with BASE. rewrite IH by assumption. cbn [mbind res_bind mret res_ret]. rewrite (valp_cons (S n) x), (valp_cons n b), put_cons, u16_mod.
    set (t := m * b + x + carry) in *. replace (x + BASE * valp (S n) prod' + m * (b + BASE * valp n a') + carry) with (t + (valp (S n) prod' + m * valp n a') * BASE) by lia.
    rewrite Z.mod_add, Z.div_add by lia. do 3 f_equal. lia.
Qed.

Lemma mp_smul_ok n prod a m : reg (S n) prod -> reg n a -> inU 16 m -> mp_smul dm n prod a m = Ok (put (S n) prod (valp (S n) prod + m * valp n a)).
Proof. intros Hp Ha Hm. unfold mp_smul. rewrite smul_loop_ok, Z.add_0_r by (assumption || (unfold inU; lia)). reflexivity. Qed.

(** A register in two parts. *)
Lemma valp_split n k r : (n <= length r)%nat -> valp (n + k) r = valp n r + radix n * valp k (drop n r).
Proof.
  intros Hl. unfold valp. rewrite <- (take_drop n (take (n + k) r)), mval_app. rewrite take_take, Nat.min_l by lia.
  rewrite length_take, Nat.min_l by lia. do 2 f_equal. rewrite take_drop_commute. f_equal.
Qed.
Lemma reg_drop n k r : reg (n + k) r -> reg k (drop n r).
Proof. intros [Hl HF]. split; [rewrite length_drop; lia|apply Forall_drop, HF]. Qed.
Lemma put_wider n k r x : reg (n + k) r -> valp (n + k) r < radix n -> 0 <= x < radix n -> put n r x = put (n + k) r x /\ valp (n + k) r = valp n r.
Proof.
  intros Hr Hv Hx. pose proof Hr as [Hl HF]. pose proof (reg_le n _ _ Hr ltac:(lia)) as Hrn. pose proof (valp_range n r Hrn) as Hn. pose proof (reg_drop n k r Hr) as Hd. pose proof (valp_range k _ Hd) as Hk.
  rewrite valp_split in Hv by lia. assert (valp k (drop n r) = 0) as E0 by nia. split; [|rewrite valp_split, E0 by lia; lia].
  apply put_unique.
  - pose proof (put_reg n r x Hrn) as [_ HF']. split; [rewrite length_put by lia; exact Hl|exact HF'].
  - rewrite <- !drop_drop, drop_put. reflexivity.
  - rewrite valp_split by (rewrite length_put by lia; lia). rewrite drop_put, E0, valp_put, Z.mul_0_r, Z.add_0_r, radix_add. pose proof (radix_pos k). rewrite (Z.mod_small x (radix n)) by exact Hx. symmetry. apply Z.mod_small. nia.
Qed.

Lemma dmul_loop_ok p n : forall prod a b, reg (n + p) prod -> reg p a -> reg n b -> valp (n + p) prod < radix p ->
  dmul_loop dm p n prod a b = Ok (put (n + p) prod (valp (n + p) prod + valp p a * valp n b)).
Proof.
  induction n as [|n IH]; intros prod a b Hp Ha Hb Hv; cbn [dmul_loop].
  - change (valp 0 b) with 0. rewrite Z.mul_0_r, Z.add_0_r, put_valp by exact Hp. reflexivity.
  - apply reg_cons in Hb as (b0 & b' & -> & Hb0 & Hb). cbn [unit_next mbind res_bind mret res_ret].
    assert (S n + p = S p + n)%nat as E by lia. rewrite E in *. rewrite mp_smul_ok by (first [assumption|apply (reg_le _ (S p + n)); [exact Hp|lia]]). cbn [mbind res_bind].
    pose proof (valp_range _ _ Ha) as Ra. pose proof (valp_range _ _ Hp) as Rp. rewrite inU16 in Hb0. pose proof (radix_S p) as ES.
    destruct (put_wider (S p) n prod (valp (S p + n) prod + b0 * valp p a) Hp) as [Ew Ev]; [lia|nia|]. rewrite <- Ev, Ew. set (v := valp (S p + n) prod) in *. set (t := v + b0 * valp p a) in *.
    change (S p + n)%nat with (S (p + n)) in *. apply reg_cons in Hp as (x & prod' & -> & Hx & Hp). rewrite put_cons. cbn [unit_next mbind res_bind mret res_ret]. assert (0 <= t < BASE * radix p) as Ht by nia.
    assert (valp (p + n) (put (p + n) prod' (t / BASE)) = t / BASE) as Et.
    { rewrite valp_put, radix_add. apply Z.mod_small. pose proof (radix_pos n). split; [apply Z.div_pos; lia|apply Z.div_lt_upper_bound; nia]. }
    rewrite (Nat.add_comm p n) in *. rewrite IH; [|apply put_reg; exact Hp|exact Ha|exact Hb|rewrite Et; apply Z.div_lt_upper_bound; lia].
    cbn [mbind res_bind mret res_ret]. rewrite Et, put_put, put_cons, (valp_cons n b0). f_equal.
    replace (v + valp p a * (b0 + BASE * valp n b')) with (t + valp p a * valp n b' * BASE) by (unfold t; lia). rewrite Z.mod_add, Z.div_add by lia. reflexivity.
Qed.

Lemma mp_dmul_ok p prod a b : (p + p <= length prod)%nat -> Forall (inU 16) prod -> reg p a -> reg p b -> mp_dmul dm p prod a b = Ok (put (p + p) prod (valp p a * valp p b)).
Proof.
  intros Hl HF Ha Hb. unfold mp_dmul. replace (p * 2)%nat with (p + p)%nat by lia. rewrite unitfill0_ok by exact Hl. cbn [mbind res_bind].
  assert (reg (p + p) prod) as Hp by (split; assumption). assert (valp (p + p) (put (p + p) prod 0) = 0) as E by (rewrite valp_put; apply Z.mod_0_l; pose proof (radix_pos (p + p)); lia).
  rewrite dmul_loop_ok; [|apply put_reg, Hp|exact Ha|exact Hb|rewrite E; apply radix_pos]. rewrite E, put_put. reflexivity.
Qed.
End Product.

(** * The trial quotient *)

Section Quotient.
Implicit Types (rh rl ms k v m D : Z).

(** What [mp_quo_digit] computes before the limit, without overflow. *)
Definition trial_high rh rl d2 d1 d0 : Z :=
  (((d0 * rh + rh) / 2 + (d1 * rl + BASE) / 2 + 1) / BASE + d1 * rh / 2 + d2 * rl / 2 + 1) / 2 ^ 14 + 2 * (d2 * rh).
Definition trial rh rl ms d2 d1 d0 : Z := trial_high rh rl d2 d1 d0 / 2 ^ ms.

Lemma trial_lower rh rl ms d2 d1 d0 k : 0 <= ms -> 0 <= rl < BASE -> 0 <= d0 < BASE ->
  k * 2 ^ (47 + ms) <= ((d2 * BASE + d1) * BASE + d0 + 1) * (rh * BASE + rl) -> k <= trial rh rl ms d2 d1 d0.
Proof.
  intros Hms Hrl Hd0 H. unfold trial. apply Z.div_le_lower_bound; [lia|]. rewrite Z.pow_add_r, Z.mul_assoc, (Z.mul_comm k), <- Z.mul_assoc in H by lia. rewrite (Z.mul_comm (2 ^ ms)). set (K := k * 2 ^ ms) in *. clearbody K.
  assert (d0 * rl + rl <= BASE * BASE) as Hsmall by nia.
  replace (((d2 * BASE + d1) * BASE + d0 + 1) * (rh * BASE + rl)) with (BASE * BASE * BASE * (d2 * rh) + BASE * BASE * (d1 * rh + d2 * rl) + BASE * (d0 * rh + rh + d1 * rl) + (d0 * rl + rl)) in H by lia.
  unfold trial_high. set (e1 := (d0 * rh + rh) / 2). set (e2 := (d1 * rl + BASE) / 2). set (e3 := d1 * rh / 2). set (e4 := d2 * rl / 2).
  assert (d0 * rh + rh <= 2 * e1 + 1) as H1 by (unfold e1; dlia). assert (d1 * rl + BASE <= 2 * e2 + 1) as H2 by (unfold e2; dlia).
  assert (d1 * rh <= 2 * e3 + 1) as H3 by (unfold e3; dlia). assert (d2 * rl <= 2 * e4 + 1) as H4 by (unfold e4; dlia). clearbody e1 e2 e3 e4.
  assert (K - 2 * (d2 * rh) <= ((e1 + e2 + 1) / BASE + e3 + e4 + 1) / 2 ^ 14); [|lia]. apply Z.div_le_lower_bound; [lia|].
  assert (2 ^ 14 * (K - 2 * (d2 * rh)) - e3 - e4 - 1 <= (e1 + e2 + 1) / BASE); [|lia]. apply Z.div_le_lower_bound; [lia|].
  change (2 ^ 14) with 16384. change (2 ^ 47) with 140737488355328 in H. lia.
Qed.

Lemma trial_upper rh rl ms d2 d1 d0 k : 0 <= ms -> 0 <= rh < BASE -> 0 <= rl -> 0 <= d0 ->
  k <= trial rh rl ms d2 d1 d0 -> k * 2 ^ (47 + ms) <= ((d2 * BASE + d1) * BASE + d0) * (rh * BASE + rl) + 4 * BASE * BASE + 2 * BASE.
Proof.
  intros Hms Hrh Hrl Hd0 H. assert (k * 2 ^ ms <= trial_high rh rl d2 d1 d0) as H' by (unfold trial in H; pose proof (Z.mul_div_le (trial_high rh rl d2 d1 d0) (2 ^ ms) ltac:(lia)); nia).
  rewrite Z.pow_add_r, Z.mul_assoc, (Z.mul_comm k), <- Z.mul_assoc by lia. set (K := k * 2 ^ ms) in *. clearbody K.
  replace (((d2 * BASE + d1) * BASE + d0) * (rh * BASE + rl)) with (BASE * BASE * BASE * (d2 * rh) + BASE * BASE * (d1 * rh + d2 * rl) + BASE * (d0 * rh + d1 * rl) + d0 * rl) by lia.
  assert (0 <= d0 * rl) by nia. unfold trial_high in H'. set (e1 := (d0 * rh + rh) / 2) in *. set (e2 := (d1 * rl + BASE) / 2) in *. set (e3 := d1 * rh / 2) in *. set (e4 := d2 * rl / 2) in *.
  assert (2 * e1 <= d0 * rh + rh) by (unfold e1; dlia). assert (2 * e2 <= d1 * rl + BASE) by (unfold e2; dlia).
  assert (2 * e3 <= d1 * rh) by (unfold e3; dlia). assert (2 * e4 <= d2 * rl) by (unfold e4; dlia). clearbody e1 e2 e3 e4.
  pose proof (Z.mul_div_le (e1 + e2 + 1) BASE ltac:(lia)) as Hf. set (f := (e1 + e2 + 1) / BASE) in *. clearbody f.
  pose proof (Z.mul_div_le (f + e3 + e4 + 1) (2 ^ 14) ltac:(lia)) as Hg. set (g := (f + e3 + e4 + 1) / 2 ^ 14) in *. clearbody g.
  change (2 ^ 14) with 16384 in *. change (2 ^ 47) with 140737488355328. lia.
Qed.

(** A reciprocal [r0] of the first 32 bits [v] of the modulus [m], and the reciprocal [r] in use, which is the half of [r0]
    where [r0] has 33 bits. *)
Record recip_of (m N ms r : Z) : Prop := RecipOf {
  recip_v : Z; recip_r0 : Z; recip_ms0 : Z;
  recip_top : recip_v * 2 ^ (N - 16 + recip_ms0) <= m < (recip_v + 1) * 2 ^ (N - 16 + recip_ms0);
  recip_v_range : 2 ^ 31 <= recip_v < 2 ^ 32;
  recip_lo : 2 ^ 63 <= recip_r0 * recip_v;
  recip_hi : recip_r0 * recip_v <= 2 ^ 63 + recip_v;
  recip_r0_max : recip_r0 <= 2 ^ 32;
  recip_ms_range : 1 <= recip_ms0 <= 16;
  recip_half : ms = recip_ms0 /\ r = recip_r0 \/ ms = recip_ms0 - 1 /\ recip_r0 = 2 * r }.

Lemma quotient_bounds m N ms rh rl d2 d1 d0 D : 16 <= N -> recip_of m N ms (rh * BASE + rl) -> 0 <= rh < BASE -> 0 <= rl < BASE -> 0 <= d0 < BASE ->
  ((d2 * BASE + d1) * BASE + d0) * 2 ^ N <= D < ((d2 * BASE + d1) * BASE + d0 + 1) * 2 ^ N -> 0 <= D < BASE * m -> 0 < m ->
  D / m <= trial rh rl ms d2 d1 d0 <= D / m + 1.
Proof.
  intros HN [v r0 ms0 Htop Hv Hlo Hhi Hmax Hms0 Hhalf] Hrh Hrl Hd0 HD3 HD Hm. set (k := D / m) in *. set (D3 := (d2 * BASE + d1) * BASE + d0) in *. set (r := rh * BASE + rl) in *.
  assert (0 <= ms) as Hms by lia. assert (0 <= k <= 65535) as Hk by (split; [apply Z.div_pos; lia|apply Z.lt_succ_r, Z.div_lt_upper_bound; lia]).
  pose proof (Z.mul_div_le D m Hm) as Hk1. pose proof (Z.mul_succ_div_gt D m Hm) as Hk2. fold k in Hk1, Hk2.
  assert (0 < 2 ^ N) as HC by lia. set (s := N - 16 + ms0) in *. assert (0 < 2 ^ s) as Hs by (apply Z.pow_pos_nonneg; unfold s; lia).
  assert (2 ^ s * 2 ^ 63 = 2 ^ N * 2 ^ (47 + ms0)) as E1 by (rewrite <- !Z.pow_add_r by (unfold s; lia); f_equal; unfold s; lia).
  assert (2 ^ s * 2 ^ 33 = 2 ^ N * 2 ^ (17 + ms0)) as E2 by (rewrite <- !Z.pow_add_r by (unfold s; lia); f_equal; unfold s; lia).
  assert (0 <= r0) as Hr0 by (destruct (Z.le_gt_cases 0 r0) as [|Hneg]; [assumption|exfalso]; assert (r0 * v <= 0) by (apply Z.mul_nonpos_nonneg; lia); lia).
  split.
  - apply trial_lower; try assumption. fold D3 r. assert (k * 2 ^ (47 + ms0) <= (D3 + 1) * r0) as H0.
    { apply (Z.mul_le_mono_pos_l _ _ (2 ^ N)); [exact HC|]. replace (2 ^ N * (k * 2 ^ (47 + ms0))) with (k * (2 ^ s * 2 ^ 63)) by (rewrite E1; ring).
      assert (k * 2 ^ s * 2 ^ 63 <= k * 2 ^ s * (r0 * v)) by (apply Z.mul_le_mono_nonneg_l; [apply Z.mul_nonneg_nonneg; lia|exact Hlo]).
      assert (k * r0 * (v * 2 ^ s) <= k * r0 * m) by (apply Z.mul_le_mono_nonneg_l; [apply Z.mul_nonneg_nonneg; lia|lia]).
      assert (r0 * (m * k) <= r0 * ((D3 + 1) * 2 ^ N)) by (apply Z.mul_le_mono_nonneg_l; lia).
      set (S := 2 ^ s) in *. set (C := 2 ^ N) in *. clearbody S C. clear - H H0 H1. lia. }
    destruct Hhalf as [[-> ->]|[-> Er]]; [exact H0|]. rewrite Er in H0. assert (2 ^ (47 + ms0) = 2 * 2 ^ (47 + (ms0 - 1))) as E by (rewrite <- Z.pow_succ_r by lia; f_equal; lia). rewrite E in H0. lia.
  - destruct (Z.le_gt_cases (trial rh rl ms d2 d1 d0) (k + 1)) as [Hle|Hgt]; [exact Hle|exfalso]. apply Z.lt_gt, Z.gt_lt in Hgt.
    pose proof (trial_upper rh rl ms d2 d1 d0 (k + 2) Hms Hrh ltac:(lia) ltac:(lia) ltac:(lia)) as HU. fold D3 r in HU.
    assert ((k + 2) * 2 ^ (47 + ms0) <= D3 * r0 + 2 ^ 36) as HU0.
    { destruct Hhalf as [[-> ->]|[-> Er]]; [lia|]. assert (2 ^ (47 + ms0) = 2 * 2 ^ (47 + (ms0 - 1))) as E by (rewrite <- Z.pow_succ_r by lia; f_equal; lia). rewrite E, Er. lia. }
    assert (D3 * r0 <= (k + 1) * (2 ^ (47 + ms0) + 2 ^ (17 + ms0))) as HL.
    { apply (Z.mul_le_mono_pos_l _ _ (2 ^ N)); [exact HC|]. replace (2 ^ N * ((k + 1) * (2 ^ (47 + ms0) + 2 ^ (17 + ms0)))) with ((k + 1) * (2 ^ s * 2 ^ 63 + 2 ^ s * 2 ^ 33)) by (rewrite E1, E2; ring).
      assert ((k + 1) * m <= (k + 1) * ((v + 1) * 2 ^ s)) by (apply Z.mul_le_mono_nonneg_l; lia).
      assert (r0 * (D3 * 2 ^ N) <= r0 * ((k + 1) * ((v + 1) * 2 ^ s))) by (apply Z.mul_le_mono_nonneg_l; lia).
      assert ((k + 1) * 2 ^ s * ((v + 1) * r0) <= (k + 1) * 2 ^ s * (2 ^ 63 + 2 ^ 33)) by (apply Z.mul_le_mono_nonneg_l; [apply Z.mul_nonneg_nonneg; lia|]; change (2 ^ 33) with (2 ^ 32 + 2 ^ 32); lia).
      set (S := 2 ^ s) in *. set (C := 2 ^ N) in *. clearbody S C. clear - H0 H1. lia. }
    assert (2 ^ (47 + ms0) = 2 ^ 47 * 2 ^ ms0) as E3 by (apply Z.pow_add_r; lia). assert (2 ^ (17 + ms0) = 2 ^ 17 * 2 ^ ms0) as E4 by (apply Z.pow_add_r; lia). rewrite E3, E4 in *.
    assert (2 <= 2 ^ ms0) by (change 2 with (2 ^ 1) at 1; apply Z.pow_le_mono_r; lia). set (P := 2 ^ ms0) in *.
    assert ((k + 1) * (2 ^ 17 * P) <= 65536 * (2 ^ 17 * P)) by (apply Z.mul_le_mono_nonneg_r; lia). change (2 ^ 47) with 140737488355328 in *. change (2 ^ 17) with 131072 in *. change (2 ^ 36) with 68719476736 in *. nia.
Qed.
End Quotient.

(** * The trial quotient of the code *)

Section QuoDigit.
Context (dm : data_model).
Implicit Types (st : smith) (d : list Z) (i n p : nat) (x D : Z).

Definition smith_digits st : Prop := 0 <= reciph st < BASE /\ 0 <= recipl st < BASE /\ 0 <= mshift st <= 16.

Lemma complement_unit u : inU 16 u -> Z.lxor u MULTUNIT_mask = BASE - 1 - u.
Proof.
  intros Hu. rewrite <- lnot16 by exact Hu. unfold MULTUNIT_mask. change 0xffff with (Z.ones 16). rewrite u16_mod. change BASE with (2 ^ 16). rewrite <- Z.land_ones by lia.
  apply Z.bits_inj'. intros j Hj. rewrite Z.lxor_spec, Z.land_spec, Z.lnot_spec by lia. destruct (Z.ltb_spec j 16).
  - rewrite Z.ones_spec_low by lia. btauto.
  - rewrite Z.ones_spec_high by lia. rewrite (testbit_small u 16 j) by (assumption || exact Hu). reflexivity.
Qed.

(** The words that fit are computed without overflow. *)
Lemma quo_digit_words st (d2 d1 d0 : Z) : smith_digits st -> 0 <= d2 < BASE -> 0 <= d1 < BASE -> 0 <= d0 < BASE ->
  dm = LP64 \/ trial_high (reciph st) (recipl st) d2 d1 d0 < 2 ^ 32 ->
  (let q1 := uL dm (uL dm (d0 * reciph st) + reciph st) in
   let q2 := uL dm (uL dm (d1 * recipl st) + 1 ≪ 16) in
   let q0 := uL dm (q1 ≫ 1 + q2 ≫ 1 + 1) in
   let q1 := uL dm (d1 * reciph st) in
   let q2 := uL dm (d2 * recipl st) in
   let q := uL dm (q0 ≫ 16 + q1 ≫ 1 + q2 ≫ 1 + 1) in
   uL dm (q ≫ (16 - 2) + uL dm (uL dm (d2 * reciph st) ≪ 1))) = trial_high (reciph st) (recipl st) d2 d1 d0.
Proof.
  intros (Hrh & Hrl & _) H2 H1 H0 Hhi. cbv zeta. unfold trial_high in *. rewrite !Z.shiftr_div_pow2, !Z.shiftl_mul_pow2 by lia. change (16 - 2) with 14. change (2 ^ 1) with 2. change (2 ^ 16) with BASE. rewrite Z.mul_1_l.
  set (rh := reciph st) in *. set (rl := recipl st) in *.
  assert (forall a b, 0 <= a < BASE -> 0 <= b < BASE -> 0 <= a * b <= 65535 * 65535) as Hprod by (intros; nia).
  pose proof (Hprod d0 rh H0 Hrh) as P00. pose proof (Hprod d1 rl H1 Hrl) as P11. pose proof (Hprod d1 rh H1 Hrh) as P10. pose proof (Hprod d2 rl H2 Hrl) as P21. pose proof (Hprod d2 rh H2 Hrh) as P20.
  assert (forall x, 0 <= x < 4294967296 -> uL dm x = x) as Hid by (intros x Hx; apply uL_id; exact Hx).
  rewrite (Hid (d0 * rh)), (Hid (d1 * rl)), (Hid (d1 * rh)), (Hid (d2 * rl)), (Hid (d2 * rh)) by lia.
  rewrite (Hid (d0 * rh + rh)), (Hid (d1 * rl + BASE)) by lia.
  set (e1 := (d0 * rh + rh) / 2) in *. assert (0 <= e1 <= 2147450880) by (unfold e1; dlia). set (e2 := (d1 * rl + BASE) / 2) in *. assert (0 <= e2 <= 2147450880) by (unfold e2; dlia).
  rewrite (Hid (e1 + e2 + 1)) by lia. set (f := (e1 + e2 + 1) / BASE) in *. assert (0 <= f <= 65535) by (unfold f; dlia).
  set (e3 := d1 * rh / 2) in *. assert (0 <= e3 <= 2147418112) by (unfold e3; dlia). set (e4 := d2 * rl / 2) in *. assert (0 <= e4 <= 2147418112) by (unfold e4; dlia).
  rewrite (Hid (f + e3 + e4 + 1)) by lia. set (g := (f + e3 + e4 + 1) / 2 ^ 14) in *. assert (0 <= g <= 2 ^ 18) as Hg by (unfold g; change (2 ^ 14) with 16384; dlia).
  change (2 ^ 18) with 262144 in Hg. destruct Hhi as [->|Hhi].
  - unfold wrapU, long_bits. change (2 ^ 64) with 18446744073709551616. rewrite (Z.mod_small (d2 * rh * 2)), Z.mod_small by lia. lia.
  - change (2 ^ 32) with 4294967296 in Hhi. rewrite (Hid (d2 * rh * 2)), Hid by lia. lia.
Qed.

(** The units of a complemented number. *)
Lemma complement_digit n d x i : reg n d -> valp n d = radix n - 1 - x -> 0 <= x < radix n -> (i < n)%nat ->
  exists u, aget d (Z.of_nat i) = Ok u /\ Z.lxor u MULTUNIT_mask = x / radix i mod BASE.
Proof.
  intros Hr Hv Hx Hi. destruct (reg_last i d (reg_le (S i) n _ Hr Hi)) as (u & Eu & Hu & Ev & _). exists u. split; [exact Eu|]. rewrite complement_unit by exact Hu. rewrite inU16 in Hu.
  destruct Hr as [Hl HF]. pose proof (valp_split (S i) (n - S i) d ltac:(lia)) as Es. replace (S i + (n - S i))%nat with n in Es by lia. rewrite Hv, Ev in Es.
  assert (radix n = radix (S i) * radix (n - S i)) as Er by (rewrite <- radix_add; f_equal; lia). rewrite radix_S in *.
  pose proof (valp_range i d (reg_le i n d (conj Hl HF) ltac:(lia))) as Hlow. set (R := radix i) in *. assert (0 < R) as HR by apply radix_pos. set (hi := valp (n - S i) (drop (S i) d)) in *.
  assert (x = R * (BASE * (radix (n - S i) - 1 - hi) + (BASE - 1 - u)) + (R - 1 - valp i d)) as E by nia.
  rewrite E, (Z.mul_comm R), Z.div_add_l, (Z.div_small (R - 1 - _)), Z.add_0_r by lia. rewrite (Z.mul_comm BASE), Z.add_comm, Z.mod_add, Z.mod_small by lia. reflexivity.
Qed.

(** The result is the quotient or one more, if the remainder before was less than the modulus. *)
Lemma mp_quo_digit_ok st m p d i D : (3 <= p)%nat -> smith_digits st -> recip_of m (16 * (Z.of_nat p - 2)) (mshift st) (reciph st * BASE + recipl st) -> 0 < m < radix p ->
  dm = LP64 \/ mshift st <= 15 -> (i + (p + 1) <= length d)%nat -> Forall (inU 16) d -> valp (p + 1) (drop i d) = radix (p + 1) - 1 - D -> 0 <= D < BASE * m ->
  exists q, mp_quo_digit dm st d (Z.of_nat (i + p)) = Ok q /\ inU 16 q /\ (q = D / m \/ q = D / m + 1).
Proof.
  intros Hp Hst Hrec Hm Hdm Hl HF Hv HD. assert (D < radix (p + 1)) as HDr by (rewrite Nat.add_1_r, radix_S; lia).
  assert (reg (p + 1) (drop i d)) as Hw by (split; [rewrite length_drop; lia|apply Forall_drop, HF]).
  destruct (complement_digit (p + 1) _ D p Hw Hv ltac:(lia) ltac:(lia)) as (u2 & E2 & F2). destruct (complement_digit (p + 1) _ D (p - 1) Hw Hv ltac:(lia) ltac:(lia)) as (u1 & E1 & F1).
  destruct (complement_digit (p + 1) _ D (p - 2) Hw Hv ltac:(lia) ltac:(lia)) as (u0 & E0 & F0).
  assert (forall (j : nat) (z : Z) u, aget (drop i d) (Z.of_nat j) = Ok u -> z = Z.of_nat (i + j) -> aget d z = Ok u) as Hget.
  { intros j z u Hu ->. apply aget_ok in Hu as [_ Hu]. apply aget_ok. split; [lia|]. rewrite Nat2Z.id in *. rewrite lookup_drop in Hu. exact Hu. }
  unfold mp_quo_digit. rewrite (Hget p (Z.of_nat (i + p)) u2 E2), (Hget (p - 1)%nat (Z.of_nat (i + p) - 1) u1 E1), (Hget (p - 2)%nat (Z.of_nat (i + p) - 2) u0 E0) by lia. cbn [mbind res_bind mret res_ret]. rewrite F2, F1, F0.
  set (d2 := D / radix p mod BASE). set (d1 := D / radix (p - 1) mod BASE). set (d0 := D / radix (p - 2) mod BASE).
  assert (0 <= d2 < BASE /\ 0 <= d1 < BASE /\ 0 <= d0 < BASE) as (R2 & R1 & R0) by (repeat split; apply Z.mod_pos_bound; lia).
  assert ((d2 * BASE + d1) * BASE + d0 = D / radix (p - 2)) as E3.
  { assert (radix (p - 1) = radix (p - 2) * BASE) as G1 by (rewrite Z.mul_comm, <- radix_S; f_equal; lia). assert (radix p = radix (p - 2) * BASE * BASE) as G2 by (rewrite <- G1, Z.mul_comm, <- radix_S; f_equal; lia).
    pose proof (radix_pos (p - 2)). unfold d2, d1, d0. rewrite G1, G2, <- !Z.div_div by lia. set (y := D / radix (p - 2)). assert (0 <= y) by (apply Z.div_pos; lia).
    assert (y < BASE * BASE * BASE) by (apply Z.div_lt_upper_bound; [lia|]; rewrite Nat.add_1_r, radix_S, G2 in HDr; lia). dlia. }
  destruct Hst as (Hrh & Hrl & Hms). pose proof (quotient_bounds m (16 * (Z.of_nat p - 2)) (mshift st) (reciph st) (recipl st) d2 d1 d0 D ltac:(lia) Hrec Hrh Hrl R0) as Hq.
  rewrite E3 in Hq. assert (radix (p - 2) = 2 ^ (16 * (Z.of_nat p - 2))) as Ep by (rewrite radix_pow; f_equal; lia). rewrite <- Ep in Hq. pose proof (radix_pos (p - 2)).
  specialize (Hq ltac:(pose proof (Z.mul_div_le D (radix (p - 2))); pose proof (Z.mul_succ_div_gt D (radix (p - 2))); lia) HD ltac:(lia)).
  assert (0 <= D / m <= 65535) as Hk by (split; [apply Z.div_pos; lia|apply Z.lt_succ_r, Z.div_lt_upper_bound; lia]).
  assert (dm = LP64 \/ trial_high (reciph st) (recipl st) d2 d1 d0 < 2 ^ 32) as Hword.
  { destruct Hdm as [->|Hs]; [left; reflexivity|right]. unfold trial in Hq. set (X := trial_high _ _ _ _ _) in *. pose proof (Z.mul_succ_div_gt X (2 ^ mshift st) ltac:(lia)) as Hx.
    assert (2 ^ mshift st <= 2 ^ 15) by (apply Z.pow_le_mono_r; lia). change (2 ^ 15) with 32768 in *. change (2 ^ 32) with 4294967296. nia. }
  pose proof (quo_digit_words st d2 d1 d0 (conj Hrh (conj Hrl Hms)) R2 R1 R0 Hword) as Ew. cbv zeta in Ew. rewrite Ew. rewrite Z.shiftr_div_pow2 by lia. fold (trial (reciph st) (recipl st) (mshift st) d2 d1 d0).
  set (q := trial _ _ _ _ _ _) in *. change (1 ≪ 16 - 1) with 65535. exists (if q <? 65535 then q else 65535).
  assert (inU 16 (if q <? 65535 then q else 65535)) as Hu by (rewrite inU16; destruct (Z.ltb_spec q 65535); lia). rewrite wrapU_id by exact Hu.
  split; [reflexivity|]. split; [exact Hu|]. destruct (Z.ltb_spec q 65535); lia.
Qed.
End QuoDigit.

(** * The staged modulus *)

Section Stage.
Implicit Types (st : smith) (p n : nat) (m v : Z).

(** The static arrays. *)
Definition smith_wf st : Prop :=
  reg MAX_UNIT_PRECISION (modulus st) /\ length (ds_data st) = (MAX_UNIT_PRECISION * 2 + 2)%nat /\ Forall (inU 16) (ds_data st) /\ reg 3 (mod_quotient st) /\ reg 3 (mod_divisor st).
(** The state for a modulus [m] of [p] units. *)
Definition staged p m st : Prop :=
  smith_wf st /\ valp p (modulus st) = m /\ modlenMULTUNITS st = Z.of_nat p /\ smith_digits st /\
  recip_of m (16 * (Z.of_nat p - 2)) (mshift st) (reciph st * BASE + recipl st).

Lemma put_max p n r x : reg n r -> (p <= n)%nat -> reg n (put p r x).
Proof. intros [Hl HF] Hp. split; [rewrite length_put; lia|apply (put_reg p r x); split; [lia|exact HF]]. Qed.

Lemma log2_range x a : 0 <= a -> 2 ^ a <= x < 2 ^ (a + 1) -> Z.log2 x = a.
Proof. intros Ha Hx. apply Z.log2_unique; [exact Ha|]. exact Hx. Qed.

(** The first 32 bits of the modulus. *)
Lemma top_bits p m : (3 <= p)%nat -> radix (p - 1) <= m < radix p ->
  let T := m / radix (p - 3) in let ms := Z.log2 T + 1 - 32 in let v := T / 2 ^ ms in
  radix 2 <= T < radix 3 /\ 1 <= ms <= 16 /\ (2 * m < radix p -> ms <= 15) /\ 2 ^ 31 <= v < 2 ^ 32 /\
  v * 2 ^ (16 * (Z.of_nat p - 2) - 16 + ms) <= m < (v + 1) * 2 ^ (16 * (Z.of_nat p - 2) - 16 + ms).
Proof.
  intros Hp Hm T ms v. pose proof (radix_pos (p - 3)) as HR. assert (radix (p - 1) = radix (p - 3) * radix 2) as E1 by (rewrite <- radix_add; f_equal; lia). assert (radix p = radix (p - 3) * radix 3) as E2 by (rewrite <- radix_add; f_equal; lia).
  assert (radix 2 <= T < radix 3) as HT by (split; [apply Z.div_le_lower_bound; lia|apply Z.div_lt_upper_bound; lia]). split; [exact HT|].
  change (radix 2) with (2 ^ 32) in HT. change (radix 3) with (2 ^ 48) in HT. assert (32 <= Z.log2 T < 48) as Hlog by (split; [apply Z.log2_le_pow2; lia|apply Z.log2_lt_pow2; lia]).
  split; [unfold ms; lia|]. split.
  - intros H2. assert (T < 2 ^ 47) by (apply Z.div_lt_upper_bound; [lia|]; rewrite E2 in H2; change (radix 3) with (2 * 2 ^ 47) in H2; lia). assert (Z.log2 T < 47) by (apply Z.log2_lt_pow2; lia). unfold ms. lia.
  - pose proof (Z.log2_spec T ltac:(lia)) as [L1 L2]. replace (Z.succ (Z.log2 T)) with (32 + ms) in L2 by (unfold ms; lia). replace (Z.log2 T) with (31 + ms) in L1 by (unfold ms; lia). rewrite Z.pow_add_r in L1, L2 by (unfold ms; lia).
    assert (0 < 2 ^ ms) as Hms by (apply Z.pow_pos_nonneg; unfold ms; lia). split; [split; [apply Z.div_le_lower_bound; lia|apply Z.div_lt_upper_bound; lia]|].
    assert (2 ^ (16 * (Z.of_nat p - 2) - 16 + ms) = radix (p - 3) * 2 ^ ms) as -> by (rewrite radix_pow, <- Z.pow_add_r by (unfold ms; lia); f_equal; lia).
    assert (v = m / (radix (p - 3) * 2 ^ ms)) as -> by (unfold v, T; apply Z.div_div; lia). set (d := radix (p - 3) * 2 ^ ms). assert (0 < d) by (unfold d; nia).
    pose proof (Z.mul_div_le m d ltac:(lia)). pose proof (Z.mul_succ_div_gt m d ltac:(lia)). lia.
Qed.

Lemma significance_full p r : (0 < p)%nat -> reg p r -> radix (p - 1) <= valp p r -> significance p r = Ok p.
Proof.
  intros Hp Hr Hv. destruct (significance_ok p r Hp Hr) as (n & -> & Hn & Ev & _). f_equal. destruct (Nat.eq_dec n p) as [|Hne]; [assumption|exfalso].
  pose proof (valp_range n r (reg_le n p _ Hr Hn)) as H. rewrite <- Ev in H. assert (radix n <= radix (p - 1)) by (rewrite !radix_pow; apply Z.pow_le_mono_r; lia). lia.
Qed.

Lemma valp_high n k r : reg (n + k) r -> valp k (drop n r) = valp (n + k) r / radix n.
Proof.
  intros Hr. pose proof Hr as [Hl HF]. rewrite (valp_split n k) by lia. pose proof (valp_range n r (reg_le n (n + k) r Hr ltac:(lia))). rewrite Z.add_comm, Z.mul_comm, Z.div_add_l, Z.div_small by lia. lia.
Qed.

Lemma unit_value p r (i : nat) : reg p r -> (i < p)%nat -> aget r (Z.of_nat i) = Ok (valp p r / radix i mod BASE).
Proof.
  intros Hr Hi. destruct (reg_unit p r i Hr Hi) as (a & El & Ha & ->). f_equal. rewrite inU16 in Ha. 
  pose proof (valp_high i (p - i) r) as Eh. replace (i + (p - i))%nat with p in Eh by lia. rewrite <- Eh by exact Hr. rewrite (drop_S r a i El). replace (p - i)%nat with (S (p - i - 1)) by lia. rewrite valp_cons.
  rewrite (Z.mul_comm BASE), Z.mod_add, Z.mod_small by lia. reflexivity.
Qed.

Lemma stage_ok p st (n : list Z) : (3 <= p <= MAX_UNIT_PRECISION)%nat -> smith_wf st -> reg p n -> radix (p - 1) <= valp p n ->
  exists st', stage_smith_modulus p st n = Ok st' /\ staged p (valp p n) st' /\ (2 * valp p n < radix p -> mshift st' <= 15).
Proof.
  intros [Hp HpM] (Hmod & Hds & Fds & Hq & Hv) Hn Hm. set (m := valp p n) in *. pose proof (valp_range p n Hn) as Hmr. fold m in Hmr.
  unfold stage_smith_modulus. rewrite mp_move_ok by (try assumption; destruct Hmod; lia). cbn [mbind res_bind]. fold m. set (mo := put p (modulus st) m).
  assert (reg MAX_UNIT_PRECISION mo) as Hmo by (apply put_max; assumption). pose proof (reg_le p _ _ Hmo HpM) as Hmop. assert (valp p mo = m) as Em by (unfold mo; rewrite valp_put; apply Z.mod_small; lia).
  pose proof (radix_pos (p - 1)). rewrite countbits_ok by (assumption || lia). cbn [mbind res_bind]. rewrite Em, (proj2 (Z.eqb_neq m 0)) by lia. rewrite significance_full by (rewrite ?Em; assumption || lia). cbn [mbind res_bind].
  rewrite (proj2 (Nat.leb_le 3 p)) by lia. destruct (top_bits p m Hp (conj Hm (proj2 Hmr))) as (HT & Hms & Hms15 & Hvr & Htop). set (T := m / radix (p - 3)) in *. set (ms := Z.log2 T + 1 - 32) in *. set (v := T / 2 ^ ms) in *.
  assert (reg 3 (drop (p - 3) mo)) as Hdm by (apply (reg_drop (p - 3)); replace (p - 3 + 3)%nat with p by lia; exact Hmop).
  rewrite mp_move_ok by (try assumption; apply Hv). assert (valp 3 (drop (p - 3) mo) = T) as -> by (rewrite valp_high; replace (p - 3 + 3)%nat with p by lia; [rewrite Em; reflexivity|exact Hmop]). cbn [mbind res_bind].
  rewrite countbits_ok by (try apply put_reg; try assumption; lia). cbn [mbind res_bind]. rewrite valp_put, (Z.mod_small T) by (change (radix 2) with (2 ^ 32) in HT; lia).
  change (radix 2) with (2 ^ 32) in HT. rewrite (proj2 (Z.eqb_neq T 0)) by lia. change (2 * 16) with 32. fold ms.
  rewrite mp_shift_right_bits_ok by (try apply put_reg; assumption || lia). cbn [mbind res_bind]. rewrite valp_put, (Z.mod_small T), put_put by lia. fold v.
  assert (valp 3 (put 3 (mod_divisor st) v) = v) as Ev by (rewrite valp_put; apply Z.mod_small; change (radix 3) with (2 ^ 48); lia).
  assert (Z.log2 v = 31) as Elog by (apply log2_range; lia).
  destruct (mp_recip_ok 3 (mod_quotient st) (put 3 (mod_divisor st) v) 32) as (q & R & -> & HR & Hqr & E); [unfold MAX_UNIT_PRECISION; lia|exact Hq|apply put_reg, Hv|lia|rewrite Ev; change (radix 3) with (2 ^ 48); lia|rewrite Ev, Elog; reflexivity|].
  cbn [mbind res_bind]. rewrite Ev in HR, E. rewrite mp_shift_right_bits_ok by (try apply put_reg; assumption || lia). cbn [mbind res_bind].
  change (radix 3) with (2 ^ 48) in *. rewrite valp_put, put_put, (Z.mod_small (2 * q)) by (change (radix 3) with (2 ^ 48); lia). change (2 ^ 1) with 2. rewrite (Z.mul_comm 2 q), Z.div_mul by lia.
  rewrite mp_inc_ok by (try apply put_reg; assumption || lia). cbn [mbind res_bind]. rewrite valp_put, put_put, (Z.mod_small q) by (change (radix 3) with (2 ^ 48); lia).
  rewrite countbits_ok by (try apply put_reg; assumption || lia). cbn [mbind res_bind]. rewrite valp_put, (Z.mod_small (q + 1)) by (change (radix 3) with (2 ^ 48); lia). rewrite (proj2 (Z.eqb_neq (q + 1) 0)) by lia.
  assert (Z.rem (ms + (16 - 1)) 16 + 1 = ms) as -> by (rewrite Z.rem_mod_nonneg by lia; dlia).
  set (half := 32 <? Z.log2 (q + 1) + 1). set (r := if half then 2 ^ 31 else q + 1).
  assert (half = (q + 1 =? 2 ^ 32)) as Ehalf.
  { unfold half. destruct (Z.eqb_spec (q + 1) (2 ^ 32)) as [->|Hne]; [reflexivity|]. apply Z.ltb_ge. assert (Z.log2 (q + 1) < 32) by (apply Z.log2_lt_pow2; lia). lia. }
  assert (r < 2 ^ 32 /\ 0 <= r /\ (half = true -> q + 1 = 2 * r) /\ (half = false -> q + 1 = r)) as (Hr & Hr0 & Ht & Hf).
  { unfold r. rewrite Ehalf. destruct (Z.eqb_spec (q + 1) (2 ^ 32)); repeat split; intros; try discriminate; lia. }
  set (Q := put 3 (mod_quotient st) r). assert (reg 3 Q) as HQ by apply put_reg, Hq.
  assert ((if half then q0 ← mp_shift_right_bits 3 (put 3 (mod_quotient st) (q + 1)) 1; mret (q0, ms - 1) else mret (put 3 (mod_quotient st) (q + 1), ms)) = Ok (Q, if half then ms - 1 else ms)) as ->.
  { destruct half eqn:Eh; [|unfold Q, r; reflexivity]. rewrite mp_shift_right_bits_ok by (try apply put_reg; assumption || lia). cbn [mbind res_bind mret res_ret]. rewrite valp_put, put_put, (Z.mod_small (q + 1)) by (change (radix 3) with (2 ^ 48); lia).
    rewrite (Ht eq_refl). change (2 ^ 1) with 2. rewrite (Z.mul_comm 2), Z.div_mul by lia. reflexivity. }
  cbn [mbind res_bind]. assert (valp 3 Q = r) as EQ by (unfold Q; rewrite valp_put; apply Z.mod_small; change (radix 3) with (2 ^ 48); lia).
  change 0 with (Z.of_nat 0) at 1. change 1 with (Z.of_nat 1) at 3. rewrite !(unit_value 3) by (assumption || lia). cbn [mbind res_bind mret res_ret]. rewrite EQ.
  eexists. split; [reflexivity|]. unfold staged, smith_wf, smith_digits. cbn [modulus ds_data mod_quotient mod_divisor mshift reciph recipl modlenMULTUNITS].
  change (radix 0) with 1. change (radix 1) with BASE. rewrite Z.div_1_r. assert (r / BASE mod BASE = r / BASE) as Erh by (apply Z.mod_small; split; [apply Z.div_pos; lia|apply Z.div_lt_upper_bound; lia]). rewrite Erh.
  assert (r / BASE * BASE + r mod BASE = r) as Er by (pose proof (Z.div_mod r BASE ltac:(lia)); lia). rewrite Er.
  split; [|destruct half; lia]. split; [|split; [exact Em|split; [|split]]].
  - split; [exact Hmo|]. split; [exact Hds|]. split; [exact Fds|]. split; [exact HQ|apply put_reg, Hv].
  - rewrite Z.quot_div_nonneg by (pose proof (Z.log2_nonneg m); lia). assert (16 * Z.of_nat (p - 1) <= Z.log2 m < 16 * Z.of_nat p) by (rewrite !radix_pow in *; split; [apply Z.log2_le_pow2; lia|apply Z.log2_lt_pow2; lia]). dlia.
  - split; [rewrite <- Erh; apply Z.mod_pos_bound; lia|]. split; [apply Z.mod_pos_bound; lia|destruct half; lia].
  - refine (RecipOf _ _ _ _ v (q + 1) ms Htop Hvr _ _ _ Hms _); [lia|lia|lia|]. destruct half; [right|left]; auto.
Qed.
End Stage.

(** * The divide loop *)

Section Divide.
Context (dm : data_model).
Implicit Types (st : smith) (d : list Z) (i k n p : nat) (x V : Z).

Lemma split_at_ok d k : (k <= length d)%nat -> split_at d (Z.of_nat k) = Ok (take k d, drop k d).
Proof. intros Hk. unfold split_at. rewrite (proj2 (Z.leb_le _ _)), (proj2 (Z.leb_le _ _)) by lia. rewrite Nat2Z.id. reflexivity. Qed.

(** A register whose units from [k] on are written. *)
Lemma window_put k n d x : reg (k + n) d ->
  reg (k + n) (take k d ++ put n (drop k d) x) /\ length (take k d ++ put n (drop k d) x) = length d /\
  drop k (take k d ++ put n (drop k d) x) = put n (drop k d) x /\ take k (take k d ++ put n (drop k d) x) = take k d /\
  valp (k + n) (take k d ++ put n (drop k d) x) = valp k d + radix k * (x mod radix n).
Proof.
  intros Hr. pose proof Hr as [Hl HF]. pose proof (reg_drop k n d Hr) as Hd. assert (length (take k d) = k) as Lk by (rewrite length_take; lia).
  assert (length (take k d ++ put n (drop k d) x) = length d) as El by (rewrite length_app, Lk, length_put by apply Hd; rewrite length_drop; lia).
  assert (drop k (take k d ++ put n (drop k d) x) = put n (drop k d) x) as Ed by (apply drop_app_length'; lia).
  assert (take k (take k d ++ put n (drop k d) x) = take k d) as Et by (apply take_app_length'; lia).
  split; [split; [lia|apply Forall_app; split; [apply Forall_take, HF|apply (put_reg n _ x Hd)]]|]. split; [exact El|]. split; [exact Ed|]. split; [exact Et|].
  rewrite valp_split by lia. rewrite Ed, valp_put. unfold valp. rewrite Et. reflexivity.
Qed.

Lemma valp_mod n k d : reg (n + k) d -> valp n d = valp (n + k) d mod radix n.
Proof.
  intros Hr. pose proof Hr as [Hl HF]. rewrite (valp_split n k) by lia. pose proof (valp_range n d (reg_le n (n + k) d Hr ltac:(lia))) as H.
  rewrite (Z.mul_comm (radix n)), Z.mod_add, Z.mod_small by lia. reflexivity.
Qed.

Lemma aget_window k n d x : reg (k + (n + 1)) d -> aget (take k d ++ put (n + 1) (drop k d) x) (Z.of_nat (k + n)) = Ok (x mod radix (n + 1) / radix n).
Proof.
  intros Hr. destruct (window_put k (n + 1) d x Hr) as (Hr' & _ & Ed & _ & _). pose proof (reg_drop k (n + 1) d Hr) as Hd.
  pose proof (unit_value (n + 1) (put (n + 1) (drop k d) x) n (put_reg _ _ _ Hd) ltac:(lia)) as E. rewrite <- Ed in E at 1. apply aget_ok in E as [_ E]. apply aget_ok. split; [lia|].
  rewrite Nat2Z.id in *. rewrite lookup_drop in E. rewrite E, valp_put. f_equal. apply Z.mod_small. rewrite Nat.add_1_r, radix_S. pose proof (Z.mod_pos_bound x (BASE * radix n)). pose proof (radix_pos n).
  split; [apply Z.div_pos; lia|apply Z.div_lt_upper_bound; lia].
Qed.

(** The complement of [V] in the units up to the window at [k]. *)
Definition complement_of p V k d : Prop := reg (k + (p + 1)) d /\ valp (k + (p + 1)) d = radix (k + (p + 1)) - 1 - V.

(** The reduction of a window [D] by the trial quotient, with its correction. *)
Lemma reduce_window st p m k d q D : (0 < p)%nat -> reg p (modulus st) -> valp p (modulus st) = m -> 0 < m < radix p -> reg (k + (p + 1)) d ->
  valp (p + 1) (drop k d) = radix (p + 1) - 1 - D -> 0 <= D < BASE * m -> inU 16 q -> (q = D / m \/ q = D / m + 1) ->
  exists d', subtract_digit dm p st d (Z.of_nat (k + p)) (Z.of_nat k) q = Ok d' /\ length d' = length d /\ reg (k + (p + 1)) d' /\ valp (k + (p + 1)) d' = valp k d + radix k * (radix (p + 1) - 1 - D mod m).
Proof.
  intros Hp Hmo Em Hm Hr Hv HD Hqu Hq. pose proof Hr as [Hl HF]. pose proof (reg_drop k _ d Hr) as Hw. pose proof (radix_pos p) as HRp. assert (radix (p + 1) = BASE * radix p) as ER by (rewrite Nat.add_1_r; apply radix_S).
  pose proof (Z.mod_pos_bound D m ltac:(lia)) as HR. pose proof (Z.div_mod D m ltac:(lia)) as ED. rewrite inU16 in Hqu. unfold subtract_digit. destruct (Z.ltb_spec 0 q) as [Hq0|Hq0].
  2:{ assert (D / m = 0) as E0 by (pose proof (Z.div_pos D m ltac:(lia) ltac:(lia)); lia). exists d. split; [reflexivity|]. split; [reflexivity|]. split; [exact Hr|]. rewrite (valp_split k) by lia. rewrite Hv. do 3 f_equal. lia. }
  rewrite split_at_ok by lia. cbn [mbind res_bind]. set (x := radix (p + 1) - 1 - D + q * m).
  assert (mp_smul dm p (drop k d) (modulus st) q = Ok (put (p + 1) (drop k d) x)) as -> by (unfold x; rewrite <- Hv, <- Em, Nat.add_1_r in *; apply mp_smul_ok; assumption). cbn [mbind res_bind]. rewrite aget_window by exact Hr. cbn [mbind res_bind]. destruct (window_put k (p + 1) d x Hr) as (Hr1 & El1 & Ed1 & Et1 & Ev1). set (d1 := take k d ++ put (p + 1) (drop k d) x) in *.
  destruct Hq as [Eq|Eq].
  - assert (x = radix (p + 1) - 1 - D mod m) as Ex by (unfold x; rewrite Eq; lia). assert (x mod radix (p + 1) = x) as Exm by (apply Z.mod_small; lia). rewrite Exm.
    assert (x / radix p = 65535) as -> by (symmetry; apply (Z.div_unique _ _ _ (x - radix p * 65535)); [left; lia|lia]).
    change (Z.land 65535 32768 =? 0) with false. cbn iota. exists d1. split; [reflexivity|]. split; [exact El1|]. split; [exact Hr1|]. rewrite Ev1, Exm, Ex. reflexivity.
  - assert (x = radix (p + 1) + (m - 1 - D mod m)) as Ex by (unfold x; rewrite Eq; lia). assert (x mod radix (p + 1) = m - 1 - D mod m) as Exm by (rewrite Ex, <- Z.add_mod_idemp_l, Z.mod_same, Z.add_0_l by lia; apply Z.mod_small; lia). rewrite Exm.
    rewrite (Z.div_small (m - 1 - D mod m)) by lia. change (Z.land 0 32768 =? 0) with true. cbn iota. rewrite split_at_ok by (rewrite El1; lia). cbn [mbind res_bind]. rewrite Ed1, Et1.
    pose proof (put_reg (p + 1) (drop k d) x Hw) as Hw1. pose proof (reg_le p (p + 1) _ Hw1 ltac:(lia)) as Hw1p. unfold mp_sub. rewrite mp_subb_ok by assumption. cbn [mbind res_bind Z.b2z].
    assert (valp p (put (p + 1) (drop k d) x) = m - 1 - D mod m) as Ey by (rewrite (valp_mod p 1), valp_put, Exm by exact Hw1; apply Z.mod_small; lia). rewrite Ey, Em, Z.sub_0_r. rewrite (proj2 (Z.ltb_lt _ _)) by lia.
    set (w1 := put (p + 1) (drop k d) x) in *. set (y := m - 1 - D mod m - m) in *. assert (y mod radix p = radix p - 1 - D mod m) as Eym by (unfold y; rewrite <- (Z.mod_add _ 1) by lia; rewrite Z.mod_small by lia; lia).
    destruct (reg_last p w1) as (u & _ & Hu & Eu & Elu); [rewrite <- Nat.add_1_r; exact Hw1|]. rewrite <- Nat.add_1_r in Eu. unfold w1 in Eu at 1. rewrite valp_put, Exm, Ey in Eu. assert (u = 0) as -> by nia.
    assert (length w1 = length (drop k d)) as Lw by (apply length_put; apply Hw). assert (length (take k d) = k) as Lk by (rewrite length_take; lia). rewrite length_drop in Lw.
    assert (put p w1 y !! p = Some 0) as Ept. { unfold put. rewrite lookup_app_r by (rewrite length_units; lia). rewrite length_units, lookup_drop, Nat.sub_diag, Nat.add_0_r. exact Elu. }
    set (d2 := take k d ++ put p w1 y). assert (length d2 = length d) as Ld2 by (unfold d2; rewrite length_app, length_put, Lk by lia; lia).
    assert (d2 !! (k + p)%nat = Some 0) as Ed2 by (unfold d2; rewrite lookup_app_r by lia; rewrite Lk; replace (k + p - k)%nat with p by lia; exact Ept).
    rewrite (proj2 (aget_ok d2 (Z.of_nat (k + p)) 0)) by (rewrite Nat2Z.id; auto with lia). cbn [mbind res_bind]. change (u16 (0 - 1)) with 65535. unfold aset. rewrite (proj2 (Z.leb_le _ _)), (proj2 (Z.ltb_lt _ _)) by lia. cbn [andb]. rewrite Nat2Z.id.
    exists (<[(k + p)%nat := 65535]> d2). split; [reflexivity|]. split; [rewrite length_insert; exact Ld2|].
    assert (Forall (inU 16) d2) as HF2 by (apply Forall_app; split; [apply Forall_take, HF|apply put_reg, Hw1p]). assert (reg (k + (p + 1)) d2) as Hr2 by (split; [lia|exact HF2]).
    split; [split; [rewrite length_insert; lia|apply Forall_insert; [exact HF2|unfold inU; lia]]|].
    rewrite (valp_insert_at (k + (p + 1)) d2 (k + p) 0) by (assumption || lia). rewrite radix_add, valp_split by lia.
    assert (drop k d2 = put p w1 y) as -> by (apply drop_app_length'; lia). assert (valp k d2 = valp k d) as -> by (unfold valp; f_equal; apply take_app_length'; lia).
    rewrite (valp_split p 1) by (rewrite length_put; lia). rewrite valp_put, Eym. assert (valp 1 (drop p (put p w1 y)) = 0) as ->; [|nia]. rewrite (drop_S _ _ _ Ept). reflexivity.
Qed.

(** One turn: [V] loses a multiple of the modulus and is reduced to the next unit. *)
Lemma divide_body_ok st p m k d V (j : Z) : (3 <= p <= MAX_UNIT_PRECISION)%nat -> staged p m st -> radix (p - 1) <= m < radix p -> dm = LP64 \/ mshift st <= 15 ->
  complement_of p V k d -> 0 <= V < m * radix (k + 1) ->
  exists d' V', divide_body dm p st j (d, Z.of_nat (k + p), Z.of_nat k) = Ok (d', Z.of_nat (k + p) - 1, Z.of_nat k - 1) /\ length d' = length d /\
    reg (k + (p + 1)) d' /\ valp (k + p) d' = radix (k + p) - 1 - V' /\ V' mod m = V mod m /\ 0 <= V' < m * radix k.
Proof.
  intros [Hp HpM] ((Hmo & _) & Em & _ & Hdig & Hrec) Hm Hdm [Hr Hv] HV. pose proof Hr as [Hl HF]. pose proof (radix_pos k) as HRk. pose proof (radix_pos p) as HRp. pose proof (radix_pos (p - 1)).
  assert (radix (k + (p + 1)) = radix k * radix (p + 1)) as E1 by apply radix_add. assert (radix (p + 1) = BASE * radix p) as E2 by (rewrite Nat.add_1_r; apply radix_S). assert (radix (k + 1) = BASE * radix k) as E3 by (rewrite Nat.add_1_r; apply radix_S).
  set (D := V / radix k). assert (0 <= D < BASE * m) as HD by (split; [apply Z.div_pos; lia|apply Z.div_lt_upper_bound; nia]).
  pose proof (Z.div_mod V (radix k) ltac:(lia)) as EV. pose proof (Z.mod_pos_bound V (radix k) HRk) as HVm. fold D in EV.
  pose proof (valp_split k (p + 1) d ltac:(lia)) as Es. rewrite Hv in Es. pose proof (valp_range k d (reg_le k _ d Hr ltac:(lia))) as Hlow.
  assert (valp (p + 1) (drop k d) = radix (p + 1) - 1 - D /\ valp k d = radix k - 1 - V mod radix k) as [Ew Ek].
  { rewrite E1 in Es. assert (0 <= radix k - 1 - V mod radix k < radix k) as Hlo2 by lia.
    assert (radix k * valp (p + 1) (drop k d) + valp k d = radix k * (radix (p + 1) - 1 - D) + (radix k - 1 - V mod radix k)) as E by lia.
    exact (Z.div_mod_unique (radix k) _ _ _ _ (or_introl Hlow) (or_introl Hlo2) E). }
  destruct (mp_quo_digit_ok dm st m p d k D Hp Hdig Hrec ltac:(lia) Hdm Hl HF Ew HD) as (q & Eq & Hqu & Hq).
  unfold divide_body. rewrite Eq. cbn [mbind res_bind].
  destruct (reduce_window st p m k d q D ltac:(lia) (reg_le p _ _ Hmo HpM) Em ltac:(lia) Hr Ew HD Hqu Hq) as (d' & -> & Ld' & Hr' & Hv'). cbn [mbind res_bind mret res_ret].
  pose proof (Z.mod_pos_bound D m ltac:(lia)) as HDm. pose proof (Z.div_mod D m ltac:(lia)) as EDm.
  exists d', (D mod m * radix k + V mod radix k). split; [reflexivity|]. split; [exact Ld'|]. split; [exact Hr'|]. split; [|split].
  - replace (k + (p + 1))%nat with (k + p + 1)%nat in Hr', Hv' by lia. rewrite (valp_mod (k + p) 1) by exact Hr'. rewrite Hv', Ek, E2, radix_add. set (Rk := radix k) in *. set (Rp := radix p) in *.
    replace (Rk - 1 - V mod Rk + Rk * (BASE * Rp - 1 - D mod m)) with (Rk * Rp - 1 - (D mod m * Rk + V mod Rk) + 65535 * (Rk * Rp)) by lia. rewrite Z.mod_add by nia. apply Z.mod_small. nia.
  - rewrite EV at 2. rewrite EDm at 2. replace (radix k * (m * (D / m) + D mod m) + V mod radix k) with (D mod m * radix k + V mod radix k + (radix k * (D / m)) * m) by lia. rewrite Z.mod_add by lia. reflexivity.
  - nia.
Qed.

Lemma divide_loop_ok st p m : (3 <= p <= MAX_UNIT_PRECISION)%nat -> staged p m st -> radix (p - 1) <= m < radix p -> dm = LP64 \/ mshift st <= 15 ->
  forall (j : nat) (i : Z) d V, reg (j + p) d -> valp (j + p) d = radix (j + p) - 1 - V -> 0 <= V < m * radix j ->
  exists d', cfor j i (divide_body dm p st) (d, Z.of_nat (j + p) - 1, Z.of_nat j - 1) = Ok (d', Z.of_nat p - 1, -1) /\ length d' = length d /\ reg p d' /\ valp p d' = radix p - 1 - V mod m.
Proof.
  intros Hp Hst Hm Hdm. induction j as [|j IH]; intros i d V Hr Hv HV.
  - rewrite radix_0, Z.mul_1_r in HV. exists d. split; [reflexivity|]. split; [reflexivity|]. split; [exact Hr|]. rewrite Z.mod_small by lia. exact Hv.
  - assert (S j + p = j + (p + 1))%nat as E by lia. rewrite E in *.
    destruct (divide_body_ok st p m j d V i Hp Hst Hm Hdm (conj Hr Hv)) as (d1 & V1 & Eb & L1 & Hr1 & Hv1 & Em1 & HV1); [rewrite Nat.add_1_r; exact HV|].
    replace (Z.of_nat (j + (p + 1)) - 1) with (Z.of_nat (j + p)) by lia. replace (Z.of_nat (S j) - 1) with (Z.of_nat j) by lia. cbn [cfor]. rewrite Eb. cbn [mbind res_bind].
    destruct (IH (i + 1) d1 V1 (reg_le (j + p) (j + (p + 1)) d1 Hr1 ltac:(lia)) Hv1 HV1) as (d' & Ed & L' & Hr' & Hv'). exists d'. split; [exact Ed|]. split; [lia|]. split; [exact Hr'|]. rewrite <- Em1. exact Hv'.
Qed.

(** The product with its leading unit. *)
Lemma wide_product p d N : (p * 2 + 1 <= length d)%nat -> Forall (inU 16) d -> 0 <= N < radix (p + p) ->
  exists d2, aset (put (p + p) d N) (Z.of_nat (p * 2 + 1) - 1) 0 = Ok d2 /\ length d2 = length d /\ reg (p * 2 + 1) d2 /\ valp (p * 2 + 1) d2 = N.
Proof.
  intros Hl HF HN. assert (reg (S (p + p)) (put (p + p) d N)) as Hr by (split; [rewrite length_put; lia|apply (put_reg (p + p) d N); split; [lia|exact HF]]).
  destruct (aset_last (p + p) _ 0 Hr ltac:(unfold inU; lia)) as [Ea Hr2]. replace (Z.of_nat (p * 2 + 1) - 1) with (Z.of_nat (p + p)) by lia. exists (<[(p + p)%nat := 0]> (put (p + p) d N)).
  split; [exact Ea|]. split; [rewrite length_insert, length_put; lia|]. replace (p * 2 + 1)%nat with (S (p + p)) by lia. split; [split; [rewrite length_insert, length_put; lia|apply Hr2]|].
  rewrite (take_last (p + p) _ 0) by (apply list_lookup_insert_eq; rewrite length_put; lia). rewrite valp_insert, valp_put, Z.mod_small by exact HN. lia.
Qed.

Lemma smith_modmult_ok st p m prod a b : (3 <= p <= MAX_UNIT_PRECISION)%nat -> staged p m st -> radix (p - 1) <= m < radix p -> dm = LP64 \/ mshift st <= 15 ->
  (p <= length prod)%nat -> reg p a -> reg p b ->
  exists st', smith_modmult dm p st prod a b = Ok (st', put p prod ((valp p a * valp p b) mod m)) /\ staged p m st' /\ mshift st' = mshift st.
Proof.
  intros Hp Hst Hm Hdm Hprod Ha Hb. pose proof Hst as ((Hmo & Lds & Fds & Hq & Hv) & Em & Elen & Hdig & Hrec). unfold smith_modmult.
  assert (split_at (ds_data st) 1 = Ok (take 1 (ds_data st), drop 1 (ds_data st))) as -> by (apply (split_at_ok _ 1); lia). cbn [mbind res_bind].
  set (d := drop 1 (ds_data st)). assert (length d = (MAX_UNIT_PRECISION * 2 + 1)%nat) as Ld by (unfold d; rewrite length_drop, Lds; lia). assert (Forall (inU 16) d) as Fd by apply Forall_drop, Fds.
  rewrite mp_dmul_ok by (assumption || lia). cbn [mbind res_bind]. set (N := valp p a * valp p b). pose proof (valp_range p a Ha) as Ra. pose proof (valp_range p b Hb) as Rb.
  assert (0 <= N < radix (p + p)) as HN by (rewrite radix_add; unfold N; nia). destruct (wide_product p d N ltac:(lia) Fd HN) as (d2 & -> & L2 & Hr2 & Hv2). cbn [mbind res_bind].
  destruct (significance_ok (p * 2 + 1) d2 ltac:(lia) Hr2) as (s & -> & Hs & Evs & Hlo). cbn [mbind res_bind]. rewrite Elen.
  assert (N < radix s) as Hhi by (rewrite <- Hv2, Evs; apply valp_range, (reg_le s _ _ Hr2 Hs)).
  match goal with |- context [(if Z.of_nat p <=? Z.of_nat s then ?X else ?Y) ≫= _] => assert (exists d', (if Z.of_nat p <=? Z.of_nat s then X else Y) = Ok d' /\ length d' = length d /\ reg p d' /\ valp p d' = N mod m) as (d' & -> & L' & Hr' & Hv') end.
  - pose proof (radix_pos (p - 1)) as HR1. destruct (Z.leb_spec (Z.of_nat p) (Z.of_nat s)) as [Hps|Hps].
    + assert (s <= p + p)%nat as Hs2. { destruct (Nat.le_gt_cases s (p + p)) as [|Hgt]; [assumption|exfalso]. specialize (Hlo ltac:(lia)). replace (pred s) with (p + p)%nat in Hlo by lia. rewrite Hv2 in Hlo. lia. }
      set (w := (p * 2 + 1)%nat) in *. assert (radix (p + p) < radix w) as HRw by (rewrite !radix_pow; apply Z.pow_lt_mono_r; unfold w; lia).
      rewrite mp_inc_ok by (assumption || (unfold w; lia)). cbn [mbind res_bind]. rewrite mp_neg_ok by (try apply put_reg; assumption || (unfold w; lia)). cbn [mbind res_bind]. rewrite valp_put, put_put, Hv2, (Z.mod_small (N + 1)) by lia.
      set (d3 := put w d2 (- (N + 1))). assert (reg w d3) as Hr3 by apply put_reg, Hr2. assert (valp w d3 = radix w - 1 - N) as Hv3 by (unfold d3; rewrite valp_put, <- (Z.mod_add _ 1) by lia; rewrite Z.mod_small by lia; lia).
      set (j := (s + 1 - p)%nat). replace (Z.to_nat (Z.of_nat s + 1 - Z.of_nat p)) with j by (unfold j; lia). assert (j + p = s + 1)%nat as Ej by (unfold j; lia).
      assert (valp (j + p) d3 = radix (j + p) - 1 - N) as Hv4.
      { assert (j + p + (w - (j + p)) = w)%nat as Ew by (unfold w in *; lia). rewrite (valp_mod (j + p) (w - (j + p))) by (rewrite Ew; exact Hr3). rewrite Ew, Hv3, <- Ew, radix_add. rewrite Ej in *. pose proof (radix_pos s). assert (radix (s + 1) = BASE * radix s) as E1 by (rewrite Nat.add_1_r; apply radix_S).
        set (K := radix (w - (s + 1))). replace (radix (s + 1) * K - 1 - N) with (radix (s + 1) - 1 - N + (K - 1) * radix (s + 1)) by lia. rewrite Z.mod_add by lia. apply Z.mod_small. lia. }
      destruct (divide_loop_ok st p m Hp Hst Hm Hdm j 0 d3 N) as (d4 & Ec & L4 & Hr4 & Hv5); [apply (reg_le _ w); [exact Hr3|unfold w; lia]|exact Hv4| |].
      { split; [lia|]. apply Z.lt_le_trans with (radix s); [exact Hhi|]. replace s with (p - 1 + j)%nat at 1 by lia. rewrite radix_add. apply Z.mul_le_mono_nonneg_r; [pose proof (radix_pos j); lia|lia]. }
      replace (Z.of_nat (j + p) - 1) with (Z.of_nat s) in Ec by lia. replace (Z.of_nat j - 1) with (Z.of_nat s - Z.of_nat p) in Ec by lia. rewrite Ec. cbn [mbind res_bind].
      pose proof (Z.mod_pos_bound N m ltac:(lia)) as Hmod. rewrite mp_neg_ok by (assumption || lia). cbn [mbind res_bind]. rewrite mp_dec_ok by (try apply put_reg; assumption || lia). cbn [mbind res_bind mret res_ret]. rewrite valp_put, put_put, Hv5.
      assert ((- (radix p - 1 - N mod m)) mod radix p = N mod m + 1) as -> by (rewrite <- (Z.mod_add _ 1) by lia; rewrite Z.mod_small by lia; lia). rewrite Z.add_simpl_r.
      eexists. split; [reflexivity|]. split; [rewrite length_put by apply Hr4; rewrite L4; unfold d3; rewrite length_put by apply Hr2; exact L2|]. split; [apply put_reg, Hr4|]. rewrite valp_put. apply Z.mod_small. lia.
    + exists d2. split; [reflexivity|]. split; [exact L2|]. pose proof (reg_le p _ _ Hr2 ltac:(lia)) as Hr2p. split; [exact Hr2p|].
      assert (radix s <= radix (p - 1)) by (rewrite !radix_pow; apply Z.pow_le_mono_r; lia). rewrite (valp_mod p (p + 1)) by (replace (p + (p + 1))%nat with (p * 2 + 1)%nat by lia; exact Hr2).
      replace (p + (p + 1))%nat with (p * 2 + 1)%nat by lia. rewrite Hv2, !Z.mod_small by lia. reflexivity.
  - cbn [mbind res_bind]. rewrite mp_move_ok by assumption. cbn [mbind res_bind mret res_ret]. rewrite Hv'. eexists. split; [reflexivity|]. split; [|reflexivity].
    unfold staged, smith_wf. cbn [modulus ds_data mod_quotient mod_divisor modlenMULTUNITS mshift reciph recipl]. split; [|auto]. split; [exact Hmo|].
    split; [rewrite length_app, length_take, L', Ld; lia|]. split; [apply Forall_app; split; [apply Forall_take, Fds|apply Hr']|auto].
Qed.
End Divide.

(** * Smith's modular multiplication *)

(** C8: After stage_smith_modulus has staged a modulus of three or more units, smith_modmult
    computes the product modulo the modulus of every two operands of its precision, without
    leaving an array, and keeps the modulus staged: the trial digit that mp_quo_digit takes from
    a two-unit reciprocal is never too small and is at most one too large, which one correction
    repairs. It holds for 64-bit long, and for 32-bit long where the highest bit of the highest
    unit of the modulus is not set. *)
Theorem smith_modmult_correct dm st p n prod a b : (3 <= p <= MAX_UNIT_PRECISION)%nat -> smith_wf st -> reg p n -> radix (p - 1) <= valp p n ->
  dm = LP64 \/ 2 * valp p n < radix p -> (p <= length prod)%nat -> reg p a -> reg p b ->
  exists st1 st2, stage_smith_modulus p st n = Ok st1 /\ smith_modmult dm p st1 prod a b = Ok (st2, put p prod ((valp p a * valp p b) mod valp p n)) /\
    staged p (valp p n) st2 /\ mshift st2 = mshift st1.
Proof.
  intros Hp Hst Hn Hm Hdm Hprod Ha Hb. destruct (stage_ok p st n Hp Hst Hn Hm) as (st1 & E1 & Hst1 & Hms).
  destruct (smith_modmult_ok dm st1 p (valp p n) prod a b Hp Hst1) as (st2 & E2 & Hst2 & Hms2); [split; [exact Hm|apply valp_range, Hn]|destruct Hdm; auto|assumption..|].
  exists st1, st2. auto.
Qed.

(** Where unsigned long has 32 bits, a modulus whose highest bit is set makes the trial
    digit overflow: the square of 2^64-60 modulo 2^64-59 is computed as 253403066984, and not as
    1. *)
Theorem smith_ilp32_overflow : let m := 2 ^ 64 - 59 in
  smith_square LP64 m = Ok ((m - 1) * (m - 1) mod m) /\ (m - 1) * (m - 1) mod m = 1 /\ smith_square ILP32 m = Ok 253403066984.
Proof. cbv zeta. split; [vm_compute; reflexivity|]. split; vm_compute; reflexivity. Qed.

(** The arrays are only emptied up to the half. *)
Lemma smith_burn_half st : smith_wf st -> exists st', smith_burn st = Ok st' /\ drop (length (modulus st) / 2) (modulus st') = drop (length (modulus st) / 2) (modulus st).
Proof.
  intros ([L1 F1] & L2 & F2 & [L3 F3] & [L4 F4]). unfold smith_burn, empty_array. assert (forall r : list Z, (length r / 2 <= length r)%nat) as Hl by (intros r; apply Nat.Div0.div_le_upper_bound; lia).
  rewrite !unitfill0_ok by apply Hl. cbn [mbind res_bind mret res_ret]. eexists. split; [reflexivity|]. cbn [modulus]. apply drop_put.
Qed.

Lemma init_smith_wf : smith_wf init_smith.
Proof. unfold smith_wf. split; [by_eval|]. split; [reflexivity|]. split; [by_eval|]. split; by_eval. Qed.

Lemma smith_modmult_correct_witness : let n := [5; 6; 7; 0x8000] in let a := [1; 2; 3; 4] in let z := [0; 0; 0; 0] in
  (3 <= 4 <= MAX_UNIT_PRECISION)%nat /\ smith_wf init_smith /\ reg 4 n /\ radix 3 <= valp 4 n /\ reg 4 a /\
  exists st1 st2, stage_smith_modulus 4 init_smith n = Ok st1 /\ smith_modmult LP64 4 st1 z a a = Ok (st2, put 4 z ((valp 4 a * valp 4 a) mod valp 4 n)).
Proof.
  intros n a z. assert (3 <= 4 <= MAX_UNIT_PRECISION)%nat as Hp by (unfold MAX_UNIT_PRECISION; lia). assert (reg 4 n) as Hn by by_eval. assert (radix (4 - 1) <= valp 4 n) as Hm by (vm_compute; discriminate). assert (reg 4 a) as Ha by by_eval.
  split; [exact Hp|]. split; [exact init_smith_wf|]. split; [exact Hn|]. split; [exact Hm|]. split; [exact Ha|].
  destruct (smith_modmult_correct LP64 init_smith 4 n z a a Hp init_smith_wf Hn Hm (or_introl eq_refl) ltac:(cbn; lia) Ha Ha) as (st1 & st2 & E1 & E2 & _). exists st1, st2. split; [exact E1|exact E2].
Defined.
