(* ===== verification/MpiExp.v ===== *)
(** Modular exponentiation in the multiprecision library of pgp (src/mibench/security/pgp/src/mpilib.c),
    by squaring with Smith's modular multiplication, and its variant by the Chinese remainder theorem. *)
From stdpp Require Import base list numbers option tactics.
From Stdlib Require Import ZArith Zpow_facts Lia.
From S2P Require Import Prelude Mpi MpiDiv MpiSmith.

(** * The code *)

Section Code.
Context (dm : data_model).
Implicit Types (st : smith) (prec : nat).

Definition SMITH_SLOP_BITS : Z := 0.

(** [mp_modsquare(product, expout)], and [mp_modmult(expout, product, expin)] for a one bit. *)
Definition modexp_body prec (expin exponent : list Z) (x : smith * list Z * list Z * sniffer) : res (smith * list Z * list Z * sniffer) :=
  let '(st, expout, product, at_) := x in
  '(st, product) ← smith_modmult dm prec st product expout expout;
  b ← sniff_bit exponent at_;
  '(st, expout) ← (if b : bool then smith_modmult dm prec st expout product expin else expout ← mp_move prec expout product; mret (st, expout));
  mret (st, expout, product, bump_bitsniffer at_).

(** The status, the static variables and the result. *)
Definition mp_modexp prec st (expout expin exponent modulus : list Z) : res (Z * smith * list Z) :=
  expout ← mp_init prec expout 1;
  z ← testeq prec exponent 0;
  if z : bool then z ← testeq prec expin 0; mret (if z : bool then -1 else 0, st, expout)
  else
    z ← testeq prec modulus 0;
    if z : bool then mret (-2, st, expout)
    else
      c ← mp_compare prec expin modulus;
      if 0 <=? c then mret (-3, st, expout)
      else
        c ← mp_compare prec exponent modulus;
        if 0 <=? c then mret (-4, st, expout)
        else
          n ← countbits prec modulus;
          let prec := Z.to_nat (bits2units (n + SMITH_SLOP_BITS)) in
          st ← stage_smith_modulus prec st modulus;
          x ← init_bitsniffer prec exponent;
          match x with
          | None => mret (0, st, expout)
          | Some (bits, at_) =>
              expout ← mp_move prec expout expin;
              '(st, expout, _, _) ← for_bits (bits - 1) (modexp_body prec expin exponent) (st, expout, replicate MAX_UNIT_PRECISION 0, bump_bitsniffer at_);
              st ← smith_burn st; mret (0, st, expout)
          end.

(** The local arrays are written before they are read, unless a modulus is zero. *)
Definition mp_modexp_crt prec st (expout expin p q ep eq u : list Z) : res (Z * smith * list Z) :=
  let local := replicate MAX_UNIT_PRECISION 0 in
  '(_, temp) ← mp_mod prec local expin p;
  '(status, st, expout) ← mp_modexp prec st expout temp ep p;
  if status <? 0 then expout ← mp_init prec expout 1; mret (status, st, expout)
  else
    '(_, temp) ← mp_mod prec temp expin q;
    '(status, st, q2) ← mp_modexp prec st local temp eq q;
    if status <? 0 then expout ← mp_init prec expout 1; mret (status, st, expout)
    else
      '(q2, borrow) ← mp_sub prec q2 expout;
      q2 ← (if borrow : bool then '(q2, _) ← mp_add prec q2 q; mret q2 else mret q2);
      temp ← mp_mult prec temp q2 u;
      '(_, q2) ← mp_mod prec q2 temp q;
      temp ← mp_mult prec temp p q2;
      '(expout, _) ← mp_add prec expout temp;
      mret (0, st, expout).
End Code.

Example modexp_run : let n := units 4 (2 ^ 61 - 1) in
  ('(s, _, r) ← mp_modexp LP64 4 init_smith (units 4 0) (units 4 3) (units 4 (2 ^ 60)) n; mret (s, valp 4 r)) = Ok (0, 2 ^ 61 - 1 - 3).
Proof. vm_compute. reflexivity. Qed.

(** * Exponentiation *)

Section Modexp.
Context (dm : data_model).
Implicit Types (st : smith) (p n : nat) (m : Z).

Lemma empty_array_ok r : Forall (inU 16) r -> exists r', empty_array r = Ok r' /\ length r' = length r /\ Forall (inU 16) r'.
Proof.
  intros HF. pose proof (Nat.Div0.div_le_upper_bound (length r) 2 (length r) ltac:(lia)) as Hl. unfold empty_array. rewrite unitfill0_ok by exact Hl.
  eexists. split; [reflexivity|]. split; [apply length_put, Hl|]. apply (put_reg _ r 0). split; assumption.
Qed.
Lemma smith_burn_ok st : smith_wf st -> exists st', smith_burn st = Ok st' /\ smith_wf st'.
Proof.
  intros ([L1 F1] & L2 & F2 & [L3 F3] & [L4 F4]). unfold smith_burn.
  destruct (empty_array_ok _ F1) as (m & -> & E1 & G1). destruct (empty_array_ok _ F2) as (d & -> & E2 & G2). destruct (empty_array_ok _ F3) as (q & -> & E3 & G3). destruct (empty_array_ok _ F4) as (v & -> & E4 & G4).
  cbn [mbind res_bind mret res_ret]. eexists. split; [reflexivity|]. unfold smith_wf, reg. cbn [modulus ds_data mod_quotient mod_divisor]. rewrite E1, E2, E3, E4. auto 10.
Qed.

(** The state when the bits from [n] down are left: the power of the prefix. *)
Definition modexp_inv p m (out expin : list Z) (E n : Z) (x : smith * list Z * list Z * sniffer) : Prop :=
  exists st product, x = (st, put p out (valp p expin ^ (E / 2 ^ n) mod m), product, at_bit (n - 1)) /\ staged p m st /\ (dm = LP64 \/ mshift st <= 15) /\ reg p product.

Lemma modexp_body_ok p m out expin exponent (n : Z) x : (3 <= p <= MAX_UNIT_PRECISION)%nat -> radix (p - 1) <= m < radix p -> reg p out -> reg p expin -> reg p exponent -> 0 <= n < 16 * Z.of_nat p ->
  modexp_inv p m out expin (valp p exponent) (n + 1) x -> okp (modexp_body dm p expin exponent x) (modexp_inv p m out expin (valp p exponent) n).
Proof.
  intros Hp Hm Hout Hin Hexp Hn (st & product & -> & Hst & Hdm & Hpr). unfold modexp_body. set (B := valp p expin). set (E := valp p exponent). set (a := B ^ (E / 2 ^ (n + 1)) mod m).
  pose proof (radix_pos (p - 1)) as HR. pose proof (valp_range p expin Hin) as HB. pose proof (valp_range p exponent Hexp) as HE. fold B in HB. fold E in HE.
  assert (0 <= a < m) as Ha by (apply Z.mod_pos_bound; lia). assert (valp p (put p out a) = a) as Ea by (rewrite valp_put; apply Z.mod_small; lia).
  destruct (smith_modmult_ok dm st p m product (put p out a) (put p out a) Hp Hst Hm Hdm (proj1 Hpr) (put_reg _ _ _ Hout) (put_reg _ _ _ Hout)) as (st1 & -> & Hst1 & Hms1). cbn [mbind res_bind]. rewrite Ea.
  rewrite Z.add_simpl_r, (sniff_ok p) by assumption. cbn [mbind res_bind]. fold E. assert (0 <= a * a mod m < m) as Haa by (apply Z.mod_pos_bound; lia).
  assert (B ^ (E / 2 ^ n) mod m = (a * a mod m) * B ^ Z.b2z (Z.testbit E n) mod m) as Epow.
  { rewrite (prefix_step E n) by lia. assert (0 <= E / 2 ^ (n + 1)) by (apply Z.div_pos; lia). rewrite Z.pow_add_r by (try lia; destruct (Z.testbit E n); cbn; lia).
    rewrite <- Z.add_diag, Z.pow_add_r by lia. rewrite (Z.mul_mod_idemp_l (a * a)) by lia. unfold a. rewrite <- (Z.mul_mod_idemp_l (_ * _)) by lia. rewrite (Z.mul_mod (B ^ (E / 2 ^ (n + 1)))) by lia. rewrite Z.mul_mod_idemp_l by lia. reflexivity. }
  rewrite bump_ok. destruct (Z.testbit E n) eqn:Eb; cbn [Z.b2z] in Epow.
  - destruct (smith_modmult_ok dm st1 p m (put p out a) (put p product (a * a mod m)) expin Hp Hst1 Hm) as (st2 & -> & Hst2 & Hms2); [rewrite Hms1; exact Hdm|rewrite length_put; apply Hout|apply put_reg, Hpr|exact Hin|].
    cbn [mbind res_bind mret res_ret okp]. exists st2, (put p product (a * a mod m)). split; [|split; [exact Hst2|]; split; [rewrite Hms2, Hms1; exact Hdm|apply put_reg, Hpr]].
    rewrite put_put, valp_put, (Z.mod_small (a * a mod m) (radix p)) by lia. fold B E. rewrite Epow, Z.pow_1_r. reflexivity.
  - rewrite mp_move_ok by (try apply put_reg; try assumption; rewrite length_put; apply Hout). cbn [mbind res_bind mret res_ret okp]. exists st1, (put p product (a * a mod m)).
    split; [|split; [exact Hst1|]; split; [rewrite Hms1; exact Hdm|apply put_reg, Hpr]]. rewrite put_put, valp_put, (Z.mod_small (a * a mod m) (radix p)) by lia. fold B E. rewrite Epow, Z.pow_0_r, Z.mul_1_r, (Z.mod_small (a * a mod m)) by lia. reflexivity.
Qed.

Lemma valp_small p k r : reg (p + k) r -> valp (p + k) r < radix p -> valp p r = valp (p + k) r.
Proof. intros Hr Hv. symmetry. apply (put_wider p k r 0 Hr Hv). pose proof (radix_pos p). lia. Qed.

Lemma units_of m (n : nat) : 0 < m < radix n -> let p := Z.to_nat (bits2units (Z.log2 m + 1 + SMITH_SLOP_BITS)) in (0 < p <= n)%nat /\ radix (p - 1) <= m < radix p /\ Z.of_nat p = Z.log2 m / 16 + 1.
Proof.
  intros Hm p. pose proof (Z.log2_nonneg m). assert (Z.of_nat p = Z.log2 m / 16 + 1) as E by (unfold p, SMITH_SLOP_BITS, bits2units; rewrite Z.shiftr_div_pow2 by lia; change (2 ^ 4) with 16; rewrite Z2Nat.id by dlia; dlia).
  assert (Z.log2 m < 16 * Z.of_nat n) by (apply Z.log2_lt_pow2; [lia|]; rewrite <- radix_pow; lia). split; [split; dlia|]. split; [|exact E]. pose proof (Z.log2_spec m ltac:(lia)) as [L1 L2]. rewrite !radix_pow. split.
  - apply Z.le_trans with (2 ^ Z.log2 m); [apply Z.pow_le_mono_r; dlia|exact L1].
  - apply Z.lt_le_trans with (2 ^ Z.succ (Z.log2 m)); [exact L2|apply Z.pow_le_mono_r; dlia].
Qed.

Lemma modexp_main p n st out expin exponent md (E m : Z) : (3 <= p <= MAX_UNIT_PRECISION)%nat -> (p <= n)%nat -> smith_wf st -> reg n out -> valp n out < radix p -> reg n expin -> reg n exponent -> reg n md -> valp n md = m -> radix (p - 1) <= m < radix p ->
  dm = LP64 \/ 2 * m < radix p -> valp n expin < m -> valp n exponent = E -> 0 < E < m ->
  okp (st ← stage_smith_modulus p st md; x ← init_bitsniffer p exponent;
       match x with
       | None => mret (0, st, out)
       | Some (bits, at_) =>
           out ← mp_move p out expin;
           '(st, out, _, _) ← for_bits (bits - 1) (modexp_body dm p expin exponent) (st, out, replicate MAX_UNIT_PRECISION 0, bump_bitsniffer at_);
           st ← smith_burn st; mret (0, st, out)
       end) (fun x => x.1.1 = 0 /\ smith_wf x.1.2 /\ x.2 = put n out (valp n expin ^ E mod m)).
Proof.
  intros Hp Hpn Hst Hout Ho Hin Hexp Hmd Em Hm Hdm HB EE HE. destruct (Nat.le_exists_sub p n Hpn) as (k & -> & _). rewrite (Nat.add_comm k) in *.
  assert (forall r, reg (p + k) r -> reg p r) as Hreg by (intros r Hr; apply (reg_le p _ r Hr); lia).
  assert (valp p md = m) as Em' by (rewrite (valp_small p k); rewrite ?Em; (assumption || lia)). assert (valp p expin = valp (p + k) expin) as Ein by (apply valp_small; [assumption|lia]). assert (valp p exponent = E) as EE' by (rewrite (valp_small p k); rewrite ?EE; (assumption || lia)).
  destruct (stage_ok p st md Hp Hst (Hreg _ Hmd)) as (st1 & -> & Hst1 & Hms1); [rewrite Em'; apply Hm|]. rewrite Em' in *. cbn [mbind res_bind].
  rewrite init_bitsniffer_ok by (try apply Hreg; assumption || lia). cbn [mbind res_bind]. rewrite EE', (proj2 (Z.eqb_neq E 0)) by lia. rewrite mp_move_ok by (try apply Hreg; try assumption; apply (Hreg _ Hout)). cbn [mbind res_bind]. rewrite Z.add_simpl_r, bump_ok.
  pose proof (bits_range p E ltac:(lia)) as Hlog. pose proof (Z.log2_spec E ltac:(lia)) as [L1 L2].
  assert (reg p (replicate MAX_UNIT_PRECISION 0)) as Hrep by (split; [rewrite length_replicate; apply Hp|apply Forall_replicate; unfold inU; lia]).
  pose proof (for_bits_inv (modexp_inv p m out expin E) (modexp_body dm p expin exponent) (Z.log2 E) (st1, put p out (valp p expin), replicate MAX_UNIT_PRECISION 0, at_bit (Z.log2 E - 1))) as H.
  apply okp_ok in H as (x & -> & st2 & product & -> & Hst2 & _ & _); [|lia| |].
  - cbn [mbind res_bind]. destruct (smith_burn_ok st2 (proj1 Hst2)) as (st3 & -> & Hst3). cbn [mbind res_bind mret res_ret okp fst snd]. split; [reflexivity|]. split; [exact Hst3|].
    change (2 ^ 0) with 1. rewrite Z.div_1_r, Ein. apply put_wider; [exact Hout|exact Ho|]. pose proof (radix_pos (p - 1)). pose proof (Z.mod_pos_bound (valp (p + k) expin ^ E) m ltac:(lia)). lia.
  - exists st1, (replicate MAX_UNIT_PRECISION 0). split; [|split; [exact Hst1|]; split; [|exact Hrep]].
    + assert (E / 2 ^ Z.log2 E = 1) as -> by (symmetry; apply (Z.div_unique _ _ _ (E - 2 ^ Z.log2 E)); [left; rewrite Z.pow_succ_r in L2 by lia; lia|lia]). rewrite Z.pow_1_r, Z.mod_small; [reflexivity|]. rewrite Ein. pose proof (valp_range _ _ Hin). lia.
    + destruct Hdm as [->|H2]; [left; reflexivity|right; apply Hms1, H2].
  - intros i a Hi Ha. rewrite <- EE' in *. apply modexp_body_ok; (assumption || (apply Hreg; assumption) || lia).
Qed.

(** The status of [mp_modexp]. *)
Definition modexp_status (B E m : Z) : Z :=
  if E =? 0 then (if B =? 0 then -1 else 0) else if m =? 0 then -2 else if m <=? B then -3 else if m <=? E then -4 else 0.
(** Words of 32 bits overflow for moduli whose top bit is the top bit of a unit. *)
Definition word_ok (m : Z) : Prop := dm = LP64 \/ (Z.log2 m + 1) mod 16 <> 0.

Lemma word_ok_radix m p : 0 < m -> Z.of_nat p = Z.log2 m / 16 + 1 -> word_ok m -> dm = LP64 \/ 2 * m < radix p.
Proof.
  intros Hm Ep [->|Hw]; [left; reflexivity|right]. pose proof (Z.log2_spec m Hm) as [_ L2]. pose proof (Z.log2_nonneg m). rewrite Z.pow_succ_r in L2 by lia.
  apply Z.lt_le_trans with (2 * (2 * 2 ^ Z.log2 m)); [lia|]. rewrite radix_pow, <- !Z.pow_succ_r by lia. apply Z.pow_le_mono_r; dlia.
Qed.
Lemma units_three m n p : 2 ^ 32 <= m < radix n -> (n <= MAX_UNIT_PRECISION)%nat -> (0 < p <= n)%nat -> Z.of_nat p = Z.log2 m / 16 + 1 -> (3 <= p <= MAX_UNIT_PRECISION)%nat.
Proof. intros Hm Hn Hp Ep. assert (32 <= Z.log2 m) by (apply Z.log2_le_pow2; lia). split; [dlia|lia]. Qed.

Lemma mp_modexp_ok n st out expin exponent md : (0 < n <= MAX_UNIT_PRECISION)%nat -> smith_wf st -> reg n out -> reg n expin -> reg n exponent -> reg n md ->
  2 ^ 32 <= valp n md -> word_ok (valp n md) ->
  okp (mp_modexp dm n st out expin exponent md) (fun x => x.1.1 = modexp_status (valp n expin) (valp n exponent) (valp n md) /\ smith_wf x.1.2 /\
    x.2 = put n out (if x.1.1 <? 0 then 1 else valp n expin ^ valp n exponent mod valp n md)).
Proof.
  intros [Hn HnM] Hst Hout Hin Hexp Hmd Hm Hw. unfold mp_modexp, modexp_status. assert (inU 16 1) as H1 by (unfold inU; lia). assert (inU 16 0) as H0 by (unfold inU; lia).
  rewrite mp_init_ok by (try assumption; apply Hout). cbn [mbind res_bind]. rewrite !testeq_ok by assumption. cbn [mbind res_bind mret res_ret].
  set (B := valp n expin) in *. set (E := valp n exponent) in *. set (m := valp n md) in *. destruct (Z.eqb_spec E 0) as [->|HE].
  { cbn [okp fst snd]. split; [reflexivity|]. split; [exact Hst|]. rewrite Z.pow_0_r, Z.mod_1_l by lia. destruct (B =? 0); reflexivity. }
  rewrite (proj2 (Z.eqb_neq m 0)) by lia. rewrite !mp_compare_ok by assumption. cbn [mbind res_bind]. fold B E m. rewrite !cmpz_ge. destruct (Z.leb_spec m B) as [HB|HB]; [cbn [mret res_ret okp fst snd]; auto|].
  destruct (Z.leb_spec m E) as [HEm|HEm]; [cbn [mret res_ret okp fst snd]; auto|]. rewrite countbits_ok by assumption. cbn [mbind res_bind]. fold m. rewrite (proj2 (Z.eqb_neq m 0)) by lia.
  pose proof (valp_range n md Hmd) as Hmr. fold m in Hmr. destruct (units_of m n ltac:(lia)) as (Hp & Hmp & Ep). set (p := Z.to_nat _) in *.
  pose proof (valp_range n exponent Hexp) as HEr. fold E in HEr.
  eapply okp_mono; [apply (modexp_main p n st (put n out 1) expin exponent md E m)|].
  - apply (units_three m n); (assumption || lia).
  - lia.
  - exact Hst.
  - apply put_reg, Hout.
  - rewrite valp_put. pose proof (radix_pos (p - 1)). rewrite Z.mod_small; lia.
  - exact Hin.
  - exact Hexp.
  - exact Hmd.
  - reflexivity.
  - exact Hmp.
  - apply word_ok_radix; (assumption || lia).
  - exact HB.
  - reflexivity.
  - lia.
  - intros [[s0 st'] r] (E1 & E2 & E3). cbn [fst snd] in *. subst s0. split; [reflexivity|]. split; [exact E2|]. rewrite E3, put_put. reflexivity.
Qed.

(** Smaller moduli: the copy of the three highest units starts before the array. *)
Lemma mp_modexp_small n st out expin exponent md : (0 < n)%nat -> (n <= length (modulus st))%nat -> Forall (inU 16) (modulus st) -> reg n out -> reg n expin -> reg n exponent -> reg n md ->
  valp n expin < valp n md -> 0 < valp n exponent < valp n md -> valp n md < 2 ^ 32 -> mp_modexp dm n st out expin exponent md = Err OutOfBounds.
Proof.
  intros Hn Hmo Fmo Hout Hin Hexp Hmd HB HE Hm. unfold mp_modexp. assert (inU 16 1) as H1 by (unfold inU; lia). assert (inU 16 0) as H0 by (unfold inU; lia).
  rewrite mp_init_ok by (try assumption; apply Hout). cbn [mbind res_bind]. rewrite !testeq_ok by assumption. cbn [mbind res_bind mret res_ret]. rewrite (proj2 (Z.eqb_neq (valp n exponent) 0)), (proj2 (Z.eqb_neq (valp n md) 0)) by lia.
  rewrite !mp_compare_ok by assumption. cbn [mbind res_bind]. rewrite !cmpz_ge, (proj2 (Z.leb_gt _ _) HB), (proj2 (Z.leb_gt _ _) (proj2 HE)), countbits_ok by assumption. cbn [mbind res_bind]. rewrite (proj2 (Z.eqb_neq (valp n md) 0)) by lia.
  set (m := valp n md) in *. pose proof (valp_range n md Hmd) as Hmr. fold m in Hmr. destruct (units_of m n ltac:(lia)) as (Hp & Hmp & Ep). set (p := Z.to_nat _) in *. unfold stage_smith_modulus.
  destruct (Nat.le_exists_sub p n ltac:(lia)) as (k & En & _). assert (valp p md = m) as Em by (rewrite (valp_small p k); replace (p + k)%nat with n by lia; (reflexivity || assumption || (fold m; lia))).
  assert (reg p (modulus st)) as Hrm by (split; [lia|exact Fmo]). rewrite (mp_move_ok p (modulus st) md (proj1 Hrm) (reg_le p n md Hmd ltac:(lia))). cbn [mbind res_bind]. rewrite Em. pose proof (put_reg p (modulus st) m Hrm) as Hpm.
  rewrite countbits_ok by (assumption || lia). cbn [mbind res_bind]. rewrite significance_full by (try assumption; try lia; rewrite valp_put, Z.mod_small by (pose proof (radix_pos (p - 1)); lia); lia). cbn [mbind res_bind].
  assert (Z.log2 m < 32) by (apply Z.log2_lt_pow2; lia). rewrite (proj2 (Nat.leb_gt 3 p)) by dlia. reflexivity.
Qed.

(** A zero exponent, and the refusals, in the order of the tests. *)
Lemma mp_modexp_zero n st out expin exponent md : (0 < n)%nat -> reg n out -> reg n expin -> reg n exponent -> valp n exponent = 0 ->
  mp_modexp dm n st out expin exponent md = Ok (if valp n expin =? 0 then -1 else 0, st, put n out 1).
Proof.
  intros Hn Hout Hin Hexp HE. unfold mp_modexp. assert (inU 16 1) as H1 by (unfold inU; lia). assert (inU 16 0) as H0 by (unfold inU; lia).
  rewrite mp_init_ok by (try assumption; apply Hout). cbn [mbind res_bind]. rewrite (testeq_ok n exponent), (testeq_ok n expin) by assumption. rewrite HE. reflexivity.
Qed.
Definition modexp_refused (B E m : Z) : option Z :=
  if m =? 0 then Some (-2) else if m <=? B then Some (-3) else if m <=? E then Some (-4) else None.
Lemma mp_modexp_refuses n st out expin exponent md v : (0 < n)%nat -> reg n out -> reg n expin -> reg n exponent -> reg n md -> 0 < valp n exponent ->
  modexp_refused (valp n expin) (valp n exponent) (valp n md) = Some v ->
  mp_modexp dm n st out expin exponent md = Ok (v, st, put n out 1).
Proof.
  intros Hn Hout Hin Hexp Hmd HE Hv. unfold mp_modexp, modexp_refused in *. assert (inU 16 1) as H1 by (unfold inU; lia). assert (inU 16 0) as H0 by (unfold inU; lia).
  rewrite mp_init_ok by (try assumption; apply Hout). cbn [mbind res_bind]. rewrite !testeq_ok by assumption. cbn [mbind res_bind]. rewrite (proj2 (Z.eqb_neq (valp n exponent) 0)) by lia.
  destruct (Z.eqb_spec (valp n md) 0); [injection Hv as <-; reflexivity|]. rewrite !mp_compare_ok by assumption. cbn [mbind res_bind]. rewrite !cmpz_ge.
  destruct (valp n md <=? valp n expin); [injection Hv as <-; reflexivity|].
  destruct (valp n md <=? valp n exponent); [injection Hv as <-; reflexivity|discriminate].
Qed.

(** ** The Chinese remainder theorem *)

(** Garner's recombination. *)
Lemma garner (P Q U p2 q2 t : Z) : 0 < P -> 0 < Q -> 0 <= p2 < P -> (U * P) mod Q = 1 mod Q -> t mod Q = (q2 - p2) mod Q ->
  let x := p2 + P * ((t * U) mod Q) in 0 <= x < P * Q /\ x mod P = p2 /\ x mod Q = q2 mod Q.
Proof.
  intros HP HQ Hp2 HU Ht x. pose proof (Z.mod_pos_bound (t * U) Q HQ) as Hh. split; [unfold x; nia|]. split.
  - unfold x. rewrite (Z.mul_comm P), Z.mod_add by lia. apply Z.mod_small, Hp2.
  - unfold x. rewrite <- Z.add_mod_idemp_r, Z.mul_mod_idemp_r by lia. replace (P * (t * U)) with (t * (U * P)) by lia. rewrite <- Z.mul_mod_idemp_r, HU, Z.mul_mod_idemp_r, Z.mul_1_r by lia.
    rewrite Ht, Z.add_mod_idemp_r by lia. f_equal. lia.
Qed.

Lemma modexp_good n st out expin exponent md (C : Z) : (0 < n <= MAX_UNIT_PRECISION)%nat -> smith_wf st -> reg n out -> reg n expin -> reg n exponent -> reg n md ->
  2 ^ 32 <= valp n md -> word_ok (valp n md) -> valp n expin = C mod valp n md -> 0 < valp n exponent < valp n md ->
  exists st', mp_modexp dm n st out expin exponent md = Ok (0, st', put n out (C ^ valp n exponent mod valp n md)) /\ smith_wf st'.
Proof.
  intros Hn Hst Hout Hin Hexp Hmd Hm Hw EC HE. pose proof (mp_modexp_ok n st out expin exponent md Hn Hst Hout Hin Hexp Hmd Hm Hw) as H. apply okp_ok in H as ([[s st'] r] & -> & E1 & Hst' & E2). cbn [fst snd] in *.
  pose proof (Z.mod_pos_bound C (valp n md) ltac:(lia)). unfold modexp_status in E1. rewrite (proj2 (Z.eqb_neq _ _)), (proj2 (Z.eqb_neq _ _)), (proj2 (Z.leb_gt _ _)), (proj2 (Z.leb_gt _ _)) in E1 by lia. subst s.
  exists st'. split; [|exact Hst']. rewrite E2. cbn [Z.ltb Z.compare]. rewrite EC, <- Zpower_mod by lia. reflexivity.
Qed.

Lemma mp_modexp_crt_ok n st (out c p q ep eq u : list Z) : (0 < n <= MAX_UNIT_PRECISION)%nat -> smith_wf st -> reg n out -> reg n c -> reg n p -> reg n q -> reg n ep -> reg n eq -> reg n u ->
  2 ^ 32 <= valp n p <= valp n q -> valp n q * valp n q <= radix n -> word_ok (valp n p) -> word_ok (valp n q) ->
  0 < valp n ep < valp n p -> 0 < valp n eq < valp n q -> valp n u < valp n q -> (valp n u * valp n p) mod valp n q = 1 ->
  exists st' x, mp_modexp_crt dm n st out c p q ep eq u = Ok (0, st', put n out x) /\ smith_wf st' /\
    0 <= x < valp n p * valp n q /\ x mod valp n p = valp n c ^ valp n ep mod valp n p /\ x mod valp n q = valp n c ^ valp n eq mod valp n q.
Proof.
  intros Hn Hst Hout Hc Hp Hq Hep Heq Hu HPQ HQ2 Wp Wq HEp HEq HUq HU. unfold mp_modexp_crt. set (local := replicate MAX_UNIT_PRECISION 0).
  assert (reg n local) as Hloc by (split; [unfold local; rewrite length_replicate; lia|apply Forall_replicate; unfold inU; lia]).
  rewrite mp_mod_ok by (assumption || lia). cbn [mbind res_bind]. set (P := valp n p) in *. set (Q := valp n q) in *. set (C := valp n c) in *. set (U := valp n u) in *. pose proof (radix_pos n) as HR. pose proof (valp_range n u Hu) as HU0. fold U in HU0.
  pose proof (valp_range n p Hp) as HPr. pose proof (valp_range n q Hq) as HQr. fold P in HPr. fold Q in HQr.
  assert (forall r x m, reg n r -> m < radix n -> 0 < m -> valp n (put n r (x mod m)) = x mod m) as Hval by (intros r x m Hr Hm1 Hm2; rewrite valp_put; apply Z.mod_small; pose proof (Z.mod_pos_bound x m Hm2); lia).
  destruct (modexp_good n st out (put n local (C mod P)) ep p C) as (st1 & -> & Hst1); (assumption || apply put_reg, Hloc || (fold P; lia) || (fold P; apply Hval; (assumption || lia)) || idtac).
  cbn [mbind res_bind]. fold P. set (p2 := C ^ valp n ep mod P). assert (0 <= p2 < P) as Hp2 by (apply Z.mod_pos_bound; lia).
  cbn [Z.ltb Z.compare]. rewrite mp_mod_ok by (try apply put_reg; assumption || (fold Q; lia)). cbn [mbind res_bind]. rewrite put_put. fold C Q.
  destruct (modexp_good n st1 local (put n local (C mod Q)) eq q C) as (st2 & -> & Hst2); (assumption || apply put_reg, Hloc || (fold Q; lia) || (fold Q; apply Hval; (assumption || lia)) || idtac).
  cbn [mbind res_bind]. fold Q. set (q2 := C ^ valp n eq mod Q). assert (0 <= q2 < Q) as Hq2 by (apply Z.mod_pos_bound; lia). cbn [Z.ltb Z.compare].
  unfold mp_sub, mp_add. rewrite mp_subb_ok by (try apply put_reg; assumption). cbn [mbind res_bind]. rewrite !valp_put, put_put, (Z.mod_small p2), (Z.mod_small q2) by lia. change (Z.b2z false) with 0. rewrite Z.sub_0_r.
  set (t := if q2 - p2 <? 0 then q2 - p2 + Q else q2 - p2). assert (0 <= t < Q) as Ht by (unfold t; destruct (Z.ltb_spec (q2 - p2) 0); lia).
  assert ((if q2 - p2 <? 0 then '(q2, _) ← mp_addc n (put n local (q2 - p2)) q false; mret q2 else mret (put n local (q2 - p2))) = Ok (put n local t)) as ->.
  { unfold t. destruct (q2 - p2 <? 0); [|reflexivity]. rewrite mp_addc_ok by (try apply put_reg; assumption). cbn [mbind res_bind mret res_ret]. rewrite valp_put, put_put. f_equal. apply put_ext. change (Z.b2z false) with 0. fold Q. rewrite Z.add_0_r, Z.add_mod_idemp_l by lia. reflexivity. }
  cbn [mbind res_bind]. rewrite mp_mult_ok by (try apply put_reg; assumption || lia). cbn [mbind res_bind]. rewrite valp_put, put_put, (Z.mod_small t) by lia. fold U. assert (0 <= t * U < radix n) as HtU by nia.
  rewrite mp_mod_ok by (try apply put_reg; assumption || (fold Q; lia)). cbn [mbind res_bind]. rewrite valp_put, put_put, (Z.mod_small (t * U)) by exact HtU. fold Q. set (h := (t * U) mod Q). assert (0 <= h < Q) as Hh by (apply Z.mod_pos_bound; lia).
  rewrite mp_mult_ok by (try apply put_reg; assumption || lia). cbn [mbind res_bind]. rewrite valp_put, put_put, (Z.mod_small h) by lia. fold P. assert (0 <= P * h < radix n) as HPh by nia.
  rewrite mp_addc_ok by (try apply put_reg; assumption). cbn [mbind res_bind mret res_ret]. rewrite !valp_put, put_put, (Z.mod_small p2), (Z.mod_small (P * h)) by lia. change (Z.b2z false) with 0. rewrite Z.add_0_r.
  destruct (garner P Q U p2 q2 t) as (G1 & G2 & G3); [lia|lia|exact Hp2|rewrite HU; symmetry; apply Z.mod_small; lia| |].
  { unfold t. destruct (q2 - p2 <? 0); [|reflexivity]. rewrite <- (Z.mul_1_l Q) at 1. apply Z.mod_add. lia. }
  exists st2, (p2 + P * h). split; [reflexivity|]. split; [exact Hst2|]. split; [exact G1|]. split; [exact G2|]. unfold h. rewrite G3. apply Z.mod_small, Hq2.
Qed.
End Modexp.

(** * What the routines promise *)

(** C6: mp_modexp: for an exponent of 0 the result is 1 and the status 0, or -1 for the base
    0; for a modulus of 0 the status is -2, for a base that is not below the modulus -3, and for
    an exponent that is not below it -4, with the result 1 and the statics untouched. For
    reduced operands a modulus of 33 bits or more gives status 0 and the power modulo the
    modulus, where long has 64 bits or the bit length of the modulus is not a multiple of 16; a
    modulus below 2^32 makes it leave a static array, which is an error of the model. *)
Theorem mp_modexp_correct dm n st out expin exponent md : (0 < n <= MAX_UNIT_PRECISION)%nat -> smith_wf st -> reg n out -> reg n expin -> reg n exponent -> reg n md ->
  let B := valp n expin in let E := valp n exponent in let m := valp n md in
  let r := mp_modexp dm n st out expin exponent md in
  (E = 0 -> r = Ok (if B =? 0 then -1 else 0, st, put n out 1)) /\
  (0 < E -> m = 0 -> r = Ok (-2, st, put n out 1)) /\
  (0 < E -> 0 < m <= B -> r = Ok (-3, st, put n out 1)) /\
  (0 < E -> B < m <= E -> r = Ok (-4, st, put n out 1)) /\
  (0 < E < m -> B < m < 2 ^ 32 -> r = Err OutOfBounds) /\
  (0 < E < m -> B < m -> 2 ^ 32 <= m -> word_ok dm m ->
     exists st', r = Ok (0, st', put n out (B ^ E mod m)) /\ smith_wf st').
Proof.
  intros Hn Hst Hout Hin Hexp Hmd B E m r. pose proof Hst as ([L1 F1] & _). pose proof (valp_range n expin Hin) as HB. fold B in HB.
  assert (forall v, 0 < E -> modexp_refused B E m = Some v -> r = Ok (v, st, put n out 1)) as Href by (intros v; apply mp_modexp_refuses; (assumption || apply Hn)).
  split; [intros H0; apply mp_modexp_zero; (assumption || apply Hn)|]. unfold modexp_refused in Href.
  split; [intros HE ->; apply Href; [exact HE|reflexivity]|].
  split; [intros HE Hm; apply Href; [exact HE|]; rewrite (proj2 (Z.eqb_neq m 0)), (proj2 (Z.leb_le m B)) by lia; reflexivity|].
  split; [intros HE Hm; apply Href; [exact HE|]; rewrite (proj2 (Z.eqb_neq m 0)), (proj2 (Z.leb_gt m B)), (proj2 (Z.leb_le m E)) by lia; reflexivity|].
  split; [intros HE [H1 H2]; exact (mp_modexp_small dm n st out expin exponent md (proj1 Hn) (Nat.le_trans _ _ _ (proj2 Hn) L1) F1 Hout Hin Hexp Hmd H1 HE H2)|].
  intros HE Hm Hm32 Hw.
  destruct (modexp_good dm n st out expin exponent md B Hn Hst Hout Hin Hexp Hmd Hm32 Hw) as (st' & Er & Hst'); [symmetry; apply Z.mod_small; fold m; lia|exact HE|].
  exists st'. split; [exact Er|exact Hst'].
Qed.

(** For a modulus below 2^32 mp_modexp accesses memory before the static array that holds
    the modulus. *)
Theorem modexp_short_modulus dm n st out expin exponent md : (0 < n)%nat -> (n <= length (modulus st))%nat -> Forall (inU 16) (modulus st) -> reg n out -> reg n expin -> reg n exponent -> reg n md ->
  valp n expin < valp n md -> 0 < valp n exponent < valp n md -> valp n md < 2 ^ 32 -> mp_modexp dm n st out expin exponent md = Err OutOfBounds.
Proof. apply mp_modexp_small. Qed.

(** C7: mp_modexp_crt computes from the two exponents and the inverse of p modulo q, a
    number below q, the number below p*q that is congruent modulo p to the power by the first
    exponent and modulo q to the power by the second, without leaving an array: for 2^32 <= p <=
    q where q squared fits the precision, for exponents that are not 0 and below their moduli,
    and where long has 64 bits or the bit lengths of p and q are not multiples of 16. *)
Theorem modexp_crt_correct dm n st (out c p q ep eq u : list Z) : (0 < n <= MAX_UNIT_PRECISION)%nat -> smith_wf st -> reg n out -> reg n c -> reg n p -> reg n q -> reg n ep -> reg n eq -> reg n u ->
  2 ^ 32 <= valp n p <= valp n q -> valp n q * valp n q <= radix n -> word_ok dm (valp n p) -> word_ok dm (valp n q) ->
  0 < valp n ep < valp n p -> 0 < valp n eq < valp n q -> valp n u < valp n q -> (valp n u * valp n p) mod valp n q = 1 ->
  exists st' x, mp_modexp_crt dm n st out c p q ep eq u = Ok (0, st', put n out x) /\ smith_wf st' /\
    0 <= x < valp n p * valp n q /\ x mod valp n p = valp n c ^ valp n ep mod valp n p /\ x mod valp n q = valp n c ^ valp n eq mod valp n q.
Proof. apply mp_modexp_crt_ok. Qed.

Lemma mp_modexp_correct_witness : let md := units 4 (2 ^ 61 - 1) in let b := units 4 3 in let e := units 4 (2 ^ 60) in
  let B := valp 4 b in let E := valp 4 e in let m := valp 4 md in
  let r := mp_modexp ILP32 4 init_smith b b e md in
  (0 < E < m /\ B < m /\ 2 ^ 32 <= m /\ word_ok ILP32 m) /\
  (E = 0 -> r = Ok (if B =? 0 then -1 else 0, init_smith, put 4 b 1)) /\
  (0 < E -> m = 0 -> r = Ok (-2, init_smith, put 4 b 1)) /\
  (0 < E -> 0 < m <= B -> r = Ok (-3, init_smith, put 4 b 1)) /\
  (0 < E -> B < m <= E -> r = Ok (-4, init_smith, put 4 b 1)) /\
  (0 < E < m -> B < m < 2 ^ 32 -> r = Err OutOfBounds) /\
  (0 < E < m -> B < m -> 2 ^ 32 <= m -> word_ok ILP32 m ->
     exists st', r = Ok (0, st', put 4 b (B ^ E mod m)) /\ smith_wf st').
Proof.
  intros md b e B E m r. assert (0 < 4 <= MAX_UNIT_PRECISION)%nat as Hn by (unfold MAX_UNIT_PRECISION; lia). assert (reg 4 md) as Hmd by by_eval. assert (reg 4 b) as Hb by by_eval. assert (reg 4 e) as He by by_eval.
  split; [split; [split; vm_compute; reflexivity|split; [vm_compute; reflexivity|split; [vm_compute; discriminate|right; vm_compute; discriminate]]]|].
  exact (mp_modexp_correct ILP32 4 init_smith b b e md Hn init_smith_wf Hb Hb He Hmd).
Defined.

Lemma modexp_short_modulus_witness : let md := [7; 0] in let b := [3; 0] in let e := [2; 0] in
  (0 < 2)%nat /\ (2 <= length (modulus init_smith))%nat /\ Forall (inU 16) (modulus init_smith) /\ reg 2 b /\ reg 2 e /\ reg 2 md /\ valp 2 b < valp 2 md /\ 0 < valp 2 e < valp 2 md /\ valp 2 md < 2 ^ 32 /\
  mp_modexp LP64 2 init_smith b b e md = Err OutOfBounds.
Proof.
  intros md b e. assert (0 < 2)%nat as Hn by lia. assert (2 <= length (modulus init_smith))%nat as Hl by (cbn; lia). assert (Forall (inU 16) (modulus init_smith)) as HF by apply init_smith_wf. assert (reg 2 md) as Hmd by by_eval. assert (reg 2 b) as Hb by by_eval. assert (reg 2 e) as He by by_eval.
  assert (valp 2 b < valp 2 md) as H1 by reflexivity. assert (0 < valp 2 e < valp 2 md) as H2 by (split; reflexivity). assert (valp 2 md < 2 ^ 32) as H3 by reflexivity.
  split; [exact Hn|]. split; [exact Hl|]. split; [exact HF|]. split; [exact Hb|]. split; [exact He|]. split; [exact Hmd|]. split; [exact H1|]. split; [exact H2|]. split; [exact H3|].
  exact (modexp_short_modulus LP64 2 init_smith b b e md Hn Hl HF Hb Hb He Hmd H1 H2 H3).
Defined.

(** Two primes, the exponents and the inverse of the first modulo the second. *)
Lemma modexp_crt_correct_witness : let p := units 6 (2 ^ 32 + 15) in let q := units 6 (2 ^ 33 + 17) in let c := units 6 (10 ^ 15) in let ep := units 6 12345 in let eq := units 6 54321 in let u := units 6 4625349405 in
  (0 < 6 <= MAX_UNIT_PRECISION)%nat /\ smith_wf init_smith /\ reg 6 c /\ reg 6 p /\ reg 6 q /\ reg 6 ep /\ reg 6 eq /\ reg 6 u /\ 2 ^ 32 <= valp 6 p <= valp 6 q /\ valp 6 q * valp 6 q <= radix 6 /\
  word_ok ILP32 (valp 6 p) /\ word_ok ILP32 (valp 6 q) /\ 0 < valp 6 ep < valp 6 p /\ 0 < valp 6 eq < valp 6 q /\ valp 6 u < valp 6 q /\ (valp 6 u * valp 6 p) mod valp 6 q = 1 /\
  exists st' x, mp_modexp_crt ILP32 6 init_smith c c p q ep eq u = Ok (0, st', put 6 c x) /\ smith_wf st' /\ 0 <= x < valp 6 p * valp 6 q /\
    x mod valp 6 p = valp 6 c ^ valp 6 ep mod valp 6 p /\ x mod valp 6 q = valp 6 c ^ valp 6 eq mod valp 6 q.
Proof.
  intros p q c ep eq u. assert (0 < 6 <= MAX_UNIT_PRECISION)%nat as Hn by (unfold MAX_UNIT_PRECISION; lia).
  assert (reg 6 c) as Hc by by_eval. assert (reg 6 p) as Hp by by_eval. assert (reg 6 q) as Hq by by_eval. assert (reg 6 ep) as Hep by by_eval. assert (reg 6 eq) as Heq by by_eval. assert (reg 6 u) as Hu by by_eval.
  assert (2 ^ 32 <= valp 6 p <= valp 6 q) as H1 by (split; vm_compute; discriminate). assert (valp 6 q * valp 6 q <= radix 6) as H2 by (vm_compute; discriminate).
  assert (word_ok ILP32 (valp 6 p)) as W1 by (right; vm_compute; discriminate). assert (word_ok ILP32 (valp 6 q)) as W2 by (right; vm_compute; discriminate).
  assert (0 < valp 6 ep < valp 6 p) as H3 by (split; vm_compute; reflexivity). assert (0 < valp 6 eq < valp 6 q) as H4 by (split; vm_compute; reflexivity). assert (valp 6 u < valp 6 q) as H5 by (vm_compute; reflexivity).
  assert ((valp 6 u * valp 6 p) mod valp 6 q = 1) as H6 by (vm_compute; reflexivity).
  split; [exact Hn|]. split; [exact init_smith_wf|]. split; [exact Hc|]. split; [exact Hp|]. split; [exact Hq|]. split; [exact Hep|]. split; [exact Heq|]. split; [exact Hu|]. split; [exact H1|]. split; [exact H2|].
  split; [exact W1|]. split; [exact W2|]. split; [exact H3|]. split; [exact H4|]. split; [exact H5|]. split; [exact H6|].
  exact (modexp_crt_correct ILP32 6 init_smith c c p q ep eq u Hn init_smith_wf Hc Hc Hp Hq Hep Heq Hu H1 H2 W1 W2 H3 H4 H5 H6).
Defined.
