(* ===== verification/NumTheory.v ===== *)
(** Facts on primes, greatest common divisors and congruences that the public-key code relies on: the little theorem of
    Fermat, inverses, and the combination of two congruences. *)
From stdpp Require Import base list numbers option tactics.
From Stdlib Require Import ZArith Znumtheory Zpow_facts Lia.
From S2P Require Import Prelude.

(** * Congruences *)

Lemma mod_eq_iff n x y : 0 < n -> x mod n = y mod n <-> (n | x - y).
Proof.
  intros Hn. split.
  - intros H. apply Z.mod_divide; [lia|]. rewrite Zminus_mod, H, Z.sub_diag. apply Zmod_0_l.
  - intros [k Hk]. replace x with (y + k * n) by lia. apply Z_mod_plus_full.
Qed.

Lemma prime_pos p : prime p -> 1 < p.
Proof. intros [H _]. exact H. Qed.

Lemma small_divide n x : (n | x) -> Z.abs x < n -> x = 0.
Proof. intros [k ->] H. assert (k = 0) by nia. subst. reflexivity. Qed.

(** * The little theorem of Fermat *)

Definition zprod (l : list Z) : Z := foldr Z.mul 1 l.

#[global] Instance zprod_perm : Proper ((≡ₚ) ==> eq) zprod.
Proof. intros l k H. unfold zprod. induction H; cbn [foldr]; lia. Qed.

Lemma zprod_map_mod n a l : 0 < n -> zprod ((fun i => (a * i) mod n) <$> l) mod n = (a ^ Z.of_nat (length l) * zprod l) mod n.
Proof.
  intros Hn. induction l as [|x l IH]; [reflexivity|]. cbn [fmap list_fmap length]. unfold zprod in *. cbn [foldr].
  rewrite Z.mul_mod_idemp_l by lia. rewrite <- Zmult_mod_idemp_r, IH, Zmult_mod_idemp_r. f_equal. rewrite Nat2Z.inj_succ, Z.pow_succ_r by lia. lia.
Qed.

Lemma prime_zprod p l : prime p -> (p | zprod l) -> exists x, x ∈ l /\ (p | x).
Proof.
  intros Hp. unfold zprod. induction l as [|x l IH]; cbn [foldr]; intros H.
  - pose proof (prime_pos p Hp). apply Z.divide_1_r_nonneg in H; lia.
  - apply prime_mult in H as [H|H]; [|destruct (IH H) as (y & ? & ?)|exact Hp]; eauto using list_elem_of_here, list_elem_of_further.
Qed.

Lemma fermat p a : prime p -> ~ (p | a) -> a ^ (p - 1) mod p = 1.
Proof.
  intros Hp Ha. pose proof (prime_pos p Hp) as Hp1. set (l := seqZ 1 (p - 1)). set (f := fun i => (a * i) mod p).
  assert (forall x, x ∈ l -> 0 < x < p) as Hl by (intros x Hx; apply elem_of_seqZ in Hx; lia).
  assert (forall x, x ∈ l -> ~ (p | x)) as Hl' by (intros x Hx Hd; specialize (Hl x Hx); apply small_divide in Hd; lia).
  assert (f <$> l ≡ₚ l) as Hperm.
  { apply submseteq_length_Permutation; [|rewrite length_fmap; reflexivity]. apply NoDup_submseteq.
    - apply NoDup_fmap_2_strong; [|apply NoDup_seqZ]. intros x y Hx Hy E. apply mod_eq_iff in E; [|lia]. rewrite <- Z.mul_sub_distr_l in E.
      apply prime_mult in E as [E|E]; [contradiction| |exact Hp]. specialize (Hl x Hx). pose proof (elem_of_seqZ 1 (p - 1) y) as [Hy' _]. specialize (Hy' Hy). apply small_divide in E; lia.
    - intros y Hy. apply list_elem_of_fmap in Hy as (x & -> & Hx). apply elem_of_seqZ. pose proof (Z.mod_pos_bound (a * x) p ltac:(lia)) as Hb. unfold f.
      assert ((a * x) mod p <> 0); [|lia]. intros E. apply Z.mod_divide in E; [|lia]. apply prime_mult in E as [E|E]; [contradiction| |exact Hp]. exact (Hl' x Hx E). }
  pose proof (zprod_map_mod p a l ltac:(lia)) as E. fold f in E. rewrite Hperm in E. unfold l in E at 2. rewrite length_seqZ, Z2Nat.id in E by lia.
  symmetry in E. apply mod_eq_iff in E; [|lia]. replace (_ - _) with ((a ^ (p - 1) - 1) * zprod l) in E by lia. apply prime_mult in E as [E|E]; [| |exact Hp].
  - apply mod_eq_iff in E; [|lia]. rewrite E. apply Z.mod_small. lia.
  - destruct (prime_zprod p l Hp E) as (x & Hx & Hd). destruct (Hl' x Hx Hd).
Qed.

(** The powers that the exponents of RSA compute. *)
Lemma fermat_exponent p m k : prime p -> 0 <= k -> m ^ (1 + k * (p - 1)) mod p = m mod p.
Proof.
  intros Hp Hk. pose proof (prime_pos p Hp). rewrite Z.pow_add_r, Z.pow_1_r by nia. destruct (Zdivide_dec p m) as [Hd|Hd].
  - rewrite Zmult_mod, (proj2 (Z.mod_divide m p ltac:(lia)) Hd). reflexivity.
  - rewrite (Z.mul_comm k), Z.pow_mul_r by lia. rewrite Zmult_mod, (Zpower_mod (m ^ (p - 1)) k p), (fermat p m Hp Hd), Z.pow_1_l, (Z.mod_small 1) by lia.
    rewrite Z.mul_1_r, Z.mod_mod; lia.
Qed.

(** * Coprime moduli *)

Lemma primes_coprime p q : prime p -> prime q -> p <> q -> Z.gcd p q = 1.
Proof.
  intros Hp Hq Hne. apply Zgcd_1_rel_prime. apply prime_rel_prime; [exact Hp|]. intros Hd. apply Hne. pose proof (prime_pos p Hp).
  apply prime_div_prime; assumption.
Qed.

Lemma crt_unique p q x y : 0 < p -> 0 < q -> Z.gcd p q = 1 -> x mod p = y mod p -> x mod q = y mod q -> x mod (p * q) = y mod (p * q).
Proof.
  intros Hp Hq Hg Ex Ey. apply mod_eq_iff in Ex, Ey; try lia. apply mod_eq_iff; [nia|]. destruct Ex as [k Ek]. rewrite Ek in Ey |- *.
  rewrite Z.mul_comm in Ey. apply Gauss in Ey; [|apply rel_prime_sym, Zgcd_1_rel_prime, Hg]. destruct Ey as [j ->]. exists j. lia.
Qed.

(** * Certificates of primes *)

Lemma prime_divisor n : 1 < n -> exists p, prime p /\ (p | n).
Proof.
  intros Hn. assert (0 <= n) as H0 by lia. revert n H0 Hn. apply (Zlt_0_ind (fun n => 1 < n -> exists p, prime p /\ (p | n))). intros n IH _ Hn. destruct (prime_dec n) as [Hp|Hp]; [exists n; split; [exact Hp|apply Z.divide_refl]|].
  destruct (not_prime_divide n Hn Hp) as (d & Hd & Hdn). destruct (IH d ltac:(lia) ltac:(lia)) as (p & Hp' & Hpd). exists p. split; [exact Hp'|]. exact (Z.divide_trans _ _ _ Hpd Hdn).
Qed.

Lemma pow_multiple a r x y : 0 < r -> 0 <= x -> (x | y) -> 0 <= y -> a ^ x mod r = 1 mod r -> a ^ y mod r = 1 mod r.
Proof.
  intros Hr Hx [q Hq] Hy E. destruct (Z.eq_dec x 0) as [->|Hx0]; [assert (y = 0) as -> by lia; reflexivity|]. assert (0 <= q) by nia. subst y.
  rewrite Z.mul_comm, Z.pow_mul_r, Zpower_mod, E, <- Zpower_mod, Z.pow_1_l by lia. reflexivity.
Qed.

Lemma pow_gcd a r : 0 < r -> forall y, 0 <= y -> forall x, 0 <= x -> a ^ x mod r = 1 mod r -> a ^ y mod r = 1 mod r -> a ^ Z.gcd x y mod r = 1 mod r.
Proof.
  intros Hr. apply (Zlt_0_ind (fun y => forall x, 0 <= x -> a ^ x mod r = 1 mod r -> a ^ y mod r = 1 mod r -> a ^ Z.gcd x y mod r = 1 mod r)). intros y IH Hy x Hx Ex Ey.
  destruct (Z.eq_dec y 0) as [->|Hy0]; [rewrite Z.gcd_0_r, Z.abs_eq by exact Hx; exact Ex|]. pose proof (Z.mod_pos_bound x y ltac:(lia)) as Hm. rewrite Z.gcd_comm, <- Z.gcd_mod, Z.gcd_comm by exact Hy0.
  apply (IH (x mod y) Hm y Hy Ey). pose proof (Z.div_mod x y Hy0) as Hd. assert (0 <= x / y) as Hq by (apply Z.div_pos; lia).
  assert (a ^ (y * (x / y)) mod r = 1 mod r) as E1 by (apply (pow_multiple a r y); [exact Hr|exact Hy|exists (x / y); lia|nia|exact Ey]).
  rewrite Hd, Z.pow_add_r, Zmult_mod, E1, <- Zmult_mod, Z.mul_1_l in Ex by nia. exact Ex.
Qed.

(** Proth's theorem. *)
Lemma proth h k a : 0 < k -> 0 < h < 2 ^ k -> let p := h * 2 ^ k + 1 in a ^ (h * 2 ^ (k - 1)) mod p = p - 1 -> prime p.
Proof.
  intros Hk Hh p E. assert (0 < 2 ^ (k - 1)) as Hpow by (apply Z.pow_pos_nonneg; lia). assert (2 ^ k = 2 * 2 ^ (k - 1)) as E2 by (rewrite <- Z.pow_succ_r by lia; f_equal; lia). set (s := 2 ^ (k - 1)) in *. assert (p = 2 * (h * s) + 1) as Ep by (unfold p; lia). assert (0 < h * s) as Hhs by (apply Z.mul_pos_pos; lia).
  assert (forall r, prime r -> (r | p) -> 2 ^ k < r) as Hdiv.
  { intros r Hr Hrp. pose proof (prime_pos r Hr) as Hr1. assert (a ^ (h * s) mod r = (-1) mod r) as Er.
    { apply mod_eq_iff; [lia|]. apply Z.divide_trans with p; [exact Hrp|]. apply mod_eq_iff; [lia|]. rewrite E. apply (Z.mod_unique _ _ (-1)); [left; lia|lia]. }
    assert (~ (r | 2)) as Hodd by (intros H; assert ((r | 1)) as H1 by (replace 1 with (p - 2 * (h * s)) by lia; apply Z.divide_sub_r; [exact Hrp|apply Z.divide_mul_l, H]); apply Z.divide_1_r_nonneg in H1; lia).
    assert (~ (r | a)) as Hra. { intros H. assert ((r | a ^ (h * s))) as H' by (apply Z.divide_trans with a; [exact H|]; replace (h * s) with (1 + (h * s - 1)) by lia; rewrite Z.pow_add_r, Z.pow_1_r by lia; apply Z.divide_factor_l).
      rewrite (proj2 (Z.mod_divide _ r ltac:(lia)) H') in Er. symmetry in Er. apply Z.mod_divide in Er; [|lia]. apply (Z.divide_opp_r r 1) in Er. apply Z.divide_1_r_nonneg in Er; lia. }
    assert ((2 ^ k | r - 1)) as Hk1; [|apply Z.divide_pos_le in Hk1; lia]. destruct (Zdivide_dec (2 ^ k) (r - 1)) as [|Hn]; [assumption|]. exfalso. set (d := Z.gcd (r - 1) (2 * (h * s))).
    assert (a ^ (r - 1) mod r = 1 mod r) as F1 by (rewrite (fermat r a Hr Hra), Z.mod_small by lia; reflexivity).
    assert (a ^ (2 * (h * s)) mod r = 1 mod r) as F2 by (rewrite Z.mul_comm, Z.pow_mul_r, Zpower_mod, Er, <- Zpower_mod by lia; reflexivity).
    pose proof (pow_gcd a r ltac:(lia) (2 * (h * s)) ltac:(lia) (r - 1) ltac:(lia) F1 F2) as Fd. fold d in Fd. assert ((d | 2 * (h * s))) as [e He] by apply Z.gcd_divide_r.
    assert ((d | h * s)) as Hdh.
    { destruct (Z.Even_or_Odd e) as [[j Hj]|[j Hj]]; [exists j; lia|]. exfalso. apply Hn. apply Z.divide_trans with d; [|apply Z.gcd_divide_l]. apply (Gauss (2 ^ k) e d); [exists h; lia|].
      apply rel_prime_sym, rel_prime_Zpower_r; [lia|]. apply Zgcd_1_rel_prime. rewrite Z.gcd_comm. rewrite <- Z.gcd_mod by lia. assert (e mod 2 = 1) as -> by (subst e; symmetry; apply (Z.mod_unique _ _ j); lia). reflexivity. }
    pose proof (pow_multiple a r d (h * s) ltac:(lia) (Z.gcd_nonneg _ _) Hdh ltac:(lia) Fd) as F. rewrite Er in F. apply mod_eq_iff in F; [|lia]. apply Hodd. apply (Z.divide_opp_r r 2), F. }
  destruct (prime_dec p) as [|Hnp]; [assumption|]. exfalso. destruct (not_prime_divide p ltac:(lia) Hnp) as (d & Hd & e & He).
  destruct (prime_divisor d ltac:(lia)) as (r1 & Hr1 & Hd1). destruct (prime_divisor e ltac:(nia)) as (r2 & Hr2 & Hd2).
  pose proof (Hdiv r1 Hr1 ltac:(apply Z.divide_trans with d; [exact Hd1|exists e; exact He])). pose proof (Hdiv r2 Hr2 ltac:(apply Z.divide_trans with e; [exact Hd2|exists d; lia])).
  apply Z.divide_pos_le in Hd1, Hd2; [|nia|lia]. unfold p in *. nia.
Qed.

(** The certificate, by evaluation. *)
Lemma proth_check h k a : (0 <? k) && (0 <? h) && (h <? 2 ^ k) && (Zpow_mod a (h * 2 ^ (k - 1)) (h * 2 ^ k + 1) =? h * 2 ^ k) = true -> prime (h * 2 ^ k + 1).
Proof.
  intros H. apply andb_prop in H as [H E]. apply andb_prop in H as [H H3]. apply andb_prop in H as [H1 H2]. apply Z.ltb_lt in H1, H2, H3. apply Z.eqb_eq in E. assert (0 < h * 2 ^ k) by (apply Z.mul_pos_pos; lia).
  rewrite Zpow_mod_correct in E by lia. apply (proth h k a); [lia|lia|]. rewrite E. lia.
Qed.

(** A prime of the form 2q+1. *)
Lemma double_prime q : prime q -> 4 < q -> let p := 2 * q + 1 in 2 ^ (p - 1) mod p = 1 -> p mod 3 <> 0 -> prime p.
Proof.
  intros Hq H4 p E H3. destruct (prime_dec p) as [|Hnp]; [assumption|]. exfalso. destruct (not_prime_divide p ltac:(unfold p; lia) Hnp) as (d & Hd & e & He).
  assert (exists x, 1 < x /\ x * x <= p /\ (x | p)) as (x & Hx & Hxp & Hdx). { assert (1 < e) by nia. destruct (Z.le_gt_cases d e); [exists d; split; [lia|]; split; [nia|exists e; exact He]|exists e; split; [lia|]; split; [nia|exists d; lia]]. }
  destruct (prime_divisor x Hx) as (r & Hr & Hrx). pose proof (prime_pos r Hr) as Hr1. pose proof (Z.divide_pos_le r x ltac:(lia) Hrx) as Hle. assert ((r | p)) as Hrp by exact (Z.divide_trans _ _ _ Hrx Hdx). assert (r - 1 < q) as Hlt by (unfold p in *; nia).
  assert (2 ^ (p - 1) mod r = 1 mod r) as F2 by (apply mod_eq_iff; [lia|]; apply Z.divide_trans with p; [exact Hrp|]; apply mod_eq_iff; [unfold p; lia|]; rewrite E, Z.mod_small by (unfold p; lia); reflexivity).
  assert (Z.gcd q (r - 1) = 1) as Hg by (apply Zgcd_1_rel_prime, prime_rel_prime; [exact Hq|]; intros Hdiv; apply Z.divide_pos_le in Hdiv; lia).
  assert (~ (r | 2)) as Hodd by (intros H; assert ((r | 1)) as H1 by (replace 1 with (p - 2 * q) by (unfold p; lia); apply Z.divide_sub_r; [exact Hrp|apply Z.divide_mul_l, H]); apply Z.divide_1_r_nonneg in H1; lia).
  assert (2 ^ (r - 1) mod r = 1 mod r) as F1 by (rewrite (fermat r 2 Hr Hodd), Z.mod_small by lia; reflexivity).
  pose proof (pow_gcd 2 r ltac:(lia) (p - 1) ltac:(unfold p; lia) (r - 1) ltac:(lia) F1 F2) as Fd. assert ((Z.gcd (r - 1) (p - 1) | 2)) as Hd2.
  { apply (Gauss _ q 2); [replace (q * 2) with (p - 1) by (unfold p; lia); apply Z.gcd_divide_r|]. apply (rel_prime_div (r - 1) q); [apply rel_prime_sym, Zgcd_1_rel_prime, Hg|apply Z.gcd_divide_l]. }
  pose proof (pow_multiple 2 r _ 2 ltac:(lia) (Z.gcd_nonneg _ _) Hd2 ltac:(lia) Fd) as F. change (2 ^ 2) with 4 in F. apply mod_eq_iff in F; [|lia]. change (4 - 1) with 3 in F. assert (r = 3) as -> by exact (prime_div_prime r 3 Hr prime_3 F). apply H3, Z.mod_divide; [lia|exact Hrp].
Qed.

Lemma double_check h k a : (0 <? k) && (0 <? h) && (h <? 2 ^ k) && (Zpow_mod a (h * 2 ^ (k - 1)) (h * 2 ^ k + 1) =? h * 2 ^ k) = true -> 4 < h * 2 ^ k + 1 ->
  Zpow_mod 2 (2 * (h * 2 ^ k + 1)) (2 * (h * 2 ^ k + 1) + 1) = 1 -> (2 * (h * 2 ^ k + 1) + 1) mod 3 <> 0 -> prime (2 * (h * 2 ^ k + 1) + 1).
Proof. intros H H4 E H3. rewrite Zpow_mod_correct in E by lia. apply double_prime; [exact (proth_check h k a H)|exact H4|rewrite Z.add_simpl_r; exact E|exact H3]. Qed.
