(* ===== verification/MpiEuclid.v ===== *)
(** Euclid's algorithm on registers, and inverses modulo a number (src/mibench/security/pgp/src/genprime.c). *)
From stdpp Require Import base list numbers option tactics.
From Stdlib Require Import ZArith Znumtheory Lia.
From S2P Require Import Prelude NumTheory Mpi MpiDiv.

(** * The code *)

(** Three registers are used in turn; the index of the current one is 0, 1 or 2. *)
Definition iplus1 (i : nat) : nat := if (i =? 2)%nat then O else S i.
Definition iminus1 (i : nat) : nat := if (i =? 0)%nat then 2%nat else (i - 1)%nat.
Definition g (copies : list (list Z)) (i : nat) : res (list Z) := match copies !! i with Some r => Ok r | None => Err OutOfBounds end.
Definition new_copies : list (list Z) := replicate 3 (replicate MAX_UNIT_PRECISION 0).
Definition testne (prec : nat) (r : list Z) (i : Z) : res bool := z ← testeq prec r i; mret (negb z).

Fixpoint gcd_loop (fuel prec : nat) (gcopies : list (list Z)) (i : nat) : res (list (list Z) * nat) :=
  match fuel with
  | O => Err OutOfFuel
  | S fuel =>
      divisor ← g gcopies i; b ← testne prec divisor 0;
      if b : bool then
        rem ← g gcopies (iplus1 i); dividend ← g gcopies (iminus1 i);
        '(_, rem) ← mp_mod prec rem dividend divisor;
        gcd_loop fuel prec (<[iplus1 i := rem]> gcopies) (iplus1 i)
      else mret (gcopies, i)
  end.
Definition euclid_fuel (prec : nat) : nat := (32 * prec + 2)%nat.
(** The local arrays are written before they are read. *)
Definition mp_gcd (prec : nat) (result a n : list Z) : res (list Z) :=
  g0 ← g new_copies 0; g0 ← mp_move prec g0 n; g1 ← g new_copies 1; g1 ← mp_move prec g1 a;
  '(gcopies, i) ← gcd_loop (euclid_fuel prec) prec (<[1%nat := g1]> (<[O := g0]> new_copies)) 1;
  r ← g gcopies (iminus1 i); mp_move prec result r.

Fixpoint inv_loop (fuel prec : nat) (gcopies vcopies : list (list Z)) (y temp : list Z) (i : nat) : res (list (list Z) * nat) :=
  match fuel with
  | O => Err OutOfFuel
  | S fuel =>
      divisor ← g gcopies i; b ← testne prec divisor 0;
      if b : bool then
        rem ← g gcopies (iplus1 i); dividend ← g gcopies (iminus1 i);
        '(_, rem, y) ← mp_udiv prec rem y dividend divisor;
        v ← g vcopies i; temp ← mp_mult prec temp y v;
        vnext ← g vcopies (iplus1 i); vlast ← g vcopies (iminus1 i); vnext ← mp_move prec vnext vlast;
        '(vnext, _) ← mp_sub prec vnext temp;
        inv_loop fuel prec (<[iplus1 i := rem]> gcopies) (<[iplus1 i := vnext]> vcopies) y temp (iplus1 i)
      else mret (vcopies, i)
  end.
Definition mp_inv (prec : nat) (x a n : list Z) : res (list Z) :=
  let local := replicate MAX_UNIT_PRECISION 0 in
  g0 ← g new_copies 0; g0 ← mp_move prec g0 n; g1 ← g new_copies 1; g1 ← mp_move prec g1 a;
  v0 ← g new_copies 0; v0 ← mp_init prec v0 0; v1 ← g new_copies 1; v1 ← mp_init prec v1 1;
  '(vcopies, i) ← inv_loop (euclid_fuel prec) prec (<[1%nat := g1]> (<[O := g0]> new_copies)) (<[1%nat := v1]> (<[O := v0]> new_copies)) local local 1;
  v ← g vcopies (iminus1 i); x ← mp_move prec x v;
  b ← mp_tstminus prec x;
  if b : bool then '(x, _) ← mp_add prec x n; mret x else mret x.

Example euclid_run : (r ← mp_gcd 3 (units 3 0) (units 3 (2 ^ 20 * 15)) (units 3 (10 ^ 9)); x ← mp_inv 3 (units 3 0) (units 3 17) (units 3 (2 ^ 40)); mret (valp 3 r, valp 3 x * 17 mod 2 ^ 40)) = Ok (2560, 1).
Proof. vm_compute. reflexivity. Qed.

(** * The three registers *)

Record trio (p : nat) (copies : list (list Z)) (i : nat) (a b : Z) : Prop := Trio {
  trio_i : (i < 3)%nat;
  trio_len : length copies = 3%nat;
  trio_reg : Forall (reg p) copies;
  trio_last : exists r, copies !! iminus1 i = Some r /\ reg p r /\ valp p r = a;
  trio_this : exists r, copies !! i = Some r /\ reg p r /\ valp p r = b }.

Section Euclid.
Implicit Types (p i : nat) (a b : Z).

Lemma iplus1_lt i : (i < 3)%nat -> (iplus1 i < 3)%nat /\ iminus1 (iplus1 i) = i /\ iplus1 i <> i /\ iplus1 i <> iminus1 i.
Proof. intros H. destruct i as [|[|[|]]]; cbn; lia. Qed.

Lemma testne_ok p r x : (0 < p)%nat -> reg p r -> inU 16 x -> testne p r x = Ok (negb (valp p r =? x)).
Proof. intros Hp Hr Hx. unfold testne. rewrite testeq_ok by assumption. reflexivity. Qed.

Lemma trio_next p copies i a b : trio p copies i a b ->
  exists r, copies !! iplus1 i = Some r /\ reg p r /\
    forall c, trio p (<[iplus1 i := put p r c]> copies) (iplus1 i) b (c mod radix p).
Proof.
  intros [Hi Hl Hreg Ha Hb]. destruct (iplus1_lt i Hi) as (Hi1 & Em & Hne & _). destruct (lookup_lt_is_Some_2 copies (iplus1 i)) as [r Er]; [lia|].
  pose proof (Forall_lookup_1 _ _ _ _ Hreg Er) as Hr. exists r. split; [exact Er|]. split; [exact Hr|]. intros c. split.
  - exact Hi1.
  - rewrite length_insert. exact Hl.
  - apply Forall_insert; [exact Hreg|apply put_reg, Hr].
  - rewrite Em, list_lookup_insert_ne by congruence. exact Hb.
  - exists (put p r c). rewrite list_lookup_insert_eq by lia. split; [reflexivity|]. split; [apply put_reg, Hr|apply valp_put].
Qed.

Lemma trio_new p g0 g1 : (p <= MAX_UNIT_PRECISION)%nat -> reg p g0 -> reg p g1 -> trio p (<[1%nat := g1]> (<[O := g0]> new_copies)) 1 (valp p g0) (valp p g1).
Proof.
  intros Hp H0 H1. assert (reg p (replicate MAX_UNIT_PRECISION 0)) as Hz by (split; [rewrite length_replicate; exact Hp|apply Forall_replicate; unfold inU; lia]). unfold new_copies.
  generalize dependent (replicate MAX_UNIT_PRECISION 0). intros z Hz. cbn [replicate insert list_insert]. split; [lia|reflexivity|repeat (constructor; try assumption)| |]; eexists; (split; [reflexivity|auto]).
Qed.

(** Every two turns halve the smaller number. *)
Lemma euclid_ind (P : nat -> Z -> Z -> Prop) :
  (forall fuel a, 0 <= a -> P (S fuel) a 0) ->
  (forall fuel a b, 0 <= a -> 0 < b -> P fuel b (a mod b) -> P (S fuel) a b) ->
  forall k fuel a b, 0 <= a -> 0 <= b < 2 ^ Z.of_nat k -> (2 * k < fuel)%nat -> P fuel a b.
Proof.
  intros P0 PS. induction k as [|k IH]; intros fuel a b Ha Hb Hf; (destruct fuel as [|fuel]; [lia|]).
  - change (2 ^ Z.of_nat 0) with 1 in Hb. assert (b = 0) as -> by lia. apply P0, Ha.
  - destruct (Z.eq_dec b 0) as [->|Hb0]; [apply P0, Ha|]. pose proof (Z.mod_pos_bound a b ltac:(lia)) as Hm. apply PS; [lia..|]. destruct fuel as [|fuel]; [lia|].
    destruct (Z.eq_dec (a mod b) 0) as [->|Hm0]; [apply P0; lia|]. apply PS; [lia..|]. pose proof (Z.mod_pos_bound b (a mod b) ltac:(lia)) as Hm'. apply IH; [lia| |lia].
    split; [lia|]. rewrite Nat2Z.inj_succ, Z.pow_succ_r in Hb by lia. pose proof (Z.div_mod b (a mod b) ltac:(lia)). assert (1 <= b / (a mod b)) by (apply Z.div_le_lower_bound; lia). nia.
Qed.
End Euclid.

(** * Greatest common divisors and inverses *)

Section Loops.
Implicit Types (p i : nat) (a b u w : Z).

Lemma gcd_loop_ok p k fuel a b : (0 < p)%nat -> 0 <= a < radix p -> 0 <= b < 2 ^ Z.of_nat k -> b < radix p -> (2 * k < fuel)%nat ->
  forall copies i, trio p copies i a b -> exists copies' i', gcd_loop fuel p copies i = Ok (copies', i') /\ trio p copies' i' (Z.gcd a b) 0.
Proof.
  intros Hp Ha Hb Hb' Hf. pose proof (proj1 Ha) as Ha0. revert Ha Hb'. pattern fuel, a, b. apply (euclid_ind _) with (k := k); [| |exact Ha0|exact Hb|exact Hf]; clear k fuel a b Ha0 Hb Hf.
  - intros fuel a Ha _ _ copies i HT. cbn [gcd_loop]. destruct (trio_this _ _ _ _ _ HT) as (r & Er & Hr & Ev). unfold g. rewrite Er. cbn [mbind res_bind].
    rewrite testne_ok by (try assumption; unfold inU; lia). cbn [mbind res_bind]. rewrite Ev. cbn [Z.eqb negb mret res_ret]. rewrite Z.gcd_0_r, Z.abs_eq by exact Ha. eauto.
  - intros fuel a b Ha Hb IH Hra Hrb copies i HT. cbn [gcd_loop]. destruct (trio_this _ _ _ _ _ HT) as (r & Er & Hr & Ev). destruct (trio_last _ _ _ _ _ HT) as (s & Es & Hs & Ev').
    destruct (trio_next _ _ _ _ _ HT) as (t & Et & Ht & HN). unfold g. rewrite Er. cbn [mbind res_bind]. rewrite testne_ok by (try assumption; unfold inU; lia). cbn [mbind res_bind].
    rewrite Ev, (proj2 (Z.eqb_neq b 0)) by lia. cbn [negb]. rewrite Et, Es. cbn [mbind res_bind]. rewrite mp_mod_ok by (try assumption; lia). cbn [mbind res_bind]. rewrite Ev, Ev'.
    pose proof (Z.mod_pos_bound a b Hb). specialize (HN (a mod b)). rewrite (Z.mod_small (a mod b)) in HN by lia. destruct (IH ltac:(lia) ltac:(lia) _ _ HN) as (c' & i' & -> & HT').
    exists c', i'. split; [reflexivity|]. rewrite (Z.gcd_comm b), (Z.gcd_mod a b), (Z.gcd_comm b) in HT' by lia. exact HT'.
Qed.

(** The coefficients of Euclid's algorithm: they alternate in sign, and their bound makes the last one fit with its sign. *)
Record coefficients (N A a b u w : Z) : Prop := Coefficients {
  co_order : 0 <= b < a /\ a <= N;
  co_last : (N | u * A - a);
  co_this : (N | w * A - b);
  co_sign : u * w <= 0;
  co_sum : a * Z.abs w + b * Z.abs u = N;
  co_bound : 2 * Z.abs u <= N }.

Lemma alternating_abs u w q : u * w <= 0 -> 0 <= q -> Z.abs (u - q * w) = Z.abs u + q * Z.abs w.
Proof.
  intros Hs Hq. destruct (Z.eq_dec u 0) as [->|Hu0]; [rewrite Z.sub_0_l, Z.abs_opp, Z.abs_mul, (Z.abs_eq q) by exact Hq; reflexivity|].
  assert ((0 < u /\ w <= 0) \/ (u < 0 /\ 0 <= w)) as [[H1 H2]|[H1 H2]] by (destruct (Z.lt_total 0 u) as [?|[?|?]]; [left|lia|right]; (split; [assumption|nia])).
  - assert (0 <= q * - w) by (apply Z.mul_nonneg_nonneg; lia). rewrite (Z.abs_eq u), (Z.abs_eq (_ - _)), (Z.abs_neq w) by lia. lia.
  - assert (0 <= q * w) by (apply Z.mul_nonneg_nonneg; lia). rewrite (Z.abs_neq u), (Z.abs_neq (_ - _)), (Z.abs_eq w) by lia. lia.
Qed.
Lemma coefficients_step N A a b u w : coefficients N A a b u w -> 0 < b -> coefficients N A b (a mod b) w (u - a / b * w).
Proof.
  intros [Ho [ka Ha] [kb Hb] Hs Hsum Hbd] Hp. pose proof (Z.mod_pos_bound a b Hp) as Hm. pose proof (Z.div_mod a b ltac:(lia)) as Hd. assert (0 <= a / b) as Hq by (apply Z.div_pos; lia). set (q := a / b) in *. split.
  - lia.
  - exists kb. exact Hb.
  - exists (ka - q * kb). replace ((u - q * w) * A - a mod b) with ((u * A - a) - q * (w * A - b)) by lia. rewrite Ha, Hb. lia.
  - assert (0 <= q * (w * w)) by (apply Z.mul_nonneg_nonneg; [exact Hq|apply Z.square_nonneg]). lia.
  - rewrite (alternating_abs u w q Hs Hq). assert (a * Z.abs w = (b * q + a mod b) * Z.abs w) by (f_equal; exact Hd). lia.
  - destruct Ho as [Ho _]. assert (0 <= b * Z.abs u) by (apply Z.mul_nonneg_nonneg; lia). assert (2 * Z.abs w <= a * Z.abs w) by (apply Z.mul_le_mono_nonneg_r; lia). lia.
Qed.

Lemma inv_loop_ok p N A k fuel a b : (0 < p)%nat -> N < radix p -> 0 <= a < radix p -> 0 <= b < 2 ^ Z.of_nat k -> (2 * k < fuel)%nat ->
  forall gc vc y temp i u w, trio p gc i a b -> trio p vc i (u mod radix p) (w mod radix p) -> reg p y -> reg p temp -> coefficients N A a b u w ->
  exists vc' i' u' w', inv_loop fuel p gc vc y temp i = Ok (vc', i') /\ trio p vc' i' (u' mod radix p) w' /\ (N | u' * A - Z.gcd a b) /\ 2 * Z.abs u' <= N.
Proof.
  intros Hp HN Ha Hb Hf. pose proof (proj1 Ha) as Ha0. revert Ha. pattern fuel, a, b. apply (euclid_ind _) with (k := k); [| |exact Ha0|exact Hb|exact Hf]; clear k fuel a b Ha0 Hb Hf.
  - intros fuel a Ha _ gc vc y temp i u w HG HV _ _ HC. cbn [inv_loop]. destruct (trio_this _ _ _ _ _ HG) as (r & Er & Hr & Ev). unfold g. rewrite Er. cbn [mbind res_bind].
    rewrite testne_ok by (try assumption; unfold inU; lia). cbn [mbind res_bind]. rewrite Ev. cbn [Z.eqb negb mret res_ret]. rewrite Z.gcd_0_r, Z.abs_eq by exact Ha.
    exists vc, i, u, (w mod radix p). split; [reflexivity|]. split; [exact HV|]. split; [apply HC|apply HC].
  - intros fuel a b Ha Hb IH Hra gc vc y temp i u w HG HV Hy Htemp HC. cbn [inv_loop].
    destruct (trio_this _ _ _ _ _ HG) as (r & Er & Hr & Ev). destruct (trio_last _ _ _ _ _ HG) as (s & Es & Hs & Ev'). destruct (trio_next _ _ _ _ _ HG) as (t & Et & Ht & HGn).
    destruct (trio_this _ _ _ _ _ HV) as (vr & Evr & Hvr & Evv). destruct (trio_last _ _ _ _ _ HV) as (vs & Evs & Hvs & Evv'). destruct (trio_next _ _ _ _ _ HV) as (vt & Evt & Hvt & HVn).
    unfold g. rewrite Er. cbn [mbind res_bind]. rewrite testne_ok by (try assumption; unfold inU; lia). cbn [mbind res_bind]. rewrite Ev, (proj2 (Z.eqb_neq b 0)) by lia. cbn [negb].
    rewrite Et, Es. cbn [mbind res_bind]. rewrite mp_udiv_ok by (try assumption; lia). cbn [mbind res_bind]. rewrite Evr. cbn [mbind res_bind]. rewrite mp_mult_ok by (try apply put_reg; assumption). cbn [mbind res_bind].
    rewrite Evt, Evs. cbn [mbind res_bind]. rewrite mp_move_ok by (try exact Hvs; apply Hvt). cbn [mbind res_bind]. unfold mp_sub. rewrite mp_subb_ok by (apply put_reg; assumption). cbn [mbind res_bind Z.b2z].
    rewrite Z.sub_0_r, put_put, !valp_put, Ev, Ev', Evv, Evv'.
    pose proof (Z.mod_pos_bound a b Hb). destruct (co_order _ _ _ _ _ _ HC) as [Ho1 Ho2]. specialize (HGn (a mod b)). rewrite (Z.mod_small (a mod b)) in HGn by lia.
    pose proof (HVn ((u mod radix p) mod radix p - (a / b mod radix p * (w mod radix p)) mod radix p)) as HVn'. pose proof (radix_pos p) as HR.
    assert (((u mod radix p) mod radix p - (a / b mod radix p * (w mod radix p)) mod radix p) mod radix p = (u - a / b * w) mod radix p) as E by (rewrite <- Zmult_mod, Z.mod_mod by lia; rewrite <- Zminus_mod; reflexivity).
    rewrite E in HVn'. destruct (IH ltac:(lia) _ _ (put p y (a / b)) (put p temp (a / b mod radix p * (w mod radix p))) _ w (u - a / b * w) HGn HVn') as (vc' & i' & u' & w' & EL & HT' & HD & HB);
      [apply put_reg, Hy|apply put_reg, Htemp|apply coefficients_step; assumption|].
    exists vc', i', u', w'. split; [exact EL|]. split; [exact HT'|]. split; [|exact HB]. rewrite (Z.gcd_comm b), (Z.gcd_mod a b), (Z.gcd_comm b) in HD by lia. exact HD.
Qed.
End Loops.

Section Functions.
Implicit Types (p : nat) (r x a n : list Z).

Lemma euclid_fuel_ok p b : 0 <= b < radix p -> 0 <= b < 2 ^ Z.of_nat (16 * p) /\ (2 * (16 * p) < euclid_fuel p)%nat.
Proof. intros Hb. rewrite radix_pow in Hb. unfold euclid_fuel. replace (Z.of_nat (16 * p)) with (16 * Z.of_nat p) by lia. lia. Qed.

Lemma local_reg p : (p <= MAX_UNIT_PRECISION)%nat -> reg p (replicate MAX_UNIT_PRECISION 0).
Proof. intros Hp. split; [rewrite length_replicate; exact Hp|apply Forall_replicate; unfold inU; lia]. Qed.

Lemma new_copies_ok i : (i < 3)%nat -> g new_copies i = Ok (replicate MAX_UNIT_PRECISION 0).
Proof. intros Hi. unfold g, new_copies. rewrite lookup_replicate_2 by exact Hi. reflexivity. Qed.

Lemma mp_gcd_ok p r a n : (0 < p <= MAX_UNIT_PRECISION)%nat -> reg p r -> reg p a -> reg p n -> mp_gcd p r a n = Ok (put p r (Z.gcd (valp p a) (valp p n))).
Proof.
  intros Hp Hr Ha Hn. pose proof (local_reg p ltac:(lia)) as Hz. unfold mp_gcd. rewrite !new_copies_ok by lia. cbn [mbind res_bind]. rewrite !mp_move_ok by (assumption || apply Hz). cbn [mbind res_bind].
  pose proof (trio_new p _ _ ltac:(lia) (put_reg p _ (valp p n) Hz) (put_reg p _ (valp p a) Hz)) as HT. pose proof (valp_range p a Ha). pose proof (valp_range p n Hn).
  rewrite !valp_put, !Z.mod_small in HT by lia. destruct (euclid_fuel_ok p (valp p a)) as [H1 H2]; [lia|].
  destruct (gcd_loop_ok p (16 * p) _ (valp p n) (valp p a) ltac:(lia) ltac:(lia) H1 ltac:(lia) H2 _ _ HT) as (c' & i' & -> & HT'). cbn [mbind res_bind].
  destruct (trio_last _ _ _ _ _ HT') as (s & Es & Hs & Ev). unfold g. rewrite Es. cbn [mbind res_bind]. rewrite mp_move_ok by (exact Hs || apply Hr). rewrite Ev, Z.gcd_comm. reflexivity.
Qed.

Lemma mp_inv_ok p x a n : (0 < p <= MAX_UNIT_PRECISION)%nat -> reg p x -> reg p a -> reg p n -> valp p a < valp p n ->
  exists v, mp_inv p x a n = Ok (put p x v) /\ 0 <= v < valp p n /\ (valp p n | v * valp p a - Z.gcd (valp p a) (valp p n)).
Proof.
  intros Hp Hx Ha Hn Hlt. pose proof (local_reg p ltac:(lia)) as Hz. unfold mp_inv. rewrite !new_copies_ok by lia. cbn [mbind res_bind]. rewrite !mp_move_ok by (assumption || apply Hz). cbn [mbind res_bind].
  rewrite !mp_init_ok by (try apply Hz; (unfold inU; lia) || lia). cbn [mbind res_bind]. set (N := valp p n) in *. set (A := valp p a) in *.
  pose proof (trio_new p _ _ ltac:(lia) (put_reg p _ N Hz) (put_reg p _ A Hz)) as HG. pose proof (trio_new p _ _ ltac:(lia) (put_reg p _ 0 Hz) (put_reg p _ 1 Hz)) as HV.
  pose proof (valp_range p a Ha) as HA. pose proof (valp_range p n Hn) as HN. fold A in HA. fold N in HN. rewrite !valp_put in HG, HV. rewrite (Z.mod_small N), (Z.mod_small A) in HG by lia.
  destruct (euclid_fuel_ok p A) as [H1 H2]; [lia|]. assert (coefficients N A N A 0 1) as HC by (split; try lia; [exists (-1); lia|exists 0; lia]).
  destruct (inv_loop_ok p N A (16 * p) _ N A ltac:(lia) ltac:(lia) ltac:(lia) H1 H2 _ _ _ _ _ 0 1 HG HV Hz Hz HC) as (vc' & i' & u & w & -> & HT & HD & HB). cbn [mbind res_bind].
  destruct (trio_last _ _ _ _ _ HT) as (s & Es & Hs & Ev). unfold g. rewrite Es. cbn [mbind res_bind]. rewrite mp_move_ok by (exact Hs || apply Hx). cbn [mbind res_bind]. rewrite Ev, put_mod.
  rewrite mp_tstminus_ok by (lia || apply put_reg, Hx). cbn [mbind res_bind]. rewrite valp_put. rewrite (Z.gcd_comm N) in HD. destruct (Z.leb_spec (radix p) (2 * (u mod radix p))) as [Hneg|Hpos].
  - assert (u < 0) as Hu by (destruct (Z.ltb_spec u 0); [assumption|rewrite Z.mod_small in Hneg by lia; lia]). unfold mp_add. rewrite mp_addc_ok by (try apply put_reg; assumption). cbn [mbind res_bind mret res_ret Z.b2z].
    exists (u + N). fold N. rewrite Z.add_0_r, valp_put, put_put. split; [f_equal; apply put_ext; rewrite Zplus_mod_idemp_l; reflexivity|]. split; [lia|]. destruct HD as [k Hk]. exists (k + A). lia.
  - assert (0 <= u) as Hu. { destruct (Z.leb_spec 0 u); [assumption|]. rewrite <- (Z_mod_plus_full u 1), Z.mod_small in Hpos by lia. lia. }
    exists u. split; [reflexivity|]. split; [lia|exact HD].
Qed.
End Functions.

(** C17: mp_gcd computes the greatest common divisor and mp_inv, for a number below the
    modulus, a number below the modulus whose product with the first is congruent to their
    greatest common divisor; both loops end within the turns given. *)
Theorem euclid_registers p r a n : (0 < p <= MAX_UNIT_PRECISION)%nat -> reg p r -> reg p a -> reg p n ->
  mp_gcd p r a n = Ok (put p r (Z.gcd (valp p a) (valp p n))) /\
  (valp p a < valp p n -> exists v, mp_inv p r a n = Ok (put p r v) /\ 0 <= v < valp p n /\ (v * valp p a) mod valp p n = Z.gcd (valp p a) (valp p n) mod valp p n).
Proof.
  intros Hp Hr Ha Hn. split; [apply mp_gcd_ok; assumption|]. intros Hlt. destruct (mp_inv_ok p r a n Hp Hr Ha Hn Hlt) as (v & E & Hv & Hd). exists v. split; [exact E|]. split; [exact Hv|]. apply mod_eq_iff; [lia|exact Hd].
Qed.

Lemma euclid_registers_witness : let r := units 3 0 in let a := units 3 (10 ^ 9) in let n := units 3 (2 ^ 40 - 87) in
  (0 < 3 <= MAX_UNIT_PRECISION)%nat /\ reg 3 r /\ reg 3 a /\ reg 3 n /\ valp 3 a < valp 3 n /\ mp_gcd 3 r a n = Ok (put 3 r (Z.gcd (valp 3 a) (valp 3 n))).
Proof.
  intros r a n. assert (0 < 3 <= MAX_UNIT_PRECISION)%nat as Hp by (unfold MAX_UNIT_PRECISION; lia). assert (reg 3 r) as Hr by by_eval. assert (reg 3 a) as Ha by by_eval. assert (reg 3 n) as Hn by by_eval.
  split; [exact Hp|]. split; [exact Hr|]. split; [exact Ha|]. split; [exact Hn|]. split; [reflexivity|]. exact (proj1 (euclid_registers 3 r a n Hp Hr Ha Hn)).
Defined.
