(* ===== verification/MpiIo.v ===== *)
(** Multiprecision numbers as bytes (src/mibench/security/pgp/src/mpiio.c, mpiio.h): the views of memory, the order
    of bytes, and the external form of a number with its length in bits. *)
From stdpp Require Import base list numbers option tactics.
From Stdlib Require Import ZArith Lia.
From S2P Require Import Prelude Bytes Mpi MpiDiv.

(** * The code *)

(** The bytes of an array of units, and the units of an array of bytes, as a cast of the pointer reads them. *)
Definition host_bytes (r : list Z) : list Z := mjoin (le_bytes 2 <$> r).
Fixpoint to_units (b : list Z) : list Z := match b with x :: y :: b => x + 256 * y :: to_units b | _ => [] end.

Definition units2bytes (n : Z) : Z := n ≪ 1.
Definition bytes2units (n : Z) : Z := (n + 1) ≫ 1.
Definition bits2bytes (n : Z) : Z := (n + 7) ≫ 3.
Definition countbytes (prec : nat) (r : list Z) : res Z := n ← countbits prec r; mret ((n + 7) ≫ 3).
Definition MAX_BYTE_PRECISION : nat := (2 * MAX_UNIT_PRECISION)%nat.

(** [n] times [dst[di++] = src[si++]]. *)
Fixpoint copy_loop (n : nat) (dst : list Z) (di : Z) (src : list Z) (si : Z) : res (list Z) :=
  match n with O => mret dst | S n => x ← aget src si; dst ← aset dst di x; copy_loop n dst (di + 1) src (si + 1) end.
(** [n] times [*p++ = x]. *)
Fixpoint fill_loop (n : nat) (b : list Z) (i x : Z) : res (list Z) :=
  match n with O => mret b | S n => b ← aset b i x; fill_loop n b (i + 1) x end.

Definition checksum (buf : list Z) (count : Z) : res Z := cfor (Z.to_nat count) 0 (fun i cs => x ← aget buf i; mret (u16 (cs + x))) 0.

Fixpoint swap_loop (fuel : nat) (r1 : list Z) (i j : Z) : res (list Z) :=
  if i <? j then
    match fuel with
    | O => Err OutOfFuel
    | S fuel => b ← aget r1 i; c ← aget r1 j; r1 ← aset r1 i c; r1 ← aset r1 j b; swap_loop fuel r1 (i + 1) (j - 1)
    end
  else mret r1.
Definition hiloswap (r1 : list Z) (numbytes : Z) : res (list Z) := swap_loop (Z.to_nat numbytes) r1 0 (numbytes - 1).
Definition mp_convert_order (prec : nat) (r : list Z) : res (list Z) := hiloswap r (units2bytes (Z.of_nat prec)).

Definition fetch_word16 (buf : list Z) : res Z := w1 ← aget buf 0; w0 ← aget buf 1; mret (u16 (w0 + w1 ≪ 8)).
Definition put_word16 (w : Z) (buf : list Z) : res (list Z) := buf ← aset buf 1 (Z.land w 0xff); aset buf 0 (Z.land (u16 w ≫ 8) 0xff).

Section Words.
Context (dm : data_model).
(** [word32] is [unsigned long]. *)
Definition fetch_word32 (buf : list Z) : res Z :=
  w3 ← aget buf 0; w2 ← aget buf 1; w1 ← aget buf 2; w0 ← aget buf 3;
  mret (uL dm (uL dm (uL dm (w0 + uL dm (w1 ≪ 8)) + uL dm (w2 ≪ 16)) + uL dm (w3 ≪ 24))).
Definition put_word32 (w : Z) (buf : list Z) : res (list Z) :=
  buf ← aset buf 3 (Z.land w 0xff); let w := w ≫ 8 in buf ← aset buf 2 (Z.land w 0xff); let w := w ≫ 8 in
  buf ← aset buf 1 (Z.land w 0xff); let w := w ≫ 8 in aset buf 0 (Z.land w 0xff).
End Words.

(** The number of units, or -1, and the register. *)
Definition mpi2reg (prec : nat) (r buf : list Z) : res (Z * list Z) :=
  bitcount ← fetch_word16 buf;
  let bytecount := u16 (bits2bytes bitcount) in
  let unitcount := u16 (bytes2units bytecount) in
  if Z.of_nat prec <? unitcount then mret (-1, r)
  else
    let zero_bytes := u16 (units2bytes (Z.of_nat prec) - bytecount) in
    buf2 ← fill_loop (Z.to_nat zero_bytes) (replicate MAX_BYTE_PRECISION 0) 0 0;
    buf2 ← copy_loop (Z.to_nat bytecount) buf2 zero_bytes buf 2;
    buf2 ← mp_convert_order prec buf2;
    r ← mp_move prec r (to_units buf2); mret (s16 unitcount, r).
(** The number of bytes after the length, and the buffer. *)
Definition reg2mpi (prec : nat) (buf r : list Z) : res (Z * list Z) :=
  bits ← countbits prec r;
  let bitcount := u16 bits in
  let bytecount := s16 (bits2bytes bitcount) in
  buf1 ← mp_move prec (replicate MAX_UNIT_PRECISION 0) r;
  buf2 ← mp_convert_order prec (host_bytes buf1);
  buf ← put_word16 bitcount buf;
  buf ← copy_loop (Z.to_nat bytecount) buf 2 buf2 (units2bytes (Z.of_nat prec) - bytecount);
  mret (bytecount, buf).

Example io_run : ('(n, buf) ← reg2mpi 4 (replicate 8 7) (units 4 0x12345678); '(u, r) ← mpi2reg 4 (units 4 5) buf; mret (n, buf, u, valp 4 r)) = Ok (4, [0; 29; 0x12; 0x34; 0x56; 0x78; 7; 7], 2, 0x12345678).
Proof. vm_compute. reflexivity. Qed.

(** * Bytes and units *)

Section Views.
Implicit Types (r b : list Z) (n p : nat).

Lemma pair_ind (P : list Z -> Prop) : P [] -> (forall x y b, P b -> P (x :: y :: b)) -> forall b, Nat.Even (length b) -> P b.
Proof.
  intros H0 H2 b. induction b as [|x|x y b IH] using list_ind2; intros He; [exact H0|destruct He as [k He]; cbn in He; lia|].
  apply H2, IH. destruct He as [k He]. exists (pred k). cbn in He. lia.
Qed.

Lemma to_bytes_cons a r : inU 16 a -> host_bytes (a :: r) = a mod 256 :: a / 256 :: host_bytes r.
Proof. intros Ha. unfold host_bytes. cbn [fmap list_fmap]. rewrite mjoin_cons. cbn [le_bytes app]. rewrite (Z.mod_small (a / 256)); [reflexivity|]. unfold inU in Ha. change (2 ^ 16) with 65536 in Ha. dlia. Qed.

Lemma host_bytes_ok r : Forall (inU 16) r -> length (host_bytes r) = (2 * length r)%nat /\ Forall (inU 8) (host_bytes r) /\ to_units (host_bytes r) = r /\ le_word (host_bytes r) = mval r.
Proof.
  induction r as [|a r IH]; intros HF; [cbn; auto|]. apply Forall_cons_1 in HF as [Ha HF]. destruct (IH HF) as (H1 & H2 & H3 & H4). rewrite to_bytes_cons by exact Ha. unfold inU in Ha. change (2 ^ 16) with 65536 in Ha.
  split; [cbn [length]; lia|]. split; [apply Forall_cons_2; [unfold inU; change (2 ^ 8) with 256; dlia|apply Forall_cons_2; [unfold inU; change (2 ^ 8) with 256; dlia|exact H2]]|].
  split; [cbn [to_units]; rewrite H3; f_equal; dlia|]. cbn [le_word mval]. rewrite H4. dlia.
Qed.

Lemma to_units_ok b : Forall (inU 8) b -> Nat.Even (length b) -> (2 * length (to_units b))%nat = length b /\ Forall (inU 16) (to_units b) /\ host_bytes (to_units b) = b /\ mval (to_units b) = le_word b.
Proof.
  intros HF He. revert HF. pattern b. apply pair_ind; [cbn; auto| |exact He]. clear b He. intros x y b IH HF. apply Forall_cons_1 in HF as [Hx HF]. apply Forall_cons_1 in HF as [Hy HF]. destruct (IH HF) as (H1 & H2 & H3 & H4).
  unfold inU in Hx, Hy. change (2 ^ 8) with 256 in Hx, Hy. assert (inU 16 (x + 256 * y)) as Hu by (unfold inU; change (2 ^ 16) with 65536; lia). cbn [to_units].
  split; [cbn [length]; lia|]. split; [apply Forall_cons_2; assumption|]. split; [rewrite to_bytes_cons, H3 by exact Hu; f_equal; [dlia|f_equal; dlia]|]. cbn [mval le_word]. rewrite H4. lia.
Qed.

Lemma mval_to_units b : Forall (inU 8) b -> Nat.Even (length b) -> mval (to_units b) = le_word b.
Proof. intros H1 H2. apply to_units_ok; assumption. Qed.

Lemma take_to_units n : forall b, Forall (inU 8) b -> Nat.Even (length b) -> (2 * n <= length b)%nat -> take n (to_units b) = to_units (take (2 * n) b) /\ drop n (to_units b) = to_units (drop (2 * n) b).
Proof.
  induction n as [|n IH]; intros b HF He Hl; [cbn; auto|]. destruct b as [|x [|y b]]; [cbn in Hl; lia|destruct He as [k He]; cbn in He; lia|]. cbn [length] in Hl. apply Forall_cons_1 in HF as [_ HF]. apply Forall_cons_1 in HF as [_ HF].
  replace (2 * S n)%nat with (S (S (2 * n))) by lia. cbn [to_units take drop]. destruct (IH b HF) as [-> ->]; [destruct He as [k He]; exists (pred k); cbn in He; lia|lia|]. auto.
Qed.

Lemma be_word_le b : Forall (inU 8) b -> 0 <= be_word b < 256 ^ Z.of_nat (length b).
Proof. intros HF. unfold be_word. rewrite <- length_rev. apply le_word_range, Forall_rev, HF. Qed.

Lemma radix_bytes n : radix n = 256 ^ (2 * Z.of_nat n).
Proof. rewrite radix_pow. change 256 with (2 ^ 8). rewrite <- Z.pow_mul_r by lia. f_equal. lia. Qed.
End Views.

(** * Loops over bytes *)

Section Loops.
Implicit Types (a b pre post src : list Z) (n i : nat) (x : Z).

Lemma copy_loop_ok n : forall dst src (di si : nat), (di + n <= length dst)%nat -> (si + n <= length src)%nat ->
  copy_loop n dst (Z.of_nat di) src (Z.of_nat si) = Ok (take di dst ++ take n (drop si src) ++ drop (di + n) dst).
Proof.
  induction n as [|n IH]; intros dst src di si Hd Hs; cbn [copy_loop]; [rewrite Nat.add_0_r, take_0; cbn [app mret res_ret]; rewrite take_drop; reflexivity|].
  destruct (lookup_lt_is_Some_2 src si ltac:(lia)) as [x Ex]. rewrite (proj2 (aget_ok src (Z.of_nat si) x)) by (split; [lia|rewrite Nat2Z.id; exact Ex]). cbn [mbind res_bind].
  rewrite (proj2 (aset_ok dst (Z.of_nat di) x _)) by (split; [lia|reflexivity]). cbn [mbind res_bind]. rewrite Nat2Z.id. replace (Z.of_nat di + 1) with (Z.of_nat (S di)) by lia. replace (Z.of_nat si + 1) with (Z.of_nat (S si)) by lia.
  rewrite IH by (rewrite ?length_insert; lia). f_equal. rewrite drop_insert_lt by lia. rewrite (take_S_r (<[di:=x]> dst) di x) by (apply list_lookup_insert_eq; lia). rewrite take_insert_ge by lia.
  rewrite (drop_S src x si Ex). cbn [take]. rewrite <- app_assoc. cbn [app]. do 3 f_equal. f_equal. lia.
Qed.

Lemma fill_loop_ok n x : forall b (i : nat), (i + n <= length b)%nat -> fill_loop n b (Z.of_nat i) x = Ok (take i b ++ replicate n x ++ drop (i + n) b).
Proof.
  induction n as [|n IH]; intros b i Hl; cbn [fill_loop replicate app]; [rewrite Nat.add_0_r, take_drop; reflexivity|].
  rewrite (proj2 (aset_ok b (Z.of_nat i) x _)) by (split; [lia|reflexivity]). cbn [mbind res_bind]. rewrite Nat2Z.id. replace (Z.of_nat i + 1) with (Z.of_nat (S i)) by lia. rewrite IH by (rewrite length_insert; lia). f_equal.
  rewrite drop_insert_lt by lia. rewrite (take_S_r (<[i:=x]> b) i x) by (apply list_lookup_insert_eq; lia). rewrite take_insert_ge by lia. rewrite <- app_assoc. cbn [app]. do 3 f_equal. f_equal. lia.
Qed.

Lemma swap_loop_ok fuel : forall pre mid post, (length mid <= 2 * fuel + 1)%nat ->
  swap_loop fuel (pre ++ mid ++ post) (Z.of_nat (length pre)) (Z.of_nat (length pre + length mid) - 1) = Ok (pre ++ rev mid ++ post).
Proof.
  induction fuel as [|fuel IH]; intros pre mid post Hl.
  - destruct mid as [|x [|]]; [| |cbn in Hl; lia]; cbn [swap_loop length rev app]; rewrite (proj2 (Z.ltb_ge _ _)) by lia; reflexivity.
  - destruct mid as [|x mid]; [cbn [swap_loop length]; rewrite (proj2 (Z.ltb_ge _ _)) by lia; reflexivity|]. destruct mid as [|y m _] using rev_ind; [cbn [swap_loop length]; rewrite (proj2 (Z.ltb_ge _ _)) by lia; reflexivity|].
    cbn [length] in Hl |- *. rewrite length_app in Hl |- *. cbn [length] in Hl |- *. cbn [swap_loop]. rewrite (proj2 (Z.ltb_lt _ _)) by lia. set (k := length pre). set (q := length m) in *.
    assert (Z.of_nat (k + S (q + 1)) - 1 = Z.of_nat (k + S q)) as -> by lia.
    rewrite (proj2 (aget_ok _ (Z.of_nat k) x)) by (split; [lia|]; rewrite Nat2Z.id; apply list_lookup_middle; reflexivity). cbn [mbind res_bind].
    assert (forall u v, pre ++ (u :: m ++ [v]) ++ post = (pre ++ u :: m) ++ v :: post) as E by (intros u v; cbn [app]; rewrite <- !app_assoc; cbn [app]; rewrite <- ?app_assoc; reflexivity).
    assert (forall u, length (pre ++ u :: m) = (k + S q)%nat) as El by (intros u; rewrite length_app; reflexivity).
    rewrite (proj2 (aget_ok _ (Z.of_nat (k + S q)) y)) by (split; [lia|]; rewrite Nat2Z.id, E; apply list_lookup_middle; symmetry; apply El). cbn [mbind res_bind].
    rewrite (proj2 (aset_ok _ (Z.of_nat k) y (pre ++ (y :: m ++ [y]) ++ post))) by (split; [rewrite E, length_app; cbn [length]; rewrite El; lia|]; rewrite Nat2Z.id; cbn [app]; unfold k; rewrite insert_app_r_alt, Nat.sub_diag by lia; reflexivity). cbn [mbind res_bind].
    rewrite (proj2 (aset_ok _ (Z.of_nat (k + S q)) x (pre ++ (y :: m ++ [x]) ++ post))) by (split; [rewrite E, length_app; cbn [length]; rewrite El; lia|]; rewrite Nat2Z.id, !E; rewrite insert_app_r_alt, El, Nat.sub_diag by (rewrite El; lia); reflexivity). cbn [mbind res_bind].
    specialize (IH (pre ++ [y]) m (x :: post) ltac:(lia)). rewrite length_app in IH. cbn [length] in IH. fold k q in IH. replace (Z.of_nat k + 1) with (Z.of_nat (k + 1)) by lia. replace (Z.of_nat (k + S q) - 1) with (Z.of_nat (k + 1 + q) - 1) by lia.
    replace (pre ++ (y :: m ++ [x]) ++ post) with ((pre ++ [y]) ++ m ++ x :: post) by (cbn [app]; rewrite <- !app_assoc; cbn [app]; rewrite <- ?app_assoc; reflexivity).
    rewrite IH. f_equal. cbn [rev]. rewrite rev_app_distr. cbn [rev app]. rewrite <- !app_assoc. cbn [app]. rewrite <- ?app_assoc. reflexivity.
Qed.
End Loops.

(** * The external form *)

Section External.
Implicit Types (b r buf : list Z) (n : nat).

Lemma hiloswap_ok b n : (n <= length b)%nat -> hiloswap b (Z.of_nat n) = Ok (rev (take n b) ++ drop n b).
Proof.
  intros Hl. unfold hiloswap. rewrite Nat2Z.id. pose proof (swap_loop_ok n [] (take n b) (drop n b)) as H. rewrite length_take, Nat.min_l in H by lia. cbn [app length] in H. rewrite take_drop in H. apply H. lia.
Qed.

Lemma units2bytes_nat n : units2bytes (Z.of_nat n) = Z.of_nat (2 * n).
Proof. unfold units2bytes. rewrite Z.shiftl_mul_pow2 by lia. change (2 ^ 1) with 2. lia. Qed.

Lemma mp_convert_order_ok n b : (2 * n <= length b)%nat -> mp_convert_order n b = Ok (rev (take (2 * n) b) ++ drop (2 * n) b).
Proof. intros Hl. unfold mp_convert_order. rewrite units2bytes_nat. apply hiloswap_ok, Hl. Qed.

(** A big-endian number in an array of bytes, read as a register. *)
Lemma convert_units n b : Forall (inU 8) b -> Nat.Even (length b) -> (2 * n <= length b)%nat ->
  let r := to_units (rev (take (2 * n) b) ++ drop (2 * n) b) in reg n r /\ valp n r = be_word (take (2 * n) b) /\ (2 * length r)%nat = length b.
Proof.
  intros HF He Hl r. set (b' := rev (take (2 * n) b) ++ drop (2 * n) b) in *. assert (Forall (inU 8) b') as HF' by (apply Forall_app; split; [apply Forall_rev, Forall_take, HF|apply Forall_drop, HF]).
  assert (length (rev (take (2 * n) b)) = (2 * n)%nat) as Hlt by (rewrite length_rev, length_take; lia). assert (length b' = length b) as Hl' by (unfold b'; rewrite length_app, Hlt, length_drop; lia). assert (Nat.Even (length b')) as He' by (rewrite Hl'; exact He).
  destruct (to_units_ok b' HF' He') as (H1 & H2 & _). fold r in H1, H2. split; [split; [lia|exact H2]|]. split; [|lia]. unfold valp, r. rewrite (proj1 (take_to_units n b' HF' He' ltac:(lia))).
  assert (take (2 * n) b' = rev (take (2 * n) b)) as -> by (unfold b'; rewrite take_app_le by lia; apply take_ge; lia).
  rewrite mval_to_units; [reflexivity|apply Forall_rev, Forall_take, HF|rewrite Hlt; exists n; lia].
Qed.

(** A register as a big-endian number in an array of bytes. *)
Lemma convert_bytes n r : (n <= length r)%nat -> Forall (inU 16) r -> mp_convert_order n (host_bytes r) = Ok (be_bytes (2 * n) (valp n r) ++ drop (2 * n) (host_bytes r)).
Proof.
  intros Hl HF. destruct (host_bytes_ok r HF) as (H1 & H2 & H3 & _). assert (Nat.Even (length (host_bytes r))) as He by (exists (length r); lia). rewrite mp_convert_order_ok by lia. do 2 f_equal. unfold be_bytes. f_equal.
  pose proof (take_to_units n (host_bytes r) H2 He ltac:(lia)) as [E _]. rewrite H3 in E. unfold valp. rewrite E. assert (length (take (2 * n) (host_bytes r)) = (2 * n)%nat) as Hlt by (rewrite length_take; lia).
  rewrite mval_to_units; [|apply Forall_take, H2|rewrite Hlt; exists n; lia]. rewrite <- Hlt at 2. symmetry. apply le_bytes_word, Forall_take, H2.
Qed.

Lemma be_word_app a b : be_word (a ++ b) = 256 ^ Z.of_nat (length b) * be_word a + be_word b.
Proof.
  unfold be_word. rewrite rev_app_distr, <- (length_rev b). generalize (rev a) as c. induction (rev b) as [|x l IH]; intros c; [cbn [app length le_word]; rewrite Z.pow_0_r; lia|].
  cbn [app length le_word]. rewrite IH, Nat2Z.inj_succ, Z.pow_succ_r by lia. lia.
Qed.
Lemma be_word_zeros k b : be_word (replicate k 0 ++ b) = be_word b.
Proof.
  rewrite be_word_app. assert (be_word (replicate k 0) = 0) as ->; [|lia]. unfold be_word. induction k as [|k IH]; [reflexivity|]. rewrite replicate_S_end, rev_app_distr. cbn [rev app le_word]. lia.
Qed.

Lemma word16_two buf : (2 <= length buf)%nat -> Forall (inU 8) buf -> exists x y c, buf = x :: y :: c /\ inU 8 x /\ inU 8 y /\ Forall (inU 8) c.
Proof.
  intros Hl HF. destruct buf as [|x [|y c]]; [cbn in Hl; lia..|]. apply Forall_cons_1 in HF as [Hx HF]. apply Forall_cons_1 in HF as [Hy HF]. eauto 8.
Qed.

Lemma fetch_word16_ok buf : (2 <= length buf)%nat -> Forall (inU 8) buf -> fetch_word16 buf = Ok (be_word (take 2 buf)) /\ 0 <= be_word (take 2 buf) < 65536.
Proof.
  intros Hl HF. destruct (word16_two buf Hl HF) as (x & y & c & -> & Hx & Hy & _). unfold inU in Hx, Hy. change (2 ^ 8) with 256 in Hx, Hy. unfold fetch_word16. change (aget (x :: y :: c) 0) with (Ok x). change (aget (x :: y :: c) 1) with (Ok y). cbn [mbind res_bind mret res_ret].
  rewrite Z.shiftl_mul_pow2 by lia. change (2 ^ 8) with 256. unfold be_word. cbn [take]. rewrite take_0. cbn [rev app le_word mret res_ret]. rewrite wrapU_id by (unfold inU; change (2 ^ 16) with 65536; lia). split; [f_equal; lia|lia].
Qed.

Lemma put_word16_ok w buf : (2 <= length buf)%nat -> 0 <= w < 65536 -> put_word16 w buf = Ok (be_bytes 2 w ++ drop 2 buf).
Proof.
  intros Hl Hw. destruct buf as [|x [|y c]]; [cbn in Hl; lia..|]. unfold put_word16. cbn [length] in Hl. rewrite (proj2 (aset_ok (x :: y :: c) 1 (Z.land w 0xff) (x :: Z.land w 0xff :: c))) by (split; [cbn [length]; lia|reflexivity]). cbn [mbind res_bind].
  rewrite (proj2 (aset_ok _ 0 (Z.land (u16 w ≫ 8) 0xff) (Z.land (u16 w ≫ 8) 0xff :: Z.land w 0xff :: c))) by (split; [cbn [length]; lia|reflexivity]).
  rewrite wrapU_id by (unfold inU; change (2 ^ 16) with 65536; lia). rewrite Z.shiftr_div_pow2 by lia. change 0xff with (Z.ones 8). rewrite !Z.land_ones by lia. reflexivity.
Qed.

Lemma take_le_bytes m : forall n x, (m <= n)%nat -> take m (le_bytes n x) = le_bytes m x.
Proof. induction m as [|m IH]; intros n x Hl; [apply take_0|]. destruct n as [|n]; [lia|]. cbn [le_bytes take]. rewrite IH by lia. reflexivity. Qed.
Lemma drop_be_bytes k m x : drop k (be_bytes (k + m) x) = be_bytes m x.
Proof. unfold be_bytes. rewrite skipn_rev, length_le_bytes. replace (k + m - k)%nat with m by lia. rewrite take_le_bytes by lia. reflexivity. Qed.
Lemma length_be_bytes n x : length (be_bytes n x) = n.
Proof. unfold be_bytes. rewrite length_rev. apply length_le_bytes. Qed.
Lemma be_bytes_bytes n x : Forall (inU 8) (be_bytes n x).
Proof. apply Forall_rev, le_bytes_bytes. Qed.
Lemma be_word_bytes n x : be_word (be_bytes n x) = x mod 256 ^ Z.of_nat n.
Proof. unfold be_word, be_bytes. rewrite rev_involutive. apply le_word_bytes. Qed.
Lemma be_bytes_word b : Forall (inU 8) b -> be_bytes (length b) (be_word b) = b.
Proof. intros HF. unfold be_bytes, be_word. rewrite <- length_rev, le_bytes_word by (apply Forall_rev, HF). apply rev_involutive. Qed.

Lemma local_bytes n : Forall (inU 8) (replicate n 0).
Proof. apply Forall_replicate. unfold inU. lia. Qed.

Lemma mpi2reg_ok n r buf : (0 < n <= MAX_UNIT_PRECISION)%nat -> reg n r -> Forall (inU 8) buf -> (2 <= length buf)%nat ->
  let bytecount := (be_word (take 2 buf) + 7) / 8 in (bytecount <= 2 * Z.of_nat n -> 2 + bytecount <= Z.of_nat (length buf)) ->
  mpi2reg n r buf = Ok (if 2 * Z.of_nat n <? bytecount then (-1, r) else ((bytecount + 1) / 2, put n r (be_word (take (Z.to_nat bytecount) (drop 2 buf))))).
Proof.
  intros Hn Hr HF H2 bc Hlen. unfold mpi2reg. destruct (fetch_word16_ok buf H2 HF) as [-> Hb]. cbn [mbind res_bind]. unfold bits2bytes, bytes2units. rewrite !Z.shiftr_div_pow2 by lia. change (2 ^ 3) with 8. change (2 ^ 1) with 2. fold bc.
  assert (0 <= bc <= 8192) as Hbc by (unfold bc; dlia). rewrite (wrapU_id 16 bc) by (unfold inU; change (2 ^ 16) with 65536; lia). rewrite (wrapU_id 16 (_ / 2)) by (unfold inU; change (2 ^ 16) with 65536; dlia).
  destruct (Z.ltb_spec (2 * Z.of_nat n) bc) as [Hgt|Hle]; [rewrite (proj2 (Z.ltb_lt _ _)) by dlia; reflexivity|]. rewrite (proj2 (Z.ltb_ge _ _)) by dlia. specialize (Hlen Hle).
  rewrite units2bytes_nat. assert (n <= 130)%nat as Hn130 by (unfold MAX_UNIT_PRECISION in Hn; lia). rewrite (wrapU_id 16 (_ - bc)) by (unfold inU; change (2 ^ 16) with 65536; lia).
  assert (bc = Z.of_nat (Z.to_nat bc)) as Ebc by lia. set (k := Z.to_nat bc) in *. assert (k <= 2 * n)%nat as Hk by lia. replace (Z.of_nat (2 * n) - bc) with (Z.of_nat (2 * n - k)) by lia. rewrite Nat2Z.id.
  change 0 with (Z.of_nat 0) at 2. rewrite fill_loop_ok by (rewrite length_replicate; unfold MAX_BYTE_PRECISION, MAX_UNIT_PRECISION; lia). cbn [mbind res_bind take app]. rewrite take_0. cbn [app].
  set (buf2 := replicate (2 * n - k) 0 ++ drop (0 + (2 * n - k)) (replicate MAX_BYTE_PRECISION 0)). assert (length buf2 = MAX_BYTE_PRECISION) as Hl2 by (unfold buf2; rewrite length_app, length_drop, !length_replicate; unfold MAX_BYTE_PRECISION, MAX_UNIT_PRECISION; lia).
  pose proof (copy_loop_ok k buf2 buf (2 * n - k) 2 ltac:(rewrite Hl2; unfold MAX_BYTE_PRECISION, MAX_UNIT_PRECISION; lia) ltac:(lia)) as E. change (Z.of_nat 2) with 2 in E. rewrite E. clear E. cbn [mbind res_bind].
  assert (take (2 * n - k) buf2 = replicate (2 * n - k) 0) as -> by (unfold buf2; apply take_app_length'; rewrite length_replicate; reflexivity). set (body := take k (drop 2 buf)).
  assert (length body = k) as Hlb by (unfold body; rewrite length_take, length_drop; lia). set (b := replicate (2 * n - k) 0 ++ body ++ drop (2 * n - k + k) buf2).
  assert (length b = MAX_BYTE_PRECISION) as Hl3 by (unfold b; rewrite !length_app, length_drop, Hlb, Hl2, length_replicate; unfold MAX_BYTE_PRECISION, MAX_UNIT_PRECISION; lia).
  assert (Forall (inU 8) b) as HFb by (unfold b, body, buf2; repeat apply Forall_app_2; try apply Forall_take; try apply Forall_drop; try apply Forall_app_2; try apply Forall_drop; try exact HF; apply local_bytes).
  assert (2 * n <= length b)%nat as Hln by (rewrite Hl3; unfold MAX_BYTE_PRECISION; lia). rewrite mp_convert_order_ok by exact Hln. cbn [mbind res_bind].
  destruct (convert_units n b HFb ltac:(exists MAX_UNIT_PRECISION; rewrite Hl3; reflexivity) Hln) as (Hu & Eu & _). rewrite mp_move_ok by (exact Hu || apply Hr). cbn [mbind res_bind mret res_ret]. rewrite Eu.
  assert (take (2 * n) b = replicate (2 * n - k) 0 ++ body) as -> by (unfold b; rewrite app_assoc; apply take_app_length'; rewrite length_app, length_replicate, Hlb; lia). rewrite be_word_zeros. do 2 f_equal.
  apply wrapS_id; [lia|]. unfold inS. change (2 ^ (16 - 1)) with 32768. dlia.
Qed.

Lemma reg2mpi_ok n buf r : (0 < n <= MAX_UNIT_PRECISION)%nat -> reg n r ->
  let bits := if valp n r =? 0 then 0 else Z.log2 (valp n r) + 1 in let k := Z.to_nat ((bits + 7) / 8) in (2 + k <= length buf)%nat ->
  reg2mpi n buf r = Ok (Z.of_nat k, be_bytes 2 bits ++ be_bytes k (valp n r) ++ drop (2 + k) buf) /\ 0 <= bits <= 16 * Z.of_nat n /\ 0 <= valp n r < 256 ^ Z.of_nat k.
Proof.
  intros Hn Hr bits k Hlen. assert (n <= 130)%nat as Hn130 by (unfold MAX_UNIT_PRECISION in Hn; lia). pose proof (valp_range n r Hr) as Hv.
  assert (0 <= bits <= 16 * Z.of_nat n) as Hbits by (unfold bits; destruct (Z.eqb_spec (valp n r) 0); [lia|pose proof (bits_range n (valp n r) ltac:(lia)); lia]). assert (Z.of_nat k = (bits + 7) / 8) as Ek by (unfold k; dlia). assert (k <= 2 * n)%nat as Hk by dlia.
  split; [|split; [exact Hbits|]].
  - unfold reg2mpi. rewrite countbits_ok by (exact Hr || lia). cbn [mbind res_bind]. fold bits. rewrite (wrapU_id 16 bits) by (unfold inU; change (2 ^ 16) with 65536; lia). unfold bits2bytes. rewrite Z.shiftr_div_pow2 by lia. change (2 ^ 3) with 8. rewrite <- Ek.
    rewrite (wrapS_id 16) by (lia || (unfold inS; change (2 ^ (16 - 1)) with 32768; lia)). assert (reg n (replicate MAX_UNIT_PRECISION 0)) as Hz by (split; [rewrite length_replicate; lia|apply Forall_replicate; unfold inU; lia]).
    rewrite mp_move_ok by (exact Hr || apply Hz). cbn [mbind res_bind]. set (u := put n _ _). assert (reg n u) as Hu by apply put_reg, Hz. assert (valp n u = valp n r) as Eu by (unfold u; rewrite valp_put; apply Z.mod_small, Hv).
    rewrite convert_bytes by apply Hu. cbn [mbind res_bind]. rewrite Eu, put_word16_ok by lia. cbn [mbind res_bind]. rewrite units2bytes_nat, Nat2Z.id. replace (Z.of_nat (2 * n) - Z.of_nat k) with (Z.of_nat (2 * n - k)) by lia.
    pose proof (copy_loop_ok k (be_bytes 2 bits ++ drop 2 buf) (be_bytes (2 * n) (valp n r) ++ drop (2 * n) (host_bytes u)) 2 (2 * n - k) ltac:(rewrite length_app, length_be_bytes, length_drop; lia) ltac:(rewrite length_app, length_be_bytes; lia)) as E. change (Z.of_nat 2) with 2 in E. rewrite E. clear E. cbn [mbind res_bind mret res_ret]. do 2 f_equal.
    rewrite take_app_length' by (symmetry; apply length_be_bytes). f_equal. rewrite drop_app_le by (rewrite length_be_bytes; lia). replace (2 * n)%nat with (2 * n - k + k)%nat at 2 by lia. rewrite drop_be_bytes.
    rewrite take_app_length' by (symmetry; apply length_be_bytes). f_equal. rewrite drop_app_ge by (rewrite length_be_bytes; lia). rewrite length_be_bytes, drop_drop. f_equal. lia.
  - split; [lia|]. unfold bits in *. destruct (Z.eqb_spec (valp n r) 0) as [->|Hne]; [lia|]. apply Z.lt_le_trans with (2 ^ (Z.log2 (valp n r) + 1)); [apply Z.log2_spec; lia|]. change 256 with (2 ^ 8). rewrite <- Z.pow_mul_r by lia. apply Z.pow_le_mono_r; dlia.
Qed.
End External.

Definition sum_bytes (b : list Z) : Z := foldr Z.add 0 b.

Lemma checksum_ok buf (n : nat) : (n <= length buf)%nat -> checksum buf (Z.of_nat n) = Ok (sum_bytes (take n buf) mod 65536).
Proof.
  intros Hl. unfold checksum. rewrite Nat2Z.id. assert (forall m (i : nat) cs, (i + m <= length buf)%nat -> cfor m (Z.of_nat i) (fun i cs => x ← aget buf i; mret (u16 (cs + x))) (cs mod 65536) = Ok ((cs + sum_bytes (take m (drop i buf))) mod 65536)) as H.
  { induction m as [|m IH]; intros i cs Hm; [rewrite take_0; cbn [cfor sum_bytes foldr]; rewrite Z.add_0_r; reflexivity|]. cbn [cfor]. destruct (lookup_lt_is_Some_2 buf i ltac:(lia)) as [x Ex].
    rewrite (proj2 (aget_ok buf (Z.of_nat i) x)) by (split; [lia|rewrite Nat2Z.id; exact Ex]). cbn [mbind res_bind mret res_ret]. unfold wrapU. change (2 ^ 16) with 65536. rewrite Zplus_mod_idemp_l. replace (Z.of_nat i + 1) with (Z.of_nat (S i)) by lia.
    rewrite IH by lia. rewrite (drop_S buf x i Ex). cbn [take]. do 2 f_equal. unfold sum_bytes. cbn [foldr]. lia. }
  specialize (H n 0%nat 0 Hl). rewrite Zmod_0_l, drop_0, Z.add_0_l in H. exact H.
Qed.

Lemma word32_ok dm w buf : 0 <= w < 2 ^ 32 -> (4 <= length buf)%nat -> put_word32 w buf = Ok (be_bytes 4 w ++ drop 4 buf) /\ fetch_word32 dm (be_bytes 4 w ++ drop 4 buf) = Ok w.
Proof.
  intros Hw Hl. change (2 ^ 32) with 4294967296 in Hw. destruct buf as [|x0 [|x1 [|x2 [|x3 c]]]]; [cbn in Hl; lia..|]. unfold put_word32. change 0xff with (Z.ones 8). rewrite !Z.shiftr_div_pow2, !Z.land_ones by lia. change (2 ^ 8) with 256.
  assert (be_bytes 4 w = [w / 256 / 256 / 256 mod 256; w / 256 / 256 mod 256; w / 256 mod 256; w mod 256]) as -> by reflexivity. cbn [drop app]. rewrite drop_0.
  assert (forall y0 y1 y2 y3 v, aset (y0 :: y1 :: y2 :: y3 :: c) 3 v = Ok (y0 :: y1 :: y2 :: v :: c) /\ aset (y0 :: y1 :: y2 :: y3 :: c) 2 v = Ok (y0 :: y1 :: v :: y3 :: c) /\
    aset (y0 :: y1 :: y2 :: y3 :: c) 1 v = Ok (y0 :: v :: y2 :: y3 :: c) /\ aset (y0 :: y1 :: y2 :: y3 :: c) 0 v = Ok (v :: y1 :: y2 :: y3 :: c)) as Hset
    by (intros; split; [|split; [|split]]; (apply aset_ok; split; [cbn [length]; lia|reflexivity])).
  rewrite (proj1 (Hset x0 x1 x2 x3 _)). cbn [mbind res_bind]. rewrite (proj1 (proj2 (Hset x0 x1 x2 _ _))). cbn [mbind res_bind]. rewrite (proj1 (proj2 (proj2 (Hset x0 x1 _ _ _)))). cbn [mbind res_bind]. rewrite (proj2 (proj2 (proj2 (Hset x0 _ _ _ _)))). split; [reflexivity|].
  unfold fetch_word32. set (b3 := w / 256 / 256 / 256 mod 256). set (b2 := w / 256 / 256 mod 256). set (b1 := w / 256 mod 256). set (b0 := w mod 256).
  change (aget (b3 :: b2 :: b1 :: b0 :: c) 0) with (Ok b3). change (aget (b3 :: b2 :: b1 :: b0 :: c) 1) with (Ok b2). change (aget (b3 :: b2 :: b1 :: b0 :: c) 2) with (Ok b1). change (aget (b3 :: b2 :: b1 :: b0 :: c) 3) with (Ok b0). cbn [mbind res_bind mret res_ret].
  assert (w = b0 + 256 * b1 + 65536 * b2 + 16777216 * b3 /\ 0 <= b0 < 256 /\ 0 <= b1 < 256 /\ 0 <= b2 < 256 /\ 0 <= b3 < 256) as (Ew & H0 & H1 & H2 & H3) by (unfold b0, b1, b2, b3; dlia).
  rewrite !Z.shiftl_mul_pow2 by lia. change (2 ^ 8) with 256. change (2 ^ 16) with 65536. change (2 ^ 24) with 16777216. f_equal.
  rewrite (uL_id dm (b1 * 256)), (uL_id dm (b2 * 65536)), (uL_id dm (b3 * 16777216)), (uL_id dm (b0 + _)) by (unfold inU; change (2 ^ 32) with 4294967296; lia).
  rewrite (uL_id dm (b0 + b1 * 256 + _)) by (unfold inU; change (2 ^ 32) with 4294967296; lia). rewrite uL_id by (unfold inU; change (2 ^ 32) with 4294967296; lia). lia.
Qed.

(** C19: reg2mpi writes the bit count and the shortest big-endian form and touches nothing
    behind it, mpi2reg reads every number back, and a form that is longer than the precision is
    refused with -1 and leaves the register. *)
Theorem mpi_external n buf r r0 : (0 < n <= MAX_UNIT_PRECISION)%nat -> reg n r -> reg n r0 -> Forall (inU 8) buf -> (2 + 2 * n <= length buf)%nat ->
  (exists (k : nat) buf', reg2mpi n buf r = Ok (Z.of_nat k, buf') /\ (k <= 2 * n)%nat /\
    buf' = be_bytes 2 (if valp n r =? 0 then 0 else Z.log2 (valp n r) + 1) ++ be_bytes k (valp n r) ++ drop (2 + k) buf /\
    mpi2reg n r0 buf' = Ok ((Z.of_nat k + 1) / 2, put n r0 (valp n r))) /\
  (let bytecount := (be_word (take 2 buf) + 7) / 8 in
   mpi2reg n r0 buf = Ok (if 2 * Z.of_nat n <? bytecount then (-1, r0) else ((bytecount + 1) / 2, put n r0 (be_word (take (Z.to_nat bytecount) (drop 2 buf)))))).
Proof.
  intros Hn Hr Hr0 HF Hl. split; [|apply mpi2reg_ok; (assumption || lia)]. pose proof (reg2mpi_ok n buf r Hn Hr) as H. cbv zeta in H. set (v := valp n r) in *. set (bits := if v =? 0 then 0 else Z.log2 v + 1) in *. set (k := Z.to_nat ((bits + 7) / 8)) in *.
  assert (n <= 130)%nat as Hn130 by (unfold MAX_UNIT_PRECISION in Hn; lia). assert (0 <= bits <= 16 * Z.of_nat n) as Hb.
  { unfold bits, v. pose proof (valp_range n r Hr). destruct (Z.eqb_spec (valp n r) 0); [lia|]. pose proof (bits_range n (valp n r) ltac:(lia)). lia. }
  assert (Z.of_nat k = (bits + 7) / 8 /\ (k <= 2 * n)%nat) as [Ek Hk] by (unfold k; split; dlia). destruct (H ltac:(lia)) as (E & _ & Hv). exists k, (be_bytes 2 bits ++ be_bytes k v ++ drop (2 + k) buf). split; [exact E|]. split; [exact Hk|]. split; [reflexivity|].
  set (buf' := be_bytes 2 bits ++ be_bytes k v ++ drop (2 + k) buf). assert (take 2 buf' = be_bytes 2 bits /\ drop 2 buf' = be_bytes k v ++ drop (2 + k) buf) as [Et Ed] by (unfold buf'; split; [apply take_app_length'|apply drop_app_length']; symmetry; apply length_be_bytes).
  assert (be_word (take 2 buf') = bits) as Eb by (rewrite Et, be_word_bytes; apply Z.mod_small; change (256 ^ Z.of_nat 2) with 65536; lia).
  rewrite mpi2reg_ok; [|exact Hn|exact Hr0|apply Forall_app_2; [apply be_bytes_bytes|apply Forall_app_2; [apply be_bytes_bytes|apply Forall_drop, HF]]|unfold buf'; rewrite length_app, length_be_bytes; lia|].
  - rewrite Eb, <- Ek, (proj2 (Z.ltb_ge _ _)), Nat2Z.id, Ed, take_app_length' by (rewrite ?length_be_bytes; lia). rewrite be_word_bytes, Z.mod_small by exact Hv. reflexivity.
  - rewrite Eb, <- Ek. intros _. unfold buf'. rewrite !length_app, !length_be_bytes. lia.
Qed.

Lemma mpi_external_witness : let r := units 2 0x123456 in let buf := [0; 17; 1; 2; 3; 4; 5] in (0 < 2 <= MAX_UNIT_PRECISION)%nat /\ reg 2 r /\ Forall (inU 8) buf /\ (2 + 2 * 2 <= length buf)%nat /\
  mpi2reg 2 r buf = Ok (2, put 2 r 0x010203).
Proof.
  intros r buf. assert (0 < 2 <= MAX_UNIT_PRECISION)%nat as Hn by (unfold MAX_UNIT_PRECISION; lia). assert (reg 2 r) as Hr by by_eval. assert (Forall (inU 8) buf) as HF by by_eval. assert (2 + 2 * 2 <= length buf)%nat as Hl by (cbn; lia).
  split; [exact Hn|]. split; [exact Hr|]. split; [exact HF|]. split; [exact Hl|]. exact (proj2 (mpi_external 2 buf r r Hn Hr Hr HF Hl)).
Defined.

(** The words are stored with their highest byte first and read back, hiloswap reverses a
    prefix of a buffer and leaves the rest, and checksum is the sum of the bytes modulo 65536.
    *)
Theorem byte_order_words dm w buf (n : nat) : 0 <= w < 2 ^ 32 -> Forall (inU 8) buf -> (4 <= length buf)%nat -> (n <= length buf)%nat ->
  put_word32 w buf = Ok (be_bytes 4 w ++ drop 4 buf) /\ fetch_word32 dm (be_bytes 4 w ++ drop 4 buf) = Ok w /\
  put_word16 (w mod 65536) buf = Ok (be_bytes 2 w ++ drop 2 buf) /\ fetch_word16 buf = Ok (be_word (take 2 buf)) /\
  hiloswap buf (Z.of_nat n) = Ok (rev (take n buf) ++ drop n buf) /\ checksum buf (Z.of_nat n) = Ok (sum_bytes (take n buf) mod 65536).
Proof.
  intros Hw HF H4 Hn. destruct (word32_ok dm w buf Hw H4) as [E1 E2]. split; [exact E1|]. split; [exact E2|].
  split; [rewrite put_word16_ok by (try lia; apply Z.mod_pos_bound; lia); do 2 f_equal; unfold be_bytes; cbn [le_bytes]; do 2 f_equal; [|f_equal]; dlia|].
  split; [apply fetch_word16_ok; [lia|exact HF]|]. split; [apply hiloswap_ok, Hn|apply checksum_ok, Hn].
Qed.

Lemma byte_order_words_witness : let buf := [1; 2; 3; 4; 5] in 0 <= 0xdeadbeef < 2 ^ 32 /\ Forall (inU 8) buf /\ (4 <= length buf)%nat /\ (3 <= length buf)%nat /\ hiloswap buf 3 = Ok [3; 2; 1; 4; 5].
Proof.
  intros buf. assert (0 <= 0xdeadbeef < 2 ^ 32) as H1 by lia. assert (Forall (inU 8) buf) as H2 by by_eval. assert (4 <= length buf)%nat as H3 by (cbn; lia). assert (3 <= length buf)%nat as H4 by (cbn; lia).
  split; [exact H1|]. split; [exact H2|]. split; [exact H3|]. split; [exact H4|]. exact (proj1 (proj2 (proj2 (proj2 (proj2 (byte_order_words LP64 0xdeadbeef buf 3 H1 H2 H3 H4)))))).
Defined.
