(* ===== verification/MpiSieve.v ===== *)
(** The table of small primes and the sieve of the search for primes (src/mibench/security/pgp/src/genprime.c). *)
From stdpp Require Import base list numbers option tactics.
From Stdlib Require Import ZArith Znumtheory Lia.
From S2P Require Import Prelude NumTheory Mpi MpiDiv.

(** * The code *)

Definition primetable : list Z := [
  2; 3; 5; 7; 11; 13; 17; 19; 23; 29; 31; 37; 41; 43; 47; 53; 59; 61; 67; 71; 73; 79; 83; 89; 97; 101; 103; 107; 109;
  113; 127; 131; 137; 139; 149; 151; 157; 163; 167; 173; 179; 181; 191; 193; 197; 199; 211; 223; 227; 229; 233; 239;
  241; 251; 257; 263; 269; 271; 277; 281; 283; 293; 307; 311; 313; 317; 331; 337; 347; 349; 353; 359; 367; 373; 379;
  383; 389; 397; 401; 409; 419; 421; 431; 433; 439; 443; 449; 457; 461; 463; 467; 479; 487; 491; 499; 503; 509; 521;
  523; 541; 547; 557; 563; 569; 571; 577; 587; 593; 599; 601; 607; 613; 617; 619; 631; 641; 643; 647; 653; 659; 661;
  673; 677; 683; 691; 701; 709; 719; 727; 733; 739; 743; 751; 757; 761; 769; 773; 787; 797; 809; 811; 821; 823; 827;
  829; 839; 853; 857; 859; 863; 877; 881; 883; 887; 907; 911; 919; 929; 937; 941; 947; 953; 967; 971; 977; 983; 991;
  997; 1009; 1013; 1019; 1021; 1031; 1033; 1039; 1049; 1051; 1061; 1063; 1069; 1087; 1091; 1093; 1097; 1103; 1109;
  1117; 1123; 1129; 1151; 1153; 1163; 1171; 1181; 1187; 1193; 1201; 1213; 1217; 1223; 1229; 1231; 1237; 1249; 1259;
  1277; 1279; 1283; 1289; 1291; 1297; 1301; 1303; 1307; 1319; 1321; 1327; 1361; 1367; 1373; 1381; 1399; 1409; 1423;
  1427; 1429; 1433; 1439; 1447; 1451; 1453; 1459; 1471; 1481; 1483; 1487; 1489; 1493; 1499; 1511; 1523; 1531; 1543;
  1549; 1553; 1559; 1567; 1571; 1579; 1583; 1597; 1601; 1607; 1609; 1613; 1619; 1621; 1627; 1637; 1657; 1663; 1667;
  1669; 1693; 1697; 1699; 1709; 1721; 1723; 1733; 1741; 1747; 1753; 1759; 1777; 1783; 1787; 1789; 1801; 1811; 1823;
  1831; 1847; 1861; 1867; 1871; 1873; 1877; 1879; 1889; 1901; 1907; 1913; 1931; 1933; 1949; 1951; 1973; 1979; 1987;
  1993; 1997; 1999; 2003; 2011; 2017; 2027; 2029; 2039; 2053; 2063; 2069; 2081; 2083; 2087; 2089; 2099; 2111; 2113;
  2129; 2131; 2137; 2141; 2143; 2153; 2161; 2179; 2203; 2207; 2213; 2221; 2237; 2239; 2243; 2251; 2267; 2269; 2273;
  2281; 2287; 2293; 2297; 2309; 2311; 2333; 2339; 2341; 2347; 2351; 2357; 2371; 2377; 2381; 2383; 2389; 2393; 2399;
  2411; 2417; 2423; 2437; 2441; 2447; 2459; 2467; 2473; 2477; 2503; 2521; 2531; 2539; 2543; 2549; 2551; 2557; 2579;
  2591; 2593; 2609; 2617; 2621; 2633; 2647; 2657; 2659; 2663; 2671; 2677; 2683; 2687; 2689; 2693; 2699; 2707; 2711;
  2713; 2719; 2729; 2731; 2741; 2749; 2753; 2767; 2777; 2789; 2791; 2797; 2801; 2803; 2819; 2833; 2837; 2843; 2851;
  2857; 2861; 2879; 2887; 2897; 2903; 2909; 2917; 2927; 2939; 2953; 2957; 2963; 2969; 2971; 2999; 3001; 3011; 3019;
  3023; 3037; 3041; 3049; 3061; 3067; 3079; 3083; 3089; 3109; 3119; 3121; 3137; 3163; 3167; 3169; 3181; 3187; 3191;
  3203; 3209; 3217; 3221; 3229; 3251; 3253; 3257; 3259; 3271; 3299; 3301; 3307; 3313; 3319; 3323; 3329; 3331; 3343;
  3347; 3359; 3361; 3371; 3373; 3389; 3391; 3407; 3413; 3433; 3449; 3457; 3461; 3463; 3467; 3469; 3491; 3499; 3511;
  3517; 3527; 3529; 3533; 3539; 3541; 3547; 3557; 3559; 3571; 3581; 3583; 3593; 3607; 3613; 3617; 3623; 3631; 3637;
  3643; 3659; 3671; 3673; 3677; 3691; 3697; 3701; 3709; 3719; 3727; 3733; 3739; 3761; 3767; 3769; 3779; 3793; 3797;
  3803; 3821; 3823; 3833; 3847; 3851; 3853; 3863; 3877; 3881; 3889; 3907; 3911; 3917; 3919; 3923; 3929; 3931; 3943;
  3947; 3967; 3989; 4001; 4003; 4007; 4013; 4019; 4021; 4027; 4049; 4051; 4057; 4073; 4079; 4091; 4093; 4099; 4111;
  4127; 4129; 4133; 4139; 4153; 4157; 4159; 4177; 4201; 4211; 4217; 4219; 4229; 4231; 4241; 4243; 4253; 4259; 4261;
  4271; 4273; 4283; 4289; 4297; 4327; 4337; 4339; 4349; 4357; 4363; 4373; 4391; 4397; 4409; 4421; 4423; 4441; 4447;
  4451; 4457; 4463; 4481; 4483; 4493; 4507; 4513; 4517; 4519; 4523; 4547; 4549; 4561; 4567; 4583; 4591; 4597; 4603;
  4621; 4637; 4639; 4643; 4649; 4651; 4657; 4663; 4673; 4679; 4691; 4703; 4721; 4723; 4729; 4733; 4751; 4759; 4783;
  4787; 4789; 4793; 4799; 4801; 4813; 4817; 4831; 4861; 4871; 4877; 4889; 4903; 4909; 4919; 4931; 4933; 4937; 4943;
  4951; 4957; 4967; 4969; 4973; 4987; 4993; 4999; 5003; 5009; 5011; 5021; 5023; 5039; 5051; 5059; 5077; 5081; 5087;
  5099; 5101; 5107; 5113; 5119; 5147; 5153; 5167; 5171; 5179; 5189; 5197; 5209; 5227; 5231; 5233; 5237; 5261; 5273;
  5279; 5281; 5297; 5303; 5309; 5323; 5333; 5347; 5351; 5381; 5387; 5393; 5399; 5407; 5413; 5417; 5419; 5431; 5437;
  5441; 5443; 5449; 5471; 5477; 5479; 5483; 5501; 5503; 5507; 5519; 5521; 5527; 5531; 5557; 5563; 5569; 5573; 5581;
  5591; 5623; 5639; 5641; 5647; 5651; 5653; 5657; 5659; 5669; 5683; 5689; 5693; 5701; 5711; 5717; 5737; 5741; 5743;
  5749; 5779; 5783; 5791; 5801; 5807; 5813; 5821; 5827; 5839; 5843; 5849; 5851; 5857; 5861; 5867; 5869; 5879; 5881;
  5897; 5903; 5923; 5927; 5939; 5953; 5981; 5987; 6007; 6011; 6029; 6037; 6043; 6047; 6053; 6067; 6073; 6079; 6089;
  6091; 6101; 6113; 6121; 6131; 6133; 6143; 6151; 6163; 6173; 6197; 6199; 6203; 6211; 6217; 6221; 6229; 6247; 6257;
  6263; 6269; 6271; 6277; 6287; 6299; 6301; 6311; 6317; 6323; 6329; 6337; 6343; 6353; 6359; 6361; 6367; 6373; 6379;
  6389; 6397; 6421; 6427; 6449; 6451; 6469; 6473; 6481; 6491; 6521; 6529; 6547; 6551; 6553; 6563; 6569; 6571; 6577;
  6581; 6599; 6607; 6619; 6637; 6653; 6659; 6661; 6673; 6679; 6689; 6691; 6701; 6703; 6709; 6719; 6733; 6737; 6761;
  6763; 6779; 6781; 6791; 6793; 6803; 6823; 6827; 6829; 6833; 6841; 6857; 6863; 6869; 6871; 6883; 6899; 6907; 6911;
  6917; 6947; 6949; 6959; 6961; 6967; 6971; 6977; 6983; 6991; 6997; 7001; 7013; 7019; 7027; 7039; 7043; 7057; 7069;
  7079; 7103; 7109; 7121; 7127; 7129; 7151; 7159; 7177; 7187; 7193; 7207; 7211; 7213; 7219; 7229; 7237; 7243; 7247;
  7253; 7283; 7297; 7307; 7309; 7321; 7331; 7333; 7349; 7351; 7369; 7393; 7411; 7417; 7433; 7451; 7457; 7459; 7477;
  7481; 7487; 7489; 7499; 7507; 7517; 7523; 7529; 7537; 7541; 7547; 7549; 7559; 7561; 7573; 7577; 7583; 7589; 7591;
  7603; 7607; 7621; 7639; 7643; 7649; 7669; 7673; 7681; 7687; 7691; 7699; 7703; 7717; 7723; 7727; 7741; 7753; 7757;
  7759; 7789; 7793; 7817; 7823; 7829; 7841; 7853; 7867; 7873; 7877; 7879; 7883; 7901; 7907; 7919; 7927; 7933; 7937;
  7949; 7951; 7963; 7993; 8009; 8011; 8017; 8039; 8053; 8059; 8069; 8081; 8087; 8089; 8093; 8101; 8111; 8117; 8123;
  8147; 8161; 8167; 8171; 8179; 8191; 0].
(** [for (i = 1; primetable[i]; i++)]; [ps] is the rest of the table. *)
Fixpoint buildsieve_loop (prec : nat) (p ps remainders : list Z) (i : Z) : res (list Z) :=
  match ps with
  | [] => Err OutOfBounds
  | q :: ps => if q =? 0 then mret remainders else r ← mp_shortmod prec p q; remainders ← aset remainders i r; buildsieve_loop prec p ps remainders (i + 1)
  end.
Definition buildsieve (prec : nat) (p remainders : list Z) : res (list Z) := buildsieve_loop prec p (drop 1 primetable) remainders 1.

Fixpoint fastsieve_loop (pdelta : Z) (ps remainders : list Z) (i : Z) : res bool :=
  match ps with
  | [] => Err OutOfBounds
  | q :: ps => if q =? 0 then mret true else r ← aget remainders i; if Z.rem (pdelta + r) q =? 0 then mret false else fastsieve_loop pdelta ps remainders (i + 1)
  end.
Definition fastsieve (pdelta : Z) (remainders : list Z) : res bool := fastsieve_loop pdelta (drop 1 primetable) remainders 1.

(** The table is searched for a prime that is not smaller than the lowest unit. *)
Fixpoint table_loop (ps : list Z) (low : Z) : res (option Z) :=
  match ps with
  | [] => Err OutOfBounds
  | q :: ps => if q =? 0 then mret None else if low <=? q then mret (Some q) else table_loop ps low
  end.

(** * The table of small primes *)

(** The primes whose squares are not above the largest number of the table. *)
Definition trial_primes : list Z := [2; 3; 5; 7; 11; 13; 17; 19; 23; 29; 31; 37; 41; 43; 47; 53; 59; 61; 67; 71; 73; 79; 83; 89].
Definition trial_division (n : Z) : bool := forallb (fun d => (n <=? d) || negb (n mod d =? 0)) trial_primes.
Definition sieve_primes : list Z := removelast (drop 1 primetable).

Lemma trial_primes_ge d : d ∈ trial_primes -> 2 <= d.
Proof. assert (Forall (fun d => 2 <= d) trial_primes) as H by by_eval. rewrite Forall_forall in H. intros Hd. apply H, list_elem_of_In, Hd. Qed.

Lemma trial_divisor d : 2 <= d <= 90 -> exists r, r ∈ trial_primes /\ (r | d) /\ r <= d.
Proof.
  intros Hd. assert (forallb (fun d => existsb (fun r => (d mod r =? 0) && (r <=? d)) trial_primes) (seqZ 2 89) = true) as H by (vm_compute; reflexivity).
  pose proof (forallb_seqZ _ _ _ H d ltac:(lia)) as E. apply existsb_exists in E as (r & Hr & E). apply andb_prop in E as [E1 E2]. apply list_elem_of_In in Hr. pose proof (trial_primes_ge r Hr). exists r. split; [exact Hr|].
  apply Z.eqb_eq in E1. apply Z.leb_le in E2. split; [|exact E2]. apply Z.mod_divide in E1; [exact E1|lia].
Qed.

Lemma trial_division_ok n : 2 <= n <= 8191 -> trial_division n = true <-> prime n.
Proof.
  intros Hn. unfold trial_division. rewrite forallb_forall. split.
  - intros H. destruct (prime_dec n) as [Hp|Hp]; [exact Hp|]. destruct (not_prime_divide n ltac:(lia) Hp) as (d & Hd & e & He).
    assert (exists x, 2 <= x <= 90 /\ x < n /\ (x | n)) as (x & Hx & Hxn & Hxd).
    { destruct (Z.le_gt_cases d 90) as [?|?]; [exists d; split; [lia|split; [lia|exists e; exact He]]|]. exists e. split; [nia|]. split; [nia|]. exists d. lia. }
    destruct (trial_divisor x Hx) as (r & Hr & Hrx & Hrle). specialize (H r (proj1 (list_elem_of_In _ _) Hr)). cbv beta in H. rewrite (proj2 (Z.leb_gt n r)) in H by lia. cbn [orb] in H.
    pose proof (Z.divide_trans _ _ _ Hrx Hxd) as [k Hk]. rewrite Hk, Z_mod_mult in H. discriminate H.
  - intros Hp d Hd. apply orb_true_intro. destruct (Z.leb_spec n d); [left; reflexivity|right]. apply list_elem_of_In in Hd. pose proof (trial_primes_ge d Hd) as Hd2.
    apply negb_true_iff, Z.eqb_neq. intros E. apply Z.mod_divide in E; [|lia]. destruct (prime_divisors n Hp d E) as [?|[?|[?|?]]]; lia.
Qed.

(** The multiples of a number are counted off, so that the table is checked without divisions. *)
Fixpoint marks (len c d : nat) : list bool :=
  match len with O => [] | S len => match c with O => false :: marks len (d - 1) d | S c => true :: marks len c d end end.
Definition unmarked (n : nat) (ds : list Z) : list bool := foldr (fun d acc => zip_with andb (marks n (2 * Z.to_nat d - 2) (Z.to_nat d)) acc) (replicate n true) ds.
Fixpoint select (l : list Z) (bs : list bool) : list Z :=
  match l, bs with x :: l, b :: bs => if (b : bool) then x :: select l bs else select l bs | _, _ => [] end.

Lemma marks_ok (d : nat) : (0 < d)%nat -> forall len c i, (i < len)%nat -> marks len c d !! i = Some (negb ((c <=? i)%nat && ((i - c) mod d =? 0)%nat)).
Proof.
  intros Hd. induction len as [|len IH]; intros c i Hi; [lia|]. destruct c as [|c], i as [|i]; cbn [marks].
  - change (Some false = Some (negb (0 mod d =? 0)%nat)). rewrite Nat.Div0.mod_0_l. reflexivity.
  - change (marks len (d - 1) d !! i = Some (negb (S i mod d =? 0)%nat)). rewrite IH by lia. do 2 f_equal. destruct (Nat.leb_spec (d - 1) i) as [H|H]; cbn [andb].
    + replace (S i) with (i - (d - 1) + 1 * d)%nat by lia. rewrite Nat.Div0.mod_add. reflexivity.
    + rewrite Nat.mod_small by lia. reflexivity.
  - reflexivity.
  - change (marks len c d !! i = Some (negb ((c <=? i)%nat && ((i - c) mod d =? 0)%nat))). apply IH. lia.
Qed.

(** The multiples of [d] beyond [d] itself, among the numbers from 2 on. *)
Lemma marks_divide (n i : nat) d : 2 <= d -> (i < n)%nat -> marks n (2 * Z.to_nat d - 2) (Z.to_nat d) !! i = Some ((2 + Z.of_nat i <=? d) || negb ((2 + Z.of_nat i) mod d =? 0)).
Proof.
  intros Hd Hi. rewrite marks_ok by lia. f_equal. set (e := Z.to_nat d). assert (d = Z.of_nat e) as Ed by lia. clearbody e. subst d. assert (2 <= e)%nat as He by lia. replace (2 + Z.of_nat i) with (Z.of_nat (2 + i)) by lia. rewrite <- Nat2Z.inj_mod.
  destruct (Nat.leb_spec (2 * e - 2) i) as [H1|H1]; cbn [andb negb].
  - replace (2 + i)%nat with (i - (2 * e - 2) + 2 * e)%nat by lia. rewrite Nat.Div0.mod_add. destruct (Z.leb_spec (Z.of_nat (i - (2 * e - 2) + 2 * e)) (Z.of_nat e)); [lia|]. cbn [orb]. f_equal. destruct (Nat.eqb_spec ((i - (2 * e - 2)) mod e) 0), (Z.eqb_spec (Z.of_nat ((i - (2 * e - 2)) mod e)) 0); (reflexivity || lia).
  - symmetry. apply orb_true_iff. destruct (Z.leb_spec (Z.of_nat (2 + i)) (Z.of_nat e)) as [|H2]; [now left|right]. apply negb_true_iff, Z.eqb_neq. replace (2 + i)%nat with (2 + i - e + 1 * e)%nat by lia. rewrite Nat.Div0.mod_add, Nat.mod_small by lia. lia.
Qed.

Lemma unmarked_ok (n i : nat) ds : (i < n)%nat -> Forall (Z.le 2) ds -> unmarked n ds !! i = Some (forallb (fun d => (2 + Z.of_nat i <=? d) || negb ((2 + Z.of_nat i) mod d =? 0)) ds).
Proof.
  intros Hi HF. induction ds as [|d ds IH]; [apply lookup_replicate_2; exact Hi|]. apply Forall_cons_1 in HF as [Hd HF]. change (unmarked n (d :: ds)) with (zip_with andb (marks n (2 * Z.to_nat d - 2) (Z.to_nat d)) (unmarked n ds)).
  rewrite lookup_zip_with, (marks_divide n i d Hd Hi), (IH HF). reflexivity.
Qed.

Lemma select_filter (f : Z -> bool) l : forall bs, (forall i x, l !! i = Some x -> bs !! i = Some (f x)) -> List.filter f l = select l bs.
Proof.
  induction l as [|x l IH]; intros bs H; [reflexivity|]. pose proof (H 0%nat x eq_refl) as H0. destruct bs as [|b bs]; [discriminate H0|]. cbn in H0. injection H0 as ->. cbn [List.filter select]. rewrite (IH bs); [reflexivity|]. intros i y Hy. exact (H (S i) y Hy).
Qed.

Lemma primetable_filter : primetable = List.filter trial_division (seqZ 2 8190) ++ [0].
Proof.
  rewrite (select_filter _ _ (unmarked (Z.to_nat 8190) trial_primes)); [vm_compute; reflexivity|]. intros i x Hx. apply lookup_seqZ in Hx as [-> Hi]. apply unmarked_ok; [lia|by_eval].
Qed.
Lemma primetable_split : primetable = 2 :: sieve_primes ++ [0].
Proof. vm_compute. reflexivity. Qed.

Lemma sieve_primes_ok x : x ∈ sieve_primes <-> prime x /\ 2 < x <= 8191.
Proof.
  assert (2 :: sieve_primes = List.filter trial_division (seqZ 2 8190)) as E by (apply (app_inj_tail _ _ 0 0); rewrite <- primetable_filter, primetable_split; reflexivity).
  assert (x ∈ 2 :: sieve_primes <-> prime x /\ 2 <= x <= 8191) as H.
  { rewrite E, list_elem_of_In, filter_In, <- list_elem_of_In, elem_of_seqZ. split.
    - intros [H1 H2]. split; [apply trial_division_ok; [lia|exact H2]|lia].
    - intros [H1 H2]. split; [lia|apply trial_division_ok; [lia|exact H1]]. }
  assert (2 ∉ sieve_primes) as H2 by (rewrite list_elem_of_In; intros Hin; assert (existsb (Z.eqb 2) sieve_primes = true) as D by (apply existsb_exists; exists 2; auto); vm_compute in D; discriminate D).
  split.
  - intros Hx. destruct (proj1 H (list_elem_of_further _ _ _ Hx)) as [Hp Hr]. split; [exact Hp|]. assert (x <> 2) by congruence. lia.
  - intros [Hp Hr]. assert (2 <= x <= 8191) as Hr' by lia. pose proof (proj2 H (conj Hp Hr')) as Hin. apply elem_of_cons in Hin as [->|Hin]; [lia|exact Hin].
Qed.

(** * The sieve and the test after Fermat *)

Definition passes_sieve (c : Z) : bool := forallb (fun q => negb (c mod q =? 0)) sieve_primes.
Definition passes_fermat (c : Z) : bool := forallb (fun x => x ^ (c - 1) mod c =? 1) [2; 3; 5; 7].
Definition accepted (c : Z) : bool := passes_sieve c && passes_fermat c.

Lemma passes_sieve_iff c : passes_sieve c = true <-> forall q, prime q -> 2 < q <= 8191 -> ~ (q | c).
Proof.
  unfold passes_sieve. rewrite forallb_forall. split.
  - intros H q Hq Hr Hd. specialize (H q (proj1 (list_elem_of_In _ _) (proj2 (sieve_primes_ok q) (conj Hq Hr)))). cbv beta in H.
    rewrite (proj2 (Z.mod_divide c q ltac:(lia)) Hd) in H. discriminate H.
  - intros H q Hq. apply list_elem_of_In, sieve_primes_ok in Hq as [Hq Hr]. apply negb_true_iff, Z.eqb_neq. intros E. apply (H q Hq Hr), Z.mod_divide; [lia|exact E].
Qed.

Lemma prime_accepted c : prime c -> 8191 < c -> accepted c = true.
Proof.
  intros Hc Hb. apply andb_true_intro. split.
  - apply passes_sieve_iff. intros q Hq Hr Hd. pose proof (prime_div_prime q c Hq Hc Hd). lia.
  - apply forallb_forall. intros x Hx. apply Z.eqb_eq, fermat; [exact Hc|]. intros Hd. apply small_divide in Hd; cbn in Hx; lia.
Qed.

Section Sieve.
Implicit Types (p ps rem : list Z).

Lemma buildsieve_loop_ok prec p V : (0 < prec)%nat -> reg prec p -> valp prec p = V -> forall ps rem (i : nat), Forall (fun q => 0 < q <= 32768) ps -> (i + length ps <= length rem)%nat ->
  buildsieve_loop prec p (ps ++ [0]) rem (Z.of_nat i) = Ok (take i rem ++ ((fun q => V mod q) <$> ps) ++ drop (i + length ps) rem).
Proof.
  intros Hp Hr HV. induction ps as [|q ps IH]; intros rem i HF Hl.
  - cbn [app buildsieve_loop Z.eqb fmap list_fmap length mret res_ret]. rewrite Nat.add_0_r, take_drop. reflexivity.
  - apply Forall_cons_1 in HF as [Hq HF]. cbn [length] in Hl. cbn [app buildsieve_loop]. rewrite (proj2 (Z.eqb_neq q 0)) by lia.
    rewrite (proj2 (mp_shortdiv_ok prec p p q Hp Hr Hr Hq)), HV. cbn [mbind res_bind]. rewrite (proj2 (aset_ok rem (Z.of_nat i) (V mod q) _)) by (split; [lia|reflexivity]). cbn [mbind res_bind].
    replace (Z.of_nat i + 1) with (Z.of_nat (S i)) by lia. rewrite IH by (try exact HF; rewrite length_insert; lia). f_equal. rewrite Nat2Z.id, drop_insert_lt by lia.
    assert (take (S i) (<[i:=V mod q]> rem) = take i rem ++ [V mod q]) as ->.
    { rewrite (take_S_r _ _ (V mod q)) by (apply list_lookup_insert_eq; lia). rewrite take_insert_ge by lia. reflexivity. }
    cbn [fmap list_fmap length]. rewrite <- app_assoc. cbn [app]. do 3 f_equal. f_equal. lia.
Qed.

Lemma fastsieve_loop_ok pdelta V : 0 <= pdelta -> forall ps pre post, Forall (fun q => 0 < q) ps ->
  fastsieve_loop pdelta (ps ++ [0]) (pre ++ ((fun q => V mod q) <$> ps) ++ post) (Z.of_nat (length pre)) = Ok (forallb (fun q => negb ((V + pdelta) mod q =? 0)) ps).
Proof.
  intros Hd. induction ps as [|q ps IH]; intros pre post HF; [reflexivity|]. apply Forall_cons_1 in HF as [Hq HF]. cbn [app fastsieve_loop fmap list_fmap forallb]. rewrite (proj2 (Z.eqb_neq q 0)) by lia.
  rewrite (proj2 (aget_ok _ (Z.of_nat (length pre)) (V mod q))) by (split; [lia|]; rewrite Nat2Z.id; apply list_lookup_middle; reflexivity). cbn [mbind res_bind].
  pose proof (Z.mod_pos_bound V q Hq). rewrite Z.rem_mod_nonneg, (Z.add_comm pdelta), Zplus_mod_idemp_l by lia. destruct (Z.eqb_spec ((V + pdelta) mod q) 0); [reflexivity|]. cbn [negb andb].
  specialize (IH (pre ++ [V mod q]) post HF). rewrite length_app, <- app_assoc in IH. cbn [length app] in IH. replace (Z.of_nat (length pre) + 1) with (Z.of_nat (length pre + 1)) by lia. exact IH.
Qed.

Lemma sieve_primes_range : Forall (fun q => 0 < q <= 32768) sieve_primes.
Proof. apply Forall_forall. intros q Hq. apply list_elem_of_In, sieve_primes_ok in Hq. lia. Qed.

Lemma sieve_ok prec p V : (0 < prec)%nat -> reg prec p -> valp prec p = V ->
  exists remainders, buildsieve prec p (replicate (length primetable) 0) = Ok remainders /\ forall pdelta, 0 <= pdelta -> fastsieve pdelta remainders = Ok (passes_sieve (V + pdelta)).
Proof.
  intros Hp Hr HV. unfold buildsieve, fastsieve. rewrite primetable_split. cbn [drop]. change 1 with (Z.of_nat 1). eexists.
  split; [apply (buildsieve_loop_ok prec p V Hp Hr HV); [exact sieve_primes_range|cbn [length app]; rewrite length_replicate, length_app; lia]|].
  intros d Hd. cbn [length replicate take]. change (Z.of_nat 1) with (Z.of_nat (length [0])). apply fastsieve_loop_ok; [exact Hd|].
  eapply Forall_impl; [|exact sieve_primes_range]. cbv beta. lia.
Qed.
End Sieve.

Lemma table_loop_ok (P : Z -> bool) low (n : nat) : forall a, 0 < a -> exists o, table_loop (List.filter P (seqZ a (Z.of_nat n)) ++ [0]) low = Ok o /\
  match o with
  | Some q => a <= q < a + Z.of_nat n /\ P q = true /\ low <= q /\ forall x, a <= x < q -> low <= x -> P x = false
  | None => forall x, a <= x < a + Z.of_nat n -> low <= x -> P x = false
  end.
Proof.
  induction n as [|n IH]; intros a Ha; [exists None; split; [reflexivity|lia]|]. rewrite seqZ_cons by lia. replace (Z.pred (Z.of_nat (S n))) with (Z.of_nat n) by lia. destruct (IH (Z.succ a) ltac:(lia)) as (o & E & Ho). cbn [List.filter].
  assert (forall x, a <= x -> x = a \/ Z.succ a <= x) as Hx by lia. destruct (P a) eqn:EP; cbn [app table_loop]; [rewrite (proj2 (Z.eqb_neq a 0)) by lia; destruct (Z.leb_spec low a)|].
  - exists (Some a). split; [reflexivity|]. split; [lia|]. split; [exact EP|]. split; [assumption|lia].
  - exists o. split; [exact E|]. destruct o as [q|].
    + destruct Ho as (H1 & H2 & H3 & H4). split; [lia|]. split; [exact H2|]. split; [exact H3|]. intros x H5 H6. apply H4; lia.
    + intros x H5 H6. apply Ho; lia.
  - exists o. split; [exact E|]. destruct o as [q|].
    + destruct Ho as (H1 & H2 & H3 & H4). split; [lia|]. split; [exact H2|]. split; [exact H3|]. intros x H5 H6. destruct (Hx x ltac:(lia)) as [->|?]; [exact EP|apply H4; lia].
    + intros x H5 H6. destruct (Hx x ltac:(lia)) as [->|?]; [exact EP|apply Ho; lia].
Qed.

Lemma primetable_search low : exists o, table_loop primetable low = Ok o /\
  match o with Some q => prime q /\ low <= q <= 8191 /\ forall x, prime x -> low <= x -> q <= x | None => 8191 < low end.
Proof.
  rewrite primetable_filter. destruct (table_loop_ok trial_division low 8190 2 ltac:(lia)) as (o & E & Ho). change (Z.of_nat 8190) with 8190 in *. exists o. split; [exact E|]. destruct o as [q|].
  - destruct Ho as (H1 & H2 & H3 & H4). split; [apply trial_division_ok; [lia|exact H2]|]. split; [lia|]. intros x Hx Hl. destruct (Z.le_gt_cases q x) as [|Hlt]; [assumption|]. exfalso.
    pose proof (prime_pos x Hx). specialize (H4 x ltac:(lia) Hl). rewrite (proj2 (trial_division_ok x ltac:(lia)) Hx) in H4. discriminate H4.
  - destruct (Z.le_gt_cases low 8191) as [Hle|]; [|assumption]. exfalso. assert (prime 8191) as Hp by (apply trial_division_ok; [lia|vm_compute; reflexivity]).
    specialize (Ho 8191 ltac:(lia) Hle). rewrite (proj2 (trial_division_ok 8191 ltac:(lia)) Hp) in Ho. discriminate Ho.
Qed.

(** C16: The table holds exactly the primes below 8192 and its final zero, and fastsieve
    over the remainders of buildsieve says yes to a distance exactly when no odd prime of the
    table divides the number at that distance. *)
Theorem prime_sieve prec p : (0 < prec)%nat -> reg prec p ->
  (forall x, x <> 0 -> x ∈ primetable <-> prime x /\ x < 8192) /\
  exists remainders, buildsieve prec p (replicate (length primetable) 0) = Ok remainders /\
    forall pdelta, 0 <= pdelta -> exists b, fastsieve pdelta remainders = Ok b /\ (b = true <-> forall q, prime q -> 2 < q < 8192 -> ~ (q | valp prec p + pdelta)).
Proof.
  intros Hp Hr. split.
  - intros x Hx. rewrite primetable_split, elem_of_cons, elem_of_app, list_elem_of_singleton, sieve_primes_ok. split.
    + intros [->|[[H1 H2]|H]]; [split; [exact prime_2|lia]|split; [exact H1|lia]|contradiction].
    + intros [H1 H2]. pose proof (prime_pos x H1). destruct (Z.eq_dec x 2) as [->|]; [left; reflexivity|right; left]. split; [exact H1|lia].
  - destruct (sieve_ok prec p _ Hp Hr eq_refl) as (rem & E & H). exists rem. split; [exact E|]. intros d Hd. exists (passes_sieve (valp prec p + d)). split; [apply H, Hd|].
    rewrite passes_sieve_iff. split; intros H1 q Hq Hb; apply H1; (exact Hq || lia).
Qed.

Lemma prime_sieve_witness : (0 < 2)%nat /\ reg 2 [0x86a1; 1] /\ exists remainders, buildsieve 2 [0x86a1; 1] (replicate (length primetable) 0) = Ok remainders /\ fastsieve 2 remainders = Ok true /\ fastsieve 0 remainders = Ok false.
Proof.
  assert (0 < 2)%nat as H1 by lia. assert (reg 2 [0x86a1; 1]) as H2 by by_eval. split; [exact H1|]. split; [exact H2|]. destruct (proj2 (prime_sieve 2 [0x86a1; 1] H1 H2)) as (rem & E & _). exists rem. split; [exact E|].
  assert ((r ← buildsieve 2 [0x86a1; 1] (replicate (length primetable) 0); a ← fastsieve 2 r; b ← fastsieve 0 r; mret (a, b)) = Ok (true, false)) as H by (vm_compute; reflexivity).
  rewrite E in H. cbn [mbind res_bind] in H. destruct (fastsieve 2 rem) as [a|e] eqn:Ea; [|discriminate H]. cbn [mbind res_bind] in H. destruct (fastsieve 0 rem) as [b|e] eqn:Eb; [|discriminate H]. cbn in H. injection H as -> ->. auto.
Defined.
