(* ===== verification/MpiPrime.v ===== *)
(** The search for large primes (src/mibench/security/pgp/src/genprime.c): the test after Fermat, the search for the
    next prime and random primes. *)
From stdpp Require Import base list numbers option tactics.
From Stdlib Require Import ZArith Znumtheory Lia.
From S2P Require Import Prelude NumTheory Mpi MpiDiv MpiSmith MpiExp MpiEuclid MpiSieve.

(** * The code *)

Definition NOPRIMEFOUND : Z := -14.
Definition NOSUSPECTS : Z := -13.

Section Code.
Context (dm : data_model).
Implicit Types (st : smith) (prec : nat).

Fixpoint slowtest_loop (n : nat) prec st (i : Z) (x is_one pminus1 p : list Z) : res (bool * smith) :=
  match n with
  | O => mret (true, st)
  | S n =>
      q ← aget primetable i; x ← mp_init prec x q;
      '(status, st, is_one) ← mp_modexp dm prec st is_one x pminus1 p;
      if status <? 0 then mret (false, st)
      else b ← testne prec is_one 1; if b : bool then mret (false, st) else slowtest_loop n prec st (i + 1) x is_one pminus1 p
  end.
Definition slowtest prec st (p : list Z) : res (bool * smith) :=
  let local := replicate MAX_UNIT_PRECISION 0 in
  pminus1 ← mp_move prec local p; '(pminus1, _) ← mp_dec prec pminus1;
  slowtest_loop 4 prec st 0 local local pminus1 p.

(** The loop over the candidates; the number of suspects, the last distance and the candidate are returned. *)
Fixpoint search_primes (fuel : nat) prec st (p remainders : list Z) (pdelta range suspects : Z) : res (Z * Z * smith * list Z) :=
  match fuel with
  | O => Err OutOfFuel
  | S fuel =>
      b ← fastsieve pdelta remainders;
      '(found, suspects, st) ← (if b : bool then '(found, st) ← slowtest prec st p; mret (found, s16 (suspects + 1), st) else mret (false, suspects, st));
      if found : bool then mret (pdelta, suspects, st, p)
      else
        let pdelta := u16 (pdelta + 4) in
        '(p, _) ← mp_inc prec p; '(p, _) ← mp_inc prec p; '(p, _) ← mp_inc prec p; '(p, _) ← mp_inc prec p;
        if range <? pdelta then mret (pdelta, suspects, st, p) else search_primes fuel prec st p remainders pdelta range suspects
  end.

(** The status, the statics of the modular multiplication and the prime. The table of remainders is allocated and
    erased before it is freed. *)
Definition nextprime prec st (p : list Z) : res (Z * smith * list Z) :=
  '(p, _) ← mp_inc prec p;
  s ← significance prec p;
  found ← (if (s <=? 1)%nat then low ← aget p 0; table_loop primetable low else mret None);
  match found with
  | Some q => p ← mp_init prec p q; mret (0, st, p)
  | None =>
      minus ← mp_tstminus prec p;
      if minus : bool then p ← mp_init prec p 2; mret (0, st, p)
      else
        low ← aget p 0; p ← aset p 0 (Z.lor low 3);
        bits ← countbits prec p;
        let prec := Z.to_nat (bits2units (bits + 4 + SMITH_SLOP_BITS)) in
        remainders ← buildsieve prec p (replicate (length primetable) 0);
        let range := u16 (8 * units2bits (Z.of_nat prec)) in
        '(pdelta, suspects, st, p) ← search_primes (Z.to_nat range) prec st p remainders 0 range 0;
        mret (if range <? pdelta then (if suspects <? 1 then NOSUSPECTS else NOPRIMEFOUND) else 0, st, p)
  end.

(** The random bytes are the values of [trueRandByte], in the order of the calls. *)
Context (trueRandByte : nat -> Z).
Definition randomunit (pos : nat) : Z * nat := (u16 (u16 (0 ≪ 8 + trueRandByte pos) ≪ 8 + trueRandByte (S pos)), S (S pos)).
Fixpoint random_units (n : nat) (p : list Z) (i : Z) (pos : nat) : res (list Z * nat) :=
  match n with
  | O => mret (p, pos)
  | S n => let '(u, pos) := randomunit pos in p ← aset p i u; random_units n p (i + 1) pos
  end.
Definition randombits prec (p : list Z) (nbits : Z) (pos : nat) : res (list Z * nat) :=
  p ← mp_init prec p 0;
  '(p, pos) ← random_units (Z.to_nat (nbits / UNITSIZE)) p 0 pos;
  let rest := nbits mod UNITSIZE in
  if rest =? 0 then mret (p, pos)
  else let '(u, pos) := randomunit pos in p ← aset p (nbits / UNITSIZE) (Z.land u (1 ≪ rest - 1)); mret (p, pos).
Definition randomprime prec st (p : list Z) (nbits : Z) (pos : nat) : res (Z * smith * list Z * nat) :=
  '(p, pos) ← randombits prec p (nbits - 2) pos;
  p ← mp_setbit p (nbits - 1); p ← mp_setbit p (nbits - 2);
  '(status, st, p) ← nextprime prec st p; mret (status, st, p, pos).
End Code.

Example next_run : ('(s, _, p) ← nextprime LP64 4 init_smith (units 4 1000); '(s', _, p') ← nextprime LP64 4 init_smith (units 4 (10 ^ 12)); mret (s, valp 4 p, s', valp 4 p')) = Ok (0, 1009, 0, 10 ^ 12 + 39).
Proof. vm_compute. reflexivity. Qed.


(** * The test after Fermat *)

Section Search.
Context (dm : data_model).
Implicit Types (st : smith) (m n : nat) (c v : Z) (p : list Z).

Lemma slowtest_loop_ok m c p pminus1 : (0 < m <= MAX_UNIT_PRECISION)%nat -> reg m p -> valp m p = c -> 2 ^ 32 <= c -> word_ok dm c -> reg m pminus1 -> valp m pminus1 = c - 1 ->
  forall l st x is_one (i : nat), smith_wf st -> reg m x -> reg m is_one -> (forall j q, l !! j = Some q -> aget primetable (Z.of_nat (i + j)) = Ok q) -> Forall (fun q => 0 < q < 8192) l ->
  okp (slowtest_loop dm (length l) m st (Z.of_nat i) x is_one pminus1 p) (fun r => r.1 = forallb (fun x => x ^ (c - 1) mod c =? 1) l /\ smith_wf r.2).
Proof.
  intros Hm Hp Ec Hc Hw Hq Eq. change (2 ^ 32) with 4294967296 in Hc. induction l as [|q l IH]; intros st x is_one i Hst Hx Ho Hl HF; [cbn; auto|]. apply Forall_cons_1 in HF as [Hq' HF].
  cbn [length slowtest_loop]. pose proof (Hl 0%nat q eq_refl) as E0. rewrite Nat.add_0_r in E0. rewrite E0. cbn [mbind res_bind].
  assert (inU 16 q) as Hqu by (unfold inU; lia). rewrite mp_init_ok by (exact Hqu || lia || apply Hx). cbn [mbind res_bind]. pose proof (valp_range m p Hp) as Hcr.
  assert (valp m (put m x q) = q) as Ex by (rewrite valp_put; apply Z.mod_small; lia).
  eapply okp_bind; [apply (mp_modexp_ok dm m st is_one (put m x q) pminus1 p Hm Hst Ho (put_reg m x q Hx) Hq Hp); rewrite Ec; [exact Hc|exact Hw]|].
  intros [[status st'] is1] (Hs & Hst' & Hi). cbn [fst snd] in Hs, Hst', Hi. rewrite Ex, Eq, Ec in Hs, Hi. unfold modexp_status in Hs.
  rewrite (proj2 (Z.eqb_neq (c - 1) 0)), (proj2 (Z.eqb_neq c 0)), (proj2 (Z.leb_gt c q)), (proj2 (Z.leb_gt c (c - 1))) in Hs by lia. subst status. cbn [Z.ltb Z.compare] in Hi |- *.
  rewrite testne_ok by (subst is1; try apply put_reg; (exact Ho || lia || (unfold inU; lia))). cbn [mbind res_bind]. rewrite Hi, valp_put, (Z.mod_small _ (radix m)) by (pose proof (Z.mod_pos_bound (q ^ (c - 1)) c ltac:(lia)); lia).
  cbn [forallb]. destruct (Z.eqb_spec (q ^ (c - 1) mod c) 1); cbn [negb andb]; [|cbn; auto]. replace (Z.of_nat i + 1) with (Z.of_nat (S i)) by lia. rewrite <- Hi.
  apply IH; [exact Hst'|apply put_reg, Hx|subst is1; apply put_reg, Ho| |exact HF]. intros j r Hj. rewrite Nat.add_succ_comm. apply Hl, Hj.
Qed.

Lemma slowtest_ok m st p c : (0 < m <= MAX_UNIT_PRECISION)%nat -> smith_wf st -> reg m p -> valp m p = c -> 2 ^ 32 <= c -> word_ok dm c ->
  okp (slowtest dm m st p) (fun r => r.1 = passes_fermat c /\ smith_wf r.2).
Proof.
  intros Hm Hst Hp Ec Hc Hw. pose proof (local_reg m ltac:(lia)) as Hz. unfold slowtest. rewrite mp_move_ok by (exact Hp || apply Hz). cbn [mbind res_bind]. rewrite mp_dec_ok by (apply put_reg, Hz || lia). cbn [mbind res_bind].
  rewrite put_put, valp_put. pose proof (valp_range m p Hp) as Hcr. change (2 ^ 32) with 4294967296 in Hc. rewrite Ec in *. rewrite (Z.mod_small c) by lia.
  apply (slowtest_loop_ok m c p (put m (replicate MAX_UNIT_PRECISION 0) (c - 1)) Hm Hp Ec Hc Hw) with (l := [2; 3; 5; 7]) (i := 0%nat); [apply put_reg, Hz|rewrite valp_put; apply Z.mod_small; lia|exact Hst|exact Hz|exact Hz| |by_eval].
  intros [|[|[|[|j]]]] q; cbn; intros [= <-]; reflexivity.
Qed.

(** * The search *)

(** What the loop has found out when it has passed [k] candidates from [V] on. *)
Record passed (V k suspects : Z) : Prop := Passed {
  pa_count : 0 <= suspects <= k;
  pa_sieve : suspects = 0 <-> forall j, 0 <= j < k -> passes_sieve (V + 4 * j) = false;
  pa_test : forall j, 0 <= j < k -> accepted (V + 4 * j) = false }.

Lemma passed_step V k suspects : 0 <= k -> passed V k suspects -> accepted (V + 4 * k) = false -> passed V (k + 1) (if passes_sieve (V + 4 * k) then suspects + 1 else suspects).
Proof.
  intros Hk [H1 H2 H3] Hf. assert (forall j, 0 <= j < k + 1 -> j = k \/ 0 <= j < k) as Hj by lia. split.
  - destruct (passes_sieve (V + 4 * k)); lia.
  - destruct (passes_sieve (V + 4 * k)) eqn:E.
    + split; [lia|]. intros H. rewrite (H k ltac:(lia)) in E. discriminate E.
    + rewrite H2. split; intros H j Hj'; [destruct (Hj j Hj') as [->|?]; [exact E|apply H; assumption]|apply H; lia].
  - intros j Hj'. destruct (Hj j Hj') as [->|?]; [exact Hf|apply H3; assumption].
Qed.

Lemma sieve_witness V k suspects : (suspects = 0 <-> forall j, 0 <= j < k -> passes_sieve (V + 4 * j) = false) -> 1 <= suspects -> exists j, 0 <= j < k /\ passes_sieve (V + 4 * j) = true.
Proof.
  intros H Hs. destruct (existsb (fun j => passes_sieve (V + 4 * j)) (seqZ 0 k)) eqn:E.
  - apply existsb_exists in E as (j & Hj & Ej). apply list_elem_of_In, elem_of_seqZ in Hj. exists j. split; [lia|exact Ej].
  - assert (suspects = 0); [|lia]. apply H. intros j Hj. destruct (passes_sieve (V + 4 * j)) eqn:Ej; [|reflexivity]. rewrite <- E. symmetry. apply existsb_exists. exists j. split; [apply list_elem_of_In, elem_of_seqZ; lia|exact Ej].
Qed.

Lemma inc4_ok m p x : (0 < m)%nat -> reg m p -> ('(p, _) ← mp_inc m (put m p x); '(p, _) ← mp_inc m p; '(p, _) ← mp_inc m p; '(p, _) ← mp_inc m p; mret p) = Ok (put m p (x + 4)).
Proof.
  intros Hm Hp. assert (forall y, mp_inc m (put m p y) = Ok (put m p (y + 1), radix m <=? (y mod radix m + 1))) as E.
  { intros y. rewrite mp_inc_ok by (exact Hm || apply put_reg, Hp). rewrite put_put, valp_put. do 2 f_equal. apply put_ext. rewrite Zplus_mod_idemp_l. reflexivity. }
  rewrite E. cbn [mbind res_bind]. rewrite E. cbn [mbind res_bind]. rewrite E. cbn [mbind res_bind]. rewrite E. cbn [mbind res_bind mret res_ret]. do 2 f_equal. lia.
Qed.

Lemma search_primes_ok m p V remainders range : (0 < m <= MAX_UNIT_PRECISION)%nat -> reg m p -> (forall d, 0 <= d -> fastsieve d remainders = Ok (passes_sieve (V + d))) -> 0 <= range <= 20000 ->
  (forall d, 0 <= d <= range -> word_ok dm (V + d)) -> 2 ^ 32 <= V -> V + range + 4 < radix m ->
  forall fuel st k suspects, smith_wf st -> 0 <= k -> 4 * k <= range -> range - 4 * k < 4 * Z.of_nat fuel -> passed V k suspects ->
  okp (search_primes dm fuel m st (put m p (V + 4 * k)) remainders (4 * k) range suspects) (fun r => smith_wf r.1.2 /\ exists k',
    0 <= k' /\ r.1.1.1 = 4 * k' /\ 4 * k' <= range + 4 /\ r.2 = put m p (V + 4 * k') /\ if range <? 4 * k' then passed V k' r.1.1.2 else accepted (V + 4 * k') = true /\ forall j, 0 <= j < k' -> accepted (V + 4 * j) = false).
Proof.
  intros Hm Hp HS Hrange Hw HV Hrad. change (2 ^ 32) with 4294967296 in HV. induction fuel as [|fuel IH]; intros st k suspects Hst Hk Hkr Hf HP; [lia|]. cbn [search_primes]. rewrite HS by lia. cbn [mbind res_bind]. set (c := V + 4 * k) in *.
  assert (valp m (put m p c) = c) as Ec by (rewrite valp_put; apply Z.mod_small; lia). assert (reg m (put m p c)) as Hr by apply put_reg, Hp. pose proof (pa_count _ _ _ HP) as Hcount.
  eapply okp_bind with (Q := fun r => r.1.1 = accepted c /\ r.1.2 = (if passes_sieve c then suspects + 1 else suspects) /\ smith_wf r.2).
  { unfold accepted. destruct (passes_sieve c); [|cbn; auto]. eapply okp_bind; [apply (slowtest_ok m st _ c Hm Hst Hr Ec); [lia|apply Hw; lia]|]. intros [b st'] [H1 H2]. cbn [fst snd] in H1, H2. cbn. split; [exact H1|]. split; [|exact H2]. apply wrapS_id; [lia|]. unfold inS. lia. }
  intros [[found susp] st'] (H1 & H2 & H3). cbn [fst snd] in H1, H2, H3. subst found. destruct (accepted c) eqn:EA.
  - cbn [mret res_ret okp fst snd]. split; [exact H3|]. exists k. split; [exact Hk|]. split; [reflexivity|]. split; [lia|]. split; [reflexivity|]. rewrite (proj2 (Z.ltb_ge range (4 * k))) by lia. split; [exact EA|apply HP].
  - pose proof (inc4_ok m p c ltac:(lia) Hp) as E4. destruct (mp_inc m (put m p c)) as [[p1 ?]|]; cbn [mbind res_bind] in E4 |- *; [|discriminate E4]. destruct (mp_inc m p1) as [[p2 ?]|]; cbn [mbind res_bind] in E4 |- *; [|discriminate E4].
    destruct (mp_inc m p2) as [[p3 ?]|]; cbn [mbind res_bind] in E4 |- *; [|discriminate E4]. destruct (mp_inc m p3) as [[p4 ?]|]; cbn [mbind res_bind mret res_ret] in E4 |- *; [|discriminate E4]. injection E4 as ->.
    rewrite (wrapU_id 16 (4 * k + 4)) by (unfold inU; lia). pose proof (passed_step V k suspects Hk HP EA) as HP'. fold c in HP'. rewrite <- H2 in HP'. replace (4 * k + 4) with (4 * (k + 1)) by lia. replace (c + 4) with (V + 4 * (k + 1)) by lia.
    destruct (Z.ltb_spec range (4 * (k + 1))) as [Hend|Hgo].
    + cbn [mret res_ret okp fst snd]. split; [exact H3|]. exists (k + 1). split; [lia|]. split; [reflexivity|]. split; [lia|]. split; [reflexivity|]. rewrite (proj2 (Z.ltb_lt range (4 * (k + 1)))) by lia. exact HP'.
    + apply IH; (assumption || lia).
Qed.

(** * The next prime *)

(** The candidates are 3 modulo 4. *)
Definition or3 (x : Z) : Z := 4 * (x / 4) + 3.

Lemma lor3 x : Z.lor x 3 = or3 x.
Proof.
  assert (Z.lor x 3 = Z.lor (Z.ldiff x (Z.ones 2)) 3) as ->.
  { apply Z.bits_inj'. intros i Hi. rewrite !Z.lor_spec, Z.ldiff_spec. change 3 with (Z.ones 2). destruct (Z.testbit x i), (Z.testbit (Z.ones 2) i); reflexivity. }
  assert (Z.land (Z.ldiff x (Z.ones 2)) 3 = 0) as H.
  { apply Z.bits_inj'. intros i Hi. rewrite Z.land_spec, Z.ldiff_spec, Z.bits_0. change 3 with (Z.ones 2). destruct (Z.testbit x i), (Z.testbit (Z.ones 2) i); reflexivity. }
  rewrite <- Z.lxor_lor, <- Z.add_nocarry_lxor by exact H.
  rewrite Z.ldiff_ones_r, Z.shiftr_div_pow2, Z.shiftl_mul_pow2 by lia. unfold or3. change (2 ^ 2) with 4. lia.
Qed.

Lemma low_or3 n r : (0 < n)%nat -> reg n r -> exists low, aget r 0 = Ok low /\ low = valp n r mod BASE /\ aset r 0 (Z.lor low 3) = Ok (put n r (or3 (valp n r))).
Proof.
  intros Hn Hr. destruct n as [|n]; [lia|]. apply reg_cons in Hr as (a & s & -> & Ha & Hs). rewrite inU16 in Ha. exists a. split; [reflexivity|]. rewrite valp_cons.
  split; [rewrite Z.mul_comm, Z_mod_plus_full; symmetry; apply Z.mod_small; lia|]. rewrite lor3. change (aset (a :: s) 0 (or3 a)) with (Ok (or3 a :: s)). f_equal. rewrite put_cons.
  assert (or3 (a + BASE * valp n s) = or3 a + valp n s * BASE) as -> by (unfold or3; dlia). rewrite Z_mod_plus_full, Z.div_add, Z.mod_small, Z.div_small by (unfold or3; dlia). f_equal. rewrite Z.add_0_l. symmetry. apply put_valp, Hs.
Qed.

Lemma significance_one n r : (0 < n)%nat -> reg n r -> exists s, significance n r = Ok s /\ (s <=? 1)%nat = (valp n r <? BASE).
Proof.
  intros Hn Hr. destruct (significance_ok n r Hn Hr) as (s & E & Hs & Ev & Hlo). exists s. split; [exact E|]. symmetry. destruct (Nat.leb_spec s 1) as [H|H].
  - apply Z.ltb_lt. rewrite Ev. apply Z.lt_le_trans with (radix s); [apply valp_range, (reg_le s n r Hr Hs)|]. destruct s as [|[|s]]; [rewrite radix_0|rewrite radix_S, radix_0|]; lia.
  - apply Z.ltb_ge. specialize (Hlo ltac:(lia)). destruct s as [|[|s]]; [lia..|]. cbn [pred] in Hlo. rewrite radix_S in Hlo. pose proof (radix_pos s). lia.
Qed.

Lemma precision_of V n m : 2 ^ 32 <= V -> 16 * V < radix n -> (n <= MAX_UNIT_PRECISION)%nat -> m = Z.to_nat (bits2units (Z.log2 V + 1 + 4 + SMITH_SLOP_BITS)) ->
  (3 <= m <= n)%nat /\ 16 * V < radix m.
Proof.
  intros HV Hrad Hn ->. assert (32 <= Z.log2 V) as H32 by (apply Z.log2_le_pow2; lia). pose proof (Z.log2_spec V ltac:(lia)) as [L1 L2]. unfold bits2units, SMITH_SLOP_BITS. rewrite Z.shiftr_div_pow2 by lia. change (2 ^ 4) with 16.
  rewrite radix_pow in Hrad. assert (Z.log2 V + 4 < 16 * Z.of_nat n) as Hln.
  { apply (Z.pow_lt_mono_r_iff 2); [lia|lia|]. rewrite Z.pow_add_r by lia. change (2 ^ 4) with 16. lia. }
  split; [split; dlia|]. rewrite radix_pow. apply Z.lt_le_trans with (2 ^ (Z.succ (Z.log2 V) + 4)); [rewrite (Z.pow_add_r 2 _ 4) by lia; change (2 ^ 4) with 16; lia|]. apply Z.pow_le_mono_r; dlia.
Qed.

Lemma nextprime_ok n st p : (0 < n <= MAX_UNIT_PRECISION)%nat -> smith_wf st -> reg n p -> 2 ^ 32 <= valp n p -> 16 * (valp n p + 4) < radix n ->
  (forall c, valp n p < c <= valp n p + 20000 -> word_ok dm c) ->
  okp (nextprime dm n st p) (fun r => smith_wf r.1.2 /\ exists k c, 0 <= k /\ 4 * k <= 17000 /\ c = or3 (valp n p + 1) + 4 * k /\ r.2 = put n p c /\ (forall j, 0 <= j < k -> accepted (or3 (valp n p + 1) + 4 * j) = false) /\
    (r.1.1 = 0 /\ accepted c = true \/ 384 < 4 * k /\ (r.1.1 = NOSUSPECTS /\ (forall j, 0 <= j < k -> passes_sieve (or3 (valp n p + 1) + 4 * j) = false) \/ r.1.1 = NOPRIMEFOUND /\ exists j, 0 <= j < k /\ passes_sieve (or3 (valp n p + 1) + 4 * j) = true))).
Proof.
  intros Hn Hst Hp Hv Hrad Hw. change (2 ^ 32) with 4294967296 in Hv. set (v := valp n p) in *. pose proof (valp_range n p Hp) as Hvr. fold v in Hvr. unfold nextprime. rewrite mp_inc_ok by (exact Hp || lia). cbn [mbind res_bind]. fold v.
  assert (reg n (put n p (v + 1))) as Hr by apply put_reg, Hp. assert (valp n (put n p (v + 1)) = v + 1) as Ev by (rewrite valp_put; apply Z.mod_small; lia).
  destruct (significance_one n _ ltac:(lia) Hr) as (s & -> & Es). rewrite Ev, (proj2 (Z.ltb_ge _ _)) in Es by lia. cbn [mbind res_bind]. rewrite Es. cbn [mbind res_bind mret res_ret].
  rewrite mp_tstminus_ok by (exact Hr || lia). cbn [mbind res_bind]. rewrite Ev, (proj2 (Z.leb_gt (radix n) (2 * (v + 1)))) by lia.
  destruct (low_or3 n _ ltac:(lia) Hr) as (low & -> & _ & E3). cbn [mbind res_bind]. rewrite E3, put_put, Ev. cbn [mbind res_bind]. set (V := or3 (v + 1)) in *. assert (v + 1 <= V <= v + 4) as HV by (unfold V, or3; dlia).
  rewrite countbits_ok by (lia || apply put_reg, Hp). cbn [mbind res_bind]. assert (valp n (put n p V) = V) as EV by (rewrite valp_put; apply Z.mod_small; lia). rewrite EV, (proj2 (Z.eqb_neq V 0)) by lia.
  destruct (precision_of V n _ ltac:(lia) ltac:(lia) ltac:(lia) eq_refl) as [Hm HVm]. set (m := Z.to_nat _) in *. assert (n <= 130)%nat as Hn130 by (unfold MAX_UNIT_PRECISION in Hn; lia).
  assert (u16 (8 * units2bits (Z.of_nat m)) = 128 * Z.of_nat m) as -> by (unfold units2bits; rewrite Z.shiftl_mul_pow2 by lia; change (2 ^ 4) with 16; rewrite wrapU_id by (unfold inU; lia); lia).
  destruct (Nat.le_exists_sub m n ltac:(lia)) as (d & Ed & _). rewrite (Nat.add_comm d) in Ed. assert (reg (m + d) (put n p V)) as Hrd by (rewrite <- Ed; apply put_reg, Hp). pose proof (reg_le m _ _ Hrd ltac:(lia)) as Hrm.
  assert (forall x, 0 <= x < radix m -> put m (put n p V) x = put n p x /\ V = valp m (put n p V)) as Hwide by (intros x Hx; destruct (put_wider m d (put n p V) x Hrd) as [E1 E2]; [rewrite <- Ed, EV; lia|exact Hx|]; rewrite <- Ed, ?EV, ?put_put in *; auto).
  destruct (sieve_ok m (put n p V) V ltac:(lia) Hrm (eq_sym (proj2 (Hwide 0 ltac:(lia))))) as (rem & -> & HS). cbn [mbind res_bind].
  assert (passed V 0 0) as HP0 by (split; [lia|split; [lia|reflexivity]|lia]).
  pose proof (search_primes_ok m (put n p V) V rem (128 * Z.of_nat m) ltac:(lia) Hrm HS ltac:(lia) ltac:(intros; apply Hw; lia) ltac:(lia) ltac:(lia) (Z.to_nat (128 * Z.of_nat m)) st 0 0 Hst ltac:(lia) ltac:(lia) ltac:(lia) HP0) as H.
  rewrite Z.add_0_r, (proj1 (Hwide V ltac:(lia))) in H. eapply okp_bind; [exact H|]. clear H. intros [[[pdelta susp] st'] p'] (Hst' & k & Hk & Epd & Hkr & Ep' & Hres). cbn [fst snd] in *. subst pdelta p'. cbn [mret res_ret okp fst snd].
  split; [exact Hst'|]. exists k, (V + 4 * k). split; [exact Hk|]. split; [lia|]. split; [reflexivity|]. split; [apply Hwide; lia|]. destruct (Z.ltb_spec (128 * Z.of_nat m) (4 * k)) as [Hend|Hgo].
  - destruct Hres as [H1 H2 H3]. split; [exact H3|]. right. split; [lia|]. destruct (Z.ltb_spec susp 1) as [Hs|Hs]; [left|right]; (split; [reflexivity|]).
    + apply H2. lia.
    + apply (sieve_witness V k susp H2). lia.
  - split; [apply Hres|]. left. split; [reflexivity|apply Hres].
Qed.
End Search.

(** What the search from [v] on finds. *)
Record next_found (v status c : Z) : Prop := NextFound {
  nf_range : v < c <= v + 20000;
  nf_mod4 : c mod 4 = 3;
  nf_least : forall q, prime q -> q mod 4 = 3 -> v < q -> c <= q;
  nf_status : status = 0 /\ passes_sieve c = true /\ passes_fermat c = true \/
    v + 384 < c /\ (status = NOSUSPECTS /\ (forall x, v < x < c -> x mod 4 = 3 -> passes_sieve x = false) \/
                   status = NOPRIMEFOUND /\ exists x, v < x < c /\ x mod 4 = 3 /\ passes_sieve x = true) }.

Lemma nextprime_found dm n st p : (0 < n <= MAX_UNIT_PRECISION)%nat -> smith_wf st -> reg n p -> 2 ^ 32 <= valp n p -> 16 * (valp n p + 4) < radix n ->
  (forall c, valp n p < c <= valp n p + 20000 -> word_ok dm c) ->
  okp (nextprime dm n st p) (fun '(status, st', p') => smith_wf st' /\ exists c, p' = put n p c /\ next_found (valp n p) status c).
Proof.
  intros Hn Hst Hp Hv Hrad Hw. eapply okp_mono; [apply nextprime_ok; eassumption|]. clear Hw. intros [[status st'] p'] (Hst' & k & c & Hk & Hkb & Ec & Ep & Hf & Hres). cbn [fst snd] in *. split; [exact Hst'|]. exists c. split; [exact Ep|].
  change (2 ^ 32) with 4294967296 in Hv. set (v := valp n p) in *. set (V := or3 (v + 1)) in *. assert (v + 1 <= V <= v + 4 /\ V mod 4 = 3) as [HV HV4] by (unfold V, or3; dlia).
  assert (forall x, v < x -> x mod 4 = 3 -> x < c -> exists j, 0 <= j < k /\ x = V + 4 * j) as Hcand by (intros x H1 H2 H3; exists ((x - V) / 4); dlia).
  split; [dlia|dlia| |].
  - intros q Hq Hq4 Hvq. destruct (Z.le_gt_cases c q) as [|Hlt]; [assumption|]. exfalso. destruct (Hcand q Hvq Hq4 Hlt) as (j & Hj & Eq). specialize (Hf j Hj). rewrite <- Eq, prime_accepted in Hf by (exact Hq || lia). discriminate Hf.
  - destruct Hres as [[H1 H2]|[H1 [[H2 H3]|[H2 (j & Hj & H3)]]]]; [left|right..].
    + unfold accepted in H2. apply andb_prop in H2 as [H2 H3]. auto.
    + split; [lia|]. left. split; [exact H2|]. intros x Hx Hx4. destruct (Hcand x ltac:(lia) Hx4 ltac:(lia)) as (j & Hj & ->). apply H3, Hj.
    + split; [lia|]. right. split; [exact H2|]. exists (V + 4 * j). split; [lia|]. split; [dlia|exact H3].
Qed.

(** C15: From every start of 33 bits or more that is four bits below the precision (16 times
    the start plus 64 is below its range), where long has 64 bits or no number of the range
    searched has a bit length that is a multiple of 16, nextprime gives a number above it that
    is 3 modulo 4 and skips no prime of that form; with status 0 the number has no divisor in
    the table and passes the four tests of Fermat, and the two error statuses tell whether any
    candidate of the range passed the sieve. *)
Theorem nextprime_search dm n st p : (0 < n <= MAX_UNIT_PRECISION)%nat -> smith_wf st -> reg n p -> 2 ^ 32 <= valp n p -> 16 * (valp n p + 4) < radix n ->
  (forall c, valp n p < c <= valp n p + 20000 -> word_ok dm c) ->
  okp (nextprime dm n st p) (fun '(status, st', p') => smith_wf st' /\ exists c, p' = put n p c /\ valp n p < c <= valp n p + 20000 /\ c mod 4 = 3 /\
    (forall q, prime q -> q mod 4 = 3 -> valp n p < q -> c <= q) /\
    (status = 0 /\ passes_sieve c = true /\ passes_fermat c = true \/
     valp n p + 384 < c /\ (status = NOSUSPECTS /\ (forall x, valp n p < x < c -> x mod 4 = 3 -> passes_sieve x = false) \/
                            status = NOPRIMEFOUND /\ exists x, valp n p < x < c /\ x mod 4 = 3 /\ passes_sieve x = true))).
Proof.
  intros Hn Hst Hp Hv Hrad Hw. eapply okp_mono; [exact (nextprime_found dm n st p Hn Hst Hp Hv Hrad Hw)|]. intros [[status st'] p'] (Hst' & c & Ep & [H1 H2 H3 H4]). split; [exact Hst'|]. exists c. auto.
Qed.

(** From a start below 8191 nextprime gives the least prime above it, and leaves the statics
    alone; from 8191 on, the short modulus makes the test of Fermat leave the static array. *)
Theorem nextprime_small dm n st p : (0 < n)%nat -> reg n p -> valp n p < 8191 ->
  exists q, nextprime dm n st p = Ok (0, st, put n p q) /\ prime q /\ valp n p < q /\ (forall x, prime x -> valp n p < x -> q <= x) /\
  nextprime LP64 4 init_smith (units 4 8191) = Err OutOfBounds.
Proof.
  intros Hn Hp Hv. set (v := valp n p) in *. pose proof (valp_range n p Hp) as Hvr. fold v in Hvr. assert (BASE <= radix n) as Hrad by (destruct n as [|n]; [lia|rewrite radix_S; pose proof (radix_pos n); lia]).
  unfold nextprime at 1. rewrite mp_inc_ok by assumption. cbn [mbind res_bind]. fold v.
  assert (reg n (put n p (v + 1))) as Hr by apply put_reg, Hp. assert (valp n (put n p (v + 1)) = v + 1) as Ev by (rewrite valp_put; apply Z.mod_small; lia).
  destruct (significance_one n _ ltac:(lia) Hr) as (s & -> & Es). rewrite Ev, (proj2 (Z.ltb_lt _ _)) in Es by lia. cbn [mbind res_bind]. rewrite Es.
  destruct (low_or3 n _ ltac:(lia) Hr) as (low & -> & El & _). cbn [mbind res_bind]. rewrite Ev, Z.mod_small in El by lia. subst low.
  destruct (primetable_search (v + 1)) as (o & -> & Ho). destruct o as [q|]; [|lia]. destruct Ho as (H1 & H2 & H3). cbn [mbind res_bind].
  rewrite mp_init_ok by (lia || (unfold inU; lia) || apply Hr). cbn [mbind res_bind mret res_ret]. rewrite put_put. exists q. split; [reflexivity|]. split; [exact H1|]. split; [lia|]. split; [intros x Hx Hlt; apply H3; [exact Hx|lia]|].
  vm_compute. reflexivity.
Qed.

Lemma nextprime_search_witness : let p := units 4 (10 ^ 12) in (0 < 4 <= MAX_UNIT_PRECISION)%nat /\ smith_wf init_smith /\ reg 4 p /\ 2 ^ 32 <= valp 4 p /\ 16 * (valp 4 p + 4) < radix 4 /\
  (forall c, valp 4 p < c <= valp 4 p + 20000 -> word_ok LP64 c) /\ okp (nextprime LP64 4 init_smith p) (fun x => smith_wf x.1.2).
Proof.
  intros p. assert (0 < 4 <= MAX_UNIT_PRECISION)%nat as Hn by (unfold MAX_UNIT_PRECISION; lia). assert (reg 4 p) as Hp by by_eval. assert (2 ^ 32 <= valp 4 p) as H1 by (vm_compute; discriminate). assert (16 * (valp 4 p + 4) < radix 4) as H2 by reflexivity.
  assert (forall c, valp 4 p < c <= valp 4 p + 20000 -> word_ok LP64 c) as H3 by (intros c _; left; reflexivity).
  split; [exact Hn|]. split; [exact init_smith_wf|]. split; [exact Hp|]. split; [exact H1|]. split; [exact H2|]. split; [exact H3|].
  eapply okp_mono; [exact (nextprime_search LP64 4 init_smith p Hn init_smith_wf Hp H1 H2 H3)|]. intros [[s st] q] (H & _). exact H.
Defined.

Lemma nextprime_small_witness : let p := units 2 89 in (0 < 2)%nat /\ reg 2 p /\ valp 2 p < 8191 /\ exists q, nextprime ILP32 2 init_smith p = Ok (0, init_smith, put 2 p q) /\ prime q /\ 89 < q.
Proof.
  intros p. assert (0 < 2)%nat as Hn by lia. assert (reg 2 p) as Hp by by_eval. assert (valp 2 p < 8191) as Hv by reflexivity. split; [exact Hn|]. split; [exact Hp|]. split; [exact Hv|].
  destruct (nextprime_small ILP32 2 init_smith p Hn Hp Hv) as (q & H1 & H2 & H3 & _). exists q. split; [exact H1|]. split; [exact H2|exact H3].
Defined.

(** * Random primes *)

Section Random.
Context (dm : data_model) (trueRandByte : nat -> Z) (Hbyte : forall i, 0 <= trueRandByte i < 256).
Implicit Types (n m pos : nat) (p : list Z).

(** The units that the source of random bytes gives from a position on. *)
Definition rand_units m pos : list Z := (fun i => 256 * trueRandByte (pos + 2 * i) + trueRandByte (pos + 2 * i + 1)) <$> seq 0 m.
(** The number of [nbits] bits that they make up. *)
Definition rand_value (nbits : Z) pos : Z := mval (rand_units (S (Z.to_nat (nbits / 16))) pos) mod 2 ^ nbits.

Lemma rand_units_S m pos : rand_units (S m) pos = (256 * trueRandByte pos + trueRandByte (S pos)) :: rand_units m (S (S pos)).
Proof.
  unfold rand_units. cbn [seq fmap list_fmap]. rewrite Nat.mul_0_r, Nat.add_0_r, Nat.add_1_r. f_equal. rewrite <- seq_shift, <- list_fmap_compose. apply list_fmap_ext. intros i x _. cbn. f_equal; [f_equal|]; f_equal; lia.
Qed.
Lemma rand_units_inU m pos : Forall (inU 16) (rand_units m pos).
Proof. unfold rand_units. apply Forall_fmap, Forall_true. intros i. unfold compose, inU. pose proof (Hbyte (pos + 2 * i)). pose proof (Hbyte (pos + 2 * i + 1)). change (2 ^ 16) with 65536. lia. Qed.
Lemma length_rand_units m pos : length (rand_units m pos) = m.
Proof. unfold rand_units. rewrite length_fmap, length_seq. reflexivity. Qed.

Lemma randomunit_ok pos : randomunit trueRandByte pos = (256 * trueRandByte pos + trueRandByte (S pos), S (S pos)).
Proof.
  unfold randomunit. pose proof (Hbyte pos). pose proof (Hbyte (S pos)). rewrite !Z.shiftl_mul_pow2 by lia. change (2 ^ 8) with 256. rewrite !wrapU_id by (unfold inU; rewrite ?wrapU_id; unfold inU; lia). f_equal. lia.
Qed.

Lemma random_units_ok m : forall pre rest pos, (m <= length rest)%nat ->
  random_units trueRandByte m (pre ++ rest) (Z.of_nat (length pre)) pos = Ok (pre ++ rand_units m pos ++ drop m rest, (pos + 2 * m)%nat).
Proof.
  induction m as [|m IH]; intros pre rest pos Hl; [cbn; rewrite drop_0, Nat.add_0_r; reflexivity|]. destruct rest as [|x rest]; [cbn in Hl; lia|]. cbn [length] in Hl. cbn [random_units]. rewrite randomunit_ok.
  rewrite (proj2 (aset_ok _ (Z.of_nat (length pre)) (256 * trueRandByte pos + trueRandByte (S pos)) _)) by (split; [rewrite length_app; cbn [length]; lia|reflexivity]). cbn [mbind res_bind]. rewrite Nat2Z.id, insert_app_r_alt, Nat.sub_diag by lia. cbn [insert list_insert].
  rewrite (cons_middle _ pre), app_assoc. replace (Z.of_nat (length pre) + 1) with (Z.of_nat (length (pre ++ [256 * trueRandByte pos + trueRandByte (S pos)]))) by (rewrite length_app; cbn [length]; lia).
  rewrite IH by lia. rewrite rand_units_S, <- app_assoc. cbn [app drop]. do 2 f_equal. lia.
Qed.

Lemma put_list n p l : (n <= length p)%nat -> length l = n -> Forall (inU 16) l -> l ++ drop n p = put n p (mval l).
Proof. intros Hn Hl HF. unfold put. rewrite <- Hl at 2. rewrite units_mval by exact HF. reflexivity. Qed.

Lemma mval_mod l u (s : Z) : Forall (inU 16) l -> inU 16 u -> 0 <= s < 16 -> mval (l ++ [u]) mod 2 ^ (16 * Z.of_nat (length l) + s) = mval l + radix (length l) * (u mod 2 ^ s).
Proof.
  intros Hl Hu Hs. rewrite mval_app. cbn [mval]. rewrite Z.mul_0_r, Z.add_0_r, Z.pow_add_r, <- radix_pow by lia. pose proof (mval_range l Hl). pose proof (Z.mod_pos_bound u (2 ^ s) ltac:(lia)). pose proof (Z.div_mod u (2 ^ s) ltac:(lia)).
  symmetry. apply (Z.mod_unique _ _ (u / 2 ^ s)); [left; nia|]. rewrite H1 at 1. lia.
Qed.

Lemma randombits_ok n p nbits pos : (0 < n)%nat -> reg n p -> 0 <= nbits < 16 * Z.of_nat n ->
  randombits trueRandByte n p nbits pos = Ok (put n p (rand_value nbits pos), (pos + 2 * Z.to_nat ((nbits + 15) / 16))%nat).
Proof.
  intros Hn Hp Hb. unfold randombits. rewrite mp_init_ok by (exact Hn || apply Hp || (unfold inU; lia)). cbn [mbind res_bind]. unfold UNITSIZE. set (q := Z.to_nat (nbits / 16)). assert (nbits / 16 = Z.of_nat q) as Eq by (unfold q; dlia). rewrite Eq.
  set (s := nbits mod 16). assert (nbits = 16 * Z.of_nat q + s /\ 0 <= s < 16) as [En Hs] by (unfold s; dlia). unfold put at 1. rewrite units_0. pose proof (random_units_ok q [] (replicate n 0 ++ drop n p) pos) as E. change (Z.of_nat (@length Z [])) with 0 in E. cbn [app] in E. rewrite E by (rewrite length_app, length_replicate; lia). clear E. cbn [mbind res_bind].
  rewrite drop_app_le, drop_replicate by (rewrite length_replicate; lia). assert (Z.of_nat n = Z.of_nat q + Z.of_nat (n - q)) as En' by dlia. destruct (n - q)%nat as [|r] eqn:Er; [lia|].
  pose proof (rand_units_inU q pos) as HF. pose proof (rand_units_inU (S q) pos) as HF'. pose proof (length_rand_units q pos) as Hlq. set (us := rand_units q pos) in *.
  assert (rand_units (S q) pos = us ++ [256 * trueRandByte (pos + 2 * q) + trueRandByte (S (pos + 2 * q))]) as EU by (unfold us, rand_units; rewrite seq_S, fmap_app; cbn [fmap list_fmap]; rewrite Nat.add_0_l, Nat.add_1_r; reflexivity).
  unfold rand_value. fold q. rewrite EU in *. apply Forall_app in HF' as [_ HF']. apply Forall_cons_1 in HF' as [Hu _]. set (u := 256 * _ + _) in *. assert (forall k, Forall (inU 16) (replicate k 0)) as Hrep by (intros k; apply Forall_replicate; unfold inU; lia).
  pose proof (mval_mod us u s HF Hu Hs) as EM. rewrite Hlq in EM. rewrite En, EM. destruct (Z.eqb_spec s 0) as [E0|E0]; cbn [mret res_ret].
  - rewrite E0. change (2 ^ 0) with 1. rewrite Z.mod_1_r, Z.mul_0_r, Z.add_0_r. do 2 f_equal; [|dlia]. rewrite app_assoc, (put_list n) by (try (rewrite length_app, length_replicate; dlia); try apply Hp; apply Forall_app; auto). rewrite mval_app, mval_replicate, Z.mul_0_r, Z.add_0_r. reflexivity.
  - rewrite randomunit_ok. fold u. rewrite (proj2 (aset_ok _ (Z.of_nat q) (Z.land u (1 ≪ s - 1)) _)) by (split; [rewrite !length_app, length_replicate, Hlq; lia|reflexivity]). cbn [mbind res_bind mret res_ret].
    rewrite Nat2Z.id, insert_app_r_alt, Hlq, Nat.sub_diag by lia. cbn [replicate app insert list_insert]. assert (Z.land u (1 ≪ s - 1) = u mod 2 ^ s) as -> by (rewrite Z.shiftl_1_l, <- Z.ones_equiv || (rewrite Z.shiftl_1_l; change (2 ^ s - 1) with (Z.pred (2 ^ s)); rewrite <- Z.ones_equiv); apply Z.land_ones; lia).
    do 2 f_equal; [|dlia]. pose proof (Z.mod_pos_bound u (2 ^ s) ltac:(lia)). pose proof (Z.pow_lt_mono_r 2 s 16 ltac:(lia) ltac:(lia) ltac:(lia)).
    assert (Forall (inU 16) (us ++ u mod 2 ^ s :: replicate r 0)) as HFl by (apply Forall_app; split; [exact HF|]; apply Forall_cons_2; [unfold inU; lia|apply Hrep]).
    rewrite app_comm_cons, app_assoc, (put_list n) by (try exact HFl; try apply Hp; rewrite length_app; cbn [length]; rewrite length_replicate; lia). rewrite mval_app. cbn [mval]. rewrite mval_replicate, Hlq, Z.mul_0_r, Z.add_0_r. reflexivity.
Qed.
End Random.

Lemma setbit_put n p x i : reg n p -> 0 <= i < 16 * Z.of_nat n -> 0 <= x < radix n -> Z.testbit x i = false -> mp_setbit (put n p x) i = Ok (put n p (x + 2 ^ i)).
Proof.
  intros Hp Hi Hx Hb. rewrite mp_setbit_ok by lia. rewrite (stuff_ok n) by (try apply put_reg; try assumption; rewrite valp_put, Z.mod_small; assumption). rewrite put_put, valp_put, Z.mod_small by exact Hx. reflexivity.
Qed.

Lemma randomprime_found dm trueRandByte n st p nbits pos : (forall i, 0 <= trueRandByte i < 256) -> (0 < n <= MAX_UNIT_PRECISION)%nat -> smith_wf st -> reg n p -> 33 <= nbits -> nbits + 5 <= 16 * Z.of_nat n ->
  (forall c, 2 ^ (nbits - 1) <= c < 2 ^ nbits + 20000 -> word_ok dm c) ->
  okp (randomprime dm trueRandByte n st p nbits pos) (fun '(status, st', p', pos') => smith_wf st' /\ pos' = (pos + 2 * Z.to_nat ((nbits + 13) / 16))%nat /\
    exists c, p' = put n p c /\ next_found (3 * 2 ^ (nbits - 2) + rand_value trueRandByte (nbits - 2) pos) status c).
Proof.
  intros Hbyte Hn Hst Hp H33 Hbits Hw. unfold randomprime. rewrite randombits_ok by (assumption || lia). cbn [mbind res_bind]. set (x := rand_value trueRandByte (nbits - 2) pos).
  assert (0 <= x < 2 ^ (nbits - 2)) as Hx by (apply Z.mod_pos_bound; lia). pose proof (Z.pow_le_mono_r 2 31 (nbits - 2) ltac:(lia) ltac:(lia)) as H31. change (2 ^ 31) with 2147483648 in H31. set (h := 2 ^ (nbits - 2)) in *.
  assert (2 ^ (nbits - 1) = 2 * h) as E1 by (unfold h; rewrite <- Z.pow_succ_r by lia; f_equal; lia). assert (2 ^ nbits = 4 * h) as E0 by (change 4 with (2 ^ 2); unfold h; rewrite <- Z.pow_add_r by lia; f_equal; lia).
  assert (128 * h <= radix n) as Hrad by (change 128 with (2 ^ 7); unfold h; rewrite radix_pow, <- Z.pow_add_r by lia; apply Z.pow_le_mono_r; lia).
  rewrite setbit_put by first [exact Hp|lia|apply (testbit_small x (nbits - 2)); fold h; lia]. cbn [mbind res_bind]. rewrite E1.
  rewrite setbit_put by first [exact Hp|lia|rewrite <- (Z.add_0_l (nbits - 2)), <- Z.div_pow2_bits by lia; fold h; rewrite Z.div_add, Z.div_small by lia; reflexivity]. cbn [mbind res_bind]. fold h.
  set (s := x + 2 * h + h). assert (s = 3 * h + x) as Es by (unfold s; lia). assert (reg n (put n p s)) as Hr by apply put_reg, Hp. assert (valp n (put n p s) = s) as Ev by (rewrite valp_put; apply Z.mod_small; lia).
  eapply okp_bind; [apply (nextprime_found dm n st (put n p s) Hn Hst Hr); rewrite Ev; [change (2 ^ 32) with 4294967296; lia|lia|intros c Hc; apply Hw; lia]|].
  intros [[status st'] p'] (Hst' & c & -> & Hc). rewrite Ev, put_put in *. cbn [mret res_ret okp]. split; [exact Hst'|]. split; [replace (nbits + 13) with (nbits - 2 + 15) by lia; reflexivity|]. exists c. rewrite <- Es. auto.
Qed.

(** randomprime draws its random bits in whole units, sets the two highest bits and gives
    the first accepted number above that start; the result may have one bit more than asked for:
    48 random bits that are all ones give 2^48+75. *)
Theorem randomprime_search dm trueRandByte n st p nbits pos : (forall i, 0 <= trueRandByte i < 256) -> (0 < n <= MAX_UNIT_PRECISION)%nat -> smith_wf st -> reg n p -> 33 <= nbits -> nbits + 5 <= 16 * Z.of_nat n ->
  (forall c, 2 ^ (nbits - 1) <= c < 2 ^ nbits + 20000 -> word_ok dm c) ->
  okp (randomprime dm trueRandByte n st p nbits pos) (fun '(status, st', p', pos') => smith_wf st' /\ pos' = (pos + 2 * Z.to_nat ((nbits + 13) / 16))%nat /\
    exists start c, start = 3 * 2 ^ (nbits - 2) + rand_value trueRandByte (nbits - 2) pos /\ p' = put n p c /\ start < c <= start + 20000 /\ c mod 4 = 3 /\
    (forall q, prime q -> q mod 4 = 3 -> start < q -> c <= q) /\ (status = 0 -> passes_sieve c = true /\ passes_fermat c = true)) /\
  ('(status, _, p', _) ← randomprime LP64 (fun _ => 255) 4 init_smith (units 4 0) 48 0; mret (status, valp 4 p')) = Ok (0, 2 ^ 48 + 75).
Proof.
  intros Hbyte Hn Hst Hp H33 Hbits Hw. split; [|vm_compute; reflexivity]. eapply okp_mono; [exact (randomprime_found dm trueRandByte n st p nbits pos Hbyte Hn Hst Hp H33 Hbits Hw)|].
  intros [[[status st'] p'] pos'] (Hst' & Epos & c & Ep & [H1 H2 H3 H4]). split; [exact Hst'|]. split; [exact Epos|]. eexists _, c. split; [reflexivity|]. split; [exact Ep|]. split; [exact H1|]. split; [exact H2|]. split; [exact H3|].
  intros E. destruct H4 as [(_ & Hres)|(_ & [[Hres _]|[Hres _]])]; [exact Hres|unfold NOSUSPECTS in Hres; lia|unfold NOPRIMEFOUND in Hres; lia].
Qed.

Lemma randomprime_search_witness : let trb := fun i => Z.of_nat i * 37 mod 256 in let p := units 4 0 in (forall i, 0 <= trb i < 256) /\ (0 < 4 <= MAX_UNIT_PRECISION)%nat /\ smith_wf init_smith /\ reg 4 p /\ 33 <= 40 /\ 40 + 5 <= 16 * Z.of_nat 4 /\
  (forall c, 2 ^ (40 - 1) <= c < 2 ^ 40 + 20000 -> word_ok LP64 c) /\ okp (randomprime LP64 trb 4 init_smith p 40 0) (fun x => x.2 = 6%nat).
Proof.
  intros trb p. assert (forall i, 0 <= trb i < 256) as H1 by (intros i; apply Z.mod_pos_bound; lia). assert (0 < 4 <= MAX_UNIT_PRECISION)%nat as Hn by (unfold MAX_UNIT_PRECISION; lia). assert (reg 4 p) as Hp by by_eval.
  assert (33 <= 40) as H2 by lia. assert (40 + 5 <= 16 * Z.of_nat 4) as H3 by lia. assert (forall c, 2 ^ (40 - 1) <= c < 2 ^ 40 + 20000 -> word_ok LP64 c) as H4 by (intros c _; left; reflexivity).
  split; [exact H1|]. split; [exact Hn|]. split; [exact init_smith_wf|]. split; [exact Hp|]. split; [exact H2|]. split; [exact H3|]. split; [exact H4|].
  eapply okp_mono; [exact (proj1 (randomprime_search LP64 trb 4 init_smith p 40 0 H1 Hn init_smith_wf Hp H2 H3 H4))|]. intros [[[s st] q] pos] (_ & E & _). rewrite E. vm_compute. reflexivity.
Defined.
