(* ===== verification/Rsa.v ===== *)
(** RSA with the padding of PKCS 1 (src/mibench/security/pgp/src/rsaglue1.c): encryption of session keys and
    signatures of message digests. *)
From stdpp Require Import base list numbers option tactics.
From Stdlib Require Import ZArith Znumtheory Zpow_facts Lia.
From S2P Require Import Prelude NumTheory Bytes Mpi MpiDiv MpiSmith MpiExp MpiEuclid MpiIo.

(** * The code *)

Definition asn_array : list Z := [0x30; 0x20; 0x30; 0x0c; 0x06; 0x08; 0x2a; 0x86; 0x48; 0x86; 0xf7; 0x0d; 0x02; 0x05; 0x05; 0x00; 0x04; 0x10].
Definition MD5_ALGORITHM_BYTE : Z := 1.
Definition MD_ENCRYPTED_BYTE : Z := 1.
Definition CK_ENCRYPTED_BYTE : Z := 2.

(** [memcpy(dst + di, src + si, n)]. *)
Definition copy_bytes (dst : list Z) (di : Z) (src : list Z) (si n : Z) : res (list Z) := copy_loop (Z.to_nat n) dst di src si.

Section Code.
Context (dm : data_model) (cryptRandByte : nat -> Z).
Implicit Types (st : smith) (prec : nat) (E D P Q U N temp : list Z).

(** The local array of units as bytes; it is written before it is read. *)
Definition local_temp : list Z := replicate MAX_BYTE_PRECISION 0.

(** The bytes that are available for the data, and the block with zeros in the bytes above them. *)
Definition start_block prec N : res (Z * Z * list Z) :=
  c ← countbytes prec N; let blocksize := u32 (c - 1) in
  let i := s32 (u32 (units2bytes (Z.of_nat prec) - blocksize)) in
  temp ← fill_loop (Z.to_nat i) local_temp 0 0; mret (blocksize, Z.max 0 i, temp).

(** [while (i)]: random bytes are stored at the pointer, which advances unless the byte is zero. *)
Fixpoint pad_loop (fuel : nat) temp (p i : Z) (pos : nat) : res (list Z * Z * nat) :=
  if i =? 0 then mret (temp, p, pos)
  else
    match fuel with
    | O => Err OutOfFuel
    | S fuel => let b := cryptRandByte pos in temp ← aset temp p b; if b =? 0 then pad_loop fuel temp p i (S pos) else pad_loop fuel temp (p + 1) (i - 1) (S pos)
    end.

(** The status, the statics of the modular multiplication, the result and the position in the random bytes. *)
Definition rsa_public_encrypt (fuel : nat) prec st (outbuf inbuf : list Z) (bytes : Z) E N (pos : nat) : res (Z * smith * list Z * nat) :=
  '(blocksize, p, temp) ← start_block prec N;
  let i := s32 (u32 (u32 (blocksize - 2) - bytes)) in
  if i <? 1 then mret (-4, st, outbuf, pos)
  else
    temp ← aset temp p CK_ENCRYPTED_BYTE;
    '(temp, p, pos) ← pad_loop fuel temp (p + 1) i pos;
    temp ← aset temp p 0;
    temp ← copy_bytes temp (p + 1) inbuf 0 bytes;
    temp ← mp_convert_order prec temp;
    '(status, st, outbuf) ← mp_modexp dm prec st outbuf (to_units temp) E N;
    mret (if status <? 0 then -1 else 0, st, outbuf, pos).

(** The exponents modulo the primes less one. *)
Definition crt_exponents prec D P Q : res (list Z * list Z) :=
  let local := replicate MAX_UNIT_PRECISION 0 in
  temp ← mp_move prec local P; '(temp, _) ← mp_dec prec temp; '(_, DP) ← mp_mod prec local D temp;
  temp ← mp_move prec temp Q; '(temp, _) ← mp_dec prec temp; '(_, DQ) ← mp_mod prec local D temp;
  mret (DP, DQ).

Definition rsa_private_encrypt prec st (outbuf inbuf : list Z) (bytes : Z) E D P Q U N : res (Z * smith * list Z) :=
  '(DP, DQ) ← crt_exponents prec D P Q;
  '(blocksize, p, temp) ← start_block prec N;
  let i := s32 (u32 (u32 (blocksize - 2) - bytes)) in
  let i := i - Z.of_nat (length asn_array) in
  if i <? 0 then mret (-4, st, outbuf)
  else
    temp ← aset temp p MD_ENCRYPTED_BYTE;
    temp ← fill_loop (Z.to_nat i) temp (p + 1) 255; let p := p + 1 + i in
    temp ← aset temp p 0;
    temp ← copy_bytes temp (p + 1) asn_array 0 (Z.of_nat (length asn_array)); let p := p + 1 + Z.of_nat (length asn_array) in
    temp ← copy_bytes temp p inbuf 0 bytes;
    temp ← mp_convert_order prec temp;
    '(status, st, outbuf) ← mp_modexp_crt dm prec st outbuf (to_units temp) P Q DP DQ U;
    mret (if status <? 0 then -1 else status, st, outbuf).

(** The bytes from a position on that have a property are skipped, forwards or backwards; the position
    after the byte that ends the first loop, and of the byte that ends the second. *)
Fixpoint skip_forward (fuel : nat) temp (skip : Z -> bool) (p : Z) : res Z :=
  match fuel with O => Err OutOfFuel | S fuel => x ← aget temp p; if skip x then skip_forward fuel temp skip (p + 1) else mret (p + 1) end.
Fixpoint skip_backward (fuel : nat) temp (skip : Z -> bool) (p : Z) : res Z :=
  match fuel with O => Err OutOfFuel | S fuel => x ← aget temp (p - 1); if skip x then skip_backward fuel temp skip (p - 1) else mret (p - 1) end.

(** [while (i--)]: the bytes before the block are zero. *)
Fixpoint zeros_loop (n : nat) temp (front : Z) : res bool :=
  match n with O => mret true | S n => x ← aget temp front; if x =? 0 then zeros_loop n temp (front + 1) else mret false end.
Fixpoint compare_bytes temp (front : Z) (b : list Z) : res bool :=
  match b with [] => mret true | y :: b => x ← aget temp front; r ← compare_bytes temp (front + 1) b; mret ((x =? y) && r) end.

(** The end of both decryptions: the user data is copied. *)
Definition copy_data (outbuf temp : list Z) (front back : Z) : res (Z * list Z) :=
  outbuf ← copy_bytes outbuf 0 temp front (back - front); mret (back - front, outbuf).

(** The number of bytes or an error; [temp0] is what the local array holds before it is written. *)
Definition rsa_public_decrypt prec st (outbuf inbuf : list Z) E N (temp0 : list Z) : res (Z * smith * list Z) :=
  '(status, st, temp) ← mp_modexp dm prec st temp0 inbuf E N;
  if status <? 0 then mret (-1, st, outbuf)
  else
    temp ← mp_convert_order prec (host_bytes temp);
    c ← countbytes prec N;
    let back := units2bytes (Z.of_nat prec) in
    let i := back - (c - 1) in
    if i <? 0 then mret (-9, st, outbuf)
    else
      z ← zeros_loop (Z.to_nat i) temp 0; let front := i in
      if negb z then mret (-9, st, outbuf)
      else
        x1 ← aget temp (back - 1);
        old ← (if x1 =? MD_ENCRYPTED_BYTE then
                 x17 ← aget temp (back - 17);
                 if x17 =? 0xff then x18 ← aget temp (back - 18); mret (x18 =? 0xff) else mret false
               else mret false);
        x ← aget temp front;
        '(error, front, back) ← (if old : bool then
            if negb (x =? MD5_ALGORITHM_BYTE) then mret (-7, front, back)
            else
              back ← skip_backward (S (length temp)) temp (Z.eqb 0xff) (back - 1);
              y ← aget temp back; mret (if y =? 0 then 0 else -9, front + 1, back)
          else
            if negb (x =? MD_ENCRYPTED_BYTE) then mret (-9, front, back)
            else
              front ← skip_forward (S (length temp)) temp (Z.eqb 0xff) (front + 1);
              y ← aget temp (front - 1);
              if negb (y =? 0) then mret (-9, front, back)
              else e ← compare_bytes temp front asn_array; mret (if e : bool then 0 else -7, front + Z.of_nat (length asn_array), back));
        if error <? 0 then mret (error, st, outbuf)
        else if back <? front then mret (-9, st, outbuf)
        else '(n, outbuf) ← copy_data outbuf temp front back; mret (n, st, outbuf).

Definition rsa_private_decrypt prec st (outbuf inbuf : list Z) E D P Q U N (temp0 : list Z) : res (Z * smith * list Z) :=
  '(DP, DQ) ← crt_exponents prec D P Q;
  '(status, st, temp) ← mp_modexp_crt dm prec st temp0 inbuf P Q DP DQ U;
  if status <? 0 then mret (-1, st, outbuf)
  else
    temp ← mp_convert_order prec (host_bytes temp);
    c ← countbytes prec N;
    let back := units2bytes (Z.of_nat prec) in
    let i := s32 (u32 (back - u32 (c - 1))) in
    if i <? 0 then mret (-9, st, outbuf)
    else
      z ← zeros_loop (Z.to_nat i) temp 0; let front := i in
      if negb z then mret (-9, st, outbuf)
      else
        x ← aget temp front; y ← aget temp (back - 1);
        '(error, front, back) ← (if negb (x =? CK_ENCRYPTED_BYTE) && (y =? CK_ENCRYPTED_BYTE) then
            back ← skip_backward (S (length temp)) temp (fun x => negb (x =? 0)) back; mret (0, front, back)
          else
            if negb (x =? CK_ENCRYPTED_BYTE) then mret (-9, front, back)
            else front ← skip_forward (S (length temp)) temp (fun x => negb (x =? 0)) (front + 1); mret (0, front, back));
        if error <? 0 then mret (error, st, outbuf)
        else if back <=? front then mret (-9, st, outbuf)
        else '(n, outbuf) ← copy_data outbuf temp front back; mret (n, st, outbuf).
End Code.

(** * Blocks *)

Section Blocks.
Implicit Types (a b pre post temp pad : list Z) (n : nat).

Lemma aset_mid pre x post v (i : Z) : i = Z.of_nat (length pre) -> aset (pre ++ x :: post) i v = Ok (pre ++ v :: post).
Proof. intros ->. apply aset_ok. split; [rewrite length_app; cbn [length]; lia|]. rewrite Nat2Z.id, insert_app_r_alt, Nat.sub_diag by lia. reflexivity. Qed.

Lemma aget_mid pre x post (i : Z) : i = Z.of_nat (length pre) -> aget (pre ++ x :: post) i = Ok x.
Proof. intros ->. apply aget_ok. split; [lia|]. rewrite Nat2Z.id. apply list_lookup_middle. reflexivity. Qed.

Lemma fill_mid n x pre post (i : Z) : i = Z.of_nat (length pre) -> (n <= length post)%nat -> fill_loop n (pre ++ post) i x = Ok (pre ++ replicate n x ++ drop n post).
Proof.
  intros -> Hn. rewrite fill_loop_ok by (rewrite length_app; lia). rewrite take_app_length' by reflexivity. rewrite drop_app_ge by lia. do 4 f_equal. lia.
Qed.

Lemma copy_mid src pre post (i n : Z) : i = Z.of_nat (length pre) -> n = Z.of_nat (length src) -> (length src <= length post)%nat -> copy_bytes (pre ++ post) i src 0 n = Ok (pre ++ src ++ drop (length src) post).
Proof.
  intros -> -> Hl. unfold copy_bytes. rewrite Nat2Z.id. pose proof (copy_loop_ok (length src) (pre ++ post) src (length pre) 0 ltac:(rewrite length_app; lia) ltac:(lia)) as E. change (Z.of_nat 0) with 0 in E. rewrite E.
  rewrite take_app_length' by reflexivity. rewrite drop_0, firstn_all, drop_app_ge by lia. do 4 f_equal. lia.
Qed.

Lemma zeros_loop_ok n pre post (i : Z) : i = Z.of_nat (length pre) -> zeros_loop n (pre ++ replicate n 0 ++ post) i = Ok true.
Proof.
  revert pre i. induction n as [|n IH]; intros pre i ->; [reflexivity|]. cbn [zeros_loop replicate app]. rewrite aget_mid by reflexivity. cbn [mbind res_bind Z.eqb].
  specialize (IH (pre ++ [0]) _ eq_refl). rewrite <- app_assoc, length_app in IH. cbn [app length] in IH. rewrite <- IH. f_equal. lia.
Qed.

Lemma skip_forward_ok (skip : Z -> bool) z post : skip z = false -> forall pad fuel pre (i : Z), Forall (fun x => skip x = true) pad -> (length pad < fuel)%nat -> i = Z.of_nat (length pre) ->
  skip_forward fuel (pre ++ pad ++ z :: post) skip i = Ok (Z.of_nat (length (pre ++ pad)) + 1).
Proof.
  intros Hz. induction pad as [|x pad IH]; intros fuel pre i HF Hf ->; (destruct fuel as [|fuel]; [cbn in Hf; lia|]); cbn [skip_forward app].
  - rewrite aget_mid by reflexivity. cbn [mbind res_bind]. rewrite Hz, app_nil_r. reflexivity.
  - apply Forall_cons_1 in HF as [Hx HF]. rewrite aget_mid by reflexivity. cbn [mbind res_bind]. rewrite Hx. cbn [length] in Hf. specialize (IH fuel (pre ++ [x]) _ HF ltac:(lia) eq_refl).
    rewrite <- app_assoc in IH. cbn [app] in IH. rewrite length_app in IH. cbn [length] in IH. replace (Z.of_nat (length pre) + 1) with (Z.of_nat (length pre + 1)) by lia. rewrite IH. do 2 f_equal. rewrite <- app_assoc. reflexivity.
Qed.

Lemma compare_bytes_ok b : forall pre post (i : Z), i = Z.of_nat (length pre) -> compare_bytes (pre ++ b ++ post) i b = Ok true.
Proof.
  induction b as [|y b IH]; intros pre post i ->; [reflexivity|]. cbn [compare_bytes app]. rewrite aget_mid by reflexivity. cbn [mbind res_bind]. specialize (IH (pre ++ [y]) post _ eq_refl). rewrite <- app_assoc, length_app in IH. cbn [app length] in IH.
  replace (Z.of_nat (length pre) + 1) with (Z.of_nat (length pre + 1)) by lia. rewrite IH. cbn [mbind res_bind mret res_ret]. rewrite Z.eqb_refl. reflexivity.
Qed.

Lemma s32_u32 x : -2147483648 <= x < 2147483648 -> s32 (u32 x) = x.
Proof. intros Hx. unfold wrapS, wrapU. rewrite Zplus_mod_idemp_l. fold (wrapS 32 x). apply wrapS_id; [lia|]. unfold inS. change (2 ^ (32 - 1)) with 2147483648. lia. Qed.

(** The size of a block: one byte less than the modulus. *)
Definition blocksize_of (v : Z) : nat := Z.to_nat ((Z.log2 v + 8) / 8 - 1).

Lemma blocksize_ok n v : (0 < n)%nat -> 256 <= v < radix n -> (0 < blocksize_of v < 2 * n)%nat /\ Z.of_nat (blocksize_of v) = (Z.log2 v + 8) / 8 - 1 /\ 256 ^ Z.of_nat (blocksize_of v) <= v.
Proof.
  intros Hn Hv. assert (8 <= Z.log2 v) as H8 by (apply Z.log2_le_pow2; lia). pose proof (bits_range n v ltac:(lia)) as Hb. unfold blocksize_of. split; [split; dlia|]. split; [dlia|]. rewrite Z2Nat.id by dlia. change 256 with (2 ^ 8).
  rewrite <- Z.pow_mul_r by dlia. apply Z.le_trans with (2 ^ Z.log2 v); [apply Z.pow_le_mono_r; dlia|apply Z.log2_spec; lia].
Qed.

Lemma countbytes_ok n r : (0 < n)%nat -> reg n r -> 256 <= valp n r -> countbytes n r = Ok (Z.of_nat (blocksize_of (valp n r)) + 1).
Proof.
  intros Hn Hr Hv. pose proof (valp_range n r Hr) as Hvr. destruct (blocksize_ok n _ Hn (conj Hv (proj2 Hvr))) as (_ & E & _). unfold countbytes. rewrite countbits_ok by assumption. cbn [mbind res_bind mret res_ret]. rewrite (proj2 (Z.eqb_neq _ 0)) by lia.
  rewrite E, Z.shiftr_div_pow2 by lia. change (2 ^ 3) with 8. f_equal. dlia.
Qed.

Lemma start_block_ok n N : (0 < n <= MAX_UNIT_PRECISION)%nat -> reg n N -> 256 <= valp n N ->
  let k := blocksize_of (valp n N) in start_block n N = Ok (Z.of_nat k, Z.of_nat (2 * n - k), replicate (2 * n - k) 0 ++ replicate (MAX_BYTE_PRECISION - (2 * n - k)) 0).
Proof.
  intros Hn HN Hv k. pose proof (valp_range n N HN) as Hvr. destruct (blocksize_ok n _ ltac:(lia) (conj Hv (proj2 Hvr))) as (Hk & _ & _). fold k in Hk. assert (n <= 130)%nat as Hn130 by (unfold MAX_UNIT_PRECISION in Hn; lia).
  unfold start_block. rewrite countbytes_ok by (assumption || lia). fold k. cbn [mbind res_bind]. rewrite Z.add_simpl_r, (wrapU_id 32 (Z.of_nat k)) by (unfold inU; lia). rewrite units2bytes_nat, (wrapU_id 32 (_ - _)) by (unfold inU; lia). rewrite wrapS_id by (unfold inS; lia).
  replace (Z.of_nat (2 * n) - Z.of_nat k) with (Z.of_nat (2 * n - k)) by lia. rewrite Nat2Z.id. pose proof (fill_mid (2 * n - k) 0 [] local_temp 0 eq_refl ltac:(unfold local_temp; rewrite length_replicate; unfold MAX_BYTE_PRECISION, MAX_UNIT_PRECISION; lia)) as E. cbn [app] in E. rewrite E. cbn [mbind res_bind mret res_ret].
  rewrite Z.max_r by lia. unfold local_temp. rewrite drop_replicate. reflexivity.
Qed.

(** A block of full size in its place, turned into a register and back. *)
Lemma block_register n k body rest : (k < 2 * n)%nat -> length body = k -> Forall (inU 8) (body ++ rest) -> length (replicate (2 * n - k) 0 ++ body ++ rest) = MAX_BYTE_PRECISION ->
  exists b, mp_convert_order n (replicate (2 * n - k) 0 ++ body ++ rest) = Ok b /\ reg n (to_units b) /\ valp n (to_units b) = be_word body /\ 0 <= be_word body < 256 ^ Z.of_nat k.
Proof.
  intros Hk Hl HF Hlen. set (temp := replicate (2 * n - k) 0 ++ body ++ rest) in *. assert (Forall (inU 8) temp) as HFt by (apply Forall_app_2; [apply local_bytes|exact HF]).
  assert (2 * n <= length temp)%nat as H2 by (unfold temp; rewrite !length_app, length_replicate; lia). rewrite mp_convert_order_ok by exact H2. eexists. split; [reflexivity|]. destruct (convert_units n temp HFt ltac:(exists MAX_UNIT_PRECISION; rewrite Hlen; reflexivity) H2) as (H3 & H4 & _).
  split; [exact H3|]. assert (take (2 * n) temp = replicate (2 * n - k) 0 ++ body) as Et by (unfold temp; rewrite app_assoc; apply take_app_length'; rewrite length_app, length_replicate; lia). rewrite H4, Et, be_word_zeros. split; [reflexivity|]. rewrite <- Hl. apply be_word_le. apply Forall_app in HF as [HF _]. exact HF.
Qed.

Lemma register_block n k body r : (k < 2 * n)%nat -> length body = k -> Forall (inU 8) body -> (n <= length r)%nat -> Forall (inU 16) r -> valp n r = be_word body ->
  exists rest, mp_convert_order n (host_bytes r) = Ok (replicate (2 * n - k) 0 ++ body ++ rest) /\ length rest = (2 * length r - 2 * n)%nat.
Proof.
  intros Hk Hl HF Hr HFr E. exists (drop (2 * n) (host_bytes r)). rewrite convert_bytes by assumption. rewrite E, <- (be_word_zeros (2 * n - k)). assert (length (replicate (2 * n - k) 0 ++ body) = (2 * n)%nat) as Hlen by (rewrite length_app, length_replicate; lia).
  rewrite <- Hlen at 1. rewrite be_bytes_word by (apply Forall_app_2; [apply local_bytes|exact HF]). rewrite <- app_assoc. split; [reflexivity|]. rewrite length_drop, (proj1 (host_bytes_ok r HFr)). reflexivity.
Qed.
End Blocks.

(** * Keys *)

Section Keys.
Context (dm : data_model).
Implicit Types (n : nat) (st : smith) (E D P Q U N r : list Z) (p q e d m x : Z).

(** A key pair in registers of [n] units. *)
Record rsa_key n E D P Q U N : Prop := RsaKey {
  key_prec : (0 < n <= MAX_UNIT_PRECISION)%nat;
  key_regs : reg n E /\ reg n D /\ reg n P /\ reg n Q /\ reg n U /\ reg n N;
  key_primes : prime (valp n P) /\ prime (valp n Q) /\ 2 ^ 32 <= valp n P < valp n Q;
  key_modulus : valp n N = valp n P * valp n Q;
  key_exponents : 0 < valp n E < valp n N /\ (valp n P - 1 | valp n E * valp n D - 1) /\ (valp n Q - 1 | valp n E * valp n D - 1);
  key_inverse : valp n U < valp n Q /\ (valp n U * valp n P) mod valp n Q = 1;
  key_room : valp n Q * valp n Q <= radix n;
  key_word : word_ok dm (valp n P) /\ word_ok dm (valp n Q) /\ word_ok dm (valp n N) }.

Lemma mod_mod_factor y p q : 0 < p -> 0 < q -> (y mod (p * q)) mod p = y mod p.
Proof. intros _ _. apply Z.mod_mod_divide. exists q. lia. Qed.

Lemma reduced_exponent p e d : 2 < p -> 0 <= e -> (p - 1 | e * d - 1) -> 0 < d mod (p - 1) < p /\ exists k, 0 <= k /\ e * (d mod (p - 1)) = 1 + k * (p - 1).
Proof.
  intros Hp He [j Hj]. pose proof (Z.mod_pos_bound d (p - 1) ltac:(lia)) as Hm. pose proof (Z.div_mod d (p - 1) ltac:(lia)) as Hd. set (d' := d mod (p - 1)) in *. assert (e * d' - 1 = (j - e * (d / (p - 1))) * (p - 1)) as Ek by (rewrite Hd in Hj; lia).
  set (k := j - e * (d / (p - 1))) in *. assert (0 <= e * d') by (apply Z.mul_nonneg_nonneg; lia). assert (0 <= k) as Hk by (assert (- 1 <= k * (p - 1)) by lia; nia).
  assert (e * d' <> 0) as Hne by nia. split; [split; [|lia]|exists k; lia]. destruct (Z.eq_dec d' 0) as [E0|]; [rewrite E0, Z.mul_0_r in Hne; lia|lia].
Qed.

(** Encryption and decryption, modulo one of the primes, in both orders. *)
Lemma exponents_cancel p e d m : prime p -> 2 < p -> 0 <= e -> (p - 1 | e * d - 1) -> m ^ (e * (d mod (p - 1))) mod p = m mod p.
Proof. intros Hp H2 He Hd. destruct (reduced_exponent p e d H2 He Hd) as (_ & k & Hk & ->). apply fermat_exponent; assumption. Qed.

Lemma crt_exponents_ok n D P Q : (0 < n <= MAX_UNIT_PRECISION)%nat -> reg n D -> reg n P -> reg n Q -> 2 < valp n P -> 2 < valp n Q ->
  exists DP DQ, crt_exponents n D P Q = Ok (DP, DQ) /\ reg n DP /\ reg n DQ /\ valp n DP = valp n D mod (valp n P - 1) /\ valp n DQ = valp n D mod (valp n Q - 1).
Proof.
  intros Hn HD HP HQ HP2 HQ2. pose proof (local_reg n ltac:(lia)) as Hz. unfold crt_exponents. set (z := replicate MAX_UNIT_PRECISION 0) in *. pose proof (valp_range n P HP) as HPr. pose proof (valp_range n Q HQ) as HQr.
  assert (forall (r v : list Z), reg n v -> 2 < valp n v -> reg n r -> mp_dec n (put n r (valp n v)) = Ok (put n r (valp n v - 1), valp n v - 1 <? 0) /\ valp n (put n r (valp n v - 1)) = valp n v - 1) as Hdec.
  { intros r v Hv H2 Hr. pose proof (valp_range n v Hv). rewrite mp_dec_ok by (lia || apply put_reg, Hr). rewrite put_put, !valp_put, (Z.mod_small (valp n v)), (Z.mod_small (_ - 1)) by lia. auto. }
  rewrite mp_move_ok by (exact HP || apply Hz). cbn [mbind res_bind]. destruct (Hdec z P HP HP2 Hz) as [-> E1]. cbn [mbind res_bind]. rewrite mp_mod_ok by (try apply put_reg; try assumption; try rewrite E1; lia). cbn [mbind res_bind].
  rewrite mp_move_ok by (exact HQ || apply put_reg, Hz). cbn [mbind res_bind]. rewrite put_put. destruct (Hdec z Q HQ HQ2 Hz) as [-> E2]. cbn [mbind res_bind]. rewrite mp_mod_ok by (try apply put_reg; try assumption; try rewrite E2; lia). cbn [mbind res_bind mret res_ret].
  eexists _, _. split; [reflexivity|]. split; [apply put_reg, Hz|]. split; [apply put_reg, Hz|]. rewrite E1, E2, !valp_put.
  pose proof (Z.mod_pos_bound (valp n D) (valp n P - 1) ltac:(lia)). pose proof (Z.mod_pos_bound (valp n D) (valp n Q - 1) ltac:(lia)). split; apply Z.mod_small; lia.
Qed.

Lemma key_bounds n E D P Q U N : rsa_key n E D P Q U N -> 4294967296 <= valp n P < valp n Q /\ 4294967296 <= valp n N < radix n /\ Z.gcd (valp n P) (valp n Q) = 1.
Proof.
  intros [Hn (_ & _ & HP & HQ & _ & HN) (H1 & H2 & H3) HM _ _ _ _]. change (2 ^ 32) with 4294967296 in H3. pose proof (valp_range n N HN). split; [lia|]. split; [nia|]. apply primes_coprime; [exact H1|exact H2|lia].
Qed.

(** The operation with the private key: the power with the secret exponent. *)
Lemma private_power n st out c E D P Q U N DP DQ : rsa_key n E D P Q U N -> smith_wf st -> reg n out -> reg n c ->
  reg n DP -> reg n DQ -> valp n DP = valp n D mod (valp n P - 1) -> valp n DQ = valp n D mod (valp n Q - 1) ->
  exists st' x, mp_modexp_crt dm n st out c P Q DP DQ U = Ok (0, st', put n out x) /\ smith_wf st' /\ 0 <= x < valp n N /\
    (forall m, valp n c = m ^ valp n E mod valp n N -> 0 <= m < valp n N -> x = m) /\ x ^ valp n E mod valp n N = valp n c mod valp n N.
Proof.
  intros HK Hst Hout Hc HDP HDQ EDP EDQ. destruct (key_bounds _ _ _ _ _ _ _ HK) as (HPQ & HNr & Hgcd). destruct HK as [Hn (HE & HD & HP & HQ & HU & HN) (H1 & H2 & H3) HM (He & Hdp & Hdq) (Hu1 & Hu2) Hroom (W1 & W2 & _)]. change (2 ^ 32) with 4294967296 in H3.
  set (p := valp n P) in *. set (q := valp n Q) in *. set (e := valp n E) in *. set (d := valp n D) in *. destruct (reduced_exponent p e d ltac:(lia) ltac:(lia) Hdp) as [Hp1 _]. destruct (reduced_exponent q e d ltac:(lia) ltac:(lia) Hdq) as [Hq1 _].
  destruct (mp_modexp_crt_ok dm n st out c P Q DP DQ U Hn Hst Hout Hc HP HQ HDP HDQ HU) as (st' & x & Ex & Hst' & Hx & Xp & Xq); [change (2 ^ 32) with 4294967296; fold p q; lia|exact Hroom|exact W1|exact W2|rewrite EDP; exact Hp1|rewrite EDQ; exact Hq1|exact Hu1|exact Hu2|].
  fold p in Hx, Xp. fold q in Hx, Xq. rewrite EDP in Xp. rewrite EDQ in Xq. exists st', x. split; [exact Ex|]. split; [exact Hst'|]. rewrite HM. split; [exact Hx|]. split.
  - intros m Ec Hm. rewrite Ec in Xp, Xq. rewrite <- (Z.mod_small x (p * q)), <- (Z.mod_small m (p * q)) by lia. apply crt_unique; [lia|lia|exact Hgcd| |].
    + rewrite Xp, Zpower_mod, mod_mod_factor, <- Zpower_mod, <- Z.pow_mul_r by lia. apply exponents_cancel; (assumption || lia).
    + rewrite Xq, Zpower_mod, (Z.mul_comm p q), mod_mod_factor, <- Zpower_mod, <- Z.pow_mul_r by lia. apply exponents_cancel; (assumption || lia).
  - apply crt_unique; [lia|lia|exact Hgcd| |].
    + rewrite Zpower_mod, Xp, <- Zpower_mod, <- Z.pow_mul_r, Z.mul_comm by lia. apply exponents_cancel; (assumption || lia).
    + rewrite Zpower_mod, Xq, <- Zpower_mod, <- Z.pow_mul_r, Z.mul_comm by lia. apply exponents_cancel; (assumption || lia).
Qed.

(** The operation with the public key. *)
Lemma public_power n st out c E D P Q U N : rsa_key n E D P Q U N -> smith_wf st -> reg n out -> reg n c -> valp n c < valp n N ->
  exists st', mp_modexp dm n st out c E N = Ok (0, st', put n out (valp n c ^ valp n E mod valp n N)) /\ smith_wf st'.
Proof.
  intros HK Hst Hout Hc Hlt. destruct (key_bounds _ _ _ _ _ _ _ HK) as (_ & HNr & _). destruct HK as [Hn (HE & HD & HP & HQ & HU & HN) _ _ (He & _) _ _ (_ & _ & W)].
  pose proof (mp_modexp_ok dm n st out c E N Hn Hst Hout Hc HE HN ltac:(change (2 ^ 32) with 4294967296; lia) W) as H. apply okp_ok in H as ([[s st'] o] & Em & Hs & Hst' & Ho). cbn [fst snd] in *. unfold modexp_status in Hs.
  rewrite (proj2 (Z.eqb_neq (valp n E) 0)), (proj2 (Z.eqb_neq (valp n N) 0)), (proj2 (Z.leb_gt _ _)), (proj2 (Z.leb_gt _ _)) in Hs by lia. subst s. exists st'. rewrite Em, Ho. auto.
Qed.
End Keys.

(** * Encryption of a session key *)

Section Encryption.
Context (dm : data_model) (cryptRandByte : nat -> Z).
Context (Hbyte : forall i, 0 <= cryptRandByte i < 256) (Hnonzero : forall pos, exists k, cryptRandByte (pos + k)%nat <> 0).
Implicit Types (n : nat) (st : smith) (E D P Q U N data : list Z).

(** From a position on, the source gives [i] nonzero bytes after enough turns. *)
Definition padded (i : nat) pos : Prop := exists F pad pos', length pad = i /\ Forall (inU 8) pad /\ Forall (fun x => negb (x =? 0) = true) pad /\
  forall fuel pre post p, (F <= fuel)%nat -> p = Z.of_nat (length pre) -> (i <= length post)%nat ->
    pad_loop cryptRandByte fuel (pre ++ post) p (Z.of_nat i) pos = Ok (pre ++ pad ++ drop i post, Z.of_nat (length (pre ++ pad)), pos').

Lemma padded_nonzero i pos : cryptRandByte pos <> 0 -> padded i (S pos) -> padded (S i) pos.
Proof.
  intros Hk (F & pad & pos' & H1 & H2 & H3 & H4). exists (S F), (cryptRandByte pos :: pad), pos'. split; [cbn [length]; lia|]. split; [apply Forall_cons_2; [exact (Hbyte pos)|exact H2]|].
  split; [apply Forall_cons_2; [apply negb_true_iff, Z.eqb_neq, Hk|exact H3]|]. intros fuel pre post p HF -> Hl. destruct fuel as [|fuel]; [lia|]. destruct post as [|x post]; [cbn in Hl; lia|]. cbn [length] in Hl. cbn [pad_loop]. rewrite (proj2 (Z.eqb_neq (Z.of_nat (S i)) 0)) by lia.
  rewrite aset_mid by reflexivity. cbn [mbind res_bind]. rewrite (proj2 (Z.eqb_neq _ 0) Hk). replace (Z.of_nat (S i) - 1) with (Z.of_nat i) by lia. specialize (H4 fuel (pre ++ [cryptRandByte pos]) post (Z.of_nat (length pre) + 1) ltac:(lia) ltac:(rewrite length_app; cbn [length]; lia) ltac:(lia)).
  rewrite <- app_assoc in H4. cbn [app] in H4. rewrite H4, <- !app_assoc. reflexivity.
Qed.
Lemma padded_zero i pos : cryptRandByte pos = 0 -> padded (S i) (S pos) -> padded (S i) pos.
Proof.
  intros E0 (F & pad & pos' & H1 & H2 & H3 & H4). exists (S F), pad, pos'. split; [exact H1|]. split; [exact H2|]. split; [exact H3|]. intros fuel pre post p HF -> Hl. destruct fuel as [|fuel]; [lia|]. destruct post as [|x post]; [cbn in Hl; lia|]. cbn [pad_loop].
  rewrite (proj2 (Z.eqb_neq (Z.of_nat (S i)) 0)) by lia. rewrite aset_mid by reflexivity. cbn [mbind res_bind]. rewrite E0. cbn [Z.eqb]. rewrite H4 by (lia || reflexivity || exact Hl). reflexivity.
Qed.
Lemma pad_loop_ok (i : nat) : forall pos, padded i pos.
Proof.
  induction i as [|i IH]; intros pos.
  { exists 0%nat, [], pos. split; [reflexivity|]. split; [constructor|]. split; [constructor|]. intros fuel pre post p _ -> _. rewrite app_nil_r, drop_0. destruct fuel; reflexivity. }
  destruct (Hnonzero pos) as [k Hk]. revert pos Hk. induction k as [|k IHk]; intros pos Hk; (destruct (Z.eq_dec (cryptRandByte pos) 0) as [E0|E0]; [|apply padded_nonzero; auto]).
  - rewrite Nat.add_0_r in Hk. contradiction.
  - rewrite Nat.add_succ_r, <- Nat.add_succ_l in Hk. apply padded_zero; auto.
Qed.

(** The block that is encrypted. *)
Lemma rsa_public_encrypt_ok n st out data E D P Q U N pos : rsa_key dm n E D P Q U N -> smith_wf st -> reg n out -> Forall (inU 8) data -> Z.of_nat (length data) < 32768 ->
  let k := blocksize_of (valp n N) in
  ((length data + 3 <= k)%nat -> exists F pad pos', (length data + length pad + 2)%nat = k /\ Forall (inU 8) pad /\ Forall (fun x => negb (x =? 0) = true) pad /\
     let m := be_word (CK_ENCRYPTED_BYTE :: pad ++ 0 :: data) in 0 <= m < valp n N /\
     forall fuel, (F <= fuel)%nat -> exists st', rsa_public_encrypt dm cryptRandByte fuel n st out data (Z.of_nat (length data)) E N pos = Ok (0, st', put n out (m ^ valp n E mod valp n N), pos') /\ smith_wf st') /\
  ((k < length data + 3)%nat -> forall fuel, rsa_public_encrypt dm cryptRandByte fuel n st out data (Z.of_nat (length data)) E N pos = Ok (-4, st, out, pos)).
Proof.
  intros HK Hst Hout HF Hlen k. destruct (key_bounds _ _ _ _ _ _ _ _ HK) as (_ & HNr & _). pose proof (key_prec _ _ _ _ _ _ _ _ HK) as Hn. destruct (key_regs _ _ _ _ _ _ _ _ HK) as (_ & _ & _ & _ & _ & HN).
  assert (n <= 130)%nat as Hn130 by (unfold MAX_UNIT_PRECISION in Hn; lia). pose proof (start_block_ok n N Hn HN ltac:(lia)) as Estart. cbv zeta in Estart. fold k in Estart. destruct (blocksize_ok n (valp n N) ltac:(lia) ltac:(lia)) as (Hk & Ek & Hkv). fold k in Hk, Ek, Hkv.
  assert (Z.log2 (valp n N) >= 32) as H32 by (apply Z.le_ge, Z.log2_le_pow2; lia). assert (4 <= k)%nat as Hk4 by dlia.
  assert (s32 (u32 (u32 (Z.of_nat k - 2) - Z.of_nat (length data))) = Z.of_nat k - 2 - Z.of_nat (length data)) as Ei.
  { rewrite (wrapU_id 32 (_ - 2)) by (unfold inU; lia). apply s32_u32. lia. }
  split; intros Hsize.
  - set (i := (k - 2 - length data)%nat). destruct (pad_loop_ok i pos) as (F & pad & pos' & Hpad & HFp & HFz & Hloop). exists F, pad, pos'. split; [unfold i in Hpad; lia|]. split; [exact HFp|]. split; [exact HFz|]. intros m.
    set (body := CK_ENCRYPTED_BYTE :: pad ++ 0 :: data) in *. assert (length body = k) as Hlb by (unfold body; cbn [length]; rewrite length_app; cbn [length]; unfold i in Hpad; lia).
    assert (Forall (inU 8) body) as HFb by (apply Forall_cons_2; [unfold inU, CK_ENCRYPTED_BYTE; lia|]; apply Forall_app_2; [exact HFp|]; apply Forall_cons_2; [unfold inU; lia|exact HF]).
    assert (0 <= m < valp n N) as Hm by (pose proof (be_word_le body HFb) as H; rewrite Hlb in H; fold m in H; lia). split; [exact Hm|]. intros fuel Hfuel. unfold rsa_public_encrypt. rewrite Estart. cbn [mbind res_bind]. rewrite Ei, (proj2 (Z.ltb_ge _ 1)) by lia.
    replace (Z.of_nat k - 2 - Z.of_nat (length data)) with (Z.of_nat i) by (unfold i; lia). set (zs := replicate (2 * n - k) 0). assert (length zs = (2 * n - k)%nat) as Hzs by apply length_replicate.
    remember (MAX_BYTE_PRECISION - (2 * n - k))%nat as R eqn:ER. assert (k <= R)%nat as HR by (unfold MAX_BYTE_PRECISION, MAX_UNIT_PRECISION in ER; lia). destruct R as [|R]; [lia|]. cbn [replicate].
    rewrite aset_mid by (rewrite Hzs; reflexivity). cbn [mbind res_bind]. rewrite (cons_middle _ zs), app_assoc. rewrite Hloop by (first [exact Hfuel|rewrite length_app, Hzs; cbn [length]; lia|rewrite length_replicate; lia]). cbn [mbind res_bind].
    rewrite drop_replicate. destruct (R - i)%nat as [|R'] eqn:ER'; [lia|]. cbn [replicate]. rewrite (app_assoc _ pad), aset_mid by reflexivity. cbn [mbind res_bind]. rewrite (cons_middle 0), (app_assoc _ [0]).
    rewrite copy_mid by (first [rewrite (length_app (_ ++ pad)); cbn [length]; lia|reflexivity|rewrite length_replicate; lia]). cbn [mbind res_bind]. rewrite drop_replicate.
    assert (((((zs ++ [CK_ENCRYPTED_BYTE]) ++ pad) ++ [0]) ++ data ++ replicate (R' - length data) 0) = zs ++ body ++ replicate (R' - length data) 0) as -> by (unfold body; rewrite <- !app_assoc; cbn [app]; rewrite <- app_assoc; reflexivity).
    destruct (block_register n k body (replicate (R' - length data) 0)) as (b & Econv & Hb & Eb & _); [lia|exact Hlb|apply Forall_app_2; [exact HFb|apply local_bytes]|rewrite !length_app, !length_replicate, Hlb; lia|]. fold zs in Econv. rewrite Econv. cbn [mbind res_bind]. fold m in Eb.
    destruct (public_power dm n st out (to_units b) E D P Q U N HK Hst Hout Hb) as (st' & -> & Hst'); [rewrite Eb; apply Hm|]. cbn [mbind res_bind]. cbn [Z.ltb Z.compare mret res_ret]. rewrite Eb. exists st'. auto.
  - intros fuel. unfold rsa_public_encrypt. rewrite Estart. cbn [mbind res_bind]. rewrite Ei, (proj2 (Z.ltb_lt _ 1)) by lia. reflexivity.
Qed.
End Encryption.

(** * Decryption *)

Section Decryption.
Context (dm : data_model).
Implicit Types (n : nat) (st : smith) (E D P Q U N data : list Z).

Lemma copy_data_ok outbuf temp (front back : Z) pre data post : temp = pre ++ data ++ post -> front = Z.of_nat (length pre) -> back = front + Z.of_nat (length data) -> (length data <= length outbuf)%nat ->
  copy_data outbuf temp front back = Ok (Z.of_nat (length data), data ++ drop (length data) outbuf).
Proof.
  intros -> -> -> Hl. unfold copy_data, copy_bytes. replace (Z.of_nat (length pre) + Z.of_nat (length data) - Z.of_nat (length pre)) with (Z.of_nat (length data)) by lia. rewrite Nat2Z.id.
  pose proof (copy_loop_ok (length data) outbuf (pre ++ data ++ post) 0 (length pre) ltac:(lia) ltac:(rewrite !length_app; lia)) as E. change (Z.of_nat 0) with 0 in E. rewrite E. cbn [mbind res_bind mret res_ret]. rewrite take_0, drop_app_length' by reflexivity. rewrite take_app_length' by reflexivity. reflexivity.
Qed.

(** The block that comes out of the operation with a key. *)
Lemma decrypted_block n k junk m body : (0 < n <= MAX_UNIT_PRECISION)%nat -> (k < 2 * n)%nat -> length junk = MAX_UNIT_PRECISION -> Forall (inU 16) junk -> length body = k -> Forall (inU 8) body -> m = be_word body -> 0 <= m < radix n ->
  exists rest, mp_convert_order n (host_bytes (put n junk m)) = Ok (replicate (2 * n - k) 0 ++ body ++ rest) /\ length (replicate (2 * n - k) 0 ++ body ++ rest) = MAX_BYTE_PRECISION.
Proof.
  intros Hn Hk Hl HF Hlb HFb -> Hm. assert (reg n junk) as Hj by (split; [lia|exact HF]). destruct (register_block n k body (put n junk (be_word body)) Hk Hlb HFb) as (rest & E & Hr); [rewrite length_put by lia; lia|apply (put_reg n junk), Hj|rewrite valp_put; apply Z.mod_small, Hm|].
  exists rest. split; [exact E|]. rewrite !length_app, length_replicate, Hlb, Hr, length_put by lia. unfold MAX_BYTE_PRECISION. lia.
Qed.

Lemma rsa_private_decrypt_ok n st outbuf c E D P Q U N junk pad data : rsa_key dm n E D P Q U N -> smith_wf st -> reg n c -> length junk = MAX_UNIT_PRECISION -> Forall (inU 16) junk ->
  let k := blocksize_of (valp n N) in let m := be_word (CK_ENCRYPTED_BYTE :: pad ++ 0 :: data) in
  (length data + length pad + 2)%nat = k -> (0 < length data <= length outbuf)%nat -> Forall (inU 8) pad -> Forall (fun x => negb (x =? 0) = true) pad -> Forall (inU 8) data -> 0 <= m < valp n N -> valp n c = m ^ valp n E mod valp n N ->
  exists st', rsa_private_decrypt dm n st outbuf c E D P Q U N junk = Ok (Z.of_nat (length data), st', data ++ drop (length data) outbuf) /\ smith_wf st'.
Proof.
  intros HK Hst Hc Hlj HFj k m Hsize Hdata HFp HFz HFd Hm Ec. destruct (key_bounds _ _ _ _ _ _ _ _ HK) as (HPQ & HNr & _). pose proof (key_prec _ _ _ _ _ _ _ _ HK) as Hn. destruct (key_regs _ _ _ _ _ _ _ _ HK) as (_ & HD & HP & HQ & _ & HN).
  destruct (blocksize_ok n (valp n N) ltac:(lia) ltac:(lia)) as (Hk & Ek & Hkv). fold k in Hk, Ek, Hkv. assert (n <= 130)%nat as Hn130 by (unfold MAX_UNIT_PRECISION in Hn; lia).
  set (body := CK_ENCRYPTED_BYTE :: pad ++ 0 :: data) in *. assert (length body = k) as Hlb by (unfold body; cbn [length]; rewrite length_app; cbn [length]; lia).
  assert (Forall (inU 8) body) as HFb by (apply Forall_cons_2; [unfold inU, CK_ENCRYPTED_BYTE; lia|]; apply Forall_app_2; [exact HFp|]; apply Forall_cons_2; [unfold inU; lia|exact HFd]).
  unfold rsa_private_decrypt. destruct (crt_exponents_ok n D P Q Hn HD HP HQ ltac:(lia) ltac:(lia)) as (DP & DQ & -> & HDP & HDQ & EDP & EDQ). cbn [mbind res_bind].
  assert (reg n junk) as Hj by (split; [lia|exact HFj]). destruct (private_power dm n st junk c E D P Q U N DP DQ HK Hst Hj Hc HDP HDQ EDP EDQ) as (st' & x & -> & Hst' & Hx & Hdec & _). cbn [mbind res_bind Z.ltb Z.compare]. rewrite (Hdec m Ec Hm).
  destruct (decrypted_block n k junk m body Hn ltac:(lia) Hlj HFj Hlb HFb eq_refl ltac:(lia)) as (rest & -> & Hlt). cbn [mbind res_bind]. rewrite countbytes_ok by (assumption || lia). cbn [mbind res_bind]. fold k. rewrite units2bytes_nat, Z.add_simpl_r, (wrapU_id 32 (Z.of_nat k)) by (unfold inU; lia). rewrite s32_u32 by lia.
  rewrite (proj2 (Z.ltb_ge _ 0)) by lia. replace (Z.of_nat (2 * n) - Z.of_nat k) with (Z.of_nat (2 * n - k)) by lia. rewrite Nat2Z.id. pose proof (zeros_loop_ok (2 * n - k) [] (body ++ rest) 0 eq_refl) as Ez. cbn [app] in Ez. rewrite Ez. cbn [mbind res_bind negb].
  set (zs := replicate (2 * n - k) 0) in *. assert (length zs = (2 * n - k)%nat) as Hzs by apply length_replicate. set (temp := zs ++ body ++ rest) in *. assert (aget temp (Z.of_nat (2 * n - k)) = Ok CK_ENCRYPTED_BYTE) as -> by (unfold temp, body; cbn [app]; apply aget_mid; rewrite Hzs; reflexivity). cbn [mbind res_bind].
  assert (exists y, aget temp (Z.of_nat (2 * n) - 1) = Ok y) as (y & ->). { destruct (lookup_lt_is_Some_2 temp (2 * n - 1)) as [y Hy]; [rewrite Hlt; unfold MAX_BYTE_PRECISION; lia|]. exists y. apply aget_ok. split; [lia|]. replace (Z.to_nat (Z.of_nat (2 * n) - 1)) with (2 * n - 1)%nat by lia. exact Hy. }
  cbn [mbind res_bind Z.eqb Pos.eqb negb andb CK_ENCRYPTED_BYTE]. assert (temp = (zs ++ [CK_ENCRYPTED_BYTE]) ++ pad ++ 0 :: data ++ rest) as Etemp by (unfold temp, body; rewrite <- !app_assoc; cbn [app]; rewrite <- !app_assoc; reflexivity).
  rewrite Hlt, Etemp. rewrite (skip_forward_ok (fun x => negb (x =? 0)) 0 (data ++ rest) eq_refl pad) by (first [exact HFz|rewrite length_app, Hzs; cbn [length]; lia|unfold MAX_BYTE_PRECISION, MAX_UNIT_PRECISION; lia]). cbn [mbind res_bind Z.ltb Z.compare mret res_ret].
  rewrite !length_app, Hzs. cbn [length]. rewrite (proj2 (Z.leb_gt _ _)) by lia.
  rewrite (copy_data_ok outbuf _ _ _ (((zs ++ [CK_ENCRYPTED_BYTE]) ++ pad) ++ [0]) data rest); [|rewrite <- !app_assoc; cbn [app]; rewrite <- ?app_assoc; reflexivity|rewrite !length_app, Hzs; cbn [length]; lia|lia|lia]. cbn [mbind res_bind mret res_ret]. exists st'. auto.
Qed.
End Decryption.

(** C2: For every valid key, rsa_public_encrypt of data that fits the block (at least one
    byte of padding) succeeds with enough random bytes, and rsa_private_decrypt of its result
    returns the length and exactly the data; data that does not fit is refused with -4 and
    nothing is written. *)
Theorem rsa_session_key dm cryptRandByte n st st2 out outbuf junk data E D P Q U N pos :
  (forall i, 0 <= cryptRandByte i < 256) -> (forall pos, exists k, cryptRandByte (pos + k)%nat <> 0) -> rsa_key dm n E D P Q U N -> smith_wf st -> smith_wf st2 -> reg n out ->
  length junk = MAX_UNIT_PRECISION -> Forall (inU 16) junk -> Forall (inU 8) data -> 0 < Z.of_nat (length data) < 32768 -> (length data <= length outbuf)%nat ->
  exists F, forall fuel, (F <= fuel)%nat ->
    if (blocksize_of (valp n N) <? length data + 3)%nat then rsa_public_encrypt dm cryptRandByte fuel n st out data (Z.of_nat (length data)) E N pos = Ok (-4, st, out, pos)
    else exists st' c pos', rsa_public_encrypt dm cryptRandByte fuel n st out data (Z.of_nat (length data)) E N pos = Ok (0, st', c, pos') /\ smith_wf st' /\
      exists st'', rsa_private_decrypt dm n st2 outbuf c E D P Q U N junk = Ok (Z.of_nat (length data), st'', data ++ drop (length data) outbuf) /\ smith_wf st''.
Proof.
  intros Hbyte Hnz HK Hst Hst2 Hout Hlj HFj HFd Hlen Hob. destruct (rsa_public_encrypt_ok dm cryptRandByte Hbyte Hnz n st out data E D P Q U N pos HK Hst Hout HFd ltac:(lia)) as [Hok Herr].
  destruct (Nat.ltb_spec (blocksize_of (valp n N)) (length data + 3)) as [Hs|Hs]; [exists 0%nat; intros fuel _; apply Herr, Hs|]. destruct (Hok Hs) as (F & pad & pos' & Hsize & HFp & HFz & Hm & Henc). clear Hok Herr. exists F. intros fuel Hf.
  destruct (Henc fuel Hf) as (st' & E1 & Hst'). eexists st', _, pos'. split; [exact E1|]. split; [exact Hst'|]. destruct (key_bounds _ _ _ _ _ _ _ _ HK) as (_ & HNr & _).
  apply (rsa_private_decrypt_ok dm n st2 outbuf _ E D P Q U N junk pad data HK Hst2); [apply put_reg, Hout|exact Hlj|exact HFj|exact Hsize|lia|exact HFp|exact HFz|exact HFd|exact Hm|].
  rewrite valp_put. apply Z.mod_small. pose proof (Z.mod_pos_bound (be_word (CK_ENCRYPTED_BYTE :: pad ++ 0 :: data) ^ valp n E) (valp n N) ltac:(lia)). lia.
Qed.

(** * Signatures *)

Section Signatures.
Context (dm : data_model).
Implicit Types (n : nat) (st : smith) (E D P Q U N data : list Z).

(** The block that is signed: the type, ones, a zero, the name of the digest, the digest. *)
Definition signature_block (k : nat) data : list Z := MD_ENCRYPTED_BYTE :: replicate (k - 20 - length data) 255 ++ 0 :: asn_array ++ data.

Lemma signature_block_ok k data : (length data + 20 <= k)%nat -> Forall (inU 8) data -> length (signature_block k data) = k /\ Forall (inU 8) (signature_block k data).
Proof.
  intros Hk HF. assert (length asn_array = 18%nat) as Hasn by reflexivity. unfold signature_block. split.
  - cbn [length]. rewrite length_app, length_replicate. cbn [length]. rewrite length_app, Hasn. lia.
  - apply Forall_cons_2; [unfold inU, MD_ENCRYPTED_BYTE; lia|]. apply Forall_app_2; [apply Forall_replicate; unfold inU; lia|]. apply Forall_cons_2; [unfold inU; lia|]. apply Forall_app_2; [by_eval|exact HF].
Qed.

Lemma rsa_private_encrypt_ok n st out data E D P Q U N : rsa_key dm n E D P Q U N -> smith_wf st -> reg n out -> Forall (inU 8) data -> Z.of_nat (length data) < 32768 ->
  let k := blocksize_of (valp n N) in let m := be_word (signature_block k data) in
  if (k <? length data + 20)%nat then rsa_private_encrypt dm n st out data (Z.of_nat (length data)) E D P Q U N = Ok (-4, st, out)
  else 0 <= m < valp n N /\ exists st' x, rsa_private_encrypt dm n st out data (Z.of_nat (length data)) E D P Q U N = Ok (0, st', put n out x) /\ smith_wf st' /\ 0 <= x < valp n N /\ x ^ valp n E mod valp n N = m.
Proof.
  intros HK Hst Hout HF Hlen k m. destruct (key_bounds _ _ _ _ _ _ _ _ HK) as (HPQ & HNr & _). pose proof (key_prec _ _ _ _ _ _ _ _ HK) as Hn. destruct (key_regs _ _ _ _ _ _ _ _ HK) as (_ & HD & HP & HQ & _ & HN).
  assert (n <= 130)%nat as Hn130 by (unfold MAX_UNIT_PRECISION in Hn; lia). pose proof (start_block_ok n N Hn HN ltac:(lia)) as Estart. cbv zeta in Estart. fold k in Estart. destruct (blocksize_ok n (valp n N) ltac:(lia) ltac:(lia)) as (Hk & Ek & Hkv). fold k in Hk, Ek, Hkv.
  assert (Z.log2 (valp n N) >= 32) as H32 by (apply Z.le_ge, Z.log2_le_pow2; lia). assert (4 <= k)%nat as Hk4 by dlia.
  assert (s32 (u32 (u32 (Z.of_nat k - 2) - Z.of_nat (length data))) = Z.of_nat k - 2 - Z.of_nat (length data)) as Ei.
  { rewrite (wrapU_id 32 (_ - 2)) by (unfold inU; lia). apply s32_u32. lia. }
  assert (length asn_array = 18%nat) as Hasn by reflexivity. unfold rsa_private_encrypt. destruct (crt_exponents_ok n D P Q Hn HD HP HQ ltac:(lia) ltac:(lia)) as (DP & DQ & -> & HDP & HDQ & EDP & EDQ). cbn [mbind res_bind]. rewrite Estart. cbn [mbind res_bind]. rewrite Ei, Hasn.
  destruct (Nat.ltb_spec k (length data + 20)) as [Hs|Hs]; [rewrite (proj2 (Z.ltb_lt _ 0)) by lia; reflexivity|]. rewrite (proj2 (Z.ltb_ge _ 0)) by lia.
  destruct (signature_block_ok k data Hs HF) as [Hlb HFb]. pose proof (be_word_le _ HFb) as Hm. rewrite Hlb in Hm. fold m in Hm. assert (0 <= m < valp n N) as Hm' by lia. split; [exact Hm'|].
  set (i := (k - 20 - length data)%nat). replace (Z.of_nat k - 2 - Z.of_nat (length data) - Z.of_nat 18) with (Z.of_nat i) by (unfold i; lia). rewrite Nat2Z.id. set (zs := replicate (2 * n - k) 0). assert (length zs = (2 * n - k)%nat) as Hzs by apply length_replicate.
  remember (MAX_BYTE_PRECISION - (2 * n - k))%nat as R eqn:ER. assert (k <= R)%nat as HR by (unfold MAX_BYTE_PRECISION, MAX_UNIT_PRECISION in ER; lia). destruct R as [|R]; [lia|]. cbn [replicate].
  rewrite aset_mid by (rewrite Hzs; reflexivity). cbn [mbind res_bind]. rewrite (cons_middle _ zs), app_assoc. rewrite fill_mid by (first [rewrite length_app, Hzs; cbn [length]; lia|rewrite length_replicate; unfold i; lia]). cbn [mbind res_bind].
  rewrite drop_replicate. destruct (R - i)%nat as [|R'] eqn:ER'; [unfold i in ER'; lia|]. cbn [replicate]. rewrite (app_assoc _ (replicate i 255)), aset_mid by (rewrite !length_app, length_replicate, Hzs; cbn [length]; lia). cbn [mbind res_bind]. rewrite (cons_middle 0), (app_assoc _ [0]).
  rewrite copy_mid by (first [rewrite !length_app, length_replicate, Hzs; cbn [length]; lia|rewrite Hasn; reflexivity|rewrite Hasn, length_replicate; unfold i in ER'; lia]). cbn [mbind res_bind]. rewrite Hasn, drop_replicate, (app_assoc _ asn_array).
  rewrite copy_mid by (first [rewrite !length_app, length_replicate, Hzs, Hasn; cbn [length]; lia|reflexivity|rewrite length_replicate; unfold i in ER'; lia]). cbn [mbind res_bind]. rewrite drop_replicate. set (rest := replicate (R' - 18 - length data) 0).
  assert (((((zs ++ [MD_ENCRYPTED_BYTE]) ++ replicate i 255) ++ [0]) ++ asn_array) ++ data ++ rest = zs ++ signature_block k data ++ rest) as -> by (unfold signature_block; fold i; rewrite <- !app_assoc; cbn [app]; rewrite <- !app_assoc; cbn [app]; rewrite <- ?app_assoc; reflexivity).
  destruct (block_register n k (signature_block k data) rest) as (b & Econv & Hb & Eb & _); [lia|exact Hlb|apply Forall_app_2; [exact HFb|apply local_bytes]|unfold rest; rewrite !length_app, !length_replicate, Hlb; unfold i in ER'; lia|]. fold zs in Econv. rewrite Econv. cbn [mbind res_bind]. fold m in Eb.
  destruct (private_power dm n st out (to_units b) E D P Q U N DP DQ HK Hst Hout Hb HDP HDQ EDP EDQ) as (st' & x & -> & Hst' & Hx & _ & Hsign). cbn [mbind res_bind Z.ltb Z.compare mret res_ret]. exists st', x. split; [reflexivity|]. split; [exact Hst'|]. split; [exact Hx|].
  rewrite Hsign, Eb. apply Z.mod_small, Hm'.
Qed.

Lemma rsa_public_decrypt_ok n st outbuf s E D P Q U N junk data : rsa_key dm n E D P Q U N -> smith_wf st -> reg n s -> length junk = MAX_UNIT_PRECISION -> Forall (inU 16) junk ->
  let k := blocksize_of (valp n N) in (36 <= k)%nat -> length data = 16%nat -> (16 <= length outbuf)%nat -> Forall (inU 8) data -> valp n s < valp n N -> valp n s ^ valp n E mod valp n N = be_word (signature_block k data) ->
  exists st', rsa_public_decrypt dm n st outbuf s E N junk = Ok (16, st', data ++ drop 16 outbuf) /\ smith_wf st'.
Proof.
  intros HK Hst Hs Hlj HFj k Hk36 Hdata Hob HFd Hlt Em. destruct (key_bounds _ _ _ _ _ _ _ _ HK) as (HPQ & HNr & _). pose proof (key_prec _ _ _ _ _ _ _ _ HK) as Hn. destruct (key_regs _ _ _ _ _ _ _ _ HK) as (_ & _ & _ & _ & _ & HN).
  destruct (blocksize_ok n (valp n N) ltac:(lia) ltac:(lia)) as (Hk & Ek & Hkv). fold k in Hk, Ek, Hkv. assert (n <= 130)%nat as Hn130 by (unfold MAX_UNIT_PRECISION in Hn; lia). assert (length asn_array = 18%nat) as Hasn by reflexivity.
  destruct (signature_block_ok k data ltac:(lia) HFd) as [Hlb HFb]. pose proof (be_word_le _ HFb) as Hm. rewrite Hlb in Hm. set (body := signature_block k data) in *. set (m := be_word body) in *.
  unfold rsa_public_decrypt. assert (reg n junk) as Hj by (split; [lia|exact HFj]). destruct (public_power dm n st junk s E D P Q U N HK Hst Hj Hs Hlt) as (st' & -> & Hst'). cbn [mbind res_bind Z.ltb Z.compare]. rewrite Em.
  destruct (decrypted_block n k junk m body Hn ltac:(lia) Hlj HFj Hlb HFb eq_refl ltac:(lia)) as (rest & -> & Hlen). cbn [mbind res_bind]. rewrite countbytes_ok by (assumption || lia). cbn [mbind res_bind]. fold k. rewrite units2bytes_nat, Z.add_simpl_r.
  replace (Z.of_nat (2 * n) - Z.of_nat k) with (Z.of_nat (2 * n - k)) by lia. rewrite (proj2 (Z.ltb_ge _ 0)) by lia. rewrite Nat2Z.id. pose proof (zeros_loop_ok (2 * n - k) [] (body ++ rest) 0 eq_refl) as Ez. cbn [app] in Ez. rewrite Ez. cbn [mbind res_bind negb].
  set (zs := replicate (2 * n - k) 0) in *. assert (length zs = (2 * n - k)%nat) as Hzs by apply length_replicate. set (pads := replicate (k - 20 - length data) 255) in *. assert (length pads = (k - 36)%nat) as Hpads by (unfold pads; rewrite length_replicate; lia). set (temp := zs ++ body ++ rest) in *.
  assert (temp = (zs ++ [MD_ENCRYPTED_BYTE]) ++ pads ++ 0 :: asn_array ++ data ++ rest) as E1 by (unfold temp, body, signature_block; fold pads; rewrite <- !app_assoc; cbn [app]; rewrite <- !app_assoc; cbn [app]; rewrite <- !app_assoc; reflexivity).
  assert (temp = (((zs ++ [MD_ENCRYPTED_BYTE]) ++ pads ++ [0]) ++ asn_array) ++ data ++ rest) as E2 by (rewrite E1, <- !app_assoc; cbn [app]; rewrite <- ?app_assoc; reflexivity).
  assert (temp = ((zs ++ [MD_ENCRYPTED_BYTE]) ++ pads ++ 0 :: removelast asn_array) ++ 0x10 :: data ++ rest) as E3 by (rewrite E1; unfold asn_array; cbn [removelast]; rewrite <- !app_assoc; cbn [app]; rewrite <- ?app_assoc; reflexivity).
  assert (exists y, aget temp (Z.of_nat (2 * n) - 1) = Ok y) as (y & ->). { destruct (lookup_lt_is_Some_2 temp (2 * n - 1)) as [y Hy]; [rewrite Hlen; unfold MAX_BYTE_PRECISION; lia|]. exists y. apply aget_ok. split; [lia|]. replace (Z.to_nat (Z.of_nat (2 * n) - 1)) with (2 * n - 1)%nat by lia. exact Hy. }
  assert (aget temp (Z.of_nat (2 * n) - 17) = Ok 0x10) as -> by (rewrite E3; apply aget_mid; rewrite !length_app; cbn [length removelast asn_array]; rewrite Hzs, Hpads; lia). cbn [mbind res_bind]. change (0x10 =? 0xff) with false. cbv iota.
  assert ((if y =? MD_ENCRYPTED_BYTE then mret false else mret false : res bool) = Ok false) as -> by (destruct (y =? MD_ENCRYPTED_BYTE); reflexivity). cbn [mbind res_bind].
  assert (aget temp (Z.of_nat (2 * n - k)) = Ok MD_ENCRYPTED_BYTE) as -> by (unfold temp, body, signature_block; cbn [app]; apply aget_mid; rewrite Hzs; reflexivity). cbn [mbind res_bind Z.eqb Pos.eqb negb MD_ENCRYPTED_BYTE].
  rewrite Hlen. assert (skip_forward (S MAX_BYTE_PRECISION) temp (Z.eqb 255) (Z.of_nat (2 * n - k) + 1) = Ok (Z.of_nat (length ((zs ++ [MD_ENCRYPTED_BYTE]) ++ pads)) + 1)) as ->.
  { rewrite E1. apply (skip_forward_ok (Z.eqb 255) 0); [reflexivity|apply Forall_replicate; reflexivity|rewrite Hpads; unfold MAX_BYTE_PRECISION, MAX_UNIT_PRECISION; lia|rewrite length_app, Hzs; cbn [length]; lia]. }
  cbn [mbind res_bind]. rewrite Z.add_simpl_r. set (front := Z.of_nat (length ((zs ++ [MD_ENCRYPTED_BYTE]) ++ pads))). assert (front = Z.of_nat (2 * n - 35)) as Efront by (unfold front; rewrite !length_app, Hzs, Hpads; cbn [length]; lia).
  assert (aget temp front = Ok 0) as -> by (rewrite E1, app_assoc; apply aget_mid; reflexivity). cbn [mbind res_bind Z.eqb negb].
  assert (compare_bytes temp (front + 1) asn_array = Ok true) as -> by (rewrite E2, <- (app_assoc _ asn_array); apply compare_bytes_ok; unfold front; rewrite !length_app; cbn [length]; lia). cbn [mbind res_bind mret res_ret Z.ltb Z.compare].
  rewrite Hasn, (proj2 (Z.ltb_ge _ _)) by lia. rewrite (copy_data_ok outbuf temp _ _ (((zs ++ [MD_ENCRYPTED_BYTE]) ++ pads ++ [0]) ++ asn_array) data rest E2) by (rewrite ?Hdata; first [lia|rewrite !length_app, Hzs, Hpads, Hasn; cbn [length]; lia]). cbn [mbind res_bind mret res_ret].
  rewrite Hdata. exists st'. auto.
Qed.
End Signatures.

(** C3: For every valid key whose block holds 36 bytes or more, rsa_private_encrypt of a
    digest of 16 bytes succeeds and rsa_public_decrypt of its result returns 16 and exactly the
    digest, even where the digest ends in the bytes that mark the old format; with a shorter
    block it returns -4 and writes nothing. *)
Theorem rsa_signature dm n st st2 out outbuf junk data E D P Q U N : rsa_key dm n E D P Q U N -> smith_wf st -> smith_wf st2 -> reg n out ->
  length junk = MAX_UNIT_PRECISION -> Forall (inU 16) junk -> Forall (inU 8) data -> length data = 16%nat -> (16 <= length outbuf)%nat ->
  if (blocksize_of (valp n N) <? 36)%nat then rsa_private_encrypt dm n st out data 16 E D P Q U N = Ok (-4, st, out)
  else exists st' s, rsa_private_encrypt dm n st out data 16 E D P Q U N = Ok (0, st', s) /\ smith_wf st' /\
    exists st'', rsa_public_decrypt dm n st2 outbuf s E N junk = Ok (16, st'', data ++ drop 16 outbuf) /\ smith_wf st''.
Proof.
  intros HK Hst Hst2 Hout Hlj HFj HFd Hdata Hob. pose proof (rsa_private_encrypt_ok dm n st out data E D P Q U N HK Hst Hout HFd ltac:(lia)) as H. cbv zeta in H. rewrite Hdata in H. change (16 + 20)%nat with 36%nat in H. change (Z.of_nat 16) with 16 in H.
  destruct (Nat.ltb_spec (blocksize_of (valp n N)) 36) as [Hs|Hs]; [exact H|]. destruct H as (_ & st' & x & E1 & Hst' & Hx & Hm). exists st', (put n out x). split; [exact E1|]. split; [exact Hst'|]. destruct (key_bounds _ _ _ _ _ _ _ _ HK) as (_ & HNr & _).
  assert (valp n (put n out x) = x) as Ex by (rewrite valp_put; apply Z.mod_small; lia). apply (rsa_public_decrypt_ok dm n st2 outbuf (put n out x) E D P Q U N junk data HK Hst2 (put_reg n out x Hout) Hlj HFj Hs Hdata Hob HFd); rewrite Ex; [lia|exact Hm].
Qed.

(** * Two concrete keys *)

Lemma units_reg n x : reg n (units n x) /\ valp n (units n x) = x mod radix n.
Proof. split; [split; [rewrite length_units; lia|apply units_inU]|]. unfold valp. rewrite take_ge by (rewrite length_units; lia). apply mval_units. Qed.

Definition key_check (n : nat) (p q e d u : Z) : bool :=
  (2 ^ 32 <=? p) && (p <? q) && (p * q <? radix n) && (q * q <=? radix n) && (0 <? e) && (e <? p * q) && (0 <=? d) && (d <? radix n) &&
  ((e * d - 1) mod (p - 1) =? 0) && ((e * d - 1) mod (q - 1) =? 0) && (0 <=? u) && (u <? q) && ((u * p) mod q =? 1).

Lemma key_check_ok n p q e d u : (0 < n <= MAX_UNIT_PRECISION)%nat -> prime p -> prime q -> key_check n p q e d u = true ->
  rsa_key LP64 n (units n e) (units n d) (units n p) (units n q) (units n u) (units n (p * q)).
Proof.
  intros Hn Hp Hq H. unfold key_check in H. repeat (apply andb_prop in H as [H ?]). repeat match goal with H : (_ <? _) = true |- _ => apply Z.ltb_lt in H | H : (_ <=? _) = true |- _ => apply Z.leb_le in H | H : (_ =? _) = true |- _ => apply Z.eqb_eq in H end.
  change (2 ^ 32) with 4294967296 in *. assert (q < radix n) as Hqr by nia. assert (forall x, 0 <= x < radix n -> valp n (units n x) = x) as Ev by (intros x Hx; rewrite (proj2 (units_reg n x)); apply Z.mod_small, Hx).
  split; rewrite ?Ev by nia; try (left; reflexivity).
  - exact Hn.
  - repeat (split; [apply units_reg|]). apply units_reg.
  - change (2 ^ 32) with 4294967296. auto with lia.
  - reflexivity.
  - split; [lia|]. split; apply Z.mod_divide; (assumption || lia).
  - auto.
  - assumption.
  - split; [left; reflexivity|]. split; left; reflexivity.
Qed.

Lemma small_key : rsa_key LP64 5 (units 5 17) (units 5 132394139578609) (units 5 8589279233) (units 5 17172791297) (units 5 12402790021) (units 5 (8589279233 * 17172791297)).
Proof. apply key_check_ok; [unfold MAX_UNIT_PRECISION; lia|exact (proth_check 65531 17 3 ltac:(vm_compute; reflexivity))|exact (proth_check 65509 18 3 ltac:(vm_compute; reflexivity))|vm_compute; reflexivity]. Qed.

Definition p150 : Z := 1427247692705959881013555714123753856918618113.
Definition q151 : Z := 2854495385411919761479468031962080697695338497.
Lemma signing_key : rsa_key LP64 19 (units 19 17) (units 19 859017908512152738336917907711671280279576831108944672291053170929) (units 19 p150) (units 19 q151) (units 19 2178210358276883017249675163012502950597681180) (units 19 (p150 * q151)).
Proof.
  apply key_check_ok; [unfold MAX_UNIT_PRECISION; lia|exact (proth_check 1180591620717411303387 80 5 ltac:(vm_compute; reflexivity))|exact (proth_check 2361183241434822606321 80 5 ltac:(vm_compute; reflexivity))|vm_compute; reflexivity].
Qed.

Lemma rsa_session_key_witness : let rnd := fun i => Z.of_nat i mod 256 in let z := replicate MAX_UNIT_PRECISION 0 in let data := [3; 1; 4] in let N := units 5 (8589279233 * 17172791297) in
  (forall i, 0 <= rnd i < 256) /\ (forall pos, exists k, rnd (pos + k)%nat <> 0) /\ rsa_key LP64 5 (units 5 17) (units 5 132394139578609) (units 5 8589279233) (units 5 17172791297) (units 5 12402790021) N /\ smith_wf init_smith /\
  reg 5 z /\ length z = MAX_UNIT_PRECISION /\ Forall (inU 16) z /\ Forall (inU 8) data /\ 0 < Z.of_nat (length data) < 32768 /\ (length data <= length data)%nat /\ (blocksize_of (valp 5 N) <? length data + 3)%nat = false /\
  exists F, forall fuel, (F <= fuel)%nat -> exists st' c pos', rsa_public_encrypt LP64 rnd fuel 5 init_smith z data 3 (units 5 17) N 0 = Ok (0, st', c, pos').
Proof.
  intros rnd z data N. assert (forall i, 0 <= rnd i < 256) as H1 by (intros i; apply Z.mod_pos_bound; lia).
  assert (forall pos, exists k, rnd (pos + k)%nat <> 0) as H2. { intros pos. destruct (Z.eq_dec (rnd pos) 0) as [E|E]; [exists 1%nat|exists 0%nat; rewrite Nat.add_0_r; exact E]. unfold rnd in *. rewrite Nat2Z.inj_add, <- Zplus_mod_idemp_l, E. discriminate. }
  assert (reg 5 z) as H3 by (apply local_reg; unfold MAX_UNIT_PRECISION; lia). assert (length z = MAX_UNIT_PRECISION) as H4 by apply length_replicate. assert (Forall (inU 16) z) as H5 by apply H3. assert (Forall (inU 8) data) as H6 by by_eval. assert (0 < Z.of_nat (length data) < 32768) as H7 by (cbn; lia).
  assert (length data <= length data)%nat as H8 by lia. assert ((blocksize_of (valp 5 N) <? length data + 3)%nat = false) as H9 by (vm_compute; reflexivity).
  split; [exact H1|]. split; [exact H2|]. split; [exact small_key|]. split; [exact init_smith_wf|]. split; [exact H3|]. split; [exact H4|]. split; [exact H5|]. split; [exact H6|]. split; [exact H7|]. split; [exact H8|]. split; [exact H9|].
  destruct (rsa_session_key LP64 rnd 5 init_smith init_smith z data z data _ _ _ _ _ _ 0%nat H1 H2 small_key init_smith_wf init_smith_wf H3 H4 H5 H6 H7 H8) as (F & HF). exists F. intros fuel Hf. specialize (HF fuel Hf). fold N in HF. rewrite H9 in HF.
  destruct HF as (st' & c & pos' & E & _). exists st', c, pos'. exact E.
Defined.

Lemma rsa_signature_witness : let z := replicate MAX_UNIT_PRECISION 0 in let data := [0; 1; 2; 3; 4; 5; 6; 7; 8; 9; 10; 11; 12; 13; 14; 1] in let N := units 19 (p150 * q151) in let D := units 19 859017908512152738336917907711671280279576831108944672291053170929 in
  let U := units 19 2178210358276883017249675163012502950597681180 in rsa_key LP64 19 (units 19 17) D (units 19 p150) (units 19 q151) U N /\ smith_wf init_smith /\
  reg 19 z /\ length z = MAX_UNIT_PRECISION /\ Forall (inU 16) z /\ Forall (inU 8) data /\ length data = 16%nat /\ (16 <= length data)%nat /\ (blocksize_of (valp 19 N) <? 36)%nat = false /\
  exists st' s, rsa_private_encrypt LP64 19 init_smith z data 16 (units 19 17) D (units 19 p150) (units 19 q151) U N = Ok (0, st', s).
Proof.
  intros z data N D U. assert (reg 19 z) as H3 by (apply local_reg; unfold MAX_UNIT_PRECISION; lia). assert (length z = MAX_UNIT_PRECISION) as H4 by apply length_replicate. assert (Forall (inU 16) z) as H5 by apply H3. assert (Forall (inU 8) data) as H6 by by_eval. assert (length data = 16%nat) as H7 by reflexivity.
  assert (16 <= length data)%nat as H8 by (cbn; lia). assert ((blocksize_of (valp 19 N) <? 36)%nat = false) as H9 by (vm_compute; reflexivity).
  split; [exact signing_key|]. split; [exact init_smith_wf|]. split; [exact H3|]. split; [exact H4|]. split; [exact H5|]. split; [exact H6|]. split; [exact H7|]. split; [exact H8|]. split; [exact H9|].
  pose proof (rsa_signature LP64 19 init_smith init_smith z data z data _ _ _ _ _ _ signing_key init_smith_wf init_smith_wf H3 H4 H5 H6 H7 H8) as H. fold N D U in H. rewrite H9 in H. destruct H as (st' & s & E & _). exists st', s. exact E.
Defined.

(** The nonzero ones among the next [n] random bytes. *)
Definition nonzero_bytes (cryptRandByte : nat -> Z) (pos n : nat) : list Z := filter (fun x => x <> 0) (cryptRandByte <$> seq pos n).

(** The loop that pads a block consumes random bytes until it has as many nonzero ones as it
    wants: it ends within the turns given exactly when so many of the next bytes are nonzero,
    and then the padding is these bytes in their order and nothing else has changed. *)
Theorem padding_progress cryptRandByte fuel : forall (i : nat) pre post pos, (i <= length post)%nat ->
  match pad_loop cryptRandByte fuel (pre ++ post) (Z.of_nat (length pre)) (Z.of_nat i) pos with
  | Ok (temp, p, pos') => (i <= length (nonzero_bytes cryptRandByte pos fuel))%nat /\ temp = pre ++ take i (nonzero_bytes cryptRandByte pos fuel) ++ drop i post /\ p = Z.of_nat (length pre + i) /\
      (pos <= pos' <= pos + fuel)%nat
  | Err e => e = OutOfFuel /\ (length (nonzero_bytes cryptRandByte pos fuel) < i)%nat
  end.
Proof.
  induction fuel as [|fuel IH]; intros i pre post pos Hl; (destruct i as [|i]; [cbn [pad_loop Z.of_nat Z.eqb]; rewrite take_0, drop_0, Nat.add_0_r; split; [lia|]; split; [reflexivity|]; split; [reflexivity|lia]|]).
  - cbn [pad_loop]. rewrite (proj2 (Z.eqb_neq (Z.of_nat (S i)) 0)) by lia. split; [reflexivity|cbn; lia].
  - cbn [pad_loop]. rewrite (proj2 (Z.eqb_neq (Z.of_nat (S i)) 0)) by lia. destruct post as [|x post]; [cbn in Hl; lia|]. cbn [length] in Hl. rewrite aset_mid by reflexivity. cbn [mbind res_bind]. unfold nonzero_bytes in *. cbn [seq fmap list_fmap]. rewrite filter_cons.
    destruct (Z.eqb_spec (cryptRandByte pos) 0) as [E|E]; case_decide as Hd; try contradiction.
    + specialize (IH (S i) pre (cryptRandByte pos :: post) (S pos) ltac:(cbn [length]; lia)). destruct (pad_loop cryptRandByte fuel _ _ _ _) as [[[temp p] pos']|e]; [|exact IH]. destruct IH as (H1 & H2 & H3 & H4). cbn [drop] in *. split; [exact H1|]. split; [exact H2|]. split; [exact H3|lia].
    + specialize (IH i (pre ++ [cryptRandByte pos]) post (S pos) ltac:(lia)). rewrite <- app_assoc, length_app in IH. cbn [app length] in IH. replace (Z.of_nat (length pre + 1)) with (Z.of_nat (length pre) + 1) in IH by lia. replace (Z.of_nat (S i) - 1) with (Z.of_nat i) by lia.
      destruct (pad_loop cryptRandByte fuel _ _ _ _) as [[[temp p] pos']|e]; [|destruct IH as [H1 H2]; split; [exact H1|cbn [length]; lia]]. destruct IH as (H1 & H2 & H3 & H4). cbn [length take drop]. split; [lia|]. split; [rewrite H2, <- app_assoc; reflexivity|]. split; [lia|lia].
Qed.

(** The scan for the zero byte that ends the padding is not bounded: on a number that
    decrypts to a block without a zero byte, and with no zero byte above it in the scratch
    array, rsa_private_decrypt reads beyond the array. *)
Theorem rsa_decrypt_overrun : let N := 8589279233 * 17172791297 in let c := units 5 (Zpow_mod 0x02ffffffffffffff 17 N) in
  rsa_private_decrypt LP64 5 init_smith (replicate 8 0) c (units 5 17) (units 5 132394139578609) (units 5 8589279233) (units 5 17172791297) (units 5 12402790021) (units 5 N) (replicate MAX_UNIT_PRECISION 0xffff) = Err OutOfBounds.
Proof. vm_compute. reflexivity. Qed.

Lemma padding_progress_witness : let rnd := fun i => Z.of_nat i mod 2 * 7 in (2 <= length [0; 0; 0])%nat /\
  okp (pad_loop rnd 4 ([2] ++ [0; 0; 0]) (Z.of_nat (length [2])) (Z.of_nat 2) 0) (fun r => r.1.1 = [2; 7; 7; 0]).
Proof. intros rnd. assert (2 <= length [0; 0; 0])%nat as Hl by (cbn; lia). split; [exact Hl|]. pose proof (padding_progress rnd 4 2 [2] [0; 0; 0] 0 Hl) as H. vm_compute in H |- *. exact (proj1 (proj2 H)). Defined.
