(* ===== verification/RsaKeygen.v ===== *)
(** The generation of RSA keys (src/mibench/security/pgp/src/rsagen.c): the components of a key from its two primes. *)
From stdpp Require Import base list numbers option tactics.
From Stdlib Require Import ZArith Znumtheory Lia.
From S2P Require Import Prelude NumTheory Mpi MpiDiv MpiSmith MpiExp MpiEuclid MpiIo MpiSieve MpiPrime Rsa.

(** * The code *)

(** [do { mp_inc(e); mp_inc(e); mp_gcd(ptemp,e,phi); } while (testne(ptemp,1));] *)
Fixpoint exponent_loop (fuel prec : nat) (e ptemp phi : list Z) : res (list Z * list Z) :=
  match fuel with
  | O => Err OutOfFuel
  | S fuel =>
      '(e, _) ← mp_inc prec e; '(e, _) ← mp_inc prec e; ptemp ← mp_gcd prec ptemp e phi;
      b ← testne prec ptemp 1; if b : bool then exponent_loop fuel prec e ptemp phi else mret (e, ptemp)
  end.

(** The first candidate less two. *)
Definition first_candidate (prec : nat) (e : list Z) (ebits : Z) : res (list Z) :=
  e ← mp_init prec e 0;
  e ← mp_setbit e (ebits - 1);
  low ← aget e 0; e ← aset e 0 (Z.lor low 1);
  '(e, _) ← mp_dec prec e; '(e, _) ← mp_dec prec e; mret e.

(** The registers n, e, d and u; d, u and n serve as scratchpads for ptemp, qtemp and phi. *)
Definition derive_rsakeys (fuel prec : nat) (n e d p q u : list Z) (ebits : Z) : res (list Z * list Z * list Z * list Z) :=
  c ← mp_compare prec p q;
  let '(p, q) := if 0 <=? c then (q, p) else (p, q) in
  d ← mp_move prec d p; u ← mp_move prec u q;
  '(d, _) ← mp_dec prec d; '(u, _) ← mp_dec prec u;
  n ← mp_mult prec n d u;
  F ← mp_gcd prec (replicate MAX_UNIT_PRECISION 0) d u;
  '(_, d, u) ← mp_udiv prec d u n F;
  F ← mp_move prec F u;
  bits ← countbits prec n;
  let ebits := Z.min ebits (bits - 1) in
  let ebits := if ebits =? 0 then 5 else ebits in
  let ebits := Z.max ebits 2 in
  e ← first_candidate prec e ebits;
  '(e, d) ← exponent_loop fuel prec e d n;
  d ← mp_inv prec d e F;
  u ← mp_inv prec u p q;
  n ← mp_mult prec n p q;
  mret (n, e, d, u).

Example derive_run : let z := units 5 0 in
  ('(n, e, d, u) ← derive_rsakeys 100 5 z z z (units 5 17172791297) (units 5 8589279233) z 5; mret (valp 5 n, valp 5 e, valp 5 d, valp 5 u)) = Ok (8589279233 * 17172791297, 17, 132394139578609, 12402790021).
Proof. vm_compute. reflexivity. Qed.

(** * Correctness *)

Section Derivation.
Implicit Types (p q e x y : Z).

Lemma prime_minus_even p : prime p -> 2 < p -> (2 | p - 1).
Proof.
  intros Hp H2. destruct (Z.Even_or_Odd p) as [[k Hk]|[k Hk]]; [|exists k; lia]. pose proof (prime_div_prime 2 p prime_2 Hp ltac:(exists k; lia)). lia.
Qed.

(** The quotient of phi by the greatest common divisor: a multiple of both factors that has all their prime divisors. *)
Lemma common_multiple x y : 0 < x -> 0 < y -> let F := x * y / Z.gcd x y in (x | F) /\ (y | F) /\ (F | x * y) /\ 0 < F.
Proof.
  intros Hx Hy F. assert (0 < Z.gcd x y) as Hg by (pose proof (Z.gcd_nonneg x y); assert (Z.gcd x y <> 0) by (intros E; apply Z.gcd_eq_0 in E; lia); lia).
  destruct (Z.gcd_divide_l x y) as [a Ha]. destruct (Z.gcd_divide_r x y) as [b Hb]. set (g := Z.gcd x y) in *. assert (F = a * y) as E1 by (unfold F; rewrite Ha at 1; replace (a * g * y) with (a * y * g) by lia; apply Z.div_mul; lia).
  assert (F = b * x) as E2 by (unfold F; rewrite Hb at 1; replace (x * (b * g)) with (b * x * g) by lia; apply Z.div_mul; lia). split; [exists b; exact E2|]. split; [exists a; exact E1|]. split; [exists g; rewrite E1, Ha at 1; lia|]. nia.
Qed.

Lemma coprime_pred x y F : 0 < x -> 0 < y -> (x | F) -> (y | F) -> 1 < F -> Z.gcd (F - 1) (x * y) = 1.
Proof.
  intros Hx Hy Hxf Hyf HF. pose proof (Z.gcd_nonneg (F - 1) (x * y)) as H0. destruct (Z.eq_dec (Z.gcd (F - 1) (x * y)) 1) as [|Hne]; [assumption|]. exfalso.
  assert (Z.gcd (F - 1) (x * y) <> 0) as Hnz by (intros E; apply Z.gcd_eq_0 in E; nia). destruct (prime_divisor (Z.gcd (F - 1) (x * y)) ltac:(lia)) as (r & Hr & Hd).
  pose proof (Z.divide_trans _ _ _ Hd (Z.gcd_divide_l _ _)) as H1. pose proof (Z.divide_trans _ _ _ Hd (Z.gcd_divide_r _ _)) as H2. assert ((r | F)) as H3 by (apply prime_mult in H2 as [H2|H2]; [exact (Z.divide_trans _ _ _ H2 Hxf)|exact (Z.divide_trans _ _ _ H2 Hyf)|exact Hr]).
  pose proof (Z.divide_sub_r _ _ _ H3 H1) as H4. replace (F - (F - 1)) with 1 in H4 by lia. pose proof (prime_pos r Hr). apply Z.divide_1_r_nonneg in H4; lia.
Qed.

Lemma gcd_divisor_1 a b c : Z.gcd a b = 1 -> (c | b) -> Z.gcd a c = 1.
Proof. intros H Hc. apply Zgcd_1_rel_prime. apply Zgcd_1_rel_prime in H. apply rel_prime_sym, (rel_prime_div b a c); [apply rel_prime_sym, H|exact Hc]. Qed.

(** The search for the exponent. *)
Lemma exponent_loop_ok n r s phi : (0 < n <= MAX_UNIT_PRECISION)%nat -> reg n r -> reg n s -> reg n phi ->
  forall (k : nat) x, 0 <= x + 2 -> x + 2 + 2 * Z.of_nat k < radix n -> Z.gcd (x + 2 + 2 * Z.of_nat k) (valp n phi) = 1 ->
  exists e, x + 2 <= e <= x + 2 + 2 * Z.of_nat k /\ (2 | e - x) /\ Z.gcd e (valp n phi) = 1 /\ (forall j, 0 <= j -> x + 2 + 2 * j < e -> Z.gcd (x + 2 + 2 * j) (valp n phi) <> 1) /\
    forall fuel s', (k < fuel)%nat -> s' = s \/ (exists y, s' = put n s y) -> exponent_loop fuel n (put n r x) s' phi = Ok (put n r e, put n s 1).
Proof.
  intros Hn Hr Hs Hphi. assert (1 < radix n) as HR by (destruct n as [|n]; [lia|rewrite radix_S; pose proof (radix_pos n); lia]).
  assert (forall x fuel s', 0 <= x + 2 < radix n -> s' = s \/ (exists y, s' = put n s y) -> exponent_loop (S fuel) n (put n r x) s' phi =
    if Z.gcd (x + 2) (valp n phi) =? 1 then Ok (put n r (x + 2), put n s 1) else exponent_loop fuel n (put n r (x + 2)) (put n s (Z.gcd (x + 2) (valp n phi))) phi) as Hstep.
  { intros x fuel s' Hx Hs'. assert (reg n s' /\ forall y, put n s' y = put n s y) as [Hrs Hps] by (destruct Hs' as [->|[y ->]]; [split; [exact Hs|reflexivity]|split; [apply put_reg, Hs|intros; apply put_put]]).
    assert (forall y, mp_inc n (put n r y) = Ok (put n r (y + 1), radix n <=? (y mod radix n + 1))) as E by (intros y; rewrite mp_inc_ok by (lia || apply put_reg, Hr); rewrite put_put, valp_put; do 2 f_equal; apply put_ext; rewrite Zplus_mod_idemp_l; reflexivity).
    cbn [exponent_loop]. rewrite !E. cbn [mbind res_bind]. rewrite E. cbn [mbind res_bind]. replace (x + 1 + 1) with (x + 2) by lia. rewrite mp_gcd_ok by (try apply put_reg; assumption). cbn [mbind res_bind]. rewrite Hps, valp_put, (Z.mod_small (x + 2)) by lia.
    pose proof (valp_range n phi Hphi) as Hpr. assert (0 <= Z.gcd (x + 2) (valp n phi) < radix n) as Hg.
    { split; [apply Z.gcd_nonneg|]. destruct (Z.eq_dec (x + 2) 0) as [->|Hx0]; [rewrite Z.gcd_0_l, Z.abs_eq; lia|]. pose proof (Z.divide_pos_le (Z.gcd (x + 2) (valp n phi)) (x + 2) ltac:(lia) (Z.gcd_divide_l _ _)). lia. }
    rewrite testne_ok by (try apply put_reg; (assumption || lia || (unfold inU; lia))). cbn [mbind res_bind]. rewrite valp_put, Z.mod_small by exact Hg. destruct (Z.eqb_spec (Z.gcd (x + 2) (valp n phi)) 1) as [->|]; reflexivity. }
  induction k as [|k IH]; intros x Hx Hlt Hend.
  - rewrite Z.add_0_r in *. exists (x + 2). split; [lia|]. split; [exists 1; lia|]. split; [exact Hend|]. split; [lia|]. intros fuel s' Hf Hs'. destruct fuel as [|fuel]; [lia|]. rewrite Hstep by (exact Hs' || lia). rewrite Hend. reflexivity.
  - destruct (Z.eq_dec (Z.gcd (x + 2) (valp n phi)) 1) as [E|E].
    + exists (x + 2). split; [lia|]. split; [exists 1; lia|]. split; [exact E|]. split; [lia|]. intros fuel s' Hf Hs'. destruct fuel as [|fuel]; [lia|]. rewrite Hstep by (exact Hs' || lia). rewrite E. reflexivity.
    + destruct (IH (x + 2)) as (e & He & Heven & Hg & Hmin & Hloop); [lia|lia|replace (x + 2 + 2 + 2 * Z.of_nat k) with (x + 2 + 2 * Z.of_nat (S k)) by lia; exact Hend|]. exists e. split; [lia|]. split; [destruct Heven as [j Hj]; exists (j + 1); lia|]. split; [exact Hg|]. split.
      * intros j Hj Hje. destruct (Z.eq_dec j 0) as [->|Hj0]; [rewrite Z.mul_0_r, Z.add_0_r; exact E|]. specialize (Hmin (j - 1) ltac:(lia) ltac:(lia)). replace (x + 2 + 2 + 2 * (j - 1)) with (x + 2 + 2 * j) in Hmin by lia. exact Hmin.
      * intros fuel s' Hf Hs'. destruct fuel as [|fuel]; [lia|]. rewrite Hstep by (exact Hs' || lia). rewrite (proj2 (Z.eqb_neq _ 1) E). apply Hloop; [lia|]. right. eexists. reflexivity.
Qed.

Lemma low_or1 n r : (0 < n)%nat -> reg n r -> (2 | valp n r) -> exists low, aget r 0 = Ok low /\ aset r 0 (Z.lor low 1) = Ok (put n r (valp n r + 1)).
Proof.
  intros Hn Hr [h Hh]. destruct n as [|n]; [lia|]. apply reg_cons in Hr as (a & s & -> & Ha & Hs). rewrite inU16 in Ha. exists a. split; [reflexivity|]. rewrite valp_cons in *. change (aset (a :: s) 0 (Z.lor a 1)) with (Ok (Z.lor a 1 :: s)). f_equal. rewrite put_cons.
  assert (exists b, 0 <= b /\ a = 2 * b) as (b & Hb & ->) by (exists (h - 32768 * valp n s); lia). assert (Z.lor (2 * b) 1 = 2 * b + 1) as -> by (destruct b; [reflexivity|reflexivity|lia]).
  replace (2 * b + BASE * valp n s + 1) with (2 * b + 1 + valp n s * BASE) by lia. rewrite Z_mod_plus_full, Z.div_add, Z.mod_small, Z.div_small by lia. f_equal. rewrite Z.add_0_l. symmetry. apply put_valp, Hs.
Qed.

(** The number of bits of the first candidate. *)
Definition exponent_bits (ebits bits : Z) : Z := Z.max (if Z.min ebits (bits - 1) =? 0 then 5 else Z.min ebits (bits - 1)) 2.

Lemma exponent_bits_range ebits bits : ebits <= 32 -> 2 <= exponent_bits ebits bits <= 32.
Proof. intros H. unfold exponent_bits. destruct (Z.eqb_spec (Z.min ebits (bits - 1)) 0); lia. Qed.

(** The exponent that the search finds: the least odd one from the first candidate on. *)
Definition least_exponent (ebits p q e : Z) : Prop :=
  let e0 := 2 ^ (exponent_bits ebits (Z.log2 ((p - 1) * (q - 1)) + 1) - 1) + 1 in
  e0 <= e /\ e mod 2 = 1 /\ Z.gcd e ((p - 1) * (q - 1)) = 1 /\ forall x, e0 <= x < e -> x mod 2 = 1 -> Z.gcd x ((p - 1) * (q - 1)) <> 1.

Lemma first_exponent n (r : list Z) (eb : Z) : (0 < n)%nat -> reg n r -> 2 <= eb <= 32 -> 2 ^ 32 < radix n ->
  first_candidate n r eb = Ok (put n r (2 ^ (eb - 1) - 1)).
Proof.
  intros Hn He Heb HR. unfold first_candidate. rewrite mp_init_ok by (exact Hn || apply He || (unfold inU; lia)). cbn [mbind res_bind]. assert (2 ^ (eb - 1) = 2 * 2 ^ (eb - 2)) as E2 by (rewrite <- Z.pow_succ_r by lia; f_equal; lia). assert (0 < 2 ^ (eb - 2)) as Hpos by (apply Z.pow_pos_nonneg; lia).
  pose proof (Z.pow_le_mono_r 2 (eb - 1) 31 ltac:(lia) ltac:(lia)) as H31. change (2 ^ 31) with 2147483648 in H31. change (2 ^ 32) with 4294967296 in HR. assert (eb - 1 < 16 * Z.of_nat n) as Hb by (apply (Z.pow_lt_mono_r_iff 2); [lia|lia|]; rewrite <- radix_pow; lia).
  rewrite (setbit_put n) by first [exact He|lia|apply Z.bits_0]. cbn [mbind res_bind]. rewrite Z.add_0_l. set (h := 2 ^ (eb - 1)) in *. assert (valp n (put n r h) = h) as Ev by (rewrite valp_put; apply Z.mod_small; lia).
  destruct (low_or1 n (put n r h) Hn (put_reg n r h He) ltac:(rewrite Ev; exists (2 ^ (eb - 2)); lia)) as (low & -> & E1). cbn [mbind res_bind]. rewrite E1. cbn [mbind res_bind]. rewrite put_put, Ev.
  assert (forall y, 0 <= y < radix n -> mp_dec n (put n r y) = Ok (put n r (y - 1), y - 1 <? 0)) as Hdec by (intros y Hy; rewrite mp_dec_ok by (exact Hn || apply put_reg, He); rewrite put_put, valp_put, Z.mod_small by exact Hy; reflexivity).
  rewrite Hdec by lia. cbn [mbind res_bind]. rewrite Hdec by lia. cbn [mbind res_bind mret res_ret]. do 2 f_equal. lia.
Qed.

(** The two primes in order. *)
Lemma derive_rsakeys_ok dm prec (n e d p q u : list Z) ebits : (0 < prec <= MAX_UNIT_PRECISION)%nat -> reg prec n -> reg prec e -> reg prec d -> reg prec p -> reg prec q -> reg prec u ->
  prime (valp prec p) -> prime (valp prec q) -> 2 ^ 32 <= valp prec p < valp prec q -> valp prec q * valp prec q <= radix prec -> ebits <= 32 ->
  word_ok dm (valp prec p) -> word_ok dm (valp prec q) -> word_ok dm (valp prec p * valp prec q) -> forall p0 q0 : list Z, (p0 = p /\ q0 = q) \/ (p0 = q /\ q0 = p) ->
  exists F E D U, forall fuel, (F <= fuel)%nat -> derive_rsakeys fuel prec n e d p0 q0 u ebits = Ok (put prec n (valp prec p * valp prec q), put prec e E, put prec d D, put prec u U) /\
    rsa_key dm prec (put prec e E) (put prec d D) p q (put prec u U) (put prec n (valp prec p * valp prec q)) /\ valp prec (put prec e E) = E /\ least_exponent ebits (valp prec p) (valp prec q) E.
Proof.
  intros Hprec Hn He Hd Hp Hq Hu Hpp Hqp Hpq Hroom Heb W1 W2 W3 p0 q0 Hswap. change (2 ^ 32) with 4294967296 in Hpq. set (P := valp prec p) in *. set (Q := valp prec q) in *. pose proof (local_reg prec ltac:(lia)) as Hz.
  assert (HQ2 : 2 <= Q) by lia. assert (P * Q < Q * Q) as HPQ by nia. assert (HX : 0 < (P - 1) * (Q - 1) < P * Q) by nia. set (x := (P - 1) * (Q - 1)) in *.
  destruct (common_multiple (P - 1) (Q - 1) ltac:(lia) ltac:(lia)) as (HxF & HyF & HFx & HF0). set (G := Z.gcd (P - 1) (Q - 1)) in *. fold x in HxF, HyF, HFx, HF0. set (F := x / G) in *.
  pose proof (Z.divide_pos_le _ _ HF0 HyF) as HFQ. pose proof (Z.divide_pos_le _ _ (proj1 HX) HFx) as HFX. assert (0 < G) as HG by (destruct (Z.eq_dec G 0) as [E0|]; [apply Z.gcd_eq_0 in E0; lia|pose proof (Z.gcd_nonneg (P - 1) (Q - 1)) as Hg0; fold G in Hg0; lia]).
  assert (G <= P - 1) as HGP by (apply Z.divide_pos_le; [lia|apply Z.gcd_divide_l]). assert ((2 | F)) as [f Hf] by (apply Z.divide_trans with (P - 1); [apply prime_minus_even; [exact Hpp|lia]|exact HxF]).
  set (eb := exponent_bits ebits (Z.log2 x + 1)). pose proof (exponent_bits_range ebits (Z.log2 x + 1) Heb) as Hebr. fold eb in Hebr. assert (2 ^ (eb - 1) = 2 * 2 ^ (eb - 2)) as E2 by (rewrite <- Z.pow_succ_r by lia; f_equal; lia).
  assert (0 < 2 ^ (eb - 2)) as Hpos by (apply Z.pow_pos_nonneg; lia). pose proof (Z.pow_le_mono_r 2 (eb - 1) 31 ltac:(lia) ltac:(lia)) as H31. change (2 ^ 31) with 2147483648 in H31. set (h := 2 ^ (eb - 1)) in *.
  assert (exists k : nat, F - 1 = h + 1 + 2 * Z.of_nat k) as [k Hk] by (exists (Z.to_nat ((F - 2 - h) / 2)); dlia).
  set (d1 := put prec d x). set (phi := put prec n x). set (d2 := put prec d (x mod G)). assert (reg prec phi) as Hphi by apply put_reg, Hn. assert (valp prec phi = x) as Ephi by (unfold phi; rewrite valp_put; apply Z.mod_small; lia).
  destruct (exponent_loop_ok prec e d phi Hprec He Hd Hphi k (h - 1)) as (E & HE & HEeven & HgE & Hmin & Hloop); [lia|lia|rewrite Ephi; replace (h - 1 + 2 + 2 * Z.of_nat k) with (F - 1) by lia; apply coprime_pred; (assumption || lia)|]. rewrite Ephi in HgE, Hmin.
  assert (valp prec (put prec e E) = E) as EvE by (rewrite valp_put; apply Z.mod_small; lia). set (Fr := put prec (put prec (replicate MAX_UNIT_PRECISION 0) G) F). assert (reg prec Fr) as HFr by (apply put_reg, put_reg, Hz). assert (valp prec Fr = F) as EvF by (unfold Fr; rewrite valp_put; apply Z.mod_small; lia).
  destruct (mp_inv_ok prec (put prec d 1) (put prec e E) Fr Hprec (put_reg _ _ _ Hd) (put_reg _ _ _ He) HFr ltac:(rewrite EvE, EvF; lia)) as (D & ED & HD & HdD). rewrite EvE, EvF in HdD. rewrite EvF in HD. rewrite (gcd_divisor_1 E x F HgE HFx) in HdD.
  destruct (mp_inv_ok prec (put prec u F) p q Hprec (put_reg _ _ _ Hu) Hp Hq ltac:(fold P Q; lia)) as (U & EU & HU & HdU). fold P Q in HU, HdU. rewrite (primes_coprime P Q Hpp Hqp ltac:(lia)) in HdU.
  exists (S k), E, D, U. intros fuel Hfuel. split; [|split; [|split; [exact EvE|]]].
  - unfold derive_rsakeys. rewrite mp_compare_ok by (destruct Hswap as [[-> ->]|[-> ->]]; (assumption || lia)). cbn [mbind res_bind]. rewrite cmpz_ge. assert ((if valp prec q0 <=? valp prec p0 then (q0, p0) else (p0, q0)) = (p, q)) as ->.
    { destruct Hswap as [[-> ->]|[-> ->]]; fold P Q; [rewrite (proj2 (Z.leb_gt _ _)) by lia|rewrite (proj2 (Z.leb_le _ _)) by lia]; reflexivity. }
    assert (forall r y, reg prec r -> 0 <= y < radix prec -> mp_dec prec (put prec r y) = Ok (put prec r (y - 1), y - 1 <? 0)) as Hdec by (intros r y Hr Hy; rewrite mp_dec_ok by (lia || apply put_reg, Hr); rewrite put_put, valp_put, Z.mod_small by exact Hy; reflexivity).
    assert (forall r y, 0 <= y < radix prec -> valp prec (put prec r y) = y) as Hval by (intros r y Hy; rewrite valp_put; apply Z.mod_small, Hy).
    rewrite (mp_move_ok prec d p) by (exact Hp || apply Hd). cbn [mbind res_bind]. rewrite (mp_move_ok prec u q) by (exact Hq || apply Hu). cbn [mbind res_bind]. fold P Q. rewrite (Hdec d) by (exact Hd || lia). cbn [mbind res_bind]. rewrite (Hdec u) by (exact Hu || lia). cbn [mbind res_bind].
    rewrite mp_mult_ok by (try apply put_reg; assumption || lia). cbn [mbind res_bind]. rewrite !Hval by lia. fold x phi. rewrite mp_gcd_ok by (try apply put_reg; assumption). cbn [mbind res_bind]. rewrite !Hval by lia. fold G.
    rewrite mp_udiv_ok by (try apply put_reg; try assumption; try rewrite Hval; lia). cbn [mbind res_bind]. rewrite Ephi, !put_put, !Hval by lia. fold F d2. rewrite mp_move_ok by (apply put_reg, Hu || (apply (put_reg prec _ G), Hz)). cbn [mbind res_bind]. rewrite Hval by lia. fold Fr.
    rewrite countbits_ok by (exact Hphi || lia). cbn [mbind res_bind]. rewrite Ephi, (proj2 (Z.eqb_neq x 0)) by lia. fold (exponent_bits ebits (Z.log2 x + 1)). fold eb. rewrite first_exponent by (first [exact He|exact Hebr|lia]). cbn [mbind res_bind]. fold h.
    rewrite Hloop by (lia || (right; eexists; reflexivity)). cbn [mbind res_bind]. rewrite ED. cbn [mbind res_bind]. rewrite put_put, EU. cbn [mbind res_bind]. rewrite put_put, mp_mult_ok by (try apply put_reg; assumption || lia). cbn [mbind res_bind mret res_ret]. fold P Q. unfold phi. rewrite put_put. reflexivity.
  - assert (forall r y, 0 <= y < radix prec -> valp prec (put prec r y) = y) as Hval by (intros r y Hy; rewrite valp_put; apply Z.mod_small, Hy).
    split; rewrite ?Hval by lia; fold P Q; try (exact Hprec || exact Hroom || reflexivity).
    + repeat (split; [try apply put_reg; assumption|]). apply put_reg, Hn.
    + split; [exact Hpp|]. split; [exact Hqp|]. change (2 ^ 32) with 4294967296. exact Hpq.
    + split; [lia|]. rewrite Z.mul_comm. split; [exact (Z.divide_trans _ _ _ HxF HdD)|exact (Z.divide_trans _ _ _ HyF HdD)].
    + split; [lia|]. rewrite <- (Z.mod_small 1 Q) by lia. apply mod_eq_iff; [lia|exact HdU].
    + auto.
  - unfold least_exponent. fold x eb h. split; [lia|]. assert (forall y, y mod 2 = 1 <-> (y - (h + 1)) mod 2 = 0) as Hodd by (intros y; dlia). split; [|split; [exact HgE|]].
    + destruct HEeven as [j Hj]. apply Hodd. replace (E - (h + 1)) with ((j - 1) * 2) by lia. apply Z_mod_mult.
    + intros y Hy Hy2. specialize (Hmin ((y - (h + 1)) / 2) ltac:(dlia) ltac:(dlia)). replace (h - 1 + 2 + 2 * ((y - (h + 1)) / 2)) with y in Hmin by dlia. exact Hmin.
Qed.

(** The primes in the order that the key wants. *)
Definition ordered prec (p q : list Z) : list Z * list Z := if valp prec q <=? valp prec p then (q, p) else (p, q).
End Derivation.

(** C13: From two different primes in either order of 33 bits or more, whose squares fit the
    precision, with ebits at most 32, and where long has 64 bits or the bit lengths of the
    primes and of their product are not multiples of 16 (which with a 32-bit long excludes the
    moduli of 1024 bits), derive_rsakeys makes a valid key with enough turns of the search: the
    modulus is the product, the private exponent inverts the public one modulo both primes less
    one, u inverts the smaller prime modulo the larger, and the public exponent is the least odd
    number from the start of the search that has no divisor in common with (p-1)(q-1). *)
Theorem derive_rsakeys_key dm prec (n e d p q u : list Z) ebits : (0 < prec <= MAX_UNIT_PRECISION)%nat -> reg prec n -> reg prec e -> reg prec d -> reg prec p -> reg prec q -> reg prec u ->
  prime (valp prec p) -> prime (valp prec q) -> valp prec p <> valp prec q -> 2 ^ 32 <= valp prec p -> 2 ^ 32 <= valp prec q ->
  valp prec p * valp prec p <= radix prec -> valp prec q * valp prec q <= radix prec -> ebits <= 32 -> word_ok dm (valp prec p) -> word_ok dm (valp prec q) -> word_ok dm (valp prec p * valp prec q) ->
  let N := put prec n (valp prec p * valp prec q) in exists F E D U, forall fuel, (F <= fuel)%nat ->
    derive_rsakeys fuel prec n e d p q u ebits = Ok (N, put prec e E, put prec d D, put prec u U) /\
    (let '(p, q) := ordered prec p q in rsa_key dm prec (put prec e E) (put prec d D) p q (put prec u U) N) /\ least_exponent ebits (valp prec p) (valp prec q) E.
Proof.
  intros Hprec Hn He Hd Hp Hq Hu Hpp Hqp Hne HP HQ RP RQ Heb W1 W2 W3 N. unfold N, ordered. clear N. destruct (Z.leb_spec (valp prec q) (valp prec p)) as [Hle|Hlt].
  - rewrite Z.mul_comm in W3. destruct (derive_rsakeys_ok dm prec n e d q p u ebits Hprec Hn He Hd Hq Hp Hu Hqp Hpp ltac:(lia) RP Heb W2 W1 W3 p q (or_intror (conj eq_refl eq_refl))) as (F & E & D & U & H).
    exists F, E, D, U. intros fuel Hf. destruct (H fuel Hf) as (H1 & H2 & _ & H4). rewrite (Z.mul_comm (valp prec p)). split; [exact H1|]. split; [exact H2|]. unfold least_exponent in *. rewrite (Z.mul_comm (valp prec p - 1)). exact H4.
  - destruct (derive_rsakeys_ok dm prec n e d p q u ebits Hprec Hn He Hd Hp Hq Hu Hpp Hqp ltac:(lia) RQ Heb W1 W2 W3 p q (or_introl (conj eq_refl eq_refl))) as (F & E & D & U & H).
    exists F, E, D, U. intros fuel Hf. destruct (H fuel Hf) as (H1 & H2 & _ & H4). auto.
Qed.

Lemma derive_rsakeys_key_witness : let z := units 5 0 in let p := units 5 17172791297 in let q := units 5 8589279233 in
  prime (valp 5 p) /\ prime (valp 5 q) /\ 2 ^ 32 <= valp 5 q < valp 5 p /\ valp 5 p * valp 5 p <= radix 5 /\
  exists F E D U, forall fuel, (F <= fuel)%nat -> derive_rsakeys fuel 5 z z z p q z 5 = Ok (put 5 z (valp 5 p * valp 5 q), put 5 z E, put 5 z D, put 5 z U).
Proof.
  intros z p q. assert (valp 5 p = 17172791297) as Ep by (vm_compute; reflexivity). assert (valp 5 q = 8589279233) as Eq by (vm_compute; reflexivity).
  assert (prime 17172791297) as Pp by exact (proth_check 65509 18 3 ltac:(vm_compute; reflexivity)). assert (prime 8589279233) as Pq by exact (proth_check 65531 17 3 ltac:(vm_compute; reflexivity)).
  assert (radix 5 = 1208925819614629174706176) as ER by (vm_compute; reflexivity). assert (reg 5 z) as Hz by exact (proj1 (units_reg 5 0)). assert (0 < 5 <= MAX_UNIT_PRECISION)%nat as H0 by (unfold MAX_UNIT_PRECISION; lia).
  pose proof (derive_rsakeys_key LP64 5 z z z p q z 5 H0 Hz Hz Hz (proj1 (units_reg 5 17172791297)) (proj1 (units_reg 5 8589279233)) Hz) as H. rewrite Ep, Eq, ER in *. change (2 ^ 32) with 4294967296 in *.
  specialize (H Pp Pq ltac:(lia) ltac:(lia) ltac:(lia) ltac:(lia) ltac:(lia) ltac:(lia) (or_introl eq_refl) (or_introl eq_refl) (or_introl eq_refl)).
  repeat (split; [first [exact Pp|exact Pq|lia]|]). destruct H as (F & E & D & U & H). exists F, E, D, U. intros fuel Hf. destruct (H fuel Hf) as [E1 _]. rewrite E1. reflexivity.
Defined.
