(* ===== verification/Keygen.v ===== *)
(** The generation of RSA keys (src/mibench/security/pgp/src/rsagen.c): the loop that draws the two primes, the
    self-test of a new key, and the whole of rsa_keygen. *)
From stdpp Require Import base list numbers option tactics.
From Stdlib Require Import ZArith Znumtheory Lia.
From S2P Require Import Prelude NumTheory Bytes Mpi MpiDiv MpiSmith MpiExp MpiEuclid MpiIo MpiSieve MpiPrime Rsa RsaKeygen.

(** * The code *)

Definition KEYFAILED : Z := -15.

Section Keygen.
Context (dm : data_model) (trueRandByte : nat -> Z).
Implicit Types (st : smith) (p q u : list Z) (pos : nat).

Definition MAX_BIT_PRECISION : Z := 2048 + 2 * UNITSIZE.
Definition slop : Z := Z.max SMITH_SLOP_BITS 1.
Definition clamp_keybits (keybits : Z) : Z :=
  let keybits := Z.min keybits (MAX_BIT_PRECISION - slop) in
  let keybits := Z.max keybits (UNITSIZE * 2) in
  Z.max keybits 32.

(** The primes are put in order, with u as a scratchpad; whether they are too close together. *)
Definition order_primes prec p q u : res (list Z * list Z * list Z * bool) :=
  c ← mp_compare prec p q;
  '(p, q, u) ← (if 0 <=? c then u ← mp_move prec u p; p ← mp_move prec p q; q ← mp_move prec q u; mret (p, q, u) else mret (p, q, u));
  u ← mp_move prec u q; '(u, _) ← mp_sub prec u p;
  ubits ← countbits prec u; bits ← countbits prec q; mret (p, q, u, ubits <? bits - 7).

(** The loop that draws q: the status, and the two primes with the scratchpad. *)
Fixpoint keygen_q (fuel : nat) prec st p q u (qbits : Z) pos : res (Z * smith * list Z * list Z * list Z * nat) :=
  match fuel with
  | O => Err OutOfFuel
  | S fuel =>
      '(status, st, q, pos) ← randomprime dm trueRandByte prec st q qbits pos;
      if status <? 0 then mret (status, st, p, q, u, pos)
      else
        '(p, q, u, too_close_together) ← order_primes prec p q u;
        if too_close_together : bool then keygen_q fuel prec st p q u qbits pos else mret (0, st, p, q, u, pos)
  end.

(** From the prefilled random pool to the two primes; the claims on the pool do not change the bytes that it gives. *)
Definition keygen_primes (fuel prec : nat) st p q u (keybits : Z) pos : res (Z * smith * list Z * list Z * list Z * nat) :=
  '(status, st, p, pos) ← randomprime dm trueRandByte prec st p (keybits / 2) pos;
  if status <? 0 then mret (status, st, p, q, u, pos)
  else bits ← countbits prec p; keygen_q fuel prec st p q u (keybits - bits) pos.

(** The self-test: [C] is what the local array holds before it is written, [junk] what the scratch array of the
    decryption holds. *)
Definition dummy : list Z := (fun i => u8 (3 * i + 7)) <$> seqZ 0 16.
Definition self_test (prec : nat) st (e d p q u n C junk : list Z) : res (Z * smith) :=
  '(status, st, C) ← rsa_private_encrypt dm prec st (to_units (dummy ++ drop 16 (host_bytes C))) dummy 16 e d p q u n;
  if status <? 0 then mret (status, st)
  else
    '(status, st, bytes) ← rsa_public_decrypt dm prec st (host_bytes C) C e n junk;
    if status <? 0 then mret (status, st)
    else if negb (status =? 16) then mret (KEYFAILED, st)
    else ok ← compare_bytes bytes 0 ((fun i => 3 * i + 7) <$> seqZ 0 16); mret (if ok : bool then 0 else KEYFAILED, st).

(** The status, the statics and the six registers. *)
Definition rsa_keygen (fuel fuel2 : nat) st (n e d p q u : list Z) (keybits ebits : Z) pos (C junk : list Z) : res (Z * smith * (list Z * list Z * list Z * list Z * list Z * list Z) * nat) :=
  let keybits := clamp_keybits keybits in
  let prec := Z.to_nat (bits2units (keybits + slop)) in
  '(status, st, p, q, u, pos) ← keygen_primes fuel prec st p q u keybits pos;
  if status <? 0 then mret (status, st, (n, e, d, p, q, u), pos)
  else
    '(n, e, d, u) ← derive_rsakeys fuel2 prec n e d p q u ebits;
    '(status, st) ← self_test prec st e d p q u n C junk;
    mret (status, st, (n, e, d, p, q, u), pos).
End Keygen.

(** A key of 70 bits fails its test. *)

(** * The loop *)

(** Where the search of [randomprime] starts, and the bytes that it takes. *)
Definition draw_start (trueRandByte : nat -> Z) (nbits : Z) (pos : nat) : Z := 3 * 2 ^ (nbits - 2) + rand_value trueRandByte (nbits - 2) pos.
Definition draw_bytes (nbits : Z) : nat := (2 * Z.to_nat ((nbits + 13) / 16))%nat.

Definition bits_of (v : Z) : Z := if v =? 0 then 0 else Z.log2 v + 1.
Definition too_close (P Q : Z) : bool := bits_of (Z.max P Q - Z.min P Q) <? bits_of (Z.max P Q) - 7.

(** [k] draws in a row that all come too close to the smaller of the primes before. *)
Inductive close_draws (trueRandByte : nat -> Z) (qbits : Z) : Z -> nat -> nat -> Prop :=
  | close_none P pos : close_draws trueRandByte qbits P pos 0
  | close_more P pos Q k : next_found (draw_start trueRandByte qbits pos) 0 Q -> too_close P Q = true ->
      close_draws trueRandByte qbits (Z.min P Q) (pos + draw_bytes qbits) k -> close_draws trueRandByte qbits P pos (S k).

(** Two numbers that pass the tests, in order and far enough apart. *)
Record prime_pair (P Q bound : Z) : Prop := PrimePair {
  pp_order : 4294967296 <= P < Q;
  pp_bound : Q < bound;
  pp_tests : accepted P = true /\ accepted Q = true;
  pp_apart : too_close P Q = false }.

Section Loop.
Context (trueRandByte : nat -> Z) (prec : nat).
Hypothesis bytes : forall i, 0 <= trueRandByte i < 256.
Hypothesis prec_ok : (0 < prec <= MAX_UNIT_PRECISION)%nat.
Implicit Types (st : smith) (p q u : list Z) (pos : nat) (P Q : Z).

Definition drawn (bound : Z) (r : Z * smith * list Z * list Z * list Z * nat) : Prop :=
  let '(status, st, p, q, u, pos) := r in smith_wf st /\ reg prec p /\ reg prec q /\ reg prec u /\
  (status = 0 /\ prime_pair (valp prec p) (valp prec q) bound \/ status = NOSUSPECTS \/ status = NOPRIMEFOUND).

Lemma found_accepted v c : next_found v 0 c -> v < c <= v + 20000 /\ accepted c = true.
Proof.
  intros [H1 _ _ [(_ & H2 & H3)|(_ & [[H _]|[H _]])]]; [|discriminate H..]. split; [exact H1|]. unfold accepted. rewrite H2, H3. reflexivity.
Qed.

Lemma draw_range nbits pos v : 33 <= nbits -> v = draw_start trueRandByte nbits pos -> 4294967296 <= v < 2 ^ nbits.
Proof.
  intros H ->. unfold draw_start, rand_value. pose proof (Z.mod_pos_bound (mval (rand_units trueRandByte (S (Z.to_nat ((nbits - 2) / 16))) pos)) (2 ^ (nbits - 2)) ltac:(apply Z.pow_pos_nonneg; lia)).
  pose proof (Z.pow_le_mono_r 2 31 (nbits - 2) ltac:(lia) ltac:(lia)) as H31. change (2 ^ 31) with 2147483648 in H31. assert (2 ^ nbits = 4 * 2 ^ (nbits - 2)) by (change 4 with (2 ^ 2); rewrite <- Z.pow_add_r by lia; f_equal; lia). lia.
Qed.

(** One draw. *)
Lemma draw_ok st q nbits pos : smith_wf st -> reg prec q -> 33 <= nbits -> nbits + 5 <= 16 * Z.of_nat prec ->
  exists status st' c, randomprime LP64 trueRandByte prec st q nbits pos = Ok (status, st', put prec q c, (pos + draw_bytes nbits)%nat) /\ smith_wf st' /\ 0 <= c < radix prec /\
    (status = 0 /\ next_found (draw_start trueRandByte nbits pos) 0 c \/ status = NOSUSPECTS \/ status = NOPRIMEFOUND).
Proof.
  intros Hst Hq H33 Hb. pose proof (randomprime_found LP64 trueRandByte prec st q nbits pos bytes prec_ok Hst Hq H33 Hb ltac:(intros c _; left; reflexivity)) as H. apply okp_ok in H as ([[[status st'] q'] pos'] & E & Hst' & -> & c & -> & Hf).
  exists status, st', c. split; [exact E|]. split; [exact Hst'|]. fold (draw_start trueRandByte nbits pos) in Hf. pose proof (draw_range nbits pos _ H33 eq_refl) as Hr. pose proof (nf_range _ _ _ Hf) as Hc. split.
  - assert (2 ^ nbits * 32 <= radix prec) by (change 32 with (2 ^ 5); rewrite radix_pow, <- Z.pow_add_r by lia; apply Z.pow_le_mono_r; lia). lia.
  - destruct (nf_status _ _ _ Hf) as [(-> & _)|(_ & [[-> _]|[-> _]])]; auto.
Qed.

(** The two primes are put in order, and their distance is measured. *)
Lemma order_ok p q u P Q : reg prec p -> reg prec q -> reg prec u -> 0 < P < radix prec -> 0 < Q < radix prec ->
  exists u1, reg prec u1 /\ order_primes prec (put prec p P) (put prec q Q) u =
    Ok (put prec p (Z.min P Q), put prec q (Z.max P Q), u1, too_close P Q).
Proof.
  intros Hp Hq Hu HP HQ. assert (forall r y, 0 <= y < radix prec -> valp prec (put prec r y) = y) as Hval by (intros r y Hy; rewrite valp_put; apply Z.mod_small, Hy).
  assert (forall p q u, reg prec p -> reg prec q -> reg prec u -> (u ← mp_move prec u q; '(u, _) ← mp_sub prec u p; ubits ← countbits prec u; bits ← countbits prec q; mret (p, q, u, ubits <? bits - 7)) =
    Ok (p, q, put prec u (valp prec q - valp prec p), bits_of ((valp prec q - valp prec p) mod radix prec) <? bits_of (valp prec q) - 7)) as Hdist.
  { clear p q u Hp Hq Hu. intros p q u Hp Hq Hu. rewrite mp_move_ok by (exact Hq || apply Hu). cbn [mbind res_bind]. unfold mp_sub. rewrite mp_subb_ok by (try apply put_reg; assumption). cbn [mbind res_bind Z.b2z]. rewrite put_put, Z.sub_0_r, (Hval u) by (apply valp_range, Hq).
    rewrite !countbits_ok by (try apply put_reg; (assumption || lia)). cbn [mbind res_bind mret res_ret]. rewrite valp_put. reflexivity. }
  exists (put prec u (Z.max P Q - Z.min P Q)). split; [apply put_reg, Hu|]. unfold order_primes. rewrite mp_compare_ok by (try apply put_reg; (assumption || lia)). cbn [mbind res_bind]. rewrite !Hval by lia. rewrite cmpz_ge. unfold too_close. destruct (Z.leb_spec Q P).
  - rewrite (mp_move_ok prec u (put prec p P)) by (apply put_reg, Hp || apply Hu). cbn [mbind res_bind]. rewrite (mp_move_ok prec (put prec p P) (put prec q Q)) by (apply put_reg, Hq || apply (put_reg prec p P Hp)). cbn [mbind res_bind]. rewrite (Hval p P), (Hval q Q) by lia.
    rewrite (mp_move_ok prec (put prec q Q) (put prec u P)) by (apply put_reg, Hu || apply (put_reg prec q Q Hq)).
    cbn [mbind res_bind mret res_ret]. rewrite Hdist by (repeat apply put_reg; assumption). rewrite !put_put, !Hval by lia. rewrite Z.max_l, Z.min_r, Z.mod_small by lia. reflexivity.
  - cbn [mbind res_bind mret res_ret]. rewrite Hdist by (try apply put_reg; assumption). rewrite !Hval by lia. rewrite Z.max_r, Z.min_l, Z.mod_small by lia. reflexivity.
Qed.

Lemma keygen_q_ok qbits bound : 33 <= qbits -> qbits + 5 <= 16 * Z.of_nat prec -> 2 ^ qbits + 20000 <= bound <= radix prec -> forall fuel st p q u P pos, smith_wf st -> reg prec p -> reg prec q -> reg prec u -> 4294967296 <= P < bound -> accepted P = true ->
  keygen_q LP64 trueRandByte fuel prec st (put prec p P) q u qbits pos = Err OutOfFuel /\ close_draws trueRandByte qbits P pos fuel \/
  exists r, keygen_q LP64 trueRandByte fuel prec st (put prec p P) q u qbits pos = Ok r /\ drawn bound r.
Proof.
  intros Hqb Hroom Hbound. induction fuel as [|fuel IH]; intros st p q u P pos Hst Hp Hq Hu HP Hacc; [left; split; [reflexivity|constructor]|]. cbn [keygen_q].
  destruct (draw_ok st q qbits pos Hst Hq Hqb Hroom) as (status & st' & Q & E & Hst' & HQ & Hres). rewrite E. cbn [mbind res_bind]. clear E. destruct Hres as [[-> Hf]|Hneg].
  2:{ right. eexists. assert (status <? 0 = true) as -> by (destruct Hneg as [-> | ->]; reflexivity). split; [reflexivity|]. split; [exact Hst'|]. split; [apply put_reg, Hp|]. split; [apply put_reg, Hq|]. auto. }
  change (0 <? 0) with false. cbn iota. pose proof (draw_range qbits pos _ Hqb eq_refl) as Hr. destruct (found_accepted _ _ Hf) as [HQr HQa]. destruct (order_ok p q u P Q Hp Hq Hu ltac:(lia) ltac:(lia)) as (u1 & Hu1 & E). rewrite E. cbn [mbind res_bind]. clear E. destruct (too_close P Q) eqn:Eclose.
  - destruct (IH st' p (put prec q (Z.max P Q)) u1 (Z.min P Q) (pos + draw_bytes qbits)%nat Hst' Hp (put_reg _ _ _ Hq) Hu1 ltac:(lia)) as [[E1 E2]|H].
    + destruct (Z.min_spec P Q) as [[_ ->]|[_ ->]]; assumption.
    + left. split; [exact E1|]. exact (close_more trueRandByte qbits P pos Q fuel Hf Eclose E2).
    + right. exact H.
  - right. eexists. split; [reflexivity|]. split; [exact Hst'|]. split; [apply put_reg, Hp|]. split; [apply put_reg, Hq|]. split; [exact Hu1|]. left. split; [reflexivity|]. rewrite !valp_put, !Z.mod_small by lia.
    assert (P <> Q) as Hne by (intros ->; unfold too_close in Eclose; rewrite Z.max_id, Z.min_id, Z.sub_diag in Eclose; unfold bits_of in Eclose; rewrite Z.eqb_refl, (proj2 (Z.eqb_neq Q 0)) in Eclose by lia; pose proof (Z.log2_le_mono (2 ^ 32) Q ltac:(change (2 ^ 32) with 4294967296; lia)) as Hl; rewrite Z.log2_pow2 in Hl by lia; apply Z.ltb_ge in Eclose; lia).
    split; [lia|lia| |].
    + destruct (Z.min_spec P Q) as [[? ->]|[? ->]], (Z.max_spec P Q) as [[? ->]|[? ->]]; (lia || auto).
    + unfold too_close in *. rewrite (Z.max_r (Z.min P Q)), (Z.min_l (Z.min P Q)) by lia. exact Eclose.
Qed.
End Loop.

Definition keygen_prec (keybits : Z) : nat := Z.to_nat (bits2units (keybits + slop)).
Definition prime_bound (keybits : Z) : Z := 2 ^ ((keybits + 1) / 2) + 20001.

Lemma keygen_prec_ok kb : 68 <= kb <= 2078 -> (0 < keygen_prec kb <= MAX_UNIT_PRECISION)%nat /\ kb + 1 <= 16 * Z.of_nat (keygen_prec kb).
Proof.
  intros H. unfold keygen_prec, slop, SMITH_SLOP_BITS, bits2units, MAX_UNIT_PRECISION. change (Z.max 0 1) with 1. rewrite Z.shiftr_div_pow2 by lia. change (2 ^ 4) with 16. dlia.
Qed.

Lemma prime_bound_ok kb : 68 <= kb <= 2078 -> 2 * prime_bound kb <= radix (keygen_prec kb) /\ ((kb + 1) mod 16 <> 0 -> prime_bound kb * prime_bound kb <= radix (keygen_prec kb)).
Proof.
  intros H. destruct (keygen_prec_ok kb H) as [_ Hp]. unfold prime_bound. set (h := (kb + 1) / 2) in *. assert (34 <= h /\ 2 * h <= kb + 1) as [H34 Hh] by (unfold h; dlia).
  pose proof (Z.pow_le_mono_r 2 34 h ltac:(lia) ltac:(lia)) as H2. change (2 ^ 34) with 17179869184 in H2. rewrite radix_pow. split.
  - assert (4 * 2 ^ h <= 2 ^ (16 * Z.of_nat (keygen_prec kb))) by (change 4 with (2 ^ 2); rewrite <- Z.pow_add_r by lia; apply Z.pow_le_mono_r; lia). lia.
  - intros Hmod. assert (2 * (2 ^ h * 2 ^ h) <= 2 ^ (16 * Z.of_nat (keygen_prec kb))) as H3 by (rewrite <- Z.pow_add_r, <- Z.pow_succ_r by lia; apply Z.pow_le_mono_r; [lia|dlia]). nia.
Qed.

Section Primes.
Context (trueRandByte : nat -> Z) (kb : Z).
Hypothesis bytes : forall i, 0 <= trueRandByte i < 256.
Hypothesis Hkb : 68 <= kb <= 2078.

Lemma bits_of_draw pb P : 34 <= pb -> 3 * 2 ^ (pb - 2) <= P <= 2 ^ pb + 20000 -> pb <= bits_of P <= pb + 1.
Proof.
  intros Hpb HP. pose proof (Z.pow_le_mono_r 2 32 (pb - 2) ltac:(lia) ltac:(lia)) as H2. change (2 ^ 32) with 4294967296 in H2. assert (2 ^ pb = 4 * 2 ^ (pb - 2)) as E4 by (change 4 with (2 ^ 2); rewrite <- Z.pow_add_r by lia; f_equal; lia).
  assert (2 ^ (pb - 1) = 2 * 2 ^ (pb - 2)) as E2 by (rewrite <- Z.pow_succ_r by lia; f_equal; lia). assert (2 ^ (pb + 1) = 2 * 2 ^ pb) as E1 by (rewrite Z.add_1_r, Z.pow_succ_r by lia; reflexivity).
  unfold bits_of. rewrite (proj2 (Z.eqb_neq P 0)) by lia. pose proof (Z.log2_le_pow2 P (pb - 1) ltac:(lia)). pose proof (Z.log2_lt_pow2 P (pb + 1) ltac:(lia)). lia.
Qed.

Lemma keygen_primes_ok fuel st p q u pos : let prec := keygen_prec kb in smith_wf st -> reg prec p -> reg prec q -> reg prec u ->
  keygen_primes LP64 trueRandByte fuel prec st p q u kb pos = Err OutOfFuel /\
    (exists P, next_found (draw_start trueRandByte (kb / 2) pos) 0 P /\ close_draws trueRandByte (kb - bits_of P) P (pos + draw_bytes (kb / 2)) fuel) \/
  exists r, keygen_primes LP64 trueRandByte fuel prec st p q u kb pos = Ok r /\ drawn prec (prime_bound kb) r.
Proof.
  intros prec Hst Hp Hq Hu. destruct (keygen_prec_ok kb Hkb) as [Hprec Hroom]. destruct (prime_bound_ok kb Hkb) as [Hbound _]. fold prec in Hprec, Hroom, Hbound. unfold keygen_primes.
  destruct (draw_ok trueRandByte prec bytes Hprec st p (kb / 2) pos Hst Hp ltac:(dlia) ltac:(dlia)) as (status & st' & P & E & Hst' & HP & Hres). rewrite E. cbn [mbind res_bind]. clear E. destruct Hres as [[-> Hf]|Hneg].
  2:{ right. eexists. assert (status <? 0 = true) as -> by (destruct Hneg as [-> | ->]; reflexivity). split; [reflexivity|]. split; [exact Hst'|]. split; [apply put_reg, Hp|]. split; [exact Hq|]. split; [exact Hu|]. auto. }
  change (0 <? 0) with false. cbn iota. rewrite countbits_ok by (try apply put_reg; assumption || lia). cbn [mbind res_bind]. rewrite valp_put, Z.mod_small by exact HP. fold (bits_of P). destruct (found_accepted _ _ Hf) as [HPr HPa].
  assert (33 <= kb / 2) as H33 by dlia. pose proof (draw_range trueRandByte prec Hprec (kb / 2) pos _ H33 eq_refl) as Hr. assert (3 * 2 ^ (kb / 2 - 2) <= draw_start trueRandByte (kb / 2) pos) as Hlow by (unfold draw_start, rand_value; pose proof (Z.mod_pos_bound (mval (rand_units trueRandByte (S (Z.to_nat ((kb / 2 - 2) / 16))) pos)) (2 ^ (kb / 2 - 2)) ltac:(apply Z.pow_pos_nonneg; lia)); lia).
  pose proof (bits_of_draw (kb / 2) P ltac:(dlia) ltac:(lia)) as Hbits. pose proof (Z.pow_le_mono_r 2 (kb / 2) ((kb + 1) / 2) ltac:(lia) ltac:(dlia)) as HB1. pose proof (Z.pow_le_mono_r 2 (kb - bits_of P) ((kb + 1) / 2) ltac:(lia) ltac:(dlia)) as HB2. unfold prime_bound in *.
  destruct (keygen_q_ok trueRandByte prec bytes Hprec (kb - bits_of P) (2 ^ ((kb + 1) / 2) + 20001) ltac:(dlia) ltac:(dlia) ltac:(lia) fuel st' p q u P (pos + draw_bytes (kb / 2))%nat Hst' Hp Hq Hu ltac:(lia) HPa) as [[E1 E2]|H].
  - left. split; [exact E1|]. exists P. auto.
  - right. exact H.
Qed.
End Primes.

(** * The self-test *)

Lemma dummy_bytes : length dummy = 16%nat /\ Forall (inU 8) dummy /\ (fun i => 3 * i + 7) <$> seqZ 0 16 = dummy.
Proof. split; [reflexivity|]. split; [by_eval|reflexivity]. Qed.

#[local] Opaque dummy rsa_private_encrypt rsa_public_decrypt.

Lemma self_test_ok prec st E D P Q U N C junk : rsa_key LP64 prec E D P Q U N -> smith_wf st -> length C = MAX_UNIT_PRECISION -> Forall (inU 16) C -> length junk = MAX_UNIT_PRECISION -> Forall (inU 16) junk ->
  exists st', self_test LP64 prec st E D P Q U N C junk = Ok (if (blocksize_of (valp prec N) <? 36)%nat then -4 else 0, st') /\ smith_wf st'.
Proof.
  intros HK Hst HlC HC Hlj HFj. destruct dummy_bytes as (Hl & HF & Hd). destruct (host_bytes_ok C HC) as (Hb1 & Hb2 & _). assert (length (dummy ++ drop 16 (host_bytes C)) = (2 * MAX_UNIT_PRECISION)%nat) as Hl2 by (rewrite length_app, length_drop, Hl, Hb1, HlC; unfold MAX_UNIT_PRECISION; lia).
  destruct (to_units_ok (dummy ++ drop 16 (host_bytes C))) as (Hu1 & Hu2 & _); [apply Forall_app_2; [exact HF|apply Forall_drop, Hb2]|rewrite Hl2; exists MAX_UNIT_PRECISION; reflexivity|]. set (C1 := to_units (dummy ++ drop 16 (host_bytes C))) in *.
  assert (reg prec C1) as HC1 by (split; [pose proof (key_prec _ _ _ _ _ _ _ _ HK); lia|exact Hu2]).
  pose proof (rsa_private_encrypt_ok LP64 prec st C1 dummy E D P Q U N HK Hst HC1 HF ltac:(rewrite Hl; reflexivity)) as H. cbv zeta in H. rewrite Hl in H. change (16 + 20)%nat with 36%nat in H. change (Z.of_nat 16) with 16 in H. unfold self_test. fold C1.
  destruct (Nat.ltb_spec (blocksize_of (valp prec N)) 36) as [Hs|Hs]; [exists st; rewrite H; split; [reflexivity|exact Hst]|]. destruct H as (_ & st' & x & E1 & Hst' & Hx & Hm). rewrite E1. cbn [mbind res_bind]. change (0 <? 0) with false. cbn iota.
  destruct (key_bounds _ _ _ _ _ _ _ _ HK) as (_ & HNr & _). assert (valp prec (put prec C1 x) = x) as Ex by (rewrite valp_put; apply Z.mod_small; lia). pose proof (put_reg prec C1 x HC1) as HR. assert (length (host_bytes (put prec C1 x)) = (2 * length (put prec C1 x))%nat) as Hl3 by (apply host_bytes_ok, HR).
  assert (16 <= length (host_bytes (put prec C1 x)))%nat as Hl16. { rewrite Hl3. pose proof (proj1 HR). assert (36 <= 2 * prec)%nat; [|lia]. unfold blocksize_of in Hs. pose proof (Z.log2_lt_pow2 (valp prec N) (16 * Z.of_nat prec) ltac:(lia)) as Hlog. rewrite <- radix_pow in Hlog. dlia. }
  destruct (rsa_public_decrypt_ok LP64 prec st' (host_bytes (put prec C1 x)) (put prec C1 x) E D P Q U N junk dummy HK Hst' HR Hlj HFj Hs Hl Hl16 HF ltac:(rewrite Ex; lia) ltac:(rewrite Ex; exact Hm)) as (st'' & E2 & Hst''). rewrite E2. cbn [mbind res_bind]. change (16 <? 0) with false. change (negb (16 =? 16)) with false. cbn iota.
  exists st''. split; [|exact Hst'']. rewrite Hd. pose proof (compare_bytes_ok dummy [] (drop 16 (host_bytes (put prec C1 x))) 0 eq_refl) as E3. cbn [app] in E3. rewrite E3. reflexivity.
Qed.

(** * The theorems *)

(** The length that is used: any length that is asked for, moved into 32 .. 2079. *)
Lemma clamp_keybits_range keybits : clamp_keybits keybits = Z.max 32 (Z.min keybits 2079).
Proof. unfold clamp_keybits, MAX_BIT_PRECISION, slop, SMITH_SLOP_BITS, UNITSIZE. lia. Qed.

Lemma clamped_top keybits : (Z.max 32 (Z.min keybits 2079) + 1) mod 16 <> 0 -> Z.max 32 (Z.min keybits 2079) <= 2078.
Proof. intros H. destruct (Z.eq_dec (Z.max 32 (Z.min keybits 2079)) 2079) as [E|]; [|lia]. rewrite E in H. destruct (H eq_refl). Qed.

(** C14: With a 64-bit long and for a key of 68 to 2078 bits: for every stream of random
    bytes and every number of turns the drawing of the two primes ends with two tested numbers
    in order and far enough apart, or with an error status of the search, and takes all the
    turns only when in each of them the draw came too close to the prime before; it never leaves
    an array. *)
Theorem keygen_draws trueRandByte kb st p q u pos fuel : (forall i, 0 <= trueRandByte i < 256) -> 68 <= kb <= 2078 -> smith_wf st -> reg (keygen_prec kb) p -> reg (keygen_prec kb) q -> reg (keygen_prec kb) u ->
  match keygen_primes LP64 trueRandByte fuel (keygen_prec kb) st p q u kb pos with
  | Ok (status, st', p', q', u', _) => smith_wf st' /\ reg (keygen_prec kb) p' /\ reg (keygen_prec kb) q' /\ reg (keygen_prec kb) u' /\
      (status = 0 /\ prime_pair (valp (keygen_prec kb) p') (valp (keygen_prec kb) q') (prime_bound kb) \/ status = NOSUSPECTS \/ status = NOPRIMEFOUND)
  | Err e => e = OutOfFuel /\ exists P, next_found (draw_start trueRandByte (kb / 2) pos) 0 P /\ close_draws trueRandByte (kb - bits_of P) P (pos + draw_bytes (kb / 2)) fuel
  end.
Proof.
  intros Hb Hkb Hst Hp Hq Hu. destruct (keygen_primes_ok trueRandByte kb Hb Hkb fuel st p q u pos Hst Hp Hq Hu) as [[-> H]|(r & -> & H)]; [auto|]. destruct r as [[[[[status st'] p'] q'] u'] pos']. exact H.
Qed.

(** C1: rsa_keygen treats any length that is asked for as the nearest one in 32 .. 2079.
    With a 64-bit long, for a length k so obtained of at least 68 with k+1 not a multiple of 16
    (so at most 2078), and ebits at most 32, when the two numbers that were drawn for the key
    are prime, it makes from them a valid key with the least public exponent from the start of
    the search, whose private operations invert the public ones, and its self-test returns 0 for
    a modulus of 37 bytes or more and -4 for every shorter one. *)
Theorem rsa_keygen_key trueRandByte fuel st (n e d p q u : list Z) keybits ebits pos C junk st1 p1 q1 u1 pos1 : let k := Z.max 32 (Z.min keybits 2079) in let prec := keygen_prec k in
  (forall dm' bytes' fuel1 fuel2, rsa_keygen dm' bytes' fuel1 fuel2 st n e d p q u keybits ebits pos C junk = rsa_keygen dm' bytes' fuel1 fuel2 st n e d p q u k ebits pos C junk) /\
  ((forall i, 0 <= trueRandByte i < 256) -> 68 <= k -> (k + 1) mod 16 <> 0 -> ebits <= 32 -> smith_wf st -> reg prec n -> reg prec e -> reg prec d -> reg prec p -> reg prec q -> reg prec u ->
  length C = MAX_UNIT_PRECISION -> Forall (inU 16) C -> length junk = MAX_UNIT_PRECISION -> Forall (inU 16) junk ->
  keygen_primes LP64 trueRandByte fuel prec st p q u k pos = Ok (0, st1, p1, q1, u1, pos1) -> prime (valp prec p1) -> prime (valp prec q1) ->
  exists F E D U st', forall fuel2, (F <= fuel2)%nat -> let N := put prec n (valp prec p1 * valp prec q1) in
    rsa_keygen LP64 trueRandByte fuel fuel2 st n e d p q u keybits ebits pos C junk =
      Ok (if (blocksize_of (valp prec N) <? 36)%nat then -4 else 0, st', (N, put prec e E, put prec d D, p1, q1, put prec u1 U), pos1) /\
    rsa_key LP64 prec (put prec e E) (put prec d D) p1 q1 (put prec u1 U) N /\ least_exponent ebits (valp prec p1) (valp prec q1) E).
Proof.
  intros k prec. pose proof (clamp_keybits_range keybits) as Hk. fold k in Hk. split.
  { intros dm' bytes' fuel1 fuel2. unfold rsa_keygen. rewrite (clamp_keybits_range k), Hk. replace (Z.max 32 (Z.min k 2079)) with k by lia. reflexivity. }
  intros Hb H68 Hmod Heb Hst Hn He Hd Hp Hq Hu HlC HC Hlj HFj Hdraw Hpp Hqp. assert (68 <= k <= 2078) as Hkb by (split; [exact H68|]; apply clamped_top, Hmod). destruct (keygen_primes_ok trueRandByte k Hb Hkb fuel st p q u pos Hst Hp Hq Hu) as [[E _]|(r & E & H)]; fold prec in E; rewrite Hdraw in E; [discriminate E|injection E as <-].
  destruct H as (Hst1 & Hp1 & Hq1 & Hu1 & Hres). fold prec in Hp1, Hq1, Hu1, Hres. destruct Hres as [[_ Hpair]|[Hbad|Hbad]]; [|discriminate Hbad..]. destruct Hpair as [Hord Hbnd _ _].
  destruct (keygen_prec_ok k Hkb) as [Hprec _]. destruct (prime_bound_ok k Hkb) as [_ Hsq]. fold prec in Hprec, Hsq. specialize (Hsq Hmod). assert (valp prec q1 * valp prec q1 <= radix prec) as Hroom by nia.
  destruct (derive_rsakeys_ok LP64 prec n e d p1 q1 u1 ebits Hprec Hn He Hd Hp1 Hq1 Hu1 Hpp Hqp ltac:(change (2 ^ 32) with 4294967296; exact Hord) Hroom Heb (or_introl eq_refl) (or_introl eq_refl) (or_introl eq_refl) p1 q1 (or_introl (conj eq_refl eq_refl))) as (F & E & D & U & H).
  destruct (H F (le_n F)) as (_ & HK & _ & HE). destruct (self_test_ok prec st1 _ _ _ _ _ _ C junk HK Hst1 HlC HC Hlj HFj) as (st' & Etest & _). exists F, E, D, U, st'. intros fuel2 Hf N. split; [|auto].
  unfold rsa_keygen. rewrite Hk. fold (keygen_prec k). fold prec. rewrite Hdraw. cbn [mbind res_bind]. change (0 <? 0) with false. cbn iota.
  rewrite (proj1 (H fuel2 Hf)). cbn [mbind res_bind]. rewrite Etest. reflexivity.
Qed.

(** A stream that leads to two certified primes. *)
Definition witness_bytes (i : nat) : Z := nth i [0; 2; 28; 196; 0; 0; 0; 2; 225; 64; 0; 1] 0.
Lemma witness_bytes_ok i : 0 <= witness_bytes i < 256.
Proof. do 12 (destruct i as [|i]; [cbn; lia|]). destruct i; cbn; lia. Qed.

(** What the generator draws from these bytes. *)
Lemma witness_draws : let z := replicate MAX_UNIT_PRECISION 0 in
  ('(s, _, p, q, _, _) ← keygen_primes LP64 witness_bytes 3 (keygen_prec 70) init_smith z z z 70 0; mret (s, valp (keygen_prec 70) p, valp (keygen_prec 70) q)) = Ok (0, 26252410883, 33843838979).
Proof. vm_compute. reflexivity. Qed.

Lemma keygen_draws_witness : let z := replicate MAX_UNIT_PRECISION 0 in (forall i, 0 <= witness_bytes i < 256) /\ 68 <= 70 <= 2078 /\ smith_wf init_smith /\ reg (keygen_prec 70) z /\
  okp (keygen_primes LP64 witness_bytes 3 (keygen_prec 70) init_smith z z z 70 0) (fun r => let '(_, st', p', q', _, _) := r in smith_wf st' /\ valp 5 p' = 26252410883 /\ valp 5 q' = 33843838979).
Proof.
  intros z. assert (68 <= 70 <= 2078) as H70 by lia. assert (reg (keygen_prec 70) z) as Hz by (apply local_reg; vm_compute; lia). split; [exact witness_bytes_ok|]. split; [exact H70|]. split; [exact init_smith_wf|]. split; [exact Hz|].
  pose proof witness_draws as E2. cbv zeta in E2. fold z in E2.
  pose proof (keygen_draws witness_bytes 70 init_smith z z z 0 3 witness_bytes_ok H70 init_smith_wf Hz Hz Hz) as H.
  destruct (keygen_primes LP64 witness_bytes 3 (keygen_prec 70) init_smith z z z 70 0) as [[[[[[s st] p] q] u] pos]|err]; [|discriminate E2]. cbn [okp]. split; [apply H|]. clear H. cbn [mbind res_bind mret res_ret] in E2. injection E2 as _ Ep Eq. split; [exact Ep|exact Eq].
Defined.

Lemma rsa_keygen_key_witness : let z := replicate MAX_UNIT_PRECISION 0 in exists st1 p1 q1 u1 pos1,
  keygen_primes LP64 witness_bytes 3 (keygen_prec 70) init_smith z z z 70 0 = Ok (0, st1, p1, q1, u1, pos1) /\ prime (valp (keygen_prec 70) p1) /\ prime (valp (keygen_prec 70) q1) /\
  exists F E D U st', forall fuel2, (F <= fuel2)%nat -> rsa_keygen LP64 witness_bytes 3 fuel2 init_smith z z z z z z 70 5 0 z z =
    Ok (-4, st', (put (keygen_prec 70) z (26252410883 * 33843838979), put (keygen_prec 70) z E, put (keygen_prec 70) z D, p1, q1, put (keygen_prec 70) u1 U), pos1).
Proof.
  intros z. assert (68 <= 70) as H70 by lia. assert (reg (keygen_prec 70) z) as Hz by (apply local_reg; vm_compute; lia). assert (length z = MAX_UNIT_PRECISION) as Hl by apply length_replicate. assert (Forall (inU 16) z) as HF by apply Hz.
  assert ((70 + 1) mod 16 <> 0) as Hmod by discriminate. assert (5 <= 32) as H5 by lia.
  pose proof witness_draws as E2. cbv zeta in E2. fold z in E2.
  pose proof (fun st1 p1 q1 u1 pos1 => proj2 (rsa_keygen_key witness_bytes 3 init_smith z z z z z z 70 5 0 z z st1 p1 q1 u1 pos1) witness_bytes_ok H70 Hmod H5 init_smith_wf Hz Hz Hz Hz Hz Hz Hl HF Hl HF) as H. cbv zeta in H. change (Z.max 32 (Z.min 70 2079)) with 70 in H.
  destruct (keygen_primes LP64 witness_bytes 3 (keygen_prec 70) init_smith z z z 70 0) as [[[[[[s st1] p1] q1] u1] pos1]|err]; [|discriminate E2]. cbn [mbind res_bind mret res_ret] in E2. injection E2 as -> Ep Eq. specialize (H st1 p1 q1 u1 pos1 eq_refl).
  assert (prime 26252410883) as Pp by exact (double_check 100145 17 3 ltac:(vm_compute; reflexivity) ltac:(lia) ltac:(vm_compute; reflexivity) ltac:(vm_compute; discriminate)). assert (prime 33843838979) as Pq by exact (double_check 8069 21 3 ltac:(vm_compute; reflexivity) ltac:(lia) ltac:(vm_compute; reflexivity) ltac:(vm_compute; discriminate)).
  rewrite Ep, Eq in H. exists st1, p1, q1, u1, pos1. split; [reflexivity|]. rewrite Ep, Eq. split; [exact Pp|]. split; [exact Pq|]. destruct (H Pp Pq) as (F & E & D & U & st' & Hrun). exists F, E, D, U, st'. intros fuel2 Hf. destruct (Hrun fuel2 Hf) as [E1 _].
  assert ((blocksize_of (valp (keygen_prec 70) (put (keygen_prec 70) z (26252410883 * 33843838979))) <? 36)%nat = true) as Eb by (vm_compute; reflexivity). rewrite Eb in E1. exact E1.
Defined.
