(* ===== verification/TrueRand.v ===== *)
(** The random numbers of pgp (src/mibench/security/pgp/src/random.c, noise.c): the bits of entropy that the key
    strokes bring into the pool, and the generator of session keys that is seeded from it.

    The configuration is UNIX. What the clocks show is a stream of readings, and what the keyboard sends a stream
    of characters; a file is the list of its bytes, and writing to it succeeds. *)
From stdpp Require Import base list numbers option tactics sorting.
From Stdlib Require Import ZArith Lia.
From S2P Require Import Prelude Bytes Idea IdeaCfb Md5 RandPool.

(** * The code *)

(** What one call of [noise] reads: the bytes of the variables that go into the pool, the time of day, and the
    answers of [gettimeofday], seconds and microseconds, to [noiseTickSize]. *)
Record clocks := Clocks { cnow : list Z; tnow : list Z; tv : list Z; tv_sec : Z; tv_usec : Z; tms : list Z; ctime : list Z; ticks_tv : nat -> Z * Z }.

Definition DELTAS : Z := 15.
(** [qsort] with [noiseCompare], which subtracts as [int]. *)
Definition noiseCompare (a b : Z) : Z := s32 (s32 a - s32 b).
#[global] Instance noiseCompare_dec (a b : Z) : Decision (noiseCompare a b <= 0).
Proof. apply _. Defined.
Definition sort_deltas (l : list Z) : list Z := merge_sort (fun a b => noiseCompare a b <= 0) l.

(** The loop of [noiseTickSize]; [k] readings were taken. [j] counts the readings since the last tick, after 10001
    of them the loop gives up. *)
Fixpoint tick_loop (fuel : nat) (gettimeofday : nat -> Z * Z) (k : nat) (i j : Z) (tv_base tv_old : Z * Z) (deltas : list Z) : res Z :=
  match fuel with
  | O => Err OutOfFuel
  | S fuel =>
      let tv_new := gettimeofday k in
      let tick := tv_old.2 + 2 <? tv_new.2 in
      deltas ← (if tick : bool then aset deltas i (u32 (tv_new.2 - tv_base.2 + 1000000 * (tv_new.1 - tv_base.1))) else mret deltas);
      let '(i, j, tv_base) := if tick : bool then (i + 1, 0, tv_new) else (i, j, tv_base) in
      if 10000 <? j then mret 2
      else if i <? DELTAS then tick_loop fuel gettimeofday (S k) i (j + 1) tv_base tv_new deltas
      else deltas ← aread deltas 0 DELTAS; aget (sort_deltas deltas) (DELTAS / 2)
  end.
Definition tick_fuel : Z := 15 * 10002.
Definition noiseTickSize (gettimeofday : nat -> Z * Z) : res Z :=
  let tv_base := gettimeofday 0%nat in
  tick_loop (Z.to_nat tick_fuel) gettimeofday 1 0 0 tv_base tv_base (replicate 15 0).

(** The static variables, and how many readings and characters were taken. *)
Record true_rand := TrueRand { pool : rand_pool; lastcounter : Z; ticksize : Z; trueRandBits : Z; trueRandPending : Z; event1 : Z; event2 : Z; readings : nat; strokes : nat }.

Section Code.
Context (dm : data_model) (idea32 : bool) (clock : nat -> clocks) (getch : nat -> Z).
Implicit Types (s : true_rand) (r : rand_pool).

Definition set_pool s r : true_rand := TrueRand r (lastcounter s) (ticksize s) (trueRandBits s) (trueRandPending s) (event1 s) (event2 s) (readings s) (strokes s).
Definition set_bits s (bits : Z) : true_rand := TrueRand (pool s) (lastcounter s) (ticksize s) bits (trueRandPending s) (event1 s) (event2 s) (readings s) (strokes s).
Definition set_pending s (pending : Z) : true_rand := TrueRand (pool s) (lastcounter s) (ticksize s) (trueRandBits s) pending (event1 s) (event2 s) (readings s) (strokes s).
Definition set_events s (e1 e2 : Z) : true_rand := TrueRand (pool s) (lastcounter s) (ticksize s) (trueRandBits s) (trueRandPending s) e1 e2 (readings s) (strokes s).
Definition next_stroke s : true_rand := TrueRand (pool s) (lastcounter s) (ticksize s) (trueRandBits s) (trueRandPending s) (event1 s) (event2 s) (readings s) (S (strokes s)).

(** The number of ticks since the last call. A division by zero stops the program. *)
Definition noise s : res (true_rand * Z) :=
  let c := clock (readings s) in
  r ← randPoolAddBytes dm (pool s) (cnow c);
  r ← randPoolAddBytes dm r (tnow c);
  ticksize ← (if ticksize s =? 0 then noiseTickSize (ticks_tv c) else mret (ticksize s));
  r ← randPoolAddBytes dm r (tv c);
  let t := uL dm (tv_sec c * 1000000 + tv_usec c) in
  let delta := uL dm (t - lastcounter s) in
  delta ← (if ticksize =? 0 then Err DivByZero else mret (delta / ticksize));
  r ← randPoolAddBytes dm r (tms c);
  r ← randPoolAddBytes dm r (ctime c);
  mret (TrueRand r t ticksize (trueRandBits s) (trueRandPending s) (event1 s) (event2 s) (S (readings s)) (strokes s), delta).

Definition trueRandFlush s : res true_rand :=
  '(s, _) ← noise s;
  r ← randPoolStir dm (pool s); r ← randPoolStir dm r; r ← randPoolStir dm r; r ← randPoolStir dm r;
  mret (set_pool s r).

Definition trueRandConsume s (count : Z) : res true_rand :=
  if count <=? trueRandBits s then mret (set_bits s (trueRandBits s - count)) else Err AssertFailed.

(** [for (cbits = 0; delta; cbits++) delta >>= 1;] *)
Fixpoint count_bits (fuel : nat) (cbits delta : Z) : Z :=
  match fuel with O => cbits | S fuel => if delta =? 0 then cbits else count_bits fuel (cbits + 1) (delta ≫ 1) end.

Definition trueRandEvent s (event : Z) : res (true_rand * Z) :=
  '(s, delta) ← noise s;
  r ← randPoolAddBytes dm (pool s) (le_bytes 4 (u32 event));
  let s := set_pool s r in
  let '(s, cbits) :=
    if (event =? event1 s) && (event =? event2 s) then (s, 0)
    else let s := set_events s event (event1 s) in
         let cbits := count_bits (Z.to_nat (long_bits dm)) 0 delta in (s, if 8 <? cbits then 8 else cbits) in
  let bits := u32 (trueRandBits s + cbits) in
  mret (set_bits s (if RANDPOOLBITS <? bits then RANDPOOLBITS else bits), cbits).

Definition trueRandAccumLater s (bitcount : Z) : true_rand := set_pending s (u32 (trueRandPending s + bitcount)).

(** [do { ... c = getch(); ... trueRandEvent(c) ... } while (trueRandBits < count);] *)
Fixpoint accum_loop (fuel : nat) s (count : Z) : res true_rand :=
  match fuel with
  | O => Err OutOfFuel
  | S fuel =>
      let c := getch (strokes s) in
      '(s, _) ← trueRandEvent (next_stroke s) c;
      if trueRandBits s <? count then accum_loop fuel s count else mret s
  end.
Definition trueRandAccum (fuel : nat) s (count : Z) : res true_rand :=
  let count := u32 (count + trueRandPending s) in
  let s := set_pending s 0 in
  let count := if RANDPOOLBITS <? count then RANDPOOLBITS else count in
  if count <=? trueRandBits s then mret s else accum_loop fuel s count.

Definition trueRandByte (fuel : nat) s : res (true_rand * Z) :=
  s ← (if negb (trueRandPending s =? 0) then trueRandAccum fuel s 0 else mret s);
  '(r, b) ← randPoolGetByte dm (pool s); mret (set_pool s r, b).

Definition init_true_rand : true_rand := TrueRand (init_pool dm) 0 0 0 0 0 0 0 0.
End Code.

Example true_rand_run : let clk := fun i => Clocks [1; 2] [3; 4] [5; 6] (1000 + Z.of_nat i) 7 [8] [9] (fun k => (5, 10 * Z.of_nat k)) in let key := fun i => 97 + Z.of_nat i mod 2 in
  (s ← trueRandAccum ILP32 clk key 20 (init_true_rand ILP32) 20; s ← trueRandConsume s 5; '(s, b) ← trueRandByte ILP32 clk key 20 s; mret (trueRandBits s, readings s, strokes s)) = Ok (19, 3%nat, 3%nat).
Proof. vm_compute. reflexivity. Qed.

(** ** The size of a tick *)

Section Tick.
Context (gettimeofday : nat -> Z * Z).
Implicit Types (k : nat) (i j : Z).

(** The time of day in microseconds. *)
Definition usecs (t : Z * Z) : Z := 1000000 * t.1 + t.2.
(** Microseconds below a second, time that does not run backwards, and less than 35 minutes for all the readings. *)
Definition clock_runs_on : Prop := forall k, Z.of_nat k <= tick_fuel ->
  0 <= (gettimeofday k).2 < 1000000 /\ usecs (gettimeofday k) <= usecs (gettimeofday (S k)) /\ usecs (gettimeofday k) - usecs (gettimeofday 0%nat) < 2 ^ 31.
Hypothesis runs : clock_runs_on.

Lemma usecs_from_start k : Z.of_nat k <= tick_fuel -> usecs (gettimeofday 0%nat) <= usecs (gettimeofday k).
Proof. induction k as [|k IH]; intros Hk; [lia|]. destruct (runs k ltac:(lia)) as (_ & H & _). specialize (IH ltac:(lia)). lia. Qed.

Definition delta_ok (d : Z) : Prop := 3 <= d < 2 ^ 31.

Lemma tick_loop_ok fuel : forall k i j tv_base deltas, 0 <= i < 15 -> 0 <= j <= 10001 -> (15 - i) * 10002 - j <= Z.of_nat fuel -> Z.of_nat (S k) + ((15 - i) * 10002 - j) <= tick_fuel + 1 ->
  length deltas = 15%nat -> Forall delta_ok (take (Z.to_nat i) deltas) -> usecs (gettimeofday 0%nat) <= usecs tv_base <= usecs (gettimeofday k) ->
  okp (tick_loop fuel gettimeofday (S k) i j tv_base (gettimeofday k) deltas) (fun t => 0 < t < 2 ^ 31).
Proof.
  induction fuel as [|fuel IH]; intros k i j tv_base deltas Hi Hj Hf Hk Hl HF Hb; [unfold tick_fuel in *; lia|]. cbn [tick_loop].
  destruct (runs k ltac:(unfold tick_fuel in *; lia)) as (U1 & Hm & _). destruct (runs (S k) ltac:(unfold tick_fuel in *; lia)) as (U2 & _ & Hw).
  destruct (Z.ltb_spec ((gettimeofday k).2 + 2) (gettimeofday (S k)).2) as [Ht|Ht].
  - set (d := u32 _). assert (delta_ok d) as Hd.
    { unfold d, wrapU, delta_ok. change (2 ^ 32) with 4294967296. change (2 ^ 31) with 2147483648 in *. unfold usecs in *.
      rewrite Z.mod_small by lia. lia. }
    rewrite (proj2 (aset_ok deltas i d (<[Z.to_nat i := d]> deltas))) by (split; [lia|reflexivity]). cbn [mbind res_bind].
    assert (Forall delta_ok (take (Z.to_nat (i + 1)) (<[Z.to_nat i := d]> deltas))) as HF'.
    { replace (Z.to_nat (i + 1)) with (S (Z.to_nat i)) by lia. rewrite (take_S_r _ _ d) by (apply list_lookup_insert_eq; lia). rewrite take_insert_ge by lia. apply Forall_app_2; [exact HF|constructor; [exact Hd|constructor]]. }
    change (10000 <? 0) with false. cbv iota. unfold DELTAS. destruct (Z.ltb_spec (i + 1) 15) as [H15|H15].
    + apply IH; [lia|lia|lia|lia|now rewrite length_insert|exact HF'|lia].
    + assert (length (<[Z.to_nat i := d]> deltas) = 15%nat) as Hl' by now rewrite length_insert. generalize dependent (<[Z.to_nat i := d]> deltas). intros l HFl Hll.
      eapply okp_bind_eq; [apply aread_all; lia|]. rewrite take_ge in HFl by lia.
      assert (sort_deltas l ≡ₚ l) as Hp by apply merge_sort_Permutation. apply okp_aget_len; [rewrite Hp, Hll; change (15 / 2) with 7; lia|].
      intros v Hv. rewrite <- Hp in HFl. pose proof (Forall_lookup_1 _ _ _ _ HFl Hv) as H. unfold delta_ok in H. lia.
  - cbn [mret res_ret mbind res_bind]. destruct (Z.ltb_spec 10000 j); [cbn; lia|]. unfold DELTAS. rewrite (proj2 (Z.ltb_lt i 15)) by lia. apply IH; (assumption || lia).
Qed.

Lemma noiseTickSize_ok : okp (noiseTickSize gettimeofday) (fun t => 0 < t < 2 ^ 31).
Proof.
  unfold noiseTickSize. apply tick_loop_ok; [lia|lia|unfold tick_fuel; lia|unfold tick_fuel; lia|reflexivity|constructor|lia].
Qed.
End Tick.

(** * The invariant *)

Section Invariant.
Context (dm : data_model) (clock : nat -> clocks) (getch : nat -> Z).
Implicit Types (s : true_rand) (r : rand_pool) (c : clocks).

Definition clocks_ok c : Prop := Forall (inU 8) (cnow c) /\ Forall (inU 8) (tnow c) /\ Forall (inU 8) (tv c) /\ Forall (inU 8) (tms c) /\ Forall (inU 8) (ctime c) /\ clock_runs_on (ticks_tv c).
Hypothesis clock_ok : forall i, clocks_ok (clock i).

Record rand_typed s : Prop := RandTyped {
  rt_pool : pool_ok dm (pool s);
  rt_bits : 0 <= trueRandBits s <= RANDPOOLBITS;
  rt_pending : inU 32 (trueRandPending s);
  rt_tick : 0 <= ticksize s }.

Lemma add_bytes_ok r buf : pool_ok dm r -> Forall (inU 8) buf -> okp (randPoolAddBytes dm r buf) (pool_ok dm).
Proof. intros Hr HF. apply add_loop_ok; [exact Hr|exact HF|]. destruct (randPoolAddPos r =? _); cbn [Z.b2z]; lia. Qed.

(** What a reading of the clocks leaves. *)
Definition tick_size (i : nat) : Z := okd 0 (noiseTickSize (ticks_tv (clock i))).
Definition tick_of s : Z := if ticksize s =? 0 then tick_size (readings s) else ticksize s.
Lemma tick_size_ok i : noiseTickSize (ticks_tv (clock i)) = Ok (tick_size i) /\ 0 < tick_size i.
Proof.
  destruct (clock_ok i) as (_ & _ & _ & _ & _ & Hr). pose proof (noiseTickSize_ok _ Hr) as H. unfold tick_size.
  destruct (noiseTickSize _) as [t|]; [|contradiction]. split; [reflexivity|apply H].
Qed.
Definition time_of (i : nat) : Z := uL dm (tv_sec (clock i) * 1000000 + tv_usec (clock i)).
Definition elapsed s : Z := uL dm (time_of (readings s) - lastcounter s) / tick_of s.
Definition after_noise s s' : Prop := rand_typed s' /\ lastcounter s' = time_of (readings s) /\ ticksize s' = tick_of s /\ trueRandBits s' = trueRandBits s /\ trueRandPending s' = trueRandPending s /\
  event1 s' = event1 s /\ event2 s' = event2 s /\ readings s' = S (readings s) /\ strokes s' = strokes s.

Lemma tick_pos s : rand_typed s -> 0 < tick_of s.
Proof. intros Hs. unfold tick_of. pose proof (rt_tick _ Hs). destruct (tick_size_ok (readings s)) as [_ Hn]. destruct (Z.eqb_spec (ticksize s) 0); lia. Qed.

Lemma noise_ok s : rand_typed s -> okp (noise dm clock s) (fun x => after_noise s x.1 /\ x.2 = elapsed s).
Proof.
  intros Hs. pose proof (tick_pos s Hs) as Ht. destruct Hs as [Hp Hb Hq Hk]. destruct (clock_ok (readings s)) as (H1 & H2 & H3 & H4 & H5 & _). unfold noise.
  eapply okp_bind; [apply add_bytes_ok; [exact Hp|exact H1]|]. intros r1 R1. eapply okp_bind; [apply add_bytes_ok; [exact R1|exact H2]|]. intros r2 R2.
  eapply okp_bind_eq with (a := tick_of s); [unfold tick_of; destruct (ticksize s =? 0); [apply tick_size_ok|reflexivity]|]. eapply okp_bind; [apply add_bytes_ok; [exact R2|exact H3]|]. intros r3 R3.
  rewrite (proj2 (Z.eqb_neq (tick_of s) 0)) by lia. cbn [mret res_ret mbind res_bind].
  eapply okp_bind; [apply add_bytes_ok; [exact R3|exact H4]|]. intros r4 R4. eapply okp_bind; [apply add_bytes_ok; [exact R4|exact H5]|]. intros r5 R5.
  cbn [mret res_ret okp fst snd]. split; [|reflexivity]. unfold after_noise. cbn. split; [split; cbn; (assumption || lia)|]. auto 10.
Qed.

(** The estimate of an event: eight bits at most, and none for the third of three equal characters. *)
Definition credit s (event : Z) : Z :=
  if (event =? event1 s) && (event =? event2 s) then 0 else if elapsed s =? 0 then 0 else Z.min 8 (Z.log2 (elapsed s) + 1).

Lemma count_bits_ok fuel : forall k x, 0 <= x < 2 ^ Z.of_nat fuel -> count_bits fuel k x = k + (if x =? 0 then 0 else Z.log2 x + 1).
Proof.
  induction fuel as [|fuel IH]; intros k x Hx.
  - change (2 ^ Z.of_nat 0) with 1 in Hx. assert (x = 0) as -> by lia. cbn. lia.
  - cbn [count_bits]. destruct (Z.eqb_spec x 0) as [->|Hne]; [lia|]. rewrite Nat2Z.inj_succ, Z.pow_succ_r in Hx by lia. rewrite IH by (rewrite Z.shiftr_div_pow2 by lia; change (2 ^ 1) with 2; dlia).
    rewrite Z.shiftr_div_pow2 by lia. change (2 ^ 1) with 2. destruct (Z.eqb_spec (x / 2) 0) as [E|E]; [assert (x = 1) as -> by dlia; change (Z.log2 1) with 0; lia|].
    assert (Z.log2 x = Z.succ (Z.log2 (x / 2))) as ->; [|lia]. apply Z.log2_unique; [pose proof (Z.log2_nonneg (x / 2)); lia|]. pose proof (Z.log2_spec (x / 2) ltac:(dlia)) as [L1 L2]. pose proof (Z.log2_nonneg (x / 2)). rewrite !Z.pow_succ_r in * by lia. split; dlia.
Qed.

Lemma elapsed_range s : rand_typed s -> 0 <= elapsed s < 2 ^ long_bits dm.
Proof.
  intros Hs. pose proof (tick_pos s Hs) as Ht. unfold elapsed. assert (0 <= long_bits dm) as Hw by (destruct dm; cbn; lia). pose proof (wrapU_range (long_bits dm) (time_of (readings s) - lastcounter s) Hw) as [H1 H2]. split; [apply Z.div_pos; lia|]. apply Z.div_lt_upper_bound; nia.
Qed.

Lemma credit_range s event : 0 <= credit s event <= 8.
Proof. unfold credit. destruct (_ && _); [lia|]. destruct (elapsed s =? 0); [lia|]. pose proof (Z.log2_nonneg (elapsed s)). lia. Qed.

(** What an event changes. *)
Definition after_event s (event : Z) s' : Prop := rand_typed s' /\ lastcounter s' = time_of (readings s) /\ ticksize s' = tick_of s /\ trueRandBits s' = Z.min RANDPOOLBITS (trueRandBits s + credit s event) /\ trueRandPending s' = trueRandPending s /\
  (if (event =? event1 s) && (event =? event2 s) then event1 s' = event1 s /\ event2 s' = event2 s else event1 s' = event /\ event2 s' = event1 s) /\ readings s' = S (readings s) /\ strokes s' = strokes s.

Lemma event_ok s event : rand_typed s -> okp (trueRandEvent dm clock s event) (fun x => after_event s event x.1 /\ x.2 = credit s event).
Proof.
  intros Hs. unfold trueRandEvent. eapply okp_bind; [apply (noise_ok s Hs)|]. intros [s1 d] [(T1 & L1 & K1 & B1 & P1 & E1 & E2 & R1 & S1) Hd]. cbn [fst snd] in *. subst d. eapply okp_bind; [apply add_bytes_ok; [apply T1|apply le_bytes_bytes]|]. intros r R.
  cbn [set_pool set_events event1 event2 trueRandBits]. rewrite E1, E2. pose proof (rt_bits s Hs) as Hb. change RANDPOOLBITS with 3072 in *. pose proof (credit_range s event) as Hc. pose proof (elapsed_range s Hs) as Hel.
  assert (forall cb, 0 <= cb <= 8 -> (if 3072 <? u32 (trueRandBits s + cb) then 3072 else u32 (trueRandBits s + cb)) = Z.min 3072 (trueRandBits s + cb)) as Hmin by (intros cb Hcb; unfold wrapU; change (2 ^ 32) with 4294967296; rewrite Z.mod_small by lia; destruct (Z.ltb_spec 3072 (trueRandBits s + cb)); lia).
  unfold credit in *. unfold after_event, credit. destruct ((event =? event1 s) && (event =? event2 s)) eqn:Ev.
  - cbn [mret res_ret okp fst snd trueRandBits set_pool set_events]. rewrite B1, Hmin by lia. cbn. split; [|reflexivity]. split; [split; cbn; [exact R|unfold RANDPOOLBITS; lia|apply T1|apply T1]|]. auto 10.
  - assert (count_bits (Z.to_nat (long_bits dm)) 0 (elapsed s) = if elapsed s =? 0 then 0 else Z.log2 (elapsed s) + 1) as -> by (rewrite count_bits_ok by (rewrite Z2Nat.id by (destruct dm; cbn; lia); exact Hel); reflexivity).
    set (cb := if elapsed s =? 0 then 0 else Z.min 8 (Z.log2 (elapsed s) + 1)) in *. assert ((if 8 <? (if elapsed s =? 0 then 0 else Z.log2 (elapsed s) + 1) then 8 else if elapsed s =? 0 then 0 else Z.log2 (elapsed s) + 1) = cb) as -> by (unfold cb; destruct (elapsed s =? 0); [reflexivity|]; destruct (Z.ltb_spec 8 (Z.log2 (elapsed s) + 1)); lia).
    cbn [mret res_ret okp fst snd trueRandBits set_pool set_events]. rewrite B1, Hmin by lia. cbn. split; [|reflexivity]. split; [split; cbn; [exact R|unfold RANDPOOLBITS; lia|apply T1|apply T1]|]. auto 10.
Qed.

Lemma get_byte_ok r : pool_ok dm r -> okp (randPoolGetByte dm r) (fun x => pool_ok dm x.1 /\ inU 8 x.2).
Proof.
  intros Hr. destruct (get_bytes_fact dm r 1 Hr ltac:(lia)) as [E H]. rewrite E in H. change (Z.to_nat 1) with 1%nat in H. cbn [get_each] in H. destruct (randPoolGetByte dm r) as [[r' b]|e]; [|contradiction].
  cbn [mbind res_bind mret res_ret okp fst snd] in *. destruct H as (H1 & _ & H2). split; [exact H1|]. exact (Forall_inv H2).
Qed.

Lemma consume_ok s n : rand_typed s -> 0 <= n -> if n <=? trueRandBits s then trueRandConsume s n = Ok (set_bits s (trueRandBits s - n)) /\ rand_typed (set_bits s (trueRandBits s - n)) else trueRandConsume s n = Err AssertFailed.
Proof.
  intros [H1 H2 H3 H4] Hn. unfold trueRandConsume. destruct (Z.leb_spec n (trueRandBits s)); [|reflexivity]. split; [reflexivity|]. split; cbn; (assumption || lia).
Qed.

Lemma accum_loop_ok fuel : forall s count, rand_typed s -> match accum_loop dm clock getch fuel s count with Ok s' => rand_typed s' /\ count <= trueRandBits s' /\ trueRandPending s' = trueRandPending s | Err e => e = OutOfFuel end.
Proof.
  induction fuel as [|fuel IH]; intros s count Hs; [reflexivity|]. cbn [accum_loop]. assert (rand_typed (next_stroke s)) as Hs1 by (destruct Hs; split; assumption).
  pose proof (event_ok (next_stroke s) (getch (strokes s)) Hs1) as H. apply okp_ok in H as ([s' n] & E & (T & _ & _ & _ & P & _) & _). rewrite E. cbn [mbind res_bind fst] in *. destruct (Z.ltb_spec (trueRandBits s') count) as [Hlt|Hge].
  - specialize (IH s' count T). destruct (accum_loop dm clock getch fuel s' count) as [s2|e]; [|exact IH]. destruct IH as (H1 & H2 & H3). split; [exact H1|]. split; [exact H2|]. rewrite H3. exact P.
  - cbn. split; [exact T|]. split; [lia|exact P].
Qed.

(** The bits that an accumulation asks for. *)
Definition wanted s (count : Z) : Z := Z.min RANDPOOLBITS (u32 (count + trueRandPending s)).

Lemma accum_unfold fuel s count : trueRandAccum dm clock getch fuel s count = if wanted s count <=? trueRandBits s then Ok (set_pending s 0) else accum_loop dm clock getch fuel (set_pending s 0) (wanted s count).
Proof.
  unfold trueRandAccum. assert ((if RANDPOOLBITS <? u32 (count + trueRandPending s) then RANDPOOLBITS else u32 (count + trueRandPending s)) = wanted s count) as -> by (unfold wanted; destruct (Z.ltb_spec RANDPOOLBITS (u32 (count + trueRandPending s))); lia). reflexivity.
Qed.

Lemma pending_typed s x : rand_typed s -> inU 32 x -> rand_typed (set_pending s x).
Proof. intros [H1 H2 H3 H4] Hx. split; assumption. Qed.

Lemma accum_ok fuel s count : rand_typed s -> match trueRandAccum dm clock getch fuel s count with Ok s' => rand_typed s' /\ wanted s count <= trueRandBits s' /\ trueRandPending s' = 0 | Err e => e = OutOfFuel end.
Proof.
  intros Hs. rewrite accum_unfold. assert (rand_typed (set_pending s 0)) as H0 by (apply pending_typed; [exact Hs|unfold inU; lia]). destruct (Z.leb_spec (wanted s count) (trueRandBits s)); [cbn; auto|]. apply accum_loop_ok, H0.
Qed.

Lemma byte_ok fuel s : rand_typed s -> match trueRandByte dm clock getch fuel s with
  | Ok (s', b) => rand_typed s' /\ inU 8 b /\ (trueRandPending s = 0 -> trueRandBits s' = trueRandBits s /\ trueRandPending s' = 0) | Err e => e = OutOfFuel /\ trueRandPending s <> 0 end.
Proof.
  intros Hs. unfold trueRandByte. assert (forall s, rand_typed s -> exists r b, randPoolGetByte dm (pool s) = Ok (r, b) /\ rand_typed (set_pool s r) /\ inU 8 b) as Hget.
  { clear s Hs. intros s [H1 H2 H3 H4]. pose proof (get_byte_ok (pool s) H1) as H. apply okp_ok in H as ([r b] & E & Hr & Hb). exists r, b. split; [exact E|]. split; [split; assumption|exact Hb]. }
  destruct (Z.eqb_spec (trueRandPending s) 0) as [E0|E0]; cbn [negb].
  - cbn [mret res_ret mbind res_bind]. destruct (Hget s Hs) as (r & b & -> & H1 & H2). cbn [mbind res_bind mret res_ret]. auto.
  - pose proof (accum_ok fuel s 0 Hs) as H. destruct (trueRandAccum dm clock getch fuel s 0) as [s1|e]; [|cbn; auto]. cbn [mbind res_bind]. destruct (Hget s1 (proj1 H)) as (r & b & -> & H1 & H2). cbn [mbind res_bind mret res_ret]. split; [exact H1|]. split; [exact H2|]. intros; contradiction.
Qed.

(** A byte with bits pending: the accumulation is made good first; the key strokes can only run out when the
    estimate does not cover the pending bits. *)
Lemma wanted_pending s : rand_typed s -> wanted s 0 = Z.min RANDPOOLBITS (trueRandPending s).
Proof. intros Hs. pose proof (rt_pending s Hs) as H. unfold wanted. rewrite Z.add_0_l, wrapU_id by exact H. reflexivity. Qed.

Lemma take_byte s : rand_typed s -> exists r b, randPoolGetByte dm (pool s) = Ok (r, b) /\ rand_typed (set_pool s r) /\ inU 8 b.
Proof.
  intros [H1 H2 H3 H4]. pose proof (get_byte_ok (pool s) H1) as H. apply okp_ok in H as ([r b] & E & Hr & Hb). exists r, b. split; [exact E|]. split; [split; assumption|exact Hb].
Qed.

Lemma byte_pending fuel s : rand_typed s -> match trueRandByte dm clock getch fuel s with
  | Ok (s', b) => inU 8 b /\ trueRandPending s' = 0 /\ Z.min RANDPOOLBITS (trueRandPending s) <= trueRandBits s' /\ (trueRandPending s <= trueRandBits s -> trueRandBits s' = trueRandBits s)
  | Err e => e = OutOfFuel /\ trueRandBits s < Z.min RANDPOOLBITS (trueRandPending s) end.
Proof.
  intros Hs. unfold trueRandByte. pose proof (rt_bits s Hs) as Hb. destruct (Z.eqb_spec (trueRandPending s) 0) as [E0|E0]; cbn [negb].
  - cbn [mret res_ret mbind res_bind]. destruct (take_byte s Hs) as (r & b & -> & H1 & H2). cbn [mbind res_bind mret res_ret set_pool trueRandPending trueRandBits]. unfold RANDPOOLBITS. split; [exact H2|]. split; [exact E0|]. split; lia.
  - rewrite <- (wanted_pending s Hs). pose proof (accum_ok fuel s 0 Hs) as H. rewrite accum_unfold in *. pose proof (rt_pending s Hs) as Hp. unfold inU in Hp.
    destruct (Z.leb_spec (wanted s 0) (trueRandBits s)) as [Hle|Hlt].
    + cbn [mbind res_bind]. destruct (take_byte (set_pending s 0) (proj1 H)) as (r & b & -> & H1 & H2). cbn [mbind res_bind mret res_ret]. cbn. auto.
    + destruct (accum_loop dm clock getch fuel (set_pending s 0) (wanted s 0)) as [s1|e]; [|split; [exact H|exact Hlt]]. destruct H as (T & W & P). cbn [mbind res_bind].
      destruct (take_byte s1 T) as (r & b & -> & H1 & H2). cbn [mbind res_bind mret res_ret set_pool trueRandPending trueRandBits]. split; [exact H2|]. split; [exact P|]. split; [exact W|]. intros Hle. rewrite (wanted_pending s Hs) in Hlt. lia.
Qed.

Lemma stir_typed r : pool_ok dm r -> okp (randPoolStir dm r) (pool_ok dm).
Proof. intros Hr. eapply okp_mono; [apply (randPoolStir_ok dm r Hr)|]. intros r' (H & _). exact H. Qed.

Lemma flush_ok s : rand_typed s -> okp (trueRandFlush dm clock s) (fun s' => rand_typed s' /\ trueRandBits s' = trueRandBits s).
Proof.
  intros Hs. unfold trueRandFlush. eapply okp_bind; [apply (noise_ok s Hs)|]. intros [s1 d] [(T1 & _ & _ & B1 & _) _]. cbn [fst] in *. destruct T1 as [H1 H2 H3 H4].
  eapply okp_bind; [apply stir_typed, H1|]. intros r1 R1. eapply okp_bind; [apply stir_typed, R1|]. intros r2 R2. eapply okp_bind; [apply stir_typed, R2|]. intros r3 R3. eapply okp_bind; [apply stir_typed, R3|]. intros r4 R4.
  cbn [mret res_ret okp]. split; [split; assumption|exact B1].
Qed.

(** The calls that change the statics, and the states that they reach. *)
Inductive rand_step : true_rand -> true_rand -> Prop :=
  | step_event s event s' n : trueRandEvent dm clock s event = Ok (s', n) -> rand_step s s'
  | step_later s n : rand_step s (trueRandAccumLater s n)
  | step_accum fuel s n s' : trueRandAccum dm clock getch fuel s n = Ok s' -> rand_step s s'
  | step_consume s n s' : 0 <= n -> trueRandConsume s n = Ok s' -> rand_step s s'
  | step_byte fuel s s' b : trueRandByte dm clock getch fuel s = Ok (s', b) -> rand_step s s'
  | step_flush s s' : trueRandFlush dm clock s = Ok s' -> rand_step s s'.

Inductive rand_reachable : true_rand -> Prop :=
  | reach_init : rand_reachable (init_true_rand dm)
  | reach_step s s' : rand_reachable s -> rand_step s s' -> rand_reachable s'.

Lemma step_typed s s' : rand_typed s -> rand_step s s' -> rand_typed s'.
Proof.
  intros Hs Hstep. revert Hs. destruct Hstep as [s0 event s1 n E|s0 n|fuel s0 n s1 E|s0 n s1 Hn E|fuel s0 s1 b E|s0 s1 E]; intros Hs.
  - pose proof (event_ok s0 event Hs) as H. rewrite E in H. apply H.
  - apply pending_typed; [exact Hs|apply wrapU_range; lia].
  - pose proof (accum_ok fuel s0 n Hs) as H. rewrite E in H. apply H.
  - pose proof (consume_ok s0 n Hs Hn) as H. rewrite E in H. destruct (n <=? trueRandBits s0); [|discriminate H]. destruct H as [[= ->] H]. exact H.
  - pose proof (byte_ok fuel s0 Hs) as H. rewrite E in H. apply H.
  - pose proof (flush_ok s0 Hs) as H. rewrite E in H. apply H.
Qed.

Lemma reachable_typed s : rand_reachable s -> rand_typed s.
Proof.
  induction 1 as [|s s' _ IH Hstep]; [|exact (step_typed s s' IH Hstep)]. split; cbn; [apply init_pool_ok|unfold RANDPOOLBITS; lia|unfold inU; lia|lia].
Qed.
End Invariant.

(** * Liveness *)

Section Live.
Context (dm : data_model) (clock : nat -> clocks) (getch : nat -> Z) (tick : Z).
Implicit Types (s : true_rand).
Hypothesis clock_ok : forall i, clocks_ok (clock i).
Hypothesis clock_tick : forall i, noiseTickSize (ticks_tv (clock i)) = Ok tick.
(** Between two readings at least one tick passes, and no character comes three times in a row. *)
Hypothesis clock_runs : forall i, tick <= uL dm (time_of dm clock (S i) - time_of dm clock i).
Hypothesis keys_vary : forall i, getch (S i) <> getch i \/ getch (S (S i)) <> getch (S i).

(** The statics fit the environment. *)
Record lively s : Prop := Lively {
  li_tick : ticksize s = 0 \/ ticksize s = tick;
  li_clock : tick <= uL dm (time_of dm clock (readings s) - lastcounter s);
  li_key : getch (strokes s) <> event1 s \/ getch (strokes s) <> event2 s;
  li_next : getch (S (strokes s)) <> getch (strokes s) \/ getch (strokes s) <> event1 s }.

Lemma tick_is s : ticksize s = 0 \/ ticksize s = tick -> tick_of clock s = tick.
Proof. intros [E|E]; unfold tick_of; rewrite E; [rewrite Z.eqb_refl|destruct (tick =? 0); [|reflexivity]]; unfold tick_size; rewrite clock_tick; reflexivity. Qed.

Lemma live_credit s : rand_typed dm s -> lively s -> 1 <= credit dm clock s (getch (strokes s)).
Proof.
  intros Hs [H1 H2 H3 _]. unfold credit. assert ((getch (strokes s) =? event1 s) && (getch (strokes s) =? event2 s) = false) as -> by (apply andb_false_iff; destruct H3; [left|right]; apply Z.eqb_neq; assumption).
  assert (1 <= elapsed dm clock s) as He. { unfold elapsed. pose proof (tick_pos dm clock clock_ok s Hs) as Ht. rewrite (tick_is s H1) in *. apply Z.div_le_lower_bound; lia. }
  rewrite (proj2 (Z.eqb_neq _ 0)) by lia. pose proof (Z.log2_nonneg (elapsed dm clock s)). lia.
Qed.

Lemma live_event s : rand_typed dm s -> lively s ->
  okp (trueRandEvent dm clock (next_stroke s) (getch (strokes s))) (fun x => rand_typed dm x.1 /\ lively x.1 /\ Z.min RANDPOOLBITS (trueRandBits s + 1) <= trueRandBits x.1 /\ strokes x.1 = S (strokes s)).
Proof.
  intros Hs Hl. assert (rand_typed dm (next_stroke s)) as Hs1 by (destruct Hs; split; assumption). eapply okp_mono; [exact (event_ok dm clock getch clock_ok (next_stroke s) (getch (strokes s)) Hs1)|].
  intros [s' n] [(T & L & K & B & _ & Ev & R & S) _]. cbn [fst] in *. pose proof (live_credit s Hs Hl) as Hc. destruct Hl as [H1 H2 H3 H4]. change (credit dm clock (next_stroke s) (getch (strokes s))) with (credit dm clock s (getch (strokes s))) in B.
  cbn [next_stroke event1 event2 trueRandBits readings strokes] in *. assert ((getch (strokes s) =? event1 s) && (getch (strokes s) =? event2 s) = false) as Eb by (apply andb_false_iff; destruct H3; [left|right]; apply Z.eqb_neq; assumption).
  rewrite Eb in Ev. destruct Ev as [E1 E2]. split; [exact T|]. split; [|split; [rewrite B; lia|exact S]]. split.
  - right. rewrite K. apply tick_is, H1.
  - rewrite R, L. apply clock_runs.
  - rewrite S, E1, E2. destruct (Z.eq_dec (getch (Datatypes.S (strokes s))) (getch (strokes s))) as [E|E]; [right; rewrite E; tauto|left; exact E].
  - rewrite S, E1. destruct (keys_vary (strokes s)) as [H|H]; [right; exact H|left; exact H].
Qed.

Lemma accum_loop_live fuel : forall s count, rand_typed dm s -> lively s -> count <= RANDPOOLBITS -> (1 <= fuel)%nat -> count - trueRandBits s <= Z.of_nat fuel ->
  okp (accum_loop dm clock getch fuel s count) (fun s' => count <= trueRandBits s' /\ (strokes s < strokes s' <= strokes s + fuel)%nat).
Proof.
  induction fuel as [|fuel IH]; intros s count Hs Hl Hcap H1 Hf; [lia|]. cbn [accum_loop]. eapply okp_bind; [exact (live_event s Hs Hl)|]. intros [s' n] (T & L & B & S). cbn [fst] in *. pose proof (rt_bits dm s Hs) as Hb. destruct (Z.ltb_spec (trueRandBits s') count) as [Hlt|Hge].
  - eapply okp_mono; [apply (IH s' count T L Hcap); lia|]. intros s2 [H3 H4]. split; [exact H3|lia].
  - cbn. split; [lia|lia].
Qed.

Lemma byte_live fuel s : rand_typed dm s -> lively s -> Z.min RANDPOOLBITS (trueRandPending s) - trueRandBits s <= Z.of_nat fuel ->
  exists s' b, trueRandByte dm clock getch fuel s = Ok (s', b) /\ (strokes s <= strokes s' <= strokes s + fuel)%nat.
Proof.
  intros Hs Hl Hf. unfold trueRandByte. destruct (Z.eqb_spec (trueRandPending s) 0) as [E0|E0]; cbn [negb].
  { cbn [mret res_ret mbind res_bind]. destruct (take_byte dm s Hs) as (r & b & -> & _). cbn [mbind res_bind mret res_ret]. eexists _, _. split; [reflexivity|cbn; lia]. }
  rewrite accum_unfold, (wanted_pending dm s Hs). assert (rand_typed dm (set_pending s 0)) as H0 by (apply pending_typed; [exact Hs|unfold inU; lia]).
  destruct (Z.leb_spec (Z.min RANDPOOLBITS (trueRandPending s)) (trueRandBits s)) as [Hle|Hlt].
  - cbn [mbind res_bind]. destruct (take_byte dm (set_pending s 0) H0) as (r & b & -> & _). cbn [mbind res_bind mret res_ret]. eexists _, _. split; [reflexivity|cbn; lia].
  - assert (lively (set_pending s 0)) as Hl0 by (destruct Hl; split; assumption).
    pose proof (accum_loop_live fuel (set_pending s 0) (Z.min RANDPOOLBITS (trueRandPending s)) H0 Hl0 ltac:(lia) ltac:(lia) Hf) as H. apply okp_ok in H as (s1 & E & _ & HS).
    pose proof (accum_loop_ok dm clock getch clock_ok fuel (set_pending s 0) (Z.min RANDPOOLBITS (trueRandPending s)) H0) as T. rewrite E in *. destruct T as [T _]. cbn [mbind res_bind].
    destruct (take_byte dm s1 T) as (r & b & -> & _). cbn [mbind res_bind mret res_ret]. eexists _, _. split; [reflexivity|]. cbn in *. lia.
Qed.
End Live.

(** * The theorems *)

(** C20: Type safety of the random pool and its counters: for clocks whose time of day does
    not run backwards, and is measured in less than 35 minutes, in every state that any calls
    reach the pool and the counters are well formed; an event and a flush never fail there, an
    event adds at most 8 bits, none for the third of three equal characters and never beyond the
    size of the pool, and a claim fails its assertion exactly when it exceeds the estimate. A
    byte never fails except that it waits for ever for key strokes when fewer bits than the
    pending ones, up to the size of the pool, have come; otherwise it leaves none pending and an
    estimate that covers them, unchanged when it did so already. When a tick passes between the
    readings and no character comes three times in a row it always returns, after at most as
    many key strokes as bits are missing. *)
Theorem true_rand_safe dm clock getch s : (forall i, clocks_ok (clock i)) -> rand_reachable dm clock getch s ->
  rand_typed dm s /\
  (forall event, okp (trueRandEvent dm clock s event) (fun x => rand_step dm clock getch s x.1 /\ 0 <= x.2 <= 8 /\ trueRandBits x.1 = Z.min RANDPOOLBITS (trueRandBits s + x.2) /\ (event = event1 s -> event = event2 s -> x.2 = 0))) /\
  okp (trueRandFlush dm clock s) (rand_step dm clock getch s) /\
  (forall n, 0 <= n -> trueRandConsume s n = if n <=? trueRandBits s then Ok (set_bits s (trueRandBits s - n)) else Err AssertFailed) /\
  (forall fuel, match trueRandByte dm clock getch fuel s with
     | Ok (s', b) => rand_step dm clock getch s s' /\ inU 8 b /\ trueRandPending s' = 0 /\ Z.min RANDPOOLBITS (trueRandPending s) <= trueRandBits s' /\
         (trueRandPending s <= trueRandBits s -> trueRandBits s' = trueRandBits s)
     | Err e => e = OutOfFuel /\ trueRandBits s < Z.min RANDPOOLBITS (trueRandPending s) end) /\
  (forall fuel tick, (forall i, noiseTickSize (ticks_tv (clock i)) = Ok tick) -> (forall i, tick <= uL dm (time_of dm clock (S i) - time_of dm clock i)) ->
     (forall i, getch (S i) <> getch i \/ getch (S (S i)) <> getch (S i)) -> lively dm clock getch tick s -> Z.min RANDPOOLBITS (trueRandPending s) - trueRandBits s <= Z.of_nat fuel ->
     exists s' b, trueRandByte dm clock getch fuel s = Ok (s', b) /\ (strokes s <= strokes s' <= strokes s + fuel)%nat).
Proof.
  intros Hc Hr. pose proof (reachable_typed dm clock getch Hc s Hr) as Hs. split; [exact Hs|]. split; [|split; [|split; [|split]]].
  - intros event. pose proof (event_ok dm clock getch Hc s event Hs) as H. apply okp_ok in H as ([s' n] & E & (T & _ & _ & B & _) & Hn). rewrite E. cbn [okp fst snd] in *. split; [exact (step_event dm clock getch s event s' n E)|]. subst n. split; [apply credit_range|]. split; [exact B|].
    intros H1 H2. unfold credit. rewrite <- H1, <- H2, Z.eqb_refl. reflexivity.
  - pose proof (flush_ok dm clock Hc s Hs) as H. apply okp_ok in H as (s' & E & _). rewrite E. exact (step_flush dm clock getch s s' E).
  - intros n Hn. pose proof (consume_ok dm s n Hs Hn) as H. destruct (n <=? trueRandBits s); [apply H|exact H].
  - intros fuel. pose proof (byte_pending dm clock getch Hc fuel s Hs) as H. destruct (trueRandByte dm clock getch fuel s) as [[s' b]|e] eqn:E; [|exact H]. split; [exact (step_byte dm clock getch fuel s s' b E)|exact H].
  - intros fuel tick Ht Hrun Hk Hl Hf. exact (byte_live dm clock getch tick Hc Ht Hrun Hk fuel s Hs Hl Hf).
Qed.

(** C21: When every measurement of the tick by noiseTickSize gives the same number, at least
    one tick passes between the readings, and no character comes three times in a row,
    trueRandAccum ends with at least the bits that it wants, the request and the pending bits up
    to the size of the pool, after at most as many key strokes as bits are missing. *)
Theorem accumulation_live dm clock getch tick s count fuel : (forall i, clocks_ok (clock i)) -> (forall i, noiseTickSize (ticks_tv (clock i)) = Ok tick) -> (forall i, tick <= uL dm (time_of dm clock (S i) - time_of dm clock i)) ->
  (forall i, getch (S i) <> getch i \/ getch (S (S i)) <> getch (S i)) -> rand_typed dm s -> lively dm clock getch tick s -> wanted s count - trueRandBits s <= Z.of_nat fuel ->
  okp (trueRandAccum dm clock getch fuel s count) (fun s' => wanted s count <= trueRandBits s' /\ (strokes s <= strokes s' <= strokes s + fuel)%nat).
Proof.
  intros Hc Ht Hrun Hk Hs Hl Hf. rewrite accum_unfold. destruct (Z.leb_spec (wanted s count) (trueRandBits s)) as [Hle|Hlt]; [cbn; split; [exact Hle|lia]|].
  assert (rand_typed dm (set_pending s 0)) as H0 by (apply pending_typed; [exact Hs|unfold inU; lia]). assert (lively dm clock getch tick (set_pending s 0)) as Hl0 by (destruct Hl; split; assumption).
  eapply okp_mono; [apply (accum_loop_live dm clock getch tick Hc Ht Hrun Hk fuel (set_pending s 0) (wanted s count) H0 Hl0); [unfold wanted; lia|lia|exact Hf]|]. intros s' [H1 H2]. cbn [set_pending strokes] in H2. split; [exact H1|lia].
Qed.

(** Bytes that are taken one after the other. *)
Fixpoint true_bytes (dm : data_model) (clock : nat -> clocks) (getch : nat -> Z) (fuel n : nat) (s : true_rand) : res (true_rand * list Z) :=
  match n with
  | O => mret (s, [])
  | S n => '(s, b) ← trueRandByte dm clock getch fuel s; '(s, l) ← true_bytes dm clock getch fuel n s; mret (s, b :: l)
  end.

Lemma true_bytes_ok dm clock getch fuel n : (forall i, clocks_ok (clock i)) -> forall s, rand_typed dm s -> trueRandPending s = 0 ->
  okp (true_bytes dm clock getch fuel n s) (fun x => rand_typed dm x.1 /\ trueRandBits x.1 = trueRandBits s /\ trueRandPending x.1 = 0 /\ Forall (inU 8) x.2 /\ length x.2 = n).
Proof.
  intros Hc. induction n as [|n IH]; intros s Hs E0; [cbn; auto|]. cbn [true_bytes]. pose proof (byte_ok dm clock getch Hc fuel s Hs) as H. destruct (trueRandByte dm clock getch fuel s) as [[s1 b]|e]; [|destruct H; contradiction]. destruct H as (T & Hb & H). destruct (H E0) as [B P]. cbn [mbind res_bind].
  eapply okp_bind; [exact (IH s1 T P)|]. intros [s2 l] (T2 & B2 & P2 & F2 & L2). cbn [fst snd] in *. cbn [mret res_ret okp fst snd]. split; [exact T2|]. split; [lia|]. split; [exact P2|]. split; [constructor; assumption|cbn; lia].
Qed.

(** C22: The claims of key generation never fail their assertion: after the accumulation of
    keybits+32 bits, any two claims of together not more, with any numbers of bytes taken after
    each, and the flush succeed, and the estimate falls by exactly the claims. *)
Theorem keygen_entropy dm clock getch s keybits pbits qbits fuel n1 n2 : (forall i, clocks_ok (clock i)) -> rand_typed dm s -> 0 <= keybits <= 2079 -> trueRandPending s + keybits + 32 < 2 ^ 32 -> 0 <= pbits -> 0 <= qbits -> pbits + qbits <= keybits + 32 ->
  match trueRandAccum dm clock getch fuel s (keybits + 2 * 16) with
  | Err e => e = OutOfFuel
  | Ok s => okp (s ← trueRandConsume s pbits; '(s, l1) ← true_bytes dm clock getch fuel n1 s; s ← trueRandConsume s qbits; '(s, l2) ← true_bytes dm clock getch fuel n2 s; s ← trueRandFlush dm clock s; mret (s, l1, l2))
      (fun '(s', l1, l2) => rand_typed dm s' /\ trueRandBits s' = trueRandBits s - pbits - qbits /\ length l1 = n1 /\ length l2 = n2)
  end.
Proof.
  intros Hc Hs Hkb Hw Hp Hq Hpq. pose proof (accum_ok dm clock getch Hc fuel s (keybits + 32) Hs) as H. change (2 * 16) with 32. destruct (trueRandAccum dm clock getch fuel s (keybits + 32)) as [s1|e]; [|exact H]. destruct H as (T1 & B1 & P1).
  assert (keybits + 32 <= wanted s (keybits + 32)) as Hwant by (pose proof (rt_pending dm s Hs) as Hpen; unfold inU in Hpen; unfold wanted, wrapU, RANDPOOLBITS; rewrite Z.mod_small by lia; lia).
  pose proof (consume_ok dm s1 pbits T1 Hp) as H. rewrite (proj2 (Z.leb_le pbits (trueRandBits s1))) in H by lia. destruct H as [-> T2]. cbn [mbind res_bind].
  eapply okp_bind; [exact (true_bytes_ok dm clock getch fuel n1 Hc _ T2 P1)|]. intros [s3 l1] (T3 & B3 & P3 & _ & L1). cbn [fst snd] in *. cbn [set_bits trueRandBits] in B3.
  pose proof (consume_ok dm s3 qbits T3 Hq) as H. rewrite (proj2 (Z.leb_le qbits (trueRandBits s3))) in H by lia. destruct H as [-> T4]. cbn [mbind res_bind].
  eapply okp_bind; [exact (true_bytes_ok dm clock getch fuel n2 Hc _ T4 P3)|]. intros [s5 l2] (T5 & B5 & P5 & _ & L2). cbn [fst snd] in *. cbn [set_bits trueRandBits] in B5.
  eapply okp_bind; [exact (flush_ok dm clock Hc s5 T5)|]. intros s6 [T6 B6]. cbn [mret res_ret okp]. split; [exact T6|]. split; [lia|auto].
Qed.

(** * Witnesses *)

Definition sample_clock (i : nat) : clocks := Clocks [1; 2] [3; 4] [5; 6] (1000 * Z.of_nat i) 70 [8] [9] (fun k => (10 * Z.of_nat k / 1000000, (10 * Z.of_nat k) mod 1000000)).
Definition sample_keys (i : nat) : Z := 97 + Z.of_nat i mod 2.

Lemma sample_clock_ok i : clocks_ok (sample_clock i).
Proof.
  unfold clocks_ok, sample_clock. cbn [cnow tnow tv tms ctime ticks_tv]. split; [by_eval|]. split; [by_eval|]. split; [by_eval|]. split; [by_eval|]. split; [by_eval|].
  intros k Hk. unfold usecs, tick_fuel in *. cbn [fst snd]. split; [apply Z.mod_pos_bound; lia|]. rewrite <- !Z.div_mod by lia. change (2 ^ 31) with 2147483648. lia.
Qed.
Lemma sample_tick i : noiseTickSize (ticks_tv (sample_clock i)) = Ok 10.
Proof. vm_compute. reflexivity. Qed.

Lemma sample_clock_runs i : 10 <= uL ILP32 (time_of ILP32 sample_clock (S i) - time_of ILP32 sample_clock i).
Proof.
  unfold time_of, sample_clock, wrapU, long_bits. cbn [tv_sec tv_usec]. rewrite <- Zminus_mod. replace (1000 * Z.of_nat (S i) * 1000000 + 70 - (1000 * Z.of_nat i * 1000000 + 70)) with 1000000000 by lia. vm_compute. discriminate.
Qed.

Lemma init_typed dm : rand_typed dm (init_true_rand dm).
Proof. split; cbn; [apply init_pool_ok|unfold RANDPOOLBITS; lia|unfold inU; lia|lia]. Qed.

Lemma true_rand_safe_witness : (forall i, clocks_ok (sample_clock i)) /\ rand_reachable ILP32 sample_clock sample_keys (trueRandAccumLater (init_true_rand ILP32) 100) /\
  trueRandConsume (trueRandAccumLater (init_true_rand ILP32) 100) 1 = Err AssertFailed.
Proof.
  assert (rand_reachable ILP32 sample_clock sample_keys (trueRandAccumLater (init_true_rand ILP32) 100)) as Hr by exact (reach_step _ _ _ _ _ (reach_init _ _ _) (step_later _ _ _ _ 100)). split; [exact sample_clock_ok|]. split; [exact Hr|].
  destruct (true_rand_safe ILP32 sample_clock sample_keys _ sample_clock_ok Hr) as (_ & _ & _ & H & _ & _). exact (H 1 ltac:(lia)).
Defined.

Lemma accumulation_live_witness : let s := init_true_rand ILP32 in (forall i, clocks_ok (sample_clock i)) /\ (forall i, noiseTickSize (ticks_tv (sample_clock i)) = Ok 10) /\ (forall i, 10 <= uL ILP32 (time_of ILP32 sample_clock (S i) - time_of ILP32 sample_clock i)) /\
  (forall i, sample_keys (S i) <> sample_keys i \/ sample_keys (S (S i)) <> sample_keys (S i)) /\ rand_typed ILP32 s /\ lively ILP32 sample_clock sample_keys 10 s /\ wanted s 384 - trueRandBits s <= Z.of_nat 384 /\
  okp (trueRandAccum ILP32 sample_clock sample_keys 384 s 384) (fun s => 384 <= trueRandBits s /\ (strokes s <= 384)%nat).
Proof.
  intros s. assert (forall i, sample_keys (S i) <> sample_keys i \/ sample_keys (S (S i)) <> sample_keys (S i)) as Hk by (intros i; left; unfold sample_keys; dlia).
  assert (lively ILP32 sample_clock sample_keys 10 s) as Hl by (split; [left; reflexivity|vm_compute; discriminate|left; vm_compute; discriminate|left; vm_compute; discriminate]). assert (wanted s 384 - trueRandBits s <= Z.of_nat 384) as Hw by (vm_compute; discriminate).
  split; [exact sample_clock_ok|]. split; [exact sample_tick|]. split; [exact sample_clock_runs|]. split; [exact Hk|]. split; [exact (init_typed ILP32)|]. split; [exact Hl|]. split; [exact Hw|].
  eapply okp_mono; [exact (accumulation_live ILP32 sample_clock sample_keys 10 s 384 384 sample_clock_ok sample_tick sample_clock_runs Hk (init_typed ILP32) Hl Hw)|]. intros s' [H1 H2]. split; [exact H1|apply H2].
Defined.

Lemma keygen_entropy_witness : let s := init_true_rand ILP32 in (forall i, clocks_ok (sample_clock i)) /\ rand_typed ILP32 s /\ 0 <= 64 <= 2079 /\ trueRandPending s + 64 + 32 < 2 ^ 32 /\ 0 <= 32 /\ 32 + 32 <= 64 + 32 /\
  match trueRandAccum ILP32 sample_clock sample_keys 96 s (64 + 2 * 16) with
  | Err e => e = OutOfFuel
  | Ok s => okp (s ← trueRandConsume s 32; '(s, l1) ← true_bytes ILP32 sample_clock sample_keys 96 6 s; s ← trueRandConsume s 32; '(s, l2) ← true_bytes ILP32 sample_clock sample_keys 96 6 s; s ← trueRandFlush ILP32 sample_clock s; mret (s, l1, l2))
      (fun '(s', l1, l2) => rand_typed ILP32 s' /\ trueRandBits s' = trueRandBits s - 32 - 32 /\ length l1 = 6%nat /\ length l2 = 6%nat)
  end.
Proof.
  intros s. assert (0 <= 64 <= 2079) as H1 by lia. assert (trueRandPending s + 64 + 32 < 2 ^ 32) as H2 by (vm_compute; reflexivity). assert (0 <= 32) as H3 by lia. assert (32 + 32 <= 64 + 32) as H4 by lia.
  split; [exact sample_clock_ok|]. split; [exact (init_typed ILP32)|]. split; [exact H1|]. split; [exact H2|]. split; [exact H3|]. split; [exact H4|].
  exact (keygen_entropy ILP32 sample_clock sample_keys s 64 32 32 96 6 6 sample_clock_ok (init_typed ILP32) H1 H2 H3 H3 H4).
Defined.
