(* ===== verification/CryptRand.v ===== *)
(** The generator of session keys and its seed file (cryptRandOpen, cryptRandInit, cryptRandByte, cryptRandWriteFile
    and cryptRandSave of src/mibench/security/pgp/src/random.c). *)
From stdpp Require Import base list numbers option tactics.
From Stdlib Require Import ZArith Lia.
From S2P Require Import Prelude Bytes Idea IdeaCfb Md5 RandPool TrueRand.

(** * The code *)

Record crypt_rand := CryptRand { true_pool : true_rand; randSeedOpen : bool; randContext : IdeaRandContext; savedwashed : bool }.

Definition RANDSEED_BYTES : Z := RANDPOOLBITS / 8 + 24.

Section Code.
Context (dm : data_model) (idea32 : bool) (clock : nat -> clocks) (getch : nat -> Z).
Implicit Types (s : crypt_rand) (cfb : option IdeaCfbContext) (buf : list Z).

(** [if (cfb) ideaCfbEncrypt(cfb, buf, buf, len);] *)
Definition wash cfb buf : res (option IdeaCfbContext * list Z) :=
  match cfb with None => mret (None, buf) | Some c => '(c, buf) ← ideaCfbEncrypt dm idea32 c buf; mret (Some c, buf) end.

(** [len] bytes at a time are read, until nothing is left. *)
Fixpoint seed_loop (fuel : nat) cfb (r : rand_pool) (rest : list Z) : res (option IdeaCfbContext * rand_pool) :=
  match fuel with
  | O => Err OutOfFuel
  | S fuel =>
      match take 256 rest with
      | [] => mret (cfb, r)
      | buf => '(cfb, buf) ← wash cfb buf; r ← randPoolAddBytes dm r buf; seed_loop fuel cfb r (drop 256 rest)
      end
  end.

(** The status; [file] is the seed file when it can be opened, [junk] what the local array holds. *)
Definition cryptRandOpen s cfb (file : option (list Z)) (junk : list Z) : res (crypt_rand * option IdeaCfbContext * Z) :=
  if randSeedOpen s then mret (s, cfb, 0)
  else
    match file with
    | None => mret (s, cfb, -1)
    | Some f =>
        let head := take 24 f in
        '(cfb, buf) ← wash cfb (head ++ drop (length head) (take 24 junk));
        c ← ideaRandInit (randContext s) (take 16 buf) (drop 16 buf);
        let s := CryptRand (true_pool s) true c (savedwashed s) in
        if negb (Z.of_nat (length head) =? 24) then mret (s, cfb, -1)
        else
          '(cfb, r) ← seed_loop (S (length f)) cfb (pool (true_pool s)) (drop 24 f);
          mret (CryptRand (set_pool (true_pool s) r) true c (savedwashed s), cfb, 0)
    end.

Definition cryptRandInit (fuel : nat) s cfb : res (crypt_rand * option IdeaCfbContext) :=
  '(t, buf) ← true_bytes dm clock getch fuel 24 (true_pool s);
  '(cfb, buf) ← wash cfb buf;
  c ← ideaRandInit (randContext s) (take 16 buf) (drop 16 buf);
  mret (CryptRand t true c (savedwashed s), cfb).

(** [ideaRandByte(&randContext)] *)
Definition context_byte s : res (crypt_rand * Z) :=
  '(c, r, b) ← ideaRandByte dm idea32 (randContext s) (pool (true_pool s));
  mret (CryptRand (set_pool (true_pool s) r) (randSeedOpen s) c (savedwashed s), b).

Definition cryptRandByte s (file : option (list Z)) (junk : list Z) : res (crypt_rand * Z) :=
  s ← (if negb (randSeedOpen s) then '(s, _, _) ← cryptRandOpen s None file junk; mret s else mret s);
  context_byte s.

Fixpoint context_bytes (n : nat) s : res (crypt_rand * list Z) :=
  match n with
  | O => mret (s, [])
  | S n => '(s, b) ← context_byte s; '(s, l) ← context_bytes n s; mret (s, b :: l)
  end.

(** What is written. *)
Fixpoint write_loop (fuel : nat) s cfb (bytes : Z) : res (crypt_rand * option IdeaCfbContext * list Z) :=
  if bytes =? 0 then mret (s, cfb, [])
  else
    match fuel with
    | O => Err OutOfFuel
    | S fuel =>
        let len := if bytes <? 256 then bytes else 256 in
        '(s, buf) ← context_bytes (Z.to_nat len) s;
        '(cfb, buf) ← wash cfb buf;
        '(s, cfb, rest) ← write_loop fuel s cfb (bytes - len); mret (s, cfb, buf ++ rest)
    end.
Definition cryptRandWriteFile s cfb (bytes : Z) := write_loop (Z.to_nat bytes) s cfb bytes.

(** The file that is written, if one is. *)
Definition cryptRandSave s cfb : res (crypt_rand * option IdeaCfbContext * option (list Z)) :=
  if negb (randSeedOpen s) then mret (s, cfb, None)
  else
    let s := match cfb with Some _ => CryptRand (true_pool s) true (randContext s) true | None => s end in
    if match cfb with Some _ => false | None => savedwashed s end then mret (s, cfb, None)
    else '(s, cfb, file) ← cryptRandWriteFile s cfb RANDSEED_BYTES; mret (s, cfb, Some file).
End Code.

(** The static context has zeros for its key. *)
Definition init_crypt_rand (dm : data_model) : crypt_rand := CryptRand (init_true_rand dm) false (IdeaRand (replicate 8 0) (replicate 52 0) 0 (replicate 8 0)) false.

Example crypt_run : (
  '(s, _, st) ← cryptRandOpen ILP32 true (init_crypt_rand ILP32) None (Some (Z.of_nat <$> seq 0 40)) (replicate 256 0); '(s, _, f) ← cryptRandSave ILP32 true s (Some sample_ctx); '(s, _, g) ← cryptRandSave ILP32 true s None;
  mret (st, match f with Some l => length l | None => 0%nat end, g)) = Ok (0, 408%nat, @None (list Z)).
Proof. vm_compute. reflexivity. Qed.

(** * Correctness *)

Section Open.
Context (dm : data_model) (idea32 : bool).
Implicit Types (s : crypt_rand) (cfb : option IdeaCfbContext) (buf f : list Z) (r : rand_pool).

Definition cfb_typed cfb : Prop := match cfb with None => True | Some c => ctx_ok c end.

Lemma wash_ok cfb buf : cfb_typed cfb -> Forall (inU 8) buf -> okp (wash dm idea32 cfb buf) (fun x => cfb_typed x.1 /\ Forall (inU 8) x.2 /\ length x.2 = length buf).
Proof.
  intros Hc HF. destruct cfb as [c|]; [|cbn; auto]. cbn [wash]. eapply okp_bind; [exact (crypt_ok dm idea32 enc_byte c buf enc_byte_ok Hc HF)|]. intros [c' b] H. exact H.
Qed.

Lemma wash_nil cfb : cfb_typed cfb -> wash dm idea32 cfb [] = Ok (cfb, []).
Proof.
  intros Hc. destruct cfb as [c|]; [|reflexivity]. cbn [wash]. destruct (idea_cfb_pieces dm idea32 c [] [] Hc (List.Forall_nil _) (List.Forall_nil _)) as [_ E]. rewrite E. reflexivity.
Qed.

(** Washing does not depend on the pieces. *)
Lemma wash_app cfb a b : cfb_typed cfb -> Forall (inU 8) a -> Forall (inU 8) b ->
  wash dm idea32 cfb (a ++ b) = ('(cfb, x) ← wash dm idea32 cfb a; '(cfb, y) ← wash dm idea32 cfb b; mret (cfb, x ++ y)).
Proof.
  intros Hc Ha Hb. destruct cfb as [c|]; [|reflexivity]. cbn [wash]. destruct (idea_cfb_pieces dm idea32 c a b Hc Ha Hb) as [E _]. rewrite E. destruct (ideaCfbEncrypt dm idea32 c a) as [[c1 x]|e]; [|reflexivity]. cbn [mbind res_bind mret res_ret wash].
  destruct (ideaCfbEncrypt dm idea32 c1 b) as [[c2 y]|e]; reflexivity.
Qed.

Lemma seed_loop_ok fuel : forall cfb r rest, cfb_typed cfb -> pool_ok dm r -> Forall (inU 8) rest -> (length rest < fuel)%nat ->
  seed_loop dm idea32 fuel cfb r rest = ('(cfb, e) ← wash dm idea32 cfb rest; r ← randPoolAddBytes dm r e; mret (cfb, r)).
Proof.
  induction fuel as [|fuel IH]; intros cfb r rest Hc Hr HF Hl; [lia|]. cbn [seed_loop]. destruct (take 256 rest) as [|x t] eqn:Et.
  - destruct rest; [|discriminate Et]. rewrite wash_nil by exact Hc. cbn [mbind res_bind]. destruct (rand_add_bytewise dm r [] [] Hr (List.Forall_nil _)) as (-> & _). reflexivity.
  - assert (Forall (inU 8) (take 256 rest)) as Ft by (apply Forall_take, HF). assert (Forall (inU 8) (drop 256 rest)) as Fd by (apply Forall_drop, HF). pose proof (wash_app cfb _ _ Hc Ft Fd) as Ew. rewrite take_drop in Ew. rewrite Ew, <- Et. clear Ew.
    pose proof (wash_ok cfb (take 256 rest) Hc Ft) as Hw. destruct (wash dm idea32 cfb (take 256 rest)) as [[c1 e1]|e]; [|contradiction]. cbn [okp fst snd] in Hw. destruct Hw as (Hc1 & F1 & _). cbn [mbind res_bind].
    assert (length (drop 256 rest) < fuel)%nat as Hl1 by (rewrite length_drop; assert (0 < length rest)%nat by (destruct rest; [discriminate Et|cbn; lia]); lia).
    pose proof (wash_ok c1 (drop 256 rest) Hc1 Fd) as Hw2. destruct (wash dm idea32 c1 (drop 256 rest)) as [[c2 e2]|e] eqn:E2; [|contradiction]. cbn [okp fst snd] in Hw2. destruct Hw2 as (_ & F2 & _). cbn [mbind res_bind mret res_ret].
    destruct (rand_add_bytewise dm r e1 e2 Hr ltac:(apply Forall_app_2; assumption)) as (_ & -> & Hadd). destruct (randPoolAddBytes dm r e1) as [r1|e]; [|contradiction]. cbn [okp mbind res_bind] in *. rewrite (IH c1 r1 (drop 256 rest) Hc1 Hadd Fd Hl1), E2. reflexivity.
Qed.

(** What opening the seed file does. *)
Lemma open_ok s cfb f junk : randSeedOpen s = false -> cfb_typed cfb -> pool_ok dm (pool (true_pool s)) -> length (rand_key (randContext s)) = IDEAKEYLEN -> Forall (inU 8) f -> (24 <= length f)%nat ->
  exists cfb' e r, wash dm idea32 cfb f = Ok (cfb', e) /\ cfb_typed cfb' /\ length e = length f /\ Forall (inU 8) e /\ randPoolAddBytes dm (pool (true_pool s)) (drop 24 e) = Ok r /\ pool_ok dm r /\
    cryptRandOpen dm idea32 s cfb (Some f) junk =
      Ok (CryptRand (set_pool (true_pool s) r) true (IdeaRand (outbuf (randContext s)) (key_word (be_word (take 16 e)) <$> seq 0 52) 0 (take 8 (drop 16 e))) (savedwashed s), cfb', 0).
Proof.
  intros Hopen Hc Hr Hk HF Hl. assert (Forall (inU 8) (take 24 f)) as Ft by (apply Forall_take, HF). assert (Forall (inU 8) (drop 24 f)) as Fd by (apply Forall_drop, HF). pose proof (wash_app cfb _ _ Hc Ft Fd) as E. rewrite take_drop in E.
  assert (length (take 24 f) = 24%nat) as Hl24 by (rewrite length_take; lia). unfold cryptRandOpen. rewrite Hopen, Hl24. rewrite (drop_ge (take 24 junk)) by (rewrite length_take; lia). rewrite app_nil_r.
  pose proof (wash_ok cfb (take 24 f) Hc Ft) as Hw. destruct (wash dm idea32 cfb (take 24 f)) as [[c1 e1]|e]; [|contradiction]. cbn [okp fst snd mbind res_bind] in Hw, E |- *. destruct Hw as (Hc1 & F1 & L1). rewrite Hl24 in L1.
  pose proof (wash_ok c1 (drop 24 f) Hc1 Fd) as Hw2. destruct (wash dm idea32 c1 (drop 24 f)) as [[c2 e2]|e] eqn:E2; [|contradiction]. cbn [okp fst snd mbind res_bind mret res_ret] in Hw2, E. destruct Hw2 as (Hc2 & F2 & L2).
  pose proof (add_bytes_ok dm (pool (true_pool s)) e2 Hr F2) as Ha. apply okp_ok in Ha as (r & Er & Hr').
  exists c2, (e1 ++ e2), r. split; [exact E|]. split; [exact Hc2|]. split; [rewrite length_app, L1, L2, length_drop; lia|]. split; [apply Forall_app_2; assumption|]. split; [rewrite drop_app_length' by lia; exact Er|]. split; [exact Hr'|].
  destruct (state_of_init (randContext s) (randContext s) (take 16 e1) (drop 16 e1) (replicate 16 0) (replicate 8 0)) as [Ei _]; [split; [rewrite length_take; lia|apply Forall_take, F1]|rewrite length_drop; lia|exact Hk|apply length_replicate|apply length_replicate|].
  rewrite Ei. cbn [mbind res_bind]. change (negb (Z.of_nat 24 =? 24)) with false. cbn iota. cbn [true_pool savedwashed randContext]. rewrite seed_loop_ok by (exact Hc1 || exact Hr || exact Fd || (rewrite length_drop; lia)). rewrite E2. cbn [mbind res_bind]. rewrite Er. cbn [mbind res_bind mret res_ret].
  rewrite take_app_le by lia. rewrite (drop_app_le e1 e2 16) by lia. rewrite (take_app_length' (drop 16 e1) e2 8) by (rewrite length_drop; lia). reflexivity.
Qed.
End Open.

Section Save.
Context (dm : data_model) (idea32 : bool).
Implicit Types (s : crypt_rand) (cfb : option IdeaCfbContext) (buf f : list Z) (r : rand_pool).

Record crypt_typed s : Prop := CryptTyped { ct_pool : rand_typed dm (true_pool s); ct_context : rand_ok (randContext s) }.

Lemma rand_byte_ok c r : rand_ok c -> pool_ok dm r -> okp (ideaRandByte dm idea32 c r) (fun x => rand_ok x.1.1 /\ pool_ok dm x.1.2 /\ inU 8 x.2).
Proof.
  intros (Ho & Hk & Hi & Hb) Hr. unfold ideaRandByte. assert (okp (if rand_bufleft c =? 0 then '(r, timestamp) ← randPoolGetBytes dm r 8; out ← ideaCipher dm idea32 (xor_buf (internalbuf c) timestamp) (rand_key c); int ← ideaCipher dm idea32 (xor_buf out timestamp) (rand_key c); mret (IdeaRand out (rand_key c) 8 int, r) else mret (c, r))
    (fun x => rand_ok x.1 /\ pool_ok dm x.2 /\ 1 <= rand_bufleft x.1)) as H.
  { destruct (Z.eqb_spec (rand_bufleft c) 0); [|cbn; unfold rand_ok; auto 10 with lia]. destruct (get_bytes_fact dm r 8 Hr ltac:(lia)) as [_ Hg]. eapply okp_bind; [exact Hg|]. intros [r' t] (Hr' & Lt & Ft). cbn [fst snd] in *. assert (barr 8 t) as Ht by (split; [lia|exact Ft]).
    eapply okp_bind; [exact (ideaCipher_total dm idea32 _ _ (xor_buf_barr 8 _ _ Hi Ht) Hk)|]. intros out Hout. eapply okp_bind; [exact (ideaCipher_total dm idea32 _ _ (xor_buf_barr 8 _ _ Hout Ht) Hk)|]. intros int Hint.
    cbn [mret res_ret okp fst snd rand_bufleft]. split; [unfold rand_ok; cbn; split; [exact Hout|]; split; [exact Hk|]; split; [exact Hint|lia]|]. split; [exact Hr'|lia]. }
  eapply okp_bind; [exact H|]. intros [c' r'] ((Ho' & Hk' & Hi' & Hb') & Hr' & H1). cbn [fst snd] in *. destruct (barr_aget 8 (outbuf c') (rand_bufleft c' - 1) Ho' ltac:(lia)) as (b & -> & Hbb). cbn [mbind res_bind mret res_ret okp fst snd].
  split; [unfold rand_ok; cbn; split; [exact Ho'|]; split; [exact Hk'|]; split; [exact Hi'|lia]|auto].
Qed.

Lemma context_bytes_ok n : forall s, crypt_typed s -> okp (context_bytes dm idea32 n s) (fun x => crypt_typed x.1 /\ Forall (inU 8) x.2 /\ length x.2 = n /\ randSeedOpen x.1 = randSeedOpen s /\ savedwashed x.1 = savedwashed s).
Proof.
  induction n as [|n IH]; intros s Hs; [cbn; auto|]. cbn [context_bytes]. destruct Hs as [[Hp Hb Hq Hk] Hc]. unfold context_byte. pose proof (rand_byte_ok (randContext s) (pool (true_pool s)) Hc Hp) as H. apply okp_ok in H as ([[c r] b] & -> & Hc' & Hr' & Hbb). cbn [mbind res_bind mret res_ret fst snd] in *.
  eapply okp_bind; [apply (IH (CryptRand (set_pool (true_pool s) r) (randSeedOpen s) c (savedwashed s))); split; cbn; [split; assumption|exact Hc']|]. intros [s' l] (H1 & H2 & H3 & H4). cbn [fst snd] in *. cbn [mret res_ret okp fst snd]. split; [exact H1|]. split; [constructor; assumption|]. split; [cbn; lia|exact H4].
Qed.

Lemma context_bytes_app n m : forall s, context_bytes dm idea32 (n + m) s = ('(s, a) ← context_bytes dm idea32 n s; '(s, b) ← context_bytes dm idea32 m s; mret (s, a ++ b)).
Proof.
  induction n as [|n IH]; intros s; cbn [Nat.add context_bytes mbind res_bind mret res_ret app]; [destruct (context_bytes dm idea32 m s) as [[s' b]|e]; reflexivity|].
  destruct (context_byte dm idea32 s) as [[s1 x]|e]; [|reflexivity]. cbn [mbind res_bind]. rewrite IH. destruct (context_bytes dm idea32 n s1) as [[s2 a]|e]; [|reflexivity]. cbn [mbind res_bind mret res_ret]. destruct (context_bytes dm idea32 m s2) as [[s3 b]|e]; reflexivity.
Qed.

(** The file is the washed output of the generator, whatever the pieces. *)
Lemma write_ok (fuel : nat) : forall n s cfb, (n <= fuel)%nat -> crypt_typed s -> cfb_typed cfb ->
  write_loop dm idea32 fuel s cfb (Z.of_nat n) = ('(s, l) ← context_bytes dm idea32 n s; '(cfb, e) ← wash dm idea32 cfb l; mret (s, cfb, e)).
Proof.
  induction fuel as [|fuel IH]; intros n s cfb Hn Hs Hc; cbn [write_loop].
  - assert (n = 0%nat) as -> by lia. cbn [Z.of_nat Z.eqb]. cbn [context_bytes mbind res_bind mret res_ret]. rewrite (wash_nil dm idea32 cfb Hc). reflexivity.
  - destruct (Z.eqb_spec (Z.of_nat n) 0) as [E0|E0].
    { assert (n = 0%nat) as -> by lia. cbn [context_bytes mbind res_bind mret res_ret]. rewrite (wash_nil dm idea32 cfb Hc). reflexivity. }
    assert ((if Z.of_nat n <? 256 then Z.of_nat n else 256) = Z.of_nat (Nat.min n 256)) as -> by (destruct (Z.ltb_spec (Z.of_nat n) 256); lia). rewrite Nat2Z.id. set (k := Nat.min n 256). replace (Z.of_nat n - Z.of_nat k) with (Z.of_nat (n - k)) by (unfold k; lia). assert (context_bytes dm idea32 n s = ('(s, a) ← context_bytes dm idea32 k s; '(s, b) ← context_bytes dm idea32 (n - k) s; mret (s, a ++ b))) as -> by (rewrite <- context_bytes_app; f_equal; unfold k; lia).
    pose proof (context_bytes_ok k s Hs) as H. destruct (context_bytes dm idea32 k s) as [[s1 a]|e]; [|contradiction]. cbn [okp fst snd] in H. destruct H as (Hs1 & Fa & _). cbn [mbind res_bind].
    pose proof (wash_ok dm idea32 cfb a Hc Fa) as Hw. destruct (wash dm idea32 cfb a) as [[c1 e1]|e] eqn:E1; [|contradiction]. cbn [okp fst snd] in Hw. destruct Hw as (Hc1 & _). cbn [mbind res_bind]. rewrite (IH (n - k)%nat s1 c1) by (exact Hs1 || exact Hc1 || (unfold k; lia)).
    pose proof (context_bytes_ok (n - k) s1 Hs1) as H. destruct (context_bytes dm idea32 (n - k) s1) as [[s2 b]|e]; [|contradiction]. cbn [okp fst snd] in H. destruct H as (_ & Fb & _). cbn [mbind res_bind mret res_ret]. rewrite (wash_app dm idea32 cfb a b Hc Fa Fb), E1. cbn [mbind res_bind].
    destruct (wash dm idea32 c1 b) as [[c2 e2]|e]; reflexivity.
Qed.
End Save.

(** * The theorems *)

(** C25: The seed file: saving writes 408 bytes, the washed output of the generator whatever
    the pieces, a save without washing after a washed one writes nothing, and opening the file
    returns 0 and seeds the generator from its first 24 bytes and the pool from the others; a
    file of fewer bytes gives -1 but counts as open, a missing one gives -1, and without a seed
    nothing is saved. *)
Theorem seed_file dm idea32 s cfb s2 f0 junk : crypt_typed dm s -> randSeedOpen s = true -> savedwashed s = false -> cfb_typed cfb -> crypt_typed dm s2 -> randSeedOpen s2 = false -> Forall (inU 8) f0 -> (length f0 < 24)%nat -> Forall (inU 8) junk -> length junk = 24%nat ->
  (exists s1 l cfb1 f, context_bytes dm idea32 408 (CryptRand (true_pool s) true (randContext s) (if cfb then true else false)) = Ok (s1, l) /\ wash dm idea32 cfb l = Ok (cfb1, f) /\ length f = 408%nat /\
     cryptRandSave dm idea32 s cfb = Ok (s1, cfb1, Some f) /\
     (forall c, cfb = Some c -> cryptRandSave dm idea32 s1 None = Ok (s1, None, None)) /\
     exists r, randPoolAddBytes dm (pool (true_pool s2)) (drop 24 f) = Ok r /\
       cryptRandOpen dm idea32 s2 None (Some f) junk = Ok (CryptRand (set_pool (true_pool s2) r) true (IdeaRand (outbuf (randContext s2)) (key_word (be_word (take 16 f)) <$> seq 0 52) 0 (take 8 (drop 16 f))) (savedwashed s2), None, 0)) /\
  okp (cryptRandOpen dm idea32 s2 None (Some f0) junk) (fun x => x.2 = -1 /\ randSeedOpen x.1.1 = true) /\
  cryptRandOpen dm idea32 s2 cfb None junk = Ok (s2, cfb, -1) /\ cryptRandSave dm idea32 s2 cfb = Ok (s2, cfb, None).
Proof.
  intros Hs Hopen Hsaved Hc Hs2 Hopen2 HF0 Hl0 HFj Hlj. split; [|split; [|split]].
  - set (s0 := CryptRand (true_pool s) true (randContext s) (if cfb then true else false)). assert (crypt_typed dm s0) as Hs0 by (destruct Hs; split; assumption).
    pose proof (context_bytes_ok dm idea32 408 s0 Hs0) as H. destruct (context_bytes dm idea32 408 s0) as [[s1 l]|e] eqn:El; [|contradiction]. cbn [okp fst snd] in H. destruct H as (Hs1 & Fl & Ll & O1 & W1). pose proof (wash_ok dm idea32 cfb l Hc Fl) as Hw. destruct (wash dm idea32 cfb l) as [[cfb1 f]|e] eqn:Ew; [|contradiction]. cbn [okp fst snd] in Hw. destruct Hw as (Hc1 & Ff & Lf).
    exists s1, l, cfb1, f. split; [reflexivity|]. split; [exact Ew|]. split; [lia|]. split; [|split].
    + unfold cryptRandSave. rewrite Hopen. cbn [negb]. assert (match cfb with Some _ => CryptRand (true_pool s) true (randContext s) true | None => s end = s0) as -> by (unfold s0; destruct cfb; [reflexivity|]; destruct s; cbn in *; subst; reflexivity).
      assert ((if match cfb with Some _ => false | None => savedwashed s0 end then true else false) = false) as Eb by (destruct cfb; reflexivity). destruct (match cfb with Some _ => false | None => savedwashed s0 end); [discriminate Eb|]. unfold cryptRandWriteFile. change RANDSEED_BYTES with (Z.of_nat 408).
      rewrite (write_ok dm idea32 _ 408 s0 cfb) by (exact Hs0 || exact Hc || (rewrite Nat2Z.id; lia)). rewrite El. cbn [mbind res_bind]. rewrite Ew. reflexivity.
    + intros c ->. unfold cryptRandSave. rewrite O1, W1. reflexivity.
    + destruct (open_ok dm idea32 s2 None f junk Hopen2 I (rt_pool dm _ (ct_pool dm s2 Hs2)) ltac:(apply (ct_context dm s2 Hs2)) Ff ltac:(lia)) as (c' & e' & r & E1 & _ & _ & _ & Er & _ & E2). cbn [wash mret res_ret] in E1. injection E1 as <- <-. exists r. split; [exact Er|exact E2].
  - unfold cryptRandOpen. rewrite Hopen2. cbn [wash mret res_ret mbind res_bind]. assert (length (take 24 f0) = length f0) as El by (rewrite length_take; lia). set (buf := take 24 f0 ++ drop (length (take 24 f0)) (take 24 junk)).
    assert (length buf = 24%nat) as Lb by (unfold buf; rewrite length_app, length_drop, El, length_take; lia). assert (Forall (inU 8) buf) as Fb by (apply Forall_app_2; [apply Forall_take, HF0|apply Forall_drop, Forall_take, HFj]).
    destruct (state_of_init (randContext s2) (randContext s2) (take 16 buf) (drop 16 buf) (replicate 16 0) (replicate 8 0)) as [Ei _]; [split; [rewrite length_take; lia|apply Forall_take, Fb]|rewrite length_drop; lia|apply (ct_context dm s2 Hs2)|apply length_replicate|apply length_replicate|].
    rewrite Ei. cbn [mbind res_bind]. rewrite El, (proj2 (Z.eqb_neq (Z.of_nat (length f0)) 24)) by lia. cbn. auto.
  - unfold cryptRandOpen. rewrite Hopen2. reflexivity.
  - unfold cryptRandSave. rewrite Hopen2. reflexivity.
Qed.

Lemma xor_zeros b : barr 8 b -> xor_buf (replicate 8 0) b = b.
Proof. intros [Hl _]. do 8 (destruct b as [|? b]; [discriminate Hl|]). destruct b; [|discriminate Hl]. unfold xor_buf. cbn [replicate zip_with]. rewrite !Z.lxor_0_l. reflexivity. Qed.

(** Without a seed file cryptRandByte does not fail but encrypts the time stamp of the pool
    under the key of 52 zero words. *)
Theorem crypt_byte_unseeded dm idea32 t junk : rand_typed dm t ->
  exists r stamp out b, randPoolGetBytes dm (pool t) 8 = Ok (r, stamp) /\ ideaCipher dm idea32 stamp (replicate 52 0) = Ok out /\ aget out 7 = Ok b /\
    okp (cryptRandByte dm idea32 (CryptRand t false (randContext (init_crypt_rand dm)) false) None junk) (fun x => x.2 = b /\ randSeedOpen x.1 = false).
Proof.
  intros Ht. destruct (get_bytes_fact dm (pool t) 8 (rt_pool dm t Ht) ltac:(lia)) as [_ Hg]. apply okp_ok in Hg as ([r stamp] & Eg & _ & Lt & Ft). cbn [fst snd] in *. assert (barr 8 stamp) as Hb by (split; [lia|exact Ft]). assert (key_ok (replicate 52 0)) as Hk by (split; [reflexivity|by_eval]).
  pose proof (ideaCipher_total dm idea32 stamp _ Hb Hk) as H1. apply okp_ok in H1 as (out & Eo & Hout). pose proof (ideaCipher_total dm idea32 _ _ (xor_buf_barr 8 _ _ Hout Hb) Hk) as H2. apply okp_ok in H2 as (int & Ei & Hint). destruct (barr_aget 8 out 7 Hout ltac:(lia)) as (b & Eb & _).
  exists r, stamp, out, b. split; [exact Eg|]. split; [exact Eo|]. split; [exact Eb|]. pose proof (xor_zeros stamp Hb) as Ex.
  unfold cryptRandByte. cbn [randSeedOpen negb cryptRandOpen mbind res_bind mret res_ret]. unfold context_byte, ideaRandByte, init_crypt_rand. cbn [randContext rand_bufleft internalbuf rand_key outbuf true_pool]. change (0 =? 0) with true. cbn iota. rewrite Eg. cbn [mbind res_bind]. rewrite Ex, Eo. cbn [mbind res_bind]. rewrite Ei.
  cbn [mbind res_bind mret res_ret outbuf rand_bufleft]. change (8 - 1) with 7. rewrite Eb. cbn. auto.
Qed.

Lemma seed_file_witness : let s := CryptRand (init_true_rand ILP32) true sample_rand false in let s2 := CryptRand (init_true_rand ILP32) false sample_rand false in let junk := replicate 24 0 in
  crypt_typed ILP32 s /\ randSeedOpen s = true /\ savedwashed s = false /\ cfb_typed (Some sample_ctx) /\ crypt_typed ILP32 s2 /\ randSeedOpen s2 = false /\ Forall (inU 8) [1; 2] /\ (length [1; 2] < 24)%nat /\ Forall (inU 8) junk /\ length junk = 24%nat /\
  exists s1 cfb1 f, cryptRandSave ILP32 true s (Some sample_ctx) = Ok (s1, cfb1, Some f) /\ length f = 408%nat /\ okp (cryptRandOpen ILP32 true s2 None (Some f) junk) (fun x => x.2 = 0).
Proof.
  intros s s2 junk. assert (crypt_typed ILP32 s) as H1 by (split; [exact (init_typed ILP32)|exact sample_rand_ok]). assert (crypt_typed ILP32 s2) as H2 by (split; [exact (init_typed ILP32)|exact sample_rand_ok]). assert (Forall (inU 8) [1; 2]) as H3 by by_eval. assert (length [1; 2] < 24)%nat as H4 by (cbn; lia). assert (Forall (inU 8) junk) as H5 by by_eval.
  split; [exact H1|]. split; [reflexivity|]. split; [reflexivity|]. split; [exact sample_ctx_ok|]. split; [exact H2|]. split; [reflexivity|]. split; [exact H3|]. split; [exact H4|]. split; [exact H5|]. split; [reflexivity|].
  destruct (seed_file ILP32 true s (Some sample_ctx) s2 [1; 2] junk H1 eq_refl eq_refl sample_ctx_ok H2 eq_refl H3 H4 H5 eq_refl) as [(s1 & l & cfb1 & f & _ & _ & L & E & _ & r & _ & Eo) _]. exists s1, cfb1, f. split; [exact E|]. split; [exact L|]. rewrite Eo. reflexivity.
Defined.

Lemma crypt_byte_unseeded_witness : rand_typed LP64 (init_true_rand LP64) /\ exists b, okp (cryptRandByte LP64 true (init_crypt_rand LP64) None []) (fun x => x.2 = b /\ randSeedOpen x.1 = false).
Proof.
  split; [exact (init_typed LP64)|]. destruct (crypt_byte_unseeded LP64 true (init_true_rand LP64) [] (init_typed LP64)) as (r & stamp & out & b & _ & _ & _ & H). exists b. exact H.
Defined.
