(* ===== verification/Crc24.v ===== *)
(** The checksum of the ASCII armour of pgp (crcbytes and its table in src/mibench/security/pgp/src/armor.c), for both
    widths of [unsigned long]. *)
From stdpp Require Import base list numbers option tactics.
From Stdlib Require Import ZArith Lia.
From S2P Require Import Prelude Bytes.

(** * The code *)

Definition CRCHIBIT : Z := 1 ≪ 23.
Definition CRCSHIFTS : Z := 24 - 8.
Definition maskcrc (crc : Z) : Z := Z.land crc 0xffffff.
Definition PRZCRC : Z := 0x864cfb.
Definition CRCINIT : Z := 0xB704CE.

Section Code.
Context (dm : data_model).

(** One turn of the loop: [p] points to entry i and [q] to entry 2i. *)
Definition crctbl_body (poly : Z) (i : Z) (table : list Z) : res (list Z) :=
  t ← aget table i;
  let u := uL dm (t ≪ 1) in
  if negb (Z.land t CRCHIBIT =? 0) then table ← aset table (2 * i) (Z.lxor u poly); aset table (2 * i + 1) u
  else table ← aset table (2 * i) u; aset table (2 * i + 1) (Z.lxor u poly).
Definition mk_crctbl (poly : Z) (table : list Z) : res (list Z) :=
  table ← aset table 0 0; table ← aset table 1 poly; cfor 127 1 (crctbl_body poly) table.
Definition init_crc (table : list Z) : res (list Z) := mk_crctbl PRZCRC table.

(** [do { ... } while (--len);] *)
Fixpoint crcbytes_loop (fuel : nat) (table buf : list Z) (i len accum : Z) : res Z :=
  match fuel with
  | O => Err OutOfFuel
  | S fuel =>
      b ← aget buf i; t ← aget table (Z.lxor (u8 (accum ≫ CRCSHIFTS)) b);
      let accum := Z.lxor (uL dm (accum ≪ 8)) t in
      let len := u32 (len - 1) in
      if len =? 0 then mret accum else crcbytes_loop fuel table buf (i + 1) len accum
  end.
Definition crcbytes (table buf : list Z) (len accum : Z) : res Z := accum ← crcbytes_loop (S (length buf)) table buf 0 len accum; mret (maskcrc accum).
End Code.

Example crc24_run : (t ← init_crc ILP32 (replicate 256 0); crcbytes ILP32 t [0x31; 0x32; 0x33; 0x34; 0x35; 0x36; 0x37; 0x38; 0x39] 9 CRCINIT) = Ok 0x21CF02.
Proof. vm_compute. reflexivity. Qed.

(** * The division by the polynomial *)

Definition crc24_bit (c : Z) : Z := if Z.testbit c 23 then Z.lxor (maskcrc (c ≪ 1)) PRZCRC else maskcrc (c ≪ 1).
Fixpoint crc24_bits (n : nat) (c : Z) : Z := match n with O => c | S n => crc24_bits n (crc24_bit c) end.
Definition crc24_byte (c x : Z) : Z := crc24_bits 8 (Z.lxor c (x ≪ 16)).
Definition crc24 (m : list Z) (c : Z) : Z := fold_left crc24_byte m c.

Section Register.
Implicit Types (a b c x : Z) (m : list Z).

Lemma maskcrc_mod c : maskcrc c = c mod 2 ^ 24.
Proof. unfold maskcrc. change 0xffffff with (Z.ones 24). apply Z.land_ones. lia. Qed.

Lemma maskcrc_lxor a b : maskcrc (Z.lxor a b) = Z.lxor (maskcrc a) (maskcrc b).
Proof. unfold maskcrc. apply Z.bits_inj'. intros i _. rewrite !Z.lxor_spec, !Z.land_spec, Z.lxor_spec. destruct (Z.testbit a i), (Z.testbit b i), (Z.testbit 16777215 i); reflexivity. Qed.

Lemma crc24_bit_lxor a b : crc24_bit (Z.lxor a b) = Z.lxor (crc24_bit a) (crc24_bit b).
Proof.
  unfold crc24_bit. rewrite Z.lxor_spec, Z.shiftl_lxor, maskcrc_lxor. set (x := maskcrc (a ≪ 1)). set (y := maskcrc (b ≪ 1)).
  destruct (Z.testbit a 23), (Z.testbit b 23); cbn [xorb]; apply Z.bits_inj'; intros i Hi; rewrite !Z.lxor_spec; destruct (Z.testbit x i), (Z.testbit y i), (Z.testbit PRZCRC i); reflexivity.
Qed.

Lemma crc24_bits_lxor n : forall a b, crc24_bits n (Z.lxor a b) = Z.lxor (crc24_bits n a) (crc24_bits n b).
Proof. induction n as [|n IH]; intros a b; [reflexivity|]. cbn [crc24_bits]. now rewrite crc24_bit_lxor, IH. Qed.

(** A short register is only shifted. *)
Lemma crc24_bits_shift n : forall a, 0 <= a -> a * 2 ^ Z.of_nat n < 2 ^ 24 -> crc24_bits n a = a * 2 ^ Z.of_nat n.
Proof.
  induction n as [|n IH]; intros a H0 H; [cbn; lia|]. cbn [crc24_bits]. rewrite Nat2Z.inj_succ, Z.pow_succ_r in * by lia. change (2 ^ 24) with 16777216 in *. assert (0 < 2 ^ Z.of_nat n) by (apply Z.pow_pos_nonneg; lia). assert (a < 8388608) by nia.
  assert (crc24_bit a = 2 * a) as ->.
  { unfold crc24_bit. destruct (Z.testbit a 23) eqn:E; [apply Z.testbit_true in E; [|lia]; change (2 ^ 23) with 8388608 in E; rewrite Z.div_small in E by lia; discriminate E|]. rewrite maskcrc_mod, Z.shiftl_mul_pow2 by lia. change (2 ^ 24) with 16777216. change (2 ^ 1) with 2. rewrite Z.mod_small by lia. lia. }
  rewrite IH by nia. lia.
Qed.

Lemma crc24_bit_range c : 0 <= crc24_bit c < 2 ^ 24.
Proof.
  assert (inU 24 (maskcrc (c ≪ 1))) as H by (rewrite maskcrc_mod; apply Z.mod_pos_bound; lia). unfold crc24_bit. destruct (Z.testbit c 23); [|exact H]. apply inU_lxor; [lia|exact H|unfold inU, PRZCRC; lia].
Qed.

(** The table holds the eight steps of every byte, up to bits above the register; building it again does not change it. *)
Definition crc_tab (dm : data_model) : list Z := match init_crc dm (replicate 256 0) with Ok t => t | Err _ => [] end.

Lemma crc_tab_init dm t0 : t0 = replicate 256 0 \/ t0 = crc_tab dm -> init_crc dm t0 = Ok (crc_tab dm).
Proof. intros [-> | ->]; destruct dm; vm_compute; reflexivity. Qed.

Lemma crc24_tab_ok dm x : 0 <= x < 256 -> exists v, aget (crc_tab dm) x = Ok v /\ 0 <= v /\ maskcrc v = crc24_bits 8 (x ≪ 16).
Proof.
  intros Hx. assert (exists t, crc_tab dm = t /\ forallb (fun x => match aget t x with Ok v => (0 <=? v) && (maskcrc v =? crc24_bits 8 (x ≪ 16)) | _ => false end) (seqZ 0 256) = true) as (t & -> & H) by (destruct dm; eexists; (split; [vm_compute; reflexivity|vm_compute; reflexivity])).
  pose proof (forallb_seqZ _ 0 256 H x ltac:(lia)) as Hv. cbv beta in Hv. destruct (aget t x) as [v|]; [|discriminate]. apply andb_prop in Hv as [H0 Hv]. exists v. split; [reflexivity|]. split; [apply Z.leb_le, H0|apply Z.eqb_eq, Hv].
Qed.

(** One byte, whatever is above the 24 bits of the register. *)
Lemma crc24_step dm accum b t : inU 8 b -> 0 <= accum -> maskcrc t = crc24_bits 8 (Z.lxor (u8 (accum ≫ CRCSHIFTS)) b ≪ 16) -> maskcrc (Z.lxor (uL dm (accum ≪ 8)) t) = crc24_byte (maskcrc accum) b.
Proof.
  intros Hb Ha Et. unfold crc24_byte. set (hi := u8 (accum ≫ CRCSHIFTS)) in *. set (lo := accum mod 2 ^ 16). assert (0 <= lo < 65536) as Hlo by (apply Z.mod_pos_bound; lia).
  assert (maskcrc accum = Z.lxor (hi ≪ 16) lo) as ->.
  { rewrite maskcrc_mod. unfold hi, lo, wrapU, CRCSHIFTS. change (24 - 8) with 16. apply Z.bits_inj'. intros i Hi. rewrite Z.lxor_spec, Z.shiftl_spec by lia. destruct (Z.ltb_spec i 16) as [H1|H1].
    - rewrite (Z.testbit_neg_r _ (i - 16)), !Z.mod_pow2_bits_low by lia. reflexivity.
    - rewrite (Z.mod_pow2_bits_high accum 16), xorb_false_r by lia. destruct (Z.ltb_spec i 24) as [H2|H2]; [rewrite !Z.mod_pow2_bits_low, Z.shiftr_spec by lia; f_equal; lia|rewrite !Z.mod_pow2_bits_high by lia; reflexivity]. }
  replace (Z.lxor (Z.lxor (hi ≪ 16) lo) (b ≪ 16)) with (Z.lxor (Z.lxor hi b ≪ 16) lo) by (rewrite Z.shiftl_lxor, !Z.lxor_assoc, (Z.lxor_comm lo); reflexivity).
  rewrite crc24_bits_lxor, maskcrc_lxor, Et, Z.lxor_comm. f_equal. rewrite crc24_bits_shift by (change (2 ^ 24) with 16777216; change (2 ^ Z.of_nat 8) with 256; lia).
  rewrite maskcrc_mod. unfold wrapU, lo. rewrite Z.mod_mod_divide by (exists (2 ^ (long_bits dm - 24)); rewrite <- Z.pow_add_r by (destruct dm; cbn; lia); f_equal; lia). rewrite Z.shiftl_mul_pow2 by lia. change (2 ^ Z.of_nat 8) with (2 ^ 8). rewrite <- Z.mul_mod_distr_r by lia. f_equal.
Qed.

Lemma crc_lxor_byte a b : inU 8 a -> inU 8 b -> 0 <= Z.lxor a b < 256.
Proof. intros Ha Hb. exact (inU_lxor 8 a b ltac:(lia) Ha Hb). Qed.

Lemma crcbytes_loop_ok dm m : forall fuel pre accum post, m <> [] -> Forall (inU 8) m -> 0 <= accum -> Z.of_nat (length m) < 2 ^ 32 -> (length m <= fuel)%nat ->
  okp (crcbytes_loop dm fuel (crc_tab dm) (pre ++ m ++ post) (Z.of_nat (length pre)) (Z.of_nat (length m)) accum) (fun v => maskcrc v = crc24 m (maskcrc accum)).
Proof.
  induction m as [|b m IH]; intros fuel pre accum post Hne HF Ha Hl Hf; [contradiction|]. destruct fuel as [|fuel]; [cbn in Hf; lia|]. apply Forall_cons_1 in HF as [Hb HF]. cbn [length] in *. cbn [crcbytes_loop app].
  assert (aget (pre ++ b :: m ++ post) (Z.of_nat (length pre)) = Ok b) as -> by (apply aget_ok; split; [lia|]; rewrite Nat2Z.id, list_lookup_middle by reflexivity; reflexivity). cbn [mbind res_bind].
  pose proof (wrapU_range 8 (accum ≫ CRCSHIFTS) ltac:(lia)) as Hu. destruct (crc24_tab_ok dm (Z.lxor (u8 (accum ≫ CRCSHIFTS)) b) (crc_lxor_byte _ _ Hu Hb)) as (t & -> & Ht & Et). cbn [mbind res_bind]. pose proof (crc24_step dm accum b t Hb Ha Et) as Hs.
  change (2 ^ 32) with 4294967296 in Hl. assert (u32 (Z.of_nat (S (length m)) - 1) = Z.of_nat (length m)) as -> by (unfold wrapU; change (2 ^ 32) with 4294967296; rewrite Z.mod_small by lia; lia).
  assert (0 <= Z.lxor (uL dm (accum ≪ 8)) t) as Ha' by (apply Z.lxor_nonneg; split; intros _; [exact Ht|apply wrapU_range; destruct dm; cbn; lia]). destruct m as [|b' m]; [change (Z.of_nat (length []) =? 0) with true; unfold mret, res_ret; cbn [okp]; rewrite Hs; reflexivity|]. rewrite (proj2 (Z.eqb_neq (Z.of_nat (length (b' :: m))) 0)) by (cbn [length]; lia).
  specialize (IH fuel (pre ++ [b]) _ post ltac:(discriminate) HF Ha' ltac:(change (2 ^ 32) with 4294967296; lia) ltac:(lia)). rewrite <- app_assoc, length_app, Nat2Z.inj_add in IH. cbn [app length] in IH. change (Z.of_nat 1) with 1 in IH.
  eapply okp_mono; [exact IH|]. intros v ->. rewrite Hs. reflexivity.
Qed.

Lemma crcbytes_ok dm m post accum : m <> [] -> Forall (inU 8) m -> 0 <= accum -> Z.of_nat (length m) < 2 ^ 32 -> crcbytes dm (crc_tab dm) (m ++ post) (Z.of_nat (length m)) accum = Ok (crc24 m (maskcrc accum)).
Proof.
  intros Hne HF Ha Hl. pose proof (crcbytes_loop_ok dm m (S (length (m ++ post))) [] accum post Hne HF Ha Hl ltac:(rewrite length_app; lia)) as H. apply okp_ok in H as (v & E & Hv). unfold crcbytes. cbn [app length] in E. change (Z.of_nat 0) with 0 in E. rewrite E. cbn [mbind res_bind mret res_ret]. rewrite Hv. reflexivity.
Qed.

Lemma crc24_app m1 m2 c : crc24 (m1 ++ m2) c = crc24 m2 (crc24 m1 c).
Proof. apply fold_left_app. Qed.

Lemma crc24_range m : forall c, 0 <= c < 2 ^ 24 -> 0 <= crc24 m c < 2 ^ 24.
Proof.
  induction m as [|b m IH]; intros c Hc; [exact Hc|]. apply IH. unfold crc24_byte. cbn [crc24_bits]. apply crc24_bit_range.
Qed.

(** The step is injective on registers, so that one wrong byte is always found. *)
Lemma crc24_bit_zero c : 0 <= c < 2 ^ 24 -> crc24_bit c = 0 -> c = 0.
Proof.
  intros Hc H. unfold crc24_bit in H. rewrite maskcrc_mod, Z.shiftl_mul_pow2 in H by lia. change (2 ^ 1) with 2 in H. change (2 ^ 24) with 16777216 in *. destruct (Z.testbit c 23) eqn:E.
  - exfalso. apply Z.lxor_eq in H. assert ((c * 2) mod 16777216 mod 2 = PRZCRC mod 2) as H2 by (rewrite H; reflexivity). change (PRZCRC mod 2) with 1 in H2. rewrite Z.mod_mod_divide in H2 by (exists 8388608; reflexivity). rewrite Z_mod_mult in H2. discriminate H2.
  - apply Z.testbit_false in E; [|lia]. change (2 ^ 23) with 8388608 in E. dlia.
Qed.

Lemma crc24_bits_range n c : 0 <= c < 2 ^ 24 -> 0 <= crc24_bits n c < 2 ^ 24.
Proof. revert c. induction n as [|n IH]; intros c Hc; [exact Hc|]. apply IH, crc24_bit_range. Qed.

Lemma crc24_bits_zero n : forall c, 0 <= c < 2 ^ 24 -> crc24_bits n c = 0 -> c = 0.
Proof. induction n as [|n IH]; intros c Hc H; [exact H|]. apply crc24_bit_zero; [exact Hc|]. apply IH; [apply crc24_bit_range|exact H]. Qed.

Lemma shift_byte x : inU 8 x -> inU 24 (x ≪ 16).
Proof. intros Hx. unfold inU in *. rewrite Z.shiftl_mul_pow2 by lia. change (2 ^ 16) with 65536. change (2 ^ 24) with 16777216. change (2 ^ 8) with 256 in Hx. lia. Qed.

Lemma crc24_byte_inj c d x y : 0 <= c < 2 ^ 24 -> 0 <= d < 2 ^ 24 -> inU 8 x -> inU 8 y -> crc24_byte c x = crc24_byte d y -> Z.lxor c (x ≪ 16) = Z.lxor d (y ≪ 16).
Proof.
  intros Hc Hd Hx Hy H. apply Z.lxor_eq. apply (crc24_bits_zero 8).
  - apply inU_lxor; [lia|apply inU_lxor|apply inU_lxor]; (lia || assumption || apply shift_byte; assumption).
  - rewrite crc24_bits_lxor. unfold crc24_byte in H. rewrite H. apply Z.lxor_nilpotent.
Qed.

Lemma crc24_inj m : forall c d, 0 <= c < 2 ^ 24 -> 0 <= d < 2 ^ 24 -> Forall (inU 8) m -> crc24 m c = crc24 m d -> c = d.
Proof.
  induction m as [|b m IH]; intros c d Hc Hd HF H; [exact H|]. apply Forall_cons_1 in HF as [Hb HF]. assert (forall c, 0 <= c < 2 ^ 24 -> 0 <= crc24_byte c b < 2 ^ 24) as Hr by (intros c' _; unfold crc24_byte; cbn [crc24_bits]; apply crc24_bit_range).
  apply (IH _ _ (Hr c Hc) (Hr d Hd) HF) in H. apply (crc24_byte_inj c d b b Hc Hd Hb Hb) in H. rewrite <- (Z.lxor_0_r c), <- (Z.lxor_nilpotent (b ≪ 16)), <- Z.lxor_assoc, H, Z.lxor_assoc, Z.lxor_nilpotent, Z.lxor_0_r. reflexivity.
Qed.

Lemma crc24_detects (a : list Z) (x y : Z) m c : 0 <= c < 2 ^ 24 -> Forall (inU 8) a -> Forall (inU 8) m -> inU 8 x -> inU 8 y -> crc24 (a ++ x :: m) c = crc24 (a ++ y :: m) c -> x = y.
Proof.
  intros Hc Ha Hm Hx Hy H. rewrite !crc24_app in H. pose proof (crc24_range a c Hc) as Hr. cbn [crc24 fold_left] in H. fold (crc24 m (crc24_byte (crc24 a c) x)) (crc24 m (crc24_byte (crc24 a c) y)) in H.
  assert (forall b, 0 <= crc24_byte (crc24 a c) b < 2 ^ 24) as Hb by (intros b; unfold crc24_byte; cbn [crc24_bits]; apply crc24_bit_range). apply (crc24_inj m _ _ (Hb x) (Hb y) Hm) in H. apply (crc24_byte_inj _ _ x y Hr Hr Hx Hy) in H.
  apply (f_equal (Z.lxor (crc24 a c))) in H. rewrite <- !Z.lxor_assoc, Z.lxor_nilpotent, !Z.lxor_0_l in H. rewrite !Z.shiftl_mul_pow2 in H by lia. change (2 ^ 16) with 65536 in H. lia.
Qed.
End Register.

(** C40: For both widths of long, over a fresh table or one that was made before, the table
    method computes the remainder of the division by the polynomial, bit by bit, whatever is
    above the 24 bits of the accumulator; the remainder differs when one byte differs; for a
    length of 0 the buffer is overrun. *)
Theorem crc24_division dm table m post accum : table = replicate 256 0 \/ table = crc_tab dm -> m <> [] -> Forall (inU 8) m -> 0 <= accum -> Z.of_nat (length m) < 2 ^ 32 ->
  (t ← init_crc dm table; crcbytes dm t (m ++ post) (Z.of_nat (length m)) accum) = Ok (crc24 m (maskcrc accum)) /\
  (forall a x y b, m = a ++ x :: b -> inU 8 y -> x <> y -> crc24 (a ++ y :: b) (maskcrc accum) <> crc24 m (maskcrc accum)) /\
  (t ← init_crc dm table; crcbytes dm t [] 0 accum) = Err OutOfBounds.
Proof.
  intros Ht Hne HF Ha Hl. rewrite (crc_tab_init dm table Ht). cbn [mbind res_bind]. split; [exact (crcbytes_ok dm m post accum Hne HF Ha Hl)|]. split; [|reflexivity].
  intros a x y b -> Hy Hxy E. apply Forall_app in HF as [Fa Fb]. apply Forall_cons_1 in Fb as [Hx Fb]. apply Hxy. symmetry. refine (crc24_detects a y x b _ _ Fa Fb Hy Hx E). rewrite maskcrc_mod. apply Z.mod_pos_bound. lia.
Qed.

Lemma crc24_division_witness : let m := [0x31; 0x32; 0x33] in replicate 256 0 = replicate 256 0 /\ m <> [] /\ Forall (inU 8) m /\ 0 <= CRCINIT /\ Z.of_nat (length m) < 2 ^ 32 /\
  (t ← init_crc LP64 (replicate 256 0); crcbytes LP64 t (m ++ [7; 7]) (Z.of_nat (length m)) CRCINIT) = Ok (crc24 m CRCINIT).
Proof.
  intros m. assert (m <> []) as H1 by discriminate. assert (Forall (inU 8) m) as H2 by by_eval. assert (0 <= CRCINIT) as H3 by (vm_compute; discriminate). assert (Z.of_nat (length m) < 2 ^ 32) as H4 by (vm_compute; reflexivity).
  split; [reflexivity|]. split; [exact H1|]. split; [exact H2|]. split; [exact H3|]. split; [exact H4|]. exact (proj1 (crc24_division LP64 (replicate 256 0) m [7; 7] CRCINIT (or_introl eq_refl) H1 H2 H3 H4)).
Defined.
