(* ===== verification/Radix64.v ===== *)
(** Radix-64 groups of the ASCII armour of pgp (outdec and darmor_buffer of src/mibench/security/pgp/src/armor.c). *)
From stdpp Require Import base list numbers option tactics.
From Stdlib Require Import ZArith Lia.
From S2P Require Import Prelude Bytes.

(** * The code *)

(** "ABC...Zabc...z012...9+/" *)
Definition bintoasc : list Z := [
  65; 66; 67; 68; 69; 70; 71; 72; 73; 74; 75; 76; 77; 78; 79; 80; 81; 82; 83; 84; 85; 86; 87; 88; 89; 90;
  97; 98; 99; 100; 101; 102; 103; 104; 105; 106; 107; 108; 109; 110; 111; 112; 113; 114; 115; 116; 117; 118; 119; 120; 121; 122;
  48; 49; 50; 51; 52; 53; 54; 55; 56; 57; 43; 47].
Definition asctobin : list Z := [
  0x80; 0x80; 0x80; 0x80; 0x80; 0x80; 0x80; 0x80; 0x80; 0x80; 0x80; 0x80; 0x80; 0x80; 0x80; 0x80;
  0x80; 0x80; 0x80; 0x80; 0x80; 0x80; 0x80; 0x80; 0x80; 0x80; 0x80; 0x80; 0x80; 0x80; 0x80; 0x80;
  0x80; 0x80; 0x80; 0x80; 0x80; 0x80; 0x80; 0x80; 0x80; 0x80; 0x80; 0x3e; 0x80; 0x80; 0x80; 0x3f;
  0x34; 0x35; 0x36; 0x37; 0x38; 0x39; 0x3a; 0x3b; 0x3c; 0x3d; 0x80; 0x80; 0x80; 0x80; 0x80; 0x80;
  0x80; 0x00; 0x01; 0x02; 0x03; 0x04; 0x05; 0x06; 0x07; 0x08; 0x09; 0x0a; 0x0b; 0x0c; 0x0d; 0x0e;
  0x0f; 0x10; 0x11; 0x12; 0x13; 0x14; 0x15; 0x16; 0x17; 0x18; 0x19; 0x80; 0x80; 0x80; 0x80; 0x80;
  0x80; 0x1a; 0x1b; 0x1c; 0x1d; 0x1e; 0x1f; 0x20; 0x21; 0x22; 0x23; 0x24; 0x25; 0x26; 0x27; 0x28;
  0x29; 0x2a; 0x2b; 0x2c; 0x2d; 0x2e; 0x2f; 0x30; 0x31; 0x32; 0x33; 0x80; 0x80; 0x80; 0x80; 0x80].

Definition PAD : Z := 61.
Definition ENC (c : Z) : res Z := aget bintoasc (Z.land c 0x3f).

(** The characters that are put out for the bytes at [p]. *)
Definition outdec (buf : list Z) (p count : Z) : res (list Z) :=
  p0 ← aget buf p; p1 ← aget buf (p + 1); p2 ← aget buf (p + 2);
  e1 ← ENC (p0 ≫ 2); e2 ← ENC (Z.lor (Z.land (p0 ≪ 4) 0x30) (Z.land (p1 ≫ 4) 0x0f));
  if count =? 1 then mret [e1; e2; PAD; PAD]
  else
    e3 ← ENC (Z.lor (Z.land (p1 ≪ 2) 0x3c) (Z.land (p2 ≫ 6) 0x03));
    if count =? 2 then mret [e1; e2; e3; PAD] else e4 ← ENC (Z.land p2 0x3f); mret [e1; e2; e3; e4].

(** [*bp & 0x80 || (c = asctobin[*bp]) & 0x80], and the field where that is false. *)
Definition sixbit (b : Z) : res (option Z) :=
  if negb (Z.land b 0x80 =? 0) then mret None else c ← aget asctobin b; mret (if negb (Z.land c 0x80 =? 0) then None else Some c).

(** The three bytes of a group are stored. *)
Definition put_group (out : list Z) (o c1 c2 c3 c4 : Z) : res (list Z) :=
  out ← aset out o (u8 (Z.lor (c1 ≪ 2) (c2 ≫ 4)));
  out ← aset out (o + 1) (u8 (Z.lor (c2 ≪ 4) (c3 ≫ 2)));
  aset out (o + 2) (u8 (Z.lor (c3 ≪ 6) c4)).

(** The loop over the characters of a string up to its final zero: the number of bytes, [None] for the return of -1,
    and the buffer. A group with padding is the last one. *)
Fixpoint darmor_loop (bp out : list Z) (o length : Z) : res (option Z * list Z) :=
  match bp with
  | [] => mret (Some length, out)
  | b1 :: bp =>
      c1 ← sixbit b1;
      match c1, bp with
      | Some c1, b2 :: bp =>
          c2 ← sixbit b2;
          match c2, bp with
          | Some c2, b3 :: bp3 =>
              if b3 =? PAD then
                if negb (Z.land c2 15 =? 0) then mret (None, out)
                else if bool_decide (bp = [PAD; PAD]) || bool_decide (bp = [PAD; 51; 68; PAD; 51; 68]) then out ← put_group out o c1 c2 0 0; mret (Some (length + 1), out)
                else mret (None, out)
              else
                c3 ← sixbit b3;
                match c3, bp3 with
                | Some c3, b4 :: bp4 =>
                    if b4 =? PAD then
                      if negb (Z.land c3 3 =? 0) then mret (None, out)
                      else if bool_decide (bp3 = [PAD]) || bool_decide (bp3 = [PAD; 51; 68]) then out ← put_group out o c1 c2 c3 0; mret (Some (length + 2), out)
                      else mret (None, out)
                    else
                      c4 ← sixbit b4;
                      match c4 with
                      | Some c4 => out ← put_group out o c1 c2 c3 c4; darmor_loop bp4 out (o + 3) (length + 3)
                      | None => mret (None, out)
                      end
                | _, _ => mret (None, out)
                end
          | _, _ => mret (None, out)
          end
      | _, _ => mret (None, out)
      end
  end.
(** The status, what is stored as the length, and the buffer. *)
Definition darmor_buffer (inbuf outbuf : list Z) : res (Z * option Z * list Z) :=
  '(n, out) ← darmor_loop inbuf outbuf 0 0; mret (match n with Some n => (0, Some n, out) | None => (-1, None, out) end).

Example radix_run : (a ← outdec [1; 2; 3; 255; 0; 0] 0 3; b ← outdec [1; 2; 3; 255; 0; 0] 3 1; '(s, n, out) ← darmor_buffer (a ++ b) (replicate 6 7); mret (a ++ b, s, n, out)) = Ok ([65; 81; 73; 68; 47; 119; 61; 61], 0, Some 4, [1; 2; 3; 255; 0; 0]).
Proof. vm_compute. reflexivity. Qed.

(** * The encoding *)

Definition enc (v : Z) : Z := nth (Z.to_nat v) bintoasc 0.

(** The reference encoding, with [pad] for a padding character. *)
Fixpoint radix (pad m : list Z) : list Z :=
  match m with
  | [] => []
  | [a] => [enc (a / 4); enc (a mod 4 * 16)] ++ pad ++ pad
  | [a; b] => [enc (a / 4); enc (a mod 4 * 16 + b / 16); enc (b mod 16 * 4)] ++ pad
  | a :: b :: c :: m => [enc (a / 4); enc (a mod 4 * 16 + b / 16); enc (b mod 16 * 4 + c / 64); enc (c mod 64)] ++ radix pad m
  end.

Section Fields.
Implicit Types (a b c v x : Z).

Lemma ENC_ok v : 0 <= v < 64 -> ENC v = Ok (enc v).
Proof.
  intros Hv. assert (forallb (fun v => match ENC v with Ok e => e =? enc v | _ => false end) (seqZ 0 64) = true) as H by (vm_compute; reflexivity). pose proof (forallb_seqZ _ 0 64 H v ltac:(lia)) as E. cbv beta in E. destruct (ENC v); [|discriminate]. apply Z.eqb_eq in E. now subst.
Qed.

Lemma sixbit_enc v : 0 <= v < 64 -> sixbit (enc v) = Ok (Some v) /\ enc v <> PAD /\ 0 < enc v < 128.
Proof.
  intros Hv. assert (forallb (fun v => match sixbit (enc v) with Ok (Some x) => (x =? v) && negb (enc v =? PAD) && (0 <? enc v) && (enc v <? 128) | _ => false end) (seqZ 0 64) = true) as H by (vm_compute; reflexivity).
  pose proof (forallb_seqZ _ 0 64 H v ltac:(lia)) as E. cbv beta in E. destruct (sixbit (enc v)) as [[x|]|]; [|discriminate..]. repeat (apply andb_prop in E as [E ?]). apply Z.eqb_eq in E. subst x. split; [reflexivity|]. split; [intros E; rewrite E in *; discriminate|lia].
Qed.

Lemma sixbit_ok b : 0 <= b < 256 -> exists r, sixbit b = Ok r /\ match r with Some v => 0 <= v < 64 /\ b = enc v | None => True end.
Proof.
  intros Hb. assert (forallb (fun b => match sixbit b with Ok (Some v) => (0 <=? v) && (v <? 64) && (b =? enc v) | Ok None => true | _ => false end) (seqZ 0 256) = true) as H by (vm_compute; reflexivity).
  pose proof (forallb_seqZ _ 0 256 H b ltac:(lia)) as E. cbv beta in E. destruct (sixbit b) as [r|]; [|discriminate]. exists r. split; [reflexivity|]. destruct r as [v|]; [|exact I]. repeat (apply andb_prop in E as [E ?]). lia.
Qed.

Lemma sextet_low x (n : Z) : 0 <= n -> Z.land x (Z.ones n) = x mod 2 ^ n.
Proof. intros Hn. apply Z.land_ones, Hn. Qed.

(** The fields that outdec computes. *)
Lemma field2 a b : inU 8 a -> inU 8 b -> Z.lor (Z.land (a ≪ 4) 0x30) (Z.land (b ≫ 4) 0x0f) = a mod 4 * 16 + b / 16.
Proof.
  unfold inU. change (2 ^ 8) with 256. intros Ha Hb. change 0x0f with (Z.ones 4). rewrite sextet_low, Z.shiftr_div_pow2 by lia. change (2 ^ 4) with 16. rewrite (Z.mod_small (b / 16)) by dlia. assert (Z.land (a ≪ 4) 0x30 = a mod 4 * 2 ^ 4) as ->.
  { change 0x30 with (Z.shiftl (Z.ones 2) 4). rewrite <- Z.shiftl_land, sextet_low, Z.shiftl_mul_pow2 by lia. reflexivity. }
  apply lor_disjoint_add; [lia|]. change (2 ^ 4) with 16. dlia.
Qed.
Lemma field3 b c : inU 8 b -> inU 8 c -> Z.lor (Z.land (b ≪ 2) 0x3c) (Z.land (c ≫ 6) 0x03) = b mod 16 * 4 + c / 64.
Proof.
  unfold inU. change (2 ^ 8) with 256. intros Hb Hc. change 0x03 with (Z.ones 2). rewrite sextet_low, Z.shiftr_div_pow2 by lia. change (2 ^ 2) with 4. change (2 ^ 6) with 64. rewrite (Z.mod_small (c / 64)) by dlia. assert (Z.land (b ≪ 2) 0x3c = b mod 16 * 2 ^ 2) as ->.
  { change 0x3c with (Z.shiftl (Z.ones 4) 2). rewrite <- Z.shiftl_land, sextet_low, Z.shiftl_mul_pow2 by lia. reflexivity. }
  apply lor_disjoint_add; [lia|]. change (2 ^ 2) with 4. dlia.
Qed.

(** The bytes that put_group makes. *)
Lemma byte1 c1 c2 : 0 <= c1 < 64 -> 0 <= c2 < 64 -> u8 (Z.lor (c1 ≪ 2) (c2 ≫ 4)) = c1 * 4 + c2 / 16.
Proof. intros H1 H2. rewrite Z.shiftl_mul_pow2, Z.shiftr_div_pow2, lor_disjoint_add by (change (2 ^ 2) with 4; change (2 ^ 4) with 16; dlia). change (2 ^ 2) with 4. change (2 ^ 4) with 16. unfold wrapU. change (2 ^ 8) with 256. apply Z.mod_small. dlia. Qed.
Lemma byte2 c2 c3 : 0 <= c2 < 64 -> 0 <= c3 < 64 -> u8 (Z.lor (c2 ≪ 4) (c3 ≫ 2)) = c2 mod 16 * 16 + c3 / 4.
Proof. intros H1 H2. rewrite Z.shiftl_mul_pow2, Z.shiftr_div_pow2, lor_disjoint_add by (change (2 ^ 2) with 4; change (2 ^ 4) with 16; dlia). change (2 ^ 2) with 4. change (2 ^ 4) with 16. unfold wrapU. change (2 ^ 8) with 256. dlia. Qed.
Lemma byte3 c3 c4 : 0 <= c3 < 64 -> 0 <= c4 < 64 -> u8 (Z.lor (c3 ≪ 6) c4) = c3 mod 4 * 64 + c4.
Proof. intros H1 H2. rewrite Z.shiftl_mul_pow2, lor_disjoint_add by (change (2 ^ 6) with 64; dlia). change (2 ^ 6) with 64. unfold wrapU. change (2 ^ 8) with 256. dlia. Qed.
End Fields.

Definition padding (pad : list Z) : Prop := pad = [PAD] \/ pad = [PAD; 51; 68].
(** The bytes that are stored for a message: the last group is filled with zeros. *)
Definition filled (m : list Z) : list Z := m ++ replicate ((3 - length m mod 3) mod 3) 0.

Section Groups.
Implicit Types (pre post m s out pad : list Z).

Lemma put_group_ok pre x y z post c1 c2 c3 c4 : 0 <= c1 < 64 -> 0 <= c2 < 64 -> 0 <= c3 < 64 -> 0 <= c4 < 64 ->
  put_group (pre ++ x :: y :: z :: post) (Z.of_nat (length pre)) c1 c2 c3 c4 = Ok (pre ++ (c1 * 4 + c2 / 16) :: (c2 mod 16 * 16 + c3 / 4) :: (c3 mod 4 * 64 + c4) :: post).
Proof.
  intros H1 H2 H3 H4. unfold put_group. rewrite byte1, byte2, byte3 by assumption. assert (forall pre x post v, aset (pre ++ x :: post) (Z.of_nat (length pre)) v = Ok (pre ++ v :: post)) as Hset.
  { clear. intros pre x post v. apply aset_ok. split; [rewrite length_app; cbn [length]; lia|]. rewrite Nat2Z.id, insert_app_r_alt, Nat.sub_diag by lia. reflexivity. }
  rewrite Hset. cbn [mbind res_bind]. set (d1 := c1 * 4 + c2 / 16). set (d2 := c2 mod 16 * 16 + c3 / 4). set (d3 := c3 mod 4 * 64 + c4).
  pose proof (Hset (pre ++ [d1]) y (z :: post) d2) as E2. rewrite <- !app_assoc, length_app in E2. cbn [app length] in E2. replace (Z.of_nat (length pre + 1)) with (Z.of_nat (length pre) + 1) in E2 by lia. rewrite E2. cbn [mbind res_bind].
  pose proof (Hset (pre ++ [d1; d2]) z post d3) as E3. rewrite <- !app_assoc, length_app in E3. cbn [app length] in E3. replace (Z.of_nat (length pre + 2)) with (Z.of_nat (length pre) + 2) in E3 by lia. exact E3.
Qed.

Lemma outdec_ok buf (p : nat) a b c : buf !! p = Some a -> buf !! S p = Some b -> buf !! S (S p) = Some c -> inU 8 a -> inU 8 b -> inU 8 c ->
  outdec buf (Z.of_nat p) 3 = Ok (radix [PAD] [a; b; c]) /\ (c = 0 -> outdec buf (Z.of_nat p) 2 = Ok (radix [PAD] [a; b])) /\ (b = 0 -> c = 0 -> outdec buf (Z.of_nat p) 1 = Ok (radix [PAD] [a])).
Proof.
  intros E1 E2 E3 Ha Hb Hc. unfold outdec. rewrite (proj2 (aget_ok buf (Z.of_nat p) a)) by (rewrite Nat2Z.id; auto with lia). rewrite (proj2 (aget_ok buf (Z.of_nat p + 1) b)) by (replace (Z.of_nat p + 1) with (Z.of_nat (S p)) by lia; rewrite Nat2Z.id; auto with lia).
  rewrite (proj2 (aget_ok buf (Z.of_nat p + 2) c)) by (replace (Z.of_nat p + 2) with (Z.of_nat (S (S p))) by lia; rewrite Nat2Z.id; auto with lia). cbn [mbind res_bind]. rewrite field2, field3 by assumption.
  unfold inU in Ha, Hb, Hc. change (2 ^ 8) with 256 in *. rewrite !Z.shiftr_div_pow2 by lia. change (2 ^ 2) with 4. change (Z.land c 0x3f) with (Z.land c (Z.ones 6)). rewrite Z.land_ones by lia. change (2 ^ 6) with 64.
  assert (0 <= a / 4 < 64) by dlia. assert (0 <= a mod 4 * 16 + b / 16 < 64) by dlia. assert (0 <= b mod 16 * 4 + c / 64 < 64) by dlia. assert (0 <= c mod 64 < 64) by dlia. rewrite !ENC_ok by assumption. cbn [mbind res_bind]. split; [reflexivity|]. split.
  - intros ->. change (2 =? 1) with false. change (2 =? 2) with true. cbn [mret res_ret radix app]. rewrite Z.div_0_l, Z.add_0_r by lia. reflexivity.
  - intros -> ->. change (1 =? 1) with true. cbn [mret res_ret radix app]. rewrite Z.div_0_l, Z.add_0_r by lia. reflexivity.
Qed.

Lemma radix_groups (P : list Z -> Prop) : P [] -> (forall a, P [a]) -> (forall a b, P [a; b]) -> (forall a b c m, P m -> P (a :: b :: c :: m)) -> forall m, P m.
Proof.
  intros H0 H1 H2 H3 m. assert (forall n m, (length m <= n)%nat -> P m) as H; [|exact (H (length m) m (le_n _))]. induction n as [|n IH]; intros [|a [|b [|c m']]] Hl; auto; cbn in Hl; [lia|]. apply H3, IH. lia.
Qed.

Lemma filled_cons a b c m : filled (a :: b :: c :: m) = a :: b :: c :: filled m.
Proof. unfold filled. cbn [length app]. do 4 f_equal. f_equal. replace (S (S (S (length m)))) with (length m + 1 * 3)%nat by lia. rewrite Nat.Div0.mod_add. reflexivity. Qed.

(** The fields of a group are in range, and give the bytes back. *)
Lemma group3 (a b c : Z) : inU 8 a -> inU 8 b -> inU 8 c -> let v1 := a / 4 in let v2 := a mod 4 * 16 + b / 16 in let v3 := b mod 16 * 4 + c / 64 in let v4 := c mod 64 in
  (0 <= v1 < 64 /\ 0 <= v2 < 64 /\ 0 <= v3 < 64 /\ 0 <= v4 < 64) /\ v1 * 4 + v2 / 16 = a /\ v2 mod 16 * 16 + v3 / 4 = b /\ v3 mod 4 * 64 + v4 = c.
Proof. unfold inU. change (2 ^ 8) with 256. intros Ha Hb Hc. cbv zeta. split; [repeat split; dlia|]. split; [dlia|]. split; dlia. Qed.
Lemma group2 (a b : Z) : inU 8 a -> inU 8 b -> let v1 := a / 4 in let v2 := a mod 4 * 16 + b / 16 in let v3 := b mod 16 * 4 in
  (0 <= v1 < 64 /\ 0 <= v2 < 64 /\ 0 <= v3 < 64) /\ Z.land v3 3 = 0 /\ v1 * 4 + v2 / 16 = a /\ v2 mod 16 * 16 + v3 / 4 = b /\ v3 mod 4 * 64 + 0 = 0.
Proof.
  unfold inU. change (2 ^ 8) with 256. intros Ha Hb. cbv zeta. split; [repeat split; dlia|]. split; [change 3 with (Z.ones 2); rewrite Z.land_ones by lia; change (2 ^ 2) with 4; dlia|]. split; [dlia|]. split; dlia.
Qed.
Lemma group1 (a : Z) : inU 8 a -> let v1 := a / 4 in let v2 := a mod 4 * 16 in
  (0 <= v1 < 64 /\ 0 <= v2 < 64) /\ Z.land v2 15 = 0 /\ v1 * 4 + v2 / 16 = a /\ v2 mod 16 * 16 + 0 / 4 = 0.
Proof.
  unfold inU. change (2 ^ 8) with 256. intros Ha. cbv zeta. split; [repeat split; dlia|]. split; [change 15 with (Z.ones 4); rewrite Z.land_ones by lia; change (2 ^ 4) with 16; dlia|]. split; dlia.
Qed.

Lemma sixbit_e v : 0 <= v < 64 -> sixbit (enc v) = Ok (Some v).
Proof. apply sixbit_enc. Qed.
Lemma enc_pad v : 0 <= v < 64 -> (enc v =? PAD) = false.
Proof. intros Hv. apply Z.eqb_neq, (sixbit_enc v Hv). Qed.

(** Decoding inverts the encoding, with either padding. *)
Lemma darmor_radix pad m : padding pad -> Forall (inU 8) m -> forall pre post (n : Z), (length (filled m) <= length post)%nat ->
  darmor_loop (radix pad m) (pre ++ post) (Z.of_nat (length pre)) n = Ok (Some (n + Z.of_nat (length m)), pre ++ filled m ++ drop (length (filled m)) post).
Proof.
  intros Hpad. induction m as [|a|a b|a b c m IH] using radix_groups; intros HF pre post n Hl.
  - cbn. rewrite Z.add_0_r. reflexivity.
  - apply Forall_cons_1 in HF as [Ha _]. destruct (group1 a Ha) as ([H1 H2] & L & E1 & E2). change (filled [a]) with [a; 0; 0] in *. destruct post as [|x [|y [|z post]]]; cbn [length] in Hl; [lia..|]. cbn [radix app darmor_loop].
    rewrite (sixbit_e _ H1). cbn [mbind res_bind]. rewrite (sixbit_e _ H2). cbn [mbind res_bind]. rewrite L. change (negb (0 =? 0)) with false.
    assert (darmor_group := put_group_ok pre x y z post _ _ 0 0 H1 H2 ltac:(lia) ltac:(lia)). rewrite E1, E2 in darmor_group. change (0 mod 4 * 64 + 0) with 0 in darmor_group.
    destruct Hpad as [-> | ->]; cbn [app]; rewrite Z.eqb_refl; cbn iota; rewrite darmor_group; reflexivity.
  - apply Forall_cons_1 in HF as [Ha HF]. apply Forall_cons_1 in HF as [Hb _]. destruct (group2 a b Ha Hb) as ((H1 & H2 & H3) & L & E1 & E2 & E3). change (filled [a; b]) with [a; b; 0] in *. destruct post as [|x [|y [|z post]]]; cbn [length] in Hl; [lia..|]. cbn [radix app darmor_loop].
    rewrite (sixbit_e _ H1). cbn [mbind res_bind]. rewrite (sixbit_e _ H2). cbn [mbind res_bind]. rewrite (enc_pad _ H3), (sixbit_e _ H3). cbn [mbind res_bind]. rewrite L. change (negb (0 =? 0)) with false.
    assert (darmor_group := put_group_ok pre x y z post _ _ _ 0 H1 H2 H3 ltac:(lia)). rewrite E1, E2, E3 in darmor_group.
    destruct Hpad as [-> | ->]; rewrite Z.eqb_refl; cbn iota; rewrite darmor_group; reflexivity.
  - apply Forall_cons_1 in HF as [Ha HF]. apply Forall_cons_1 in HF as [Hb HF]. apply Forall_cons_1 in HF as [Hc HF]. destruct (group3 a b c Ha Hb Hc) as ((H1 & H2 & H3 & H4) & E1 & E2 & E3). rewrite filled_cons in *. destruct post as [|x [|y [|z post]]]; cbn [length] in Hl; [lia..|]. cbn [radix app darmor_loop].
    rewrite (sixbit_e _ H1). cbn [mbind res_bind]. rewrite (sixbit_e _ H2). cbn [mbind res_bind]. rewrite (enc_pad _ H3), (sixbit_e _ H3). cbn [mbind res_bind]. rewrite (enc_pad _ H4), (sixbit_e _ H4). cbn [mbind res_bind].
    rewrite (put_group_ok pre x y z post _ _ _ _ H1 H2 H3 H4), E1, E2, E3. cbn [mbind res_bind].
    specialize (IH HF (pre ++ [a; b; c]) post (n + 3) ltac:(lia)). rewrite <- app_assoc, length_app in IH. cbn [app length] in IH. replace (Z.of_nat (length pre + 3)) with (Z.of_nat (length pre) + 3) in IH by lia. rewrite IH. cbn [length drop app]. rewrite <- app_assoc. cbn [app]. do 2 f_equal. f_equal. lia.
Qed.

(** Four fields are the fields of three bytes. *)
Lemma fields4 (c1 c2 c3 c4 : Z) : 0 <= c1 < 64 -> 0 <= c2 < 64 -> 0 <= c3 < 64 -> 0 <= c4 < 64 -> exists a b c, inU 8 a /\ inU 8 b /\ inU 8 c /\
  a / 4 = c1 /\ a mod 4 * 16 + b / 16 = c2 /\ b mod 16 * 4 + c / 64 = c3 /\ c mod 64 = c4.
Proof.
  intros H1 H2 H3 H4. exists (c1 * 4 + c2 / 16), (c2 mod 16 * 16 + c3 / 4), (c3 mod 4 * 64 + c4). unfold inU. change (2 ^ 8) with 256.
  split; [split; dlia|]. split; [split; dlia|]. split; [split; dlia|]. split; [dlia|]. split; [dlia|]. split; dlia.
Qed.
Lemma fields3 (c1 c2 c3 : Z) : 0 <= c1 < 64 -> 0 <= c2 < 64 -> 0 <= c3 < 64 -> Z.land c3 3 = 0 -> exists a b, inU 8 a /\ inU 8 b /\
  a / 4 = c1 /\ a mod 4 * 16 + b / 16 = c2 /\ b mod 16 * 4 = c3.
Proof.
  intros H1 H2 H3 H. change 3 with (Z.ones 2) in H. rewrite Z.land_ones in H by lia. change (2 ^ 2) with 4 in H. exists (c1 * 4 + c2 / 16), (c2 mod 16 * 16 + c3 / 4). unfold inU. change (2 ^ 8) with 256.
  split; [split; dlia|]. split; [split; dlia|]. split; [dlia|]. split; dlia.
Qed.
Lemma fields2 (c1 c2 : Z) : 0 <= c1 < 64 -> 0 <= c2 < 64 -> Z.land c2 15 = 0 -> exists a, inU 8 a /\ a / 4 = c1 /\ a mod 4 * 16 = c2.
Proof.
  intros H1 H2 H. change 15 with (Z.ones 4) in H. rewrite Z.land_ones in H by lia. change (2 ^ 4) with 16 in H. exists (c1 * 4 + c2 / 16). unfold inU. change (2 ^ 8) with 256. split; [split; dlia|]. split; dlia.
Qed.

Definition decoded s (r : option Z) : Prop := match r with Some _ => exists pad m, padding pad /\ Forall (inU 8) m /\ s = radix pad m | None => True end.
Definition decodes s pre post (n : Z) : Prop := exists r out, darmor_loop s (pre ++ post) (Z.of_nat (length pre)) n = Ok (r, out) /\ length out = length (pre ++ post) /\ decoded s r.

Lemma decodes_none s pre post n : darmor_loop s (pre ++ post) (Z.of_nat (length pre)) n = Ok (None, pre ++ post) -> decodes s pre post n.
Proof. intros E. exists None, (pre ++ post). split; [exact E|]. split; [reflexivity|exact I]. Qed.

Lemma decodes_one s pad pre post n (c1 c2 : Z) : s = enc c1 :: enc c2 :: pad ++ pad -> padding pad -> (3 <= length post)%nat -> 0 <= c1 < 64 -> 0 <= c2 < 64 -> Z.land c2 15 = 0 -> decodes s pre post n.
Proof.
  intros -> Hp Hl H1 H2 L. destruct (fields2 c1 c2 H1 H2 L) as (a & Ha & <- & <-). change (enc (a / 4) :: enc (a mod 4 * 16) :: pad ++ pad) with (radix pad [a]). pose proof (Forall_cons_2 _ a [] Ha (Forall_nil_2 _)) as HF.
  eexists _, _. split; [exact (darmor_radix pad [a] Hp HF pre post n Hl)|]. split; [rewrite !length_app, length_drop; cbn; lia|]. exists pad, [a]. auto.
Qed.
Lemma decodes_two s pad pre post n (c1 c2 c3 : Z) : s = enc c1 :: enc c2 :: enc c3 :: pad -> padding pad -> (3 <= length post)%nat -> 0 <= c1 < 64 -> 0 <= c2 < 64 -> 0 <= c3 < 64 -> Z.land c3 3 = 0 -> decodes s pre post n.
Proof.
  intros -> Hp Hl H1 H2 H3 L. destruct (fields3 c1 c2 c3 H1 H2 H3 L) as (a & b & Ha & Hb & <- & <- & <-).
  assert (Forall (inU 8) [a; b]) as HF by (repeat constructor; apply Ha || apply Hb).
  eexists _, _. split; [exact (darmor_radix pad [a; b] Hp HF pre post n Hl)|]. split; [rewrite !length_app, length_drop; cbn; lia|]. exists pad, [a; b]. auto.
Qed.

(** A group of four characters without padding. *)
Lemma decodes_group (c1 c2 c3 c4 : Z) s pre post n : 0 <= c1 < 64 -> 0 <= c2 < 64 -> 0 <= c3 < 64 -> 0 <= c4 < 64 -> (3 <= length post)%nat ->
  (forall b1 b2 b3 rest, length rest = (length post - 3)%nat -> decodes s (pre ++ [b1; b2; b3]) rest (n + 3)) -> decodes (enc c1 :: enc c2 :: enc c3 :: enc c4 :: s) pre post n.
Proof.
  intros H1 H2 H3 H4 Hl H. destruct post as [|x [|y [|z post]]]; cbn [length] in Hl; [lia..|]. destruct (fields4 c1 c2 c3 c4 H1 H2 H3 H4) as (a & b & c & Ha & Hb & Hc & <- & <- & <- & <-). destruct (group3 a b c Ha Hb Hc) as (_ & G1 & G2 & G3).
  destruct (H a b c post ltac:(cbn; lia)) as (r & out & E & El & D). exists r, out. split.
  - cbn [darmor_loop]. rewrite (sixbit_e _ H1). cbn [mbind res_bind]. rewrite (sixbit_e _ H2). cbn [mbind res_bind]. rewrite (enc_pad _ H3), (sixbit_e _ H3). cbn [mbind res_bind]. rewrite (enc_pad _ H4), (sixbit_e _ H4). cbn [mbind res_bind].
    rewrite (put_group_ok pre x y z post _ _ _ _ H1 H2 H3 H4), G1, G2, G3. cbn [mbind res_bind]. rewrite <- app_assoc, length_app in E. cbn [app length] in E. replace (Z.of_nat (length pre + 3)) with (Z.of_nat (length pre) + 3) in E by lia. exact E.
  - split; [rewrite El, !length_app; cbn; lia|]. destruct r as [k|]; [|exact I]. destruct D as (pad & m & Hp & HF & ->). exists pad, (a :: b :: c :: m). split; [exact Hp|]. split; [repeat apply Forall_cons_2; assumption|reflexivity].
Qed.

(** Every string of bytes is decoded inside the buffer: either it is an encoding or it is refused. *)
Lemma darmor_total (k : nat) : forall s pre post n, (length s <= k)%nat -> Forall (inU 8) s -> (3 * (length s / 4) <= length post)%nat -> decodes s pre post n.
Proof.
  induction k as [|k IH]; intros s pre post n Hk HF Hl.
  { destruct s; [|cbn in Hk; lia]. exists (Some n), (pre ++ post). split; [reflexivity|]. split; [reflexivity|]. exists [PAD], []. split; [now left|]. auto. }
  assert (forall b, inU 8 b -> exists r, sixbit b = Ok r /\ match r with Some v => 0 <= v < 64 /\ b = enc v | None => True end) as Hs by (intros b Hb; apply sixbit_ok, Hb).
  destruct s as [|b1 s]; [exists (Some n), (pre ++ post); split; [reflexivity|]; split; [reflexivity|]; exists [PAD], []; split; [now left|]; auto|].
  apply Forall_cons_1 in HF as [B1 HF]. destruct (Hs b1 B1) as ([c1|] & E1 & H1); [|apply decodes_none; cbn [darmor_loop]; rewrite E1; reflexivity]. destruct H1 as [H1 ->].
  destruct s as [|b2 s]; [apply decodes_none; cbn [darmor_loop]; rewrite E1; reflexivity|].
  apply Forall_cons_1 in HF as [B2 HF]. destruct (Hs b2 B2) as ([c2|] & E2 & H2); [|apply decodes_none; cbn [darmor_loop]; rewrite E1; cbn [mbind res_bind]; rewrite E2; reflexivity]. destruct H2 as [H2 ->].
  destruct s as [|b3 s]; [apply decodes_none; cbn [darmor_loop]; rewrite E1; cbn [mbind res_bind]; rewrite E2; reflexivity|].
  apply Forall_cons_1 in HF as [B3 HF].
  assert (4 <= length (enc c1 :: enc c2 :: b3 :: s) -> 3 <= length post)%nat as Hroom by (intros H; pose proof (Nat.Div0.div_le_mono _ _ 4 H) as H'; change (4 / 4)%nat with 1%nat in H'; lia).
  destruct (Z.eqb_spec b3 PAD) as [->|N3].
  { destruct (Z.land c2 15 =? 0) eqn:L; [|apply decodes_none; cbn [darmor_loop]; rewrite E1; cbn [mbind res_bind]; rewrite E2; cbn [mbind res_bind]; rewrite Z.eqb_refl, L; reflexivity]. pose proof L as L'. apply Z.eqb_eq in L'.
    destruct (decide (PAD :: s = [PAD; PAD])) as [E|Ne1]; [rewrite E in *; apply (decodes_one _ [PAD] pre post n c1 c2); [reflexivity|now left|apply Hroom; cbn; lia|exact H1|exact H2|exact L']|].
    destruct (decide (PAD :: s = [PAD; 51; 68; PAD; 51; 68])) as [E|Ne2]; [rewrite E in *; apply (decodes_one _ [PAD; 51; 68] pre post n c1 c2); [reflexivity|now right|apply Hroom; cbn; lia|exact H1|exact H2|exact L']|].
    apply decodes_none. cbn [darmor_loop]. rewrite E1. cbn [mbind res_bind]. rewrite E2. cbn [mbind res_bind]. rewrite Z.eqb_refl, L. cbn [negb]. rewrite !bool_decide_eq_false_2 by assumption. reflexivity. }
  destruct (Hs b3 B3) as ([c3|] & E3 & H3); [|apply decodes_none; cbn [darmor_loop]; rewrite E1; cbn [mbind res_bind]; rewrite E2; cbn [mbind res_bind]; rewrite (proj2 (Z.eqb_neq _ _) N3), E3; reflexivity]. destruct H3 as [H3 ->].
  destruct s as [|b4 s]; [apply decodes_none; cbn [darmor_loop]; rewrite E1; cbn [mbind res_bind]; rewrite E2; cbn [mbind res_bind]; rewrite (proj2 (Z.eqb_neq _ _) N3), E3; reflexivity|].
  apply Forall_cons_1 in HF as [B4 HF]. specialize (Hroom ltac:(cbn; lia)). destruct (Z.eqb_spec b4 PAD) as [->|N4].
  { destruct (Z.land c3 3 =? 0) eqn:L; [|apply decodes_none; cbn [darmor_loop]; rewrite E1; cbn [mbind res_bind]; rewrite E2; cbn [mbind res_bind]; rewrite (proj2 (Z.eqb_neq _ _) N3), E3; cbn [mbind res_bind]; rewrite Z.eqb_refl, L; reflexivity]. pose proof L as L'. apply Z.eqb_eq in L'.
    destruct (decide (PAD :: s = [PAD])) as [E|Ne1]; [rewrite E in *; apply (decodes_two _ [PAD] pre post n c1 c2 c3); [reflexivity|now left|exact Hroom|exact H1|exact H2|exact H3|exact L']|].
    destruct (decide (PAD :: s = [PAD; 51; 68])) as [E|Ne2]; [rewrite E in *; apply (decodes_two _ [PAD; 51; 68] pre post n c1 c2 c3); [reflexivity|now right|exact Hroom|exact H1|exact H2|exact H3|exact L']|].
    apply decodes_none. cbn [darmor_loop]. rewrite E1. cbn [mbind res_bind]. rewrite E2. cbn [mbind res_bind]. rewrite (proj2 (Z.eqb_neq _ _) N3), E3. cbn [mbind res_bind]. rewrite Z.eqb_refl, L. cbn [negb]. rewrite !bool_decide_eq_false_2 by assumption. reflexivity. }
  destruct (Hs b4 B4) as ([c4|] & E4 & H4); [|apply decodes_none; cbn [darmor_loop]; rewrite E1; cbn [mbind res_bind]; rewrite E2; cbn [mbind res_bind]; rewrite (proj2 (Z.eqb_neq _ _) N3), E3; cbn [mbind res_bind]; rewrite (proj2 (Z.eqb_neq _ _) N4), E4; reflexivity]. destruct H4 as [H4 ->].
  apply decodes_group; auto. intros x y z rest El. apply IH; [cbn in Hk; lia|exact HF|]. cbn [length] in Hl. replace (S (S (S (S (length s))))) with (length s + 1 * 4)%nat in Hl by lia. rewrite Nat.div_add in Hl by lia. lia.
Qed.
End Groups.

(** C24: darmor_buffer on any string of bytes stays inside a buffer of three bytes for every
    four characters, and either the string is the encoding of some bytes, with one of the two
    forms of padding, which it stores with their number, or it is no encoding of any bytes and
    -1 is returned. *)
Theorem radix_exact s out : Forall (inU 8) s -> (3 * (length s / 4) <= length out)%nat ->
  (exists pad m, padding pad /\ Forall (inU 8) m /\ s = radix pad m /\ (length (filled m) <= length out)%nat /\ darmor_buffer s out = Ok (0, Some (Z.of_nat (length m)), filled m ++ drop (length (filled m)) out)) \/
  ((forall pad m, padding pad -> Forall (inU 8) m -> s <> radix pad m) /\ exists out', length out' = length out /\ darmor_buffer s out = Ok (-1, None, out')).
Proof.
  intros HF Hl. assert (forall pad m, padding pad -> s = radix pad m -> (length (filled m) <= length out)%nat) as Hroom.
  { intros pad m Hp ->. etransitivity; [|exact Hl]. clear Hl HF. induction m as [|a|a b|a b c m IH] using radix_groups; [cbn; lia| | |rewrite filled_cons; cbn [radix app length]; replace (S (S (S (S (length (radix pad m)))))) with (length (radix pad m) + 1 * 4)%nat by lia; rewrite Nat.div_add by lia; lia]; destruct Hp as [-> | ->]; cbn; lia. }
  destruct (darmor_total (length s) s [] out 0 (le_n _) HF Hl) as (r & out' & E & El & D). change (Z.of_nat (length (@nil Z))) with 0 in E. cbn [app] in E, El. destruct r as [k|].
  - left. destruct D as (pad & m & Hp & Hm & Es). exists pad, m. pose proof (Hroom pad m Hp Es) as Hr. split; [exact Hp|]. split; [exact Hm|]. split; [exact Es|]. split; [exact Hr|]. unfold darmor_buffer. rewrite Es. pose proof (darmor_radix pad m Hp Hm [] out 0 Hr) as E'. change (Z.of_nat (length (@nil Z))) with 0 in E'. cbn [app] in E'. rewrite E'. reflexivity.
  - right. split; [|exists out'; split; [exact El|]; unfold darmor_buffer; rewrite E; reflexivity]. intros pad m Hp Hm Es. pose proof (darmor_radix pad m Hp Hm [] out 0 (Hroom pad m Hp Es)) as E'. change (Z.of_nat (length (@nil Z))) with 0 in E'. cbn [app] in E'. rewrite <- Es, E in E'. discriminate E'.
Qed.

Lemma radix_exact_witness : let s := [65; 81; 61; 51; 68; 61; 51; 68] in let out := replicate 6 7 in Forall (inU 8) s /\ (3 * (length s / 4) <= length out)%nat /\
  ((exists pad m, padding pad /\ Forall (inU 8) m /\ s = radix pad m /\ (length (filled m) <= length out)%nat /\ darmor_buffer s out = Ok (0, Some (Z.of_nat (length m)), filled m ++ drop (length (filled m)) out)) \/
  ((forall pad m, padding pad -> Forall (inU 8) m -> s <> radix pad m) /\ exists out', length out' = length out /\ darmor_buffer s out = Ok (-1, None, out'))).
Proof. intros s out. assert (Forall (inU 8) s) as H1 by by_eval. assert (3 * (length s / 4) <= length out)%nat as H2 by (cbn; lia). split; [exact H1|]. split; [exact H2|]. exact (radix_exact s out H1 H2). Defined.
