(* ===== verification/ArmorIo.v ===== *)
(** Lines and headers of the ASCII armour of pgp (src/mibench/security/pgp/src/armor.c).

    An open file is the list of the bytes that are still to be read; a line buffer is an array of 80 characters that
    keeps what earlier lines left in it. Characters are bytes, and the locale is "C". *)
From stdpp Require Import base list numbers option tactics.
From Stdlib Require Import ZArith Lia.
From Stdlib Require Ascii String.
From S2P Require Import Prelude Bytes Radix64.
Import String.StringSyntax.

(** * The code *)

Fixpoint codes (s : String.string) : list Z :=
  match s with String.EmptyString => [] | String.String c s => Z.of_N (Ascii.N_of_ascii c) :: codes s end.
Arguments codes s%_string_scope.

Definition EOF : Z := -1.
Definition getc (f : list Z) : Z * list Z := match f with [] => (EOF, []) | c :: f => (c, f) end.
Definition ungetc (c : Z) (f : list Z) : list Z := if c =? EOF then f else c :: f.

Definition isdigit (c : Z) : bool := (48 <=? c) && (c <=? 57).
Definition isalpha (c : Z) : bool := ((65 <=? c) && (c <=? 90)) || ((97 <=? c) && (c <=? 122)).
Definition isalnum (c : Z) : bool := isalpha c || isdigit c.
Definition isspace (c : Z) : bool := (c =? 32) || ((9 <=? c) && (c <=? 13)).

(** The string that a buffer holds, [strcpy], and [strncmp] with all the characters of a literal: every buffer is longer than the literals. *)
Fixpoint cstr (buf : list Z) : res (list Z) :=
  match buf with [] => Err OutOfBounds | c :: buf => if c =? 0 then mret [] else s ← cstr buf; mret (c :: s) end.
Definition strcpy (dst src : list Z) : res (list Z) :=
  s ← cstr src; if (length s <? length dst)%nat then mret (s ++ 0 :: drop (S (length s)) dst) else Err OutOfBounds.
Definition starts (lit buf : list Z) : bool := bool_decide (take (length lit) buf = lit).

(** The value, and what is left of the file. *)
Fixpoint skipline_loop (state : bool) (flag : Z) (f : list Z) : Z * list Z :=
  match f with
  | [] => if state then (flag, []) else (-1, [])
  | c :: f =>
      if c =? 10 then (flag, f)
      else if state then (flag, c :: f)
      else if c =? 13 then skipline_loop true flag f
      else skipline_loop state (if negb (c =? 32) then 1 else flag) f
  end.
Definition skipline (f : list Z) : Z * list Z := skipline_loop false 0 f.

(** The value, what is left of the input, and the output. *)
Fixpoint copyline_loop (state : bool) (f out : list Z) : Z * list Z * list Z :=
  match f with
  | [] => if state then (1, [], out) else (0, [], out)
  | c :: f =>
      if c =? 10 then (1, f, out)
      else if state then (1, c :: f, out)
      else if c =? 13 then copyline_loop true f out
      else copyline_loop state f (out ++ [c])
  end.
Definition copyline (f out : list Z) : Z * list Z * list Z := copyline_loop false f out.

(** The value, the buffer, and what is left of the file; [p] is the position in the buffer. *)
Fixpoint getline_loop (state : bool) (buf : list Z) (p n : Z) (f : list Z) : res (Z * list Z * list Z) :=
  match f with
  | [] => buf ← aset buf p 0; mret (if state then 1 else if p =? 0 then -1 else 0, buf, [])
  | c :: f =>
      if c =? 10 then buf ← aset buf p 0; mret (1, buf, f)
      else if state then buf ← aset buf p 0; mret (1, buf, c :: f)
      else if c =? 13 then getline_loop true buf p n f
      else if 0 <? n - 1 then buf ← aset buf p c; getline_loop state buf (p + 1) (n - 1) f
      else buf ← aset buf p 0; mret (0, buf, c :: f)
  end.
Definition getline (buf : list Z) (n : Z) (f : list Z) : res (Z * list Z * list Z) := getline_loop false buf 0 n f.

Definition MAX_LINE_SIZE : Z := 80.
Definition MAX_PATH : Z := 256.
Definition end_of_line (c : Z) : bool := (c =? 10) || (c =? 13) || (c =? EOF).

(** [do { c = getc(f); ... *p++ = c; } while (--n > 0);]: the buffer, the position, the last character, the file. *)
Fixpoint armor_line_loop (n : nat) (buf : list Z) (p : Z) (f : list Z) : res (list Z * Z * Z * list Z) :=
  let '(c, f) := getc f in
  if end_of_line c then mret (buf, p, c, f)
  else buf ← aset buf p c; match n with O | 1%nat => mret (buf, p + 1, c, f) | S n => armor_line_loop n buf (p + 1) f end.
(** The bits of the trailing characters that are not a space, the last character, and the file. *)
Fixpoint trailing_loop (n c : Z) (f : list Z) : Z * Z * list Z :=
  if end_of_line c then (n, c, f)
  else match f with [] => (Z.lor n (Z.lxor c 32), EOF, []) | c' :: f => trailing_loop (Z.lor n (Z.lxor c 32)) c' f end.
(** [while (p > buf && p[-1] == ' ') --p;] *)
Fixpoint strip_loop (buf : list Z) (p : nat) : res Z :=
  match p with O => mret 0 | S p' => c ← aget buf (Z.of_nat p'); if c =? 32 then strip_loop buf p' else mret (Z.of_nat p) end.
(** False for NULL; the buffer, and the file. *)
Definition get_armor_line (buf f : list Z) : res (bool * list Z * list Z) :=
  '(buf, p, c, f) ← armor_line_loop (Z.to_nat (MAX_LINE_SIZE - 1)) buf 0 f;
  if (p =? 0) && (c =? EOF) then buf ← aset buf 0 0; mret (false, buf, f)
  else
    let '(n, c, f) := trailing_loop 0 c f in
    let f := if c =? 13 then let '(c, f') := getc f in if negb (c =? 10) then ungetc c f' else f' else f in
    p ← (if n =? 0 then strip_loop buf (Z.to_nat p) else mret p);
    buf ← aset buf p 0;
    mret (true, buf, f).

(** The index that ends the loop over the label. *)
Fixpoint label_end (fuel : nat) (buf : list Z) (i : Z) : res Z :=
  match fuel with O => Err OutOfFuel | S fuel => c ← aget buf i; if isalnum c || (i =? 45) then label_end fuel buf (i + 1) else mret i end.
(** [memcmp(buf, s, i) == 0] for a literal, with its final zero. *)
Definition memeq (buf : list Z) (s : String.string) (i : Z) : bool := bool_decide (take (Z.to_nat i) buf = take (Z.to_nat i) (codes s ++ [0])).
Arguments memeq buf s%_string_scope i.
(** The value, and the character set of the header. *)
Definition isheaderline (use_charset_header : bool) (charset_header buf : list Z) : res (Z * list Z) :=
  c ← aget buf 0;
  if negb (isalpha c) then mret (-1, charset_header)
  else
    i ← label_end (length buf) buf 1;
    c ← aget buf i;
    legal ← (if c =? 58 then c' ← aget buf (i + 1); mret (c' =? 32) else mret false);
    if negb legal then mret (-1, charset_header)
    else if memeq buf "Charset" i then charset_header ← (if use_charset_header then strcpy charset_header (drop 9 buf) else mret charset_header); mret (0, charset_header)
    else if memeq buf "Version" i || memeq buf "Comment" i then mret (0, charset_header)
    else mret (i, charset_header).

(** The static and global variables that reading changes. *)
Record armor := Armor { infile_line : Z; use_charset_header : bool; charset_header : list Z }.
Definition next_line (a : armor) : armor := Armor (infile_line a + 1) (use_charset_header a) (charset_header a).
Definition back_line (a : armor) : armor := Armor (infile_line a - 1) (use_charset_header a) (charset_header a).
Definition set_charset (a : armor) (h : list Z) : armor := Armor (infile_line a) (use_charset_header a) h.

(** [armorfollows && darmor_buffer(buf, outbuf, &n) == 0 && n == 48] *)
Definition full_line (armorfollows : bool) (buf : list Z) : res bool :=
  if armorfollows then s ← cstr buf; '(status, n, _) ← darmor_buffer s (replicate 60 0); mret ((status =? 0) && bool_decide (n = Some 48)) else mret false.

(** Whether reading a line, from [f] up to [f'], met the end of the file: nothing is left, and no newline was last. *)
Definition feof (f f' : list Z) : bool := match f' with [] => negb (nth (length f - 1) f 0 =? 10) | _ => false end.

(** The value, the variables, [*warned], the buffer, the file and its end-of-file indicator. *)
Fixpoint skipheaders_loop (fuel : nat) (label_seen : bool) (a : armor) (warned : Z) (buf f : list Z) (armorfollows : bool) : res (Z * armor * Z * list Z * list Z * bool) :=
  match fuel with
  | O => Err OutOfFuel
  | S fuel =>
      let a := next_line a in
      let fpos := f in
      '(got, buf, f) ← get_armor_line buf f;
      if negb got then mret (0, a, warned, buf, f, feof fpos f)
      else
        b0 ← aget buf 0;
        if b0 =? 0 then mret (0, a, warned, buf, f, feof fpos f)
        else if label_seen && ((b0 =? 32) || (b0 =? 9)) then skipheaders_loop fuel label_seen a warned buf f armorfollows
        else
          '(i, h) ← isheaderline (use_charset_header a) (charset_header a) buf;
          let a := set_charset a h in
          if i <? 0 then
            accept ← full_line armorfollows buf;
            match accept with true => mret (0, back_line a, warned, buf, fpos, false) | false => mret (-1, a, warned, buf, f, feof fpos f) end
          else skipheaders_loop fuel true a (if (0 <? i) && (warned =? 0) then 1 else warned) buf f armorfollows
  end.
Definition skipheaders (a : armor) (warned : Z) (buf f : list Z) (armorfollows : bool) := skipheaders_loop (S (length f)) false a warned buf f armorfollows.

Example skipheaders_run :
  let f := codes "Version: 2.6.3i" ++ [10] ++ codes "Note: x  " ++ [13; 10] ++ codes " more" ++ [13; 10] ++ codes "abc" in
  (r ← skipheaders (Armor 5 true (replicate 16 7)) 0 (replicate 80 9) f true; let '(st, a, w, buf, f, e) := r in Ok (st, infile_line a, w, take 5 buf, f, e)) = Ok (-1, 9, 1, [97; 98; 99; 0; 101], [], true).
Proof. vm_compute. reflexivity. Qed.

(** * Lines of text *)

(** What a printed line is made of. *)
Definition text (c : Z) : Prop := 0 < c < 256 /\ c <> 10 /\ c <> 13.
#[global] Instance text_dec c : Decision (text c).
Proof. unfold text. apply _. Defined.

Section Lines.
Implicit Types (pre post s t buf f rest : list Z) (c : Z).

Lemma text_eol c : text c -> end_of_line c = false.
Proof. intros (H & H1 & H2). unfold end_of_line, EOF. destruct (Z.eqb_spec c 10), (Z.eqb_spec c 13), (Z.eqb_spec c (-1)); (lia || reflexivity). Qed.

Lemma aset_end pre x post c : aset (pre ++ x :: post) (Z.of_nat (length pre)) c = Ok (pre ++ c :: post).
Proof. apply aset_ok. split; [rewrite length_app; cbn [length]; lia|]. rewrite Nat2Z.id, insert_app_r_alt, Nat.sub_diag by lia. reflexivity. Qed.

(** The characters that are stored: the whole line, or as many as there is room for. *)
Lemma armor_line_ok (n : nat) : forall pre post s rest, Forall text s -> (0 < n)%nat -> (n <= length post)%nat ->
  armor_line_loop n (pre ++ post) (Z.of_nat (length pre)) (s ++ 10 :: rest) =
  if (length s <? n)%nat then Ok (pre ++ s ++ drop (length s) post, Z.of_nat (length pre + length s), 10, rest)
  else Ok (pre ++ take n s ++ drop n post, Z.of_nat (length pre + n), nth (n - 1) s 0, drop n s ++ 10 :: rest).
Proof.
  induction n as [|n IH]; intros pre post s rest HF Hn Hl; [lia|]. destruct s as [|c s]; [cbn; rewrite Nat.add_0_r; reflexivity|]. apply Forall_cons_1 in HF as [Hc HF]. cbn [armor_line_loop app getc]. rewrite (text_eol c Hc). destruct post as [|x post]; [cbn in Hl; lia|]. rewrite aset_end. cbn [mbind res_bind length] in *.
  destruct n as [|n]; [cbn [length Nat.ltb]; destruct s; cbn; rewrite Nat2Z.inj_add; reflexivity|].
  specialize (IH (pre ++ [c]) post s rest HF ltac:(lia) ltac:(lia)). rewrite <- !app_assoc, length_app in IH. cbn [app length] in IH. replace (Z.of_nat (length pre + 1)) with (Z.of_nat (length pre) + 1) in IH by lia. rewrite IH.
  change (S (length s) <? S (S n))%nat with (length s <? S n)%nat. destruct (length s <? S n)%nat; cbn [app take drop].
  - rewrite <- Nat.add_assoc. reflexivity.
  - replace (length pre + 1 + S n)%nat with (length pre + S (S n))%nat by lia. cbn [Nat.sub nth]. rewrite Nat.sub_0_r. reflexivity.
Qed.

Lemma trailing_ok s : forall n c rest, Forall text s -> text c -> exists n', trailing_loop n c (s ++ 10 :: rest) = (n', 10, rest).
Proof.
  induction s as [|c' s IH]; intros n c rest HF Hc; cbn [app trailing_loop]; rewrite (text_eol c Hc).
  - eexists. destruct rest; reflexivity.
  - apply Forall_cons_1 in HF as [Hc' HF]. apply IH; assumption.
Qed.

(** What is stripped are spaces. *)
Lemma strip_ok t post (p : nat) : (p <= length t)%nat -> exists k, strip_loop (t ++ post) p = Ok (Z.of_nat k) /\ (k <= p)%nat /\ forall j, (k <= j < p)%nat -> t !! j = Some 32.
Proof.
  induction p as [|p IH]; intros Hp; [exists 0%nat; split; [reflexivity|]; split; [lia|]; lia|]. cbn [strip_loop]. destruct (lookup_lt_is_Some_2 t p ltac:(lia)) as [c Ec].
  assert (aget (t ++ post) (Z.of_nat p) = Ok c) as -> by (apply aget_ok; split; [lia|]; rewrite Nat2Z.id, lookup_app_l by lia; exact Ec). cbn [mbind res_bind]. destruct (Z.eqb_spec c 32) as [->|N].
  - destruct (IH ltac:(lia)) as (k & E & Hk & Hs). exists k. split; [exact E|]. split; [lia|]. intros j Hj. destruct (decide (j = p)) as [->|]; [exact Ec|]. apply Hs. lia.
  - exists (S p). split; [reflexivity|]. split; [lia|]. lia.
Qed.

(** A line is read up to its end: the buffer holds its characters, without spaces at the end. *)
Lemma get_armor_line_ok buf s rest : length buf = 80%nat -> Forall text s -> exists k post, get_armor_line buf (s ++ 10 :: rest) = Ok (true, take k s ++ 0 :: post, rest) /\
  length (take k s ++ 0 :: post) = 80%nat /\ (k <= length s)%nat /\ forall j, (k <= j < 79)%nat -> (j < length s)%nat -> s !! j = Some 32.
Proof.
  intros Hb HF. unfold get_armor_line. change (Z.to_nat (MAX_LINE_SIZE - 1)) with 79%nat. pose proof (armor_line_ok 79 [] buf s rest HF ltac:(lia) ltac:(lia)) as E. change (Z.of_nat (length [])) with 0 in E. cbn [app] in E. rewrite E. clear E.
  assert (forall t (p : nat) n, (length t <= 79)%nat -> p = length t -> exists k post, (k <= p)%nat /\ (forall j, (k <= j < p)%nat -> t !! j = Some 32) /\ length (take k t ++ 0 :: post) = 80%nat /\
    (p' ← (if n =? 0 then strip_loop (t ++ drop (length t) buf) (Z.to_nat (Z.of_nat p)) else mret (Z.of_nat p)); buf ← aset (t ++ drop (length t) buf) p' 0; mret (true, buf, rest)) = Ok (true, take k t ++ 0 :: post, rest)) as Hfin.
  { intros t p n Ht ->. rewrite Nat2Z.id. destruct (strip_ok t (drop (length t) buf) (length t) (le_n _)) as (k & E & Hk & Hs).
    assert (exists k, (k <= length t)%nat /\ (forall j, (k <= j < length t)%nat -> t !! j = Some 32) /\ (if n =? 0 then strip_loop (t ++ drop (length t) buf) (length t) else mret (Z.of_nat (length t))) = Ok (Z.of_nat k)) as (k' & Hk' & Hs' & ->).
    { destruct (n =? 0); [exists k; auto|exists (length t); split; [lia|]; split; [lia|reflexivity]]. }
    assert (exists x post, t ++ drop (length t) buf = take k' t ++ x :: post /\ length (x :: post) = (80 - k')%nat) as (x & post & Ep & El).
    { replace (t ++ drop (length t) buf) with (take k' t ++ (drop k' t ++ drop (length t) buf)) by (rewrite app_assoc, take_drop; reflexivity). destruct (drop k' t ++ drop (length t) buf) as [|x post] eqn:Ed; apply (f_equal length) in Ed; rewrite length_app, !length_drop in Ed; cbn in Ed; [lia|]. exists x, post. split; [reflexivity|]. cbn. lia. }
    exists k', post. split; [exact Hk'|]. split; [exact Hs'|]. split; [rewrite length_app, length_take; cbn [length] in *; lia|]. cbn [mbind res_bind]. rewrite Ep. pose proof (aset_end (take k' t) x post 0) as Ea. rewrite length_take, Nat.min_l in Ea by lia. rewrite Ea. reflexivity. }
  destruct (Nat.ltb_spec (length s) 79) as [Hl|Hl]; cbn [mbind res_bind].
  - change (10 =? EOF) with false. rewrite andb_false_r. assert (trailing_loop 0 10 rest = (0, 10, rest)) as -> by (destruct rest; reflexivity). change (10 =? 13) with false. cbn iota. cbn [length Nat.add].
    destruct (Hfin s (length s) 0 ltac:(lia) eq_refl) as (k & post & Hk & Hs & Hp & E). exists k, post. split; [exact E|]. split; [exact Hp|]. split; [exact Hk|]. intros j Hj Hj'. apply Hs. lia.
  - cbn [length Nat.add]. change (79 - 1)%nat with 78%nat. change (Z.of_nat 79 =? 0) with false. cbn [andb]. assert (text (nth 78 s 0)) as Hc by (apply (proj1 (List.Forall_forall _ _) HF), nth_In; lia). destruct (trailing_ok (drop 79 s) 0 _ rest (Forall_drop _ 79 _ HF) Hc) as (n & ->). change (10 =? 13) with false. cbn iota.
    destruct (Hfin (take 79 s) 79%nat n ltac:(rewrite length_take; lia) ltac:(rewrite length_take; lia)) as (k & post & Hk & Hs & Hp & E). rewrite take_take, Nat.min_l in * by lia. rewrite length_take, Nat.min_l in E by lia. exists k, post. split; [exact E|]. split; [exact Hp|]. split; [lia|].
    intros j Hj Hj'. rewrite <- (lookup_take_lt s 79) by lia. apply Hs. lia.
Qed.
End Lines.

(** * Headers *)

(** A header line that armor_file writes: a known label, and a value that does not begin with a space; the name of a character set has up to fifteen characters. *)
Definition header (s : list Z) : Prop :=
  exists c cs, text c /\ c <> 32 /\ Forall text cs /\ (s = codes "Version: " ++ c :: cs \/ s = codes "Comment: " ++ c :: cs \/ s = codes "Charset: " ++ c :: cs /\ (length (c :: cs) <= 15)%nat).
Definition unlines (ls : list (list Z)) : list Z := mjoin ((fun l => l ++ [10]) <$> ls).

Section Headers.
Implicit Types (s t l buf f rest : list Z) (c : Z) (a : armor).

Lemma unlines_cons l ls rest : unlines (l :: ls) ++ rest = l ++ 10 :: unlines ls ++ rest.
Proof. unfold unlines. rewrite fmap_cons. cbn [mjoin list_join]. rewrite <- !app_assoc. reflexivity. Qed.

(** A line that fits, and does not end with a space. *)
Lemma get_line_ok buf s rest : length buf = 80%nat -> Forall text s -> (length s <= 79)%nat -> s !! (length s - 1)%nat <> Some 32 -> exists post, get_armor_line buf (s ++ 10 :: rest) = Ok (true, s ++ 0 :: post, rest) /\ length (s ++ 0 :: post) = 80%nat.
Proof.
  intros Hb HF Hl Hne. destruct (get_armor_line_ok buf s rest Hb HF) as (k & post & E & El & Hk & Hs). destruct (decide (k = length s)) as [->|N]; [rewrite take_ge in E, El by lia; eauto|].
  destruct Hne. apply Hs; lia.
Qed.

Lemma header_text s : header s -> Forall text s.
Proof. intros (c & cs & Hc & _ & Hcs & [-> |[-> |[-> _]]]); apply Forall_app; (split; [by_eval|apply Forall_cons_2; assumption]). Qed.

Lemma cstr_ok s post : Forall text s -> cstr (s ++ 0 :: post) = Ok s.
Proof.
  induction s as [|c s IH]; intros HF; [reflexivity|]. apply Forall_cons_1 in HF as [Hc HF]. cbn [app cstr]. destruct (Z.eqb_spec c 0) as [->|_]; [destruct Hc; lia|]. rewrite (IH HF). reflexivity.
Qed.
Lemma strcpy_ok h s post : length h = 16%nat -> Forall text s -> (length s <= 15)%nat -> exists h', strcpy h (s ++ 0 :: post) = Ok h' /\ length h' = 16%nat /\ cstr h' = Ok s.
Proof.
  intros Hh HF Hl. unfold strcpy. rewrite (cstr_ok s post HF). cbn [mbind res_bind]. destruct (Nat.ltb_spec (length s) (length h)); [|lia]. eexists. split; [reflexivity|]. split; [|apply cstr_ok, HF]. rewrite length_app. cbn [length]. rewrite length_drop. lia.
Qed.

(** The label of a header line is known; only [Charset] changes the name of the character set. *)
Lemma header_known use h s (k : nat) post : header s -> (10 <= k)%nat -> length h = 16%nat -> exists h', isheaderline use h (take k s ++ 0 :: post) = Ok (0, h') /\ length h' = 16%nat /\ (nth 1 s 0 <> 104 -> h' = h).
Proof.
  intros (c & cs & Hc & _ & Hcs & Es) Hk Hh. replace k with (10 + (k - 10))%nat by lia. generalize (k - 10)%nat as j. intros j. destruct Es as [-> |[-> |[-> Hl]]]; [exists h; split; [reflexivity|]; split; [exact Hh|reflexivity]..|].
  destruct (strcpy_ok h (take (S j) (c :: cs)) post Hh (Forall_take _ _ _ (Forall_cons_2 _ _ _ Hc Hcs)) ltac:(rewrite length_take; lia)) as (h' & E & Hh' & _).
  change (isheaderline use h (take (10 + j) (codes "Charset: " ++ c :: cs) ++ 0 :: post)) with (h' ← (if use then strcpy h (take (S j) (c :: cs) ++ 0 :: post) else mret h); mret (0, h')). destruct use; [rewrite E; exists h'; split; [reflexivity|]; split; [exact Hh'|]|exists h; split; [reflexivity|]; split; [exact Hh|]]; intros N; destruct (N eq_refl).
Qed.
Lemma header_first s (k : nat) post : header s -> (10 <= k)%nat -> exists b, aget (take k s ++ 0 :: post) 0 = Ok b /\ b <> 0 /\ b <> 32 /\ b <> 9.
Proof.
  intros (c & cs & _ & _ & _ & Es) Hk. replace k with (10 + (k - 10))%nat by lia. generalize (k - 10)%nat as j. intros j. destruct Es as [-> |[-> |[-> _]]]; [exists 86|exists 67|exists 67]; (split; [reflexivity|]); lia.
Qed.

Lemma skipheaders_header fuel seen a w buf s rest follows : length buf = 80%nat -> length (charset_header a) = 16%nat -> header s ->
  exists buf' a', length buf' = 80%nat /\ length (charset_header a') = 16%nat /\ use_charset_header a' = use_charset_header a /\ (nth 1 s 0 <> 104 -> charset_header a' = charset_header a) /\
    skipheaders_loop (S fuel) seen a w buf (s ++ 10 :: rest) follows = skipheaders_loop fuel true a' w buf' rest follows.
Proof.
  intros Hb Ha Hs. destruct (get_armor_line_ok buf s rest Hb (header_text s Hs)) as (k & post & E & El & Hk & Hsp).
  assert (10 <= k)%nat as Hk10.
  { destruct (Nat.le_gt_cases 10 k) as [|Hlt]; [assumption|]. destruct Hs as (c & cs & _ & Hne & _ & Es). destruct Hne. assert (s !! 9%nat = Some c) as E9 by (destruct Es as [-> |[-> |[-> _]]]; reflexivity). specialize (Hsp 9%nat ltac:(lia) (lookup_lt_Some _ _ _ E9)). congruence. }
  destruct (header_known (use_charset_header (next_line a)) (charset_header (next_line a)) s k post Hs Hk10 Ha) as (h' & Eh & Hh' & Hv). exists (take k s ++ 0 :: post), (set_charset (next_line a) h'). split; [exact El|]. split; [exact Hh'|]. split; [reflexivity|]. split; [exact Hv|]. cbn [skipheaders_loop]. rewrite E. cbn [mbind res_bind negb].
  destruct (header_first s k post Hs Hk10) as (b & -> & N0 & N32 & N9). cbn [mbind res_bind]. rewrite (proj2 (Z.eqb_neq _ _) N0), (proj2 (Z.eqb_neq _ _) N32), (proj2 (Z.eqb_neq _ _) N9), andb_false_r.
  rewrite Eh. reflexivity.
Qed.

(** A [Charset] header that does not end with a space. *)
Lemma skipheaders_charset fuel seen a w buf v rest follows : length buf = 80%nat -> length (charset_header a) = 16%nat -> header (codes "Charset: " ++ v) -> (length v <= 15)%nat -> v !! (length v - 1)%nat <> Some 32 ->
  exists buf' a', length buf' = 80%nat /\ length (charset_header a') = 16%nat /\ (if use_charset_header a then cstr (charset_header a') = Ok v else charset_header a' = charset_header a) /\
    skipheaders_loop (S fuel) seen a w buf ((codes "Charset: " ++ v) ++ 10 :: rest) follows = skipheaders_loop fuel true a' w buf' rest follows.
Proof.
  intros Hb Ha Hs Hl Hlast. pose proof (header_text _ Hs) as HT. assert (Forall text v) as HF by (apply Forall_app in HT; apply HT). assert (0 < length v)%nat as Hp by (destruct Hs as (c & cs & _ & _ & _ & [E|[E|[E _]]]); [discriminate E|discriminate E|apply app_inv_head in E as ->; cbn; lia]).
  destruct (get_line_ok buf (codes "Charset: " ++ v) rest Hb HT ltac:(rewrite length_app; cbn; lia)) as (post & E & El); [rewrite length_app, lookup_app_r by (cbn; lia); replace (length (codes "Charset: ") + length v - 1 - length (codes "Charset: "))%nat with (length v - 1)%nat by lia; exact Hlast|].
  destruct (strcpy_ok (charset_header a) v post Ha HF Hl) as (h' & Eh & Hh' & Hv). exists ((codes "Charset: " ++ v) ++ 0 :: post), (set_charset (next_line a) (if use_charset_header a then h' else charset_header a)). split; [exact El|]. split; [cbn; destruct (use_charset_header a); assumption|]. split; [cbn; destruct (use_charset_header a); [exact Hv|reflexivity]|].
  cbn [skipheaders_loop]. rewrite E. cbn [mbind res_bind negb]. change (aget ((codes "Charset: " ++ v) ++ 0 :: post) 0) with (Ok 67). cbn [mbind res_bind]. change (67 =? 0) with false. change ((67 =? 32) || (67 =? 9)) with false. rewrite andb_false_r. cbn [next_line use_charset_header charset_header].
  change (isheaderline (use_charset_header a) (charset_header a) ((codes "Charset: " ++ v) ++ 0 :: post)) with (h' ← (if use_charset_header a then strcpy (charset_header a) (v ++ 0 :: post) else mret (charset_header a)); mret (0, h')). destruct (use_charset_header a); [rewrite Eh|]; reflexivity.
Qed.

Lemma skipheaders_blank fuel seen a w buf rest follows : length buf = 80%nat -> exists buf', length buf' = 80%nat /\ skipheaders_loop (S fuel) seen a w buf (10 :: rest) follows = Ok (0, next_line a, w, buf', rest, false).
Proof.
  intros Hb. destruct (get_line_ok buf [] rest Hb (Forall_nil_2 _) ltac:(cbn; lia) ltac:(discriminate)) as (post & E & El). exists (0 :: post). split; [exact El|]. cbn [skipheaders_loop]. cbn [app] in E. rewrite E. destruct rest; reflexivity.
Qed.

Lemma skipheaders_loop_ok hs : forall fuel seen a w buf rest follows, length buf = 80%nat -> length (charset_header a) = 16%nat -> Forall header hs -> (length hs < fuel)%nat ->
  exists buf' a', length buf' = 80%nat /\ skipheaders_loop fuel seen a w buf (unlines hs ++ 10 :: rest) follows = Ok (0, a', w, buf', rest, false).
Proof.
  induction hs as [|h hs IH]; intros fuel seen a w buf rest follows Hb Ha HF Hf; (destruct fuel as [|fuel]; [cbn in Hf; lia|]).
  - destruct (skipheaders_blank fuel seen a w buf rest follows Hb) as (buf' & Hb' & E). exists buf', (next_line a). split; [exact Hb'|exact E].
  - apply Forall_cons_1 in HF as [Hh HF]. rewrite unlines_cons. destruct (skipheaders_header fuel seen a w buf h (unlines hs ++ 10 :: rest) follows Hb Ha Hh) as (buf1 & a1 & Hb1 & Ha1 & _ & _ & ->). cbn [length] in Hf. apply (IH fuel true a1 w buf1 rest follows Hb1 Ha1 HF). lia.
Qed.

Lemma length_unlines ls : (length ls <= length (unlines ls))%nat.
Proof. induction ls as [|l ls IH]; [cbn; lia|]. rewrite <- (app_nil_r (unlines (l :: ls))), unlines_cons, app_nil_r, length_app. cbn [length]. lia. Qed.

(** The headers of a part are skipped up to the blank line. *)
Lemma skipheaders_ok hs a w buf rest follows : length buf = 80%nat -> length (charset_header a) = 16%nat -> Forall header hs -> exists buf' a', length buf' = 80%nat /\ skipheaders a w buf (unlines hs ++ 10 :: rest) follows = Ok (0, a', w, buf', rest, false).
Proof. intros Hb Ha HF. apply skipheaders_loop_ok; [exact Hb|exact Ha|exact HF|]. rewrite length_app. cbn [length]. pose proof (length_unlines hs). lia. Qed.

(** The headers of a clear signed message: the character set is that of the header. *)
Lemma skipheaders_signed (v c : list Z) (others : list (list Z)) a w buf rest : length buf = 80%nat -> length (charset_header a) = 16%nat -> header v -> nth 1 v 0 <> 104 -> header (codes "Charset: " ++ c) -> (length c <= 15)%nat -> c !! (length c - 1)%nat <> Some 32 ->
  Forall header others -> Forall (fun s => nth 1 s 0 <> 104) others ->
  exists buf' a', length buf' = 80%nat /\ skipheaders a w buf (unlines (v :: (codes "Charset: " ++ c) :: others) ++ 10 :: rest) true = Ok (0, a', w, buf', rest, false) /\
    if use_charset_header a then cstr (charset_header a') = Ok c else charset_header a' = charset_header a.
Proof.
  intros Hb Ha Hv Nv Hc Hl Hlast HF HN. unfold skipheaders. rewrite !unlines_cons. set (body := v ++ 10 :: (codes "Charset: " ++ c) ++ 10 :: unlines others ++ 10 :: rest).
  assert (exists fuel, length body = S (S fuel) /\ (length others < fuel)%nat) as (fuel & -> & Hf).
  { pose proof (length_unlines others). assert (length others + 2 < length body)%nat by (unfold body; repeat (rewrite length_app; cbn [length]); lia). exists (length body - 2)%nat. lia. }
  unfold body. destruct (skipheaders_header (S (S fuel)) false a w buf v ((codes "Charset: " ++ c) ++ 10 :: unlines others ++ 10 :: rest) true Hb Ha Hv) as (b1 & a1 & Hb1 & Ha1 & U1 & V1 & ->).
  destruct (skipheaders_charset (S fuel) true a1 w b1 c (unlines others ++ 10 :: rest) true Hb1 Ha1 Hc Hl Hlast) as (b2 & a2 & Hb2 & Ha2 & V2 & ->). rewrite U1, (V1 Nv) in V2.
  assert (forall others fuel a2 b2, length b2 = 80%nat -> length (charset_header a2) = 16%nat -> Forall header others -> Forall (fun s => nth 1 s 0 <> 104) others -> (length others < fuel)%nat ->
    exists buf' a', length buf' = 80%nat /\ skipheaders_loop fuel true a2 w b2 (unlines others ++ 10 :: rest) true = Ok (0, a', w, buf', rest, false) /\ charset_header a' = charset_header a2) as Hothers.
  { clear. induction others as [|h others IH]; intros fuel a b Hb Ha HF HN Hf; (destruct fuel as [|fuel]; [lia|]).
    - destruct (skipheaders_blank fuel true a w b rest true Hb) as (b' & Hb' & E). exists b', (next_line a). split; [exact Hb'|]. split; [exact E|reflexivity].
    - apply Forall_cons_1 in HF as [Hh HF]. apply Forall_cons_1 in HN as [Nh HN]. rewrite unlines_cons. destruct (skipheaders_header fuel true a w b h (unlines others ++ 10 :: rest) true Hb Ha Hh) as (b1 & a1 & Hb1 & Ha1 & _ & V1 & ->). cbn [length] in Hf. rewrite <- (V1 Nh). apply (IH fuel a1 b1 Hb1 Ha1 HF HN). lia. }
  destruct (Hothers others (S fuel) a2 b2 Hb2 Ha2 HF HN ltac:(lia)) as (b3 & a3 & Hb3 & -> & E3). exists b3, a3. split; [exact Hb3|]. split; [reflexivity|]. rewrite E3. exact V2.
Qed.
End Headers.

(** A character set name of sixteen characters is written past the end of [charset_header]. *)
Example charset_overrun : isheaderline true (replicate 16 0) (codes "Charset: 0123456789abcdef" ++ replicate 55 0) = Err OutOfBounds.
Proof. vm_compute. reflexivity. Qed.
