(* ===== verification/Charset.v ===== *)
(** The character sets of pgp (src/mibench/security/pgp/src/charset.c), in the configuration that is neither EBCDIC,
    DOS, NeXT nor Macintosh.

    The tables give the characters from 128 on; [UNK] is a question mark. A table that is not used is [None]. *)
From stdpp Require Import base list numbers option tactics.
From Stdlib Require Import ZArith Lia.
From Stdlib Require Ascii String.
From S2P Require Import Prelude Bytes ArmorIo.
Import String.StringSyntax.

(** * The tables *)

Definition intern2ascii : list Z := [
   63;  63;  63;  63;  63;  63;  63;  63;  63;  63;  63;  63;  63;  63;  63;  63;
   63;  63;  63;  63;  63;  63;  63;  63;  63;  63;  63;  63;  63;  63;  63;  63;
   32;  33;  99;  35;  36;  89; 124;  80;  34;  67;  97;  34; 126;  45;  82;  95;
  111;  63;  50;  51;  39; 117;  45;  45;  44;  49; 111;  34;  63;  63;  63;  63;
   65;  65;  65;  65;  65;  65;  65;  67;  69;  69;  69;  69;  73;  73;  73;  73;
   68;  78;  79;  79;  79;  79;  79; 120;  79;  85;  85;  85;  85;  89;  84; 115;
   97;  97;  97;  97;  97;  97;  97;  99; 101; 101; 101; 101; 105; 105; 105; 105;
  100; 110; 111; 111; 111; 111; 111;  47; 111; 117; 117; 117; 117; 121; 116; 121].
Definition intern2cp850 : list Z := [
  186; 205; 201; 187; 200; 188; 204; 185; 203; 202; 206; 223; 220; 219; 254; 242;
  179; 196; 218; 191; 192; 217; 195; 180; 194; 193; 197; 176; 177; 178; 213; 159;
  255; 173; 189; 156; 207; 190; 221; 245; 249; 184; 166; 174; 170; 240; 169; 238;
  248; 241; 253; 252; 239; 230; 244; 250; 247; 251; 167; 175; 172; 171; 243; 168;
  183; 181; 182; 199; 142; 143; 146; 128; 212; 144; 210; 211; 222; 214; 215; 216;
  209; 165; 227; 224; 226; 229; 153; 158; 157; 235; 233; 234; 154; 237; 232; 225;
  133; 160; 131; 198; 132; 134; 145; 135; 138; 130; 136; 137; 141; 161; 140; 139;
  208; 164; 149; 162; 147; 228; 148; 246; 155; 151; 163; 150; 129; 236; 231; 152].
Definition cp8502intern : list Z := [
  199; 252; 233; 226; 228; 224; 229; 231; 234; 235; 232; 239; 238; 236; 196; 197;
  201; 230; 198; 244; 246; 242; 251; 249; 255; 214; 220; 248; 163; 216; 215; 159;
  225; 237; 243; 250; 241; 209; 170; 186; 191; 174; 172; 189; 188; 161; 171; 187;
  155; 156; 157; 144; 151; 193; 194; 192; 169; 135; 128; 131; 133; 162; 165; 147;
  148; 153; 152; 150; 145; 154; 227; 195; 132; 130; 137; 136; 134; 129; 138; 164;
  240; 208; 202; 203; 200; 158; 205; 206; 207; 149; 146; 141; 140; 166; 204; 139;
  211; 223; 212; 210; 245; 213; 181; 254; 222; 218; 219; 217; 253; 221; 175; 180;
  173; 177; 143; 190; 182; 167; 247; 184; 176; 168; 183; 185; 179; 178; 142; 160].
Definition intern2cp852 : list Z := [
  186; 205; 201; 187; 200; 188; 204; 185; 203; 202; 206; 223; 220; 219; 254;  63;
  179; 196; 218; 191; 192; 217; 195; 180; 194; 193; 197; 176; 177; 178;  63;  63;
  255; 164; 244; 157; 207; 149; 151; 245; 249; 230; 184; 155; 141; 240; 166; 189;
  248; 165; 247; 136; 239; 150; 151; 243; 242; 231; 173; 156; 171; 241; 167; 190;
  232; 181; 182; 198; 142; 145; 143; 128; 172; 144; 168; 211; 183; 214;  73; 210;
  209; 227; 213; 224; 226; 138; 153; 158; 252; 222; 233; 235; 154; 237; 221; 225;
  234; 160; 131; 199; 132; 146; 134; 135; 159; 130; 169; 137; 216; 161; 140; 212;
  208; 228; 229; 162; 147; 139; 148; 246; 253; 133; 163; 251; 129; 236; 238; 250].
Definition cp8522intern : list Z := [
  199; 252; 233; 226; 228; 249; 230; 231; 179; 235; 213; 245; 238; 172; 196; 198;
  201; 197; 229; 244; 246; 165; 181; 166; 182; 214; 220; 171; 187; 163; 215; 232;
  225; 237; 243; 250; 161; 177; 174; 190; 202; 234;  63; 188; 200; 186;  60;  62;
  155; 156; 157; 144; 151; 193; 194; 204; 170; 135; 128; 131; 133; 175; 191; 147;
  148; 153; 152; 150; 145; 154; 195; 227; 132; 130; 137; 136; 134; 129; 138; 164;
  240; 208; 207; 203; 239; 210; 205;  85; 236; 149; 146; 141; 140; 222; 217; 139;
  211; 223; 212; 209; 241; 242; 169; 185; 192; 218; 224; 219; 253; 221; 254; 180;
  173; 189; 184; 183; 162; 167; 247; 178; 176; 168; 255; 251; 216; 248; 142; 160].
Definition intern2cp860 : list Z := [
  186; 205; 201; 187; 200; 188; 204; 185; 203; 202; 206; 223; 220; 219; 254;  95;
  179; 196; 218; 191; 192; 217; 195; 180; 194; 193; 197; 176; 177; 178;  63;  63;
  255; 173; 155; 156;  36;  89; 124;  80;  34;  67; 166; 174; 170;  45;  82;  95;
  248; 241; 253;  51;  39; 230;  45; 250;  44;  49; 167; 175; 172; 171;  63; 168;
  145; 134; 143; 142;  65;  65;  65; 128; 146; 144; 137;  69; 152; 139;  73;  73;
   68; 165; 169; 159; 140; 153;  79; 120;  79; 157; 150;  85; 154;  89;  84; 225;
  133; 160; 131; 132;  97;  97;  97; 135; 138; 130; 136; 101; 141; 161; 105; 105;
  100; 164; 149; 162; 147; 148; 111; 246; 111; 151; 163; 117; 129; 121; 116; 121].
Definition cp8602intern : list Z := [
  199; 252; 233; 226; 227; 224; 193; 231; 234; 202; 232; 205; 212; 236; 195; 194;
  201; 192; 200; 244; 245; 242; 218; 249; 204; 213; 220; 162; 163; 217; 164; 211;
  225; 237; 243; 250; 241; 209; 170; 186; 191; 210; 172; 189; 188; 161; 171; 187;
  155; 156; 157; 144; 151; 151; 135; 147; 131; 135; 128; 131; 133; 149; 133; 147;
  148; 153; 152; 150; 145; 154; 150; 134; 132; 130; 137; 136; 134; 129; 138; 137;
  153; 136; 152; 148; 132; 130; 146; 154; 138; 149; 146; 141; 140; 141; 141; 139;
   63; 223;  63;  63;  63;  63; 181;  63;  63;  63;  63;  63;  63;  63;  63;  63;
   61;  63;  63;  63;  63;  63; 247; 126; 176; 183; 183;  63; 110; 178; 142; 160].
Definition intern2keybcs : list Z := [
   63;  63;  63;  63;  63;  63;  63;  63;  63;  63;  63;  63;  63;  63;  63;  63;
   63;  63;  63;  63;  63;  63;  63;  63;  63;  63;  63;  63;  63;  63;  63;  63;
   63;  65;  63;  76;  63; 156;  83; 173;  63; 155;  83; 134;  90;  63; 146;  90;
  248;  63;  63; 108;  63; 140; 115;  63;  63; 168; 115; 159; 122;  63; 145; 122;
  171; 143;  65;  65; 142; 138;  67;  67; 128; 144;  69;  69; 137; 139;  73; 133;
   68;  78; 165; 149; 167;  79; 153;  63; 158; 166; 151;  85; 154; 157;  84; 225;
  170; 160;  97;  97; 132; 141;  99;  99; 135; 130; 101;  63; 136; 161; 105; 131;
  100; 110; 164; 162; 147; 111; 148;  63; 169; 150; 163; 117; 129; 152; 116;  63].
Definition keybcs2intern : list Z := [
  200; 252; 233; 239; 228; 207; 171; 232; 236; 204; 197; 205; 181; 229; 196; 193;
  201; 190; 174; 244; 246; 211; 249; 218; 253; 214; 220; 169; 165; 221; 216; 187;
  225; 237; 243; 250; 242; 210; 217; 212; 185; 248; 224; 192;  63; 167;  63;  63;
   63;  63;  63;  63;  63;  63;  63;  63;  63;  63;  63;  63;  63;  63;  63;  63;
   63;  63;  63;  63;  63;  63;  63;  63;  63;  63;  63;  63;  63;  63;  63;  63;
   63;  63;  63;  63;  63;  63;  63;  63;  63;  63;  63;  63;  63;  63;  63;  63;
   63; 223;  63;  63;  63;  63;  63;  63;  63;  63;  63;  63;  63;  63;  63;  63;
   63;  63;  63;  63;  63;  63;  63;  63; 176;  63;  63;  63;  63;  63;  63;  63].
Definition intern2next : list Z := [
   63;  63;  63;  63;  63;  63;  63;  63;  63;  63;  63;  63;  63;  63;  63;  63;
  192; 193; 194; 195; 196; 197; 198; 199; 200;  63; 202; 203;  63; 186; 206; 167;
   63; 161; 162; 163; 168; 165; 181;  63; 200; 160; 227; 171; 190; 177; 176; 208;
  202; 209; 201; 204; 184; 157; 182; 183; 203; 192;  63; 187; 210; 211; 212; 191;
  129; 130; 131; 132; 133; 134; 225; 135; 136; 137; 138; 139; 140; 141; 142; 143;
  144; 145; 146; 147; 148; 149; 150; 158; 233; 151; 152; 153; 154; 155; 156; 251;
  213; 214; 215; 216; 217; 218; 241; 219; 220; 221; 222; 223; 224; 226; 228; 229;
  230; 231; 236; 237; 238; 239; 240; 159; 249; 242; 243; 244; 246; 247; 252; 253].
Definition next2intern : list Z := [
   63; 192; 193; 194; 195; 196; 197; 199; 200; 201; 202; 203; 204; 205; 206; 207;
  208; 209; 210; 211; 212; 213; 214; 217; 218; 219; 220; 221; 222; 181; 223; 183;
  169; 161; 162; 163;  47; 165; 102; 167; 164;  96;  34; 171;  60;  62;  63;  63;
  174; 173;  63;  63;  46; 166; 182; 183;  44;  34; 157; 187;  63;  63; 172; 191;
  144; 145; 146; 147; 148; 149; 150; 154; 152; 178; 151; 184; 179;  34; 158; 150;
  175; 177; 188; 189; 190; 224; 225; 226; 227; 228; 229; 231; 232; 233; 234; 235;
  236; 198; 237; 170; 238; 239; 245; 241; 163; 216;  63; 186; 242; 243; 244; 245;
  246; 230; 249; 250; 251; 105; 252; 253; 108; 248;  63; 223; 254; 255;  63;  63].
Definition intern2mac : list Z := [
   63;  63;  63;  63;  63;  63;  63;  63;  63;  63;  63;  63;  63;  63;  63;  63;
   63;  63;  63;  63;  63;  63;  63;  63;  63;  63;  63;  63;  63;  63;  63;  63;
  202; 193; 162; 163; 217; 180; 124; 164; 172; 169; 187; 199; 194; 209; 168;  95;
  188; 177;  50;  51; 171; 181; 166; 165;  44;  49; 161; 200;  63;  63;  63; 192;
  203; 135; 129; 204; 128; 129; 174; 130; 143; 131; 144; 145; 147; 146; 148; 149;
   68; 132; 152; 151; 153; 205; 133; 120; 175; 157; 156; 158; 134;  89;  84; 167;
  136; 135; 137; 139; 138; 140;  97; 141; 143; 142; 144; 145; 147; 146; 148; 149;
  100; 150; 152; 151; 153; 155; 154; 214; 191; 157; 156; 158; 159; 121; 116; 216].
Definition mac2intern : list Z := [
  196; 197; 199; 201; 209; 214; 220; 225; 224; 226; 228; 227; 229; 231; 233; 232;
  234; 235; 237; 236; 238; 239; 241; 243; 242; 244; 246; 245; 250; 249; 251; 252;
   63; 186; 162; 163; 167; 183; 182; 223; 174; 169;  63; 180; 168;  63; 198; 216;
   63; 177;  63;  63; 165; 181; 100;  83;  80; 112;  83; 170; 176;  79; 230; 248;
  191; 161; 172;  63; 102; 126;  68; 171; 187;  63; 160; 192; 195; 213;  79; 111;
   45; 173;  34;  34;  96;  39; 247;  63; 255;  63;  63;  63;  63;  63;  63;  63;
   63;  63;  63;  63;  63;  63;  63;  63;  63;  63;  63;  63;  63;  63;  63;  63;
   63;  63;  63;  63;  63;  63;  63;  63;  63;  63;  63;  63;  63;  63;  63;  63].
Definition intern2alt : list Z := [
  196; 179; 218; 191; 192; 217; 195; 180; 194; 193; 197; 223; 220; 219; 221; 222;
  176; 177; 178; 244; 254; 249; 251; 247; 243; 242; 255; 245; 248; 253; 250; 246;
  205; 186; 213; 241; 214; 201; 184; 183; 187; 212; 211; 200; 190; 189; 188; 198;
  199; 204; 181; 240; 182; 185; 209; 210; 203; 207; 208; 202; 216; 215; 206; 252;
  238; 160; 161; 230; 164; 165; 228; 163; 229; 168; 169; 170; 171; 172; 173; 174;
  175; 239; 224; 225; 226; 227; 166; 162; 236; 235; 167; 232; 237; 233; 231; 234;
  158; 128; 129; 150; 132; 133; 148; 131; 149; 136; 137; 138; 139; 140; 141; 142;
  143; 159; 144; 145; 146; 147; 134; 130; 156; 155; 135; 152; 157; 153; 151; 154].
Definition alt2intern : list Z := [
  225; 226; 247; 231; 228; 229; 246; 250; 233; 234; 235; 236; 237; 238; 239; 240;
  242; 243; 244; 245; 230; 232; 227; 254; 251; 253; 255; 249; 248; 252; 224; 241;
  193; 194; 215; 199; 196; 197; 214; 218; 201; 202; 203; 204; 205; 206; 207; 208;
  144; 145; 146; 129; 135; 178; 180; 167; 166; 181; 161; 168; 174; 173; 172; 131;
  132; 137; 136; 134; 128; 138; 175; 176; 171; 165; 187; 184; 177; 160; 190; 185;
  186; 182; 183; 170; 169; 162; 164; 189; 188; 133; 130; 141; 140; 142; 143; 139;
  210; 211; 212; 213; 198; 200; 195; 222; 219; 221; 223; 217; 216; 220; 192; 209;
  179; 163; 153; 152; 147; 155; 159; 151; 156; 149; 158; 150; 191; 157; 148; 154].

(** * The code *)

Definition to_lower (c : Z) : Z := let c := Z.land c 0xff in if (65 <=? c) && (c <=? 90) then c + 32 else c.
Definition strlwr (s : list Z) : list Z := to_lower <$> s.

(** The name of the character set and the two tables in use. *)
Record char_set := CharSet { charset : list Z; ext_c_ptr : option (list Z); int_c_ptr : option (list Z) }.

Definition init_charset (language charset : list Z) : char_set :=
  let charset := match charset with [] => if bool_decide (language = codes "ru") then codes "koi8" else codes "noconv" | _ => strlwr charset end in
  let named name := bool_decide (charset = name) in
  if named (codes "latin1") || named (codes "koi8") || named (codes "noconv") then CharSet charset None None
  else if named (codes "cp850") then CharSet charset (Some intern2cp850) (Some cp8502intern)
  else if named (codes "cp852") then CharSet charset (Some intern2cp852) (Some cp8522intern)
  else if named (codes "cp860") then CharSet charset (Some intern2cp860) (Some cp8602intern)
  else if named (codes "cp866") then CharSet charset (Some intern2alt) (Some alt2intern)
  else if named (codes "alt_codes") then CharSet charset (Some intern2alt) (Some alt2intern)
  else if named (codes "keybcs2") then CharSet charset (Some intern2keybcs) (Some keybcs2intern)
  else if named (codes "next") then CharSet charset (Some intern2next) (Some next2intern)
  else if named (codes "mac") then CharSet charset (Some intern2mac) (Some mac2intern)
  else if named (codes "ascii") then CharSet charset (Some intern2ascii) None
  else CharSet (codes "noconv") None None.

Definition EXT_C (cs : char_set) (c : Z) : res Z :=
  if Z.land c 0x80 =? 0 then mret c else match ext_c_ptr cs with None => mret c | Some t => aget t (Z.land c 0x7f) end.
Definition INT_C (cs : char_set) (c : Z) : res Z :=
  if Z.land c 0x80 =? 0 then mret c else match int_c_ptr cs with None => mret c | Some t => aget t (Z.land c 0x7f) end.

Example charset_run : (init_charset [] (codes "CP850"), INT_C (init_charset [] (codes "CP850")) 129, charset (init_charset (codes "ru") []), charset (init_charset [] (codes "utf8"))) =
  (CharSet (codes "cp850") (Some intern2cp850) (Some cp8502intern), Ok 252, codes "koi8", codes "noconv").
Proof. reflexivity. Qed.

(** * What the conversion leaves alone *)

(** A character in the internal set. *)
Definition internal (cs : char_set) (c : Z) : Z := if c <? 128 then c else match int_c_ptr cs with None => c | Some t => nth (Z.to_nat (c - 128)) t 63 end.

(** A table for the internal set: 128 printable characters. *)
Definition int_table (t : list Z) : Prop := length t = 128%nat /\ Forall (fun c => 33 <= c < 256) t.
Definition char_set_ok (cs : char_set) : Prop := match int_c_ptr cs with None => True | Some t => int_table t end.

Lemma init_charset_ok language name : char_set_ok (init_charset language name).
Proof.
  unfold init_charset. set (s := match name with [] => _ | _ => _ end). clearbody s. cbv zeta.
  repeat match goal with |- char_set_ok (if ?b then _ else _) => destruct b end; try exact I; (split; [reflexivity|]); apply (bool_decide_eq_true_1 _); vm_compute; reflexivity.
Qed.

Lemma INT_C_ok cs c : char_set_ok cs -> 0 <= c < 256 -> INT_C cs c = Ok (internal cs c).
Proof.
  intros Hcs Hc. unfold INT_C, internal. assert (Z.land c 128 = if c <? 128 then 0 else 128) as E.
  { assert (forallb (fun c => Z.land c 128 =? (if c <? 128 then 0 else 128)) (seqZ 0 256) = true) as H by (vm_compute; reflexivity). apply Z.eqb_eq. exact (forallb_seqZ _ 0 256 H c ltac:(lia)). }
  rewrite E. destruct (Z.ltb_spec c 128); [reflexivity|]. change (128 =? 0) with false. cbn iota. unfold char_set_ok in Hcs. destruct (int_c_ptr cs) as [t|]; [|reflexivity]. destruct Hcs as [Hl _].
  change 127 with (Z.ones 7). rewrite Z.land_ones by lia. change (2 ^ 7) with 128. replace (c mod 128) with (c - 128) by dlia. apply aget_ok. split; [lia|]. destruct (lookup_lt_is_Some_2 t (Z.to_nat (c - 128)) ltac:(lia)) as [x E']. rewrite nth_lookup, E'. reflexivity.
Qed.

(** Newlines, spaces and returns are those of the text. *)
Lemma internal_control cs c k : char_set_ok cs -> 0 <= c < 256 -> 0 <= k <= 32 -> (internal cs c =? k) = (c =? k).
Proof.
  intros Hcs Hc Hk. unfold internal. destruct (Z.ltb_spec c 128); [reflexivity|]. unfold char_set_ok in Hcs. destruct (int_c_ptr cs) as [t|]; [|reflexivity]. destruct Hcs as [Hl HF].
  pose proof (proj1 (List.Forall_forall _ _) HF (nth (Z.to_nat (c - 128)) t 63) ltac:(apply nth_In; lia)) as H'. cbv beta in H'. rewrite (proj2 (Z.eqb_neq c k)) by lia. apply Z.eqb_neq. lia.
Qed.
