(* ===== verification/Canonical.v ===== *)
(** Text files in the canonical form of pgp: copyfile, copyfile_to_canon and make_canonical of
    src/mibench/security/pgp/src/fileio.c, and write_ctb_len of crypto.c.

    A file is the list of its bytes; reading and writing succeed. What is written to the disk buffer [textbuf2] is the
    list of the bytes before the pointer, and writing past its end is an error. *)
From stdpp Require Import base list numbers option tactics.
From Stdlib Require Import ZArith Lia.
From Stdlib Require Ascii String.
From S2P Require Import Prelude Bytes MpiIo ArmorIo Charset.
Import String.StringSyntax.

(** * The code *)

Definition DISKBUFSIZE : Z := 4096.
Definition NO_CONV : Z := 0.
Definition INT_CONV : Z := 1.
Definition EXT_CONV : Z := 2.

(** [*tb2++ = c], in [textbuf2]. *)
Definition put_byte (tb2 : list Z) (c : Z) : res (list Z) := if Z.of_nat (length tb2) <? 2 * DISKBUFSIZE then mret (tb2 ++ [c]) else Err OutOfBounds.
(** [do *tb2++ = ' '; while (--nspaces);]: the buffer ends before the fuel does. *)
Fixpoint spaces_loop (fuel : nat) (tb2 : list Z) (nspaces : Z) : res (list Z) :=
  match fuel with
  | O => Err OutOfFuel
  | S fuel => tb2 ← put_byte tb2 32; let nspaces := s32 (nspaces - 1) in if nspaces =? 0 then mret tb2 else spaces_loop fuel tb2 nspaces
  end.

Section Code.
Context (dm : data_model) (cs : char_set).

Definition convert (CONVERSION c : Z) : res Z := if CONVERSION =? EXT_CONV then EXT_C cs c else if CONVERSION =? INT_CONV then INT_C cs c else mret c.

Fixpoint copyfile_loop (fuel : nat) (CONVERSION : Z) (f g : list Z) (longcount : Z) : res (list Z) :=
  match fuel with
  | O => Err OutOfFuel
  | S fuel =>
      let count := if longcount <? DISKBUFSIZE then longcount else DISKBUFSIZE in
      let textbuf := take (Z.to_nat count) f in
      let f := drop (Z.to_nat count) f in
      let count := Z.of_nat (length textbuf) in
      '(g, longcount) ← (if 0 <? count then textbuf ← mapM (convert CONVERSION) textbuf; mret (g ++ textbuf, uL dm (longcount - count)) else mret (g, longcount));
      if count =? DISKBUFSIZE then copyfile_loop fuel CONVERSION f g longcount else mret g
  end.
(** What [g] is after the copy. *)
Definition copyfile (CONVERSION : Z) (f g : list Z) (longcount : Z) : res (list Z) := copyfile_loop (S (length f)) CONVERSION f g longcount.

(** One character: what is in the buffer, and the spaces that are held back. *)
Definition canon_char (CONVERSION : Z) (strip_spaces : bool) (b : list Z * Z) (c : Z) : res (list Z * Z) :=
  let '(tb2, nspaces) := b in
  c ← convert CONVERSION c;
  if strip_spaces then
    if c =? 32 then mret (tb2, s32 (nspaces + 1))
    else
      '(tb2, nspaces) ← (if c =? 10 then tb2 ← put_byte tb2 13; mret (tb2, 0) else mret (tb2, nspaces));
      '(tb2, nspaces) ← (if negb (nspaces =? 0) then tb2 ← spaces_loop (Z.to_nat (2 * DISKBUFSIZE + 1)) tb2 nspaces; mret (tb2, 0) else mret (tb2, nspaces));
      tb2 ← put_byte tb2 c; mret (tb2, nspaces)
  else
    tb2 ← (if c =? 10 then put_byte tb2 13 else mret tb2);
    tb2 ← put_byte tb2 c; mret (tb2, nspaces).

Fixpoint to_canon_loop (fuel : nat) (CONVERSION : Z) (strip_spaces : bool) (f g : list Z) (longcount nspaces : Z) : res (list Z) :=
  match fuel with
  | O => Err OutOfFuel
  | S fuel =>
      let count := if longcount <? DISKBUFSIZE then longcount else DISKBUFSIZE in
      let textbuf := take (Z.to_nat count) f in
      let f := drop (Z.to_nat count) f in
      let count := Z.of_nat (length textbuf) in
      '(g, longcount, nspaces) ←
        (if 0 <? count then '(tb2, nspaces) ← mfold (canon_char CONVERSION strip_spaces) textbuf ([], nspaces); mret (g ++ tb2, uL dm (longcount - count), nspaces)
         else mret (g, longcount, nspaces));
      if count =? DISKBUFSIZE then to_canon_loop fuel CONVERSION strip_spaces f g longcount nspaces else mret g
  end.
Definition copyfile_to_canon (CONVERSION : Z) (strip_spaces : bool) (f g : list Z) (longcount : Z) : res (list Z) :=
  to_canon_loop (S (length f)) CONVERSION strip_spaces f g longcount 0.

(** The contents of the destination. *)
Definition make_canonical (strip_spaces : bool) (srcFile : list Z) : res (list Z) :=
  let fileLength := Z.of_nat (length srcFile) in
  copyfile_to_canon INT_CONV strip_spaces srcFile [] (uL dm fileLength).

Definition CTB_BYTE (type llen : Z) : Z := 0x80 + 4 * type + llen.
(** The file after it; every byte of [buf] that is put out has been set. *)
Definition write_ctb_len (f : list Z) (ctb_type length : Z) (big : bool) : res (list Z) :=
  let '(llength, llenb) := if big || (0xFFFF <? length) then (4, 2) else if 0xFF <? u16 length then (2, 1) else (1, 0) in
  let f := f ++ [u8 (CTB_BYTE ctb_type llenb)] in
  let buf := replicate 4 0 in
  buf ← (if llength =? 1 then aset buf 0 (u8 length) else if llength =? 2 then put_word16 (u16 length) buf else put_word32 length buf);
  mret (f ++ take (Z.to_nat llength) buf).
End Code.

Example canonical_run : make_canonical ILP32 (init_charset [] (codes "cp850")) true (codes "a b  " ++ [10; 10; 32; 129; 10] ++ codes "c  ") = Ok (codes "a b" ++ [13; 10; 13; 10; 32; 252; 13; 10] ++ codes "c").
Proof. vm_compute. reflexivity. Qed.

(** * What is written *)

(** The canonical form without the spaces that end a line, after [n] spaces: what is written, and the spaces still held back. *)
Fixpoint emit (n : nat) (s : list Z) : list Z * nat :=
  match s with
  | [] => ([], n)
  | c :: s => if c =? 32 then emit (S n) s else let r := emit 0 s in ((if c =? 10 then [13; 10] else replicate n 32 ++ [c]) ++ fst r, snd r)
  end.

(** Whether every block of the file, with the spaces that are carried into it, has room in [textbuf2]. *)
Fixpoint fits (fuel : nat) (n : nat) (s : list Z) : bool :=
  match fuel, s with
  | S fuel, _ :: _ => let r := emit n (take (Z.to_nat DISKBUFSIZE) s) in (Z.of_nat (length (fst r)) <=? 2 * DISKBUFSIZE) && fits fuel (snd r) (drop (Z.to_nat DISKBUFSIZE) s)
  | _, _ => true
  end.
Definition canonical_fits (s : list Z) : bool := fits (length s) 0 s.

Section Emit.
Implicit Types (s t : list Z) (n : nat) (c : Z).

Lemma emit_cons n c s : emit n (c :: s) = let r := emit n [c] in let r' := emit (snd r) s in (fst r ++ fst r', snd r').
Proof. cbn [emit]. destruct (c =? 32); cbn [fst snd]; [destruct (emit (S n) s); reflexivity|]. rewrite app_nil_r. reflexivity. Qed.
Lemma emit_app s : forall n t, emit n (s ++ t) = let r := emit n s in let r' := emit (snd r) t in (fst r ++ fst r', snd r').
Proof.
  induction s as [|c s IH]; intros n t; [cbn; destruct (emit n t); reflexivity|]. cbn [app]. rewrite (emit_cons n c (s ++ t)), (emit_cons n c s). cbv zeta. rewrite IH. cbn [fst snd]. rewrite <- app_assoc. reflexivity.
Qed.
Lemma emit_held s : forall n, (snd (emit n s) <= n + length s)%nat.
Proof. induction s as [|c s IH]; intros n; [cbn; lia|]. cbn [emit length]. destruct (c =? 32); [specialize (IH (S n)); lia|]. cbn [snd]. specialize (IH 0%nat). lia. Qed.
Lemma emit_length s : forall n, (length (fst (emit n s)) <= n + 2 * length s)%nat.
Proof.
  induction s as [|c s IH]; intros n; [cbn; lia|]. cbn [emit length]. destruct (c =? 32); [specialize (IH (S n)); lia|]. cbn [fst]. rewrite length_app. specialize (IH 0%nat). destruct (c =? 10); [cbn [length]; lia|]. rewrite length_app, length_replicate. cbn [length]. lia.
Qed.

(** A conversion that keeps spaces and newlines. *)
Lemma emit_map (f : Z -> Z) s : Forall (fun c => (f c =? 32) = (c =? 32) /\ (f c =? 10) = (c =? 10)) s -> forall n, length (fst (emit n (f <$> s))) = length (fst (emit n s)) /\ snd (emit n (f <$> s)) = snd (emit n s).
Proof.
  induction s as [|c s IH]; intros HF n; [split; reflexivity|]. apply Forall_cons_1 in HF as [[E1 E2] HF]. rewrite fmap_cons. cbn [emit]. rewrite E1, E2. destruct (c =? 32); [apply IH, HF|]. cbn [fst snd]. destruct (IH HF 0%nat) as [El ->]. split; [|reflexivity]. rewrite !length_app, El. destruct (c =? 10); [reflexivity|]. rewrite !length_app. reflexivity.
Qed.
Lemma fits_map (f : Z -> Z) fuel : forall n s, Forall (fun c => (f c =? 32) = (c =? 32) /\ (f c =? 10) = (c =? 10)) s -> fits fuel n (f <$> s) = fits fuel n s.
Proof.
  induction fuel as [|fuel IH]; intros n s HF; [reflexivity|]. destruct s as [|c s]; [reflexivity|]. cbn [fits]. rewrite fmap_cons. cbv zeta. rewrite <- (fmap_cons f c s), <- fmap_take, <- fmap_drop. destruct (emit_map f (take (Z.to_nat DISKBUFSIZE) (c :: s)) (Forall_take _ _ _ HF) n) as [-> ->]. rewrite IH by (apply Forall_drop, HF). reflexivity.
Qed.

Lemma fits_fuel fuel : forall fuel' n s, (length s <= fuel)%nat -> (length s <= fuel')%nat -> fits fuel n s = fits fuel' n s.
Proof.
  induction fuel as [|fuel IH]; intros fuel' n s Hf Hf'; [destruct s; [destruct fuel'; reflexivity|cbn in Hf; lia]|]. destruct s as [|c s]; [destruct fuel'; reflexivity|]. destruct fuel' as [|fuel']; [cbn in Hf'; lia|]. cbn [fits]. cbv zeta. f_equal. apply IH; rewrite length_drop; change (Z.to_nat DISKBUFSIZE) with (S (Z.to_nat 4095)); cbn [length] in *; lia.
Qed.

(** A file of one block has room. *)
Lemma fits_short s : Z.of_nat (length s) <= DISKBUFSIZE -> canonical_fits s = true.
Proof.
  intros Hl. unfold canonical_fits. destruct s as [|c s]; [reflexivity|]. cbn [length fits]. cbv zeta. rewrite take_ge, drop_ge by (cbn [length] in *; lia). pose proof (emit_length (c :: s) 0). cbn [length] in *.
  apply andb_true_intro. split; [apply Z.leb_le; lia|]. destruct (length s); reflexivity.
Qed.

(** Lines: the spaces at their ends are gone. *)
Fixpoint rstrip s : list Z := match s with [] => [] | c :: s => match rstrip s with [] => if c =? 32 then [] else [c] | r => c :: r end end.
Definition spaced n t : list Z := match t with [] => [] | _ => replicate n 32 ++ t end.

Lemma rstrip_step n c s : spaced n (rstrip (c :: s)) = if c =? 32 then spaced (S n) (rstrip s) else replicate n 32 ++ c :: rstrip s.
Proof.
  cbn [rstrip]. destruct (rstrip s) as [|r rs]; destruct (Z.eqb_spec c 32) as [->|_]; try reflexivity. unfold spaced. rewrite replicate_S_end, <- app_assoc. reflexivity.
Qed.
Lemma spaced_0 t : spaced 0 t = t.
Proof. destruct t; reflexivity. Qed.

Lemma emit_line s : forall n t, Forall (fun c => c <> 10) s -> fst (emit n (s ++ 10 :: t)) = spaced n (rstrip s) ++ [13; 10] ++ fst (emit 0 t) /\ fst (emit n s) = spaced n (rstrip s).
Proof.
  induction s as [|c s IH]; intros n t HF; [split; reflexivity|]. apply Forall_cons_1 in HF as [Hc HF]. cbn [app emit]. rewrite rstrip_step. rewrite (proj2 (Z.eqb_neq c 10) Hc). destruct (c =? 32); [apply IH, HF|]. cbn [fst]. destruct (IH 0%nat t HF) as [-> ->]. rewrite spaced_0, <- !app_assoc. split; reflexivity.
Qed.
End Emit.

Section Proofs.
Context (dm : data_model) (cs : char_set).
Hypothesis cs_ok : char_set_ok cs.
Implicit Types (s t f g tb : list Z) (n : nat) (c : Z).
Notation internal := (internal cs).

Lemma put_byte_ok (tb2 : list Z) c : put_byte tb2 c = if Z.of_nat (length tb2) + 1 <=? 8192 then Ok (tb2 ++ [c]) else Err OutOfBounds.
Proof. unfold put_byte, DISKBUFSIZE. destruct (Z.ltb_spec (Z.of_nat (length tb2)) (2 * 4096)), (Z.leb_spec (Z.of_nat (length tb2) + 1) 8192); (reflexivity || lia). Qed.

Lemma spaces_loop_ok n : forall fuel (tb2 : list Z), (0 < n)%nat -> Z.of_nat n < 2147483648 -> Z.of_nat (length tb2) <= 8192 -> 8192 - Z.of_nat (length tb2) < Z.of_nat fuel ->
  spaces_loop fuel tb2 (Z.of_nat n) = if Z.of_nat (length tb2 + n) <=? 8192 then Ok (tb2 ++ replicate n 32) else Err OutOfBounds.
Proof.
  induction n as [|n IH]; intros fuel tb2 Hn Hi Hl Hf; [lia|]. destruct fuel as [|fuel]; [lia|]. cbn [spaces_loop]. rewrite put_byte_ok. destruct (Z.leb_spec (Z.of_nat (length tb2) + 1) 8192) as [H|H]; cbn [mbind res_bind]; [|destruct (Z.leb_spec (Z.of_nat (length tb2 + S n)) 8192); [lia|reflexivity]].
  replace (Z.of_nat (S n) - 1) with (Z.of_nat n) by lia. rewrite wrapS_id by (try lia; unfold inS; change (2 ^ (32 - 1)) with 2147483648; lia). destruct n as [|n].
  - change (Z.of_nat 0 =? 0) with true. destruct (Z.leb_spec (Z.of_nat (length tb2 + 1)) 8192); [reflexivity|lia].
  - destruct (Z.eqb_spec (Z.of_nat (S n)) 0); [lia|]. rewrite IH by (rewrite ?length_app; cbn [length]; lia). rewrite length_app. cbn [length]. replace (length tb2 + 1 + S n)%nat with (length tb2 + S (S n))%nat by lia. rewrite <- app_assoc. reflexivity.
Qed.

(** One character. *)
Lemma canon_char_ok (tb2 : list Z) n c : 0 <= c < 256 -> Z.of_nat n + 1 < 2147483648 -> Z.of_nat (length tb2) <= 8192 ->
  canon_char cs INT_CONV true (tb2, Z.of_nat n) c =
    let r := emit n [internal c] in if Z.of_nat (length tb2 + length (fst r)) <=? 8192 then Ok (tb2 ++ fst r, Z.of_nat (snd r)) else Err OutOfBounds.
Proof.
  intros Hc Hn Hl. unfold canon_char, convert. change (INT_CONV =? EXT_CONV) with false. change (INT_CONV =? INT_CONV) with true. cbn iota. rewrite (INT_C_ok cs c cs_ok Hc). cbn [mbind res_bind emit fst snd].
  destruct (Z.eqb_spec (internal c) 32) as [_|_].
  - cbn [fst snd app length]. rewrite app_nil_r. replace (Z.of_nat n + 1) with (Z.of_nat (S n)) by lia. rewrite wrapS_id by (try lia; unfold inS; change (2 ^ (32 - 1)) with 2147483648; lia). destruct (Z.leb_spec (Z.of_nat (length tb2 + 0)) 8192); [reflexivity|lia].
  - destruct (internal c =? 10) eqn:E10; cbv zeta; cbn [fst snd].
    + apply Z.eqb_eq in E10. rewrite E10. rewrite put_byte_ok. destruct (Z.leb_spec (Z.of_nat (length tb2) + 1) 8192); cbn [mbind res_bind mret res_ret]; [|destruct (Z.leb_spec (Z.of_nat (length tb2 + length ([13; 10] ++ []))) 8192) as [H'|]; [cbn in H'; lia|reflexivity]].
      change (negb (0 =? 0)) with false. cbn iota. cbn [mbind res_bind mret res_ret]. rewrite put_byte_ok, length_app. cbn [length app]. destruct (Z.leb_spec (Z.of_nat (length tb2 + 1) + 1) 8192), (Z.leb_spec (Z.of_nat (length tb2 + 2)) 8192); try lia; [|reflexivity]. cbn [mbind res_bind]. rewrite <- app_assoc. reflexivity.
    + cbn [mbind res_bind mret res_ret]. rewrite !app_nil_r. rewrite length_app, length_replicate. cbn [length]. destruct n as [|n].
      * change (negb (Z.of_nat 0 =? 0)) with false. cbn iota. cbn [mbind res_bind mret res_ret]. rewrite put_byte_ok. destruct (Z.leb_spec (Z.of_nat (length tb2) + 1) 8192), (Z.leb_spec (Z.of_nat (length tb2 + (0 + 1))) 8192); (lia || reflexivity).
      * destruct (Z.eqb_spec (Z.of_nat (S n)) 0); [lia|]. cbn [negb]. rewrite (spaces_loop_ok (S n)) by (unfold DISKBUFSIZE; lia). destruct (Z.leb_spec (Z.of_nat (length tb2 + S n)) 8192) as [H|H]; cbn [mbind res_bind]; [|destruct (Z.leb_spec (Z.of_nat (length tb2 + (S n + 1))) 8192); [lia|reflexivity]].
        cbn [mbind res_bind mret res_ret]. rewrite put_byte_ok, length_app, length_replicate. destruct (Z.leb_spec (Z.of_nat (length tb2 + S n) + 1) 8192), (Z.leb_spec (Z.of_nat (length tb2 + (S n + 1))) 8192); try lia; [|reflexivity]. cbn [mbind res_bind]. rewrite <- app_assoc. reflexivity.
Qed.

(** A block. *)
Lemma canon_block_ok s : forall (tb2 : list Z) n, Forall (inU 8) s -> Z.of_nat (n + length s) < 2147483648 -> Z.of_nat (length tb2) <= 8192 ->
  mfold (canon_char cs INT_CONV true) s (tb2, Z.of_nat n) =
    let r := emit n (internal <$> s) in if Z.of_nat (length tb2 + length (fst r)) <=? 8192 then Ok (tb2 ++ fst r, Z.of_nat (snd r)) else Err OutOfBounds.
Proof.
  induction s as [|c s IH]; intros tb2 n HF Hn Hl.
  - cbn. rewrite app_nil_r, Nat.add_0_r. destruct (Z.leb_spec (Z.of_nat (length tb2)) 8192); [reflexivity|lia].
  - apply Forall_cons_1 in HF as [Hc HF]. cbn [mfold]. rewrite fmap_cons, emit_cons. cbn [length] in Hn. rewrite canon_char_ok by (try exact Hc; lia). cbv zeta. cbn [fst snd]. rewrite length_app.
    pose proof (emit_held [internal c] n) as Hh. cbn [length] in Hh. destruct (Z.leb_spec (Z.of_nat (length tb2 + length (fst (emit n [internal c])))) 8192) as [H|H].
    + cbn [mbind res_bind]. rewrite IH by (try exact HF; rewrite ?length_app; lia). cbv zeta. rewrite length_app, Nat.add_assoc, <- app_assoc. reflexivity.
    + cbn [mbind res_bind]. destruct (Z.leb_spec (Z.of_nat (length tb2 + (length (fst (emit n [internal c])) + length (fst (emit (snd (emit n [internal c])) (internal <$> s)))))) 8192); [lia|reflexivity].
Qed.

(** The whole file. *)
Lemma to_canon_ok fuel : forall f g n, (length f < fuel)%nat -> Forall (inU 8) f -> Z.of_nat (n + length f) < 2147483648 ->
  to_canon_loop dm cs fuel INT_CONV true f g (Z.of_nat (length f)) (Z.of_nat n) =
    if fits (length f) n (internal <$> f) then Ok (g ++ fst (emit n (internal <$> f))) else Err OutOfBounds.
Proof.
  induction fuel as [|fuel IH]; intros f g n Hf HF Hn; [lia|]. cbn [to_canon_loop]. cbv zeta. destruct (decide (f = [])) as [->|Hne]; [cbn; rewrite app_nil_r; reflexivity|].
  assert (0 < length f)%nat as Hpos by (destruct f; [contradiction|cbn; lia]).
  set (count := if Z.of_nat (length f) <? DISKBUFSIZE then Z.of_nat (length f) else DISKBUFSIZE). assert (take (Z.to_nat count) f = take (Z.to_nat DISKBUFSIZE) f /\ drop (Z.to_nat count) f = drop (Z.to_nat DISKBUFSIZE) f) as [-> ->].
  { unfold count. destruct (Z.ltb_spec (Z.of_nat (length f)) DISKBUFSIZE); [|split; reflexivity]. rewrite Nat2Z.id, (take_ge f (length f)), (drop_ge f (length f)), take_ge, drop_ge by lia. split; reflexivity. }
  clear count. set (b := take (Z.to_nat DISKBUFSIZE) f). assert (length b = Nat.min (Z.to_nat DISKBUFSIZE) (length f)) as Hb by apply length_take. change (Z.to_nat DISKBUFSIZE) with (Z.to_nat 4096) in *.
  destruct (Z.ltb_spec 0 (Z.of_nat (length b))) as [_|]; [|lia]. change (@nil Z, Z.of_nat n) with ([] : list Z, Z.of_nat n). rewrite canon_block_ok by (try (apply Forall_take, HF); cbn [length]; lia). cbv zeta.
  assert (fits (length f) n (internal <$> f) = (Z.of_nat (length (fst (emit n (internal <$> b)))) <=? 8192) && fits (length f - 1) (snd (emit n (internal <$> b))) (internal <$> drop (Z.to_nat 4096) f)) as ->.
  { destruct f as [|c f]; [contradiction|]. cbn [length]. replace (S (length f) - 1)%nat with (length f) by lia. rewrite fmap_cons. cbn [fits]. cbv zeta. rewrite <- (fmap_cons internal c f), <- fmap_take, <- fmap_drop. reflexivity. }
  cbn [length Nat.add app]. destruct (Z.leb_spec (Z.of_nat (length (fst (emit n (internal <$> b))))) 8192) as [H|H]; cbn [andb]; [|reflexivity]. cbn [mbind res_bind mret res_ret].
  assert (fst (emit n (internal <$> f)) = fst (emit n (internal <$> b)) ++ fst (emit (snd (emit n (internal <$> b))) (internal <$> drop (Z.to_nat 4096) f))) as Ee by (rewrite <- (take_drop (Z.to_nat 4096) f) at 1; rewrite fmap_app, emit_app; reflexivity). rewrite Ee. clear Ee.
  pose proof (emit_held (internal <$> b) n) as Hh. rewrite length_fmap in Hh. change DISKBUFSIZE with 4096. destruct (Z.eqb_spec (Z.of_nat (length b)) 4096) as [E|E].
  - assert (length (drop (Z.to_nat 4096) f) = length f - length b)%nat as Hd by (rewrite length_drop; lia). assert (uL dm (Z.of_nat (length f) - Z.of_nat (length b)) = Z.of_nat (length (drop (Z.to_nat 4096) f))) as ->.
    { rewrite Hd, Nat2Z.inj_sub by lia. apply Z.mod_small. destruct dm; cbn [long_bits]; [change (2 ^ 32) with 4294967296|change (2 ^ 64) with 18446744073709551616]; lia. }
    rewrite IH by (try (apply Forall_drop, HF); lia). rewrite (fits_fuel (length (drop (Z.to_nat 4096) f)) (length f - 1)) by (rewrite length_fmap; lia). rewrite <- app_assoc. reflexivity.
  - rewrite drop_ge by lia. cbn [fmap list_fmap emit fst]. rewrite app_nil_r. destruct (length f - 1)%nat; reflexivity.
Qed.

Definition canonical_text s : list Z := fst (emit 0 (internal <$> s)).

Lemma internal_keeps s : Forall (inU 8) s -> Forall (fun c => (internal c =? 32) = (c =? 32) /\ (internal c =? 10) = (c =? 10)) s.
Proof. apply Forall_impl. intros c Hc. split; (apply internal_control; [exact cs_ok|exact Hc|lia]). Qed.

Lemma make_canonical_ok f : Forall (inU 8) f -> Z.of_nat (length f) < 2147483648 -> make_canonical dm cs true f = if canonical_fits f then Ok (canonical_text f) else Err OutOfBounds.
Proof.
  intros HF Hl. unfold make_canonical, copyfile_to_canon. assert (uL dm (Z.of_nat (length f)) = Z.of_nat (length f)) as -> by (apply Z.mod_small; destruct dm; cbn [long_bits]; [change (2 ^ 32) with 4294967296|change (2 ^ 64) with 18446744073709551616]; lia).
  change 0 with (Z.of_nat 0) at 1. rewrite to_canon_ok by (exact HF || lia). unfold canonical_fits. rewrite fits_map by apply internal_keeps, HF. reflexivity.
Qed.

(** Lines: they end with CR LF, and have lost their trailing spaces. *)
Lemma canonical_lines ss : forall s, Forall (inU 8) s -> Forall (fun c => c <> 10) s -> Forall (Forall (inU 8)) ss -> Forall (Forall (fun c => c <> 10)) ss ->
  canonical_text (s ++ mjoin ((fun l => 10 :: l) <$> ss)) = rstrip (internal <$> s) ++ mjoin ((fun l => 13 :: 10 :: rstrip (internal <$> l)) <$> ss).
Proof.
  assert (internal 10 = 10) as E10 by reflexivity.
  assert (forall s, Forall (inU 8) s -> Forall (fun c => c <> 10) s -> Forall (fun c => c <> 10) (internal <$> s)) as Hn.
  { intros s HF HN. apply Forall_fmap. apply List.Forall_forall. intros c Hin. pose proof (proj1 (List.Forall_forall _ _) HF c Hin) as Hc. pose proof (proj1 (List.Forall_forall _ _) HN c Hin) as Hne. cbn in Hne |- *. apply Z.eqb_neq. rewrite (internal_control cs c 10 cs_ok Hc) by lia. apply Z.eqb_neq, Hne. }
  unfold canonical_text. induction ss as [|s' ss IH]; intros s HF HN HFs HNs.
  - cbn [fmap list_fmap mjoin list_join]. rewrite !app_nil_r. rewrite (proj2 (emit_line (internal <$> s) 0 [] (Hn s HF HN))). apply spaced_0.
  - apply Forall_cons_1 in HFs as [HF' HFs]. apply Forall_cons_1 in HNs as [HN' HNs]. rewrite !fmap_cons. cbn [mjoin list_join app]. rewrite fmap_app, fmap_cons, E10. rewrite (proj1 (emit_line (internal <$> s) 0 _ (Hn s HF HN))), spaced_0. rewrite IH by assumption. reflexivity.
Qed.

(** Copying a whole file. *)
Lemma copyfile_loop_ok fuel : forall f g (longcount : Z), (length f < fuel)%nat -> Z.of_nat (length f) <= longcount < 2 ^ long_bits dm ->
  copyfile_loop dm cs fuel NO_CONV f g longcount = Ok (g ++ f).
Proof.
  induction fuel as [|fuel IH]; intros f g longcount Hf Hl; [lia|]. cbn [copyfile_loop]. cbv zeta. set (count := if longcount <? DISKBUFSIZE then longcount else DISKBUFSIZE).
  assert (take (Z.to_nat count) f = take (Z.to_nat DISKBUFSIZE) f /\ drop (Z.to_nat count) f = drop (Z.to_nat DISKBUFSIZE) f) as [-> ->].
  { unfold count. destruct (Z.ltb_spec longcount DISKBUFSIZE); [|split; reflexivity]. rewrite (take_ge f (Z.to_nat longcount)), (drop_ge f (Z.to_nat longcount)), take_ge, drop_ge by lia. split; reflexivity. }
  clear count. change (Z.to_nat DISKBUFSIZE) with (Z.to_nat 4096). set (b := take (Z.to_nat 4096) f). assert (length b = Nat.min (Z.to_nat 4096) (length f)) as Hb by apply length_take.
  assert (mapM (convert cs NO_CONV) b = Ok b) as -> by (clear; induction b as [|c b IH]; [reflexivity|]; cbn [mapM]; change (convert cs NO_CONV c) with (Ok c); cbn [mbind res_bind]; rewrite IH; reflexivity). cbn [mbind res_bind mret res_ret]. change DISKBUFSIZE with 4096.
  destruct (Z.ltb_spec 0 (Z.of_nat (length b))) as [Hp|Hp].
  - destruct (Z.eqb_spec (Z.of_nat (length b)) 4096) as [E|E]; cbn [mbind res_bind mret res_ret].
    + assert (uL dm (longcount - Z.of_nat (length b)) = longcount - Z.of_nat (length b)) as -> by (apply Z.mod_small; lia).
      rewrite IH by (rewrite length_drop; lia). rewrite <- app_assoc. unfold b. rewrite take_drop. reflexivity.
    + unfold b. rewrite take_ge by lia. reflexivity.
  - assert (f = []) as -> by (destruct f; [reflexivity|cbn [length] in *; lia]). change b with (@nil Z). cbn. rewrite app_nil_r. reflexivity.
Qed.
Lemma copyfile_all f g : Z.of_nat (length f) < 2147483648 -> copyfile dm cs NO_CONV f g (uL dm (-1)) = Ok (g ++ f).
Proof.
  intros Hl. unfold copyfile. assert (uL dm (-1) = 2 ^ long_bits dm - 1) as -> by (destruct dm; reflexivity). apply copyfile_loop_ok; [lia|]. destruct dm; cbn [long_bits]; [change (2 ^ 32) with 4294967296|change (2 ^ 64) with 18446744073709551616]; lia.
Qed.
End Proofs.

(** The header of a packet of [n] bytes. *)
Definition packet_header (type n : Z) : list Z :=
  if n <? 256 then [u8 (0x80 + 4 * type); n] else if n <? 65536 then u8 (0x81 + 4 * type) :: be_bytes 2 n else u8 (0x82 + 4 * type) :: be_bytes 4 n.
Lemma write_ctb_len_ok f (type n : Z) : 0 <= n < 4294967296 -> write_ctb_len f type n false = Ok (f ++ packet_header type n).
Proof.
  assert (forall w, put_word16 w (replicate 4 0) = Ok [Z.land (u16 w ≫ 8) 0xff; Z.land w 0xff; 0; 0]) as E2 by reflexivity.
  assert (forall w, put_word32 w (replicate 4 0) = Ok [Z.land (((w ≫ 8) ≫ 8) ≫ 8) 0xff; Z.land ((w ≫ 8) ≫ 8) 0xff; Z.land (w ≫ 8) 0xff; Z.land w 0xff]) as E4 by reflexivity.
  intros Hn. unfold write_ctb_len, packet_header, CTB_BYTE. cbn [orb]. change 0xFFFF with (65536 - 1). destruct (Z.ltb_spec n 65536), (Z.ltb_spec (65536 - 1) n); try lia.
  - assert (u16 n = n) as E16 by (apply Z.mod_small; change (2 ^ 16) with 65536; lia). rewrite E16. destruct (Z.ltb_spec n 256), (Z.ltb_spec 255 n); try lia.
    + change (1 =? 1) with true. cbn iota. replace (128 + 4 * type + 0) with (128 + 4 * type) by lia. change (aset (replicate 4 0) 0 (u8 n)) with (Ok [u8 n; 0; 0; 0]). assert (u8 n = n) as -> by (apply Z.mod_small; change (2 ^ 8) with 256; lia). cbn [mbind res_bind mret res_ret]. rewrite <- app_assoc. reflexivity.
    + change (2 =? 1) with false. change (2 =? 2) with true. cbn iota. replace (128 + 4 * type + 1) with (129 + 4 * type) by lia. rewrite E2. cbn [mbind res_bind mret res_ret]. change 255 with (Z.ones 8). rewrite E16, !(Z.land_ones _ 8), Z.shiftr_div_pow2 by lia. rewrite <- app_assoc. reflexivity.
  - destruct (Z.ltb_spec n 256); [lia|]. change (4 =? 1) with false. change (4 =? 2) with false. cbn iota. replace (128 + 4 * type + 2) with (130 + 4 * type) by lia. rewrite E4. cbn [mbind res_bind mret res_ret]. change 255 with (Z.ones 8). rewrite !(Z.land_ones _ 8), !Z.shiftr_div_pow2 by lia. rewrite <- app_assoc. reflexivity.
Qed.

(** Two spaces at the end of a block, and a block of a character and newlines: the spaces that were held back have no room. *)
Example canonical_overrun dm : make_canonical dm (init_charset [] []) true (replicate 4094 97 ++ [32; 32; 97] ++ replicate 4095 10) = Err OutOfBounds.
Proof.
  rewrite make_canonical_ok; [|apply init_charset_ok|apply Forall_app; split; [|apply Forall_app; split; [by_eval|]]; apply Forall_replicate; unfold inU; change (2 ^ 8) with 256; lia|rewrite !length_app, !length_replicate; cbn; lia].
  assert (canonical_fits (replicate 4094 97 ++ [32; 32; 97] ++ replicate 4095 10) = false) as -> by (vm_compute; reflexivity). reflexivity.
Qed.
