(* ===== verification/ArmorEncode.v ===== *)
(** Writing the ASCII armour of pgp (armor_file of src/mibench/security/pgp/src/armor.c), in one file or in parts.

    The input is the list of its bytes, and the files that are written are a list of names and contents; writing
    succeeds. The number of parts is computed in a long and stored in an int, as the code does. *)
From stdpp Require Import base list numbers option tactics.
From Stdlib Require Import ZArith Lia.
From Stdlib Require Ascii String.
From S2P Require Import Prelude Bytes Crc24 Radix64 ArmorIo.
Import String.StringSyntax.

(** * The code *)

Definition LINE_LEN : Z := 48.
Definition BYTES_PER_SECTION (dm : data_model) (pem_lines : Z) : Z := sL dm (LINE_LEN * pem_lines).
Definition div_long (a b : Z) : res Z := if b =? 0 then Err DivByZero else mret (Z.quot a b).

(** [%02d] of an int. *)
Fixpoint decimal (fuel : nat) (n : Z) : list Z :=
  match fuel with O => [] | S fuel => (if 10 <=? n then decimal fuel (n / 10) else []) ++ [48 + n mod 10] end.
Definition d02 (n : Z) : list Z := if n <? 0 then 45 :: decimal 10 (- n) else (if n <? 10 then [48] else []) ++ decimal 10 n.
Example d02_run : List.map d02 [-12; -1; 0; 7; 42; 99; 100; 2147483647] = [codes "-12"; codes "-1"; codes "00"; codes "07"; codes "42"; codes "99"; codes "100"; codes "2147483647"].
Proof. reflexivity. Qed.


Definition outcrc (crc : Z) : res (list Z) :=
  e ← outdec [Z.land (crc ≫ 16) 0xff; Z.land (crc ≫ 8) 0xff; Z.land (crc ≫ 0) 0xff; 0] 0 3; mret (PAD :: e ++ [10]).

(** [do { fnamenum[len - offset] = ...; } while (ofnum >= 1 && offset < 4);] on the characters of the name. *)
Fixpoint number_loop (fuel : nat) (name : list Z) (num ofnum offset : Z) : res (list Z) :=
  match fuel with
  | O => Err OutOfFuel
  | S fuel =>
      name ← aset name (Z.of_nat (length name) - offset) (48 + Z.rem num 10);
      let num := Z.quot num 10 in let ofnum := Z.quot ofnum 10 in let offset := offset + 1 in
      if (1 <=? ofnum) && (offset <? 4) then number_loop fuel name num ofnum offset else mret name
  end.
Definition numFilename (fname : list Z) (num ofnum : Z) : res (list Z) :=
  if Z.of_nat (length fname) <? MAX_PATH then number_loop 3 fname num ofnum 1 else Err OutOfBounds.

(** The groups of a line from the index [i]. *)
Fixpoint groups_loop (fuel : nat) (buffer : list Z) (i bytesRead : Z) : res (list Z) :=
  match fuel with
  | O => Err OutOfFuel
  | S fuel => if i <? bytesRead - 3 then e ← outdec buffer i 3; r ← groups_loop fuel buffer (i + 3) bytesRead; mret (e ++ r) else outdec buffer i (bytesRead - i)
  end.

Record parts := Parts { crctable : list Z; buffer : list Z; crc : Z; lines : Z; currentSection : Z; outFile : list Z * list Z; closed : list (list Z * list Z) }.

Section Code.
Context (dm : data_model) (rel_version charset globalCommentString : list Z) (pem_lines noSections : Z) (outfilename : list Z).
Implicit Types (p : parts).

Definition begin_part (n : Z) : list Z := codes "-----BEGIN PGP MESSAGE, PART " ++ d02 n ++ [47] ++ d02 noSections ++ codes "-----" ++ [10].
Definition end_part (n : Z) : list Z := codes "-----END PGP MESSAGE, PART " ++ d02 n ++ [47] ++ d02 noSections ++ codes "-----" ++ [10].

(** One line of [bytesRead] characters, which were just read. *)
Definition armor_body p (chunk : list Z) : res parts :=
  let bytesRead := Z.of_nat (length chunk) in
  let buffer := chunk ++ drop (length chunk) (buffer p) in
  let buffer := if bytesRead <? LINE_LEN then chunk ++ replicate (Z.to_nat (LINE_LEN - bytesRead)) 0 ++ drop (Z.to_nat LINE_LEN) buffer else buffer in
  crc ← crcbytes dm (crctable p) buffer bytesRead (crc p);
  g ← groups_loop (length buffer) buffer 0 bytesRead;
  let '(name, text) := outFile p in
  let text := text ++ g ++ [10] in
  let lines := lines p + 1 in
  if (lines =? pem_lines) && (currentSection p <? noSections) then
    c ← outcrc crc;
    let text := text ++ c ++ end_part (currentSection p) ++ [10] in
    let currentSection := currentSection p + 1 in
    next ← numFilename outfilename currentSection noSections;
    mret (Parts (crctable p) buffer CRCINIT 0 currentSection (next, begin_part currentSection ++ [10]) (closed p ++ [(name, text)]))
  else mret (Parts (crctable p) buffer crc lines (currentSection p) (name, text) (closed p)).
(** [while ((bytesRead = fread(buffer, 1, LINE_LEN, inFile)) > 0)] *)
Fixpoint armor_loop (fuel : nat) p (inFile : list Z) : res parts :=
  match fuel with
  | O => Err OutOfFuel
  | S fuel =>
      match take (Z.to_nat LINE_LEN) inFile with
      | [] => mret p
      | chunk => p ← armor_body p chunk; armor_loop fuel p (drop (Z.to_nat LINE_LEN) inFile)
      end
  end.

(** The text of a clear signed message: the value of getline, the buffer and the output. *)
Fixpoint clear_loop (fuel : nat) (buffer clear out : list Z) : res (list Z * list Z) :=
  match fuel with
  | O => Err OutOfFuel
  | S fuel =>
      '(i, buffer, clear) ← getline buffer MAX_LINE_SIZE clear;
      if i <? 0 then mret (buffer, out)
      else
        b0 ← aget buffer 0; s ← cstr buffer;
        let out := out ++ (if (b0 =? 45) || starts (codes "From ") buffer then codes "- " else []) ++ s in
        if i =? 0 then
          let '(r, clear, out) := copyline clear out in if r <=? 0 then mret (buffer, out) else clear_loop fuel buffer clear (out ++ [10])
        else clear_loop fuel buffer clear (out ++ [10])
  end.

Definition is_ctb_type (ctb type : Z) : bool := Z.land ctb 0x7c =? 4 * type.
Definition blocktype (inFile : list Z) (signed : bool) : list Z :=
  let ctb := u8 (fst (getc inFile)) in
  if is_ctb_type ctb 6 then codes "PUBLIC KEY BLOCK" else if is_ctb_type ctb 5 then codes "SECRET KEY BLOCK" else if signed then codes "SIGNATURE" else codes "MESSAGE".

(** From the point where the output is open, without the labels of keys; [None] for no clear file. *)
Definition armor_sections (crctable junk inFile : list Z) (clearfilename : option (list Z)) : res (list (list Z * list Z)) :=
  '(buffer, text) ← match clearfilename with
    | Some clear => '(buffer, text) ← clear_loop (S (length clear)) junk clear (codes "-----BEGIN PGP SIGNED MESSAGE-----" ++ [10; 10]); mret (buffer, text ++ [10])
    | None => mret (junk, [])
    end;
  let signed := match clearfilename with Some _ => true | None => false end in
  let block := blocktype inFile signed in
  let text := text ++ (if noSections =? 1 then codes "-----BEGIN PGP " ++ block ++ codes "-----" ++ [10] else begin_part 1) in
  let text := text ++ codes "Version: " ++ rel_version ++ [10] in
  let text := text ++ (if signed then codes "Charset: " ++ charset ++ [10] else []) in
  let text := text ++ match globalCommentString with [] => [] | _ => codes "Comment: " ++ globalCommentString ++ [10] end in
  let text := text ++ [10] in
  t ← init_crc dm crctable;
  p ← armor_loop (S (length inFile)) (Parts t buffer CRCINIT 0 1 (outfilename, text) []) inFile;
  c ← outcrc (crc p);
  let '(name, text) := outFile p in
  let text := text ++ c ++ (if noSections =? 1 then codes "-----END PGP " ++ block ++ codes "-----" ++ [10] else end_part noSections) in
  mret (closed p ++ [(name, text)]).
End Code.

(** The number of parts, and [pem_lines], which is raised when there would be too many; [to_stdout] for no output file. *)
Definition section_count (dm : data_model) (to_stdout : bool) (pem_lines fileLen : Z) : res (Z * Z) :=
  if to_stdout || (pem_lines =? 0) then mret (1, pem_lines)
  else
    let bytes := BYTES_PER_SECTION dm pem_lines in
    q ← div_long (sL dm (sL dm (fileLen + bytes) - 1)) bytes;
    let noSections := s32 q in
    if 99 <? noSections then
      let pem_lines := s32 (Z.quot (sL dm (Z.quot (sL dm (sL dm (fileLen + LINE_LEN) - 1)) LINE_LEN + 98)) 99) in
      let bytes := BYTES_PER_SECTION dm pem_lines in
      q ← div_long (sL dm (sL dm (fileLen + bytes) - 1)) bytes; mret (s32 q, pem_lines)
    else mret (noSections, pem_lines).

(** The files that are written; [outfilename] already has its extension, and is the first one that does not exist. *)
Definition armor_file (dm : data_model) (rel_version charset globalCommentString : list Z) (pem_lines : Z) (to_stdout : bool) (outfilename crctable junk inFile : list Z) (clearfilename : option (list Z)) : res (list (list Z * list Z)) :=
  '(noSections, pem_lines) ← section_count dm to_stdout pem_lines (Z.of_nat (length inFile));
  name ← (if 1 <? noSections then numFilename outfilename 1 noSections else mret outfilename);
  armor_sections dm rel_version charset globalCommentString pem_lines noSections name crctable junk inFile clearfilename.

Example armor_run :
  (r ← armor_file LP64 (codes "2.6.3i") [] [] 720 false (codes "a.asc") (replicate 256 0) (replicate 80 7) (codes "Hello, world") None; Ok (List.map snd r)) =
  Ok [codes "-----BEGIN PGP MESSAGE-----" ++ [10] ++ codes "Version: 2.6.3i" ++ [10; 10] ++ codes "SGVsbG8sIHdvcmxk" ++ [10] ++ codes "=iolR" ++ [10] ++ codes "-----END PGP MESSAGE-----" ++ [10]].
Proof. vm_compute. reflexivity. Qed.

(** * What is written *)

(** The lines of 48 bytes. *)
Fixpoint chunks (fuel : nat) (m : list Z) : list (list Z) :=
  match fuel, m with S fuel, _ :: _ => take 48 m :: chunks fuel (drop 48 m) | _, _ => [] end.
Definition body_lines (m : list Z) : list (list Z) := radix [PAD] <$> chunks (length m) m.
Definition crc_line (c : Z) : list Z := PAD :: radix [PAD] [c / 65536; c / 256 mod 256; c mod 256].

Section Body.
Context (dm : data_model) (noSections pem_lines : Z) (outfilename : list Z).
Implicit Types (m pre post rest b text name : list Z) (p : parts).

Lemma outcrc_ok c : 0 <= c < 2 ^ 24 -> outcrc c = Ok (crc_line c ++ [10]).
Proof.
  change (2 ^ 24) with 16777216. intros Hc. unfold outcrc, crc_line. change 0xff with (Z.ones 8). rewrite !Z.land_ones, !Z.shiftr_div_pow2 by lia. change (2 ^ 0) with 1. change (2 ^ 8) with 256. change (2 ^ 16) with 65536. rewrite Z.div_1_r, (Z.mod_small (c / 65536)) by dlia.
  change 0 with (Z.of_nat 0) at 2. rewrite (proj1 (outdec_ok [c / 65536; c / 256 mod 256; c mod 256; 0] 0 _ _ _ eq_refl eq_refl eq_refl ltac:(unfold inU; change (2 ^ 8) with 256; dlia) ltac:(unfold inU; change (2 ^ 8) with 256; dlia) ltac:(unfold inU; change (2 ^ 8) with 256; dlia))). reflexivity.
Qed.

(** The groups of a line are its encoding, when zeros follow. *)
Lemma groups_ok m : Forall (inU 8) m -> m <> [] -> forall fuel pre post, (length m <= fuel)%nat -> take ((3 - length m mod 3) mod 3) post = replicate ((3 - length m mod 3) mod 3) 0 ->
  groups_loop fuel (pre ++ m ++ post) (Z.of_nat (length pre)) (Z.of_nat (length pre + length m)) = Ok (radix [PAD] m).
Proof.
  assert (forall pre (x : Z) post k, (pre ++ x :: post) !! (length pre + k)%nat = (x :: post) !! k) as Hl by (intros; rewrite lookup_app_r by lia; f_equal; lia).
  assert (inU 8 0) as H0 by (unfold inU; lia).
  induction m as [|a|a b|a b c m IH] using radix_groups; intros HF Hne fuel pre post Hf Hz; [contradiction| | |]; (destruct fuel as [|fuel]; [cbn in Hf; lia|]); cbn [groups_loop].
  - destruct post as [|y [|z post]]; try discriminate Hz. change ((3 - length [a] mod 3) mod 3)%nat with 2%nat in Hz. cbn [take replicate] in Hz. injection Hz as -> ->. destruct (Z.ltb_spec (Z.of_nat (length pre)) (Z.of_nat (length pre + length [a]) - 3)); [cbn in *; lia|]. replace (Z.of_nat (length pre + length [a]) - Z.of_nat (length pre)) with 1 by (cbn; lia). cbn [app].
    apply Forall_cons_1 in HF as [Ha _]. apply (outdec_ok (pre ++ a :: 0 :: 0 :: post) (length pre) a 0 0); auto.
    + rewrite <- (Nat.add_0_r (length pre)). apply Hl.
    + rewrite <- Nat.add_1_r. apply Hl.
    + replace (S (S (length pre))) with (length pre + 2)%nat by lia. apply Hl.
  - destruct post as [|z post]; try discriminate Hz. change ((3 - length [a; b] mod 3) mod 3)%nat with 1%nat in Hz. cbn [take replicate] in Hz. injection Hz as ->. destruct (Z.ltb_spec (Z.of_nat (length pre)) (Z.of_nat (length pre + length [a; b]) - 3)); [cbn in *; lia|]. replace (Z.of_nat (length pre + length [a; b]) - Z.of_nat (length pre)) with 2 by (cbn; lia). cbn [app].
    apply Forall_cons_1 in HF as [Ha HF]. apply Forall_cons_1 in HF as [Hb _]. apply (outdec_ok (pre ++ a :: b :: 0 :: post) (length pre) a b 0); auto.
    + rewrite <- (Nat.add_0_r (length pre)). apply Hl.
    + rewrite <- Nat.add_1_r. apply Hl.
    + replace (S (S (length pre))) with (length pre + 2)%nat by lia. apply Hl.
  - apply Forall_cons_1 in HF as [Ha HF]. apply Forall_cons_1 in HF as [Hb HF]. apply Forall_cons_1 in HF as [Hc HF].
    assert (outdec (pre ++ (a :: b :: c :: m) ++ post) (Z.of_nat (length pre)) 3 = Ok (radix [PAD] [a; b; c])) as E.
    { apply (outdec_ok (pre ++ (a :: b :: c :: m) ++ post) (length pre) a b c); auto.
      + rewrite <- (Nat.add_0_r (length pre)). apply Hl.
      + rewrite <- Nat.add_1_r. apply Hl.
      + replace (S (S (length pre))) with (length pre + 2)%nat by lia. apply Hl. }
    destruct m as [|d m].
    + replace (Z.of_nat (length pre + length [a; b; c]) - Z.of_nat (length pre)) with 3 by (cbn; lia). destruct (Z.ltb_spec (Z.of_nat (length pre)) (Z.of_nat (length pre + length [a; b; c]) - 3)); [cbn in *; lia|]. exact E.
    + destruct (Z.ltb_spec (Z.of_nat (length pre)) (Z.of_nat (length pre + length (a :: b :: c :: d :: m)) - 3)) as [_|]; [|cbn in *; lia]. rewrite E. cbn [mbind res_bind].
      assert (length (a :: b :: c :: d :: m) mod 3 = length (d :: m) mod 3)%nat as El by (cbn [length]; replace (S (S (S (S (length m))))) with (S (length m) + 1 * 3)%nat by lia; apply Nat.Div0.mod_add). rewrite El in Hz.
      specialize (IH HF ltac:(discriminate) fuel (pre ++ [a; b; c]) post ltac:(cbn in *; lia) Hz). rewrite <- app_assoc, length_app in IH. cbn [app length] in IH. cbn [app length]. replace (Z.of_nat (length pre + 3)) with (Z.of_nat (length pre) + 3) in IH by lia.
      replace (length pre + 3 + S (length m))%nat with (length pre + S (S (S (S (length m)))))%nat in IH by lia. rewrite IH. reflexivity.
Qed.

Definition line_text m : list Z := radix [PAD] m ++ [10].
Definition typed p : Prop := crctable p = crc_tab dm /\ length (buffer p) = 80%nat /\ 0 <= crc p < 2 ^ 24.

(** The part of a line that does not depend on the counters. *)
Lemma armor_line_text p chunk : typed p -> chunk <> [] -> (length chunk <= 48)%nat -> Forall (inU 8) chunk -> exists b, length b = 80%nat /\
  armor_body dm pem_lines noSections outfilename p chunk =
    (let '(name, text) := outFile p in
     let text := text ++ line_text chunk in
     let crc := crc24 chunk (crc p) in
     if (lines p + 1 =? pem_lines) && (currentSection p <? noSections) then
       c ← outcrc crc;
       next ← numFilename outfilename (currentSection p + 1) noSections;
       mret (Parts (crctable p) b CRCINIT 0 (currentSection p + 1) (next, begin_part noSections (currentSection p + 1) ++ [10]) (closed p ++ [(name, text ++ c ++ end_part noSections (currentSection p) ++ [10])]))
     else mret (Parts (crctable p) b crc (lines p + 1) (currentSection p) (name, text) (closed p))).
Proof.
  intros (Ht & Hb & Hc) Hne Hl HF. unfold armor_body. rewrite Ht.
  assert (exists b post, (if Z.of_nat (length chunk) <? LINE_LEN then chunk ++ replicate (Z.to_nat (LINE_LEN - Z.of_nat (length chunk))) 0 ++ drop (Z.to_nat LINE_LEN) (chunk ++ drop (length chunk) (buffer p)) else chunk ++ drop (length chunk) (buffer p)) = b /\
    b = chunk ++ post /\ length b = 80%nat /\ take ((3 - length chunk mod 3) mod 3) post = replicate ((3 - length chunk mod 3) mod 3) 0) as (b & post & -> & -> & Hb' & Hz).
  { unfold LINE_LEN. destruct (Z.ltb_spec (Z.of_nat (length chunk)) 48).
    - eexists _, _. split; [reflexivity|]. split; [reflexivity|]. split; [rewrite !length_app, length_replicate, length_drop, length_app, length_drop; lia|]. set (q := ((3 - length chunk mod 3) mod 3)%nat). assert (q <= Z.to_nat (48 - Z.of_nat (length chunk)))%nat as Hq.
      { unfold q. pose proof (Nat.mod_upper_bound (3 - length chunk mod 3) 3 ltac:(lia)). destruct (Nat.le_gt_cases 3 (48 - length chunk)); [lia|]. assert (length chunk = 46 \/ length chunk = 47)%nat as [-> | ->] by lia; cbn; lia. }
      rewrite take_app_le by (rewrite length_replicate; exact Hq). rewrite take_replicate, Nat.min_l by exact Hq. reflexivity.
    - eexists _, _. split; [reflexivity|]. split; [reflexivity|]. split; [rewrite length_app, length_drop; lia|]. replace (length chunk) with 48%nat by lia. reflexivity. }
  exists (chunk ++ post). split; [exact Hb'|]. destruct Hc as [Hc0 Hc1]. rewrite (crcbytes_ok dm chunk post (crc p) Hne HF Hc0) by (change (2 ^ 32) with 4294967296; lia). cbn [mbind res_bind].
  pose proof (groups_ok chunk HF Hne (length (chunk ++ post)) [] post ltac:(rewrite length_app; lia) Hz) as E. cbn [app length Nat.add] in E. change (Z.of_nat 0) with 0 in E. rewrite E. cbn [mbind res_bind]. rewrite maskcrc_mod, Z.mod_small by (split; assumption).
  destruct (outFile p) as [name text]. fold (line_text chunk). destruct ((lines p + 1 =? pem_lines) && (currentSection p <? noSections)); [|reflexivity]. destruct (outcrc (crc24 chunk (crc p))) as [c|]; [|reflexivity]. cbn [mbind res_bind]. rewrite <- !app_assoc. reflexivity.
Qed.

(** Full lines that do not end a part. *)
Definition advance p b (c n : Z) text : parts := Parts (crctable p) b c (lines p + n) (currentSection p) (fst (outFile p), snd (outFile p) ++ text) (closed p).
Definition lines_text m : list Z := mjoin (line_text <$> chunks (length m) m).

Lemma chunks_fuel (k : nat) : forall (j : nat) m, (length m <= k)%nat -> (length m <= j)%nat -> chunks k m = chunks j m.
Proof.
  induction k as [|k IH]; intros [|j] [|x m] Hk Hj; try reflexivity; [cbn in *; lia..|]. cbn [chunks]. f_equal. apply IH; rewrite length_drop; cbn [length] in *; lia.
Qed.
Lemma lines_text_step m : m <> [] -> lines_text m = line_text (take 48 m) ++ lines_text (drop 48 m).
Proof.
  intros Hne. destruct m as [|x m]; [contradiction|]. unfold lines_text. cbn [length chunks]. rewrite fmap_cons. cbn [mjoin list_join]. f_equal. do 2 f_equal. apply chunks_fuel; rewrite length_drop; cbn [length]; lia.
Qed.
Lemma lines_text_one m : m <> [] -> (length m <= 48)%nat -> lines_text m = line_text m.
Proof. intros Hne Hl. rewrite lines_text_step, take_ge, drop_ge by assumption. apply app_nil_r. Qed.
Lemma lines_text_app (j : nat) : forall m rest, length m = (48 * j)%nat -> lines_text (m ++ rest) = lines_text m ++ lines_text rest.
Proof.
  induction j as [|j IH]; intros m rest Hl; [destruct m; [reflexivity|cbn in Hl; lia]|]. assert (m <> []) as Hne by (intros ->; cbn in Hl; lia). rewrite (lines_text_step m Hne), (lines_text_step (m ++ rest)) by (destruct m; [contradiction|discriminate]).
  rewrite take_app_le, drop_app_le by lia. rewrite IH by (rewrite length_drop; lia). apply app_assoc.
Qed.

Lemma typed_advance p b m (n : Z) text : typed p -> length b = 80%nat -> typed (advance p b (crc24 m (crc p)) n text).
Proof. intros (Ht & _ & Hc) Hb. split; [exact Ht|]. split; [exact Hb|]. apply crc24_range, Hc. Qed.
Lemma advance_advance p b1 b2 m1 m2 (n1 n2 : Z) t1 t2 : advance (advance p b1 (crc24 m1 (crc p)) n1 t1) b2 (crc24 m2 (crc24 m1 (crc p))) n2 t2 = advance p b2 (crc24 (m1 ++ m2) (crc p)) (n1 + n2) (t1 ++ t2).
Proof. unfold advance. cbn. rewrite <- app_assoc, crc24_app. f_equal. lia. Qed.
Lemma advance_refl p : advance p (buffer p) (crc p) 0 [] = p.
Proof. unfold advance. destruct p as [? ? ? ? ? [? ?] ?]. cbn. rewrite Z.add_0_r, app_nil_r. reflexivity. Qed.

Definition stays p (n : Z) : Prop := noSections <= currentSection p \/ lines p + n < pem_lines.
Lemma armor_line_stays p chunk : typed p -> stays p 1 -> chunk <> [] -> (length chunk <= 48)%nat -> Forall (inU 8) chunk -> exists b, length b = 80%nat /\
  armor_body dm pem_lines noSections outfilename p chunk = Ok (advance p b (crc24 chunk (crc p)) 1 (line_text chunk)).
Proof.
  intros Hp Hs Hne Hl HF. destruct (armor_line_text p chunk Hp Hne Hl HF) as (b & Hb & ->). exists b. split; [exact Hb|]. destruct (outFile p) as [name text] eqn:Eo. cbv zeta.
  assert ((lines p + 1 =? pem_lines) && (currentSection p <? noSections) = false) as ->.
  { destruct Hs as [Hs|Hs]; [rewrite (proj2 (Z.ltb_ge _ _) Hs); apply andb_false_r|]. destruct (Z.eqb_spec (lines p + 1) pem_lines); [lia|reflexivity]. }
  unfold advance. rewrite Eo. reflexivity.
Qed.

Lemma armor_loop_step fuel p m : m <> [] -> armor_loop dm pem_lines noSections outfilename (S fuel) p m = (p ← armor_body dm pem_lines noSections outfilename p (take 48 m); armor_loop dm pem_lines noSections outfilename fuel p (drop 48 m)).
Proof. destruct m; [contradiction|reflexivity]. Qed.

Lemma full_lines (j : nat) : forall fuel p m rest, typed p -> Forall (inU 8) m -> length m = (48 * j)%nat -> stays p (Z.of_nat j) -> (length (m ++ rest) < fuel)%nat ->
  exists b fuel', length b = 80%nat /\ (length rest < fuel')%nat /\ armor_loop dm pem_lines noSections outfilename fuel p (m ++ rest) = armor_loop dm pem_lines noSections outfilename fuel' (advance p b (crc24 m (crc p)) (Z.of_nat j) (lines_text m)) rest.
Proof.
  induction j as [|j IH]; intros fuel p m rest Hp HF Hl Hs Hf.
  - destruct m; [|cbn in Hl; lia]. exists (buffer p), fuel. split; [apply Hp|]. split; [exact Hf|]. change (lines_text []) with (@nil Z). change (crc24 [] (crc p)) with (crc p). change (Z.of_nat 0) with 0. rewrite advance_refl. reflexivity.
  - assert (m <> []) as Hne by (intros ->; cbn in Hl; lia). assert (take 48 m <> []) as Hne' by (intros E; apply (f_equal length) in E; rewrite length_take in E; cbn [length] in E; lia). destruct fuel as [|fuel]; [lia|]. rewrite armor_loop_step by (destruct m; [contradiction|discriminate]). rewrite take_app_le, drop_app_le by lia.
    destruct (armor_line_stays p (take 48 m) Hp ltac:(destruct Hs; [left; assumption|right; lia]) Hne' ltac:(rewrite length_take; lia) (Forall_take _ 48 _ HF)) as (b1 & Hb1 & ->). cbn [mbind res_bind].
    destruct (IH fuel (advance p b1 (crc24 (take 48 m) (crc p)) 1 (line_text (take 48 m))) (drop 48 m) rest) as (b2 & fuel' & Hb2 & Hf' & ->); [apply typed_advance; assumption|apply Forall_drop, HF|rewrite length_drop; lia|destruct Hs; [left; assumption|right; cbn; lia]|rewrite length_app in *; rewrite length_drop; lia|].
    exists b2, fuel'. split; [exact Hb2|]. split; [exact Hf'|]. change (crc (advance p b1 (crc24 (take 48 m) (crc p)) 1 (line_text (take 48 m)))) with (crc24 (take 48 m) (crc p)). rewrite advance_advance, take_drop, (lines_text_step m Hne). f_equal. f_equal. lia.
Qed.

Lemma last_lines (fuel : nat) : forall p m, typed p -> Forall (inU 8) m -> noSections <= currentSection p -> (length m < fuel)%nat ->
  exists b n, length b = 80%nat /\ armor_loop dm pem_lines noSections outfilename fuel p m = Ok (advance p b (crc24 m (crc p)) n (lines_text m)).
Proof.
  induction fuel as [|fuel IH]; intros p m Hp HF Hs Hf; [lia|]. destruct (decide (m = [])) as [->|Hne].
  - exists (buffer p), 0. split; [apply Hp|]. change (lines_text []) with (@nil Z). change (crc24 [] (crc p)) with (crc p). rewrite advance_refl. reflexivity.
  - assert (0 < length m)%nat as Hm by (destruct m; [contradiction|cbn; lia]). assert (take 48 m <> []) as Hne' by (intros E; apply (f_equal length) in E; rewrite length_take in E; cbn [length] in E; lia). rewrite armor_loop_step by exact Hne.
    destruct (armor_line_stays p (take 48 m) Hp (or_introl Hs) Hne' ltac:(rewrite length_take; lia) (Forall_take _ 48 _ HF)) as (b1 & Hb1 & ->). cbn [mbind res_bind].
    destruct (IH (advance p b1 (crc24 (take 48 m) (crc p)) 1 (line_text (take 48 m))) (drop 48 m)) as (b2 & n & Hb2 & ->); [apply typed_advance; assumption|apply Forall_drop, HF|exact Hs|rewrite length_drop; lia|].
    exists b2, (1 + n). split; [exact Hb2|]. change (crc (advance p b1 (crc24 (take 48 m) (crc p)) 1 (line_text (take 48 m)))) with (crc24 (take 48 m) (crc p)). rewrite advance_advance, take_drop, (lines_text_step m Hne). reflexivity.
Qed.

(** A part that is followed by another one. *)
Lemma close_part (j : nat) fuel p m rest next : typed p -> crc p = CRCINIT -> Forall (inU 8) m -> length m = (48 * j)%nat -> (0 < j)%nat -> Z.of_nat j = pem_lines -> lines p = 0 -> currentSection p < noSections ->
  numFilename outfilename (currentSection p + 1) noSections = Ok next -> (length (m ++ rest) < fuel)%nat ->
  exists b fuel', length b = 80%nat /\ (length rest < fuel')%nat /\ armor_loop dm pem_lines noSections outfilename fuel p (m ++ rest) =
    armor_loop dm pem_lines noSections outfilename fuel' (Parts (crctable p) b CRCINIT 0 (currentSection p + 1) (next, begin_part noSections (currentSection p + 1) ++ [10])
      (closed p ++ [(fst (outFile p), snd (outFile p) ++ lines_text m ++ crc_line (crc24 m CRCINIT) ++ [10] ++ end_part noSections (currentSection p) ++ [10])])) rest.
Proof.
  intros Hp Hc HF Hl Hj Ej Hn Hs En Hf. destruct j as [|j]; [lia|]. rewrite <- (take_drop (48 * j) m) in *. set (m1 := take (48 * j) m) in *. set (m2 := drop (48 * j) m) in *. assert (length m1 = 48 * j)%nat as L1 by (unfold m1; rewrite length_take; unfold m1, m2 in Hl; rewrite take_drop in Hl; lia).
  rewrite length_app in Hl. assert (length m2 = 48)%nat as L2 by lia. clearbody m1 m2. apply Forall_app in HF as [F1 F2]. rewrite <- app_assoc in *. destruct (full_lines j fuel p m1 (m2 ++ rest) Hp F1 L1 ltac:(right; lia) Hf) as (b1 & fuel1 & Hb1 & Hf1 & ->). destruct fuel1 as [|fuel1]; [lia|].
  assert (m2 <> []) as Hne by (intros ->; discriminate L2). rewrite armor_loop_step by (destruct m2; [contradiction|discriminate]). rewrite take_app_le, drop_app_le, take_ge, drop_ge by lia. cbn [app].
  destruct (armor_line_text _ m2 (typed_advance p b1 m1 (Z.of_nat j) (lines_text m1) Hp Hb1) Hne ltac:(lia) F2) as (b2 & Hb2 & ->). exists b2, fuel1. split; [exact Hb2|]. split; [rewrite length_app in Hf1; lia|]. cbn [outFile advance lines currentSection crc crctable closed].
  destruct (Z.eqb_spec (lines p + Z.of_nat j + 1) pem_lines) as [_|]; [|lia]. rewrite (proj2 (Z.ltb_lt _ _) Hs). cbn [andb]. rewrite <- crc24_app, Hc. rewrite outcrc_ok by (apply crc24_range; unfold CRCINIT; lia). cbn [mbind res_bind]. rewrite En. cbn [mbind res_bind mret res_ret].
  rewrite (lines_text_app j m1 m2 L1), (lines_text_one m2 Hne) by lia. rewrite <- !app_assoc. reflexivity.
Qed.

(** The files from the part [k] on, when [r] parts follow it. *)
Fixpoint part_files (name_of : Z -> list Z) (last_line : list Z) (L r : nat) (k : Z) name text m : list (list Z * list Z) :=
  match r with
  | O => [(name, text ++ lines_text m ++ crc_line (crc24 m CRCINIT) ++ [10] ++ last_line)]
  | S r => (name, text ++ lines_text (take L m) ++ crc_line (crc24 (take L m) CRCINIT) ++ [10] ++ end_part noSections k ++ [10]) ::
           part_files name_of last_line L r (k + 1) (name_of (k + 1)) (begin_part noSections (k + 1) ++ [10]) (drop L m)
  end.

Lemma parts_ok name_of last_line (r n : nat) : (forall k, 2 <= k <= noSections -> numFilename outfilename k noSections = Ok (name_of k)) -> (r = 0%nat \/ (0 < n)%nat /\ Z.of_nat n = pem_lines) ->
  forall fuel p m, typed p -> crc p = CRCINIT -> lines p = 0 -> 1 <= currentSection p -> currentSection p + Z.of_nat r = noSections -> Forall (inU 8) m -> (48 * n * r <= length m)%nat -> (length m < fuel)%nat ->
  exists p', armor_loop dm pem_lines noSections outfilename fuel p m = Ok p' /\ 0 <= crc p' < 2 ^ 24 /\
    closed p' ++ [(fst (outFile p'), snd (outFile p') ++ crc_line (crc p') ++ [10] ++ last_line)] = closed p ++ part_files name_of last_line (48 * n) r (currentSection p) (fst (outFile p)) (snd (outFile p)) m.
Proof.
  intros Hname. induction r as [|r IH]; intros Hn fuel p m Hp Hc Hl H1 Hk HF Hm Hf.
  - destruct (last_lines fuel p m Hp HF ltac:(lia) Hf) as (b & c & Hb & ->). eexists. split; [reflexivity|]. cbn. rewrite Hc. split; [apply crc24_range; unfold CRCINIT; lia|]. rewrite <- !app_assoc. reflexivity.
  - destruct Hn as [|[Hn En]]; [discriminate|]. pose proof (Hname (currentSection p + 1) ltac:(lia)) as Ename. pose proof (take_drop (48 * n) m) as Em.
    destruct (close_part n fuel p (take (48 * n) m) (drop (48 * n) m) (name_of (currentSection p + 1)) Hp Hc (Forall_take _ _ _ HF) ltac:(rewrite length_take; lia) Hn En Hl ltac:(lia) Ename ltac:(rewrite Em; exact Hf)) as (b & fuel' & Hb & Hf' & E0). rewrite Em in E0. rewrite E0. clear E0 Em.
    destruct (IH (or_intror (conj Hn En)) fuel' (Parts (crctable p) b CRCINIT 0 (currentSection p + 1) (name_of (currentSection p + 1), begin_part noSections (currentSection p + 1) ++ [10]) (closed p ++ [(fst (outFile p), snd (outFile p) ++ lines_text (take (48 * n) m) ++ crc_line (crc24 (take (48 * n) m) CRCINIT) ++ [10] ++ end_part noSections (currentSection p) ++ [10])])) (drop (48 * n) m)) as (p' & -> & Hr & E); cbn [currentSection crc lines closed outFile fst snd] in *; [split; [apply Hp|]; split; [exact Hb|unfold crc, CRCINIT; lia]|reflexivity|reflexivity|lia|lia|apply Forall_drop, HF|rewrite length_drop; lia|exact Hf'|].
    exists p'. split; [reflexivity|]. split; [exact Hr|]. rewrite E, <- app_assoc. reflexivity.
Qed.
End Body.

Section Files.
Context (dm : data_model) (rel_version charset globalCommentString : list Z) (noSections pem_lines : Z) (outfilename : list Z).

(** The lines at the top of the first part, after a clear text. *)
Definition first_line (block : list Z) : list Z := if noSections =? 1 then codes "-----BEGIN PGP " ++ block ++ codes "-----" ++ [10] else begin_part noSections 1.
Definition last_line (block : list Z) : list Z := if noSections =? 1 then codes "-----END PGP " ++ block ++ codes "-----" ++ [10] else end_part noSections noSections.
Definition header_lines (signed : bool) : list (list Z) :=
  [codes "Version: " ++ rel_version] ++ (if signed then [codes "Charset: " ++ charset] else []) ++ match globalCommentString with [] => [] | _ => [codes "Comment: " ++ globalCommentString] end.

(** What is written to the first file before the block: nothing, or the clear text. *)
Definition clear_text (junk : list Z) (clear : option (list Z)) (b text : list Z) : Prop :=
  match clear with
  | Some clear => exists out, clear_loop (S (length clear)) junk clear (codes "-----BEGIN PGP SIGNED MESSAGE-----" ++ [10; 10]) = Ok (b, out) /\ text = out ++ [10]
  | None => b = junk /\ text = []
  end.

Lemma armor_sections_ok name_of (n : nat) table junk m clear b text : table = replicate 256 0 \/ table = crc_tab dm -> clear_text junk clear b text -> length b = 80%nat -> Forall (inU 8) m -> 1 <= noSections ->
  (forall k, 2 <= k <= noSections -> numFilename outfilename k noSections = Ok (name_of k)) -> (noSections = 1 \/ (0 < n)%nat /\ Z.of_nat n = pem_lines) -> (48 * n * Z.to_nat (noSections - 1) <= length m)%nat ->
  let signed := match clear with Some _ => true | None => false end in let block := blocktype m signed in
  armor_sections dm rel_version charset globalCommentString pem_lines noSections outfilename table junk m clear =
    Ok (part_files noSections name_of (last_line block) (48 * n) (Z.to_nat (noSections - 1)) 1 outfilename (text ++ first_line block ++ unlines (header_lines signed) ++ [10]) m).
Proof.
  intros Ht Hclear Hb HF Hs Hname Hn Hm signed block. unfold armor_sections.
  assert (match clear with Some clear => '(buffer, text) ← clear_loop (S (length clear)) junk clear (codes "-----BEGIN PGP SIGNED MESSAGE-----" ++ [10; 10]); mret (buffer, text ++ [10]) | None => mret (junk, []) end = Ok (b, text)) as -> by (destruct clear; [destruct Hclear as (out & -> & ->); reflexivity|destruct Hclear as [-> ->]; reflexivity]).
  cbn [mbind res_bind]. fold signed. fold block. rewrite (crc_tab_init dm table Ht). cbn [mbind res_bind]. fold (first_line block).
  set (head := ((((text ++ first_line block) ++ codes "Version: " ++ rel_version ++ [10]) ++ (if signed then codes "Charset: " ++ charset ++ [10] else [])) ++ match globalCommentString with [] => [] | _ => codes "Comment: " ++ globalCommentString ++ [10] end) ++ [10]).
  destruct (parts_ok dm noSections pem_lines outfilename name_of (last_line block) (Z.to_nat (noSections - 1)) n Hname ltac:(destruct Hn as [->|Hn]; [left; reflexivity|right; exact Hn]) (S (length m)) (Parts (crc_tab dm) b CRCINIT 0 1 (outfilename, head) []) m) as (p & -> & Hc & E);
    [split; [reflexivity|]; split; [exact Hb|cbn; unfold CRCINIT; lia]|reflexivity|reflexivity|cbn; lia|cbn [currentSection]; lia|exact HF|exact Hm|lia|].
  cbn [mbind res_bind]. rewrite (outcrc_ok _ Hc). cbn [mbind res_bind]. destruct (outFile p) as [name t]. cbn [currentSection outFile fst snd closed] in E. rewrite app_nil_l in E. unfold mret, res_ret. fold (last_line block). rewrite <- !app_assoc. rewrite E. do 2 f_equal.
  unfold head, header_lines, unlines. destruct signed, globalCommentString; cbn [app fmap list_fmap mjoin list_join]; repeat first [rewrite <- app_assoc | rewrite app_nil_r | progress cbn [app]]; reflexivity.
Qed.
End Files.

(** A number below 100 is printed as two digits. *)
Definition two_digits (n : Z) : list Z := [48 + n / 10; 48 + n mod 10].
Lemma d02_ok n : 0 <= n <= 99 -> d02 n = two_digits n.
Proof.
  intros Hn. unfold d02, two_digits. destruct (Z.ltb_spec n 0); [lia|]. cbn [decimal]. destruct (Z.ltb_spec n 10).
  - destruct (Z.leb_spec 10 n); [lia|]. rewrite (Z.div_small n 10) by lia. reflexivity.
  - destruct (Z.leb_spec 10 n); [|lia]. destruct (Z.leb_spec 10 (n / 10)); [dlia|]. rewrite (Z.mod_small (n / 10)) by dlia. reflexivity.
Qed.

(** The names of the parts: the digits take the place of the last characters. *)
Definition part_name (base : list Z) (k ofnum : Z) : list Z := if ofnum <? 10 then take (length base - 1) base ++ [48 + k] else take (length base - 2) base ++ two_digits k.

Lemma last_two (base : list Z) : (2 <= length base)%nat -> exists s a b, base = s ++ [a; b].
Proof.
  intros H. exists (take (length base - 2) base). destruct (drop (length base - 2) base) as [|a [|b [|c r]]] eqn:E; pose proof (f_equal length E) as El; rewrite length_drop in El; cbn in El; try lia. exists a, b. rewrite <- E. symmetry. apply take_drop.
Qed.

Lemma numFilename_ok base k ofnum : (2 <= length base < 256)%nat -> 1 <= k <= ofnum -> ofnum <= 99 -> numFilename base k ofnum = Ok (part_name base k ofnum).
Proof.
  intros Hb Hk Ho. unfold numFilename, MAX_PATH. destruct (Z.ltb_spec (Z.of_nat (length base)) 256); [|lia]. destruct (last_two base (proj1 Hb)) as (s & a & b & ->). unfold part_name. cbn [number_loop].
  assert (aset (s ++ [a; b]) (Z.of_nat (length (s ++ [a; b])) - 1) (48 + Z.rem k 10) = Ok (s ++ [a; 48 + k mod 10])) as ->.
  { replace (s ++ [a; b]) with ((s ++ [a]) ++ b :: []) by (rewrite <- app_assoc; reflexivity). replace (Z.of_nat (length ((s ++ [a]) ++ [b])) - 1) with (Z.of_nat (length (s ++ [a]))) by (rewrite !length_app; cbn; lia). rewrite aset_end, <- app_assoc, Z.rem_mod_nonneg by lia. reflexivity. }
  cbn [mbind res_bind]. change (1 + 1) with 2. rewrite Z.quot_div_nonneg by lia. assert (length (s ++ [a; b]) = length s + 2)%nat as -> by (rewrite length_app; reflexivity).
  destruct (Z.ltb_spec ofnum 10).
  - rewrite Z.div_small by lia. change (1 <=? 0) with false. cbn [andb mret res_ret]. f_equal. replace (length s + 2 - 1)%nat with (length (s ++ [a])) by (rewrite length_app; cbn; lia). replace (s ++ [a; b]) with ((s ++ [a]) ++ [b]) by (rewrite <- app_assoc; reflexivity). rewrite take_app_length, <- app_assoc, Z.mod_small by lia. reflexivity.
  - destruct (Z.leb_spec 1 (ofnum / 10)); [|dlia]. change (2 <? 4) with true. cbn [andb]. cbn [number_loop].
    assert (aset (s ++ [a; 48 + k mod 10]) (Z.of_nat (length (s ++ [a; 48 + k mod 10])) - 2) (48 + Z.rem (Z.quot k 10) 10) = Ok (s ++ two_digits k)) as ->.
    { replace (Z.of_nat (length (s ++ [a; 48 + k mod 10])) - 2) with (Z.of_nat (length s)) by (rewrite !length_app; cbn; lia). rewrite aset_end, Z.quot_div_nonneg, Z.rem_mod_nonneg by (try apply Z.div_pos; lia). unfold two_digits. rewrite (Z.mod_small (k / 10)) by dlia. reflexivity. }
    cbn [mbind res_bind]. rewrite Z.quot_div_nonneg by (try apply Z.div_pos; lia). rewrite (Z.div_small (ofnum / 10)) by dlia. change (1 <=? 0) with false. cbn [andb mret res_ret]. f_equal. replace (length s + 2 - 2)%nat with (length s) by lia. rewrite take_app_length. reflexivity.
Qed.
