(* ===== verification/ArmorDecode.v ===== *)
(** Reading the ASCII armour of pgp (armordecode, darmor_file and is_armorfile of src/mibench/security/pgp/src/armor.c).

    The files that can be opened are a function from names to contents. What a variable or an array holds before it
    is assigned is a parameter. Opening and writing the output and the temporary files succeed, and the numbers on a line
    fit an [int]. *)
From stdpp Require Import base list numbers option tactics.
From Stdlib Require Import ZArith Lia.
From Stdlib Require Ascii String.
From S2P Require Import Prelude Bytes Crc24 Radix64 ArmorIo Charset Canonical.
Import String.StringSyntax.

(** * The code *)

(** The digits at the end of a name are counted up from the right; [inr] for what is left and the zeros, when they are all nines. *)
Fixpoint count_up (r zeros : list Z) : list Z + list Z * list Z :=
  match r with
  | c :: r' => if isdigit c then if negb (c =? 57) then inl (rev r' ++ (c + 1) :: zeros) else count_up r' (48 :: zeros) else inr (r, zeros)
  | [] => inr ([], zeros)
  end.
(** The new name, and the file if it can be opened. *)
Definition open_next (fopen : list Z -> option (list Z)) (armorfilename : list Z) : res (list Z * option (list Z)) :=
  match count_up (rev armorfilename) [] with
  | inl name => mret (name, fopen name)
  | inr (r, zeros) =>
      let insert := let name := rev r ++ 49 :: zeros in if Z.of_nat (length name) <? MAX_PATH then mret (name, fopen name) else Err OutOfBounds in
      match r with
      | c :: r' => let name := rev r' ++ 49 :: zeros in match fopen name with Some f => mret (name, Some f) | None => insert end
      | [] => insert
      end
  end.

(** [sscanf]: white space in the format matches any amount of it. *)
Fixpoint skip_space (s : list Z) : list Z := match s with c :: s' => if isspace c then skip_space s' else s | [] => [] end.
Fixpoint scan_lit (fmt s : list Z) : option (list Z) :=
  match fmt with
  | [] => Some s
  | c :: fmt => if isspace c then scan_lit fmt (skip_space s) else match s with c' :: s => if c =? c' then scan_lit fmt s else None | [] => None end
  end.
Fixpoint scan_digits (v : Z) (s : list Z) : Z * list Z := match s with c :: s' => if isdigit c then scan_digits (10 * v + (c - 48)) s' else (v, s) | [] => (v, []) end.
Definition scan_int (s : list Z) : option (Z * list Z) :=
  let s := skip_space s in
  let '(neg, s) := match s with 45 :: s => (true, s) | 43 :: s => (false, s) | _ => (false, s) end in
  match s with c :: _ => if isdigit c then let '(v, s) := scan_digits 0 s in Some (if neg then - v else v, s) else None | [] => None end.
(** The two numbers of the delimiter line of a part. *)
Definition scan_part (s : list Z) : option (Z * Z) :=
  match scan_lit (codes "-----BEGIN PGP MESSAGE, PART ") s with
  | None => None
  | Some s => match scan_int s with
    | None => None
    | Some (section, s) => match scan_lit [47] s with None => None | Some s => match scan_int s with None => None | Some (noSections, _) => Some (section, noSections) end end
    end
  end.

(** The variables of armordecode, and what it shares with its callers. *)
Record decoder := Decoder {
  input : list Z; inbuf : list Z; outbuf : list Z; crcbuf : list Z; n : Z; currentSection : Z; noSections : Z;
  gotcrc : bool; crc : Z; chkcrc : Z; ret_code : Z; out : list Z; warned : Z; vars : armor; armorfilename : list Z }.
Definition set_input (d : decoder) (f buf : list Z) (a : armor) : decoder :=
  Decoder f buf (outbuf d) (crcbuf d) (n d) (currentSection d) (noSections d) (gotcrc d) (crc d) (chkcrc d) (ret_code d) (out d) (warned d) a (armorfilename d).
Definition set_check (d : decoder) (b : list Z) (k : Z) (got : bool) (c : Z) : decoder :=
  Decoder (input d) (inbuf d) (outbuf d) b k (currentSection d) (noSections d) got (crc d) c (ret_code d) (out d) (warned d) (vars d) (armorfilename d).

(** How a turn of the loop ends: [goto error] is [Failed]. *)
Inductive turn := Continue (d : decoder) | Break (d : decoder) | Failed (d : decoder).

Section Code.
Context (dm : data_model) (fopen : list Z -> option (list Z)) (crctable : list Z).
Implicit Types (d : decoder) (a : armor).

(** [do { ... } while (strncmp(inbuf, "-----BEGIN PGP MESSAGE", 22));]: false when there is no further file. *)
Fixpoint find_section (fuel : nat) d : res (bool * decoder) :=
  match fuel with
  | O => Err OutOfFuel
  | S fuel =>
      '(got, buf, f) ← get_armor_line (inbuf d) (input d);
      if negb got then
        '(name, next) ← open_next fopen (armorfilename d);
        let d := Decoder f buf (outbuf d) (crcbuf d) (n d) (currentSection d) (noSections d) (gotcrc d) (crc d) (chkcrc d) (ret_code d) (out d) (warned d) (vars d) name in
        match next with Some f => find_section fuel (set_input d f buf (vars d)) | None => mret (false, d) end
      else
        let d := set_input d f buf (next_line (vars d)) in
        if starts (codes "-----BEGIN PGP MESSAGE") buf then mret (true, d) else find_section fuel d
  end.

Definition next_section (fuel : nat) d : res turn :=
  let bad := gotcrc d && negb (chkcrc d =? crc d) in
  let d := Decoder (input d) (inbuf d) (outbuf d) (crcbuf d) (n d) (currentSection d) (noSections d) false CRCINIT (chkcrc d) (if bad then -1 else ret_code d) (out d) (warned d) (vars d) (armorfilename d) in
  '(found, d) ← find_section fuel d;
  if negb found then mret (Failed d)
  else
    s ← cstr (inbuf d);
    match scan_part s with
    | None => mret (Failed d)
    | Some (section, noSections) =>
        let currentSection := currentSection d + 1 in
        if negb (section =? currentSection) then mret (Failed d)
        else
          '(st, a, w, buf, f, eof) ← skipheaders (vars d) (warned d) (inbuf d) (input d) true;
          let d := Decoder f buf (outbuf d) (crcbuf d) (n d) currentSection noSections (gotcrc d) (crc d) (chkcrc d) (ret_code d) (out d) w a (armorfilename d) in
          mret (if (st <? 0) || eof then Failed d else Continue d)
    end.

(** A line that starts with '='. *)
Definition checksum_line d : res turn :=
  s ← cstr (inbuf d); b1 ← aget (inbuf d) 1; b2 ← aget (inbuf d) 2;
  text ← cstr (if (length s =? 7)%nat && (b1 =? 51) && (b2 =? 68) then drop 3 (inbuf d) else drop 1 (inbuf d));
  '(status, k, crcbuf) ← darmor_buffer text (crcbuf d);
  let k := default (n d) k in
  if (status <? 0) || negb (k =? 3) then mret (Failed (set_check d crcbuf k (gotcrc d) (chkcrc d)))
  else
    c0 ← aget crcbuf 0; c1 ← aget crcbuf 1; c2 ← aget crcbuf 2;
    mret (Continue (set_check d crcbuf k true (Z.land (c0 ≪ 16) 0xff0000 + Z.land (c1 ≪ 8) 0xff00 + Z.land c2 0xff))).

(** A line of data. *)
Definition data_line d : res turn :=
  s ← cstr (inbuf d);
  '(status, k, outbuf) ← darmor_buffer s (outbuf d);
  let k := default (n d) k in
  let d := Decoder (input d) (inbuf d) outbuf (crcbuf d) k (currentSection d) (noSections d) (if status =? -1 then true else gotcrc d) (crc d) (chkcrc d) (if status =? -1 then -1 else ret_code d) (out d) (warned d) (vars d) (armorfilename d) in
  if Z.of_nat (length outbuf) <? uL dm k then mret (Failed d)
  else
    c ← crcbytes dm crctable outbuf k (crc d);
    mret (Continue (Decoder (input d) (inbuf d) outbuf (crcbuf d) k (currentSection d) (noSections d) (gotcrc d) c (chkcrc d) (ret_code d) (out d ++ take (Z.to_nat k) outbuf) (warned d) (vars d) (armorfilename d))).

(** One turn of the loop over the lines. *)
Definition decode_line (fuel : nat) d : res turn :=
  '(got, buf, f) ← get_armor_line (inbuf d) (input d);
  let end_of_message := if negb got then true else starts (codes "-----END PGP MESSAGE,") buf in
  let d := set_input d f buf (if negb got then vars d else next_line (vars d)) in
  if negb (currentSection d =? noSections d) && end_of_message then next_section fuel d
  else
    b0 ← aget buf 0;
    if b0 =? PAD then checksum_line d
    else if b0 =? 0 then mret (Break d)
    else if starts (codes "-----END PGP ") buf then mret (Break d)
    else data_line d.

(** The returned value, with the variables: the output and the position in the input. *)
Fixpoint decode_loop (fuel : nat) d : res (Z * decoder) :=
  match fuel with
  | O => Err OutOfFuel
  | S fuel =>
      t ← decode_line fuel d;
      match t with
      | Continue d => decode_loop fuel d
      | Break d => mret (if gotcrc d && negb (chkcrc d =? crc d) then -1 else ret_code d, d)
      | Failed d => mret (-1, d)
      end
  end.
End Code.

(** What the variables of a function hold before it assigns them. *)
Record garbage := Garbage { g_inbuf : list Z; g_outbuf : list Z; g_crcbuf : list Z; g_n : Z }.

Section Files.
Context (dm : data_model) (fopen : list Z -> option (list Z)) (crctable : list Z) (g : garbage) (language : list Z) (cs : char_set).
Implicit Types (a : armor) (buf f : list Z).

Definition armordecode (fuel : nat) f (warned : Z) a (armorfilename : list Z) : res (Z * decoder) :=
  t ← init_crc dm crctable;
  decode_loop dm fopen t fuel (Decoder f (g_inbuf g) (g_outbuf g) (g_crcbuf g) (g_n g) 1 0 false CRCINIT (-1) 0 [] warned a armorfilename).

(** [for (il = 0; il < infile_line; ++il)]: false when the file is too short. *)
Fixpoint skip_lines (k : nat) buf f : res (bool * list Z * list Z) :=
  match k with O => mret (true, buf, f) | S k => '(got, buf, f) ← get_armor_line buf f; if negb got then mret (false, buf, f) else skip_lines k buf f end.
(** Up to a line that begins a block: false when there is none. *)
Fixpoint find_begin (fuel : nat) a buf f : res (bool * armor * list Z * list Z) :=
  match fuel with
  | O => Err OutOfFuel
  | S fuel => let a := next_line a in '(got, buf, f) ← get_armor_line buf f; if negb got then mret (false, a, buf, f) else if starts (codes "-----BEGIN PGP ") buf then mret (true, a, buf, f) else find_begin fuel a buf f
  end.
(** The clear text: false when the file ends in it. *)
Fixpoint literal_loop (fuel : nat) (status : Z) a buf f (litout : list Z) : res (bool * armor * list Z * list Z * list Z) :=
  match fuel with
  | O => Err OutOfFuel
  | S fuel =>
      let a := next_line a in
      let nline := status in
      '(status, buf, f) ← getline buf MAX_LINE_SIZE f;
      if status <? 0 then mret (false, a, buf, f, litout)
      else if starts (codes "-----BEGIN PGP ") buf then mret (true, a, buf, f, litout)
      else
        let litout := litout ++ (if nline =? 0 then [] else [10]) in
        b0 ← aget buf 0; b1 ← (if b0 =? 45 then aget buf 1 else mret 0);
        s ← cstr (drop (if (b0 =? 45) && (b1 =? 32) then 2 else 0) buf);
        let litout := litout ++ s in
        let '(status, f, litout) := if status =? 0 then copyline f litout else (status, f, litout) in
        literal_loop fuel status a buf f litout
  end.

Definition MODE_TEXT : Z := 0x74.
Definition CTB_LITERAL2_TYPE : Z := 11.
(** The clear text that was read into a temporary file, in the canonical form, and the output with a literal packet for it;
    the character set of a header is used for the conversion, and then put back. *)
Definition glue_literal a (litfile out : list Z) : res (list Z * list Z) :=
  h0 ← aget (charset_header a) 0;
  cs ← (if negb (h0 =? 0) then h ← cstr (charset_header a); mret (init_charset language h) else mret cs);
  canonfile ← make_canonical dm cs true litfile;
  out ← write_ctb_len out CTB_LITERAL2_TYPE (uL dm (Z.of_nat (length canonfile) + 6)) false;
  let out := out ++ [MODE_TEXT] ++ [0] ++ replicate (Z.to_nat (long_bits dm / 8)) 0 in
  out ← copyfile dm cs NO_CONV canonfile out (uL dm (-1));
  mret (canonfile, out).

(** The value, the bytes that are put out, the clear text in the form in which it is put out, and [infile_line]. *)
Definition darmor_file (fuel : nat) (infile : list Z) a : res (Z * list Z * option (list Z) * Z) :=
  match fopen infile with
  | None => mret (10, [], None, infile_line a)
  | Some f =>
      if MAX_PATH <=? Z.of_nat (length infile) then Err OutOfBounds
      else
      '(ok, buf, f) ← skip_lines (Z.to_nat (infile_line a)) (g_inbuf g) f;
      if negb ok then mret (-1, [], None, infile_line a)
      else
        '(ok, a, buf, f) ← find_begin (S (length f)) a buf f;
        if negb ok then mret (12, [], None, infile_line a)
        else
          '(stop, a, buf, f, lit) ←
            (if starts (codes "-----BEGIN PGP SIGNED MESSAGE-----") buf then
               h ← aset (charset_header a) 0 0;
               let a := set_charset a h in
               '(ok, buf, f) ← get_armor_line buf f;
               if negb ok then mret (12, a, buf, f, None)
               else
                 b0 ← aget buf 0;
                 if negb (b0 =? 0) then mret (-1, a, buf, f, None)
                 else '(ok, a, buf, f, lit) ← literal_loop (S (length f)) 0 a buf f []; mret (if negb ok then 12 else 0, a, buf, f, Some lit)
             else mret (0, a, buf, f, None));
          if negb (stop =? 0) then mret (stop, [], None, infile_line a)
          else
            '(st, a, w, buf, f, eof) ← skipheaders a 0 buf f true;
            if st <? 0 then mret (-1, [], None, infile_line a)
            else if (eof : bool) then mret (13, [], None, infile_line a)
            else
              '(status, d) ← armordecode fuel f w a infile;
              match lit with
              | None => mret (status, out d, None, infile_line (vars d))
              | Some litfile => '(canonfile, out) ← glue_literal (vars d) litfile (out d); mret (status, out, Some canonfile, infile_line (vars d))
              end
  end.
Definition de_armor_file (fuel : nat) (infile : list Z) (curline : option Z) (use : bool) (h : list Z) := darmor_file fuel infile (Armor (default 0 curline) use h).

(** Whether a block begins that can be read; a clear signed text always can. *)
Fixpoint search_block (fuel : nat) a buf f : res bool :=
  match fuel with
  | O => Err OutOfFuel
  | S fuel =>
      '(got, buf, f) ← get_armor_line buf f;
      if negb got then mret false
      else if starts (codes "-----BEGIN PGP ") buf then
        if starts (codes "-----BEGIN PGP SIGNED MESSAGE-----") buf then mret true
        else
          '(st, _, _, buf, f, _) ← skipheaders a 1 buf f true;
          if st <? 0 then mret false
          else '(got, buf, _) ← get_armor_line buf f; if negb got then mret false else s ← cstr buf; '(status, _, _) ← darmor_buffer s (g_outbuf g); mret (negb (status <? 0))
      else search_block fuel a buf f
  end.
Definition is_armorfile (infile : list Z) a : res bool :=
  match fopen infile with
  | None => mret false
  | Some f => '(ok, buf, f) ← skip_lines (Z.to_nat (infile_line a)) (g_inbuf g) f; if negb ok then mret false else search_block (S (length f)) a buf f
  end.
End Files.

Definition no_char_set : char_set := init_charset [] [].
Definition no_garbage : garbage := Garbage (replicate 80 1) (replicate 80 2) (replicate 4 3) 0.
Example darmor_run :
  let f := codes "Mail" ++ [10] ++ codes "-----BEGIN PGP MESSAGE-----" ++ [10] ++ codes "Version: 2.6.3i" ++ [10; 10] ++ codes "SGVsbG8sIHdvcmxk" ++ [10] ++ codes "=iolR" ++ [10] ++ codes "-----END PGP MESSAGE-----" ++ [10] in
  darmor_file LP64 (fun _ => Some f) (replicate 256 0) no_garbage [] no_char_set 9 (codes "m.asc") (Armor 0 false (replicate 16 0)) = Ok (0, codes "Hello, world", None, 7) /\
  is_armorfile (fun _ => Some f) no_garbage (codes "m.asc") (Armor 0 false (replicate 16 0)) = Ok true.
Proof. vm_compute. split; reflexivity. Qed.

(** A checksum line that is too long is decoded past the end of [crcbuf], before its length is looked at. *)
Example checksum_overrun :
  let f := codes "-----BEGIN PGP MESSAGE-----" ++ [10; 10] ++ codes "=iolRiolR" ++ [10] in
  darmor_file LP64 (fun _ => Some f) (replicate 256 0) no_garbage [] no_char_set 9 (codes "m.asc") (Armor 0 false (replicate 16 0)) = Err OutOfBounds.
Proof. vm_compute. reflexivity. Qed.
(** After a bad line the bytes of the previous one are put out again; before any good line, what the variables hold. *)
Example bad_line :
  let f s := codes "-----BEGIN PGP MESSAGE-----" ++ [10; 10] ++ s ++ codes "SG*s" ++ [10] ++ codes "-----END PGP MESSAGE-----" ++ [10] in
  let g := Garbage (replicate 80 1) (replicate 80 2) (replicate 4 3) 5 in
  darmor_file LP64 (fun _ => Some (f (codes "SGVs" ++ [10]))) (replicate 256 0) g [] no_char_set 9 (codes "m.asc") (Armor 0 false (replicate 16 0)) = Ok (-1, codes "HelHel", None, 5) /\
  darmor_file LP64 (fun _ => Some (f [])) (replicate 256 0) g [] no_char_set 9 (codes "m.asc") (Armor 0 false (replicate 16 0)) = Ok (-1, replicate 5 2, None, 4).
Proof. vm_compute. split; reflexivity. Qed.
(** Any prefix of a known label is taken for it. *)
Example short_label : isheaderline false (replicate 16 0) (codes "Vers: 1" ++ replicate 73 0) = Ok (0, replicate 16 0).
Proof. vm_compute. reflexivity. Qed.

(** * Reading what is written *)

(** The characters of a line of data. *)
Definition data_char (c : Z) : Prop := text c /\ c <> 32 /\ c <> 45.

Section Chars.
Implicit Types (m s : list Z).

Lemma enc_data (v : Z) : 0 <= v < 64 -> data_char (enc v).
Proof.
  intros Hv. assert (forallb (fun v => bool_decide (text (enc v)) && negb (enc v =? 32) && negb (enc v =? 45)) (seqZ 0 64) = true) as H by (vm_compute; reflexivity).
  pose proof (forallb_seqZ _ 0 64 H v ltac:(lia)) as E. cbv beta in E. apply andb_prop in E as [E E3]. apply andb_prop in E as [E1 E2]. split; [apply bool_decide_eq_true in E1; exact E1|]. split; apply Z.eqb_neq, negb_true_iff; assumption.
Qed.
Lemma pad_data : data_char PAD.
Proof. unfold data_char, text, PAD. lia. Qed.

Lemma radix_data m : Forall (inU 8) m -> Forall data_char (radix [PAD] m).
Proof.
  induction m as [|a|a b|a b c m IH] using radix_groups; intros HF; [constructor| | |]; repeat (apply Forall_cons_1 in HF as [? HF]).
  - destruct (group1 a ltac:(assumption)) as ([V1 V2] & _). cbn [radix app]. repeat apply Forall_cons_2; auto using enc_data, pad_data.
  - destruct (group2 a b ltac:(assumption) ltac:(assumption)) as ((V1 & V2 & V3) & _). cbn [radix app]. repeat apply Forall_cons_2; auto using enc_data, pad_data.
  - destruct (group3 a b c ltac:(assumption) ltac:(assumption) ltac:(assumption)) as ((V1 & V2 & V3 & V4) & _). cbn [radix app]. repeat apply Forall_cons_2; auto using enc_data.
Qed.
Lemma data_text s : Forall data_char s -> Forall text s.
Proof. apply Forall_impl. intros c [H _]. exact H. Qed.
Lemma data_last s : Forall data_char s -> s !! (length s - 1)%nat <> Some 32.
Proof. intros HF E. apply (Forall_lookup_1 _ _ _ _ HF) in E as (_ & H & _). congruence. Qed.
Lemma length_radix m : (3 * length (radix [PAD] m) = 4 * length (filled m))%nat.
Proof. induction m as [|a|a b|a b c m IH] using radix_groups; [reflexivity..|]. rewrite filled_cons. cbn [radix app length]. lia. Qed.
Lemma length_filled m : (length (filled m) <= length m + 2)%nat.
Proof. unfold filled. rewrite length_app, length_replicate. pose proof (Nat.mod_upper_bound (3 - length m mod 3) 3 ltac:(lia)). lia. Qed.
Lemma length_filled_48 m : (length m <= 48)%nat -> (length (filled m) <= 48)%nat.
Proof.
  intros H. destruct (Nat.le_gt_cases (length m) 46) as [|H']; [pose proof (length_filled m); lia|]. unfold filled. rewrite length_app, length_replicate. assert (length m = 47 \/ length m = 48)%nat as [-> | ->] by lia; cbn; lia.
Qed.
(** The first character of a line of data is a digit of the encoding. *)
Lemma radix_first m : Forall (inU 8) m -> m <> [] -> exists v s, 0 <= v < 64 /\ radix [PAD] m = enc v :: s.
Proof.
  intros HF Hne. destruct m as [|a [|b [|c m]]]; [contradiction| | |]; apply Forall_cons_1 in HF as [Ha _]; unfold inU in Ha; change (2 ^ 8) with 256 in Ha; exists (a / 4); eexists; (split; [dlia|reflexivity]).
Qed.

End Chars.
