(* ===== verification/ArmorTrip.v ===== *)
(** What armor_file writes is what darmor_file reads (src/mibench/security/pgp/src/armor.c). *)
From stdpp Require Import base list numbers option tactics.
From Stdlib Require Import ZArith Lia.
From Stdlib Require Ascii String.
From S2P Require Import Prelude Bytes Crc24 Radix64 ArmorIo Charset ArmorEncode ArmorDecode.
Import String.StringSyntax.

(** The buffers have their sizes, and the checksum is a checksum. *)
Definition shape (d : decoder) : Prop := length (inbuf d) = 80%nat /\ length (outbuf d) = 80%nat /\ length (crcbuf d) = 4%nat /\ 0 <= ArmorDecode.crc d < 2 ^ 24.
(** What the lines in between leave alone. *)
Definition same_part (d d' : decoder) : Prop :=
  ArmorDecode.currentSection d' = ArmorDecode.currentSection d /\ ArmorDecode.noSections d' = ArmorDecode.noSections d /\ ret_code d' = ret_code d /\
  (armorfilename d', charset_header (vars d')) = (armorfilename d, charset_header (vars d)).
(** The bytes [m] were decoded. *)
Definition decoded_to (d : decoder) (m f : list Z) (d' : decoder) : Prop :=
  shape d' /\ same_part d d' /\ input d' = f /\ ArmorDecode.crc d' = crc24 m (ArmorDecode.crc d) /\ out d' = out d ++ m /\ gotcrc d' = gotcrc d /\ chkcrc d' = chkcrc d.

Section Steps.
Context (dm : data_model) (fopen : list Z -> option (list Z)).
Implicit Types (d : decoder) (m f rest name : list Z).
Notation decode_line := (decode_line dm fopen (crc_tab dm)).
Notation decode_loop := (decode_loop dm fopen (crc_tab dm)).

Lemma decoded_refl d : shape d -> decoded_to d [] (input d) d.
Proof. intros Hd. unfold decoded_to, same_part. rewrite app_nil_r. auto 12. Qed.
Lemma decoded_trans d1 d2 d3 m1 m2 f1 f2 : decoded_to d1 m1 f1 d2 -> decoded_to d2 m2 f2 d3 -> decoded_to d1 (m1 ++ m2) f2 d3.
Proof.
  intros (S1 & (P1 & P2 & P3 & P4) & I1 & C1 & O1 & G1 & K1) (S2 & (Q1 & Q2 & Q3 & Q4) & I2 & C2 & O2 & G2 & K2). unfold decoded_to, same_part.
  rewrite crc24_app, app_assoc, <- C1, <- O1. split; [exact S2|]. split; [split; [congruence|]; split; [congruence|]; split; congruence|]. split; [exact I2|]. split; [exact C2|]. split; [exact O2|]. split; congruence.
Qed.

Lemma data_not_minus c s lit post : data_char c -> starts (45 :: lit) (c :: s ++ post) = false.
Proof. intros (_ & _ & H). unfold starts. cbn [length take]. apply bool_decide_eq_false_2. intros E. injection E as E _. contradiction. Qed.

(** A line that is not the end of a part. *)
Lemma read_line d s rest : shape d -> Forall data_char s -> (length s <= 79)%nat -> input d = s ++ 10 :: rest -> (forall c t, s = c :: t -> c <> 45) -> exists post, length (s ++ 0 :: post) = 80%nat /\
  forall fuel, decode_line fuel d =
    (let d := set_input d rest (s ++ 0 :: post) (next_line (vars d)) in
     b0 ← aget (s ++ 0 :: post) 0; if b0 =? PAD then checksum_line d else if b0 =? 0 then mret (Break d) else data_line dm (crc_tab dm) d).
Proof.
  intros (L1 & _) HD Hl Hin Hm. destruct (get_line_ok (inbuf d) s rest L1 (data_text _ HD) Hl (data_last _ HD)) as (post & E & El). exists post. split; [exact El|]. intros fuel. unfold ArmorDecode.decode_line. rewrite Hin, E. cbn [mbind res_bind negb].
  assert (forall lit, starts (45 :: lit) (s ++ 0 :: post) = false) as Hs.
  { intros lit. unfold starts. apply bool_decide_eq_false_2. cbn [length]. destruct s as [|c t]; cbn [app take]; intros E'; injection E' as E' _; [discriminate E'|exact (Hm c t eq_refl E')]. }
  change (codes "-----END PGP MESSAGE,") with (45 :: codes "----END PGP MESSAGE,"). change (codes "-----END PGP ") with (45 :: codes "----END PGP "). rewrite !Hs, andb_false_r. reflexivity.
Qed.

(** The bytes of a line are put out, and taken into the checksum. *)
Lemma data_line_ok d ch post : shape d -> Forall (inU 8) ch -> ch <> [] -> (length ch <= 48)%nat -> inbuf d = radix [PAD] ch ++ 0 :: post ->
  exists d', data_line dm (crc_tab dm) d = Ok (Continue d') /\ decoded_to d ch (input d) d'.
Proof.
  intros (L1 & L2 & L3 & L4 & L5) HF Hne Hl Hin. unfold data_line. rewrite Hin, (cstr_ok _ post (data_text _ (radix_data ch HF))). cbn [mbind res_bind]. pose proof (length_filled_48 ch Hl) as Hfl.
  assert (darmor_buffer (radix [PAD] ch) (outbuf d) = Ok (0, Some (Z.of_nat (length ch)), filled ch ++ drop (length (filled ch)) (outbuf d))) as ->.
  { unfold darmor_buffer. pose proof (darmor_radix [PAD] ch (or_introl eq_refl) HF [] (outbuf d) 0 ltac:(lia)) as Ed. change (Z.of_nat (length [])) with 0 in Ed. rewrite !app_nil_l in Ed. rewrite Ed. reflexivity. }
  cbn [mbind res_bind from_option]. change (0 =? -1) with false. change (id (Z.of_nat (length ch))) with (Z.of_nat (length ch)). set (ob := filled ch ++ drop (length (filled ch)) (outbuf d)). assert (length ob = 80%nat) as Lo by (unfold ob; rewrite length_app, length_drop; lia).
  rewrite Lo. assert (uL dm (Z.of_nat (length ch)) = Z.of_nat (length ch)) as -> by (apply Z.mod_small; destruct dm; cbn [long_bits]; [change (2 ^ 32) with 4294967296|change (2 ^ 64) with 18446744073709551616]; lia).
  destruct (Z.ltb_spec (Z.of_nat 80) (Z.of_nat (length ch))) as [|_]; [lia|].
  assert (exists post', ob = ch ++ post') as (post' & Eob) by (unfold ob, filled; rewrite <- app_assoc; eauto). rewrite Eob. cbn [ArmorDecode.crc]. rewrite (crcbytes_ok dm ch post' _ Hne HF L4) by (change (2 ^ 32) with 4294967296; lia). cbn [mbind res_bind].
  rewrite maskcrc_mod, Z.mod_small by (split; assumption). eexists. split; [reflexivity|]. unfold decoded_to, shape, same_part. cbn. rewrite Nat2Z.id, take_app_length, <- Eob. split; [split; [rewrite <- Hin; exact L1|]; split; [exact Lo|]; split; [exact L3|]; apply crc24_range; split; assumption|]. auto 10.
Qed.

(** A line of data. *)
Lemma decode_data d ch rest : shape d -> Forall (inU 8) ch -> ch <> [] -> (length ch <= 48)%nat -> input d = line_text ch ++ rest ->
  exists d', (forall fuel, decode_line fuel d = Ok (Continue d')) /\ decoded_to d ch rest d'.
Proof.
  intros Hd HF Hne Hl Hin. pose proof (radix_data ch HF) as HD. assert (length (radix [PAD] ch) <= 64)%nat as Hr by (pose proof (length_radix ch); pose proof (length_filled_48 ch Hl); lia). destruct (radix_first ch HF Hne) as (v & s & Hv & Es). pose proof (enc_data v Hv) as Hc.
  unfold line_text in Hin. rewrite <- app_assoc in Hin. destruct (read_line d (radix [PAD] ch) rest Hd HD ltac:(lia) Hin) as (post & El & E); [rewrite Es; intros c t E'; injection E' as <- _; apply Hc|]. set (d1 := set_input d rest (radix [PAD] ch ++ 0 :: post) (next_line (vars d))).
  assert (shape d1) as Hd1 by (destruct Hd as (L1 & L2 & L3 & L4); split; [exact El|]; split; [exact L2|]; split; [exact L3|exact L4]).
  destruct (data_line_ok d1 ch post Hd1 HF Hne Hl eq_refl) as (d' & E' & D). exists d'. split; [|exact D]. intros fuel. rewrite E. fold d1. assert (aget (radix [PAD] ch ++ 0 :: post) 0 = Ok (enc v)) as -> by (rewrite Es; reflexivity). cbv zeta. cbn [mbind res_bind].
  rewrite (enc_pad v Hv). destruct (Z.eqb_spec (enc v) 0) as [E0|_]; [destruct Hc as ((H & _) & _); lia|]. exact E'.
Qed.

(** All the lines of a part. *)
Lemma decode_lines (j : nat) : forall d m rest, (length m <= j)%nat -> shape d -> Forall (inU 8) m -> input d = lines_text m ++ rest ->
  exists k d', (forall fuel, decode_loop (k + fuel) d = decode_loop fuel d') /\ decoded_to d m rest d'.
Proof.
  induction j as [|j IH]; intros d m rest Hj Hd HF Hin.
  - destruct m; [|cbn in Hj; lia]. exists 0%nat, d. split; [reflexivity|]. change (lines_text [] ++ rest) with rest in Hin. rewrite <- Hin. apply decoded_refl, Hd.
  - destruct (decide (m = [])) as [->|Hne]; [apply (IH d [] rest); auto; cbn; lia|]. assert (0 < length m)%nat as Hm by (destruct m; [contradiction|cbn; lia]). rewrite (lines_text_step m Hne), <- app_assoc in Hin.
    assert (take 48 m <> []) as Hne' by (intros E; apply (f_equal length) in E; rewrite length_take in E; cbn [length] in E; lia).
    destruct (decode_data d (take 48 m) (lines_text (drop 48 m) ++ rest) Hd (Forall_take _ 48 _ HF) Hne' ltac:(rewrite length_take; lia) Hin) as (d1 & E1 & D1).
    destruct (IH d1 (drop 48 m) rest) as (k & d' & E & D); [rewrite length_drop; lia|apply D1|apply Forall_drop, HF|apply D1|]. exists (S k), d'. split; [|rewrite <- (take_drop 48 m); exact (decoded_trans _ _ _ _ _ _ _ D1 D)].
    intros fuel. cbn [Nat.add ArmorDecode.decode_loop]. rewrite E1. cbn [mbind res_bind]. apply E.
Qed.

(** The checksum line. *)
Lemma decode_check d c rest : shape d -> 0 <= c < 2 ^ 24 -> input d = crc_line c ++ 10 :: rest ->
  exists d', (forall fuel, decode_line fuel d = Ok (Continue d')) /\ shape d' /\ same_part d d' /\ input d' = rest /\ ArmorDecode.crc d' = ArmorDecode.crc d /\ out d' = out d /\ gotcrc d' = true /\ chkcrc d' = c.
Proof.
  intros Hd Hc Hin. unfold crc_line in Hin. change (2 ^ 24) with 16777216 in Hc. set (m := [c / 65536; c / 256 mod 256; c mod 256]) in *.
  assert (Forall (inU 8) m) as HF by (unfold m; repeat constructor; unfold inU; change (2 ^ 8) with 256; dlia). pose proof (radix_data m HF) as HD.
  destruct (read_line d (PAD :: radix [PAD] m) rest Hd (Forall_cons_2 _ _ _ pad_data HD) ltac:(cbn; lia) Hin) as (post & El & E); [intros x t E'; injection E' as <- _; discriminate|].
  destruct Hd as (L1 & L2 & L3 & L4). destruct (crcbuf d) as [|x0 [|x1 [|x2 [|x3 [|]]]]] eqn:Eb; try discriminate L3. eexists. split.
  - intros fuel. rewrite E. change (aget ((PAD :: radix [PAD] m) ++ 0 :: post) 0) with (Ok PAD). cbv zeta. cbn [mbind res_bind]. rewrite Z.eqb_refl. unfold checksum_line. cbn [inbuf set_input crcbuf]. rewrite Eb.
    rewrite (cstr_ok _ post (data_text _ (Forall_cons_2 _ _ _ pad_data HD))). cbn [mbind res_bind]. change (length (PAD :: radix [PAD] m) =? 7)%nat with false. cbn [andb].
    change (aget ((PAD :: radix [PAD] m) ++ 0 :: post) 1) with (Ok (nth 0 (radix [PAD] m) 0)). change (aget ((PAD :: radix [PAD] m) ++ 0 :: post) 2) with (Ok (nth 1 (radix [PAD] m) 0)). cbn [mbind res_bind].
    change (drop 1 ((PAD :: radix [PAD] m) ++ 0 :: post)) with (radix [PAD] m ++ 0 :: post). rewrite (cstr_ok _ post (data_text _ HD)). cbn [mbind res_bind].
    assert (darmor_buffer (radix [PAD] m) [x0; x1; x2; x3] = Ok (0, Some 3, m ++ [x3])) as ->.
    { unfold darmor_buffer. pose proof (darmor_radix [PAD] m (or_introl eq_refl) HF [] [x0; x1; x2; x3] 0 ltac:(cbn; lia)) as Ed. change (Z.of_nat (length [])) with 0 in Ed. rewrite !app_nil_l in Ed. rewrite Ed. reflexivity. }
    cbn [mbind res_bind from_option]. change (id 3) with 3. change ((0 <? 0) || negb (3 =? 3)) with false. cbn iota.
    change (aget (m ++ [x3]) 0) with (Ok (c / 65536)). change (aget (m ++ [x3]) 1) with (Ok (c / 256 mod 256)). change (aget (m ++ [x3]) 2) with (Ok (c mod 256)). cbn [mbind res_bind]. reflexivity.
  - unfold shape, same_part. cbn. split; [split; [exact El|]; split; [exact L2|]; split; [reflexivity|exact L4]|]. split; [auto|]. do 4 (split; [reflexivity|]).
    change 0xff0000 with (Z.shiftl (Z.ones 8) 16). change 0xff00 with (Z.shiftl (Z.ones 8) 8). change 0xff with (Z.ones 8). rewrite <- !Z.shiftl_land, !Z.land_ones, !Z.shiftl_mul_pow2 by lia. change (2 ^ 8) with 256. change (2 ^ 16) with 65536. dlia.
Qed.

(** The line that ends the text. *)
Lemma decode_end d s t rest : shape d -> Forall text s -> (length s <= 79)%nat -> s !! (length s - 1)%nat <> Some 32 -> s = codes "-----END PGP " ++ t -> input d = s ++ 10 :: rest ->
  (ArmorDecode.currentSection d = ArmorDecode.noSections d \/ forall post, starts (codes "-----END PGP MESSAGE,") (s ++ post) = false) ->
  exists d', (forall fuel, decode_loop (S fuel) d = Ok (if gotcrc d && negb (chkcrc d =? ArmorDecode.crc d) then -1 else ret_code d, d')) /\ out d' = out d /\ charset_header (vars d') = charset_header (vars d).
Proof.
  intros (L1 & _) HF Hl Hlast Es Hin Hor. destruct (get_line_ok (inbuf d) s rest L1 HF Hl Hlast) as (post & E & El). eexists. split.
  - intros fuel. cbn [ArmorDecode.decode_loop]. unfold ArmorDecode.decode_line. rewrite Hin, E. cbn [mbind res_bind negb].
    assert (negb (ArmorDecode.currentSection (set_input d rest (s ++ 0 :: post) (next_line (vars d))) =? ArmorDecode.noSections (set_input d rest (s ++ 0 :: post) (next_line (vars d)))) && starts (codes "-----END PGP MESSAGE,") (s ++ 0 :: post) = false) as ->.
    { cbn. destruct Hor as [-> | ->]; [rewrite Z.eqb_refl; reflexivity|apply andb_false_r]. }
    assert (aget (s ++ 0 :: post) 0 = Ok 45) as -> by (rewrite Es; reflexivity). cbn [mbind res_bind]. change (45 =? PAD) with false. change (45 =? 0) with false. cbn iota.
    assert (starts (codes "-----END PGP ") (s ++ 0 :: post) = true) as -> by (rewrite Es, <- app_assoc; unfold starts; rewrite take_app_length; apply bool_decide_eq_true_2; reflexivity). cbn [mbind res_bind mret res_ret gotcrc set_input chkcrc ArmorDecode.crc ret_code]. reflexivity.
  - split; reflexivity.
Qed.

Lemma get_line_eof buf : length buf = 80%nat -> exists buf', get_armor_line buf [] = Ok (false, buf', []) /\ length buf' = 80%nat.
Proof.
  intros Hb. destruct buf as [|x buf]; [discriminate Hb|]. exists (0 :: buf). split; [reflexivity|exact Hb].
Qed.
End Steps.

(** * The delimiter lines of the parts *)

Section Delimiters.
Implicit Types (s t : list Z) (k : Z).

Lemma digit_cases k : 0 <= k <= 9 -> k = 0 \/ k = 1 \/ k = 2 \/ k = 3 \/ k = 4 \/ k = 5 \/ k = 6 \/ k = 7 \/ k = 8 \/ k = 9.
Proof. lia. Qed.

Lemma two_digits_range k : 0 <= k <= 99 -> 0 <= k / 10 <= 9 /\ 0 <= k mod 10 <= 9 /\ 10 * (k / 10) + k mod 10 = k.
Proof. intros H. split; [dlia|]. split; dlia. Qed.

Lemma scan_two_digits k (c : Z) s : 0 <= k <= 99 -> isdigit c = false -> scan_int (two_digits k ++ c :: s) = Some (k, c :: s).
Proof.
  intros Hk Hc. destruct (two_digits_range k Hk) as (H1 & H2 & E). unfold two_digits. rewrite <- E at 3. generalize dependent (k / 10). generalize dependent (k mod 10). intros b Hb a Ha _.
  assert (exists t, t = c :: s /\ forall v, scan_digits v t = (v, t)) as (t & <- & Ht) by (eexists; split; [reflexivity|]; intros v; cbn [scan_digits]; rewrite Hc; reflexivity).
  assert (scan_int (48 + a :: 48 + b :: t) = let '(v, s) := scan_digits (10 * a + b) t in Some (v, s)) as E.
  { destruct (digit_cases a Ha) as [-> |[-> |[-> |[-> |[-> |[-> |[-> |[-> |[-> | ->]]]]]]]]]; destruct (digit_cases b Hb) as [-> |[-> |[-> |[-> |[-> |[-> |[-> |[-> |[-> | ->]]]]]]]]]; reflexivity. }
  rewrite Ht in E. exact E.
Qed.

Lemma scan_begin k n : 0 <= k <= 99 -> 0 <= n <= 99 -> scan_part (codes "-----BEGIN PGP MESSAGE, PART " ++ two_digits k ++ [47] ++ two_digits n ++ codes "-----") = Some (k, n).
Proof.
  intros Hk Hn. unfold scan_part.
  assert (scan_lit (codes "-----BEGIN PGP MESSAGE, PART ") (codes "-----BEGIN PGP MESSAGE, PART " ++ two_digits k ++ [47] ++ two_digits n ++ codes "-----") = Some (two_digits k ++ 47 :: two_digits n ++ codes "-----")) as ->.
  { destruct (two_digits_range k Hk) as (H1 & _). unfold two_digits. generalize dependent (k / 10). intros a Ha. destruct (digit_cases a Ha) as [-> |[-> |[-> |[-> |[-> |[-> |[-> |[-> |[-> | ->]]]]]]]]]; reflexivity. }
  rewrite (scan_two_digits k 47 _ Hk eq_refl). change (scan_lit [47] (47 :: two_digits n ++ codes "-----")) with (Some (two_digits n ++ 45 :: codes "----")). cbv beta iota. rewrite (scan_two_digits n 45 _ Hn eq_refl). reflexivity.
Qed.

Lemma digits_text k : 0 <= k <= 99 -> Forall text (two_digits k).
Proof. intros Hk. destruct (two_digits_range k Hk) as (H1 & H2 & _). unfold two_digits, text. repeat constructor; lia. Qed.

(** The line without its newline. *)
Definition part_line (s : list Z) k n : list Z := s ++ two_digits k ++ [47] ++ two_digits n ++ codes "-----".
Lemma part_line_text s k n : 0 <= k <= 99 -> 0 <= n <= 99 -> Forall text s -> Forall text (part_line s k n).
Proof. intros Hk Hn Hs. unfold part_line. repeat (apply Forall_app; split); auto using digits_text; by_eval. Qed.
Lemma part_line_last s k n : part_line s k n !! (length (part_line s k n) - 1)%nat <> Some 32.
Proof.
  unfold part_line. rewrite !length_app. cbn [length two_digits]. change (length (codes "-----")) with 5%nat. rewrite lookup_app_r by lia. replace (length s + (2 + (1 + (2 + 5))) - 1 - length s)%nat with 9%nat by lia. discriminate.
Qed.
End Delimiters.

(** * The parts *)

Section Parts.
Context (dm : data_model) (fopen : list Z -> option (list Z)).
Implicit Types (d : decoder) (m f rest name : list Z).
Notation decode_line := (decode_line dm fopen (crc_tab dm)).
Notation decode_loop := (decode_loop dm fopen (crc_tab dm)).

(** The line that ends the last part; [s] has no newline. *)
Definition ends d s : Prop := Forall text s /\ (length s <= 79)%nat /\ s !! (length s - 1)%nat <> Some 32 /\ (exists t, s = codes "-----END PGP " ++ t) /\
  (ArmorDecode.currentSection d = ArmorDecode.noSections d \/ forall post, starts (codes "-----END PGP MESSAGE,") (s ++ post) = false).

(** The body of a part: the lines and their checksum. *)
Lemma decode_body d m c rest : shape d -> Forall (inU 8) m -> 0 <= c < 2 ^ 24 -> input d = lines_text m ++ crc_line c ++ 10 :: rest ->
  exists k d', (forall fuel, decode_loop (k + fuel) d = decode_loop fuel d') /\ shape d' /\ same_part d d' /\ input d' = rest /\ ArmorDecode.crc d' = crc24 m (ArmorDecode.crc d) /\ out d' = out d ++ m /\ gotcrc d' = true /\ chkcrc d' = c.
Proof.
  intros Hd HF Hc Hin. destruct (decode_lines dm fopen (length m) d m _ (le_n _) Hd HF Hin) as (k & d1 & E1 & (S1 & (P1 & P2 & P3 & P4) & I1 & C1 & O1 & _)). destruct (decode_check dm fopen d1 c rest S1 Hc I1) as (d2 & E2 & S2 & (Q1 & Q2 & Q3 & Q4) & I2 & C2 & O2 & G2 & K2).
  exists (k + 1)%nat, d2. split; [|unfold same_part; rewrite C2, C1, O2, O1; repeat split; (assumption || congruence || apply S2)].
  intros fuel. rewrite <- Nat.add_assoc, E1. cbn [Nat.add ArmorDecode.decode_loop]. rewrite E2. reflexivity.
Qed.

(** The last part: what is returned depends on the checksum. *)
Lemma decode_last d m c s rest : shape d -> ArmorDecode.crc d = CRCINIT -> Forall (inU 8) m -> 0 <= c < 2 ^ 24 -> ends d s -> input d = lines_text m ++ crc_line c ++ [10] ++ s ++ 10 :: rest ->
  exists F d', (forall fuel, (F <= fuel)%nat -> decode_loop fuel d = Ok (if c =? crc24 m CRCINIT then ret_code d else -1, d')) /\ out d' = out d ++ m /\ charset_header (vars d') = charset_header (vars d).
Proof.
  intros Hd Ec HF Hc (E1 & E2 & E3 & (t & E4) & E5) Hin. destruct (decode_body d m c (s ++ 10 :: rest) Hd HF Hc Hin) as (k & d1 & R1 & S1 & (P1 & P2 & P3 & P4) & I1 & C1 & O1 & G1 & K1). rewrite <- P1, <- P2 in E5.
  destruct (decode_end dm fopen d1 s t rest S1 E1 E2 E3 E4 I1 E5) as (d2 & R2 & O2 & V2). exists (k + 1)%nat, d2. split; [|split; congruence]. intros fuel Hf. replace fuel with (k + S (fuel - k - 1))%nat by lia. rewrite R1, R2, G1, K1, C1, P3, Ec. destruct (c =? crc24 m CRCINIT); reflexivity.
Qed.

Lemma skip_blank a w buf rest : length buf = 80%nat -> exists buf', length buf' = 80%nat /\ skipheaders a w buf (10 :: rest) true = Ok (0, next_line a, w, buf', rest, false).
Proof. intros Hb. exact (skipheaders_blank (length (10 :: rest)) false a w buf rest true Hb). Qed.

(** The end of a part that is followed by another one. *)
Lemma decode_next d k N name' rest : shape d -> ArmorDecode.currentSection d = k -> ArmorDecode.noSections d <> k -> 1 <= k -> k + 1 <= N -> N <= 99 -> chkcrc d = ArmorDecode.crc d -> input d = end_part N k ++ [10] ->
  open_next fopen (armorfilename d) = Ok (name', Some (begin_part N (k + 1) ++ [10] ++ rest)) ->
  exists d', (forall fuel, decode_line (S (S (S fuel))) d = Ok (Continue d')) /\ shape d' /\ ArmorDecode.currentSection d' = k + 1 /\ ArmorDecode.noSections d' = N /\ ArmorDecode.crc d' = CRCINIT /\ gotcrc d' = false /\ ret_code d' = ret_code d /\ out d' = out d /\ armorfilename d' = name' /\ input d' = rest /\ charset_header (vars d') = charset_header (vars d).
Proof.
  intros (L1 & L2 & L3 & _) Ek Hne H1 HN H99 Hchk Hin Hopen.
  pose proof (part_line_text (codes "-----END PGP MESSAGE, PART ") k N ltac:(lia) ltac:(lia) ltac:(by_eval)) as T1. pose proof (part_line_text (codes "-----BEGIN PGP MESSAGE, PART ") (k + 1) N ltac:(lia) ltac:(lia) ltac:(by_eval)) as T2.
  set (s1 := part_line (codes "-----END PGP MESSAGE, PART ") k N) in *. set (s2 := part_line (codes "-----BEGIN PGP MESSAGE, PART ") (k + 1) N) in *.
  assert (input d = s1 ++ 10 :: [] ++ 10 :: []) as Hin' by (rewrite Hin; unfold end_part, s1, part_line; rewrite !d02_ok, <- !app_assoc by lia; reflexivity).
  assert (begin_part N (k + 1) ++ [10] ++ rest = s2 ++ 10 :: 10 :: rest) as Eb by (unfold begin_part, s2, part_line; rewrite !d02_ok, <- !app_assoc by lia; reflexivity). rewrite Eb in Hopen.
  destruct (get_line_ok (inbuf d) s1 ([] ++ 10 :: []) L1 T1 ltac:(unfold s1, part_line; cbn; lia) (part_line_last _ _ _)) as (p1 & G1 & B1).
  destruct (get_line_ok (s1 ++ 0 :: p1) [] [] B1 (Forall_nil_2 _) ltac:(cbn; lia) ltac:(discriminate)) as (p2 & G2 & B2).
  destruct (get_line_eof ([] ++ 0 :: p2) B2) as (b3 & G3 & B3).
  destruct (get_line_ok b3 s2 (10 :: rest) B3 T2 ltac:(unfold s2, part_line; cbn; lia) (part_line_last _ _ _)) as (p4 & G4 & B4).
  assert (starts (codes "-----END PGP MESSAGE,") (s1 ++ 0 :: p1) = true) as St1 by reflexivity. assert (starts (codes "-----BEGIN PGP MESSAGE") (s2 ++ 0 :: p4) = true) as St2 by reflexivity. pose proof (scan_begin (k + 1) N ltac:(lia) ltac:(lia)) as Hscan. fold (part_line (codes "-----BEGIN PGP MESSAGE, PART ") (k + 1) N) in Hscan. fold s2 in Hscan.
  set (a3 := next_line (next_line (next_line (vars d)))). destruct (skip_blank a3 (warned d) (s2 ++ 0 :: p4) rest B4) as (b5 & B5 & G5). clearbody s1 s2.
  exists (Decoder rest b5 (outbuf d) (crcbuf d) (n d) (k + 1) N false CRCINIT (chkcrc d) (ret_code d) (out d) (warned d) (next_line a3) name'). split; [|unfold shape; cbn; repeat split; auto; unfold CRCINIT; lia].
  intros fuel. unfold ArmorDecode.decode_line. rewrite Hin', G1. cbn [mbind res_bind negb]. rewrite St1. cbn [ArmorDecode.currentSection ArmorDecode.noSections set_input]. rewrite Ek, (proj2 (Z.eqb_neq k (ArmorDecode.noSections d))) by congruence. cbn [negb andb].
  unfold next_section. cbn [find_section set_input input inbuf outbuf crcbuf n ArmorDecode.currentSection ArmorDecode.noSections gotcrc ArmorDecode.crc chkcrc ret_code out warned vars armorfilename]. rewrite Hchk, Z.eqb_refl, andb_false_r, G2. cbn [mbind res_bind negb].
  assert (starts (codes "-----BEGIN PGP MESSAGE") ([] ++ 0 :: p2) = false) as -> by (unfold starts; apply bool_decide_eq_false_2; discriminate).
  cbn [find_section set_input input inbuf outbuf crcbuf n ArmorDecode.currentSection ArmorDecode.noSections gotcrc ArmorDecode.crc chkcrc ret_code out warned vars armorfilename]. rewrite G3. cbn [mbind res_bind negb]. rewrite Hopen. cbn [mbind res_bind].
  cbn [find_section set_input input inbuf outbuf crcbuf n ArmorDecode.currentSection ArmorDecode.noSections gotcrc ArmorDecode.crc chkcrc ret_code out warned vars armorfilename]. rewrite G4. cbn [mbind res_bind negb]. rewrite St2. cbn [mret res_ret mbind res_bind negb set_input inbuf input vars warned]. rewrite (cstr_ok s2 p4 T2). cbn [mbind res_bind]. rewrite Hscan.
  cbn [set_input ArmorDecode.currentSection]. rewrite Ek, Z.eqb_refl. cbn [negb]. fold a3. rewrite G5. reflexivity.
Qed.

(** The files of the parts can be opened. *)
Definition agrees (fs : list (list Z * list Z)) : Prop := Forall (fun x => fopen (fst x) = Some (snd x)) fs.

Lemma part_files_head N name_of ll (L r : nat) k name h m : exists t fs, part_files N name_of ll L r k name h m = (name, h ++ t) :: fs /\ part_files N name_of ll L r k name [] m = (name, t) :: fs.
Proof. destruct r; eexists _, _; split; reflexivity. Qed.

Lemma part_files_last N name_of ll (L : nat) k name m t fs : part_files N name_of ll L 0 k name [] m = (name, t) :: fs -> t = lines_text m ++ crc_line (crc24 m CRCINIT) ++ [10] ++ ll.
Proof. intros E. change (([(name, lines_text m ++ crc_line (crc24 m CRCINIT) ++ [10] ++ ll)] : list (list Z * list Z)) = (name, t) :: fs) in E. congruence. Qed.
Lemma part_files_more N name_of ll (L r : nat) k name m t fs : part_files N name_of ll L (S r) k name [] m = (name, t) :: fs ->
  t = lines_text (take L m) ++ crc_line (crc24 (take L m) CRCINIT) ++ [10] ++ end_part N k ++ [10] /\ fs = part_files N name_of ll L r (k + 1) (name_of (k + 1)) (begin_part N (k + 1) ++ [10]) (drop L m).
Proof.
  intros E. change ((name, lines_text (take L m) ++ crc_line (crc24 (take L m) CRCINIT) ++ [10] ++ end_part N k ++ [10]) :: part_files N name_of ll L r (k + 1) (name_of (k + 1)) (begin_part N (k + 1) ++ [10]) (drop L m) = (name, t) :: fs) in E. split; congruence.
Qed.

Lemma decode_parts N name_of s (L r : nat) : N <= 99 -> (forall k, 1 <= k < N -> open_next fopen (name_of k) = Ok (name_of (k + 1), fopen (name_of (k + 1)))) ->
  forall d k m t fs, shape d -> ArmorDecode.crc d = CRCINIT -> ArmorDecode.currentSection d = k -> 1 <= k -> k + Z.of_nat r = N -> armorfilename d = name_of k -> Forall (inU 8) m ->
  (r = 0%nat -> ends d s) -> (r <> 0%nat -> ArmorDecode.noSections d <> k /\ ends (Decoder [] [] [] [] 0 N N false 0 0 0 [] 0 (vars d) []) s) ->
  part_files N name_of (s ++ [10]) L r k (name_of k) [] m = (name_of k, t) :: fs -> agrees fs -> input d = t ->
  exists F d', (forall fuel, (F <= fuel)%nat -> decode_loop fuel d = Ok (ret_code d, d')) /\ out d' = out d ++ m /\ charset_header (vars d') = charset_header (vars d).
Proof.
  intros HN Hname. induction r as [|r IH]; intros d k m t fs Hd Ec Ek H1 Hr Hn HF Hend Hmore Ep Hag Hin.
  - apply part_files_last in Ep as Et. assert (0 <= crc24 m CRCINIT < 2 ^ 24) as Hc by (apply crc24_range; unfold CRCINIT; lia).
    destruct (decode_last d m (crc24 m CRCINIT) s [] Hd Ec HF Hc (Hend eq_refl)) as (F & d' & E & O); [rewrite Hin, Et; reflexivity|]. rewrite Z.eqb_refl in E. exists F, d'. split; [exact E|exact O].
  - destruct (Hmore ltac:(discriminate)) as [Hne Hs]. apply part_files_more in Ep as [Et Efs].
    destruct (part_files_head N name_of (s ++ [10]) L r (k + 1) (name_of (k + 1)) (begin_part N (k + 1) ++ [10]) (drop L m)) as (t2 & fs2 & Eh & Eh'). rewrite Efs, Eh in Hag. apply Forall_cons_1 in Hag as [Hopen Hag]. cbn [fst snd] in Hopen.
    assert (0 <= crc24 (take L m) CRCINIT < 2 ^ 24) as Hc by (apply crc24_range; unfold CRCINIT; lia).
    destruct (decode_body d (take L m) (crc24 (take L m) CRCINIT) (end_part N k ++ [10]) Hd (Forall_take _ _ _ HF) Hc) as (c & d1 & R1 & S1 & (P1 & P2 & P3 & P4) & I1 & C1 & O1 & G1 & K1); [rewrite Hin, Et; reflexivity|]. rewrite Ec in C1.
    destruct (decode_next d1 k N (name_of (k + 1)) t2 S1 ltac:(congruence) ltac:(congruence) H1 ltac:(lia) HN ltac:(congruence) I1) as (d2 & R2 & S2 & K2 & N2 & C2 & G2 & T2 & O2 & A2 & I2 & V2).
    { injection P4 as -> _. rewrite Hn, (Hname k ltac:(lia)), Hopen, <- app_assoc. reflexivity. }
    destruct (IH d2 (k + 1) (drop L m) t2 fs2 S2 C2 K2 ltac:(lia) ltac:(lia) A2 (Forall_drop _ _ _ HF)) as (F & d' & R3 & O3 & V3).
    + intros ->. destruct Hs as (E1 & E2 & E3 & E4 & _). unfold ends. rewrite K2, N2. do 4 (split; [assumption|]). left. lia.
    + intros Hr'. split; [lia|]. destruct Hs as (E1 & E2 & E3 & E4 & _). do 4 (split; [assumption|]). left. reflexivity.
    + exact Eh'.
    + exact Hag.
    + exact I2.
    + exists (c + S (3 + F))%nat, d'. split; [|split; [rewrite O3, O2, O1, <- app_assoc, take_drop; reflexivity|congruence]]. intros fuel Hf. replace fuel with (c + S (S (S (S (fuel - c - 4)))))%nat by lia. rewrite R1. cbn [ArmorDecode.decode_loop]. rewrite R2. cbn [mbind res_bind]. change (decode_loop (S (S (S (fuel - c - 4)))) d2 = Ok (ret_code d, d')). rewrite R3 by lia. congruence.
Qed.
End Parts.

(** The next name is opened when the number of a part is counted up. *)
Lemma open_next_ok fopen base k N : (2 <= length base)%nat -> 1 <= k < N -> N <= 99 -> open_next fopen (part_name base k N) = Ok (part_name base (k + 1) N, fopen (part_name base (k + 1) N)).
Proof.
  intros Hb Hk HN. unfold open_next, part_name. destruct (Z.ltb_spec N 10).
  - rewrite rev_app_distr. cbn [rev app count_up]. assert (isdigit (48 + k) = true) as -> by (unfold isdigit; lia). assert (48 + k =? 57 = false) as -> by lia. cbn [negb]. rewrite rev_involutive, <- Z.add_assoc. reflexivity.
  - destruct (two_digits_range k ltac:(lia)) as (H1 & H2 & E). rewrite rev_app_distr. unfold two_digits at 1. cbn [rev app count_up]. assert (isdigit (48 + k mod 10) = true) as -> by (unfold isdigit; lia). destruct (Z.eqb_spec (48 + k mod 10) 57) as [E9|N9]; cbn [negb count_up].
    + assert (isdigit (48 + k / 10) = true) as -> by (unfold isdigit; lia). assert (48 + k / 10 =? 57 = false) as -> by lia. cbn [negb]. rewrite rev_involutive. assert (two_digits (k + 1) = [48 + k / 10 + 1; 48]) as ->; [|reflexivity]. unfold two_digits. assert ((k + 1) / 10 = k / 10 + 1) as -> by dlia. assert ((k + 1) mod 10 = 0) as -> by dlia. f_equal. lia.
    + cbn [rev]. rewrite rev_involutive, <- app_assoc. cbn [app]. assert (two_digits (k + 1) = [48 + k / 10; 48 + k mod 10 + 1]) as ->; [|reflexivity]. unfold two_digits. assert ((k + 1) / 10 = k / 10) as -> by dlia. assert ((k + 1) mod 10 = k mod 10 + 1) as -> by dlia. do 2 f_equal. lia.
Qed.

(** * Whole files *)

(** The arrays of a function have their sizes. *)
Definition sized (g : garbage) : Prop := length (g_inbuf g) = 80%nat /\ length (g_outbuf g) = 80%nat /\ length (g_crcbuf g) = 4%nat.
(** A table of checksums: not yet, or already made. *)
Definition crc_table (dm : data_model) (t : list Z) : Prop := t = replicate 256 0 \/ t = crc_tab dm.
Definition begin_line (s : list Z) : Prop := Forall text s /\ (length s <= 79)%nat /\ s !! (length s - 1)%nat <> Some 32 /\
  (forall post, starts (codes "-----BEGIN PGP ") (s ++ post) = true) /\ (forall post, starts (codes "-----BEGIN PGP SIGNED MESSAGE-----") (s ++ post) = false).
(** The variables before the first line of a file. *)
Definition fresh (a : armor) : Prop := infile_line a = 0 /\ length (charset_header a) = 16%nat.

Section Whole.
Context (dm : data_model) (fopen : list Z -> option (list Z)) (crctable : list Z) (g : garbage) (language : list Z) (cs : char_set).
Implicit Types (a : armor) (m rest name : list Z).

(** Up to the first line of data. *)
Lemma darmor_head s hs rest name a : sized g -> Z.of_nat (length name) < 256 -> begin_line s -> Forall header hs -> fresh a -> fopen name = Some (s ++ 10 :: unlines hs ++ 10 :: rest) ->
  exists a', forall fuel, darmor_file dm fopen crctable g language cs fuel name a = ('(status, d) ← armordecode dm fopen crctable g fuel rest 0 a' name; mret (status, out d, None, infile_line (vars d))).
Proof.
  intros (G1 & _) Hname (T & Hl & Hlast & B1 & B2) Hh [Ha Hc] Hf. destruct (get_line_ok (g_inbuf g) s (unlines hs ++ 10 :: rest) G1 T Hl Hlast) as (p & E & Ep). destruct (skipheaders_ok hs (next_line a) 0 (s ++ 0 :: p) rest true Ep Hc Hh) as (b & a' & Eb & Esk).
  exists a'. intros fuel. unfold darmor_file, MAX_PATH. rewrite Hf, Ha. destruct (Z.leb_spec 256 (Z.of_nat (length name))); [lia|]. change (Z.to_nat 0) with 0%nat. cbn [skip_lines mbind res_bind mret res_ret negb find_begin]. rewrite E. cbn [mbind res_bind negb]. rewrite B1. cbn [mret res_ret mbind res_bind negb]. rewrite B2. cbn [mret res_ret mbind res_bind]. change (negb (0 =? 0)) with false. cbn iota.
  rewrite Esk. cbn [mbind res_bind]. change (0 <? 0) with false. reflexivity.
Qed.

(** The first state of armordecode. *)
Definition start f w a name : decoder := Decoder f (g_inbuf g) (g_outbuf g) (g_crcbuf g) (g_n g) 1 0 false CRCINIT (-1) 0 [] w a name.
Lemma armordecode_start fuel f w a name : crc_table dm crctable -> armordecode dm fopen crctable g fuel f w a name = decode_loop dm fopen (crc_tab dm) fuel (start f w a name).
Proof. intros Ht. unfold armordecode. rewrite (crc_tab_init dm crctable Ht). reflexivity. Qed.
Lemma start_shape f w a name : sized g -> shape (start f w a name).
Proof. intros (G1 & G2 & G3). split; [exact G1|]. split; [exact G2|]. split; [exact G3|]. cbn. unfold CRCINIT. lia. Qed.
End Whole.

(** The kinds of blocks. *)
Lemma blocktype_cases m signed : blocktype m signed = codes "MESSAGE" \/ blocktype m signed = codes "SIGNATURE" \/ blocktype m signed = codes "PUBLIC KEY BLOCK" \/ blocktype m signed = codes "SECRET KEY BLOCK".
Proof. unfold blocktype. destruct (is_ctb_type _ 6); [auto|]. destruct (is_ctb_type _ 5); [auto|]. destruct signed; auto. Qed.

Lemma first_line_ok N m signed : 1 <= N <= 99 -> exists s, first_line N (blocktype m signed) = s ++ [10] /\ begin_line s.
Proof.
  intros HN. unfold first_line. destruct (Z.eqb_spec N 1) as [_|_].
  - exists (codes "-----BEGIN PGP " ++ blocktype m signed ++ codes "-----"). rewrite <- !app_assoc. split; [reflexivity|].
    destruct (blocktype_cases m signed) as [-> |[-> |[-> | ->]]]; (split; [by_eval|]; split; [cbn; lia|]; split; [discriminate|]; split; intros post; reflexivity).
  - exists (part_line (codes "-----BEGIN PGP MESSAGE, PART ") 1 N). split; [unfold begin_part, part_line; rewrite !d02_ok, <- !app_assoc by lia; reflexivity|].
    split; [apply part_line_text; [lia|lia|by_eval]|]. split; [cbn; lia|]. split; [apply part_line_last|]. split; intros post; reflexivity.
Qed.

Lemma last_line_ok N m signed d : 1 <= N <= 99 -> (N = 1 \/ ArmorDecode.currentSection d = ArmorDecode.noSections d) -> exists s, last_line N (blocktype m signed) = s ++ [10] /\ ends d s.
Proof.
  intros HN Hd. unfold last_line. destruct (Z.eqb_spec N 1) as [_|Hne].
  - exists (codes "-----END PGP " ++ blocktype m signed ++ codes "-----"). rewrite <- !app_assoc. split; [reflexivity|].
    destruct (blocktype_cases m signed) as [-> |[-> |[-> | ->]]]; (split; [by_eval|]; split; [cbn; lia|]; split; [discriminate|]; split; [eexists; reflexivity|]; right; intros post; reflexivity).
  - exists (part_line (codes "-----END PGP MESSAGE, PART ") N N). split; [unfold end_part, part_line; rewrite !d02_ok, <- !app_assoc by lia; reflexivity|]. destruct Hd as [Hd|Hd]; [contradiction|].
    split; [apply part_line_text; [lia|lia|by_eval]|]. split; [cbn; lia|]. split; [apply part_line_last|]. split; [eexists; reflexivity|]. left. exact Hd.
Qed.

(** How many parts there are. *)
Lemma ceil_quot a b : 0 < a -> 0 < b -> Z.quot (a + b - 1) b = (a - 1) / b + 1.
Proof. intros Ha Hb. rewrite Z.quot_div_nonneg by lia. replace (a + b - 1) with (a - 1 + 1 * b) by lia. apply Z.div_add. lia. Qed.

(** The count of the parts, in a long and then in an int. *)
Lemma count_parts dm P len : 0 < P -> 0 < len < 1073741824 -> 48 * P + len < 2 ^ (long_bits dm - 1) ->
  let bytes := BYTES_PER_SECTION dm P in (q ← div_long (sL dm (sL dm (len + bytes) - 1)) bytes; mret (s32 q)) = Ok ((len - 1) / (48 * P) + 1).
Proof.
  intros HP Hlen Hb. cbv zeta. assert (forall x, 0 <= x < 2 ^ (long_bits dm - 1) -> sL dm x = x) as Hid by (intros x Hx; apply wrapS_id; [destruct dm; cbn; lia|unfold inS; lia]).
  unfold BYTES_PER_SECTION, LINE_LEN, div_long. rewrite (Hid (48 * P)), (Hid (len + 48 * P)), (Hid (len + 48 * P - 1)) by lia. destruct (Z.eqb_spec (48 * P) 0); [lia|]. cbn [mbind res_bind mret res_ret]. rewrite ceil_quot by lia. f_equal.
  assert (0 <= (len - 1) / (48 * P) <= len - 1) by (split; [apply Z.div_pos; lia|apply Z.div_le_upper_bound; nia]). apply wrapS_id; [lia|]. unfold inS. change (2 ^ (32 - 1)) with 2147483648. lia.
Qed.

Lemma section_count_ok dm b P len : 0 <= P -> 0 < len < 1073741824 -> 48 * P + len < 2 ^ (long_bits dm - 1) -> exists N P', section_count dm b P len = Ok (N, P') /\ 1 <= N <= 99 /\ (N = 1 \/ 0 < P' /\ 48 * P' * (N - 1) <= len).
Proof.
  intros HP Hlen Hb. unfold section_count. destruct b; [exists 1, P; split; [reflexivity|]; split; [lia|now left]|]. destruct (Z.eqb_spec P 0) as [->|HP0]; [exists 1, 0; split; [reflexivity|]; split; [lia|now left]|]. cbn [orb].
  assert (forall Q, 0 < Q -> 48 * Q * ((len - 1) / (48 * Q)) <= len) as Hle by (intros Q HQ; pose proof (Z.mul_div_le (len - 1) (48 * Q) ltac:(lia)); lia).
  assert (forall Q, 0 < Q -> 0 <= (len - 1) / (48 * Q)) as H0 by (intros Q HQ; apply Z.div_pos; lia).
  pose proof (count_parts dm P len ltac:(lia) Hlen Hb) as E. cbv zeta in E |- *. destruct (div_long _ (BYTES_PER_SECTION dm P)) as [q|]; [|discriminate E]. cbn [mbind res_bind mret res_ret] in E |- *. injection E as ->.
  destruct (Z.ltb_spec 99 ((len - 1) / (48 * P) + 1)) as [H99|H99].
  - assert (2 ^ 31 <= 2 ^ (long_bits dm - 1)) as Hlb by (apply Z.pow_le_mono_r; [lia|destruct dm; cbn; lia]). change (2 ^ 31) with 2147483648 in Hlb.
    assert (forall x, 0 <= x < 2147483648 -> sL dm x = x /\ s32 x = x) as Hid by (intros x Hx; split; (apply wrapS_id; [destruct dm; cbn; lia|unfold inS; change (2 ^ (32 - 1)) with 2147483648; lia])).
    assert (s32 (Z.quot (sL dm (Z.quot (sL dm (sL dm (len + LINE_LEN) - 1)) LINE_LEN + 98)) 99) = ((len + 47) / 48 + 98) / 99) as ->.
    { unfold LINE_LEN. rewrite (proj1 (Hid (len + 48) ltac:(lia))), (proj1 (Hid (len + 48 - 1) ltac:(lia))). replace (len + 48 - 1) with (len + 47) by lia. rewrite (Z.quot_div_nonneg (len + 47) 48) by lia.
      assert (0 <= (len + 47) / 48 <= len + 47) by dlia. rewrite (proj1 (Hid ((len + 47) / 48 + 98) ltac:(lia))), Z.quot_div_nonneg by lia. apply Hid. dlia. }
    set (Q := ((len + 47) / 48 + 98) / 99). assert (len <= 48 * 99 * Q /\ 0 < Q /\ 4752 * Q <= len + 4751) as (HQ1 & HQ2 & HQ3) by (unfold Q; clear - Hlen; split; [|split]; dlia).
    pose proof (count_parts dm Q len HQ2 Hlen ltac:(lia)) as E. cbv zeta in E |- *. destruct (div_long _ (BYTES_PER_SECTION dm Q)) as [q'|]; [|discriminate E]. cbn [mbind res_bind mret res_ret] in E |- *. injection E as ->.
    eexists _, _. split; [reflexivity|]. split; [split; [pose proof (H0 Q HQ2); lia|]|right; split; [exact HQ2|]; replace ((len - 1) / (48 * Q) + 1 - 1) with ((len - 1) / (48 * Q)) by lia; apply Hle, HQ2].
    assert ((len - 1) / (48 * Q) < 99); [|lia]. apply Z.div_lt_upper_bound; lia.
  - exists ((len - 1) / (48 * P) + 1), P. split; [reflexivity|]. split; [pose proof (H0 P ltac:(lia)); lia|]. right. split; [lia|]. replace ((len - 1) / (48 * P) + 1 - 1) with ((len - 1) / (48 * P)) by lia. apply Hle. lia.
Qed.

(** The header lines that armor_file writes are headers. *)
Definition header_value (s : list Z) : Prop := match s with c :: cs => text c /\ c <> 32 /\ Forall text cs | [] => False end.
#[global] Instance header_value_dec s : Decision (header_value s).
Proof. destruct s; unfold header_value; apply _. Defined.

Lemma header_value_line s label : header_value s -> label = codes "Version: " \/ label = codes "Comment: " \/ label = codes "Charset: " /\ (length s <= 15)%nat -> header (label ++ s).
Proof. intros Hs Hl. destruct s as [|c cs]; [destruct Hs|]. destruct Hs as (H1 & H2 & H3). exists c, cs. destruct Hl as [-> |[-> |[-> Hl]]]; auto 8. Qed.

Lemma headers_ok version charset comment (signed : bool) : header_value version -> (signed = true -> header_value charset /\ (length charset <= 15)%nat) -> comment = [] \/ header_value comment -> Forall header (header_lines version charset comment signed).
Proof.
  intros Hv Hs Hc. unfold header_lines. apply Forall_app. split; [apply Forall_cons_2; [apply header_value_line; auto|constructor]|]. apply Forall_app. split.
  - destruct signed; [|constructor]. destruct (Hs eq_refl). apply Forall_cons_2; [apply header_value_line; auto|constructor].
  - destruct comment as [|c cs] eqn:E; [constructor|]. rewrite <- E in *. destruct Hc as [Hc|Hc]; [congruence|]. apply Forall_cons_2; [apply header_value_line; auto|constructor].
Qed.

(** The parts are decoded from the lines of the first one on. *)
Lemma decode_files dm fopen crctable g name_of N (L : nat) m signed a w head t0 fs : sized g -> crc_table dm crctable -> Forall (inU 8) m -> 1 <= N <= 99 ->
  (forall k, 1 <= k < N -> open_next fopen (name_of k) = Ok (name_of (k + 1), fopen (name_of (k + 1)))) ->
  part_files N name_of (last_line N (blocktype m signed)) L (Z.to_nat (N - 1)) 1 (name_of 1) head m = (name_of 1, head ++ t0) :: fs -> agrees fopen fs ->
  exists F d, (forall fuel, (F <= fuel)%nat -> armordecode dm fopen crctable g fuel t0 w a (name_of 1) = Ok (0, d)) /\ out d = m /\ charset_header (vars d) = charset_header a.
Proof.
  intros Hg Ht HF HN Hname Ep Hag. destruct (part_files_head N name_of (last_line N (blocktype m signed)) L (Z.to_nat (N - 1)) 1 (name_of 1) head m) as (t & fs' & Eh & Eh'). rewrite Eh in Ep. assert (t = t0 /\ fs' = fs) as [-> ->] by (split; [apply (app_inv_head head)|]; congruence).
  set (d := start g t0 w a (name_of 1)). pose proof (start_shape g t0 w a (name_of 1) Hg) as Hd. fold d in Hd.
  destruct (last_line_ok N m signed (Decoder [] [] [] [] 0 N N false 0 0 0 [] 0 (vars d) []) HN (or_intror eq_refl)) as (s2 & E2 & B2). rewrite E2 in Eh'.
  destruct (decode_parts dm fopen N name_of s2 L (Z.to_nat (N - 1)) ltac:(lia) Hname d 1 m t0 fs Hd eq_refl eq_refl ltac:(lia) ltac:(lia) eq_refl HF) as (F & d' & Ed & O).
  - intros H0. assert (N = 1) as -> by lia. destruct (last_line_ok 1 m signed d ltac:(lia) (or_introl eq_refl)) as (s3 & E3 & B3). rewrite E2 in E3. apply app_inj_tail in E3 as [-> _]. exact B3.
  - intros _. split; [cbn; lia|exact B2].
  - exact Eh'.
  - exact Hag.
  - reflexivity.
  - exists F, d'. split; [|exact O]. intros fuel Hf. rewrite (armordecode_start dm fopen crctable g fuel t0 w a (name_of 1) Ht). exact (Ed fuel Hf).
Qed.

(** C4: For every non-empty message of less than 2^30 bytes, every number of lines per part
    that is not negative and whose bytes, with those of the message, fit a long, and every name
    of 2 to 255 characters, armor_file writes one file or up to 99 numbered ones, and whenever
    they can be opened under their names, de-armouring the first one finds the others in turn,
    returns 0 and puts out the message; the fuel needed exists whatever the arrays held before.
    The header lines are those of a version and a comment of one line. *)
Theorem armor_roundtrip dm fopen version charset comment pem_lines to_stdout name t1 t2 junk g language cs m a :
  header_value version -> comment = [] \/ header_value comment -> 0 <= pem_lines -> 48 * pem_lines + Z.of_nat (length m) < 2 ^ (long_bits dm - 1) -> Z.of_nat (length m) < 1073741824 -> (2 <= length name < 256)%nat -> crc_table dm t1 -> crc_table dm t2 -> length junk = 80%nat -> sized g -> Forall (inU 8) m -> m <> [] -> fresh a ->
  exists first text rest, armor_file dm version charset comment pem_lines to_stdout name t1 junk m None = Ok ((first, text) :: rest) /\
    (Forall (fun f => fopen (fst f) = Some (snd f)) ((first, text) :: rest) -> exists F line, forall fuel, (F <= fuel)%nat -> darmor_file dm fopen t2 g language cs fuel first a = Ok (0, m, None, line)).
Proof.
  intros Hv Hc HP Hlong H30 Hname Ht1 Ht2 Hj Hg HF Hne Ha. unfold armor_file. assert (0 < Z.of_nat (length m)) as Hm by (destruct m; [contradiction|cbn [length]; lia]). destruct (section_count_ok dm to_stdout pem_lines (Z.of_nat (length m)) HP (conj Hm H30) Hlong) as (N & P & -> & HN & HNP). cbn [mbind res_bind].
  assert (exists name_of, (if 1 <? N then numFilename name 1 N else mret name) = Ok (name_of 1) /\ (forall k, 2 <= k <= N -> numFilename (name_of 1) k N = Ok (name_of k)) /\ (forall k, 1 <= k < N -> open_next fopen (name_of k) = Ok (name_of (k + 1), fopen (name_of (k + 1)))) /\ Z.of_nat (length (name_of 1)) < 256) as (name_of & -> & Hn & Ho & Hlen).
  { destruct (Z.ltb_spec 1 N) as [H1|H1]; [|exists (fun _ => name); split; [reflexivity|]; split; [intros k Hk; lia|]; split; [intros k Hk; lia|lia]].
    exists (fun k => part_name name k N). split; [apply numFilename_ok; lia|]. split; [|split; [intros k Hk; apply open_next_ok; lia|unfold part_name; destruct (N <? 10); rewrite length_app, length_take; cbn [length two_digits]; lia]]. intros k Hk. assert (length (part_name name 1 N) = length name /\ part_name (part_name name 1 N) k N = part_name name k N) as [El Ek].
    { unfold part_name. destruct (N <? 10).
      - rewrite length_app, length_take. cbn [length]. split; [lia|]. rewrite take_app_le, take_take, Nat.min_l by (rewrite ?length_take; lia). do 2 f_equal. lia.
      - rewrite length_app, length_take. cbn [length two_digits]. split; [lia|]. rewrite take_app_le, take_take, Nat.min_l by (rewrite ?length_take; lia). do 2 f_equal. lia. }
    rewrite numFilename_ok by lia. rewrite Ek. reflexivity. }
  cbn [mbind res_bind]. pose proof (armor_sections_ok dm version charset comment N P (name_of 1) name_of (Z.to_nat P) t1 junk m None junk [] Ht1 (conj eq_refl eq_refl) Hj HF ltac:(lia) Hn ltac:(destruct HNP as [|[H0 _]]; [left; assumption|right; lia]) ltac:(destruct HNP as [->|[H0 H1]]; [cbn; lia|nia])) as E. cbv zeta in E. cbn [app] in E. rewrite E.
  set (head := first_line N (blocktype m false) ++ unlines (header_lines version charset comment false) ++ [10]).
  destruct (part_files_head N name_of (last_line N (blocktype m false)) (48 * Z.to_nat P) (Z.to_nat (N - 1)) 1 (name_of 1) head m) as (t & fs & Eh & _). rewrite Eh. eexists _, _, _. split; [reflexivity|].
  intros Hag. apply Forall_cons_1 in Hag as [Hopen Hag]. cbn [fst snd] in Hopen. destruct (first_line_ok N m false HN) as (s1 & E1 & B1). unfold head in Hopen. rewrite E1, <- !app_assoc in Hopen. cbn [app] in Hopen.
  destruct (darmor_head dm fopen t2 g language cs s1 (header_lines version charset comment false) t (name_of 1) a Hg Hlen B1 (headers_ok version charset comment false Hv ltac:(discriminate) Hc) Ha Hopen) as (a' & E').
  destruct (decode_files dm fopen t2 g name_of N (48 * Z.to_nat P) m false a' 0 head t fs Hg Ht2 HF HN Ho Eh Hag) as (F & d & Ed & O & _). exists F, (infile_line (vars d)). intros fuel Hf. rewrite E', (Ed fuel Hf). cbn [mbind res_bind mret res_ret]. rewrite O. reflexivity.
Qed.

(** A message in three parts. *)
Definition file_of (fs : list (list Z * list Z)) (name : list Z) : option (list Z) := snd <$> List.find (fun f => bool_decide (fst f = name)) fs.
Definition sample_version : list Z := codes "2.6.3i".
Definition sample_vars : armor := Armor 0 false (replicate 16 0).
Definition files_of (r : res (list (list Z * list Z))) : list (list Z * list Z) := match r with Ok fs => fs | Err _ => [] end.
Definition sample_files : list (list Z * list Z) := files_of (armor_file LP64 sample_version [] [] 1 false (codes "m.asc") (replicate 256 0) (replicate 80 1) (seqZ 0 100) None).

(** An empty message that is put in a file has no parts, so that its one part is not the last one, and it cannot be read. *)
Example empty_message : let fs := files_of (armor_file LP64 sample_version [] [] 720 false (codes "m.asc") (replicate 256 0) (replicate 80 1) [] None) in
  (length fs, darmor_file LP64 (file_of fs) (replicate 256 0) no_garbage [] no_char_set 9 (codes "m.asc") sample_vars) = (1%nat, Ok (-1, [], None, 5)).
Proof. vm_compute. reflexivity. Qed.

(** A negative number of lines per part, which the configuration file can set, gives a negative number of parts, and what is written cannot be read. *)
Example negative_lines : let fs := files_of (armor_file LP64 sample_version [] [] (-1) false (codes "m.asc") (replicate 256 0) (replicate 80 1) (seqZ 0 100) None) in
  (section_count LP64 false (-1) 100, length fs, darmor_file LP64 (file_of fs) (replicate 256 0) no_garbage [] no_char_set 9 (codes "m.asc") sample_vars) = (Ok (-1, -1), 1%nat, Ok (-1, seqZ 0 100, None, 8)).
Proof. vm_compute. reflexivity. Qed.
(** With a long of 32 bits the bytes of a part wrap around: to a negative number, or to zero. *)
Example wrapped_lines : section_count ILP32 false 50000000 100 = Ok (0, 50000000) /\ section_count ILP32 false (2 ^ 28) 100 = Err DivByZero.
Proof. vm_compute. split; reflexivity. Qed.

Lemma armor_roundtrip_witness : exists F line, forall fuel, (F <= fuel)%nat -> darmor_file LP64 (file_of sample_files) (replicate 256 0) no_garbage [] no_char_set fuel (codes "m.as1") sample_vars = Ok (0, seqZ 0 100, None, line).
Proof.
  assert (header_value sample_version) as Hv by by_eval. assert (Forall (inU 8) (seqZ 0 100)) as HF by by_eval.
  destruct (armor_roundtrip LP64 (file_of sample_files) sample_version [] [] 1 false (codes "m.asc") (replicate 256 0) (replicate 256 0) (replicate 80 1) no_garbage [] no_char_set (seqZ 0 100) sample_vars
    Hv (or_introl eq_refl) ltac:(lia) ltac:(reflexivity) ltac:(reflexivity) ltac:(cbn; lia) (or_introl eq_refl) (or_introl eq_refl) eq_refl (conj eq_refl (conj eq_refl eq_refl)) HF ltac:(discriminate) (conj eq_refl eq_refl)) as (first & text & rest & E & H).
  assert (armor_file LP64 sample_version [] [] 1 false (codes "m.asc") (replicate 256 0) (replicate 80 1) (seqZ 0 100) None = Ok sample_files) as E' by (vm_compute; reflexivity).
  rewrite E' in E. assert (sample_files = (first, text) :: rest) as Es by congruence. assert (fst <$> List.hd_error sample_files = Some (codes "m.as1")) as Ef by (vm_compute; reflexivity). rewrite Es in Ef. cbn [List.hd_error fmap option_fmap option_map fst] in Ef. assert (first = codes "m.as1") as -> by congruence.
  apply H. rewrite <- Es. by_eval.
Defined.

(** C23: The checksum: when one byte of an armoured message, and its lines with it, is
    replaced by another, decoding returns -1; with the same byte it returns 0, and either way
    the bytes of the lines are put out; a name of 256 characters or more leaves the static array
    for it, which is an error of the model. *)
Theorem armor_detects dm fopen version charset comment name t g language cs u v (x y : Z) a : let m := u ++ x :: v in let m' := u ++ y :: v in
  header_value version -> comment = [] \/ header_value comment -> crc_table dm t -> sized g -> Forall (inU 8) m -> inU 8 y -> fresh a ->
  fopen name = Some (first_line 1 (codes "MESSAGE") ++ unlines (header_lines version charset comment false) ++ [10] ++ lines_text m' ++ crc_line (crc24 m CRCINIT) ++ [10] ++ last_line 1 (codes "MESSAGE")) ->
  exists F line, forall fuel, (F <= fuel)%nat -> darmor_file dm fopen t g language cs fuel name a =
    if Z.of_nat (length name) <? MAX_PATH then Ok (if x =? y then 0 else -1, m', None, line) else Err OutOfBounds.
Proof.
  intros m m' Hv Hc Ht Hg HF Hy Ha Hopen. unfold MAX_PATH. destruct (Z.ltb_spec (Z.of_nat (length name)) 256) as [Hname|Hname];
    [|exists 0%nat, 0; intros fuel _; unfold darmor_file, MAX_PATH; rewrite Hopen, (proj2 (Z.leb_le _ _) Hname); reflexivity].
  set (s1 := codes "-----BEGIN PGP MESSAGE-----"). set (s2 := codes "-----END PGP MESSAGE-----"). change (first_line 1 (codes "MESSAGE")) with (s1 ++ [10]) in Hopen. change (last_line 1 (codes "MESSAGE")) with (s2 ++ [10]) in Hopen. rewrite <- app_assoc in Hopen. cbn [app] in Hopen.
  assert (begin_line s1) as B1 by (split; [by_eval|]; split; [cbn; lia|]; split; [discriminate|]; split; intros post; reflexivity).
  destruct (darmor_head dm fopen t g language cs s1 (header_lines version charset comment false) _ name a Hg Hname B1 (headers_ok version charset comment false Hv ltac:(discriminate) Hc) Ha Hopen) as (a' & E).
  set (d := start g (lines_text m' ++ crc_line (crc24 m CRCINIT) ++ [10] ++ s2 ++ [10]) 0 a' name). pose proof (start_shape g (lines_text m' ++ crc_line (crc24 m CRCINIT) ++ [10] ++ s2 ++ [10]) 0 a' name Hg) as Hd. fold d in Hd.
  assert (ends d s2) as B2 by (split; [by_eval|]; split; [cbn; lia|]; split; [discriminate|]; split; [eexists; reflexivity|]; right; intros post; reflexivity).
  pose proof (proj1 (Forall_app _ _ _) HF) as [Fu Fv]. apply Forall_cons_1 in Fv as [Hx Fv]. assert (Forall (inU 8) m') as HF' by (apply Forall_app; split; [exact Fu|apply Forall_cons_2; assumption]).
  assert (0 <= CRCINIT < 2 ^ 24) as Hi by (unfold CRCINIT; lia). destruct (decode_last dm fopen d m' (crc24 m CRCINIT) s2 [] Hd eq_refl HF' (crc24_range m _ Hi) B2 eq_refl) as (F & d' & R & O & _). exists F, (infile_line (vars d')). intros fuel Hf.
  rewrite E, (armordecode_start dm fopen t g fuel _ 0 a' name Ht). change (start g _ 0 a' name) with d. rewrite (R fuel Hf). cbn [mbind res_bind mret res_ret ret_code d start]. rewrite O. cbn [out d start app].
  assert ((crc24 m CRCINIT =? crc24 m' CRCINIT) = (x =? y)) as ->; [|reflexivity]. destruct (Z.eqb_spec x y) as [->|Hne]; [apply Z.eqb_refl|]. apply Z.eqb_neq. intros Ec. exact (Hne (crc24_detects u x y v CRCINIT Hi Fu Fv Hx Hy Ec)).
Qed.

Lemma armor_detects_witness :
  let text := first_line 1 (codes "MESSAGE") ++ unlines (header_lines sample_version [] [] false) ++ [10] ++ lines_text [1; 2; 4; 5] ++ crc_line (crc24 [1; 2; 3; 5] CRCINIT) ++ [10] ++ last_line 1 (codes "MESSAGE") in
  exists F line, forall fuel, (F <= fuel)%nat -> darmor_file LP64 (fun _ => Some text) (replicate 256 0) no_garbage [] no_char_set fuel (codes "m.asc") sample_vars = Ok (-1, [1; 2; 4; 5], None, line).
Proof.
  intros text. assert (header_value sample_version) as Hv by by_eval. assert (Forall (inU 8) [1; 2; 3; 5]) as HF by by_eval. assert (inU 8 4) as Hy by by_eval.
  exact (armor_detects LP64 (fun _ => Some text) sample_version [] [] (codes "m.asc") (replicate 256 0) no_garbage [] no_char_set [1; 2] [5] 3 4 sample_vars Hv (or_introl eq_refl) (or_introl eq_refl) (conj eq_refl (conj eq_refl eq_refl)) HF Hy (conj eq_refl eq_refl) eq_refl).
Defined.
