(* ===== verification/ArmorClear.v ===== *)
(** Clear signed texts of pgp (armor_file and darmor_file of src/mibench/security/pgp/src/armor.c): the quoting of
    lines that begin with a dash is undone, and the text is put out in its canonical form, which is what was signed. *)
From stdpp Require Import base list numbers option tactics.
From Stdlib Require Import ZArith Lia.
From Stdlib Require Ascii String.
From S2P Require Import Prelude Bytes Crc24 Radix64 ArmorIo Charset Canonical ArmorEncode ArmorDecode ArmorTrip.
Import String.StringSyntax.

Section Lines.
Implicit Types (pre post s t f buf rest out : list Z) (a : armor).

(** What is read into the buffer while there is room. *)
Lemma getline_run s : forall pre post (n : nat) f, Forall text s -> (length s < n)%nat -> (length s <= length post)%nat ->
  getline_loop false (pre ++ post) (Z.of_nat (length pre)) (Z.of_nat n) (s ++ f) = getline_loop false (pre ++ s ++ drop (length s) post) (Z.of_nat (length pre + length s)) (Z.of_nat (n - length s)) f.
Proof.
  induction s as [|c s IH]; intros pre post n f HF Hn Hp; cbn [length app] in *; [rewrite Nat.add_0_r, Nat.sub_0_r; reflexivity|]. apply Forall_cons_1 in HF as [(Hc & H10 & H13) HF]. destruct post as [|x post]; [cbn in Hp; lia|]. cbn [getline_loop].
  rewrite (proj2 (Z.eqb_neq _ _) H10), (proj2 (Z.eqb_neq _ _) H13). destruct (Z.ltb_spec 0 (Z.of_nat n - 1)); [|lia]. rewrite aset_end. cbn [mbind res_bind].
  specialize (IH (pre ++ [c]) post (n - 1)%nat f HF ltac:(lia) ltac:(cbn in Hp; lia)). rewrite <- !app_assoc, length_app in IH. cbn [app length] in IH. replace (Z.of_nat (length pre + 1)) with (Z.of_nat (length pre) + 1) in IH by lia. replace (Z.of_nat (n - 1)) with (Z.of_nat n - 1) in IH by lia.
  rewrite IH. cbn [drop]. f_equal; lia.
Qed.

(** The rest of the input when a line [s] is at hand, followed by a newline or by the end of the file. *)
Definition line_rest s f : Z * list Z :=
  if (length s <=? 79)%nat then match f with [] => (match s with [] => -1 | _ => 0 end, []) | _ :: rest => (1, rest) end else (0, drop 79 s ++ f).
Definition line_end f : Prop := f = [] \/ exists rest, f = 10 :: rest.

Lemma getline_ok buf s f : length buf = 80%nat -> Forall text s -> line_end f -> exists post, length (take 79 s ++ 0 :: post) = 80%nat /\ getline buf MAX_LINE_SIZE (s ++ f) = Ok (fst (line_rest s f), take 79 s ++ 0 :: post, snd (line_rest s f)).
Proof.
  intros Hb HF Hf. unfold getline, MAX_LINE_SIZE. assert (s ++ f = take 79 s ++ drop 79 s ++ f) as -> by (rewrite app_assoc, take_drop; reflexivity). assert (length (take 79 s) <= 79)%nat as Ht by (rewrite length_take; lia).
  pose proof (getline_run (take 79 s) [] buf 80 (drop 79 s ++ f) (Forall_take _ _ _ HF) ltac:(lia) ltac:(lia)) as E. change (Z.of_nat (length [])) with 0 in E. change (Z.of_nat 80) with 80 in E. rewrite !app_nil_l in E. rewrite E. cbn [length Nat.add].
  destruct (drop (length (take 79 s)) buf) as [|x post] eqn:Ed; [apply (f_equal length) in Ed; rewrite length_drop in Ed; cbn in Ed; lia|]. exists post. split; [apply (f_equal length) in Ed; rewrite length_drop in Ed; rewrite length_app; cbn [length] in *; lia|].
  unfold line_rest. destruct (Nat.leb_spec (length s) 79) as [Hl|Hl].
  - rewrite drop_ge by lia. cbn [app]. destruct Hf as [-> |(rest & ->)]; cbn [getline_loop]; rewrite aset_end; cbn [mbind res_bind]; [|reflexivity]. rewrite take_ge by lia. destruct s; reflexivity.
  - assert (length (take 79 s) = 79)%nat as El by (rewrite length_take; lia). rewrite El. destruct (drop 79 s) as [|c r] eqn:Er; [apply (f_equal length) in Er; rewrite length_drop in Er; cbn in Er; lia|]. cbn [app getline_loop]. assert (text c) as (_ & H10 & H13) by (apply (Forall_drop _ 79) in HF; rewrite Er in HF; apply Forall_cons_1 in HF as [? _]; assumption).
    rewrite (proj2 (Z.eqb_neq _ _) H10), (proj2 (Z.eqb_neq _ _) H13). change (0 <? Z.of_nat (80 - 79) - 1) with false. cbn iota. pose proof (aset_end (take 79 s) x post 0) as Ea. rewrite El in Ea. rewrite Ea. reflexivity.
Qed.

Lemma copyline_ok s : forall out rest, Forall text s -> copyline (s ++ 10 :: rest) out = (1, rest, out ++ s) /\ copyline s out = (0, [], out ++ s).
Proof.
  unfold copyline. induction s as [|c s IH]; intros out rest HF; [rewrite app_nil_r; split; reflexivity|]. apply Forall_cons_1 in HF as [(Hc & H10 & H13) HF]. cbn [app copyline_loop]. rewrite (proj2 (Z.eqb_neq _ _) H10), (proj2 (Z.eqb_neq _ _) H13). destruct (IH (out ++ [c]) rest HF) as [-> ->]. rewrite <- app_assoc. split; reflexivity.
Qed.

(** A line is quoted when it begins with a dash, or as the mail format demands. *)
Definition mark s : list Z := if (nth 0 s 0 =? 45) || bool_decide (take 5 s = codes "From ") then codes "- " else [].
Definition quoted s : list Z := mark s ++ s.
(** Lines, with newlines between them. *)
Definition join s (ss : list (list Z)) : list Z := s ++ mjoin ((fun l => 10 :: l) <$> ss).
Lemma join_cons s s' ss : join s (s' :: ss) = s ++ 10 :: join s' ss.
Proof. reflexivity. Qed.
Lemma join_last s : join s [] = s.
Proof. apply app_nil_r. Qed.

Lemma quoted_cases s : quoted s = [] /\ s = [] \/ (exists c t, quoted s = c :: t /\ s = c :: t /\ c <> 45) \/ quoted s = 45 :: 32 :: s.
Proof.
  unfold quoted, mark. destruct ((nth 0 s 0 =? 45) || bool_decide (take 5 s = codes "From ")) eqn:E; [right; right; reflexivity|]. apply orb_false_elim in E as [E _]. destruct s as [|c t]; [left; split; reflexivity|]. right. left. exists c, t. split; [reflexivity|]. split; [reflexivity|]. apply Z.eqb_neq, E.
Qed.
Lemma quoted_text s : Forall text s -> Forall text (quoted s).
Proof. intros HF. unfold quoted, mark. apply Forall_app. split; [|exact HF]. destruct (_ || _); by_eval. Qed.

Lemma from_line s post : Forall text s -> starts (codes "From ") (take 79 s ++ 0 :: post) = bool_decide (take 5 s = codes "From ").
Proof.
  intros HF. unfold starts. change (length (codes "From ")) with 5%nat. destruct (Nat.le_gt_cases 5 (length s)) as [H|H]; [rewrite take_app_le, take_take by (rewrite length_take; lia); reflexivity|].
  rewrite (take_ge s 79), (take_ge s 5) by lia. rewrite !bool_decide_eq_false_2; [reflexivity| |]; intros E.
  - rewrite E in H. cbn in H. lia.
  - assert (take 5 (s ++ 0 :: post) !! length s = Some 0) as E0 by (rewrite lookup_take_lt by lia; rewrite lookup_app_r, Nat.sub_diag by lia; reflexivity). rewrite E in E0. apply list_elem_of_lookup_2 in E0. rewrite list_elem_of_In in E0. cbn in E0. repeat destruct E0 as [E0|E0]; (discriminate E0 || exact E0).
Qed.

(** One line of the text is put out, quoted. *)
Lemma clear_line fuel buf s f out : length buf = 80%nat -> Forall text s -> line_end f -> exists b, length b = 80%nat /\
  clear_loop (S fuel) buf (s ++ f) out = match f with [] => Ok (b, out ++ quoted s) | _ :: rest => clear_loop fuel b rest (out ++ quoted s ++ [10]) end.
Proof.
  intros Hb HF Hf. destruct (getline_ok buf s f Hb HF Hf) as (post & Hp & E). exists (take 79 s ++ 0 :: post). split; [exact Hp|]. cbn [clear_loop]. rewrite E. cbn [mbind res_bind].
  assert (aget (take 79 s ++ 0 :: post) 0 = Ok (nth 0 s 0)) as E0 by (destruct s; reflexivity). rewrite E0, (cstr_ok _ post (Forall_take _ 79 _ HF)), (from_line s post HF). cbn [mbind res_bind]. fold (mark s). unfold line_rest.
  destruct (Nat.leb_spec (length s) 79) as [Hl|Hl].
  - rewrite (take_ge s 79) by lia. destruct Hf as [-> |(rest & ->)]; cbn [fst snd].
    + destruct s as [|c s]; [change (mark []) with (@nil Z); rewrite !app_nil_r; reflexivity|]. change (0 <? 0) with false. change (0 =? 0) with true. cbn iota. change (copyline [] ?o) with (0, @nil Z, o). reflexivity.
    + change (1 <? 0) with false. change (1 =? 0) with false. cbn iota. unfold quoted. rewrite <- !app_assoc. reflexivity.
  - cbn [fst snd]. change (0 <? 0) with false. change (0 =? 0) with true. cbn iota. destruct Hf as [-> |(rest & ->)].
    + rewrite app_nil_r, (proj2 (copyline_ok (drop 79 s) _ [] (Forall_drop _ _ _ HF))). unfold quoted. rewrite <- !app_assoc, take_drop. reflexivity.
    + rewrite (proj1 (copyline_ok (drop 79 s) _ rest (Forall_drop _ _ _ HF))). change (1 <=? 0) with false. cbn iota. unfold quoted. rewrite <- !app_assoc, (app_assoc (take 79 s)), take_drop. reflexivity.
Qed.

Lemma clear_loop_ok ss : forall s fuel buf out, length buf = 80%nat -> Forall text s -> Forall (Forall text) ss -> (length ss < fuel)%nat ->
  exists b, length b = 80%nat /\ clear_loop fuel buf (join s ss) out = Ok (b, out ++ join (quoted s) (quoted <$> ss)).
Proof.
  induction ss as [|s' ss IH]; intros s fuel buf out Hb HF HFs Hf; (destruct fuel as [|fuel]; [cbn in Hf; lia|]).
  - rewrite join_last. destruct (clear_line fuel buf s [] out Hb HF (or_introl eq_refl)) as (b & Hb' & E). rewrite app_nil_r in E. exists b. split; [exact Hb'|]. rewrite E. change (quoted <$> []) with (@nil (list Z)). rewrite join_last. reflexivity.
  - apply Forall_cons_1 in HFs as [HF' HFs]. rewrite join_cons, fmap_cons, join_cons. destruct (clear_line fuel buf s (10 :: join s' ss) out Hb HF (or_intror (ex_intro _ _ eq_refl))) as (b1 & Hb1 & ->). cbn [length] in Hf. destruct (IH s' fuel b1 (out ++ quoted s ++ [10]) Hb1 HF' HFs ltac:(lia)) as (b & Hb' & ->). exists b. split; [exact Hb'|]. rewrite <- !app_assoc. reflexivity.
Qed.
End Lines.

(** * Reading the text *)

Section Reading.
Implicit Types (s t f buf rest lit : list Z) (a : armor).

(** One line of the text is read, without its quotes. *)
Lemma literal_line fuel (status : Z) a buf s rest lit : length buf = 80%nat -> Forall text s -> exists b, length b = 80%nat /\
  literal_loop (S fuel) status a buf (quoted s ++ 10 :: rest) lit = literal_loop fuel 1 (next_line a) b rest (lit ++ (if status =? 0 then [] else [10]) ++ s).
Proof.
  intros Hb HF. destruct (getline_ok buf (quoted s) (10 :: rest) Hb (quoted_text s HF) (or_intror (ex_intro _ _ eq_refl))) as (post & Hp & E). exists (take 79 (quoted s) ++ 0 :: post). split; [exact Hp|]. cbn [literal_loop]. rewrite E. cbn [mbind res_bind].
  assert (0 <= fst (line_rest (quoted s) (10 :: rest)) <= 1) as Hst by (unfold line_rest; destruct (length (quoted s) <=? 79)%nat; cbn; lia). destruct (Z.ltb_spec (fst (line_rest (quoted s) (10 :: rest))) 0); [lia|].
  assert (forall u lit', Forall text u -> (if fst (line_rest u (10 :: rest)) =? 0 then copyline (snd (line_rest u (10 :: rest))) lit' else (fst (line_rest u (10 :: rest)), snd (line_rest u (10 :: rest)), lit')) = (1, rest, lit' ++ drop 79 u)) as Hcopy.
  { intros u lit' Hu. unfold line_rest. destruct (Nat.leb_spec (length u) 79); cbn [fst snd]; [rewrite drop_ge, app_nil_r by lia; reflexivity|]. change (0 =? 0) with true. cbn iota. apply copyline_ok, Forall_drop, Hu. }
  pose proof (Hcopy (quoted s)) as Hq. specialize (fun lit' => Hq lit' (quoted_text s HF)). destruct (quoted_cases s) as [[Eq ->]|[(c & t & Eq & -> & Hne)|Eq]].
  - rewrite Eq in *. cbn [take app]. cbn [starts]. assert (starts (codes "-----BEGIN PGP ") (0 :: post) = false) as -> by (apply bool_decide_eq_false_2; discriminate). cbn [aget mbind res_bind]. change (aget (0 :: post) 0) with (Ok 0). cbn [mbind res_bind]. change (0 =? 45) with false. cbn [andb mret res_ret mbind res_bind drop cstr]. change (0 =? 0) with true. cbn iota. cbn [mret res_ret mbind res_bind]. rewrite Hq. cbn [drop]. rewrite !app_nil_r. reflexivity.
  - rewrite Eq in *. assert (starts (codes "-----BEGIN PGP ") (take 79 (c :: t) ++ 0 :: post) = false) as -> by (apply bool_decide_eq_false_2; intros E'; injection E' as E' _; contradiction). change (aget (take 79 (c :: t) ++ 0 :: post) 0) with (Ok c). cbn [mbind res_bind]. rewrite (proj2 (Z.eqb_neq _ _) Hne). cbn [andb mret res_ret mbind res_bind]. change (drop 0 ?l) with l.
    rewrite (cstr_ok _ post (Forall_take _ 79 _ HF)). cbn [mbind res_bind]. rewrite Hq, <- !app_assoc, take_drop. reflexivity.
  - rewrite Eq in *. assert (starts (codes "-----BEGIN PGP ") (take 79 (45 :: 32 :: s) ++ 0 :: post) = false) as -> by (apply bool_decide_eq_false_2; intros E'; injection E' as E' _; discriminate E'). change (aget (take 79 (45 :: 32 :: s) ++ 0 :: post) 0) with (Ok 45). cbn [mbind res_bind]. change (45 =? 45) with true. cbn iota.
    change (aget (take 79 (45 :: 32 :: s) ++ 0 :: post) 1) with (Ok 32). cbn [mbind res_bind]. change (true && (32 =? 32)) with true. cbn iota. change (drop 2 (take 79 (45 :: 32 :: s) ++ 0 :: post)) with (take 77 s ++ 0 :: post).
    rewrite (cstr_ok _ post (Forall_take _ 77 _ HF)). cbn [mbind res_bind]. rewrite Hq. change (drop 79 (45 :: 32 :: s)) with (drop 77 s). rewrite <- !app_assoc, take_drop. reflexivity.
Qed.

(** The line that begins the signature ends the text. *)
Lemma literal_end fuel (status : Z) a buf bl rest lit : length buf = 80%nat -> begin_line bl -> exists b, length b = 80%nat /\ literal_loop (S fuel) status a buf (bl ++ 10 :: rest) lit = Ok (true, next_line a, b, rest, lit).
Proof.
  intros Hb (T & Hl & _ & B1 & _). destruct (getline_ok buf bl (10 :: rest) Hb T (or_intror (ex_intro _ _ eq_refl))) as (post & Hp & E). exists (take 79 bl ++ 0 :: post). split; [exact Hp|]. cbn [literal_loop]. rewrite E. cbn [mbind res_bind]. unfold line_rest. destruct (Nat.leb_spec (length bl) 79); [|lia]. cbn [fst snd]. change (1 <? 0) with false. cbn iota.
  rewrite (take_ge bl 79), B1 by lia. reflexivity.
Qed.

Lemma literal_loop_ok ss : forall s fuel (status : Z) a buf bl rest lit, length buf = 80%nat -> Forall text s -> Forall (Forall text) ss -> begin_line bl -> (length ss + 1 < fuel)%nat ->
  exists b a', length b = 80%nat /\ (charset_header a', use_charset_header a') = (charset_header a, use_charset_header a) /\ literal_loop fuel status a buf (join (quoted s) (quoted <$> ss) ++ 10 :: bl ++ 10 :: rest) lit = Ok (true, a', b, rest, lit ++ (if status =? 0 then [] else [10]) ++ join s ss).
Proof.
  induction ss as [|s' ss IH]; intros s fuel status a buf bl rest lit Hb HF HFs Hbl Hf; (destruct fuel as [|fuel]; [lia|]).
  - change (quoted <$> []) with (@nil (list Z)). rewrite !join_last. destruct (literal_line fuel status a buf s (bl ++ 10 :: rest) lit Hb HF) as (b1 & Hb1 & ->). destruct fuel as [|fuel]; [cbn in Hf; lia|]. destruct (literal_end fuel 1 (next_line a) b1 bl rest (lit ++ (if status =? 0 then [] else [10]) ++ s) Hb1 Hbl) as (b & Hb' & ->). exists b, (next_line (next_line a)). auto.
  - apply Forall_cons_1 in HFs as [HF' HFs]. rewrite fmap_cons, !join_cons, <- app_assoc. cbn [app]. destruct (literal_line fuel status a buf s (join (quoted s') (quoted <$> ss) ++ 10 :: bl ++ 10 :: rest) lit Hb HF) as (b1 & Hb1 & ->). cbn [length] in Hf.
    destruct (IH s' fuel 1 (next_line a) b1 bl rest (lit ++ (if status =? 0 then [] else [10]) ++ s) Hb1 HF' HFs Hbl ltac:(lia)) as (b & a' & Hb' & Ha' & ->). exists b, a'. split; [exact Hb'|]. split; [exact Ha'|]. change (1 =? 0) with false. cbn iota. rewrite <- !app_assoc. reflexivity.
Qed.

Lemma length_join ss : forall s, (length ss <= length (join s ss))%nat.
Proof. induction ss as [|s' ss IH]; intros s; [cbn; lia|]. rewrite join_cons, length_app. cbn [length]. specialize (IH s'). lia. Qed.

(** Up to the first line of data, with a clear text. *)
Lemma darmor_clear_head dm fopen table g language cs s ss bl v c others rest name a : sized g -> Z.of_nat (length name) < 256 -> Forall text s -> Forall (Forall text) ss -> begin_line bl -> fresh a ->
  header v -> nth 1 v 0 <> 104 -> header (codes "Charset: " ++ c) -> (length c <= 15)%nat -> c !! (length c - 1)%nat <> Some 32 -> Forall header others -> Forall (fun l => nth 1 l 0 <> 104) others ->
  fopen name = Some (codes "-----BEGIN PGP SIGNED MESSAGE-----" ++ [10; 10] ++ join (quoted s) (quoted <$> ss) ++ [10] ++ bl ++ 10 :: unlines (v :: (codes "Charset: " ++ c) :: others) ++ 10 :: rest) ->
  exists a', (if use_charset_header a then cstr (charset_header a') = Ok c else aget (charset_header a') 0 = Ok 0) /\
    forall fuel, darmor_file dm fopen table g language cs fuel name a =
      ('(status, d) ← armordecode dm fopen table g fuel rest 0 a' name; '(canonfile, out) ← glue_literal dm language cs (vars d) (join s ss) (out d); mret (status, out, Some canonfile, infile_line (vars d))).
Proof.
  intros (G1 & _) Hname HF HFs Hbl [Ha Hc] Hv Nv Hcs Hcl Hclast Ho No Hf. set (hs := v :: (codes "Charset: " ++ c) :: others) in Hf. set (body := join (quoted s) (quoted <$> ss) ++ 10 :: bl ++ 10 :: unlines hs ++ 10 :: rest). set (l1 := codes "-----BEGIN PGP SIGNED MESSAGE-----").
  change (codes "-----BEGIN PGP SIGNED MESSAGE-----" ++ [10; 10] ++ join (quoted s) (quoted <$> ss) ++ [10] ++ bl ++ 10 :: unlines hs ++ 10 :: rest) with (l1 ++ 10 :: [] ++ 10 :: body) in Hf.
  destruct (get_line_ok (g_inbuf g) l1 ([] ++ 10 :: body) G1 ltac:(by_eval) ltac:(cbn; lia) ltac:(discriminate)) as (p1 & E1 & L1). destruct (get_line_ok (l1 ++ 0 :: p1) [] body L1 (Forall_nil_2 _) ltac:(cbn; lia) ltac:(discriminate)) as (p2 & E2 & L2).
  destruct (charset_header a) as [|h0 h] eqn:Eh; [discriminate Hc|]. set (a2 := set_charset (next_line a) (0 :: h)).
  assert (length ss + 1 < S (length body))%nat as Hfuel by (unfold body; rewrite length_app; cbn [length]; pose proof (length_join (quoted <$> ss) (quoted s)); rewrite length_fmap in *; lia).
  destruct (literal_loop_ok ss s (S (length body)) 0 a2 ([] ++ 0 :: p2) bl (unlines hs ++ 10 :: rest) [] L2 HF HFs Hbl Hfuel) as (b & a3 & Lb & Ea3 & El). change (if 0 =? 0 then @nil Z else [10]) with (@nil Z) in El. rewrite !app_nil_l in El. fold body in El. injection Ea3 as Ec3 Eu3.
  destruct (skipheaders_signed v c others a3 0 b rest Lb ltac:(rewrite Ec3; exact Hc) Hv Nv Hcs Hcl Hclast Ho No) as (b4 & a4 & _ & Esk & V). fold hs in Esk. rewrite Eu3, Ec3 in V.
  exists a4. split; [change (use_charset_header a2) with (use_charset_header a) in V; destruct (use_charset_header a); [exact V|rewrite V; reflexivity]|]. intros fuel. unfold darmor_file, MAX_PATH. rewrite Hf, Ha. destruct (Z.leb_spec 256 (Z.of_nat (length name))); [lia|]. change (Z.to_nat 0) with 0%nat. cbn [skip_lines mbind res_bind mret res_ret negb find_begin]. rewrite E1. cbn [mbind res_bind negb].
  assert (starts (codes "-----BEGIN PGP ") (l1 ++ 0 :: p1) = true) as -> by reflexivity. cbn [mret res_ret mbind res_bind negb]. assert (starts (codes "-----BEGIN PGP SIGNED MESSAGE-----") (l1 ++ 0 :: p1) = true) as -> by reflexivity.
  cbn [next_line charset_header]. rewrite Eh. change (aset (h0 :: h) 0 0) with (Ok (0 :: h)). cbn [mbind res_bind]. fold (next_line a). fold a2. rewrite E2. cbn [mbind res_bind negb]. change (aget ([] ++ 0 :: p2) 0) with (Ok 0). cbn [mbind res_bind]. change (negb (0 =? 0)) with false. cbn iota.
  change ([] ++ 0 :: p2) with (0 :: p2). rewrite El. cbn [mbind res_bind mret res_ret negb]. change (negb (0 =? 0)) with false. cbn iota. rewrite Esk. cbn [mbind res_bind]. change (0 <? 0) with false. reflexivity.
Qed.

(** The literal packet for a text; the time stamp takes as many bytes as a long. *)
Definition literal_packet (dm : data_model) t : list Z := packet_header CTB_LITERAL2_TYPE (Z.of_nat (length t) + 6) ++ [116; 0] ++ replicate (Z.to_nat (long_bits dm / 8)) 0 ++ t.

Lemma glue_ok dm language cs T c (use : bool) a lit out : (if use then cstr (charset_header a) = Ok c /\ c <> [] /\ T = init_charset language c else aget (charset_header a) 0 = Ok 0 /\ T = cs) ->
  char_set_ok T -> Forall (inU 8) lit -> Z.of_nat (length lit) < 1073741824 -> canonical_fits lit = true ->
  glue_literal dm language cs a lit out = Ok (canonical_text T lit, out ++ literal_packet dm (canonical_text T lit)).
Proof.
  intros Hh HT HF Hl Hfit. unfold glue_literal. set (r := h0 ← aget (charset_header a) 0; _).
  assert (r = (canonfile ← make_canonical dm T true lit; out ← write_ctb_len out CTB_LITERAL2_TYPE (uL dm (Z.of_nat (length canonfile) + 6)) false; out ← copyfile dm T NO_CONV canonfile (out ++ [MODE_TEXT] ++ [0] ++ replicate (Z.to_nat (long_bits dm / 8)) 0) (uL dm (-1)); mret (canonfile, out))) as ->.
  { unfold r. destruct use.
    - destruct Hh as (E & Hne & ->). destruct (charset_header a) as [|h0 h]; [discriminate E|]. change (aget (h0 :: h) 0) with (Ok h0). cbn [mbind res_bind]. destruct (Z.eqb_spec h0 0) as [->|N]; [destruct Hne; change (Ok [] = Ok c) in E; congruence|]. cbn [negb]. rewrite E. reflexivity.
    - destruct Hh as [E ->]. rewrite E. reflexivity. }
  rewrite (make_canonical_ok dm T HT lit HF) by lia. rewrite Hfit. cbn [mbind res_bind].
  pose proof (emit_length (internal T <$> lit) 0) as He. rewrite length_fmap in He. fold (canonical_text T lit) in He. assert (uL dm (Z.of_nat (length (canonical_text T lit)) + 6) = Z.of_nat (length (canonical_text T lit)) + 6) as -> by (apply Z.mod_small; destruct dm; cbn [long_bits]; [change (2 ^ 32) with 4294967296|change (2 ^ 64) with 18446744073709551616]; lia).
  rewrite write_ctb_len_ok by lia. cbn [mbind res_bind]. rewrite copyfile_all by lia. cbn [mbind res_bind mret res_ret]. unfold literal_packet. rewrite <- !app_assoc. reflexivity.
Qed.
End Reading.

(** C5: Clear signing: for every text of less than 2^30 bytes other than NUL and carriage
    returns, with lines of any length and with or without a newline at the end, and every
    signature in one part, darmor_file puts out from what armor_file writes the signature and
    then a literal packet with exactly the text that make_canonical gives the signer: the
    quoting of dashes and of From undone, the characters converted by the table of the set that
    the Charset header names (or of the set of the reader, who may ignore the header), the
    spaces at the ends of lines stripped, and CR LF between the lines. This is for texts each of
    whose blocks of 4096 bytes has room in textbuf2 with the spaces carried into it, as every
    text of one block has, and for names of character sets of up to 15 bytes that do not end
    with a space. *)
Theorem clear_roundtrip dm fopen language own version charset comment pem_lines to_stdout P name t1 t2 junk g m s ss a : let clear := join s ss in
  let T := init_charset language (if use_charset_header a then charset else own) in let canon := rstrip (internal T <$> s) ++ mjoin ((fun l => 13 :: 10 :: rstrip (internal T <$> l)) <$> ss) in
  header_value version -> header_value charset -> (length charset <= 15)%nat -> charset !! (length charset - 1)%nat <> Some 32 -> comment = [] \/ header_value comment -> section_count dm to_stdout pem_lines (Z.of_nat (length m)) = Ok (1, P) ->
  crc_table dm t1 -> crc_table dm t2 -> length junk = 80%nat -> sized g -> Forall (inU 8) m -> Forall text s -> Forall (Forall text) ss -> Z.of_nat (length clear) < 1073741824 -> canonical_fits clear = true -> Z.of_nat (length name) < 256 -> fresh a ->
  make_canonical dm T true clear = Ok canon /\
  exists text, armor_file dm version charset comment pem_lines to_stdout name t1 junk m (Some clear) = Ok [(name, text)] /\
    (fopen name = Some text -> exists F line, forall fuel, (F <= fuel)%nat -> darmor_file dm fopen t2 g language (init_charset language own) fuel name a = Ok (0, m ++ literal_packet dm canon, Some canon, line)).
Proof.
  intros clear T canon Hv Hcs Hl Hlast Hc HN Ht1 Ht2 Hj Hg HF Hs Hss Hlen Hfit Hname Ha.
  assert (char_set_ok T) as HT by apply init_charset_ok. assert (forall l, Forall text l -> Forall (inU 8) l /\ Forall (fun c => c <> 10) l) as Hbytes by (intros l Hl'; split; (eapply List.Forall_impl; [|exact Hl']); intros c (H1 & H2 & H3); [unfold inU; change (2 ^ 8) with 256; lia|exact H2]).
  assert (canonical_text T clear = canon) as Ecanon.
  { unfold clear, join, canon. apply canonical_lines; [exact HT|apply Hbytes, Hs|apply Hbytes, Hs| |]; (eapply List.Forall_impl; [|exact Hss]; intros l Hl'; apply Hbytes, Hl'). }
  assert (Forall (inU 8) clear) as Hclear.
  { unfold clear, join. apply Forall_app. split; [apply Hbytes, Hs|]. clear - Hss Hbytes. induction Hss as [|l ss Hl' _ IH]; [constructor|]. rewrite fmap_cons. cbn [mjoin list_join app]. apply Forall_cons_2; [unfold inU; change (2 ^ 8) with 256; lia|]. apply Forall_app. split; [apply Hbytes, Hl'|exact IH]. }
  split; [rewrite (make_canonical_ok dm T HT clear Hclear) by lia; rewrite Hfit, Ecanon; reflexivity|].
  unfold armor_file. rewrite HN. cbn [mbind res_bind]. change (1 <? 1) with false. cbn [mret res_ret mbind res_bind]. set (intro := codes "-----BEGIN PGP SIGNED MESSAGE-----" ++ [10; 10]).
  destruct (clear_loop_ok ss s (S (length clear)) junk intro Hj Hs Hss ltac:(unfold clear; pose proof (length_join ss s); lia)) as (b & Hb & Ecl).
  pose proof (armor_sections_ok dm version charset comment 1 P name (fun _ => name) 0 t1 junk m (Some clear) b ((intro ++ join (quoted s) (quoted <$> ss)) ++ [10]) Ht1 (ex_intro _ _ (conj Ecl eq_refl)) Hb HF ltac:(lia) ltac:(lia) (or_introl eq_refl) ltac:(cbn; lia)) as E. cbv zeta iota in E.
  set (head := (((intro ++ join (quoted s) (quoted <$> ss)) ++ [10]) ++ first_line 1 (blocktype m true) ++ unlines (header_lines version charset comment true) ++ [10])) in E. change (Z.to_nat (1 - 1)) with 0%nat in E. change (48 * 0)%nat with 0%nat in E.
  destruct (part_files_head 1 (fun _ => name) (last_line 1 (blocktype m true)) 0 0 1 name head m) as (t & fs & Eh & _). assert (fs = []) as -> by (cbn [part_files] in Eh; congruence). rewrite Eh in E. eexists. split; [exact E|]. intros Hopen.
  destruct (first_line_ok 1 m true ltac:(lia)) as (bl & E1 & B1). unfold head in Hopen. rewrite E1 in Hopen. unfold intro in Hopen. rewrite <- !app_assoc in Hopen.
  pose proof (headers_ok version charset comment true Hv (fun _ => conj Hcs Hl) Hc) as Hh. unfold header_lines in Hh. cbn [app] in Hh. apply Forall_cons_1 in Hh as [Hh1 Hh]. apply Forall_cons_1 in Hh as [Hh2 Hh].
  destruct (darmor_clear_head dm fopen t2 g language (init_charset language own) s ss bl (codes "Version: " ++ version) charset (match comment with [] => [] | _ => [codes "Comment: " ++ comment] end) t name a Hg Hname Hs Hss B1 Ha Hh1 ltac:(discriminate) Hh2 Hl Hlast Hh) as (a' & Va & E');
    [destruct comment; [constructor|apply Forall_cons_2; [discriminate|constructor]]|rewrite Hopen; unfold header_lines; cbn [app]; rewrite <- ?app_assoc; reflexivity|].
  destruct (decode_files dm fopen t2 g (fun _ => name) 1 0 m true a' 0 head t [] Hg Ht2 HF ltac:(lia) ltac:(lia) Eh (Forall_nil_2 _)) as (F & d & Ed & O & Vd). exists F, (infile_line (vars d)). intros fuel Hf. rewrite E', (Ed fuel Hf). cbn [mbind res_bind].
  assert (out d = m) as -> by exact O.
  rewrite (glue_ok dm language (init_charset language own) T charset (use_charset_header a) (vars d) (join s ss) m); [fold clear|rewrite Vd|exact HT|exact Hclear|exact Hlen|exact Hfit].
  - rewrite Ecanon. reflexivity.
  - unfold T. destruct (use_charset_header a); (split; [exact Va|]); [|reflexivity]. split; [destruct charset; [destruct Hcs|discriminate]|reflexivity].
Qed.

(** A dash, a word of the mail format, spaces at the ends of lines, a character of the code page, a long line, and no newline at the end. *)
Definition sample_lines : list (list Z) := [codes "From y  "; [32]; replicate 100 97 ++ [129; 32]].
Definition sample_clear : list Z := join (codes "- x ") sample_lines.
Definition sample_signed : list (list Z * list Z) := files_of (armor_file LP64 sample_version (codes "cp850") [] 720 false (codes "m.asc") (replicate 256 0) (replicate 80 1) [0; 1; 2] (Some sample_clear)).
Lemma sample_signed_ok : armor_file LP64 sample_version (codes "cp850") [] 720 false (codes "m.asc") (replicate 256 0) (replicate 80 1) [0; 1; 2] (Some sample_clear) = Ok sample_signed.
Proof. vm_compute. reflexivity. Qed.

Lemma clear_roundtrip_witness : let canon := codes "- x" ++ [13; 10] ++ codes "From y" ++ [13; 10; 13; 10] ++ replicate 100 97 ++ [252] in
  exists F line, forall fuel, (F <= fuel)%nat -> darmor_file LP64 (file_of sample_signed) (replicate 256 0) no_garbage [] no_char_set fuel (codes "m.asc") (Armor 0 true (replicate 16 0)) = Ok (0, [0; 1; 2] ++ literal_packet LP64 canon, Some canon, line).
Proof.
  assert (header_value sample_version) as Hv by by_eval. assert (header_value (codes "cp850")) as Hcs by by_eval. assert (Forall (inU 8) [0; 1; 2]) as HF by by_eval. assert (Forall text (codes "- x ")) as Hs by by_eval. assert (Forall (Forall text) sample_lines) as Hss by (unfold sample_lines; by_eval).
  destruct (clear_roundtrip LP64 (file_of sample_signed) [] [] sample_version (codes "cp850") [] 720 false 720 (codes "m.asc") (replicate 256 0) (replicate 256 0) (replicate 80 1) no_garbage [0; 1; 2] (codes "- x ") sample_lines (Armor 0 true (replicate 16 0))
    Hv Hcs ltac:(cbn; lia) ltac:(discriminate) (or_introl eq_refl) eq_refl (or_introl eq_refl) (or_introl eq_refl) eq_refl (conj eq_refl (conj eq_refl eq_refl)) HF Hs Hss ltac:(reflexivity) ltac:(vm_compute; reflexivity) ltac:(reflexivity) (conj eq_refl eq_refl)) as (_ & text & E & H).
  fold sample_clear in E. rewrite sample_signed_ok in E. assert (sample_signed = [(codes "m.asc", text)]) as Es by congruence. apply H. rewrite Es. reflexivity.
Defined.

(** With a long of 64 bits the time stamp has eight bytes, which the length of the packet does not count: the packet for a text of one byte has 7 bytes by its header, and 11 are written. *)
Example literal_length : (literal_packet ILP32 [97], literal_packet LP64 [97]) = ([172; 7; 116; 0; 0; 0; 0; 0; 97], [172; 7; 116; 0; 0; 0; 0; 0; 0; 0; 0; 0; 97]).
Proof. vm_compute. reflexivity. Qed.
